(* ===== verification/_CoqProject ===== *)
-Q . S2P
Prelude.v
Buffer.v
Integer.v
PacketId.v
Mtu.v
Crypto.v
Reliable.v
Timing.v
Fragment.v
HashTable.v
Pool.v
Mbuf.v
Schedule.v
Stream.v
Mss.v
ControlAuth.v
Own.v
RelOwn.v
Text.v
Base64.v
Key.v
Prf.v
Tls.v
TlsOk.v
KeyMethod.v
KeyExchange.v
TlsProc.v
TlsLoop.v
TlsKeys.v
Lzo.v
Occ.v
Forward.v
Tunnel.v
TlsRun.v
Mroute.v
Routing.v
RoutingOk.v
RoutingRun.v
Server.v
OptionLine.v
Push.v
PushOk.v
