(* ===== verification/Prelude.v ===== *)
(** * OpenVPN: a verification development of the C sources under src/

    OpenVPN carries IP packets between two peers over UDP or TCP.  A packet read from the tun
    device is compressed (lzo.c), cut into fragments if it is too long (fragment.c), given a
    packet id (packet_id.c), encrypted and authenticated (crypto.c) and sent; the peer undoes
    these steps (forward.c).  The keys are static (crypto.c) or come from a TLS handshake that
    runs over the same link: its records travel in numbered packets (reliable.c) that may carry
    an HMAC of their own (--tls-auth), a handshake is followed by an exchange of key material
    and by the authentication of the peer, and keys are replaced while traffic goes on (ssl.c).
    A server keeps its clients in hash tables (list.c), their timers in a treap (schedule.c),
    packets between them in a queue (mbuf.c) and their addresses in a pool (pool.c), and routes
    packets between them and the tun device by their virtual addresses (multi.c, mroute.c).

    ** How C is modelled (this file)

    [result] is what a piece of C does: [Ok], a failed ASSERT or fatal message ([AssertFail],
    which ends the process), or an access outside of an object ([Fault]).  [M] adds a heap:
    a map from blocks to their bytes, with [load], [store] and [alloc] checking every access.
    [wp m Q h] says that [m] returns from heap [h] with [Q] - so that no ASSERT fails and no
    memory error occurs - and [wlp m Q h] the same of what it returns, if it does.  Integers are
    [Z]; [u8], [u16], [u32] and [i32] are the wrap-arounds of the C types and are written where
    a result can leave its type.  A struct is a record, passed in and returned; pointers that
    matter (buffers, list nodes, key states, tree nodes) are pointers into a heap, keys of a
    store, or places in an object.  The clock, random numbers, what system calls return, and
    OpenSSL, LZO, scripts and plugins are arguments.  Debug output, mutexes and #ifdef branches
    for other platforms are left out; each file says what else it leaves out.

    ** The files

    - Buffer: struct buffer (buffer.c, buffer.h).  Text: C strings, formatted output, character
      classes, gen_path (buffer.c, misc.c).  Own: sets of buffers with disjoint memory.
    - Integer: integer.h, circ_list.h.  Timing: otime.[ch], interval.[ch].  Mtu: mtu.[ch].
    - PacketId: packet_id.[ch].  Crypto: openvpn_encrypt, openvpn_decrypt and the random numbers
      of crypto.c.  Key: the rest of crypto.c: key types, static key files, key directions.
      Fragment: fragment.[ch].  Lzo: lzo.[ch].  Occ: occ.[ch], ping.[ch].
    - Reliable: reliable.[ch], session_id.[ch]; RelOwn: that every operation of it keeps its
      buffers well formed whatever the peer sends.
    - ControlAuth: swap_hmac, write_control_auth, read_control_auth of ssl.c.
    - Tls: key states and sessions of ssl.c and the functions of the data path (tls_pre_decrypt,
      tls_pre_decrypt_lite, tls_pre_encrypt, tls_post_encrypt); TlsOk: its theorems.
    - Prf: key sources and key expansion of ssl.c.  KeyMethod: the messages of key methods 1 and
      2, verify_callback and the authentication of the peer; KeyExchange: both ends of an
      exchange.
    - TlsProc: tls_process and tls_multi_process of ssl.c, over a class [Bio] for OpenSSL's
      BIOs.  TlsLoop: its loop ends.  TlsKeys: an invariant of the key states over every
      sequence of calls.  TlsRun: executions of two ends on a small concrete TLS.
    - Forward: encrypt_sign, process_incoming_link, check_fragment_dowork of forward.c, the
      sending of pings and check messages, the addresses of a link (socket.h).  Tunnel: the
      theorem about their composition.
    - HashTable: list.[ch].  Schedule: schedule.[ch].  Mbuf: mbuf.[ch] and its users in multi.c.
      Pool: pool.[ch] and the part of status.c its file needs.
    - Mroute: mroute.[ch], the network masks of route.c.  Routing: clients, their routes and their
      packets in multi.[ch].  RoutingOk: that lookups and learning are right whatever is cached;
      RoutingRun: connections, networks and the reaper; Server: all of it as a state machine.
    - OptionLine: parse_line of options.c and the loops that read configuration files, command
      lines and pushed options.  Push: push.c, the control channel messages of forward.c and the
      choice of a client's addresses in multi.c; PushOk: that what is pushed arrives.
    - Stream: the TCP framing of socket.c.  Mss: mss.[ch], proto.[ch].  Base64: base64.c.

    Prelude, Buffer, Integer, Timing, Mtu and Text are used by everything else; Crypto uses
    PacketId; Reliable uses Buffer; Routing uses HashTable and Mroute; Tls uses ControlAuth, Crypto and Reliable; TlsProc uses Tls
    and KeyMethod; Forward uses Tls, Crypto, Fragment, Lzo and Occ.  The class
    [ControlChannel] (Push) is what push.c needs of the TLS sessions, which are an instance of it.
    The classes [OpenSSL] (Key),
    [Env] (KeyMethod), [Bio] (TlsProc) and [LzoLib] (Lzo) are the interfaces to code outside of
    the repository.

    ** What the theorems show

    - Data channel: openvpn_decrypt refines a specification on the packet's bytes, inverts
      openvpn_encrypt, drops packets with a wrong HMAC, and never accepts a packet twice; the
      replay window is exactly a set of ids; what goes into encrypt_sign of one peer comes out of
      process_incoming_link of the other; compression, fragmentation and TCP framing are each
      inverted by the receiver, under any order, loss or repetition of fragments and any sizes
      recv returns.
    - Control channel: payloads are delivered in order, without gap or repetition, and progress
      is always possible for an honest sender; tls_pre_decrypt survives any packet and gives data
      packets only to authenticated keys; traffic goes on through a key renegotiation.
    - Keys: both ends derive keys that fit from the bytes they exchange; the PRF is that of RFC
      2246; a key is authenticated only if certificate, name and password checks passed; no key
      encrypts before it has been derived; static keys, key files and base64 round trips.
    - Server: the hash table is a finite map, the treap a priority queue, the packet queue a
      bounded FIFO without leaks, leases of the address pool are disjoint and survive a restart.
      In every state the server can reach, packets go to the longest network of a connected
      client, no client sends from another's address, a client gets what it was configured
      with and loses it when it leaves, reference counts are exact and nothing freed is used.
    - Options: quoted and unquoted parameters are read back as written; the options that a server's
      configuration pushes reach add_option of the client word for word, in order, on the options
      it had before its last pull, without the routes to the client's own networks.
    - Termination: tls_process, the treap's placement, P_hash and the loops of the string and
      key file functions return.
    - Faults of the code, as theorems: a window in which a server accepts clear text, an LZO
      work buffer below the worst case that is provided for, an overrun of struct key, packet
      ids that block the receiver, stream ciphers that end the process, a replay after a
      restart, and pushed options that the client cuts in two.

    ** Bounds and fuel

    Loops over lists and bytes are structural.  Where C loops on a condition the model has fuel
    and running out of it is a value of its own or a [Fault], and a theorem shows that it does not happen: LOOP_MAX = 40
    rounds for tls_process (twelve buffers of the reliability layer, seven states, four plaintext
    and ciphertext buffers bound the rounds), the number of nodes for the hash table and the treap,
    the length of the input for base64, key files, TCP options and certificates' fields.  time_t
    is unbounded; the counters of bytes are 64 bits wide.

    ** Not modelled

    The table of add_option, usage texts and consistency checks (options.c) and the macros of
    helper.c: assignments of some two hundred values that the modelled components take as
    arguments; process set-up (init.c, sig.c, openvpn.c), the event loops (mtcp.c, mudp.c, event.c) and of multi.c the
    table of real addresses, wakeups, scripts and status output; sockets, tun devices and
    routing tables (socket.c, tun.c, route.c: system calls); proxies (proxy.c, ntlm.c, socks.c),
    the management interface (manage.c), plugins, logging, status files, the traffic shaper
    (shaper.c), thread wrappers and everything for Windows only. *)

From stdpp Require Export base decidable list gmap strings numbers option.
From Stdlib Require Export ZArith Lia Bool.

#[export] Set Default Proof Using "Type".
#[export] Set Warnings "-clear-no-such-hyp".

Declare Scope ovpn_scope.
Delimit Scope ovpn_scope with ovpn.
#[global] Open Scope Z_scope.

(** ** Outcomes of C code

    [Ok] is a normal return; [AssertFail] a failed [ASSERT] or a [msg (M_FATAL)]
    (both end the process, src/error.c); [Fault] an access outside an allocated
    object or a NULL dereference. *)

Inductive result (A : Type) : Type :=
| Ok (a : A)
| AssertFail
| Fault.
Arguments Ok {A} a.
Arguments AssertFail {A}.
Arguments Fault {A}.

#[export] Instance result_ret : MRet result := fun A a => Ok a.
#[export] Instance result_bind : MBind result := fun A B f r =>
  match r with Ok a => f a | AssertFail => AssertFail | Fault => Fault end.

Definition assert_ (b : bool) : result unit := if b then Ok tt else AssertFail.

Definition from_opt {A} (o : option A) : result A :=
  match o with Some a => Ok a | None => Fault end.

(** ** The heap

    A pointer is a block and a byte position in it; NULL is [None] at type
    [option ptr].  A block is the list of its bytes, each a [Z] in 0..255. *)

Abbreviation byte := Z (only parsing).
Record ptr := Ptr { blk : positive; pos : Z }.
Abbreviation heap := (gmap positive (list byte)).

#[export] Instance ptr_eq_dec : EqDecision ptr.
Proof. solve_decision. Defined.

Definition Zlen {A} (l : list A) : Z := Z.of_nat (length l).
Definition slice {A} (i n : Z) (l : list A) : list A :=
  take (Z.to_nat n) (drop (Z.to_nat i) l).
Definition splice {A} (i : Z) (new l : list A) : list A :=
  take (Z.to_nat i) l ++ new ++ drop (Z.to_nat i + length new) l.

Definition ptr_add (p : ptr) (d : Z) : ptr := Ptr (blk p) (pos p + d).

Definition in_block (p : ptr) (n : Z) (l : list byte) : bool :=
  (0 <=? pos p) && (0 <=? n) && (pos p + n <=? Zlen l).

Definition mload (h : heap) (p : ptr) (n : Z) : option (list byte) :=
  match h !! blk p with
  | Some l => if in_block p n l then Some (slice (pos p) n l) else None
  | None => None
  end.

Definition mstore (h : heap) (p : ptr) (bs : list byte) : option heap :=
  match h !! blk p with
  | Some l => if in_block p (Zlen bs) l then Some (<[blk p := splice (pos p) bs l]> h) else None
  | None => None
  end.

Definition malloc (h : heap) (bs : list byte) : ptr * heap :=
  let b := fresh (dom h) in (Ptr b 0, <[b := bs]> h).

(** ** The state and error monad of code that touches the heap *)

Definition M (A : Type) : Type := heap -> result (A * heap).

#[export] Instance M_ret : MRet M := fun A a h => Ok (a, h).
#[export] Instance M_bind : MBind M := fun A B f e h =>
  match e h with Ok (a, h') => f a h' | AssertFail => AssertFail | Fault => Fault end.

Definition lift {A} (r : result A) : M A := fun h =>
  match r with Ok a => Ok (a, h) | AssertFail => AssertFail | Fault => Fault end.
Definition ASSERT (b : bool) : M unit := lift (assert_ b).
Definition load (p : ptr) (n : Z) : M (list byte) := fun h =>
  match mload h p n with Some bs => Ok (bs, h) | None => Fault end.
Definition store (p : ptr) (bs : list byte) : M unit := fun h =>
  match mstore h p bs with Some h' => Ok (tt, h') | None => Fault end.
Definition alloc (bs : list byte) : M ptr := fun h =>
  let '(p, h') := malloc h bs in Ok (p, h').
(** Dereferencing a pointer that may be NULL. *)
Definition deref (o : option ptr) : M ptr := lift (from_opt o).

(** Total-correctness triples: the code returns (no failed ASSERT, no bad
    access) and the result satisfies [Q]. *)
Definition wp {A} (e : M A) (Q : A -> heap -> Prop) (h : heap) : Prop :=
  match e h with Ok (a, h') => Q a h' | _ => False end.

Definition returns {A} (r : result A) (Q : A -> Prop) : Prop :=
  match r with Ok a => Q a | _ => False end.

(** ** Machine integers: two's complement, with the wrap-around written out *)

Definition u8 (x : Z) : Z := x mod 256.
Definition u16 (x : Z) : Z := x mod 65536.
Definition u32 (x : Z) : Z := x mod 4294967296.
Definition i32 (x : Z) : Z := (x + 2147483648) mod 4294967296 - 2147483648.

Definition is_byte (x : Z) : Prop := 0 <= x < 256.
Definition is_u32 (x : Z) : Prop := 0 <= x < 4294967296.
Definition is_i32 (x : Z) : Prop := -2147483648 <= x < 2147483648.

#[export] Instance is_byte_dec x : Decision (is_byte x).
Proof. unfold is_byte. apply _. Defined.

(** [flags & bit] as a truth value. *)
Definition flag (flags bit : Z) : bool := negb (Z.land flags bit =? 0).

(** Big-endian (network order) codecs: the bytes in memory of htonl(x), htons(x). *)
Fixpoint be_enc (n : nat) (x : Z) : list byte :=
  match n with
  | O => []
  | S k => u8 (Z.shiftr x (8 * Z.of_nat k)) :: be_enc k x
  end.
Fixpoint be_dec_acc (acc : Z) (l : list byte) : Z :=
  match l with [] => acc | b :: r => be_dec_acc (acc * 256 + b) r end.
Definition be_dec (l : list byte) : Z := be_dec_acc 0 l.

#[global] Arguments u8 : simpl never.
#[global] Arguments u16 : simpl never.
#[global] Arguments u32 : simpl never.
#[global] Arguments i32 : simpl never.
#[global] Arguments slice : simpl never.
#[global] Arguments splice : simpl never.
#[global] Arguments Z.land : simpl never.
#[global] Arguments Z.shiftl : simpl never.
#[global] Arguments Z.shiftr : simpl never.
#[global] Arguments Z.testbit : simpl never.

(** ** Lemmas: machine integers *)

Create HintDb ovpn.

Lemma i32_id x : is_i32 x -> i32 x = x.
Proof. unfold is_i32, i32. intros. rewrite Z.mod_small; lia. Qed.
Lemma u32_id x : is_u32 x -> u32 x = x.
Proof. unfold is_u32, u32. intros. apply Z.mod_small; lia. Qed.
Lemma u8_id x : is_byte x -> u8 x = x.
Proof. unfold is_byte, u8. intros. apply Z.mod_small; lia. Qed.
Lemma u8_range x : is_byte (u8 x).
Proof. apply Z.mod_pos_bound. lia. Qed.
Lemma u16_range x : 0 <= u16 x < 65536.
Proof. apply Z.mod_pos_bound. lia. Qed.
Lemma u32_range x : is_u32 (u32 x).
Proof. apply Z.mod_pos_bound. lia. Qed.
Lemma i32_range x : is_i32 (i32 x).
Proof. unfold is_i32, i32. pose proof (Z.mod_pos_bound (x + 2147483648) 4294967296). lia. Qed.
#[export] Hint Resolve u8_range u16_range u32_range i32_range : ovpn.

Lemma flag_testbit x k : 0 <= k -> flag x (Z.shiftl 1 k) = Z.testbit x k.
Proof.
  intros. unfold flag. rewrite Z.shiftl_1_l.
  destruct (Z.land x (2 ^ k) =? 0) eqn:E; simpl; symmetry.
  - apply Z.eqb_eq in E. apply (f_equal (fun y => Z.testbit y k)) in E.
    rewrite Z.land_spec, Z.pow2_bits_true, Z.bits_0, andb_true_r in E by lia. done.
  - apply not_false_iff_true. intros Hk. apply Z.eqb_neq in E. apply E.
    apply Z.bits_inj_iff. intros n. rewrite Z.land_spec, Z.bits_0.
    destruct (decide (n = k)) as [->|]; [by rewrite Hk|].
    by rewrite Z.pow2_bits_false, andb_false_r by lia.
Qed.

(** Fields packed into a word: or of disjoint bits is a sum. *)
Lemma lor_shiftl_add a b k : 0 <= k -> 0 <= a < 2 ^ k -> Z.lor a (Z.shiftl b k) = a + b * 2 ^ k.
Proof.
  intros Hk Ha. rewrite <- Z.shiftl_mul_pow2 by lia.
  assert (Z.land a (Z.shiftl b k) = 0) as Hd.
  { apply Z.bits_inj_iff'. intros n Hn. rewrite Z.land_spec, Z.bits_0.
    destruct (decide (n < k)).
    - by rewrite Z.shiftl_spec_low, andb_false_r by lia.
    - rewrite <- (Z.mod_small a (2 ^ k)) by lia. by rewrite Z.mod_pow2_bits_high by lia. }
  by rewrite Z.add_nocarry_lxor, Z.lxor_lor by done.
Qed.

(** Remove a wrap whose argument is in range. *)
Ltac wrap_simp :=
  repeat match goal with
  | |- context [i32 ?x] => rewrite (i32_id x) by (unfold is_i32, is_u32, is_byte in *; lia)
  | |- context [u32 ?x] => rewrite (u32_id x) by (unfold is_i32, is_u32, is_byte in *; lia)
  | |- context [u8 ?x] => rewrite (u8_id x) by (unfold is_i32, is_u32, is_byte in *; lia)
  | H : context [i32 ?x] |- _ => rewrite (i32_id x) in H by (unfold is_i32, is_u32, is_byte in *; lia)
  | H : context [u32 ?x] |- _ => rewrite (u32_id x) in H by (unfold is_i32, is_u32, is_byte in *; lia)
  end.

(** Turn boolean comparisons in the context and goal into propositions. *)
Ltac bool_simp :=
  repeat match goal with
  | H : (_ && _)%bool = true |- _ => apply andb_true_iff in H as [? ?]
  | H : (_ || _)%bool = false |- _ => apply orb_false_iff in H as [? ?]
  | H : negb _ = true |- _ => apply negb_true_iff in H
  | H : negb _ = false |- _ => apply negb_false_iff in H
  | H : (_ <=? _) = true |- _ => apply Z.leb_le in H
  | H : (_ <=? _) = false |- _ => apply Z.leb_gt in H
  | H : (_ <? _) = true |- _ => apply Z.ltb_lt in H
  | H : (_ <? _) = false |- _ => apply Z.ltb_ge in H
  | H : (_ =? _) = true |- _ => apply Z.eqb_eq in H
  | H : (_ =? _) = false |- _ => apply Z.eqb_neq in H
  | H : (_ >=? _) = _ |- _ => rewrite Z.geb_leb in H
  | H : (_ >? _) = _ |- _ => rewrite Z.gtb_ltb in H
  end.

(** A comparison whose value follows from the context. *)
Ltac blia :=
  match goal with
  | |- true = _ => symmetry
  | |- false = _ => symmetry
  | _ => idtac
  end;
  rewrite ?Z.geb_leb, ?Z.gtb_ltb;
  first [apply Z.leb_le | apply Z.ltb_lt | apply Z.eqb_eq
        | apply Z.leb_gt | apply Z.ltb_ge | apply Z.eqb_neq]; lia.

(** Case analysis on the first boolean test of the goal. *)
Ltac case_test :=
  match goal with
  | |- context [if ?b then _ else _] => let E := fresh "E" in destruct b eqn:E
  end; bool_simp.

(** ** Lemmas: slices *)

Lemma Zlen_nonneg {A} (l : list A) : 0 <= Zlen l.
Proof. unfold Zlen. lia. Qed.
Lemma Zlen_app {A} (l k : list A) : Zlen (l ++ k) = Zlen l + Zlen k.
Proof. unfold Zlen. rewrite length_app. lia. Qed.
Lemma Zlen_cons {A} (x : A) l : Zlen (x :: l) = 1 + Zlen l.
Proof. unfold Zlen. simpl. lia. Qed.
Lemma Zlen_nil {A} : Zlen (@nil A) = 0.
Proof. reflexivity. Qed.

Lemma Zlen_slice {A} i n (l : list A) :
  0 <= i -> 0 <= n -> i + n <= Zlen l -> Zlen (slice i n l) = n.
Proof. unfold Zlen, slice. intros. rewrite length_take, length_drop. lia. Qed.
Lemma Zlen_splice {A} i (new l : list A) :
  0 <= i -> i + Zlen new <= Zlen l -> Zlen (splice i new l) = Zlen l.
Proof.
  unfold Zlen, splice. intros. rewrite !length_app, length_take, length_drop. lia.
Qed.
Lemma slice_all {A} (l : list A) : slice 0 (Zlen l) l = l.
Proof. unfold slice, Zlen. rewrite Nat2Z.id. apply take_ge. simpl. lia. Qed.
Lemma slice_nil {A} i (l : list A) : slice i 0 l = [].
Proof. reflexivity. Qed.
Lemma slice_slice {A} i n j m (l : list A) :
  0 <= i -> 0 <= j -> 0 <= m -> j + m <= n ->
  slice j m (slice i n l) = slice (i + j) m l.
Proof.
  intros. unfold slice. rewrite skipn_firstn_comm, take_take, drop_drop.
  f_equal; [|f_equal]; lia.
Qed.
Lemma slice_join {A} i n m (l : list A) :
  0 <= i -> 0 <= n -> 0 <= m -> slice i (n + m) l = slice i n l ++ slice (i + n) m l.
Proof.
  intros. unfold slice. rewrite Z2Nat.inj_add by lia.
  rewrite <- take_take_drop, drop_drop. do 3 f_equal. lia.
Qed.
Lemma slice_app_l {A} i n (l k : list A) :
  0 <= i -> 0 <= n -> i + n <= Zlen l -> slice i n (l ++ k) = slice i n l.
Proof.
  unfold Zlen. intros. unfold slice.
  rewrite drop_app_le by lia. rewrite take_app_le; [done|]. rewrite length_drop. lia.
Qed.
Lemma slice_app_r {A} i n (l k : list A) :
  Zlen l <= i -> slice i n (l ++ k) = slice (i - Zlen l) n k.
Proof.
  unfold Zlen. intros. unfold slice. rewrite drop_app_ge by lia. do 2 f_equal. lia.
Qed.
Lemma slice_splice_same {A} i (new l : list A) :
  0 <= i -> i + Zlen new <= Zlen l -> slice i (Zlen new) (splice i new l) = new.
Proof.
  unfold Zlen. intros. unfold splice.
  assert (length (take (Z.to_nat i) l) = Z.to_nat i) by (rewrite length_take; lia).
  rewrite slice_app_r by (unfold Zlen; lia).
  rewrite slice_app_l by (unfold Zlen; lia).
  replace (i - Zlen _) with 0 by (unfold Zlen; lia). apply slice_all.
Qed.
Lemma slice_splice_before {A} i j n (new l : list A) :
  0 <= j -> 0 <= n -> j + n <= i -> i + Zlen new <= Zlen l ->
  slice j n (splice i new l) = slice j n l.
Proof.
  intros. pose proof (Zlen_nonneg new). unfold splice.
  rewrite slice_app_l by (unfold Zlen in *; rewrite ?length_take; lia).
  unfold slice, Zlen in *. rewrite skipn_firstn_comm, take_take. f_equal. lia.
Qed.
Lemma slice_splice_after {A} i j n (new l : list A) :
  0 <= i -> i + Zlen new <= j -> i + Zlen new <= Zlen l ->
  slice j n (splice i new l) = slice j n l.
Proof.
  intros. unfold splice.
  assert (Zlen (take (Z.to_nat i) l) = i)
    by (unfold Zlen in *; rewrite length_take; lia).
  pose proof (Zlen_nonneg new).
  rewrite !slice_app_r by lia.
  unfold slice, Zlen in *. rewrite drop_drop. do 2 f_equal. lia.
Qed.

Lemma Forall_slice {A} (P : A -> Prop) i n l : Forall P l -> Forall P (slice i n l).
Proof. intros. unfold slice. auto using Forall_take, Forall_drop. Qed.
Lemma Forall_splice {A} (P : A -> Prop) i new l :
  Forall P l -> Forall P new -> Forall P (splice i new l).
Proof.
  intros. unfold splice. rewrite !Forall_app. auto using Forall_take, Forall_drop.
Qed.
#[export] Hint Resolve Forall_slice Forall_splice : ovpn.

(** ** Lemmas: big-endian codecs *)

Lemma length_be_enc n x : length (be_enc n x) = n.
Proof. induction n; cbn [be_enc length]; congruence. Qed.
Lemma Zlen_be_enc n x : Zlen (be_enc n x) = Z.of_nat n.
Proof. unfold Zlen. by rewrite length_be_enc. Qed.
Lemma be_enc_bytes n x : Forall is_byte (be_enc n x).
Proof. induction n; cbn [be_enc]; auto with ovpn. Qed.
#[export] Hint Resolve be_enc_bytes : ovpn.

Lemma be_dec_acc_app acc l k : be_dec_acc acc (l ++ k) = be_dec_acc (be_dec_acc acc l) k.
Proof. revert acc. induction l; cbn; auto. Qed.

Lemma be_dec_acc_enc n acc x :
  be_dec_acc acc (be_enc n x) = acc * 256 ^ Z.of_nat n + x mod 256 ^ Z.of_nat n.
Proof.
  revert acc. induction n as [|n IH]; intros acc; cbn [be_enc be_dec_acc].
  { rewrite Z.pow_0_r, Z.mod_1_r. lia. }
  rewrite IH. unfold u8. rewrite Z.shiftr_div_pow2 by lia.
  replace (2 ^ (8 * Z.of_nat n)) with (256 ^ Z.of_nat n)
    by (change 256 with (2 ^ 8); rewrite <- Z.pow_mul_r; [done|lia..]).
  rewrite Nat2Z.inj_succ, Z.pow_succ_r by lia.
  set (q := 256 ^ Z.of_nat n). assert (0 < q) by (apply Z.pow_pos_nonneg; lia).
  rewrite (Z.mul_comm 256 q), (Z.rem_mul_r x q 256) by lia. lia.
Qed.

Lemma be_dec_enc n x : 0 <= x < 256 ^ Z.of_nat n -> be_dec (be_enc n x) = x.
Proof. intros. unfold be_dec. rewrite be_dec_acc_enc, Z.mod_small; lia. Qed.

Lemma be_dec_acc_bound l acc :
  Forall is_byte l -> 0 <= acc ->
  acc * 256 ^ Zlen l <= be_dec_acc acc l < (acc + 1) * 256 ^ Zlen l.
Proof.
  intros Hl. revert acc. induction Hl as [|b l Hb Hl IH]; intros acc Ha; cbn [be_dec_acc].
  { unfold Zlen. simpl. lia. }
  specialize (IH (acc * 256 + b)). unfold is_byte in *.
  rewrite Zlen_cons. rewrite Z.pow_add_r by (pose proof (Zlen_nonneg l); lia).
  assert (0 < 256 ^ Zlen l) by (apply Z.pow_pos_nonneg; pose proof (Zlen_nonneg l); lia).
  nia.
Qed.

Lemma be_dec_bound l : Forall is_byte l -> 0 <= be_dec l < 256 ^ Zlen l.
Proof. intros H. pose proof (be_dec_acc_bound l 0 H). unfold be_dec. lia. Qed.

Lemma be_enc_snoc n x : be_enc (S n) x = be_enc n (Z.shiftr x 8) ++ [u8 x].
Proof.
  induction n as [|n IH].
  { cbn [be_enc app Z.of_nat]. by rewrite Z.shiftr_0_r. }
  change (be_enc (S (S n)) x) with (u8 (Z.shiftr x (8 * Z.of_nat (S n))) :: be_enc (S n) x).
  rewrite IH.
  change (be_enc (S n) (Z.shiftr x 8)) with
    (u8 (Z.shiftr (Z.shiftr x 8) (8 * Z.of_nat n)) :: be_enc n (Z.shiftr x 8)).
  rewrite Z.shiftr_shiftr by lia. simpl. do 3 f_equal. lia.
Qed.

Lemma be_enc_dec l : Forall is_byte l -> be_enc (length l) (be_dec l) = l.
Proof.
  intros H. induction l as [|b l IH] using rev_ind; [done|].
  apply Forall_app in H as [Hl Hb]. apply Forall_inv in Hb.
  rewrite length_app, Nat.add_1_r, be_enc_snoc.
  unfold be_dec in *. rewrite be_dec_acc_app. cbn [be_dec_acc].
  f_equal.
  - rewrite Z.shiftr_div_pow2 by lia. change (2 ^ 8) with 256.
    rewrite Z.div_add_l by lia. unfold is_byte in Hb. rewrite (Z.div_small b 256) by lia.
    rewrite Z.add_0_r. auto.
  - unfold u8. f_equal. rewrite Z.add_comm, Z.mod_add by lia. apply Z.mod_small, Hb.
Qed.

#[global] Arguments be_enc : simpl never.
#[global] Arguments be_dec : simpl never.

(** ** Lemmas: the heap *)

(** [modifies h h' p n]: [h'] differs from [h] at most in the [n] bytes at [p],
    and every block keeps its length. *)
Definition ptr_disjoint (q : ptr) (k : Z) (p : ptr) (n : Z) : Prop :=
  blk q <> blk p \/ pos q + k <= pos p \/ pos p + n <= pos q.

Record modifies (h h' : heap) (p : ptr) (n : Z) : Prop := {
  mod_frame : forall q k, 0 <= k -> ptr_disjoint q k p n -> mload h' q k = mload h q k;
  mod_valid : forall q k, is_Some (mload h' q k) <-> is_Some (mload h q k)
}.

Lemma modifies_refl h p n : modifies h h p n.
Proof. by split. Qed.

Lemma modifies_trans h1 h2 h3 p n :
  modifies h1 h2 p n -> modifies h2 h3 p n -> modifies h1 h3 p n.
Proof.
  intros [F1 V1] [F2 V2]. split; intros.
  - rewrite F2, F1; auto.
  - by rewrite V2, V1.
Qed.

Lemma modifies_widen h h' p n q m :
  modifies h h' q m -> blk q = blk p -> pos p <= pos q -> pos q + m <= pos p + n ->
  modifies h h' p n.
Proof.
  intros [F V] Hb Hp Hn. split; [|done].
  intros r k Hk Hd. apply F; [done|]. unfold ptr_disjoint in *. rewrite Hb. lia.
Qed.

Lemma mload_Some h p n bs :
  mload h p n = Some bs <->
  exists l, h !! blk p = Some l /\ 0 <= pos p /\ 0 <= n /\ pos p + n <= Zlen l /\
            bs = slice (pos p) n l.
Proof.
  unfold mload, in_block. split.
  - destruct (h !! blk p) as [l|] eqn:E; [|done]. case_test; [|done].
    intros [= <-]. exists l. repeat split; auto; lia.
  - intros (l & -> & ? & ? & ? & ->).
    by rewrite (proj2 (Z.leb_le _ _)), (proj2 (Z.leb_le _ _)), (proj2 (Z.leb_le _ _)) by lia.
Qed.

Lemma mload_Zlen h p n bs : mload h p n = Some bs -> Zlen bs = n.
Proof. intros (l & ? & ? & ? & ? & ->)%mload_Some. apply Zlen_slice; lia. Qed.

Lemma mload_sub h p n bs i k :
  mload h p n = Some bs -> 0 <= i -> 0 <= k -> i + k <= n ->
  mload h (ptr_add p i) k = Some (slice i k bs).
Proof.
  intros (l & ? & ? & ? & ? & ->)%mload_Some ???. apply mload_Some. exists l.
  unfold ptr_add; simpl. repeat split; auto; try lia.
  by rewrite slice_slice by lia.
Qed.

Lemma mload_app h p n m a b :
  mload h p n = Some a -> mload h (ptr_add p n) m = Some b ->
  mload h p (n + m) = Some (a ++ b).
Proof.
  intros (l & ? & ? & ? & ? & ->)%mload_Some (l' & ? & ? & ? & ? & ->)%mload_Some.
  simpl in *. simplify_eq. apply mload_Some. exists l. repeat split; auto; try lia.
  by rewrite slice_join by lia.
Qed.

Lemma mload_sub_valid h p n i k :
  is_Some (mload h p n) -> 0 <= i -> 0 <= k -> i + k <= n ->
  is_Some (mload h (ptr_add p i) k).
Proof. intros [bs H] **. eexists. eapply mload_sub; eauto. Qed.

Lemma mstore_spec h p bs :
  is_Some (mload h p (Zlen bs)) ->
  exists h', mstore h p bs = Some h' /\ mload h' p (Zlen bs) = Some bs /\
             modifies h h' p (Zlen bs).
Proof.
  intros [bs0 (l & Hl & Hp & Hn & Hle & ->)%mload_Some].
  exists (<[blk p := splice (pos p) bs l]> h).
  assert (in_block p (Zlen bs) l = true) as Hin by (unfold in_block; lia).
  unfold mstore. rewrite Hl, Hin. split; [done|]. split.
  { apply mload_Some. exists (splice (pos p) bs l). rewrite lookup_insert_eq, Zlen_splice by lia.
    repeat split; auto; try lia. by rewrite slice_splice_same by lia. }
  assert (forall q, blk q = blk p \/ blk q <> blk p) as Hdec.
  { intros q. destruct (decide (blk q = blk p)); auto. }
  split.
  - intros q k Hk Hd. unfold mload. destruct (Hdec q) as [Hq|Hq].
    2:{ by rewrite lookup_insert_ne by congruence. }
    rewrite Hq, lookup_insert_eq, Hl. unfold in_block. rewrite Zlen_splice by lia.
    case_test; [|done]. f_equal. destruct Hd as [?|[?|?]]; [done|..].
    + apply slice_splice_before; lia.
    + apply slice_splice_after; lia.
  - intros q k. unfold mload. destruct (Hdec q) as [Hq|Hq].
    2:{ by rewrite lookup_insert_ne by congruence. }
    rewrite Hq, lookup_insert_eq, Hl. unfold in_block. rewrite Zlen_splice by lia.
    case_test; split; intros []; done.
Qed.

Lemma malloc_spec h bs p h' :
  malloc h bs = (p, h') ->
  pos p = 0 /\ h !! blk p = None /\ h' = <[blk p := bs]> h.
Proof.
  unfold malloc. intros [= <- <-]. simpl. repeat split.
  apply not_elem_of_dom, is_fresh.
Qed.

Lemma malloc_load h bs p h' :
  malloc h bs = (p, h') ->
  mload h' p (Zlen bs) = Some bs /\
  forall q k x, mload h q k = Some x -> mload h' q k = Some x /\ blk q <> blk p.
Proof.
  intros (Hp & Hn & ->)%malloc_spec. split.
  - apply mload_Some. exists bs. rewrite lookup_insert_eq, Hp.
    repeat split; auto using Zlen_nonneg; try lia. by rewrite slice_all.
  - intros q k x H. assert (blk q <> blk p).
    { apply mload_Some in H as (l & ? & _). congruence. }
    split; [|done]. unfold mload in *. by rewrite lookup_insert_ne by congruence.
Qed.

(** ** Lemmas: triples *)

Lemma wp_ret {A} (a : A) Q h : wp (mret a) Q h <-> Q a h.
Proof. done. Qed.
Lemma wp_bind {A B} (e : M A) (f : A -> M B) Q h :
  wp (e ≫= f) Q h <-> wp e (fun a h' => wp (f a) Q h') h.
Proof. unfold wp, mbind, M_bind. by destruct (e h) as [[]| |]. Qed.
Lemma wp_mono {A} (e : M A) (P Q : A -> heap -> Prop) h :
  wp e P h -> (forall a h', P a h' -> Q a h') -> wp e Q h.
Proof. unfold wp. destruct (e h) as [[]| |]; auto. Qed.
Lemma wp_Ok {A} (e : M A) Q h : wp e Q h <-> exists a h', e h = Ok (a, h') /\ Q a h'.
Proof.
  unfold wp. split.
  - destruct (e h) as [[a h']| |]; [eauto|done..].
  - by intros (a & h' & -> & ?).
Qed.
Lemma wp_ASSERT b Q h : b = true -> Q tt h -> wp (ASSERT b) Q h.
Proof. by intros ->. Qed.
Lemma wp_lift {A} (r : result A) a Q h : r = Ok a -> Q a h -> wp (lift r) Q h.
Proof. by intros ->. Qed.
Lemma wp_deref p Q h : Q p h -> wp (deref (Some p)) Q h.
Proof. done. Qed.
Lemma wp_load p n bs Q h : mload h p n = Some bs -> Q bs h -> wp (load p n) Q h.
Proof. unfold wp, load. by intros ->. Qed.
Lemma wp_store p bs (Q : unit -> heap -> Prop) h :
  is_Some (mload h p (Zlen bs)) ->
  (forall h', mload h' p (Zlen bs) = Some bs -> modifies h h' p (Zlen bs) -> Q tt h') ->
  wp (store p bs) Q h.
Proof.
  intros (h' & E & ? & ?)%mstore_spec HQ. unfold wp, store. rewrite E. auto.
Qed.

(** The process ends by a failed ASSERT. *)
Definition aborts {A} (e : M A) (h : heap) : Prop := e h = AssertFail.
Lemma aborts_here {A B} (e : M A) (f : A -> M B) h : aborts e h -> aborts (e ≫= f) h.
Proof. unfold aborts, mbind, M_bind. by intros ->. Qed.
Lemma aborts_later {A B} (e : M A) (f : A -> M B) h :
  wp e (fun a h' => aborts (f a) h') h -> aborts (e ≫= f) h.
Proof. unfold aborts, wp, mbind, M_bind. by destruct (e h) as [[]| |]. Qed.

(** One step of a triple: binds are split, returns and pure steps removed. *)
Ltac wp_step :=
  match goal with
  | |- wp (_ ≫= _) _ _ => apply wp_bind
  | |- wp (mret _) _ _ => apply wp_ret
  | |- wp (deref (Some _)) _ _ => apply wp_deref
  | |- wp (ASSERT true) _ _ => apply wp_ASSERT; [reflexivity|]
  end.
Ltac wp_steps := cbn [negb fst snd]; repeat (wp_step; cbn [negb fst snd]).

(** The postcondition holds if the command returns: for statements about every outcome. *)
Definition wlp {A} (e : M A) (Q : A -> heap -> Prop) (h : heap) : Prop :=
  match e h with Ok (a, h') => Q a h' | _ => True end.
Lemma wlp_ret {A} (a : A) Q h : wlp (mret a) Q h <-> Q a h.
Proof. done. Qed.
Lemma wlp_bind {A B} (e : M A) (f : A -> M B) Q h :
  wlp (e ≫= f) Q h <-> wlp e (fun a h' => wlp (f a) Q h') h.
Proof. unfold wlp, mbind, M_bind. by destruct (e h) as [[]| |]. Qed.
Lemma wlp_mono {A} (e : M A) (P Q : A -> heap -> Prop) h :
  wlp e P h -> (forall a h', P a h' -> Q a h') -> wlp e Q h.
Proof. unfold wlp. destruct (e h) as [[]| |]; auto. Qed.
Lemma wlp_any {A} (e : M A) (Q : A -> heap -> Prop) h : (forall a h', Q a h') -> wlp e Q h.
Proof. unfold wlp. destruct (e h) as [[]| |]; auto. Qed.
Lemma wlp_lift {A} (r : result A) (Q : A -> heap -> Prop) h : (forall a, r = Ok a -> Q a h) -> wlp (lift r) Q h.
Proof. unfold wlp, lift. destruct r; auto. Qed.
Lemma wlp_Ok {A} (e : M A) (Q : A -> heap -> Prop) h a h' : wlp e Q h -> e h = Ok (a, h') -> Q a h'.
Proof. unfold wlp. intros H E. by rewrite E in H. Qed.

(** One step of such a statement, and all steps. *)
Ltac wlp_step :=
  match goal with
  | |- wlp (_ ≫= _) _ _ => apply wlp_bind
  | |- wlp (mret _) _ _ => apply wlp_ret
  end.
Ltac wlp_steps := cbn [negb fst snd]; repeat (wlp_step; cbn [negb fst snd]).
(** Nothing is known of the result of the first command. *)
Ltac wlp_skip := wlp_steps; apply wlp_any; intros.

Tactic Notation "wlp_skip" "as" simple_intropattern(x) := wlp_steps; apply wlp_any; intros x ?; wlp_steps.
(** The first command is a pure computation with result [x]. *)
Lemma from_opt_Ok {A} (o : option A) a : from_opt o = Ok a -> o = Some a.
Proof. destruct o; [by intros [= ->]|done]. Qed.
Ltac wlp_from x Hx := wlp_steps; apply wlp_lift; intros x Hx; try (apply from_opt_Ok in Hx).

(** Use a proved triple for the first command of the goal. *)
Tactic Notation "wp_use" uconstr(L) := eapply wp_mono; [eapply L|]; eauto.

Lemma Zlen_be_enc4 x : Zlen (be_enc 4 x) = 4.
Proof. apply Zlen_be_enc. Qed.
Lemma Zlen_be_enc2 x : Zlen (be_enc 2 x) = 2.
Proof. apply Zlen_be_enc. Qed.
