(* ===== verification/Buffer.v ===== *)
(** src/buffer.h and src/buffer.c: the buffer class every packet routine is
    written against, its string and character helpers, and the memory-safety
    and functional specification of each operation.

    A [struct buffer] passed by address is taken as an argument and returned.
    [b_data] points into the heap of Prelude.v, so two buffers can share bytes
    (as buf_sub, stream_buf and fragment_ready_to_send make them do). *)

From S2P Require Import Prelude.

(** ** struct buffer *)

Record buffer := Buf {
  b_capacity : Z;        (* int capacity *)
  b_offset : Z;          (* int offset *)
  b_len : Z;             (* int len *)
  b_data : option ptr    (* uint8_t *data *)
}.

#[export] Instance buffer_eq_dec : EqDecision buffer.
Proof. solve_decision. Defined.

Definition with_len (b : buffer) (n : Z) : buffer :=
  Buf (b_capacity b) (b_offset b) n (b_data b).
Definition with_offset_len (b : buffer) (o n : Z) : buffer :=
  Buf (b_capacity b) o n (b_data b).

Definition BPTR (b : buffer) : option ptr := (fun p => ptr_add p (b_offset b)) <$> b_data b.
Definition BEND (b : buffer) : option ptr := (fun p => ptr_add p (b_len b)) <$> BPTR b.
Definition BLAST (b : buffer) : option ptr :=
  match b_data b with
  | Some _ => if b_len b =? 0 then None else (fun p => ptr_add p (b_len b - 1)) <$> BPTR b
  | None => None
  end.
Definition BLEN (b : buffer) : Z := b_len b.
Definition BDEF (b : buffer) : bool := match b_data b with Some _ => true | None => false end.

Definition clear_buf : buffer := Buf 0 0 0 None.
Definition buf_reset : buffer := Buf 0 0 0 None.
Definition buf_defined (b : buffer) : bool := BDEF b.

(** buf_init is a macro for buf_init_dowork (buffer.h, BUF_INIT_TRACKING off). *)
Definition buf_init (b : buffer) (offset : Z) : bool * buffer :=
  if (offset <? 0) || (offset >? b_capacity b) || negb (BDEF b) then (false, b)
  else (true, with_offset_len b offset 0).

Definition buf_set_write (data : option ptr) (size : Z) : M buffer :=
  _ ← match data with
      | Some p => if size >? 0 then store p [0] else mret tt
      | None => mret tt
      end;
  mret (Buf size 0 0 data).

Definition buf_set_read (data : option ptr) (size : Z) : buffer := Buf size 0 size data.

(** ** Capacity tests: int arithmetic, wrapping at 32 bits *)

Definition buf_safe (b : buffer) (len : Z) : bool :=
  (len >=? 0) && (i32 (i32 (b_offset b + b_len b) + len) <=? b_capacity b).

Definition buf_safe_bidir (b : buffer) (len : Z) : bool :=
  let newlen := i32 (b_len b + len) in
  (newlen >=? 0) && (i32 (b_offset b + newlen) <=? b_capacity b).

Definition buf_forward_capacity (b : buffer) : Z :=
  let ret := i32 (b_capacity b - i32 (b_offset b + b_len b)) in
  if ret <? 0 then 0 else ret.

Definition buf_forward_capacity_total (b : buffer) : Z :=
  let ret := i32 (b_capacity b - b_offset b) in
  if ret <? 0 then 0 else ret.

Definition buf_reverse_capacity (b : buffer) : Z := b_offset b.

(** ** Moving the window *)

Definition buf_inc_len (b : buffer) (inc : Z) : bool * buffer :=
  if negb (buf_safe_bidir b inc) then (false, b)
  else (true, with_len b (i32 (b_len b + inc))).

Definition buf_prepend (b : buffer) (size : Z) : option ptr * buffer :=
  if (size <? 0) || (size >? b_offset b) then (None, b)
  else
    let b' := with_offset_len b (b_offset b - size) (i32 (b_len b + size)) in
    (BPTR b', b').

Definition buf_advance (b : buffer) (size : Z) : bool * buffer :=
  if (size <? 0) || (b_len b <? size) then (false, b)
  else (true, with_offset_len b (i32 (b_offset b + size)) (b_len b - size)).

Definition buf_write_alloc (b : buffer) (size : Z) : option ptr * buffer :=
  if negb (buf_safe b size) then (None, b)
  else (BEND b, with_len b (i32 (b_len b + size))).

Definition buf_write_alloc_prepend (b : buffer) (size : Z) (prepend : bool) : option ptr * buffer :=
  if prepend then buf_prepend b size else buf_write_alloc b size.

Definition buf_read_alloc (b : buffer) (size : Z) : option ptr * buffer :=
  if (size <? 0) || (b_len b <? size) then (None, b)
  else (BPTR b, with_offset_len b (i32 (b_offset b + size)) (b_len b - size)).

(** ** Writing.  [buf_write_with] is buf_write with the source bytes still to be
    read ([buf_copy]); [buf_write] has them in a local variable. *)

Definition buf_write_with (dest : buffer) (size : Z) (src : M (list byte)) : M (bool * buffer) :=
  match buf_write_alloc dest size with
  | (None, dest') => mret (false, dest')
  | (Some cp, dest') => bs ← src; _ ← store cp bs; mret (true, dest')
  end.
Definition buf_write (dest : buffer) (src : list byte) : M (bool * buffer) :=
  buf_write_with dest (Zlen src) (mret src).

Definition buf_write_prepend (dest : buffer) (src : list byte) : M (bool * buffer) :=
  match buf_prepend dest (Zlen src) with
  | (None, dest') => mret (false, dest')
  | (Some cp, dest') => _ ← store cp src; mret (true, dest')
  end.

Definition buf_write_u8 (dest : buffer) (d : Z) : M (bool * buffer) := buf_write dest [u8 d].
Definition buf_write_u16 (dest : buffer) (d : Z) : M (bool * buffer) :=
  buf_write dest (be_enc 2 (u16 d)).
Definition buf_write_u32 (dest : buffer) (d : Z) : M (bool * buffer) :=
  buf_write dest (be_enc 4 (u32 d)).

Definition buf_copy (dest src : buffer) : M (bool * buffer) :=
  buf_write_with dest (BLEN src) (p ← deref (BPTR src); load p (BLEN src)).

Definition buf_copy_n (dest src : buffer) (n : Z) : M (bool * buffer * buffer) :=
  match buf_read_alloc src n with
  | (None, src') => mret (false, dest, src')
  | (Some cp, src') =>
      '(ok, dest') ← buf_write_with dest n (load cp n);
      mret (ok, dest', src')
  end.

Definition buf_copy_range (dest : buffer) (dest_index : Z) (src : buffer) (src_index src_len : Z)
  : M (bool * buffer) :=
  if (src_index <? 0) || (src_len <? 0) || (i32 (src_index + src_len) >? b_len src)
     || (dest_index <? 0)
     || (i32 (i32 (b_offset dest + dest_index) + src_len) >? b_capacity dest)
  then mret (false, dest)
  else
    sp ← deref (b_data src);
    bs ← load (ptr_add sp (b_offset src + src_index)) src_len;
    dp ← deref (b_data dest);
    _ ← store (ptr_add dp (b_offset dest + dest_index)) bs;
    mret (true, if i32 (dest_index + src_len) >? b_len dest
                then with_len dest (i32 (dest_index + src_len)) else dest).

(** truncate src to len, copy excess data beyond len to dest *)
Definition buf_copy_excess (dest src : buffer) (len : Z) : M (bool * buffer * buffer) :=
  if len <? 0 then mret (false, dest, src)
  else if b_len src >? len then
    let b := src in
    let src' := with_len src len in
    match buf_advance b len with
    | (false, _) => mret (false, dest, src')
    | (true, b') => '(ok, dest') ← buf_copy dest b'; mret (ok, dest', src')
    end
  else mret (true, dest, src).

(** ** Reading.  [buf_read] returns the bytes copied to its destination. *)

Definition buf_read (src : buffer) (size : Z) : M (option (list byte) * buffer) :=
  match buf_read_alloc src size with
  | (None, src') => mret (None, src')
  | (Some cp, src') => bs ← load cp size; mret (Some bs, src')
  end.

Definition buf_read_u8 (b : buffer) : M (Z * buffer) :=
  if BLEN b <? 1 then mret (-1, b)
  else
    p ← deref (BPTR b);
    bs ← load p 1;
    mret (be_dec bs, snd (buf_advance b 1)).

Definition buf_read_u16 (b : buffer) : M (Z * buffer) :=
  '(r, b') ← buf_read b 2;
  mret (match r with None => -1 | Some bs => be_dec bs end, b').

Definition buf_read_u32 (b : buffer) : M (Z * bool * buffer) :=
  '(r, b') ← buf_read b 4;
  mret (match r with None => (0, false) | Some bs => (be_dec bs, true) end, b').

(** ** Allocation.  The contents malloc leaves in fresh memory are not
    determined: [fill] gives them, and no theorem fixes it. *)

Definition indeterminate (fill : Z -> Z) (size : Z) : list byte :=
  (fun i => u8 (fill (Z.of_nat i))) <$> seq 0 (Z.to_nat size).

Definition alloc_buf (fill : Z -> Z) (size : Z) : M buffer :=
  p ← alloc (indeterminate fill size);
  _ ← (if size >? 0 then store p [0] else mret tt);
  mret (Buf size 0 0 (Some p)).

Definition clone_buf (fill : Z -> Z) (b : buffer) : M buffer :=
  p ← alloc (indeterminate fill (b_capacity b));
  src ← deref (BPTR b);
  bs ← load src (BLEN b);
  let ret := Buf (b_capacity b) (b_offset b) (b_len b) (Some p) in
  _ ← store (ptr_add p (b_offset b)) bs;
  mret ret.

Definition buf_clear (b : buffer) : M buffer :=
  _ ← (if b_capacity b >? 0
       then p ← deref (b_data b); store p (replicate (Z.to_nat (b_capacity b)) 0)
       else mret tt);
  mret (with_offset_len b 0 0).

Definition buf_assign (dest src : buffer) : M (bool * buffer) :=
  match buf_init dest (b_offset src) with
  | (false, dest') => mret (false, dest')
  | (true, dest') => buf_copy dest' src
  end.

Definition free_buf (b : buffer) : M buffer := fun h =>
  match b_data b with
  | Some p => if decide (pos p = 0 /\ is_Some (h !! blk p))
              then Ok (clear_buf, delete (blk p) h) else Fault
  | None => Ok (clear_buf, h)
  end.

(** A buffer for writing that is a part of another buffer (shares its bytes). *)
Definition buf_sub (b : buffer) (size : Z) (prepend : bool) : buffer * buffer :=
  match buf_write_alloc_prepend b size prepend with
  | (Some data, b') => (Buf size 0 0 (Some data), b')
  | (None, b') => (clear_buf, b')
  end.

(** ** Representation: [buf_rep h p b bs] says [b] is a well-formed buffer with
    data pointer [p] whose live bytes are [bs]. *)

Definition BUF_MAX : Z := 1073741823. (* 2^30 - 1: no int sum below can overflow *)

Record buf_rep (h : heap) (p : ptr) (b : buffer) (bs : list byte) : Prop := {
  br_data : b_data b = Some p;
  br_valid : is_Some (mload h p (b_capacity b));
  br_offset : 0 <= b_offset b;
  br_len : 0 <= b_len b;
  br_cap : b_offset b + b_len b <= b_capacity b <= BUF_MAX;
  br_bytes : mload h (ptr_add p (b_offset b)) (b_len b) = Some bs
}.

(** ** Lemmas about the representation *)

Lemma buf_rep_Zlen h p b bs : buf_rep h p b bs -> Zlen bs = b_len b.
Proof. intros []. eauto using mload_Zlen. Qed.

(** Bring the facts of a [buf_rep] into the context. *)
Ltac rep_facts H :=
  let L := fresh "HL" in pose proof (buf_rep_Zlen _ _ _ _ H) as L;
  pose proof (br_data _ _ _ _ H); pose proof (br_offset _ _ _ _ H);
  pose proof (br_len _ _ _ _ H); pose proof (br_cap _ _ _ _ H);
  pose proof (br_valid _ _ _ _ H); pose proof (br_bytes _ _ _ _ H);
  unfold BUF_MAX in *; cbn [b_capacity b_offset b_len b_data with_len with_offset_len] in *.

Lemma ptr_add_add p i j : ptr_add (ptr_add p i) j = ptr_add p (i + j).
Proof. unfold ptr_add. simpl. f_equal. lia. Qed.
Lemma ptr_add_0 p : ptr_add p 0 = p.
Proof. destruct p. unfold ptr_add. simpl. f_equal. lia. Qed.

Lemma buf_rep_frame h h' p b bs q n :
  buf_rep h p b bs -> modifies h h' q n ->
  ptr_disjoint (ptr_add p (b_offset b)) (b_len b) q n -> buf_rep h' p b bs.
Proof.
  intros [] [F V] ?. split; auto.
  - by apply V.
  - rewrite F; auto.
Qed.

Lemma buf_rep_other h h' p b bs q n :
  buf_rep h p b bs -> modifies h h' q n -> blk q <> blk p -> buf_rep h' p b bs.
Proof. intros. eapply buf_rep_frame; eauto. left. simpl. congruence. Qed.

Lemma BPTR_rep h p b bs : buf_rep h p b bs -> BPTR b = Some (ptr_add p (b_offset b)).
Proof. intros []. unfold BPTR. by rewrite br_data0. Qed.

Lemma buf_safe_spec h p b bs n :
  buf_rep h p b bs -> n <= BUF_MAX ->
  buf_safe b n = (0 <=? n) && (b_offset b + b_len b + n <=? b_capacity b).
Proof.
  intros H ?. rep_facts H. unfold buf_safe. rewrite Z.geb_leb.
  destruct (0 <=? n) eqn:E; [|done]. bool_simp. by wrap_simp.
Qed.

(** The rest of a buffer's capacity is valid memory. *)
Lemma buf_rep_valid h p b bs i n :
  buf_rep h p b bs -> 0 <= i -> 0 <= n -> i + n <= b_capacity b ->
  is_Some (mload h (ptr_add p i) n).
Proof. intros [] ???. eapply mload_sub_valid; eauto. Qed.

(** ** Specifications of the operations *)

Lemma buf_init_spec h p b bs o :
  buf_rep h p b bs -> 0 <= o <= b_capacity b ->
  buf_init b o = (true, with_offset_len b o 0) /\
  buf_rep h p (with_offset_len b o 0) [].
Proof.
  intros H ?. rep_facts H. unfold buf_init, BDEF. rewrite (br_data h p b bs) by done.
  replace (_ <? _) with false by lia. replace (_ >? _) with false by lia.
  split; [done|]. split; simpl; auto; try lia; [unfold BUF_MAX; lia|].
  edestruct (buf_rep_valid h p b bs o 0) as [x Hx]; eauto; try lia.
  rewrite Hx. apply mload_Some in Hx as (? & ? & ? & ? & ? & ->). by rewrite slice_nil.
Qed.

Lemma wp_buf_write_with h p b bs n src s :
  buf_rep h p b bs -> Zlen s = n -> b_offset b + b_len b + n <= b_capacity b ->
  wp src (fun r h1 => r = s /\ h1 = h) h ->
  wp (buf_write_with b n src)
     (fun r h' => r = (true, with_len b (b_len b + n)) /\
        buf_rep h' p (with_len b (b_len b + n)) (bs ++ s) /\
        modifies h h' (ptr_add p (b_offset b + b_len b)) n) h.
Proof.
  intros H Hs Hcap Hsrc. rep_facts H. pose proof (Zlen_nonneg s).
  unfold buf_write_with, buf_write_alloc.
  rewrite (buf_safe_spec h p b bs) by (eauto; unfold BUF_MAX; lia).
  replace (_ && _) with true by lia. simpl.
  unfold BEND. erewrite BPTR_rep by eauto. simpl. wrap_simp. rewrite ptr_add_add.
  wp_steps. eapply wp_mono; [exact Hsrc|]. intros ? ? [-> ->].
  wp_steps. apply wp_store.
  { rewrite Hs. eapply buf_rep_valid; eauto; lia. }
  intros h' Hl Hm. wp_steps. rewrite Hs in *. split; [done|]. split; [|done].
  split; simpl; auto; try lia.
  - by apply Hm.
  - unfold BUF_MAX. lia.
  - eapply mload_app; [|by rewrite ptr_add_add].
    rewrite (mod_frame _ _ _ _ Hm); auto. right. left. simpl. lia.
Qed.

Lemma wp_buf_write h p b bs s :
  buf_rep h p b bs -> b_offset b + b_len b + Zlen s <= b_capacity b ->
  wp (buf_write b s)
     (fun r h' => r = (true, with_len b (b_len b + Zlen s)) /\
        buf_rep h' p (with_len b (b_len b + Zlen s)) (bs ++ s) /\
        modifies h h' (ptr_add p (b_offset b + b_len b)) (Zlen s)) h.
Proof. intros. by eapply wp_buf_write_with. Qed.

Lemma buf_write_with_full h p b bs n src :
  buf_rep h p b bs -> n <= BUF_MAX -> n < 0 \/ b_capacity b < b_offset b + b_len b + n ->
  buf_write_with b n src = mret (false, b).
Proof.
  intros H ? ?. unfold buf_write_with, buf_write_alloc.
  rewrite (buf_safe_spec h p b bs) by eauto. replace (_ && _) with false by lia. done.
Qed.

Lemma wp_buf_write_prepend h p b bs s :
  buf_rep h p b bs -> Zlen s <= b_offset b ->
  let b' := with_offset_len b (b_offset b - Zlen s) (b_len b + Zlen s) in
  wp (buf_write_prepend b s)
     (fun r h' => r = (true, b') /\ buf_rep h' p b' (s ++ bs) /\
        modifies h h' (ptr_add p (b_offset b - Zlen s)) (Zlen s)) h.
Proof.
  intros H Hs b'. rep_facts H. pose proof (Zlen_nonneg s).
  unfold buf_write_prepend, buf_prepend.
  replace (_ || _) with false by lia. unfold BPTR. simpl.
  rewrite (br_data h p b bs) by done. simpl. wrap_simp.
  wp_steps. apply wp_store.
  { eapply buf_rep_valid; eauto; lia. }
  intros h' Hl Hm. wp_steps. split; [done|]. split; [|done].
  split; simpl; auto; try lia.
  - by apply Hm.
  - unfold BUF_MAX. lia.
  - rewrite Z.add_comm. eapply mload_app; [done|].
    rewrite ptr_add_add, Z.sub_add, (mod_frame _ _ _ _ Hm); auto.
    right. right. simpl. lia.
Qed.

Lemma buf_write_prepend_full b s :
  b_offset b < Zlen s -> buf_write_prepend b s = mret (false, b).
Proof.
  intros. unfold buf_write_prepend, buf_prepend. by replace (_ || _) with true by lia.
Qed.

Lemma buf_advance_spec h p b s bs :
  buf_rep h p b (s ++ bs) ->
  let b' := with_offset_len b (b_offset b + Zlen s) (b_len b - Zlen s) in
  buf_advance b (Zlen s) = (true, b') /\ buf_rep h p b' bs.
Proof.
  intros H b'. rep_facts H. rewrite Zlen_app in *.
  pose proof (Zlen_nonneg s). pose proof (Zlen_nonneg bs). unfold buf_advance.
  replace (_ || _) with false by lia. wrap_simp. split; [done|].
  split; simpl; auto; try lia. { unfold BUF_MAX. lia. }
  rewrite <- ptr_add_add. replace bs with (slice (Zlen s) (Zlen bs) (s ++ bs)).
  - replace (b_len b - Zlen s) with (Zlen bs) by lia. eapply mload_sub; eauto; lia.
  - rewrite slice_app_r, Z.sub_diag by lia. apply slice_all.
Qed.

Lemma buf_rep_prefix h p b s bs :
  buf_rep h p b (s ++ bs) -> mload h (ptr_add p (b_offset b)) (Zlen s) = Some s.
Proof.
  intros H. rep_facts H. rewrite Zlen_app in *. pose proof (Zlen_nonneg s).
  pose proof (Zlen_nonneg bs).
  replace s with (slice 0 (Zlen s) (s ++ bs)) at 2.
  - rewrite <- (ptr_add_0 (ptr_add p (b_offset b))). eapply mload_sub; eauto; lia.
  - rewrite slice_app_l by lia. apply slice_all.
Qed.

Lemma wp_buf_read h p b s bs :
  buf_rep h p b (s ++ bs) ->
  let b' := with_offset_len b (b_offset b + Zlen s) (b_len b - Zlen s) in
  wp (buf_read b (Zlen s)) (fun r h' => r = (Some s, b') /\ h' = h /\ buf_rep h p b' bs) h.
Proof.
  intros H b'. rep_facts H. edestruct (buf_advance_spec h p b s bs) as [Hadv Hrep]; eauto.
  unfold buf_read, buf_read_alloc. unfold buf_advance in Hadv. destruct (_ || _); [done|].
  injection Hadv as ->. erewrite BPTR_rep by eauto. wp_steps.
  eapply wp_load; [eauto using buf_rep_prefix|]. by wp_steps.
Qed.

Lemma buf_read_short b n : b_len b < n -> buf_read b n = mret (None, b).
Proof. intros. unfold buf_read, buf_read_alloc. by replace (_ || _) with true by lia. Qed.

Lemma wp_buf_copy h p b bs q src s :
  buf_rep h p b bs -> buf_rep h q src s ->
  b_offset b + b_len b + b_len src <= b_capacity b ->
  wp (buf_copy b src)
     (fun r h' => r = (true, with_len b (b_len b + b_len src)) /\
        buf_rep h' p (with_len b (b_len b + b_len src)) (bs ++ s) /\
        modifies h h' (ptr_add p (b_offset b + b_len b)) (b_len src)) h.
Proof.
  intros H Hsrc Hle. eapply wp_buf_write_with; eauto using buf_rep_Zlen.
  unfold BLEN. erewrite BPTR_rep by eauto. wp_steps. eapply wp_load; [|done].
  by apply br_bytes.
Qed.

(** A buffer's length may be set anywhere inside its capacity. *)
Lemma buf_rep_with_len h p b bs n :
  buf_rep h p b bs -> 0 <= n -> b_offset b + n <= b_capacity b ->
  exists bs', buf_rep h p (with_len b n) bs'.
Proof.
  intros H ??. rep_facts H.
  destruct (buf_rep_valid h p b bs (b_offset b) n) as [bs' Hl]; auto.
  exists bs'. split; simpl; auto; unfold BUF_MAX; lia.
Qed.

(** [fresh_ext h h' p]: [h'] has the new block of [p] and all of [h]. *)
Definition fresh_ext (h h' : heap) (p : ptr) : Prop :=
  pos p = 0 /\ h !! blk p = None /\
  forall q k x, mload h q k = Some x -> mload h' q k = Some x /\ blk q <> blk p.

Lemma buf_rep_fresh_ext h h' p q b bs : fresh_ext h h' p -> buf_rep h q b bs -> buf_rep h' q b bs.
Proof.
  intros (_ & _ & E) []. destruct br_valid0 as [x Hx]. split; auto.
  - exists x. by apply E.
  - by apply E.
Qed.

Lemma fresh_ext_modifies h h1 h2 p q n :
  fresh_ext h h1 p -> modifies h1 h2 q n -> blk q = blk p -> fresh_ext h h2 p.
Proof.
  intros (Hp & Hn & E) Hm Hq. split_and!; auto. intros r k x Hr.
  destruct (E r k x Hr) as [Hr1 Hne]. split; [|done].
  rewrite (mod_frame _ _ _ _ Hm); [done|apply mload_Some in Hr as (? & ? & ? & ? & _); lia|].
  left. congruence.
Qed.

Lemma Zlen_indeterminate fill n : 0 <= n -> Zlen (indeterminate fill n) = n.
Proof. intros. unfold indeterminate, Zlen. rewrite length_fmap, length_seq. lia. Qed.

Lemma wp_alloc bs (Q : ptr -> heap -> Prop) h :
  (forall p h', mload h' p (Zlen bs) = Some bs -> fresh_ext h h' p -> Q p h') ->
  wp (alloc bs) Q h.
Proof.
  intros HQ. unfold wp, alloc. destruct (malloc h bs) as [p h'] eqn:E.
  destruct (malloc_load _ _ _ _ E) as [Hl Hk]. apply malloc_spec in E as (? & ? & ->).
  by apply HQ.
Qed.

Lemma wp_alloc_buf fill size h :
  0 <= size <= BUF_MAX ->
  wp (alloc_buf fill size)
     (fun b h' => exists p, b = Buf size 0 0 (Some p) /\ buf_rep h' p b [] /\ fresh_ext h h' p) h.
Proof.
  intros Hs. unfold alloc_buf. wp_steps. apply wp_alloc. intros p h1 Hl Hf.
  rewrite Zlen_indeterminate in Hl by lia.
  assert (forall h', is_Some (mload h' p size) -> buf_rep h' p (Buf size 0 0 (Some p)) []) as Hrep.
  { intros h' [x Hx]. split; simpl; eauto; try done. rewrite ptr_add_0.
    erewrite <- (ptr_add_0 p), mload_sub by (eauto; lia). by rewrite slice_nil. }
  wp_steps. destruct (size >? 0) eqn:E; rewrite Z.gtb_ltb in E; bool_simp; wp_steps.
  - apply wp_store.
    { rewrite <- (ptr_add_0 p). eapply mload_sub_valid; eauto; unfold Zlen; simpl; lia. }
    intros h2 _ Hm. wp_steps. exists p. split; [done|]. split; [|by eapply fresh_ext_modifies].
    apply Hrep. apply (mod_valid _ _ _ _ Hm). eauto.
  - exists p. split; [done|]. split; [|done]. apply Hrep. eauto.
Qed.

(** Room in front of a buffer, and filling it. *)
Lemma buf_prepend_spec h p b bs n :
  buf_rep h p b bs -> 0 <= n <= b_offset b ->
  buf_prepend b n = (Some (ptr_add p (b_offset b - n)),
                     with_offset_len b (b_offset b - n) (b_len b + n)).
Proof.
  intros H Hn. rep_facts H. unfold buf_prepend. replace (_ || _) with false by lia.
  unfold BPTR. simpl. rewrite (br_data h p b bs) by done. simpl. by wrap_simp.
Qed.

Lemma wp_store_prepend h p b bs s (Q : unit -> heap -> Prop) :
  buf_rep h p b bs -> Zlen s <= b_offset b ->
  (forall h', buf_rep h' p (with_offset_len b (b_offset b - Zlen s) (b_len b + Zlen s)) (s ++ bs) ->
     modifies h h' (ptr_add p (b_offset b - Zlen s)) (Zlen s) -> Q tt h') ->
  wp (store (ptr_add p (b_offset b - Zlen s)) s) Q h.
Proof.
  intros H Hs HQ. pose proof (wp_buf_write_prepend h p b bs s H Hs) as Hw.
  pose proof (Zlen_nonneg s). unfold buf_write_prepend in Hw.
  rewrite (buf_prepend_spec h p b bs) in Hw by (auto; lia).
  apply wp_bind in Hw. eapply wp_mono; [exact Hw|]. intros [] h' (_ & ? & ?). by apply HQ.
Qed.

(** ** Frames: [keeps bl h h'] says that memory outside the blocks [bl] is kept. *)

Definition keeps (bl : list positive) (h h' : heap) : Prop :=
  forall q k x, blk q ∉ bl -> mload h q k = Some x -> mload h' q k = Some x.

Lemma keeps_refl bl h : keeps bl h h.
Proof. by intros q. Qed.
Lemma keeps_trans bl h1 h2 h3 : keeps bl h1 h2 -> keeps bl h2 h3 -> keeps bl h1 h3.
Proof. intros H1 H2 q k x Hq ?. by apply H2, H1. Qed.
Lemma keeps_weaken bl bl' h h' : bl ⊆ bl' -> keeps bl h h' -> keeps bl' h h'.
Proof. intros Hs H q k x Hq. apply H. intros ?. by apply Hq, Hs. Qed.
Lemma keeps_in x bl h h' : keeps [x] h h' -> x ∈ bl -> keeps bl h h'.
Proof. intros K Hx. eapply keeps_weaken; [|done]. by intros ? ->%list_elem_of_singleton. Qed.
Lemma modifies_keeps h h' p n bl : modifies h h' p n -> blk p ∈ bl -> keeps bl h h'.
Proof.
  intros [F _] Hp q k x Hq Hx. rewrite F; [done| |left; congruence].
  apply mload_Some in Hx as (? & ? & ? & ? & _). done.
Qed.
Lemma fresh_ext_keeps h h' p bl : fresh_ext h h' p -> keeps bl h h'.
Proof. intros (_ & _ & E) q k x _ Hx. by apply E. Qed.
Lemma buf_rep_keeps bl h h' p b bs :
  keeps bl h h' -> blk p ∉ bl -> buf_rep h p b bs -> buf_rep h' p b bs.
Proof.
  intros K Hp []. destruct br_valid0 as [x Hx]. split; auto.
  exists x. by apply K.
Qed.
(** A fresh block is none of the blocks a buffer or pointer uses. *)
Lemma fresh_ext_ne h h' p q k x : fresh_ext h h' p -> mload h q k = Some x -> blk q <> blk p.
Proof. intros (_ & _ & E) Hx. by eapply E. Qed.
Lemma buf_rep_fresh_ne h h' p q b bs : fresh_ext h h' p -> buf_rep h q b bs -> blk q <> blk p.
Proof. intros Hf []. destruct br_valid0. by eapply fresh_ext_ne. Qed.

(** A copy in a block of its own. *)
Lemma wp_clone_buf fill h p b bs :
  buf_rep h p b bs ->
  wp (clone_buf fill b) (fun b' h' => exists q h1, fresh_ext h h1 q /\ keeps [blk q] h1 h' /\
    buf_rep h' q b' bs /\ b_len b' = b_len b) h.
Proof.
  intros H. rep_facts H. unfold clone_buf. wp_steps. apply wp_alloc. intros q h1 Hl Hf.
  rewrite (BPTR_rep _ _ _ _ H). wp_steps. pose proof (buf_rep_fresh_ext _ _ _ _ _ _ Hf H) as H'.
  eapply wp_load; [apply (br_bytes _ _ _ _ H')|]. wp_steps. rewrite Zlen_indeterminate in Hl by lia.
  apply wp_store; [rewrite HL; eapply mload_sub_valid; [by eexists|lia..]|].
  intros h2 Hl2 Hm. wp_steps. exists q, h1. split; [done|]. split; [eapply modifies_keeps; [exact Hm|by left]|].
  split; [|done]. split; cbn; try (unfold BUF_MAX; lia); [done| |by rewrite HL in Hl2]. apply Hm. by eexists.
Qed.

Lemma wp_buf_read_n h p b bs n :
  buf_rep h p b bs -> 0 <= n <= Zlen bs ->
  let b' := with_offset_len b (b_offset b + n) (b_len b - n) in
  wp (buf_read b n)
     (fun r h' => r = (Some (take (Z.to_nat n) bs), b') /\ h' = h /\
        buf_rep h p b' (drop (Z.to_nat n) bs)) h.
Proof.
  intros H Hn b'. subst b'. assert (Zlen (take (Z.to_nat n) bs) = n) as Hl.
  { unfold Zlen in *. rewrite length_take. lia. }
  rewrite <- (take_drop (Z.to_nat n) bs) in H. apply wp_buf_read in H. by rewrite Hl in H.
Qed.

Lemma buf_advance_n h p b bs n :
  buf_rep h p b bs -> 0 <= n <= Zlen bs ->
  let b' := with_offset_len b (b_offset b + n) (b_len b - n) in
  buf_advance b n = (true, b') /\ buf_rep h p b' (drop (Z.to_nat n) bs).
Proof.
  intros H Hn b'. subst b'. assert (Zlen (take (Z.to_nat n) bs) = n) as Hl.
  { unfold Zlen in *. rewrite length_take. lia. }
  rewrite <- (take_drop (Z.to_nat n) bs) in H. apply buf_advance_spec in H. by rewrite Hl in H.
Qed.

(** Loading part of a buffer's live bytes. *)
Lemma buf_rep_load h p b bs i n :
  buf_rep h p b bs -> 0 <= i -> 0 <= n -> i + n <= Zlen bs ->
  mload h (ptr_add p (b_offset b + i)) n = Some (slice i n bs).
Proof.
  intros H ???. pose proof (buf_rep_Zlen _ _ _ _ H). rewrite <- ptr_add_add.
  eapply mload_sub; [by apply br_bytes|lia..].
Qed.

(** A buffer without live bytes needs only its memory. *)
Lemma buf_rep_empty h h' p b :
  buf_rep h p b [] -> is_Some (mload h' p (b_capacity b)) -> buf_rep h' p b [].
Proof.
  intros H Hv. rep_facts H. change (Zlen (@nil byte)) with 0 in *. split; auto.
  destruct Hv as [x Hx]. erewrite mload_sub by (eauto; lia).
  replace (b_len b) with 0 by lia. by rewrite slice_nil.
Qed.

(** Moving the first bytes of one buffer to the end of another. *)
Lemma wp_buf_copy_n h p b bs q src s n :
  buf_rep h p b bs -> buf_rep h q src s -> blk p <> blk q ->
  0 <= n <= Zlen s -> b_offset b + b_len b + n <= b_capacity b ->
  let src' := with_offset_len src (b_offset src + n) (b_len src - n) in
  wp (buf_copy_n b src n)
     (fun r h' => r = (true, with_len b (b_len b + n), src') /\
        buf_rep h' p (with_len b (b_len b + n)) (bs ++ take (Z.to_nat n) s) /\
        buf_rep h' q src' (drop (Z.to_nat n) s) /\
        modifies h h' (ptr_add p (b_offset b + b_len b)) n) h.
Proof.
  intros H Hs Hne Hn Hcap src'. destruct (buf_advance_n h q src s n Hs Hn) as [Hadv Hrep].
  unfold buf_copy_n, buf_read_alloc. unfold buf_advance in Hadv. destruct (_ || _); [done|].
  injection Hadv as ->. fold src' in Hrep. erewrite BPTR_rep by eauto. wp_steps.
  eapply wp_mono.
  { eapply (wp_buf_write_with h p b bs n _ (take (Z.to_nat n) s)); eauto.
    - unfold Zlen in *. rewrite length_take. lia.
    - eapply wp_load; [|done]. rewrite <- (Z.add_0_r (b_offset src)).
      erewrite buf_rep_load by (eauto; lia). done. }
  intros ? h' (-> & Hr & Hm). wp_steps. split_and!; auto.
  eapply buf_rep_other; eauto.
Qed.

(** Copying a whole buffer to a position of another. *)
Lemma wp_buf_copy_range_all h p b bs q src s i :
  buf_rep h p b bs -> buf_rep h q src s -> 0 <= i -> b_offset b + i + Zlen s <= b_capacity b ->
  let b' := with_len b (Z.max (b_len b) (i + Zlen s)) in
  wp (buf_copy_range b i src 0 (b_len src))
     (fun r h' => r = (true, b') /\ (exists bs', buf_rep h' p b' bs') /\
        mload h' (ptr_add p (b_offset b + i)) (Zlen s) = Some s /\
        modifies h h' (ptr_add p (b_offset b + i)) (Zlen s)) h.
Proof.
  intros H Hs Hi Hcap b'. rep_facts H. rep_facts Hs. pose proof (Zlen_nonneg s).
  unfold buf_copy_range. wrap_simp. replace (_ || _) with false; [|symmetry; rewrite !orb_false_iff; split_and!; lia].
  replace (b_data src) with (Some q) by done. replace (b_data b) with (Some p) by done.
  wp_steps. rewrite Z.add_0_r. eapply wp_load; [eauto|]. wp_steps. apply wp_store.
  { eapply buf_rep_valid; eauto; lia. }
  intros h' Hl Hm. wp_steps.
  assert ((if i + b_len src >? b_len b then with_len b (i + b_len src) else b) = b') as ->.
  { unfold b'. rewrite <- HL0. case_test; [f_equal; lia|]. destruct b. unfold with_len. simpl.
    f_equal. simpl in *. lia. }
  split_and!; auto.
  destruct (buf_rep_valid h p b bs (b_offset b) (Z.max (b_len b) (i + Zlen s))) as [x Hx]; auto; [lia..|].
  destruct (proj2 (mod_valid _ _ _ _ Hm (ptr_add p (b_offset b)) (Z.max (b_len b) (i + Zlen s)))) as [bs' Hb'].
  { eauto. }
  exists bs'. split; simpl; auto; try lia; [by apply Hm|unfold BUF_MAX; lia].
Qed.

(** Storing inside a buffer's live bytes. *)
Lemma wp_store_in h q b bs i x (Q : unit -> heap -> Prop) :
  buf_rep h q b bs -> 0 <= i -> i + Zlen x <= Zlen bs ->
  (forall h', buf_rep h' q b (splice i x bs) -> modifies h h' (ptr_add q (b_offset b + i)) (Zlen x) -> Q tt h') ->
  wp (store (ptr_add q (b_offset b + i)) x) Q h.
Proof.
  intros H Hi Hx HQ. rep_facts H. pose proof (Zlen_nonneg x).
  apply wp_store; [eapply buf_rep_valid; [exact H|lia..]|]. intros h' Hl Hm. apply HQ; [|done].
  split; try done; [by apply Hm|].
  assert (splice i x bs = slice 0 i bs ++ x ++ slice (i + Zlen x) (b_len b - (i + Zlen x)) bs) as ->.
  { unfold splice, slice. cbn. rewrite drop_0. do 2 f_equal. rewrite take_ge by (rewrite length_drop; unfold Zlen in *; lia).
    f_equal. unfold Zlen in *. lia. }
  replace (b_len b) with (i + (Zlen x + (b_len b - (i + Zlen x)))) by lia.
  assert (forall j n, 0 <= j -> 0 <= n -> j + n <= b_len b -> j + n <= i \/ i + Zlen x <= j ->
    mload h' (ptr_add q (b_offset b + j)) n = Some (slice j n bs)) as Hrest.
  { intros j n ????. rewrite (mod_frame _ _ _ _ Hm); [eapply buf_rep_load; [exact H|lia..] | done|].
    right. cbn. lia. }
  apply mload_app.
  { rewrite <- (Z.add_0_r (b_offset b)). apply Hrest; lia. }
  rewrite ptr_add_add. apply mload_app; [done|]. rewrite ptr_add_add, <- Z.add_assoc.
  replace (i + (Zlen x + (b_len b - (i + Zlen x))) - (i + Zlen x)) with (b_len b - (i + Zlen x)) by lia.
  apply Hrest; lia.
Qed.

(** A change behind the first [n] bytes, seen from the whole buffer. *)
Lemma buf_rep_unadvance h h' q b bs n seg' :
  buf_rep h q b bs -> 0 <= n <= Zlen bs ->
  buf_rep h' q (with_offset_len b (b_offset b + n) (b_len b - n)) seg' ->
  modifies h h' (ptr_add q (b_offset b + n)) (b_len b - n) ->
  buf_rep h' q b (take (Z.to_nat n) bs ++ seg').
Proof.
  intros H Hn H' Hm. rep_facts H. pose proof (br_bytes _ _ _ _ H') as Hb'. cbn in Hb'.
  split; auto; [by apply Hm|]. replace (b_len b) with (n + (b_len b - n)) by lia.
  apply mload_app; [|by rewrite ptr_add_add].
  rewrite (mod_frame _ _ _ _ Hm); [|lia|right; cbn; lia].
  rewrite <- (Z.add_0_r (b_offset b)). apply (buf_rep_load h q b bs 0 n H); lia.
Qed.

#[export] Hint Resolve br_data br_valid br_offset br_len br_cap br_bytes : ovpn.

(** Reduce projections of buffers (and pattern matches on pairs), nothing else. *)
Ltac buf_simpl :=
  cbn [with_offset_len with_len b_capacity b_offset b_len b_data fst snd negb] in *.
