(* ===== verification/Integer.v ===== *)
(** src/integer.h, src/circ_list.h and adjust_power_of_2 of src/misc.c: bounded
    integer helpers, index arithmetic on a circle, and the circular list that
    holds the replay window. *)

From S2P Require Import Prelude.

(** ** Arrays: an access outside the array is a fault *)

Definition aget {A} (l : list A) (i : Z) : result A :=
  if i <? 0 then Fault else from_opt (l !! Z.to_nat i).
Definition aset {A} (l : list A) (i : Z) (x : A) : result (list A) :=
  if (i <? 0) || (Zlen l <=? i) then Fault else Ok (<[Z.to_nat i := x]> l).

(** ** integer.h *)

Definition max_int (x y : Z) : Z := if x >? y then x else y.
Definition min_int (x y : Z) : Z := if x <? y then x else y.
Definition constrain_int (x min max : Z) : Z :=
  if min >? max then min else if x <? min then min else if x >? max then max else x.

Definition modulo_subtract (x y mod_ : Z) : result Z :=
  let d1 := i32 (x - y) in
  let d2 := i32 ((if x >? y then i32 (- mod_) else mod_) + d1) in
  _ ← assert_ ((0 <=? x) && (x <? mod_) && (0 <=? y) && (y <? mod_));
  Ok (if i32 (Z.abs d1) >? i32 (Z.abs d2) then d2 else d1).

Definition modulo_add (x y mod_ : Z) : result Z :=
  let sum := i32 (x + y) in
  _ ← assert_ ((0 <=? x) && (x <? mod_) && (i32 (- mod_) <=? y) && (y <=? mod_));
  let sum := if sum >=? mod_ then i32 (sum - mod_) else sum in
  let sum := if sum <? 0 then i32 (sum + mod_) else sum in
  Ok sum.

(** msg (M_FATAL, ...) ends the process. *)
Definition index_verify (index size : Z) : result Z :=
  if (index <? 0) || (index >=? size) then AssertFail else Ok index.

(** ** misc.c: adjust_power_of_2.  32 doublings exhaust an unsigned int. *)

Fixpoint adjust_power_of_2_loop (fuel : nat) (ret u : Z) : result Z :=
  match fuel with
  | O => AssertFail
  | S f =>
      if ret <? u then
        let ret := u32 (Z.shiftl ret 1) in
        _ ← assert_ (ret >? 0);
        adjust_power_of_2_loop f ret u
      else Ok ret
  end.
Definition adjust_power_of_2 (u : Z) : result Z := adjust_power_of_2_loop 34 1 u.

(** ** circ_list.h *)

Record circ_list (A : Type) := Circ {
  x_head : Z;
  x_size : Z;
  x_cap : Z;
  x_list : list A
}.
Arguments Circ {A}.
Arguments x_head {A}.
Arguments x_size {A}.
Arguments x_cap {A}.
Arguments x_list {A}.

Definition CIRC_LIST_PUSH {A} (obj : circ_list A) (item : A) : result (circ_list A) :=
  head ← modulo_add (x_head obj) (-1) (x_cap obj);
  l ← aset (x_list obj) head item;
  Ok (Circ head (min_int (i32 (x_size obj + 1)) (x_cap obj)) (x_cap obj) l).

Definition CIRC_LIST_SIZE {A} (obj : circ_list A) : Z := x_size obj.

Definition CIRC_LIST_INDEX {A} (obj : circ_list A) (index : Z) : result Z :=
  i ← index_verify index (x_size obj);
  modulo_add (x_head obj) i (x_cap obj).

Definition CIRC_LIST_ITEM {A} (obj : circ_list A) (index : Z) : result A :=
  i ← CIRC_LIST_INDEX obj index; aget (x_list obj) i.
(** CIRC_LIST_ITEM on the left of an assignment. *)
Definition CIRC_LIST_ITEM_set {A} (obj : circ_list A) (index : Z) (x : A) : result (circ_list A) :=
  i ← CIRC_LIST_INDEX obj index;
  l ← aset (x_list obj) i x;
  Ok (Circ (x_head obj) (x_size obj) (x_cap obj) l).

Definition CIRC_LIST_RESET {A} (obj : circ_list A) : circ_list A :=
  Circ 0 0 (x_cap obj) (x_list obj).

(** malloc and memset to zero: [zero] is the all-zero element. *)
Definition CIRC_LIST_ALLOC {A} (zero : A) (size : Z) : circ_list A :=
  Circ 0 0 size (replicate (Z.to_nat size) zero).

(** ** Abstraction: the items, newest first *)

Definition rotate_left {A} (n : nat) (l : list A) : list A := drop n l ++ take n l.
Definition circ_items {A} (c : circ_list A) : list A :=
  take (Z.to_nat (x_size c)) (rotate_left (Z.to_nat (x_head c)) (x_list c)).

Record circ_wf {A} (c : circ_list A) : Prop := {
  cw_cap : 0 < x_cap c < 1073741824;
  cw_len : Zlen (x_list c) = x_cap c;
  cw_head : 0 <= x_head c < x_cap c;
  cw_size : 0 <= x_size c <= x_cap c
}.

(** ** Lemmas: integer helpers *)

Lemma min_int_spec x y : min_int x y = Z.min x y.
Proof. unfold min_int. case_test; lia. Qed.
Lemma max_int_spec x y : max_int x y = Z.max x y.
Proof. unfold max_int. case_test; lia. Qed.
Lemma constrain_int_spec x min max :
  min <= max -> constrain_int x min max = Z.min (Z.max x min) max.
Proof. intros. unfold constrain_int. repeat case_test; lia. Qed.

Lemma modulo_add_ok x y m :
  0 <= x < m -> m < 1073741824 -> - m <= y <= m -> modulo_add x y m = Ok ((x + y) mod m).
Proof.
  intros. unfold modulo_add. wrap_simp.
  replace (_ && _) with true by lia. simpl. f_equal.
  destruct (x + y >=? m) eqn:E1; bool_simp; wrap_simp.
  - replace (_ <? _) with false by lia.
    replace (x + y) with (x + y - m + 1 * m) at 2 by lia.
    rewrite Z.mod_add by lia. destruct (decide (x + y - m < m)).
    + rewrite Z.mod_small; lia.
    + lia.
  - case_test.
    + wrap_simp. replace (x + y) with (x + y + m + (-1) * m) at 2 by lia.
      rewrite Z.mod_add, Z.mod_small; lia.
    + rewrite Z.mod_small; lia.
Qed.

(** The index after adding a position to a head, as a natural number. *)
Lemma modulo_add_nat x y m :
  0 <= x < m -> m < 1073741824 -> 0 <= y < m ->
  (x + y) mod m = if x + y <? m then x + y else x + y - m.
Proof.
  intros. case_test; [rewrite Z.mod_small; lia|].
  replace (x + y) with (x + y - m + 1 * m) at 1 by lia.
  rewrite Z.mod_add, Z.mod_small; lia.
Qed.

Lemma aget_lookup {A} (l : list A) i x : 0 <= i -> l !! Z.to_nat i = Some x -> aget l i = Ok x.
Proof. intros ? H. unfold aget. replace (_ <? _) with false by lia. by rewrite H. Qed.
Lemma aget_Ok {A} (l : list A) i x : aget l i = Ok x -> 0 <= i /\ l !! Z.to_nat i = Some x.
Proof.
  unfold aget. case_test; [done|]. destruct (_ !! _) eqn:E'; [|done]. intros [= <-]. auto with lia.
Qed.
Lemma aset_ok {A} (l : list A) i x : 0 <= i < Zlen l -> aset l i x = Ok (<[Z.to_nat i := x]> l).
Proof. intros. unfold aset. by replace (_ || _) with false by lia. Qed.

(** ** Lemmas: the circular list refines a bounded queue *)

Lemma rotate_lookup {A} (l : list A) h i :
  (h < length l)%nat -> (i < length l)%nat ->
  rotate_left h l !! i = l !! (if (h + i <? length l)%nat then h + i else h + i - length l)%nat.
Proof.
  intros. unfold rotate_left. destruct (Nat.ltb_spec (h + i) (length l)).
  - rewrite lookup_app_l by (rewrite length_drop; lia). by rewrite lookup_drop.
  - rewrite lookup_app_r by (rewrite length_drop; lia). rewrite length_drop.
    rewrite lookup_take by lia. rewrite decide_True by lia. f_equal. lia.
Qed.

Lemma length_circ_items {A} (c : circ_list A) :
  circ_wf c -> Zlen (circ_items c) = x_size c.
Proof.
  intros [? Hl ? ?]. unfold Zlen, circ_items, rotate_left in *.
  rewrite length_take, length_app, length_drop, length_take. lia.
Qed.

Lemma circ_items_lookup {A} (c : circ_list A) i :
  circ_wf c -> 0 <= i < x_size c ->
  circ_items c !! Z.to_nat i = x_list c !! Z.to_nat ((x_head c + i) mod x_cap c).
Proof.
  intros [? Hl ? ?] ?. unfold Zlen, circ_items in *.
  rewrite lookup_take by lia. rewrite decide_True by lia.
  rewrite rotate_lookup by lia. rewrite modulo_add_nat by lia.
  destruct (Nat.ltb_spec (Z.to_nat (x_head c) + Z.to_nat i) (length (x_list c))).
  - replace (_ <? _) with true by lia. f_equal. lia.
  - replace (_ <? _) with false by lia. f_equal. lia.
Qed.

Lemma circ_items_lookup_ge {A} (c : circ_list A) (i : nat) :
  circ_wf c -> x_size c <= Z.of_nat i -> circ_items c !! i = None.
Proof.
  intros H ?. apply lookup_ge_None. pose proof (length_circ_items c H). unfold Zlen in *. lia.
Qed.

Lemma circ_index_range {A} (c : circ_list A) i :
  circ_wf c -> 0 <= (x_head c + i) mod x_cap c < x_cap c.
Proof. intros []. apply Z.mod_pos_bound. lia. Qed.

Lemma CIRC_LIST_INDEX_ok {A} (c : circ_list A) i :
  circ_wf c -> 0 <= i < x_size c -> CIRC_LIST_INDEX c i = Ok ((x_head c + i) mod x_cap c).
Proof.
  intros [] ?. unfold CIRC_LIST_INDEX, index_verify. rewrite Z.geb_leb.
  replace (_ || _) with false by lia. simpl. apply modulo_add_ok; lia.
Qed.

Lemma CIRC_LIST_ITEM_ok {A} (c : circ_list A) i x :
  circ_wf c -> 0 <= i -> circ_items c !! Z.to_nat i = Some x -> CIRC_LIST_ITEM c i = Ok x.
Proof.
  intros H ? Hx. assert (i < x_size c).
  { apply lookup_lt_Some in Hx. pose proof (length_circ_items c H). unfold Zlen in *. lia. }
  unfold CIRC_LIST_ITEM. rewrite CIRC_LIST_INDEX_ok by (auto; lia). simpl.
  apply aget_lookup; [apply circ_index_range; auto|]. by rewrite <- circ_items_lookup by auto.
Qed.

Lemma CIRC_LIST_ITEM_set_ok {A} (c : circ_list A) i x :
  circ_wf c -> 0 <= i < x_size c ->
  exists c', CIRC_LIST_ITEM_set c i x = Ok c' /\ circ_wf c' /\ x_size c' = x_size c /\
             x_cap c' = x_cap c /\ circ_items c' = <[Z.to_nat i := x]> (circ_items c).
Proof.
  intros H Hi. pose proof (circ_index_range c i H) as Hr. destruct H as [? Hl ? ?] eqn:EH.
  unfold CIRC_LIST_ITEM_set. rewrite CIRC_LIST_INDEX_ok by auto. simpl.
  rewrite aset_ok by lia. simpl. eexists. split; [done|].
  set (c' := Circ _ _ _ _). assert (circ_wf c') as H'.
  { split; simpl; auto. unfold Zlen in *. by rewrite length_insert. }
  split_and!; auto. apply list_eq. intros j.
  destruct (decide (Z.of_nat j < x_size c)) as [Hj|Hj].
  2:{ pose proof (length_circ_items c H). pose proof (length_circ_items c' H'). unfold Zlen in *.
      rewrite list_lookup_insert_ne by lia. rewrite !circ_items_lookup_ge by (auto; simpl; lia). done. }
  replace j with (Z.to_nat (Z.of_nat j)) by lia.
  rewrite (circ_items_lookup c') by (auto; simpl; lia). simpl.
  destruct (decide (Z.of_nat j = i)) as [->|Hne].
  - rewrite list_lookup_insert_eq by (unfold Zlen in *; lia).
    rewrite list_lookup_insert_eq; [done|]. pose proof (length_circ_items c H).
    unfold Zlen in *. lia.
  - rewrite (list_lookup_insert_ne (circ_items c)) by lia.
    rewrite (circ_items_lookup c) by (auto; lia).
    apply list_lookup_insert_ne. rewrite (modulo_add_nat _ i), (modulo_add_nat _ (Z.of_nat j)) by lia.
    destruct (x_head c + i <? x_cap c) eqn:?, (x_head c + Z.of_nat j <? x_cap c) eqn:?; lia.
Qed.

Lemma CIRC_LIST_PUSH_ok {A} (c : circ_list A) x :
  circ_wf c ->
  exists c', CIRC_LIST_PUSH c x = Ok c' /\ circ_wf c' /\
             x_size c' = Z.min (x_size c + 1) (x_cap c) /\ x_cap c' = x_cap c /\
             circ_items c' = take (Z.to_nat (x_cap c)) (x :: circ_items c).
Proof.
  intros H. destruct H as [? Hl ? ?] eqn:EH.
  set (hd := (x_head c + -1) mod x_cap c).
  assert (0 <= hd < x_cap c) as Hhd by (apply Z.mod_pos_bound; lia).
  assert (hd = if x_head c =? 0 then x_cap c - 1 else x_head c - 1) as Ehd.
  { unfold hd. case_test.
    - rewrite E. symmetry. apply Z.mod_unique with (-1); lia.
    - rewrite Z.mod_small; lia. }
  unfold CIRC_LIST_PUSH. rewrite modulo_add_ok by lia. simpl. fold hd.
  rewrite aset_ok by lia. simpl. wrap_simp. rewrite min_int_spec.
  eexists. split; [done|]. set (c' := Circ _ _ _ _). assert (circ_wf c') as H'.
  { split; simpl; auto; [unfold Zlen in *; by rewrite length_insert | lia]. }
  split_and!; auto. apply list_eq. intros j.
  pose proof (length_circ_items c H). unfold Zlen in *.
  destruct (decide (Z.of_nat j < x_size c')) as [Hj|Hj]; simpl in Hj.
  2:{ rewrite circ_items_lookup_ge by (auto; simpl; lia). symmetry. apply lookup_ge_None.
      rewrite length_take. simpl. lia. }
  rewrite lookup_take by lia. rewrite decide_True by lia.
  replace j with (Z.to_nat (Z.of_nat j)) at 1 by lia.
  rewrite (circ_items_lookup c') by (auto; simpl; lia). simpl.
  destruct j as [|j]; simpl.
  - rewrite Z.add_0_r, Z.mod_small by lia. apply list_lookup_insert_eq. lia.
  - rewrite modulo_add_nat by lia.
    replace (circ_items c !! j) with (circ_items c !! Z.to_nat (Z.of_nat j)) by (f_equal; lia).
    rewrite (circ_items_lookup c) by (auto; lia).
    rewrite (modulo_add_nat (x_head c)) by lia.
    destruct (x_head c =? 0) eqn:E0, (hd + Z.of_nat (S j) <? x_cap c) eqn:E1,
      (x_head c + Z.of_nat j <? x_cap c) eqn:E2; bool_simp; try lia;
      rewrite list_lookup_insert_ne by lia; f_equal; lia.
Qed.

Lemma CIRC_LIST_ALLOC_wf {A} (zero : A) size :
  0 < size < 1073741824 ->
  circ_wf (CIRC_LIST_ALLOC zero size) /\ circ_items (CIRC_LIST_ALLOC zero size) = [].
Proof.
  intros. split; [|done]. split; simpl; try lia. unfold Zlen. rewrite length_replicate. lia.
Qed.

Lemma CIRC_LIST_RESET_wf {A} (c : circ_list A) :
  circ_wf c -> circ_wf (CIRC_LIST_RESET c) /\ circ_items (CIRC_LIST_RESET c) = [].
Proof. intros []. split; [|done]. split; simpl; auto; lia. Qed.

(** adjust_power_of_2 rounds up to a power of two. *)
Lemma adjust_loop_ok fuel j u :
  0 <= j <= 30 -> 0 < u <= 2 ^ 30 -> 31 - j <= Z.of_nat fuel ->
  exists k, j <= k <= 30 /\ adjust_power_of_2_loop fuel (2 ^ j) u = Ok (2 ^ k) /\ u <= 2 ^ k /\
    (k = j \/ 2 ^ (k - 1) < u).
Proof.
  revert j. induction fuel as [|fuel IH]; intros j Hj Hu Hf; [lia|]. cbn [adjust_power_of_2_loop].
  destruct (2 ^ j <? u) eqn:E; bool_simp.
  2:{ exists j. auto with lia. }
  assert (j < 30) by (destruct (decide (j = 30)) as [->|]; lia).
  assert (0 < 2 ^ j <= 2 ^ 29) as Hp.
  { split; [apply Z.pow_pos_nonneg; lia|]. apply Z.pow_le_mono_r; lia. }
  rewrite Z.shiftl_mul_pow2, Z.pow_1_r by lia.
  replace (2 ^ j * 2) with (2 ^ (j + 1)) by (rewrite Z.pow_add_r; lia).
  assert (0 < 2 ^ (j + 1) <= 2 ^ 30) as Hp1.
  { split; [apply Z.pow_pos_nonneg; lia|]. apply Z.pow_le_mono_r; lia. }
  rewrite u32_id by (unfold is_u32; lia). replace (_ >? 0) with true by blia. simpl.
  destruct (IH (j + 1)) as (k & Hk & -> & Hu' & Hmin); [lia..|]. exists k. split; [lia|].
  split; [done|]. split; [done|]. right. destruct Hmin as [->|]; [|done].
  by replace (j + 1 - 1) with j by lia.
Qed.

Lemma adjust_power_of_2_ok u :
  0 < u <= 2 ^ 30 ->
  exists k, 0 <= k <= 30 /\ adjust_power_of_2 u = Ok (2 ^ k) /\ u <= 2 ^ k /\ (k = 0 \/ 2 ^ (k - 1) < u).
Proof. intros Hu. apply (adjust_loop_ok 34 0 u); lia. Qed.
