(* ===== verification/PacketId.v ===== *)
(** src/packet_id.h and src/packet_id.c: packet ids, the sliding-window replay
    protection of the receiving side, the allocation of outgoing ids, their wire
    format and their persistence across sessions. *)

From S2P Require Import Prelude Buffer Integer.

Definition SEQ_UNSEEN : Z := 0.
Definition SEQ_EXPIRED : Z := 1.
Definition MIN_SEQ_BACKTRACK : Z := 0.
Definition MAX_SEQ_BACKTRACK : Z := 65536.
Definition MIN_TIME_BACKTRACK : Z := 0.
Definition MAX_TIME_BACKTRACK : Z := 600.
Definition SEQ_REAP_INTERVAL : Z := 5.
Definition PACKET_ID_WRAP_TRIGGER : Z := 4278190080. (* 0xFF000000 *)

(** ** Data *)

Record packet_id_rec := Rec {
  last_reap : Z;
  rec_time : Z;
  rec_id : Z;
  seq_backtrack : Z;
  time_backtrack : Z;
  initialized : bool;
  seq_list : option (circ_list Z)
}.

Record packet_id_persist := Persist {
  filename : option string;
  fd : Z;
  persist_time : Z;
  persist_id : Z;
  time_last_written : Z;
  id_last_written : Z
}.

Record packet_id_persist_file_image := Image { image_time : Z; image_id : Z }.
Record packet_id_send := Send { send_id : Z; send_time : Z }.
Record packet_id_net := Pin { pin_id : Z; pin_time : Z }.
Record packet_id := Pid { pid_send : packet_id_send; pid_rec : packet_id_rec }.

#[export] Instance packet_id_net_eq_dec : EqDecision packet_id_net.
Proof. solve_decision. Defined.

(** Assignments to members of struct packet_id_rec. *)
Definition set_rec_window (p : packet_id_rec) (t id : Z) (sl : option (circ_list Z)) : packet_id_rec :=
  Rec (last_reap p) t id (seq_backtrack p) (time_backtrack p) (initialized p) sl.
Definition set_rec_reaped (p : packet_id_rec) (t : Z) (sl : option (circ_list Z)) : packet_id_rec :=
  Rec t (rec_time p) (rec_id p) (seq_backtrack p) (time_backtrack p) (initialized p) sl.

(** ** Initialization *)

Definition packet_id_init (seq_backtrack time_backtrack : Z) : result packet_id :=
  let clear := Send 0 0 in
  if negb (seq_backtrack =? 0) then
    _ ← assert_ ((MIN_SEQ_BACKTRACK <=? seq_backtrack) && (seq_backtrack <=? MAX_SEQ_BACKTRACK));
    _ ← assert_ ((MIN_TIME_BACKTRACK <=? time_backtrack) && (time_backtrack <=? MAX_TIME_BACKTRACK));
    Ok (Pid clear (Rec 0 0 0 seq_backtrack time_backtrack true
                     (Some (CIRC_LIST_ALLOC 0 seq_backtrack))))
  else Ok (Pid clear (Rec 0 0 0 0 0 true None)).

(** ** Receiving side *)

(** while (p->id < pin->id) { push SEQ_UNSEEN; ++p->id }: [n] bounds the
    iterations; [packet_id_add] passes pin->id - p->id. *)
Fixpoint push_unseen (n : nat) (sl : circ_list Z) (id target : Z) : result (circ_list Z * Z) :=
  match n with
  | O => Ok (sl, id)
  | S m =>
      if id <? target then
        sl' ← CIRC_LIST_PUSH sl SEQ_UNSEEN;
        push_unseen m sl' (u32 (id + 1)) target
      else Ok (sl, id)
  end.

Definition packet_id_add (now : Z) (p : packet_id_rec) (pin : packet_id_net) : result packet_id_rec :=
  let local_now := now in
  match seq_list p with
  | Some sl =>
      let backtrack := u32 (seq_backtrack p) in
      let '(t, id, sl) :=
        if (CIRC_LIST_SIZE sl =? 0) || (pin_time pin >? rec_time p)
           || ((pin_id pin >=? backtrack) && (u32 (pin_id pin - backtrack) >? rec_id p))
        then (pin_time pin,
              if pin_id pin >? backtrack then u32 (pin_id pin - backtrack) else 0,
              CIRC_LIST_RESET sl)
        else (rec_time p, rec_id p, sl) in
      '(sl, id) ← push_unseen (Z.to_nat (pin_id pin - id)) sl id (pin_id pin);
      let diff := u32 (id - pin_id pin) in
      sl ← (if (diff <? u32 (CIRC_LIST_SIZE sl)) && (local_now >? SEQ_EXPIRED)
            then CIRC_LIST_ITEM_set sl diff local_now else Ok sl);
      Ok (set_rec_window p t id (Some sl))
  | None => Ok (set_rec_window p (pin_time pin) (pin_id pin) None)
  end.

(** The loop of packet_id_reap: [n] items are left, [i] is the next. *)
Fixpoint reap_loop (n : nat) (i : Z) (expire : bool) (tb local_now : Z) (sl : circ_list Z)
  : result (circ_list Z) :=
  match n with
  | O => Ok sl
  | S m =>
      t ← CIRC_LIST_ITEM sl i;
      if t =? SEQ_EXPIRED then Ok sl
      else
        let expire := expire || (negb (t =? 0) && (t + tb <? local_now)) in
        sl ← (if expire then CIRC_LIST_ITEM_set sl i SEQ_EXPIRED else Ok sl);
        reap_loop m (i + 1) expire tb local_now sl
  end.

Definition packet_id_reap (now : Z) (p : packet_id_rec) : result packet_id_rec :=
  let local_now := now in
  if negb (time_backtrack p =? 0) then
    sl ← from_opt (seq_list p);
    sl ← reap_loop (Z.to_nat (CIRC_LIST_SIZE sl)) 0 false (time_backtrack p) local_now sl;
    Ok (set_rec_reaped p local_now (Some sl))
  else Ok (set_rec_reaped p local_now (seq_list p)).

Definition packet_id_reap_test (now : Z) (p : packet_id_rec) : result packet_id_rec :=
  if last_reap p + SEQ_REAP_INTERVAL <=? now then packet_id_reap now p else Ok p.

(** The static max_backtrack_stat only feeds a debug message and is left out. *)
Definition packet_id_test (p : packet_id_rec) (pin : packet_id_net) : result bool :=
  _ ← assert_ (initialized p);
  if pin_id pin =? 0 then Ok false
  else if negb (seq_backtrack p =? 0) then
    if pin_time pin =? rec_time p then
      if pin_id pin >? rec_id p then Ok true
      else
        let diff := u32 (rec_id p - pin_id pin) in
        sl ← from_opt (seq_list p);
        if diff >=? u32 (CIRC_LIST_SIZE sl) then Ok false
        else t ← CIRC_LIST_ITEM sl diff; Ok (t =? 0)
    else if pin_time pin <? rec_time p then Ok false
    else Ok true
  else
    if pin_time pin =? rec_time p then Ok (pin_id pin =? u32 (rec_id p + 1))
    else if pin_time pin <? rec_time p then Ok false
    else Ok (pin_id pin =? 1).

(** The replay check of openvpn_decrypt (src/crypto.c): reap, test and, when the
    id is accepted, record it. *)
Definition packet_id_receive (now : Z) (p : packet_id_rec) (pin : packet_id_net)
  : result (bool * packet_id_rec) :=
  p ← packet_id_reap_test now p;
  ok ← packet_id_test p pin;
  if ok : bool then p' ← packet_id_add now p pin; Ok (true, p') else Ok (false, p).

Fixpoint receive_all (evs : list (Z * packet_id_net)) (p : packet_id_rec)
  : result (list bool * packet_id_rec) :=
  match evs with
  | [] => Ok ([], p)
  | (now, pin) :: r =>
      '(ok, p1) ← packet_id_receive now p pin;
      '(oks, p2) ← receive_all r p1;
      Ok (ok :: oks, p2)
  end.

(** ** Sending side *)

Definition packet_id_close_to_wrapping (p : packet_id_send) : bool :=
  send_id p >=? PACKET_ID_WRAP_TRIGGER.

Definition packet_id_alloc_outgoing (now : Z) (p : packet_id_send) (long_form : bool)
  : result (packet_id_send * packet_id_net) :=
  let t := if send_time p =? 0 then now else send_time p in
  let id := u32 (send_id p + 1) in
  if id =? 0 then
    _ ← assert_ long_form;
    Ok (Send 1 now, Pin 1 now)
  else Ok (Send id t, Pin id t).

(** abs is unsigned int: the difference of two time_t is truncated to 32 bits. *)
Definition check_timestamp_delta (now remote max_delta : Z) : bool :=
  let abs := if now >=? remote then u32 (now - remote) else u32 (remote - now) in
  abs <=? max_delta.

(** ** Wire format *)

Definition packet_id_size (long_form : bool) : Z := 4 + (if long_form then 4 else 0).

Definition packet_id_read (buf : buffer) (long_form : bool)
  : M (bool * packet_id_net * buffer) :=
  '(net_id, buf) ← buf_read buf 4;
  match net_id with
  | None => mret (false, Pin 0 0, buf)
  | Some id_bytes =>
      if long_form then
        '(net_time, buf) ← buf_read buf 4;
        match net_time with
        | None => mret (false, Pin (be_dec id_bytes) 0, buf)
        | Some time_bytes => mret (true, Pin (be_dec id_bytes) (be_dec time_bytes), buf)
        end
      else mret (true, Pin (be_dec id_bytes) 0, buf)
  end.

Definition packet_id_write (pin : packet_id_net) (buf : buffer) (long_form prepend : bool)
  : M (bool * buffer) :=
  let net_id := be_enc 4 (pin_id pin) in
  let net_time := be_enc 4 (u32 (pin_time pin)) in
  if prepend then
    '(ok, buf) ← (if long_form then buf_write_prepend buf net_time else mret (true, buf));
    if negb ok then mret (false, buf)
    else
      '(ok, buf) ← buf_write_prepend buf net_id;
      if negb ok then mret (false, buf) else mret (true, buf)
  else
    '(ok, buf) ← buf_write buf net_id;
    if negb ok then mret (false, buf)
    else
      if long_form then
        '(ok, buf) ← buf_write buf net_time;
        if negb ok then mret (false, buf) else mret (true, buf)
      else mret (true, buf).

(** ** Persistence.  What the system calls return is an argument. *)

Definition packet_id_persist_enabled (p : packet_id_persist) : bool := fd p >=? 0.

Definition packet_id_persist_init : packet_id_persist := Persist None (-1) 0 0 0 0.

Definition packet_id_persist_close (p : packet_id_persist) : packet_id_persist :=
  if packet_id_persist_enabled p then packet_id_persist_init else p.

(** [opened] is what open() returns; [locked] whether flock() succeeds (a
    failure is fatal); [image] is what read() filled, if it read all of it. *)
Definition packet_id_persist_load (p : packet_id_persist) (name : string) (opened : Z)
  (locked : bool) (image : option packet_id_persist_file_image) : result packet_id_persist :=
  if negb (packet_id_persist_enabled p) then
    if opened =? -1 then
      Ok (Persist (filename p) opened (persist_time p) (persist_id p)
            (time_last_written p) (id_last_written p))
    else
      _ ← assert_ locked;
      match image with
      | Some im => Ok (Persist (Some name) opened (image_time im) (image_id im)
                         (image_time im) (image_id im))
      | None => Ok (Persist (Some name) opened (persist_time p) (persist_id p)
                      (time_last_written p) (id_last_written p))
      end
  else Ok p.

(** [written] says whether lseek() and write() succeed; the image written is
    returned. *)
Definition packet_id_persist_save (p : packet_id_persist) (written : bool)
  : packet_id_persist * option packet_id_persist_file_image :=
  if packet_id_persist_enabled p && negb (persist_time p =? 0)
     && (negb (persist_time p =? time_last_written p) || negb (persist_id p =? id_last_written p))
  then
    if written then
      (Persist (filename p) (fd p) (persist_time p) (persist_id p) (persist_time p) (persist_id p),
       Some (Image (persist_time p) (persist_id p)))
    else (p, None)
  else (p, None).

Definition packet_id_persist_load_obj (p : packet_id_persist) (pid : packet_id) : packet_id :=
  if packet_id_persist_enabled p && negb (persist_time p =? 0) then
    Pid (pid_send pid)
      (set_rec_window (pid_rec pid) (persist_time p) (persist_id p) (seq_list (pid_rec pid)))
  else pid.

Definition packet_id_persist_save_obj (p : packet_id_persist) (pid : packet_id) : packet_id_persist :=
  if packet_id_persist_enabled p && negb (rec_time (pid_rec pid) =? 0) then
    Persist (filename p) (fd p) (rec_time (pid_rec pid)) (rec_id (pid_rec pid))
      (time_last_written p) (id_last_written p)
  else p.

(** ** Specification of the receiving side: an unbounded set of ids, of which the
    [B] newest of the current time stamp may still arrive ([B] > 0), or which
    must arrive in sequence ([B] = 0). *)

Record window := Window { w_time : Z; w_high : Z; w_seen : gset Z }.

Definition window_init : window := Window 0 0 ∅.

Definition window_accepts (B : Z) (w : window) (pin : packet_id_net) : bool :=
  negb (pin_id pin =? 0) &&
  ((pin_time pin >? w_time w) && ((0 <? B) || (pin_id pin =? 1)) ||
   (pin_time pin =? w_time w) &&
   (if 0 <? B
    then (pin_id pin >? w_high w) ||
         ((w_high w - pin_id pin <? B) && bool_decide (pin_id pin ∉ w_seen w))
    else pin_id pin =? w_high w + 1)).

Definition window_add (w : window) (pin : packet_id_net) : window :=
  if pin_time pin >? w_time w
  then Window (pin_time pin) (pin_id pin) {[pin_id pin]}
  else Window (w_time w) (Z.max (w_high w) (pin_id pin)) ({[pin_id pin]} ∪ w_seen w).

Definition window_receive (B : Z) (w : window) (pin : packet_id_net) : bool * window :=
  if window_accepts B w pin then (true, window_add w pin) else (false, w).

Fixpoint window_receive_all (B : Z) (pins : list packet_id_net) (w : window) : list bool :=
  match pins with
  | [] => []
  | pin :: r => let '(ok, w') := window_receive B w pin in ok :: window_receive_all B r w'
  end.

(** What the wire and the clock deliver: a 32-bit id, a time stamp that is not
    negative, a clock past SEQ_EXPIRED. *)
Definition pin_valid (pin : packet_id_net) : Prop := is_u32 (pin_id pin) /\ 0 <= pin_time pin.
Definition event_valid (ev : Z * packet_id_net) : Prop := SEQ_EXPIRED < fst ev /\ pin_valid (snd ev).

(** ** The sliding window refines its specification *)

Definition item_ok (tb : Z) (w : window) (d : nat) (x : Z) : Prop :=
  (x = SEQ_UNSEEN -> w_high w - Z.of_nat d ∉ w_seen w) /\
  (x <> SEQ_UNSEEN -> (tb <> 0 /\ x = SEQ_EXPIRED) \/ w_high w - Z.of_nat d ∈ w_seen w).

Definition list_sim (B tb : Z) (w : window) (sl : circ_list Z) : Prop :=
  circ_wf sl /\ x_cap sl = B /\ x_size sl = Z.min (w_high w) B /\
  forall d x, circ_items sl !! d = Some x -> item_ok tb w d x.

Record rec_sim (B : Z) (p : packet_id_rec) (w : window) : Prop := {
  rs_init : initialized p = true;
  rs_backtrack : seq_backtrack p = B;
  rs_time : rec_time p = w_time w;
  rs_id : rec_id p = w_high w;
  rs_u32 : is_u32 (w_high w);
  rs_seen : forall i, i ∈ w_seen w -> 1 <= i <= w_high w;
  rs_list : if 0 <? B
            then exists sl, seq_list p = Some sl /\ list_sim B (time_backtrack p) w sl
            else seq_list p = None /\ time_backtrack p = 0 /\ B = 0
}.

Fixpoint reap_items (expire : bool) (tb now : Z) (l : list Z) : list Z :=
  match l with
  | [] => []
  | t :: r =>
      if t =? SEQ_EXPIRED then t :: r
      else
        let e := expire || (negb (t =? 0) && (t + tb <? now)) in
        (if e then SEQ_EXPIRED else t) :: reap_items e tb now r
  end.

Lemma reap_loop_spec n k e tb now sl :
  circ_wf sl -> Z.of_nat n + Z.of_nat k = x_size sl ->
  exists sl', reap_loop n (Z.of_nat k) e tb now sl = Ok sl' /\ circ_wf sl' /\
    x_size sl' = x_size sl /\ x_cap sl' = x_cap sl /\
    circ_items sl' = take k (circ_items sl) ++ reap_items e tb now (drop k (circ_items sl)).
Proof.
  revert k e sl. induction n as [|n IH]; intros k e sl Hw Hk; cbn [reap_loop].
  - exists sl. split_and!; auto. pose proof (length_circ_items sl Hw). unfold Zlen in *.
    rewrite drop_ge, take_ge by lia. simpl. by rewrite app_nil_r.
  - pose proof (length_circ_items sl Hw) as Hlen. unfold Zlen in *.
    destruct (lookup_lt_is_Some_2 (circ_items sl) k) as [t Ht]; [lia|].
    erewrite CIRC_LIST_ITEM_ok by (eauto; rewrite ?Nat2Z.id; eauto with lia). simpl.
    erewrite (drop_S (circ_items sl)) by eauto. cbn [reap_items].
    destruct (t =? SEQ_EXPIRED) eqn:Et.
    { exists sl. split_and!; auto. by rewrite <- (take_drop k (circ_items sl)) at 1;
        erewrite (drop_S (circ_items sl)) by eauto. }
    set (e' := e || _).
    assert (exists sl1, (if e' then CIRC_LIST_ITEM_set sl (Z.of_nat k) SEQ_EXPIRED else Ok sl)
              = Ok sl1 /\ circ_wf sl1 /\ x_size sl1 = x_size sl /\ x_cap sl1 = x_cap sl /\
              circ_items sl1 = <[k := if e' then SEQ_EXPIRED else t]> (circ_items sl))
      as (sl1 & -> & Hw1 & Hs1 & Hc1 & Hi1).
    { destruct e'.
      - edestruct (CIRC_LIST_ITEM_set_ok sl (Z.of_nat k) SEQ_EXPIRED) as (sl1 & ? & ? & ? & ? & Hi);
          eauto; [lia|]. rewrite Nat2Z.id in Hi. eauto 10.
      - exists sl. split_and!; auto. by rewrite list_insert_id. }
    simpl. replace (Z.of_nat k + 1) with (Z.of_nat (S k)) by lia.
    destruct (IH (S k) e' sl1) as (sl2 & -> & ? & ? & ? & Hi2); auto; [lia|].
    exists sl2. split_and!; auto; try congruence.
    rewrite Hi2, Hi1. rewrite drop_insert_lt by lia.
    erewrite take_S_r by (apply list_lookup_insert_eq; lia).
    rewrite take_insert_ge by lia. by rewrite <- app_assoc.
Qed.

Lemma reap_items_lookup e tb now l d x' :
  reap_items e tb now l !! d = Some x' ->
  exists x, l !! d = Some x /\ (x' = x \/ x' = SEQ_EXPIRED).
Proof.
  revert e d. induction l as [|t r IH]; intros e d; cbn [reap_items]; [done|].
  destruct (t =? SEQ_EXPIRED); [eauto|]. destruct d as [|d]; simpl.
  - intros [= <-]. case_match; eauto.
  - eauto.
Qed.

(** The reaper keeps the window; [tb] = 0 disables it. *)
Lemma packet_id_reap_test_sim B now p w :
  rec_sim B p w ->
  exists p', packet_id_reap_test now p = Ok p' /\ rec_sim B p' w /\
             time_backtrack p' = time_backtrack p.
Proof.
  intros H. unfold packet_id_reap_test. case_test; [|eauto].
  unfold packet_id_reap. destruct (time_backtrack p =? 0) eqn:Etb; simpl.
  - eexists. split; [done|]. split; [|done]. destruct H. by constructor.
  - bool_simp. destruct H as [? ? ? ? ? ? Hl]. destruct (0 <? B) eqn:EB.
    2:{ destruct Hl as (? & ? & ?). lia. }
    destruct Hl as (sl & Esl & Hw & Hc & Hs & Hi). rewrite Esl. simpl.
    destruct (reap_loop_spec (Z.to_nat (x_size sl)) 0 false (time_backtrack p) now sl)
      as (sl' & Er & Hw' & Hs' & Hc' & Hi'); auto. { destruct Hw. lia. }
    unfold CIRC_LIST_SIZE. change (Z.of_nat 0) with 0 in Er. rewrite Er. simpl. eexists. split; [done|]. split; [|done].
    constructor; simpl; auto. rewrite EB. exists sl'. split; [done|].
    split_and!; auto; try congruence.
    intros d x'. rewrite Hi'. simpl. intros (x & Hx & [->| ->])%reap_items_lookup.
    + by apply Hi.
    + split; [done|]. auto.
Qed.

Lemma push_unseen_spec n sl id target :
  circ_wf sl -> 0 <= id -> is_u32 target -> n = Z.to_nat (target - id) ->
  exists sl', push_unseen n sl id target = Ok (sl', Z.max id target) /\ circ_wf sl' /\
    x_cap sl' = x_cap sl /\ x_size sl' = Z.min (x_size sl + Z.of_nat n) (x_cap sl) /\
    circ_items sl' = take (Z.to_nat (x_cap sl)) (replicate n SEQ_UNSEEN ++ circ_items sl).
Proof.
  revert sl id. induction n as [|n IH]; intros sl id Hw Hid Ht Hn; cbn [push_unseen].
  - exists sl. rewrite Z.max_l by lia. pose proof (length_circ_items sl Hw). destruct Hw eqn:?.
    unfold Zlen in *. split_and!; auto; [lia|]. simpl. rewrite take_ge; [done|lia].
  - replace (id <? target) with true by lia.
    destruct (CIRC_LIST_PUSH_ok sl SEQ_UNSEEN Hw) as (sl1 & -> & Hw1 & Hs1 & Hc1 & Hi1).
    simpl. unfold is_u32 in Ht. wrap_simp.
    destruct (IH sl1 (id + 1)) as (sl2 & -> & Hw2 & Hc2 & Hs2 & Hi2); auto; try lia.
    exists sl2. split_and!; auto; try congruence.
    + f_equal. f_equal. lia.
    + rewrite Hs2, Hs1, Hc1. destruct Hw. lia.
    + rewrite Hi2, Hi1, Hc1. destruct Hw as [Hcap _ _ _].
      assert (replicate (S n) SEQ_UNSEEN ++ circ_items sl
              = replicate n SEQ_UNSEEN ++ SEQ_UNSEEN :: circ_items sl) as Hr
        by (by rewrite replicate_S_end, <- app_assoc).
      simpl in Hr. rewrite Hr.
      apply list_eq. intros j. rewrite !lookup_take. case_decide; [|done].
      destruct (decide (j < n)%nat).
      * by rewrite !lookup_app_l by (rewrite length_replicate; lia).
      * rewrite !lookup_app_r by (rewrite length_replicate; lia). rewrite length_replicate.
        rewrite lookup_take. by rewrite decide_True by lia.
Qed.

Lemma packet_id_test_sim B p w pin :
  rec_sim B p w -> 0 <= B < 65537 -> pin_valid pin ->
  exists ok, packet_id_test p pin = Ok ok /\
    (ok = true -> window_accepts B w pin = true) /\
    (time_backtrack p = 0 -> ok = window_accepts B w pin).
Proof.
  intros [Hini Hb Ht Hid Hu Hseen Hl] HB [Hpu Hpt]. unfold is_u32 in *.
  unfold packet_id_test, window_accepts. rewrite Hini, Hb, Ht, Hid. simpl.
  destruct (pin_id pin =? 0) eqn:E0; simpl; [eauto|]. bool_simp.
  destruct (0 <? B) eqn:EB; simpl.
  - replace (B =? 0) with false by lia. simpl.
    destruct Hl as (sl & Esl & Hw & Hc & Hs & Hi). rewrite Esl. simpl.
    destruct (pin_time pin =? w_time w) eqn:E1; simpl; bool_simp.
    2:{ case_test.
        - replace (_ >? _) with false by lia. simpl. eauto.
        - replace (_ >? _) with true by lia. simpl. eauto. }
    replace (pin_time pin >? w_time w) with false by lia. simpl.
    destruct (pin_id pin >? w_high w) eqn:E2; simpl; [eauto|]. bool_simp.
    unfold CIRC_LIST_SIZE. rewrite (u32_id (w_high w - _)) by (unfold is_u32; lia).
    rewrite (u32_id (x_size sl)) by (destruct Hw; unfold is_u32; lia).
    destruct (w_high w - pin_id pin >=? x_size sl) eqn:E3; bool_simp.
    { replace (_ <? B) with false by lia. simpl. eauto. }
    replace (_ <? B) with true by lia. simpl.
    set (d := Z.to_nat (w_high w - pin_id pin)).
    pose proof (length_circ_items sl Hw) as Hlen. unfold Zlen in Hlen.
    destruct (lookup_lt_is_Some_2 (circ_items sl) d) as [x Hx]; [lia|].
    erewrite CIRC_LIST_ITEM_ok by (eauto; lia). simpl. exists (x =? 0). split; [done|].
    destruct (Hi _ _ Hx) as [Hz Hnz]. unfold SEQ_UNSEEN in *.
    replace (w_high w - Z.of_nat d) with (pin_id pin) in * by lia.
    destruct (x =? 0) eqn:E4; bool_simp.
    + rewrite bool_decide_eq_true_2 by auto. auto.
    + split; [done|]. intros Htb. destruct (Hnz E4) as [[? ?]|?]; [congruence|].
      by rewrite bool_decide_eq_false_2 by auto.
  - replace (B =? 0) with true by lia. simpl.
    destruct (pin_time pin =? w_time w) eqn:E1; simpl; bool_simp.
    + rewrite E1, Z.gtb_ltb, Z.ltb_irrefl. simpl.
      destruct (decide (w_high w = 4294967295)) as [->|].
      * eexists; split; [reflexivity|]. change (u32 (4294967295 + 1)) with 0.
        replace (pin_id pin =? 0) with false by lia.
        replace (pin_id pin =? 4294967295 + 1) with false by lia. done.
      * wrap_simp. eauto.
    + rewrite Z.gtb_ltb. case_test.
      * replace (w_time w <? _) with false by lia. simpl. eauto.
      * replace (w_time w <? _) with true by lia. simpl. rewrite orb_false_r. eauto.
Qed.

(** Pushing the ids up to [pin] and marking [pin] gives the list of a window
    with seen ids [S]. *)
Lemma push_mark_sim B tb t S now id0 sl0 id :
  circ_wf sl0 -> x_cap sl0 = B -> B < 65537 -> 1 <= id -> is_u32 id -> is_u32 id0 ->
  SEQ_EXPIRED < now ->
  let H' := Z.max id0 id in
  Z.min (x_size sl0 + (H' - id0)) B = Z.min H' B -> H' - id < Z.min H' B ->
  (forall d x, circ_items sl0 !! d = Some x ->
     (x = SEQ_UNSEEN -> id0 - Z.of_nat d ∉ S \/ id0 - Z.of_nat d = id) /\
     (x <> SEQ_UNSEEN -> (tb <> 0 /\ x = SEQ_EXPIRED) \/ id0 - Z.of_nat d ∈ S)) ->
  (forall i, i ∈ S -> i <= id0 \/ i = id) -> id ∈ S ->
  exists sl1 sl2,
    push_unseen (Z.to_nat (id - id0)) sl0 id0 id = Ok (sl1, H') /\
    (if (u32 (H' - id) <? u32 (CIRC_LIST_SIZE sl1)) && (now >? SEQ_EXPIRED)
     then CIRC_LIST_ITEM_set sl1 (u32 (H' - id)) now else Ok sl1) = Ok sl2 /\
    list_sim B tb (Window t H' S) sl2.
Proof.
  intros Hw Hc HB Hid1 Hidu Hid0 Hnow H' Hsize Hdiff Hitems HS HidS. unfold is_u32 in *.
  assert (H' = Z.max id0 id) as EH' by done. pose proof (cw_cap _ Hw).
  destruct (push_unseen_spec (Z.to_nat (id - id0)) sl0 id0 id)
    as (sl1 & -> & Hw1 & Hc1 & Hs1 & Hi1); auto; try lia.
  assert (x_size sl1 = Z.min H' B) as Hs1' by lia.
  destruct (CIRC_LIST_ITEM_set_ok sl1 (H' - id) now) as (sl2 & E2 & Hw2 & Hs2 & Hc2 & Hi2);
    auto; try lia.
  exists sl1, sl2. split; [done|]. split.
  { unfold CIRC_LIST_SIZE. wrap_simp.
    by replace (_ && _) with true by (unfold SEQ_EXPIRED in *; lia). }
  split_and!; auto; try congruence; simpl; try lia.
  intros d x. rewrite Hi2. unfold item_ok; simpl. unfold SEQ_UNSEEN, SEQ_EXPIRED in *.
  destruct (decide (d = Z.to_nat (H' - id))) as [->|Hne].
  { rewrite list_lookup_insert_eq by (pose proof (length_circ_items sl1 Hw1); unfold Zlen in *; lia).
    intros [= <-]. rewrite Z2Nat.id by lia. replace (H' - (H' - id)) with id by lia.
    split; [lia|auto]. }
  rewrite list_lookup_insert_ne by done. rewrite Hi1, lookup_take. case_decide; [|done].
  destruct (decide (d < Z.to_nat (id - id0))%nat).
  - rewrite lookup_app_l by (rewrite length_replicate; lia).
    intros [-> ?]%lookup_replicate. split; [|done]. intros _ Hin.
    destruct (HS _ Hin); lia.
  - rewrite lookup_app_r by (rewrite length_replicate; lia). rewrite length_replicate.
    intros Hx. destruct (Hitems _ _ Hx) as [Hz Hnz].
    replace (id0 - Z.of_nat (d - Z.to_nat (id - id0))) with (H' - Z.of_nat d) in * by lia.
    split; [|done]. intros ->. destruct (Hz eq_refl) as [?|?]; [done|lia].
Qed.

(** The cases in which a window accepts an id. *)
Lemma window_accepts_cases B w pin :
  window_accepts B w pin = true -> 0 < B ->
  pin_id pin <> 0 /\
  (pin_time pin > w_time w \/ pin_time pin = w_time w /\
   (pin_id pin > w_high w \/ w_high w - pin_id pin < B /\ pin_id pin ∉ w_seen w)).
Proof.
  unfold window_accepts. intros H HB. replace (0 <? B) with true in H by lia. bool_simp.
  split; [done|]. simpl in *. apply orb_true_iff in H0 as [?|?]; bool_simp; [left; lia|right].
  split; [lia|]. apply orb_true_iff in H1 as [?|?]; bool_simp; [left; lia|right].
  split; [lia|]. by apply bool_decide_eq_true in H2.
Qed.

Lemma window_add_seen_in w pin : pin_id pin ∈ w_seen (window_add w pin).
Proof.
  unfold window_add. case_match; simpl; rewrite ?elem_of_union, ?elem_of_singleton; auto.
Qed.

Lemma window_add_range w pin :
  is_u32 (w_high w) -> is_u32 (pin_id pin) -> 1 <= pin_id pin ->
  (forall i, i ∈ w_seen w -> 1 <= i <= w_high w) ->
  is_u32 (w_high (window_add w pin)) /\
  forall i, i ∈ w_seen (window_add w pin) -> 1 <= i <= w_high (window_add w pin).
Proof.
  unfold window_add, is_u32. intros ??? Hs. case_test; simpl; (split; [lia|]).
  - intros i ->%elem_of_singleton. lia.
  - intros i [->%elem_of_singleton|Hi]%elem_of_union; [lia|]. specialize (Hs i Hi). lia.
Qed.

(** Sequential (TCP) mode. *)
Lemma packet_id_add_sim_tcp now p w pin :
  rec_sim 0 p w -> pin_valid pin -> window_accepts 0 w pin = true ->
  exists p', packet_id_add now p pin = Ok p' /\ rec_sim 0 p' (window_add w pin) /\
             time_backtrack p' = time_backtrack p.
Proof.
  intros [Hini Hb Ht Hid Hu Hseen Hl] [Hpu Hpt] Hacc. simpl in Hl.
  destruct Hl as (Hsl & Htb & _). unfold window_accepts in Hacc. bool_simp. simpl in *.
  unfold packet_id_add. rewrite Hsl. eexists. split; [done|]. split; [|done].
  unfold is_u32 in *.
  destruct (window_add_range w pin) as [HR HS]; unfold is_u32; auto; [lia|].
  constructor; simpl; auto.
  - unfold window_add. case_test; simpl; [done|].
    apply orb_true_iff in H0 as [?|?]; bool_simp; lia.
  - unfold window_add. case_test; simpl; [done|].
    apply orb_true_iff in H0 as [?|?]; bool_simp; lia.
Qed.

(** Pushing and marking from [id0] gives the window with [pin] added. *)
Lemma push_mark_rec_sim B now p w pin id0 sl0 :
  rec_sim B p w -> 0 < B < 65537 -> is_u32 (pin_id pin) -> 1 <= pin_id pin ->
  SEQ_EXPIRED < now -> circ_wf sl0 -> x_cap sl0 = B -> is_u32 id0 ->
  let w' := window_add w pin in
  Z.max id0 (pin_id pin) = w_high w' ->
  Z.min (x_size sl0 + (w_high w' - id0)) B = Z.min (w_high w') B ->
  w_high w' - pin_id pin < Z.min (w_high w') B ->
  (forall d x, circ_items sl0 !! d = Some x ->
     (x = SEQ_UNSEEN -> id0 - Z.of_nat d ∉ w_seen w' \/ id0 - Z.of_nat d = pin_id pin) /\
     (x <> SEQ_UNSEEN ->
      (time_backtrack p <> 0 /\ x = SEQ_EXPIRED) \/ id0 - Z.of_nat d ∈ w_seen w')) ->
  (forall i, i ∈ w_seen w' -> i <= id0 \/ i = pin_id pin) ->
  exists p', ('(sl, id) ← push_unseen (Z.to_nat (pin_id pin - id0)) sl0 id0 (pin_id pin);
    let diff := u32 (id - pin_id pin) in
    sl ← (if (diff <? u32 (CIRC_LIST_SIZE sl)) && (now >? SEQ_EXPIRED)
          then CIRC_LIST_ITEM_set sl diff now else Ok sl);
    Ok (set_rec_window p (w_time w') id (Some sl))) = Ok p' /\ rec_sim B p' w' /\
    time_backtrack p' = time_backtrack p.
Proof.
  intros [Hini Hb Ht Hid Hu Hseen Hl] HB Hpu Hpos Hnow Hw0 Hc0 Hu0 w' HH Hsz Hdf Hit HS.
  destruct (push_mark_sim B (time_backtrack p) (w_time w') (w_seen w') now id0 sl0
              (pin_id pin)) as (sl1 & sl2 & E1 & E2 & Hls);
    auto; try lia; rewrite ?HH; auto; [apply window_add_seen_in|].
  rewrite E1. simpl. rewrite E2. simpl. eexists. split; [done|]. split; [|done].
  rewrite HH in *. destruct (window_add_range w pin) as [HR HR2]; auto.
  constructor; simpl; auto.
  replace (0 <? B) with true by lia. exists sl2. split; [done|]. by destruct w'.
Qed.

(** packet_id_add starts a new sequence exactly when no id of the current window
    stays inside the one of [pin]. *)
Lemma new_sequence_seen B w pin :
  window_accepts B w pin = true -> 0 < B ->
  (forall i, i ∈ w_seen w -> 1 <= i <= w_high w) -> 0 <= w_high w ->
  pin_time pin > w_time w \/ w_high w = 0 \/ w_high w < pin_id pin - B ->
  0 <= pin_id pin ->
  w_high (window_add w pin) = pin_id pin /\ w_time (window_add w pin) = pin_time pin /\
  forall i, i ∈ w_seen (window_add w pin) -> i <= Z.max 0 (pin_id pin - B) \/ i = pin_id pin.
Proof.
  intros Hacc HB Hseen Hh Hnew Hp.
  destruct (window_accepts_cases _ _ _ Hacc HB) as [? Hcase].
  unfold window_add. rewrite Z.gtb_ltb. case_test; simpl.
  { split_and!; auto. intros i ->%elem_of_singleton. auto. }
  destruct Hcase as [?|[? _]]; [lia|].
  split_and!; [lia|lia|]. intros i [->%elem_of_singleton|Hin]%elem_of_union; [by right|].
  specialize (Hseen i Hin). lia.
Qed.

Lemma packet_id_add_sim B now p w pin :
  rec_sim B p w -> 0 <= B < 65537 -> pin_valid pin -> SEQ_EXPIRED < now ->
  window_accepts B w pin = true ->
  exists p', packet_id_add now p pin = Ok p' /\ rec_sim B p' (window_add w pin) /\
             time_backtrack p' = time_backtrack p.
Proof.
  intros Hsim HB Hpin Hnow Hacc. destruct (decide (B = 0)) as [->|].
  { by apply packet_id_add_sim_tcp. }
  destruct Hsim as [Hini Hb Ht Hid Hu Hseen Hl] eqn:Esim. clear Esim.
  destruct Hpin as [Hpu Hpt]. unfold is_u32 in Hpu, Hu.
  destruct (window_accepts_cases _ _ _ Hacc) as [Hnz Hcase]; [lia|].
  replace (0 <? B) with true in Hl by lia. destruct Hl as (sl & Esl & Hw & Hc & Hs & Hi).
  unfold packet_id_add. rewrite Esl, Hb, Ht, Hid, (u32_id B) by (unfold is_u32; lia).
  unfold CIRC_LIST_SIZE at 1. destruct (_ || _ || _) eqn:Ecnd.
  - destruct (new_sequence_seen B w pin) as (EH & ET & ES); auto; try lia.
    { apply orb_true_iff in Ecnd as [Ecnd|Ecnd]; bool_simp.
      - apply orb_true_iff in Ecnd as [?|?]; bool_simp; lia.
      - wrap_simp. lia. }
    replace (if pin_id pin >? B then u32 (pin_id pin - B) else 0)
      with (Z.max 0 (pin_id pin - B)) by (case_test; wrap_simp; lia).
    destruct (CIRC_LIST_RESET_wf sl Hw) as [Hw0 Hi0]. rewrite <- ET.
    apply (push_mark_rec_sim B); rewrite ?EH; unfold is_u32; auto; simpl; try lia.
    intros d x. by rewrite Hi0.
  - bool_simp. destruct Hcase as [?|[Et Hc2]]; [lia|].
    assert (pin_id pin <= w_high w + B).
    { destruct (pin_id pin >=? B) eqn:EB2; bool_simp; simpl in *; [|lia].
      bool_simp. wrap_simp. lia. }
    assert (window_add w pin = Window (w_time w) (Z.max (w_high w) (pin_id pin))
              ({[pin_id pin]} ∪ w_seen w)) as EW.
    { unfold window_add. rewrite Z.gtb_ltb. by replace (_ <? _) with false by lia. }
    replace (w_time w) with (w_time (window_add w pin)) by (by rewrite EW).
    apply (push_mark_rec_sim B); rewrite ?EW; unfold is_u32; simpl; auto; try lia.
    + intros d x Hx. destruct (Hi d x Hx) as [Hz Hn]. rewrite elem_of_union, elem_of_singleton.
      split; intros Hx0; [|naive_solver].
      destruct (decide (w_high w - Z.of_nat d = pin_id pin)); naive_solver.
    + intros i [->%elem_of_singleton|Hin]%elem_of_union; [by right|left].
      specialize (Hseen i Hin). lia.
Qed.

(** ** One received packet, and a sequence of them *)

Lemma packet_id_receive_sim B ev p w :
  rec_sim B p w -> 0 <= B < 65537 -> event_valid ev ->
  exists ok p', packet_id_receive (fst ev) p (snd ev) = Ok (ok, p') /\
    time_backtrack p' = time_backtrack p /\
    (if ok then window_accepts B w (snd ev) = true /\ rec_sim B p' (window_add w (snd ev))
     else rec_sim B p' w) /\
    (time_backtrack p = 0 -> ok = window_accepts B w (snd ev)).
Proof.
  intros Hsim HB [Hnow Hpin]. unfold packet_id_receive.
  destruct (packet_id_reap_test_sim B (fst ev) p w Hsim) as (p1 & -> & Hsim1 & Htb1). simpl.
  destruct (packet_id_test_sim B p1 w (snd ev)) as (ok & -> & Hacc & Hexact); auto. simpl.
  rewrite Htb1 in Hexact. destruct ok.
  - specialize (Hacc eq_refl).
    destruct (packet_id_add_sim B (fst ev) p1 w (snd ev)) as (p2 & -> & Hsim2 & Htb2); auto.
    simpl. exists true, p2. split_and!; auto; congruence.
  - exists false, p1. split_and!; auto.
Qed.

Lemma packet_id_init_sim sb tb p :
  packet_id_init sb tb = Ok p ->
  0 <= sb < 65537 /\ rec_sim sb (pid_rec p) window_init /\
  (sb <> 0 -> time_backtrack (pid_rec p) = tb) /\ (tb = 0 -> time_backtrack (pid_rec p) = 0).
Proof.
  unfold packet_id_init. destruct (sb =? 0) eqn:E; simpl; bool_simp.
  - intros [= <-]. split; [lia|]. split; [|split; simpl; congruence].
    rewrite E. constructor; simpl; unfold is_u32; auto; try lia. set_solver.
  - unfold assert_, MIN_SEQ_BACKTRACK, MAX_SEQ_BACKTRACK, MIN_TIME_BACKTRACK, MAX_TIME_BACKTRACK.
    destruct ((0 <=? sb) && (sb <=? 65536)) eqn:E1; simpl; [|done].
    destruct ((0 <=? tb) && (tb <=? 600)) eqn:E2; simpl; [|done].
    intros [= <-]. bool_simp. split; [lia|]. split; [|split; simpl; congruence].
    destruct (CIRC_LIST_ALLOC_wf 0 sb) as [Hw Hi]; [lia|].
    constructor; simpl; unfold is_u32; auto; try lia. { set_solver. }
    replace (0 <? sb) with true by lia. eexists. split; [done|].
    split_and!; auto; [simpl; lia|]. rewrite Hi. intros d x. done.
Qed.

(** Case analysis on the boolean structure of [window_accepts]. *)
Ltac window_cases :=
  repeat (progress (repeat match goal with
  | H : context [0 <? ?B] |- _ => let E := fresh "EB" in destruct (0 <? B) eqn:E; bool_simp
  | H : context [if ?a >? ?b then Window _ _ _ else _] |- _ =>
      let E := fresh "ET" in destruct (a >? b) eqn:E; bool_simp
  | H : (_ || _) = true |- _ => apply orb_true_iff in H as [H|H]; bool_simp
  | H : (_ && _) = false |- _ => apply andb_false_iff in H as [H|H]; bool_simp
  | H : bool_decide _ = true |- _ => apply bool_decide_eq_true in H
  | H : bool_decide _ = false |- _ => apply bool_decide_eq_false in H; apply dec_stable in H
  end; cbn [w_time w_high w_seen orb andb] in *; bool_simp)).

(** An id the window has left behind: accepted before, or too old. *)
Definition behind (B : Z) (w : window) (pin : packet_id_net) : Prop :=
  pin_time pin < w_time w \/
  pin_time pin = w_time w /\ pin_id pin <= w_high w /\
  (0 < B -> pin_id pin ∈ w_seen w \/ B <= w_high w - pin_id pin).

Lemma behind_rejected B w pin : behind B w pin -> window_accepts B w pin = false.
Proof.
  intros Hb. apply not_true_iff_false. unfold window_accepts, behind in *. intros Hc.
  bool_simp. window_cases; destruct Hb as [?|(? & ? & Hs)]; try lia.
  destruct (Hs EB); [done|lia].
Qed.

Lemma window_add_behind B w pin : window_accepts B w pin = true -> behind B (window_add w pin) pin.
Proof.
  unfold window_accepts, behind. intros Hc. pose proof (window_add_seen_in w pin).
  bool_simp. right. split_and!; auto.
  - unfold window_add. case_test; simpl; [done|]. window_cases; lia.
  - unfold window_add. case_test; simpl; lia.
Qed.

Lemma behind_window_add B w pin pin' :
  window_accepts B w pin = true -> behind B w pin' -> behind B (window_add w pin) pin'.
Proof.
  unfold window_accepts, behind, window_add. intros Hc Hb. bool_simp.
  case_test; simpl; [left; lia|].
  destruct Hb as [?|(? & ? & Hs)]; [by left|right]. split_and!; [done|lia|].
  intros HB. destruct (Hs HB); [left; set_solver|right; lia].
Qed.

Lemma receive_all_sim B evs p w :
  rec_sim B p w -> 0 <= B < 65537 -> Forall event_valid evs ->
  exists bs p', receive_all evs p = Ok (bs, p') /\
    (time_backtrack p = 0 -> bs = window_receive_all B (snd <$> evs) w) /\
    (forall j ev, behind B w (snd ev) -> evs !! j = Some ev -> bs !! j = Some false) /\
    (forall i j ev ev', (i < j)%nat -> evs !! i = Some ev -> evs !! j = Some ev' ->
       snd ev = snd ev' -> bs !! i = Some true -> bs !! j = Some false).
Proof.
  intros Hsim HB Hev. revert p w Hsim.
  induction Hev as [|ev evs Hv Hevs IH]; intros p w Hsim.
  { exists [], p. split_and!; intros; done. }
  destruct (packet_id_receive_sim B ev p w Hsim HB Hv) as (ok & p1 & E1 & Htb & Hsim1 & Hex).
  destruct ev as [now pin]; cbn [fst snd] in *.
  assert (exists w1, rec_sim B p1 w1 /\
    (forall q, behind B w q -> behind B w1 q) /\ (ok = true -> behind B w1 pin) /\
    (ok = true -> window_accepts B w pin = true) /\
    (time_backtrack p = 0 -> window_receive B w pin = (ok, w1)))
    as (w1 & Hs1 & Hbeh & Hnew & Hacc & Hw1).
  { unfold window_receive. destruct ok.
    - destruct Hsim1 as [Ha Hs1]. exists (window_add w pin).
      split_and!; eauto using behind_window_add, window_add_behind. by rewrite Ha.
    - exists w. split_and!; auto; try done. intros Htb0. by rewrite <- (Hex Htb0). }
  destruct (IH p1 w1 Hs1) as (bs & p2 & E2 & Hbs & Hb & Hrep).
  exists (ok :: bs), p2. simpl. rewrite E1. simpl. rewrite E2. simpl.
  split; [done|]. split_and!.
  - intros Htb0. rewrite (Hw1 Htb0). by rewrite Hbs by congruence.
  - intros [|j] ev Hq; simpl; eauto. intros [= <-]. destruct ok; [|done].
    apply behind_rejected in Hq. simpl in Hq. specialize (Hacc eq_refl). congruence.
  - intros [|i] [|j] ev ev' Hij; simpl; [lia| |lia|].
    + intros [= <-] Hj Heq [= ->]. eapply Hb; eauto. rewrite <- Heq. auto.
    + intros. eapply (Hrep i j); eauto. lia.
Qed.

Lemma receive_all_length evs p bs p' :
  receive_all evs p = Ok (bs, p') -> length bs = length evs.
Proof.
  revert p bs. induction evs as [|[now pin] evs IH]; simpl; intros q bs; [by intros [= <- _]|].
  destruct (packet_id_receive now q pin) as [[ok q1]| |]; simpl; [|done..].
  destruct (receive_all evs q1) as [[bs1 q2]| |] eqn:E1; simpl; [|done..].
  intros [= <- ->]. simpl. f_equal. by eapply IH.
Qed.

(** ** Properties of the receiving side *)

(** C4: no packet id is accepted twice.  From packet_id_init, whatever sequence of
    ids arrives at whatever times (reaping included), the receiver returns for
    each, and an id that was accepted is rejected ever after. *)
Theorem replay_protection sb tb p evs :
  packet_id_init sb tb = Ok p -> Forall event_valid evs ->
  exists bs p', receive_all evs (pid_rec p) = Ok (bs, p') /\ length bs = length evs /\
    forall i j ev ev', (i < j)%nat -> evs !! i = Some ev -> evs !! j = Some ev' ->
      snd ev = snd ev' -> bs !! i = Some true -> bs !! j = Some false.
Proof.
  intros (HB & Hsim & _)%packet_id_init_sim Hev.
  destruct (receive_all_sim sb evs (pid_rec p) window_init) as (bs & p' & E & _ & _ & H); auto.
  exists bs, p'. split; [done|]. split; [|exact H]. by eapply receive_all_length.
Qed.

Definition ex_events : list (Z * packet_id_net) :=
  [(100, Pin 1 7); (100, Pin 70 7); (101, Pin 5 7); (101, Pin 69 7); (130, Pin 69 7);
   (131, Pin 70 7); (132, Pin 1 8)].

Lemma replay_protection_witness :
  exists p, packet_id_init 64 15 = Ok p /\ Forall event_valid ex_events /\
    exists bs p', receive_all ex_events (pid_rec p) = Ok (bs, p') /\
      length bs = length ex_events /\
      forall i j ev ev', (i < j)%nat -> ex_events !! i = Some ev -> ex_events !! j = Some ev' ->
        snd ev = snd ev' -> bs !! i = Some true -> bs !! j = Some false.
Proof.
  eexists. split; [reflexivity|].
  assert (Forall event_valid ex_events) as Hv.
  { repeat constructor; unfold SEQ_EXPIRED, is_u32; simpl; lia. }
  split; [exact Hv|]. apply (replay_protection 64 15); [reflexivity|exact Hv].
Defined.

(** C30: the replay window is exact.  Without a time limit (--replay-window n 0) the
    circular list of n time stamps accepts precisely the ids that the
    unbounded-set window accepts: no fresh id inside the window is lost, across
    jumps, reordering and changes of time stamp. *)
Theorem replay_window_exact sb p evs :
  packet_id_init sb 0 = Ok p -> Forall event_valid evs ->
  exists p', receive_all evs (pid_rec p) =
             Ok (window_receive_all sb (snd <$> evs) window_init, p').
Proof.
  intros (HB & Hsim & _ & Htb)%packet_id_init_sim Hev.
  destruct (receive_all_sim sb evs (pid_rec p) window_init) as (bs & p' & E & Hbs & _); auto.
  exists p'. rewrite E. by rewrite Hbs by auto.
Qed.

Lemma replay_window_exact_witness :
  exists p p', packet_id_init 64 0 = Ok p /\
    window_receive_all 64 (snd <$> ex_events) window_init
      = [true; true; false; true; false; false; true] /\
    receive_all ex_events (pid_rec p)
      = Ok (window_receive_all 64 (snd <$> ex_events) window_init, p').
Proof.
  destruct (replay_window_exact 64 (Pid (Send 0 0)
    (Rec 0 0 0 64 0 true (Some (CIRC_LIST_ALLOC 0 64)))) ex_events) as [p' Hp'].
  - reflexivity.
  - repeat constructor; unfold SEQ_EXPIRED, is_u32; simpl; lia.
  - eexists _, p'. split; [reflexivity|]. split; [vm_compute; reflexivity|exact Hp'].
Defined.

(** The first id after a restart with persisted (T, H) finds an empty list: it
    opens a whole window of unseen ids below itself. *)
Lemma reap_test_empty now lr T H sb tb sl :
  x_size sl = 0 ->
  exists lr', packet_id_reap_test now (Rec lr T H sb tb true (Some sl))
      = Ok (Rec lr' T H sb tb true (Some sl)) /\ now < lr' + SEQ_REAP_INTERVAL.
Proof.
  intros Hs. unfold packet_id_reap_test, packet_id_reap, set_rec_reaped, SEQ_REAP_INTERVAL. simpl.
  unfold CIRC_LIST_SIZE. rewrite Hs. simpl.
  case_test; [|eexists; split; [reflexivity|lia]].
  case_test; eexists; (split; [reflexivity|lia]).
Qed.

Lemma receive_after_load now sb tb lr T H sl :
  circ_wf sl -> x_cap sl = sb -> x_size sl = 0 -> 2 <= sb < 65537 ->
  1 <= H < 4294967295 -> SEQ_EXPIRED < now ->
  exists lr' sl', packet_id_receive now (Rec lr T H sb tb true (Some sl)) (Pin (H + 1) T)
      = Ok (true, Rec lr' T (H + 1) sb tb true (Some sl')) /\
    now < lr' + SEQ_REAP_INTERVAL /\ circ_wf sl' /\ 2 <= x_size sl' <= sb /\
    circ_items sl' !! 1%nat = Some SEQ_UNSEEN.
Proof.
  intros Hw Hc Hs0 Hsb HH Hnow. unfold packet_id_receive.
  destruct (reap_test_empty now lr T H sb tb sl Hs0) as (lr' & -> & Hlr). simpl.
  unfold packet_id_test. simpl. replace (H + 1 =? 0) with false by lia.
  replace (sb =? 0) with false by lia. rewrite Z.eqb_refl. simpl.
  replace (H + 1 >? H) with true by lia. simpl.
  unfold packet_id_add. simpl. unfold CIRC_LIST_SIZE at 1. rewrite Hs0. simpl.
  rewrite (u32_id sb) by (unfold is_u32; lia).
  remember (Z.max 0 (H + 1 - sb)) as id0 eqn:Eid0.
  replace (if H + 1 >? sb then u32 (H + 1 - sb) else 0) with id0 by (case_test; wrap_simp; lia).
  destruct (CIRC_LIST_RESET_wf sl Hw) as [Hw0 Hi0].
  destruct (push_unseen_spec (Z.to_nat (H + 1 - id0)) (CIRC_LIST_RESET sl) id0 (H + 1))
    as (sl1 & -> & Hw1 & Hc1 & Hs1 & Hi1); auto; try lia; [unfold is_u32; lia|].
  simpl in Hs1, Hc1, Hi1 |- *. rewrite Z.max_r, Z.sub_diag by lia. change (u32 0) with 0.
  unfold CIRC_LIST_SIZE. wrap_simp. unfold SEQ_EXPIRED in *. replace (_ && _) with true by lia.
  destruct (CIRC_LIST_ITEM_set_ok sl1 0 now) as (sl2 & -> & Hw2 & Hs2 & Hc2 & Hi2); auto; [lia|].
  simpl. exists lr', sl2. split; [done|]. split_and!; auto; try lia.
  rewrite Hi2, list_lookup_insert_ne by done. rewrite Hi1, lookup_take, decide_True by lia.
  rewrite lookup_app_l by (rewrite length_replicate; lia).
  apply lookup_replicate. split; [done|lia].
Qed.

(** A second id that still finds its place unseen is accepted. *)
Lemma receive_unseen now sb tb lr T H sl :
  circ_wf sl -> 2 <= x_size sl <= sb -> sb < 65537 -> 1 <= H < 4294967295 -> SEQ_EXPIRED < now ->
  now < lr + SEQ_REAP_INTERVAL -> circ_items sl !! 1%nat = Some SEQ_UNSEEN ->
  exists p', packet_id_receive now (Rec lr T (H + 1) sb tb true (Some sl)) (Pin H T)
             = Ok (true, p').
Proof.
  intros Hw Hs Hsb HH Hnow Hlr Hitem.
  unfold packet_id_receive, packet_id_reap_test, SEQ_REAP_INTERVAL in *. simpl.
  replace (lr + 5 <=? now) with false by lia. simpl.
  unfold packet_id_test. simpl. replace (H =? 0) with false by lia.
  replace (sb =? 0) with false by lia. rewrite Z.eqb_refl. simpl.
  replace (H >? H + 1) with false by lia. replace (H + 1 - H) with 1 by lia. change (u32 1) with 1.
  unfold CIRC_LIST_SIZE. rewrite (u32_id (x_size sl)) by (unfold is_u32; lia).
  replace (1 >=? x_size sl) with false by lia.
  rewrite (CIRC_LIST_ITEM_ok sl 1 SEQ_UNSEEN) by (auto; lia). simpl.
  unfold packet_id_add, CIRC_LIST_SIZE. simpl.
  replace (x_size sl =? 0) with false by lia. rewrite Z.gtb_ltb, Z.ltb_irrefl. simpl.
  rewrite (u32_id sb) by (unfold is_u32; lia).
  replace ((H >=? sb) && _) with false.
  2:{ symmetry. apply andb_false_iff. destruct (H >=? sb) eqn:E; [right|by left].
      bool_simp. wrap_simp. lia. }
  rewrite Z2Nat.nonpos by lia. simpl. replace (H + 1 - H) with 1 by lia. change (u32 1) with 1.
  rewrite (u32_id (x_size sl)) by (unfold is_u32; lia). unfold SEQ_EXPIRED in *.
  replace (_ && _) with true by lia.
  destruct (CIRC_LIST_ITEM_set_ok sl 1 now) as (sl3 & -> & _); auto; [lia|]. simpl. eauto.
Qed.

(** What --replay-persist restores is not the window.  A receiver restarted
    with the persisted (time, id) accepts the next id and then accepts again the
    very id that was the highest received before the restart. *)
Theorem persist_reopens_window sb tb p0 p T H now :
  packet_id_init sb tb = Ok p0 -> 2 <= sb -> 0 < T -> 1 <= H < 4294967295 -> SEQ_EXPIRED < now ->
  packet_id_persist_enabled p = true -> persist_time p = T -> persist_id p = H ->
  let rec := pid_rec (packet_id_persist_load_obj p p0) in
  rec_time rec = T /\ rec_id rec = H /\
  exists p', receive_all [(now, Pin (H + 1) T); (now, Pin H T)] rec = Ok ([true; true], p').
Proof.
  intros (HB & [Hini Hsb Ht0 Hid0 _ _ Hl] & _)%packet_id_init_sim Hsb2 HT HH Hnow Hen Ht Hid.
  unfold packet_id_persist_load_obj. rewrite Hen, Ht.
  replace (negb (T =? 0)) with true by lia. simpl. rewrite Hid. split; [done|]. split; [done|].
  replace (0 <? sb) with true in Hl by lia.
  destruct Hl as (sl & Esl & Hw & Hc & Hs & _). simpl in Hs. unfold set_rec_window.
  rewrite Esl, Hini, Hsb.
  destruct (receive_after_load now sb (time_backtrack (pid_rec p0)) (last_reap (pid_rec p0)) T H sl)
    as (lr1 & sl1 & -> & Hlr1 & Hw1 & Hs1 & Hi1); auto; try lia.
  simpl. edestruct (receive_unseen now sb) as [p' Hp']; eauto; [lia|]. rewrite Hp'. simpl. eauto.
Qed.

Lemma persist_reopens_window_witness :
  exists p0 p', packet_id_init 64 15 = Ok p0 /\
    receive_all [(1000, Pin 101 500); (1000, Pin 100 500)]
      (pid_rec (packet_id_persist_load_obj (Persist (Some "f"%string) 3 500 100 500 100) p0))
      = Ok ([true; true], p').
Proof.
  edestruct (persist_reopens_window 64 15) with
    (p := Persist (Some "f"%string) 3 500 100 500 100) (T := 500) (H := 100) (now := 1000)
    as (_ & _ & p' & Hp'); [reflexivity|lia|lia|lia|unfold SEQ_EXPIRED; lia|reflexivity..|].
  eexists _, p'. split; [reflexivity|exact Hp'].
Defined.

(** ** Properties of the sending side *)

Fixpoint alloc_all (nows : list Z) (s : packet_id_send) (long_form : bool)
  : result (list packet_id_net) :=
  match nows with
  | [] => Ok []
  | now :: r =>
      '(s', pin) ← packet_id_alloc_outgoing now s long_form;
      pins ← alloc_all r s' long_form;
      Ok (pin :: pins)
  end.

(** The ids 1 .. 2^32-1 in cyclic order. *)
Definition nth_id (id0 : Z) (k : nat) : Z := (id0 + Z.of_nat k) mod 4294967295 + 1.

Lemma alloc_outgoing_spec now s long_form :
  is_u32 (send_id s) ->
  if long_form || (send_id s <? 4294967295)
  then exists t, packet_id_alloc_outgoing now s long_form
         = Ok (Send (nth_id (send_id s) 0) t, Pin (nth_id (send_id s) 0) t)
  else packet_id_alloc_outgoing now s long_form = AssertFail.
Proof.
  unfold is_u32, packet_id_alloc_outgoing, nth_id. intros. rewrite Z.add_0_r.
  destruct (decide (send_id s = 4294967295)) as [->|].
  - change (u32 (4294967295 + 1)) with 0. destruct long_form; simpl; [|done]. by exists now.
  - replace (send_id s <? 4294967295) with true by lia. rewrite orb_true_r. wrap_simp.
    replace (send_id s + 1 =? 0) with false by lia. rewrite Z.mod_small by lia. eauto.
Qed.

Lemma nth_id_step id0 k :
  0 <= id0 -> nth_id (nth_id id0 0) k = nth_id id0 (S k) /\ is_u32 (nth_id id0 k).
Proof.
  intros. unfold nth_id, is_u32. split.
  - f_equal. rewrite Z.add_0_r, <- Z.add_assoc, Z.add_mod_idemp_l by lia. f_equal. lia.
  - pose proof (Z.mod_pos_bound (id0 + Z.of_nat k) 4294967295). lia.
Qed.

(** The short form stops one short of the wrap. *)
Definition sends_ok (s : packet_id_send) (long_form : bool) (n : nat) : bool :=
  long_form || (send_id s + Z.of_nat n <=? 4294967295).

Lemma alloc_all_spec nows s long_form :
  is_u32 (send_id s) ->
  if sends_ok s long_form (length nows)
  then exists pins, alloc_all nows s long_form = Ok pins /\
         pin_id <$> pins = nth_id (send_id s) <$> seq 0 (length nows)
  else alloc_all nows s long_form = AssertFail.
Proof.
  unfold sends_ok. revert s. induction nows as [|now r IH]; intros s Hu; cbn [alloc_all length].
  { unfold is_u32 in Hu. replace (_ <=? _) with true by blia.
    rewrite orb_true_r. by exists []. }
  pose proof (alloc_outgoing_spec now s long_form Hu) as Hs.
  destruct (nth_id_step (send_id s) 0) as [_ Hu']; [unfold is_u32 in Hu; lia|].
  destruct (long_form || (send_id s <? 4294967295)) eqn:E0.
  2:{ rewrite Hs. unfold is_u32 in Hu. bool_simp. subst. simpl.
      by replace (_ <=? _) with false by blia. }
  destruct Hs as [t ->]. simpl. specialize (IH (Send (nth_id (send_id s) 0) t) Hu').
  cbn [send_id] in IH. replace (long_form || _) with
    (long_form || (nth_id (send_id s) 0 + Z.of_nat (length r) <=? 4294967295)) in *.
  2:{ destruct long_form; [done|]. simpl in E0. bool_simp. unfold is_u32 in Hu.
      unfold nth_id. change (Z.of_nat 0) with 0. rewrite Z.add_0_r, Z.mod_small by lia.
      by replace (send_id s + Z.of_nat (S (length r))) with (send_id s + 1 + Z.of_nat (length r))
        by lia. }
  destruct (_ || _); [|by rewrite IH]. destruct IH as (pins & -> & Hp). simpl.
  eexists. split; [done|]. csimpl. rewrite Hp. f_equal.
  rewrite <- fmap_S_seq, <- list_fmap_compose. apply list_fmap_ext. intros i k _. simpl.
  apply nth_id_step. unfold is_u32 in Hu. lia.
Qed.

Lemma nth_id_inj id0 i j :
  0 <= id0 -> 0 <= i < 4294967295 -> 0 <= j < 4294967295 ->
  nth_id id0 (Z.to_nat i) = nth_id id0 (Z.to_nat j) -> i = j.
Proof.
  unfold nth_id. intros ??? Heq. rewrite !Z2Nat.id in Heq by lia.
  assert ((id0 + i) mod 4294967295 = (id0 + j) mod 4294967295) by lia.
  Z.div_mod_to_equations. lia.
Qed.

(** Outgoing packet ids are not reused.  Whatever the clock does, 2^32 - 1
    consecutive ids (the IVs of the CFB and OFB modes) are pairwise different and
    none is 0.  In short form, where a wrap could not be told apart by the time
    stamp, the ids are consecutive and the sender stops by ASSERT rather than
    wrap. *)
Theorem outgoing_ids_distinct nows s long_form :
  is_u32 (send_id s) -> Z.of_nat (length nows) <= 4294967295 ->
  if sends_ok s long_form (length nows)
  then exists pins, alloc_all nows s long_form = Ok pins /\ length pins = length nows /\
         NoDup (pin_id <$> pins) /\ Forall (fun id => 1 <= id < 4294967296) (pin_id <$> pins) /\
         (long_form = false ->
            pin_id <$> pins = (fun k => send_id s + 1 + Z.of_nat k) <$> seq 0 (length nows))
  else alloc_all nows s long_form = AssertFail.
Proof.
  intros Hu Hlen. pose proof (alloc_all_spec nows s long_form Hu) as H.
  assert (0 <= send_id s) by (unfold is_u32 in Hu; lia).
  destruct (sends_ok _ _ _) eqn:Eok; [|done]. destruct H as (pins & E & Hids).
  exists pins. rewrite Hids. split_and!; auto.
  - apply (f_equal length) in Hids. by rewrite !length_fmap, length_seq in Hids.
  - apply NoDup_fmap_2_strong; [|apply NoDup_seq].
    intros i j [_ Hi]%elem_of_seq [_ Hj]%elem_of_seq Heq.
    apply Nat2Z.inj, (nth_id_inj (send_id s)); rewrite ?Nat2Z.id; auto; lia.
  - apply Forall_fmap, Forall_forall. intros k _. simpl.
    destruct (nth_id_step (send_id s) k) as [_ Hr]; [done|]. unfold nth_id, is_u32 in *.
    pose proof (Z.mod_pos_bound (send_id s + Z.of_nat k) 4294967295). lia.
  - intros ->. unfold sends_ok in Eok. simpl in Eok. bool_simp. apply list_fmap_ext.
    intros i k [-> Hk]%lookup_seq. unfold nth_id. rewrite Z.mod_small by lia. lia.
Qed.

Lemma outgoing_ids_distinct_witness :
  exists pins, alloc_all [5; 5; 6; 6] (Send 4294967293 1) true = Ok pins /\
    NoDup (pin_id <$> pins).
Proof.
  destruct (outgoing_ids_distinct [5; 5; 6; 6] (Send 4294967293 1) true)
    as (pins & E & _ & Hn & _); [unfold is_u32; simpl; lia | simpl; lia |].
  exists pins. split; [exact E | exact Hn].
Defined.

(** ** Wire format *)

(** The bytes of a packet id on the wire. *)
Definition pin_bytes (pin : packet_id_net) (long_form : bool) : list byte :=
  be_enc 4 (pin_id pin) ++ (if long_form then be_enc 4 (u32 (pin_time pin)) else []).

Lemma Zlen_pin_bytes pin long_form : Zlen (pin_bytes pin long_form) = packet_id_size long_form.
Proof. unfold pin_bytes. rewrite Zlen_app. destruct long_form; by rewrite ?Zlen_be_enc. Qed.

Lemma wp_packet_id_write_prepend h p b bs pin long_form :
  buf_rep h p b bs -> packet_id_size long_form <= b_offset b ->
  let n := packet_id_size long_form in
  let b' := with_offset_len b (b_offset b - n) (b_len b + n) in
  wp (packet_id_write pin b long_form true)
     (fun r h' => r = (true, b') /\ buf_rep h' p b' (pin_bytes pin long_form ++ bs) /\
        modifies h h' (ptr_add p (b_offset b - n)) n) h.
Proof.
  intros Hb Hroom n b'. subst n b'. unfold packet_id_write, pin_bytes, packet_id_size in *.
  rep_facts Hb. destruct long_form; cbn iota in *; wp_steps.
  - wp_use wp_buf_write_prepend; [rewrite Zlen_be_enc4; lia|].
    intros [ok b1] h1 ([= -> ->] & Hr1 & Hm1). rewrite Zlen_be_enc4 in *. buf_simpl. wp_steps.
    wp_use wp_buf_write_prepend; [buf_simpl; rewrite Zlen_be_enc4; lia|].
    intros [ok b2] h2 ([= -> ->] & Hr2 & Hm2). rewrite Zlen_be_enc4 in *. buf_simpl. wp_steps.
    unfold with_offset_len in *. buf_simpl.
    replace (b_offset b - 4 - 4) with (b_offset b - (4 + 4)) in * by lia.
    replace (b_len b + 4 + 4) with (b_len b + (4 + 4)) in * by lia.
    split; [done|]. rewrite <- app_assoc. split; [done|].
    eapply modifies_trans; (eapply modifies_widen; [eassumption|done|simpl; lia..]).
  - wp_use wp_buf_write_prepend.
    intros [ok b1] h1 ([= -> ->] & Hr1 & Hm1). rewrite Zlen_be_enc4 in *. buf_simpl. wp_steps.
    by rewrite app_nil_r.
Qed.

(** What packet_id_read takes off the front of a packet. *)
Definition split_pin (long_form : bool) (bs : list byte) : option (packet_id_net * list byte) :=
  if Zlen bs <? packet_id_size long_form then None
  else Some (Pin (be_dec (take 4 bs)) (if long_form then be_dec (take 4 (drop 4 bs)) else 0),
             drop (Z.to_nat (packet_id_size long_form)) bs).

Lemma split_pin_bytes pin long_form bs :
  is_u32 (pin_id pin) -> is_u32 (pin_time pin) ->
  split_pin long_form (pin_bytes pin long_form ++ bs)
  = Some (Pin (pin_id pin) (if long_form then pin_time pin else 0), bs).
Proof.
  intros Hid Ht. unfold split_pin. rewrite Zlen_app, Zlen_pin_bytes.
  replace (_ <? _) with false by (pose proof (Zlen_nonneg bs); lia).
  assert (forall x l, take 4 (be_enc 4 x ++ l) = be_enc 4 x) as Htake
    by (intros; apply take_app_length'; by rewrite length_be_enc).
  assert (forall x l, drop 4 (be_enc 4 x ++ l) = l) as Hdrop
    by (intros; apply drop_app_length'; by rewrite length_be_enc).
  unfold is_u32, packet_id_size, pin_bytes in *.
  destruct long_form; rewrite <- !app_assoc, Htake, be_dec_enc by (simpl; lia).
  - rewrite Hdrop, Htake, be_dec_enc by (wrap_simp; simpl; lia). wrap_simp.
    do 2 f_equal.
  - do 2 f_equal.
Qed.

Lemma wp_packet_id_read h p b bs long_form :
  buf_rep h p b bs ->
  wp (packet_id_read b long_form)
     (fun r h' => h' = h /\
        match split_pin long_form bs with
        | Some (pin, rest) =>
            let n := packet_id_size long_form in
            let b' := with_offset_len b (b_offset b + n) (b_len b - n) in
            r = (true, pin, b') /\ buf_rep h p b' rest
        | None => fst (fst r) = false
        end) h.
Proof.
  intros Hb. pose proof (buf_rep_Zlen _ _ _ _ Hb) as Hl.
  unfold packet_id_read, split_pin. wp_steps.
  destruct (Zlen bs <? 4) eqn:E4; bool_simp.
  { rewrite buf_read_short by lia. wp_steps. split; [done|].
    by replace (Zlen bs <? _) with true by (unfold packet_id_size; destruct long_form; lia). }
  wp_use (wp_buf_read_n h p b bs 4); [lia|]. intros [r b1] h1 ([= -> ->] & -> & Hb1).
  unfold packet_id_size in *. destruct long_form.
  2:{ wp_steps. split; [done|]. by replace (_ <? _) with false by lia. }
  wp_steps. pose proof (buf_rep_Zlen _ _ _ _ Hb1) as Hl1. buf_simpl.
  destruct (Zlen bs <? 4 + 4) eqn:E8; bool_simp.
  { rewrite buf_read_short by (buf_simpl; lia). by wp_steps. }
  wp_use (wp_buf_read_n h p _ _ 4 Hb1); [lia|]. intros [r b2] h2 ([= -> ->] & -> & Hb2).
  wp_steps. unfold with_offset_len in *. buf_simpl. rewrite drop_drop in Hb2.
  replace (b_offset b + 4 + 4) with (b_offset b + (4 + 4)) in * by lia.
  replace (b_len b - 4 - 4) with (b_len b - (4 + 4)) in * by lia. done.
Qed.

(** Packet ids survive the wire.  Prepending a packet id to a buffer with
    headroom and reading it back, in short or long form, gives the same id (and
    in long form the same 32-bit time) and leaves the buffer as it was, without a
    failed ASSERT or an access out of bounds. *)
Theorem packet_id_wire_roundtrip h p b bs pin long_form :
  buf_rep h p b bs -> packet_id_size long_form <= b_offset b ->
  is_u32 (pin_id pin) -> is_u32 (pin_time pin) ->
  wp ('(ok, b1) ← packet_id_write pin b long_form true;
      '(ok', pin', b2) ← packet_id_read b1 long_form;
      mret (ok, ok', pin', b2))
     (fun r h' =>
        r = (true, true, Pin (pin_id pin) (if long_form then pin_time pin else 0), b) /\
        buf_rep h' p b bs) h.
Proof.
  intros Hb Hroom Hid Ht. wp_steps. wp_use wp_packet_id_write_prepend.
  intros [ok b1] h1 ([= -> ->] & Hb1 & _). wp_steps. wp_use wp_packet_id_read.
  intros [[ok pin'] b2] h2 [-> Hr]. rewrite split_pin_bytes in Hr by done.
  destruct Hr as ([= -> -> ->] & Hb2). wp_steps.
  destruct b as [c o n d]; unfold with_offset_len in *; simpl in *.
  replace (o - packet_id_size long_form + packet_id_size long_form) with o in * by lia.
  replace (n + packet_id_size long_form - packet_id_size long_form) with n in * by lia. done.
Qed.

(** A block of sixteen bytes and a buffer over it, for the witnesses. *)
Definition ex_heap : heap := {[1%positive := replicate 16 7]}.
Definition ex_buf : buffer := Buf 16 8 3 (Some (Ptr 1 0)).

Lemma ex_buf_rep : buf_rep ex_heap (Ptr 1 0) ex_buf [7; 7; 7].
Proof.
  split; try reflexivity; unfold BUF_MAX, ex_buf; cbn [b_capacity b_offset b_len b_data]; try lia.
  eexists. reflexivity.
Qed.

Lemma packet_id_wire_roundtrip_witness :
  buf_rep ex_heap (Ptr 1 0) ex_buf [7; 7; 7] /\
  wp ('(ok, b1) ← packet_id_write (Pin 258 99) ex_buf true true;
      '(ok', pin', b2) ← packet_id_read b1 true;
      mret (ok, ok', pin', b2))
     (fun r h' => r = (true, true, Pin 258 99, ex_buf) /\
        buf_rep h' (Ptr 1 0) ex_buf [7; 7; 7]) ex_heap.
Proof.
  split; [exact ex_buf_rep|].
  apply (packet_id_wire_roundtrip ex_heap (Ptr 1 0) ex_buf [7; 7; 7] (Pin 258 99) true);
    [exact ex_buf_rep | vm_compute; congruence | unfold is_u32; simpl; lia..].
Defined.
