(* ===== verification/Mtu.v ===== *)
(** src/mtu.h and src/mtu.c: the sizes of a packet buffer (struct frame), its
    headroom and alignment, and the dynamic MTU.

    The size expressions are C ints.  Wrapping a sum once at the end is the same
    as wrapping every partial sum, so each macro has one [i32]. *)

From S2P Require Import Prelude Buffer Integer.

Definition TUN_MTU_MIN : Z := 100.
Definition PAYLOAD_ALIGN : Z := 4.

Record frame := Frame {
  link_mtu : Z;
  link_mtu_dynamic : Z;
  extra_frame : Z;
  extra_buffer : Z;
  extra_tun : Z;
  extra_link : Z;
  align_flags : Z;
  align_adjust : Z
}.

Definition FRAME_HEADROOM_MARKER_DECRYPT : Z := Z.shiftl 1 0.
Definition FRAME_HEADROOM_MARKER_FRAGMENT : Z := Z.shiftl 1 1.
Definition FRAME_HEADROOM_MARKER_READ_LINK : Z := Z.shiftl 1 2.
Definition FRAME_HEADROOM_MARKER_READ_STREAM : Z := Z.shiftl 1 3.

(** ** Sizes *)

Definition EXTRA_FRAME (f : frame) : Z := extra_frame f.
Definition TUN_LINK_DELTA (f : frame) : Z := i32 (extra_frame f + extra_tun f).
Definition TUN_MTU_SIZE (f : frame) : Z := i32 (link_mtu f - TUN_LINK_DELTA f).
Definition TUN_MTU_SIZE_DYNAMIC (f : frame) : Z := i32 (link_mtu_dynamic f - TUN_LINK_DELTA f).
Definition PAYLOAD_SIZE (f : frame) : Z := i32 (link_mtu f - extra_frame f).
Definition PAYLOAD_SIZE_DYNAMIC (f : frame) : Z := i32 (link_mtu_dynamic f - extra_frame f).
Definition EXPANDED_SIZE (f : frame) : Z := link_mtu f.
Definition EXPANDED_SIZE_DYNAMIC (f : frame) : Z := link_mtu_dynamic f.
Definition EXPANDED_SIZE_MIN (f : frame) : Z := i32 (TUN_MTU_MIN + TUN_LINK_DELTA f).
Definition MAX_RW_SIZE_TUN (f : frame) : Z := PAYLOAD_SIZE f.
Definition MAX_RW_SIZE_LINK (f : frame) : Z := i32 (EXPANDED_SIZE f + extra_link f).
Definition FRAME_HEADROOM_BASE (f : frame) : Z :=
  i32 (TUN_LINK_DELTA f + extra_buffer f + extra_link f).
Definition BUF_SIZE (f : frame) : Z := i32 (TUN_MTU_SIZE f + FRAME_HEADROOM_BASE f * 2).

Definition frame_headroom (f : frame) (flag_mask : Z) : Z :=
  let offset := FRAME_HEADROOM_BASE f in
  let adjust := if flag flag_mask (align_flags f) then align_adjust f else 0 in
  let delta := Z.land (i32 (Z.shiftl PAYLOAD_ALIGN 24 - (offset + adjust))) (PAYLOAD_ALIGN - 1) in
  i32 (offset + delta).
Definition FRAME_HEADROOM (f : frame) : Z := frame_headroom f 0.
Definition FRAME_HEADROOM_ADJ (f : frame) (fm : Z) : Z := frame_headroom f fm.

(** ** Setting up a frame *)

Definition frame_add_to_extra_frame (f : frame) (increment : Z) : frame :=
  Frame (link_mtu f) (link_mtu_dynamic f) (i32 (extra_frame f + increment)) (extra_buffer f)
    (extra_tun f) (extra_link f) (align_flags f) (align_adjust f).
Definition frame_add_to_extra_tun (f : frame) (increment : Z) : frame :=
  Frame (link_mtu f) (link_mtu_dynamic f) (extra_frame f) (extra_buffer f)
    (i32 (extra_tun f + increment)) (extra_link f) (align_flags f) (align_adjust f).
Definition frame_add_to_extra_link (f : frame) (increment : Z) : frame :=
  Frame (link_mtu f) (link_mtu_dynamic f) (extra_frame f) (extra_buffer f)
    (extra_tun f) (i32 (extra_link f + increment)) (align_flags f) (align_adjust f).
Definition frame_add_to_extra_buffer (f : frame) (increment : Z) : frame :=
  Frame (link_mtu f) (link_mtu_dynamic f) (extra_frame f) (i32 (extra_buffer f + increment))
    (extra_tun f) (extra_link f) (align_flags f) (align_adjust f).
Definition frame_add_to_align_adjust (f : frame) (increment : Z) : frame :=
  Frame (link_mtu f) (link_mtu_dynamic f) (extra_frame f) (extra_buffer f)
    (extra_tun f) (extra_link f) (align_flags f) (i32 (align_adjust f + increment)).
Definition frame_align_to_extra_frame (f : frame) : frame :=
  Frame (link_mtu f) (link_mtu_dynamic f) (extra_frame f) (extra_buffer f)
    (extra_tun f) (extra_link f) (align_flags f) (i32 (extra_frame f + extra_link f)).
Definition frame_or_align_flags (f : frame) (flag_mask : Z) : frame :=
  Frame (link_mtu f) (link_mtu_dynamic f) (extra_frame f) (extra_buffer f)
    (extra_tun f) (extra_link f) (Z.lor (align_flags f) flag_mask) (align_adjust f).
Definition frame_defined (f : frame) : bool := link_mtu f >? 0.

Definition set_link_mtu (f : frame) (m : Z) : frame :=
  Frame m (link_mtu_dynamic f) (extra_frame f) (extra_buffer f)
    (extra_tun f) (extra_link f) (align_flags f) (align_adjust f).
Definition set_link_mtu_dynamic (f : frame) (m : Z) : frame :=
  Frame (link_mtu f) m (extra_frame f) (extra_buffer f)
    (extra_tun f) (extra_link f) (align_flags f) (align_adjust f).

(** frame_print at level M_FATAL ends the process. *)
Definition frame_finalize (f : frame) (link_mtu_defined : bool) (link_mtu_ : Z)
  (tun_mtu_defined : bool) (tun_mtu : Z) : result frame :=
  f ← (if tun_mtu_defined then
         _ ← assert_ (negb link_mtu_defined);
         Ok (set_link_mtu f (i32 (tun_mtu + TUN_LINK_DELTA f)))
       else
         _ ← assert_ link_mtu_defined;
         Ok (set_link_mtu f link_mtu_));
  if TUN_MTU_SIZE f <? TUN_MTU_MIN then AssertFail
  else
    Ok (frame_add_to_extra_buffer (set_link_mtu_dynamic f (link_mtu f)) PAYLOAD_ALIGN).

Definition SET_MTU_TUN : Z := Z.shiftl 1 0.
Definition SET_MTU_UPPER_BOUND : Z := Z.shiftl 1 1.

Definition frame_set_mtu_dynamic (f : frame) (mtu flags : Z) : result frame :=
  _ ← assert_ (mtu >=? 0);
  let mtu := if flag flags SET_MTU_TUN then i32 (mtu + TUN_LINK_DELTA f) else mtu in
  if negb (flag flags SET_MTU_UPPER_BOUND) || (mtu <? link_mtu_dynamic f)
  then Ok (set_link_mtu_dynamic f (constrain_int mtu (EXPANDED_SIZE_MIN f) (EXPANDED_SIZE f)))
  else Ok f.

Definition frame_subtract_extra (f src : frame) : frame :=
  Frame (link_mtu f) (link_mtu_dynamic f) (i32 (extra_frame f - extra_frame src)) (extra_buffer f)
    (i32 (extra_tun f + extra_frame src)) (extra_link f) (align_flags f) (align_adjust f).

(** allocate a buffer for socket or tun layer *)
Definition alloc_buf_sock_tun (fill : Z -> Z) (f : frame) (tuntap_buffer : bool) (align_mask : Z)
  : M buffer :=
  b ← alloc_buf fill (BUF_SIZE f);
  let '(ok, b) := buf_init b (FRAME_HEADROOM_ADJ f align_mask) in
  _ ← ASSERT ok;
  let b := with_len b (if tuntap_buffer then MAX_RW_SIZE_TUN f else MAX_RW_SIZE_LINK f) in
  _ ← ASSERT (buf_safe b 0);
  mret b.

(** ** Well-formed frames *)

Definition FRAME_MAX : Z := 16777216. (* 2^24: far above any MTU or overhead *)

Record extras_ok (f : frame) : Prop := {
  fo_frame : 0 <= extra_frame f <= FRAME_MAX;
  fo_buffer : 0 <= extra_buffer f <= FRAME_MAX;
  fo_tun : 0 <= extra_tun f <= FRAME_MAX;
  fo_link : 0 <= extra_link f <= FRAME_MAX;
  fo_adjust : 0 <= align_adjust f <= FRAME_MAX
}.

(** What frame_finalize establishes and the code that runs later relies on. *)
Record frame_ok (f : frame) : Prop := {
  fk_frame : 0 <= extra_frame f <= FRAME_MAX;
  fk_buffer : PAYLOAD_ALIGN <= extra_buffer f <= FRAME_MAX + PAYLOAD_ALIGN;
  fk_tun : 0 <= extra_tun f <= FRAME_MAX;
  fk_link : 0 <= extra_link f <= FRAME_MAX;
  fk_adjust : 0 <= align_adjust f <= FRAME_MAX;
  fk_mtu : TUN_MTU_MIN + extra_frame f + extra_tun f <= link_mtu f <= 4 * FRAME_MAX;
  fk_dynamic : TUN_MTU_MIN + extra_frame f + extra_tun f <= link_mtu_dynamic f <= link_mtu f
}.

Ltac frame_unfold :=
  unfold MAX_RW_SIZE_TUN, MAX_RW_SIZE_LINK, BUF_SIZE in *;
  unfold TUN_MTU_SIZE, TUN_MTU_SIZE_DYNAMIC, PAYLOAD_SIZE, PAYLOAD_SIZE_DYNAMIC, EXPANDED_SIZE,
    EXPANDED_SIZE_MIN, FRAME_HEADROOM_BASE in *;
  unfold TUN_LINK_DELTA, PAYLOAD_ALIGN, TUN_MTU_MIN, FRAME_MAX in *.
Ltac frame_facts H :=
  destruct H;
  cbn [frame_add_to_extra_buffer set_link_mtu_dynamic set_link_mtu extra_frame extra_buffer
       extra_tun extra_link align_adjust link_mtu link_mtu_dynamic] in *; frame_unfold.

Lemma FRAME_HEADROOM_BASE_ok f :
  frame_ok f ->
  FRAME_HEADROOM_BASE f = extra_frame f + extra_tun f + extra_buffer f + extra_link f.
Proof. intros H. frame_facts H. wrap_simp. lia. Qed.

Lemma BUF_SIZE_ok f :
  frame_ok f -> BUF_SIZE f = link_mtu f - (extra_frame f + extra_tun f) + 2 * FRAME_HEADROOM_BASE f.
Proof. intros H. rewrite FRAME_HEADROOM_BASE_ok by done. unfold BUF_SIZE.
  rewrite FRAME_HEADROOM_BASE_ok by done. frame_facts H. wrap_simp. lia. Qed.

Lemma MAX_RW_SIZE_ok f (tun : bool) :
  frame_ok f -> (if tun then MAX_RW_SIZE_TUN f else MAX_RW_SIZE_LINK f) =
                (if tun then link_mtu f - extra_frame f else link_mtu f + extra_link f).
Proof. intros H. frame_facts H. destruct tun; by wrap_simp. Qed.

(** frame_headroom: the base rounded up so that the payload is aligned. *)
Lemma frame_headroom_spec f m :
  frame_ok f ->
  FRAME_HEADROOM_BASE f <= frame_headroom f m < FRAME_HEADROOM_BASE f + 4 /\
  (frame_headroom f m + (if flag m (align_flags f) then align_adjust f else 0)) mod 4 = 0.
Proof.
  intros H. pose proof (FRAME_HEADROOM_BASE_ok f H) as Hb.
  unfold frame_headroom. rewrite Hb.
  set (adj := if flag m (align_flags f) then align_adjust f else 0).
  assert (0 <= adj <= 16777216) as Hadj.
  { frame_facts H. unfold adj. destruct (flag _ _); lia. }
  change (Z.shiftl PAYLOAD_ALIGN 24) with 67108864. change (PAYLOAD_ALIGN - 1) with (Z.ones 2).
  frame_facts H. rewrite Z.land_ones by lia. change (2 ^ 2) with 4. wrap_simp.
  set (x := extra_frame f + extra_tun f + extra_buffer f + extra_link f) in *.
  pose proof (Z.mod_pos_bound (67108864 - (x + adj)) 4). wrap_simp. split; [lia|].
  Z.div_mod_to_equations. lia.
Qed.

Lemma frame_ok_dynamic f m :
  frame_ok f -> TUN_MTU_MIN + extra_frame f + extra_tun f <= m <= link_mtu f ->
  frame_ok (set_link_mtu_dynamic f m).
Proof. intros [] ?. by split. Qed.

(** ** Properties *)

(** Packet buffers are large enough.  For a frame that frame_finalize accepted,
    alloc_buf_sock_tun always succeeds: its two ASSERTs hold and the buffer it
    returns is well formed, has FRAME_HEADROOM_BASE bytes to prepend headers to,
    holds the largest packet that is read from the link or the tun device, and
    its payload is aligned as the flags ask. *)
Theorem alloc_buf_sock_tun_fits fill f tuntap_buffer align_mask h :
  frame_ok f ->
  wp (alloc_buf_sock_tun fill f tuntap_buffer align_mask)
     (fun b h' => exists p bs, buf_rep h' p b bs /\
        FRAME_HEADROOM_BASE f <= b_offset b /\
        b_len b = (if tuntap_buffer then link_mtu f - extra_frame f else link_mtu f + extra_link f) /\
        (b_offset b + (if flag align_mask (align_flags f) then align_adjust f else 0))
          mod PAYLOAD_ALIGN = 0) h.
Proof.
  intros Hf. destruct (frame_headroom_spec f align_mask Hf) as [Hh Ha].
  pose proof (FRAME_HEADROOM_BASE_ok f Hf) as Hb.
  unfold alloc_buf_sock_tun, FRAME_HEADROOM_ADJ. wp_steps.
  rewrite (MAX_RW_SIZE_ok f tuntap_buffer Hf), (BUF_SIZE_ok f Hf).
  set (len := if tuntap_buffer then _ else _).
  assert (0 <= len <= link_mtu f + extra_link f /\ extra_buffer f >= 4 /\
          extra_frame f + extra_tun f <= link_mtu f - 100 /\ link_mtu f <= 67108864 /\
          0 <= extra_link f <= 16777216 /\ 0 <= extra_tun f <= 16777216 /\ 0 <= extra_frame f /\
          extra_buffer f <= 16777220) as Hlen
    by (clear -Hf; frame_facts Hf; unfold len; destruct tuntap_buffer; lia).
  wp_use wp_alloc_buf; [unfold BUF_MAX; lia|]. intros b h1 (p & -> & Hrep & _).
  destruct (buf_init_spec h1 p _ [] (frame_headroom f align_mask) Hrep) as [-> Hrep1]; [simpl; lia|].
  wp_steps. buf_simpl.
  destruct (buf_rep_with_len _ _ _ _ len Hrep1) as [bs Hrep2]; buf_simpl; [lia..|].
  apply wp_ASSERT.
  { rewrite (buf_safe_spec h1 p _ bs); [|done|unfold BUF_MAX; lia].
    buf_simpl. lia. }
  wp_steps. exists p, bs. unfold PAYLOAD_ALIGN. split_and!; auto; simpl; lia.
Qed.

(** A TUN device with an encryption overhead of 41 bytes, for the witnesses. *)
Definition ex_frame : frame := Frame 1541 1541 41 4 0 0 1 45.

Lemma ex_frame_ok : frame_ok ex_frame.
Proof.
  split; unfold FRAME_MAX, PAYLOAD_ALIGN, TUN_MTU_MIN, ex_frame;
    cbn [extra_frame extra_buffer extra_tun extra_link align_adjust link_mtu link_mtu_dynamic]; lia.
Qed.

Lemma alloc_buf_sock_tun_fits_witness :
  wp (alloc_buf_sock_tun (fun _ => 0) ex_frame true 1)
     (fun b h' => exists p bs, buf_rep h' p b bs /\ FRAME_HEADROOM_BASE ex_frame <= b_offset b /\
        b_len b = 1500 /\ (b_offset b + 45) mod PAYLOAD_ALIGN = 0) ∅.
Proof. exact (alloc_buf_sock_tun_fits (fun _ => 0) ex_frame true 1 ∅ ex_frame_ok). Defined.

(** Frame_finalize accepts exactly the frames that leave the tun device at
    least TUN_MTU_MIN bytes, with exactly one of the two MTUs given; whatever it
    accepts is well formed (in particular the dynamic MTU starts at the link MTU
    and the buffer slack for alignment is in place). *)
Theorem frame_finalize_ok f (ld td : bool) lm tm :
  extras_ok f -> 0 <= lm <= 2 * FRAME_MAX -> 0 <= tm <= FRAME_MAX ->
  let m := if td then tm + (extra_frame f + extra_tun f) else lm in
  if xorb ld td && (TUN_MTU_MIN <=? m - (extra_frame f + extra_tun f))
  then exists f', frame_finalize f ld lm td tm = Ok f' /\ frame_ok f' /\
         link_mtu f' = m /\ link_mtu_dynamic f' = m
  else frame_finalize f ld lm td tm = AssertFail.
Proof.
  intros Hf Hlm Htm m. frame_facts Hf. unfold frame_finalize.
  assert (forall g, g = set_link_mtu f m ->
    TUN_MTU_SIZE g = m - (extra_frame f + extra_tun f)) as Hsize.
  { intros g ->. unfold m. frame_unfold. simpl. destruct td; wrap_simp; lia. }
  assert ((i32 (tm + TUN_LINK_DELTA f)) = tm + (extra_frame f + extra_tun f)) as Htd
    by (frame_unfold; wrap_simp; lia).
  rewrite Htd. unfold TUN_MTU_MIN in *. subst m. destruct ld, td; simpl in *; try done;
    rewrite (Hsize _ eq_refl); (case_test; [|by replace (_ <? _) with true by lia]);
    replace (_ <? _) with false by lia; eexists; (split; [done|]).
  all: split; [|done]; split; unfold FRAME_MAX, PAYLOAD_ALIGN, TUN_MTU_MIN in *; simpl;
    wrap_simp; lia.
Qed.

Lemma frame_finalize_ok_witness :
  extras_ok (Frame 0 0 41 0 0 0 1 45) /\
  exists f', frame_finalize (Frame 0 0 41 0 0 0 1 45) false 0 true 1500 = Ok f' /\ frame_ok f' /\
    link_mtu f' = 1541 /\ link_mtu_dynamic f' = 1541.
Proof.
  assert (extras_ok (Frame 0 0 41 0 0 0 1 45)) as H.
  { split; unfold FRAME_MAX; simpl; lia. }
  split; [exact H|].
  apply (frame_finalize_ok (Frame 0 0 41 0 0 0 1 45) false true 0 1500 H); unfold FRAME_MAX; lia.
Defined.

(** --mssfix, --fragment and path-MTU discovery can only move the dynamic MTU
    between its minimum and the link MTU; with SET_MTU_UPPER_BOUND they never
    raise it.  Nothing else of the frame changes. *)
Theorem frame_set_mtu_dynamic_ok f mtu flags :
  frame_ok f -> 0 <= mtu <= FRAME_MAX ->
  exists f', frame_set_mtu_dynamic f mtu flags = Ok f' /\ frame_ok f' /\
    f' = set_link_mtu_dynamic f (link_mtu_dynamic f') /\
    (Z.testbit flags 1 = true -> link_mtu_dynamic f' <= link_mtu_dynamic f) /\
    (Z.testbit flags 1 = false ->
       let want := if Z.testbit flags 0 then mtu + (extra_frame f + extra_tun f) else mtu in
       link_mtu_dynamic f' =
         Z.min (Z.max want (TUN_MTU_MIN + extra_frame f + extra_tun f)) (link_mtu f)).
Proof.
  intros Hf Hm. pose proof Hf as Hf'. frame_facts Hf. unfold frame_set_mtu_dynamic.
  replace (mtu >=? 0) with true by lia. simpl.
  unfold SET_MTU_TUN, SET_MTU_UPPER_BOUND. rewrite !flag_testbit by lia. frame_unfold.
  rewrite (i32_id (extra_frame f + extra_tun f)) by (unfold is_i32; lia).
  set (want := if Z.testbit flags 0 then mtu + (extra_frame f + extra_tun f) else mtu).
  replace (if Z.testbit flags 0 then i32 _ else mtu) with want
    by (unfold want; destruct (Z.testbit flags 0); wrap_simp; done).
  rewrite constrain_int_spec by (wrap_simp; lia). wrap_simp.
  destruct (Z.testbit flags 1) eqn:E1; simpl; [destruct (want <? _) eqn:E; bool_simp|];
    eexists; (split; [done|]); (split; [first [exact Hf' | apply frame_ok_dynamic; frame_unfold; auto; lia]|]);
    (split; [by destruct f|]); simpl; fold want; split; intros; try done; lia.
Qed.

Lemma frame_set_mtu_dynamic_ok_witness :
  exists f', frame_set_mtu_dynamic ex_frame 1400 (Z.lor SET_MTU_TUN SET_MTU_UPPER_BOUND) = Ok f' /\
    frame_ok f' /\ f' = set_link_mtu_dynamic ex_frame 1441.
Proof.
  destruct (frame_set_mtu_dynamic_ok ex_frame 1400 (Z.lor SET_MTU_TUN SET_MTU_UPPER_BOUND)
    ex_frame_ok) as (f' & E & H & _); [unfold FRAME_MAX; lia|].
  exists f'. split; [exact E|]. split; [exact H|].
  vm_compute in E. injection E as <-. reflexivity.
Defined.
