(* ===== verification/Crypto.v ===== *)
(** src/crypto.c: encryption, authentication and replay protection of data
    channel packets (openvpn_encrypt, openvpn_decrypt) and the pseudo-random
    bytes for initialisation vectors.

    OpenSSL is a parameter: a cipher context keyed for one direction is a
    [cipher_ctx], whose functions give what EVP_CipherInit, EVP_CipherUpdate and
    EVP_CipherFinal return for an IV and an input; an HMAC context is an
    [hmac_ctx]; [SHA1] is the digest of the PRNG. *)

From S2P Require Import Prelude Buffer Integer PacketId Mtu.

(** ** OpenSSL's objects *)

Inductive cipher_mode := EVP_CIPH_CBC_MODE | EVP_CIPH_CFB_MODE | EVP_CIPH_OFB_MODE | other_mode.

Record cipher_ctx := Cipher {
  c_mode : cipher_mode;
  c_iv_length : Z;
  c_block_size : Z;
  c_init : list byte -> bool;
  c_update : list byte -> list byte -> option (list byte);
  c_final : list byte -> list byte -> option (list byte)
}.

Record hmac_ctx := Hmac {
  HMAC_size : Z;
  HMAC : list byte -> list byte
}.

(** The length of the iv_buf arrays, OpenSSL's constant. *)
Definition EVP_MAX_IV_LENGTH : Z := 16.
Definition SHA_DIGEST_LENGTH : Z := 20.

(** ** crypto.h *)

Record key_ctx := KeyCtx { k_cipher : option cipher_ctx; k_hmac : option hmac_ctx }.
Record key_ctx_bi := KeyCtxBi { k_encrypt : key_ctx; k_decrypt : key_ctx }.

Definition CO_PACKET_ID_LONG_FORM : Z := Z.shiftl 1 0.
Definition CO_USE_IV : Z := Z.shiftl 1 1.
Definition CO_IGNORE_PACKET_ID : Z := Z.shiftl 1 2.
Definition CO_MUTE_REPLAY_WARNINGS : Z := Z.shiftl 1 3.

(** The packet_id and pid_persist objects are threaded as values. *)
Record crypto_options := Opt {
  o_key_ctx_bi : option key_ctx_bi;
  o_packet_id : option packet_id;
  o_pid_persist : option packet_id_persist;
  o_flags : Z
}.

Definition set_packet_id (opt : crypto_options) (pid : packet_id) : crypto_options :=
  Opt (o_key_ctx_bi opt) (Some pid) (o_pid_persist opt) (o_flags opt).
Definition set_persist (opt : crypto_options) (p : packet_id_persist) : crypto_options :=
  Opt (o_key_ctx_bi opt) (o_packet_id opt) (Some p) (o_flags opt).
Definition long_form_of (opt : crypto_options) : bool := flag (o_flags opt) CO_PACKET_ID_LONG_FORM.
Definition use_iv_of (opt : crypto_options) : bool := flag (o_flags opt) CO_USE_IV.

(** ** prng_bytes: the static nonce_data is threaded.  Each round yields at most
    SHA_DIGEST_LENGTH bytes, so [len] rounds are enough. *)

Fixpoint prng_loop (SHA1 : list byte -> list byte) (fuel : nat) (nonce_data : list byte) (len : Z)
  : list byte * list byte :=
  match fuel with
  | O => ([], nonce_data)
  | S k =>
      if len >? 0 then
        let blen := min_int len SHA_DIGEST_LENGTH in
        let digest := SHA1 nonce_data in
        let nonce_data := splice 0 digest nonce_data in
        let '(output, nonce_data') := prng_loop SHA1 k nonce_data (len - blen) in
        (slice 0 blen nonce_data ++ output, nonce_data')
      else ([], nonce_data)
  end.
Definition prng_bytes (SHA1 : list byte -> list byte) (nonce_data : list byte) (len : Z)
  : list byte * list byte :=
  prng_loop SHA1 (Z.to_nat len) nonce_data len.

(** ** openvpn_encrypt *)

(** packet_id_alloc_outgoing on opt->packet_id. *)
Definition alloc_pin (now : Z) (opt : crypto_options) (pid : packet_id) (long_form : bool)
  : result (crypto_options * packet_id_net) :=
  '(send, pin) ← packet_id_alloc_outgoing now (pid_send pid) long_form;
  Ok (set_packet_id opt (Pid send (pid_rec pid)), pin).

(** Allocate a packet id and prepend it to the plaintext. *)
Definition prepend_pin (now : Z) (buf : buffer) (opt : crypto_options)
  : M (buffer * crypto_options) :=
  match o_packet_id opt with
  | Some pid =>
      '(opt, pin) ← lift (alloc_pin now opt pid (long_form_of opt));
      '(ok, buf) ← packet_id_write pin buf (long_form_of opt) true;
      _ ← ASSERT ok;
      mret (buf, opt)
  | None => mret (buf, opt)
  end.

(** The IV, and the packet id in the plaintext or in the IV by cipher mode.
    [ivp] points to the array iv_buf. *)
Definition encrypt_iv (SHA1 : list byte -> list byte) (now : Z) (nonce : list byte) (c : cipher_ctx)
  (ivp : ptr) (buf : buffer) (opt : crypto_options)
  : M (list byte * buffer * crypto_options) :=
  match c_mode c with
  | EVP_CIPH_CBC_MODE =>
      _ ← store ivp (replicate (Z.to_nat EVP_MAX_IV_LENGTH) 0);
      let '(iv, nonce') := if use_iv_of opt then prng_bytes SHA1 nonce (c_iv_length c)
                           else ([], nonce) in
      _ ← store ivp iv;
      '(buf, opt) ← prepend_pin now buf opt;
      mret (nonce', buf, opt)
  | EVP_CIPH_CFB_MODE | EVP_CIPH_OFB_MODE =>
      _ ← ASSERT (use_iv_of opt);
      match o_packet_id opt with
      | None => lift AssertFail
      | Some pid =>
          '(opt, pin) ← lift (alloc_pin now opt pid true);
          _ ← store ivp (replicate (Z.to_nat (c_iv_length c)) 0);
          b ← buf_set_write (Some ivp) (c_iv_length c);
          '(ok, _) ← packet_id_write pin b true false;
          _ ← ASSERT ok;
          mret (nonce, buf, opt)
      end
  | other_mode => lift AssertFail
  end.

(** A failing OpenSSL call under ASSERT. *)
Definition assert_some {A} (o : option A) : result A :=
  match o with Some a => Ok a | None => AssertFail end.

(** EVP_CipherUpdate and EVP_CipherFinal from buf to work; work.len grows by the
    bytes written. *)
Definition cipher_into (out1 out2 : list byte) (work : buffer) : M buffer :=
  dst ← deref (BPTR work);
  _ ← store dst out1;
  let work := with_len work (i32 (b_len work + Zlen out1)) in
  _ ← store (ptr_add dst (Zlen out1)) out2;
  mret (with_len work (i32 (b_len work + Zlen out2))).

(** The branch with a cipher: None is the jump to err. *)
Definition encrypt_cipher (SHA1 : list byte -> list byte) (now : Z) (fill : Z -> Z)
  (nonce : list byte) (c : cipher_ctx) (buf work : buffer) (opt : crypto_options) (f : frame)
  : M (list byte * buffer * crypto_options * option buffer) :=
  ivp ← alloc (indeterminate fill EVP_MAX_IV_LENGTH);
  '(nonce, buf, opt) ← encrypt_iv SHA1 now nonce c ivp buf opt;
  let '(ok, work) := buf_init work (FRAME_HEADROOM f) in
  _ ← ASSERT ok;
  iv ← load ivp (c_iv_length c);
  _ ← ASSERT (c_init c iv);
  if negb (buf_safe work (i32 (b_len buf + c_block_size c)))
  then mret (nonce, buf, opt, None)
  else
    src ← deref (BPTR buf);
    input ← load src (BLEN buf);
    out1 ← lift (assert_some (c_update c iv input));
    out2 ← lift (assert_some (c_final c iv input));
    work ← cipher_into out1 out2 work;
    _ ← ASSERT (Zlen out2 =? c_iv_length c);
    work ← (if use_iv_of opt then
              let '(output, work) := buf_prepend work (c_iv_length c) in
              match output with
              | Some o => iv ← load ivp (c_iv_length c); _ ← store o iv; mret work
              | None => lift AssertFail
              end
            else mret work);
    mret (nonce, buf, opt, Some work).

(** HMAC the ciphertext (or plaintext if !cipher) *)
Definition encrypt_hmac (hm : option hmac_ctx) (work : buffer) : M buffer :=
  match hm with
  | Some hm =>
      src ← deref (BPTR work);
      input ← load src (BLEN work);
      let '(output, work) := buf_prepend work (HMAC_size hm) in
      match output with
      | Some o =>
          _ ← store o (HMAC hm input);
          _ ← ASSERT (Zlen (HMAC hm input) =? HMAC_size hm);
          mret work
      | None => lift AssertFail
      end
  | None => mret work
  end.

Definition openvpn_encrypt (SHA1 : list byte -> list byte) (now : Z) (fill : Z -> Z)
  (nonce : list byte) (buf work : buffer) (opt : crypto_options) (f : frame)
  : M (list byte * buffer * crypto_options) :=
  match o_key_ctx_bi opt with
  | Some bi =>
      if b_len buf >? 0 then
        let ctx := k_encrypt bi in
        '(nonce, buf, opt, work) ←
          match k_cipher ctx with
          | Some c => encrypt_cipher SHA1 now fill nonce c buf work opt f
          | None =>
              '(buf, opt) ← prepend_pin now buf opt;
              mret (nonce, buf, opt, Some buf)
          end;
        match work with
        | None => mret (nonce, with_len buf 0, opt)
        | Some work =>
            work ← encrypt_hmac (k_hmac ctx) work;
            mret (nonce, work, opt)
        end
      else mret (nonce, buf, opt)
  | None => mret (nonce, buf, opt)
  end.

(** ** openvpn_decrypt.  [false] in the first component is the jump to error_exit. *)

(** Verify the HMAC and strip it. *)
Definition decrypt_hmac (hm : option hmac_ctx) (buf : buffer) : M (bool * buffer) :=
  match hm with
  | None => mret (true, buf)
  | Some hm =>
      let hmac_len := HMAC_size hm in
      if b_len buf <? hmac_len then mret (false, buf)
      else
        src ← deref (BPTR buf);
        input ← load (ptr_add src hmac_len) (BLEN buf - hmac_len);
        let local_hmac := HMAC hm input in
        _ ← ASSERT (hmac_len =? Zlen local_hmac);
        tag ← load src hmac_len;
        if negb (bool_decide (local_hmac = tag)) then mret (false, buf)
        else
          let '(ok, buf) := buf_advance buf hmac_len in
          _ ← ASSERT ok;
          mret (true, buf)
  end.

(** Copy the IV out of the packet into iv_buf. *)
Definition decrypt_iv (c : cipher_ctx) (ivp : ptr) (buf : buffer) (opt : crypto_options)
  : M (bool * buffer) :=
  _ ← store ivp (replicate (Z.to_nat EVP_MAX_IV_LENGTH) 0);
  if use_iv_of opt then
    if b_len buf <? c_iv_length c then mret (false, buf)
    else
      src ← deref (BPTR buf);
      iv ← load src (c_iv_length c);
      _ ← store ivp iv;
      let '(ok, buf) := buf_advance buf (c_iv_length c) in
      _ ← ASSERT ok;
      mret (true, buf)
  else mret (true, buf).

(** Decrypt from buf to work: None is an error. *)
Definition decrypt_payload (c : cipher_ctx) (ivp : ptr) (buf work : buffer) : M (option buffer) :=
  if b_len buf <? 1 then mret None
  else
    iv ← load ivp (c_iv_length c);
    if negb (c_init c iv) then mret None
    else if negb (buf_safe work (b_len buf)) then mret None
    else
      src ← deref (BPTR buf);
      input ← load src (BLEN buf);
      match c_update c iv input with
      | None => mret None
      | Some out1 =>
          match c_final c iv input with
          | None =>
              dst ← deref (BPTR work);
              _ ← store dst out1;
              mret None
          | Some out2 =>
              work ← cipher_into out1 out2 work;
              mret (Some work)
          end
      end.

(** The packet id, from the plaintext or the IV by cipher mode: None is an error,
    Some None no packet id. *)
Definition decrypt_pin (c : cipher_ctx) (ivp : ptr) (work : buffer) (opt : crypto_options)
  : M (option (option packet_id_net) * buffer) :=
  match c_mode c with
  | EVP_CIPH_CBC_MODE =>
      match o_packet_id opt with
      | Some _ =>
          '(ok, pin, work) ← packet_id_read work (long_form_of opt);
          if ok : bool then mret (Some (Some pin), work) else mret (None, work)
      | None => mret (Some None, work)
      end
  | EVP_CIPH_CFB_MODE | EVP_CIPH_OFB_MODE =>
      _ ← ASSERT (use_iv_of opt);
      match o_packet_id opt with
      | None => lift AssertFail
      | Some _ =>
          '(ok, pin, _) ← packet_id_read (buf_set_read (Some ivp) (c_iv_length c)) true;
          if ok : bool then mret (Some (Some pin), work) else mret (None, work)
      end
  | other_mode => lift AssertFail
  end.

Definition decrypt_cipher (fill : Z -> Z) (c : cipher_ctx) (buf work : buffer)
  (opt : crypto_options) (f : frame)
  : M (option (option packet_id_net) * buffer * buffer) :=
  ivp ← alloc (indeterminate fill EVP_MAX_IV_LENGTH);
  let '(ok, work) := buf_init work (FRAME_HEADROOM_ADJ f FRAME_HEADROOM_MARKER_DECRYPT) in
  _ ← ASSERT ok;
  '(ok, buf) ← decrypt_iv c ivp buf opt;
  if negb ok then mret (None, buf, work)
  else
    work' ← decrypt_payload c ivp buf work;
    match work' with
    | None => mret (None, buf, work)
    | Some work =>
        '(pin, work) ← decrypt_pin c ivp work opt;
        mret (pin, buf, work)
    end.

(** No cipher: the packet id is in front of the payload. *)
Definition decrypt_null (buf : buffer) (opt : crypto_options)
  : M (option (option packet_id_net) * buffer * buffer) :=
  match o_packet_id opt with
  | Some _ =>
      '(ok, pin, work) ← packet_id_read buf (long_form_of opt);
      if ok : bool
      then mret (Some (if negb (flag (o_flags opt) CO_IGNORE_PACKET_ID) then Some pin else None),
                 buf, work)
      else mret (None, buf, work)
  | None => mret (Some None, buf, buf)
  end.

(** The replay check; an accepted packet id is remembered and persisted. *)
Definition decrypt_replay (now : Z) (pin : option packet_id_net) (opt : crypto_options)
  : result (bool * crypto_options) :=
  match pin with
  | None => Ok (true, opt)
  | Some pin =>
      match o_packet_id opt with
      | None => Fault
      | Some pid =>
          '(ok, rec) ← packet_id_receive now (pid_rec pid) pin;
          let pid := Pid (pid_send pid) rec in
          let opt := set_packet_id opt pid in
          if ok : bool then
            match o_pid_persist opt with
            | Some pp => Ok (true, if long_form_of opt
                                   then set_persist opt (packet_id_persist_save_obj pp pid) else opt)
            | None => Ok (true, opt)
            end
          else Ok (false, opt)
      end
  end.

Definition openvpn_decrypt (now : Z) (fill : Z -> Z) (buf work : buffer) (opt : crypto_options)
  (f : frame) : M (bool * buffer * crypto_options) :=
  match o_key_ctx_bi opt with
  | Some bi =>
      if b_len buf >? 0 then
        let ctx := k_decrypt bi in
        '(ok, buf) ← decrypt_hmac (k_hmac ctx) buf;
        if negb ok then mret (false, with_len buf 0, opt)
        else
          '(pin, buf, work) ←
            match k_cipher ctx with
            | Some c => decrypt_cipher fill c buf work opt f
            | None => decrypt_null buf opt
            end;
          match pin with
          | None => mret (false, with_len buf 0, opt)
          | Some pin =>
              '(ok, opt) ← lift (decrypt_replay now pin opt);
              if negb ok then mret (false, with_len buf 0, opt)
              else mret (true, work, opt)
          end
      else mret (true, buf, opt)
  | None => mret (true, buf, opt)
  end.

(** ** Specification on byte strings *)

(** Strip a correct tag. *)
Definition open_hmac (hm : option hmac_ctx) (bs : list byte) : option (list byte) :=
  match hm with
  | None => Some bs
  | Some hm =>
      let n := HMAC_size hm in
      let rest := drop (Z.to_nat n) bs in
      if Zlen bs <? n then None
      else if bool_decide (HMAC hm rest = take (Z.to_nat n) bs) then Some rest else None
  end.

(** Split the IV off the front, or use the zero IV. *)
Definition open_iv (c : cipher_ctx) (use_iv : bool) (bs : list byte)
  : option (list byte * list byte) :=
  let n := Z.to_nat (c_iv_length c) in
  if use_iv then
    if Zlen bs <? c_iv_length c then None else Some (take n bs, drop n bs)
  else Some (replicate n 0, bs).

Definition run_cipher (c : cipher_ctx) (iv input : list byte) : option (list byte) :=
  match c_update c iv input, c_final c iv input with
  | Some out1, Some out2 => Some (out1 ++ out2)
  | _, _ => None
  end.

(** The packet id of a decrypted packet, and the payload. *)
Definition open_pin (c : cipher_ctx) (has_pid long_form : bool) (iv plain : list byte)
  : option (option packet_id_net * list byte) :=
  match c_mode c with
  | EVP_CIPH_CBC_MODE =>
      if has_pid
      then match split_pin long_form plain with
           | Some (pin, payload) => Some (Some pin, payload)
           | None => None
           end
      else Some (None, plain)
  | _ => match split_pin true iv with
         | Some (pin, _) => Some (Some pin, plain)
         | None => None
         end
  end.

Definition open_cipher (c : cipher_ctx) (use_iv has_pid long_form : bool) (room : Z)
  (bs : list byte) : option (option packet_id_net * list byte) :=
  match open_iv c use_iv bs with
  | None => None
  | Some (iv, ct) =>
      if (Zlen ct <? 1) || negb (c_init c iv) || (room <? Zlen ct) then None
      else
        match run_cipher c iv ct with
        | Some plain => open_pin c has_pid long_form iv plain
        | None => None
        end
  end.

Definition open_null (has_pid long_form ignore : bool) (bs : list byte)
  : option (option packet_id_net * list byte) :=
  if has_pid then
    match split_pin long_form bs with
    | Some (pin, payload) => Some (if ignore then None else Some pin, payload)
    | None => None
    end
  else Some (None, bs).

(** What openvpn_decrypt takes a packet for: a packet id to check, if any, and a
    payload; None if it is dropped before the replay check. *)
Definition open_packet (ctx : key_ctx) (opt : crypto_options) (room : Z) (bs : list byte)
  : option (option packet_id_net * list byte) :=
  let has_pid := bool_decide (is_Some (o_packet_id opt)) in
  match open_hmac (k_hmac ctx) bs with
  | None => None
  | Some bs =>
      match k_cipher ctx with
      | Some c => open_cipher c (use_iv_of opt) has_pid (long_form_of opt) room bs
      | None => open_null has_pid (long_form_of opt) (flag (o_flags opt) CO_IGNORE_PACKET_ID) bs
      end
  end.

(** ** What OpenSSL's documentation promises about a context *)

Record hmac_ok (hm : hmac_ctx) : Prop := {
  hk_size : 0 <= HMAC_size hm <= 64;
  hk_len : forall m, Zlen (HMAC hm m) = HMAC_size hm
}.

(** A decryption never yields more bytes than it is given. *)
Record decipher_ok (c : cipher_ctx) : Prop := {
  dk_iv : 0 <= c_iv_length c <= EVP_MAX_IV_LENGTH;
  dk_update : forall iv m o, c_update c iv m = Some o -> Zlen o <= Zlen m;
  dk_final : forall iv m o1 o2, c_update c iv m = Some o1 -> c_final c iv m = Some o2 ->
               Zlen o1 + Zlen o2 <= Zlen m;
  dk_bytes : forall iv m, Forall is_byte m ->
               Forall is_byte (default [] (c_update c iv m)) /\
               Forall is_byte (default [] (c_final c iv m))
}.

(** The options of a data channel: a CFB or OFB cipher comes with IVs and packet
    ids (check_replay_iv_consistency), no other mode is configured (init_key_type). *)
Definition mode_ok (c : cipher_ctx) (opt : crypto_options) : Prop :=
  match c_mode c with
  | EVP_CIPH_CBC_MODE => True
  | EVP_CIPH_CFB_MODE | EVP_CIPH_OFB_MODE => use_iv_of opt = true /\ is_Some (o_packet_id opt)
  | other_mode => False
  end.

(** ** The stages of openvpn_decrypt *)

Lemma wp_decrypt_hmac h p b bs hm :
  buf_rep h p b bs -> (forall x, hm = Some x -> hmac_ok x) ->
  wp (decrypt_hmac hm b)
     (fun r h' => h' = h /\
        match open_hmac hm bs with
        | Some rest => fst r = true /\ buf_rep h p (snd r) rest
        | None => r = (false, b)
        end) h.
Proof.
  intros Hb Hok. pose proof (buf_rep_Zlen _ _ _ _ Hb) as Hl. unfold decrypt_hmac, open_hmac.
  destruct hm as [hm|]; [|by wp_steps]. destruct (Hok hm eq_refl) as [Hs Hlen].
  rewrite Hl. destruct (b_len b <? HMAC_size hm) eqn:E; bool_simp; [by wp_steps|].
  set (n := HMAC_size hm) in *. unfold BLEN. erewrite BPTR_rep by eauto. wp_steps.
  rewrite ptr_add_add. eapply wp_load; [eapply buf_rep_load; eauto; lia|]. wp_steps.
  replace (slice n (b_len b - n) bs) with (drop (Z.to_nat n) bs).
  2:{ unfold slice. symmetry. apply take_ge. rewrite length_drop. unfold Zlen in Hl. lia. }
  rewrite Hlen, Z.eqb_refl. wp_steps.
  eapply wp_load.
  { replace (b_offset b) with (b_offset b + 0) by lia. eapply buf_rep_load; eauto; lia. }
  replace (slice 0 n bs) with (take (Z.to_nat n) bs) by done.
  case_bool_decide; simpl; [|by wp_steps].
  destruct (buf_advance_n h p b bs n) as [-> Hb']; auto; [lia|]. by wp_steps.
Qed.

(** iv_buf: a live array apart from the packet's blocks. *)
Definition iv_array (h : heap) (ivp : ptr) : Prop := is_Some (mload h ivp EVP_MAX_IV_LENGTH).

Lemma iv_array_modifies h h' q n ivp : modifies h h' q n -> iv_array h ivp -> iv_array h' ivp.
Proof. intros [_ V] H. by apply V. Qed.

Lemma iv_array_sub h ivp i n :
  iv_array h ivp -> 0 <= i -> 0 <= n -> i + n <= EVP_MAX_IV_LENGTH ->
  is_Some (mload h (ptr_add ivp i) n).
Proof. intros. eapply mload_sub_valid; eauto. Qed.

Lemma iv_array_prefix h ivp n :
  iv_array h ivp -> 0 <= n <= EVP_MAX_IV_LENGTH -> is_Some (mload h ivp n).
Proof. intros. rewrite <- (ptr_add_0 ivp). apply iv_array_sub; auto; lia. Qed.

Lemma Zlen_replicate {A} n (x : A) : Zlen (replicate n x) = Z.of_nat n.
Proof. unfold Zlen. by rewrite length_replicate. Qed.

(** Store into iv_buf: the effect on the array and on everything else. *)
Lemma wp_store_iv h ivp bs (Q : unit -> heap -> Prop) :
  iv_array h ivp -> Zlen bs <= EVP_MAX_IV_LENGTH ->
  (forall h', mload h' ivp (Zlen bs) = Some bs -> modifies h h' ivp (Zlen bs) ->
     iv_array h' ivp -> keeps [blk ivp] h h' -> Q tt h') ->
  wp (store ivp bs) Q h.
Proof.
  intros Hiv Hn HQ. apply wp_store.
  { apply iv_array_prefix; auto. pose proof (Zlen_nonneg bs). lia. }
  intros h' Hl Hm. apply HQ; auto.
  - by eapply iv_array_modifies.
  - eapply modifies_keeps; [done|]. by left.
Qed.

Lemma mload_prefix h p n bs k :
  mload h p n = Some bs -> 0 <= k <= n -> mload h p k = Some (take (Z.to_nat k) bs).
Proof.
  intros H ?. rewrite <- (ptr_add_0 p). rewrite (mload_sub h p n bs 0 k) by (auto; lia). done.
Qed.

Lemma wp_decrypt_iv h p b bs c ivp opt :
  buf_rep h p b bs -> decipher_ok c -> iv_array h ivp -> blk ivp <> blk p ->
  wp (decrypt_iv c ivp b opt)
     (fun r h' => keeps [blk ivp] h h' /\ iv_array h' ivp /\
        match open_iv c (use_iv_of opt) bs with
        | Some (iv, ct) => fst r = true /\ mload h' ivp (c_iv_length c) = Some iv /\
                           buf_rep h' p (snd r) ct
        | None => fst r = false /\ buf_rep h' p (snd r) bs
        end) h.
Proof.
  intros Hb [Hiv _ _ _] Harr Hne. unfold decrypt_iv, open_iv. wp_steps.
  apply wp_store_iv; [done|rewrite Zlen_replicate; unfold EVP_MAX_IV_LENGTH; simpl; lia|].
  intros h1 Hl1 _ Harr1 Hk1. rewrite Zlen_replicate in Hl1. wp_steps.
  assert (buf_rep h1 p b bs) as Hb1 by (eapply buf_rep_keeps; eauto; set_solver).
  assert (mload h1 ivp (c_iv_length c) = Some (replicate (Z.to_nat (c_iv_length c)) 0)) as Hz.
  { erewrite mload_prefix by (eauto; unfold EVP_MAX_IV_LENGTH in *; lia).
    rewrite take_replicate. do 2 f_equal. unfold EVP_MAX_IV_LENGTH in *. lia. }
  rewrite (buf_rep_Zlen _ _ _ _ Hb1).
  destruct (use_iv_of opt); [|by wp_steps].
  destruct (b_len b <? c_iv_length c) eqn:E; bool_simp; [by wp_steps|].
  pose proof (buf_rep_Zlen _ _ _ _ Hb1) as Hl. erewrite BPTR_rep by eauto. wp_steps.
  eapply wp_load.
  { replace (b_offset b) with (b_offset b + 0) by lia. eapply buf_rep_load; eauto; lia. }
  replace (slice 0 (c_iv_length c) bs) with (take (Z.to_nat (c_iv_length c)) bs) by done.
  assert (Zlen (take (Z.to_nat (c_iv_length c)) bs) = c_iv_length c) as Hlt
    by (unfold Zlen in *; rewrite length_take; lia).
  wp_steps. apply wp_store_iv; [done|lia|]. intros h2 Hl2 _ Harr2 Hk2. rewrite Hlt in Hl2. wp_steps.
  assert (buf_rep h2 p b bs) as Hb2 by (eapply buf_rep_keeps; eauto; set_solver).
  destruct (buf_advance_n h2 p b bs (c_iv_length c)) as [-> Hb']; auto; [lia|]. wp_steps.
  split; [by eapply keeps_trans|]. auto.
Qed.

Lemma wp_cipher_into h q w o1 o2 :
  buf_rep h q w [] -> b_offset w + (Zlen o1 + Zlen o2) <= b_capacity w ->
  wp (cipher_into o1 o2 w)
     (fun w' h' => w' = with_len w (Zlen o1 + Zlen o2) /\ buf_rep h' q w' (o1 ++ o2) /\
        keeps [blk q] h h') h.
Proof.
  intros Hw Hcap. rep_facts Hw. rewrite Zlen_nil in HL.
  pose proof (Zlen_nonneg o1). pose proof (Zlen_nonneg o2).
  unfold cipher_into. erewrite BPTR_rep by eauto. wp_steps.
  apply wp_store; [eapply buf_rep_valid; eauto; lia|]. intros h1 Hl1 Hm1. wp_steps.
  rewrite ptr_add_add. apply wp_store.
  { apply (mod_valid _ _ _ _ Hm1). eapply buf_rep_valid; eauto; lia. }
  intros h2 Hl2 Hm2. wp_steps. buf_simpl. rewrite <- HL. wrap_simp.
  rewrite Z.add_0_l. split; [done|]. split.
  - split; simpl; auto; try lia.
    + apply (mod_valid _ _ _ _ Hm2), (mod_valid _ _ _ _ Hm1), Hw.
    + unfold BUF_MAX. lia.
    + eapply mload_app; [|by rewrite ptr_add_add].
      rewrite (mod_frame _ _ _ _ Hm2); auto. right. left. simpl. lia.
  - eapply keeps_trans; eapply modifies_keeps; eauto; by left.
Qed.

Lemma wp_decrypt_payload h p b bs q w c ivp iv :
  buf_rep h p b bs -> buf_rep h q w [] -> blk q <> blk p -> decipher_ok c ->
  mload h ivp (c_iv_length c) = Some iv ->
  wp (decrypt_payload c ivp b w)
     (fun r h' => keeps [blk q] h h' /\
        if (Zlen bs <? 1) || negb (c_init c iv) || (b_capacity w - b_offset w <? Zlen bs)
        then r = None
        else match run_cipher c iv bs with
             | Some plain => exists w', r = Some w' /\ buf_rep h' q w' plain
             | None => r = None
             end) h.
Proof.
  intros Hb Hw Hne Hok Hiv. pose proof (buf_rep_Zlen _ _ _ _ Hb) as Hl. pose proof Hw as Hw'.
  rep_facts Hw'. rewrite Zlen_nil in *. rep_facts Hb.
  unfold decrypt_payload, run_cipher. rewrite Hl.
  destruct (b_len b <? 1) eqn:E1; bool_simp; [wp_steps; by split; [apply keeps_refl|]|]. wp_steps.
  eapply wp_load; [exact Hiv|]. destruct (c_init c iv); simpl; [|wp_steps; auto using keeps_refl].
  rewrite (buf_safe_spec h q w []) by (auto; unfold BUF_MAX; lia).
  destruct (b_capacity w - b_offset w <? b_len b) eqn:E2; bool_simp.
  { replace (_ && _) with false by lia. simpl. wp_steps. by split; [apply keeps_refl|]. }
  replace (_ && _) with true by lia. simpl. erewrite (BPTR_rep h p b) by eauto. wp_steps.
  eapply wp_load; [eapply br_bytes; eauto|]. destruct Hok as [_ Hu Hf _].
  destruct (c_update c iv bs) as [o1|] eqn:Eu; [|wp_steps; auto using keeps_refl].
  specialize (Hu _ _ _ Eu). erewrite (BPTR_rep h q w) by eauto. pose proof (Zlen_nonneg o1).
  destruct (c_final c iv bs) as [o2|] eqn:Ef.
  - specialize (Hf _ _ _ _ Eu Ef). wp_steps. wp_use wp_cipher_into; [lia|].
    intros w' h' (-> & Hr & Hk). wp_steps. split; [done|]. eauto.
  - wp_steps. apply wp_store; [eapply buf_rep_valid; eauto; lia|]. intros h1 _ Hm. wp_steps.
    split; [|done]. eapply modifies_keeps; [done|]. by left.
Qed.

Lemma wp_decrypt_pin h q w plain c ivp iv opt :
  buf_rep h q w plain -> decipher_ok c -> mode_ok c opt ->
  mload h ivp (c_iv_length c) = Some iv ->
  wp (decrypt_pin c ivp w opt)
     (fun r h' => h' = h /\
        match open_pin c (bool_decide (is_Some (o_packet_id opt))) (long_form_of opt) iv plain with
        | Some (pin, payload) => fst r = Some pin /\ buf_rep h q (snd r) payload
        | None => fst r = None
        end) h.
Proof.
  intros Hw [Hivl _ _ _] Hmode Hiv. unfold decrypt_pin, open_pin, mode_ok in *.
  assert (iv_case : forall opid, o_packet_id opt = Some opid ->
    wp ('(ok, pin, _) ← packet_id_read (buf_set_read (Some ivp) (c_iv_length c)) true;
        if ok : bool then mret (Some (Some pin), w) else mret (None, w))
       (fun r h' => h' = h /\
        match (match split_pin true iv with
               | Some (pin, _) => Some (Some pin, plain) | None => None end) with
        | Some (pin, payload) => fst r = Some pin /\ buf_rep h q (snd r) payload
        | None => fst r = None
        end) h).
  { intros opid Eo. wp_steps.
    assert (buf_rep h ivp (buf_set_read (Some ivp) (c_iv_length c)) iv) as Hb.
    { unfold EVP_MAX_IV_LENGTH in *. split; simpl; eauto; try lia; [unfold BUF_MAX; lia|].
      by rewrite ptr_add_0. }
    wp_use wp_packet_id_read. intros [[ok pin] b'] h1 [-> Hr].
    destruct (split_pin true iv) as [[pin' rest]|]; [|by simpl in Hr; subst ok].
    destruct Hr as [[= -> -> ->] _]. by wp_steps. }
  destruct (c_mode c); [|destruct Hmode as [-> [pid Epid]]; rewrite Epid; apply wp_bind, wp_ASSERT;
    [done|]; by eapply iv_case..|done].
  destruct (o_packet_id opt) as [pid|] eqn:Epid; simpl; [|by wp_steps].
  wp_steps. wp_use wp_packet_id_read. intros [[ok pin] w'] h1 [-> Hr].
  destruct (split_pin _ plain) as [[pin' rest]|]; [|by simpl in Hr; subst ok].
  destruct Hr as [[= -> -> ->] Hr]. by wp_steps.
Qed.

Lemma keeps_fresh h h1 h2 p bl : fresh_ext h h1 p -> keeps (blk p :: bl) h1 h2 -> keeps bl h h2.
Proof.
  intros (_ & _ & E) K q k x Hq Hx. destruct (E q k x Hx) as [Hx1 Hne]. apply K; [|done].
  rewrite elem_of_cons. intros [?|?]; done.
Qed.

Lemma wp_decrypt_cipher fill h p b bs q w ws c opt f :
  let hr := FRAME_HEADROOM_ADJ f FRAME_HEADROOM_MARKER_DECRYPT in
  buf_rep h p b bs -> buf_rep h q w ws -> blk q <> blk p -> decipher_ok c -> mode_ok c opt ->
  0 <= hr <= b_capacity w ->
  wp (decrypt_cipher fill c b w opt f)
     (fun r h' => keeps [blk q] h h' /\
        match open_cipher c (use_iv_of opt) (bool_decide (is_Some (o_packet_id opt)))
                (long_form_of opt) (b_capacity w - hr) bs with
        | Some (pin, payload) => fst (fst r) = Some pin /\ buf_rep h' q (snd r) payload
        | None => fst (fst r) = None
        end) h.
Proof.
  intros hr Hb Hw Hne Hok Hmode Hhr. unfold decrypt_cipher, open_cipher. wp_steps.
  apply wp_alloc. intros ivp h1 Hl1 Hf.
  rewrite Zlen_indeterminate in Hl1 by (unfold EVP_MAX_IV_LENGTH; lia).
  pose proof (buf_rep_fresh_ne _ _ _ _ _ _ Hf Hb). pose proof (buf_rep_fresh_ne _ _ _ _ _ _ Hf Hw).
  apply (buf_rep_fresh_ext _ _ _ _ _ _ Hf) in Hb. apply (buf_rep_fresh_ext _ _ _ _ _ _ Hf) in Hw.
  destruct (buf_init_spec h1 q w ws hr Hw Hhr) as [Ew Hw1]. fold hr. rewrite Ew.
  set (w1 := with_offset_len w hr 0) in *. wp_steps.
  wp_use wp_decrypt_iv; [by eexists|]. intros [ok b2] h2 (Hk2 & _ & Hr). simpl in Hr.
  assert (keeps [blk ivp; blk q] h1 h2) as Hk12
    by (eapply keeps_in; [exact Hk2|]; left).
  destruct (open_iv c _ bs) as [[iv ct]|].
  2:{ destruct Hr as [-> _]. wp_steps. split; [by eapply keeps_fresh|done]. }
  destruct Hr as (-> & Hiv & Hb2). wp_steps.
  assert (buf_rep h2 q w1 []) as Hw2
    by (eapply buf_rep_keeps; [exact Hk2| |exact Hw1]; set_solver).
  wp_use wp_decrypt_payload. intros w' h3 [Hk3 Hr]. simpl in Hr.
  assert (keeps [blk q] h h3) as Hk.
  { eapply keeps_fresh; [done|]. eapply keeps_trans; [exact Hk12|].
    eapply keeps_in; [exact Hk3|]. right. left. }
  destruct (_ || _); [subst w'; by wp_steps|].
  destruct (run_cipher c iv ct) as [plain|]; [|subst w'; by wp_steps].
  destruct Hr as (w3 & -> & Hw3). wp_steps.
  wp_use wp_decrypt_pin; [apply Hk3; eauto; set_solver|].
  intros [pin w4] h4 [-> Hr]. wp_steps. split; [done|].
  by destruct (open_pin _ _ _ _ _) as [[]|].
Qed.

Lemma wp_decrypt_null h p b bs opt :
  buf_rep h p b bs ->
  wp (decrypt_null b opt)
     (fun r h' => h' = h /\ snd (fst r) = b /\
        match open_null (bool_decide (is_Some (o_packet_id opt))) (long_form_of opt)
                (flag (o_flags opt) CO_IGNORE_PACKET_ID) bs with
        | Some (pin, payload) => fst (fst r) = Some pin /\ buf_rep h p (snd r) payload
        | None => fst (fst r) = None
        end) h.
Proof.
  intros Hb. unfold decrypt_null, open_null. destruct (o_packet_id opt) as [pid|]; simpl; [|by wp_steps].
  wp_steps. wp_use wp_packet_id_read. intros [[ok pin] w'] h1 [-> Hr].
  destruct (split_pin _ bs) as [[pin' rest]|]; [|by simpl in Hr; subst ok].
  destruct Hr as [[= -> -> ->] Hr]. wp_steps. by destruct (flag _ _).
Qed.

(** ** The replay state of a data channel *)

(** A receiver state that packet_id_init and the code since have produced. *)
Definition rec_ok (p : packet_id_rec) : Prop := exists B w, 0 <= B < 65537 /\ rec_sim B p w.

Lemma rec_ok_init sb tb p : packet_id_init sb tb = Ok p -> rec_ok (pid_rec p).
Proof. intros (? & ? & _)%packet_id_init_sim. by exists sb, window_init. Qed.

Lemma split_pin_valid long_form bs pin rest :
  Forall is_byte bs -> split_pin long_form bs = Some (pin, rest) -> pin_valid pin.
Proof.
  intros Hbs. unfold split_pin. case_test; [done|]. intros [= <- <-].
  assert (forall l, Forall is_byte l -> 0 <= be_dec (take 4 l) < 4294967296) as Hd.
  { intros l Hl. pose proof (be_dec_bound (take 4 l) (Forall_take _ _ _ Hl)) as [H1 H2].
    split; [done|]. eapply Z.lt_le_trans; [done|]. change 4294967296 with (256 ^ 4).
    apply Z.pow_le_mono_r; [lia|]. unfold Zlen. rewrite length_take. lia. }
  split; simpl; [by apply Hd|]. destruct long_form; [|done]. apply Hd. by apply Forall_drop.
Qed.

Lemma open_hmac_bytes hm bs rest :
  Forall is_byte bs -> open_hmac hm bs = Some rest -> Forall is_byte rest.
Proof.
  unfold open_hmac. destruct hm; [|by intros ? [= <-]]. intros ?. case_test; [done|].
  case_bool_decide; [|done]. intros [= <-]. by apply Forall_drop.
Qed.

Lemma open_packet_pin_valid ctx opt room bs pin payload :
  (forall c, k_cipher ctx = Some c -> decipher_ok c) -> Forall is_byte bs ->
  open_packet ctx opt room bs = Some (Some pin, payload) -> pin_valid pin.
Proof.
  intros Hok Hbs. unfold open_packet. destruct (open_hmac _ bs) as [rest|] eqn:Eh; [|done].
  apply open_hmac_bytes in Eh; [|done]. destruct (k_cipher ctx) as [c|].
  2:{ unfold open_null. destruct (bool_decide _); [|done].
      destruct (split_pin _ _) as [[]|] eqn:Es; [|done]. destruct (flag _ _); [done|].
      intros [= -> _]. by eapply split_pin_valid; [|exact Es]. }
  destruct (Hok c eq_refl) as [_ _ _ Hby]. unfold open_cipher.
  destruct (open_iv _ _ _) as [[iv ct]|] eqn:Eiv; [|done].
  assert (Forall is_byte iv /\ Forall is_byte ct) as [Hiv Hct].
  { unfold open_iv in Eiv. destruct (use_iv_of opt).
    - destruct (Zlen rest <? _); [done|]. injection Eiv as <- <-.
      split; [by apply Forall_take|by apply Forall_drop].
    - injection Eiv as <- <-. split; [|done]. apply Forall_replicate. unfold is_byte. lia. }
  destruct (_ || _); [done|]. destruct (run_cipher c iv ct) as [plain|] eqn:Er; [|done].
  assert (Forall is_byte plain) as Hpl.
  { unfold run_cipher in Er. specialize (Hby iv ct Hct). destruct (c_update c iv ct), (c_final c iv ct);
      simplify_eq/=. apply Forall_app. tauto. }
  unfold open_pin. destruct (c_mode c); [destruct (bool_decide _); [|done]|..];
    destruct (split_pin _ _) as [[]|] eqn:Es; try done; intros [= -> _];
    (eapply split_pin_valid; [|exact Es]; done).
Qed.

Lemma decrypt_replay_ok now pin opt :
  SEQ_EXPIRED < now ->
  (forall x, pin = Some x -> pin_valid x /\
     exists pid, o_packet_id opt = Some pid /\ rec_ok (pid_rec pid)) ->
  exists acc opt', decrypt_replay now pin opt = Ok (acc, opt') /\
    o_key_ctx_bi opt' = o_key_ctx_bi opt /\ o_flags opt' = o_flags opt.
Proof.
  intros Hnow Hpin. destruct pin as [pin|]; simpl; [|by exists true, opt].
  destruct (Hpin pin eq_refl) as (Hv & pid & -> & B & w & HB & Hsim).
  destruct (packet_id_receive_sim B (now, pin) _ w Hsim HB) as (ok & rec' & E & _);
    [by split|]. simpl in E. rewrite E. simpl.
  destruct ok; [destruct (o_pid_persist opt); [destruct (long_form_of _)|]|];
    by eexists _, _.
Qed.

(** The contexts, the replay state and the work buffer are as the set-up code
    leaves them. *)
Record decrypt_ready (now : Z) (opt : crypto_options) (ctx : key_ctx) (f : frame) (w : buffer)
  : Prop := {
  dr_ctx : exists enc, o_key_ctx_bi opt = Some (KeyCtxBi enc ctx);
  dr_hmac : forall x, k_hmac ctx = Some x -> hmac_ok x;
  dr_cipher : forall c, k_cipher ctx = Some c -> decipher_ok c /\ mode_ok c opt;
  dr_pid : forall pid, o_packet_id opt = Some pid -> rec_ok (pid_rec pid);
  dr_now : SEQ_EXPIRED < now;
  dr_room : 0 <= FRAME_HEADROOM_ADJ f FRAME_HEADROOM_MARKER_DECRYPT <= b_capacity w
}.

Lemma open_packet_has_pid ctx opt room bs pin payload :
  (forall c, k_cipher ctx = Some c -> mode_ok c opt) ->
  open_packet ctx opt room bs = Some (Some pin, payload) -> is_Some (o_packet_id opt).
Proof.
  intros Hm. unfold open_packet. destruct (open_hmac _ bs); [|done].
  destruct (k_cipher ctx) as [c|].
  - specialize (Hm c eq_refl). unfold open_cipher. destruct (open_iv _ _ _) as [[]|]; [|done].
    destruct (_ || _); [done|]. destruct (run_cipher _ _ _); [|done]. unfold open_pin, mode_ok in *.
    destruct (c_mode c); [case_bool_decide; [done|done]|tauto..|done].
  - unfold open_null. case_bool_decide; [done|done].
Qed.

(** openvpn_decrypt on a packet whose packet id, if it has one, can be checked. *)
Lemma wp_openvpn_decrypt now fill h p b bs q w ws opt ctx f :
  decrypt_ready now opt ctx f w ->
  buf_rep h p b bs -> bs <> [] -> buf_rep h q w ws -> blk q <> blk p ->
  let room := b_capacity w - FRAME_HEADROOM_ADJ f FRAME_HEADROOM_MARKER_DECRYPT in
  (forall pin payload, open_packet ctx opt room bs = Some (Some pin, payload) -> pin_valid pin) ->
  wp (openvpn_decrypt now fill b w opt f)
     (fun r h' => keeps [blk q] h h' /\
        let '(ok, b', opt') := r in
        match open_packet ctx opt room bs with
        | None => ok = false /\ b_len b' = 0 /\ opt' = opt
        | Some (pin, payload) =>
            decrypt_replay now pin opt = Ok (ok, opt') /\
            if ok then exists r, (r = p \/ r = q) /\ buf_rep h' r b' payload else b_len b' = 0
        end) h.
Proof.
  intros [(enc & Hbi) Hh Hc Hpid Hnow Hroom] Hb Hne Hw Hpq room Hval.
  assert (0 < b_len b) as Hlen.
  { rewrite <- (buf_rep_Zlen _ _ _ _ Hb). destruct bs; [done|]. rewrite Zlen_cons.
    pose proof (Zlen_nonneg bs). lia. }
  assert (forall pin payload, open_packet ctx opt room bs = Some (pin, payload) ->
    exists acc opt', decrypt_replay now pin opt = Ok (acc, opt')) as Hrep.
  { intros pin payload Ho. destruct (decrypt_replay_ok now pin opt Hnow) as (? & ? & ? & _); eauto.
    intros x ->. split; [by eapply Hval|].
    eapply open_packet_has_pid in Ho as [pid ?]; [|by apply Hc]. eauto. }
  unfold openvpn_decrypt, open_packet in *. rewrite Hbi. cbn [k_decrypt].
  replace (b_len b >? 0) with true by lia.
  wp_steps. wp_use wp_decrypt_hmac. intros [ok b1] h1 [-> Hr].
  destruct (open_hmac (k_hmac ctx) bs) as [rest|].
  2:{ injection Hr as -> ->. wp_steps. by split; [apply keeps_refl|]. }
  simpl in Hr. destruct Hr as [-> Hb1]. wp_steps.
  set (o := match k_cipher ctx with Some c => _ | None => _ end) in *.
  apply wp_mono with (P := fun r h' => keeps [blk q] h h' /\
    match o with
    | Some (pin, payload) => fst (fst r) = Some pin /\
        exists s, (s = p \/ s = q) /\ buf_rep h' s (snd r) payload
    | None => fst (fst r) = None
    end).
  { unfold o. destruct (k_cipher ctx) as [c|].
    - destruct (Hc c eq_refl) as [Hdec Hmode]. wp_use wp_decrypt_cipher.
      intros r h' [Hk Hr]. split; [done|]. fold room in Hr.
      destruct (open_cipher _ _ _ _ _ _) as [[]|]; naive_solver.
    - wp_use wp_decrypt_null. intros r h' [-> Hr]. split; [apply keeps_refl|].
      destruct (open_null _ _ _ _) as [[]|]; naive_solver. }
  intros [[pin b2] w2] h2 [Hk Hr]. simpl in Hr.
  destruct o as [[pin' payload]|]; [|subst pin; by wp_steps].
  destruct Hr as [-> Hw2]. wp_steps.
  destruct (Hrep pin' payload eq_refl) as (acc & opt' & E).
  eapply wp_lift; [exact E|]. destruct acc; wp_steps; auto.
Qed.

(** C1: openvpn_decrypt implements its specification for every packet a peer can
    send: it never reads or writes outside its buffers, no ASSERT fails, and its
    outcome is that of [open_packet] on the packet's bytes (authenticate, decrypt,
    split off the packet id) followed by the replay check.  A packet that fails is
    dropped with its length set to 0, and one that fails before the replay check
    leaves the replay state as it was. *)
Theorem openvpn_decrypt_refines now fill h p b bs q w ws opt ctx f :
  decrypt_ready now opt ctx f w ->
  buf_rep h p b bs -> bs <> [] -> Forall is_byte bs -> buf_rep h q w ws -> blk q <> blk p ->
  wp (openvpn_decrypt now fill b w opt f)
     (fun r h' => keeps [blk q] h h' /\
        let '(ok, b', opt') := r in
        match open_packet ctx opt
                (b_capacity w - FRAME_HEADROOM_ADJ f FRAME_HEADROOM_MARKER_DECRYPT) bs with
        | None => ok = false /\ b_len b' = 0 /\ opt' = opt
        | Some (pin, payload) =>
            decrypt_replay now pin opt = Ok (ok, opt') /\
            if ok then exists r, (r = p \/ r = q) /\ buf_rep h' r b' payload else b_len b' = 0
        end) h.
Proof.
  intros Hr ?????. eapply wp_openvpn_decrypt; eauto.
  intros. eapply open_packet_pin_valid; eauto. intros. by apply (dr_cipher _ _ _ _ _ Hr).
Qed.

(** ** openvpn_encrypt *)

(** What OpenSSL documents of a CBC cipher keyed for encryption: the calls succeed,
    the final block is one IV's length, and the padding adds at most a block. *)
Record encipher_ok (c : cipher_ctx) : Prop := {
  ek_mode : c_mode c = EVP_CIPH_CBC_MODE;
  ek_iv : 0 <= c_iv_length c <= EVP_MAX_IV_LENGTH;
  ek_block : 0 <= c_block_size c <= 64;
  ek_init : forall iv, c_init c iv = true;
  ek_run : forall iv m, exists o1 o2, c_update c iv m = Some o1 /\ c_final c iv m = Some o2 /\
             Zlen o2 = c_iv_length c /\ Zlen o1 + Zlen o2 <= Zlen m + c_block_size c
}.

Definition seal_hmac (hm : option hmac_ctx) (bs : list byte) : list byte :=
  match hm with Some hm => HMAC hm bs ++ bs | None => bs end.
Definition hmac_len (hm : option hmac_ctx) : Z :=
  match hm with Some hm => HMAC_size hm | None => 0 end.

Definition seal_cipher (c : cipher_ctx) (use_iv : bool) (iv plain : list byte) : list byte :=
  let ct := default [] (run_cipher c (if use_iv then iv
                                      else replicate (Z.to_nat (c_iv_length c)) 0) plain) in
  if use_iv then iv ++ ct else ct.

(** The packet openvpn_encrypt makes of a payload; [front] is the packet id. *)
Definition seal_packet (ctx : key_ctx) (use_iv : bool) (iv front payload : list byte) : list byte :=
  seal_hmac (k_hmac ctx)
    (match k_cipher ctx with
     | Some c => seal_cipher c use_iv iv (front ++ payload)
     | None => front ++ payload
     end).

(** The packet id that goes on the wire, and the options after taking it. *)
Definition next_pin (now : Z) (opt : crypto_options) (front : list byte) (opt' : crypto_options)
  : Prop :=
  match o_packet_id opt with
  | Some pid => exists pin, alloc_pin now opt pid (long_form_of opt) = Ok (opt', pin) /\
                  front = pin_bytes pin (long_form_of opt)
  | None => front = [] /\ opt' = opt
  end.

Lemma next_pin_len now opt front opt' :
  next_pin now opt front opt' ->
  Zlen front = match o_packet_id opt with Some _ => packet_id_size (long_form_of opt) | None => 0 end.
Proof.
  unfold next_pin. destruct (o_packet_id opt); [|by intros [-> ->]].
  intros (pin & _ & ->). apply Zlen_pin_bytes.
Qed.

Lemma alloc_pin_flags now opt pid long_form opt' pin :
  alloc_pin now opt pid long_form = Ok (opt', pin) -> o_flags opt' = o_flags opt.
Proof.
  unfold alloc_pin. destruct (packet_id_alloc_outgoing _ _ _) as [[]| |]; simpl; [|done..].
  by intros [= <- _].
Qed.

Lemma next_pin_flags now opt front opt' :
  next_pin now opt front opt' -> use_iv_of opt' = use_iv_of opt.
Proof.
  unfold next_pin, use_iv_of. destruct (o_packet_id opt); [|by intros [_ ->]].
  intros (pin & E & _). by rewrite (alloc_pin_flags _ _ _ _ _ _ E).
Qed.

Lemma wp_prepend_pin now h p b bs opt front opt' :
  buf_rep h p b bs -> next_pin now opt front opt' -> Zlen front <= b_offset b ->
  wp (prepend_pin now b opt)
     (fun r h' => exists b', r = (b', opt') /\
        b' = with_offset_len b (b_offset b - Zlen front) (b_len b + Zlen front) /\
        buf_rep h' p b' (front ++ bs) /\ keeps [blk p] h h') h.
Proof.
  intros Hb Hpin Hroom. pose proof (next_pin_len _ _ _ _ Hpin) as Hl.
  unfold next_pin, prepend_pin in *. destruct (o_packet_id opt) as [pid|].
  - destruct Hpin as (pin & E & ->). simpl in Hl. wp_steps.
    eapply wp_lift; [exact E|]. wp_steps.
    replace (long_form_of opt') with (long_form_of opt)
      by (apply alloc_pin_flags in E; unfold long_form_of; by rewrite E).
    wp_use wp_packet_id_write_prepend; [by rewrite <- Hl|].
    intros [ok b1] h1 ([= -> ->] & Hb1 & Hm). wp_steps. rewrite Hl. eexists. split_and!; eauto.
    eapply modifies_keeps; [done|]. by left.
  - destruct Hpin as [-> ->]. wp_steps. rewrite Zlen_nil. exists b.
    split_and!; auto using keeps_refl. unfold with_offset_len. destruct b; simpl. f_equal; lia.
Qed.

Lemma wp_encrypt_hmac h p b bs hm :
  buf_rep h p b bs -> (forall x, hm = Some x -> hmac_ok x) -> hmac_len hm <= b_offset b ->
  wp (encrypt_hmac hm b)
     (fun b' h' => buf_rep h' p b' (seal_hmac hm bs) /\ keeps [blk p] h h') h.
Proof.
  intros Hb Hok Hroom. unfold encrypt_hmac, seal_hmac, hmac_len in *.
  destruct hm as [hm|]; [|wp_steps; auto using keeps_refl].
  destruct (Hok hm eq_refl) as [Hs Hl]. erewrite BPTR_rep by eauto. wp_steps.
  eapply wp_load; [by apply br_bytes|].
  rewrite (buf_prepend_spec h p b bs) by (auto; lia). wp_steps.
  rewrite <- (Hl bs) in *. eapply wp_store_prepend; eauto.
  intros h' Hr Hm. wp_steps. rewrite Z.eqb_refl. wp_steps. split; [done|].
  eapply modifies_keeps; [done|]. by left.
Qed.

(** The PRNG fills exactly the bytes it is asked for. *)
Lemma prng_bytes_length SHA1 nonce len :
  0 <= len -> (forall x, Zlen (SHA1 x) = SHA_DIGEST_LENGTH) -> SHA_DIGEST_LENGTH <= Zlen nonce ->
  Zlen (fst (prng_bytes SHA1 nonce len)) = len.
Proof.
  intros Hlen Hsha. unfold prng_bytes.
  assert (forall fuel nonce len, 0 <= len <= Z.of_nat fuel -> SHA_DIGEST_LENGTH <= Zlen nonce ->
    Zlen (fst (prng_loop SHA1 fuel nonce len)) = len) as H.
  2:{ intros. apply H; [lia|done]. }
  clear nonce len Hlen. induction fuel as [|k IH]; intros nonce len Hlen Hn; cbn [prng_loop].
  { simpl. rewrite Zlen_nil. lia. }
  destruct (len >? 0) eqn:E; rewrite Z.gtb_ltb in E; bool_simp; [|simpl; rewrite Zlen_nil; lia].
  rewrite min_int_spec. unfold SHA_DIGEST_LENGTH in *. set (blen := Z.min len 20).
  set (n' := splice 0 (SHA1 nonce) nonce).
  assert (Zlen n' = Zlen nonce) as Hn' by (apply Zlen_splice; rewrite ?Hsha; lia).
  specialize (IH n' (len - blen)). destruct (prng_loop SHA1 k n' (len - blen)) as [o n2].
  cbn [fst] in *. rewrite Zlen_app, IH, Zlen_slice; lia.
Qed.

(** The IV bytes openvpn_encrypt uses: fresh ones, or none. *)
Definition iv_of (SHA1 : list byte -> list byte) (nonce : list byte) (c : cipher_ctx) : list byte :=
  fst (prng_bytes SHA1 nonce (c_iv_length c)).
Definition prng_ok (SHA1 : list byte -> list byte) (nonce : list byte) : Prop :=
  (forall x, Zlen (SHA1 x) = SHA_DIGEST_LENGTH) /\ SHA_DIGEST_LENGTH <= Zlen nonce.

Lemma wp_encrypt_iv SHA1 now nonce c ivp h p b bs opt front opt' :
  buf_rep h p b bs -> encipher_ok c -> prng_ok SHA1 nonce -> iv_array h ivp -> blk ivp <> blk p ->
  next_pin now opt front opt' -> Zlen front <= b_offset b ->
  wp (encrypt_iv SHA1 now nonce c ivp b opt)
     (fun r h' => keeps [blk ivp; blk p] h h' /\
        mload h' ivp (c_iv_length c)
          = Some (if use_iv_of opt then iv_of SHA1 nonce c
                  else replicate (Z.to_nat (c_iv_length c)) 0) /\
        exists nonce' b', r = (nonce', b', opt') /\ b_len b' = b_len b + Zlen front /\
          buf_rep h' p b' (front ++ bs)) h.
Proof.
  intros Hb [Hmode Hivl _ _ _] [Hsha Hn] Harr Hne Hpin Hroom. unfold encrypt_iv. rewrite Hmode.
  wp_steps. apply wp_store_iv; [done|rewrite Zlen_replicate; unfold EVP_MAX_IV_LENGTH; simpl; lia|].
  intros h1 Hl1 _ Harr1 Hk1. rewrite Zlen_replicate in Hl1. wp_steps.
  pose proof (prng_bytes_length SHA1 nonce (c_iv_length c)) as Hpl. unfold iv_of.
  set (r := prng_bytes SHA1 nonce (c_iv_length c)) in *.
  assert (exists nonce1, (if use_iv_of opt then r else ([], nonce)) =
    (if use_iv_of opt then fst r else [], nonce1)) as [nonce1 ->].
  { destruct (use_iv_of opt); [|by eexists]. exists (snd r). by destruct r. }
  wp_steps. apply wp_store_iv; [done| |].
  { destruct (use_iv_of opt); [rewrite Hpl by (auto; lia)|rewrite Zlen_nil;
      unfold EVP_MAX_IV_LENGTH]; lia. }
  intros h2 Hl2 Hm2 Harr2 Hk2.
  assert (buf_rep h2 p b bs) as Hb2.
  { eapply buf_rep_keeps; [exact Hk2|set_solver|]. eapply buf_rep_keeps; [exact Hk1|set_solver|done]. }
  wp_steps. wp_use wp_prepend_pin. intros [b' o'] h3 (b3 & [= -> ->] & -> & Hb3 & Hk3). wp_steps.
  split.
  { eapply keeps_trans; [eapply keeps_in; [exact Hk1|by left]|].
    eapply keeps_trans; [eapply keeps_in; [exact Hk2|by left]|].
    eapply keeps_in; [exact Hk3|]. right. by left. }
  split; [|by eauto 10]. apply Hk3; [set_solver|].
  destruct (use_iv_of opt); [by rewrite Hpl in Hl2 by (auto; lia)|].
  rewrite (mod_frame _ _ _ _ Hm2); [|lia|right; rewrite Zlen_nil; lia].
  erewrite mload_prefix by (eauto; unfold EVP_MAX_IV_LENGTH in *; lia).
  rewrite take_replicate. do 2 f_equal. unfold EVP_MAX_IV_LENGTH in *. lia.
Qed.

(** Enough room for the worst case of every stage (what crypto_adjust_frame_parameters
    adds to the frame, src/crypto.c). *)
Record encrypt_ready (SHA1 : list byte -> list byte) (now : Z) (nonce : list byte)
  (opt : crypto_options) (ctx : key_ctx) (f : frame) (b w : buffer) (front : list byte)
  (opt' : crypto_options) : Prop := {
  er_ctx : exists dec, o_key_ctx_bi opt = Some (KeyCtxBi ctx dec);
  er_hmac : forall x, k_hmac ctx = Some x -> hmac_ok x;
  er_cipher : forall c, k_cipher ctx = Some c -> encipher_ok c /\
    FRAME_HEADROOM f + b_len b + Zlen front + c_block_size c <= b_capacity w /\
    hmac_len (k_hmac ctx) + c_iv_length c <= FRAME_HEADROOM f;
  er_null : k_cipher ctx = None -> hmac_len (k_hmac ctx) + Zlen front <= b_offset b;
  er_front : Zlen front <= b_offset b;
  er_prng : prng_ok SHA1 nonce;
  er_pin : next_pin now opt front opt'
}.

Lemma hmac_len_nonneg hm : (forall x, hm = Some x -> hmac_ok x) -> 0 <= hmac_len hm.
Proof. intros H. destruct hm as [x|]; simpl; [|lia]. destruct (H x eq_refl). lia. Qed.

Lemma wp_iv_prepend h q w ws c ivp iv (use_iv : bool) :
  buf_rep h q w ws -> 0 <= c_iv_length c <= b_offset w ->
  mload h ivp (c_iv_length c) = Some iv -> Zlen iv = c_iv_length c ->
  wp (if use_iv then
        let '(output, w) := buf_prepend w (c_iv_length c) in
        match output with
        | Some o => iv ← load ivp (c_iv_length c); _ ← store o iv; mret w
        | None => lift AssertFail
        end
      else mret w)
     (fun w' h' => buf_rep h' q w' (if use_iv then iv ++ ws else ws) /\ keeps [blk q] h h' /\
        b_offset w' = b_offset w - (if use_iv then c_iv_length c else 0)) h.
Proof.
  intros Hw Hroom Hiv Hl. destruct use_iv.
  2:{ wp_steps. split_and!; auto using keeps_refl. lia. }
  rewrite (buf_prepend_spec h q w ws) by (auto; lia). wp_steps.
  eapply wp_load; [exact Hiv|]. wp_steps. rewrite <- Hl in *. eapply wp_store_prepend; eauto; [lia|].
  intros h' Hr Hm. wp_steps. split_and!; auto. eapply modifies_keeps; [done|]. by left.
Qed.

Lemma wp_encrypt_cipher SHA1 now fill nonce c h p b bs q w ws opt ctx f front opt' :
  encrypt_ready SHA1 now nonce opt ctx f b w front opt' -> k_cipher ctx = Some c ->
  buf_rep h p b bs -> buf_rep h q w ws -> blk q <> blk p ->
  wp (encrypt_cipher SHA1 now fill nonce c b w opt f)
     (fun r h' => exists nonce' b' w', r = (nonce', b', opt', Some w') /\
        buf_rep h' q w' (seal_cipher c (use_iv_of opt) (iv_of SHA1 nonce c) (front ++ bs)) /\
        hmac_len (k_hmac ctx) <= b_offset w' /\ keeps [blk p; blk q] h h') h.
Proof.
  intros [_ Hh Hc _ Hfront Hprng Hpin] Ec Hb Hw Hne. destruct (Hc c Ec) as (Hok & Hcap & Hroom).
  pose proof (hmac_len_nonneg _ Hh) as Hh0. pose proof (Zlen_nonneg front).
  pose proof (br_len _ _ _ _ Hb).
  pose proof Hok as [_ Hivl Hblk Hinit Hrun]. unfold encrypt_cipher, seal_cipher. wp_steps.
  apply wp_alloc. intros ivp h1 Hl1 Hf.
  rewrite Zlen_indeterminate in Hl1 by (unfold EVP_MAX_IV_LENGTH; lia).
  pose proof (buf_rep_fresh_ne _ _ _ _ _ _ Hf Hb). pose proof (buf_rep_fresh_ne _ _ _ _ _ _ Hf Hw).
  apply (buf_rep_fresh_ext _ _ _ _ _ _ Hf) in Hb. apply (buf_rep_fresh_ext _ _ _ _ _ _ Hf) in Hw.
  wp_steps. wp_use wp_encrypt_iv; [by eexists|].
  intros r h2 (Hk2 & Hiv & nonce' & b2 & -> & Hlen2 & Hb2).
  assert (buf_rep h2 q w ws) as Hw2 by (eapply buf_rep_keeps; [exact Hk2|set_solver|done]).
  pose proof (buf_rep_Zlen _ _ _ _ Hb2) as HL2. pose proof (Zlen_nonneg (front ++ bs)).
  destruct (buf_init_spec h2 q w ws (FRAME_HEADROOM f)) as [-> Hw3]; [done|lia|].
  set (w3 := with_offset_len w (FRAME_HEADROOM f) 0) in *. wp_steps.
  eapply wp_load; [exact Hiv|]. rewrite Hinit. wp_steps. set (iv := if use_iv_of opt then _ else _) in *.
  assert (b_capacity w <= BUF_MAX) as Hmax by apply Hw2. unfold BUF_MAX in Hmax.
  rewrite (i32_id (b_len b2 + _)) by (unfold is_i32; lia).
  rewrite (buf_safe_spec h2 q w3 []) by (auto; unfold BUF_MAX; lia). subst w3. buf_simpl.
  replace (_ && _) with true by lia. wp_steps. erewrite BPTR_rep by eauto. wp_steps.
  eapply wp_load; [by apply br_bytes|]. wp_steps.
  destruct (Hrun iv (front ++ bs)) as (o1 & o2 & E1 & E2 & Hl2 & Hle). unfold run_cipher.
  eapply wp_lift; [by rewrite E1|]. wp_steps. eapply wp_lift; [by rewrite E2|]. wp_steps.
  wp_use wp_cipher_into; [buf_simpl; lia|]. intros w4 h4 (-> & Hw4 & Hk4). wp_steps.
  rewrite Hl2 in Hw4 |- *. rewrite Z.eqb_refl. wp_steps.
  replace (use_iv_of opt') with (use_iv_of opt) by (by rewrite (next_pin_flags _ _ _ _ Hpin)).
  assert (mload h4 ivp (c_iv_length c) = Some iv) as Hiv4 by (apply Hk4; [set_solver|done]).
  wp_use wp_iv_prepend; [buf_simpl; lia|by eapply mload_Zlen|].
  intros w5 h5 (Hw5 & Hk5 & Ho5). buf_simpl. wp_steps. rewrite E1, E2. simpl. exists nonce', b2, w5.
  split; [done|]. split; [|split].
  - unfold iv in Hw5. by destruct (use_iv_of opt).
  - destruct (use_iv_of opt); lia.
  - eapply keeps_fresh; [exact Hf|].
    eapply keeps_trans; [eapply keeps_weaken; [|exact Hk2]|].
    { intros ?. rewrite !elem_of_cons. tauto. }
    eapply keeps_trans; (eapply keeps_in; [eassumption|]); right; right; by left.
Qed.

Lemma prepend_null_case SHA1 now nonce opt ctx f b w front opt' :
  encrypt_ready SHA1 now nonce opt ctx f b w front opt' -> k_cipher ctx = None ->
  hmac_len (k_hmac ctx) <= b_offset b - Zlen front.
Proof. intros [_ _ _ Hn _ _ _] E. specialize (Hn E). lia. Qed.

(** openvpn_encrypt makes the packet of its specification. *)
Lemma wp_openvpn_encrypt SHA1 now fill nonce h p b bs q w ws opt ctx f front opt' :
  encrypt_ready SHA1 now nonce opt ctx f b w front opt' ->
  buf_rep h p b bs -> bs <> [] -> buf_rep h q w ws -> blk q <> blk p ->
  let iv := match k_cipher ctx with Some c => iv_of SHA1 nonce c | None => [] end in
  wp (openvpn_encrypt SHA1 now fill nonce b w opt f)
     (fun r h' => keeps [blk p; blk q] h h' /\
        exists nonce' b' s, r = (nonce', b', opt') /\ (s = p \/ s = q) /\
          buf_rep h' s b' (seal_packet ctx (use_iv_of opt) iv front bs)) h.
Proof.
  intros Hr Hb Hne Hw Hpq iv. pose proof Hr as [(dec & Hbi) Hh _ _ Hfront _ Hpin].
  assert (0 < b_len b) as Hlen.
  { rewrite <- (buf_rep_Zlen _ _ _ _ Hb). destruct bs; [done|]. rewrite Zlen_cons.
    pose proof (Zlen_nonneg bs). lia. }
  unfold openvpn_encrypt, seal_packet, iv. rewrite Hbi. cbn [k_encrypt].
  replace (b_len b >? 0) with true by lia. wp_steps.
  assert (forall s h1 w1 body, (s = p \/ s = q) -> keeps [blk p; blk q] h h1 ->
    buf_rep h1 s w1 body -> hmac_len (k_hmac ctx) <= b_offset w1 ->
    wp (encrypt_hmac (k_hmac ctx) w1) (fun w2 h2 => keeps [blk p; blk q] h h2 /\
      (s = p \/ s = q) /\ buf_rep h2 s w2 (seal_hmac (k_hmac ctx) body)) h1) as Hhm.
  { intros s h1 w1 body Hs Hk Hw1 Hroom. wp_use wp_encrypt_hmac. intros w2 h2 [Hw2 Hk2].
    split; [|auto]. eapply keeps_trans; [exact Hk|]. eapply keeps_in; [exact Hk2|].
    destruct Hs as [->| ->]; [by left|right; by left]. }
  destruct (k_cipher ctx) as [c|] eqn:Ec.
  - wp_use wp_encrypt_cipher. intros r h1 (nonce' & b1 & w1 & -> & Hw1 & Hroom & Hk). wp_steps.
    eapply wp_mono; [eapply Hhm; [by right|done..]|]. intros w2 h2 (? & ? & ?). wp_steps. eauto 10.
  - wp_steps. wp_use wp_prepend_pin. intros r h1 (b1 & -> & -> & Hb1 & Hk). wp_steps.
    eapply wp_mono; [eapply Hhm; [by left| |exact Hb1|]|].
    + eapply keeps_in; [exact Hk|]. by left.
    + simpl. by eapply prepend_null_case.
    + intros w2 h2 (? & ? & ?). wp_steps. eauto 10.
Qed.

(** ** The specifications invert each other *)

(** [dec] inverts [enc]: same mode, IV and key. *)
Record inverse_ctx (enc dec : key_ctx) : Prop := {
  iv_hmac : k_hmac dec = k_hmac enc;
  iv_cipher : match k_cipher enc, k_cipher dec with
    | Some ce, Some cd => c_mode cd = EVP_CIPH_CBC_MODE /\ c_iv_length cd = c_iv_length ce /\
        (forall iv, c_init cd iv = true) /\
        (forall iv m ct, run_cipher ce iv m = Some ct ->
           run_cipher cd iv ct = Some m /\ (m <> [] -> ct <> []))
    | None, None => True
    | _, _ => False
    end
}.

Lemma open_seal_hmac hm bs :
  (forall x, hm = Some x -> hmac_ok x) -> open_hmac hm (seal_hmac hm bs) = Some bs.
Proof.
  intros H. unfold open_hmac, seal_hmac. destruct hm as [hm|]; [|done].
  destruct (H hm eq_refl) as [Hs Hl]. rewrite Zlen_app, Hl.
  replace (_ <? _) with false by (pose proof (Zlen_nonneg bs); lia).
  assert (Z.to_nat (HMAC_size hm) = length (HMAC hm bs)) as ->
    by (rewrite <- (Hl bs); unfold Zlen; lia).
  rewrite drop_app_length, take_app_length. by rewrite bool_decide_true.
Qed.

Lemma open_seal_iv c (use_iv : bool) iv ct :
  Zlen iv = c_iv_length c ->
  open_iv c use_iv (if use_iv then iv ++ ct else ct)
  = Some (if use_iv then iv else replicate (Z.to_nat (c_iv_length c)) 0, ct).
Proof.
  intros Hl. unfold open_iv. destruct use_iv; [|done]. rewrite Zlen_app, Hl.
  replace (_ <? _) with false by (pose proof (Zlen_nonneg ct); lia).
  assert (Z.to_nat (c_iv_length c) = length iv) as -> by (rewrite <- Hl; unfold Zlen; lia).
  by rewrite drop_app_length, take_app_length.
Qed.

Lemma open_seal_packet enc dec opt opt2 front pin payload iv room :
  (forall x, k_hmac enc = Some x -> hmac_ok x) -> inverse_ctx enc dec ->
  (forall c, k_cipher enc = Some c -> encipher_ok c /\ Zlen iv = c_iv_length c /\
     Zlen (front ++ payload) + c_block_size c <= room) ->
  o_flags opt2 = o_flags opt -> is_Some (o_packet_id opt2) -> payload <> [] ->
  front = pin_bytes pin (long_form_of opt) -> is_u32 (pin_id pin) -> is_u32 (pin_time pin) ->
  open_packet dec opt2 room (seal_packet enc (use_iv_of opt) iv front payload)
  = Some (if flag (o_flags opt) CO_IGNORE_PACKET_ID && negb (bool_decide (is_Some (k_cipher enc)))
          then None else Some (Pin (pin_id pin) (if long_form_of opt then pin_time pin else 0)),
          payload).
Proof.
  intros Hh [Hkh Hinv] Hc Hfl Hpid Hpay -> Hid Ht. unfold open_packet, seal_packet. rewrite Hkh.
  rewrite open_seal_hmac, bool_decide_true by done.
  assert (long_form_of opt2 = long_form_of opt) as -> by (unfold long_form_of; by rewrite Hfl).
  assert (use_iv_of opt2 = use_iv_of opt) as -> by (unfold use_iv_of; by rewrite Hfl).
  destruct (k_cipher enc) as [ce|], (k_cipher dec) as [cd|]; try done.
  2:{ unfold open_null. rewrite split_pin_bytes by done. rewrite Hfl. by destruct (flag _ _). }
  destruct Hinv as (Hm & Hl & Hi & Hrun). destruct (Hc ce eq_refl) as (Hok & Hivl & Hroom).
  unfold open_cipher, seal_cipher. rewrite open_seal_iv by congruence.
  rewrite Hl. set (iv' := if use_iv_of opt then iv else _).
  destruct Hok as [_ _ _ _ Hek]. destruct (Hek iv' (pin_bytes pin (long_form_of opt) ++ payload))
    as (o1 & o2 & E1 & E2 & _ & Hle).
  assert (run_cipher ce iv' (pin_bytes pin (long_form_of opt) ++ payload) = Some (o1 ++ o2)) as Hr
    by (unfold run_cipher; by rewrite E1, E2).
  rewrite Hr. simpl. apply Hrun in Hr as [Hr Hne]. rewrite Hi, Hr, Zlen_app.
  assert (o1 ++ o2 <> []) as Hne' by (apply Hne; destruct payload; [done|]; by destruct (pin_bytes _ _)).
  assert (1 <= Zlen (o1 ++ o2)).
  { destruct (o1 ++ o2); [done|]. rewrite Zlen_cons. pose proof (Zlen_nonneg l). lia. }
  rewrite Zlen_app in H. replace (_ || _) with false by (simpl; lia).
  unfold open_pin. rewrite Hm, split_pin_bytes by done. simpl. by rewrite andb_false_r.
Qed.

(** An empty packet is no packet of a channel with packet ids. *)
Lemma open_packet_nil ctx opt room :
  is_Some (o_packet_id opt) -> open_packet ctx opt room [] = None.
Proof.
  intros Hp. unfold open_packet.
  destruct (open_hmac (k_hmac ctx) []) as [rest|] eqn:E; [|done].
  assert (rest = []) as ->.
  { unfold open_hmac in E. destruct (k_hmac ctx); [|congruence]. rewrite drop_nil in E.
    destruct (_ <? _); [done|]. case_bool_decide; congruence. }
  rewrite bool_decide_true by done. destruct (k_cipher ctx) as [c|].
  - unfold open_cipher. destruct (open_iv c _ []) as [[iv ct]|] eqn:Ei; [|done].
    assert (ct = []) as ->; [|done]. unfold open_iv in Ei. rewrite drop_nil in Ei.
    destruct (use_iv_of opt); [|congruence]. destruct (_ <? _); congruence.
  - unfold open_null, split_pin. by destruct (long_form_of opt).
Qed.

(** C2: a packet that openvpn_encrypt makes is decrypted to the payload by the peer.
    With keys that invert each other (any CBC cipher or none, any HMAC or none,
    with or without IVs, short or long packet ids), the receiver recovers exactly
    the payload bytes and exactly the packet id of the sender; it accepts if and
    only if the replay check accepts that id.  Neither side fails an ASSERT or
    leaves its buffers, provided the headroom and room that the frame parameters
    are computed from.  The keys carry packet ids: CO_IGNORE_PACKET_ID is not set. *)
Theorem decrypt_encrypt SHA1 now fill nonce h p b bs q w ws r w2 ws2 sopt ectx f pid pin sopt'
    now2 fill2 ropt dctx f2 :
  let front := pin_bytes pin (long_form_of sopt) in
  let room := b_capacity w2 - FRAME_HEADROOM_ADJ f2 FRAME_HEADROOM_MARKER_DECRYPT in
  encrypt_ready SHA1 now nonce sopt ectx f b w front sopt' ->
  o_packet_id sopt = Some pid -> alloc_pin now sopt pid (long_form_of sopt) = Ok (sopt', pin) ->
  is_u32 (pin_id pin) -> is_u32 (pin_time pin) ->
  decrypt_ready now2 ropt dctx f2 w2 -> inverse_ctx ectx dctx ->
  o_flags ropt = o_flags sopt -> flag (o_flags sopt) CO_IGNORE_PACKET_ID = false ->
  is_Some (o_packet_id ropt) ->
  (forall c, k_cipher ectx = Some c -> Zlen front + b_len b + c_block_size c <= room) ->
  buf_rep h p b bs -> bs <> [] -> buf_rep h q w ws -> buf_rep h r w2 ws2 ->
  blk q <> blk p -> blk r <> blk p -> blk r <> blk q ->
  wp ('(_, b1, _) ← openvpn_encrypt SHA1 now fill nonce b w sopt f;
      openvpn_decrypt now2 fill2 b1 w2 ropt f2)
     (fun res h' => let '(ok, b2, ropt') := res in
        decrypt_replay now2 (Some (Pin (pin_id pin) (if long_form_of sopt then pin_time pin else 0)))
          ropt = Ok (ok, ropt') /\
        (ok = true -> exists s, buf_rep h' s b2 bs)) h.
Proof.
  intros front room Her Hpid Hal Hid Ht Hdr Hinv Hfl Hig Hrpid Hroom Hb Hne Hw Hw2 Hqp Hrp Hrq.
  wp_steps. wp_use wp_openvpn_encrypt. intros r1 h1 (Hk & nonce' & b1 & s & -> & Hs & Hb1). wp_steps.
  set (iv := match k_cipher ectx with Some c => _ | None => _ end) in *.
  assert (buf_rep h1 r w2 ws2) as Hw2'
    by (eapply buf_rep_keeps; [exact Hk|set_solver|done]).
  assert (open_packet dctx ropt room (seal_packet ectx (use_iv_of sopt) iv front bs) =
    Some (Some (Pin (pin_id pin) (if long_form_of sopt then pin_time pin else 0)), bs)) as Hopen.
  { erewrite open_seal_packet; eauto.
    - by rewrite Hig.
    - apply Her.
    - intros c Ec. destruct (er_cipher _ _ _ _ _ _ _ _ _ _ Her c Ec) as (Hok & _).
      split; [done|]. unfold iv. rewrite Ec. pose proof (er_prng _ _ _ _ _ _ _ _ _ _ Her) as [? ?].
      split; [apply prng_bytes_length; auto; by destruct Hok; lia|].
      rewrite Zlen_app, (buf_rep_Zlen _ _ _ _ Hb). by apply Hroom. }
  eapply wp_mono.
  - eapply (wp_openvpn_decrypt now2 fill2 h1 s b1 _ r w2 ws2 ropt dctx f2); eauto.
    + intros E. fold room in Hopen. rewrite E in Hopen. by rewrite open_packet_nil in Hopen.
    + destruct Hs as [-> | ->]; auto.
    + fold room. rewrite Hopen. intros ? ? [= <- _]. split; [done|].
      simpl. unfold is_u32 in Ht. destruct (long_form_of sopt); lia.
  - fold room. rewrite Hopen. intros [[ok b2] ropt'] h2 (_ & E & Hok). split; [done|].
    intros ->. naive_solver.
Qed.

(** Packets without a valid tag are dropped and leave no trace.  If the tag is
    not the HMAC of the rest, or the packet is shorter than a tag, openvpn_decrypt
    returns false with the buffer emptied; the replay window, the persisted id and
    every other option are unchanged, so an attacker without the key cannot move
    the window. *)
Theorem unauthenticated_packet_dropped now fill h p b bs q w ws opt ctx f hm :
  decrypt_ready now opt ctx f w ->
  buf_rep h p b bs -> bs <> [] -> buf_rep h q w ws -> blk q <> blk p ->
  k_hmac ctx = Some hm ->
  HMAC hm (drop (Z.to_nat (HMAC_size hm)) bs) <> take (Z.to_nat (HMAC_size hm)) bs ->
  wp (openvpn_decrypt now fill b w opt f)
     (fun r h' => keeps [blk q] h h' /\ exists b', r = (false, b', opt) /\ b_len b' = 0) h.
Proof.
  intros Hr Hb Hne Hw Hqp Ek Hforge.
  assert (forall room, open_packet ctx opt room bs = None) as Hopen.
  { intros room. unfold open_packet, open_hmac. rewrite Ek. rewrite bool_decide_false by done.
    by destruct (_ <? _). }
  eapply wp_mono; [eapply wp_openvpn_decrypt; eauto|].
  - intros ??. by rewrite Hopen.
  - intros [[ok b'] opt'] h'. rewrite Hopen. intros (Hk & -> & ? & ->). eauto.
Qed.

(** ** Replays *)

(** The replay checks of the packets that arrive in between. *)
Fixpoint decrypt_replay_all (evs : list (Z * packet_id_net)) (opt : crypto_options)
  : result crypto_options :=
  match evs with
  | [] => Ok opt
  | (now, pin) :: r => '(_, opt) ← decrypt_replay now (Some pin) opt; decrypt_replay_all r opt
  end.

(** The receiver can no longer accept [pin]. *)
Definition spent (opt : crypto_options) (pin : packet_id_net) : Prop :=
  exists pid B w, o_packet_id opt = Some pid /\ 0 <= B < 65537 /\ rec_sim B (pid_rec pid) w /\
    behind B w pin.

Lemma decrypt_replay_sim now pin opt pid B w :
  o_packet_id opt = Some pid -> 0 <= B < 65537 -> rec_sim B (pid_rec pid) w ->
  event_valid (now, pin) ->
  exists ok opt' pid' w', decrypt_replay now (Some pin) opt = Ok (ok, opt') /\
    o_packet_id opt' = Some pid' /\ rec_sim B (pid_rec pid') w' /\
    (forall q, behind B w q -> behind B w' q) /\ (ok = true -> behind B w' pin) /\
    (behind B w pin -> ok = false) /\
    o_key_ctx_bi opt' = o_key_ctx_bi opt /\ o_flags opt' = o_flags opt.
Proof.
  intros Ep HB Hsim Hev. unfold decrypt_replay. rewrite Ep.
  destruct (packet_id_receive_sim B (now, pin) _ w Hsim HB Hev) as (ok & rec' & E & _ & Hs & _).
  simpl in E, Hs. rewrite E. simpl. set (pid' := Pid (pid_send pid) rec'). destruct ok.
  - destruct Hs as [Ha Hs].
    assert (behind B w pin -> true = false) as Hno
      by (intros Hb; apply behind_rejected in Hb; congruence).
    destruct (o_pid_persist opt) as [pp|]; [destruct (long_form_of _)|];
      eexists true, _, pid', (window_add w pin);
      split_and!; eauto using behind_window_add, window_add_behind.
  - eexists false, _, pid', w. split_and!; eauto; done.
Qed.

Lemma decrypt_replay_spent now pin opt opt' :
  (exists pid, o_packet_id opt = Some pid /\ rec_ok (pid_rec pid)) -> event_valid (now, pin) ->
  decrypt_replay now (Some pin) opt = Ok (true, opt') -> spent opt' pin.
Proof.
  intros (pid & Ep & B & w & HB & Hsim) Hev E.
  destruct (decrypt_replay_sim now pin opt pid B w) as (ok & o & pid' & w' & E' & ? & ? & _ & Hb & _);
    auto. rewrite E in E'. injection E' as <- <-. exists pid', B, w'. auto.
Qed.

Lemma decrypt_replay_all_spent evs opt opt' pin :
  Forall event_valid evs -> spent opt pin -> decrypt_replay_all evs opt = Ok opt' ->
  spent opt' pin /\ o_key_ctx_bi opt' = o_key_ctx_bi opt /\ o_flags opt' = o_flags opt.
Proof.
  intros Hev. revert opt.
  induction Hev as [|[now x] evs Hv _ IH]; intros opt Hs; cbn [decrypt_replay_all].
  { by intros [= <-]. }
  destruct Hs as (pid & B & w & Ep & HB & Hsim & Hb).
  destruct (decrypt_replay_sim now x opt pid B w) as (ok & o & pid' & w' & -> & ? & ? & Hk & _ & _ & Hk1 & Hf1);
    auto. cbn [mbind result_bind]. intros E. rewrite <- Hk1, <- Hf1. apply IH; [|done].
  exists pid', B, w'. auto.
Qed.

Lemma decrypt_replay_keeps now pin opt ok opt' :
  decrypt_replay now (Some pin) opt = Ok (ok, opt') ->
  o_key_ctx_bi opt' = o_key_ctx_bi opt /\ o_flags opt' = o_flags opt.
Proof.
  unfold decrypt_replay. destruct (o_packet_id opt) as [pid|]; [|done].
  destruct (packet_id_receive _ _ _) as [[[] ?]| |]; simpl; [|by intros [= <- <-]|done..].
  destruct (o_pid_persist opt); [destruct (long_form_of _)|]; by intros [= <- <-].
Qed.

(** C5: a captured packet cannot be replayed.  Once openvpn_decrypt has accepted a
    packet, the same bytes are dropped whenever they arrive again, whatever
    other packets have been checked in between, at whatever times. *)
Theorem replayed_packet_dropped now now2 fill h p b bs q w ws opt opt1 opt2 ctx f pin payload evs :
  let room := b_capacity w - FRAME_HEADROOM_ADJ f FRAME_HEADROOM_MARKER_DECRYPT in
  decrypt_ready now opt ctx f w -> Forall is_byte bs -> bs <> [] ->
  open_packet ctx opt room bs = Some (Some pin, payload) ->
  decrypt_replay now (Some pin) opt = Ok (true, opt1) ->
  Forall event_valid evs -> decrypt_replay_all evs opt1 = Ok opt2 -> SEQ_EXPIRED < now2 ->
  buf_rep h p b bs -> buf_rep h q w ws -> blk q <> blk p ->
  wp (openvpn_decrypt now2 fill b w opt2 f)
     (fun r h' => exists b' opt3, r = (false, b', opt3) /\ b_len b' = 0) h.
Proof.
  intros room Hr Hby Hne Hopen Hacc Hev Hevs Hnow Hb Hw Hqp.
  pose proof Hr as [(enc & Hbi) Hh Hc Hpid Hnow1 Hroom].
  assert (pin_valid pin) as Hval by (eapply open_packet_pin_valid; eauto; intros; by apply Hc).
  edestruct (open_packet_has_pid ctx opt room bs) as [pid Ep]; eauto; [intros; by apply Hc|].
  assert (spent opt1 pin) as Hs1 by (eapply decrypt_replay_spent; eauto; by split).
  apply decrypt_replay_keeps in Hacc as [Hk1 Hf1].
  destruct (decrypt_replay_all_spent evs opt1 opt2 pin) as ((pid2 & B & W & Ep2 & HB & Hsim & Hbeh) & Hk2 & Hf2);
    auto. rewrite Hk1 in Hk2. rewrite Hf1 in Hf2.
  assert (open_packet ctx opt2 room bs = Some (Some pin, payload)) as Hopen2.
  { rewrite <- Hopen. unfold open_packet, use_iv_of, long_form_of.
    rewrite Hf2, !bool_decide_true by eauto. done. }
  assert (decrypt_ready now2 opt2 ctx f w) as Hr2.
  { split; auto; [exists enc; congruence| |].
    - intros c Ec. destruct (Hc c Ec) as [? Hm]. split; [done|].
      unfold mode_ok, use_iv_of in *. rewrite Hf2. destruct (c_mode c); try done; split; eauto; apply Hm.
    - intros ? [= <-]%(eq_trans (eq_sym Ep2)). by exists B, W. }
  eapply wp_mono; [eapply (wp_openvpn_decrypt now2 fill h p b bs q w ws opt2 ctx f); eauto|].
  { fold room. rewrite Hopen2. intros ?? [= <- _]. done. }
  fold room. rewrite Hopen2. intros [[ok b'] opt3] h' (_ & E & Hok).
  destruct (decrypt_replay_sim now2 pin opt2 pid2 B W) as (ok' & o' & ? & ? & E' & _ & _ & _ & _ & Hrej & _);
    auto; [by split|].
  rewrite E in E'. injection E' as <- <-. specialize (Hrej Hbeh). subst ok. eauto.
Qed.

(** ** CFB and OFB ciphers *)

(** What OpenSSL documents of a stream mode: every byte comes out of
    EVP_CipherUpdate, and EVP_CipherFinal has nothing left to write. *)
Record stream_ok (c : cipher_ctx) : Prop := {
  sk_mode : c_mode c = EVP_CIPH_CFB_MODE \/ c_mode c = EVP_CIPH_OFB_MODE;
  sk_iv : packet_id_size true <= c_iv_length c <= EVP_MAX_IV_LENGTH;
  sk_block : c_block_size c = 1;
  sk_init : forall iv, c_init c iv = true;
  sk_update : forall iv m, exists o, c_update c iv m = Some o /\ Zlen o = Zlen m;
  sk_final : forall iv m, c_final c iv m = Some []
}.

Lemma wp_encrypt_iv_stream SHA1 now nonce c ivp h b opt pid :
  stream_ok c -> use_iv_of opt = true -> o_packet_id opt = Some pid ->
  is_u32 (send_id (pid_send pid)) -> iv_array h ivp ->
  wp (encrypt_iv SHA1 now nonce c ivp b opt)
     (fun r h' => exists nonce' opt', r = (nonce', b, opt') /\ keeps [blk ivp] h h' /\
        iv_array h' ivp) h.
Proof.
  intros [Hmode Hiv _ _ _ _] Hui Ep Hs Harr. unfold encrypt_iv.
  pose proof (alloc_outgoing_spec now (pid_send pid) true Hs) as [t Ha].
  set (E := ASSERT _ ≫= _).
  assert (match c_mode c with
          | EVP_CIPH_CBC_MODE => _ | EVP_CIPH_CFB_MODE | EVP_CIPH_OFB_MODE => E
          | other_mode => lift AssertFail end = E) as -> by (by destruct Hmode as [-> | ->]).
  subst E. rewrite Hui, Ep. wp_steps. eapply wp_lift; [unfold alloc_pin; rewrite Ha; done|]. wp_steps.
  unfold EVP_MAX_IV_LENGTH, packet_id_size in Hiv.
  apply wp_store_iv; [done|rewrite Zlen_replicate; unfold EVP_MAX_IV_LENGTH; lia|].
  intros h1 Hl1 _ Harr1 Hk1. rewrite Zlen_replicate, Z2Nat.id in Hl1 by lia. unfold buf_set_write.
  replace (c_iv_length c >? 0) with true by lia. wp_steps.
  apply wp_store_iv; [done|done|]. intros h2 _ Hm2 Harr2 Hk2. wp_steps.
  assert (buf_rep h2 ivp (Buf (c_iv_length c) 0 0 (Some ivp)) []) as Hb.
  { split; simpl; try done; [|unfold BUF_MAX; lia|].
    - apply iv_array_prefix; unfold EVP_MAX_IV_LENGTH; auto; lia.
    - destruct Harr2 as [x Hx]. rewrite ptr_add_0, (mload_prefix _ _ _ _ 0 Hx); [done|].
      unfold EVP_MAX_IV_LENGTH. lia. }
  unfold packet_id_write. wp_steps.
  wp_use wp_buf_write; [rewrite Zlen_be_enc4; buf_simpl; lia|].
  intros [ok b1] h3 ([= -> ->] & Hb3 & Hm3). rewrite Zlen_be_enc4 in *. wp_steps.
  wp_use wp_buf_write; [rewrite Zlen_be_enc4; buf_simpl; lia|].
  intros [ok b2] h4 ([= -> ->] & Hb4 & Hm4). wp_steps. eexists _, _. split; [done|]. split.
  - eapply keeps_trans; [exact Hk1|]. eapply keeps_trans; [exact Hk2|].
    eapply keeps_trans; eapply modifies_keeps; eauto; by left.
  - eapply iv_array_modifies; [exact Hm4|]. by eapply iv_array_modifies.
Qed.

(** With a CFB or OFB cipher the sender aborts on its first packet.
    ASSERT (outlen == iv_size) after EVP_CipherFinal compares the length of the
    last block with the IV size, which a stream mode never meets. *)
Theorem encrypt_stream_mode_aborts SHA1 now fill nonce h p b bs q w ws opt ctx dec c f pid :
  o_key_ctx_bi opt = Some (KeyCtxBi ctx dec) -> k_cipher ctx = Some c -> stream_ok c ->
  use_iv_of opt = true -> o_packet_id opt = Some pid -> is_u32 (send_id (pid_send pid)) ->
  0 <= FRAME_HEADROOM f -> FRAME_HEADROOM f + b_len b + 1 <= b_capacity w ->
  buf_rep h p b bs -> bs <> [] -> buf_rep h q w ws -> blk q <> blk p ->
  openvpn_encrypt SHA1 now fill nonce b w opt f h = AssertFail.
Proof.
  intros Hbi Ec Hok Hui Ep Hs Hhr Hcap Hb Hne Hw Hqp. pose proof Hok as [_ Hiv Hblk Hinit Hu Hfin].
  assert (0 < b_len b) as Hlen.
  { rewrite <- (buf_rep_Zlen _ _ _ _ Hb). destruct bs; [done|]. rewrite Zlen_cons.
    pose proof (Zlen_nonneg bs). lia. }
  unfold openvpn_encrypt. rewrite Hbi. cbn [k_encrypt]. rewrite Ec.
  replace (b_len b >? 0) with true by lia. apply aborts_here. unfold encrypt_cipher.
  apply aborts_later, wp_alloc. intros ivp h1 Hl1 Hf.
  rewrite Zlen_indeterminate in Hl1 by (unfold EVP_MAX_IV_LENGTH; lia).
  pose proof (buf_rep_fresh_ne _ _ _ _ _ _ Hf Hb). pose proof (buf_rep_fresh_ne _ _ _ _ _ _ Hf Hw).
  apply (buf_rep_fresh_ext _ _ _ _ _ _ Hf) in Hb. apply (buf_rep_fresh_ext _ _ _ _ _ _ Hf) in Hw.
  apply aborts_later. wp_use wp_encrypt_iv_stream; [by eexists|].
  intros r h2 (nonce' & opt' & -> & Hk2 & Harr2).
  assert (buf_rep h2 p b bs) as Hb2 by (eapply buf_rep_keeps; [exact Hk2|set_solver|done]).
  assert (buf_rep h2 q w ws) as Hw2 by (eapply buf_rep_keeps; [exact Hk2|set_solver|done]).
  destruct (buf_init_spec h2 q w ws (FRAME_HEADROOM f)) as [-> Hw3]; [done|lia|].
  apply aborts_later, wp_ASSERT; [done|]. unfold packet_id_size in Hiv.
  destruct (iv_array_prefix h2 ivp (c_iv_length c)) as [iv Hliv]; [done|lia|].
  apply aborts_later. eapply wp_load; [exact Hliv|]. apply aborts_later, wp_ASSERT; [done|].
  assert (b_capacity w <= BUF_MAX) as Hmax by apply Hw2. unfold BUF_MAX in Hmax.
  rewrite Hblk, (i32_id (b_len b + 1)) by (unfold is_i32; lia).
  rewrite (buf_safe_spec h2 q _ []) by (auto; unfold BUF_MAX; lia). buf_simpl.
  replace (_ && _) with true by lia. cbn [negb]. erewrite (BPTR_rep h2 p b) by eauto.
  apply aborts_later, wp_deref, aborts_later. eapply wp_load; [by apply br_bytes|].
  destruct (Hu iv bs) as (o & Eo & Hlo). apply aborts_later. eapply wp_lift; [by rewrite Eo|].
  apply aborts_later. eapply wp_lift; [by rewrite Hfin|].
  apply aborts_later. pose proof (buf_rep_Zlen _ _ _ _ Hb2).
  wp_use wp_cipher_into; [buf_simpl; rewrite Zlen_nil; lia|]. intros w4 h4 _.
  apply aborts_here. rewrite Zlen_nil. by replace (0 =? c_iv_length c) with false by lia.
Qed.

(** ** Concrete channels for the witnesses: a padding cipher, a checksum for the
    HMAC, packet ids in long form and IVs. *)

Definition ex_hmac : hmac_ctx := Hmac 1 (fun m => [u8 (foldr Z.add 17 m)]).
Definition ex_enc : cipher_ctx :=
  Cipher EVP_CIPH_CBC_MODE 1 1 (fun _ => true) (fun _ m => Some m) (fun _ _ => Some [0]).
Definition ex_dec : cipher_ctx :=
  Cipher EVP_CIPH_CBC_MODE 1 1 (fun _ => true)
    (fun _ m => Some (take (length m - 1) m)) (fun _ _ => Some []).
Definition ex_stream : cipher_ctx :=
  Cipher EVP_CIPH_CFB_MODE 8 1 (fun _ => true) (fun _ m => Some m) (fun _ _ => Some []).
Definition ex_ectx : key_ctx := KeyCtx (Some ex_enc) (Some ex_hmac).
Definition ex_dctx : key_ctx := KeyCtx (Some ex_dec) (Some ex_hmac).
Definition ex_pid : packet_id := Pid (Send 0 0) (Rec 0 0 0 64 15 true (Some (CIRC_LIST_ALLOC 0 64))).
Definition ex_opt (ctx : key_ctx) : crypto_options :=
  Opt (Some (KeyCtxBi ctx ex_dctx)) (Some ex_pid) None (Z.lor CO_PACKET_ID_LONG_FORM CO_USE_IV).
Definition ex_sha1 (_ : list byte) : list byte := replicate 20 9.
Definition ex_nonce : list byte := replicate 36 0.

Definition ex_blocks : heap :=
  {[1%positive := replicate 200 7; 2%positive := replicate 200 0; 3%positive := replicate 200 0]}.
Definition ex_b : buffer := Buf 200 64 4 (Some (Ptr 1 0)).
Definition ex_w : buffer := Buf 200 0 0 (Some (Ptr 2 0)).
Definition ex_w2 : buffer := Buf 200 0 0 (Some (Ptr 3 0)).

Ltac ex_rep :=
  split; try reflexivity; unfold BUF_MAX;
  cbn [b_capacity b_offset b_len b_data]; try lia; eexists; reflexivity.
Lemma ex_b_rep : buf_rep ex_blocks (Ptr 1 0) ex_b [7; 7; 7; 7].
Proof. unfold ex_b. ex_rep. Qed.
Lemma ex_w_rep : buf_rep ex_blocks (Ptr 2 0) ex_w [].
Proof. unfold ex_w. ex_rep. Qed.
Lemma ex_w2_rep : buf_rep ex_blocks (Ptr 3 0) ex_w2 [].
Proof. unfold ex_w2. ex_rep. Qed.

Lemma ex_hmac_ok : hmac_ok ex_hmac.
Proof. split; simpl; [lia|done]. Qed.

Lemma ex_enc_ok : encipher_ok ex_enc.
Proof.
  split; simpl; unfold EVP_MAX_IV_LENGTH; try done; try lia.
  intros iv m. exists m, [0]. done.
Qed.

Lemma ex_dec_ok : decipher_ok ex_dec.
Proof.
  split; simpl; unfold EVP_MAX_IV_LENGTH; try lia.
  - intros iv m o [= <-]. unfold Zlen. rewrite length_take. lia.
  - intros iv m o1 o2 [= <-] [= <-]. unfold Zlen. rewrite length_take. simpl. lia.
  - intros iv m Hm. split; [by apply Forall_take|done].
Qed.

Lemma ex_inverse : inverse_ctx ex_ectx ex_dctx.
Proof.
  split; [done|]. simpl. split_and!; try done.
  intros iv m ct [= <-]. unfold run_cipher. simpl. split; [|by destruct m].
  rewrite length_app, app_nil_r. simpl. rewrite Nat.add_sub. by rewrite take_app_length.
Qed.

Lemma ex_rec_ok : rec_ok (pid_rec ex_pid).
Proof. by apply (rec_ok_init 64 15 ex_pid). Qed.

Lemma ex_decrypt_ready ctx w : b_capacity w = 200 -> decrypt_ready 1000 (ex_opt ctx) ex_dctx ex_frame w.
Proof.
  intros Hw. split; simpl; try done.
  - by eexists.
  - intros x [= <-]. apply ex_hmac_ok.
  - intros c [= <-]. by split; [apply ex_dec_ok|].
  - intros pid [= <-]. apply ex_rec_ok.
  - rewrite Hw. vm_compute. by split.
Qed.

Lemma ex_encrypt_ready :
  exists opt', alloc_pin 1000 (ex_opt ex_ectx) ex_pid true = Ok (opt', Pin 1 1000) /\
    encrypt_ready ex_sha1 1000 ex_nonce (ex_opt ex_ectx) ex_ectx ex_frame ex_b ex_w
      (pin_bytes (Pin 1 1000) true) opt'.
Proof.
  eexists. split; [reflexivity|]. split; try done.
  - by eexists.
  - intros x [= <-]. apply ex_hmac_ok.
  - intros c [= <-]. split; [apply ex_enc_ok|]. by vm_compute.
  - eexists. by split.
Qed.

(** The packet the example channel sends first. *)
Definition ex_packet : list byte :=
  Eval vm_compute in seal_packet ex_ectx true [9] (pin_bytes (Pin 1 1000) true) [7; 7; 7; 7].
Definition ex_pb : buffer := Eval vm_compute in Buf 200 64 (Zlen ex_packet) (Some (Ptr 1 0)).
Definition ex_packet_blocks : heap :=
  {[1%positive := splice 64 ex_packet (replicate 200 7); 2%positive := replicate 200 0]}.
Lemma ex_pb_rep : buf_rep ex_packet_blocks (Ptr 1 0) ex_pb ex_packet.
Proof. unfold ex_pb. ex_rep. Qed.
Lemma ex_pw_rep : buf_rep ex_packet_blocks (Ptr 2 0) ex_w [].
Proof. unfold ex_w. ex_rep. Qed.
Lemma ex_packet_bytes : Forall is_byte ex_packet.
Proof. repeat (constructor; [unfold is_byte; lia|]). constructor. Qed.

Lemma openvpn_decrypt_refines_witness :
  exists opt',
  wp (openvpn_decrypt 1000 (fun _ => 0) ex_pb ex_w (ex_opt ex_ectx) ex_frame)
     (fun r h' => let '(ok, b', o) := r in
        ok = true /\ o = opt' /\ exists s, buf_rep h' s b' [7; 7; 7; 7]) ex_packet_blocks.
Proof.
  eexists. eapply wp_mono.
  { apply (openvpn_decrypt_refines 1000 (fun _ => 0) ex_packet_blocks (Ptr 1 0) ex_pb ex_packet
      (Ptr 2 0) ex_w [] (ex_opt ex_ectx) ex_dctx ex_frame).
    - by apply ex_decrypt_ready.
    - exact ex_pb_rep.
    - done.
    - exact ex_packet_bytes.
    - exact ex_pw_rep.
    - done. }
  intros [[ok b'] o] h' [_ H]. vm_compute (open_packet _ _ _ _) in H.
  destruct H as [E H]. vm_compute in E. injection E as <- <-.
  split; [done|]. split; [reflexivity|]. destruct H as (s & _ & H). by exists s.
Defined.

Lemma unauthenticated_packet_dropped_witness :
  wp (openvpn_decrypt 1000 (fun _ => 0) ex_b ex_w (ex_opt ex_ectx) ex_frame)
     (fun r h' => keeps [2%positive] ex_blocks h' /\
        exists b', r = (false, b', ex_opt ex_ectx) /\ b_len b' = 0) ex_blocks.
Proof.
  apply (unauthenticated_packet_dropped 1000 (fun _ => 0) ex_blocks (Ptr 1 0) ex_b [7; 7; 7; 7]
    (Ptr 2 0) ex_w [] (ex_opt ex_ectx) ex_dctx ex_frame ex_hmac);
    [by apply ex_decrypt_ready | exact ex_b_rep | done | exact ex_w_rep | done | done | done].
Defined.

Lemma replayed_packet_dropped_witness :
  exists opt1 opt2,
    decrypt_replay 1000 (Some (Pin 1 1000)) (ex_opt ex_ectx) = Ok (true, opt1) /\
    decrypt_replay_all [(1001, Pin 2 1000); (1002, Pin 40 1000)] opt1 = Ok opt2 /\
    wp (openvpn_decrypt 1003 (fun _ => 0) ex_pb ex_w opt2 ex_frame)
       (fun r h' => exists b' opt3, r = (false, b', opt3) /\ b_len b' = 0) ex_packet_blocks.
Proof.
  eexists _, _. split; [vm_compute; reflexivity|]. split; [vm_compute; reflexivity|].
  eapply (replayed_packet_dropped 1000 1003 (fun _ => 0) ex_packet_blocks (Ptr 1 0) ex_pb ex_packet
    (Ptr 2 0) ex_w [] (ex_opt ex_ectx) _ _ ex_dctx ex_frame (Pin 1 1000) [7; 7; 7; 7]
    [(1001, Pin 2 1000); (1002, Pin 40 1000)]).
  - by apply ex_decrypt_ready.
  - exact ex_packet_bytes.
  - done.
  - vm_compute; reflexivity.
  - vm_compute; reflexivity.
  - repeat constructor; unfold SEQ_EXPIRED, is_u32; simpl; lia.
  - vm_compute; reflexivity.
  - reflexivity.
  - exact ex_pb_rep.
  - exact ex_pw_rep.
  - done.
Defined.

Lemma encrypt_stream_mode_aborts_witness :
  openvpn_encrypt ex_sha1 1000 (fun _ => 0) ex_nonce ex_b ex_w
    (ex_opt (KeyCtx (Some ex_stream) None)) ex_frame ex_blocks = AssertFail.
Proof.
  apply (encrypt_stream_mode_aborts ex_sha1 1000 (fun _ => 0) ex_nonce ex_blocks (Ptr 1 0) ex_b
    [7; 7; 7; 7] (Ptr 2 0) ex_w [] _ (KeyCtx (Some ex_stream) None) ex_dctx ex_stream ex_frame ex_pid);
    try reflexivity; try (by vm_compute);
    try exact ex_b_rep; try exact ex_w_rep.
  split; simpl; try done; [by left|].
  intros iv m. by exists m.
Defined.

Lemma decrypt_encrypt_witness :
  wp ('(_, b1, _) ← openvpn_encrypt ex_sha1 1000 (fun _ => 0) ex_nonce ex_b ex_w (ex_opt ex_ectx) ex_frame;
      openvpn_decrypt 1000 (fun _ => 0) b1 ex_w2 (ex_opt ex_ectx) ex_frame)
     (fun res h' => let '(ok, b2, _) := res in
        ok = true /\ exists s, buf_rep h' s b2 [7; 7; 7; 7]) ex_blocks.
Proof.
  destruct ex_encrypt_ready as (sopt' & Ea & Her). eapply wp_mono.
  { apply (decrypt_encrypt ex_sha1 1000 (fun _ => 0) ex_nonce ex_blocks (Ptr 1 0) ex_b [7; 7; 7; 7]
      (Ptr 2 0) ex_w [] (Ptr 3 0) ex_w2 [] (ex_opt ex_ectx) ex_ectx ex_frame ex_pid (Pin 1 1000) sopt'
      1000 (fun _ => 0) (ex_opt ex_ectx) ex_dctx ex_frame); try reflexivity.
    - exact Her.
    - exact Ea.
    - by vm_compute.
    - by vm_compute.
    - by apply ex_decrypt_ready.
    - exact ex_inverse.
    - by eexists.
    - intros c [= <-]. by vm_compute.
    - exact ex_b_rep.
    - done.
    - exact ex_w_rep.
    - exact ex_w2_rep.
    - done.
    - done.
    - done. }
  intros [[ok b2] o] h' [E H]. vm_compute in E. injection E as <- _.
  split; [done|]. by apply H.
Defined.
