(* ===== verification/Reliable.v ===== *)
(** src/session_id.h, src/reliable.h and src/reliable.c: the reliability layer of
    the TLS control channel: acknowledgement records, the send and receive
    buffers, and the receive step of tls_pre_decrypt (src/ssl.c) that drives them.

    A [struct buffer *] the C code takes from an entry is the entry's index.
    [now] is an argument.  Debug messages are left out, and so is the
    EXPONENTIAL_BACKOFF variant, which the source does not define. *)

From S2P Require Import Prelude Buffer Integer PacketId Mtu.

(** ** session_id.h *)

Definition SID_SIZE : Z := 8.
Definition session_id := list byte.
Definition x_session_id_zero : session_id := replicate 8 0.

Definition session_id_equal (sid1 sid2 : session_id) : bool := bool_decide (sid1 = sid2).
Definition session_id_defined (sid1 : session_id) : bool :=
  negb (bool_decide (sid1 = x_session_id_zero)).
Definition session_id_read (buf : buffer) : M (option session_id * buffer) := buf_read buf SID_SIZE.
Definition session_id_write_prepend (sid : session_id) (buf : buffer) : M (bool * buffer) :=
  buf_write_prepend buf sid.
Definition session_id_write (sid : session_id) (buf : buffer) : M (bool * buffer) :=
  buf_write buf sid.

(** ** Acknowledgements: the list is packet_id[0 .. len-1] *)

Definition RELIABLE_ACK_SIZE : Z := 8.
Definition reliable_ack := list Z.

Definition reliable_ack_empty (ack : reliable_ack) : bool := Zlen ack =? 0.

Definition reliable_ack_packet_id_present (ack : reliable_ack) (pid : Z) : bool :=
  existsb (fun x => x =? pid) ack.

Definition reliable_ack_read_packet_id (buf : buffer) : M (option Z * buffer) :=
  '(net_pid, buf) ← buf_read buf 4;
  mret (be_dec <$> net_pid, buf).

Definition reliable_ack_acknowledge_packet_id (ack : reliable_ack) (pid : Z) : bool * reliable_ack :=
  if negb (reliable_ack_packet_id_present ack pid) && (Zlen ack <? RELIABLE_ACK_SIZE)
  then (true, ack ++ [pid]) else (false, ack).

(** for (i = 0; i < count; ++i) of reliable_ack_read, [n] rounds left. *)
Fixpoint ack_read_ids (n : nat) (ack : reliable_ack) (buf : buffer)
  : M (bool * reliable_ack * buffer) :=
  match n with
  | O => mret (true, ack, buf)
  | S k =>
      '(net_pid, buf) ← buf_read buf 4;
      match net_pid with
      | None => mret (false, ack, buf)
      | Some bs =>
          if Zlen ack >=? RELIABLE_ACK_SIZE then mret (false, ack, buf)
          else ack_read_ids k (ack ++ [be_dec bs]) buf
      end
  end.

Definition reliable_ack_read (ack : reliable_ack) (buf : buffer) (sid : session_id)
  : M (bool * reliable_ack * buffer) :=
  '(cb, buf) ← buf_read buf 1;
  match cb with
  | None => mret (false, ack, buf)
  | Some cb =>
      let count := be_dec cb in
      '(ok, ack, buf) ← ack_read_ids (Z.to_nat count) ack buf;
      if negb ok then mret (false, ack, buf)
      else if negb (count =? 0) then
        '(session_id_remote, buf) ← session_id_read buf;
        match session_id_remote with
        | None => mret (false, ack, buf)
        | Some remote =>
            mret (negb (negb (session_id_defined remote) || negb (session_id_equal remote sid)),
                  ack, buf)
        end
      else mret (true, ack, buf)
  end.

Definition ACK_SIZE (n : Z) : Z := 1 + (if negb (n =? 0) then SID_SIZE else 0) + 4 * n.

Fixpoint ack_write_ids (ids : list Z) (sub : buffer) : M buffer :=
  match ids with
  | [] => mret sub
  | pid :: r =>
      '(ok, sub) ← buf_write sub (be_enc 4 pid);
      _ ← ASSERT ok;
      ack_write_ids r sub
  end.

Definition reliable_ack_write (ack : reliable_ack) (buf : buffer) (sid : session_id)
  (max : Z) (prepend : bool) : M (bool * reliable_ack * buffer) :=
  let n := u8 (Zlen ack) in
  let n := if n >? max then u8 max else n in
  let '(sub, buf) := buf_sub buf (ACK_SIZE n) prepend in
  if negb (BDEF sub) then mret (false, ack, buf)
  else
    '(ok, sub) ← buf_write sub [n];
    _ ← ASSERT ok;
    sub ← ack_write_ids (take (Z.to_nat n) ack) sub;
    if negb (n =? 0) then
      _ ← ASSERT (session_id_defined sid);
      '(ok, sub) ← session_id_write sid sub;
      _ ← ASSERT ok;
      mret (true, drop (Z.to_nat n) ack, buf)
    else mret (true, ack, buf).

Definition reliable_ack_adjust_frame_parameters (f : frame) (max : Z) : frame :=
  frame_add_to_extra_frame f (ACK_SIZE max).

(** ** struct reliable *)

Definition RELIABLE_CAPACITY : Z := 8.
Definition BIG_TIMEOUT : Z := 60 * 60 * 24 * 7.

Record reliable_entry := Entry {
  active : bool;
  timeout : Z;
  next_try : Z;
  packet_id_ : Z;
  opcode : Z;
  e_buf : buffer
}.

(** [array] holds the first [size] entries, the only ones the code touches. *)
Record reliable := Rel {
  initial_timeout : Z;
  rel_packet_id : Z;
  rel_offset : Z;
  array : list reliable_entry
}.

Definition rel_size (rel : reliable) : Z := Zlen (array rel).

Definition clear_entry : reliable_entry := Entry false 0 0 0 0 clear_buf.

Definition set_array (rel : reliable) (l : list reliable_entry) : reliable :=
  Rel (initial_timeout rel) (rel_packet_id rel) (rel_offset rel) l.
Definition set_entry (rel : reliable) (i : nat) (e : reliable_entry) : reliable :=
  set_array rel (<[i := e]> (array rel)).
Definition set_active (e : reliable_entry) (a : bool) : reliable_entry :=
  Entry a (timeout e) (next_try e) (packet_id_ e) (opcode e) (e_buf e).
Definition set_entry_buf (e : reliable_entry) (b : buffer) : reliable_entry :=
  Entry (active e) (timeout e) (next_try e) (packet_id_ e) (opcode e) b.
Definition set_times (e : reliable_entry) (next tmo : Z) : reliable_entry :=
  Entry (active e) tmo next (packet_id_ e) (opcode e) (e_buf e).

(** The first entry that satisfies a test: for (i = 0; i < rel->size; ++i). *)
Fixpoint find_from (f : reliable_entry -> bool) (i : nat) (l : list reliable_entry) : option nat :=
  match l with
  | [] => None
  | e :: r => if f e then Some i else find_from f (S i) r
  end.
Definition find_entry (f : reliable_entry -> bool) (rel : reliable) : option nat :=
  find_from f 0 (array rel).

Definition reliable_set_timeout (rel : reliable) (tmo : Z) : reliable :=
  Rel tmo (rel_packet_id rel) (rel_offset rel) (array rel).

Fixpoint init_entries (fill : Z -> Z) (n : nat) (buf_size offset : Z) : M (list reliable_entry) :=
  match n with
  | O => mret []
  | S k =>
      b ← alloc_buf fill buf_size;
      let '(ok, b) := buf_init b offset in
      _ ← ASSERT ok;
      l ← init_entries fill k buf_size offset;
      mret (set_entry_buf clear_entry b :: l)
  end.
Definition reliable_init (fill : Z -> Z) (buf_size offset array_size : Z) : M reliable :=
  _ ← ASSERT ((array_size >? 0) && (array_size <=? RELIABLE_CAPACITY));
  l ← init_entries fill (Z.to_nat array_size) buf_size offset;
  mret (Rel 0 0 offset l).

Fixpoint free_entries (l : list reliable_entry) : M (list reliable_entry) :=
  match l with
  | [] => mret []
  | e :: r => b ← free_buf (e_buf e); r ← free_entries r; mret (set_entry_buf e b :: r)
  end.
Definition reliable_free (rel : reliable) : M reliable :=
  l ← free_entries (array rel); mret (set_array rel l).

Definition reliable_empty (rel : reliable) : bool :=
  match find_entry active rel with Some _ => false | None => true end.

(** del acknowledged items from send buf *)
Definition purge_one (rel : reliable) (pid : Z) : reliable :=
  match find_entry (fun e => active e && (packet_id_ e =? pid)) rel with
  | Some j => match array rel !! j with
              | Some e => set_entry rel j (set_active e false)
              | None => rel
              end
  | None => rel
  end.
Definition reliable_send_purge (rel : reliable) (ack : reliable_ack) : reliable :=
  foldl purge_one rel ack.

Definition reliable_can_get (rel : reliable) : bool :=
  match find_entry (fun e => negb (active e)) rel with Some _ => true | None => false end.

Definition reliable_not_replay (rel : reliable) (id : Z) : bool :=
  if id <? rel_packet_id rel then false
  else match find_entry (fun e => active e && (packet_id_ e =? id)) rel with
       | Some _ => false | None => true end.

(** (int)id < (int)rel->packet_id + rel->size *)
Definition reliable_wont_break_sequentiality (rel : reliable) (id : Z) : bool :=
  i32 id <? i32 (i32 (rel_packet_id rel) + rel_size rel).

Definition reliable_get_buf (rel : reliable) : result (option nat * reliable) :=
  match find_entry (fun e => negb (active e)) rel with
  | Some i =>
      match array rel !! i with
      | Some e =>
          let '(ok, b) := buf_init (e_buf e) (rel_offset rel) in
          _ ← assert_ ok;
          Ok (Some i, set_entry rel i (set_entry_buf e b))
      | None => Fault
      end
  | None => Ok (None, rel)
  end.

(** The minimum active packet_id, None for !min_id_defined. *)
Definition min_active (l : list reliable_entry) : option Z :=
  foldl (fun m e =>
    if active e then
      match m with
      | Some min_id => if packet_id_ e <? min_id then Some (packet_id_ e) else m
      | None => Some (packet_id_ e)
      end
    else m) None l.

Definition reliable_get_buf_output_sequenced (rel : reliable) : result (option nat * reliable) :=
  match min_active (array rel) with
  | Some min_id =>
      if i32 (u32 (rel_packet_id rel - min_id)) <? rel_size rel
      then reliable_get_buf rel else Ok (None, rel)
  | None => reliable_get_buf rel
  end.

Definition reliable_get_buf_sequenced (rel : reliable) : option nat :=
  find_entry (fun e => active e && (packet_id_ e =? rel_packet_id rel)) rel.

Definition reliable_can_send (now : Z) (rel : reliable) : bool :=
  match find_entry (fun e => active e && (now >=? next_try e)) rel with
  | Some _ => true | None => false end.

(** The loop of reliable_send: the least active packet id that is due. *)
Fixpoint best_from (now : Z) (i : nat) (best : option (nat * reliable_entry))
  (l : list reliable_entry) : option (nat * reliable_entry) :=
  match l with
  | [] => best
  | e :: r =>
      let best' :=
        if active e && (now >=? next_try e) then
          match best with
          | Some (_, b) => if packet_id_ e <? packet_id_ b then Some (i, e) else best
          | None => Some (i, e)
          end
        else best in
      best_from now (S i) best' r
  end.

Definition reliable_send (now : Z) (rel : reliable) : option (nat * Z) * reliable :=
  match best_from now 0 None (array rel) with
  | Some (i, e) =>
      (Some (i, opcode e), set_entry rel i (set_times e (now + timeout e) (timeout e)))
  | None => (None, rel)
  end.

Definition reliable_schedule_now (now : Z) (rel : reliable) : reliable :=
  set_array rel
    ((fun e => if active e then set_times e now (initial_timeout rel) else e) <$> array rel).

(** interval_t is int: the subtraction of two time_t is converted to int. *)
Fixpoint send_timeout_from (local_now ret : Z) (l : list reliable_entry) : Z :=
  match l with
  | [] => ret
  | e :: r =>
      if active e then
        if next_try e <=? local_now then 0
        else send_timeout_from local_now (min_int ret (i32 (next_try e - local_now))) r
      else send_timeout_from local_now ret r
  end.
Definition reliable_send_timeout (now : Z) (rel : reliable) : Z :=
  send_timeout_from now BIG_TIMEOUT (array rel).

(** [buf] is the index of the entry whose buffer the caller holds. *)
Definition reliable_mark_active_incoming (rel : reliable) (buf : nat) (pid opcode_ : Z)
  : result reliable :=
  match array rel !! buf with
  | Some e =>
      _ ← assert_ (pid >=? rel_packet_id rel);
      Ok (set_entry rel buf (Entry true 0 0 pid opcode_ (e_buf e)))
  | None => AssertFail
  end.

Definition reliable_mark_active_outgoing (rel : reliable) (buf : nat) (opcode_ : Z) : M reliable :=
  match array rel !! buf with
  | Some e =>
      let pid := rel_packet_id rel in
      let rel := Rel (initial_timeout rel) (u32 (pid + 1)) (rel_offset rel) (array rel) in
      '(ok, b) ← buf_write_prepend (e_buf e) (be_enc 4 pid);
      _ ← ASSERT ok;
      mret (set_entry rel buf (Entry true (initial_timeout rel) 0 pid opcode_ b))
  | None => lift AssertFail
  end.

Definition reliable_mark_deleted (rel : reliable) (buf : nat) (inc_pid : bool) : result reliable :=
  match array rel !! buf with
  | Some e =>
      let rel := set_entry rel buf (set_active e false) in
      Ok (if inc_pid
          then Rel (initial_timeout rel) (u32 (packet_id_ e + 1)) (rel_offset rel) (array rel)
          else rel)
  | None => AssertFail
  end.

(** ** The receive step of tls_pre_decrypt (src/ssl.c): store an incoming control
    packet and acknowledge it.  [buf] holds the packet from its packet id on. *)

Definition rec_accept (rec_reliable : reliable) (rec_ack : reliable_ack) (buf : buffer) (op : Z)
  : M (reliable * reliable_ack * buffer) :=
  if reliable_can_get rec_reliable then
    '(id, buf) ← reliable_ack_read_packet_id buf;
    match id with
    | Some id =>
        if reliable_wont_break_sequentiality rec_reliable id then
          rec_reliable ←
            (if reliable_not_replay rec_reliable id then
               '(inp, rel) ← lift (reliable_get_buf rec_reliable);
               match inp with
               | None => lift AssertFail
               | Some i =>
                   e ← lift (from_opt (array rel !! i));
                   '(ok, b) ← buf_copy (e_buf e) buf;
                   _ ← ASSERT ok;
                   lift (reliable_mark_active_incoming (set_entry rel i (set_entry_buf e b)) i id op)
               end
             else mret rec_reliable);
          mret (rec_reliable, snd (reliable_ack_acknowledge_packet_id rec_ack id), buf)
        else mret (rec_reliable, rec_ack, buf)
    | None => mret (rec_reliable, rec_ack, buf)
    end
  else mret (rec_reliable, rec_ack, buf).

(** ** Lemmas: searching the entries *)

Lemma find_from_Some f i l j :
  find_from f i l = Some j ->
  (i <= j)%nat /\ exists e, l !! (j - i)%nat = Some e /\ f e = true.
Proof.
  revert i. induction l as [|e r IH]; intros i; simpl; [done|]. destruct (f e) eqn:E.
  - intros [= <-]. split; [done|]. rewrite Nat.sub_diag. eauto.
  - intros (? & e' & He & Hf)%IH. split; [lia|]. exists e'.
    replace (j - i)%nat with (S (j - S i)) by lia. done.
Qed.
Lemma find_from_None f i l : find_from f i l = None <-> Forall (fun e => f e = false) l.
Proof.
  revert i. induction l as [|e r IH]; intros i; simpl.
  { split; [constructor|done]. }
  rewrite Forall_cons_iff. specialize (IH (S i)). destruct (f e); naive_solver.
Qed.
Lemma find_entry_Some f rel j :
  find_entry f rel = Some j -> exists e, array rel !! j = Some e /\ f e = true.
Proof. intros [_ H]%find_from_Some. by rewrite Nat.sub_0_r in H. Qed.
Lemma find_entry_None f rel e i :
  find_entry f rel = None -> array rel !! i = Some e -> f e = false.
Proof. intros H%find_from_None He. by eapply Forall_lookup_1 in H. Qed.

Lemma reliable_not_replay_spec rel id :
  reliable_not_replay rel id = true <->
  rel_packet_id rel <= id /\
  forall i e, array rel !! i = Some e -> active e = true -> packet_id_ e <> id.
Proof.
  unfold reliable_not_replay. case_test; [split; [done|lia]|].
  destruct (find_entry _ rel) as [j|] eqn:Ef.
  - apply find_entry_Some in Ef as (e & He & Hf). apply andb_true_iff in Hf as [Ha Hp].
    bool_simp. split; [done|]. intros [_ H]. by destruct (H j e He Ha).
  - split; [|done]. intros _. split; [lia|]. intros i e He Ha Hp.
    apply (find_entry_None _ _ e i) in Ef; [|done]. cbn beta in Ef. by rewrite Ha, Hp, Z.eqb_refl in Ef.
Qed.

Lemma reliable_can_get_spec rel :
  reliable_can_get rel = false -> Forall (fun e => active e = true) (array rel).
Proof.
  unfold reliable_can_get. destruct (find_entry _ rel) eqn:E; [done|]. intros _.
  apply find_from_None in E. eapply Forall_impl; [|exact E]. intros e He. cbn beta in He. by destruct (active e).
Qed.

(** ** The receive buffers: representation *)

(** The packet with id [k] carries [payloads !! k].  [C] is the capacity of every
    entry's buffer, [ps] the entries' data pointers. *)
Record entry_rep (h : heap) (C : Z) (payloads : list (list byte)) (next size : Z)
  (p : ptr) (e : reliable_entry) : Prop := {
  en_data : b_data (e_buf e) = Some p;
  en_cap : b_capacity (e_buf e) = C;
  en_valid : is_Some (mload h p C);
  en_active : active e = true -> exists pl,
    payloads !! Z.to_nat (packet_id_ e) = Some pl /\ buf_rep h p (e_buf e) pl /\
    next <= packet_id_ e < next + size
}.

Record rec_rep (h : heap) (C : Z) (payloads : list (list byte)) (ps : list ptr) (rel : reliable)
  : Prop := {
  rr_size : 0 < rel_size rel <= RELIABLE_CAPACITY;
  rr_next : 0 <= rel_packet_id rel <= Zlen payloads;
  rr_max : Zlen payloads < 2147483648 - RELIABLE_CAPACITY;
  rr_offset : 0 <= rel_offset rel <= C;
  rr_C : C <= BUF_MAX;
  rr_room : Forall (fun pl => rel_offset rel + Zlen pl <= C) payloads;
  rr_blocks : NoDup (blk <$> ps);
  rr_len : length ps = length (array rel);
  rr_entries : forall i p e, ps !! i = Some p -> array rel !! i = Some e ->
    entry_rep h C payloads (rel_packet_id rel) (rel_size rel) p e;
  rr_ids : forall i j e e', array rel !! i = Some e -> array rel !! j = Some e' ->
    active e = true -> active e' = true -> packet_id_ e = packet_id_ e' -> i = j
}.

Lemma Zlen_insert {A} (l : list A) i x : Zlen (<[i := x]> l) = Zlen l.
Proof. unfold Zlen. by rewrite length_insert. Qed.

Lemma entry_rep_keeps bl h h' C payloads next size p e :
  keeps bl h h' -> blk p ∉ bl -> entry_rep h C payloads next size p e ->
  entry_rep h' C payloads next size p e.
Proof.
  intros K Hp [? ? [x Hx] Ha]. split; auto.
  - exists x. by apply K.
  - intros Hact. destruct (Ha Hact) as (pl & ? & ? & ?). exists pl. split_and!; try done; try lia.
    by eapply buf_rep_keeps.
Qed.

Lemma rec_rep_keeps bl h h' C payloads ps rel :
  keeps bl h h' -> Forall (fun p => blk p ∉ bl) ps -> rec_rep h C payloads ps rel ->
  rec_rep h' C payloads ps rel.
Proof.
  intros K Hps []. split; auto. intros i p e Hp He.
  eapply entry_rep_keeps; [exact K| |by eapply rr_entries0].
  by eapply Forall_lookup_1 in Hps.
Qed.

(** The window test, for ids that a sender with fewer than 2^31 - 8 packets uses. *)
Lemma wont_break_spec h C payloads ps rel id :
  rec_rep h C payloads ps rel -> 0 <= id < Zlen payloads ->
  reliable_wont_break_sequentiality rel id = (id <? rel_packet_id rel + rel_size rel).
Proof.
  intros [] Hid. unfold reliable_wont_break_sequentiality, RELIABLE_CAPACITY in *. by wrap_simp.
Qed.

Lemma rr_lookup h C payloads ps rel i e :
  rec_rep h C payloads ps rel -> array rel !! i = Some e ->
  exists p, ps !! i = Some p /\ entry_rep h C payloads (rel_packet_id rel) (rel_size rel) p e.
Proof.
  intros [] He. assert (is_Some (ps !! i)) as [p Hp].
  { apply lookup_lt_is_Some. rewrite rr_len0. by eapply lookup_lt_Some. }
  eauto.
Qed.

(** Two entries of different index have buffers in different blocks. *)
Lemma rr_disjoint h C payloads ps rel i j p q :
  rec_rep h C payloads ps rel -> ps !! i = Some p -> ps !! j = Some q -> i <> j -> blk p <> blk q.
Proof.
  intros Hr Hp Hq Hij Heq. apply Hij, (NoDup_lookup (blk <$> ps) i j (blk p)).
  - apply Hr.
  - by rewrite list_lookup_fmap, Hp.
  - by rewrite list_lookup_fmap, Hq, Heq.
Qed.

(** Replacing entry [i] by one that represents payload [id], in a heap that
    differs in the entry's block only. *)
Lemma rec_rep_set h h' C payloads ps rel i p e' :
  rec_rep h C payloads ps rel -> ps !! i = Some p -> keeps [blk p] h h' ->
  entry_rep h' C payloads (rel_packet_id rel) (rel_size rel) p e' ->
  (active e' = true -> forall j e, j <> i -> array rel !! j = Some e -> active e = true ->
     packet_id_ e <> packet_id_ e') ->
  rec_rep h' C payloads ps (set_entry rel i e').
Proof.
  intros Hr Hp K He' Hids. pose proof Hr as []. unfold set_entry, set_array.
  assert (forall l, rel_size (Rel (initial_timeout rel) (rel_packet_id rel) (rel_offset rel)
    (<[i:=l]> (array rel))) = rel_size rel) as Hs by (intros; unfold rel_size; simpl; apply Zlen_insert).
  split; rewrite ?Hs; simpl; auto.
  - by rewrite length_insert.
  - intros j q e Hq. destruct (decide (j = i)) as [->|Hne].
    + rewrite list_lookup_insert_eq by (rewrite <- rr_len0; by eapply lookup_lt_Some).
      intros [= <-]. by simplify_eq.
    + rewrite list_lookup_insert_ne by done. intros He.
      eapply entry_rep_keeps; [exact K| |by eapply rr_entries0].
      rewrite list_elem_of_singleton. by eapply rr_disjoint.
  - intros j k e1 e2. destruct (decide (j = i)) as [->|Hj], (decide (k = i)) as [->|Hk];
      rewrite ?list_lookup_insert_eq by (rewrite <- rr_len0; by eapply lookup_lt_Some);
      rewrite ?list_lookup_insert_ne by done; auto.
    + intros [= <-] H2 ? ? Heq. by destruct (Hids ltac:(done) k e2 Hk H2 ltac:(done)).
    + intros H1 [= <-] ? ? Heq. by destruct (Hids ltac:(done) j e1 Hj H1 ltac:(done)).
    + eauto.
Qed.

Lemma entry_reset h C payloads next size p e o :
  entry_rep h C payloads next size p e -> 0 <= o <= C -> C <= BUF_MAX ->
  buf_init (e_buf e) o = (true, Buf C o 0 (Some p)) /\ buf_rep h p (Buf C o 0 (Some p)) [].
Proof.
  intros [Hd Hc [x Hx] _] Ho HC. destruct (e_buf e) as [c o0 l0 d0] eqn:Eb. simpl in *. subst.
  unfold buf_init, BDEF. simpl. replace (o <? 0) with false by lia.
  replace (o >? C) with false by lia. split; [done|].
  split; simpl; eauto; try done; try lia.
  rewrite (mload_sub h p C x o 0) by (auto; lia). by rewrite slice_nil.
Qed.

Lemma reliable_get_buf_ok h C payloads ps rel :
  rec_rep h C payloads ps rel -> reliable_can_get rel = true ->
  exists i e p, array rel !! i = Some e /\ active e = false /\ ps !! i = Some p /\
    let b := Buf C (rel_offset rel) 0 (Some p) in
    reliable_get_buf rel = Ok (Some i, set_entry rel i (set_entry_buf e b)) /\ buf_rep h p b [].
Proof.
  intros Hr Hget. unfold reliable_can_get in Hget. unfold reliable_get_buf.
  destruct (find_entry _ rel) as [i|] eqn:Ef; [|done].
  apply find_entry_Some in Ef as (e & He & Hf). apply negb_true_iff in Hf.
  destruct (rr_lookup _ _ _ _ _ _ _ Hr He) as (p & Hp & Hrep). pose proof Hr as [].
  destruct (entry_reset _ _ _ _ _ _ _ (rel_offset rel) Hrep) as [Hi Hb]; auto.
  exists i, e, p. split_and!; auto. by rewrite He, Hi.
Qed.

(** A packet with id [k] waits in the receive buffers. *)
Definition pending (rel : reliable) (k : Z) : Prop :=
  exists i e, array rel !! i = Some e /\ active e = true /\ packet_id_ e = k.

(** Storing packet [id] in the free entry [i]. *)
Lemma rec_store_rep h h1 C payloads ps rel i e p id op pl :
  rec_rep h C payloads ps rel -> array rel !! i = Some e -> active e = false ->
  ps !! i = Some p -> 0 <= id -> payloads !! Z.to_nat id = Some pl -> keeps [blk p] h h1 ->
  let b := Buf C (rel_offset rel) (Zlen pl) (Some p) in
  buf_rep h1 p b pl -> rel_packet_id rel <= id < rel_packet_id rel + rel_size rel ->
  reliable_not_replay rel id = true ->
  let rel' := set_entry rel i (Entry true 0 0 id op b) in
  rec_rep h1 C payloads ps rel' /\
  (forall j, pending rel' j <-> pending rel j \/ j = id).
Proof.
  intros Hr He Ha Hp Hid Hpl K b Hb Hwin [_ Hids]%reliable_not_replay_spec rel'.
  pose proof (lookup_lt_Some _ _ _ He) as Hlt. split.
  - destruct (br_valid _ _ _ _ Hb) as [x Hx].
    apply (rec_rep_set h h1 C payloads ps rel i p); auto; [|by intros _ j e0 _ ? ?; eapply Hids].
    split; simpl; [done|done|by exists x|]. intros _. exists pl. auto.
  - intros j. unfold pending, rel', set_entry, set_array. simpl. split.
    + intros (i' & e' & H1 & H2 & H3). destruct (decide (i' = i)) as [->|Hne].
      * rewrite list_lookup_insert_eq in H1 by done. injection H1 as <-. right. done.
      * rewrite list_lookup_insert_ne in H1 by done. left. eauto.
    + intros [(i' & e' & H1 & H2 & H3)| ->].
      * exists i', e'. rewrite list_lookup_insert_ne; [done|]. intros <-. congruence.
      * exists i, (Entry true 0 0 id op b). by rewrite list_lookup_insert_eq.
Qed.

(** What the receive step does with an honest packet. *)
Lemma wp_rec_accept h C payloads ps rel ack q b id pl op :
  rec_rep h C payloads ps rel -> 0 <= id -> payloads !! Z.to_nat id = Some pl ->
  buf_rep h q b (be_enc 4 id ++ pl) -> blk q ∉ blk <$> ps ->
  wp (rec_accept rel ack b op)
     (fun r h' => let '(rel', ack', _) := r in
        keeps (blk <$> ps) h h' /\ rec_rep h' C payloads ps rel' /\
        rel_packet_id rel' = rel_packet_id rel /\ rel_size rel' = rel_size rel /\
        if reliable_can_get rel && (id <? rel_packet_id rel + rel_size rel)
        then ack' = snd (reliable_ack_acknowledge_packet_id ack id) /\
             forall j, pending rel' j <-> pending rel j \/ (j = id /\ rel_packet_id rel <= id)
        else rel' = rel /\ ack' = ack) h.
Proof.
  intros Hr Hid Hpl Hb Hq. unfold rec_accept.
  destruct (reliable_can_get rel) eqn:Hget.
  2:{ wp_steps. by split; [apply keeps_refl|]. }
  assert (id < Zlen payloads) as Hlt by (apply lookup_lt_Some in Hpl; unfold Zlen; lia).
  unfold reliable_ack_read_packet_id. wp_steps.
  pose proof (wp_buf_read h q b (be_enc 4 id) pl Hb) as Hrd. rewrite Zlen_be_enc4 in Hrd.
  eapply wp_mono; [exact Hrd|]. intros [r b1] h1 ([= -> ->] & -> & Hb1). clear Hrd. wp_steps.
  cbn [fmap option_fmap option_map]. pose proof (rr_max _ _ _ _ _ Hr) as Hmax.
  unfold RELIABLE_CAPACITY in Hmax. rewrite be_dec_enc by (simpl; lia).
  rewrite (wont_break_spec h C payloads ps) by (auto; lia). rewrite andb_true_l.
  destruct (id <? rel_packet_id rel + rel_size rel) eqn:Hwin; bool_simp.
  2:{ wp_steps. by split; [apply keeps_refl|]. }
  wp_steps. destruct (reliable_not_replay rel id) eqn:Hrep.
  2:{ wp_steps. split; [apply keeps_refl|]. do 4 (split; [done|]). intros j. split; [by left|].
      intros [?|[-> Hge]]; [done|]. apply not_true_iff_false in Hrep.
      destruct (find_entry (fun e => active e && (packet_id_ e =? id)) rel) as [i|] eqn:Ef.
      - apply find_entry_Some in Ef as (e & He & Hf). apply andb_true_iff in Hf as [? ?].
        bool_simp. exists i, e. auto.
      - destruct Hrep. unfold reliable_not_replay. rewrite Ef. by replace (_ <? _) with false by lia. }
  pose proof Hrep as [Hge _]%reliable_not_replay_spec.
  destruct (reliable_get_buf_ok _ _ _ _ _ Hr Hget) as (i & e & p & He & Ha & Hp & Eg & Hbe).
  set (be := Buf C (rel_offset rel) 0 (Some p)) in *.
  pose proof (lookup_lt_Some _ _ _ He) as Hlti. wp_steps. eapply wp_lift; [exact Eg|]. wp_steps.
  eapply wp_lift; [unfold set_entry, set_array; cbn [array]; by rewrite list_lookup_insert_eq|].
  wp_steps. cbn [set_entry_buf e_buf].
  pose proof (buf_rep_Zlen _ _ _ _ Hb1) as Hl1.
  pose proof (Forall_lookup_1 _ _ _ _ (rr_room _ _ _ _ _ Hr) Hpl) as Hroom. cbn beta in Hroom.
  wp_use wp_buf_copy; [unfold be; buf_simpl; lia|].
  intros [ok b2] h2 ([= -> ->] & Hb2 & Hm2). wp_steps.
  assert (keeps [blk p] h h2) as K by (eapply modifies_keeps; [exact Hm2|]; by left).
  unfold reliable_mark_active_incoming, set_entry, set_array. cbn [array].
  eapply wp_lift.
  { rewrite list_lookup_insert_eq by (by rewrite length_insert). cbn [rel_packet_id].
    replace (id >=? rel_packet_id rel) with true by lia. done. }
  wp_steps. cbn [initial_timeout rel_packet_id rel_offset array set_array set_entry set_entry_buf e_buf].
  rewrite !list_insert_insert_eq. unfold be, with_len in Hb2 |- *. buf_simpl.
  rewrite <- Hl1, Z.add_0_l in Hb2 |- *.
  destruct (rec_store_rep h h2 C payloads ps rel i e p id op pl) as [Hrr Hpend]; auto; try lia.
  fold (set_array rel (<[i := Entry true 0 0 id op (Buf C (rel_offset rel) (Zlen pl) (Some p))]> (array rel))).
  fold (set_entry rel i (Entry true 0 0 id op (Buf C (rel_offset rel) (Zlen pl) (Some p)))).
  split; [|split; [done|]].
  { eapply keeps_weaken; [|exact K]. intros ? ->%list_elem_of_singleton.
    apply list_elem_of_fmap. exists p. split; [done|]. by eapply list_elem_of_lookup_2. }
  split; [done|]. split; [unfold rel_size; simpl; apply Zlen_insert|]. split; [done|].
  intros j. rewrite Hpend. naive_solver.
Qed.

(** ** Delivery to the TLS object (tls_process, src/ssl.c), when it takes the bytes *)

Definition rec_deliver (rel : reliable) : M (option (list byte) * reliable) :=
  match reliable_get_buf_sequenced rel with
  | None => mret (None, rel)
  | Some i =>
      e ← lift (from_opt (array rel !! i));
      p ← deref (BPTR (e_buf e));
      bs ← load p (BLEN (e_buf e));
      rel ← lift (reliable_mark_deleted rel i true);
      mret (Some bs, rel)
  end.

Lemma rec_deliver_rep h C payloads ps rel i e :
  rec_rep h C payloads ps rel -> array rel !! i = Some e -> active e = true ->
  packet_id_ e = rel_packet_id rel -> rel_packet_id rel < Zlen payloads ->
  let rel' := Rel (initial_timeout rel) (rel_packet_id rel + 1) (rel_offset rel)
                (<[i := set_active e false]> (array rel)) in
  rec_rep h C payloads ps rel' /\
  (forall j, pending rel' j <-> pending rel j /\ j <> rel_packet_id rel).
Proof.
  intros Hr He Ha Hid Hlt rel'. pose proof Hr as [].
  pose proof (lookup_lt_Some _ _ _ He) as Hlti.
  assert (rel_size rel' = rel_size rel) as Hs by (unfold rel_size, rel'; simpl; apply Zlen_insert).
  split.
  - split; rewrite ?Hs; simpl; auto; try lia; [by rewrite length_insert| |].
    + intros j p e' Hp. destruct (decide (j = i)) as [->|Hne].
      * rewrite list_lookup_insert_eq by done. intros [= <-].
        destruct (rr_entries0 i p e Hp He) as [? ? ? _]. by split.
      * rewrite list_lookup_insert_ne by done. intros He'.
        destruct (rr_entries0 j p e' Hp He') as [? ? ? Hact]. split; auto.
        intros Ha'. destruct (Hact Ha') as (pl & ? & ? & ?). exists pl. split_and!; auto; [|lia].
        assert (packet_id_ e' <> rel_packet_id rel); [|lia].
        intros Heq. apply Hne, (rr_ids0 j i e' e); congruence.
    + intros j k e1 e2. destruct (decide (j = i)) as [->|Hj], (decide (k = i)) as [->|Hk];
        rewrite ?list_lookup_insert_eq by done; rewrite ?list_lookup_insert_ne by done;
        try (intros [= <-]); try (intros ? [= <-]); try done. eauto.
  - intros j. unfold pending, rel'. cbn [array]. split.
    + intros (k & e' & H1 & H2 & H3). destruct (decide (k = i)) as [->|Hne].
      * rewrite list_lookup_insert_eq in H1 by done. by injection H1 as <-.
      * rewrite list_lookup_insert_ne in H1 by done. split; [eauto|].
        intros ->. apply Hne, (rr_ids0 k i e' e); congruence.
    + intros [(k & e' & H1 & H2 & H3) Hj]. exists k, e'.
      rewrite list_lookup_insert_ne; [done|]. intros <-. congruence.
Qed.

Lemma wp_rec_deliver h C payloads ps rel :
  rec_rep h C payloads ps rel ->
  wp (rec_deliver rel)
     (fun r h' => h' = h /\
        match r with
        | (None, rel') => rel' = rel /\ ~ pending rel (rel_packet_id rel)
        | (Some pl, rel') =>
            payloads !! Z.to_nat (rel_packet_id rel) = Some pl /\ rec_rep h C payloads ps rel' /\
            rel_packet_id rel' = rel_packet_id rel + 1 /\ rel_size rel' = rel_size rel /\
            forall j, pending rel' j <-> pending rel j /\ j <> rel_packet_id rel
        end) h.
Proof.
  intros Hr. unfold rec_deliver, reliable_get_buf_sequenced.
  destruct (find_entry _ rel) as [i|] eqn:Ef.
  2:{ wp_steps. split; [done|]. split; [done|]. intros (j & e & He & Ha & Hid).
      apply (find_entry_None _ _ e j) in Ef; [|done]. cbn beta in Ef.
      by rewrite Ha, Hid, Z.eqb_refl in Ef. }
  apply find_entry_Some in Ef as (e & He & Hf). apply andb_true_iff in Hf as [Ha Hid]. bool_simp.
  destruct (rr_lookup _ _ _ _ _ _ _ Hr He) as (p & Hp & [_ _ _ Hact]).
  destruct (Hact Ha) as (pl & Hpl & Hb & Hwin). rewrite Hid in Hpl.
  pose proof (rr_max _ _ _ _ _ Hr) as Hmax. pose proof (rr_next _ _ _ _ _ Hr).
  unfold RELIABLE_CAPACITY in Hmax. pose proof (lookup_lt_Some _ _ _ Hpl).
  assert (rel_packet_id rel < Zlen payloads) by (unfold Zlen in *; lia).
  wp_steps. eapply wp_lift; [by rewrite He|]. erewrite BPTR_rep by eauto. wp_steps.
  eapply wp_load; [by apply br_bytes|]. wp_steps. unfold reliable_mark_deleted. rewrite He.
  eapply wp_lift; [done|]. wp_steps. unfold set_entry, set_array. cbn [initial_timeout rel_offset array].
  rewrite Hid. wrap_simp. destruct (rec_deliver_rep _ _ _ _ _ _ _ Hr He Ha Hid) as [Hr' Hpend]; auto.
  split; [done|]. split; [done|]. split; [done|]. split; [done|]. split; [|done].
  unfold rel_size. simpl. apply Zlen_insert.
Qed.

(** ** Setting up the receive buffers *)

Lemma keeps_dom h h' x : keeps [] h h' -> h' !! x = None -> h !! x = None.
Proof.
  intros K Hn. destruct (h !! x) as [l|] eqn:E; [|done].
  assert (mload h (Ptr x 0) 0 = Some []) as Hl.
  { apply mload_Some. exists l. simpl. split_and!; auto; try lia. apply Zlen_nonneg. }
  apply K in Hl; [|apply not_elem_of_nil]. apply mload_Some in Hl as (l' & Hl' & _). simpl in Hl'. congruence.
Qed.

Lemma fresh_ext_keeps_nil h h' p : fresh_ext h h' p -> keeps [] h h'.
Proof. apply fresh_ext_keeps. Qed.

Lemma wp_init_entries fill n C o h :
  0 <= o <= C -> C <= BUF_MAX ->
  wp (init_entries fill n C o)
     (fun l h' => exists ps, length ps = n /\ length l = n /\ NoDup (blk <$> ps) /\
        Forall (fun p => h !! blk p = None) ps /\ keeps [] h h' /\
        forall i p e, ps !! i = Some p -> l !! i = Some e ->
          e = set_entry_buf clear_entry (Buf C o 0 (Some p)) /\ is_Some (mload h' p C)) h.
Proof.
  intros Ho HC. revert h. induction n as [|n IH]; intros h; cbn [init_entries]; wp_steps.
  { exists []. split_and!; auto using keeps_refl, NoDup_nil_2. done. }
  wp_use wp_alloc_buf; [lia|]. intros b h1 (p & -> & Hb & Hf).
  destruct (buf_init_spec h1 p _ [] o Hb) as [-> Hb1]; [simpl; lia|]. wp_steps.
  eapply wp_mono; [apply IH|]. intros l h2 (ps & Hl1 & Hl2 & Hnd & Hfr & K & He). wp_steps.
  assert (is_Some (mload h1 p C)) as [x Hx] by apply Hb.
  assert (h1 !! blk p <> None) as Hin.
  { apply mload_Some in Hx as (y & Hy & _). congruence. }
  exists (p :: ps). simpl. split; [lia|]. split; [lia|]. split; [|split; [|split]].
  - apply NoDup_cons_2; [|done]. intros (q & Hq & Hqin)%list_elem_of_fmap.
    apply list_elem_of_lookup_1 in Hqin as [k Hk]. eapply Forall_lookup_1 in Hfr; [|exact Hk].
    cbn beta in Hfr. congruence.
  - constructor; [apply Hf|]. eapply Forall_impl; [|exact Hfr].
    intros q Hq. cbn beta. eapply keeps_dom; [by eapply fresh_ext_keeps|done].
  - eapply keeps_trans; [by eapply fresh_ext_keeps|done].
  - intros [|i] q e; simpl; [|apply He]. intros [= <-] [= <-]. split; [done|].
    exists x. by apply K; [apply not_elem_of_nil|].
Qed.

Lemma wp_reliable_init fill C o n payloads h :
  0 <= o <= C -> C <= BUF_MAX -> 0 < n <= RELIABLE_CAPACITY ->
  Forall (fun pl => o + Zlen pl <= C) payloads -> Zlen payloads < 2147483648 - RELIABLE_CAPACITY ->
  wp (reliable_init fill C o n)
     (fun rel h' => exists ps, rec_rep h' C payloads ps rel /\ rel_packet_id rel = 0 /\
        rel_size rel = n /\ (forall j, ~ pending rel j)) h.
Proof.
  intros Ho HC Hn Hpl Hmax. unfold reliable_init. wp_steps. apply wp_ASSERT; [lia|]. wp_steps.
  wp_use wp_init_entries. intros l h1 (ps & Hl1 & Hl2 & Hnd & _ & _ & He). wp_steps.
  assert (forall i e, l !! i = Some e -> exists p, ps !! i = Some p /\
    e = set_entry_buf clear_entry (Buf C o 0 (Some p)) /\ is_Some (mload h1 p C)) as He'.
  { intros i e Hi. destruct (lookup_lt_is_Some_2 ps i) as [p Hp].
    - rewrite Hl1, <- Hl2. by eapply lookup_lt_Some.
    - exists p. split; [done|]. by apply (He i). }
  exists ps. unfold rel_size, Zlen. simpl. rewrite Hl2. split; [|split; [done|split; [lia|]]].
  - split; unfold rel_size, Zlen in *; simpl; auto; try lia.
    + intros i p e Hp Hi. destruct (He i p e Hp Hi) as [-> Hv]. by split.
    + intros i j e e' Hi Hj Ha. destruct (He' i e Hi) as (p & _ & -> & _). done.
  - intros j (i & e & Hi & Ha & _). destruct (He' i e Hi) as (p & _ & -> & _). done.
Qed.

(** ** Runs of a receiver *)

(** The network hands over a control packet (its bytes from the packet id on), or
    the TLS object takes the next one. *)
Inductive rec_event :=
| Packet (bs : list byte)
| Deliver.

(** A packet arrives in a link buffer of its own. *)
Definition rec_packet (fill : Z -> Z) (op : Z) (rel : reliable) (ack : reliable_ack) (bs : list byte)
  : M (reliable * reliable_ack) :=
  b ← alloc_buf fill (Zlen bs);
  '(ok, b) ← buf_write b bs;
  _ ← ASSERT ok;
  '(rel, ack, _) ← rec_accept rel ack b op;
  mret (rel, ack).

Fixpoint rec_run (fill : Z -> Z) (op : Z) (evs : list rec_event) (rel : reliable) (ack : reliable_ack)
  : M (list (list byte) * reliable) :=
  match evs with
  | [] => mret ([], rel)
  | Packet bs :: r =>
      '(rel, ack) ← rec_packet fill op rel ack bs;
      rec_run fill op r rel ack
  | Deliver :: r =>
      '(o, rel) ← rec_deliver rel;
      '(ds, rel) ← rec_run fill op r rel ack;
      mret (option_list o ++ ds, rel)
  end.

(** What the network may carry: packets of the sender, lost, duplicated and
    reordered at will. *)
Definition honest (payloads : list (list byte)) (ev : rec_event) : Prop :=
  match ev with
  | Packet bs => exists (k : nat) pl, payloads !! k = Some pl /\ bs = be_enc 4 (Z.of_nat k) ++ pl
  | Deliver => True
  end.

Lemma wp_rec_packet fill op h C payloads ps rel ack k pl :
  rec_rep h C payloads ps rel -> C + 4 <= BUF_MAX -> payloads !! k = Some pl ->
  wp (rec_packet fill op rel ack (be_enc 4 (Z.of_nat k) ++ pl))
     (fun r h' => rec_rep h' C payloads ps (fst r) /\
        rel_packet_id (fst r) = rel_packet_id rel /\
        (Z.of_nat k = rel_packet_id rel -> reliable_can_get rel = true ->
         pending (fst r) (rel_packet_id rel)) /\
        (reliable_can_get rel = false -> fst r = rel)) h.
Proof.
  intros Hr HC Hpl. unfold rec_packet. wp_steps.
  pose proof (Forall_lookup_1 _ _ _ _ (rr_room _ _ _ _ _ Hr) Hpl) as Hroom. cbn beta in Hroom.
  pose proof (rr_offset _ _ _ _ _ Hr). pose proof (Zlen_nonneg pl).
  set (bs := be_enc 4 (Z.of_nat k) ++ pl).
  assert (Zlen bs = 4 + Zlen pl) as Hlb by (unfold bs; by rewrite Zlen_app, Zlen_be_enc4).
  wp_use wp_alloc_buf; [lia|]. intros b h1 (q & -> & Hb & Hf).
  wp_steps. wp_use wp_buf_write; [buf_simpl; lia|]. intros [ok b1] h2 ([= -> ->] & Hb2 & Hm).
  wp_steps. simpl in Hb2.
  assert (Forall (fun p => blk p <> blk q) ps) as Hne.
  { apply Forall_lookup. intros i p Hp.
    destruct (lookup_lt_is_Some_2 (array rel) i) as [e He].
    { rewrite <- (rr_len _ _ _ _ _ Hr). by eapply lookup_lt_Some. }
    destruct (rr_entries _ _ _ _ _ Hr i p e Hp He) as [_ _ [x Hx] _]. by eapply fresh_ext_ne. }
  assert (rec_rep h1 C payloads ps rel) as Hr1.
  { eapply (rec_rep_keeps []); [by eapply fresh_ext_keeps| |done].
    eapply Forall_impl; [|exact Hne]. intros ? _. apply not_elem_of_nil. }
  assert (rec_rep h2 C payloads ps rel) as Hr2.
  { eapply (rec_rep_keeps [blk q]); [eapply modifies_keeps; [exact Hm|by left]| |done].
    eapply Forall_impl; [|exact Hne]. intros p. cbn beta. by rewrite list_elem_of_singleton. }
  eapply wp_mono; [eapply (wp_rec_accept h2 C payloads ps rel ack q _ (Z.of_nat k) pl op); eauto|].
  - lia.
  - by rewrite Nat2Z.id.
  - intros (p & Hq & Hp)%list_elem_of_fmap. apply list_elem_of_lookup_1 in Hp as [i Hi].
    eapply Forall_lookup_1 in Hne; [|exact Hi]. cbn beta in Hne. congruence.
  - intros [[rel' ack'] b'] h3 (_ & Hr' & Hid & _ & Hif). wp_steps. cbn [fst]. split; [done|].
    split; [done|]. pose proof (rr_size _ _ _ _ _ Hr). split.
    + intros Hk Hget. rewrite Hget in Hif. replace (_ && _) with true in Hif by (simpl; lia).
      destruct Hif as [_ Hpend]. apply Hpend. right. lia.
    + intros Hget. rewrite Hget in Hif. by destruct Hif.
Qed.

Lemma wp_rec_run fill op evs h C payloads ps rel ack :
  rec_rep h C payloads ps rel -> C + 4 <= BUF_MAX -> Forall (honest payloads) evs ->
  wp (rec_run fill op evs rel ack)
     (fun r h' => let '(ds, rel') := r in
        rec_rep h' C payloads ps rel' /\
        rel_packet_id rel' = rel_packet_id rel + Zlen ds /\
        ds = take (length ds) (drop (Z.to_nat (rel_packet_id rel)) payloads)) h.
Proof.
  intros Hr HC Hev. revert h rel ack Hr.
  induction Hev as [|ev evs Hh Hev IH]; intros h rel ack Hr; cbn [rec_run].
  { wp_steps. split; [done|]. split; [rewrite Zlen_nil; lia|done]. }
  destruct ev as [bs|]; wp_steps.
  - destruct Hh as (k & pl & Hpl & ->). wp_use wp_rec_packet. intros [rel' ack'] h1 (Hr1 & Hid & _). cbn [fst] in *. wp_steps.
    eapply wp_mono; [by apply IH|]. intros [ds rel2] h2. by rewrite Hid.
  - wp_use wp_rec_deliver. intros [o rel'] h1 [-> Ho]. wp_steps. destruct o as [pl|].
    + destruct Ho as (Hpl & Hr1 & Hid & _). eapply wp_mono; [by apply IH|].
      intros [ds rel2] h2 (Hr2 & Hid2 & Hds). wp_steps.
      change (option_list (Some pl) ++ ds) with (pl :: ds). cbn [length].
      split; [done|]. rewrite Zlen_cons. split; [lia|].
      pose proof (rr_next _ _ _ _ _ Hr). erewrite drop_S by exact Hpl. cbn [take]. f_equal.
      rewrite Hid in Hds. by replace (Z.to_nat (rel_packet_id rel + 1)) with
        (S (Z.to_nat (rel_packet_id rel))) in Hds by lia.
    + destruct Ho as [-> _]. eapply wp_mono; [by apply IH|].
      intros [ds rel2] h2 (Hr2 & Hid2 & Hds). by wp_steps.
Qed.

(** C28: the control channel delivers in order, exactly once.  Whatever packets of
    the sender the network loses, duplicates or reorders, and whenever the TLS
    object takes data, the payloads delivered are a prefix of the payloads sent;
    the receiver never fails an ASSERT or leaves a buffer (packet ids below
    2^31 - 8, payloads that fit the receive buffers). *)
Theorem control_channel_in_order fill op payloads evs buf_size offset array_size h :
  0 < array_size <= RELIABLE_CAPACITY -> 0 <= offset <= buf_size -> buf_size + 4 <= BUF_MAX ->
  Zlen payloads < 2147483648 - RELIABLE_CAPACITY ->
  Forall (fun pl => offset + Zlen pl <= buf_size) payloads ->
  Forall (honest payloads) evs ->
  wp (rel ← reliable_init fill buf_size offset array_size; rec_run fill op evs rel [])
     (fun r _ => fst r = take (length (fst r)) payloads /\
        rel_packet_id (snd r) = Zlen (fst r)) h.
Proof.
  intros Hn Ho HC Hmax Hpl Hev. wp_steps.
  eapply wp_mono; [apply (wp_reliable_init fill buf_size offset array_size payloads); auto; lia|].
  intros rel h1 (ps & Hr & Hid & _). eapply wp_mono; [by eapply wp_rec_run|].
  intros [ds rel'] h2 (_ & Hid' & Hds). rewrite Hid in *. split; [exact Hds|]. simpl. lia.
Qed.

Lemma control_channel_in_order_witness :
  wp (rel ← reliable_init (fun _ => 0) 64 16 8;
      rec_run (fun _ => 0) 4 [Packet (be_enc 4 1 ++ [20; 21]); Deliver; Packet (be_enc 4 0 ++ [10]);
        Packet (be_enc 4 1 ++ [20; 21]); Deliver; Packet (be_enc 4 0 ++ [10]); Deliver; Deliver] rel [])
     (fun r _ => fst r = take (length (fst r)) [[10]; [20; 21]; [30]] /\
        rel_packet_id (snd r) = Zlen (fst r)) ∅.
Proof.
  apply (control_channel_in_order (fun _ => 0) 4 [[10]; [20; 21]; [30]]).
  - unfold RELIABLE_CAPACITY; lia.
  - lia.
  - unfold BUF_MAX; lia.
  - unfold RELIABLE_CAPACITY, Zlen; simpl; lia.
  - repeat constructor; unfold Zlen; simpl; lia.
  - repeat constructor; [exists 1%nat|exists 0%nat|exists 1%nat|exists 0%nat]; eexists; split; reflexivity.
Defined.

(** The receive buffers never fill up with later packets only. *)
Lemma full_has_next h C payloads ps rel :
  rec_rep h C payloads ps rel -> reliable_can_get rel = false -> pending rel (rel_packet_id rel).
Proof.
  intros Hr Hfull%reliable_can_get_spec. set (ids := packet_id_ <$> array rel).
  destruct (decide (rel_packet_id rel ∈ ids)) as [Hin|Hout].
  { apply list_elem_of_fmap in Hin as (e & He & Hin). apply list_elem_of_lookup_1 in Hin as [i Hi].
    exists i, e. split_and!; auto. by eapply Forall_lookup_1 in Hfull. }
  exfalso. pose proof (rr_size _ _ _ _ _ Hr) as Hs.
  assert (NoDup ids) as Hnd.
  { apply NoDup_alt. intros i j k. unfold ids. rewrite !list_lookup_fmap.
    destruct (array rel !! i) as [e|] eqn:Hi, (array rel !! j) as [e'|] eqn:Hj; try done.
    intros [= <-] [= Heq]. eapply (rr_ids _ _ _ _ _ Hr); eauto; by eapply Forall_lookup_1 in Hfull. }
  assert (ids ⊆+ seqZ (rel_packet_id rel + 1) (rel_size rel - 1)) as Hsub.
  { apply NoDup_submseteq; [done|]. intros x Hx. apply elem_of_seqZ.
    assert (x <> rel_packet_id rel) by (intros ->; done).
    apply list_elem_of_fmap in Hx as (e & -> & Hin). apply list_elem_of_lookup_1 in Hin as [i Hi].
    destruct (rr_lookup _ _ _ _ _ _ _ Hr Hi) as (p & _ & [_ _ _ Ha]).
    eapply Forall_lookup_1 in Hfull; [|exact Hi]. destruct (Ha Hfull) as (_ & _ & _ & ?). lia. }
  apply submseteq_length in Hsub. unfold ids in Hsub. rewrite length_fmap, length_seqZ in Hsub.
  unfold rel_size, Zlen in *. lia.
Qed.

(** The sender's next packet, again, and a delivery. *)
Definition resend (payloads : list (list byte)) (k : nat) : list rec_event :=
  match payloads !! k with
  | Some pl => [Packet (be_enc 4 (Z.of_nat k) ++ pl); Deliver]
  | None => []
  end.

(** C29: the control channel never deadlocks.  After any run of honest packets, when
    the sender's next packet in order arrives (again) it is delivered: no set of
    packets received ahead of it can take up all the receive buffers.  The payloads fit the
    buffers, and there are fewer than 2^31 of them less the capacity, so that packet ids do
    not wrap around. *)
Theorem control_channel_progress fill op payloads evs buf_size offset array_size h :
  0 < array_size <= RELIABLE_CAPACITY -> 0 <= offset <= buf_size -> buf_size + 4 <= BUF_MAX ->
  Zlen payloads < 2147483648 - RELIABLE_CAPACITY ->
  Forall (fun pl => offset + Zlen pl <= buf_size) payloads ->
  Forall (honest payloads) evs ->
  wp (rel ← reliable_init fill buf_size offset array_size;
      '(ds, rel) ← rec_run fill op evs rel [];
      '(next, _) ← rec_run fill op (resend payloads (length ds)) rel [];
      mret (ds, next))
     (fun r _ => let '(ds, next) := r in next = option_list (payloads !! length ds)) h.
Proof.
  intros Hn Ho HC Hmax Hpl Hev. wp_steps.
  eapply wp_mono; [apply (wp_reliable_init fill buf_size offset array_size payloads); auto; lia|].
  intros rel h1 (ps & Hr & Hid & _). wp_steps. eapply wp_mono; [by eapply wp_rec_run|].
  intros [ds rel1] h2 (Hr1 & Hid1 & _). wp_steps. unfold resend.
  destruct (payloads !! length ds) as [pl|] eqn:Epl; [|cbn [rec_run]; wp_steps; by rewrite Epl].
  assert (Z.of_nat (length ds) = rel_packet_id rel1) as Hk by (unfold Zlen in *; lia).
  cbn [rec_run]. wp_steps. wp_use wp_rec_packet. intros [rel2 ack2] h3 (Hr2 & Hid2 & Hnext & Hfull).
  cbn [fst] in *. wp_steps. wp_use wp_rec_deliver. intros [o rel3] h4 [-> Hd]. wp_steps.
  rewrite Hid2 in Hd. destruct o as [pl'|].
  - destruct Hd as [Hd _]. rewrite <- Hk, Nat2Z.id in Hd. by rewrite Hd.
  - destruct Hd as [_ []]. destruct (reliable_can_get rel1) eqn:Hget; [auto|].
    rewrite Hfull by done. by eapply full_has_next.
Qed.

Lemma control_channel_progress_witness :
  wp (rel ← reliable_init (fun _ => 0) 64 16 2;
      '(ds, rel) ← rec_run (fun _ => 0) 4 [Packet (be_enc 4 1 ++ [20; 21]); Packet (be_enc 4 2 ++ [30])]
        rel [];
      '(next, _) ← rec_run (fun _ => 0) 4 (resend [[10]; [20; 21]; [30]] (length ds)) rel [];
      mret (ds, next))
     (fun r _ => let '(ds, next) := r in next = option_list ([[10]; [20; 21]; [30]] !! length ds)) ∅.
Proof.
  apply (control_channel_progress (fun _ => 0) 4 [[10]; [20; 21]; [30]]).
  - unfold RELIABLE_CAPACITY; lia.
  - lia.
  - unfold BUF_MAX; lia.
  - unfold RELIABLE_CAPACITY, Zlen; simpl; lia.
  - repeat constructor; unfold Zlen; simpl; lia.
  - repeat constructor; [exists 1%nat|exists 2%nat]; eexists; split; reflexivity.
Defined.

(** Packet ids from 2^31 on defeat the deadlock check.  reliable_wont_break_sequentiality
    compares ids as signed ints, so an id of the upper half passes it and, being
    above the current id as an unsigned number, passes reliable_not_replay too: it
    is stored although it can never be delivered in order.  Once every receive
    buffer holds such a packet, nothing is accepted or delivered any more. *)
Theorem far_ids_block_receiver rel :
  0 <= rel_packet_id rel < 2147483648 - RELIABLE_CAPACITY -> rel_size rel <= RELIABLE_CAPACITY ->
  (forall id, 2147483648 <= id < 4294967296 ->
     (forall i e, array rel !! i = Some e -> packet_id_ e <> id) ->
     reliable_wont_break_sequentiality rel id = true /\ reliable_not_replay rel id = true) /\
  ((forall i e, array rel !! i = Some e -> active e = true /\ 2147483648 <= packet_id_ e) ->
     reliable_get_buf_sequenced rel = None /\
     forall ack b op h, rec_accept rel ack b op h = Ok (rel, ack, b, h)).
Proof.
  intros Hid Hs. unfold RELIABLE_CAPACITY in *. split.
  - intros id Hfar Hnew. split.
    + unfold reliable_wont_break_sequentiality. pose proof (Zlen_nonneg (array rel)).
      unfold rel_size in *. wrap_simp. apply Z.ltb_lt. unfold i32.
      replace (id + 2147483648) with (id - 2147483648 + 1 * 4294967296) by lia.
      rewrite Z.mod_add, Z.mod_small by lia. lia.
    + apply reliable_not_replay_spec. split; [lia|]. eauto.
  - intros Hall. split.
    + unfold reliable_get_buf_sequenced. destruct (find_entry _ rel) as [i|] eqn:Ef; [|done].
      apply find_entry_Some in Ef as (e & He & Hf). apply andb_true_iff in Hf as [_ Hp]. bool_simp.
      destruct (Hall i e He). lia.
    + intros ack b op h. unfold rec_accept, reliable_can_get.
      destruct (find_entry _ rel) as [i|] eqn:Ef; [|done].
      apply find_entry_Some in Ef as (e & He & Hf). destruct (Hall i e He) as [Ha _].
      by rewrite Ha in Hf.
Qed.

(** Two packets with ids 2^32-1 and 2^31 stop a receiver with two buffers. *)
Lemma far_ids_block_receiver_witness :
  let far := Rel 0 0 16 [Entry true 0 0 4294967295 4 clear_buf; Entry true 0 0 2147483648 4 clear_buf] in
  reliable_wont_break_sequentiality (Rel 0 0 16 [clear_entry; clear_entry]) 4294967295 = true /\
  reliable_get_buf_sequenced far = None /\
  forall ack b op h, rec_accept far ack b op h = Ok (far, ack, b, h).
Proof.
  split.
  - apply (far_ids_block_receiver (Rel 0 0 16 [clear_entry; clear_entry]));
      [unfold RELIABLE_CAPACITY; simpl; lia | by vm_compute | lia |].
    intros [|[|i]] e; simpl; [by intros [= <-]..|done].
  - apply far_ids_block_receiver; [unfold RELIABLE_CAPACITY; simpl; lia | by vm_compute |].
    intros [|[|i]] e; simpl; [intros [= <-]; simpl; split; [done|lia]..|done].
Defined.

(** ** Acknowledgement records on the wire *)

Definition ids_bytes (ids : list Z) : list byte := concat (be_enc 4 <$> ids).
Definition ack_bytes (ids : list Z) (sid : session_id) : list byte :=
  [Zlen ids] ++ ids_bytes ids ++ (if decide (ids = []) then [] else sid).

Lemma Zlen_ids_bytes ids : Zlen (ids_bytes ids) = 4 * Zlen ids.
Proof.
  unfold ids_bytes. induction ids as [|x r IH]; [done|]. cbn [fmap list_fmap concat].
  rewrite Zlen_app, Zlen_be_enc4, IH, Zlen_cons. lia.
Qed.

Lemma Zlen_ack_bytes ids sid : Zlen sid = SID_SIZE -> Zlen (ack_bytes ids sid) = ACK_SIZE (Zlen ids).
Proof.
  intros Hs. unfold ack_bytes, ACK_SIZE, SID_SIZE in *. rewrite !Zlen_app, Zlen_ids_bytes, Zlen_cons, Zlen_nil.
  destruct (decide (ids = [])) as [->|Hne]; [done|].
  assert (0 < Zlen ids). { destruct ids; [done|]. rewrite Zlen_cons. pose proof (Zlen_nonneg ids). lia. }
  replace (negb (Zlen ids =? 0)) with true by lia. lia.
Qed.

(** Writes into a sub-buffer stay inside it. *)
Lemma wp_sub_write h p sub s x :
  buf_rep h p sub s -> b_offset sub = 0 -> b_len sub + Zlen x <= b_capacity sub ->
  wp (buf_write sub x)
     (fun r h' => r = (true, with_len sub (b_len sub + Zlen x)) /\
        buf_rep h' p (with_len sub (b_len sub + Zlen x)) (s ++ x) /\
        modifies h h' p (b_capacity sub)) h.
Proof.
  intros Hs Ho Hroom. rep_facts Hs. wp_use wp_buf_write; [lia|]. intros r h' (-> & Hr & Hm).
  split_and!; auto. eapply modifies_widen; [exact Hm|done|simpl; lia..].
Qed.

Lemma wp_ack_write_ids h p ids sub s :
  buf_rep h p sub s -> b_offset sub = 0 -> b_len sub + 4 * Zlen ids <= b_capacity sub ->
  wp (ack_write_ids ids sub)
     (fun sub' h' => sub' = with_len sub (b_len sub + 4 * Zlen ids) /\
        buf_rep h' p sub' (s ++ ids_bytes ids) /\ modifies h h' p (b_capacity sub)) h.
Proof.
  revert h sub s. induction ids as [|x r IH]; intros h sub s Hs Ho Hroom; cbn [ack_write_ids].
  - wp_steps. change (4 * Zlen (@nil Z)) with 0. change (ids_bytes []) with (@nil Z).
    rewrite Z.add_0_r, app_nil_r. destruct sub. split; [done|].
    split; [done|]. apply modifies_refl.
  - rewrite Zlen_cons in *. pose proof (Zlen_nonneg r). wp_steps.
    wp_use wp_sub_write; [rewrite Zlen_be_enc4; lia|].
    intros [ok sub1] h1 ([= -> ->] & Hs1 & Hm1). rewrite Zlen_be_enc4 in *. wp_steps.
    eapply wp_mono; [apply IH; [exact Hs1|done|buf_simpl; lia]|].
    intros sub2 h2 (-> & Hs2 & Hm2). buf_simpl. unfold with_len in *. cbn [b_capacity b_offset b_len b_data] in *.
    replace (b_len sub + 4 + 4 * Zlen r) with (b_len sub + 4 * (1 + Zlen r)) in * by lia.
    split; [done|]. split; [|by eapply modifies_trans].
    unfold ids_bytes in *. cbn [fmap list_fmap concat]. by rewrite app_assoc.
Qed.

(** The part of a buffer that buf_sub hands out, filled. *)
Lemma sub_filled h h' p b bs data rec sub :
  buf_rep h p b bs -> Zlen rec <= b_offset b ->
  data = ptr_add p (b_offset b - Zlen rec) ->
  buf_rep h' data sub rec -> b_offset sub = 0 -> modifies h h' data (Zlen rec) ->
  buf_rep h' p (with_offset_len b (b_offset b - Zlen rec) (b_len b + Zlen rec)) (rec ++ bs).
Proof.
  intros Hb Hroom -> Hsub Ho Hm. rep_facts Hb. pose proof (Zlen_nonneg rec).
  split; simpl; auto; try lia.
  - by apply (mod_valid _ _ _ _ Hm).
  - unfold BUF_MAX. lia.
  - rewrite Z.add_comm. eapply mload_app.
    + pose proof (br_bytes _ _ _ _ Hsub) as Hl. rewrite Ho, ptr_add_0 in Hl.
      by rewrite <- (buf_rep_Zlen _ _ _ _ Hsub) in Hl.
    + rewrite ptr_add_add, Z.sub_add, (mod_frame _ _ _ _ Hm); auto.
      right. right. simpl. lia.
Qed.

Lemma wp_reliable_ack_write h p b bs ack sid max :
  buf_rep h p b bs -> Zlen ack <= RELIABLE_ACK_SIZE -> Zlen sid = SID_SIZE ->
  session_id_defined sid = true -> 0 <= max < 256 ->
  let n := Z.min (Zlen ack) max in
  ACK_SIZE n <= b_offset b ->
  let b' := with_offset_len b (b_offset b - ACK_SIZE n) (b_len b + ACK_SIZE n) in
  wp (reliable_ack_write ack b sid max true)
     (fun r h' => r = (true, drop (Z.to_nat n) ack, b') /\
        buf_rep h' p b' (ack_bytes (take (Z.to_nat n) ack) sid ++ bs)) h.
Proof.
  intros Hb Hack Hsid Hdef Hmax n Hroom b'. unfold reliable_ack_write, RELIABLE_ACK_SIZE in *.
  pose proof (Zlen_nonneg ack). rewrite (u8_id (Zlen ack)), (u8_id max) by (unfold is_byte; lia).
  replace (if Zlen ack >? max then max else Zlen ack) with n
    by (unfold n; rewrite Z.gtb_ltb; destruct (max <? Zlen ack) eqn:E; bool_simp; lia).
  set (ids := take (Z.to_nat n) ack). assert (Zlen ids = n) as Hn.
  { unfold ids, n, Zlen in *. rewrite length_take. lia. }
  pose proof (Zlen_ack_bytes ids sid Hsid) as Hl. rewrite Hn in Hl. set (rec := ack_bytes ids sid) in *.
  assert (0 <= n) as Hn0 by (unfold n; lia). assert (1 <= ACK_SIZE n) as Hpos.
  { unfold ACK_SIZE, SID_SIZE. destruct (negb (n =? 0)); lia. }
  unfold buf_sub, buf_write_alloc_prepend. rewrite (buf_prepend_spec h p b bs) by (auto; lia).
  wp_steps. cbn [BDEF b_data negb]. set (data := ptr_add p (b_offset b - ACK_SIZE n)).
  rep_facts Hb.
  assert (buf_rep h data (Buf (ACK_SIZE n) 0 0 (Some data)) []) as Hs0.
  { assert (is_Some (mload h data (ACK_SIZE n))) as [x Hx] by (eapply buf_rep_valid; eauto; lia).
    split; simpl; eauto; try lia; [unfold BUF_MAX; lia|].
    rewrite (mload_sub h data (ACK_SIZE n) x 0 0) by (auto; lia). by rewrite slice_nil. }
  wp_steps. wp_use wp_sub_write; try (unfold Zlen; simpl; lia).
  intros [ok s1] h1 ([= -> ->] & Hs1 & Hm1). wp_steps. fold ids.
  assert (1 + 4 * n <= ACK_SIZE n) as Hsz
    by (unfold ACK_SIZE, SID_SIZE; destruct (negb (n =? 0)); lia).
  wp_use wp_ack_write_ids; [unfold with_len, Zlen in *; cbn [b_len b_capacity length] in *; lia|].
  intros s2 h2 (-> & Hs2 & Hm2). wp_steps. cbn [app] in Hs2.
  assert (forall h3 s3, buf_rep h3 data s3 rec -> b_offset s3 = 0 -> modifies h h3 data (ACK_SIZE n) ->
    buf_rep h3 p b' (rec ++ bs)) as Hdone.
  { intros h3 s3 Hr Ho Hm. unfold b'. rewrite <- Hl. eapply sub_filled; eauto; rewrite Hl; auto; lia. }
  assert (modifies h h2 data (ACK_SIZE n)) as Hm12 by (by eapply modifies_trans).
  destruct (negb (n =? 0)) eqn:En; wp_steps.
  - apply wp_ASSERT; [done|]. unfold session_id_write. wp_steps.
    assert (ids <> []) as Hne by (intros E; rewrite E in Hn; unfold Zlen in Hn; simpl in Hn; lia).
    wp_use wp_sub_write.
    { unfold with_len, ACK_SIZE, SID_SIZE in *. rewrite En in *. cbn [b_len b_capacity].
      rewrite Hn. unfold Zlen in *. simpl. lia. }
    intros [ok s3] h3 ([= -> ->] & Hs3 & Hm3). wp_steps. split; [done|].
    assert (rec = (n :: ids_bytes ids) ++ sid) as Hrec.
    { unfold rec, ack_bytes. rewrite decide_False by done. by rewrite Hn. }
    rewrite <- Hrec in Hs3. eapply Hdone; [exact Hs3|done|by eapply modifies_trans].
  - assert (n = 0) as Hz by (bool_simp; lia). assert (ids = []) as Hnil.
    { destruct ids; [done|]. rewrite Zlen_cons in Hn. pose proof (Zlen_nonneg ids). lia. }
    rewrite Hz. rewrite drop_0. split; [unfold b'; by rewrite Hz|]. 
    assert (rec = n :: ids_bytes ids) as Hrec.
    { unfold rec, ack_bytes. rewrite Hnil, decide_True by done. by rewrite Hz. }
    rewrite <- Hrec in Hs2. by eapply Hdone; [exact Hs2| |].
Qed.

Lemma wp_ack_read_ids h p b ids bs ack :
  buf_rep h p b (ids_bytes ids ++ bs) -> Forall is_u32 ids -> Zlen ack + Zlen ids <= RELIABLE_ACK_SIZE ->
  wp (ack_read_ids (length ids) ack b)
     (fun r h' => h' = h /\ fst r = (true, ack ++ ids) /\
        snd r = with_offset_len b (b_offset b + 4 * Zlen ids) (b_len b - 4 * Zlen ids) /\
        buf_rep h p (snd r) bs) h.
Proof.
  intros Hb Hids. revert b ack Hb. induction Hids as [|x r Hx Hr IH]; intros b ack Hb Hlen;
    cbn [ack_read_ids length].
  - wp_steps. rewrite app_nil_r. change (4 * Zlen (@nil Z)) with 0.
    rewrite Z.add_0_r, Z.sub_0_r. destruct b. done.
  - rewrite Zlen_cons in *. pose proof (Zlen_nonneg r). wp_steps.
    unfold ids_bytes in Hb. cbn [fmap list_fmap concat] in Hb. rewrite <- app_assoc in Hb.
    pose proof (wp_buf_read h p b _ _ Hb) as Hrd. rewrite Zlen_be_enc4 in Hrd.
    eapply wp_mono; [exact Hrd|]. intros [o b1] h1 ([= -> ->] & -> & Hb1).
    unfold is_u32 in Hx. rewrite be_dec_enc by (simpl; lia).
    replace (Zlen ack >=? RELIABLE_ACK_SIZE) with false by lia.
    eapply wp_mono; [apply IH; [exact Hb1|rewrite Zlen_app, Zlen_cons, Zlen_nil; lia]|].
    intros [[ok ack'] b2] h2 (-> & Ha & Hs & Hb2). simpl in Ha, Hs, Hb2 |- *. subst b2.
    rewrite Ha, <- app_assoc.
    unfold with_offset_len in *. buf_simpl.
    replace (b_offset b + 4 + 4 * Zlen r) with (b_offset b + 4 * (1 + Zlen r)) in * by lia.
    replace (b_len b - 4 - 4 * Zlen r) with (b_len b - 4 * (1 + Zlen r)) in * by lia. done.
Qed.

Lemma wp_reliable_ack_read h p b ids sid bs :
  buf_rep h p b (ack_bytes ids sid ++ bs) -> Forall is_u32 ids -> Zlen ids <= RELIABLE_ACK_SIZE ->
  Zlen sid = SID_SIZE -> session_id_defined sid = true ->
  let n := ACK_SIZE (Zlen ids) in
  wp (reliable_ack_read [] b sid)
     (fun r h' => h' = h /\ fst r = (true, ids) /\
        snd r = with_offset_len b (b_offset b + n) (b_len b - n) /\ buf_rep h p (snd r) bs) h.
Proof.
  intros Hb Hids Hlen Hsid Hdef n. unfold reliable_ack_read, ack_bytes in *. wp_steps.
  unfold RELIABLE_ACK_SIZE in *. pose proof (Zlen_nonneg ids).
  rewrite <- !app_assoc in Hb. pose proof (wp_buf_read h p b [Zlen ids] _ Hb) as Hrd.
  eapply wp_mono; [exact Hrd|]. intros [o b1] h1 ([= -> ->] & -> & Hb1). clear Hrd.
  change (Zlen [Zlen ids]) with 1 in *. change (be_dec [Zlen ids]) with (0 * 256 + Zlen ids).
  rewrite Z.add_0_l. wp_steps. replace (Z.to_nat (Zlen ids)) with (length ids) by (unfold Zlen; lia).
  eapply wp_mono; [eapply wp_ack_read_ids; [exact Hb1|done|unfold RELIABLE_ACK_SIZE; rewrite Zlen_nil; lia]|].
  intros [[ok ack'] b2] h2 (-> & Ha & Hs & Hb2). simpl in Ha, Hs, Hb2. injection Ha as -> ->. subst b2.
  wp_steps. unfold n, ACK_SIZE. destruct (decide (ids = [])) as [->|Hne].
  - cbn. wp_steps. split; [done|]. unfold with_offset_len in *. buf_simpl.
    change (Zlen (@nil Z)) with 0 in *. split; [done|]. cbn in Hb2 |- *.
    rewrite !Z.add_0_r, !Z.sub_0_r in *. done.
  - assert (0 < Zlen ids).
    { destruct ids; [done|]. rewrite Zlen_cons. pose proof (Zlen_nonneg ids). lia. }
    replace (Zlen ids =? 0) with false by lia. cbn [negb].
    unfold session_id_read. wp_steps. pose proof (wp_buf_read h p _ sid bs Hb2) as Hrd.
    rewrite Hsid in Hrd. eapply wp_mono; [exact Hrd|]. intros [o b3] h3 ([= -> ->] & -> & Hb3).
    wp_steps. rewrite Hdef. unfold session_id_equal. rewrite bool_decide_true by done. cbn [negb orb].
    unfold with_offset_len in *. buf_simpl.
    replace (b_offset b + 1 + 4 * Zlen ids + SID_SIZE) with (b_offset b + (1 + SID_SIZE + 4 * Zlen ids)) in * by lia.
    replace (b_len b - 1 - 4 * Zlen ids - SID_SIZE) with (b_len b - (1 + SID_SIZE + 4 * Zlen ids)) in * by lia.
    done.
Qed.

(** Acknowledgements survive the wire.  reliable_ack_write puts the first
    min(len, max) ids and the session id in front of the packet, through a
    sub-buffer that shares the packet's bytes, and keeps the rest for later;
    reliable_ack_read of the peer with the same session id takes exactly those ids
    off again and leaves the packet as it was. *)
Theorem ack_record_roundtrip h p b bs ack sid max :
  buf_rep h p b bs -> Zlen ack <= RELIABLE_ACK_SIZE -> Forall is_u32 ack ->
  Zlen sid = SID_SIZE -> session_id_defined sid = true -> 0 <= max < 256 ->
  let n := Z.min (Zlen ack) max in
  ACK_SIZE n <= b_offset b ->
  wp ('(ok, rest, b1) ← reliable_ack_write ack b sid max true;
      '(ok', got, b2) ← reliable_ack_read [] b1 sid;
      mret (ok, rest, ok', got, b2))
     (fun r h' => r = (true, drop (Z.to_nat n) ack, true, take (Z.to_nat n) ack, b) /\
        buf_rep h' p b bs) h.
Proof.
  intros Hb Hack Hu Hsid Hdef Hmax n Hroom. wp_steps.
  eapply wp_mono; [by apply (wp_reliable_ack_write h p b bs ack sid max)|].
  intros [[ok rest] b1] h1 ([= -> -> ->] & Hb1). wp_steps. fold n in Hb1 |- *.
  assert (Zlen (take (Z.to_nat n) ack) = n) as Hn.
  { unfold n, Zlen. rewrite length_take. lia. }
  eapply wp_mono; [apply (wp_reliable_ack_read h1 p _ _ sid bs Hb1); auto; [by apply Forall_take|lia]|].
  intros [[ok' got] b2] h2 (-> & Hg & Hb2 & Hr). simpl in Hg, Hb2, Hr. injection Hg as -> ->.
  rewrite Hn in Hb2. wp_steps. unfold with_offset_len in Hb2. buf_simpl.
  replace (b_offset b - ACK_SIZE n + ACK_SIZE n) with (b_offset b) in Hb2 by lia.
  replace (b_len b + ACK_SIZE n - ACK_SIZE n) with (b_len b) in Hb2 by lia.
  subst b2. destruct b. done.
Qed.

Lemma ack_record_roundtrip_witness :
  let sid := [1; 2; 3; 4; 5; 6; 7; 8] in
  let h := {[1%positive := replicate 64 7]} : heap in
  let b := Buf 64 40 3 (Some (Ptr 1 0)) in
  wp ('(ok, rest, b1) ← reliable_ack_write [5; 6; 7; 8; 9] b sid 4 true;
      '(ok', got, b2) ← reliable_ack_read [] b1 sid;
      mret (ok, rest, ok', got, b2))
     (fun r h' => r = (true, [9], true, [5; 6; 7; 8], b) /\ buf_rep h' (Ptr 1 0) b [7; 7; 7]) h.
Proof.
  assert (buf_rep {[1%positive := replicate 64 7]} (Ptr 1 0) (Buf 64 40 3 (Some (Ptr 1 0))) [7; 7; 7]) as Hb.
  { split; try reflexivity; unfold BUF_MAX; cbn [b_capacity b_offset b_len b_data]; try lia.
    eexists; reflexivity. }
  apply (ack_record_roundtrip _ (Ptr 1 0) (Buf 64 40 3 (Some (Ptr 1 0))) [7; 7; 7] [5; 6; 7; 8; 9]
    [1; 2; 3; 4; 5; 6; 7; 8] 4 Hb).
  - vm_compute; congruence.
  - repeat constructor; unfold is_u32; lia.
  - reflexivity.
  - reflexivity.
  - lia.
  - vm_compute; congruence.
Defined.

(** ** Retransmission *)

Lemma reliable_can_send_spec now rel :
  reliable_can_send now rel = true <->
  exists i e, array rel !! i = Some e /\ active e = true /\ next_try e <= now.
Proof.
  unfold reliable_can_send. destruct (find_entry _ rel) as [i|] eqn:Ef.
  - apply find_entry_Some in Ef as (e & He & Hf). apply andb_true_iff in Hf as [? ?].
    rewrite Z.geb_leb in *. bool_simp. split; eauto.
  - split; [done|]. intros (i & e & He & Ha & Hn). eapply find_entry_None in Ef; [|exact He].
    cbn beta in Ef. rewrite Ha, Z.geb_leb in Ef. simpl in Ef. bool_simp. lia.
Qed.

Lemma send_timeout_from_spec now ret l :
  0 <= ret < 2147483648 -> Forall (fun e => next_try e - now < 2147483648) l ->
  let r := send_timeout_from now ret l in
  0 <= r <= ret /\
  (forall i e, l !! i = Some e -> active e = true -> now + r <= Z.max now (next_try e)) /\
  (r = ret \/ exists i e, l !! i = Some e /\ active e = true /\ next_try e <= now + r).
Proof.
  intros Hret Hl. revert ret Hret. induction Hl as [|e l He Hl IH]; intros ret Hret; cbn [send_timeout_from].
  { split; [lia|]. split; [intros i e; by destruct i|by left]. }
  destruct (active e) eqn:Ha.
  2:{ destruct (IH ret Hret) as (? & Hlo & Hhi). split; [done|]. split.
      - intros [|i] e'; simpl; [intros [= <-]; congruence|apply Hlo].
      - destruct Hhi as [?|(i & e' & ?)]; [by left|right; by exists (S i), e']. }
  destruct (next_try e <=? now) eqn:En; bool_simp.
  { split; [lia|]. split; [intros; lia|]. right. exists 0%nat, e. split; [done|]. split; [done|lia]. }
  wrap_simp. rewrite min_int_spec.
  destruct (IH (Z.min ret (next_try e - now))) as (Hr & Hlo & Hhi); [lia|].
  split; [lia|]. split.
  - intros [|i] e'; simpl; [intros [= <-] _; lia|apply Hlo].
  - destruct Hhi as [Heq|(i & e' & ?)]; [|right; by exists (S i), e'].
    destruct (Z.min_spec ret (next_try e - now)) as [[? Hm]|[? Hm]]; [left; lia|].
    right. exists 0%nat, e. split; [done|]. split; [done|lia].
Qed.

(** The retransmission timer is exact.  Sleeping for reliable_send_timeout
    seconds never oversleeps and never wakes up early: no packet becomes due
    before, and when the time is less than BIG_TIMEOUT a packet is due at its end;
    it is 0 exactly when reliable_can_send holds now. *)
Theorem reliable_send_timeout_exact now rel :
  Forall (fun e => next_try e - now < 2147483648) (array rel) ->
  let r := reliable_send_timeout now rel in
  0 <= r <= BIG_TIMEOUT /\ 
  (forall t, now <= t < now + r -> reliable_can_send t rel = false) /\
  (r < BIG_TIMEOUT -> reliable_can_send (now + r) rel = true) /\
  (r = 0 <-> reliable_can_send now rel = true).
Proof.
  intros Hl r. unfold r, reliable_send_timeout.
  destruct (send_timeout_from_spec now BIG_TIMEOUT (array rel)) as (Hr & Hlo & Hhi);
    [unfold BIG_TIMEOUT; lia|done|]. fold r.
  assert (r < BIG_TIMEOUT -> reliable_can_send (now + r) rel = true) as Hdue.
  { intros Hlt. destruct Hhi as [Heq|Hex]; [unfold r, reliable_send_timeout in *; lia|].
    by apply reliable_can_send_spec. }
  split; [done|]. split; [|split; [done|]].
  - intros t Ht. apply not_true_iff_false. intros (i & e & He & Ha & Hn)%reliable_can_send_spec.
    specialize (Hlo i e He Ha).
    unfold r, reliable_send_timeout in *. lia.
  - split.
    + intros H0. assert (r = 0) as Hr0 by exact H0. rewrite Hr0, Z.add_0_r in Hdue. by apply Hdue.
    + intros (i & e & He & Ha & Hn)%reliable_can_send_spec. specialize (Hlo i e He Ha).
      unfold r, reliable_send_timeout in *. lia.
Qed.

Lemma reliable_send_timeout_exact_witness :
  let rel := Rel 2 3 0 [Entry true 2 107 1 4 clear_buf; clear_entry; Entry true 2 105 2 4 clear_buf] in
  reliable_send_timeout 100 rel = 5 /\
  (forall t, 100 <= t < 105 -> reliable_can_send t rel = false) /\ reliable_can_send 105 rel = true.
Proof.
  destruct (reliable_send_timeout_exact 100
    (Rel 2 3 0 [Entry true 2 107 1 4 clear_buf; clear_entry; Entry true 2 105 2 4 clear_buf]))
    as (_ & H1 & H2 & _); [repeat constructor; simpl; lia|].
  split; [reflexivity|]. split; [exact H1|]. apply H2. reflexivity.
Defined.
