(* ===== verification/Timing.v ===== *)
(** src/otime.h, src/otime.c, src/interval.h and src/interval.c: struct timeval
    arithmetic, rate limits, activity intervals and recurring timers.

    time_t values are unbounded; ints wrap at 32 bits.  [now] is an argument. *)

From S2P Require Import Prelude Integer.

(** ** struct timeval *)

Record timeval := Tv { tv_sec : Z; tv_usec : Z }.

Definition tv_clear : timeval := Tv 0 0.
Definition tv_defined (tv : timeval) : bool := (tv_sec tv >? 0) && (tv_usec tv >? 0).

(** [max_seconds] is unsigned; the differences are converted to int. *)
Definition tv_subtract (tv1 tv2 : timeval) (max_seconds : Z) : Z :=
  let max_usec := i32 (u32 (max_seconds * 1000000)) in
  let sec_diff := i32 (tv_sec tv1 - tv_sec tv2) in
  if sec_diff >? i32 (i32 max_seconds + 10) then max_usec
  else if sec_diff <? i32 (- i32 (i32 max_seconds + 10)) then i32 (- max_usec)
  else constrain_int (i32 (i32 (sec_diff * 1000000) + (tv_usec tv1 - tv_usec tv2)))
         (i32 (- max_usec)) max_usec.

Definition tv_add (dest src : timeval) : timeval :=
  let sec := tv_sec dest + tv_sec src in
  let usec := tv_usec dest + tv_usec src in
  let sec := sec + Z.shiftr usec 20 in
  let usec := Z.land usec 1048575 in (* 0x000FFFFF *)
  if usec >=? 1000000 then Tv (sec + 1) (usec - 1000000) else Tv sec usec.

Definition tv_lt (t1 t2 : timeval) : bool :=
  if tv_sec t1 <? tv_sec t2 then true
  else if tv_sec t1 >? tv_sec t2 then false
  else tv_usec t1 <? tv_usec t2.
Definition tv_le (t1 t2 : timeval) : bool :=
  if tv_sec t1 <? tv_sec t2 then true
  else if tv_sec t1 >? tv_sec t2 then false
  else tv_usec t1 <=? tv_usec t2.
Definition tv_ge (t1 t2 : timeval) : bool :=
  if tv_sec t1 >? tv_sec t2 then true
  else if tv_sec t1 <? tv_sec t2 then false
  else tv_usec t1 >=? tv_usec t2.
Definition tv_gt (t1 t2 : timeval) : bool :=
  if tv_sec t1 >? tv_sec t2 then true
  else if tv_sec t1 <? tv_sec t2 then false
  else tv_usec t1 >? tv_usec t2.
Definition tv_eq (t1 t2 : timeval) : bool :=
  (tv_sec t1 =? tv_sec t2) && (tv_usec t1 =? tv_usec t2).

(** while (usec < 0): each round adds a second's worth, so [fuel] is the number of
    seconds that make usec non-negative. *)
Fixpoint delta_loop (fuel : nat) (sec usec : Z) : Z * Z :=
  match fuel with
  | O => (sec, usec)
  | S k => if usec <? 0 then delta_loop k (i32 (sec - 1)) (i32 (usec + 1000000)) else (sec, usec)
  end.
Definition tv_delta (t1 t2 : timeval) : timeval :=
  let sec := i32 (tv_sec t2 - tv_sec t1) in
  let usec := i32 (tv_usec t2 - tv_usec t1) in
  let '(sec, usec) := delta_loop (Z.to_nat (- usec / 1000000 + 1)) sec usec in
  if sec <? 0 then Tv 0 0 else Tv sec usec.

Definition TV_WITHIN_SIGMA_MAX_SEC : Z := 600.
Definition tv_within_sigma (t1 t2 : timeval) (sigma : Z) : bool :=
  let delta := tv_subtract t1 t2 TV_WITHIN_SIGMA_MAX_SEC in
  (i32 (- i32 sigma) <=? delta) && (delta <=? i32 sigma).

(** *wakeup is returned. *)
Definition interval_earliest_wakeup (wakeup at_ current : Z) : Z :=
  if at_ >? current then
    let delta := i32 (at_ - current) in
    let wakeup := if delta <? wakeup then delta else wakeup in
    if wakeup <? 0 then 0 else wakeup
  else wakeup.

(** ** struct frequency_limit *)

Record frequency_limit := Freq { f_max : Z; f_per : Z; f_n : Z; f_reset : Z }.

Definition frequency_limit_init (max per : Z) : result frequency_limit :=
  _ ← assert_ ((max >=? 0) && (per >=? 0));
  Ok (Freq max per 0 0).

Definition frequency_limit_event_allowed (now : Z) (f : frequency_limit) : bool * frequency_limit :=
  if negb (f_per f =? 0) then
    let f := if now >=? f_reset f + f_per f then Freq (f_max f) (f_per f) 0 now else f in
    let n := i32 (f_n f + 1) in
    (n <=? f_max f, Freq (f_max f) (f_per f) n (f_reset f))
  else (true, f).

(** ** struct interval *)

Record interval := Interval {
  refresh : Z; horizon : Z; future_trigger : Z; last_action : Z; last_test_true : Z
}.

Definition interval_init (horizon refresh : Z) : interval := Interval refresh horizon 0 0 0.

Definition interval_test (now : Z) (top : interval) : bool * interval :=
  let trigger := negb (future_trigger top =? 0) && (now >=? future_trigger top) in
  let ft := if trigger then 0 else future_trigger top in
  if (last_action top + horizon top >? now) || (last_test_true top + refresh top <=? now) || trigger
  then (true, Interval (refresh top) (horizon top) ft (last_action top) now)
  else (false, Interval (refresh top) (horizon top) ft (last_action top) (last_test_true top)).

Definition interval_schedule_wakeup (now : Z) (top : interval) (wakeup : Z) : Z :=
  let wakeup := interval_earliest_wakeup wakeup (last_test_true top + refresh top) now in
  interval_earliest_wakeup wakeup (future_trigger top) now.

Definition interval_future_trigger (now : Z) (top : interval) (wakeup : Z) : interval :=
  if negb (wakeup =? 0)
  then Interval (refresh top) (horizon top) (now + wakeup) (last_action top) (last_test_true top)
  else top.

Definition interval_action (now : Z) (top : interval) : interval :=
  Interval (refresh top) (horizon top) (future_trigger top) now (last_test_true top).

(** ** struct event_timeout *)

Record event_timeout := Et { et_defined : bool; et_n : Z; et_last : Z }.

Definition event_timeout_defined (et : event_timeout) : bool := et_defined et.
Definition event_timeout_clear : event_timeout := Et false 0 0.
Definition event_timeout_init (n local_now : Z) : event_timeout :=
  Et true (if n >=? 0 then n else 0) local_now.
Definition event_timeout_reset (now : Z) (et : event_timeout) : event_timeout :=
  if et_defined et then Et true (et_n et) now else et.

Definition ETT_DEFAULT : Z := -1.

(** [tv] may be NULL.  [wakeup] is computed in time_t and converted to int. *)
Definition event_timeout_trigger (now : Z) (et : event_timeout) (tv : option timeval)
  (et_const_retry : Z) : bool * event_timeout * option timeval :=
  if et_defined et then
    let wakeup := i32 (i32 (et_last et) + et_n et - now) in
    let '(ret, et, wakeup) :=
      if wakeup <=? 0 then
        if et_const_retry <? 0 then (true, Et true (et_n et) now, et_n et)
        else (false, et, et_const_retry)
      else (false, et, wakeup) in
    let tv := match tv with
              | Some t => if wakeup <? tv_sec t then Some (Tv wakeup 0) else Some t
              | None => None
              end in
    (ret, et, tv)
  else (false, et, tv).

(** ** Specification: times in microseconds *)

Definition usec_of (t : timeval) : Z := tv_sec t * 1000000 + tv_usec t.
Definition tv_norm (t : timeval) : Prop := 0 <= tv_usec t < 1000000.

Lemma tv_lt_spec t1 t2 : tv_norm t1 -> tv_norm t2 -> tv_lt t1 t2 = (usec_of t1 <? usec_of t2).
Proof. unfold tv_norm, tv_lt, usec_of. intros. repeat case_test; lia. Qed.
Lemma tv_le_spec t1 t2 : tv_norm t1 -> tv_norm t2 -> tv_le t1 t2 = (usec_of t1 <=? usec_of t2).
Proof. unfold tv_norm, tv_le, usec_of. intros. repeat case_test; lia. Qed.
Lemma tv_ge_spec t1 t2 : tv_norm t1 -> tv_norm t2 -> tv_ge t1 t2 = (usec_of t2 <=? usec_of t1).
Proof. unfold tv_norm, tv_ge, usec_of. intros. rewrite Z.geb_leb. repeat case_test; lia. Qed.
Lemma tv_gt_spec t1 t2 : tv_norm t1 -> tv_norm t2 -> tv_gt t1 t2 = (usec_of t2 <? usec_of t1).
Proof. unfold tv_norm, tv_gt, usec_of. intros. repeat case_test; lia. Qed.

(** Tv_subtract is the exact difference in microseconds, clamped to
    max_seconds either way, and none of its int computations overflows, for time
    stamps whose seconds differ by less than 2^31 and limits up to 2137 seconds. *)
Lemma tv_subtract_clamps t1 t2 max :
  tv_norm t1 -> tv_norm t2 -> -2147483648 <= tv_sec t1 - tv_sec t2 < 2147483648 ->
  0 <= max <= 2136 ->
  tv_subtract t1 t2 max
  = Z.min (Z.max (usec_of t1 - usec_of t2) (- (max * 1000000))) (max * 1000000).
Proof.
  unfold tv_norm, usec_of, tv_subtract. intros H1 H2 Hs Hm. wrap_simp.
  rewrite !Z.gtb_ltb. case_test; [lia|]. case_test; [lia|].
  rewrite constrain_int_spec by lia. wrap_simp. f_equal. f_equal. lia.
Qed.

Lemma tv_subtract_clamps_witness :
  tv_subtract (Tv 105 200000) (Tv 100 900000) 10 = 4300000 /\
  tv_subtract (Tv 105 200000) (Tv 1000 900000) 10 = -10000000.
Proof.
  split; (etransitivity; [apply tv_subtract_clamps; unfold tv_norm; simpl; lia|reflexivity]).
Defined.

(** Tv_add adds times only while the microseconds stay below 2^20.  The carry is
    taken with a shift and mask by 2^20 but counts as 1,000,000 microseconds, so
    every carry of that kind loses 48,576 microseconds. *)
Lemma tv_add_carry t1 t2 :
  tv_norm t1 -> tv_norm t2 ->
  tv_norm (tv_add t1 t2) /\
  usec_of (tv_add t1 t2)
  = usec_of t1 + usec_of t2 - (if tv_usec t1 + tv_usec t2 <? 1048576 then 0 else 48576).
Proof.
  unfold tv_norm, tv_add, usec_of. intros H1 H2. set (u := tv_usec t1 + tv_usec t2).
  change 1048575 with (Z.ones 20). rewrite Z.land_ones, Z.shiftr_div_pow2 by lia.
  change (2 ^ 20) with 1048576. assert (0 <= u < 2000000) by (unfold u; lia).
  destruct (u <? 1048576) eqn:E; bool_simp.
  - rewrite Z.div_small, Z.mod_small by lia. rewrite Z.geb_leb. case_test; simpl; unfold u in *; lia.
  - assert (u / 1048576 = 1) as -> by (symmetry; apply Z.div_unique with (u - 1048576); lia).
    assert (u mod 1048576 = u - 1048576) as ->
      by (symmetry; apply Z.mod_unique with 1; lia).
    rewrite Z.geb_leb. replace (_ <=? _) with false by lia. simpl. unfold u in *. lia.
Qed.

(** Half a second and six tenths make 1.051424 seconds. *)
Lemma tv_add_carry_witness :
  tv_add (Tv 0 500000) (Tv 0 600000) = Tv 1 51424 /\
  usec_of (tv_add (Tv 0 500000) (Tv 0 600000)) = 1100000 - 48576.
Proof.
  split; [reflexivity|].
  exact (proj2 (tv_add_carry (Tv 0 500000) (Tv 0 600000) ltac:(unfold tv_norm; simpl; lia)
                  ltac:(unfold tv_norm; simpl; lia))).
Defined.

(** ** Rate limits *)

(** The events of a list of times. *)
Fixpoint frequency_run (nows : list Z) (f : frequency_limit) : list bool :=
  match nows with
  | [] => []
  | now :: r => let '(ok, f) := frequency_limit_event_allowed now f in ok :: frequency_run r f
  end.

Definition allowed (l : list bool) : Z := Zlen (filter (fun b => b = true) l).

Lemma allowed_cons b l : allowed (b :: l) = (if b then 1 else 0) + allowed l.
Proof. unfold allowed. rewrite filter_cons. destruct b; simpl; [rewrite Zlen_cons|]; lia. Qed.

Definition freq_ok (f : frequency_limit) (k : nat) : Prop :=
  0 < f_per f /\ 0 <= f_n f /\ f_n f + Z.of_nat k < 2147483648 /\ 0 <= f_max f < 2147483648.

(** Inside a period. *)
Lemma frequency_same_period nows f :
  freq_ok f (length nows) -> Forall (fun t => t < f_reset f + f_per f) nows ->
  allowed (frequency_run nows f) <= Z.max 0 (f_max f - f_n f).
Proof.
  intros Hok Hin. revert f Hok Hin. induction nows as [|now r IH]; intros f Hok Hin; cbn [frequency_run].
  { change (allowed []) with 0. lia. }
  destruct Hok as (Hp & Hn & Hk & Hmax). cbn [length] in Hk.
  apply Forall_cons_iff in Hin as [Hnow Hr].
  unfold frequency_limit_event_allowed. replace (f_per f =? 0) with false by blia.
  replace (now >=? _) with false by blia. cbn [negb]. wrap_simp. rewrite allowed_cons.
  specialize (IH (Freq (f_max f) (f_per f) (f_n f + 1) (f_reset f))). unfold freq_ok in IH.
  cbn [f_max f_per f_n f_reset] in IH. specialize (IH ltac:(lia) Hr).
  destruct (f_n f + 1 <=? f_max f) eqn:E; bool_simp; lia.
Qed.

(** A rate limit holds in every window.  Over any stretch of events shorter than
    one period, whatever the limiter's state at its start, at most
    what is left of the current period's allowance plus max are allowed (a stretch
    can touch two periods). *)
Theorem frequency_limit_window nows f first :
  freq_ok f (length nows) ->
  Forall (fun t => first <= t < first + f_per f) nows ->
  allowed (frequency_run nows f) <= Z.max 0 (f_max f - f_n f) + f_max f.
Proof.
  intros Hok Hin. revert f Hok Hin. induction nows as [|now r IH]; intros f Hok Hin; cbn [frequency_run].
  { change (allowed []) with 0. destruct Hok as (_ & _ & _ & ?). lia. }
  destruct Hok as (Hp & Hn & Hk & Hmax). cbn [length] in Hk.
  apply Forall_cons_iff in Hin as [Hnow Hr].
  unfold frequency_limit_event_allowed. replace (f_per f =? 0) with false by blia. cbn [negb].
  destruct (now >=? f_reset f + f_per f) eqn:E.
  - simpl. wrap_simp. change (0 + 1) with 1. rewrite allowed_cons.
    pose proof (frequency_same_period r (Freq (f_max f) (f_per f) 1 now)) as Hsame.
    unfold freq_ok in Hsame. simpl in Hsame.
    assert (allowed (frequency_run r (Freq (f_max f) (f_per f) 1 now)) <= Z.max 0 (f_max f - 1)).
    { apply Hsame; [lia|]. eapply Forall_impl; [|exact Hr]. simpl. intros. lia. }
    destruct (1 <=? f_max f) eqn:E1; bool_simp; lia.
  - wrap_simp. rewrite allowed_cons.
    specialize (IH (Freq (f_max f) (f_per f) (f_n f + 1) (f_reset f))). unfold freq_ok in IH.
    cbn [f_max f_per f_n f_reset] in IH. specialize (IH ltac:(lia) Hr).
    destruct (f_n f + 1 <=? f_max f) eqn:E1; bool_simp; lia.
Qed.

Lemma frequency_limit_window_witness :
  allowed (frequency_run [10; 11; 12; 12; 13; 14; 15] (Freq 2 6 1 8)) <= 3.
Proof.
  apply (frequency_limit_window [10; 11; 12; 12; 13; 14; 15] (Freq 2 6 1 8) 10).
  - unfold freq_ok. simpl. lia.
  - repeat constructor; simpl; lia.
Defined.

(** ** Recurring timers *)

(** The values of a timer for which the int computation of [wakeup] is exact. *)
Definition et_ok (now : Z) (et : event_timeout) : Prop :=
  0 <= et_n et < 1073741824 /\ is_i32 (et_last et) /\
  -1073741824 <= et_last et + et_n et - now < 1073741824.

(** A recurring timer never makes the event loop sleep past its due time.
    event_timeout_trigger fires exactly when n seconds have passed since the last
    time it fired, restarts the period when it does, and lowers the select timeout
    to the seconds left (never raises it); so a loop that sleeps at most tv_sec
    finds the timer due no later than it should. *)
Theorem event_timeout_due now et t :
  et_ok now et -> et_defined et = true ->
  let '(fired, et', tv') := event_timeout_trigger now et (Some t) ETT_DEFAULT in
  fired = (et_last et + et_n et <=? now) /\
  et' = (if fired then Et true (et_n et) now else et) /\
  exists t', tv' = Some t' /\ tv_sec t' = Z.min (tv_sec t) (et_last et' + et_n et' - now) /\
    (tv_sec t' < tv_sec t -> tv_usec t' = 0).
Proof.
  unfold et_ok, is_i32. intros (Hn & Hl & Hd) Hdef. unfold event_timeout_trigger, ETT_DEFAULT.
  rewrite Hdef. wrap_simp. destruct (et_last et + et_n et - now <=? 0) eqn:E; bool_simp.
  - replace (-1 <? 0) with true by lia. split; [lia|]. split; [done|].
    case_test; eexists; (split; [done|]); simpl; lia.
  - split; [lia|]. split; [done|]. case_test; eexists; (split; [done|]); simpl; lia.
Qed.

Lemma event_timeout_due_witness :
  event_timeout_trigger 103 (Et true 10 100) (Some (Tv 60 500)) ETT_DEFAULT
  = (false, Et true 10 100, Some (Tv 7 0)) /\
  exists t', Some (Tv 7 0) = Some t' /\ tv_sec t' = Z.min 60 (100 + 10 - 103) /\
    (tv_sec t' < 60 -> tv_usec t' = 0).
Proof.
  split; [reflexivity|].
  exact (proj2 (proj2 (event_timeout_due 103 (Et true 10 100) (Tv 60 500)
    ltac:(unfold et_ok, is_i32; simpl; lia) eq_refl))).
Defined.
