(* ===== verification/Fragment.v ===== *)
(** src/fragment.h and src/fragment.c: splitting a datagram that exceeds the
    dynamic MTU into fragments, and joining the fragments a peer sends, in any
    order, inside a sliding window of partly received datagrams.

    Buffers are those of Buffer.v: the datagram handed back by fragment_incoming
    is the assembly buffer itself, and fragment_ready_to_send builds its packet in
    the memory of outgoing_return. *)

From stdpp Require Import functions.
From S2P Require Import Prelude Buffer Integer Mtu Timing.

(** ** Data *)

Definition N_FRAG_BUF : Z := 25.
Definition FRAG_TTL_SEC : Z := 10.
Definition FRAG_WAKEUP_INTERVAL : Z := 5.
Definition FRAG_MAP_MASK : Z := 4294967295. (* 0xFFFFFFFF *)
Definition MAX_FRAGS : Z := 32.
Definition N_SEQ_ID : Z := 256.

Definition FRAG_TYPE_MASK : Z := 3.
Definition FRAG_TYPE_SHIFT : Z := 0.
Definition FRAG_WHOLE : Z := 0.
Definition FRAG_YES_NOTLAST : Z := 1.
Definition FRAG_YES_LAST : Z := 2.
Definition FRAG_TEST : Z := 3.
Definition FRAG_SEQ_ID_MASK : Z := 255.
Definition FRAG_SEQ_ID_SHIFT : Z := 2.
Definition FRAG_ID_MASK : Z := 31.
Definition FRAG_ID_SHIFT : Z := 10.
Definition FRAG_SIZE_MASK : Z := 16383.
Definition FRAG_SIZE_SHIFT : Z := 15.
Definition FRAG_SIZE_ROUND_SHIFT : Z := 2.
Definition FRAG_SIZE_ROUND_MASK : Z := Z.shiftl 1 FRAG_SIZE_ROUND_SHIFT - 1.

Record fragment := Fragment {
  fr_defined : bool;
  max_frag_size : Z;
  map : Z;
  timestamp : Z;
  fr_buf : buffer
}.

Record fragment_list := FragList {
  fl_seq_id : Z;
  fl_index : Z;
  fragments : list fragment
}.

Record fragment_master := FragMaster {
  fm_wakeup : event_timeout;
  received_os_mtu_hint : bool;
  outgoing_seq_id : Z;
  outgoing_frag_size : Z;
  outgoing_frag_id : Z;
  outgoing : buffer;
  outgoing_return : buffer;
  incoming : fragment_list
}.

Definition with_defined (x : fragment) (d : bool) : fragment :=
  Fragment d (max_frag_size x) (map x) (timestamp x) (fr_buf x).
Definition with_fr_buf (x : fragment) (b : buffer) : fragment :=
  Fragment (fr_defined x) (max_frag_size x) (map x) (timestamp x) b.
Definition with_incoming (f : fragment_master) (l : fragment_list) : fragment_master :=
  FragMaster (fm_wakeup f) (received_os_mtu_hint f) (outgoing_seq_id f) (outgoing_frag_size f)
    (outgoing_frag_id f) (outgoing f) (outgoing_return f) l.
Definition with_fragment (l : fragment_list) (i : Z) (x : fragment) : fragment_list :=
  FragList (fl_seq_id l) (fl_index l) (<[Z.to_nat i := x]> (fragments l)).
Definition with_outgoing (f : fragment_master) (seq size id : Z) (b : buffer) : fragment_master :=
  FragMaster (fm_wakeup f) (received_os_mtu_hint f) seq size id b (outgoing_return f) (incoming f).

(** ** Set-up *)

Definition fragment_zero : fragment := Fragment false 0 0 0 clear_buf.

(** ALLOC_OBJ_CLEAR; [rnd] is get_random (). *)
Definition fragment_init (now rnd : Z) (f : frame) : fragment_master * frame :=
  (FragMaster (event_timeout_init FRAG_WAKEUP_INTERVAL now) false
     (Z.land (i32 rnd) (N_SEQ_ID - 1)) 0 0 clear_buf clear_buf
     (FragList 0 0 (replicate (Z.to_nat N_FRAG_BUF) fragment_zero)),
   frame_add_to_extra_frame f 4).

Fixpoint alloc_frags (fill : Z -> Z) (f : frame) (l : list fragment) : M (list fragment) :=
  match l with
  | [] => mret []
  | x :: r => b ← alloc_buf fill (BUF_SIZE f); r ← alloc_frags fill f r;
              mret (with_fr_buf x b :: r)
  end.
Definition fragment_list_buf_init (fill : Z -> Z) (l : fragment_list) (f : frame)
  : M fragment_list :=
  fs ← alloc_frags fill f (fragments l); mret (FragList (fl_seq_id l) (fl_index l) fs).

Definition fragment_frame_init (fill : Z -> Z) (f : fragment_master) (fr : frame)
  : M fragment_master :=
  l ← fragment_list_buf_init fill (incoming f) fr;
  o ← alloc_buf fill (BUF_SIZE fr);
  r ← alloc_buf fill (BUF_SIZE fr);
  mret (FragMaster (fm_wakeup f) (received_os_mtu_hint f) (outgoing_seq_id f)
          (outgoing_frag_size f) (outgoing_frag_id f) o r l).

Fixpoint free_frags (l : list fragment) : M (list fragment) :=
  match l with
  | [] => mret []
  | x :: r => b ← free_buf (fr_buf x); r ← free_frags r; mret (with_fr_buf x b :: r)
  end.
Definition fragment_list_buf_free (l : fragment_list) : M fragment_list :=
  fs ← free_frags (fragments l); mret (FragList (fl_seq_id l) (fl_index l) fs).
(** The master itself is freed last and not used again. *)
Definition fragment_free (f : fragment_master) : M unit :=
  _ ← fragment_list_buf_free (incoming f);
  _ ← free_buf (outgoing f);
  _ ← free_buf (outgoing_return f);
  mret tt.

(** ** Receiving *)

(** while (diff > 0): [diff] is the fuel; the body runs diff times. *)
Fixpoint advance_window (diff : nat) (l : fragment_list) : result fragment_list :=
  match diff with
  | O => Ok l
  | S k =>
      index ← modulo_add (fl_index l) 1 N_FRAG_BUF;
      x ← aget (fragments l) index;
      fs ← aset (fragments l) index (with_defined x false);
      seq_id ← modulo_add (fl_seq_id l) 1 N_SEQ_ID;
      advance_window k (FragList seq_id index fs)
  end.

(** The buffer is returned as its index in [fragments]. *)
Definition fragment_list_get_buf (l : fragment_list) (seq_id : Z) : result (Z * fragment_list) :=
  diff ← modulo_subtract seq_id (fl_seq_id l) N_SEQ_ID;
  let '(diff, l) :=
    if Z.abs diff >=? N_FRAG_BUF
    then (0, FragList seq_id 0 ((fun x => with_defined x false) <$> fragments l))
    else (diff, l) in
  l ← advance_window (Z.to_nat diff) l;
  let diff := if diff >? 0 then 0 else diff in
  i ← modulo_add (fl_index l) diff N_FRAG_BUF;
  if i <? Zlen (fragments l) then Ok (i, l) else Fault.

(** The branch of fragment_incoming for a fragment; [None] is FRAG_ERR. *)
Definition fragment_incoming_frag (now : Z) (f : fragment_master) (buf : buffer) (fr : frame)
  (flags frag_type : Z) : M (fragment_master * option buffer) :=
  let seq_id := Z.land (Z.shiftr flags FRAG_SEQ_ID_SHIFT) FRAG_SEQ_ID_MASK in
  let n := Z.land (Z.shiftr flags FRAG_ID_SHIFT) FRAG_ID_MASK in
  let size := if frag_type =? FRAG_YES_LAST
              then i32 (Z.shiftl (Z.land (Z.shiftr flags FRAG_SIZE_SHIFT) FRAG_SIZE_MASK)
                                 FRAG_SIZE_ROUND_SHIFT)
              else b_len buf in
  '(i, l) ← lift (fragment_list_get_buf (incoming f) seq_id);
  if negb (Z.land size FRAG_SIZE_ROUND_MASK =? 0) then mret (with_incoming f l, None)
  else
    frag ← lift (aget (fragments l) i);
    frag ← (if negb (fr_defined frag) || (fr_defined frag && negb (max_frag_size frag =? size)) then
              let '(ok, b) := buf_init (fr_buf frag)
                                (FRAME_HEADROOM_ADJ fr FRAME_HEADROOM_MARKER_FRAGMENT) in
              _ ← ASSERT ok;
              mret (Fragment true size 0 (timestamp frag) b)
            else mret frag);
    '(ok, b) ← buf_copy_range (fr_buf frag) (i32 (n * size)) buf 0 (b_len buf);
    if negb ok then mret (with_incoming f (with_fragment l i frag), None)
    else
      let map := Z.lor (map frag)
                   (u32 (Z.shiftl (if frag_type =? FRAG_YES_LAST then FRAG_MAP_MASK else 1) n)) in
      let done := Z.land map FRAG_MAP_MASK =? FRAG_MAP_MASK in
      let frag := Fragment (if done then false else fr_defined frag) (max_frag_size frag) map now b in
      mret (with_incoming f (with_fragment l i frag),
            Some (if done then fr_buf frag else with_len buf 0)).

(** The buffer comes back with length 0 when there is nothing to deliver. *)
Definition fragment_incoming (now : Z) (f : fragment_master) (buf : buffer) (fr : frame)
  : M (fragment_master * buffer) :=
  if b_len buf >? 0 then
    '(r, buf) ← buf_read buf 4;
    match r with
    | None => mret (f, with_len buf 0)
    | Some bs =>
        let flags := be_dec bs in
        let frag_type := Z.land (Z.shiftr flags FRAG_TYPE_SHIFT) FRAG_TYPE_MASK in
        if frag_type =? FRAG_WHOLE then
          if flag flags (Z.lor FRAG_SEQ_ID_MASK FRAG_ID_MASK)
          then mret (f, with_len buf 0) else mret (f, buf)
        else if (frag_type =? FRAG_YES_NOTLAST) || (frag_type =? FRAG_YES_LAST) then
          '(f, r) ← fragment_incoming_frag now f buf fr flags frag_type;
          mret (f, match r with Some b => b | None => with_len buf 0 end)
        else mret (f, with_len buf 0)
    end
  else mret (f, buf).

(** ** Sending *)

Definition fragment_flags (type seq_id frag_id frag_size : Z) : Z :=
  let flags :=
    Z.lor (Z.lor (Z.shiftl (Z.land type FRAG_TYPE_MASK) FRAG_TYPE_SHIFT)
                 (Z.shiftl (Z.land seq_id FRAG_SEQ_ID_MASK) FRAG_SEQ_ID_SHIFT))
          (Z.shiftl (Z.land frag_id FRAG_ID_MASK) FRAG_ID_SHIFT) in
  if (type =? FRAG_WHOLE) || (type =? FRAG_YES_NOTLAST) then flags
  else Z.lor flags (Z.shiftl (Z.land (Z.shiftr frag_size FRAG_SIZE_ROUND_SHIFT) FRAG_SIZE_MASK)
                             FRAG_SIZE_SHIFT).

Definition fragment_prepend_flags (buf : buffer) (type seq_id frag_id frag_size : Z) : M buffer :=
  '(ok, buf) ← buf_write_prepend buf (be_enc 4 (fragment_flags type seq_id frag_id frag_size));
  _ ← ASSERT ok;
  mret buf.

(** int division truncates; dividing by zero has no meaning. *)
Definition optimal_fragment_size (len max_frag_size : Z) : result Z :=
  let mfs_aligned := Z.land max_frag_size (Z.lnot FRAG_SIZE_ROUND_MASK) in
  if mfs_aligned =? 0 then Fault
  else
    let div := Z.quot len mfs_aligned in
    let mod_ := Z.rem len mfs_aligned in
    if (div >? 0) && (mod_ >? 0) && (mod_ <? Z.quot (i32 (mfs_aligned * 3)) 4) then
      Ok (min_int mfs_aligned
            (Z.land (i32 (max_frag_size - Z.quot (max_frag_size - mod_) (div + 1)
                          + FRAG_SIZE_ROUND_MASK)) (Z.lnot FRAG_SIZE_ROUND_MASK)))
    else Ok mfs_aligned.

Definition fragment_outgoing_defined (f : fragment_master) : bool := b_len (outgoing f) >? 0.

Definition fragment_ready_to_send (f : fragment_master) (buf : buffer) (fr : frame)
  : M (bool * fragment_master * buffer) :=
  if fragment_outgoing_defined f then
    let last := b_len (outgoing f) <=? outgoing_frag_size f in
    let size := if last then b_len (outgoing f) else outgoing_frag_size f in
    let buf := outgoing_return f in
    let '(ok, buf) := buf_init buf (FRAME_HEADROOM fr) in
    _ ← ASSERT ok;
    '(ok, buf, out) ← buf_copy_n buf (outgoing f) size;
    _ ← ASSERT ok;
    buf ← fragment_prepend_flags buf (if last then FRAG_YES_LAST else FRAG_YES_NOTLAST)
            (outgoing_seq_id f) (outgoing_frag_id f) (outgoing_frag_size f);
    let f := with_outgoing f (outgoing_seq_id f) (outgoing_frag_size f)
               (i32 (outgoing_frag_id f + 1)) out in
    _ ← ASSERT (negb last || (b_len out =? 0));
    mret (true, f, buf)
  else mret (false, f, buf).

Definition fragment_outgoing (f : fragment_master) (buf : buffer) (fr : frame)
  : M (fragment_master * buffer) :=
  if b_len buf >? 0 then
    if b_len buf >? PAYLOAD_SIZE_DYNAMIC fr then
      size ← lift (optimal_fragment_size (b_len buf) (PAYLOAD_SIZE_DYNAMIC fr));
      let f := with_outgoing f (outgoing_seq_id f) size (outgoing_frag_id f) (outgoing f) in
      if b_len buf >? i32 (size * MAX_FRAGS) then mret (f, with_len buf 0)
      else
        let '(ok, out) := buf_init (outgoing f) (FRAME_HEADROOM fr) in
        _ ← ASSERT ok;
        '(ok, out) ← buf_copy out buf;
        _ ← ASSERT ok;
        seq ← lift (modulo_add (outgoing_seq_id f) 1 N_SEQ_ID);
        let f := with_outgoing f seq size 0 out in
        '(ok, f, buf) ← fragment_ready_to_send f (with_len buf 0) fr;
        _ ← ASSERT ok;
        mret (f, buf)
    else
      buf ← fragment_prepend_flags buf FRAG_WHOLE 0 0 0;
      mret (f, buf)
  else mret (f, buf).

(** ** Time to live *)

Definition reap_fragment (now : Z) (x : fragment) : fragment :=
  if fr_defined x && (timestamp x + FRAG_TTL_SEC <=? now) then with_defined x false else x.
Definition fragment_ttl_reap (now : Z) (f : fragment_master) : fragment_master :=
  with_incoming f (FragList (fl_seq_id (incoming f)) (fl_index (incoming f))
                     (reap_fragment now <$> fragments (incoming f))).
Definition fragment_wakeup (now : Z) (f : fragment_master) : fragment_master :=
  fragment_ttl_reap now f.
Definition fragment_housekeeping (now : Z) (f : fragment_master) (tv : timeval)
  : fragment_master * option timeval :=
  let '(fire, et, tv) := event_timeout_trigger now (fm_wakeup f) (Some tv) ETT_DEFAULT in
  let f := FragMaster et (received_os_mtu_hint f) (outgoing_seq_id f) (outgoing_frag_size f)
             (outgoing_frag_id f) (outgoing f) (outgoing_return f) (incoming f) in
  (if fire then fragment_wakeup now f else f, tv).

(** ** Specification: the fragments of a datagram *)

(** Datagram [D] in fragments of [s] bytes. *)
Definition frag_count (s : Z) (D : list byte) : Z := (Zlen D + s - 1) / s.
Definition piece_len (s : Z) (D : list byte) (i : Z) : Z := Z.min s (Zlen D - i * s).
Definition frag_piece (s : Z) (D : list byte) (i : Z) : list byte :=
  slice (i * s) (piece_len s D i) D.
(** Fragment [i] on the wire. *)
Definition frag_packet (seq s : Z) (D : list byte) (i : Z) : list byte :=
  be_enc 4 (fragment_flags (if i =? frag_count s D - 1 then FRAG_YES_LAST else FRAG_YES_NOTLAST)
              seq i s) ++ frag_piece s D i.

(** A datagram that can be sent in fragments of [s] bytes. *)
Record frag_ok (s : Z) (D : list byte) : Prop := {
  go_len : 0 < Zlen D <= 32 * s;
  go_size : 0 < s < 65536;
  go_mod : s mod 4 = 0;
  go_bytes : Forall is_byte D
}.

(** ** Lemmas: numbers *)

Lemma land_not3 x : Z.land x (Z.lnot FRAG_SIZE_ROUND_MASK) = x / 4 * 4.
Proof.
  change FRAG_SIZE_ROUND_MASK with (Z.ones 2). rewrite <- Z.ldiff_land, Z.ldiff_ones_r by lia.
  by rewrite Z.shiftl_mul_pow2, Z.shiftr_div_pow2 by lia.
Qed.

Lemma frag_flags_val type seq id s :
  type = FRAG_YES_NOTLAST \/ type = FRAG_YES_LAST -> 0 <= seq < 256 -> 0 <= id < 32 ->
  0 <= s < 65536 ->
  fragment_flags type seq id s
  = type + seq * 4 + id * 1024 + (if type =? FRAG_YES_LAST then s / 4 * 32768 else 0).
Proof.
  intros Ht Hq Hi Hs. unfold fragment_flags.
  change FRAG_TYPE_MASK with (Z.ones 2). change FRAG_SEQ_ID_MASK with (Z.ones 8).
  change FRAG_ID_MASK with (Z.ones 5). change FRAG_SIZE_MASK with (Z.ones 14).
  unfold FRAG_TYPE_SHIFT, FRAG_SEQ_ID_SHIFT, FRAG_ID_SHIFT, FRAG_SIZE_SHIFT, FRAG_SIZE_ROUND_SHIFT.
  assert (0 <= type < 2 ^ 2) by (destruct Ht as [-> | ->]; done).
  rewrite !Z.land_ones, !Z.shiftl_0_r, !(Z.mod_small _ (2 ^ _)) by lia.
  rewrite (lor_shiftl_add type), (lor_shiftl_add (_ + _)) by lia.
  destruct Ht as [-> | ->]; simpl; [lia|].
  rewrite Z.shiftr_div_pow2, Z.mod_small by (simpl; Z.div_mod_to_equations; lia).
  rewrite lor_shiftl_add by lia. done.
Qed.

(** What the receiver reads from the header of a fragment. *)
Lemma frag_flags_fields type seq id s :
  type = FRAG_YES_NOTLAST \/ type = FRAG_YES_LAST -> 0 <= seq < 256 -> 0 <= id < 32 ->
  0 <= s < 65536 -> s mod 4 = 0 ->
  let flags := fragment_flags type seq id s in
  0 <= flags < 4294967296 /\
  Z.land (Z.shiftr flags FRAG_TYPE_SHIFT) FRAG_TYPE_MASK = type /\
  Z.land (Z.shiftr flags FRAG_SEQ_ID_SHIFT) FRAG_SEQ_ID_MASK = seq /\
  Z.land (Z.shiftr flags FRAG_ID_SHIFT) FRAG_ID_MASK = id /\
  (type = FRAG_YES_LAST ->
   i32 (Z.shiftl (Z.land (Z.shiftr flags FRAG_SIZE_SHIFT) FRAG_SIZE_MASK) FRAG_SIZE_ROUND_SHIFT) = s).
Proof.
  intros Ht Hq Hi Hs Hm flags. subst flags. rewrite frag_flags_val by auto.
  change FRAG_TYPE_MASK with (Z.ones 2). change FRAG_SEQ_ID_MASK with (Z.ones 8).
  change FRAG_ID_MASK with (Z.ones 5). change FRAG_SIZE_MASK with (Z.ones 14).
  unfold FRAG_TYPE_SHIFT, FRAG_SEQ_ID_SHIFT, FRAG_ID_SHIFT, FRAG_SIZE_SHIFT, FRAG_SIZE_ROUND_SHIFT.
  rewrite !Z.land_ones, !Z.shiftr_div_pow2, !Z.shiftl_mul_pow2 by lia.
  change (2 ^ 0) with 1. change (2 ^ 2) with 4. change (2 ^ 5) with 32. change (2 ^ 8) with 256.
  change (2 ^ 10) with 1024. change (2 ^ 14) with 16384. change (2 ^ 15) with 32768.
  assert (0 <= s / 4 < 16384 /\ s / 4 * 4 = s) as [Hs4 Hsd] by (Z.div_mod_to_equations; lia).
  set (x := s / 4) in *. unfold FRAG_YES_NOTLAST, FRAG_YES_LAST in *.
  destruct Ht as [-> | ->]; simpl.
  - split_and!; [lia..| | | |done]; Z.div_mod_to_equations; lia.
  - assert ((2 + seq * 4 + id * 1024 + x * 32768) / 32768 = x) as ->
      by (Z.div_mod_to_equations; lia).
    rewrite (Z.mod_small x) by lia. rewrite (i32_id (x * 4)) by (unfold is_i32; lia).
    split_and!; [lia..| | | |lia]; Z.div_mod_to_equations; lia.
Qed.

Lemma frag_count_range s D :
  frag_ok s D -> 1 <= frag_count s D <= 32 /\
  (frag_count s D - 1) * s < Zlen D <= frag_count s D * s.
Proof. intros []. unfold frag_count. Z.div_mod_to_equations. nia. Qed.

Lemma piece_len_val s D i :
  frag_ok s D -> 0 <= i < frag_count s D ->
  piece_len s D i = (if i =? frag_count s D - 1 then Zlen D - i * s else s) /\
  0 < piece_len s D i <= s /\ 0 <= i * s /\ i * s + piece_len s D i <= Zlen D.
Proof.
  intros H Hi. pose proof (frag_count_range s D H) as (Hk & Hlo & Hhi). destruct H.
  unfold piece_len. case_test; [subst i; nia|]. assert (i * s + 2 * s <= frag_count s D * s) by nia.
  nia.
Qed.

Lemma Zlen_frag_piece s D i :
  frag_ok s D -> 0 <= i < frag_count s D -> Zlen (frag_piece s D i) = piece_len s D i.
Proof. intros H Hi. pose proof (piece_len_val s D i H Hi). apply Zlen_slice; lia. Qed.

(** The size chosen for the fragments of a datagram is a positive multiple of 4
    not above the maximum, and evening out the last fragment never changes the
    number of fragments the datagram needs. *)
Theorem optimal_fragment_size_ok D len max :
  Zlen D = len -> 0 < len <= 536870912 -> 4 <= max <= 536870912 ->
  exists s, optimal_fragment_size len max = Ok s /\ s mod 4 = 0 /\ 0 < s <= max /\
    frag_count s D = frag_count (max / 4 * 4) D.
Proof.
  intros HD Hlen Hmax. unfold optimal_fragment_size, frag_count. rewrite HD.
  rewrite land_not3. set (a := max / 4 * 4).
  assert (a mod 4 = 0 /\ 4 <= a <= max /\ max - 3 <= a) as (Ha & Ha4 & Ham)
    by (unfold a; Z.div_mod_to_equations; lia).
  replace (a =? 0) with false by lia.
  rewrite Z.quot_div_nonneg, Z.rem_mod_nonneg by lia.
  destruct (_ && _) eqn:E.
  2:{ exists a. split_and!; auto; lia. }
  rewrite !Z.gtb_ltb in E. bool_simp. rewrite land_not3, min_int_spec.
  pose proof (Z_div_mod_eq_full len a) as Hl. pose proof (Z.mod_pos_bound len a ltac:(lia)) as Hr.
  set (d := len / a) in *. set (r := len mod a) in *.
  rewrite i32_id in H0 by (unfold is_i32; lia).
  rewrite (Z.quot_div_nonneg (max - r)) by lia.
  pose proof (Z_div_mod_eq_full (max - r) (d + 1)) as Hq.
  pose proof (Z.mod_pos_bound (max - r) (d + 1) ltac:(lia)) as Hqr.
  set (q := (max - r) / (d + 1)) in *. assert (0 <= q <= max - r) as Hqb.
  { split; [apply Z.div_pos; lia|]. apply Z.div_le_upper_bound; nia. }
  unfold FRAG_SIZE_ROUND_MASK, FRAG_SIZE_ROUND_SHIFT. change (Z.shiftl 1 2 - 1) with 3.
  rewrite i32_id by (unfold is_i32; lia).
  set (x := max - q). set (y := (x + 3) / 4 * 4).
  assert (x <= y <= x + 3 /\ y mod 4 = 0) as [Hy Hy4] by (unfold y; Z.div_mod_to_equations; lia).
  assert (a * d <= max * d) by (apply Z.mul_le_mono_nonneg_r; lia).
  assert (len <= x * (d + 1)) as Hx by (unfold x; lia).
  eexists. split; [reflexivity|].
  assert (0 < Z.min a y <= a) as Hs by (unfold x in *; lia).
  split; [destruct (Z.min_spec a y) as [[_ ->] | [_ ->]]; done|]. split; [lia|].
  assert (x * (d + 1) <= y * (d + 1)) by (apply Z.mul_le_mono_nonneg_r; lia).
  assert (Z.min a y * d <= a * d) by (apply Z.mul_le_mono_nonneg_r; lia).
  assert (len <= Z.min a y * (d + 1)) as Hcover.
  { destruct (Z.min_spec a y) as [[_ ->] | [_ ->]]; lia. }
  assert (Z.min a y * d < len) as Hneed by lia.
  transitivity (d + 1); [symmetry; apply Z.div_unique with (len - 1 - Z.min a y * d)
                        |apply Z.div_unique with (r - 1)]; nia.
Qed.

Lemma optimal_fragment_size_ok_witness :
  optimal_fragment_size 1600 1450 = Ok 804 /\
  exists s, optimal_fragment_size 1600 1450 = Ok s /\ s mod 4 = 0 /\ 0 < s <= 1450 /\
    frag_count s (replicate 1600 0) = 2.
Proof.
  split; [reflexivity|].
  exact (optimal_fragment_size_ok (replicate 1600 0) 1600 1450 eq_refl ltac:(lia) ltac:(lia)).
Defined.

(** ** Lemmas: room in the buffers *)

(** Buffers of BUF_SIZE hold the largest payload behind any headroom. *)
Lemma frame_room fr m n :
  frame_ok fr -> 0 <= n <= PAYLOAD_SIZE fr ->
  4 <= frame_headroom fr m /\ frame_headroom fr m + n <= BUF_SIZE fr <= BUF_MAX /\
  PAYLOAD_SIZE_DYNAMIC fr <= PAYLOAD_SIZE fr <= 67108864 /\ 100 <= PAYLOAD_SIZE_DYNAMIC fr.
Proof.
  intros Hf Hn. destruct (frame_headroom_spec fr m Hf) as [Hh _].
  pose proof (FRAME_HEADROOM_BASE_ok fr Hf) as Hb. pose proof (BUF_SIZE_ok fr Hf) as Hs.
  unfold BUF_MAX. rewrite Hs. rewrite Hb in *. clear Hs Hb.
  destruct Hf. unfold PAYLOAD_SIZE, PAYLOAD_SIZE_DYNAMIC, PAYLOAD_ALIGN, FRAME_MAX, TUN_MTU_MIN in *.
  wrap_simp. lia.
Qed.

(** ** Sending *)

(** The buffers of the sender: [rest] is what is left of the datagram. *)
Record tx_ok (h : heap) (fr : frame) (po pr : ptr) (f : fragment_master) (rest : list byte)
  : Prop := {
  tx_frame : frame_ok fr;
  tx_out : buf_rep h po (outgoing f) rest;
  tx_out_cap : b_capacity (outgoing f) = BUF_SIZE fr;
  tx_ret : buf_rep h pr (outgoing_return f) [];
  tx_ret_cap : b_capacity (outgoing_return f) = BUF_SIZE fr;
  tx_ne : blk po <> blk pr;
  tx_seq : 0 <= outgoing_seq_id f < 256
}.

Lemma drop_slice_take {A} (l : list A) i n :
  0 <= i -> slice i n l = take (Z.to_nat n) (drop (Z.to_nat i) l).
Proof. done. Qed.

(** One fragment: what fragment_ready_to_send does while the datagram lasts. *)
Lemma wp_fragment_ready_to_send h fr po pr f D s i buf :
  frag_ok s D -> 0 <= i < frag_count s D -> Zlen D <= PAYLOAD_SIZE fr ->
  s <= PAYLOAD_SIZE_DYNAMIC fr -> outgoing_frag_size f = s -> outgoing_frag_id f = i ->
  tx_ok h fr po pr f (drop (Z.to_nat (i * s)) D) ->
  wp (fragment_ready_to_send f buf fr)
     (fun r h' => exists f' buf', r = (true, f', buf') /\
        buf_rep h' pr buf' (frag_packet (outgoing_seq_id f) s D i) /\
        tx_ok h' fr po pr f' (drop (Z.to_nat ((i + 1) * s)) D) /\
        outgoing_seq_id f' = outgoing_seq_id f /\ outgoing_frag_size f' = s /\
        outgoing_frag_id f' = i + 1 /\ incoming f' = incoming f /\ keeps [blk pr] h h') h.
Proof.
  intros Hg Hi HD Hsf Hsz Hid Ht. destruct Ht as [Hfr Hout Hocap Hret Hrcap Hne Hseq].
  pose proof (piece_len_val s D i Hg Hi) as (Hpl & Hpr & Hlo & Hhi).
  pose proof (frag_count_range s D Hg) as (Hk & Hk1 & Hk2).
  destruct (frame_room fr 0 s Hfr) as (Hr1 & Hr2 & Hr3 & _).
  { destruct Hg. pose proof (frame_room fr 0 (Zlen D) Hfr). lia. }
  rep_facts Hout. rep_facts Hret. destruct Hg as [Hg1 Hg2 Hg3 Hg4] eqn:EHg.
  assert (b_len (outgoing f) = Zlen D - i * s) as Hlen.
  { rewrite <- (buf_rep_Zlen _ _ _ _ Hout). unfold Zlen. rewrite length_drop. unfold Zlen in *. lia. }
  unfold fragment_ready_to_send, fragment_outgoing_defined, FRAME_HEADROOM.
  rewrite Hlen, Hsz, Hid. replace (_ >? 0) with true by blia.
  assert ((Zlen D - i * s <=? s) = (i =? frag_count s D - 1)) as Hlast.
  { unfold piece_len in *. destruct (i =? _) eqn:E; bool_simp; [blia|].
    assert ((i + 2) * s <= frag_count s D * s) by (apply Z.mul_le_mono_nonneg_r; lia). blia. }
  rewrite Hlast. set (last := i =? frag_count s D - 1) in *.
  replace (if last then Zlen D - i * s else s) with (piece_len s D i) by (rewrite Hpl; done).
  destruct (buf_init_spec _ _ _ _ (frame_headroom fr 0) Hret) as [-> Hinit]; [lia|].
  wp_steps. eapply wp_mono.
  { eapply (wp_buf_copy_n h pr _ [] po _ _ (piece_len s D i)); eauto; simpl; lia. }
  intros ? h1 (-> & Hbuf & Hout1 & Hm1). buf_simpl. wp_steps.
  unfold fragment_prepend_flags. wp_steps. eapply wp_mono.
  { eapply wp_buf_write_prepend; [exact Hbuf|]. rewrite Zlen_be_enc4. simpl. lia. }
  intros ? h2 (-> & Hbuf2 & Hm2). wp_steps. buf_simpl. rewrite Hlen.
  apply wp_ASSERT. { unfold last in *. destruct (i =? _) eqn:E; [|done]. simpl. rewrite Hpl. blia. }
  wp_steps. do 2 eexists. split; [reflexivity|]. split; [exact Hbuf2|].
  assert (keeps [blk pr] h h2) as Hk12.
  { eapply keeps_trans; eapply modifies_keeps; eauto; simpl; by apply list_elem_of_singleton. }
  assert (blk po ∉ [blk pr]) by (intros ?%list_elem_of_singleton; congruence).
  split_and!; auto; [|simpl; by wrap_simp].
  split; auto; simpl.
  - rewrite drop_drop, Hlen in Hout1.
    replace (drop (Z.to_nat ((i + 1) * s)) D)
      with (drop (Z.to_nat (i * s) + Z.to_nat (piece_len s D i)) D).
    + eapply buf_rep_other; [exact Hout1|exact Hm2|simpl; congruence].
    + unfold piece_len. destruct (decide (s <= Zlen D - i * s)).
      * f_equal. lia.
      * rewrite !drop_ge; [done|unfold Zlen in *; lia..].
  - eapply buf_rep_empty; [done|].
    apply (mod_valid _ _ _ _ Hm2), (mod_valid _ _ _ _ Hm1). eauto with ovpn.
Qed.

(** The datagram goes out as its fragments, one packet per call: what the main
    loop does with fragment_outgoing's packet and then fragment_ready_to_send. *)
Fixpoint fragment_drain (fuel : nat) (f : fragment_master) (buf : buffer) (fr : frame)
  : M (list (list byte)) :=
  match fuel with
  | O => mret []
  | S k =>
      '(ok, f, buf) ← fragment_ready_to_send f buf fr;
      if negb ok then mret []
      else
        p ← deref (BPTR buf);
        bs ← load p (BLEN buf);
        r ← fragment_drain k f buf fr;
        mret (bs :: r)
  end.
Definition fragment_send (f : fragment_master) (buf : buffer) (fr : frame)
  : M (list (list byte)) :=
  '(f, buf) ← fragment_outgoing f buf fr;
  if b_len buf >? 0 then
    p ← deref (BPTR buf);
    bs ← load p (BLEN buf);
    r ← fragment_drain (Z.to_nat MAX_FRAGS) f buf fr;
    mret (bs :: r)
  else mret [].

(** Reading a packet out of its buffer. *)
Ltac load_packet H :=
  erewrite BPTR_rep by exact H; wp_steps; unfold BLEN;
  eapply wp_load; [exact (br_bytes _ _ _ _ H)|]; wp_steps.

Lemma wp_fragment_drain fuel h fr po pr f D s i buf :
  frag_ok s D -> 0 <= i <= frag_count s D -> Zlen D <= PAYLOAD_SIZE fr ->
  s <= PAYLOAD_SIZE_DYNAMIC fr -> outgoing_frag_size f = s -> outgoing_frag_id f = i ->
  tx_ok h fr po pr f (drop (Z.to_nat (i * s)) D) ->
  frag_count s D - i < Z.of_nat fuel ->
  wp (fragment_drain fuel f buf fr)
     (fun r _ => r = frag_packet (outgoing_seq_id f) s D <$> seqZ i (frag_count s D - i)) h.
Proof.
  intros Hg. revert h f i buf.
  induction fuel as [|fuel IH];
    intros h f i buf Hi HD Hs Hsz Hid Ht Hfuel; cbn [fragment_drain]; [lia|].
  destruct (decide (i = frag_count s D)) as [Hi'|Hne]; [rewrite Hi' in *|].
  - pose proof (frag_count_range s D Hg) as (? & ? & ?). destruct Ht.
    unfold fragment_ready_to_send, fragment_outgoing_defined.
    rewrite <- (buf_rep_Zlen _ _ _ _ tx_out0).
    replace (Zlen _ >? 0) with false by (unfold Zlen in *; rewrite length_drop; blia).
    wp_steps. by rewrite Z.sub_diag.
  - wp_steps. eapply wp_mono; [eapply wp_fragment_ready_to_send; eauto; lia|].
    intros ? h1 (f' & buf' & -> & Hbuf & Ht' & Hseq & Hsz' & Hid' & _ & _). wp_steps.
    load_packet Hbuf.
    eapply wp_mono; [eapply (IH h1 f' (i + 1)); eauto; lia|].
    intros r h' ->. wp_steps. rewrite (seqZ_cons i) by lia. rewrite fmap_cons, Hseq. do 3 f_equal; lia.
Qed.

(** A datagram that exceeds the dynamic MTU leaves as its fragments.  For a
    frame that frame_finalize accepted and any datagram that fits the tunnel and
    needs at most 32 fragments, fragment_outgoing followed by
    fragment_ready_to_send until it has nothing left emits exactly the fragments
    0, 1, ... of the datagram, under the next sequence id, each at most the chosen
    size and the size a multiple of 4; no ASSERT fails. *)
Theorem fragment_send_splits h fr po pr f pb buf D rest :
  tx_ok h fr po pr f rest -> buf_rep h pb buf D -> Forall is_byte D ->
  blk pb <> blk po ->
  PAYLOAD_SIZE_DYNAMIC fr < Zlen D <= PAYLOAD_SIZE fr ->
  exists s, optimal_fragment_size (Zlen D) (PAYLOAD_SIZE_DYNAMIC fr) = Ok s /\
    (s < 65536 -> Zlen D <= 32 * s ->
     frag_ok s D /\ s <= PAYLOAD_SIZE_DYNAMIC fr /\
     wp (fragment_send f buf fr)
        (fun r _ => r = frag_packet ((outgoing_seq_id f + 1) mod 256) s D
                          <$> seqZ 0 (frag_count s D)) h).
Proof.
  intros Ht Hb HD Hpb Hlen. destruct Ht as [Hfr Hout Hocap Hret Hrcap Hne Hseq].
  pose proof (Zlen_nonneg D).
  destruct (frame_room fr 0 (Zlen D) Hfr) as (Hr1 & Hr2 & Hr3 & Hr4); [lia|].
  destruct (optimal_fragment_size_ok D (Zlen D) (PAYLOAD_SIZE_DYNAMIC fr)) as (s & Es & Hs4 & Hs & _);
    [done|lia..|].
  exists s. split; [done|]. intros Hs16 Hmax.
  assert (frag_ok s D) as Hg by (split; auto; lia).
  split; [done|]. split; [lia|].
  pose proof (frag_count_range s D Hg) as (Hk & Hk1 & Hk2).
  rep_facts Hb. rep_facts Hout.
  unfold fragment_send, fragment_outgoing. rewrite <- HL.
  replace (Zlen D >? 0) with true by blia.
  replace (Zlen D >? PAYLOAD_SIZE_DYNAMIC fr) with true by blia. rewrite Es. wp_steps.
  eapply wp_lift; [reflexivity|]. unfold MAX_FRAGS. rewrite (i32_id (s * 32)) by (unfold is_i32; lia).
  replace (Zlen D >? s * 32) with false by blia. unfold FRAME_HEADROOM.
  destruct (buf_init_spec _ _ _ _ (frame_headroom fr 0) Hout) as [Hini Hinit]; [lia|].
  cbn [with_outgoing outgoing outgoing_seq_id]. rewrite Hini. wp_steps.
  eapply wp_mono. { eapply wp_buf_copy; [exact Hinit|exact Hb|]. buf_simpl. lia. }
  intros ? h1 (-> & Hout1 & Hm1). wp_steps. buf_simpl.
  unfold N_SEQ_ID. rewrite modulo_add_ok by lia. wp_steps. eapply wp_lift; [reflexivity|]. wp_steps.
  eapply wp_mono.
  { eapply (wp_fragment_ready_to_send h1 fr po pr _ D s 0); eauto; simpl; try lia.
    split; auto; simpl.
    - eapply buf_rep_other; [exact Hret|exact Hm1|]. simpl. congruence.
    - apply Z.mod_pos_bound. lia. }
  intros ? h2 (f' & buf' & -> & Hbuf & Ht' & Hseq' & Hsz' & Hid' & _ & _). wp_steps.
  cbn [with_outgoing outgoing_seq_id] in *.
  rewrite <- (buf_rep_Zlen _ _ _ _ Hbuf). unfold frag_packet at 1. rewrite Zlen_app, Zlen_be_enc4.
  replace (4 + _ >? 0) with true by (pose proof (Zlen_nonneg (frag_piece s D 0)); blia).
  wp_steps. load_packet Hbuf.
  eapply wp_mono; [eapply (wp_fragment_drain 32 h2 fr po pr f' D s 1); eauto; lia|].
  intros r h' ->. wp_steps. rewrite (seqZ_cons 0) by lia. rewrite fmap_cons, Hseq'. do 3 f_equal; lia.
Qed.

(** ** Receiving: one slot of the window *)

Definition covers (k : Z) (S : list Z) : bool := forallb (fun i => bool_decide (i ∈ S)) (seqZ 0 k).

(** The slot holds fragments [S] of datagram [D]. *)
Record slot_part (h : heap) (fr : frame) (p : ptr) (x : fragment) (s : Z) (D : list byte)
  (S : list Z) : Prop := {
  sp_off : b_offset (fr_buf x) = frame_headroom fr FRAME_HEADROOM_MARKER_FRAGMENT;
  sp_len : b_len (fr_buf x) <= Zlen D;
  sp_size : max_frag_size x = s;
  sp_map : forall j, 0 <= j < 32 ->
    Z.testbit (map x) j
    = bool_decide (j ∈ S) || bool_decide (frag_count s D - 1 ∈ S) && (frag_count s D - 1 <=? j);
  sp_idx : forall i, i ∈ S -> 0 <= i < frag_count s D;
  sp_piece : forall i, i ∈ S ->
    i * s + piece_len s D i <= b_len (fr_buf x) /\
    mload h (ptr_add p (b_offset (fr_buf x) + i * s)) (piece_len s D i) = Some (frag_piece s D i)
}.

Definition slot_rep (h : heap) (fr : frame) (p : ptr) (x : fragment) (s : Z) (D : list byte)
  (S : list Z) : Prop :=
  match S with
  | [] => fr_defined x = false
  | _ => fr_defined x = true /\ slot_part h fr p x s D S
  end.

(** The memory of a slot, whatever it holds. *)
Definition slot_mem (h : heap) (fr : frame) (p : ptr) (x : fragment) : Prop :=
  (exists bs, buf_rep h p (fr_buf x) bs) /\ b_capacity (fr_buf x) = BUF_SIZE fr.

Lemma covers_spec k S : covers k S = true <-> forall i, 0 <= i < k -> i ∈ S.
Proof.
  unfold covers. rewrite forallb_forall. split.
  - intros H i Hi. eapply bool_decide_eq_true_1, H. apply list_elem_of_In, elem_of_seqZ. lia.
  - intros H i Hi%list_elem_of_In%elem_of_seqZ. apply bool_decide_eq_true_2, H. lia.
Qed.

(** The bits of a fragment map. *)
Lemma map_bits m n (last : bool) j :
  0 <= n -> 0 <= j < 32 ->
  Z.testbit (Z.lor m (u32 (Z.shiftl (if last then FRAG_MAP_MASK else 1) n))) j
  = Z.testbit m j || (if last then n <=? j else n =? j).
Proof.
  intros Hn Hj. rewrite Z.lor_spec. f_equal. unfold u32. change 4294967296 with (2 ^ 32).
  rewrite Z.mod_pow2_bits_low by lia. destruct (decide (n <= j)).
  - rewrite Z.shiftl_spec by lia. destruct last.
    + change FRAG_MAP_MASK with (Z.ones 32). rewrite Z.ones_spec_low by lia. lia.
    + change 1 with (2 ^ 0). rewrite Z.pow2_bits_eqb by lia. lia.
  - rewrite Z.shiftl_spec_low by lia. destruct last; lia.
Qed.

Lemma map_full m :
  (Z.land m FRAG_MAP_MASK =? FRAG_MAP_MASK) = true <-> forall j, 0 <= j < 32 -> Z.testbit m j = true.
Proof.
  change FRAG_MAP_MASK with (Z.ones 32). rewrite Z.eqb_eq. split.
  - intros H j Hj. apply (f_equal (fun z => Z.testbit z j)) in H.
    rewrite Z.land_spec, Z.ones_spec_low, andb_true_r in H by lia. done.
  - intros H. apply Z.bits_inj_iff'. intros j Hj. rewrite Z.land_spec.
    destruct (decide (j < 32)).
    + rewrite Z.ones_spec_low, H by lia. done.
    + by rewrite Z.ones_spec_high, andb_false_r by lia.
Qed.

(** Pieces determine the datagram. *)
Lemma pieces_eq s D bs :
  frag_ok s D -> Zlen bs = Zlen D ->
  (forall i, 0 <= i < frag_count s D -> slice (i * s) (piece_len s D i) bs = frag_piece s D i) ->
  bs = D.
Proof.
  intros Hg Hl Hp. apply list_eq_same_length with (length D); [done|unfold Zlen in *; lia|].
  intros j a b Hj Ha Hb. pose proof (frag_count_range s D Hg) as (Hk & Hk1 & Hk2).
  destruct Hg as [? Hs ? ?] eqn:EHg.
  pose proof (Z_div_mod_eq_full (Z.of_nat j) s) as Hd.
  pose proof (Z.mod_pos_bound (Z.of_nat j) s ltac:(lia)) as Hm.
  set (i := Z.of_nat j / s) in *. set (r := Z.of_nat j mod s) in *. unfold Zlen in *.
  assert (0 <= i) by (apply Z.div_pos; lia).
  assert (i < frag_count s D) as Hi.
  { apply Z.nle_gt. intros Hge. assert (frag_count s D * s <= i * s) by (apply Z.mul_le_mono_nonneg_r; lia). lia. }
  specialize (Hp i (conj H Hi)).
  apply (f_equal (fun l => l !! Z.to_nat r)) in Hp. unfold frag_piece, slice in Hp.
  assert (r < piece_len s D i) by (unfold piece_len, Zlen; lia).
  rewrite !lookup_take, !decide_True, !lookup_drop in Hp by lia.
  replace (Z.to_nat (i * s) + Z.to_nat r)%nat with j in Hp by lia. congruence.
Qed.

(** The slot as fragment_incoming prepares it: empty, or with what came before. *)
Lemma wp_slot_open h fr p x s D S :
  frame_ok fr -> slot_mem h fr p x -> slot_rep h fr p x s D S ->
  wp (if negb (fr_defined x) || (fr_defined x && negb (max_frag_size x =? s)) then
        let '(ok, b) := buf_init (fr_buf x)
                          (FRAME_HEADROOM_ADJ fr FRAME_HEADROOM_MARKER_FRAGMENT) in
        _ ← ASSERT ok;
        mret (Fragment true s 0 (timestamp x) b)
      else mret x)
     (fun x' h' => h' = h /\ fr_defined x' = true /\ slot_mem h fr p x' /\ slot_part h fr p x' s D S) h.
Proof.
  intros Hfr [[bs Hb] Hcap] Hs. destruct S as [|i S]; simpl in Hs.
  - rewrite Hs. simpl. unfold FRAME_HEADROOM_ADJ.
    destruct (frame_room fr FRAME_HEADROOM_MARKER_FRAGMENT 0 Hfr) as (? & ? & ? & ?).
    { pose proof (frame_room fr 0 0 Hfr). destruct Hfr.
      unfold PAYLOAD_SIZE, TUN_MTU_MIN, FRAME_MAX in *. wrap_simp. lia. }
    destruct (buf_init_spec _ _ _ _ (frame_headroom fr FRAME_HEADROOM_MARKER_FRAGMENT) Hb)
      as [-> Hini]; [lia|].
    wp_steps. split_and!; auto; [split; eauto|].
    split; simpl; auto using Zlen_nonneg; [|intros j Hj; by apply not_elem_of_nil in Hj..].
    intros j Hj. by rewrite Z.testbit_0_l.
  - destruct Hs as [Hd Hp]. pose proof (sp_size _ _ _ _ _ _ _ Hp) as Hsz. rewrite Hd, Hsz.
    rewrite Z.eqb_refl. simpl. split_and!; auto. split; eauto.
Qed.

(** The map after a fragment, and when it is full. *)
Lemma map_step s D S m n j :
  frag_ok s D -> 0 <= n < frag_count s D ->
  (forall j, 0 <= j < 32 -> Z.testbit m j
     = bool_decide (j ∈ S) || bool_decide (frag_count s D - 1 ∈ S) && (frag_count s D - 1 <=? j)) ->
  0 <= j < 32 ->
  Z.testbit (Z.lor m (u32 (Z.shiftl (if n =? frag_count s D - 1 then FRAG_MAP_MASK else 1) n))) j
  = bool_decide (j ∈ n :: S)
    || bool_decide (frag_count s D - 1 ∈ n :: S) && (frag_count s D - 1 <=? j).
Proof.
  intros Hg Hn Hm Hj. rewrite map_bits, Hm by lia.
  set (k := frag_count s D) in *.
  assert (forall i, bool_decide (i ∈ n :: S) = (i =? n) || bool_decide (i ∈ S)) as Hcons.
  { intros i. destruct (i =? n) eqn:E; bool_simp; simpl.
    - subst. apply bool_decide_eq_true_2. set_solver.
    - apply bool_decide_ext. rewrite elem_of_cons. naive_solver. }
  rewrite !Hcons, (Z.eqb_sym (k - 1) n), (Z.eqb_sym j n).
  destruct (n =? k - 1) eqn:E; bool_simp; simpl.
  - subst n. destruct (bool_decide (j ∈ S)), (bool_decide (k - 1 ∈ S)), (k - 1 =? j) eqn:E1,
      (k - 1 <=? j) eqn:E2; simpl; auto; bool_simp; lia.
  - destruct (bool_decide (j ∈ S)), (bool_decide (k - 1 ∈ S)), (n =? j), (k - 1 <=? j); done.
Qed.

Lemma map_covers s D S m :
  frag_ok s D ->
  (forall j, 0 <= j < 32 -> Z.testbit m j
     = bool_decide (j ∈ S) || bool_decide (frag_count s D - 1 ∈ S) && (frag_count s D - 1 <=? j)) ->
  (Z.land m FRAG_MAP_MASK =? FRAG_MAP_MASK) = covers (frag_count s D) S.
Proof.
  intros Hg Hm. pose proof (frag_count_range s D Hg) as (Hk & _ & _).
  set (k := frag_count s D) in *.
  apply eq_true_iff_eq. rewrite map_full, covers_spec. split.
  - intros H i Hi. specialize (H i ltac:(lia)). rewrite Hm in H by lia.
    apply orb_true_iff in H as [H|H]; [by apply bool_decide_eq_true_1 in H|].
    apply andb_true_iff in H as [H1 H2]. apply bool_decide_eq_true_1 in H1. bool_simp.
    by replace i with (k - 1) by lia.
  - intros H j Hj. rewrite Hm by lia. apply orb_true_iff. destruct (decide (j < k)).
    + left. apply bool_decide_eq_true_2. apply H. lia.
    + right. apply andb_true_iff. split; [apply bool_decide_eq_true_2, H; lia|blia].
Qed.

(** Pieces of one datagram do not overlap, and writing one keeps the others. *)
Lemma slot_part_step h h' fr p x s D S n m t :
  frag_ok s D -> 0 <= n < frag_count s D -> slot_part h fr p x s D S ->
  mload h' (ptr_add p (b_offset (fr_buf x) + n * s)) (piece_len s D n) = Some (frag_piece s D n) ->
  modifies h h' (ptr_add p (b_offset (fr_buf x) + n * s)) (piece_len s D n) ->
  m = Z.lor (map x) (u32 (Z.shiftl (if n =? frag_count s D - 1 then FRAG_MAP_MASK else 1) n)) ->
  slot_part h' fr p
    (Fragment true s m t
       (with_len (fr_buf x) (Z.max (b_len (fr_buf x)) (n * s + piece_len s D n))))
    s D (n :: S).
Proof.
  intros Hg Hn [Ho Hl Hs Hm Hi Hp] Hld Hmod ->.
  pose proof (piece_len_val s D n Hg Hn) as (_ & Hpn & Hpn0 & Hpn1).
  split; simpl; auto.
  - lia.
  - intros j Hj. by apply map_step.
  - intros i [->|Hin]%elem_of_cons; auto.
  - intros i Hin. apply elem_of_cons in Hin. destruct (decide (i = n)) as [->|Hne].
    { split; [lia|done]. }
    destruct Hin as [?|Hin]; [done|]. destruct (Hp i Hin) as [Hle Hold]. split; [lia|].
    pose proof (piece_len_val s D i Hg (Hi i Hin)) as (Hpl & Hpi & Hpi0 & Hpi1).
    rewrite (mod_frame _ _ _ _ Hmod); [done|lia|]. right. simpl. destruct Hg.
    destruct (decide (i < n)) as [Hlt|Hlt].
    + left. assert ((i + 1) * s <= n * s) by (apply Z.mul_le_mono_nonneg_r; lia). lia.
    + right. assert ((n + 1) * s <= i * s) by (apply Z.mul_le_mono_nonneg_r; lia). lia.
Qed.

(** A slot with every piece holds the datagram. *)
Lemma slot_part_full h fr p x s D S bs :
  frag_ok s D -> slot_part h fr p x s D S -> buf_rep h p (fr_buf x) bs ->
  covers (frag_count s D) S = true -> bs = D.
Proof.
  intros Hg [Ho Hl Hs Hm Hi Hp] Hb Hc. rewrite covers_spec in Hc.
  pose proof (frag_count_range s D Hg) as (Hk & Hk1 & Hk2).
  pose proof (buf_rep_Zlen _ _ _ _ Hb) as HL.
  assert (b_len (fr_buf x) = Zlen D) as Hlen.
  { destruct (Hp (frag_count s D - 1)) as [Hle _]; [apply Hc; lia|].
    destruct (piece_len_val s D (frag_count s D - 1) Hg) as (Hpl & _); [lia|].
    rewrite Z.eqb_refl in Hpl. lia. }
  apply (pieces_eq s); [done|lia|]. intros i Hik. destruct (Hp i (Hc i Hik)) as [Hle Hld].
  pose proof (piece_len_val s D i Hg Hik) as (_ & ? & ? & ?).
  erewrite buf_rep_load in Hld by (eauto; lia). by injection Hld.
Qed.

(** What fragment_incoming does with fragment [n] of datagram [D], when the slot of
    its sequence id holds the fragments [S]. *)
Lemma wp_fragment_incoming_frag h fr p pb now f buf l' i x seq s D S n type :
  frame_ok fr -> frag_ok s D -> Zlen D <= PAYLOAD_SIZE fr ->
  0 <= n < frag_count s D -> 0 <= seq < 256 ->
  fragment_list_get_buf (incoming f) seq = Ok (i, l') -> aget (fragments l') i = Ok x ->
  slot_mem h fr p x -> slot_rep h fr p x s D S ->
  buf_rep h pb buf (frag_piece s D n) -> blk pb <> blk p ->
  type = (if n =? frag_count s D - 1 then FRAG_YES_LAST else FRAG_YES_NOTLAST) ->
  wp (fragment_incoming_frag now f buf fr (fragment_flags type seq n s) type)
     (fun r h' => exists x' b, r = (with_incoming f (with_fragment l' i x'), Some b) /\
        slot_mem h' fr p x' /\ keeps [blk p] h h' /\
        if covers (frag_count s D) (n :: S)
        then slot_rep h' fr p x' s D [] /\ buf_rep h' p b D
        else slot_rep h' fr p x' s D (n :: S) /\ b = with_len buf 0) h.
Proof.
  intros Hfr Hg HD Hn Hseq Hget Hx Hmem Hrep Hb Hne Htype.
  pose proof (frag_count_range s D Hg) as (Hk & Hk1 & Hk2).
  pose proof (piece_len_val s D n Hg Hn) as (Hpl & Hpn & Hpn0 & Hpn1).
  pose proof (Zlen_frag_piece s D n Hg Hn) as HZ. pose proof (buf_rep_Zlen _ _ _ _ Hb) as HbL.
  destruct (frame_room fr FRAME_HEADROOM_MARKER_FRAGMENT (Zlen D) Hfr) as (Hr1 & Hr2 & _ & _); [lia|].
  destruct Hg as [Hg1 Hg2 Hg3 Hg4] eqn:EHg.
  destruct (frag_flags_fields type seq n s) as (_ & _ & Hfq & Hfn & Hfs); [|lia..|].
  { rewrite Htype. case_test; auto. }
  unfold fragment_incoming_frag. rewrite Hfq, Hfn.
  assert ((if type =? FRAG_YES_LAST then
             i32 (Z.shiftl (Z.land (Z.shiftr (fragment_flags type seq n s) FRAG_SIZE_SHIFT)
                     FRAG_SIZE_MASK) FRAG_SIZE_ROUND_SHIFT)
           else b_len buf) = s) as ->.
  { destruct (type =? FRAG_YES_LAST) eqn:E; bool_simp; [auto|].
    rewrite <- HbL, HZ, Hpl. rewrite Htype in E. destruct (n =? _); [done|done]. }
  assert ((type =? FRAG_YES_LAST) = (n =? frag_count s D - 1)) as -> by (rewrite Htype; by case_test).
  rewrite Hget. wp_steps. eapply wp_lift; [reflexivity|]. wp_steps.
  change FRAG_SIZE_ROUND_MASK with (Z.ones 2). rewrite Z.land_ones by lia.
  change (2 ^ 2) with 4. rewrite Hg3. simpl (negb _). cbv iota. wp_steps. rewrite Hx.
  eapply wp_lift; [reflexivity|]. wp_steps.
  eapply wp_mono; [eapply wp_slot_open; eauto|]. intros x1 h1 (-> & Hd1 & [[bs1 Hb1] Hcap1] & Hp1).
  pose proof (sp_off _ _ _ _ _ _ _ Hp1) as Ho1. wp_steps. rewrite (i32_id (n * s)) by (unfold is_i32; lia).
  eapply wp_mono.
  { eapply (wp_buf_copy_range_all h p (fr_buf x1) bs1 pb buf _ (n * s)); eauto; lia. }
  intros ? h2 (-> & [bs2 Hb2] & Hld2 & Hm2). rewrite HZ in *. wp_steps.
  set (b2 := with_len _ _) in *. set (m := Z.lor _ _).
  pose proof (slot_part_step h h2 fr p x1 s D S n m now Hg Hn Hp1 Hld2 Hm2 eq_refl) as Hp2.
  rewrite (map_covers s D (n :: S) m Hg) by (apply (sp_map _ _ _ _ _ _ _ Hp2)).
  do 2 eexists. split; [reflexivity|]. split.
  { split; [|done]. eexists. exact Hb2. }
  split. { eapply modifies_keeps; [exact Hm2|]. by apply list_elem_of_singleton. }
  destruct (covers _ _) eqn:Hc.
  - split; [done|]. simpl. rewrite <- (slot_part_full _ _ _ _ _ _ _ bs2 Hg Hp2 Hb2 Hc). done.
  - split; [|done]. simpl. split; [done|]. rewrite (sp_size _ _ _ _ _ _ _ Hp1).
    destruct Hp2; by split.
Qed.

(** ** Receiving: the window of datagrams *)

(** The datagrams in flight have the sequence ids base, base + 1, ..., base + 24
    (modulo 256); [o] is the position of an id in this range and [fl_seq_id] is at
    position [w].  Position [o] uses slot (c + o) mod 25. *)
Definition slot_of (c o : Z) : nat := Z.to_nat ((c + o) mod 25).

Lemma slot_of_inj c o o' : 0 <= o < 25 -> 0 <= o' < 25 -> slot_of c o = slot_of c o' -> o = o'.
Proof. unfold slot_of. intros. Z.div_mod_to_equations. lia. Qed.

Lemma slot_of_range c o : (slot_of c o < 25)%nat.
Proof. unfold slot_of. Z.div_mod_to_equations. lia. Qed.

Lemma modulo_subtract_near base o w :
  0 <= o < 25 -> 0 <= w < 25 ->
  modulo_subtract ((base + o) mod 256) ((base + w) mod 256) 256 = Ok (o - w).
Proof.
  intros. unfold modulo_subtract.
  pose proof (Z.mod_pos_bound (base + o) 256 ltac:(lia)).
  pose proof (Z.mod_pos_bound (base + w) 256 ltac:(lia)).
  replace (_ && _) with true by lia. simpl. f_equal. change (i32 (-256)) with (-256).
  assert (exists t, (base + o) mod 256 - (base + w) mod 256 = o - w + 256 * t) as [t Ht].
  { exists ((base + w) / 256 - (base + o) / 256). Z.div_mod_to_equations. lia. }
  rewrite (i32_id (_ mod 256 - _)) by (unfold is_i32; lia). rewrite !Z.gtb_ltb.
  destruct (_ <? (base + o) mod 256) eqn:E; bool_simp; wrap_simp;
    (case_test; lia).
Qed.

(** Slots keep their memory when only flags change. *)
Lemma slot_mem_defined h fr p x d : slot_mem h fr p x -> slot_mem h fr p (with_defined x d).
Proof. by destruct x. Qed.

Lemma advance_window_add m n l l' :
  advance_window m l = Ok l' -> advance_window (m + n) l = advance_window n l'.
Proof.
  revert l. induction m as [|m IH]; intros l; cbn [advance_window Nat.add]; [by intros [= ->]|].
  destruct (modulo_add (fl_index l) 1 N_FRAG_BUF); [|done..]. simpl.
  destruct (aget (fragments l) a); [|done..]. simpl.
  destruct (aset (fragments l) a (with_defined a0 false)); [|done..]. simpl.
  destruct (modulo_add (fl_seq_id l) 1 N_SEQ_ID); [|done..]. simpl. apply IH.
Qed.

Section Window.
#[local] Set Default Proof Using "All".
Context (fr : frame) (P : list ptr) (sz : Z -> Z) (dg : Z -> list byte).

(** [St o]: the fragments of datagram [o] received so far. *)
Record rx_ok (h : heap) (base c w : Z) (St : Z -> list Z) (l : fragment_list) : Prop := {
  rx_w : 0 <= w < 25;
  rx_c : 0 <= c < 25;
  rx_seq : fl_seq_id l = (base + w) mod 256;
  rx_index : fl_index l = (c + w) mod 25;
  rx_mem : Forall2 (slot_mem h fr) P (fragments l);
  rx_len : length P = 25%nat;
  rx_nodup : NoDup (blk <$> P);
  rx_slot : forall o p x, 0 <= o <= w -> P !! slot_of c o = Some p ->
    fragments l !! slot_of c o = Some x -> slot_rep h fr p x (sz o) (dg o) (St o);
  rx_ahead : forall o, w < o < 25 -> St o = []
}.

Lemma rx_frags_len h base c w St l : rx_ok h base c w St l -> length (fragments l) = 25%nat.
Proof. intros []. rewrite <- rx_len0. symmetry. by eapply Forall2_length. Qed.

Lemma advance_one h base c w St l :
  rx_ok h base c w St l -> w + 1 < 25 ->
  exists l', advance_window 1 l = Ok l' /\ rx_ok h base c (w + 1) St l'.
Proof.
  intros H Hw. pose proof (rx_frags_len _ _ _ _ _ _ H) as HL. destruct H.
  cbn [advance_window]. unfold N_FRAG_BUF, N_SEQ_ID. rewrite rx_index0, rx_seq0.
  rewrite !modulo_add_ok by (Z.div_mod_to_equations; lia). simpl.
  assert (((c + w) mod 25 + 1) mod 25 = (c + (w + 1)) mod 25) as ->
    by (Z.div_mod_to_equations; lia).
  assert (((base + w) mod 256 + 1) mod 256 = (base + (w + 1)) mod 256) as ->
    by (Z.div_mod_to_equations; lia).
  pose proof (slot_of_range c (w + 1)) as Hs.
  destruct (lookup_lt_is_Some_2 (fragments l) (slot_of c (w + 1))) as [x Hx]; [lia|].
  erewrite aget_lookup by (eauto; Z.div_mod_to_equations; lia). simpl.
  rewrite aset_ok by (unfold Zlen, slot_of in *; rewrite HL; Z.div_mod_to_equations; lia). simpl.
  fold (slot_of c (w + 1)). eexists. split; [reflexivity|]. split; simpl; auto; try lia.
  - destruct (Forall2_lookup_r _ _ _ _ _ rx_mem0 Hx) as (p & Hp & Hm).
    rewrite <- (list_insert_id P (slot_of c (w + 1)) p) by done.
    apply Forall2_insert; auto using slot_mem_defined.
  - intros o p y Ho HP Hy. destruct (decide (o = w + 1)) as [->|Hne].
    + rewrite list_lookup_insert_eq in Hy by lia. injection Hy as <-.
      by rewrite rx_ahead0 by lia.
    + rewrite list_lookup_insert_ne in Hy.
      2:{ intros E. apply slot_of_inj in E; lia. }
      eapply rx_slot0; eauto. lia.
  - intros o Ho. apply rx_ahead0. lia.
Qed.

Lemma advance_ok n h base c w St l :
  rx_ok h base c w St l -> w + Z.of_nat n < 25 ->
  exists l', advance_window n l = Ok l' /\ rx_ok h base c (w + Z.of_nat n) St l'.
Proof.
  revert w l. induction n as [|n IH]; intros w l H Hn.
  { exists l. by rewrite Z.add_0_r. }
  destruct (advance_one _ _ _ _ _ _ H) as (l1 & E1 & H1); [lia|].
  destruct (IH _ _ H1) as (l2 & E2 & H2); [lia|].
  exists l2. change (S n) with (1 + n)%nat at 1. rewrite (advance_window_add 1 n l l1 E1). split; [done|].
  by replace (w + Z.of_nat (S n)) with (w + 1 + Z.of_nat n) by lia.
Qed.

(** Finding the slot of a sequence id of the window. *)
Lemma get_buf_ok h base c w St l o :
  rx_ok h base c w St l -> 0 <= o < 25 ->
  exists l' w', fragment_list_get_buf l ((base + o) mod 256) = Ok ((c + o) mod 25, l') /\
    rx_ok h base c w' St l' /\ o <= w'.
Proof.
  intros H Ho. pose proof (rx_w _ _ _ _ _ _ H). pose proof (rx_c _ _ _ _ _ _ H).
  unfold fragment_list_get_buf. rewrite (rx_seq _ _ _ _ _ _ H). unfold N_SEQ_ID, N_FRAG_BUF.
  rewrite modulo_subtract_near by lia. simpl.
  replace (Z.abs (o - w) >=? 25) with false by blia.
  destruct (advance_ok (Z.to_nat (o - w)) _ _ _ _ _ _ H) as (l1 & -> & HW); [lia|]. simpl.
  exists l1. eexists. split; [|split; [exact HW|lia]].
  rewrite (rx_index _ _ _ _ _ _ HW). rewrite !Z.gtb_ltb.
  rewrite modulo_add_ok by (try (Z.div_mod_to_equations; lia); case_test; lia). simpl.
  assert (((c + (w + Z.of_nat (Z.to_nat (o - w)))) mod 25 + (if 0 <? o - w then 0 else o - w)) mod 25
          = (c + o) mod 25) as ->.
  { case_test.
    - rewrite Z2Nat.id, Z.add_0_r, Z.mod_mod by lia. f_equal. lia.
    - replace (Z.of_nat (Z.to_nat (o - w))) with 0 by lia. rewrite Zplus_mod_idemp_l. f_equal. lia. }
  unfold Zlen. rewrite (rx_frags_len _ _ _ _ _ _ HW).
  replace (_ <? _) with true; [done|]. symmetry. apply Z.ltb_lt.
  pose proof (Z.mod_pos_bound (c + o) 25). lia.
Qed.

Hypothesis Hfr : frame_ok fr.
Hypothesis Hok : forall o, 0 <= o < 25 -> frag_ok (sz o) (dg o) /\ Zlen (dg o) <= PAYLOAD_SIZE fr.

(** Memory outside a slot is the other slots' and the reader's. *)
Lemma rx_update h h' base c w St l o p x' S :
  rx_ok h base c w St l -> 0 <= o <= w -> P !! slot_of c o = Some p ->
  keeps [blk p] h h' -> slot_mem h' fr p x' -> slot_rep h' fr p x' (sz o) (dg o) S ->
  rx_ok h' base c w (<[o := S]> St) (with_fragment l ((c + o) mod 25) x').
Proof.
  intros H Ho Hp Hk Hm Hs. pose proof (rx_frags_len _ _ _ _ _ _ H) as HL. destruct H.
  pose proof (slot_of_range c o) as Hr.
  assert (forall j q y, j <> slot_of c o -> P !! j = Some q -> slot_mem h fr q y ->
            blk q ∉ [blk p]) as Hother.
  { intros j q y Hj Hq _ Heq%list_elem_of_singleton. apply Hj.
    eapply (NoDup_lookup (blk <$> P) _ _ (blk p)); [done|..]; rewrite list_lookup_fmap.
    - rewrite Hq. simpl. by rewrite Heq.
    - by rewrite Hp. }
  split; simpl; auto.
  - fold (slot_of c o). apply Forall2_same_length_lookup_2.
    { rewrite length_insert. lia. }
    intros j q y Hq Hy. destruct (decide (j = slot_of c o)) as [->|Hj].
    + rewrite list_lookup_insert_eq in Hy by lia. by simplify_eq.
    + rewrite list_lookup_insert_ne in Hy by done.
      pose proof (Forall2_lookup_lr _ _ _ _ _ _ rx_mem0 Hq Hy) as Hmq.
      specialize (Hother _ _ _ Hj Hq Hmq). destruct Hmq as [[bs Hb] Hc].
      split; [|done]. exists bs. by eapply buf_rep_keeps.
  - fold (slot_of c o). intros o' q y Ho' Hq Hy. destruct (decide (o' = o)) as [->|Hne].
    + rewrite list_lookup_insert_eq in Hy by lia. rewrite fn_lookup_insert. by simplify_eq.
    + rewrite fn_lookup_insert_ne by done.
      assert (slot_of c o' <> slot_of c o) as Hj by (intros E; apply slot_of_inj in E; lia).
      rewrite list_lookup_insert_ne in Hy by done.
      pose proof (Forall2_lookup_lr _ _ _ _ _ _ rx_mem0 Hq Hy) as Hmq.
      specialize (Hother _ _ _ Hj Hq Hmq). pose proof (rx_slot0 o' q y Ho' Hq Hy) as Hold.
      destruct (St o') as [|i0 S0]; [done|]. destruct Hold as [Hd []]. split; [done|].
      split; auto. intros i Hi. destruct (sp_piece0 i Hi) as [? Hl]. split; [done|]. by apply Hk.
  - intros o' Ho'. rewrite fn_lookup_insert_ne by lia. auto.
Qed.

(** The contract of reassembly: fragment [i] of datagram [o] arrives. *)
Definition rx_step (St : Z -> list Z) (o i : Z) : option (list byte) * (Z -> list Z) :=
  if covers (frag_count (sz o) (dg o)) (i :: St o)
  then (Some (dg o), <[o := []]> St) else (None, <[o := i :: St o]> St).

Lemma wp_fragment_incoming h pb now f buf base c w St o i :
  rx_ok h base c w St (incoming f) -> 0 <= o < 25 -> 0 <= i < frag_count (sz o) (dg o) ->
  buf_rep h pb buf (frag_packet ((base + o) mod 256) (sz o) (dg o) i) -> blk pb ∉ blk <$> P ->
  wp (fragment_incoming now f buf fr)
     (fun r h' => exists f' b w', r = (f', b) /\
        rx_ok h' base c w' (snd (rx_step St o i)) (incoming f') /\
        keeps (blk <$> P) h h' /\
        match fst (rx_step St o i) with
        | Some D => exists p, buf_rep h' p b D
        | None => b_len b = 0
        end) h.
Proof.
  intros H Ho Hi Hb Hpb. destruct (Hok o Ho) as [Hg HD].
  pose proof (frag_count_range _ _ Hg) as (Hk & _ & _).
  pose proof (buf_rep_Zlen _ _ _ _ Hb) as HbL. unfold frag_packet in *.
  set (type := if i =? frag_count (sz o) (dg o) - 1 then FRAG_YES_LAST else FRAG_YES_NOTLAST) in *.
  rewrite Zlen_app, Zlen_be_enc4 in HbL. pose proof (Zlen_nonneg (frag_piece (sz o) (dg o) i)).
  destruct (frag_flags_fields type ((base + o) mod 256) i (sz o)) as (Hfl & Hft & _);
    [unfold type; case_test; auto|Z.div_mod_to_equations; lia|lia|destruct Hg; lia|by destruct Hg|].
  unfold fragment_incoming. replace (b_len buf >? 0) with true by blia. wp_steps.
  pose proof (wp_buf_read _ _ _ _ _ Hb) as Hrd. rewrite Zlen_be_enc4 in Hrd.
  eapply wp_mono; [exact Hrd|].
  intros ? h1 (-> & -> & Hb1). wp_steps. rewrite be_dec_enc by done. rewrite Hft.
  assert ((type =? FRAG_WHOLE) = false /\
          ((type =? FRAG_YES_NOTLAST) || (type =? FRAG_YES_LAST)) = true) as [-> ->]
    by (unfold type; by destruct (_ =? _)).
  destruct (get_buf_ok _ _ _ _ _ _ o H Ho) as (l' & w' & Hget & H' & Hw').
  pose proof (rx_frags_len _ _ _ _ _ _ H') as HL. pose proof (slot_of_range c o) as Hr.
  destruct (lookup_lt_is_Some_2 (fragments l') (slot_of c o)) as [x Hx]; [lia|].
  destruct (Forall2_lookup_r _ _ _ _ _ (rx_mem _ _ _ _ _ _ H') Hx) as (p & Hp & Hm).
  pose proof (list_elem_of_fmap_2 blk P p (list_elem_of_lookup_2 _ _ _ Hp)) as HpP.
  wp_steps. eapply wp_mono.
  { eapply (wp_fragment_incoming_frag h fr p pb now f _ l' _ x _ (sz o) (dg o) (St o) i type);
      eauto; try done.
    - Z.div_mod_to_equations. lia.
    - apply aget_lookup; [Z.div_mod_to_equations; lia|done].
    - eapply (rx_slot _ _ _ _ _ _ H'); eauto. lia.
    - intros E. apply Hpb. by rewrite E. }
  intros ? h2 (x' & b & -> & Hm' & Hk' & Hres). wp_steps. unfold rx_step.
  do 3 eexists. split; [reflexivity|].
  destruct (covers _ _); destruct Hres as [Hs' Hb']; simpl.
  - split; [eapply rx_update; eauto; lia|]. split; [by eapply keeps_in|eauto].
  - split; [eapply rx_update; eauto; lia|]. split; [by eapply keeps_in|by subst].
Qed.

Fixpoint rx_steps (St : Z -> list Z) (pkts : list (Z * Z)) : list (option (list byte)) :=
  match pkts with
  | [] => []
  | (o, i) :: r => let '(out, St') := rx_step St o i in out :: rx_steps St' r
  end.
End Window.

(** A packet arrives in the read buffer and is given to fragment_incoming; what it
    delivers is read out. *)
Definition fragment_receive (now : Z) (f : fragment_master) (rxb : buffer) (fr : frame)
  (bs : list byte) : M (fragment_master * option (list byte)) :=
  let '(ok, b) := buf_init rxb (FRAME_HEADROOM_ADJ fr FRAME_HEADROOM_MARKER_READ_LINK) in
  _ ← ASSERT ok;
  '(ok, b) ← buf_write b bs;
  _ ← ASSERT ok;
  '(f, b) ← fragment_incoming now f b fr;
  if b_len b >? 0 then p ← deref (BPTR b); d ← load p (BLEN b); mret (f, Some d)
  else mret (f, None).

Fixpoint fragment_receive_all (f : fragment_master) (rxb : buffer) (fr : frame)
  (pkts : list (Z * list byte)) : M (list (option (list byte))) :=
  match pkts with
  | [] => mret []
  | (now, bs) :: r =>
      '(f, d) ← fragment_receive now f rxb fr bs;
      ds ← fragment_receive_all f rxb fr r;
      mret (d :: ds)
  end.

(** The buffer packets are read into. *)
Definition rxb_ok (h : heap) (fr : frame) (P : list ptr) (pb : ptr) (rxb : buffer) : Prop :=
  b_data rxb = Some pb /\ b_capacity rxb = BUF_SIZE fr /\
  is_Some (mload h pb (BUF_SIZE fr)) /\ blk pb ∉ blk <$> P.

Lemma wp_rx_read h fr P pb rxb m bs :
  frame_ok fr -> 4 <= extra_frame fr -> rxb_ok h fr P pb rxb -> Zlen bs <= PAYLOAD_SIZE fr + 4 ->
  exists b1, buf_init rxb (FRAME_HEADROOM_ADJ fr m) = (true, b1) /\
    wp (buf_write b1 bs)
       (fun r h' => exists b2, r = (true, b2) /\ buf_rep h' pb b2 bs /\ rxb_ok h' fr P pb rxb /\
          keeps [blk pb] h h') h.
Proof.
  intros Hf He (Hd & Hc & Hv & Hn) Hl. unfold FRAME_HEADROOM_ADJ.
  assert (0 <= frame_headroom fr m /\ frame_headroom fr m + (PAYLOAD_SIZE fr + 4) <= BUF_SIZE fr <= BUF_MAX /\
          0 <= PAYLOAD_SIZE fr) as (Hr1 & Hr2 & Hr3).
  { destruct (frame_headroom_spec fr m Hf) as [Hh _].
    pose proof (FRAME_HEADROOM_BASE_ok fr Hf) as Hb. pose proof (BUF_SIZE_ok fr Hf) as Hs.
    unfold BUF_MAX. rewrite Hs. rewrite Hb in *. clear Hs Hb.
    destruct Hf. unfold PAYLOAD_SIZE, PAYLOAD_ALIGN, FRAME_MAX, TUN_MTU_MIN in *. wrap_simp. lia. }
  set (b1 := with_offset_len rxb (frame_headroom fr m) 0). exists b1.
  assert (buf_rep h pb b1 []) as Hb1.
  { split; simpl; auto; rewrite ?Hc; auto; try lia. destruct Hv as [x Hx].
    erewrite mload_sub by (eauto; lia). by rewrite slice_nil. }
  split.
  { unfold buf_init, BDEF. rewrite Hd, Hc.
    replace (_ <? 0) with false by lia. by replace (_ >? _) with false by blia. }
  eapply wp_mono; [eapply wp_buf_write; [exact Hb1|simpl; rewrite Hc; lia]|].
  intros ? h' (-> & Hr & Hm). eexists. split; [done|]. split; [exact Hr|]. split.
  - split_and!; auto. by apply Hm.
  - eapply modifies_keeps; [done|]. by apply list_elem_of_singleton.
Qed.

(** The packets of fragments [(t, o, i)]: at time [t], fragment [i] of datagram [o]. *)
Definition wire (base : Z) (sz : Z -> Z) (dg : Z -> list byte) (pkts : list (Z * Z * Z))
  : list (Z * list byte) :=
  (fun '(t, o, i) => (t, frag_packet ((base + o) mod 256) (sz o) (dg o) i)) <$> pkts.

Lemma rxb_ok_keeps h h' fr P pb rxb :
  keeps (blk <$> P) h h' -> rxb_ok h fr P pb rxb -> rxb_ok h' fr P pb rxb.
Proof. intros Hk (? & ? & [x Hx] & Hn). split_and!; eauto. Qed.

Lemma rx_ok_keeps fr P sz dg h h' base c w St l pb :
  rx_ok fr P sz dg h base c w St l -> keeps [pb] h h' -> pb ∉ blk <$> P ->
  rx_ok fr P sz dg h' base c w St l.
Proof.
  intros [] Hk Hn.
  assert (forall p (j : nat), P !! j = Some p -> blk p ∉ [pb]) as Hne.
  { intros p j Hp ->%list_elem_of_singleton%eq_sym. apply Hn.
    eapply list_elem_of_fmap_2, list_elem_of_lookup_2, Hp. }
  split; auto.
  - apply Forall2_same_length_lookup_2; [by eapply Forall2_length|]. intros j p x Hp Hx.
    destruct (Forall2_lookup_lr _ _ _ _ _ _ rx_mem0 Hp Hx) as [[bs Hb] Hc].
    split; [|done]. exists bs. eapply buf_rep_keeps; eauto.
  - intros o p x Ho Hp Hx. specialize (rx_slot0 o p x Ho Hp Hx).
    destruct (St o) as [|i0 S0]; [done|]. destruct rx_slot0 as [Hd []]. split; [done|].
    split; auto. intros i Hi. destruct (sp_piece0 i Hi) as [? Hl]. split; [done|].
    apply Hk; [simpl; eauto|done].
Qed.

(** C27: fragments are reassembled in any order.  Up to 25 datagrams with consecutive
    sequence ids are in flight, their fragments interleaved, reordered and repeated
    at will.  The receiver delivers a datagram exactly when the last missing
    fragment of it arrives, intact, and then starts it afresh; every other packet
    delivers nothing.  No memory outside its own buffers is written, and no ASSERT
    fails. *)
Theorem fragments_reassemble fr P sz dg h pb rxb f base c w St pkts :
  frame_ok fr -> 4 <= extra_frame fr ->
  (forall o, 0 <= o < 25 -> frag_ok (sz o) (dg o) /\ Zlen (dg o) <= PAYLOAD_SIZE fr) ->
  rx_ok fr P sz dg h base c w St (incoming f) -> rxb_ok h fr P pb rxb ->
  Forall (fun '(_, o, i) => 0 <= o < 25 /\ 0 <= i < frag_count (sz o) (dg o)) pkts ->
  wp (fragment_receive_all f rxb fr (wire base sz dg pkts))
     (fun r h' => r = rx_steps sz dg St ((fun '(_, o, i) => (o, i)) <$> pkts) /\
        keeps (blk pb :: (blk <$> P)) h h') h.
Proof.
  intros Hfr He Hok. revert h f w St. induction pkts as [|[[t o] i] pkts IH];
    intros h f w St Hrx Hb Hp; cbn [wire fmap list_fmap fragment_receive_all rx_steps].
  { split; [done|]. apply keeps_refl. }
  apply Forall_cons_iff in Hp as [[Ho Hi] Hp]. destruct (Hok o Ho) as [Hg HD].
  pose proof (Zlen_frag_piece _ _ _ Hg Hi). pose proof (piece_len_val _ _ _ Hg Hi) as (_ & ? & ? & ?).
  unfold fragment_receive.
  destruct (wp_rx_read h fr P pb rxb FRAME_HEADROOM_MARKER_READ_LINK
              (frag_packet ((base + o) mod 256) (sz o) (dg o) i) Hfr He Hb) as (b1 & -> & Hw).
  { unfold frag_packet. rewrite Zlen_app, Zlen_be_enc4. lia. }
  wp_steps. eapply wp_mono; [exact Hw|]. intros ? h1 (b2 & -> & Hb2 & Hb' & Hk1). wp_steps.
  pose proof Hb as (_ & _ & _ & Hnp).
  eapply wp_mono; [eapply (wp_fragment_incoming fr P sz dg Hfr Hok h1 pb t f b2 base c w St o i);
                   eauto using rx_ok_keeps|].
  intros ? h2 (f' & b & w' & -> & Hrx' & Hk2 & Hout). wp_steps.
  assert (keeps (blk pb :: (blk <$> P)) h h2) as Hk.
  { eapply keeps_trans; [eapply keeps_in; [exact Hk1|left]|].
    eapply keeps_weaken; [|exact Hk2]. intros ?. by right. }
  destruct (rx_step sz dg St o i) as [[D|] St'] eqn:E; simpl in *.
  - destruct Hout as [p Hout]. rewrite <- (buf_rep_Zlen _ _ _ _ Hout).
    assert (D = dg o) as -> by (unfold rx_step in E; destruct (covers _ _); congruence).
    replace (Zlen (dg o) >? 0) with true by (destruct Hg; blia). wp_steps. load_packet Hout.
    eapply wp_mono; [eapply (IH h2 f' w'); eauto using rxb_ok_keeps|].
    intros r h3 (-> & Hk3). wp_steps. split; [done|]. by eapply keeps_trans.
  - rewrite Hout. simpl. wp_steps.
    eapply wp_mono; [eapply (IH h2 f' w'); eauto using rxb_ok_keeps|].
    intros r h3 (-> & Hk3). wp_steps. split; [done|]. by eapply keeps_trans.
Qed.

(** ** Sending and receiving together *)

(** A receiver with no datagram partly received. *)
Record rx_idle (h : heap) (fr : frame) (P : list ptr) (l : fragment_list) : Prop := {
  ri_seq : 0 <= fl_seq_id l < 256;
  ri_index : 0 <= fl_index l < 25;
  ri_mem : Forall2 (slot_mem h fr) P (fragments l);
  ri_len : length P = 25%nat;
  ri_nodup : NoDup (blk <$> P);
  ri_undef : Forall (fun x => fr_defined x = false) (fragments l)
}.

Lemma modulo_subtract_256 x y :
  0 <= x < 256 -> 0 <= y < 256 ->
  exists d t, modulo_subtract x y 256 = Ok d /\ x - y = d + 256 * t.
Proof.
  intros. unfold modulo_subtract. replace (_ && _) with true by lia. simpl.
  change (i32 (-256)) with (-256). rewrite (i32_id (x - y)) by (unfold is_i32; lia).
  destruct (x >? y) eqn:E1; rewrite Z.gtb_ltb in E1; bool_simp; wrap_simp; case_test;
    (eexists; first [exists 0; split; [reflexivity|lia] | exists 1; split; [reflexivity|lia]
                    | exists (-1); split; [reflexivity|lia]]).
Qed.

Lemma slot_rep_idle h fr l o p x c (s : Z) D :
  Forall (fun x => fr_defined x = false) (fragments l) ->
  fragments l !! slot_of c o = Some x -> slot_rep h fr p x s D [].
Proof. intros Hu Hx. by eapply Forall_lookup_1 in Hu. Qed.

(** Whatever sequence id comes next, an idle receiver is at some place of a window
    that has it. *)
Lemma idle_window h fr P l q sz dg :
  rx_idle h fr P l -> 0 <= q < 256 ->
  exists l0 base c w o, 0 <= o < 25 /\ (base + o) mod 256 = q /\
    rx_ok fr P sz dg h base c w (fun _ => []) l0 /\
    fragment_list_get_buf l q = fragment_list_get_buf l0 q.
Proof.
  intros [Hs Hi Hm HP Hn Hu] Hq.
  destruct (modulo_subtract_256 q (fl_seq_id l) Hq Hs) as (d & t & Hd & Ht).
  destruct (decide (Z.abs d < 25)) as [Hnear|Hfar].
  - destruct (decide (0 <= d)).
    + exists l, (fl_seq_id l), (fl_index l), 0, d. split; [lia|].
      split; [Z.div_mod_to_equations; lia|]. split; [|done].
      split; auto; rewrite ?Z.add_0_r, ?Z.mod_small by lia; try lia.
      intros o p x _ Hp Hx. eapply slot_rep_idle; eauto.
    + exists l, q, ((fl_index l + d) mod 25), (- d), 0. split; [lia|].
      split; [Z.div_mod_to_equations; lia|]. split; [|done].
      split; auto; try (Z.div_mod_to_equations; lia).
      intros o p x _ Hp Hx. eapply slot_rep_idle; eauto.
  - set (l0 := FragList q 0 ((fun x => with_defined x false) <$> fragments l)).
    exists l0, q, 0, 0, 0. split; [lia|]. split; [Z.div_mod_to_equations; lia|]. split.
    + split; simpl; auto; rewrite ?Z.add_0_r, ?Z.mod_small by lia; try lia.
      * apply Forall2_fmap_r. eapply Forall2_impl; [|exact Hm]. intros; by apply slot_mem_defined.
      * intros o p x _ _ Hx. rewrite list_lookup_fmap in Hx.
        destruct (fragments l !! slot_of 0 o); [|done]. by injection Hx as <-.
    + unfold fragment_list_get_buf at 1. unfold N_SEQ_ID, N_FRAG_BUF. rewrite Hd. simpl.
      replace (Z.abs d >=? 25) with true by blia.
      unfold fragment_list_get_buf. unfold N_SEQ_ID, N_FRAG_BUF. simpl (fl_seq_id l0).
      pose proof (modulo_subtract_near q 0 0 ltac:(lia) ltac:(lia)) as H0.
      rewrite !Z.add_0_r, Z.mod_small in H0 by lia. rewrite H0. reflexivity.
Qed.

(** Each fragment once, in any order: only the last one completes the datagram. *)
Lemma rx_steps_once sz dg o ns St :
  let k := frag_count (sz o) (dg o) in
  ns <> [] -> NoDup (St o ++ ns) -> (forall i, i ∈ ns -> 0 <= i < k) ->
  covers k (St o ++ ns) = true ->
  rx_steps sz dg St ((fun i => (o, i)) <$> ns)
  = replicate (length ns - 1) None ++ [Some (dg o)].
Proof.
  intros k. revert St. induction ns as [|i ns IH]; intros St Hne Hnd Hin Hc; [done|].
  cbn [fmap list_fmap rx_steps]. unfold rx_step. fold k.
  assert (St o ++ i :: ns ≡ₚ (i :: St o) ++ ns) as HP by (simpl; by rewrite Permutation_middle).
  destruct ns as [|j ns].
  - replace (covers k (i :: St o)) with true; [done|].
    symmetry. rewrite covers_spec in *. intros n Hn. rewrite <- (app_nil_r (i :: St o)), <- HP. auto.
  - replace (covers k (i :: St o)) with false.
    + rewrite IH; [simpl; by rewrite Nat.sub_0_r|done|..].
      * rewrite fn_lookup_insert. by rewrite <- HP.
      * intros n Hn. apply Hin. by right.
      * rewrite fn_lookup_insert, covers_spec in *. intros n Hn. rewrite <- HP. auto.
    + symmetry. apply not_true_iff_false. rewrite covers_spec. intros H.
      rewrite HP in Hnd. apply list.NoDup_app in Hnd as (_ & Hd & _).
      apply (Hd j); [apply H, Hin; set_solver|left].
Qed.

(** The receiver uses its window only to find slots. *)
Lemma fragment_incoming_window now f l0 buf fr seq s D i h p :
  buf_rep h p buf (frag_packet seq s D i) -> 0 <= seq < 256 -> frag_ok s D ->
  0 <= i < frag_count s D ->
  fragment_list_get_buf (incoming f) seq = fragment_list_get_buf l0 seq ->
  fragment_incoming now f buf fr h = fragment_incoming now (with_incoming f l0) buf fr h.
Proof.
  intros Hb Hq Hg Hi Hget. pose proof (frag_count_range _ _ Hg) as (Hk & _ & _).
  pose proof (buf_rep_Zlen _ _ _ _ Hb) as HbL. unfold frag_packet in *.
  set (type := if i =? frag_count s D - 1 then FRAG_YES_LAST else FRAG_YES_NOTLAST) in *.
  rewrite Zlen_app, Zlen_be_enc4 in HbL. pose proof (Zlen_nonneg (frag_piece s D i)).
  destruct (frag_flags_fields type seq i s) as (Hfl & Hft & Hfq & _);
    [unfold type; case_test; auto|lia|lia|destruct Hg; lia|by destruct Hg|].
  pose proof (wp_buf_read _ _ _ _ _ Hb) as Hrd. rewrite Zlen_be_enc4 in Hrd.
  apply wp_Ok in Hrd as (? & ? & Hrd & -> & -> & _).
  unfold fragment_incoming. replace (b_len buf >? 0) with true by blia.
  unfold mbind, M_bind. rewrite Hrd, be_dec_enc, Hft by done.
  assert ((type =? FRAG_WHOLE) = false /\
          ((type =? FRAG_YES_NOTLAST) || (type =? FRAG_YES_LAST)) = true) as [-> ->]
    by (unfold type; by destruct (_ =? _)).
  unfold fragment_incoming_frag. rewrite Hfq. cbn [incoming with_incoming].
  unfold mbind, M_bind, lift. by rewrite Hget.
Qed.

Lemma fragment_receive_window now f l0 rxb fr seq s D i h P p :
  frame_ok fr -> 4 <= extra_frame fr -> rxb_ok h fr P p rxb -> Zlen D <= PAYLOAD_SIZE fr ->
  0 <= seq < 256 -> frag_ok s D -> 0 <= i < frag_count s D ->
  fragment_list_get_buf (incoming f) seq = fragment_list_get_buf l0 seq ->
  fragment_receive now f rxb fr (frag_packet seq s D i) h
  = fragment_receive now (with_incoming f l0) rxb fr (frag_packet seq s D i) h.
Proof.
  intros Hfr He Hb HD Hq Hg Hi Hget. unfold fragment_receive.
  pose proof (Zlen_frag_piece _ _ _ Hg Hi). pose proof (piece_len_val _ _ _ Hg Hi) as (_ & ? & ? & ?).
  destruct (wp_rx_read h fr P p rxb FRAME_HEADROOM_MARKER_READ_LINK (frag_packet seq s D i) Hfr He Hb)
    as (b1 & -> & Hw). { unfold frag_packet. rewrite Zlen_app, Zlen_be_enc4. lia. }
  apply wp_Ok in Hw as (? & h1 & Hw & b2 & -> & Hb2 & _). simpl.
  unfold mbind, M_bind. simpl. rewrite !Hw. simpl.
  by rewrite (fragment_incoming_window now f l0 b2 fr seq s D i h1 p).
Qed.

(** Reordered packets of one datagram, as packets of the window. *)
Lemma wire_order base s D o q (order : list (Z * list byte)) ns :
  (base + o) mod 256 = q -> snd <$> order = frag_packet q s D <$> ns ->
  order = wire base (fun _ => s) (fun _ => D) (zip_with (fun t i => (t, o, i)) order.*1 ns).
Proof.
  intros Hb. unfold wire. revert ns.
  induction order as [|[t b] order IH]; intros [|n ns] Hns; try done; simpl in *.
  injection Hns as -> Hns. f_equal; [by rewrite Hb|by apply IH].
Qed.
Lemma zip_order (order : list (Z * list byte)) (o : Z) (ns : list Z) :
  length order = length ns ->
  (fun '(_, o, i) => (o, i)) <$> zip_with (fun t i => (t, o, i)) order.*1 ns = (fun i => (o, i)) <$> ns.
Proof.
  revert ns. induction order as [|[t b] order IH]; intros [|n ns] Hlo; try done.
  simpl. f_equal. apply IH. by injection Hlo.
Qed.

(** C26: a datagram that is fragmented, sent and received comes back, however the
    network reorders it.  The packets that fragment_outgoing and
    fragment_ready_to_send emit for a datagram, given in any order to a receiver
    that has nothing partly received (whatever its sequence id), make
    fragment_incoming return exactly the datagram with the packet that arrives last
    and nothing before. *)
Theorem fragment_roundtrip hs frs po pr fs pb buf D rest s hr frr P pb' rxb fR order :
  (* the sender *)
  tx_ok hs frs po pr fs rest -> buf_rep hs pb buf D -> Forall is_byte D -> blk pb <> blk po ->
  PAYLOAD_SIZE_DYNAMIC frs < Zlen D <= PAYLOAD_SIZE frs ->
  optimal_fragment_size (Zlen D) (PAYLOAD_SIZE_DYNAMIC frs) = Ok s -> s < 65536 -> Zlen D <= 32 * s ->
  (* the receiver *)
  frame_ok frr -> 4 <= extra_frame frr -> Zlen D <= PAYLOAD_SIZE frr ->
  rx_idle hr frr P (incoming fR) -> rxb_ok hr frr P pb' rxb ->
  wp (fragment_send fs buf frs)
     (fun pkts _ => snd <$> order ≡ₚ pkts ->
        wp (fragment_receive_all fR rxb frr order)
           (fun r _ => r = replicate (length pkts - 1) None ++ [Some D]) hr) hs.
Proof.
  intros Ht Hb HD Hne Hlen Es Hs16 Hmax Hfr He HDr Hidle Hrxb.
  destruct (fragment_send_splits hs frs po pr fs pb buf D rest) as (s' & Es' & Hsend); auto.
  assert (s' = s) as -> by congruence. destruct Hsend as (Hg & _ & Hw); auto.
  eapply wp_mono; [exact Hw|]. intros ? h' -> Hperm.
  pose proof (frag_count_range s D Hg) as (Hk & _ & _). set (q := (outgoing_seq_id fs + 1) mod 256) in *.
  assert (0 <= q < 256) as Hq by (apply Z.mod_pos_bound; lia).
  apply Permutation_map_inv in Hperm as (ns & Hns & Hp).
  destruct (idle_window hr frr P (incoming fR) q (fun _ => s) (fun _ => D) Hidle Hq)
    as (l0 & base & c & w & o & Ho & Hbase & Hrx & Hget).
  assert (forall n, n ∈ ns -> 0 <= n < frag_count s D) as Hin.
  { intros n Hn. rewrite <- Hp in Hn. apply elem_of_seqZ in Hn. lia. }
  pose proof (wire_order base s D o q order ns Hbase Hns) as Horder.
  assert (exists n ns', ns = n :: ns') as (n & ns' & Hnn).
  { destruct ns as [|n ns']; [|eauto]. apply Permutation_length in Hp.
    rewrite length_seqZ in Hp. simpl in Hp. lia. }
  assert (fragment_receive_all fR rxb frr order hr
          = fragment_receive_all (with_incoming fR l0) rxb frr order hr) as Hall.
  { subst ns. destruct order as [|[t b] order]; [done|]. simpl in Hns. injection Hns as -> _.
    cbn [fragment_receive_all]. unfold mbind, M_bind.
    erewrite (fragment_receive_window t fR l0); eauto. apply Hin. left. }
  unfold wp. rewrite Hall. fold (wp (fragment_receive_all (with_incoming fR l0) rxb frr order)
    (fun r _ => r = replicate (length (frag_packet q s D <$> seqZ 0 (frag_count s D)) - 1) None
                    ++ [Some D]) hr).
  rewrite Horder. eapply wp_mono.
  { eapply (fragments_reassemble frr P (fun _ => s) (fun _ => D)); eauto.
    apply Forall_lookup_2. intros j [[t o'] i] Hj.
    apply lookup_zip_with_Some in Hj as (t' & i' & [= -> -> ->] & _ & Hi).
    split; [done|]. apply Hin. by eapply list_elem_of_lookup_2. }
  intros r h2 [-> _].
  rewrite zip_order by (by rewrite <- (length_fmap snd), Hns, length_fmap).
  rewrite (rx_steps_once (fun _ => s) (fun _ => D)); simpl.
  - by rewrite length_fmap, Hp.
  - by subst ns.
  - rewrite <- Hp. apply NoDup_seqZ.
  - done.
  - rewrite covers_spec. intros i Hi. rewrite <- Hp. apply elem_of_seqZ. lia.
Qed.

(** fragment_incoming checks an unfragmented packet's header with the masks of
    the sequence and fragment id fields unshifted.  It drops the packet only when
    one of the low six bits of the sequence id is set: spurious high bits of the
    sequence id and any spurious fragment id go unnoticed. *)
Theorem whole_header_check now h p b f fr seq id D :
  0 <= seq < 256 -> 0 <= id < 32 -> Forall is_byte D ->
  buf_rep h p b (be_enc 4 (fragment_flags FRAG_WHOLE seq id 0) ++ D) ->
  wp (fragment_incoming now f b fr)
     (fun r h' => exists b', r = (f, b') /\ h' = h /\
        if seq mod 64 =? 0 then buf_rep h' p b' D else b_len b' = 0) h.
Proof.
  intros Hq Hi HD Hb. pose proof (buf_rep_Zlen _ _ _ _ Hb) as HbL.
  rewrite Zlen_app, Zlen_be_enc4 in HbL. pose proof (Zlen_nonneg D).
  assert (fragment_flags FRAG_WHOLE seq id 0 = seq * 4 + id * 1024) as Hfl.
  { unfold fragment_flags. simpl. change FRAG_SEQ_ID_MASK with (Z.ones 8).
    change FRAG_ID_MASK with (Z.ones 5). rewrite !Z.land_ones by lia.
    change (Z.shiftl (Z.land FRAG_WHOLE FRAG_TYPE_MASK) FRAG_TYPE_SHIFT) with 0.
    rewrite Z.lor_0_l. unfold FRAG_SEQ_ID_SHIFT, FRAG_ID_SHIFT.
    rewrite Z.shiftl_mul_pow2 by lia. change (2 ^ 2) with 4. change (2 ^ 8) with 256.
    change (2 ^ 5) with 32. rewrite !Z.mod_small by lia. by rewrite lor_shiftl_add by lia. }
  pose proof (wp_buf_read _ _ _ _ _ Hb) as Hrd. rewrite Zlen_be_enc4 in Hrd.
  unfold fragment_incoming. replace (b_len b >? 0) with true by blia. wp_steps.
  eapply wp_mono; [exact Hrd|]. intros ? h1 (-> & -> & Hb1). rewrite Hfl. wp_steps.
  rewrite be_dec_enc by (simpl; lia). unfold FRAG_TYPE_SHIFT. rewrite Z.shiftr_0_r.
  change FRAG_TYPE_MASK with (Z.ones 2). rewrite Z.land_ones by lia.
  replace (_ mod 2 ^ 2) with 0 by (change (2 ^ 2) with 4; Z.div_mod_to_equations; lia). simpl.
  assert (flag (seq * 4 + id * 1024) (Z.lor FRAG_SEQ_ID_MASK FRAG_ID_MASK) = negb (seq mod 64 =? 0)) as ->.
  { unfold flag. change (Z.lor _ _) with (Z.ones 8). rewrite Z.land_ones by lia. change (2 ^ 8) with 256.
    f_equal. apply eq_true_iff_eq. rewrite !Z.eqb_eq. Z.div_mod_to_equations. lia. }
  destruct (seq mod 64 =? 0); simpl; wp_steps; eexists; split; try done.
Qed.

(** ** Example: a datagram of 200 bytes over a link with 137 bytes of payload *)

Definition ex_frag_frame : frame := Frame 300 141 4 4 0 0 1 4.
Definition ex_datagram : list byte := (fun i => Z.of_nat i) <$> seq 0 200.
Definition ex_tx_heap : heap :=
  list_to_map [(1%positive, replicate 312 0); (2%positive, replicate 312 0); (3%positive, ex_datagram)].
Definition ex_buf (n : positive) : buffer := Buf 312 0 0 (Some (Ptr n 0)).
Definition ex_idle_list (seq : Z) : fragment_list :=
  FragList seq 0 ((fun i => Fragment false 0 0 0 (ex_buf (Pos.of_nat i))) <$> List.seq 1 25).
Definition ex_master (seq : Z) : fragment_master :=
  FragMaster event_timeout_clear false 6 0 0 (ex_buf 1) (ex_buf 2) (ex_idle_list seq).
Definition ex_slots : list ptr := (fun i => Ptr (Pos.of_nat i) 0) <$> List.seq 1 25.
Definition ex_rx_heap : heap :=
  list_to_map ((fun i => (Pos.of_nat i, replicate 312 0)) <$> List.seq 1 26).

Lemma ex_frag_frame_ok : frame_ok ex_frag_frame.
Proof.
  split; unfold FRAME_MAX, PAYLOAD_ALIGN, TUN_MTU_MIN, ex_frag_frame;
    cbn [extra_frame extra_buffer extra_tun extra_link align_adjust link_mtu link_mtu_dynamic]; lia.
Qed.

Ltac ex_mem := eexists; vm_compute; reflexivity.

Lemma ex_empty_rep h n : is_Some (mload h (Ptr n 0) 312) -> buf_rep h (Ptr n 0) (ex_buf n) [].
Proof.
  intros [x Hx]. split; simpl; eauto; try lia; [unfold BUF_MAX; lia|].
  erewrite mload_sub by (eauto; lia). by rewrite slice_nil.
Qed.

Lemma ex_tx_ok seq : tx_ok ex_tx_heap ex_frag_frame (Ptr 1 0) (Ptr 2 0) (ex_master seq) [].
Proof.
  split; [apply ex_frag_frame_ok|apply ex_empty_rep; ex_mem|done|apply ex_empty_rep; ex_mem|done|done|].
  simpl. lia.
Qed.

Lemma ex_datagram_rep : buf_rep ex_tx_heap (Ptr 3 0) (Buf 200 0 200 (Some (Ptr 3 0))) ex_datagram.
Proof. split; simpl; try done; try lia; first [ex_mem|unfold BUF_MAX; lia]. Qed.

Lemma ex_datagram_bytes : Forall is_byte ex_datagram.
Proof. unfold ex_datagram. apply Forall_fmap, Forall_seq. intros. unfold compose, is_byte. lia. Qed.

Lemma ex_rx_idle seq : 0 <= seq < 256 -> rx_idle ex_rx_heap ex_frag_frame ex_slots (ex_idle_list seq).
Proof.
  intros Hs. split; simpl; try done; try lia.
  - unfold ex_slots. simpl. repeat constructor; try done; eexists; apply ex_empty_rep; ex_mem.
  - apply (bool_decide_unpack _). by vm_compute.
  - repeat constructor.
Qed.

Lemma ex_rxb_ok : rxb_ok ex_rx_heap ex_frag_frame ex_slots (Ptr 26 0) (ex_buf 26).
Proof.
  split_and!; try done; first [ex_mem | apply (bool_decide_unpack _); by vm_compute].
Qed.

Lemma fragment_send_splits_witness :
  exists s, optimal_fragment_size (Zlen ex_datagram) (PAYLOAD_SIZE_DYNAMIC ex_frag_frame) = Ok s /\
    (s < 65536 -> Zlen ex_datagram <= 32 * s ->
     frag_ok s ex_datagram /\ s <= PAYLOAD_SIZE_DYNAMIC ex_frag_frame /\
     wp (fragment_send (ex_master 0) (Buf 200 0 200 (Some (Ptr 3 0))) ex_frag_frame)
        (fun r _ => r = frag_packet 7 s ex_datagram <$> seqZ 0 (frag_count s ex_datagram)) ex_tx_heap).
Proof.
  exact (fragment_send_splits ex_tx_heap ex_frag_frame (Ptr 1 0) (Ptr 2 0) (ex_master 0) (Ptr 3 0)
    (Buf 200 0 200 (Some (Ptr 3 0))) ex_datagram [] (ex_tx_ok 0) ex_datagram_rep ex_datagram_bytes
    ltac:(done) ltac:(vm_compute; split; congruence)).
Defined.

(** The two fragments of the example arrive in the wrong order. *)
Lemma fragment_roundtrip_witness :
  wp (fragment_send (ex_master 0) (Buf 200 0 200 (Some (Ptr 3 0))) ex_frag_frame)
     (fun pkts _ =>
        [frag_packet 7 104 ex_datagram 1; frag_packet 7 104 ex_datagram 0] ≡ₚ pkts ->
        wp (fragment_receive_all (ex_master 100) (ex_buf 26) ex_frag_frame
              [(50, frag_packet 7 104 ex_datagram 1); (51, frag_packet 7 104 ex_datagram 0)])
           (fun r _ => r = replicate (length pkts - 1) None ++ [Some ex_datagram]) ex_rx_heap)
     ex_tx_heap.
Proof.
  apply (fragment_roundtrip ex_tx_heap ex_frag_frame (Ptr 1 0) (Ptr 2 0) (ex_master 0) (Ptr 3 0)
    (Buf 200 0 200 (Some (Ptr 3 0))) ex_datagram [] 104 ex_rx_heap ex_frag_frame ex_slots (Ptr 26 0)
    (ex_buf 26) (ex_master 100)
    [(50, frag_packet 7 104 ex_datagram 1); (51, frag_packet 7 104 ex_datagram 0)]
    (ex_tx_ok 0) ex_datagram_rep ex_datagram_bytes).
  - done.
  - vm_compute. split; congruence.
  - vm_compute. reflexivity.
  - lia.
  - vm_compute. congruence.
  - apply ex_frag_frame_ok.
  - simpl. lia.
  - vm_compute. congruence.
  - apply ex_rx_idle. lia.
  - apply ex_rxb_ok.
Defined.

Lemma ex_rx_ok :
  rx_ok ex_frag_frame ex_slots (fun _ => 104) (fun _ => ex_datagram) ex_rx_heap 0 0 3 (fun _ => [])
    (FragList 3 3 (fragments (ex_idle_list 0))).
Proof.
  destruct (ex_rx_idle 0) as [_ _ Hm Hl Hn Hu]; [lia|]. split; auto; try lia; try done.
  intros o p x _ _ Hx. by eapply Forall_lookup_1 in Hu.
Qed.

Lemma ex_frag_ok : frag_ok 104 ex_datagram /\ Zlen ex_datagram <= PAYLOAD_SIZE ex_frag_frame.
Proof.
  split; [|by vm_compute]. split; try done; try lia; first [apply ex_datagram_bytes | vm_compute; split; congruence].
Qed.

(** Datagrams 0 and 4 interleaved, with a repeated fragment. *)
Lemma fragments_reassemble_witness :
  wp (fragment_receive_all
        (with_incoming (ex_master 0) (FragList 3 3 (fragments (ex_idle_list 0)))) (ex_buf 26)
        ex_frag_frame
        (wire 0 (fun _ => 104) (fun _ => ex_datagram)
              [(10, 4, 1); (10, 0, 0); (11, 4, 1); (12, 4, 0); (13, 0, 1)]))
     (fun r _ => r = [None; None; None; Some ex_datagram; Some ex_datagram]) ex_rx_heap.
Proof.
  eapply wp_mono.
  - apply (fragments_reassemble ex_frag_frame ex_slots (fun _ => 104) (fun _ => ex_datagram)
             ex_rx_heap (Ptr 26 0) (ex_buf 26) _ 0 0 3 (fun _ => [])).
    + apply ex_frag_frame_ok.
    + simpl. lia.
    + intros _ _. apply ex_frag_ok.
    + apply ex_rx_ok.
    + apply ex_rxb_ok.
    + assert (frag_count 104 ex_datagram = 2) as E by (by vm_compute).
      repeat constructor; rewrite ?E; lia.
  - intros r h' [-> _]. vm_compute. reflexivity.
Defined.

(** Sequence id 64 with fragment id 31 passes for an unfragmented packet. *)
Lemma whole_header_check_witness :
  wp (fragment_incoming 0 (ex_master 0) (Buf 6 0 6 (Some (Ptr 1 0))) ex_frag_frame)
     (fun r h' => exists b', r = (ex_master 0, b') /\
        h' = {[1%positive := [0; 0; 125; 0; 9; 8]]} /\ buf_rep h' (Ptr 1 0) b' [9; 8])
     {[1%positive := [0; 0; 125; 0; 9; 8]]}.
Proof.
  refine (whole_header_check 0 {[1%positive := [0; 0; 125; 0; 9; 8]]} (Ptr 1 0)
    (Buf 6 0 6 (Some (Ptr 1 0))) (ex_master 0) ex_frag_frame 64 31 [9; 8] _ _ _ _); [lia..| |].
  - repeat constructor; lia.
  - split; simpl; try done; try lia; first [ex_mem | unfold BUF_MAX; lia].
Defined.
