(* ===== verification/HashTable.v ===== *)
(** src/list.h and src/list.c: the hash table that finds client instances and
    routes, its iterator with deferred deletion, and Bob Jenkins' hash function.

    The elements of a bucket are a singly linked list.  A node is a [positive] (its
    address) in the store [nodes] of the table: hash_lookup relinks nodes, and the
    iterator points at nodes it will free later, so the links are modelled as they
    are.  Keys are marked for deletion by the NULL key, here [None].  Buckets are
    locked and unlocked inside each operation; the model runs one operation at a
    time. *)

From S2P Require Import Prelude Integer.

(** ** hash_func *)

(** Three lines of the macro, with their shifts. *)
Definition mix_lines (i j k : Z) (abc : Z * Z * Z) : Z * Z * Z :=
  let '(a, b, c) := abc in
  let a := Z.lxor (u32 (u32 (a - b) - c)) (Z.shiftr c i) in
  let b := Z.lxor (u32 (u32 (b - c) - a)) (u32 (Z.shiftl a j)) in
  let c := Z.lxor (u32 (u32 (c - a) - b)) (Z.shiftr b k) in
  (a, b, c).
Definition mix (abc : Z * Z * Z) : Z * Z * Z :=
  mix_lines 3 10 15 (mix_lines 12 16 5 (mix_lines 13 8 13 abc)).

(** Four bytes, least significant first; bytes past the end of the key count 0. *)
Definition le32 (k : list byte) (i : nat) : Z :=
  u32 (nth i k 0 + Z.shiftl (nth (i + 1) k 0) 8 + Z.shiftl (nth (i + 2) k 0) 16
       + Z.shiftl (nth (i + 3) k 0) 24).

(** while (len >= 12): every round takes 12 bytes of the key. *)
Fixpoint hash_blocks (fuel : nat) (k : list byte) (abc : Z * Z * Z) : list byte * (Z * Z * Z) :=
  match fuel with
  | O => (k, abc)
  | S f =>
      if Zlen k >=? 12 then
        let '(a, b, c) := abc in
        hash_blocks f (drop 12 k) (mix (u32 (a + le32 k 0), u32 (b + le32 k 4), u32 (c + le32 k 8)))
      else (k, abc)
  end.

(** The switch falls through, so the last bytes fill a, b and the upper three bytes
    of c, whose lowest byte has the length. *)
Definition hash_func (k : list byte) (initval : Z) : Z :=
  let '(r, (a, b, c)) := hash_blocks (length k) k (2654435769, 2654435769, initval) in
  let c := u32 (c + Zlen k) in
  let c := u32 (c + Z.shiftl (le32 r 8) 8) in
  let b := u32 (b + le32 r 4) in
  let a := u32 (a + le32 r 0) in
  snd (mix (a, b, c)).

Section Hash.
Context {K V : Type} `{EqDecision V}.
Context (hash_function : K -> Z -> Z) (compare_function : K -> K -> bool).

(** ** Data *)

Record hash_element := HashElement {
  he_value : V;
  he_key : option K;
  he_hash_value : Z;
  he_next : option positive
}.

Record hash := Hash {
  n_buckets : Z;
  n_elements : Z;
  hmask : Z;
  iv : Z;
  buckets : list (option positive);
  nodes : gmap positive hash_element
}.

Definition with_next (e : hash_element) (o : option positive) : hash_element :=
  HashElement (he_value e) (he_key e) (he_hash_value e) o.
Definition with_key (e : hash_element) (k : option K) : hash_element :=
  HashElement (he_value e) k (he_hash_value e) (he_next e).
Definition with_value (e : hash_element) (v : V) : hash_element :=
  HashElement v (he_key e) (he_hash_value e) (he_next e).
Definition with_nodes (h : hash) (n : Z) (b : list (option positive))
  (st : gmap positive hash_element) : hash := Hash (n_buckets h) n (hmask h) (iv h) b st.

(** Reading and writing through a pointer to an element. *)
Definition hget (h : hash) (p : positive) : result hash_element := from_opt (nodes h !! p).
Definition hset (h : hash) (p : positive) (e : hash_element) : hash :=
  with_nodes h (n_elements h) (buckets h) (<[p := e]> (nodes h)).

(** ** Operations *)

(** [rnd] is get_random (). *)
Definition hash_init (rnd : Z) (n_buckets_ : Z) : result hash :=
  _ ← assert_ (n_buckets_ >? 0);
  n ← adjust_power_of_2 n_buckets_;
  let n := i32 n in
  Ok (Hash n 0 (i32 (n - 1)) (u32 rnd) (replicate (Z.to_nat n) None) ∅).

Definition hash_value (h : hash) (key : K) : Z := hash_function key (iv h).
Definition hash_n_elements (h : hash) : Z := n_elements h.
Definition hash_n_buckets (h : hash) : Z := n_buckets h.
(** A bucket is its index; the mask is converted to unsigned. *)
Definition hash_bucket (h : hash) (hv : Z) : Z := Z.land hv (u32 (hmask h)).

(** The walk of hash_lookup_fast and hash_remove_fast: the matching element and the
    one before it.  A walk has at most as many steps as there are elements. *)
Fixpoint find_element (fuel : nat) (h : hash) (key : K) (hv : Z) (prev he : option positive)
  : result (option (option positive * positive * hash_element)) :=
  match fuel with
  | O => Fault
  | S f =>
      match he with
      | None => Ok None
      | Some p =>
          e ← hget h p;
          hit ← (if hv =? he_hash_value e then
                   k ← from_opt (he_key e); Ok (compare_function key k)
                 else Ok false);
          if (hit : bool) then Ok (Some (prev, p, e)) else find_element f h key hv (Some p) (he_next e)
      end
  end.
Definition walk_fuel (h : hash) : nat := S (size (nodes h)).

Definition hash_lookup_fast (h : hash) (bucket : Z) (key : K) (hv : Z)
  : result (option positive * hash) :=
  he ← aget (buckets h) bucket;
  r ← find_element (walk_fuel h) h key hv None he;
  match r with
  | None => Ok (None, h)
  | Some (None, p, e) => Ok (Some p, h)
  | Some (Some prev, p, e) =>
      (* move to head of list *)
      pe ← hget h prev;
      let h := hset h prev (with_next pe (he_next e)) in
      head ← aget (buckets h) bucket;
      e ← hget h p;
      let h := hset h p (with_next e head) in
      b ← aset (buckets h) bucket (Some p);
      Ok (Some p, with_nodes h (n_elements h) b (nodes h))
  end.

Definition hash_remove_fast (h : hash) (bucket : Z) (key : K) (hv : Z) : result (bool * hash) :=
  he ← aget (buckets h) bucket;
  r ← find_element (walk_fuel h) h key hv None he;
  match r with
  | None => Ok (false, h)
  | Some (prev, p, e) =>
      h ← (match prev with
           | Some q => qe ← hget h q; Ok (hset h q (with_next qe (he_next e)))
           | None => b ← aset (buckets h) bucket (he_next e);
                     Ok (with_nodes h (n_elements h) b (nodes h))
           end);
      Ok (true, with_nodes h (i32 (n_elements h - 1)) (buckets h) (delete p (nodes h)))
  end.

Definition hash_add_fast (h : hash) (bucket : Z) (key : K) (hv : Z) (value : V) : result hash :=
  head ← aget (buckets h) bucket;
  let p := fresh (dom (nodes h)) in
  b ← aset (buckets h) bucket (Some p);
  Ok (with_nodes h (i32 (n_elements h + 1)) b
        (<[p := HashElement value (Some key) hv head]> (nodes h))).

Definition hash_add (h : hash) (key : K) (value : V) (replace : bool) : result (bool * hash) :=
  let hv := hash_value h key in
  let bucket := hash_bucket h hv in
  '(he, h) ← hash_lookup_fast h bucket key hv;
  match he with
  | Some p =>
      if replace then e ← hget h p; Ok (true, hset h p (with_value e value)) else Ok (false, h)
  | None => h ← hash_add_fast h bucket key hv value; Ok (true, h)
  end.

Definition hash_lookup (h : hash) (key : K) : result (option V * hash) :=
  let hv := hash_value h key in
  '(he, h) ← hash_lookup_fast h (hash_bucket h hv) key hv;
  match he with
  | Some p => e ← hget h p; Ok (Some (he_value e), h)
  | None => Ok (None, h)
  end.

Definition hash_remove (h : hash) (key : K) : result (bool * hash) :=
  let hv := hash_value h key in hash_remove_fast h (hash_bucket h hv) key hv.

(** hash_free: the elements of every bucket are freed once. *)
Fixpoint free_chain (fuel : nat) (st : gmap positive hash_element) (he : option positive)
  : result (gmap positive hash_element) :=
  match fuel with
  | O => Fault
  | S f => match he with
           | None => Ok st
           | Some p => e ← from_opt (st !! p); free_chain f (delete p st) (he_next e)
           end
  end.
Fixpoint free_buckets (fuel : nat) (st : gmap positive hash_element) (b : list (option positive))
  : result (gmap positive hash_element) :=
  match b with
  | [] => Ok st
  | he :: r => st ← free_chain fuel st he; free_buckets fuel st r
  end.
Definition hash_free (h : hash) : result (gmap positive hash_element) :=
  free_buckets (walk_fuel h) (nodes h) (buckets h).

(** ** The iterator *)

Record hash_iterator := HashIterator {
  bucket_index : Z;
  hi_bucket : option Z;
  hi_elem : option positive;
  hi_last : option positive;
  bucket_marked : bool;
  bucket_index_start : Z;
  bucket_index_end : Z
}.

Fixpoint remove_marked (fuel : nat) (h : hash) (bucket : Z) (prev he : option positive)
  : result hash :=
  match fuel with
  | O => Fault
  | S f =>
      match he with
      | None => Ok h
      | Some p =>
          e ← hget h p;
          match he_key e with
          | None =>
              let newhe := he_next e in
              h ← (match prev with
                   | Some q => qe ← hget h q; Ok (hset h q (with_next qe newhe))
                   | None => b ← aset (buckets h) bucket newhe;
                             Ok (with_nodes h (n_elements h) b (nodes h))
                   end);
              remove_marked f
                (with_nodes h (i32 (n_elements h - 1)) (buckets h) (delete p (nodes h)))
                bucket prev newhe
          | Some _ => remove_marked f h bucket (Some p) (he_next e)
          end
      end
  end.
Definition hash_remove_marked (h : hash) (bucket : Z) : result hash :=
  he ← aget (buckets h) bucket; remove_marked (walk_fuel h) h bucket None he.

Definition hash_iterator_init_range (h : hash) (start_bucket end_bucket : Z)
  : result hash_iterator :=
  let end_bucket := if end_bucket >? n_buckets h then n_buckets h else end_bucket in
  _ ← assert_ ((start_bucket >=? 0) && (start_bucket <=? end_bucket));
  Ok (HashIterator (start_bucket - 1) None None None false start_bucket end_bucket).
Definition hash_iterator_init (h : hash) : result hash_iterator :=
  hash_iterator_init_range h 0 (n_buckets h).

Definition hash_iterator_lock (hi : hash_iterator) (b : Z) : hash_iterator :=
  HashIterator (bucket_index hi) (Some b) (hi_elem hi) None false (bucket_index_start hi)
    (bucket_index_end hi).
Definition hash_iterator_unlock (h : hash) (hi : hash_iterator) : result (hash * hash_iterator) :=
  match hi_bucket hi with
  | None => Ok (h, hi)
  | Some b =>
      h ← (if bucket_marked hi then hash_remove_marked h b else Ok h);
      Ok (h, HashIterator (bucket_index hi) None (hi_elem hi) None false (bucket_index_start hi)
               (bucket_index_end hi))
  end.

(** The element is returned and the iterator moves past it. *)
Definition iterator_take (h : hash) (hi : hash_iterator) (p : positive)
  : result (option positive * hash * hash_iterator) :=
  e ← hget h p;
  Ok (Some p, h, HashIterator (bucket_index hi) (hi_bucket hi) (he_next e) (Some p)
                   (bucket_marked hi) (bucket_index_start hi) (bucket_index_end hi)).

(** while (++hi->bucket_index < hi->bucket_index_end): [fuel] buckets are left. *)
Fixpoint next_bucket (fuel : nat) (h : hash) (hi : hash_iterator)
  : result (option positive * hash * hash_iterator) :=
  let hi := HashIterator (bucket_index hi + 1) (hi_bucket hi) (hi_elem hi) (hi_last hi)
              (bucket_marked hi) (bucket_index_start hi) (bucket_index_end hi) in
  if bucket_index hi <? bucket_index_end hi then
    match fuel with
    | O => Fault
    | S f =>
        '(h, hi) ← hash_iterator_unlock h hi;
        b ← aget (buckets h) (bucket_index hi);
        match b with
        | Some p => iterator_take h (hash_iterator_lock hi (bucket_index hi)) p
        | None => next_bucket f h hi
        end
    end
  else Ok (None, h, hi).

Definition hash_iterator_next (h : hash) (hi : hash_iterator)
  : result (option positive * hash * hash_iterator) :=
  match hi_elem hi with
  | Some p => iterator_take h hi p
  | None => next_bucket (Z.to_nat (bucket_index_end hi - bucket_index hi)) h hi
  end.

Definition hash_iterator_delete_element (h : hash) (hi : hash_iterator)
  : result (hash * hash_iterator) :=
  match hi_last hi with
  | None => AssertFail
  | Some p =>
      e ← hget h p;
      Ok (hset h p (with_key e None),
          HashIterator (bucket_index hi) (hi_bucket hi) (hi_elem hi) (hi_last hi) true
            (bucket_index_start hi) (bucket_index_end hi))
  end.

Definition hash_iterator_free (h : hash) (hi : hash_iterator) : result (hash * hash_iterator) :=
  hash_iterator_unlock h hi.

(** while ((he = hash_iterator_next (&hi))): once per element. *)
Fixpoint remove_by_value (fuel : nat) (h : hash) (hi : hash_iterator) (value : V)
  : result (hash * hash_iterator) :=
  match fuel with
  | O => Fault
  | S f =>
      '(he, h, hi) ← hash_iterator_next h hi;
      match he with
      | None => Ok (h, hi)
      | Some p =>
          e ← hget h p;
          '(h, hi) ← (if decide (he_value e = value) then hash_iterator_delete_element h hi
                      else Ok (h, hi));
          remove_by_value f h hi value
      end
  end.
Definition hash_remove_by_value (h : hash) (value : V) : result hash :=
  hi ← hash_iterator_init h;
  '(h, hi) ← remove_by_value (S (size (nodes h))) h hi value;
  '(h, hi) ← hash_iterator_free h hi;
  Ok h.

(** ** Representation *)

(** The links from [o] run through the elements [l] to [o']. *)
Fixpoint lseg (st : gmap positive hash_element) (o : option positive) (l : list positive)
  (o' : option positive) : Prop :=
  match l with
  | [] => o = o'
  | p :: r => o = Some p /\ exists e, st !! p = Some e /\ lseg st (he_next e) r o'
  end.

(** What an element holds, its link apart. *)
Definition he_data (e : hash_element) : V * option K * Z := (he_value e, he_key e, he_hash_value e).

(** The table's elements are in the buckets of their hash values, each once; [marks]
    allows keys that are marked for deletion. *)
Record hash_ok (marks : bool) (h : hash) (bl : list (list positive)) : Prop := {
  hk_size : 0 < n_buckets h < 2147483648;
  hk_mask : hmask h = n_buckets h - 1;
  hk_pow : exists k, 0 <= k /\ n_buckets h = 2 ^ k;
  hk_len : Zlen bl = n_buckets h;
  hk_lists : Forall2 (fun o l => lseg (nodes h) o l None) (buckets h) bl;
  hk_nodup : forall i l, bl !! i = Some l -> NoDup l;
  hk_dom : forall p e, nodes h !! p = Some e -> exists i l, bl !! i = Some l /\ p ∈ l;
  hk_bucket : forall i l p e, bl !! i = Some l -> p ∈ l -> nodes h !! p = Some e ->
    i = Z.to_nat (hash_bucket h (he_hash_value e));
  hk_key : forall p e, nodes h !! p = Some e ->
    match he_key e with
    | Some k => he_hash_value e = hash_function k (iv h)
    | None => marks = true
    end;
  hk_distinct : forall p q e e' k k', nodes h !! p = Some e -> nodes h !! q = Some e' ->
    he_key e = Some k -> he_key e' = Some k' -> compare_function k k' = true -> p = q;
  hk_count : n_elements h = i32 (Z.of_nat (size (nodes h)))
}.

(** The finite map a table stands for. *)
Definition hash_maps (h : hash) (key : K) (v : V) : Prop :=
  exists p e k, nodes h !! p = Some e /\ he_key e = Some k /\ compare_function key k = true /\
    he_value e = v.

(** ** Lemmas about linked lists *)

#[local] Set Default Proof Using "Type*".

Lemma lseg_app st o l l' o' :
  lseg st o (l ++ l') o' <-> exists m, lseg st o l m /\ lseg st m l' o'.
Proof.
  revert o. induction l as [|p l IH]; intros o; simpl.
  - split; [eauto|]. by intros (m & -> & ?).
  - split.
    + intros (-> & e & He & (m & ? & ?)%IH). exists m. eauto.
    + intros (m & (-> & e & He & Hl) & Hr). split; [done|]. exists e. split; [done|].
      apply IH. eauto.
Qed.

(** Only the elements of the segment matter. *)
Lemma lseg_frame st st' o l o' :
  (forall p, p ∈ l -> st' !! p = st !! p) -> lseg st o l o' -> lseg st' o l o'.
Proof.
  revert o. induction l as [|p l IH]; intros o Hf; simpl; [done|].
  intros (-> & e & He & Hl). split; [done|]. exists e.
  split; [rewrite Hf; [done|left]|]. apply IH; [|done]. intros q Hq. apply Hf. by right.
Qed.

Lemma lseg_in st o l o' p : lseg st o l o' -> p ∈ l -> is_Some (st !! p).
Proof.
  revert o. induction l as [|q l IH]; intros o; simpl; [by intros _ ?%elem_of_nil|].
  intros (-> & e & He & Hl) [->|Hp]%elem_of_cons; eauto.
Qed.

Lemma lseg_length st o l o' : lseg st o l o' -> NoDup l -> (length l <= size st)%nat.
Proof.
  intros Hl Hn. rewrite <- (size_list_to_set (C := gset positive)) by done.
  rewrite <- (size_dom (D := gset positive)). apply subseteq_size.
  intros p Hp%elem_of_list_to_set. apply elem_of_dom. by eapply lseg_in.
Qed.

(** Changing the last link of a segment. *)
Lemma lseg_relink st o l q m m' e :
  lseg st o (l ++ [q]) m -> st !! q = Some e -> q ∉ l ->
  lseg (<[q := with_next e m']> st) o (l ++ [q]) m'.
Proof.
  intros (m0 & Hl & Hq)%lseg_app He Hn. apply lseg_app. exists m0. split.
  - eapply lseg_frame; [|exact Hl]. intros p Hp. apply lookup_insert_ne. by intros ->.
  - destruct Hq as (-> & _). simpl. split; [done|]. eexists. rewrite lookup_insert_eq. done.
Qed.

Lemma last_snoc_cases (l : list positive) : l = [] \/ exists l0 q, l = l0 ++ [q].
Proof. induction l using rev_ind; eauto. Qed.

(** ** Lemmas about tables *)

(** The same elements, possibly linked in another order. *)
Record same_data (h h' : hash) : Prop := {
  sd_n : n_buckets h' = n_buckets h;
  sd_count : n_elements h' = n_elements h;
  sd_mask : hmask h' = hmask h;
  sd_iv : iv h' = iv h;
  sd_nodes : forall p, he_data <$> nodes h' !! p = he_data <$> nodes h !! p
}.

Lemma same_data_refl h : same_data h h.
Proof. by split. Qed.

Lemma same_data_lookup h h' p e' :
  same_data h h' -> nodes h' !! p = Some e' ->
  exists e, nodes h !! p = Some e /\ he_data e = he_data e'.
Proof.
  intros H He. pose proof (sd_nodes _ _ H p) as Hp. rewrite He in Hp. simpl in Hp.
  destruct (nodes h !! p) as [e|]; [|done]. injection Hp as ?. exists e. split; [done|].
  unfold he_data. congruence.
Qed.

Lemma same_data_sym h h' : same_data h h' -> same_data h' h.
Proof. intros []. split; auto. Qed.

Lemma same_data_maps h h' key v : same_data h h' -> hash_maps h' key v -> hash_maps h key v.
Proof.
  intros H (p & e' & k & He & Hk & Hc & Hv).
  destruct (same_data_lookup _ _ _ _ H He) as (e & He' & Hd). unfold he_data in Hd.
  exists p, e, k. split_and!; congruence.
Qed.

Lemma same_data_size h h' : same_data h h' -> size (nodes h') = size (nodes h).
Proof.
  intros H. rewrite <- !(size_dom (D := gset positive)). f_equal. apply set_eq. intros p.
  rewrite !elem_of_dom. pose proof (sd_nodes _ _ H p) as Hp.
  destruct (nodes h' !! p), (nodes h !! p); simpl in Hp; split; intros []; done.
Qed.

(** A bucket of the table, and its list. *)
Lemma hash_bucket_range marks h bl hv :
  hash_ok marks h bl -> 0 <= hash_bucket h hv < n_buckets h.
Proof.
  intros H. destruct H as [Hs Hm [k [Hk Hp]] _ _ _ _ _ _ _]. unfold hash_bucket.
  rewrite Hm, u32_id by (unfold is_u32; lia). rewrite Hp.
  replace (2 ^ k - 1) with (Z.ones k) by (rewrite Z.ones_equiv; lia).
  rewrite Z.land_ones by lia. apply Z.mod_pos_bound. apply Z.pow_pos_nonneg; lia.
Qed.

Lemma hash_ok_bucket marks h bl b :
  hash_ok marks h bl -> 0 <= b < n_buckets h ->
  exists o l, aget (buckets h) b = Ok o /\ buckets h !! Z.to_nat b = Some o /\
    bl !! Z.to_nat b = Some l /\ lseg (nodes h) o l None.
Proof.
  intros H Hb. pose proof (hk_len _ _ _ H). pose proof (hk_lists _ _ _ H) as HF.
  pose proof (Forall2_length HF). unfold Zlen in *.
  destruct (lookup_lt_is_Some_2 bl (Z.to_nat b)) as [l Hl]; [lia|].
  destruct (Forall2_lookup_r _ _ _ _ _ HF Hl) as (o & Ho & Hseg).
  exists o, l. split_and!; auto. apply aget_lookup; [lia|done].
Qed.

Lemma hash_ok_aset marks h bl b o :
  hash_ok marks h bl -> 0 <= b < n_buckets h ->
  aset (buckets h) b o = Ok (<[Z.to_nat b := o]> (buckets h)).
Proof.
  intros H Hb. apply aset_ok. pose proof (hk_len _ _ _ H).
  pose proof (Forall2_length (hk_lists _ _ _ H)). unfold Zlen in *. lia.
Qed.

(** An element is in one bucket only. *)
Lemma hash_ok_disjoint marks h bl i j l l' p :
  hash_ok marks h bl -> bl !! i = Some l -> bl !! j = Some l' -> i <> j -> p ∈ l -> p ∉ l'.
Proof.
  intros H Hi Hj Hne Hp Hp'. apply Hne.
  destruct (Forall2_lookup_r _ _ _ _ _ (hk_lists _ _ _ H) Hi) as (o & _ & Hseg).
  destruct (lseg_in _ _ _ _ _ Hseg Hp) as [e He].
  rewrite (hk_bucket _ _ _ H i l p e), (hk_bucket _ _ _ H j l' p e); auto.
Qed.

(** Relinking one bucket. *)
Lemma hash_ok_relink marks h h' bl b l l' o' :
  hash_ok marks h bl -> bl !! b = Some l -> l' ≡ₚ l -> same_data h h' ->
  buckets h' = <[b := o']> (buckets h) -> lseg (nodes h') o' l' None ->
  (forall p, p ∉ l -> nodes h' !! p = nodes h !! p) ->
  hash_ok marks h' (<[b := l']> bl).
Proof.
  intros H Hl Hperm Hsd Hb Hseg Hout.
  assert (forall i x, <[b := l']> bl !! i = Some x ->
            exists y, bl !! i = Some y /\ x ≡ₚ y) as Hbl.
  { intros i x Hx. apply list_lookup_insert_Some in Hx as [(-> & -> & _)|[_ Hx]]; eauto. }
  pose proof H as [Hs Hm Hpow Hlen HF Hnd Hdom Hbk Hkey Hdist Hcnt]. destruct Hsd as [S1 S2 S3 S4 S5] eqn:ES.
  split; rewrite ?S1, ?S2, ?S3, ?S4; auto.
  - by unfold Zlen in *; rewrite length_insert.
  - rewrite Hb. apply Forall2_same_length_lookup_2.
    { rewrite !length_insert. by eapply Forall2_length. }
    intros i o x Ho Hx. destruct (decide (i = b)) as [->|Hne].
    + assert (b < length bl)%nat by (by eapply lookup_lt_Some).
      pose proof (Forall2_length HF).
      rewrite list_lookup_insert_eq in Ho by lia. rewrite list_lookup_insert_eq in Hx by lia.
      by simplify_eq.
    + rewrite list_lookup_insert_ne in Ho by done. rewrite list_lookup_insert_ne in Hx by done.
      eapply lseg_frame; [|by eapply (Forall2_lookup_lr _ _ _ _ _ _ HF)].
      intros p Hp. apply Hout. intros Hpl. by eapply (hash_ok_disjoint _ _ _ b i).
  - intros i x Hx. apply Hbl in Hx as (y & Hy & ->). eauto.
  - intros p e' He'. destruct (same_data_lookup _ _ _ _ Hsd He') as (e & He & _).
    destruct (Hdom p e He) as (i & y & Hy & Hp). destruct (decide (i = b)) as [->|Hne].
    + exists b, l'. rewrite list_lookup_insert_eq by (by eapply lookup_lt_Some).
      split; [done|]. rewrite Hperm. congruence.
    + exists i, y. by rewrite list_lookup_insert_ne by done.
  - intros i x p e' Hx Hp He'. apply Hbl in Hx as (y & Hy & Hxy). rewrite Hxy in Hp.
    destruct (same_data_lookup _ _ _ _ Hsd He') as (e & He & Hd). unfold he_data in Hd.
    rewrite (Hbk i y p e) by done. unfold hash_bucket. rewrite S3. congruence.
  - intros p e' He'. destruct (same_data_lookup _ _ _ _ Hsd He') as (e & He & Hd).
    specialize (Hkey p e He). unfold he_data in Hd. injection Hd as _ <- <-. done.
  - intros p q e e' k k' Hp Hq Hk Hk' Hc.
    destruct (same_data_lookup _ _ _ _ Hsd Hp) as (d & Hd & Hdd).
    destruct (same_data_lookup _ _ _ _ Hsd Hq) as (d' & Hd' & Hdd').
    injection Hdd as _ Hdd _. injection Hdd' as _ Hdd' _.
    apply (Hdist p q d d' k k'); congruence.
  - by rewrite (same_data_size _ _ Hsd).
Qed.

(** ** Finding, moving to the head, adding and removing *)

Definition matches (h : hash) (key : K) (hv : Z) (p : positive) : Prop :=
  exists e k, nodes h !! p = Some e /\ he_hash_value e = hv /\ he_key e = Some k /\
    compare_function key k = true.

Lemma find_element_spec fuel h key hv prev o l :
  lseg (nodes h) o l None -> (length l < fuel)%nat ->
  (forall p e, p ∈ l -> nodes h !! p = Some e -> is_Some (he_key e)) ->
  (find_element fuel h key hv prev o = Ok None /\ forall p, p ∈ l -> ~ matches h key hv p) \/
  (exists l1 p l2 e, l = l1 ++ p :: l2 /\ nodes h !! p = Some e /\ matches h key hv p /\
     find_element fuel h key hv prev o
     = Ok (Some (match list.last l1 with Some q => Some q | None => prev end, p, e))).
Proof.
  revert prev o l. induction fuel as [|fuel IH]; intros prev o l Hl Hf Hkey; [lia|].
  destruct l as [|p l]; cbn [lseg] in Hl.
  { subst o. left. split; [done|]. by intros p ?%elem_of_nil. }
  destruct Hl as (-> & e & He & Hl). cbn [find_element].
  unfold hget. rewrite He. cbn [from_opt mbind result_bind].
  destruct (Hkey p e) as [k Hk]; [left|done|]. rewrite Hk. cbn [from_opt mbind result_bind].
  assert (forall m, matches h key hv m -> m = p -> (hv =? he_hash_value e) && compare_function key k = true)
    as Hm.
  { intros m (e' & k' & He' & <- & Hk' & Hc) ->. simplify_eq. by rewrite Z.eqb_refl, Hc. }
  destruct ((hv =? he_hash_value e) && compare_function key k) eqn:Ehit.
  - apply andb_true_iff in Ehit as [E1 E2]. right. exists [], p, l, e. split; [done|]. split; [done|].
    split; [exists e, k; split_and!; auto; lia|].
    rewrite E1, E2. done.
  - assert (find_element (S fuel) h key hv prev (Some p) = find_element fuel h key hv (Some p) (he_next e))
      as Estep.
    { cbn [find_element]. unfold hget. rewrite He. simpl. rewrite Hk. simpl.
      destruct (hv =? he_hash_value e); simpl in *; [by rewrite Ehit|done]. }
    cbn [find_element] in Estep. unfold hget in Estep. rewrite He in Estep. simpl in Estep.
    rewrite Hk in Estep. simpl in Estep. rewrite Estep.
    destruct (IH (Some p) (he_next e) l Hl) as [[E Hno]|(l1 & q & l2 & e' & -> & He' & Hmq & E)].
    + simpl in Hf. lia.
    + intros q e' Hq. apply Hkey. by right.
    + left. split; [done|]. intros q [->|Hq]%elem_of_cons Hmq; [|by eapply Hno].
      by specialize (Hm p Hmq eq_refl).
    + right. exists (p :: l1), q, l2, e'. split; [done|]. split; [done|]. split; [done|].
      rewrite E. destruct l1 as [|x l1]; [done|]. change (list.last (p :: x :: l1)) with (list.last (x :: l1)).
      destruct (list.last (x :: l1)) eqn:El; [done|]. by apply list.last_None in El.
Qed.

Lemma matches_same_data h h' key hv p :
  same_data h h' -> matches h key hv p -> matches h' key hv p.
Proof.
  intros H (e & k & He & Hhv & Hk & Hc).
  destruct (same_data_lookup _ _ _ _ (same_data_sym _ _ H) He) as (e' & He' & Hd).
  injection Hd as _ Hd1 Hd2. exists e', k. split_and!; congruence.
Qed.

Lemma hash_ok_keys h bl p e : hash_ok false h bl -> nodes h !! p = Some e -> is_Some (he_key e).
Proof. intros H He. pose proof (hk_key _ _ _ H p e He) as Hk. destruct (he_key e); eauto. done. Qed.

Lemma bucket_length marks h bl i l : hash_ok marks h bl -> bl !! i = Some l -> (length l < walk_fuel h)%nat.
Proof.
  intros H Hl. destruct (Forall2_lookup_r _ _ _ _ _ (hk_lists _ _ _ H) Hl) as (o & _ & Hseg).
  pose proof (lseg_length _ _ _ _ Hseg (hk_nodup _ _ _ H i l Hl)). unfold walk_fuel. lia.
Qed.

(** What the walk finds in a bucket. *)
Lemma find_in_bucket h bl b o l key hv :
  hash_ok false h bl -> bl !! b = Some l -> lseg (nodes h) o l None ->
  (find_element (walk_fuel h) h key hv None o = Ok None /\ forall p, p ∈ l -> ~ matches h key hv p) \/
  exists l1 p l2 e, l = l1 ++ p :: l2 /\ nodes h !! p = Some e /\ matches h key hv p /\
    find_element (walk_fuel h) h key hv None o = Ok (Some (list.last l1, p, e)).
Proof.
  intros H Hl Hseg. destruct (find_element_spec (walk_fuel h) h key hv None o l) as [|Hr]; auto.
  - by eapply bucket_length.
  - intros p e _. by eapply hash_ok_keys.
  - right. destruct Hr as (l1 & p & l2 & e & ? & ? & ? & ->). exists l1, p, l2, e.
    split_and!; auto. by destruct (list.last l1).
Qed.

Lemma hash_lookup_fast_spec h bl b l key hv :
  hash_ok false h bl -> 0 <= b < n_buckets h -> bl !! Z.to_nat b = Some l ->
  exists r h' bl', hash_lookup_fast h b key hv = Ok (r, h') /\ hash_ok false h' bl' /\
    same_data h h' /\
    match r with
    | None => forall p, p ∈ l -> ~ matches h key hv p
    | Some p => matches h key hv p
    end.
Proof.
  intros H Hb Hl. destruct (hash_ok_bucket _ _ _ _ H Hb) as (o & l' & Ho & Hob & Hl' & Hseg).
  assert (l' = l) as -> by congruence. unfold hash_lookup_fast. rewrite Ho. cbn [mbind result_bind].
  destruct (find_in_bucket h bl _ o l key hv H Hl Hseg) as [[-> Hno]|(l1 & p & l2 & e & -> & He & Hm & ->)].
  { simpl. do 3 eexists. split; [reflexivity|]. split_and!; eauto using same_data_refl. }
  simpl. destruct (last_snoc_cases l1) as [->|(l0 & q & ->)].
  { simpl. do 3 eexists. split; [reflexivity|]. split_and!; eauto using same_data_refl. }
  rewrite list.last_snoc. pose proof (hk_nodup _ _ _ H _ _ Hl) as Hnd.
  apply list.NoDup_app in Hnd as (Hnd1 & Hnd12 & Hnd2).
  apply list.NoDup_app in Hnd1 as (_ & Hnd0 & _). apply list.NoDup_cons in Hnd2 as [Hp2 _].
  assert (q ∉ l0) as Hq0 by (intros Hin; apply (Hnd0 q Hin); left).
  assert (q ∉ p :: l2) as Hqp by (apply Hnd12, elem_of_app; right; left).
  assert (p ∉ l0 ++ [q]) as Hp1 by (intros Hin; apply (Hnd12 p Hin); left).
  assert (p <> q) as Hpq by (intros ->; apply Hqp; left).
  apply lseg_app in Hseg as (m & Hs1 & -> & e0 & He0 & Hs2). assert (e0 = e) as -> by congruence.
  destruct (lseg_in _ _ _ _ q Hs1) as [qe Hqe]; [apply elem_of_app; right; left|].
  unfold hget. rewrite Hqe. cbn [from_opt mbind result_bind].
  set (h1 := hset h q (with_next qe (he_next e))).
  change (buckets h1) with (buckets h). rewrite Ho. cbn [mbind result_bind].
  assert (nodes h1 !! p = Some e) as He1 by (simpl; by rewrite lookup_insert_ne by done).
  rewrite He1. cbn [from_opt mbind result_bind].
  rewrite (hash_ok_aset false h bl b _ H Hb). cbn [mbind result_bind]. set (h' := with_nodes _ _ _ _).
  assert (same_data h h') as Hsd.
  { split; try done. intros x. simpl. destruct (decide (x = p)) as [->|Hxp].
    - by rewrite lookup_insert_eq, He.
    - rewrite lookup_insert_ne by done. destruct (decide (x = q)) as [->|Hxq].
      + by rewrite lookup_insert_eq, Hqe.
      + by rewrite lookup_insert_ne by done. }
  exists (Some p), h', (<[Z.to_nat b := p :: (l0 ++ [q]) ++ l2]> bl). split; [done|]. split; [|done].
  eapply (hash_ok_relink false h h' bl _ ((l0 ++ [q]) ++ p :: l2)); eauto.
  - by rewrite Permutation_middle.
  - simpl. split; [done|]. eexists. rewrite lookup_insert_eq. split; [done|]. simpl.
    apply lseg_app. exists (he_next e). split.
    + eapply lseg_frame; [|by eapply lseg_relink]. intros x Hx. apply lookup_insert_ne. by intros ->.
    + eapply lseg_frame; [|exact Hs2]. intros x Hx. rewrite !lookup_insert_ne; [done|..].
      * intros ->. apply Hqp. by right.
      * by intros ->.
  - intros x Hx. simpl. rewrite !lookup_insert_ne; [done|..]; intros ->; apply Hx; set_solver.
Qed.

(** Changing one bucket and its elements. *)
Lemma hash_ok_change marks h h' bl b l l' o' :
  hash_ok marks h bl -> bl !! b = Some l ->
  n_buckets h' = n_buckets h -> hmask h' = hmask h -> iv h' = iv h ->
  buckets h' = <[b := o']> (buckets h) -> lseg (nodes h') o' l' None -> NoDup l' ->
  (forall p, p ∉ l -> p ∉ l' -> nodes h' !! p = nodes h !! p) ->
  (forall p, p ∈ l' -> p ∉ l -> nodes h !! p = None) ->
  (forall p, p ∈ l -> p ∉ l' -> nodes h' !! p = None) ->
  (forall p e, p ∈ l' -> nodes h' !! p = Some e ->
     b = Z.to_nat (hash_bucket h (he_hash_value e)) /\
     (match he_key e with Some k => he_hash_value e = hash_function k (iv h) | None => marks = true end)) ->
  (forall p q e e' k k', nodes h' !! p = Some e -> nodes h' !! q = Some e' ->
     he_key e = Some k -> he_key e' = Some k' -> compare_function k k' = true -> p = q) ->
  n_elements h' = i32 (Z.of_nat (size (nodes h'))) ->
  hash_ok marks h' (<[b := l']> bl).
Proof.
  intros H Hl S1 S2 S3 Hb Hseg Hnd Hout Hfresh Hgone Hin Hdist Hcnt.
  assert (b < length bl)%nat as Hlt by (by eapply lookup_lt_Some).
  pose proof H as [Hs Hm Hpow Hlen HF Hnds Hdom Hbk Hkey _ _].
  pose proof (Forall2_length HF) as HFl.
  assert (forall i x p, i <> b -> bl !! i = Some x -> p ∈ x -> nodes h' !! p = nodes h !! p) as Hother.
  { intros i x p Hne Hx Hp. destruct (Forall2_lookup_r _ _ _ _ _ HF Hx) as (oi & _ & Hsx).
    destruct (lseg_in _ _ _ _ _ Hsx Hp) as [e He].
    assert (p ∉ l) as Hpl by (by eapply (hash_ok_disjoint _ _ _ i b)).
    apply Hout; [done|]. intros Hp'. by rewrite Hfresh in He. }
  assert (forall p e, nodes h' !! p = Some e -> (p ∈ l') \/ ((p ∉ l) /\ (p ∉ l') /\ nodes h !! p = Some e)) as Hcase.
  { intros p e He. destruct (decide (p ∈ l')); [auto|]. right.
    destruct (decide (p ∈ l)); [by rewrite Hgone in He|]. split_and!; auto. by rewrite <- Hout. }
  split; rewrite ?S1, ?S2, ?S3; auto.
  - unfold Zlen in *. by rewrite length_insert.
  - rewrite Hb. apply Forall2_same_length_lookup_2; [rewrite !length_insert; lia|].
    intros i o x Ho Hx. destruct (decide (i = b)) as [->|Hne].
    + rewrite list_lookup_insert_eq in Ho by lia. rewrite list_lookup_insert_eq in Hx by lia.
      by simplify_eq.
    + rewrite list_lookup_insert_ne in Ho by done. rewrite list_lookup_insert_ne in Hx by done.
      eapply lseg_frame; [|by eapply (Forall2_lookup_lr _ _ _ _ _ _ HF)]. intros p Hp.
      by eapply Hother.
  - intros i x Hx. apply list_lookup_insert_Some in Hx as [(-> & -> & _)|[_ Hx]]; eauto.
  - intros p e He. destruct (Hcase p e He) as [Hp|(Hpl & _ & Hpe)].
    + exists b, l'. by rewrite list_lookup_insert_eq by lia.
    + destruct (Hdom p e Hpe) as (i & y & Hy & Hp). exists i, y. split; [|done].
      rewrite list_lookup_insert_ne; [done|]. intros ->. by simplify_eq.
  - intros i x p e Hx Hp He. unfold hash_bucket. rewrite S2. fold (hash_bucket h (he_hash_value e)).
    apply list_lookup_insert_Some in Hx as [(<- & -> & _)|[Hne Hx]]; [by apply (Hin p e)|].
    eapply Hbk; eauto. erewrite <- Hother; eauto.
  - intros p e He. destruct (Hcase p e He) as [Hp|(_ & _ & Hpe)]; [by apply (Hin p e)|exact (Hkey p e Hpe)].
Qed.

(** Keys are compared up to an equivalence that the hash function respects. *)
Record keys_ok : Prop := {
  ko_refl : forall k, compare_function k k = true;
  ko_sym : forall k k', compare_function k k' = true -> compare_function k' k = true;
  ko_trans : forall k k' k'', compare_function k k' = true -> compare_function k' k'' = true ->
    compare_function k k'' = true;
  ko_hash : forall k k' i, compare_function k k' = true -> hash_function k i = hash_function k' i
}.

(** A key's element is in its bucket, and matches there. *)
Lemma maps_matches h bl key v l :
  keys_ok -> hash_ok false h bl -> bl !! Z.to_nat (hash_bucket h (hash_value h key)) = Some l ->
  hash_maps h key v ->
  exists p e, p ∈ l /\ matches h key (hash_value h key) p /\ nodes h !! p = Some e /\ he_value e = v.
Proof.
  intros Hk H Hl (p & e & k & He & Hek & Hc & Hv). exists p, e.
  pose proof (hk_key _ _ _ H p e He) as Hhv. rewrite Hek in Hhv.
  assert (he_hash_value e = hash_value h key) as Ehv.
  { unfold hash_value. rewrite Hhv. symmetry. by apply (ko_hash Hk). }
  destruct (hk_dom _ _ _ H p e He) as (i & l' & Hi & Hp).
  pose proof (hk_bucket _ _ _ H i l' p e Hi Hp He) as Ei. rewrite Ehv in Ei. subst i.
  split_and!; auto; [congruence|]. exists e, k. split_and!; auto.
Qed.

Lemma matches_maps h key hv p e :
  matches h key hv p -> nodes h !! p = Some e -> hash_maps h key (he_value e).
Proof. intros (e' & k & He' & Hv & Hk & Hc) He. simplify_eq. exists p, e', k. auto. Qed.

Lemma hash_maps_fun h bl key v v' :
  keys_ok -> hash_ok false h bl -> hash_maps h key v -> hash_maps h key v' -> v = v'.
Proof.
  intros Hk H (p & e & k & He & Hek & Hc & <-) (q & e' & k' & He' & Hek' & Hc' & <-).
  assert (p = q) as ->; [|congruence].
  eapply (hk_distinct _ _ _ H p q e e' k k'); auto.
  eapply (ko_trans Hk); [by apply (ko_sym Hk)|done].
Qed.

Lemma i32_i32_add x y : i32 (i32 x + y) = i32 (x + y).
Proof.
  unfold i32. f_equal. replace (_ - 2147483648 + y + 2147483648) with ((x + 2147483648) mod 4294967296 + y) by lia.
  rewrite Zplus_mod_idemp_l. f_equal. lia.
Qed.

(** Assigning a field of an element, or marking it. *)
Lemma hash_ok_set marks h bl p e e1 :
  hash_ok marks h bl -> nodes h !! p = Some e -> he_hash_value e1 = he_hash_value e ->
  he_next e1 = he_next e -> he_key e1 = he_key e \/ (he_key e1 = None /\ marks = true) ->
  hash_ok marks (hset h p e1) bl.
Proof.
  intros H He Hv1 Hn1 Hk1. pose proof H as [Hs Hm Hpow Hlen HF Hnds Hdom Hbk Hkey Hdist Hcnt].
  assert (forall q e', <[p := e1]> (nodes h) !! q = Some e' ->
            exists e0, nodes h !! q = Some e0 /\ he_hash_value e0 = he_hash_value e' /\
              (he_key e' = he_key e0 \/ (he_key e' = None /\ marks = true))) as Hq.
  { intros q e' Hq. apply lookup_insert_Some in Hq as [[<- <-]|[_ Hq]]; eauto. }
  split; simpl; auto.
  - eapply Forall2_impl; [|exact HF]. intros o l Hl. revert o Hl.
    induction l as [|q l IH]; intros o; simpl; [done|]. intros (-> & e0 & He0 & Hl).
    split; [done|]. destruct (decide (q = p)) as [->|Hne].
    + exists e1. rewrite lookup_insert_eq. split; [done|]. rewrite Hn1.
      assert (e0 = e) as -> by congruence. auto.
    + exists e0. rewrite lookup_insert_ne by done. auto.
  - intros q e' Hq'. destruct (Hq q e' Hq') as (e0 & He0 & _). eauto.
  - intros i l q e' Hi Hin Hq'. destruct (Hq q e' Hq') as (e0 & He0 & <- & _).
    exact (Hbk i l q e0 Hi Hin He0).
  - intros q e' Hq'. destruct (Hq q e' Hq') as (e0 & He0 & <- & [-> | [-> Hmk]]); [|done].
    exact (Hkey q e0 He0).
  - intros q q' f1 f2 k k' H1 H2 Hf1 Hf2 Hc.
    destruct (Hq q f1 H1) as (g1 & Hg1 & _ & K1). destruct (Hq q' f2 H2) as (g2 & Hg2 & _ & K2).
    apply (Hdist q q' g1 g2 k k'); auto; intuition congruence.
  - rewrite map_size_insert_Some; eauto.
Qed.

Lemma hash_ok_value h bl p e v :
  hash_ok false h bl -> nodes h !! p = Some e -> hash_ok false (hset h p (with_value e v)) bl.
Proof. intros H He. eapply hash_ok_set; eauto. Qed.

Lemma hash_add_fast_spec h bl b l key v :
  keys_ok -> hash_ok false h bl -> b = hash_bucket h (hash_value h key) -> bl !! Z.to_nat b = Some l ->
  (forall w, ~ hash_maps h key w) ->
  exists h' bl', hash_add_fast h b key (hash_value h key) v = Ok h' /\ hash_ok false h' bl' /\
    iv h' = iv h /\
    forall k w, hash_maps h' k w <-> (compare_function k key = true /\ w = v) \/ hash_maps h k w.
Proof.
  intros Hko H Hb Hl Hno. pose proof (hash_bucket_range _ _ _ (hash_value h key) H) as Hr.
  rewrite <- Hb in Hr.
  destruct (hash_ok_bucket _ _ _ _ H Hr) as (o & l' & Ho & _ & Hl' & Hseg).
  assert (l' = l) as -> by congruence.
  unfold hash_add_fast. rewrite Ho. simpl. rewrite (hash_ok_aset _ _ _ _ _ H Hr). simpl.
  set (p := fresh (dom (nodes h))). assert (nodes h !! p = None) as Hp.
  { apply not_elem_of_dom, is_fresh. }
  set (e := HashElement v (Some key) (hash_value h key) o).
  assert (p ∉ l) as Hpl.
  { intros Hin. destruct (lseg_in _ _ _ _ _ Hseg Hin) as [? ?]. congruence. }
  eexists. exists (<[Z.to_nat b := p :: l]> bl). split; [reflexivity|]. split; [|split; [done|]].
  - eapply (hash_ok_change false h _ bl _ l (p :: l)); eauto.
    + simpl. split; [done|]. exists e. rewrite lookup_insert_eq. split; [done|].
      eapply lseg_frame; [|exact Hseg]. intros q Hq. apply lookup_insert_ne. by intros ->.
    + apply list.NoDup_cons. split; [done|]. eapply (hk_nodup _ _ _ H); eauto.
    + intros q _ Hq. simpl. apply lookup_insert_ne. intros ->. apply Hq. left.
    + intros q [->|Hq]%elem_of_cons Hq'; done.
    + intros q Hq Hq'. destruct Hq'. by right.
    + intros q e' Hq He'. simpl in He'. apply lookup_insert_Some in He' as [[<- <-]|[_ He']].
      * simpl. split; [congruence|done].
      * apply elem_of_cons in Hq as [->|Hq]; [congruence|]. split.
        { exact (hk_bucket _ _ _ H _ l q e' Hl Hq He'). }
        exact (hk_key _ _ _ H q e' He').
    + intros q q' e1 e2 k k' H1 H2 Hk1 Hk2 Hc. simpl in H1, H2.
      apply lookup_insert_Some in H1 as [[<- <-]|[Hn1 H1]];
        apply lookup_insert_Some in H2 as [[<- <-]|[Hn2 H2]]; auto.
      * destruct (Hno (he_value e2)). injection Hk1 as <-. exists q', e2, k'. auto.
      * destruct (Hno (he_value e1)). injection Hk2 as <-. exists q, e1, k.
        split_and!; auto. by apply (ko_sym Hko).
      * eapply (hk_distinct _ _ _ H q q' e1 e2); eauto.
    + simpl. rewrite (hk_count _ _ _ H), i32_i32_add, map_size_insert_None by done. f_equal. lia.
  - intros k w. split.
    + intros (q & e' & k' & He' & Hk' & Hc & Hv). simpl in He'.
      apply lookup_insert_Some in He' as [[<- <-]|[_ He']].
      * left. injection Hk' as <-. auto.
      * right. exists q, e', k'. auto.
    + intros [[Hc ->]|(q & e' & k' & He' & Hk' & Hc & Hv)].
      * exists p, e, key. simpl. rewrite lookup_insert_eq. auto.
      * exists q, e', k'. simpl. rewrite lookup_insert_ne by (intros ->; congruence). auto.
Qed.

(** Unlinking an element from its bucket. *)
Definition unlink (h : hash) (b : Z) (prev next : option positive) : result hash :=
  match prev with
  | Some q => qe ← hget h q; Ok (hset h q (with_next qe next))
  | None => b ← aset (buckets h) b next; Ok (with_nodes h (n_elements h) b (nodes h))
  end.

Lemma unlink_spec marks h bl b l1 p l2 o e :
  hash_ok marks h bl -> 0 <= b < n_buckets h -> buckets h !! Z.to_nat b = Some o ->
  lseg (nodes h) o (l1 ++ p :: l2) None -> NoDup (l1 ++ p :: l2) -> nodes h !! p = Some e ->
  exists h1 o1, unlink h b (list.last l1) (he_next e) = Ok h1 /\ same_data h h1 /\
    buckets h1 = <[Z.to_nat b := o1]> (buckets h) /\ lseg (delete p (nodes h1)) o1 (l1 ++ l2) None /\
    (p ∉ l1 ++ l2) /\ NoDup (l1 ++ l2) /\
    (forall x, x ∉ l1 -> nodes h1 !! x = nodes h !! x).
Proof.
  intros H Hb Ho Hseg Hnd He. apply list.NoDup_app in Hnd as (Hnd1 & Hnd12 & Hnd2).
  apply list.NoDup_cons in Hnd2 as [Hp2 Hnd2].
  assert (p ∉ l1) as Hp1 by (intros Hin; apply (Hnd12 p Hin); left).
  assert (p ∉ l1 ++ l2) as Hp by (rewrite elem_of_app; tauto).
  assert (NoDup (l1 ++ l2)) as Hnd.
  { apply list.NoDup_app. split_and!; auto. intros x Hx Hx2. apply (Hnd12 x Hx). by right. }
  apply lseg_app in Hseg as (m & Hs1 & -> & e0 & He0 & Hs2). assert (e0 = e) as -> by congruence.
  unfold unlink. destruct (last_snoc_cases l1) as [->|(l0 & q & ->)].
  - simpl in Hs1. subst o. simpl. rewrite (hash_ok_aset _ _ _ _ _ H Hb). simpl.
    do 2 eexists. split; [reflexivity|]. split_and!; auto; [by split|].
    simpl. eapply lseg_frame; [|exact Hs2]. intros x Hx. apply lookup_delete_ne. by intros ->.
  - rewrite list.last_snoc. destruct (lseg_in _ _ _ _ q Hs1) as [qe Hqe].
    { apply elem_of_app. right. left. }
    unfold hget. rewrite Hqe. simpl. exists (hset h q (with_next qe (he_next e))), o.
    split; [done|].
    assert (q ∉ l0) as Hq0.
    { apply list.NoDup_app in Hnd1 as (_ & Hd & _). intros Hin. apply (Hd q Hin). left. }
    assert (q ∉ l2) as Hq2.
    { intros Hin. apply (Hnd12 q); [apply elem_of_app; right; left|by right]. }
    split_and!; auto.
    + split; try done. intros x. simpl. destruct (decide (x = q)) as [->|Hxq].
      * by rewrite lookup_insert_eq, Hqe.
      * by rewrite lookup_insert_ne by done.
    + simpl. by rewrite list_insert_id.
    + simpl. eapply (lseg_frame (<[q := with_next qe (he_next e)]> (nodes h))).
      { intros x Hx. apply lookup_delete_ne. by intros ->. }
      apply lseg_app. exists (he_next e). split; [by eapply lseg_relink|].
      eapply lseg_frame; [|exact Hs2]. intros x Hx. apply lookup_insert_ne. by intros ->.
    + intros x Hx. simpl. apply lookup_insert_ne. intros ->. apply Hx, elem_of_app. right. left.
Qed.

(** Unlinking an element and freeing it. *)
Definition unlink_free (h : hash) (b : Z) (prev : option positive) (p : positive) (e : hash_element)
  : result hash :=
  h ← unlink h b prev (he_next e);
  Ok (with_nodes h (i32 (n_elements h - 1)) (buckets h) (delete p (nodes h))).

Lemma unlink_free_spec marks h bl b l1 p l2 e :
  hash_ok marks h bl -> 0 <= b < n_buckets h -> bl !! Z.to_nat b = Some (l1 ++ p :: l2) ->
  nodes h !! p = Some e ->
  exists h', unlink_free h b (list.last l1) p e = Ok h' /\
    hash_ok marks h' (<[Z.to_nat b := l1 ++ l2]> bl) /\ iv h' = iv h /\ n_buckets h' = n_buckets h /\
    hmask h' = hmask h /\
    lseg (nodes h') (he_next e) l2 None /\
    nodes h' !! p = None /\ (forall q, q <> p -> he_data <$> nodes h' !! q = he_data <$> nodes h !! q).
Proof.
  intros H Hr Hl He. pose proof (hk_nodup _ _ _ H _ _ Hl) as Hnd.
  destruct (hash_ok_bucket _ _ _ _ H Hr) as (o & l & _ & Hob & Hl' & Hseg).
  rewrite Hl in Hl'. injection Hl' as <-.
  destruct (unlink_spec marks h bl b l1 p l2 o e H Hr Hob Hseg Hnd He)
    as (h1 & o1 & E & Hsd & Hbk & Hseg1 & Hp & Hnd' & Hout).
  unfold unlink_free. rewrite E. cbn [mbind result_bind]. set (h' := with_nodes _ _ _ _).
  assert (forall q e', nodes h' !! q = Some e' ->
            q <> p /\ exists e0, nodes h !! q = Some e0 /\ he_data e0 = he_data e') as Hq.
  { intros q e' Hq. simpl in Hq. apply lookup_delete_Some in Hq as [Hne Hq]. split; [congruence|].
    by eapply same_data_lookup. }
  exists h'. split; [done|]. split; [|split_and!; try apply Hsd].
  - eapply (hash_ok_change marks h h' bl _ (l1 ++ p :: l2) (l1 ++ l2) o1); eauto; try apply Hsd.
    + intros x Hx _. simpl. rewrite lookup_delete_ne by (intros ->; apply Hx; set_solver).
      apply Hout. intros Hx1. apply Hx, elem_of_app. auto.
    + intros x Hx Hx'. destruct Hx'. set_solver.
    + intros x Hx Hx'. assert (x = p) as -> by set_solver. simpl. apply lookup_delete_eq.
    + intros x e' Hx He'. destruct (Hq x e' He') as (_ & e0 & He0 & Hd). injection Hd as _ Hd1 Hd2.
      rewrite <- Hd1, <- Hd2. split; [|exact (hk_key _ _ _ H x e0 He0)].
      apply (hk_bucket _ _ _ H _ (l1 ++ p :: l2) x); auto. set_solver.
    + intros x y e1 e2 k k' H1 H2 Hk1 Hk2 Hc.
      destruct (Hq x e1 H1) as (_ & f1 & Hf1 & Hd1). destruct (Hq y e2 H2) as (_ & f2 & Hf2 & Hd2).
      injection Hd1 as _ Hd1 _. injection Hd2 as _ Hd2 _.
      apply (hk_distinct _ _ _ H x y f1 f2 k k'); congruence.
    + simpl. rewrite (sd_count _ _ Hsd), (hk_count _ _ _ H), <- (same_data_size _ _ Hsd).
      assert (is_Some (nodes h1 !! p)) as [e1 He1].
      { pose proof (sd_nodes _ _ Hsd p) as Hn. rewrite He in Hn. destruct (nodes h1 !! p); [eauto|done]. }
      rewrite map_size_delete_Some by eauto.
      assert (0 < size (nodes h1))%nat.
      { apply Nat.neq_0_lt_0. intros E0%map_size_empty_iff. by rewrite E0 in He1. }
      change (i32 (Z.of_nat (size (nodes h1))) - 1) with (i32 (Z.of_nat (size (nodes h1))) + -1).
      rewrite i32_i32_add. f_equal. lia.
  - apply lseg_app in Hseg as (m & _ & _ & e0 & He0 & Hs2). assert (e0 = e) as -> by congruence.
    apply list.NoDup_app in Hnd as (_ & Hd12 & Hnd2). apply list.NoDup_cons in Hnd2 as [Hp2 _].
    eapply lseg_frame; [|exact Hs2]. intros x Hx. simpl. rewrite lookup_delete_ne by (by intros ->).
    apply Hout. intros Hx1. apply (Hd12 x Hx1). by right.
  - simpl. apply lookup_delete_eq.
  - intros q Hne. simpl. rewrite lookup_delete_ne by congruence. apply Hsd.
Qed.

(** An element and its like after a change that keeps its data. *)
Lemma data_lookup h h' q e' :
  he_data <$> nodes h' !! q = he_data <$> nodes h !! q -> nodes h' !! q = Some e' ->
  exists e, nodes h !! q = Some e /\ he_value e = he_value e' /\ he_key e = he_key e' /\
    he_hash_value e = he_hash_value e'.
Proof.
  intros Hd He. rewrite He in Hd. destruct (nodes h !! q) as [e|]; [|done].
  injection Hd as H1 H2 H3. eauto 10.
Qed.

Lemma hash_remove_fast_spec h bl b l key :
  keys_ok -> hash_ok false h bl -> b = hash_bucket h (hash_value h key) -> bl !! Z.to_nat b = Some l ->
  exists r h' bl', hash_remove_fast h b key (hash_value h key) = Ok (r, h') /\ hash_ok false h' bl' /\
    iv h' = iv h /\ (r = true <-> exists v, hash_maps h key v) /\
    forall k w, hash_maps h' k w <-> compare_function k key = false /\ hash_maps h k w.
Proof.
  intros Hko H Hb Hl. pose proof (hash_bucket_range _ _ _ (hash_value h key) H) as Hr.
  rewrite <- Hb in Hr.
  destruct (hash_ok_bucket _ _ _ _ H Hr) as (o & l' & Ho & _ & Hl' & Hseg).
  assert (l' = l) as -> by congruence.
  unfold hash_remove_fast. rewrite Ho. cbn [mbind result_bind].
  destruct (find_in_bucket h bl _ o l key (hash_value h key) H Hl Hseg)
    as [[-> Hno]|(l1 & p & l2 & e & -> & He & Hm & ->)].
  { assert (forall v, ~ hash_maps h key v) as Hnone.
    { intros v Hv. rewrite Hb in Hl. destruct (maps_matches _ _ _ _ _ Hko H Hl Hv) as (p & _ & Hp & Hpm & _).
      by apply (Hno p). }
    exists false, h, bl. split; [done|]. split; [done|]. split; [done|]. split.
    - split; [done|]. intros [v Hv]. by apply Hnone in Hv.
    - intros k w. split; [|tauto]. intros Hkw. split; [|done]. apply not_true_iff_false. intros Hc.
      destruct Hkw as (q & e & k' & ? & ? & Hc' & ?). apply (Hnone w). exists q, e, k'.
      split_and!; auto. eapply (ko_trans Hko); [by apply (ko_sym Hko)|done]. }
  destruct (unlink_free_spec false h bl b l1 p l2 e H Hr Hl He)
    as (h' & E & Hok' & Hiv & _ & _ & _ & Hgone & Hd).
  assert (exists r, (h ← unlink h b (list.last l1) (he_next e);
     Ok (true, with_nodes h (i32 (n_elements h - 1)) (buckets h) (delete p (nodes h)))) = r /\
     r = Ok (true, h')) as (r & Er & Hr').
  { eexists. split; [reflexivity|]. unfold unlink_free in E.
    destruct (unlink h b (list.last l1) (he_next e)); [|done..]. simpl in *. by injection E as ->. }
  cbn [mbind result_bind]. unfold unlink in Er. rewrite Er, Hr'.
  exists true, h', (<[Z.to_nat b := l1 ++ l2]> bl). split; [done|]. split; [done|]. split; [done|].
  split; [split; [intros _; exists (he_value e); by eapply matches_maps|done]|].
  destruct Hm as (e' & kp & He' & _ & Hkp & Hcp). assert (e' = e) as -> by congruence.
  intros k w. split.
  - intros (q & e' & k' & He1 & Hk' & Hc & Hv).
    assert (q <> p) as Hne by (intros ->; congruence).
    destruct (data_lookup h h' q e' (Hd q Hne) He1) as (e0 & He0 & Hd0 & Hd1 & _). split.
    + apply not_true_iff_false. intros Hck. apply Hne.
      apply (hk_distinct _ _ _ H q p e0 e k' kp); try congruence.
      eapply (ko_trans Hko); [apply (ko_sym Hko); exact Hc|]. by eapply (ko_trans Hko).
    + exists q, e0, k'. split_and!; congruence.
  - intros [Hck (q & e0 & k' & He0 & Hk' & Hc & Hv)].
    assert (q <> p) as Hne.
    { intros ->. assert (e0 = e) as -> by congruence. apply not_true_iff_false in Hck. apply Hck.
      assert (k' = kp) as -> by congruence. eapply (ko_trans Hko); [exact Hc|]. by apply (ko_sym Hko). }
    destruct (data_lookup h' h q e0 (eq_sym (Hd q Hne)) He0) as (e1 & He1 & Hd0 & Hd1 & _).
    exists q, e1, k'. split_and!; congruence.
Qed.

(** ** The table implements a finite map *)

(** [m] is what the table holds; keys that compare equal are one key. *)
Definition hash_rep (h : hash) (m : K -> option V) : Prop :=
  exists bl, hash_ok false h bl /\ forall k v, m k = Some v <-> hash_maps h k v.

Definition map_put (m : K -> option V) (key : K) (v : V) : K -> option V :=
  fun k => if compare_function k key then Some v else m k.
Definition map_del (m : K -> option V) (key : K) : K -> option V :=
  fun k => if compare_function k key then None else m k.

Lemma hash_rep_bucket h m key :
  hash_rep h m -> exists bl l, hash_ok false h bl /\ (forall k v, m k = Some v <-> hash_maps h k v) /\
    0 <= hash_bucket h (hash_value h key) < n_buckets h /\
    bl !! Z.to_nat (hash_bucket h (hash_value h key)) = Some l.
Proof.
  intros (bl & H & Hm). pose proof (hash_bucket_range _ _ _ (hash_value h key) H) as Hr.
  destruct (hash_ok_bucket _ _ _ _ H Hr) as (_ & l & _ & _ & Hl & _). exists bl, l. auto.
Qed.

(** Looking a key up leaves the map as it was. *)
Lemma lookup_fast_rep h m key :
  keys_ok -> hash_rep h m ->
  exists r h', hash_lookup_fast h (hash_bucket h (hash_value h key)) key (hash_value h key) = Ok (r, h') /\
    hash_rep h' m /\ same_data h h' /\
    match r with
    | None => m key = None
    | Some p => exists e, nodes h' !! p = Some e /\ matches h' key (hash_value h key) p /\
                          m key = Some (he_value e)
    end.
Proof.
  intros Hko H. destruct (hash_rep_bucket h m key H) as (bl & l & Hok & Hm & Hr & Hl).
  destruct (hash_lookup_fast_spec h bl _ l key (hash_value h key) Hok Hr Hl)
    as (r & h' & bl' & -> & Hok' & Hsd & Hres).
  assert (forall k v, m k = Some v <-> hash_maps h' k v) as Hm'.
  { intros k v. rewrite Hm. split; apply same_data_maps; auto using same_data_sym. }
  exists r, h'. split; [done|]. split; [by exists bl'|]. split; [done|]. destruct r as [p|].
  - pose proof Hres as (e & k & He & _). destruct (same_data_lookup _ _ _ _ (same_data_sym _ _ Hsd) He)
      as (e' & He' & Hd). exists e'. split; [done|].
    pose proof (matches_same_data _ _ _ _ _ Hsd Hres) as Hmat. split; [done|].
    apply Hm'. by eapply matches_maps.
  - destruct (m key) as [v|] eqn:E; [|done]. apply Hm in E.
    destruct (maps_matches _ _ _ _ _ Hko Hok Hl E) as (p & _ & Hp & Hpm & _). by apply Hres in Hpm.
Qed.

(** Two elements with equal keys are one. *)
Lemma same_key h bl p q e e' k k' key :
  keys_ok -> hash_ok false h bl -> nodes h !! p = Some e -> nodes h !! q = Some e' ->
  he_key e = Some k -> he_key e' = Some k' -> compare_function key k = true ->
  compare_function key k' = true -> p = q.
Proof.
  intros Hko H He He' Hk Hk' Hc Hc'. apply (hk_distinct _ _ _ H p q e e' k k'); auto.
  eapply (ko_trans Hko); [by apply (ko_sym Hko)|done].
Qed.

Lemma set_value_rep h m p e key hv v :
  keys_ok -> hash_rep h m -> nodes h !! p = Some e -> matches h key hv p ->
  hash_rep (hset h p (with_value e v)) (map_put m key v).
Proof.
  intros Hko (bl & Hok & Hm) He (e0 & k0 & He0 & _ & Hk0 & Hc0).
  assert (e0 = e) as -> by congruence. exists bl. split; [by apply hash_ok_value|].
  intros k w. unfold map_put. destruct (compare_function k key) eqn:Ec.
  - pose proof (ko_trans Hko _ _ _ Ec Hc0) as Hck0. split.
    + intros [= <-]. exists p, (with_value e v), k0. simpl. rewrite lookup_insert_eq. auto.
    + intros (q & e1 & k1 & He1 & Hk1 & Hc1 & Hv1). simpl in He1.
      apply lookup_insert_Some in He1 as [[<- <-]|[Hne He1]]; [simpl in Hv1; congruence|].
      destruct Hne. eapply same_key; eauto.
  - assert (forall k1, he_key e = Some k1 -> compare_function k k1 = true -> False) as Hno.
    { intros k1 Hk1 Hc1. apply not_true_iff_false in Ec. apply Ec. assert (k1 = k0) as -> by congruence.
      eapply (ko_trans Hko); [exact Hc1|]. by apply (ko_sym Hko). }
    rewrite Hm. split; intros (q & e1 & k1 & He1 & Hk1 & Hc1 & Hv1).
    + exists q, e1, k1. simpl. rewrite lookup_insert_ne; [done|]. intros ->.
      assert (e1 = e) as -> by congruence. by eapply Hno.
    + simpl in He1. apply lookup_insert_Some in He1 as [[<- <-]|[Hne He1]]; [by destruct (Hno k1)|].
      by exists q, e1, k1.
Qed.

(** An element may get a key that compares equal to its own. *)
Lemma rekey_rep h m p e k0 key :
  keys_ok -> hash_rep h m -> nodes h !! p = Some e -> he_key e = Some k0 -> compare_function key k0 = true ->
  hash_rep (hset h p (with_key e (Some key))) m.
Proof.
  intros Hko (bl & H & Hm) He Hk0 Hc. set (e1 := with_key e (Some key)).
  pose proof H as [Hs Hmk Hpow Hlen HF Hnds Hdom Hbk Hkey Hdist Hcnt].
  assert (forall k, compare_function k key = compare_function k k0) as Hcmp.
  { intros k. apply eq_true_iff_eq. split; intros E; eapply (ko_trans Hko); eauto. by apply (ko_sym Hko). }
  assert (forall q e' k', <[p := e1]> (nodes h) !! q = Some e' -> he_key e' = Some k' ->
            exists e0 k1, nodes h !! q = Some e0 /\ he_hash_value e0 = he_hash_value e' /\ he_value e0 = he_value e' /\
              he_key e0 = Some k1 /\ forall k, compare_function k k' = compare_function k k1) as Hq.
  { intros q e' k' Hq Hk'. apply lookup_insert_Some in Hq as [[<- <-]|[_ Hq]]; [|exists e', k'; auto].
    injection Hk' as <-. exists e, k0. auto. }
  exists bl. split.
  - split; simpl; auto.
    + eapply Forall2_impl; [|exact HF]. intros o l Hl. revert o Hl.
      induction l as [|q l IH]; intros o; simpl; [done|]. intros (-> & e0 & He0 & Hl). split; [done|].
      destruct (decide (q = p)) as [->|Hne]; [exists e1|exists e0].
      * rewrite lookup_insert_eq. split; [done|]. assert (e0 = e) as -> by congruence. auto.
      * rewrite lookup_insert_ne by done. auto.
    + intros q e' Hq'. apply lookup_insert_Some in Hq' as [[<- _]|[_ Hq']]; eauto.
    + intros i l q e' Hi Hin Hq'. apply lookup_insert_Some in Hq' as [[<- <-]|[_ Hq']]; [by apply (Hbk i l p e)|eauto].
    + intros q e' Hq'. apply lookup_insert_Some in Hq' as [[<- <-]|[_ Hq']].
      { pose proof (Hkey p e He) as Hh. rewrite Hk0 in Hh. simpl. rewrite Hh. symmetry. by apply (ko_hash Hko). }
      exact (Hkey q e' Hq').
    + intros q q' f1 f2 k k' H1 H2 Hf1 Hf2 Hc'. destruct (Hq q f1 k H1 Hf1) as (g1 & k1 & Hg1 & _ & _ & K1 & C1).
      destruct (Hq q' f2 k' H2 Hf2) as (g2 & k2 & Hg2 & _ & _ & K2 & C2). apply (Hdist q q' g1 g2 k1 k2); auto.
      rewrite C2 in Hc'. eapply (ko_trans Hko); [|exact Hc']. apply (ko_sym Hko). rewrite <- C1. apply (ko_refl Hko).
    + rewrite map_size_insert_Some; eauto.
  - intros k v. rewrite Hm. split; intros (q & e' & k' & He' & Hk' & Hc' & Hv').
    + destruct (decide (q = p)) as [->|Hne].
      * assert (e' = e) as -> by congruence. exists p, e1, key. simpl. rewrite lookup_insert_eq. split_and!; auto. rewrite Hcmp. congruence.
      * exists q, e', k'. simpl. rewrite lookup_insert_ne by done. auto.
    + destruct (Hq q e' k' He' Hk') as (e0 & k1 & ? & _ & ? & ? & C). exists q, e0, k1. split_and!; auto; [by rewrite <- C|congruence].
Qed.

Lemma set_entry_rep h m p e key hv v :
  keys_ok -> hash_rep h m -> nodes h !! p = Some e -> matches h key hv p ->
  hash_rep (hset h p (with_value (with_key e (Some key)) v)) (map_put m key v).
Proof.
  intros Hko H He (e0 & k0 & He0 & Hv & Hk0 & Hc). assert (e0 = e) as -> by congruence.
  pose proof (rekey_rep h m p e k0 key Hko H He Hk0 Hc) as H1.
  pose proof (set_value_rep _ m p (with_key e (Some key)) key hv v Hko H1) as H2.
  unfold hset in *. cbn [with_nodes nodes n_elements buckets n_buckets hmask iv] in H2. rewrite insert_insert_eq in H2. apply H2.
  - by rewrite lookup_insert_eq.
  - exists (with_key e (Some key)), key. cbn. rewrite lookup_insert_eq. split_and!; auto. apply (ko_refl Hko).
Qed.

(** ** The iterator *)

(** Freeing the marked elements of a bucket: [l1] was walked and kept. *)
Lemma remove_marked_spec fuel h bl b l1 l he :
  hash_ok true h bl -> 0 <= b < n_buckets h -> bl !! Z.to_nat b = Some (l1 ++ l) ->
  lseg (nodes h) he l None -> (length l < fuel)%nat ->
  exists h' l', remove_marked fuel h b (list.last l1) he = Ok h' /\
    hash_ok true h' (<[Z.to_nat b := l1 ++ l']> bl) /\ iv h' = iv h /\ n_buckets h' = n_buckets h /\
    hmask h' = hmask h /\
    (forall p e, p ∈ l -> nodes h !! p = Some e -> he_key e = None -> nodes h' !! p = None) /\
    (forall p e, p ∈ l' -> nodes h' !! p = Some e -> is_Some (he_key e)) /\
    (forall p, p ∈ l' -> p ∈ l) /\
    (forall p, ~ (p ∈ l /\ exists e, nodes h !! p = Some e /\ he_key e = None) ->
       he_data <$> nodes h' !! p = he_data <$> nodes h !! p).
Proof.
  revert h bl l1 l he. induction fuel as [|fuel IH]; intros h bl l1 l he H Hb Hl Hseg Hf; [lia|].
  destruct l as [|p l]; simpl in Hseg; cbn [remove_marked].
  { subst he. exists h, []. rewrite list_insert_id by done. split_and!; auto.
    - intros p e Hp. by apply elem_of_nil in Hp.
    - intros p e Hp. by apply elem_of_nil in Hp. }
  destruct Hseg as (-> & e & He & Hseg). unfold hget. rewrite He. cbn [from_opt mbind result_bind].
  destruct (he_key e) as [k|] eqn:Ek.
  - assert (bl !! Z.to_nat b = Some ((l1 ++ [p]) ++ l)) as Hl' by (by rewrite <- app_assoc).
    destruct (IH h bl (l1 ++ [p]) l (he_next e) H Hb Hl' Hseg) as
      (h' & l' & E & Hok & Hiv & Hn & Hm & Hgone & Hkept & Hsub & Hdata); [simpl in Hf; lia|].
    rewrite list.last_snoc in E. rewrite <- app_assoc in Hok. exists h', (p :: l'). split_and!; auto.
    + intros q e' [->|Hq]%elem_of_cons He' Hk; [congruence|by eapply Hgone].
    + intros q e' [->|Hq]%elem_of_cons He'; [|by eapply Hkept].
      assert (he_data <$> nodes h' !! p = he_data <$> nodes h !! p) as Hd.
      { apply Hdata. intros [_ (e0 & He0 & Hk0)]. congruence. }
      destruct (data_lookup h h' p e' Hd He') as (e0 & He0 & _ & Hk0 & _).
      assert (e0 = e) as -> by congruence. rewrite <- Hk0, Ek. eauto.
    + intros q [->|Hq]%elem_of_cons; [left|right; auto].
    + intros q Hq. apply Hdata. intros [Hql He0]. apply Hq. split; [by right|done].
  - destruct (unlink_free_spec true h bl b l1 p l e H Hb Hl He)
      as (h1 & E1 & Hok1 & Hiv1 & Hn1 & Hm1 & Hseg1 & Hgone1 & Hd1).
    assert (exists r, unlink h b (list.last l1) (he_next e) = r /\
              (forall x, r = Ok x -> with_nodes x (i32 (n_elements x - 1)) (buckets x)
                 (delete p (nodes x)) = h1) /\ exists x, r = Ok x) as (r & Er & Hr & x & Ex).
    { unfold unlink_free in E1. destruct (unlink h b (list.last l1) (he_next e)) as [x| |]; [|done..].
      simpl in E1. injection E1 as E1. eexists. split; [reflexivity|]. split; [|eauto].
      by intros ? [= <-]. }
    unfold unlink in Er. unfold hget in Er. rewrite Er, Ex. cbn [mbind result_bind]. rewrite (Hr x Ex).
    assert (b < n_buckets h1)%Z as Hb1 by lia.
    assert (Z.to_nat b < length bl)%nat as Hlt by (by eapply lookup_lt_Some).
    assert (<[Z.to_nat b := l1 ++ l]> bl !! Z.to_nat b = Some (l1 ++ l)) as Hl1
      by (by rewrite list_lookup_insert_eq).
    pose proof (hk_nodup _ _ _ H _ _ Hl) as Hnd. apply list.NoDup_app in Hnd as (_ & _ & Hnd).
    apply list.NoDup_cons in Hnd as [Hpl _].
    destruct (IH h1 _ l1 l (he_next e) Hok1 (conj (proj1 Hb) Hb1) Hl1 Hseg1) as
      (h' & l' & E & Hok & Hiv & Hn & Hm & Hgone & Hkept & Hsub & Hdata); [simpl in Hf; lia|].
    rewrite list_insert_insert_eq in Hok.
    assert ((p ∉ l') /\ nodes h' !! p = None) as [Hpl' Hp'].
    { split; [by intros ?%Hsub|]. assert (he_data <$> nodes h' !! p = he_data <$> nodes h1 !! p) as Hd.
      { apply Hdata. by intros [? _]. }
      rewrite Hgone1 in Hd. by destruct (nodes h' !! p). }
    exists h', l'. split_and!; auto; try congruence.
    + intros q e' Hq He' Hk. apply elem_of_cons in Hq as [->|Hq]; [done|].
      assert (q <> p) as Hne by (by intros ->).
      destruct (data_lookup h1 h q e' (eq_sym (Hd1 q Hne)) He') as (e1 & He1 & _ & Hk1 & _).
      apply (Hgone q e1); auto. congruence.
    + intros q Hq. right. auto.
    + intros q Hq. destruct (decide (q = p)) as [->|Hne].
      { destruct Hq. split; [left|]. eauto. }
      rewrite Hdata; [by apply Hd1|]. intros [Hql (e1 & He1 & Hk1)]. apply Hq. split; [by right|].
      destruct (data_lookup h h1 q e1 (Hd1 q Hne) He1) as (e2 & He2 & _ & Hk2 & _).
      exists e2. split; [done|congruence].
Qed.

(** The loop of hash_remove_by_value and of other users of the iterator: [body] decides for each
    value whether its element goes, and may change a state of its own. *)
Fixpoint hash_sweep {S} (fuel : nat) (body : S -> V -> result (bool * S)) (h : hash) (hi : hash_iterator) (s : S)
  : result (hash * hash_iterator * S) :=
  match fuel with
  | O => Fault
  | Datatypes.S f =>
      '(he, h, hi) ← hash_iterator_next h hi;
      match he with
      | None => Ok (h, hi, s)
      | Some p =>
          e ← hget h p;
          '(del, s) ← body s (he_value e);
          '(h, hi) ← (if (del : bool) then hash_iterator_delete_element h hi else Ok (h, hi));
          hash_sweep f body h hi s
      end
  end.

(** hash_sweep at work on a table [h] of [n] buckets from bucket [from] on: the iterator is at
    bucket [b], has returned [l1] of it and will return [l2]; [X] are the elements returned so
    far and [exc] the one just returned; [kept v] holds of the values that were kept. *)
Record sweep (n : Z) (dom0 : gset positive) (from : Z) (kept : V -> Prop) (h : hash) (m : K -> option V)
  (bl : list (list positive)) (b : Z) (l1 l2 : list positive)
  (marked : bool) (exc : option positive) (X : gset positive) : Prop := {
  sw_ok : hash_ok true h bl;
  sw_n : n_buckets h = n;
  sw_from : 0 <= from <= b + 1;
  sw_dom : forall p e, nodes h !! p = Some e -> p ∈ dom0;
  sw_map : forall k v, m k = Some v <-> hash_maps h k v;
  sw_todo : forall p e, nodes h !! p = Some e ->
    he_key e = None \/ kept (he_value e) \/ p ∈ l2 \/
    (exists i l, (b < i \/ 0 <= i < from) /\ bl !! Z.to_nat i = Some l /\ p ∈ l) \/ exc = Some p;
  sw_mark : forall p e, nodes h !! p = Some e -> he_key e = None -> p ∈ l1 /\ marked = true;
  sw_seen : X ⊆ dom0;
  sw_new : forall p, p ∈ X -> (p ∉ l2) /\ forall i l, b < i -> bl !! Z.to_nat i = Some l -> p ∉ l
}.

(** The iterator's pointers: inside a bucket, or between buckets. *)
Definition iter_at (from : Z) (h : hash) (hi : hash_iterator) (bl : list (list positive)) (b : Z)
  (l1 l2 : list positive) (marked : bool) : Prop :=
  lseg (nodes h) (hi_elem hi) l2 None /\ bucket_marked hi = marked /\
  match hi_bucket hi with
  | Some b' => b' = b /\ 0 <= from <= b /\ b < n_buckets h /\ bl !! Z.to_nat b = Some (l1 ++ l2) /\
               hi_last hi = list.last l1
  | None => l1 = [] /\ l2 = [] /\ marked = false
  end.

(** Leaving a bucket frees its marked elements. *)
Lemma unlock_sweep n dom0 from kept h hi m bl b l1 marked X :
  sweep n dom0 from kept h m bl b l1 [] marked None X -> iter_at from h hi bl b l1 [] marked ->
  exists h' hi' bl', hash_iterator_unlock h hi = Ok (h', hi') /\
    sweep n dom0 from kept h' m bl' b [] [] false None X /\ iter_at from h' hi' bl' b [] [] false /\
    hi_elem hi' = None /\ hi_bucket hi' = None /\
    bucket_index hi' = bucket_index hi /\ bucket_index_end hi' = bucket_index_end hi.
Proof.
  intros Hsw (Hel & Hmk & Hat). simpl in Hel. unfold hash_iterator_unlock.
  destruct (hi_bucket hi) as [b'|] eqn:Eb.
  2:{ destruct Hat as (-> & _ & ->). exists h, hi, bl. split_and!; auto. unfold iter_at.
      rewrite Eb. split_and!; auto. }
  destruct Hat as (-> & Hfb & Hb & Hl & Hlast). rewrite app_nil_r in Hl. destruct Hsw as [Hok H1 H2 H3 H4 H5 H6 H7 H8].
  assert (0 <= b < n_buckets h) as Hb' by lia.
  destruct (hash_ok_bucket _ _ _ _ Hok Hb') as (o & l & Ho & _ & Hl' & Hseg).
  assert (l = l1) as -> by congruence. rewrite Hmk. destruct marked; simpl.
  2:{ eexists _, _, bl. split; [reflexivity|]. split; [|split_and!; auto; by split]. split; auto.
      intros p e He Hk. by destruct (H6 p e He Hk). }
  unfold hash_remove_marked. rewrite Ho. cbn [mbind result_bind].
  destruct (remove_marked_spec (walk_fuel h) h bl b [] l1 o Hok Hb' Hl Hseg)
    as (h' & l' & E & Hok' & Hiv & Hn & Hm & Hgone & Hkept & Hsub & Hdata); [by eapply bucket_length|].
  change (list.last (@nil positive)) with (@None positive) in E. cbn [app] in Hok'. rewrite E.
  cbn [mbind result_bind]. eexists _, _, (<[Z.to_nat b := l']> bl). split; [reflexivity|].
  assert (forall p e, nodes h' !! p = Some e -> is_Some (he_key e) /\ exists e1, nodes h !! p = Some e1 /\
            he_value e1 = he_value e /\ he_key e1 = he_key e) as Hback.
  { intros p e He. destruct (nodes h !! p) as [e1|] eqn:E1.
    - destruct (he_key e1) as [k|] eqn:Ek.
      + assert (he_data <$> nodes h' !! p = he_data <$> nodes h !! p) as Hd.
        { apply Hdata. intros [_ (e2 & He2 & Hk2)]. congruence. }
        destruct (data_lookup h h' p e Hd He) as (e2 & He2 & Hv2 & Hk2 & _).
        assert (e2 = e1) as -> by congruence. rewrite <- Hk2, Ek. eauto 10.
      + destruct (H6 p e1 E1 Ek) as [Hp _]. by rewrite (Hgone p e1) in He.
    - assert (he_data <$> nodes h' !! p = he_data <$> nodes h !! p) as Hd.
      { apply Hdata. intros [_ (e2 & He2 & Hk2)]. congruence. }
      by rewrite He, E1 in Hd. }
  assert (forall p e1 k, nodes h !! p = Some e1 -> he_key e1 = Some k -> exists e, nodes h' !! p = Some e /\
            he_value e = he_value e1 /\ he_key e = he_key e1) as Hforw.
  { intros p e1 k He1 Hk1.
    assert (he_data <$> nodes h' !! p = he_data <$> nodes h !! p) as Hd.
    { apply Hdata. intros [_ (e2 & He2 & Hk2)]. congruence. }
    destruct (data_lookup h' h p e1 (eq_sym Hd) He1) as (e & He & Hv & Hk & _). eauto. }
  assert (forall i l, i <> b -> 0 <= i -> <[Z.to_nat b:=l']> bl !! Z.to_nat i = Some l <-> bl !! Z.to_nat i = Some l)
    as Hbl. { intros i l Hi Hi0. by rewrite list_lookup_insert_ne by lia. }
  split; [|split_and!; auto; by split]. split; try congruence; auto.
  - intros p e He. destruct (Hback p e He) as (_ & e1 & He1 & _). eauto.
  - intros k v. rewrite H4. split; intros (p & e & k' & He & Hk & Hc & Hv).
    + destruct (Hforw p e k' He Hk) as (e' & ? & ? & ?). exists p, e', k'. split_and!; congruence.
    + destruct (Hback p e He) as (_ & e' & ? & ? & ?). exists p, e', k'. split_and!; congruence.
  - intros p e He. destruct (Hback p e He) as (Hs & e1 & He1 & Hv1 & Hk1). rewrite <- Hv1, <- Hk1.
    destruct (H5 p e1 He1) as [?|[?|[?|[(i & l & Hi & Hil & Hp)|?]]]]; auto.
    right. right. right. left. exists i, l. split; [done|]. split; [apply Hbl; [lia..|done]|done].
  - intros p e He Hk. destruct (Hback p e He) as ([k Hs] & _). congruence.
  - intros p Hp. destruct (H8 p Hp) as [? Hlater]. split; [done|]. intros i l Hi Hil.
    apply Hbl in Hil; [|lia..]. by eapply Hlater.
Qed.

(** The iterator moves past an element. *)
Lemma take_sweep n dom0 from kept h hi m bl b l1 p l2 marked X :
  sweep n dom0 from kept h m bl b l1 (p :: l2) marked None X -> iter_at from h hi bl b l1 (p :: l2) marked ->
  exists hi', iterator_take h hi p = Ok (Some p, h, hi') /\
    sweep n dom0 from kept h m bl b (l1 ++ [p]) l2 marked (Some p) ({[p]} ∪ X) /\
    iter_at from h hi' bl b (l1 ++ [p]) l2 marked /\ (hi_last hi' = Some p /\ hi_bucket hi' = Some b) /\ (p ∉ X) /\
    (exists e k, nodes h !! p = Some e /\ he_key e = Some k) /\ (p ∉ l2) /\
    bucket_index hi' = bucket_index hi /\ bucket_index_end hi' = bucket_index_end hi.
Proof.
  intros [Hok H1 H2 H3 H4 H5 H6 H7 H8] (Hel & Hmk & Hat). destruct (hi_bucket hi) as [b'|] eqn:Eb; [|by destruct Hat as (_ & ? & _)].
  destruct Hat as (-> & Hfb & Hb & Hl & Hlast). simpl in Hel. destruct Hel as (Hep & e & He & Hel).
  unfold iterator_take, hget. rewrite He. simpl. eexists. split; [reflexivity|].
  assert (p ∉ X) as HpX by (intros HpX; destruct (H8 p HpX) as [Hn _]; apply Hn; left).
  pose proof (hk_nodup _ _ _ Hok _ _ Hl) as Hnd. apply list.NoDup_app in Hnd as (_ & _ & Hnd).
  pose proof (hk_nodup _ _ _ Hok _ _ Hl) as Hnd2. apply list.NoDup_app in Hnd2 as (_ & Hd & _).
  apply list.NoDup_cons in Hnd as [Hpl2 _].
  assert (exists k, he_key e = Some k) as [k0 Hkey].
  { destruct (he_key e) as [k|] eqn:Ek; [eauto|]. exfalso. destruct (H6 p e He Ek) as [Hp1 _]. apply (Hd p Hp1). left. }
  split; [|split_and!; eauto].
  - split; auto.
    + intros q f Hq. destruct (H5 q f Hq) as [?|[?|[[->|?]%elem_of_cons|[?|?]]]]; auto 6; congruence.
    + intros q f Hq Hk. destruct (H6 q f Hq Hk). rewrite elem_of_app. auto.
    + pose proof (H3 p e He). set_solver.
    + intros q [->%elem_of_singleton|Hq]%elem_of_union.
      * split; [done|]. intros i l Hi Hil Hp.
        apply (hash_ok_disjoint _ _ _ (Z.to_nat b) (Z.to_nat i) _ _ p Hok Hl Hil); [lia|set_solver|done].
      * destruct (H8 q Hq) as [Hq1 Hq2]. split; [|done]. intros Hq'. apply Hq1. by right.
  - unfold iter_at. simpl. rewrite Eb. split_and!; auto; [lia..| |].
    + by rewrite <- app_assoc.
    + by rewrite list.last_snoc.
Qed.

(** On to the next bucket. *)
Lemma advance_sweep n dom0 from kept h m bl b l X :
  sweep n dom0 from kept h m bl b [] [] false None X -> bl !! Z.to_nat (b + 1) = Some l ->
  sweep n dom0 from kept h m bl (b + 1) [] l false None X.
Proof.
  intros [Hok H1 H2 H3 H4 H5 H6 H7 H8] Hl. split; auto; [lia|..].
  - intros q f Hq. destruct (H5 q f Hq) as [?|[?|[?%elem_of_nil|[(i & x & Hi & Hx & Hqx)|?]]]]; auto 6; [done|].
    destruct (decide (i = b + 1)) as [->|Hne].
    + right. right. left. congruence.
    + do 3 right. left. exists i, x. split; [lia|done].
  - intros q Hq. destruct (H8 q Hq) as [_ Hlater]. split; [apply (Hlater (b + 1)); [lia|done]|].
    intros i x Hi. apply Hlater. lia.
Qed.

Lemma next_bucket_sweep fuel n dom0 from to kept h hi m bl b l1 marked X :
  sweep n dom0 from kept h m bl b l1 [] marked None X -> iter_at from h hi bl b l1 [] marked ->
  hi_elem hi = None -> bucket_index hi = b -> bucket_index_end hi = to -> b < to <= n ->
  to - 1 - b <= Z.of_nat fuel ->
  exists r h' hi' bl' b' l1' l2' marked',
    next_bucket fuel h hi = Ok (r, h', hi') /\ iter_at from h' hi' bl' b' l1' l2' marked' /\
    bucket_index_end hi' = to /\ b' < to /\
    match r with
    | None => l2' = [] /\ sweep n dom0 from kept h' m bl' b' l1' [] marked' None X /\ b' = to - 1
    | Some p => sweep n dom0 from kept h' m bl' b' l1' l2' marked' (Some p) ({[p]} ∪ X) /\ bucket_index hi' = b' /\
        (hi_last hi' = Some p /\ hi_bucket hi' = Some b') /\ (p ∉ X) /\ (exists e k, nodes h' !! p = Some e /\ he_key e = Some k) /\ p ∉ l2'
    end.
Proof.
  revert h hi bl b l1 marked. induction fuel as [|fuel IH];
    intros h hi bl b l1 marked Hsw Hat Hel Hidx Hend Hb Hfuel; cbn [next_bucket bucket_index bucket_index_end];
    rewrite Hidx, Hend; destruct (b + 1 <? to) eqn:E; bool_simp; try lia.
  1, 3: exists None, h; eexists; exists bl, b, l1, [], marked; (split; [reflexivity|]);
        (split; [exact Hat|]); simpl; split_and!; auto; lia.
  set (hi1 := HashIterator _ _ _ _ _ _ _).
  assert (iter_at from h hi1 bl b l1 [] marked) as Hat1 by done.
  destruct (unlock_sweep _ _ _ _ _ _ _ _ _ _ _ _ Hsw Hat1)
    as (h2 & hi2 & bl2 & -> & Hsw2 & Hat2 & Hel2 & Hbk2 & Hi2 & He2).
  cbn [mbind result_bind]. simpl in Hi2, He2. rewrite Hi2.
  pose proof (sw_ok _ _ _ _ _ _ _ _ _ _ _ _ _ Hsw2) as Hok2.
  pose proof (sw_n _ _ _ _ _ _ _ _ _ _ _ _ _ Hsw2) as Hn2.
  pose proof (sw_from _ _ _ _ _ _ _ _ _ _ _ _ _ Hsw2) as Hf2.
  destruct (hash_ok_bucket _ _ _ (b + 1) Hok2) as (o & l & -> & _ & Hl & Hseg); [lia|].
  pose proof (advance_sweep _ _ _ _ _ _ _ _ _ _ Hsw2 Hl) as Hsw3.
  cbn [mbind result_bind]. destruct o as [p|].
  - destruct l as [|q l]; [by simpl in Hseg|]. assert (q = p) as -> by (destruct Hseg as [[= ->] _]; done).
    assert (iter_at from h2 (HashIterator (b + 1) (Some (b + 1)) (Some p) None false (bucket_index_start hi2) to) bl2 (b + 1)
              [] (p :: l) false) as Hat3.
    { unfold iter_at. cbn [hi_elem bucket_marked hi_bucket hi_last]. split_and!; auto; lia. }
    destruct (take_sweep _ _ _ _ _ _ _ _ _ _ _ _ _ _ Hsw3 Hat3) as (hi4 & E4 & Hsw4 & Hat4 & Hl4 & HpX & Hdom & Hpl & Hi4 & He4).
    assert (hash_iterator_lock hi2 (b + 1) = HashIterator (b + 1) (Some (b + 1)) None None false (bucket_index_start hi2) to) as ->.
    { unfold hash_iterator_lock. by rewrite Hi2, Hel2, He2. }
    unfold iterator_take in *. destruct (hget h2 p) as [e| |] eqn:Ee; [|done..].
    cbn [mbind result_bind] in *. injection E4 as <-.
    do 8 eexists. split; [reflexivity|]. split; [exact Hat4|]. simpl. split_and!; auto; lia.
  - assert (l = []) as -> by (destruct l; [done|]; by destruct Hseg).
    destruct (IH h2 hi2 bl2 (b + 1) [] false) as (r & h' & hi' & bl' & b' & l1' & l2' & m' & E' & Hr);
      auto; try lia; try congruence.
    { unfold iter_at in *. rewrite Hbk2 in *. done. }
    exists r, h', hi', bl', b', l1', l2', m'. auto.
Qed.

(** Marking the element just returned takes its key out of the map. *)
Lemma mark_sweep n dom0 from kept h hi m bl b l1 l2 marked p e k X :
  keys_ok -> sweep n dom0 from kept h m bl b l1 l2 marked (Some p) X -> nodes h !! p = Some e -> he_key e = Some k ->
  p ∈ l1 -> p ∉ l2 ->
  iter_at from h hi bl b l1 l2 marked -> hi_bucket hi = Some b ->
  let h' := hset h p (with_key e None) in
  sweep n dom0 from kept h' (map_del m k) bl b l1 l2 true None X /\
  iter_at from h' (HashIterator (bucket_index hi) (hi_bucket hi) (hi_elem hi) (hi_last hi) true
                (bucket_index_start hi) (bucket_index_end hi)) bl b l1 l2 true.
Proof.
  intros Hko [Hok H1 H2 H3 H4 H5 H6 H7 H8] He Hek Hp1 Hp2 (Hel & Hmk & Hat) Hbk h'.
  rewrite Hbk in Hat. destruct Hat as (_ & Hfb & Hb & Hl & Hlast).
  assert (hash_ok true h' bl) as Hok' by (eapply hash_ok_set; eauto).
  split.
  - split; auto; simpl.
    + intros q f Hq. apply lookup_insert_Some in Hq as [[<- <-]|[_ Hq]]; eauto.
    + intros k' v. unfold map_del. destruct (compare_function k' k) eqn:Ec.
      * split; [done|]. intros (q & f & k1 & Hq & Hk1 & Hc & Hv). simpl in Hq.
        apply lookup_insert_Some in Hq as [[<- <-]|[Hne Hq]]; [done|]. destruct Hne.
        apply (hk_distinct _ _ _ Hok p q e f k k1); auto. eapply (ko_trans Hko); [by apply (ko_sym Hko)|done].
      * rewrite H4. split; intros (q & f & k1 & Hq & Hk1 & Hc & Hv); exists q, f, k1; simpl in *.
        -- rewrite lookup_insert_ne; [done|]. intros <-. congruence.
        -- apply lookup_insert_Some in Hq as [[<- <-]|[Hne Hq]]; done.
    + intros q f Hq. apply lookup_insert_Some in Hq as [[<- <-]|[Hne Hq]]; [auto|].
      destruct (H5 q f Hq) as [?|[?|[?|[?|[= ->]]]]]; auto 6. done.
    + intros q f Hq Hk. split; [|done]. apply lookup_insert_Some in Hq as [[<- <-]|[Hne Hq]]; [done|].
      by eapply H6.
  - unfold iter_at. cbn [hi_elem bucket_marked hi_bucket hi_last]. rewrite Hbk.
    change (n_buckets h') with (n_buckets h). split_and!; auto; try lia.
    eapply lseg_frame; [|exact Hel]. intros q Hq. simpl. apply lookup_insert_ne. by intros <-.
Qed.

Lemma keep_sweep n dom0 from kept h m bl b l1 l2 marked p e X :
  sweep n dom0 from kept h m bl b l1 l2 marked (Some p) X -> nodes h !! p = Some e -> kept (he_value e) ->
  sweep n dom0 from kept h m bl b l1 l2 marked None X.
Proof.
  intros [Hok H1 H2 H3 H4 H5 H6 H7 H8] He Hv. split; auto.
  intros q f Hq. destruct (H5 q f Hq) as [?|[?|[?|[?|[= ->]]]]]; auto 6. right. left. congruence.
Qed.

(** The next element of a sweep. *)
Lemma iterator_next_sweep n dom0 from to kept h hi m bl b l1 l2 marked X :
  sweep n dom0 from kept h m bl b l1 l2 marked None X -> iter_at from h hi bl b l1 l2 marked ->
  bucket_index hi = b -> bucket_index_end hi = to -> b < to <= n ->
  exists r h1 hi1 bl1 b1 l1' l2' marked',
    hash_iterator_next h hi = Ok (r, h1, hi1) /\ iter_at from h1 hi1 bl1 b1 l1' l2' marked' /\
    bucket_index_end hi1 = to /\ b1 < to /\
    match r with
    | None => l2' = [] /\ sweep n dom0 from kept h1 m bl1 b1 l1' [] marked' None X /\ b1 = to - 1
    | Some p => sweep n dom0 from kept h1 m bl1 b1 l1' l2' marked' (Some p) ({[p]} ∪ X) /\ bucket_index hi1 = b1 /\
        (hi_last hi1 = Some p /\ hi_bucket hi1 = Some b1) /\ (p ∉ X) /\ (exists e k, nodes h1 !! p = Some e /\ he_key e = Some k) /\ p ∉ l2'
    end.
Proof.
  intros Hsw Hat Hidx Hend Hb. unfold hash_iterator_next. pose proof Hat as (Hel & _ & _). destruct (hi_elem hi) as [p|] eqn:Ep.
  - destruct l2 as [|q l2]; [done|]. assert (q = p) as -> by (destruct Hel as [[= ->] _]; done).
    destruct (take_sweep _ _ _ _ _ _ _ _ _ _ _ _ _ _ Hsw Hat) as (hi4 & -> & Hsw4 & Hat4 & Hl4 & HpX & Hdom & Hpl & Hi4 & He4).
    exists (Some p), h, hi4, bl, b, (l1 ++ [p]), l2, marked. rewrite Hi4, He4. split_and!; auto; try lia; apply Hl4.
  - assert (l2 = []) as -> by (destruct l2; [done|]; by destruct Hel).
    rewrite Hend, Hidx. eapply next_bucket_sweep; eauto. lia.
Qed.

(** The element just returned is the last of [l1]. *)
Lemma iter_at_last from h hi bl b l1 l2 marked p :
  iter_at from h hi bl b l1 l2 marked -> hi_last hi = Some p -> hi_bucket hi = Some b -> p ∈ l1.
Proof.
  intros (_ & _ & Hat) Hlast Hbk. rewrite Hbk in Hat. destruct Hat as (_ & _ & _ & _ & Hl1). rewrite Hlast in Hl1.
  destruct (last_snoc_cases l1) as [->|(l0 & q & ->)]; [done|]. rewrite list.last_snoc in Hl1. injection Hl1 as <-. set_solver.
Qed.

(** The whole sweep: once per element, so the number of elements is fuel enough.  [Inv] relates
    the map as it is to the state of the loop's body. *)
Lemma sweep_loop {S} (body : S -> V -> result (bool * S)) (Inv : (K -> option V) -> S -> Prop) (kept : V -> Prop)
  fuel n dom0 from to h hi s m bl b l1 l2 marked X :
  keys_ok ->
  (forall m s k v, Inv m s -> m k = Some v ->
     exists del s', body s v = Ok (del, s') /\ if del : bool then Inv (map_del m k) s' else Inv m s' /\ kept v) ->
  sweep n dom0 from kept h m bl b l1 l2 marked None X -> iter_at from h hi bl b l1 l2 marked -> Inv m s ->
  bucket_index hi = b -> bucket_index_end hi = to -> b < to <= n ->
  (size dom0 < fuel + size X)%nat ->
  exists h' hi' s' m' bl' l1' marked' X',
    hash_sweep fuel body h hi s = Ok (h', hi', s') /\ iter_at from h' hi' bl' (to - 1) l1' [] marked' /\
    sweep n dom0 from kept h' m' bl' (to - 1) l1' [] marked' None X' /\ Inv m' s'.
Proof.
  intros Hko Hbody. revert h hi s m bl b l1 l2 marked X.
  induction fuel as [|fuel IH]; intros h hi s m bl b l1 l2 marked X Hsw Hat HI Hidx Hend Hb Hfuel.
  { exfalso. pose proof (subseteq_size _ _ (sw_seen _ _ _ _ _ _ _ _ _ _ _ _ _ Hsw)). lia. }
  destruct (iterator_next_sweep _ _ _ _ _ _ _ _ _ _ _ _ _ _ Hsw Hat Hidx Hend Hb)
    as (r & h1 & hi1 & bl1 & b1 & l1' & l2' & m' & E & Hat1 & Hend1 & Hb1 & Hr).
  cbn [hash_sweep]. rewrite E. cbn [mbind result_bind]. destruct r as [p|].
  2:{ destruct Hr as (-> & Hsw1 & ->). do 8 eexists. split; [reflexivity|]. eauto. }
  destruct Hr as (Hsw1 & Hidx1 & [Hlast1 Hbk1] & HpX & (e & k & He & Hek) & Hpl2).
  pose proof (iter_at_last _ _ _ _ _ _ _ _ _ Hat1 Hlast1 Hbk1) as Hp1.
  assert (size dom0 < fuel + size ({[p]} ∪ X))%nat as Hf.
  { rewrite size_union by set_solver. rewrite size_singleton. lia. }
  unfold hget at 1. rewrite He. cbn [from_opt mbind result_bind].
  assert (m k = Some (he_value e)) as Hm.
  { apply (sw_map _ _ _ _ _ _ _ _ _ _ _ _ _ Hsw1). exists p, e, k. split_and!; auto. apply (ko_refl Hko). }
  destruct (Hbody m s k _ HI Hm) as (del & s' & -> & HI'). cbn [mbind result_bind]. destruct del.
  - destruct (mark_sweep _ _ _ _ _ _ _ _ _ _ _ _ _ _ _ _ Hko Hsw1 He Hek Hp1 Hpl2 Hat1 Hbk1) as [Hsw2 Hat2].
    unfold hash_iterator_delete_element. rewrite Hlast1 in *. unfold hget. rewrite He.
    cbn [from_opt mbind result_bind]. eapply IH; [exact Hsw2|exact Hat2|exact HI'|..]; auto. lia.
  - destruct HI' as [HI' Hkept]. cbn [mbind result_bind].
    eapply IH; [eapply keep_sweep; [exact Hsw1|exact He|exact Hkept]|exact Hat1|exact HI'|..]; auto. lia.
Qed.

(** A loop over the buckets from [from] to [to] keeps the table a map: what [body] deletes goes,
    and every element of those buckets that is left was kept. *)
Lemma hash_sweep_rep {S} (body : S -> V -> result (bool * S)) (Inv : (K -> option V) -> S -> Prop) (kept : V -> Prop) h m from to s :
  keys_ok -> hash_rep h m -> 0 <= from <= to -> to <= n_buckets h -> Inv m s ->
  (forall m s k v, Inv m s -> m k = Some v ->
     exists del s', body s v = Ok (del, s') /\ if del : bool then Inv (map_del m k) s' else Inv m s' /\ kept v) ->
  exists h' m' s', (hi ← hash_iterator_init_range h from to;
                    '(h, hi, s) ← hash_sweep (Datatypes.S (size (nodes h))) body h hi s;
                    '(h, hi) ← hash_iterator_free h hi; Ok (h, s)) = Ok (h', s') /\
    hash_rep h' m' /\ Inv m' s' /\ n_buckets h' = n_buckets h /\
    forall k v, m' k = Some v -> from = 0 -> to = n_buckets h -> kept v.
Proof.
  intros Hko (bl & Hok & Hm) Hft Hto HI Hbody. pose proof (hk_size _ _ _ Hok) as Hsz.
  unfold hash_iterator_init_range. replace (to >? n_buckets h) with false by lia.
  replace ((from >=? 0) && (from <=? to)) with true by lia. cbn [assert_ mbind result_bind].
  set (hi := HashIterator _ _ _ _ _ _ _).
  assert (hash_ok true h bl) as Hok1.
  { destruct Hok as [? ? ? ? ? ? ? ? Hk ? ?]. split; auto. intros p e He. specialize (Hk p e He).
    by destruct (he_key e). }
  assert (sweep (n_buckets h) (dom (nodes h)) from kept h m bl (from - 1) [] [] false None ∅) as Hsw.
  { split; auto; [lia|..].
    - intros p e He. apply elem_of_dom. eauto.
    - intros p e He. do 3 right. left. destruct (hk_dom _ _ _ Hok p e He) as (i & l & Hi & Hp).
      exists (Z.of_nat i), l. rewrite Nat2Z.id. split; [lia|done].
    - intros p e He Hk. destruct (hash_ok_keys _ _ _ _ Hok He). congruence.
    - set_solver.
    - set_solver. }
  destruct (decide (from = to)) as [->|Hne].
  - assert (hash_iterator_next h hi = Ok (None, h, HashIterator to None None None false to to)) as E.
    { unfold hash_iterator_next, hi. cbn [hi_elem bucket_index bucket_index_end].
      replace (Z.to_nat (to - (to - 1))) with 1%nat by lia. cbn [next_bucket bucket_index bucket_index_end].
      replace (to - 1 + 1) with to by lia. by replace (to <? to) with false by lia. }
    cbn [hash_sweep]. rewrite E. cbn. exists h, m, s. split_and!; auto; [by exists bl|].
    intros. lia.
  - destruct (sweep_loop body Inv kept (Datatypes.S (size (nodes h))) (n_buckets h) (dom (nodes h)) from to h hi s m bl (from - 1) [] [] false ∅)
    as (h1 & hi1 & s1 & m1 & bl1 & l1 & mk & X1 & -> & Hat1 & Hsw1 & HI1); auto; try lia.
    { split_and!; done. }
    { rewrite size_dom. lia. }
    cbn [mbind result_bind]. unfold hash_iterator_free.
    destruct (unlock_sweep _ _ _ _ _ _ _ _ _ _ _ _ Hsw1 Hat1) as (h2 & hi2 & bl2 & -> & Hsw2 & _).
    cbn [mbind result_bind]. exists h2, m1, s1. split; [done|].
    destruct Hsw2 as [Hok2 H1 H2 H3 H4 H5 H6 H7 H8]. split_and!; auto.
    + exists bl2. split; [|done]. destruct Hok2 as [? ? ? ? ? ? ? ? Hk ? ?]. split; auto. intros p e He. specialize (Hk p e He).
      destruct (he_key e) eqn:Ek; [done|]. by destruct (H6 p e He Ek).
    + intros k v Hkv -> ->. apply H4 in Hkv as (p & e & k' & He & Hk & _ & <-).
      destruct (H5 p e He) as [?|[?|[Hp|[(i & l & Hi & Hl & _)|?]]]]; [congruence|done|by apply elem_of_nil in Hp| |done].
      apply lookup_lt_Some in Hl. pose proof (hk_len _ _ _ Hok2) as Hlen. unfold Zlen in Hlen. rewrite H1 in Hlen. lia.
Qed.

(** hash_remove_by_value is such a loop. *)
Lemma remove_by_value_sweep fuel h hi v :
  remove_by_value fuel h hi v =
  ('(h, hi, _) ← hash_sweep fuel (fun (_ : unit) v' => Ok (bool_decide (v' = v), tt)) h hi tt; Ok (h, hi)).
Proof.
  revert h hi. induction fuel as [|fuel IH]; intros h hi; [done|]. cbn [remove_by_value hash_sweep].
  destruct (hash_iterator_next h hi) as [[[[p|] h1] hi1]| |]; cbn [mbind result_bind]; [|done..].
  destruct (hget h1 p) as [e| |]; cbn [mbind result_bind]; [|done..].
  rewrite decide_bool_decide. destruct (bool_decide (he_value e = v)).
  - destruct (hash_iterator_delete_element h1 hi1) as [[h2 hi2]| |]; cbn [mbind result_bind]; auto.
  - apply IH.
Qed.

Lemma hash_rep_compat h m k k' : keys_ok -> hash_rep h m -> compare_function k k' = true -> m k = m k'.
Proof.
  intros Hko (bl & Hok & Hm) Hc.
  assert (forall a b v, compare_function a b = true -> m a = Some v -> m b = Some v) as Hone.
  { intros a b v Hab (p & e & k1 & He & Hk & Hc1 & Hv)%Hm. apply Hm. exists p, e, k1. split_and!; auto.
    eapply (ko_trans Hko); [by apply (ko_sym Hko)|done]. }
  destruct (m k) as [v|] eqn:E; [symmetry; by eapply Hone|]. destruct (m k') as [v|] eqn:E'; [|done].
  rewrite (Hone k' k v (ko_sym Hko _ _ Hc) E') in E. done.
Qed.

Lemma hash_remove_by_value_rep h m v :
  keys_ok -> hash_rep h m ->
  exists h', hash_remove_by_value h v = Ok h' /\
    hash_rep h' (fun k => if decide (m k = Some v) then None else m k).
Proof.
  intros Hko Hrep. pose proof Hrep as (bl & Hok & Hm). pose proof (hk_size _ _ _ Hok) as Hsz.
  destruct (hash_sweep_rep (fun (_ : unit) v' => Ok (bool_decide (v' = v), tt))
    (fun m' _ => forall k, m' k = m k \/ m k = Some v /\ m' k = None)
    (fun w => w <> v) h m 0 (n_buckets h) tt Hko Hrep) as (h' & m' & [] & E & Hrep' & HI & _ & Hkept); try lia.
  { auto. }
  { intros m' [] k w HI Hk. eexists _, tt. split; [reflexivity|]. destruct (bool_decide (w = v)) eqn:Ew.
    - apply bool_decide_eq_true in Ew as ->. intros k'. unfold map_del. destruct (compare_function k' k) eqn:Ec; [|done].
      right. split; [|done]. rewrite (hash_rep_compat h m k' k Hko Hrep Ec). destruct (HI k) as [<-|[? _]]; done.
    - apply bool_decide_eq_false in Ew. done. }
  exists h'. split.
  - unfold hash_remove_by_value, hash_iterator_init. destruct (hash_iterator_init_range h 0 (n_buckets h)) as [hi| |]; [|done..].
    cbn [mbind result_bind] in *. rewrite remove_by_value_sweep.
    destruct (hash_sweep _ _ h hi tt) as [[[h1 hi1] []]| |]; [|done..]. cbn [mbind result_bind] in *.
    destruct (hash_iterator_free h1 hi1) as [[h2 hi2]| |]; [|done..]. cbn [mbind result_bind] in *. congruence.
  - destruct Hrep' as (bl' & Hok' & Hm'). exists bl'. split; [done|]. intros k w. rewrite <- Hm'. specialize (Hkept k).
    destruct (HI k) as [E'|[E1 E2]].
    + rewrite <- E'. destruct (m' k) as [x|]; [|by case_decide]. specialize (Hkept x eq_refl eq_refl eq_refl).
      rewrite decide_False by congruence. done.
    + rewrite E1, E2, decide_True by done. done.
Qed.

(** ** The table implements a finite map: operations *)

Inductive hash_op := OpAdd (k : K) (v : V) (replace : bool) | OpLookup (k : K) | OpRemove (k : K) | OpRemoveValue (v : V).
Inductive hash_answer := AnsBool (b : bool) | AnsValue (v : option V) | AnsNone.

(** An operation on the map. *)
Definition map_step (m : K -> option V) (op : hash_op) : hash_answer * (K -> option V) :=
  match op with
  | OpAdd k v replace =>
      match m k with
      | Some _ => if replace then (AnsBool true, map_put m k v) else (AnsBool false, m)
      | None => (AnsBool true, map_put m k v)
      end
  | OpLookup k => (AnsValue (m k), m)
  | OpRemove k => match m k with
                  | Some _ => (AnsBool true, map_del m k)
                  | None => (AnsBool false, m)
                  end
  | OpRemoveValue v => (AnsNone, fun k => if decide (m k = Some v) then None else m k)
  end.
Fixpoint map_run (m : K -> option V) (ops : list hash_op) : list hash_answer :=
  match ops with
  | [] => []
  | op :: r => let '(a, m) := map_step m op in a :: map_run m r
  end.

(** The same operation on the table. *)
Definition hash_step (h : hash) (op : hash_op) : result (hash_answer * hash) :=
  match op with
  | OpAdd k v replace => '(b, h) ← hash_add h k v replace; Ok (AnsBool b, h)
  | OpLookup k => '(v, h) ← hash_lookup h k; Ok (AnsValue v, h)
  | OpRemove k => '(b, h) ← hash_remove h k; Ok (AnsBool b, h)
  | OpRemoveValue v => h ← hash_remove_by_value h v; Ok (AnsNone, h)
  end.
Fixpoint hash_run (h : hash) (ops : list hash_op) : result (list hash_answer) :=
  match ops with
  | [] => Ok []
  | op :: r => '(a, h) ← hash_step h op; as_ ← hash_run h r; Ok (a :: as_)
  end.

Lemma hash_add_new h m key v :
  keys_ok -> hash_rep h m -> m key = None ->
  exists h', hash_add_fast h (hash_bucket h (hash_value h key)) key (hash_value h key) v = Ok h' /\ hash_rep h' (map_put m key v).
Proof.
  intros Hko H Hres. destruct (hash_rep_bucket h m key H) as (bl & l & Hok & Hm & Hr & Hl).
  destruct (hash_add_fast_spec h bl _ l key v Hko Hok eq_refl Hl) as (h2 & bl2 & -> & Hok2 & _ & Hm2).
  { intros w Hw. apply Hm in Hw. congruence. }
  exists h2. split; [done|]. exists bl2. split; [done|]. intros k w. unfold map_put. rewrite Hm2.
  destruct (compare_function k key) eqn:Ec.
  - split; [intros [= <-]; auto|]. intros [[_ ->]|Hw]; [done|]. exfalso.
    destruct Hw as (q & e & k' & He & Hk' & Hc & Hv). assert (m key = Some w) as E; [|congruence].
    apply Hm. exists q, e, k'. split_and!; auto.
    eapply (ko_trans Hko); [by apply (ko_sym Hko)|done].
  - rewrite Hm. split; [auto|]. by intros [[? _]|?].
Qed.

Lemma hash_add_rep h m key v replace :
  keys_ok -> hash_rep h m ->
  exists h', hash_step h (OpAdd key v replace)
             = Ok (fst (map_step m (OpAdd key v replace)), h') /\
    hash_rep h' (snd (map_step m (OpAdd key v replace))).
Proof.
  intros Hko H. simpl. unfold hash_add.
  destruct (lookup_fast_rep h m key Hko H) as (r & h' & -> & H' & Hsd & Hres). simpl. destruct r as [p|].
  - destruct Hres as (e & He & Hmat & ->). destruct replace; simpl; [|eauto].
    unfold hget. rewrite He. simpl. eauto using set_value_rep.
  - rewrite Hres. assert (hash_value h key = hash_value h' key) as -> by (unfold hash_value; by rewrite (sd_iv _ _ Hsd)).
    assert (hash_bucket h (hash_value h' key) = hash_bucket h' (hash_value h' key)) as ->
      by (unfold hash_bucket; by rewrite (sd_mask _ _ Hsd)).
    destruct (hash_add_new h' m key v Hko H' Hres) as (h2 & -> & H2). simpl. eauto.
Qed.

Lemma hash_step_spec h m op :
  keys_ok -> hash_rep h m ->
  exists h', hash_step h op = Ok (fst (map_step m op), h') /\ hash_rep h' (snd (map_step m op)).
Proof.
  intros Hko H. destruct op as [k v replace|k|k|v]; [by apply hash_add_rep| | |]; simpl.
  - unfold hash_lookup. destruct (lookup_fast_rep h m k Hko H) as (r & h' & -> & H' & _ & Hres). simpl.
    destruct r as [p|]; [|exists h'; by rewrite Hres].
    destruct Hres as (e & He & _ & ->). unfold hget. rewrite He. simpl. eauto.
  - unfold hash_remove. destruct (hash_rep_bucket h m k H) as (bl & l & Hok & Hm & Hr & Hl).
    destruct (hash_remove_fast_spec h bl _ l k Hko Hok eq_refl Hl)
      as (r & h' & bl' & -> & Hok' & _ & Hr' & Hm').
    simpl. exists h'. assert (forall k' w, (if compare_function k' k then None else m k') = Some w <->
                               hash_maps h' k' w) as Hdel.
    { intros k' w. rewrite Hm', <- Hm. by destruct (compare_function k' k); split; intros; try tauto;
        try done; destruct_and?. }
    destruct (m k) as [v|] eqn:E.
    + assert (r = true) as -> by (apply Hr'; exists v; by apply Hm).
      split; [done|]. exists bl'. auto.
    + assert (r = false) as ->.
      { apply not_true_iff_false. intros [v Hv]%Hr'. apply Hm in Hv. congruence. }
      split; [done|]. exists bl'. split; [done|]. intros k' w. rewrite <- Hdel.
      destruct (compare_function k' k) eqn:Ec; [|done]. split; [|done].
      intros Hw. apply Hm in Hw as (q & e & k1 & ? & ? & Hc & ?).
      assert (m k = Some w) as E'; [|congruence]. apply Hm. exists q, e, k1. split_and!; auto.
      eapply (ko_trans Hko); [by apply (ko_sym Hko)|done].
  - destruct (hash_remove_by_value_rep h m v Hko H) as (h' & -> & H'). simpl. eauto.
Qed.


Lemma hash_init_rep rnd n : 0 < n <= 2 ^ 30 -> exists h, hash_init rnd n = Ok h /\ hash_rep h (fun _ => None).
Proof.
  intros Hn. unfold hash_init. replace (n >? 0) with true by blia. simpl.
  destruct (adjust_power_of_2_ok n Hn) as (k & Hk & -> & _ & _). simpl.
  assert (0 < 2 ^ k <= 2 ^ 30) as Hp.
  { split; [apply Z.pow_pos_nonneg; lia|]. apply Z.pow_le_mono_r; lia. }
  rewrite i32_id by (unfold is_i32; lia). rewrite i32_id by (unfold is_i32; lia).
  set (h := Hash _ _ _ _ _ _). exists h. split; [done|].
  exists (replicate (Z.to_nat (2 ^ k)) []). split.
  - split; simpl; try done; try lia.
    + exists k. lia.
    + unfold Zlen. rewrite length_replicate. lia.
    + apply Forall2_replicate. done.
    + intros i l Hl. apply lookup_replicate in Hl as [-> _]. apply NoDup_nil_2.
  - intros k' v. split; [done|]. intros (p & e & ? & He & _). simpl in He. by rewrite lookup_empty in He.
Qed.

(** C31: the hash table is a finite map.  For any hash function and any key comparison
    that is an equivalence the hash function respects, from hash_init on, every
    sequence of hash_add (with and without replace), hash_lookup, hash_remove and
    hash_remove_by_value returns, with no bad pointer and no failed ASSERT, what the
    same operations on a finite map return; keys that compare equal are one key. *)
Theorem hash_table_is_map rnd n ops :
  keys_ok -> 0 < n <= 2 ^ 30 ->
  exists h, hash_init rnd n = Ok h /\ hash_run h ops = Ok (map_run (fun _ => None) ops).
Proof.
  intros Hko Hn. destruct (hash_init_rep rnd n Hn) as (h & E & Hrep). exists h. split; [done|]. clear E.
  revert Hrep. generalize (fun _ : K => @None V). generalize h. clear -Hko.
  induction ops as [|op ops IH]; intros h m H; simpl; [done|].
  destruct (hash_step_spec h m op Hko H) as (h' & -> & H').
  destruct (map_step m op) as [a m']. simpl in *. by rewrite (IH h' m' H').
Qed.

End Hash.

(** ** Keys that are byte strings, as the address tables use them *)

Definition bytes_hash (k : list byte) (i : Z) : Z := hash_func k i.
Definition bytes_equal (k k' : list byte) : bool := bool_decide (k = k').

Lemma bytes_keys_ok : keys_ok bytes_hash bytes_equal.
Proof.
  unfold bytes_equal. split.
  - intros k. by apply bool_decide_eq_true_2.
  - intros k k' H%bool_decide_eq_true_1. by apply bool_decide_eq_true_2.
  - intros k k' k'' ->%bool_decide_eq_true_1 H. done.
  - by intros k k' i ->%bool_decide_eq_true_1.
Qed.

(** One bucket, so that every key collides. *)
Lemma hash_table_is_map_witness :
  exists h, hash_init (K := list byte) (V := Z) 7 1 = Ok h /\
    hash_run bytes_hash bytes_equal h
      [OpAdd [1; 2] 10 false; OpAdd [3] 20 false; OpAdd [4; 4] 10 false; OpLookup [1; 2];
       OpAdd [3] 30 false; OpAdd [3] 30 true; OpRemoveValue 10; OpLookup [1; 2]; OpLookup [3];
       OpRemove [3]; OpLookup [3]]
    = Ok [AnsBool true; AnsBool true; AnsBool true; AnsValue (Some 10); AnsBool false; AnsBool true;
          AnsNone; AnsValue None; AnsValue (Some 30); AnsBool true; AnsValue None].
Proof.
  exact (hash_table_is_map bytes_hash bytes_equal 7 1
    [OpAdd [1; 2] 10 false; OpAdd [3] 20 false; OpAdd [4; 4] 10 false; OpLookup [1; 2];
       OpAdd [3] 30 false; OpAdd [3] 30 true; OpRemoveValue 10; OpLookup [1; 2]; OpLookup [3];
       OpRemove [3]; OpLookup [3]] bytes_keys_ok ltac:(lia)).
Defined.

(** ** mix is reversible *)

(** mix run backwards. *)
Definition unmix_lines (i j k : Z) (abc : Z * Z * Z) : Z * Z * Z :=
  let '(a, b, c) := abc in
  let c := u32 (u32 (Z.lxor c (Z.shiftr b k) + b) + a) in
  let b := u32 (u32 (Z.lxor b (u32 (Z.shiftl a j)) + a) + c) in
  let a := u32 (u32 (Z.lxor a (Z.shiftr c i) + c) + b) in
  (a, b, c).
Definition unmix (abc : Z * Z * Z) : Z * Z * Z :=
  unmix_lines 13 8 13 (unmix_lines 12 16 5 (unmix_lines 3 10 15 abc)).
Definition triple_u32 (abc : Z * Z * Z) : Prop :=
  let '(a, b, c) := abc in is_u32 a /\ is_u32 b /\ is_u32 c.

Lemma lxor_u32 a b : is_u32 a -> is_u32 b -> is_u32 (Z.lxor a b).
Proof.
  unfold is_u32. intros Ha Hb. split; [apply Z.lxor_nonneg; lia|].
  change 4294967296 with (2 ^ 32). apply Z.log2_lt_cancel. rewrite Z.log2_pow2 by lia.
  destruct (decide (Z.lxor a b = 0)) as [->|]; [done|].
  eapply Z.le_lt_trans; [apply Z.log2_lxor; lia|].
  apply Z.max_lub_lt; [destruct (decide (a = 0)) as [->|]|destruct (decide (b = 0)) as [->|]];
    try done; apply Z.log2_lt_pow2; lia.
Qed.
Lemma shiftr_u32 a k : 0 <= k -> is_u32 a -> is_u32 (Z.shiftr a k).
Proof.
  unfold is_u32. intros Hk Ha. rewrite Z.shiftr_div_pow2 by done.
  pose proof (Z.pow_pos_nonneg 2 k). split; [apply Z.div_pos; lia|].
  apply Z.div_lt_upper_bound; nia.
Qed.
#[local] Hint Resolve lxor_u32 shiftr_u32 u32_range : ovpn.

Lemma u32_u32_add x y : u32 (u32 x + y) = u32 (x + y).
Proof. unfold u32. apply Zplus_mod_idemp_l. Qed.
Lemma u32_u32_sub x y : u32 (u32 x - y) = u32 (x - y).
Proof. unfold u32. apply Zminus_mod_idemp_l. Qed.

(** One line of mix, undone. *)
Lemma unmix_step x y z s :
  is_u32 x -> u32 (u32 (Z.lxor (Z.lxor (u32 (u32 (x - y) - z)) s) s + z) + y) = x.
Proof.
  intros Hx. rewrite Z.lxor_assoc, Z.lxor_nilpotent, Z.lxor_0_r.
  rewrite u32_u32_sub, (u32_u32_add (x - y - z)), u32_u32_add.
  replace (x - y - z + z + y) with x by lia. by apply u32_id.
Qed.

Lemma mix_lines_u32 i j k t :
  0 <= i -> 0 <= k -> triple_u32 t -> triple_u32 (mix_lines i j k t).
Proof. destruct t as [[a b] c]. intros Hi Hk (Ha & Hb & Hc). simpl. auto 15 with ovpn. Qed.

Lemma unmix_mix_lines i j k t : triple_u32 t -> unmix_lines i j k (mix_lines i j k t) = t.
Proof.
  destruct t as [[a b] c]. intros (Ha & Hb & Hc). simpl.
  rewrite (unmix_step c) by done. rewrite (unmix_step b) by done. by rewrite (unmix_step a) by done.
Qed.

(** Mix is reversible, as its comment says: unmix recovers the three words, so no
    two states of the hash function are merged by it. *)
Lemma mix_reversible a b c :
  is_u32 a -> is_u32 b -> is_u32 c -> unmix (mix (a, b, c)) = (a, b, c).
Proof.
  intros Ha Hb Hc. assert (triple_u32 (a, b, c)) as Ht by done. unfold mix, unmix.
  rewrite !unmix_mix_lines; auto; repeat (apply mix_lines_u32; [lia..|]); auto.
Qed.

Lemma mix_reversible_witness : unmix (mix (1, 2654435769, 4294967295)) = (1, 2654435769, 4294967295).
Proof. apply mix_reversible; unfold is_u32; lia. Defined.
