(* ===== verification/Pool.v ===== *)
(** The pool of virtual addresses a server hands out to its clients (src/pool.c,
    src/pool.h), with the file that keeps the associations of common names and
    addresses across restarts ([ifconfig_pool_read], [ifconfig_pool_write]; the
    reading and formatting of its lines in src/status.c, src/buffer.c).

    A C string is the list of its bytes before the NUL, NULL is [None].  The
    clock [now] is an argument.  [getaddr] and [inet_ntoa] (resolver and libc)
    are parameters. *)

From S2P Require Import Prelude Integer.

Abbreviation cstr := (list byte).

Definition IFCONFIG_POOL_MAX : Z := 65536.
Definition IFCONFIG_POOL_30NET : Z := 0.
Definition IFCONFIG_POOL_INDIV : Z := 1.

Record ifconfig_pool_entry := Ipe {
  in_use : bool;
  common_name : option cstr;
  last_release : Z;
  fixed : bool
}.

#[export] Instance ifconfig_pool_entry_eq_dec : EqDecision ifconfig_pool_entry.
Proof. solve_decision. Defined.

(** An entry of a zeroed array. *)
Definition ipe_clear : ifconfig_pool_entry := Ipe false None 0 false.

Record ifconfig_pool := Pool {
  p_base : Z;
  p_size : Z;
  p_type : Z;
  duplicate_cn : bool;
  p_list : list ifconfig_pool_entry
}.

Definition with_list (p : ifconfig_pool) (l : list ifconfig_pool_entry) : ifconfig_pool :=
  Pool (p_base p) (p_size p) (p_type p) (duplicate_cn p) l.

(** ** Operations *)

Definition ifconfig_pool_entry_free (now : Z) (ipe : ifconfig_pool_entry) (hard : bool)
  : ifconfig_pool_entry :=
  let cn := if hard then None else common_name ipe in
  Ipe false cn (if hard then 0 else now) (fixed ipe).

(** [common_name && ipe->common_name && !strcmp (common_name, ipe->common_name)] *)
Definition same_name (cn ipe_cn : option cstr) : bool :=
  match cn, ipe_cn with
  | Some a, Some b => bool_decide (a = b)
  | _, _ => false
  end.

(** The loop variables of [ifconfig_pool_find]. *)
Record find_vars := Fv { earliest_release : Z; previous_usage : Z; new_usage : Z }.

(** The body of the loop for an entry that is not in use and no duplicate_cn. *)
Definition find_body (cn : option cstr) (i : Z) (ipe : ifconfig_pool_entry) (v : find_vars)
  : find_vars :=
  let take_new := ((new_usage v =? -1) || (last_release ipe <? earliest_release v))
                  && negb (fixed ipe) in
  Fv (if take_new then last_release ipe else earliest_release v)
     (if (previous_usage v <? 0) && same_name cn (common_name ipe) then i else previous_usage v)
     (if take_new then i else new_usage v).

Fixpoint find_loop (dup : bool) (cn : option cstr) (l : list ifconfig_pool_entry) (i : Z)
    (v : find_vars) : find_vars :=
  match l with
  | [] => v
  | ipe :: r =>
      if in_use ipe then find_loop dup cn r (i + 1) v
      else if dup then Fv (earliest_release v) (previous_usage v) i
      else find_loop dup cn r (i + 1) (find_body cn i ipe v)
  end.

Definition ifconfig_pool_find (p : ifconfig_pool) (cn : option cstr) : Z :=
  let v := find_loop (duplicate_cn p) cn (take (Z.to_nat (p_size p)) (p_list p)) 0 (Fv 0 (-1) (-1)) in
  if previous_usage v >=? 0 then previous_usage v
  else if new_usage v >=? 0 then new_usage v
  else -1.

Definition ifconfig_pool_init (type start end_ : Z) (dup : bool) : result ifconfig_pool :=
  _ ← assert_ ((start <=? end_) && (u32 (end_ - start) <? IFCONFIG_POOL_MAX));
  let mk base size := Ok (Pool base size type dup (replicate (Z.to_nat size) ipe_clear)) in
  if type =? IFCONFIG_POOL_30NET then
    let base := Z.land start 4294967292 in
    mk base (i32 (Z.shiftr (u32 (u32 (Z.lor end_ 3 + 1) - base)) 2))
  else if type =? IFCONFIG_POOL_INDIV then
    mk start (i32 (u32 (end_ - start + 1)))
  else AssertFail.

(** [*local] and [*remote] for handle [i]. *)
Definition pool_addrs (p : ifconfig_pool) (i : Z) : result (Z * Z) :=
  if p_type p =? IFCONFIG_POOL_30NET then
    let b := u32 (p_base p + Z.shiftl i 2) in Ok (u32 (b + 1), u32 (b + 2))
  else if p_type p =? IFCONFIG_POOL_INDIV then
    let b := u32 (p_base p + i) in Ok (0, b)
  else AssertFail.

(** The handle or -1, the addresses written when there is one, the new pool. *)
Definition ifconfig_pool_acquire (now : Z) (p : ifconfig_pool) (cn : option cstr)
  : result (Z * option (Z * Z) * ifconfig_pool) :=
  let i := ifconfig_pool_find p cn in
  if i >=? 0 then
    ipe ← aget (p_list p) i;
    _ ← assert_ (negb (in_use ipe));
    let ipe := ifconfig_pool_entry_free now ipe true in
    let ipe := Ipe true (match cn with Some s => Some s | None => common_name ipe end)
                   (last_release ipe) (fixed ipe) in
    l ← aset (p_list p) i ipe;
    a ← pool_addrs p i;
    Ok (i, Some a, with_list p l)
  else Ok (i, None, p).

Definition ifconfig_pool_release (now : Z) (p : ifconfig_pool) (hand : Z) (hard : bool)
  : result (bool * ifconfig_pool) :=
  if (hand >=? 0) && (hand <? p_size p) then
    ipe ← aget (p_list p) hand;
    l ← aset (p_list p) hand (ifconfig_pool_entry_free now ipe hard);
    Ok (true, with_list p l)
  else Ok (false, p).

Definition ifconfig_pool_ip_base_to_handle (p : ifconfig_pool) (addr : Z) : result Z :=
  ret ← (if p_type p =? IFCONFIG_POOL_30NET then Ok (i32 (Z.shiftr (u32 (addr - p_base p)) 2))
         else if p_type p =? IFCONFIG_POOL_INDIV then Ok (i32 (u32 (addr - p_base p)))
         else AssertFail);
  Ok (if (ret <? 0) || (ret >=? p_size p) then -1 else ret).

Definition ifconfig_pool_handle_to_ip_base (p : ifconfig_pool) (hand : Z) : result Z :=
  if (hand >=? 0) && (hand <? p_size p) then
    if p_type p =? IFCONFIG_POOL_30NET then Ok (u32 (p_base p + Z.shiftl hand 2))
    else if p_type p =? IFCONFIG_POOL_INDIV then Ok (u32 (p_base p + hand))
    else AssertFail
  else Ok 0.

Definition ifconfig_pool_set (now : Z) (p : ifconfig_pool) (cn : cstr) (addr : Z) (fx : bool)
  : result ifconfig_pool :=
  h ← ifconfig_pool_ip_base_to_handle p addr;
  if h >=? 0 then
    e ← aget (p_list p) h;
    let e := ifconfig_pool_entry_free now e true in
    l ← aset (p_list p) h (Ipe false (Some cn) now fx);
    Ok (with_list p l)
  else Ok p.

(** ** Lines of the persistence file (src/status.c, src/buffer.c)

    The state of a status file opened for reading is what is left in its read
    buffer and the results the next calls of [read] will give, an empty one
    being the end of file.  A buffer with offset 0 is its contents. *)

Definition NL : byte := 10.
Definition CR : byte := 13.

Record status_in := Si { read_buf : list byte; reads : list (list byte) }.

(** [buf_write_u8] on a buffer of capacity [cap]; the result is ignored. *)
Definition push_u8 (cap : Z) (buf : list byte) (c : byte) : list byte :=
  if Zlen buf + 1 <=? cap then buf ++ [c] else buf.

Definition buf_null_terminate (cap : Z) (buf : list byte) : list byte :=
  match list.last buf with
  | Some c =>
      if c =? 0 then buf
      else push_u8 cap (if Zlen buf + 1 <=? cap then buf else take (length buf - 1) buf) 0
  | None => push_u8 cap (if Zlen buf + 1 <=? cap then buf else take (length buf - 1) buf) 0
  end.

(** The characters of [status_read] that are in the read buffer: whether a newline
    was met, [ret], the line, the rest of the read buffer. *)
Fixpoint status_scan (cap : Z) (rb : list byte) (ret : bool) (buf : list byte)
  : bool * bool * list byte * list byte :=
  match rb with
  | [] => (false, ret, buf, [])
  | c :: r =>
      if c =? CR then status_scan cap r true buf
      else if c =? NL then (true, true, buf, r)
      else status_scan cap r true (push_u8 cap buf c)
  end.

Fixpoint status_read_loop (cap : Z) (rb : list byte) (rds : list (list byte)) (ret : bool)
    (buf : list byte) : bool * list byte * status_in :=
  match status_scan cap rb ret buf with
  | (true, ret, buf, rb) => (ret, buf, Si rb rds)
  | (false, ret, buf, rb) =>
      match rds with
      | [] => (ret, buf, Si [] [])
      | [] :: rds => (ret, buf, Si [] rds)
      | chunk :: rds => status_read_loop cap chunk rds ret buf
      end
  end.

Definition status_read (cap : Z) (so : status_in) (buf : list byte) : bool * list byte * status_in :=
  let '(ret, buf, so) := status_read_loop cap (read_buf so) (reads so) false buf in
  (ret, buf_null_terminate cap buf, so).

(** The bytes of an array up to its first NUL. *)
Fixpoint cstring (l : list byte) : cstr :=
  match l with
  | [] => []
  | c :: r => if c =? 0 then [] else c :: cstring r
  end.

(** The loop of [buf_parse]: [eol], the bytes written to [line], the rest of the buffer. *)
Fixpoint buf_parse_loop (buf : list byte) (delim : byte) (line : list byte) (size : Z)
  : bool * list byte * list byte :=
  match buf with
  | [] => (true, if Zlen line >=? size then line else line ++ [0], [])
  | c :: r =>
      let c := if (c <=? 0) || (c =? delim) then 0 else c in
      if Zlen line >=? size then (false, line, r)
      else if c =? 0 then (false, line ++ [c], r)
      else buf_parse_loop r delim (line ++ [c]) size
  end.

Definition buf_parse (buf : list byte) (delim : byte) (size : Z)
  : result (bool * cstr * list byte) :=
  _ ← assert_ (size >? 0);
  let '(eol, line, rest) := buf_parse_loop buf delim [] size in
  let line := cstring (take (Z.to_nat (size - 1)) line ++ [0]) in
  Ok (negb (eol && bool_decide (line = [])), line, rest).

Definition STATUS_PRINTF_MAXLEN : Z := 256.

(** What one [status_printf] of the formatted text [s] appends to the file. *)
Definition status_printf (s : cstr) : list byte :=
  take (Z.to_nat (STATUS_PRINTF_MAXLEN - 1)) s ++ [NL].

Section Persist.
(** libc's [inet_ntoa] on the four bytes of an address. *)
Variable inet_ntoa : list byte -> cstr.
(** [getaddr (GETADDR_HOST_ORDER, ip, 0, &succeeded, NULL)]. *)
Variable getaddr : cstr -> option Z.

Definition print_in_addr_t (addr : Z) (net_order empty_if_undef : bool) : cstr :=
  if negb (addr =? 0) || negb empty_if_undef then
    take 63 (inet_ntoa (if net_order then rev (be_enc 4 addr) else be_enc 4 addr))
  else [].

(** [ifconfig_pool_list] from entry [i] on: what is appended to the file. *)
Fixpoint pool_list_from (p : ifconfig_pool) (l : list ifconfig_pool_entry) (i : Z)
  : result (list byte) :=
  match l with
  | [] => Ok []
  | e :: r =>
      out ← match common_name e with
            | Some cn =>
                ip ← ifconfig_pool_handle_to_ip_base p i;
                Ok (status_printf (cn ++ 44 :: print_in_addr_t ip false false))
            | None => Ok []
            end;
      rest ← pool_list_from p r (i + 1);
      Ok (out ++ rest)
  end.

Definition ifconfig_pool_list (p : ifconfig_pool) : result (list byte) :=
  pool_list_from p (take (Z.to_nat (p_size p)) (p_list p)) 0.

(** The new contents of the file, when it is opened for writing; the file is
    rewound before and truncated behind the last line ([status_reset], [status_flush]). *)
Definition ifconfig_pool_write (writable : bool) (old : list byte) (p : ifconfig_pool)
  : result (list byte) :=
  if writable then ifconfig_pool_list p else Ok old.

Definition POOL_LINE_MAX : Z := 256.
Definition POOL_BUF_SIZE : Z := 128.

(** The body of the loop of [ifconfig_pool_read] for the line [inb]. *)
Definition pool_read_line (now : Z) (p : ifconfig_pool) (fx : bool) (inb : list byte)
  : result ifconfig_pool :=
  match inb with
  | [] => Ok p
  | c :: _ =>
      if (c =? 35) || (c =? 59) then Ok p
      else
        r1 ← buf_parse inb 44 POOL_BUF_SIZE;
        let '(ok1, cn, rest) := (r1 : bool * cstr * list byte) in
        if ok1 then
          r2 ← buf_parse rest 44 POOL_BUF_SIZE;
          let '(ok2, ip, _) := (r2 : bool * cstr * list byte) in
          if ok2 then
            match getaddr ip with
            | Some addr => ifconfig_pool_set now p cn addr fx
            | None => Ok p
            end
          else Ok p
        else Ok p
  end.

Fixpoint pool_read_loop (fuel : nat) (now : Z) (so : status_in) (p : ifconfig_pool) (fx : bool)
  : result ifconfig_pool :=
  match fuel with
  | O => Fault
  | S f =>
      let '(ok, inb, so) := status_read POOL_LINE_MAX so [] in
      if (ok : bool) then
        p ← pool_read_line now p fx inb;
        pool_read_loop f now so p fx
      else Ok p
  end.

(** Every line read takes a byte of the file or ends it. *)
Definition ifconfig_pool_read (now : Z) (so : status_in) (p : ifconfig_pool) (fx : bool)
  : result ifconfig_pool :=
  pool_read_loop (S (length (read_buf so) + length (concat (reads so)))) now so p fx.

End Persist.

(** ** Well-formed pools *)

(** Addresses per entry. *)
Definition pool_step (p : ifconfig_pool) : Z := if p_type p =? IFCONFIG_POOL_30NET then 4 else 1.

Record pool_wf (p : ifconfig_pool) : Prop := {
  pw_type : p_type p = IFCONFIG_POOL_30NET \/ p_type p = IFCONFIG_POOL_INDIV;
  pw_size : p_size p = Zlen (p_list p);
  pw_max : p_size p <= IFCONFIG_POOL_MAX;
  pw_base : 0 <= p_base p;
  pw_top : p_base p + pool_step p * p_size p <= 2 ^ 32
}.

Lemma land_align x : 0 <= x < 2 ^ 32 -> Z.land x 4294967292 = 4 * (x / 4).
Proof.
  intros Hx. change 4294967292 with (Z.shiftl (Z.ones 30) 2).
  replace (4 * (x / 4)) with (Z.shiftl (x / 4) 2) by (rewrite Z.shiftl_mul_pow2; lia).
  change 4 with (2 ^ 2). rewrite <- Z.shiftr_div_pow2 by lia.
  apply Z.bits_inj_iff'. intros n Hn. rewrite Z.land_spec.
  destruct (decide (n < 2)).
  { by rewrite !Z.shiftl_spec_low, andb_false_r by lia. }
  rewrite !Z.shiftl_spec_high, Z.shiftr_spec, Z.sub_add by lia.
  destruct (decide (n < 32)).
  - by rewrite Z.ones_spec_low, andb_true_r by lia.
  - rewrite <- (Z.mod_small x (2 ^ 32)) by lia. by rewrite Z.mod_pow2_bits_high by lia.
Qed.

Lemma lor_3 x : 0 <= x -> Z.lor x 3 = 4 * (x / 4) + 3.
Proof.
  intros Hx. transitivity (Z.lor 3 (Z.shiftl (x / 4) 2)).
  2:{ rewrite lor_shiftl_add by lia. lia. }
  change 4 with (2 ^ 2). rewrite <- Z.shiftr_div_pow2 by lia.
  apply Z.bits_inj_iff'. intros n Hn. rewrite !Z.lor_spec.
  destruct (decide (n < 2)).
  - replace (Z.testbit 3 n) with true by (assert (n = 0 \/ n = 1) as [-> | ->] by lia; done).
    by rewrite orb_true_r.
  - rewrite orb_comm, Z.shiftl_spec_high, Z.shiftr_spec, Z.sub_add by lia. done.
Qed.

Lemma init_30net start end_ dup :
  is_u32 end_ -> 0 <= start <= end_ -> end_ - start < IFCONFIG_POOL_MAX ->
  ifconfig_pool_init IFCONFIG_POOL_30NET start end_ dup =
  Ok (Pool (4 * (start / 4)) (end_ / 4 - start / 4 + 1) IFCONFIG_POOL_30NET dup
           (replicate (Z.to_nat (end_ / 4 - start / 4 + 1)) ipe_clear)).
Proof.
  unfold is_u32, IFCONFIG_POOL_MAX, ifconfig_pool_init. intros He Hs Hd.
  rewrite (u32_id (end_ - start)) by (unfold is_u32; lia).
  rewrite (proj2 (Z.leb_le start end_)), (proj2 (Z.ltb_lt (end_ - start) IFCONFIG_POOL_MAX))
    by (unfold IFCONFIG_POOL_MAX; lia).
  simpl. rewrite land_align, lor_3 by lia.
  assert (i32 (Z.shiftr (u32 (u32 (4 * (end_ / 4) + 3 + 1) - 4 * (start / 4))) 2)
          = end_ / 4 - start / 4 + 1) as ->; [|done].
  assert (u32 (u32 (4 * (end_ / 4) + 3 + 1) - 4 * (start / 4))
          = 4 * (end_ / 4 - start / 4 + 1)) as ->.
  { unfold u32. rewrite Zminus_mod_idemp_l.
    assert (start / 4 <= end_ / 4) by (apply Z.div_le_mono; lia).
    rewrite Z.mod_small; Z.to_euclidean_division_equations; lia. }
  rewrite Z.shiftr_div_pow2 by lia. change (2 ^ 2) with 4.
  rewrite Z.mul_comm, Z.div_mul by lia. apply i32_id. unfold is_i32.
  Z.to_euclidean_division_equations. lia.
Qed.

Lemma init_indiv start end_ dup :
  is_u32 end_ -> 0 <= start <= end_ -> end_ - start < IFCONFIG_POOL_MAX ->
  ifconfig_pool_init IFCONFIG_POOL_INDIV start end_ dup =
  Ok (Pool start (end_ - start + 1) IFCONFIG_POOL_INDIV dup
           (replicate (Z.to_nat (end_ - start + 1)) ipe_clear)).
Proof.
  unfold is_u32, IFCONFIG_POOL_MAX, ifconfig_pool_init. intros He Hs Hd.
  rewrite (u32_id (end_ - start)) by (unfold is_u32; lia).
  rewrite (proj2 (Z.leb_le start end_)), (proj2 (Z.ltb_lt (end_ - start) IFCONFIG_POOL_MAX))
    by (unfold IFCONFIG_POOL_MAX; lia).
  simpl. wrap_simp. done.
Qed.

(** What [ifconfig_pool_init] returns for any arguments it accepts. *)
Lemma init_wf type start end_ dup :
  type = IFCONFIG_POOL_30NET \/ type = IFCONFIG_POOL_INDIV ->
  is_u32 end_ -> 0 <= start <= end_ -> end_ - start < IFCONFIG_POOL_MAX ->
  exists p, ifconfig_pool_init type start end_ dup = Ok p /\ pool_wf p /\
    p_type p = type /\ duplicate_cn p = dup /\
    p_list p = replicate (length (p_list p)) ipe_clear /\
    p_base p = (if type =? IFCONFIG_POOL_30NET then 4 * (start / 4) else start) /\
    p_size p = (if type =? IFCONFIG_POOL_30NET then end_ / 4 - start / 4 + 1 else end_ - start + 1).
Proof.
  intros Ht He Hs Hd. unfold is_u32 in He.
  assert (start / 4 <= end_ / 4) by (apply Z.div_le_mono; lia).
  assert (end_ / 4 - start / 4 + 1 <= 65536 /\ 4 * (end_ / 4) + 4 <= 4294967296 /\ 0 <= start / 4)
    by (unfold IFCONFIG_POOL_MAX in Hd; Z.to_euclidean_division_equations; lia).
  destruct Ht as [-> | ->].
  - eexists. rewrite init_30net by done. split; [done|]. split.
    + split; cbn [p_type p_size p_list p_base]; unfold pool_step, Zlen, IFCONFIG_POOL_MAX in *;
        rewrite ?length_replicate; [auto | lia | lia | lia | cbn; lia].
    + cbn [p_list]. rewrite length_replicate. done.
  - eexists. rewrite init_indiv by done. split; [done|]. split.
    + split; cbn [p_type p_size p_list p_base]; unfold pool_step, Zlen, IFCONFIG_POOL_MAX in *;
        rewrite ?length_replicate; [auto | lia | lia | lia | cbn; lia].
    + cbn [p_list]. rewrite length_replicate. done.
Qed.

(** Only the list of entries ever changes. *)
Definition same_pool (p q : ifconfig_pool) : Prop :=
  p_base q = p_base p /\ p_size q = p_size p /\ p_type q = p_type p /\
  duplicate_cn q = duplicate_cn p /\ length (p_list q) = length (p_list p).

Lemma same_pool_wf p q : same_pool p q -> pool_wf p -> pool_wf q.
Proof.
  intros (B & S & T & _ & L) []. split; unfold pool_step, Zlen in *; rewrite ?B, ?S, ?T, ?L; auto.
Qed.
Lemma same_pool_refl p : same_pool p p.
Proof. done. Qed.
Lemma same_pool_trans p q r : same_pool p q -> same_pool q r -> same_pool p r.
Proof. unfold same_pool. intuition congruence. Qed.
Lemma same_pool_insert p i e : same_pool p (with_list p (<[i := e]> (p_list p))).
Proof. repeat split. apply length_insert. Qed.
#[export] Hint Resolve same_pool_refl same_pool_insert same_pool_wf : ovpn.

Lemma pool_addrs_same p q i : same_pool p q -> pool_addrs q i = pool_addrs p i.
Proof. unfold pool_addrs. intros (-> & _ & -> & _). done. Qed.
Lemma base_same p q i :
  same_pool p q -> ifconfig_pool_handle_to_ip_base q i = ifconfig_pool_handle_to_ip_base p i.
Proof. unfold ifconfig_pool_handle_to_ip_base. intros (-> & -> & -> & _). done. Qed.

Lemma pool_lookup p i :
  pool_wf p -> 0 <= i < p_size p -> exists e, p_list p !! Z.to_nat i = Some e.
Proof. intros [_ S _ _ _] Hi. apply lookup_lt_is_Some_2. unfold Zlen in S. lia. Qed.
Lemma pool_lookup_range p (i : nat) e :
  pool_wf p -> p_list p !! i = Some e -> 0 <= Z.of_nat i < p_size p.
Proof. intros [_ S _ _ _] H%lookup_lt_Some. unfold Zlen in S. lia. Qed.
Lemma pool_aset p i e :
  pool_wf p -> 0 <= i < p_size p ->
  aset (p_list p) i e = Ok (<[Z.to_nat i := e]> (p_list p)).
Proof. intros [_ S _ _ _] Hi. apply aset_ok. lia. Qed.

(** ** Which entry a client gets *)

Definition free_same (cn : option cstr) (e : ifconfig_pool_entry) : Prop :=
  in_use e = false /\ same_name cn (common_name e) = true.
Definition free_dynamic (e : ifconfig_pool_entry) : Prop := in_use e = false /\ fixed e = false.

(** [i] is the first entry of [l] with [P]. *)
Definition first_at (P : ifconfig_pool_entry -> Prop) (l : list ifconfig_pool_entry) (i : nat) : Prop :=
  (exists e, l !! i = Some e /\ P e) /\ forall j e, (j < i)%nat -> l !! j = Some e -> ~ P e.

(** [i] is the entry of [l] with [P] that was released earliest, the first of those. *)
Definition earliest_at (P : ifconfig_pool_entry -> Prop) (l : list ifconfig_pool_entry) (i : nat)
    (t : Z) : Prop :=
  (exists e, l !! i = Some e /\ P e /\ last_release e = t) /\
  forall j e, l !! j = Some e -> P e -> t <= last_release e /\ ((j < i)%nat -> t < last_release e).

Definition none_of (P : ifconfig_pool_entry -> Prop) (l : list ifconfig_pool_entry) : Prop :=
  forall j e, l !! j = Some e -> ~ P e.

Lemma none_of_snoc P l e : none_of P (l ++ [e]) <-> none_of P l /\ ~ P e.
Proof.
  split.
  - intros H. split.
    + intros j x Hx. apply (H j). by apply lookup_app_l_Some.
    + apply (H (length l)). apply list_lookup_middle. done.
  - intros [H1 H2] j x [Hx | [_ Hx]]%lookup_app_Some; [by apply (H1 j)|].
    apply list_lookup_singleton_Some in Hx as [_ ->]. done.
Qed.

Lemma first_at_app P l k i : first_at P l i -> first_at P (l ++ k) i.
Proof.
  intros [(e & He & HP) Hf]. split; [exists e; eauto using lookup_app_l_Some|].
  intros j x Hj Hx. apply (Hf j); [done|].
  rewrite lookup_app_l in Hx; [done|]. apply lookup_lt_Some in He. lia.
Qed.
Lemma first_at_snoc (P : ifconfig_pool_entry -> Prop) l e :
  none_of P l -> P e -> first_at P (l ++ [e]) (length l).
Proof.
  intros Hn HP. split; [exists e; split; [by apply list_lookup_middle|done]|].
  intros j x Hj Hx. rewrite lookup_app_l in Hx by lia. by apply (Hn j).
Qed.
Lemma earliest_at_keep P l e i t :
  earliest_at P l i t -> (P e -> t <= last_release e) -> earliest_at P (l ++ [e]) i t.
Proof.
  intros [(x & Hx & HP & Ht) Hmin] He. split; [exists x; eauto using lookup_app_l_Some|].
  intros j y [Hy | [Hl Hy]]%lookup_app_Some HPy; [by apply (Hmin j)|].
  apply list_lookup_singleton_Some in Hy as [? ->]. split; [auto|].
  apply lookup_lt_Some in Hx. lia.
Qed.
Lemma earliest_at_new (P : ifconfig_pool_entry -> Prop) l e :
  P e -> (forall j x, l !! j = Some x -> P x -> last_release e < last_release x) ->
  earliest_at P (l ++ [e]) (length l) (last_release e).
Proof.
  intros HP Hl. split; [exists e; split; [by apply list_lookup_middle|done]|].
  intros j y [Hy | [Hj Hy]]%lookup_app_Some HPy.
  - specialize (Hl j y Hy HPy). lia.
  - apply list_lookup_singleton_Some in Hy as [? ->]. lia.
Qed.

(** The loop variables after the entries [l]. *)
Record find_inv (cn : option cstr) (l : list ifconfig_pool_entry) (v : find_vars) : Prop := {
  fi_prev : (previous_usage v = -1 /\ none_of (free_same cn) l) \/
            (exists k, previous_usage v = Z.of_nat k /\ first_at (free_same cn) l k);
  fi_new : (new_usage v = -1 /\ none_of free_dynamic l) \/
           (exists k, new_usage v = Z.of_nat k /\ earliest_at free_dynamic l k (earliest_release v))
}.

Lemma find_inv_used cn l e v :
  in_use e = true -> find_inv cn l v -> find_inv cn (l ++ [e]) v.
Proof.
  intros Hu [P N]. assert (~ free_same cn e /\ ~ free_dynamic e) as [H1 H2].
  { unfold free_same, free_dynamic. rewrite Hu. naive_solver. }
  split.
  - destruct P as [[? ?] | (k & ? & ?)]; [left | right; eauto using first_at_app].
    split; [done|]. by apply none_of_snoc.
  - destruct N as [[? ?] | (k & ? & ?)].
    + left. split; [done|]. by apply none_of_snoc.
    + right. exists k. split; [done|]. apply earliest_at_keep; [done|]. intros []%H2.
Qed.

Lemma find_inv_body cn l e v :
  in_use e = false -> find_inv cn l v -> find_inv cn (l ++ [e]) (find_body cn (Zlen l) e v).
Proof.
  intros Hu [P N]. unfold find_body, Zlen. split; cbn [previous_usage new_usage earliest_release].
  - destruct P as [[-> Hn] | (k & -> & Hf)].
    + change (-1 <? 0) with true. destruct (same_name cn (common_name e)) eqn:Es; simpl.
      * right. exists (length l). split; [done|]. by apply first_at_snoc.
      * left. split; [done|]. apply none_of_snoc. split; [done|]. intros [_ ?]. congruence.
    + rewrite (proj2 (Z.ltb_ge (Z.of_nat k) 0)) by lia. simpl. right.
      eauto using first_at_app.
  - assert (fixed e = true -> ~ free_dynamic e) as Hf by (intros ? [? ?]; congruence).
    assert (fixed e = false -> free_dynamic e) as Hnf by done.
    destruct N as [[-> Hn] | (k & -> & Hk)].
    + destruct (fixed e); simpl.
      * left. split; [done|]. apply none_of_snoc. auto.
      * right. exists (length l). split; [done|]. apply earliest_at_new; [auto|].
        intros j x Hx HP. destruct (Hn j x Hx HP).
    + rewrite (proj2 (Z.eqb_neq (Z.of_nat k) (-1))) by lia. simpl.
      destruct (last_release e <? earliest_release v) eqn:El; bool_simp; simpl.
      * destruct (fixed e); simpl; right.
        { exists k. split; [done|]. apply earliest_at_keep; [done|]. intros []%Hf; done. }
        exists (length l). split; [done|]. apply earliest_at_new; [auto|].
        intros j x Hx HP. destruct Hk as [_ Hk]. destruct (Hk j x Hx HP). lia.
      * right. exists k. split; [done|]. by apply earliest_at_keep.
Qed.

Lemma find_loop_inv cn l r v :
  find_inv cn l v -> find_inv cn (l ++ r) (find_loop false cn r (Zlen l) v).
Proof.
  revert l v. induction r as [|e r IH]; intros l v Hv; cbn [find_loop].
  { by rewrite app_nil_r. }
  replace (Zlen l + 1) with (Zlen (l ++ [e])) by (rewrite Zlen_app, Zlen_cons, Zlen_nil; lia).
  rewrite (app_assoc l [e] r : l ++ e :: r = (l ++ [e]) ++ r).
  destruct (in_use e) eqn:Eu; apply IH; auto using find_inv_used, find_inv_body.
Qed.

(** In duplicate_cn mode the loop stops at the first entry not in use. *)
Lemma find_loop_dup cn r i v :
  (new_usage (find_loop true cn r i v) = new_usage v /\ none_of (fun e => in_use e = false) r \/
   exists k, new_usage (find_loop true cn r i v) = i + Z.of_nat k /\
             first_at (fun e => in_use e = false) r k) /\
  previous_usage (find_loop true cn r i v) = previous_usage v.
Proof.
  revert i. induction r as [|e r IH]; intros i; cbn [find_loop].
  { split; [left; split; [done|]; intros j e; by rewrite lookup_nil | done]. }
  destruct (in_use e) eqn:Eu.
  - destruct (IH (i + 1)) as [[[-> Hn] | (k & -> & (x & Hx & HP) & Hf)] ->]; (split; [|done]).
    + left. split; [done|]. intros [|j] x; simpl; [intros [= <-]; congruence | apply Hn].
    + right. exists (S k). split; [lia|]. split; [by exists x|].
      intros [|j] y Hj; simpl; [intros [= <-]; congruence | apply Hf; lia].
  - split; [|done]. right. exists 0%nat. cbn [new_usage]. split; [lia|].
    split; [by exists e|]. intros j y Hj. lia.
Qed.

(** The whole choice: the handle [i] is what the policy says. *)
Definition find_policy (dup : bool) (cn : option cstr) (l : list ifconfig_pool_entry) (i : Z) : Prop :=
  if dup then
    (i = -1 /\ none_of (fun e => in_use e = false) l) \/
    (exists k, i = Z.of_nat k /\ first_at (fun e => in_use e = false) l k)
  else
    (exists k, i = Z.of_nat k /\ first_at (free_same cn) l k) \/
    (none_of (free_same cn) l /\ exists k t, i = Z.of_nat k /\ earliest_at free_dynamic l k t) \/
    (none_of (free_same cn) l /\ none_of free_dynamic l /\ i = -1).

Lemma find_policy_ok p cn :
  pool_wf p -> find_policy (duplicate_cn p) cn (p_list p) (ifconfig_pool_find p cn).
Proof.
  intros [_ S _ _ _]. unfold ifconfig_pool_find. rewrite take_ge by (unfold Zlen in S; lia).
  unfold find_policy. destruct (duplicate_cn p).
  - destruct (find_loop_dup cn (p_list p) 0 (Fv 0 (-1) (-1)))
      as [[[E Hn] | (k & E & Hf)] ->]; cbn -[find_loop]; rewrite E; [by left | right].
    exists k. rewrite Z.geb_leb, (proj2 (Z.leb_le 0 (0 + Z.of_nat k))) by lia. split; [lia | done].
  - assert (find_inv cn [] (Fv 0 (-1) (-1))) as H0.
    { split; left; (split; [done|]); intros j e; by rewrite lookup_nil. }
    destruct (find_loop_inv cn [] (p_list p) _ H0) as [P N].
    cbn [app] in P, N. change (Zlen []) with 0 in P, N.
    destruct P as [[-> Hp] | (k & -> & Hp)].
    + right. cbn -[find_loop]. destruct N as [[-> Hn] | (k & -> & Hn)]; [by right|].
      left. rewrite Z.geb_leb, (proj2 (Z.leb_le 0 (Z.of_nat k))) by lia. eauto.
    + left. rewrite Z.geb_leb, (proj2 (Z.leb_le 0 (Z.of_nat k))) by lia. eauto.
Qed.

(** The handle found is -1 or that of an entry that is not in use. *)
Lemma find_free p cn :
  pool_wf p ->
  ifconfig_pool_find p cn = -1 \/
  exists (k : nat) e, ifconfig_pool_find p cn = Z.of_nat k /\ p_list p !! k = Some e /\ in_use e = false.
Proof.
  intros Hw. pose proof (find_policy_ok p cn Hw) as H. unfold find_policy in H.
  destruct (duplicate_cn p).
  - destruct H as [[-> _] | (k & -> & (e & He & Hu) & _)]; [by left | right; eauto].
  - destruct H as [(k & -> & (e & He & Hu & _) & _)
                  | [(_ & k & t & -> & (e & He & [Hu _] & _) & _) | (_ & _ & ->)]];
      [right; eauto | right; eauto | by left].
Qed.

Lemma pool_addrs_ok p i : pool_wf p -> 0 <= i < p_size p ->
  pool_addrs p i = Ok (if p_type p =? IFCONFIG_POOL_30NET
                       then (p_base p + 4 * i + 1, p_base p + 4 * i + 2) else (0, p_base p + i)).
Proof.
  intros [T S _ B U] Hi. unfold pool_addrs, pool_step in *.
  destruct T as [E | E]; rewrite E in *; cbn [Z.eqb IFCONFIG_POOL_30NET IFCONFIG_POOL_INDIV Pos.eqb] in *.
  - rewrite Z.shiftl_mul_pow2 by lia. change (2 ^ 2) with 4.
    rewrite (u32_id (p_base p + i * 4)) by (unfold is_u32; lia).
    wrap_simp. do 2 f_equal; lia.
  - wrap_simp. done.
Qed.

Lemma acquire_ok now p cn : pool_wf p ->
  (ifconfig_pool_find p cn = -1 /\ ifconfig_pool_acquire now p cn = Ok (-1, None, p)) \/
  (exists (k : nat) e a, ifconfig_pool_find p cn = Z.of_nat k /\
     p_list p !! k = Some e /\ in_use e = false /\ pool_addrs p (Z.of_nat k) = Ok a /\
     ifconfig_pool_acquire now p cn =
       Ok (Z.of_nat k, Some a, with_list p (<[k := Ipe true cn 0 (fixed e)]> (p_list p)))).
Proof.
  intros Hw. unfold ifconfig_pool_acquire.
  destruct (find_free p cn Hw) as [E | (k & e & E & He & Hu)]; rewrite E; [by left | right].
  pose proof (pool_lookup_range p k e Hw He) as Hk.
  exists k, e. eexists. split; [done|]. split; [done|]. split; [done|].
  rewrite pool_addrs_ok by done. split; [done|].
  rewrite Z.geb_leb, (proj2 (Z.leb_le 0 (Z.of_nat k))) by lia.
  rewrite (aget_lookup _ _ e) by (rewrite ?Nat2Z.id; auto; lia). cbn [mbind result_bind].
  rewrite Hu. cbn [assert_ negb]. cbn [mbind result_bind].
  rewrite pool_aset by done. cbn [mbind result_bind]. rewrite Nat2Z.id.
  destruct cn; done.
Qed.

Lemma release_ok now p h hard : pool_wf p ->
  ifconfig_pool_release now p h hard =
  Ok (match p_list p !! Z.to_nat h with
      | Some e => if h >=? 0
                  then (true, with_list p (<[Z.to_nat h := ifconfig_pool_entry_free now e hard]> (p_list p)))
                  else (false, p)
      | None => (false, p)
      end).
Proof.
  intros Hw. unfold ifconfig_pool_release. destruct (h >=? 0) eqn:E0; bool_simp; simpl.
  2:{ by destruct (p_list p !! _). }
  destruct (h <? p_size p) eqn:E1; bool_simp.
  - destruct (pool_lookup p h Hw) as [e He]; [lia|]. rewrite He.
    rewrite (aget_lookup _ _ e) by (auto; lia). cbn [mbind result_bind].
    rewrite pool_aset by (auto; lia). done.
  - destruct Hw as [_ S _ _ _]. rewrite lookup_ge_None_2; [done|]. unfold Zlen in S. lia.
Qed.

(** ** The leases the server has given out *)

Record lease := Lease { ls_handle : Z; ls_local : Z; ls_remote : Z }.

(** What the clients of the pool (src/multi.c) do with it. *)
Inductive pool_op :=
| OpAcquire (now : Z) (cn : option cstr)
| OpRelease (now : Z) (h : Z) (hard : bool).

Definition pool_do (st : ifconfig_pool * list lease) (op : pool_op)
  : result (ifconfig_pool * list lease) :=
  let '(p, ls) := st in
  match op with
  | OpAcquire now cn =>
      r ← ifconfig_pool_acquire now p cn;
      let '(i, a, p) := (r : Z * option (Z * Z) * ifconfig_pool) in
      Ok (p, match a with Some (l, r) => Lease i l r :: ls | None => ls end)
  | OpRelease now h hard =>
      r ← ifconfig_pool_release now p h hard;
      Ok ((r : bool * ifconfig_pool).2, filter (fun x => ls_handle x <> h) ls)
  end.

Fixpoint pool_run (st : ifconfig_pool * list lease) (ops : list pool_op)
  : result (ifconfig_pool * list lease) :=
  match ops with
  | [] => Ok st
  | op :: r => st ← pool_do st op; pool_run st r
  end.

(** The leases are those of the entries in use, one each. *)
Record leases_ok (p : ifconfig_pool) (ls : list lease) : Prop := {
  lo_wf : pool_wf p;
  lo_used : forall i, (exists e, 0 <= i /\ p_list p !! Z.to_nat i = Some e /\ in_use e = true)
                      <-> i ∈ (ls_handle <$> ls);
  lo_addr : forall x, x ∈ ls -> pool_addrs p (ls_handle x) = Ok (ls_local x, ls_remote x);
  lo_nodup : NoDup (ls_handle <$> ls)
}.

Lemma leases_acquire now p ls cn : leases_ok p ls ->
  exists p' ls', pool_do (p, ls) (OpAcquire now cn) = Ok (p', ls') /\ leases_ok p' ls' /\ same_pool p p'.
Proof.
  intros [Hw Hu Ha Hn]. cbn [pool_do].
  destruct (acquire_ok now p cn Hw) as [[_ ->] | (k & e & [l r] & _ & He & Hf & Hl & ->)];
    cbn [mbind result_bind].
  { eexists _, _. split; [done|]. split; [by split | auto with ovpn]. }
  eexists _, _. split; [done|]. split; [|auto with ovpn].
  assert (Z.of_nat k ∉ ls_handle <$> ls) as Hk.
  { rewrite <- Hu. intros (x & _ & Hx & Hxu). rewrite Nat2Z.id in Hx. congruence. }
  split.
  - eauto with ovpn.
  - intros i. rewrite fmap_cons, elem_of_cons. rewrite <- Hu. cbn [p_list with_list ls_handle].
    split.
    + intros (x & Hi & Hx & Hxu). destruct (decide (i = Z.of_nat k)); [by left | right].
      rewrite list_lookup_insert_ne in Hx by lia. eauto.
    + intros [-> | (x & Hi & Hx & Hxu)].
      * eexists. rewrite Nat2Z.id. split; [lia|].
        rewrite list_lookup_insert_eq by (eapply lookup_lt_Some; eauto). done.
      * exists x. split; [done|]. split; [|done]. rewrite list_lookup_insert_ne; [done|].
        intros ->. congruence.
  - intros x [-> | Hx]%elem_of_cons; [done|]. rewrite <- (Ha x Hx). done.
  - rewrite fmap_cons. by apply list.NoDup_cons.
Qed.

Lemma elem_of_handles_filter h i (ls : list lease) :
  i ∈ ls_handle <$> filter (fun x => ls_handle x <> h) ls <-> i <> h /\ i ∈ ls_handle <$> ls.
Proof.
  rewrite !list_elem_of_fmap. setoid_rewrite list_elem_of_filter. naive_solver.
Qed.

Lemma leases_release now p ls h hard : leases_ok p ls ->
  exists p' ls', pool_do (p, ls) (OpRelease now h hard) = Ok (p', ls') /\ leases_ok p' ls' /\ same_pool p p'.
Proof.
  intros [Hw Hu Ha Hn]. cbn [pool_do]. rewrite release_ok by done. cbn [mbind result_bind].
  eexists _, _. split; [done|].
  assert (NoDup (ls_handle <$> filter (fun x => ls_handle x <> h) ls)) as Hn'.
  { eapply sublist_NoDup; [exact Hn|]. apply fmap_sublist, sublist_filter. }
  assert (forall p', same_pool p p' -> forall x, x ∈ filter (fun x => ls_handle x <> h) ls ->
     pool_addrs p' (ls_handle x) = Ok (ls_local x, ls_remote x)) as Ha'.
  { intros p' Hs x [_ Hx]%list_elem_of_filter. rewrite (pool_addrs_same p) by done. auto. }
  destruct (p_list p !! Z.to_nat h) as [e|] eqn:He; [destruct (h >=? 0) eqn:E0|]; bool_simp;
    (split; [|cbn [snd]; auto with ovpn]); split; cbn [snd]; eauto with ovpn.
  - intros i. rewrite elem_of_handles_filter, <- Hu. cbn [p_list with_list]. split.
    + intros (x & Hi & Hx & Hxu). destruct (decide (i = h)) as [->|].
      { rewrite list_lookup_insert_eq in Hx by (eapply lookup_lt_Some; eauto).
        by simplify_eq. }
      rewrite list_lookup_insert_ne in Hx by lia. eauto.
    + intros (Hih & x & Hi & Hx & Hxu). exists x. rewrite list_lookup_insert_ne by lia. done.
  - intros i. rewrite elem_of_handles_filter, <- Hu. naive_solver lia.
  - intros i. rewrite elem_of_handles_filter, <- Hu. split; [|naive_solver].
    intros (x & Hi & Hx & Hxu). split; [intros ->; congruence | eauto].
Qed.

Lemma leases_run p ls ops : leases_ok p ls ->
  exists p' ls', pool_run (p, ls) ops = Ok (p', ls') /\ leases_ok p' ls' /\ same_pool p p'.
Proof.
  revert p ls. induction ops as [|[now cn | now h hard] ops IH]; intros p ls Ho.
  { exists p, ls. split; [done|]. split; [done | auto with ovpn]. }
  - destruct (leases_acquire now p ls cn Ho) as (p1 & ls1 & E & Ho1 & S1).
    destruct (IH p1 ls1 Ho1) as (p2 & ls2 & E2 & Ho2 & S2).
    exists p2, ls2. cbn [pool_run]. rewrite E. eauto using same_pool_trans.
  - destruct (leases_release now p ls h hard Ho) as (p1 & ls1 & E & Ho1 & S1).
    destruct (IH p1 ls1 Ho1) as (p2 & ls2 & E2 & Ho2 & S2).
    exists p2, ls2. cbn [pool_run]. rewrite E. eauto using same_pool_trans.
Qed.

(** ** Handles and addresses *)

Lemma ip_base_to_handle_ok p addr : pool_wf p ->
  exists h, ifconfig_pool_ip_base_to_handle p addr = Ok h /\ (h = -1 \/ 0 <= h < p_size p).
Proof.
  intros [T _ _ _ _]. unfold ifconfig_pool_ip_base_to_handle.
  destruct T as [-> | ->]; cbn [Z.eqb IFCONFIG_POOL_30NET IFCONFIG_POOL_INDIV Pos.eqb mbind result_bind];
    (match goal with |- context [if ?b then _ else _] => destruct b eqn:E end;
     [by eauto|]; bool_simp; eexists; split; [done|]; lia).
Qed.

Lemma handle_to_ip_base_ok p h : pool_wf p -> 0 <= h < p_size p ->
  ifconfig_pool_handle_to_ip_base p h = Ok (p_base p + pool_step p * h).
Proof.
  intros [T _ _ B U] Hh. unfold ifconfig_pool_handle_to_ip_base, pool_step in *.
  rewrite Z.geb_leb, (proj2 (Z.leb_le 0 h)), (proj2 (Z.ltb_lt h (p_size p))) by lia.
  destruct T as [E | E]; rewrite E in *; cbn [Z.eqb IFCONFIG_POOL_30NET IFCONFIG_POOL_INDIV Pos.eqb andb] in *.
  - rewrite Z.shiftl_mul_pow2 by lia. change (2 ^ 2) with 4. wrap_simp. f_equal. lia.
  - wrap_simp. f_equal. lia.
Qed.

Lemma base_handle_roundtrip p h : pool_wf p -> 0 <= h < p_size p ->
  ifconfig_pool_ip_base_to_handle p (p_base p + pool_step p * h) = Ok h.
Proof.
  intros [T _ M B U] Hh. unfold ifconfig_pool_ip_base_to_handle, pool_step, IFCONFIG_POOL_MAX in *.
  assert (i32 h = h) as Hi by (apply i32_id; unfold is_i32; lia).
  assert (((h <? 0) || (h >=? p_size p)) = false) as Hc.
  { rewrite Z.geb_leb. apply orb_false_iff. split; [apply Z.ltb_ge | apply Z.leb_gt]; lia. }
  destruct T as [E | E]; rewrite E in *; cbn [Z.eqb IFCONFIG_POOL_30NET IFCONFIG_POOL_INDIV Pos.eqb] in *;
    cbn [mbind result_bind].
  - replace (p_base p + 4 * h - p_base p) with (h * 4) by lia.
    rewrite (u32_id (h * 4)) by (unfold is_u32; lia).
    rewrite Z.shiftr_div_pow2 by lia. change (2 ^ 2) with 4. rewrite Z.div_mul by lia.
    by rewrite Hi, Hc.
  - replace (p_base p + 1 * h - p_base p) with h by lia.
    rewrite (u32_id h) by (unfold is_u32; lia). by rewrite Hi, Hc.
Qed.

(** ** Reading the persistence file *)

Definition none_in_use (p : ifconfig_pool) : Prop := Forall (fun e => in_use e = false) (p_list p).

Lemma set_ok now p cn addr fx : pool_wf p ->
  exists p', ifconfig_pool_set now p cn addr fx = Ok p' /\ same_pool p p' /\
             (none_in_use p -> none_in_use p').
Proof.
  intros Hw. unfold ifconfig_pool_set.
  destruct (ip_base_to_handle_ok p addr Hw) as (h & -> & Hh). cbn [mbind result_bind].
  destruct Hh as [-> | Hh]; [exists p; split_and!; [done | auto with ovpn | done]|].
  rewrite Z.geb_leb, (proj2 (Z.leb_le 0 h)) by lia.
  destruct (pool_lookup p h Hw Hh) as [e He].
  rewrite (aget_lookup _ _ e) by (auto; lia). cbn [mbind result_bind].
  rewrite pool_aset by done. cbn [mbind result_bind].
  eexists. split; [done|]. split; [auto with ovpn|].
  intros H. by apply Forall_insert.
Qed.

Lemma buf_parse_ok buf delim size : 0 < size -> exists r, buf_parse buf delim size = Ok r.
Proof.
  intros. unfold buf_parse. rewrite Z.gtb_ltb, (proj2 (Z.ltb_lt 0 size)) by lia.
  cbn [assert_ mbind result_bind]. destruct (buf_parse_loop _ _ _ _) as [[? ?] ?]. eauto.
Qed.

Lemma read_line_ok getaddr now p fx inb : pool_wf p ->
  exists p', pool_read_line getaddr now p fx inb = Ok p' /\ same_pool p p' /\
             (none_in_use p -> none_in_use p').
Proof.
  intros Hw. unfold pool_read_line.
  assert (exists p', Ok p = Ok p' /\ same_pool p p' /\ (none_in_use p -> none_in_use p')) as H0
    by (exists p; split_and!; [done | auto with ovpn | done]).
  destruct inb as [|c r]; [done|]. destruct (_ || _); [done|].
  destruct (buf_parse_ok (c :: r) 44 POOL_BUF_SIZE) as [[[ok1 cn] rest] ->]; [done|].
  cbn [mbind result_bind]. destruct ok1; [|done].
  destruct (buf_parse_ok rest 44 POOL_BUF_SIZE) as [[[ok2 ip] rest'] ->]; [done|].
  cbn [mbind result_bind]. destruct ok2; [|done].
  destruct (getaddr ip); [by apply set_ok | done].
Qed.

(** The line buffer does not matter for how far a line goes. *)
Lemma status_scan_rest cap rb ret buf :
  let '(nl, ret', _, rest) := status_scan cap rb ret buf in
  (ret' = ret \/ ret' = true) /\ (length rest <= length rb)%nat /\
  (nl = true -> ret' = true /\ (length rest < length rb)%nat) /\
  (nl = false -> rest = [] /\ (ret' = true -> ret = true \/ (0 < length rb)%nat)).
Proof.
  revert ret buf. induction rb as [|c rb IH]; intros ret buf; cbn [status_scan].
  { split; [by left|]. split; [lia|]. split; [done | auto]. }
  assert (forall buf, let '(nl, ret', _, rest) := status_scan cap rb true buf in
    (ret' = ret \/ ret' = true) /\ (length rest <= length (c :: rb))%nat /\
    (nl = true -> ret' = true /\ (length rest < length (c :: rb))%nat) /\
    (nl = false -> rest = [] /\ (ret' = true -> ret = true \/ (0 < length (c :: rb))%nat))) as H.
  { intros buf'. specialize (IH true buf'). destruct (status_scan cap rb true buf') as [[[nl r'] ?] rest].
    cbn [length]. naive_solver lia. }
  destruct (c =? CR); [apply H|]. destruct (c =? NL); [|apply H].
  cbn [length]. naive_solver lia.
Qed.

Definition left_to_read (so : status_in) : nat := (length (read_buf so) + length (concat (reads so)))%nat.

Lemma status_read_loop_shrinks cap rds rb ret buf :
  let '(ret', _, so') := status_read_loop cap rb rds ret buf in
  (left_to_read so' <= length rb + length (concat rds))%nat /\
  (ret' = true -> ret = true \/ (left_to_read so' < length rb + length (concat rds))%nat).
Proof.
  unfold left_to_read. revert rb ret buf. induction rds as [|chunk rds IH]; intros rb ret buf; cbn [status_read_loop].
  - pose proof (status_scan_rest cap rb ret buf) as H.
    destruct (status_scan cap rb ret buf) as [[[[] r'] ?] rest]; cbn [read_buf reads concat length];
      naive_solver lia.
  - pose proof (status_scan_rest cap rb ret buf) as H.
    destruct (status_scan cap rb ret buf) as [[[[] r'] b'] rest]; cbn [read_buf reads concat].
    + naive_solver lia.
    + destruct H as (_ & _ & _ & H). destruct (H eq_refl) as [-> Hr].
      destruct chunk as [|c chunk]; cbn [read_buf reads concat app length]; [naive_solver lia|].
      specialize (IH (c :: chunk) r' b'). rewrite length_app.
      destruct (status_read_loop cap (c :: chunk) rds r' b') as [[r2 b2] so2]. cbn [length] in *.
      naive_solver lia.
Qed.

Lemma read_loop_ok getaddr fuel now so p fx : pool_wf p -> (left_to_read so < fuel)%nat ->
  exists p', pool_read_loop getaddr fuel now so p fx = Ok p' /\ same_pool p p' /\
             (none_in_use p -> none_in_use p').
Proof.
  revert so p. induction fuel as [|fuel IH]; intros so p Hw Hf; [lia|]. cbn [pool_read_loop].
  pose proof (status_read_loop_shrinks POOL_LINE_MAX (reads so) (read_buf so) false []) as Hs.
  unfold status_read.
  destruct (status_read_loop POOL_LINE_MAX (read_buf so) (reads so) false []) as [[ret b] so'].
  destruct ret; [|exists p; split_and!; [done | auto with ovpn | done]].
  destruct (read_line_ok getaddr now p fx (buf_null_terminate POOL_LINE_MAX b) Hw) as (p1 & -> & S1 & N1).
  cbn [mbind result_bind].
  assert (left_to_read so' < fuel)%nat as Hf'.
  { unfold left_to_read in Hf at 1. destruct Hs as [_ Hs]. destruct (Hs eq_refl); [done | lia]. }
  destruct (IH so' p1 (same_pool_wf _ _ S1 Hw) Hf') as (p2 & -> & S2 & N2).
  exists p2. split_and!; [done | by eapply same_pool_trans | auto].
Qed.

Lemma pool_read_ok getaddr now so p fx : pool_wf p ->
  exists p', ifconfig_pool_read getaddr now so p fx = Ok p' /\ same_pool p p' /\
             (none_in_use p -> none_in_use p').
Proof. intros. apply read_loop_ok; [done|]. unfold left_to_read. lia. Qed.

(** ** The properties of the pool *)

(** The addresses a lease gives away: both ends of a /30 subnet, or one address. *)
Definition lease_addrs (type : Z) (x : lease) : list Z :=
  if type =? IFCONFIG_POOL_30NET then [ls_local x; ls_remote x] else [ls_remote x].

Definition lease_in_range (type start end_ : Z) (x : lease) : Prop :=
  if type =? IFCONFIG_POOL_30NET then
    exists k, start / 4 <= k <= end_ / 4 /\ ls_local x = 4 * k + 1 /\ ls_remote x = 4 * k + 2
  else start <= ls_remote x <= end_.

(** Leases of different entries share no address. *)
Lemma lease_addrs_apart p x y a :
  pool_wf p -> 0 <= ls_handle x < p_size p -> 0 <= ls_handle y < p_size p ->
  pool_addrs p (ls_handle x) = Ok (ls_local x, ls_remote x) ->
  pool_addrs p (ls_handle y) = Ok (ls_local y, ls_remote y) ->
  a ∈ lease_addrs (p_type p) x -> a ∈ lease_addrs (p_type p) y -> ls_handle x = ls_handle y.
Proof.
  intros Hw Hx Hy. rewrite !pool_addrs_ok by done. unfold lease_addrs.
  destruct (p_type p =? IFCONFIG_POOL_30NET); intros [= El Er] [= El' Er'];
    rewrite !list_elem_of_In; cbn [In]; lia.
Qed.

Lemma leases_nodup p ls : leases_ok p ls -> NoDup (ls ≫= lease_addrs (p_type p)).
Proof.
  intros [Hw Hu Ha Hn].
  assert (forall x, x ∈ ls -> 0 <= ls_handle x < p_size p) as Hr.
  { intros x Hx. destruct (proj2 (Hu (ls_handle x))) as (e & Hp & He & _).
    - apply list_elem_of_fmap. eauto.
    - pose proof (pool_lookup_range _ _ _ Hw He). lia. }
  clear Hu. revert Hn Ha Hr. induction ls as [|x ls IH]; intros Hn Ha Hr; cbn; [constructor|].
  rewrite fmap_cons in Hn. apply list.NoDup_cons in Hn as [Hx Hn].
  apply list.NoDup_app. split_and!.
  - unfold lease_addrs. pose proof (Ha x ltac:(left)) as E. rewrite pool_addrs_ok in E by auto using list_elem_of_here.
    destruct (p_type p =? IFCONFIG_POOL_30NET); injection E as El Er;
      repeat (apply list.NoDup_cons; rewrite list_elem_of_In; cbn [In]; split; [lia|]); constructor.
  - intros a Hax (y & Hay & Hy)%list_elem_of_bind. apply Hx. apply list_elem_of_fmap.
    exists y. split; [|done]. eapply (lease_addrs_apart p x y a); eauto using list_elem_of_here, list_elem_of_further.
  - apply IH; auto using list_elem_of_further.
Qed.

(** C38: for any accepted pool range, whatever the persistence file contained, and
    after any sequence of acquisitions and releases, no address is held by two
    clients: the addresses of the leases given out and not taken back are pairwise
    distinct and all lie in the configured range, in /30 mode as the two hosts of
    a subnet each.  Nothing on the way fails. *)
Theorem pool_leases_disjoint getaddr type start end_ dup now so fx ops :
  type = IFCONFIG_POOL_30NET \/ type = IFCONFIG_POOL_INDIV ->
  is_u32 end_ -> 0 <= start <= end_ -> end_ - start < IFCONFIG_POOL_MAX ->
  exists p0 p1 p ls,
    ifconfig_pool_init type start end_ dup = Ok p0 /\
    ifconfig_pool_read getaddr now so p0 fx = Ok p1 /\
    pool_run (p1, []) ops = Ok (p, ls) /\
    NoDup (ls ≫= lease_addrs type) /\
    forall x, x ∈ ls -> lease_in_range type start end_ x.
Proof.
  intros Ht He Hs Hd.
  destruct (init_wf type start end_ dup Ht He Hs Hd) as (p0 & E0 & Hw & T & _ & L & B & S).
  destruct (pool_read_ok getaddr now so p0 fx Hw) as (p1 & E1 & S1 & N1).
  assert (leases_ok p1 []) as H0.
  { split; [eauto with ovpn | | by intros x ?%not_elem_of_nil | constructor].
    intros i. split; [|by intros ?%not_elem_of_nil]. intros (e & _ & Hl & Hu).
    assert (none_in_use p1) as Hf by (apply N1; unfold none_in_use; rewrite L; by apply Forall_replicate).
    rewrite (Forall_lookup_1 _ _ _ _ Hf Hl) in Hu. done. }
  destruct (leases_run p1 [] ops H0) as (p & ls & E & Ho & S2).
  pose proof (same_pool_trans _ _ _ S1 S2) as Sp.
  exists p0, p1, p, ls. split_and!; [done..| |].
  { destruct Sp as (_ & _ & T' & _). rewrite <- T, <- T'. by apply leases_nodup. }
  intros x Hx. destruct Ho as [Hwp Hu Ha _].
  destruct (proj2 (Hu (ls_handle x))) as (e & Hp & He' & _); [apply list_elem_of_fmap; eauto|].
  pose proof (pool_lookup_range _ _ _ Hwp He') as Hr.
  pose proof (Ha x Hx) as Hl. rewrite pool_addrs_ok in Hl by (auto; lia).
  destruct Sp as (B' & S' & T' & _). rewrite B', T', T, B in Hl. rewrite S', S in Hr.
  unfold lease_in_range. destruct (type =? IFCONFIG_POOL_30NET); injection Hl as Hl Hr'; [|lia].
  exists (start / 4 + ls_handle x). lia.
Qed.

Lemma pool_leases_disjoint_witness :
  is_u32 168427775 /\ exists p0 p1 p ls,
    ifconfig_pool_init IFCONFIG_POOL_30NET 168427524 168427775 false = Ok p0 /\
    ifconfig_pool_read (fun _ => Some 168427528) 7 (Si [] [[97; 44; 49; 10]]) p0 true = Ok p1 /\
    pool_run (p1, []) [OpAcquire 8 (Some [98]); OpAcquire 9 (Some [97]); OpRelease 9 0 false]
      = Ok (p, ls) /\
    NoDup (ls ≫= lease_addrs IFCONFIG_POOL_30NET) /\
    forall x, x ∈ ls -> lease_in_range IFCONFIG_POOL_30NET 168427524 168427775 x.
Proof.
  split; [unfold is_u32; lia|].
  apply (pool_leases_disjoint (fun _ => Some 168427528) IFCONFIG_POOL_30NET 168427524 168427775 false 7
           (Si [] [[97; 44; 49; 10]]) true
           [OpAcquire 8 (Some [98]); OpAcquire 9 (Some [97]); OpRelease 9 0 false]);
    [by left | unfold is_u32; lia | lia | vm_compute; done].
Defined.

(** [ifconfig_pool_acquire] never fails and follows the pool's policy.  Without
    duplicate_cn it gives the client the first free entry of its own common name;
    with none, the free dynamic entry released earliest; -1 only if there is
    neither.  With duplicate_cn it gives the first free entry and -1 only if there
    is none.  The entry chosen is marked in use under the client's name, every
    other entry is left alone and the addresses are those of the handle. *)
Theorem pool_acquire_policy now p cn :
  pool_wf p ->
  exists i a p', ifconfig_pool_acquire now p cn = Ok (i, a, p') /\
    find_policy (duplicate_cn p) cn (p_list p) i /\
    (i = -1 -> a = None /\ p' = p) /\
    (i <> -1 -> exists e ad, p_list p !! Z.to_nat i = Some e /\ in_use e = false /\
       p_list p' = <[Z.to_nat i := Ipe true cn 0 (fixed e)]> (p_list p) /\
       pool_addrs p i = Ok ad /\ a = Some ad /\ same_pool p p').
Proof.
  intros Hw. pose proof (find_policy_ok p cn Hw) as HP.
  destruct (acquire_ok now p cn Hw) as [[Ef E] | (k & e & a & Ef & He & Hu & Ha & E)];
    rewrite Ef in HP; eexists _, _, _; (split; [exact E|]); (split; [done|]).
  - split; [done | lia].
  - split; [lia|]. intros _. exists e, a. rewrite Nat2Z.id. split_and!; try done. auto with ovpn.
Qed.

Lemma pool_acquire_policy_witness :
  let p := Pool 100 3 IFCONFIG_POOL_INDIV false
             [Ipe true None 0 false; Ipe false (Some [97]) 9 true; Ipe false None 5 false] in
  pool_wf p /\ exists i a p', ifconfig_pool_acquire 20 p (Some [97]) = Ok (i, a, p') /\
    find_policy (duplicate_cn p) (Some [97]) (p_list p) i /\
    (i = -1 -> a = None /\ p' = p) /\
    (i <> -1 -> exists e ad, p_list p !! Z.to_nat i = Some e /\ in_use e = false /\
       p_list p' = <[Z.to_nat i := Ipe true (Some [97]) 0 (fixed e)]> (p_list p) /\
       pool_addrs p i = Ok ad /\ a = Some ad /\ same_pool p p').
Proof.
  intros p.
  assert (pool_wf p) as Hw by (split; [by right | done | done | done | done]).
  split; [exact Hw|]. exact (pool_acquire_policy 20 p (Some [97]) Hw).
Defined.

(** ** Writing the associations and reading them back *)

(** A byte that may stand in a line of the file, in a field of a line. *)
Definition line_char (c : byte) : Prop := 0 < c < 256 /\ c <> NL /\ c <> CR.
Definition plain (c : byte) : Prop := line_char c /\ c <> 44.
Definition comment_char (c : byte) : Prop := c = 35 \/ c = 59.

Definition good_name (cn : cstr) : Prop :=
  Forall plain cn /\ Zlen cn < POOL_BUF_SIZE /\
  match cn with [] => True | c :: _ => ~ comment_char c end.

(** What is left of the file. *)
Definition unread (so : status_in) : list byte := read_buf so ++ concat (reads so).
Definition chunks_ok (rds : list (list byte)) : Prop := Forall (fun c => c <> []) rds.

Lemma status_scan_line cap l rb ret buf :
  Forall line_char l -> Zlen buf + Zlen l <= cap ->
  status_scan cap (l ++ rb) ret buf = status_scan cap rb (if decide (l = []) then ret else true) (buf ++ l).
Proof.
  intros Hl. revert ret buf. induction Hl as [|c l (Hc & Hn & Hr) Hl IH]; intros ret buf Hcap.
  { by rewrite app_nil_r. }
  rewrite Zlen_cons in Hcap. pose proof (Zlen_nonneg l).
  cbn [app status_scan]. rewrite (proj2 (Z.eqb_neq c CR)), (proj2 (Z.eqb_neq c NL)) by done.
  assert (push_u8 cap buf c = buf ++ [c]) as ->
    by (unfold push_u8; rewrite (proj2 (Z.leb_le (Zlen buf + 1) cap)) by lia; done).
  rewrite IH by (rewrite Zlen_app, Zlen_cons, Zlen_nil; lia).
  rewrite <- app_assoc. by destruct (decide (l = [])).
Qed.

Lemma status_scan_all cap l ret buf :
  Forall line_char l -> Zlen buf + Zlen l <= cap ->
  status_scan cap l ret buf = (false, if decide (l = []) then ret else true, buf ++ l, []).
Proof.
  intros. pose proof (status_scan_line cap l [] ret buf) as H'.
  rewrite app_nil_r in H'. by apply H'.
Qed.

Lemma status_read_loop_line cap rds rb ret buf l rest :
  chunks_ok rds -> Forall line_char l -> Zlen buf + Zlen l <= cap ->
  rb ++ concat rds = l ++ NL :: rest ->
  exists so, status_read_loop cap rb rds ret buf = (true, buf ++ l, so) /\
             unread so = rest /\ chunks_ok (reads so).
Proof.
  intros Hc. revert rb ret buf l. induction Hc as [|chunk rds Hne Hc IH]; intros rb ret buf l Hl Hcap E;
    apply app_eq_inv in E as [(k & -> & Ek) | (k & -> & Ek)].
  1,3: destruct k as [|c k]; [|injection Ek as <- ->; eexists; cbn [status_read_loop];
      rewrite status_scan_line by done; change (status_scan cap (NL :: k) ?r ?b) with (true, true, b, k);
      split; [reflexivity|]; split; [done | by repeat constructor]].
  - discriminate Ek.
  - cbn [status_read_loop]. rewrite status_scan_line by done. cbn [status_scan].
    destruct chunk as [|c chunk]; [done|].
    destruct (IH (c :: chunk) (if decide (l = []) then ret else true) (buf ++ l) []) as (so & -> & ?);
      [constructor | by rewrite Zlen_app in *; rewrite Zlen_nil; lia | done |].
    exists so. by rewrite app_nil_r.
  - by destruct k.
  - apply Forall_app in Hl as [Hl1 Hl2]. rewrite Zlen_app in Hcap. pose proof (Zlen_nonneg k).
    cbn [status_read_loop]. rewrite status_scan_all by (auto; lia).
    destruct chunk as [|c chunk]; [done|].
    destruct (IH (c :: chunk) (if decide (rb = []) then ret else true) (buf ++ rb) k) as (so & -> & ?);
      [done | rewrite Zlen_app; lia | done |].
    exists so. by rewrite <- app_assoc.
Qed.

Lemma status_read_line so l rest :
  chunks_ok (reads so) -> Forall line_char l -> Zlen l < POOL_LINE_MAX ->
  unread so = l ++ NL :: rest ->
  exists so', status_read POOL_LINE_MAX so [] = (true, l ++ [0], so') /\
              unread so' = rest /\ chunks_ok (reads so').
Proof.
  intros Hc Hl Hlen E. unfold status_read.
  destruct (status_read_loop_line POOL_LINE_MAX (reads so) (read_buf so) false [] l rest)
    as (so' & -> & ?); [done | done | rewrite Zlen_nil; lia | done |].
  exists so'. split; [|done]. do 2 f_equal. cbn [app].
  assert (push_u8 POOL_LINE_MAX (if Zlen l + 1 <=? POOL_LINE_MAX then l else take (length l - 1) l) 0
          = l ++ [0]) as Hp.
  { assert ((Zlen l + 1 <=? POOL_LINE_MAX) = true) as Hb by (apply Z.leb_le; lia).
    rewrite Hb. unfold push_u8. by rewrite Hb. }
  unfold buf_null_terminate. destruct (list.last l) as [c|] eqn:El; [|done].
  apply list.last_Some in El as [l' ->]. apply Forall_app in Hl as [_ Hl].
  apply Forall_inv in Hl as [Hc0 _]. by rewrite (proj2 (Z.eqb_neq c 0)) by lia.
Qed.

Lemma status_read_eof so :
  chunks_ok (reads so) -> unread so = [] -> exists b so', status_read POOL_LINE_MAX so [] = (false, b, so').
Proof.
  intros Hc [Er Ec]%app_nil. unfold status_read. rewrite Er.
  destruct Hc as [|chunk rds Hne _]; [by eexists _, _|]. cbn in Ec. by apply app_nil in Ec as [-> _].
Qed.

Lemma cstring_plain cn r : Forall plain cn -> cstring (cn ++ 0 :: r) = cn.
Proof.
  induction 1 as [|c cn [[Hc _] _] _ IH]; [done|]. cbn [app cstring].
  rewrite (proj2 (Z.eqb_neq c 0)) by lia. by rewrite IH.
Qed.

Lemma buf_parse_loop_plain cn t r line size :
  Forall plain cn -> t = 44 \/ t = 0 -> Zlen line + Zlen cn < size ->
  buf_parse_loop (cn ++ t :: r) 44 line size = (false, line ++ cn ++ [0], r).
Proof.
  intros Hp Ht. revert line. induction Hp as [|c cn ((Hc & _) & Hd) Hp IH]; intros line Hs;
    cbn [app buf_parse_loop].
  - rewrite Z.geb_leb. rewrite Zlen_nil in Hs. rewrite (proj2 (Z.leb_gt size (Zlen line))) by lia.
    destruct Ht as [-> | ->]; done.
  - rewrite Zlen_cons in Hs. pose proof (Zlen_nonneg cn).
    rewrite Z.geb_leb, (proj2 (Z.leb_gt size (Zlen line))) by lia.
    rewrite (proj2 (Z.leb_gt c 0)), (proj2 (Z.eqb_neq c 44)) by lia. cbn [orb].
    rewrite (proj2 (Z.eqb_neq c 0)) by lia.
    rewrite IH by (rewrite Zlen_app, Zlen_cons, Zlen_nil; lia). by rewrite <- app_assoc.
Qed.

(** A field that fits is read back whole. *)
Lemma buf_parse_plain cn t r size :
  Forall plain cn -> t = 44 \/ t = 0 -> Zlen cn < size ->
  buf_parse (cn ++ t :: r) 44 size = Ok (true, cn, r).
Proof.
  intros Hp Ht Hs. unfold buf_parse. pose proof (Zlen_nonneg cn).
  rewrite Z.gtb_ltb, (proj2 (Z.ltb_lt 0 size)) by lia. cbn [assert_ mbind result_bind].
  rewrite buf_parse_loop_plain by done. cbn [app andb negb]. do 2 f_equal.
  rewrite take_app_ge by (unfold Zlen in *; lia).
  rewrite <- app_assoc. destruct (_ - _)%nat as [|n]; cbn [take app]; by rewrite ?cstring_plain.
Qed.

(** The documented behaviour of the two libc functions on addresses in host order:
    the text has a dotted quad's length and characters, and is parsed back. *)
Record dotted_quad (inet_ntoa : list byte -> cstr) (getaddr : cstr -> option Z) : Prop := {
  dq_plain : forall a, is_u32 a -> Forall plain (inet_ntoa (be_enc 4 a));
  dq_len : forall a, is_u32 a -> Zlen (inet_ntoa (be_enc 4 a)) <= 15;
  dq_parse : forall a, is_u32 a -> getaddr (inet_ntoa (be_enc 4 a)) = Some a
}.

Lemma print_plain inet_ntoa getaddr a :
  dotted_quad inet_ntoa getaddr -> is_u32 a ->
  print_in_addr_t inet_ntoa a false false = inet_ntoa (be_enc 4 a).
Proof.
  intros D Ha. unfold print_in_addr_t. rewrite orb_true_r. apply take_ge.
  pose proof (dq_len _ _ D a Ha). unfold Zlen in *. lia.
Qed.

Lemma read_line_assoc inet_ntoa getaddr now p fx cn a :
  dotted_quad inet_ntoa getaddr -> is_u32 a -> good_name cn ->
  pool_read_line getaddr now p fx (cn ++ 44 :: inet_ntoa (be_enc 4 a) ++ [0])
  = ifconfig_pool_set now p cn a fx.
Proof.
  intros D Ha (Hp & Hl & Hc).
  assert (exists c r, cn ++ 44 :: inet_ntoa (be_enc 4 a) ++ [0] = c :: r /\ (c =? 35) || (c =? 59) = false)
    as (c & r & E & Ec).
  { destruct cn as [|c cn]; [by eexists 44, _|]. eexists c, _. split; [done|].
    unfold comment_char in Hc. apply orb_false_iff. split; apply Z.eqb_neq; lia. }
  unfold pool_read_line. rewrite E, Ec, <- E.
  rewrite buf_parse_plain by (auto; done). cbn [mbind result_bind].
  pose proof (dq_len _ _ D a Ha).
  rewrite buf_parse_plain; [|by apply (dq_plain _ _ D)|by right|unfold POOL_BUF_SIZE; lia].
  cbn [mbind result_bind]. by rewrite (dq_parse _ _ D).
Qed.

(** ** The file restores the associations *)

(** What an entry of the written pool becomes. *)
Definition restored (now : Z) (fx : bool) (e : ifconfig_pool_entry) : ifconfig_pool_entry :=
  match common_name e with Some cn => Ipe false (Some cn) now fx | None => ipe_clear end.

Definition good_names (l : list ifconfig_pool_entry) : Prop :=
  Forall (fun e => match common_name e with Some cn => good_name cn | None => True end) l.

Lemma status_printf_short s : Zlen s < STATUS_PRINTF_MAXLEN -> status_printf s = s ++ [NL].
Proof. intros H. unfold status_printf. rewrite take_ge; [done|]. unfold Zlen in H. lia. Qed.

Lemma assoc_line_ok inet_ntoa getaddr cn a :
  dotted_quad inet_ntoa getaddr -> is_u32 a -> good_name cn ->
  Forall line_char (cn ++ 44 :: inet_ntoa (be_enc 4 a)) /\
  Zlen (cn ++ 44 :: inet_ntoa (be_enc 4 a)) < POOL_LINE_MAX.
Proof.
  intros D Ha (Hp & Hl & _). split.
  - assert (forall l, Forall plain l -> Forall line_char l) as Hpl.
    { intros l H. eapply Forall_impl; [|exact H]. by intros x []. }
    apply Forall_app. split; [auto|]. constructor; [done|]. apply Hpl, (dq_plain _ _ D a Ha).
  - rewrite Zlen_app, Zlen_cons. pose proof (dq_len _ _ D a Ha).
    unfold POOL_LINE_MAX, POOL_BUF_SIZE in *. lia.
Qed.

Lemma length_unread so : length (unread so) = left_to_read so.
Proof. apply length_app. Qed.

Section Roundtrip.
Context (inet_ntoa : list byte -> cstr) (getaddr : cstr -> option Z).
Context (D : dotted_quad inet_ntoa getaddr).
Context (p : ifconfig_pool) (Hw : pool_wf p) (now : Z) (fx : bool).
#[local] Set Default Proof Using "All".

Lemma entry_base (pre : list ifconfig_pool_entry) e l :
  p_list p = pre ++ e :: l ->
  ifconfig_pool_handle_to_ip_base p (Zlen pre) = Ok (p_base p + pool_step p * Zlen pre) /\
  is_u32 (p_base p + pool_step p * Zlen pre) /\ 0 <= Zlen pre < p_size p.
Proof.
  intros E. pose proof Hw as [T S _ B U]. pose proof (Zlen_nonneg pre).
  assert (Zlen pre < p_size p).
  { rewrite S, E, Zlen_app, Zlen_cons. pose proof (Zlen_nonneg l). lia. }
  split; [by apply handle_to_ip_base_ok|]. unfold is_u32, pool_step in *.
  destruct (_ =? _); lia.
Qed.

(** Setting entry number [length pre] of a pool restored up to there. *)
Lemma set_next q (pre l : list ifconfig_pool_entry) e cn :
  same_pool p q -> p_list p = pre ++ e :: l ->
  p_list q = map (restored now fx) pre ++ replicate (S (length l)) ipe_clear ->
  ifconfig_pool_set now q cn (p_base p + pool_step p * Zlen pre) fx =
  Ok (with_list q (map (restored now fx) pre ++ Ipe false (Some cn) now fx :: replicate (length l) ipe_clear)).
Proof.
  intros Hs E Eq. destruct (entry_base pre e l E) as (_ & _ & Hr).
  pose proof (same_pool_wf _ _ Hs Hw) as Hwq. destruct Hs as (B & S & T & _ & _).
  unfold ifconfig_pool_set.
  replace (p_base p + pool_step p * Zlen pre) with (p_base q + pool_step q * Zlen pre)
    by (unfold pool_step; by rewrite B, T).
  rewrite base_handle_roundtrip by (rewrite ?S; done). cbn [mbind result_bind].
  rewrite Z.geb_leb, (proj2 (Z.leb_le 0 (Zlen pre))) by lia.
  assert (Z.to_nat (Zlen pre) = length (map (restored now fx) pre)) as El
    by (unfold Zlen; rewrite length_map; lia).
  rewrite (aget_lookup _ _ ipe_clear); [|lia | rewrite El, Eq; by apply list_lookup_middle].
  cbn [mbind result_bind]. rewrite pool_aset by (rewrite ?S; done). cbn [mbind result_bind].
  rewrite El, Eq, insert_app_r_alt, Nat.sub_diag by done. done.
Qed.

Lemma read_back l : forall pre q so fuel content,
  good_names l -> p_list p = pre ++ l -> same_pool p q ->
  p_list q = map (restored now fx) pre ++ replicate (length l) ipe_clear ->
  pool_list_from inet_ntoa p l (Zlen pre) = Ok content ->
  unread so = content -> chunks_ok (reads so) -> (left_to_read so < fuel)%nat ->
  exists q', pool_read_loop getaddr fuel now so q fx = Ok q' /\ same_pool p q' /\
             p_list q' = map (restored now fx) (p_list p).
Proof.
  induction l as [|e l IH]; intros pre q so fuel content Hg E Hs Eq Hc Hu Hch Hf;
    (destruct fuel as [|fuel]; [lia|]); cbn [pool_read_loop].
  { injection Hc as <-. destruct (status_read_eof so Hch Hu) as (b & so' & ->).
    exists q. rewrite app_nil_r in E, Eq. by rewrite E. }
  pose proof (Forall_inv Hg) as Hge. apply Forall_inv_tail in Hg. cbn [pool_list_from] in Hc.
  destruct (entry_base pre e l E) as (Eb & Ha & _).
  assert (Zlen pre + 1 = Zlen (pre ++ [e])) as Ez by (rewrite Zlen_app, Zlen_cons, Zlen_nil; lia).
  assert (p_list p = (pre ++ [e]) ++ l) as E' by (by rewrite <- app_assoc).
  rewrite Ez in Hc. destruct (common_name e) as [cn|] eqn:En.
  - cbv beta in Hge. rewrite En in Hge. rewrite Eb in Hc. cbn [mbind result_bind] in Hc.
    rewrite (print_plain _ getaddr) in Hc by done.
    destruct (assoc_line_ok inet_ntoa getaddr cn _ D Ha Hge) as [Hl1 Hl2].
    rewrite status_printf_short in Hc by done.
    destruct (pool_list_from _ p l _) as [rest| |] eqn:Er; [|done..]. injection Hc as <-.
    rewrite <- app_assoc in Hu.
    destruct (status_read_line so _ rest Hch Hl1 Hl2 Hu) as (so' & -> & Hu' & Hch').
    rewrite <- app_assoc. cbn [app]. rewrite (read_line_assoc inet_ntoa) by done.
    rewrite (set_next q pre l e cn Hs E Eq). cbn [mbind result_bind].
    eapply (IH (pre ++ [e])); [done | done | | | exact Er | done | done |].
    + eapply same_pool_trans; [exact Hs|]. repeat split. cbn [p_list with_list].
      rewrite Eq, !length_app. cbn. done.
    + cbn [p_list with_list]. rewrite map_app, <- app_assoc. cbn [map app]. unfold restored at 3. by rewrite En.
    + rewrite <- length_unread in Hf |- *. rewrite Hu in Hf. rewrite Hu', !length_app in *.
      cbn [length] in Hf. lia.
  - cbn [mbind result_bind] in Hc.
    destruct (pool_list_from _ p l _) as [rest| |] eqn:Er; [|done..]. cbn in Hc. injection Hc as <-.
    eapply (IH (pre ++ [e]) q so (S fuel) rest); try done.
    rewrite Eq, map_app, <- app_assoc. cbn [map app length replicate]. unfold restored at 3. by rewrite En.
Qed.

Lemma pool_list_ok l : forall pre,
  p_list p = pre ++ l -> exists content, pool_list_from inet_ntoa p l (Zlen pre) = Ok content.
Proof.
  induction l as [|e l IH]; intros pre E; cbn [pool_list_from]; [eauto|].
  destruct (entry_base pre e l E) as (Eb & _ & _).
  destruct (IH (pre ++ [e])) as [rest Er]; [by rewrite <- app_assoc|].
  rewrite Zlen_app, Zlen_cons, Zlen_nil in Er. rewrite Eb.
  replace (Zlen pre + (1 + 0)) with (Zlen pre + 1) in Er by lia. rewrite Er.
  destruct (common_name e); cbn [mbind result_bind]; eauto.
Qed.
End Roundtrip.

Lemma first_at_unique P l i j : first_at P l i -> first_at P l j -> i = j.
Proof.
  intros [(e & He & Hp) Hi] [(x & Hx & Hpx) Hj].
  destruct (Nat.lt_total i j) as [Hl | [Heq | Hl]]; [destruct (Hj i e); auto | done | destruct (Hi j x); auto].
Qed.

Lemma first_at_restored now fx cn l k :
  first_at (fun e => common_name e = Some cn) l k ->
  first_at (free_same (Some cn)) (map (restored now fx) l) k.
Proof.
  intros [(e & Hke & En) Hk]. split.
  - exists (restored now fx e). rewrite list_lookup_fmap, Hke. split; [done|].
    unfold restored, free_same. rewrite En. split; [done|]. by apply bool_decide_eq_true.
  - intros j x Hj Hx [_ Hsame]. rewrite list_lookup_fmap in Hx.
    destruct (l !! j) as [y|] eqn:Ey; [|done]. injection Hx as <-.
    apply (Hk j y Hj Ey). unfold restored in Hsame.
    destruct (common_name y); [|done]. by apply bool_decide_eq_true in Hsame as ->.
Qed.

(** A client whose name a free entry has gets the first such entry. *)
Lemma acquire_same now p cn k :
  pool_wf p -> duplicate_cn p = false -> first_at (free_same cn) (p_list p) k ->
  exists a q, ifconfig_pool_acquire now p cn = Ok (Z.of_nat k, Some a, q) /\
              pool_addrs p (Z.of_nat k) = Ok a.
Proof.
  intros Hw Hd Hk. pose proof (find_policy_ok p cn Hw) as HP. unfold find_policy in HP. rewrite Hd in HP.
  assert (ifconfig_pool_find p cn = Z.of_nat k) as Ef.
  { destruct HP as [(k' & -> & Hk') | HP].
    - f_equal. by eapply first_at_unique.
    - exfalso. destruct Hk as [(x & Hx & Hfx) _].
      destruct HP as [(Hn & _) | (Hn & _)]; by apply (Hn k x). }
  destruct (acquire_ok now p cn Hw) as [[En _] | (k' & e & a & En & _ & _ & Ha & ->)];
    rewrite Ef in En; [lia|]. apply Nat2Z.inj in En as <-. eauto.
Qed.

(** The persistence file keeps the associations of clients and addresses across
    a restart: when a pool is written to its file and a new server with the same
    range reads it, in whatever pieces the file is read, each entry has its common
    name again and is free, and (without duplicate_cn) a client of a name that had
    an entry is given that entry and so the address it had before. *)
Theorem pool_persist_roundtrip inet_ntoa getaddr type start end_ dup p0 p old now fx :
  dotted_quad inet_ntoa getaddr ->
  type = IFCONFIG_POOL_30NET \/ type = IFCONFIG_POOL_INDIV ->
  is_u32 end_ -> 0 <= start <= end_ -> end_ - start < IFCONFIG_POOL_MAX ->
  ifconfig_pool_init type start end_ dup = Ok p0 -> same_pool p0 p -> good_names (p_list p) ->
  exists content, ifconfig_pool_write inet_ntoa true old p = Ok content /\
    forall rds, chunks_ok rds -> concat rds = content ->
    exists q, ifconfig_pool_read getaddr now (Si [] rds) p0 fx = Ok q /\
      p_list q = map (restored now fx) (p_list p) /\
      forall cn k now', dup = false ->
        first_at (fun e => common_name e = Some cn) (p_list p) k ->
        exists a q', ifconfig_pool_acquire now' q (Some cn) = Ok (Z.of_nat k, Some a, q') /\
                     pool_addrs p (Z.of_nat k) = Ok a.
Proof.
  intros D Ht He Hs Hd E0 Sp Hg.
  destruct (init_wf type start end_ dup Ht He Hs Hd) as (p0' & E0' & Hw0 & _ & Hdup & L & _).
  rewrite E0' in E0. injection E0 as ->.
  pose proof (same_pool_wf _ _ Sp Hw0) as Hw.
  unfold ifconfig_pool_write, ifconfig_pool_list. rewrite take_ge by (destruct Hw; unfold Zlen in *; lia).
  destruct (pool_list_ok inet_ntoa getaddr D p Hw now fx (p_list p) []) as [content Ec]; [done|].
  exists content. split; [done|]. intros rds Hch Hrd.
  assert (same_pool p p0) as Sp' by (unfold same_pool in *; intuition congruence).
  destruct (read_back inet_ntoa getaddr D p Hw now fx (p_list p) [] p0 (Si [] rds)
              (S (length (concat rds))) content) as (q & Eq & Sq & Lq); try done.
  { cbn [map app]. rewrite L. f_equal. unfold same_pool in Sp. intuition congruence. }
  { unfold left_to_read. cbn [read_buf reads length]. lia. }
  exists q. split; [done|]. split; [done|]. intros cn k now' Hd0 Hk.
  rewrite <- (pool_addrs_same p q) by done.
  destruct (acquire_same now' q (Some cn) k) as (a & q' & ? & ?); [eauto with ovpn | | |eauto].
  - unfold same_pool in *. intuition congruence.
  - rewrite Lq. by apply first_at_restored.
Qed.

(** An implementation with the behaviour assumed: every byte as three digits. *)
Definition digits3 (b : Z) : cstr := [48 + b / 100; 48 + b / 10 mod 10; 48 + b mod 10].
Definition ntoa3 (bs : list byte) : cstr :=
  match bs with
  | [a; b; c; d] => digits3 a ++ 46 :: digits3 b ++ 46 :: digits3 c ++ 46 :: digits3 d
  | _ => []
  end.
Definition undigits3 (x y z : byte) : Z := (x - 48) * 100 + (y - 48) * 10 + (z - 48).
Definition aton3 (s : cstr) : option Z :=
  match s with
  | [a1; a2; a3; _; b1; b2; b3; _; c1; c2; c3; _; d1; d2; d3] =>
      Some (be_dec [undigits3 a1 a2 a3; undigits3 b1 b2 b3; undigits3 c1 c2 c3; undigits3 d1 d2 d3])
  | _ => None
  end.

Lemma digits3_plain b : is_byte b -> Forall plain (digits3 b).
Proof.
  unfold is_byte, digits3, plain, line_char, NL, CR. intros.
  repeat constructor; Z.to_euclidean_division_equations; lia.
Qed.
Lemma undigits3_digits3 b :
  is_byte b -> undigits3 (48 + b / 100) (48 + b / 10 mod 10) (48 + b mod 10) = b.
Proof. unfold is_byte, undigits3. intros. Z.to_euclidean_division_equations. lia. Qed.

Lemma dotted_quad3 : dotted_quad ntoa3 aton3.
Proof.
  assert (forall a, exists x y z w, be_enc 4 a = [x; y; z; w] /\
    is_byte x /\ is_byte y /\ is_byte z /\ is_byte w) as Hb.
  { intros a. pose proof (be_enc_bytes 4 a) as H. eexists _, _, _, _. split; [reflexivity|].
    auto with ovpn. }
  split; intros a Ha; destruct (Hb a) as (x & y & z & w & E & Hx & Hy & Hz & Hw); rewrite E.
  - cbn [ntoa3].
    repeat (apply Forall_app; split; [by apply digits3_plain | constructor; [done|]]).
    by apply digits3_plain.
  - done.
  - cbn [ntoa3 digits3 app aton3]. rewrite !undigits3_digits3 by done.
    rewrite <- E. f_equal. apply be_dec_enc. exact Ha.
Qed.

Lemma pool_persist_roundtrip_witness :
  let p0 := Pool 168427528 2 IFCONFIG_POOL_30NET false [ipe_clear; ipe_clear] in
  let p := Pool 168427528 2 IFCONFIG_POOL_30NET false [ipe_clear; Ipe true (Some [97; 98]) 3 false] in
  exists content, ifconfig_pool_write ntoa3 true [] p = Ok content /\
    forall rds, chunks_ok rds -> concat rds = content ->
    exists q, ifconfig_pool_read aton3 77 (Si [] rds) p0 false = Ok q /\
      p_list q = map (restored 77 false) (p_list p) /\
      forall cn k now', false = false ->
        first_at (fun e => common_name e = Some cn) (p_list p) k ->
        exists a q', ifconfig_pool_acquire now' q (Some cn) = Ok (Z.of_nat k, Some a, q') /\
                     pool_addrs p (Z.of_nat k) = Ok a.
Proof.
  intros p0 p.
  apply (pool_persist_roundtrip ntoa3 aton3 IFCONFIG_POOL_30NET 168427528 168427535 false p0 p [] 77 false);
    [apply dotted_quad3 | by left | unfold is_u32; lia | lia | done | vm_compute; reflexivity
    | by repeat split | ].
  repeat constructor; unfold comment_char, NL, CR; try lia.
Defined.
