(* ===== verification/Mbuf.v ===== *)
(** The queue of packets from client to client of the server (src/mbuf.c,
    src/mbuf.h): a ring of references to reference-counted buffers, and the
    functions of the server that use it (src/multi.c: [multi_add_mbuf],
    [multi_unicast], [multi_bcast], [multi_get_queue]).

    The buffers live in a store; a pointer is a key of it, NULL is [None], and
    following a pointer that was freed is a [Fault].  The contents of a buffer are
    its bytes ([clone_buf] of src/buffer.c is modelled in Buffer).  The mutex is
    left out: the code is modelled as one thread runs it. *)

From S2P Require Import Prelude Integer.

Record mbuf_buffer := Mb { mb_buf : list byte; refcount : Z; mb_flags : Z }.
Record mbuf_item := Item { it_buffer : option positive; it_instance : option positive }.
Record mbuf_set := Ms {
  ms_head : Z; ms_len : Z; ms_capacity : Z; max_queued : Z; ms_array : list mbuf_item
}.

#[export] Instance mbuf_item_eq_dec : EqDecision mbuf_item.
Proof. solve_decision. Defined.

Definition MF_UNICAST : Z := 1.
Definition MBUF_INDEX (head offset size : Z) : Z := Z.land (u32 (head + offset)) (u32 (size - 1)).

Abbreviation store := (gmap positive mbuf_buffer).

(** ** Buffers *)

Definition mbuf_alloc_buf (s : store) (buf : list byte) : positive * store :=
  let b := fresh (dom s) in (b, <[b := Mb buf 1 0]> s).

Definition mbuf_free_buf (s : store) (mb : option positive) : result store :=
  match mb with
  | None => Ok s
  | Some b =>
      m ← from_opt (s !! b);
      let r := i32 (refcount m - 1) in
      if r <=? 0 then Ok (delete b s) else Ok (<[b := Mb (mb_buf m) r (mb_flags m)]> s)
  end.

(** ** The ring; [garbage] is what the fresh array holds *)

Definition mbuf_init (garbage : Z -> mbuf_item) (size : Z) : result mbuf_set :=
  capacity ← adjust_power_of_2 size;
  Ok (Ms 0 0 capacity 0 (map garbage (seqZ 0 capacity))).

(** The loop of [mbuf_extract_item]; it runs at most [ms_len] times. *)
Fixpoint extract_loop (fuel : nat) (ms : mbuf_set) : result (option mbuf_item * mbuf_set) :=
  match fuel with
  | O => Ok (None, ms)
  | S f =>
      if ms_len ms =? 0 then Ok (None, ms)
      else
        item ← aget (ms_array ms) (ms_head ms);
        let ms := Ms (MBUF_INDEX (ms_head ms) 1 (ms_capacity ms)) (u32 (ms_len ms - 1))
                     (ms_capacity ms) (max_queued ms) (ms_array ms) in
        if it_instance item is Some _ then Ok (Some item, ms) else extract_loop f ms
  end.

(** The item extracted when the result is true. *)
Definition mbuf_extract_item (ms : mbuf_set) : result (option mbuf_item * mbuf_set) :=
  extract_loop (Z.to_nat (ms_len ms)) ms.

(** [++item->buffer->refcount] *)
Definition mbuf_ref (s : store) (b : option positive) : result store :=
  b ← from_opt b;
  m ← from_opt (s !! b);
  Ok (<[b := Mb (mb_buf m) (i32 (refcount m + 1)) (mb_flags m)]> s).

(** The first half of [mbuf_add_item]: make room. *)
Definition mbuf_make_room (s : store) (ms : mbuf_set) : result (store * mbuf_set) :=
  if ms_len ms =? ms_capacity ms then
    r ← mbuf_extract_item ms;
    match r : option mbuf_item * mbuf_set with
    | (Some rm, ms) => s ← mbuf_free_buf s (it_buffer rm); Ok (s, ms)
    | (None, _) => AssertFail
    end
  else Ok (s, ms).

(** The rest of it: the item goes behind the others and takes a reference. *)
Definition mbuf_append (s : store) (ms : mbuf_set) (item : mbuf_item) : result (store * mbuf_set) :=
  _ ← assert_ (ms_len ms <? ms_capacity ms);
  array ← aset (ms_array ms) (MBUF_INDEX (ms_head ms) (ms_len ms) (ms_capacity ms)) item;
  let len := u32 (ms_len ms + 1) in
  let ms := Ms (ms_head ms) len (ms_capacity ms)
               (if len >? max_queued ms then len else max_queued ms) array in
  s ← mbuf_ref s (it_buffer item);
  Ok (s, ms).

Definition mbuf_add_item (s : store) (ms : mbuf_set) (item : mbuf_item) : result (store * mbuf_set) :=
  r ← mbuf_make_room s ms;
  mbuf_append (r : store * mbuf_set).1 r.2 item.

Fixpoint peek_loop (n : nat) (i : Z) (ms : mbuf_set) : result (option positive) :=
  match n with
  | O => Ok None
  | S n =>
      item ← aget (ms_array ms) (MBUF_INDEX (ms_head ms) i (ms_capacity ms));
      match it_instance item with
      | Some mi => Ok (Some mi)
      | None => peek_loop n (i + 1) ms
      end
  end.
Definition mbuf_peek (ms : mbuf_set) : result (option positive) :=
  if negb (ms_len ms =? 0) then peek_loop (Z.to_nat (ms_len ms)) 0 ms else Ok None.

Fixpoint dereference_loop (n : nat) (i : Z) (s : store) (ms : mbuf_set) (mi : positive)
  : result (store * mbuf_set) :=
  match n with
  | O => Ok (s, ms)
  | S n =>
      let j := MBUF_INDEX (ms_head ms) i (ms_capacity ms) in
      item ← aget (ms_array ms) j;
      if bool_decide (it_instance item = Some mi) then
        s ← mbuf_free_buf s (it_buffer item);
        array ← aset (ms_array ms) j (Item None None);
        dereference_loop n (i + 1) s
          (Ms (ms_head ms) (ms_len ms) (ms_capacity ms) (max_queued ms) array) mi
      else dereference_loop n (i + 1) s ms mi
  end.
Definition mbuf_dereference_instance (s : store) (ms : mbuf_set) (mi : positive) : result (store * mbuf_set) :=
  dereference_loop (Z.to_nat (ms_len ms)) 0 s ms mi.

Fixpoint free_loop (n : nat) (i : Z) (s : store) (ms : mbuf_set) : result store :=
  match n with
  | O => Ok s
  | S n =>
      item ← aget (ms_array ms) (MBUF_INDEX (ms_head ms) i (ms_capacity ms));
      s ← mbuf_free_buf s (it_buffer item);
      free_loop n (i + 1) s ms
  end.
(** The store after the set is gone. *)
Definition mbuf_free (s : store) (ms : mbuf_set) : result store := free_loop (Z.to_nat (ms_len ms)) 0 s ms.

(** ** The server's use of the queue (src/multi.c, src/multi.h)

    [deferred mi] is the length of the client's own TCP output queue, if it has
    one; [limit] is --tcp-queue-limit. *)

Record mst := Mst { st_bufs : store; st_set : mbuf_set }.

Definition multi_output_queue_ready (deferred : positive -> option Z) (limit : Z) (mi : positive) : bool :=
  match deferred mi with Some len => len <=? limit | None => true end.

Definition multi_add_mbuf deferred limit (st : mst) (mi b : positive) : result mst :=
  if multi_output_queue_ready deferred limit mi then
    r ← mbuf_add_item (st_bufs st) (st_set st) (Item (Some b) (Some mi));
    Ok (Mst (r : store * mbuf_set).1 r.2)
  else Ok st.

Definition multi_unicast deferred limit (st : mst) (buf : list byte) (mi : positive) : result mst :=
  if Zlen buf >? 0 then
    let '(b, s) := mbuf_alloc_buf (st_bufs st) buf in
    m ← from_opt (s !! b);
    let s := <[b := Mb (mb_buf m) (refcount m) MF_UNICAST]> s in
    st ← multi_add_mbuf deferred limit (Mst s (st_set st)) mi b;
    s ← mbuf_free_buf (st_bufs st) (Some b);
    Ok (Mst s (st_set st))
  else Ok st.

(** The loop of [multi_bcast] over the clients, each with its [halt] flag. *)
Fixpoint bcast_loop deferred limit (st : mst) (clients : list (positive * bool)) (omit : option positive)
    (b : positive) : result mst :=
  match clients with
  | [] => Ok st
  | (mi, halt) :: r =>
      st ← (if bool_decide (Some mi <> omit) && negb halt
            then multi_add_mbuf deferred limit st mi b else Ok st);
      bcast_loop deferred limit st r omit b
  end.

Definition multi_bcast deferred limit (st : mst) (buf : list byte) (clients : list (positive * bool))
    (omit : option positive) : result mst :=
  if Zlen buf >? 0 then
    let '(b, s) := mbuf_alloc_buf (st_bufs st) buf in
    st ← bcast_loop deferred limit (Mst s (st_set st)) clients omit b;
    s ← mbuf_free_buf (st_bufs st) (Some b);
    Ok (Mst s (st_set st))
  else Ok st.

(** The instance, the packet handed to it and the buffer's flags. *)
Definition multi_get_queue (st : mst) : result (option (positive * list byte * Z) * mst) :=
  r ← mbuf_extract_item (st_set st);
  match r : option mbuf_item * mbuf_set with
  | (Some item, ms) =>
      mi ← from_opt (it_instance item);
      b ← from_opt (it_buffer item);
      m ← from_opt (st_bufs st !! b);
      s ← mbuf_free_buf (st_bufs st) (Some b);
      Ok (Some (mi, mb_buf m, mb_flags m), Mst s ms)
  | (None, ms) => Ok (None, Mst (st_bufs st) ms)
  end.

(** ** The ring as a list *)

(** [l] is what the ring holds, oldest first. *)
Record ring_rep (ms : mbuf_set) (l : list mbuf_item) : Prop := {
  rr_cap : exists k, 0 <= k <= 30 /\ ms_capacity ms = 2 ^ k;
  rr_array : Zlen (ms_array ms) = ms_capacity ms;
  rr_head : 0 <= ms_head ms < ms_capacity ms;
  rr_len : ms_len ms = Zlen l;
  rr_fits : Zlen l <= ms_capacity ms;
  rr_items : forall i x, l !! i = Some x ->
    ms_array ms !! Z.to_nat ((ms_head ms + Z.of_nat i) mod ms_capacity ms) = Some x
}.

Lemma cap_range k : 0 <= k <= 30 -> 0 < 2 ^ k <= 1073741824.
Proof.
  intros. split; [apply Z.pow_pos_nonneg; lia|].
  change 1073741824 with (2 ^ 30). apply Z.pow_le_mono_r; lia.
Qed.

Lemma MBUF_INDEX_ok head offset k :
  0 <= k <= 30 -> 0 <= head < 2 ^ k -> 0 <= offset <= 2 ^ k ->
  MBUF_INDEX head offset (2 ^ k) = (head + offset) mod 2 ^ k.
Proof.
  intros Hk Hh Ho. pose proof (cap_range k Hk). unfold MBUF_INDEX.
  rewrite !u32_id by (unfold is_u32; lia). change (2 ^ k - 1) with (Z.pred (2 ^ k)).
  rewrite <- Z.ones_equiv. apply Z.land_ones. lia.
Qed.

(** The index of the item number [i]. *)
Lemma ring_index ms l i :
  ring_rep ms l -> 0 <= i <= ms_capacity ms ->
  MBUF_INDEX (ms_head ms) i (ms_capacity ms) = (ms_head ms + i) mod ms_capacity ms /\
  0 <= (ms_head ms + i) mod ms_capacity ms < ms_capacity ms.
Proof.
  intros [(k & Hk & E) _ Hh _ _ _] Hi. rewrite E in *. pose proof (cap_range k Hk).
  split; [by apply MBUF_INDEX_ok | apply Z.mod_pos_bound; lia].
Qed.

Lemma ring_get ms l (i : nat) x :
  ring_rep ms l -> l !! i = Some x ->
  aget (ms_array ms) (MBUF_INDEX (ms_head ms) (Z.of_nat i) (ms_capacity ms)) = Ok x.
Proof.
  intros H Hx. pose proof (lookup_lt_Some _ _ _ Hx). pose proof H as [_ _ _ _ Hf Hi].
  unfold Zlen in Hf. destruct (ring_index ms l (Z.of_nat i) H) as [-> Hr]; [lia|].
  apply aget_lookup; [lia | by apply Hi].
Qed.

Lemma mod_index_inj h i j c :
  0 <= i < c -> 0 <= j < c -> (h + i) mod c = (h + j) mod c -> i = j.
Proof.
  intros Hi Hj E. assert ((i - j) mod c = 0) as E0.
  { replace (i - j) with ((h + i) - (h + j)) by lia. rewrite Zminus_mod, E, Z.sub_diag. apply Z.mod_0_l. lia. }
  apply Z.mod_divide in E0; [|lia]. destruct E0 as [q Hq].
  assert (q = 0) by nia. lia.
Qed.

Lemma ring_set ms l (i : nat) x :
  ring_rep ms l -> (i < length l)%nat ->
  exists a, aset (ms_array ms) (MBUF_INDEX (ms_head ms) (Z.of_nat i) (ms_capacity ms)) x = Ok a /\
    ring_rep (Ms (ms_head ms) (ms_len ms) (ms_capacity ms) (max_queued ms) a) (<[i := x]> l).
Proof.
  intros H Hi. pose proof H as [Hc Ha Hh Hl Hf Hit]. unfold Zlen in Hf.
  destruct (ring_index ms l (Z.of_nat i) H) as [-> Hr]; [lia|].
  rewrite aset_ok by (rewrite Ha; done). eexists. split; [done|]. unfold Zlen in *.
  split; cbn [ms_capacity ms_array ms_head ms_len]; unfold Zlen; rewrite ?length_insert; auto.
  intros j y Hy. pose proof (lookup_lt_Some _ _ _ Hy) as Hj. rewrite length_insert in Hj.
  destruct (decide (j = i)) as [->|Hne].
  - rewrite list_lookup_insert_eq in Hy |- * by lia. done.
  - rewrite list_lookup_insert_ne in Hy by done.
    pose proof (Z.mod_pos_bound (ms_head ms + Z.of_nat j) (ms_capacity ms) ltac:(lia)).
    rewrite list_lookup_insert_ne; [by apply Hit|]. intros E. apply Hne.
    apply Nat2Z.inj. apply (mod_index_inj (ms_head ms) _ _ (ms_capacity ms)); lia.
Qed.

Lemma ring_push ms l x mq :
  ring_rep ms l -> Zlen l < ms_capacity ms ->
  exists a, aset (ms_array ms) (MBUF_INDEX (ms_head ms) (ms_len ms) (ms_capacity ms)) x = Ok a /\
    ring_rep (Ms (ms_head ms) (u32 (ms_len ms + 1)) (ms_capacity ms) mq a) (l ++ [x]).
Proof.
  intros H Hlt. pose proof H as [(k & Hk & Ek) Ha Hh Hl Hf Hit]. pose proof (cap_range k Hk).
  pose proof (Zlen_nonneg l). rewrite Hl.
  destruct (ring_index ms l (Zlen l) H) as [-> Hr]; [lia|].
  rewrite aset_ok by (rewrite Ha; done). eexists. split; [done|].
  rewrite u32_id by (unfold is_u32; lia).
  split; cbn [ms_capacity ms_array ms_head ms_len];
    [eauto | unfold Zlen in *; rewrite length_insert; done | done | | |].
  1,2: rewrite Zlen_app, Zlen_cons, Zlen_nil; lia.
  intros j y [Hy | [Hj Hy]]%lookup_app_Some.
  - pose proof (lookup_lt_Some _ _ _ Hy) as Hj. unfold Zlen in *.
    pose proof (Z.mod_pos_bound (ms_head ms + Z.of_nat j) (ms_capacity ms) ltac:(lia)).
    rewrite list_lookup_insert_ne; [by apply Hit|]. intros E.
    assert (Z.of_nat (length l) = Z.of_nat j); [|lia].
    apply (mod_index_inj (ms_head ms) _ _ (ms_capacity ms)); lia.
  - apply list_lookup_singleton_Some in Hy as [Hj' <-].
    replace (Z.of_nat j) with (Zlen l) by (unfold Zlen; lia).
    unfold Zlen in *. rewrite list_lookup_insert_eq; [done|]. lia.
Qed.

Lemma ring_pop ms x l :
  ring_rep ms (x :: l) ->
  aget (ms_array ms) (ms_head ms) = Ok x /\
  ring_rep (Ms (MBUF_INDEX (ms_head ms) 1 (ms_capacity ms)) (u32 (ms_len ms - 1))
               (ms_capacity ms) (max_queued ms) (ms_array ms)) l.
Proof.
  intros H. pose proof H as [(k & Hk & Ek) Ha Hh Hl Hf Hit]. pose proof (cap_range k Hk).
  rewrite Zlen_cons in *. pose proof (Zlen_nonneg l). split.
  - apply aget_lookup; [lia|]. rewrite <- (Hit 0%nat x eq_refl). do 2 f_equal.
    rewrite Z.add_0_r, Z.mod_small; lia.
  - destruct (ring_index ms (x :: l) 1 H) as [-> Hr]; [lia|].
    rewrite u32_id by (unfold is_u32; lia).
    split; cbn [ms_capacity ms_array ms_head ms_len]; [eauto | done | done | lia | lia |].
    intros i y Hy. rewrite <- (Hit (S i) y Hy). do 2 f_equal.
    rewrite Zplus_mod_idemp_l. f_equal. lia.
Qed.

(** ** Extraction *)

(** The first item with an instance, and what is behind it. *)
Fixpoint pop_live (l : list mbuf_item) : option (mbuf_item * list mbuf_item) :=
  match l with
  | [] => None
  | x :: r => if it_instance x is Some _ then Some (x, r) else pop_live r
  end.

Lemma extract_loop_ok fuel ms l :
  ring_rep ms l -> (length l <= fuel)%nat ->
  exists ms', extract_loop fuel ms = Ok (fst <$> pop_live l, ms') /\
    ring_rep ms' (match pop_live l with Some (_, l') => l' | None => [] end) /\
    ms_capacity ms' = ms_capacity ms.
Proof.
  revert ms fuel. induction l as [|x l IH]; intros ms fuel H Hf.
  { exists ms. split; [|done]. destruct fuel; [done|]. cbn [extract_loop]. by rewrite (rr_len _ _ H). }
  destruct fuel as [|fuel]; cbn [length] in Hf; [lia|]. cbn [extract_loop].
  rewrite (proj2 (Z.eqb_neq (ms_len ms) 0))
    by (rewrite (rr_len _ _ H), Zlen_cons; pose proof (Zlen_nonneg l); lia).
  destruct (ring_pop ms x l H) as [-> Hp]. cbn [mbind result_bind pop_live].
  destruct (it_instance x) eqn:Ei.
  - eexists. split; [done|]. split; [exact Hp | done].
  - destruct (IH _ fuel Hp) as (ms' & -> & ?); [lia|]. by exists ms'.
Qed.

Lemma mbuf_extract_ok ms l :
  ring_rep ms l ->
  exists ms', mbuf_extract_item ms = Ok (fst <$> pop_live l, ms') /\
    ring_rep ms' (match pop_live l with Some (_, l') => l' | None => [] end) /\
    ms_capacity ms' = ms_capacity ms.
Proof.
  intros H. apply extract_loop_ok; [done|]. rewrite (rr_len _ _ H). unfold Zlen. lia.
Qed.

Lemma pop_live_suffix l x r :
  pop_live l = Some (x, r) ->
  exists pre, l = pre ++ x :: r /\ Forall (fun y => it_instance y = None) pre /\ it_instance x <> None.
Proof.
  induction l as [|y l IH]; cbn [pop_live]; [done|]. destruct (it_instance y) eqn:E.
  - intros [= -> ->]. exists []. split_and!; [done | constructor | congruence].
  - intros (pre & -> & Hp & Hx)%IH. exists (y :: pre). auto.
Qed.
Lemma pop_live_none l : pop_live l = None <-> Forall (fun y => it_instance y = None) l.
Proof.
  induction l as [|y l IH]; cbn [pop_live]; [split; constructor|].
  destruct (it_instance y) eqn:E; [split; [done|]; intros H; apply Forall_inv in H; congruence|].
  rewrite IH. split; [by constructor | by intros ?%Forall_inv_tail].
Qed.

(** ** Reference counts *)

(** How often the pointer occurs among [refs]. *)
Definition cnt (b : positive) (refs : list (option positive)) : Z :=
  Zlen (filter (fun o => o = Some b) refs).

(** The refcount of a live buffer is the number of references to it, which is not 0. *)
Definition refs_ok (s : store) (refs : list (option positive)) : Prop :=
  forall b, match s !! b with
            | Some m => refcount m = cnt b refs /\ 0 < cnt b refs
            | None => cnt b refs = 0
            end.

(** What a client sees of a buffer. *)
Definition contents (s : store) (b : positive) : option (list byte * Z) :=
  (fun m => (mb_buf m, mb_flags m)) <$> s !! b.

Lemma cnt_cons b o refs : cnt b (o :: refs) = (if decide (o = Some b) then 1 else 0) + cnt b refs.
Proof.
  unfold cnt. destruct (decide (o = Some b)).
  - rewrite filter_cons_True, Zlen_cons by done. done.
  - rewrite filter_cons_False by done. done.
Qed.
Lemma cnt_perm b refs refs' : refs ≡ₚ refs' -> cnt b refs = cnt b refs'.
Proof. intros H. unfold cnt, Zlen. by rewrite H. Qed.
Lemma cnt_bounds b refs : 0 <= cnt b refs <= Zlen refs.
Proof. unfold cnt, Zlen. pose proof (length_filter (fun o => o = Some b) refs). lia. Qed.
Lemma cnt_in b refs : Some b ∈ refs -> 0 < cnt b refs.
Proof.
  intros (l1 & l2 & ->)%list_elem_of_split. rewrite (cnt_perm b _ (Some b :: l1 ++ l2)) by solve_Permutation.
  rewrite cnt_cons, decide_True by done. pose proof (cnt_bounds b (l1 ++ l2)). lia.
Qed.
Lemma in_cnt b refs : 0 < cnt b refs -> Some b ∈ refs.
Proof.
  unfold cnt, Zlen. intros H. destruct (filter _ refs) as [|x r] eqn:E; [cbn in H; lia|].
  assert (x ∈ filter (fun o => o = Some b) refs) as [-> ?]%list_elem_of_filter; [|done].
  rewrite E. apply list_elem_of_here.
Qed.

Lemma refs_ok_perm s refs refs' : refs ≡ₚ refs' -> refs_ok s refs -> refs_ok s refs'.
Proof. intros Hp H b. specialize (H b). by rewrite <- (cnt_perm b _ _ Hp). Qed.

Lemma refs_ok_none s refs : refs_ok s (None :: refs) <-> refs_ok s refs.
Proof.
  assert (forall b, cnt b (None :: refs) = cnt b refs) as E by (intros; by rewrite cnt_cons).
  split; intros H b; specialize (H b); by rewrite E in *.
Qed.

Lemma refs_ok_live s refs b : refs_ok s refs -> Some b ∈ refs -> is_Some (s !! b).
Proof.
  intros H Hb%cnt_in. specialize (H b). destruct (s !! b); [eauto | lia].
Qed.

Lemma refs_ok_alloc s refs buf :
  refs_ok s refs ->
  let '(b, s') := mbuf_alloc_buf s buf in
  s !! b = None /\ s' !! b = Some (Mb buf 1 0) /\ refs_ok s' (Some b :: refs) /\
  forall c, Some c ∈ refs -> contents s' c = contents s c.
Proof.
  intros H. unfold mbuf_alloc_buf. set (b := fresh (dom s)).
  assert (s !! b = None) as Hb by (apply not_elem_of_dom; apply is_fresh).
  split_and!; [done | by rewrite lookup_insert_eq | |].
  - intros c. rewrite cnt_cons. pose proof (H b) as Hcb. rewrite Hb in Hcb.
    destruct (decide (b = c)) as [<-|Hne].
    + rewrite lookup_insert_eq, decide_True by done. cbn. lia.
    + rewrite lookup_insert_ne, decide_False by congruence. apply H.
  - intros c Hc. unfold contents. rewrite lookup_insert_ne; [done|].
    intros <-. destruct (refs_ok_live _ _ _ H Hc). congruence.
Qed.

Lemma refs_ok_free s o refs :
  refs_ok s (o :: refs) -> Zlen refs < 2147483647 ->
  exists s', mbuf_free_buf s o = Ok s' /\ refs_ok s' refs /\
    forall c, Some c ∈ refs -> contents s' c = contents s c.
Proof.
  intros H Hlen. destruct o as [b|]; cbn [mbuf_free_buf].
  2:{ exists s. by rewrite refs_ok_none in H. }
  pose proof (H b) as Hb. rewrite cnt_cons, decide_True in Hb by done.
  pose proof (cnt_bounds b refs). destruct (s !! b) as [m|] eqn:Em; [|lia].
  cbn [from_opt mbind result_bind]. destruct Hb as [Hr _]. rewrite Hr.
  rewrite i32_id by (unfold is_i32; lia).
  assert (forall c, b <> c -> cnt c (Some b :: refs) = cnt c refs) as Hne.
  { intros c Hc. rewrite cnt_cons, decide_False by congruence. done. }
  destruct (_ <=? 0) eqn:E; bool_simp; eexists; (split; [done|]); split.
  - intros c. destruct (decide (b = c)) as [<-|Hc]; [rewrite lookup_delete_eq; lia|].
    rewrite lookup_delete_ne, <- Hne by done. apply H.
  - intros c Hc. unfold contents. rewrite lookup_delete_ne; [done|].
    intros <-. pose proof (cnt_in b refs Hc). lia.
  - intros c. destruct (decide (b = c)) as [<-|Hc]; [rewrite lookup_insert_eq; cbn; lia|].
    rewrite lookup_insert_ne, <- Hne by done. apply H.
  - intros c Hc. unfold contents. destruct (decide (b = c)) as [<-|].
    + by rewrite lookup_insert_eq, Em.
    + by rewrite lookup_insert_ne.
Qed.

Lemma refs_ok_ref s b refs :
  refs_ok s refs -> Some b ∈ refs -> Zlen refs < 2147483647 ->
  exists s', mbuf_ref s (Some b) = Ok s' /\ refs_ok s' (Some b :: refs) /\
    forall c, contents s' c = contents s c.
Proof.
  intros H Hb Hlen. pose proof (H b) as Hcb. destruct (refs_ok_live _ _ _ H Hb) as [m Em].
  rewrite Em in Hcb. pose proof (cnt_bounds b refs). unfold mbuf_ref. cbn [from_opt mbind result_bind].
  rewrite Em. cbn [from_opt mbind result_bind]. rewrite i32_id by (unfold is_i32; lia).
  eexists. split; [done|]. split.
  - intros c. rewrite cnt_cons. destruct (decide (b = c)) as [<-|Hne].
    + rewrite lookup_insert_eq, decide_True by done. cbn. lia.
    + rewrite lookup_insert_ne, decide_False by congruence. apply H.
  - intros c. unfold contents. destruct (decide (b = c)) as [<-|].
    + by rewrite lookup_insert_eq, Em.
    + by rewrite lookup_insert_ne.
Qed.

(** ** The abstract queue

    A packet waiting for a client, or the hole left by a client that went away. *)

Abbreviation packet := (positive * list byte * Z)%type.
Abbreviation queue := (list (option packet)).

Fixpoint spec_pop (q : queue) : option (packet * queue) :=
  match q with
  | [] => None
  | Some x :: r => Some (x, r)
  | None :: r => spec_pop r
  end.

(** A full queue drops its oldest waiting packet; it has no answer when it is full
    of holes. *)
Definition spec_add (cap : Z) (q : queue) (x : packet) : result queue :=
  if Zlen q =? cap then
    match spec_pop q with
    | Some (_, q') => Ok (q' ++ [Some x])
    | None => AssertFail
    end
  else Ok (q ++ [Some x]).

Definition spec_deref (q : queue) (mi : positive) : queue :=
  map (fun o => match o with
                | Some (i, bs, fl) => if bool_decide (i = mi) then None else Some (i, bs, fl)
                | None => None
                end) q.

Fixpoint spec_bcast (cap : Z) (deferred : positive -> option Z) (limit : Z) (q : queue) (buf : list byte)
    (clients : list (positive * bool)) (omit : option positive) : result queue :=
  match clients with
  | [] => Ok q
  | (mi, halt) :: r =>
      q ← (if bool_decide (Some mi <> omit) && negb halt && multi_output_queue_ready deferred limit mi
           then spec_add cap q (mi, buf, 0) else Ok q);
      spec_bcast cap deferred limit q buf r omit
  end.

Definition item_abs (s : store) (x : mbuf_item) : option packet :=
  match it_instance x, it_buffer x with
  | Some mi, Some b => (fun c => (mi, c.1, c.2)) <$> contents s b
  | _, _ => None
  end.

(** Dereferenced items have neither instance nor buffer. *)
Definition item_ok (x : mbuf_item) : Prop := it_instance x = None <-> it_buffer x = None.

(** The state holds the items [l], with the references [held] outside the queue. *)
Record mbuf_ok (cap : Z) (st : mst) (l : list mbuf_item) (held : list positive) : Prop := {
  mo_ring : ring_rep (st_set st) l;
  mo_cap : ms_capacity (st_set st) = cap;
  mo_refs : refs_ok (st_bufs st) (map Some held ++ map it_buffer l);
  mo_items : Forall item_ok l
}.

Definition abs_queue (st : mst) (l : list mbuf_item) : queue := map (item_abs (st_bufs st)) l.

Lemma item_abs_ext s s' l :
  (forall c, Some c ∈ map it_buffer l -> contents s' c = contents s c) ->
  map (item_abs s') l = map (item_abs s) l.
Proof.
  intros H. apply map_ext_in. intros x Hx%list_elem_of_In. unfold item_abs.
  destruct (it_instance x); [|done]. destruct (it_buffer x) as [b|] eqn:E; [|done].
  rewrite H; [done|]. rewrite <- E. by apply (list_elem_of_fmap_2 it_buffer).
Qed.

(** Dereferenced items hold no references. *)
Lemma refs_ok_skip s h pre k :
  Forall item_ok pre -> Forall (fun y => it_instance y = None) pre ->
  refs_ok s (h ++ map it_buffer (pre ++ k)) -> refs_ok s (h ++ map it_buffer k).
Proof.
  intros Hok Hn. revert Hok. induction Hn as [|y pre Hy Hn IH]; intros Hok H; [done|].
  pose proof (Forall_inv Hok) as Hoy. apply Forall_inv_tail in Hok. apply IH; [done|].
  apply (proj1 (refs_ok_none _ _)). eapply refs_ok_perm; [|exact H]. cbn [app map].
  destruct Hoy as [-> _]; [|done]. symmetry. apply Permutation_middle.
Qed.

Definition buffers_live (s : store) (l : list mbuf_item) : Prop :=
  Forall (fun x => item_ok x /\ forall b, it_buffer x = Some b -> is_Some (contents s b)) l.

Lemma mbuf_ok_live cap st l held : mbuf_ok cap st l held -> buffers_live (st_bufs st) l.
Proof.
  intros [_ _ Hr Hi]. apply list.Forall_forall. intros x Hx.
  split; [by apply (proj1 (list.Forall_forall _ _) Hi)|].
  intros b Hb. unfold contents. apply fmap_is_Some. eapply refs_ok_live; [exact Hr|].
  apply elem_of_app. right. rewrite <- Hb. by apply (list_elem_of_fmap_2 it_buffer).
Qed.

Lemma pop_abs s l :
  buffers_live s l ->
  match pop_live l with
  | Some (x, r) => exists mi b c, x = Item (Some b) (Some mi) /\ contents s b = Some c /\
                     spec_pop (map (item_abs s) l) = Some ((mi, c.1, c.2), map (item_abs s) r)
  | None => spec_pop (map (item_abs s) l) = None
  end.
Proof.
  induction 1 as [|x l [Hok Hl] _ IH]; cbn [pop_live map spec_pop]; [done|].
  unfold item_abs at 1. destruct x as [[b|] [mi|]]; cbn [it_instance it_buffer] in *;
    unfold item_ok in Hok; cbn in Hok; [| naive_solver.. | exact IH].
  destruct (Hl b eq_refl) as [c Hc]. rewrite Hc. cbn. exists mi, b, c. rewrite Hc. done.
Qed.

(** The references left when the first live item is taken out. *)
Lemma pop_refs s held l x r :
  Forall item_ok l -> refs_ok s (map Some held ++ map it_buffer l) -> pop_live l = Some (x, r) ->
  refs_ok s (it_buffer x :: map Some held ++ map it_buffer r) /\ Forall item_ok r.
Proof.
  intros Hi Hr (pre & -> & Hn & _)%pop_live_suffix.
  apply Forall_app in Hi as [Hi1 Hi2]. apply Forall_inv_tail in Hi2. split; [|done].
  apply refs_ok_skip in Hr; [|done..]. eapply refs_ok_perm; [|exact Hr].
  cbn [map]. symmetry. apply Permutation_middle.
Qed.

Lemma refs_bound cap st l held :
  mbuf_ok cap st l held -> Zlen held <= 1 ->
  Zlen (map Some held ++ map it_buffer l) <= 1073741825 /\ 0 < cap.
Proof.
  intros [[(k & Hk & Ek) _ _ _ Hf _] Hc _ _] Hh. pose proof (cap_range k Hk).
  unfold Zlen in *. rewrite length_app, !length_map. lia.
Qed.

Lemma pop_shorter l x r : pop_live l = Some (x, r) -> Zlen r < Zlen l.
Proof.
  intros (pre & -> & _)%pop_live_suffix. rewrite Zlen_app, Zlen_cons.
  pose proof (Zlen_nonneg pre). lia.
Qed.

(** Taking out the first live item and dropping its reference. *)
Lemma pop_free_ok cap st l held x r :
  mbuf_ok cap st l held -> Zlen held <= 1 -> pop_live l = Some (x, r) ->
  exists ms s, mbuf_extract_item (st_set st) = Ok (Some x, ms) /\
    mbuf_free_buf (st_bufs st) (it_buffer x) = Ok s /\ mbuf_ok cap (Mst s ms) r held /\
    map (item_abs s) r = map (item_abs (st_bufs st)) r /\
    forall b, b ∈ held -> contents s b = contents (st_bufs st) b.
Proof.
  intros H Hh Hp. pose proof (refs_bound _ _ _ _ H Hh) as [Hb _]. pose proof H as [Hr Hc Hrefs Hi].
  destruct (mbuf_extract_ok _ l Hr) as (ms & E & Hr' & Hc'). rewrite Hp in E, Hr'.
  destruct (pop_refs _ _ _ _ _ Hi Hrefs Hp) as [Hrefs' Hi'].
  pose proof (pop_shorter _ _ _ Hp) as Hs.
  destruct (refs_ok_free _ _ _ Hrefs') as (s & Ef & Hs' & Hcont).
  { unfold Zlen in *. rewrite length_app, !length_map in *. lia. }
  exists ms, s. split_and!; [done | done | split; cbn; [done | by rewrite Hc' | done | done] | |].
  - apply item_abs_ext. intros c Hc0. apply Hcont. apply elem_of_app. by right.
  - intros b Hb0. apply Hcont. apply elem_of_app. left. by apply (list_elem_of_fmap_2 Some).
Qed.

(** The capacity counts the holes too. *)
Lemma mbuf_make_room_ok cap st l held :
  mbuf_ok cap st l held -> Zlen held <= 1 ->
  if Zlen l =? cap then
    match pop_live l with
    | Some (x, r) => exists s ms, mbuf_make_room (st_bufs st) (st_set st) = Ok (s, ms) /\
        mbuf_ok cap (Mst s ms) r held /\ Zlen r < cap /\
        map (item_abs s) r = map (item_abs (st_bufs st)) r /\
        forall b, b ∈ held -> contents s b = contents (st_bufs st) b
    | None => mbuf_make_room (st_bufs st) (st_set st) = AssertFail
    end
  else mbuf_make_room (st_bufs st) (st_set st) = Ok (st_bufs st, st_set st) /\ Zlen l < cap.
Proof.
  intros H Hh. pose proof H as [Hr Hc _ _]. unfold mbuf_make_room. rewrite (rr_len _ _ Hr), Hc.
  pose proof (rr_fits _ _ Hr) as Hf. destruct (Zlen l =? cap) eqn:E; bool_simp; [|split; [done|lia]].
  destruct (pop_live l) as [[x r]|] eqn:Ep.
  - destruct (pop_free_ok _ _ _ _ _ _ H Hh Ep) as (ms & s & -> & E2 & H' & Ha & Hcont).
    exists s, ms. cbn [mbind result_bind]. rewrite E2. pose proof (pop_shorter _ _ _ Ep).
    split_and!; [done | done | lia | done | done].
  - destruct (mbuf_extract_ok _ l Hr) as (ms & E1 & _). rewrite Ep in E1. by rewrite E1.
Qed.

(** ** Adding a packet *)

Lemma mbuf_push_ok cap s ms l held b mi bs fl :
  mbuf_ok cap (Mst s ms) l held -> Zlen held <= 1 -> Zlen l < cap ->
  b ∈ held -> contents s b = Some (bs, fl) ->
  exists s' ms', mbuf_append s ms (Item (Some b) (Some mi)) = Ok (s', ms') /\
    mbuf_ok cap (Mst s' ms') (l ++ [Item (Some b) (Some mi)]) held /\
    abs_queue (Mst s' ms') (l ++ [Item (Some b) (Some mi)]) = abs_queue (Mst s ms) l ++ [Some (mi, bs, fl)] /\
    forall c, contents s' c = contents s c.
Proof.
  intros H Hh Hl Hb Hbc. pose proof (refs_bound _ _ _ _ H Hh) as [Hbd _]. destruct H as [Hr Hc Hrefs Hi].
  cbn [st_set st_bufs] in *. rewrite <- Hc in Hl. unfold mbuf_append.
  assert (assert_ (ms_len ms <? ms_capacity ms) = Ok tt) as ->
    by (rewrite (rr_len _ _ Hr), (proj2 (Z.ltb_lt (Zlen l) (ms_capacity ms))) by lia; done).
  cbn [mbind result_bind it_buffer].
  destruct (ring_push ms l (Item (Some b) (Some mi))
              (if u32 (ms_len ms + 1) >? max_queued ms then u32 (ms_len ms + 1) else max_queued ms) Hr Hl)
    as (a & -> & Hr').
  destruct (refs_ok_ref s b _ Hrefs) as (s' & Es & Hrefs' & Hcont);
    [apply elem_of_app; left; by apply (list_elem_of_fmap_2 Some) | lia |].
  eexists s', _. cbn [mbind result_bind]. rewrite Es. split; [done|]. split_and!; [split| |done].
  - exact Hr'.
  - done.
  - eapply refs_ok_perm; [|exact Hrefs']. cbn [st_bufs]. rewrite map_app. cbn [map it_buffer]. solve_Permutation.
  - apply Forall_app. split; [done|]. constructor; [done | constructor].
  - unfold abs_queue. cbn [st_bufs]. rewrite map_app.
    f_equal; [apply item_abs_ext; auto|]. cbn. unfold item_abs. cbn. by rewrite Hcont, Hbc.
Qed.

Lemma mbuf_add_ok cap st l held b mi bs fl :
  mbuf_ok cap st l held -> Zlen held <= 1 -> b ∈ held -> contents (st_bufs st) b = Some (bs, fl) ->
  match spec_add cap (abs_queue st l) (mi, bs, fl) with
  | Ok q' => exists s ms l', mbuf_add_item (st_bufs st) (st_set st) (Item (Some b) (Some mi)) = Ok (s, ms) /\
      mbuf_ok cap (Mst s ms) l' held /\ abs_queue (Mst s ms) l' = q' /\
      contents s b = contents (st_bufs st) b
  | AssertFail => mbuf_add_item (st_bufs st) (st_set st) (Item (Some b) (Some mi)) = AssertFail
  | Fault => False
  end.
Proof.
  intros H Hh Hb Hbc. pose proof (mbuf_make_room_ok _ _ _ _ H Hh) as Hm.
  pose proof (pop_abs _ _ (mbuf_ok_live _ _ _ _ H)) as Hp.
  unfold spec_add, mbuf_add_item, abs_queue in *. unfold Zlen in Hm |- *. rewrite length_map.
  destruct (Z.of_nat (length l) =? cap) eqn:E.
  - destruct (pop_live l) as [[x r]|]; [|by rewrite Hm, Hp].
    destruct Hm as (s & ms & -> & H' & Hl' & Ha & Hcont).
    destruct Hp as (mi' & b' & c & _ & _ & ->). cbn [mbind result_bind].
    cbn [fst snd].
    destruct (mbuf_push_ok cap s ms r held b mi bs fl H' Hh Hl' Hb) as (s' & ms' & -> & H'' & Ha' & Hcont').
    { by rewrite Hcont. }
    exists s', ms', (r ++ [Item (Some b) (Some mi)]). split_and!; [done | done | | by rewrite Hcont', Hcont].
    unfold abs_queue in Ha'. rewrite Ha'. cbn [st_bufs]. by rewrite Ha.
  - destruct Hm as [-> Hl]. cbn [mbind result_bind]. destruct st as [s ms]. cbn [st_bufs st_set] in *.
    cbn [fst snd].
    destruct (mbuf_push_ok cap s ms l held b mi bs fl H Hh Hl Hb Hbc) as (s' & ms' & -> & H'' & Ha' & Hcont').
    exists s', ms', (l ++ [Item (Some b) (Some mi)]). split_and!; [done | done | exact Ha' | by rewrite Hcont'].
Qed.

(** ** Dropping the packets of a client that goes away *)

Definition deref_item (mi : positive) (x : mbuf_item) : mbuf_item :=
  if bool_decide (it_instance x = Some mi) then Item None None else x.

(** One item dereferenced, its reference dropped. *)
Lemma deref_one cap s ms pre x suf :
  mbuf_ok cap (Mst s ms) (pre ++ x :: suf) [] ->
  exists s' a, mbuf_free_buf s (it_buffer x) = Ok s' /\
    aset (ms_array ms) (MBUF_INDEX (ms_head ms) (Zlen pre) (ms_capacity ms)) (Item None None) = Ok a /\
    mbuf_ok cap (Mst s' (Ms (ms_head ms) (ms_len ms) (ms_capacity ms) (max_queued ms) a))
            (pre ++ Item None None :: suf) [] /\
    map (item_abs s') pre = map (item_abs s) pre /\ map (item_abs s') suf = map (item_abs s) suf.
Proof.
  intros H. pose proof (refs_bound _ _ _ _ H ltac:(done)) as [Hbd _]. destruct H as [Hr Hc Hrefs Hi].
  cbn [st_set st_bufs] in *.
  assert (refs_ok s (it_buffer x :: map it_buffer (pre ++ suf))) as Hrefs'.
  { eapply refs_ok_perm; [|exact Hrefs]. rewrite !map_app. cbn [map app]. solve_Permutation. }
  destruct (refs_ok_free _ _ _ Hrefs') as (s' & Ef & Hs' & Hcont).
  { unfold Zlen in *. rewrite !length_app, !length_map, !length_app in *. cbn in *. lia. }
  destruct (ring_set ms (pre ++ x :: suf) (length pre) (Item None None) Hr) as (a & Ea & Hr').
  { rewrite length_app. cbn. lia. }
  rewrite insert_app_r_alt, Nat.sub_diag in Hr' by lia. cbn in Hr'.
  exists s', a. split; [done|]. split; [exact Ea|].
  apply Forall_app in Hi as [Hi1 Hi2]. apply Forall_inv_tail in Hi2. split; [split; cbn|split].
  - exact Hr'.
  - done.
  - apply refs_ok_none in Hs'. eapply refs_ok_perm; [|exact Hs']. rewrite !map_app. cbn [map it_buffer]. solve_Permutation.
  - apply Forall_app. split; [done|]. by constructor.
  - apply item_abs_ext. intros c Hx. apply Hcont. rewrite map_app. apply elem_of_app. by left.
  - apply item_abs_ext. intros c Hx. apply Hcont. rewrite map_app. apply elem_of_app. by right.
Qed.

Lemma dereference_loop_ok cap mi suf : forall pre s ms,
  mbuf_ok cap (Mst s ms) (pre ++ suf) [] ->
  exists s' ms', dereference_loop (length suf) (Zlen pre) s ms mi = Ok (s', ms') /\
    mbuf_ok cap (Mst s' ms') (pre ++ map (deref_item mi) suf) [] /\
    map (item_abs s') pre = map (item_abs s) pre /\
    map (item_abs s') (map (deref_item mi) suf) = spec_deref (map (item_abs s) suf) mi.
Proof.
  induction suf as [|x suf IH]; intros pre s ms H; cbn [length dereference_loop].
  { by exists s, ms. }
  pose proof (mbuf_ok_live _ _ _ _ H) as Hlive. cbn [st_bufs] in Hlive.
  assert (aget (ms_array ms) (MBUF_INDEX (ms_head ms) (Zlen pre) (ms_capacity ms)) = Ok x) as ->.
  { apply (ring_get ms (pre ++ x :: suf) (length pre)); [apply H | by apply list_lookup_middle]. }
  cbn [mbind result_bind].
  replace (Zlen pre + 1) with (Zlen (pre ++ [deref_item mi x])) by (rewrite Zlen_app, Zlen_cons, Zlen_nil; lia).
  assert (forall s' ms', mbuf_ok cap (Mst s' ms') (pre ++ deref_item mi x :: suf) [] ->
    map (item_abs s') pre = map (item_abs s) pre -> map (item_abs s') suf = map (item_abs s) suf ->
    item_abs s' (deref_item mi x) =
      match item_abs s x with Some (i, bs, fl) => if bool_decide (i = mi) then None else Some (i, bs, fl) | None => None end ->
    exists s2 ms2, dereference_loop (length suf) (Zlen (pre ++ [deref_item mi x])) s' ms' mi = Ok (s2, ms2) /\
      mbuf_ok cap (Mst s2 ms2) (pre ++ map (deref_item mi) (x :: suf)) [] /\
      map (item_abs s2) pre = map (item_abs s) pre /\
      map (item_abs s2) (map (deref_item mi) (x :: suf)) = spec_deref (map (item_abs s) (x :: suf)) mi) as Hgo.
  { intros s' ms' H' E1 E2 E3.
    destruct (IH (pre ++ [deref_item mi x]) s' ms') as (s2 & ms2 & E & Ho & Ep & Es); [by rewrite <- app_assoc|].
    exists s2, ms2. rewrite <- app_assoc in Ho. rewrite !map_app in Ep. apply app_inj_2 in Ep as [Ep Ex]; [|done].
    split_and!; [done | done | congruence |]. cbn [map spec_deref]. injection Ex as Ex. rewrite Ex, Es, E2, E3. done. }
  unfold deref_item in *. destruct (bool_decide (it_instance x = Some mi)) eqn:Ei.
  - destruct (deref_one _ _ _ _ _ _ H) as (s' & a & -> & Ea & H' & E1 & E2). cbn [mbind result_bind].
    rewrite Ea. cbn [mbind result_bind]. apply Hgo; [done..|].
    apply bool_decide_eq_true in Ei. unfold item_abs. rewrite Ei. cbn.
    destruct (it_buffer x) as [b|]; [|done]. destruct (contents s b) as [c|]; [|done]. cbn.
    by rewrite bool_decide_true.
  - apply Hgo; [done..|]. apply bool_decide_eq_false in Ei. unfold item_abs.
    destruct (it_instance x) as [i|]; [|done]. destruct (it_buffer x) as [b|]; [|done].
    destruct (contents s b) as [c|]; [|done]. cbn. rewrite bool_decide_false by congruence. done.
Qed.

(** ** Peeking and freeing *)

Lemma peek_loop_ok ms suf : forall pre,
  ring_rep ms (pre ++ suf) ->
  peek_loop (length suf) (Zlen pre) ms = Ok (x ← fst <$> pop_live suf; it_instance x).
Proof.
  induction suf as [|x suf IH]; intros pre H; cbn [length peek_loop pop_live]; [done|].
  assert (aget (ms_array ms) (MBUF_INDEX (ms_head ms) (Zlen pre) (ms_capacity ms)) = Ok x) as ->.
  { apply (ring_get ms (pre ++ x :: suf) (length pre)); [apply H | by apply list_lookup_middle]. }
  cbn [mbind result_bind]. destruct (it_instance x) eqn:E; [cbn; by rewrite E|].
  replace (Zlen pre + 1) with (Zlen (pre ++ [x])) by (rewrite Zlen_app, Zlen_cons, Zlen_nil; lia).
  apply IH. by rewrite <- app_assoc.
Qed.

Lemma free_loop_ok ms suf : forall pre s,
  ring_rep ms (pre ++ suf) -> refs_ok s (map it_buffer suf) ->
  free_loop (length suf) (Zlen pre) s ms = Ok ∅.
Proof.
  induction suf as [|x suf IH]; intros pre s H Hs; cbn [length free_loop map] in *.
  { f_equal. apply map_eq. intros b. specialize (Hs b). rewrite lookup_empty.
    destruct (s !! b); [|done]. unfold cnt in Hs. cbn in Hs. destruct Hs as [_ Hs]. done. }
  assert (aget (ms_array ms) (MBUF_INDEX (ms_head ms) (Zlen pre) (ms_capacity ms)) = Ok x) as ->.
  { apply (ring_get ms (pre ++ x :: suf) (length pre)); [apply H | by apply list_lookup_middle]. }
  cbn [mbind result_bind].
  destruct (refs_ok_free _ _ _ Hs) as (s' & -> & Hs' & _).
  { destruct H as [(k & Hk & Ek) _ _ _ Hf _]. pose proof (cap_range k Hk).
    unfold Zlen in *. rewrite length_map. rewrite length_app in Hf. cbn [length] in Hf. lia. }
  cbn [mbind result_bind].
  replace (Zlen pre + 1) with (Zlen (pre ++ [x])) by (rewrite Zlen_app, Zlen_cons, Zlen_nil; lia).
  apply IH; [by rewrite <- app_assoc | done].
Qed.

(** ** The server's operations, concretely and on the abstract queue *)

Inductive mbuf_op :=
| OpUnicast (buf : list byte) (mi : positive)
| OpBcast (buf : list byte) (clients : list (positive * bool)) (omit : option positive)
| OpGet
| OpPeek
| OpClose (mi : positive).

Inductive mbuf_out :=
| OutNone
| OutPacket (p : option packet)
| OutPeek (mi : option positive).

Section Server.
Context (deferred : positive -> option Z) (limit : Z) (cap : Z).
#[local] Set Default Proof Using "Type*".

Definition mbuf_do (st : mst) (op : mbuf_op) : result (mbuf_out * mst) :=
  match op with
  | OpUnicast buf mi => st ← multi_unicast deferred limit st buf mi; Ok (OutNone, st)
  | OpBcast buf clients omit => st ← multi_bcast deferred limit st buf clients omit; Ok (OutNone, st)
  | OpGet => r ← multi_get_queue st; Ok (OutPacket (r : option packet * mst).1, r.2)
  | OpPeek => r ← mbuf_peek (st_set st); Ok (OutPeek r, st)
  | OpClose mi =>
      r ← mbuf_dereference_instance (st_bufs st) (st_set st) mi;
      Ok (OutNone, Mst (r : store * mbuf_set).1 r.2)
  end.

Definition spec_do (q : queue) (op : mbuf_op) : result (mbuf_out * queue) :=
  match op with
  | OpUnicast buf mi =>
      q ← (if (Zlen buf >? 0) && multi_output_queue_ready deferred limit mi
           then spec_add cap q (mi, buf, MF_UNICAST) else Ok q);
      Ok (OutNone, q)
  | OpBcast buf clients omit =>
      q ← (if Zlen buf >? 0 then spec_bcast cap deferred limit q buf clients omit else Ok q);
      Ok (OutNone, q)
  | OpGet => Ok (OutPacket (fst <$> spec_pop q), match spec_pop q with Some (_, q') => q' | None => [] end)
  | OpPeek => Ok (OutPeek ((fun x => x.1.1.1) <$> spec_pop q), q)
  | OpClose mi => Ok (OutNone, spec_deref q mi)
  end.

Fixpoint mbuf_run (st : mst) (ops : list mbuf_op) : result (list mbuf_out * mst) :=
  match ops with
  | [] => Ok ([], st)
  | op :: r =>
      x ← mbuf_do st op;
      y ← mbuf_run (x : mbuf_out * mst).2 r;
      Ok (x.1 :: (y : list mbuf_out * mst).1, y.2)
  end.
Fixpoint spec_run (q : queue) (ops : list mbuf_op) : result (list mbuf_out * queue) :=
  match ops with
  | [] => Ok ([], q)
  | op :: r =>
      x ← spec_do q op;
      y ← spec_run (x : mbuf_out * queue).2 r;
      Ok (x.1 :: (y : list mbuf_out * queue).1, y.2)
  end.

Lemma alloc_ok st l buf b s :
  mbuf_ok cap st l [] -> mbuf_alloc_buf (st_bufs st) buf = (b, s) ->
  mbuf_ok cap (Mst s (st_set st)) l [b] /\ s !! b = Some (Mb buf 1 0) /\
  abs_queue (Mst s (st_set st)) l = abs_queue st l.
Proof.
  intros [Hr Hc Hrefs Hi] E. pose proof (refs_ok_alloc _ _ buf Hrefs) as H. rewrite E in H.
  destruct H as (_ & Hb & Hrefs' & Hcont). split; [by split|]. split; [done|].
  unfold abs_queue. cbn [st_bufs]. by apply item_abs_ext.
Qed.

(** The creator's reference is dropped after the packet was queued. *)
Lemma drop_ok st l b :
  mbuf_ok cap st l [b] ->
  exists s, mbuf_free_buf (st_bufs st) (Some b) = Ok s /\ mbuf_ok cap (Mst s (st_set st)) l [] /\
            abs_queue (Mst s (st_set st)) l = abs_queue st l.
Proof.
  intros H. pose proof (refs_bound _ _ _ _ H ltac:(done)) as [Hb _]. destruct H as [Hr Hc Hrefs Hi].
  cbn [map app] in *. destruct (refs_ok_free _ _ _ Hrefs) as (s & E & Hs & Hcont).
  { rewrite Zlen_cons in Hb. lia. }
  exists s. split; [done|]. split; [by split|]. unfold abs_queue. cbn [st_bufs]. by apply item_abs_ext.
Qed.

Lemma multi_add_ok st l b mi bs fl :
  mbuf_ok cap st l [b] -> contents (st_bufs st) b = Some (bs, fl) ->
  match (if multi_output_queue_ready deferred limit mi then spec_add cap (abs_queue st l) (mi, bs, fl)
         else Ok (abs_queue st l)) with
  | Ok q' => exists st' l', multi_add_mbuf deferred limit st mi b = Ok st' /\
      mbuf_ok cap st' l' [b] /\ abs_queue st' l' = q' /\ contents (st_bufs st') b = Some (bs, fl)
  | AssertFail => multi_add_mbuf deferred limit st mi b = AssertFail
  | Fault => False
  end.
Proof.
  intros H Hb. unfold multi_add_mbuf. destruct (multi_output_queue_ready _ _ _); [|by exists st, l].
  pose proof (mbuf_add_ok cap st l [b] b mi bs fl H ltac:(done) ltac:(left) Hb) as Ha.
  destruct (spec_add _ _ _); [|by rewrite Ha | done].
  destruct Ha as (s & ms & l' & -> & H' & <- & Hc). exists (Mst s ms), l'.
  split_and!; [done | done | done |]. cbn [st_bufs]. by rewrite Hc.
Qed.

Lemma unicast_ok st l buf mi :
  mbuf_ok cap st l [] ->
  match spec_do (abs_queue st l) (OpUnicast buf mi) with
  | Ok (_, q') => exists st' l', multi_unicast deferred limit st buf mi = Ok st' /\
      mbuf_ok cap st' l' [] /\ abs_queue st' l' = q'
  | AssertFail => multi_unicast deferred limit st buf mi = AssertFail
  | Fault => False
  end.
Proof.
  intros H. cbn [spec_do]. unfold multi_unicast. destruct (Zlen buf >? 0); cbn [andb]; [|by exists st, l].
  destruct (mbuf_alloc_buf (st_bufs st) buf) as [b s] eqn:E.
  destruct (alloc_ok st l buf b s H E) as (H1 & Hb & Ha).
  rewrite Hb. cbn [from_opt mbind result_bind mb_buf refcount].
  set (s1 := <[b := Mb buf 1 MF_UNICAST]> s).
  assert (mbuf_ok cap (Mst s1 (st_set st)) l [b]) as H2.
  { destruct H1 as [? ? Hrefs ?]. split; [done..| |done]. intros c. specialize (Hrefs c).
    cbn [st_bufs] in *. unfold s1. destruct (decide (b = c)) as [<-|].
    - rewrite lookup_insert_eq. by rewrite Hb in Hrefs.
    - by rewrite lookup_insert_ne. }
  assert (abs_queue (Mst s1 (st_set st)) l = abs_queue st l) as Ha1.
  { destruct H as [_ _ Hrefs _]. pose proof (refs_ok_alloc _ _ buf Hrefs) as Hal. rewrite E in Hal.
    destruct Hal as (Hfresh & _). rewrite <- Ha. unfold abs_queue. cbn [st_bufs]. apply item_abs_ext. intros c Hc. unfold contents, s1.
    rewrite lookup_insert_ne; [done|]. intros <-. destruct (refs_ok_live _ _ _ Hrefs Hc). congruence. }
  pose proof (multi_add_ok (Mst s1 (st_set st)) l b mi buf MF_UNICAST H2) as Hadd.
  unfold contents in Hadd at 1. cbn [st_bufs] in Hadd. unfold s1 in Hadd at 1.
  rewrite lookup_insert_eq in Hadd. specialize (Hadd eq_refl). rewrite Ha1 in Hadd.
  destruct (if multi_output_queue_ready _ _ _ then _ else _); cbn [mbind result_bind];
    [|by rewrite Hadd | done].
  destruct Hadd as (st' & l' & -> & H3 & <- & _). cbn [mbind result_bind].
  destruct (drop_ok st' l' b H3) as (s2 & -> & H4 & Ha4). cbn [mbind result_bind]. eauto.
Qed.

Lemma bcast_loop_ok clients omit b buf : forall st l,
  mbuf_ok cap st l [b] -> contents (st_bufs st) b = Some (buf, 0) ->
  match spec_bcast cap deferred limit (abs_queue st l) buf clients omit with
  | Ok q' => exists st' l', bcast_loop deferred limit st clients omit b = Ok st' /\
      mbuf_ok cap st' l' [b] /\ abs_queue st' l' = q'
  | AssertFail => bcast_loop deferred limit st clients omit b = AssertFail
  | Fault => False
  end.
Proof.
  induction clients as [|[mi halt] r IH]; intros st l H Hb; cbn [spec_bcast bcast_loop]; [by exists st, l|].
  destruct (bool_decide (Some mi <> omit) && negb halt); cbn [andb mbind result_bind]; [|by apply IH].
  pose proof (multi_add_ok st l b mi buf 0 H Hb) as Ha.
  destruct (if multi_output_queue_ready _ _ _ then _ else _); cbn [mbind result_bind]; [|by rewrite Ha | done].
  destruct Ha as (st' & l' & -> & H' & <- & Hb'). cbn [mbind result_bind]. by apply IH.
Qed.

Lemma bcast_ok st l buf clients omit :
  mbuf_ok cap st l [] ->
  match spec_do (abs_queue st l) (OpBcast buf clients omit) with
  | Ok (_, q') => exists st' l', multi_bcast deferred limit st buf clients omit = Ok st' /\
      mbuf_ok cap st' l' [] /\ abs_queue st' l' = q'
  | AssertFail => multi_bcast deferred limit st buf clients omit = AssertFail
  | Fault => False
  end.
Proof.
  intros H. cbn [spec_do]. unfold multi_bcast. destruct (Zlen buf >? 0); [|by exists st, l].
  destruct (mbuf_alloc_buf (st_bufs st) buf) as [b s] eqn:E.
  destruct (alloc_ok st l buf b s H E) as (H1 & Hb & Ha).
  pose proof (bcast_loop_ok clients omit b buf (Mst s (st_set st)) l H1) as Hl.
  unfold contents in Hl. cbn [st_bufs] in Hl. rewrite Hb in Hl. specialize (Hl eq_refl). rewrite Ha in Hl.
  destruct (spec_bcast _ _ _ _ _ _ _); cbn [mbind result_bind]; [|by rewrite Hl | done].
  destruct Hl as (st' & l' & -> & H3 & <-). cbn [mbind result_bind].
  destruct (drop_ok st' l' b H3) as (s2 & -> & H4 & Ha4). cbn [mbind result_bind]. eauto.
Qed.

Lemma get_ok st l :
  mbuf_ok cap st l [] ->
  exists st' l', multi_get_queue st = Ok (fst <$> spec_pop (abs_queue st l), st') /\ mbuf_ok cap st' l' [] /\
    abs_queue st' l' = match spec_pop (abs_queue st l) with Some (_, q') => q' | None => [] end.
Proof.
  intros H. pose proof (pop_abs _ _ (mbuf_ok_live _ _ _ _ H)) as Hp. unfold multi_get_queue, abs_queue in *.
  destruct (pop_live l) as [[x r]|] eqn:Ep.
  - destruct Hp as (mi & b & c & -> & Hc & ->).
    destruct (pop_free_ok _ _ _ _ _ _ H ltac:(done) Ep) as (ms & s & -> & Ef & H' & Ha & _).
    cbn [mbind result_bind from_opt it_instance it_buffer] in *.
    unfold contents in Hc. destruct (st_bufs st !! b) as [m|] eqn:Em; [|done]. injection Hc as <-.
    cbn [mbind result_bind from_opt]. rewrite Ef. cbn [mbind result_bind].
    exists (Mst s ms), r. done.
  - destruct (mbuf_extract_ok _ l (mo_ring _ _ _ _ H)) as (ms & -> & Hr & Hcap). rewrite Ep, Hp in *.
    cbn [mbind result_bind]. exists (Mst (st_bufs st) ms), []. split; [done|]. split; [|done].
    destruct H as [_ Hc Hrefs Hi]. split; cbn; [done | by rewrite Hcap | | constructor].
    apply pop_live_none in Ep. rewrite <- (app_nil_r l) in Hrefs. by apply (refs_ok_skip _ [] l []) in Hrefs.
Qed.

Lemma mbuf_do_ok st l op :
  mbuf_ok cap st l [] ->
  match spec_do (abs_queue st l) op with
  | Ok (out, q') => exists st' l', mbuf_do st op = Ok (out, st') /\ mbuf_ok cap st' l' [] /\ abs_queue st' l' = q'
  | AssertFail => mbuf_do st op = AssertFail
  | Fault => False
  end.
Proof.
  intros H. destruct op as [buf mi|buf clients omit| | |mi].
  - pose proof (unicast_ok st l buf mi H) as Hu. cbn [mbuf_do].
    destruct (spec_do _ _) as [[out q']| |] eqn:E; [|by rewrite Hu | done].
    destruct Hu as (st' & l' & -> & ? & ?). exists st', l'. split; [|done]. cbn.
    cbn [spec_do] in E. destruct (if _ && _ then _ else _); by simplify_eq/=.
  - pose proof (bcast_ok st l buf clients omit H) as Hu. cbn [mbuf_do].
    destruct (spec_do _ _) as [[out q']| |] eqn:E; [|by rewrite Hu | done].
    destruct Hu as (st' & l' & -> & ? & ?). exists st', l'. split; [|done]. cbn.
    cbn [spec_do] in E. destruct (if _ >? _ then _ else _); by simplify_eq/=.
  - destruct (get_ok st l H) as (st' & l' & E & ? & ?). cbn [spec_do mbuf_do]. exists st', l'. by rewrite E.
  - cbn [spec_do mbuf_do]. exists st, l. split; [|done].
    assert (mbuf_peek (st_set st) = Ok (x ← fst <$> pop_live l; it_instance x)) as ->.
    { unfold mbuf_peek. destruct H as [Hr _ _ _]. rewrite (rr_len _ _ Hr).
      destruct l as [|x l']; [done|].
      rewrite (proj2 (Z.eqb_neq (Zlen (x :: l')) 0))
        by (rewrite Zlen_cons; pose proof (Zlen_nonneg l'); lia).
      cbn [negb]. unfold Zlen. rewrite Nat2Z.id. by apply (peek_loop_ok _ (x :: l') []). }
    pose proof (pop_abs _ _ (mbuf_ok_live _ _ _ _ H)) as Hp. unfold abs_queue.
    destruct (pop_live l) as [[x r]|]; [|by rewrite Hp].
    by destruct Hp as (mi & b & c & -> & _ & ->).
  - cbn [spec_do mbuf_do]. unfold mbuf_dereference_instance. destruct st as [s ms]. cbn [st_bufs st_set].
    pose proof (rr_len _ _ (mo_ring _ _ _ _ H)) as El. cbn [st_set] in El. rewrite El. unfold Zlen. rewrite Nat2Z.id.
    destruct (dereference_loop_ok cap mi l [] s ms H) as (s' & ms' & E & H' & _ & Ha).
    change (Zlen []) with 0 in E. rewrite E.
    by exists (Mst s' ms'), (map (deref_item mi) l).
Qed.

Lemma mbuf_run_ok ops : forall st l,
  mbuf_ok cap st l [] ->
  match spec_run (abs_queue st l) ops with
  | Ok (outs, q') => exists st' l', mbuf_run st ops = Ok (outs, st') /\ mbuf_ok cap st' l' [] /\ abs_queue st' l' = q'
  | AssertFail => mbuf_run st ops = AssertFail
  | Fault => False
  end.
Proof.
  induction ops as [|op ops IH]; intros st l H; cbn [spec_run mbuf_run]; [by exists st, l|].
  pose proof (mbuf_do_ok st l op H) as Hd. destruct (spec_do _ _) as [[out q']| |]; cbn [mbind result_bind snd fst];
    [|by rewrite Hd | done].
  destruct Hd as (st' & l' & -> & H' & <-). cbn [mbind result_bind snd fst].
  specialize (IH st' l' H'). destruct (spec_run _ _) as [[outs q'']| |]; cbn [mbind result_bind snd fst];
    [|by rewrite IH | done].
  destruct IH as (st2 & l2 & -> & H2 & <-). by exists st2, l2.
Qed.
End Server.

(** ** The properties of the queue *)

Lemma mbuf_init_ok garbage size :
  0 < size <= 2 ^ 30 ->
  exists k ms, 0 <= k <= 30 /\ mbuf_init garbage size = Ok ms /\ ms_capacity ms = 2 ^ k /\
    size <= 2 ^ k /\ (k = 0 \/ 2 ^ (k - 1) < size) /\ mbuf_ok (2 ^ k) (Mst ∅ ms) [] [].
Proof.
  intros Hs. destruct (adjust_power_of_2_ok size Hs) as (k & Hk & E & Hle & Hmin).
  pose proof (cap_range k Hk). unfold mbuf_init. rewrite E. cbn [mbind result_bind].
  exists k. eexists. split; [done|]. split; [done|]. split; [done|]. split; [done|]. split; [done|].
  split; cbn [st_set st_bufs]; [| done | intros b; by rewrite lookup_empty | constructor].
  split; cbn [ms_capacity ms_array ms_head ms_len]; [eauto | | lia | done | rewrite Zlen_nil; lia | done].
  unfold Zlen. rewrite length_map, length_seqZ. lia.
Qed.

(** C33: the server's client-to-client queue is a bounded first-in first-out queue.
    Its capacity is the least power of two that is at least --bcast-buffers.  For
    any sequence of unicasts, broadcasts, extractions, peeks and closed clients,
    the code with its ring indices and reference counts gives exactly the outputs
    of the abstract queue: packets come out in the order they went in with the
    contents they went in with, a full queue drops its oldest packet, the packets
    of a closed client are never delivered.  No freed buffer is touched, exactly
    the buffers of queued packets are allocated, and freeing the set leaves none.
    Where the abstract queue has no answer (full of holes) the code aborts. *)
Theorem mbuf_queue_refines garbage size deferred limit ops :
  0 < size <= 2 ^ 30 ->
  exists k ms, 0 <= k <= 30 /\ mbuf_init garbage size = Ok ms /\ size <= 2 ^ k /\ (k = 0 \/ 2 ^ (k - 1) < size) /\
  match spec_run deferred limit (2 ^ k) [] ops with
  | Ok (outs, q) =>
      exists st l, mbuf_run deferred limit (Mst ∅ ms) ops = Ok (outs, st) /\ abs_queue st l = q /\
        (forall b, is_Some (st_bufs st !! b) <-> Some b ∈ map it_buffer l) /\
        mbuf_free (st_bufs st) (st_set st) = Ok ∅
  | AssertFail => mbuf_run deferred limit (Mst ∅ ms) ops = AssertFail
  | Fault => False
  end.
Proof.
  intros Hs. destruct (mbuf_init_ok garbage size Hs) as (k & ms & Hk & E & _ & Hle & Hmin & H0).
  exists k, ms. split_and!; [lia | lia | done | done | done |].
  pose proof (mbuf_run_ok deferred limit (2 ^ k) ops (Mst ∅ ms) [] H0) as H. cbn [abs_queue map] in H.
  destruct (spec_run _ _ _ _ _) as [[outs q]| |]; [|done..].
  destruct H as (st & l & E2 & [Hr Hc Hrefs Hi] & Ha). cbn [map app] in Hrefs.
  exists st, l. split_and!; [done | done | |].
  - intros b. split; [|by apply refs_ok_live]. intros [m Em]. specialize (Hrefs b). rewrite Em in Hrefs.
    apply in_cnt. lia.
  - unfold mbuf_free. rewrite (rr_len _ _ Hr). unfold Zlen. rewrite Nat2Z.id.
    by apply (free_loop_ok _ l [] _ Hr).
Qed.

Lemma mbuf_queue_refines_witness :
  0 < 3 <= 2 ^ 30 /\
  exists k ms, 0 <= k <= 30 /\ mbuf_init (fun _ => Item None None) 3 = Ok ms /\ 3 <= 2 ^ k /\ (k = 0 \/ 2 ^ (k - 1) < 3) /\
  match spec_run (fun _ => None) 64 (2 ^ k) [] [OpUnicast [1; 2] 5; OpBcast [3] [(5, false); (6, false)]%positive None; OpClose 5; OpGet] with
  | Ok (outs, q) =>
      exists st l, mbuf_run (fun _ => None) 64 (Mst ∅ ms) [OpUnicast [1; 2] 5; OpBcast [3] [(5, false); (6, false)]%positive None; OpClose 5; OpGet]
          = Ok (outs, st) /\ abs_queue st l = q /\
        (forall b, is_Some (st_bufs st !! b) <-> Some b ∈ map it_buffer l) /\
        mbuf_free (st_bufs st) (st_set st) = Ok ∅
  | AssertFail => mbuf_run (fun _ => None) 64 (Mst ∅ ms) [OpUnicast [1; 2] 5; OpBcast [3] [(5, false); (6, false)]%positive None; OpClose 5; OpGet] = AssertFail
  | Fault => False
  end.
Proof.
  split; [lia|].
  apply (mbuf_queue_refines (fun _ => Item None None) 3 (fun _ => None) 64
           [OpUnicast [1; 2] 5; OpBcast [3] [(5, false); (6, false)]%positive None; OpClose 5; OpGet]).
  lia.
Defined.

(** Packets to one client fill the queue. *)
Lemma spec_fill cap mi buf n : forall q rest,
  (Zlen buf >? 0) = true -> Zlen q + Z.of_nat n <= cap ->
  spec_run (fun _ => None) 0 cap q (replicate n (OpUnicast buf mi) ++ rest) =
  (y ← spec_run (fun _ => None) 0 cap (q ++ replicate n (Some (mi, buf, MF_UNICAST))) rest;
   Ok (replicate n OutNone ++ (y : list mbuf_out * queue).1, y.2)).
Proof.
  induction n as [|n IH]; intros q rest Hb Hq; cbn [replicate app].
  { rewrite app_nil_r. by destruct (spec_run _ _ _ _ _) as [[? ?]| |]. }
  cbn [spec_run spec_do]. rewrite Hb. cbn [multi_output_queue_ready andb]. unfold spec_add.
  rewrite (proj2 (Z.eqb_neq (Zlen q) cap)) by lia. cbn [mbind result_bind fst snd].
  rewrite IH by (rewrite ?Zlen_app, ?Zlen_cons, ?Zlen_nil; done || lia). rewrite <- app_assoc. cbn [app].
  by destruct (spec_run _ _ _ _ _) as [[? ?]| |].
Qed.
Lemma spec_deref_fill mi buf n :
  spec_deref (replicate n (Some (mi, buf, MF_UNICAST))) mi = replicate n None.
Proof.
  induction n as [|n IHn]; [done|]. cbn [replicate spec_deref map].
  rewrite bool_decide_true by done. unfold spec_deref in IHn. by rewrite IHn.
Qed.
Lemma spec_pop_holes n : spec_pop (replicate n None) = None.
Proof. by induction n. Qed.

(** A queue filled by one client that is then closed makes the server abort on
    the next packet for anybody: mbuf_add_item asserts that a full queue gives up a
    packet, but [mbuf_extract_item] skips the dereferenced items, finds none and
    returns false.  For every capacity: as many packets as the queue holds to one
    client, its close, and one packet to another. *)
Theorem mbuf_full_of_holes_aborts garbage size mi mi' buf :
  0 < size <= 2 ^ 30 -> mi <> mi' -> buf <> [] ->
  exists ms, mbuf_init garbage size = Ok ms /\
    mbuf_run (fun _ => None) 0 (Mst ∅ ms)
      (replicate (Z.to_nat (ms_capacity ms)) (OpUnicast buf mi) ++ [OpClose mi; OpUnicast buf mi']) = AssertFail /\
    exists outs st,
      mbuf_run (fun _ => None) 0 (Mst ∅ ms)
        (replicate (Z.to_nat (ms_capacity ms)) (OpUnicast buf mi) ++ [OpClose mi]) = Ok (outs, st).
Proof.
  intros Hs Hmi Hbuf. destruct (mbuf_init_ok garbage size Hs) as (k & ms & Hk & E & Ec & _ & _ & H0).
  exists ms. split; [done|]. rewrite Ec. pose proof (cap_range k Hk) as Hcap. set (cap := 2 ^ k) in *.
  assert ((Zlen buf >? 0) = true) as Hb.
  { destruct buf; [done|]. rewrite Zlen_cons, Z.gtb_ltb. apply Z.ltb_lt. pose proof (Zlen_nonneg buf). lia. }
  pose proof (fun n q rest => spec_fill cap mi buf n q rest Hb) as Hfill.
  assert (Zlen (replicate (Z.to_nat cap) (Some (mi, buf, MF_UNICAST))) = cap) as Hlen
    by (unfold Zlen; rewrite length_replicate; lia).
  pose proof (spec_deref_fill mi buf (Z.to_nat cap)) as Hd.
  pose proof spec_pop_holes as Hpop.
  split.
  - pose proof (mbuf_run_ok (fun _ => None) 0 cap
      (replicate (Z.to_nat cap) (OpUnicast buf mi) ++ [OpClose mi; OpUnicast buf mi']) _ _ H0) as H.
    cbn [abs_queue map] in H. rewrite Hfill in H by (rewrite Zlen_nil; lia). cbn [app spec_run spec_do] in H.
    cbn [mbind result_bind fst snd] in H. rewrite Hb, Hd in H. cbn [multi_output_queue_ready andb] in H.
    unfold spec_add in H. unfold Zlen in H. rewrite length_replicate in H.
    rewrite (proj2 (Z.eqb_eq (Z.of_nat (Z.to_nat cap)) cap)) in H by lia. rewrite Hpop in H. exact H.
  - pose proof (mbuf_run_ok (fun _ => None) 0 cap
      (replicate (Z.to_nat cap) (OpUnicast buf mi) ++ [OpClose mi]) _ _ H0) as H.
    cbn [abs_queue map] in H. rewrite Hfill in H by (rewrite Zlen_nil; lia). cbn [app spec_run spec_do] in H.
    cbn [mbind result_bind fst snd] in H. destruct H as (st & l & -> & _). eauto.
Qed.

Lemma mbuf_full_of_holes_aborts_witness :
  exists ms, mbuf_init (fun _ => Item None None) 2 = Ok ms /\
    mbuf_run (fun _ => None) 0 (Mst ∅ ms)
      (replicate (Z.to_nat (ms_capacity ms)) (OpUnicast [7] 1) ++ [OpClose 1; OpUnicast [7] 2]) = AssertFail /\
    exists outs st,
      mbuf_run (fun _ => None) 0 (Mst ∅ ms)
        (replicate (Z.to_nat (ms_capacity ms)) (OpUnicast [7] 1) ++ [OpClose 1]) = Ok (outs, st).
Proof. apply (mbuf_full_of_holes_aborts (fun _ => Item None None) 2 1 2 [7]); [lia | done | done]. Defined.
