(* ===== verification/Schedule.v ===== *)
(** The scheduler of the server (src/schedule.c, src/schedule.h): which client has
    to be served when, kept in a treap, a binary search tree by wakeup time that is
    a heap by random priorities, with parent links, and the cached earliest entry.

    The entries live in a store; a pointer is a key of it, NULL is [None].  The
    results of the calls of [random] an operation makes are an argument. *)

From S2P Require Import Prelude Integer Timing.
From Stdlib Require Import Sorted.

Record schedule_entry := Se {
  se_tv : timeval;
  se_pri : Z;
  se_parent : option positive;
  se_lt : option positive;
  se_gt : option positive
}.

#[export] Instance timeval_eq_dec : EqDecision timeval.
Proof. solve_decision. Defined.
#[export] Instance schedule_entry_eq_dec : EqDecision schedule_entry.
Proof. solve_decision. Defined.

Abbreviation entries := (gmap positive schedule_entry).

(** The entries and [struct schedule]. *)
Record schedule := Sched { sc_mem : entries; sc_root : option positive; sc_earliest : option positive }.

Definition set_tv (v : timeval) (e : schedule_entry) := Se v (se_pri e) (se_parent e) (se_lt e) (se_gt e).
Definition set_pri (v : Z) (e : schedule_entry) := Se (se_tv e) v (se_parent e) (se_lt e) (se_gt e).
Definition set_parent (v : option positive) (e : schedule_entry) := Se (se_tv e) (se_pri e) v (se_lt e) (se_gt e).
Definition set_lt (v : option positive) (e : schedule_entry) := Se (se_tv e) (se_pri e) (se_parent e) v (se_gt e).
Definition set_gt (v : option positive) (e : schedule_entry) := Se (se_tv e) (se_pri e) (se_parent e) (se_lt e) v.

(** [e->field] and [e->field = v] *)
Definition get (m : entries) (e : positive) : result schedule_entry := from_opt (m !! e).
Definition upd (m : entries) (e : positive) (f : schedule_entry -> schedule_entry) : result entries :=
  n ← get m e; Ok (<[e := f n]> m).

(** ** Operations *)

Definition draw_pri (r : Z) : Z := let p := u32 r in if p <? 1 then 1 else p.

(** Takes the next result of [random]. *)
Definition schedule_set_pri (m : entries) (rnd : list Z) (e : positive) : result (entries * list Z) :=
  match rnd with
  | [] => Fault
  | r :: rnd => m ← upd m e (set_pri (draw_pri r)); Ok (m, rnd)
  end.

Definition schedule_entry_compare (e1 e2 : schedule_entry) : Z :=
  if tv_sec (se_tv e1) <? tv_sec (se_tv e2) then -1
  else if tv_sec (se_tv e1) >? tv_sec (se_tv e2) then 1
  else if tv_usec (se_tv e1) <? tv_usec (se_tv e2) then -1
  else if tv_usec (se_tv e1) >? tv_usec (se_tv e2) then 1
  else if se_pri e1 <? se_pri e2 then -1
  else if se_pri e1 >? se_pri e2 then 1
  else 0.

(** The entries and the root after. *)
Definition schedule_detach_parent (m : entries) (root : option positive) (e : positive)
  : result (entries * option positive) :=
  n ← get m e;
  match se_parent n with
  | Some p =>
      pn ← get m p;
      m ← (if decide (se_lt pn = Some e) then upd m p (set_lt None)
           else if decide (se_gt pn = Some e) then upd m p (set_gt None)
           else AssertFail);
      m ← upd m e (set_parent None);
      Ok (m, root)
  | None => Ok (m, if decide (root = Some e) then None else root)
  end.

(** The grandparent's link, or the root. *)
Definition rotate_gp (m : entries) (root gp : option positive) (p e : positive)
  : result (entries * option positive) :=
  match gp with
  | Some g =>
      gn ← get m g;
      m ← (if decide (se_gt gn = Some p) then upd m g (set_gt (Some e))
           else if decide (se_lt gn = Some p) then upd m g (set_lt (Some e))
           else AssertFail);
      Ok (m, root)
  | None => Ok (m, Some e)
  end.

Definition set_parent_opt (m : entries) (c : option positive) (p : positive) : result entries :=
  match c with Some c => upd m c (set_parent (Some p)) | None => Ok m end.

(** The links between the node and its former parent. *)
Definition rotate_links (m : entries) (lt gt : option positive) (p e : positive) : result entries :=
  pn ← get m p;
  if decide (se_gt pn = Some e) then
    m ← upd m e (set_lt (Some p));
    m ← upd m p (set_gt lt);
    set_parent_opt m lt p
  else if decide (se_lt pn = Some e) then
    m ← upd m e (set_gt (Some p));
    m ← upd m p (set_lt gt);
    set_parent_opt m gt p
  else AssertFail.

Definition schedule_rotate_up (m : entries) (root : option positive) (e : positive)
  : result (entries * option positive) :=
  n ← get m e;
  match se_parent n with
  | Some p =>
      let lt := se_lt n in
      let gt := se_gt n in
      pn ← get m p;
      let gp := se_parent pn in
      r ← rotate_gp m root gp p e;
      let '(m, root) := (r : entries * option positive) in
      m ← upd m e (set_parent gp);
      m ← upd m p (set_parent (Some e));
      m ← rotate_links m lt gt p e;
      Ok (m, root)
  | None => Ok (m, root)
  end.

(** The loop of [schedule_remove_node]. *)
Fixpoint remove_loop (fuel : nat) (m : entries) (root : option positive) (e : positive)
  : result (entries * option positive) :=
  match fuel with
  | O => Fault
  | S f =>
      n ← get m e;
      match se_lt n, se_gt n with
      | None, None => Ok (m, root)
      | Some l, Some g =>
          ln ← get m l; gn ← get m g;
          r ← schedule_rotate_up m root (if se_pri ln <? se_pri gn then l else g);
          remove_loop f (r : entries * option positive).1 r.2 e
      | Some l, None => r ← schedule_rotate_up m root l; remove_loop f (r : entries * option positive).1 r.2 e
      | None, Some g => r ← schedule_rotate_up m root g; remove_loop f (r : entries * option positive).1 r.2 e
      end
  end.

Definition schedule_remove_node (m : entries) (root : option positive) (e : positive)
  : result (entries * option positive) :=
  r ← remove_loop (S (size m)) m root e;
  r ← schedule_detach_parent (r : entries * option positive).1 r.2 e;
  m ← upd (r : entries * option positive).1 e (set_pri 0);
  Ok (m, r.2).

(** The loop of [schedule_insert] at the node [c]. *)
Fixpoint insert_loop (fuel : nat) (m : entries) (rnd : list Z) (root c e : positive)
  : result (entries * list Z) :=
  match fuel with
  | O => Fault
  | S f =>
      en ← get m e; cn ← get m c;
      let comp := schedule_entry_compare en cn in
      if comp =? -1 then
        match se_lt cn with
        | Some l => insert_loop f m rnd root l e
        | None =>
            m ← upd m c (set_lt (Some e));
            m ← upd m e (set_parent (Some c));
            Ok (m, rnd)
        end
      else if comp =? 1 then
        match se_gt cn with
        | Some g => insert_loop f m rnd root g e
        | None =>
            m ← upd m c (set_gt (Some e));
            m ← upd m e (set_parent (Some c));
            Ok (m, rnd)
        end
      else
        r ← schedule_set_pri m rnd e;
        insert_loop f (r : entries * list Z).1 r.2 root root e
  end.

Definition schedule_insert (m : entries) (rnd : list Z) (root e : positive) : result (entries * list Z) :=
  insert_loop (S (size m) * S (length rnd)) m rnd root root e.

(** The last loop of [schedule_add_modify]. *)
Fixpoint up_loop (fuel : nat) (m : entries) (root : option positive) (e : positive)
  : result (entries * option positive) :=
  match fuel with
  | O => Fault
  | S f =>
      n ← get m e;
      match se_parent n with
      | Some p =>
          pn ← get m p;
          if se_pri pn >? se_pri n then
            r ← schedule_rotate_up m root e;
            up_loop f (r : entries * option positive).1 r.2 e
          else Ok (m, root)
      | None => Ok (m, root)
      end
  end.

Definition IN_TREE (n : schedule_entry) : bool := negb (se_pri n =? 0).

(** The second half of [schedule_add_modify]: a node that is not in the tree goes in. *)
Definition schedule_place (m : entries) (root : option positive) (rnd : list Z) (e : positive)
  : result (entries * option positive) :=
  r ← schedule_set_pri m rnd e;
  let '(m, rnd) := (r : entries * list Z) in
  r ← match root with
      | Some rt => r ← schedule_insert m rnd rt e; Ok ((r : entries * list Z).1, root)
      | None => Ok (m, Some e)
      end;
  let '(m, root) := (r : entries * option positive) in
  up_loop (S (size m)) m root e.

Definition schedule_add_modify (m : entries) (root : option positive) (rnd : list Z) (e : positive)
  : result (entries * option positive) :=
  n ← get m e;
  r ← (if IN_TREE n then schedule_remove_node m root e else Ok (m, root));
  schedule_place (r : entries * option positive).1 r.2 rnd e.

Fixpoint find_least_loop (fuel : nat) (m : entries) (e : positive) : result positive :=
  match fuel with
  | O => Fault
  | S f => n ← get m e; match se_lt n with Some l => find_least_loop f m l | None => Ok e end
  end.
Definition schedule_find_least (m : entries) (e : option positive) : result (option positive) :=
  match e with
  | Some e => l ← find_least_loop (S (size m)) m e; Ok (Some l)
  | None => Ok None
  end.

Definition schedule_init (m : entries) : schedule := Sched m None None.

Definition schedule_remove_entry (s : schedule) (e : positive) : result schedule :=
  r ← schedule_remove_node (sc_mem s) (sc_root s) e;
  Ok (Sched (r : entries * option positive).1 r.2 None).

Definition schedule_add_entry (s : schedule) (rnd : list Z) (e : positive) (tv : timeval) (sigma : Z)
  : result schedule :=
  n ← get (sc_mem s) e;
  if negb (IN_TREE n) || (sigma =? 0) || negb (tv_within_sigma tv (se_tv n) sigma) then
    m ← upd (sc_mem s) e (set_tv tv);
    r ← schedule_add_modify m (sc_root s) rnd e;
    Ok (Sched (r : entries * option positive).1 r.2 None)
  else Ok s.

(** The entry and its wakeup time. *)
Definition schedule_get_earliest_wakeup (s : schedule) : result (option (positive * timeval) * schedule) :=
  ret ← (match sc_earliest s with
         | Some e => Ok (Some e)
         | None => schedule_find_least (sc_mem s) (sc_root s)
         end);
  let s := Sched (sc_mem s) (sc_root s) ret in
  match ret : option positive with
  | Some e => n ← get (sc_mem s) e; Ok (Some (e, se_tv n), s)
  | None => Ok (None, s)
  end.

(** ** Trees in the store

    A tree, and the context of a subtree: the frames from its root to the tree's. *)

Inductive tree :=
| Leaf
| Node (l : tree) (p : positive) (r : tree).

Inductive tframe :=
| FL (p : positive) (r : tree) (* the hole is the left child of [p] *)
| FR (l : tree) (p : positive).

Definition fill (f : tframe) (t : tree) : tree :=
  match f with FL p r => Node t p r | FR l p => Node l p t end.
Fixpoint plug (c : list tframe) (t : tree) : tree :=
  match c with [] => t | f :: c => plug c (fill f t) end.

Definition tptr (t : tree) : option positive := match t with Leaf => None | Node _ p _ => Some p end.
Definition fptr (f : tframe) : positive := match f with FL p _ | FR _ p => p end.
Definition cpar (c : list tframe) : option positive := match c with [] => None | f :: _ => Some (fptr f) end.

(** The links a node has: parent, lt, gt. *)
Abbreviation link := (option positive * option positive * option positive)%type.
Definition link_of (n : schedule_entry) : link := (se_parent n, se_lt n, se_gt n).

Fixpoint links (par : option positive) (t : tree) : list (positive * link) :=
  match t with
  | Leaf => []
  | Node l p r => (p, (par, tptr l, tptr r)) :: links (Some p) l ++ links (Some p) r
  end.
Fixpoint clinks (c : list tframe) (hole : option positive) : list (positive * link) :=
  match c with
  | [] => []
  | FL p r :: c => (p, (cpar c, hole, tptr r)) :: links (Some p) r ++ clinks c (Some p)
  | FR l p :: c => (p, (cpar c, tptr l, hole)) :: links (Some p) l ++ clinks c (Some p)
  end.

Lemma links_plug c t : links None (plug c t) ≡ₚ links (cpar c) t ++ clinks c (tptr t).
Proof.
  revert t. induction c as [|[p r|l p] c IH]; intros t; cbn [plug cpar clinks fptr]; [by rewrite app_nil_r| |];
    rewrite IH; cbn [fill links tptr]; solve_Permutation.
Qed.

Lemma tptr_plug c t : tptr (plug c t) = match c with [] => tptr t | _ => tptr (plug c Leaf) end.
Proof.
  destruct c as [|f c]; [done|]. cbn [plug].
  assert (forall c t1 t2, tptr t1 = tptr t2 -> tptr (plug c t1) = tptr (plug c t2)) as H.
  { clear. induction c as [|g c IH]; intros t1 t2 E; [done|]. cbn [plug]. apply IH. by destruct g. }
  apply H. by destruct f.
Qed.

Lemma tptr_plug_fill c f t : tptr (plug c (fill f t)) = tptr (plug c (fill f Leaf)).
Proof. by rewrite (tptr_plug c), (tptr_plug c (fill f Leaf)); destruct c; destruct f. Qed.

(** The store has these links, of distinct nodes. *)
Definition reps (m : entries) (L : list (positive * link)) : Prop :=
  Forall (fun x => link_of <$> m !! x.1 = Some x.2) L /\ NoDup (L.*1).

#[export] Instance reps_proper : Proper (eq ==> (≡ₚ) ==> iff) reps.
Proof. intros m ? <- L L' HL. unfold reps. by rewrite HL. Qed.

(** The keys of the nodes are not touched. *)
Definition data (m : entries) (p : positive) : option (timeval * Z) := (fun n => (se_tv n, se_pri n)) <$> m !! p.
Definition keys_kept (m m' : entries) : Prop := forall p, data m' p = data m p.
Lemma keys_kept_refl m : keys_kept m m.
Proof. done. Qed.
Lemma keys_kept_trans m1 m2 m3 : keys_kept m1 m2 -> keys_kept m2 m3 -> keys_kept m1 m3.
Proof. intros H1 H2 p. by rewrite H2. Qed.
#[export] Hint Resolve keys_kept_refl keys_kept_trans : ovpn.

Lemma keys_kept_dom m m' : keys_kept m m' -> dom m' = dom m.
Proof.
  intros H. apply set_eq. intros p. rewrite !elem_of_dom. specialize (H p). unfold data in H.
  destruct (m !! p), (m' !! p); naive_solver.
Qed.
Lemma keys_kept_size m m' : keys_kept m m' -> size m' = size m.
Proof. intros H%keys_kept_dom. by rewrite <- !size_dom, H. Qed.

Lemma reps_get m p lk L : reps m ((p, lk) :: L) -> exists n, get m p = Ok n /\ m !! p = Some n /\ link_of n = lk.
Proof.
  intros [H _]. apply Forall_inv in H. cbn in H. unfold get. destruct (m !! p) as [n|]; [|done].
  injection H as <-. by exists n.
Qed.

(** A link of one node is changed. *)
Lemma upd_link m p lk lk' L f :
  (forall n, link_of n = lk -> link_of (f n) = lk') -> (forall n, se_tv (f n) = se_tv n /\ se_pri (f n) = se_pri n) ->
  reps m ((p, lk) :: L) ->
  exists m', upd m p f = Ok m' /\ reps m' ((p, lk') :: L) /\ keys_kept m m'.
Proof.
  intros Hf Hd H. destruct (reps_get _ _ _ _ H) as (n & E & Em & Hn). unfold upd. rewrite E. cbn [mbind result_bind].
  eexists. split; [done|]. destruct H as [HF HN]. rewrite fmap_cons in HN. apply list.NoDup_cons in HN as [Hp HN].
  split_and!.
  - split; [|rewrite fmap_cons; by apply list.NoDup_cons]. constructor.
    + cbn. rewrite lookup_insert_eq. cbn. f_equal. by apply Hf.
    + apply Forall_inv_tail in HF. apply list.Forall_forall. intros [q lq] Hq. cbn.
      rewrite lookup_insert_ne.
      * by apply (proj1 (list.Forall_forall _ _) HF (q, lq)).
      * intros <-. apply Hp. by apply (list_elem_of_fmap_2 fst L (p, lq)).
  - intros q. unfold data. destruct (decide (p = q)) as [<-|]; [|by rewrite lookup_insert_ne].
    rewrite lookup_insert_eq, Em. cbn. f_equal. destruct (Hd n) as [-> ->]. done.
Qed.

Lemma upd_parent m p a b c v L : reps m ((p, (a, b, c)) :: L) ->
  exists m', upd m p (set_parent v) = Ok m' /\ reps m' ((p, (v, b, c)) :: L) /\ keys_kept m m'.
Proof. apply upd_link; [|done]. unfold link_of. by intros [] [= -> -> ->]. Qed.
Lemma upd_lt m p a b c v L : reps m ((p, (a, b, c)) :: L) ->
  exists m', upd m p (set_lt v) = Ok m' /\ reps m' ((p, (a, v, c)) :: L) /\ keys_kept m m'.
Proof. apply upd_link; [|done]. unfold link_of. by intros [] [= -> -> ->]. Qed.
Lemma upd_gt m p a b c v L : reps m ((p, (a, b, c)) :: L) ->
  exists m', upd m p (set_gt v) = Ok m' /\ reps m' ((p, (a, b, v)) :: L) /\ keys_kept m m'.
Proof. apply upd_link; [|done]. unfold link_of. by intros [] [= -> -> ->]. Qed.

(** A subtree gets a new parent. *)
Lemma set_parent_opt_ok m par t p L : reps m (links par t ++ L) ->
  exists m', set_parent_opt m (tptr t) p = Ok m' /\ reps m' (links (Some p) t ++ L) /\ keys_kept m m'.
Proof.
  destruct t as [|l q r]; cbn [tptr set_parent_opt links app]; intros H.
  - exists m. auto with ovpn.
  - destruct (upd_parent _ _ _ _ _ (Some p) _ H) as (m' & -> & H' & Hd). by exists m'.
Qed.

Lemma reps_notin m p lk L q : reps m ((p, lk) :: L) -> q ∈ L.*1 -> q <> p.
Proof. intros [_ H] Hq ->. rewrite fmap_cons in H. by apply list.NoDup_cons in H as [? _]. Qed.

Lemma tptr_links par t q : tptr t = Some q -> q ∈ (links par t).*1.
Proof. destruct t; cbn; [done|]. intros [= ->]. left. Qed.

Lemma reps_perm m L L' : L ≡ₚ L' -> reps m L -> reps m L'.
Proof. intros HL. by rewrite HL. Qed.

(** Brings the links [L] of a represented store in another order. *)
Ltac reorder H L := eapply (reps_perm _ _ L) in H; [|solve_Permutation].

(** The root of a subtree is another node than one outside of it. *)
Lemma tptr_ne m p lk par t L : reps m ((p, lk) :: links par t ++ L) -> tptr t <> Some p.
Proof.
  intros H E. apply (reps_notin _ _ _ _ p H); [|done]. rewrite fmap_app. apply elem_of_app. left.
  by apply tptr_links.
Qed.

(** The context's hole is handed from [p] to [e]. *)
Lemma rotate_gp_ok m root c p e lk L : reps m (clinks c (Some p) ++ (p, lk) :: L) ->
  exists m', rotate_gp m root (cpar c) p e = Ok (m', match c with [] => Some e | _ => root end) /\
    reps m' (clinks c (Some e) ++ (p, lk) :: L) /\ keys_kept m m'.
Proof.
  destruct c as [|[g r|l g] c]; cbn [cpar rotate_gp clinks fptr app]; intros H; [exists m; auto with ovpn|..];
    destruct (reps_get _ _ _ _ H) as (n & -> & _ & Hn); cbn [mbind result_bind];
    injection Hn as Hn1 Hn2 Hn3; rewrite Hn3.
  - pose proof H as Hp. reorder Hp ((p, lk) :: links (Some g) r ++ (g, (cpar c, Some p, tptr r)) :: clinks c (Some g) ++ L).
    rewrite decide_False by (by apply tptr_ne in Hp). rewrite Hn2, decide_True by done.
    destruct (upd_lt _ _ _ _ _ (Some e) _ H) as (m' & -> & H' & Hd). by exists m'.
  - rewrite decide_True by done.
    destruct (upd_gt _ _ _ _ _ (Some e) _ H) as (m' & -> & H' & Hd). by exists m'.
Qed.

(** ** Rotation *)

(** The node of a frame with its hole, and its other subtree. *)
Definition flink (f : tframe) (hole par : option positive) : link :=
  match f with FL p r => (par, hole, tptr r) | FR l p => (par, tptr l, hole) end.
Definition fside (f : tframe) : list (positive * link) :=
  match f with FL p r => links (Some p) r | FR l p => links (Some p) l end.

Lemma clinks_cons f c hole :
  clinks (f :: c) hole = (fptr f, flink f hole (cpar c)) :: fside f ++ clinks c (Some (fptr f)).
Proof. by destruct f. Qed.

(** The tree after the node [e] with subtrees [l] and [r] moved above the frame. *)
Definition rotated (f : tframe) (l : tree) (e : positive) (r : tree) : tree :=
  match f with
  | FR pl p => Node (Node pl p l) e r
  | FL p pr => Node l e (Node r p pr)
  end.

Definition tree_links (c : list tframe) (t : tree) : list (positive * link) := links (cpar c) t ++ clinks c (tptr t).

Lemma rotate_links_ok m f c l e r L :
  reps m ((e, (cpar c, tptr l, tptr r)) :: links (Some e) l ++ links (Some e) r ++
          (fptr f, flink f (Some e) (Some e)) :: fside f ++ L) ->
  exists m', rotate_links m (tptr l) (tptr r) (fptr f) e = Ok m' /\
    reps m' (links (cpar c) (rotated f l e r) ++ L) /\ keys_kept m m'.
Proof.
  destruct f as [p pr|pl p]; cbn [fptr rotated links tptr flink fside]; intros H; unfold rotate_links.
  - pose proof H as Hp. reorder Hp ((p, (Some e, Some e, tptr pr)) :: (e, (cpar c, tptr l, tptr r)) :: links (Some e) l ++ links (Some e) r ++ links (Some p) pr ++ L).
    destruct (reps_get _ _ _ _ Hp) as (n & -> & _ & Hn). injection Hn as Hn1 Hn2 Hn3. cbn [mbind result_bind].
    pose proof H as He. reorder He ((e, (cpar c, tptr l, tptr r)) :: links (Some p) pr ++ links (Some e) l ++ links (Some e) r ++ (p, (Some e, Some e, tptr pr)) :: L).
    rewrite Hn3, Hn2. rewrite decide_False by (by apply tptr_ne in He). rewrite decide_True by done.
    destruct (upd_gt _ _ _ _ _ (Some p) _ H) as (m1 & -> & H1 & D1). cbn [mbind result_bind].
    reorder H1 ((p, (Some e, Some e, tptr pr)) :: (e, (cpar c, tptr l, Some p)) :: links (Some e) l ++ links (Some e) r ++ links (Some p) pr ++ L).
    destruct (upd_lt _ _ _ _ _ (tptr r) _ H1) as (m2 & -> & H2 & D2). cbn [mbind result_bind].
    reorder H2 (links (Some e) r ++ (p, (Some e, tptr r, tptr pr)) :: (e, (cpar c, tptr l, Some p)) :: links (Some e) l ++ links (Some p) pr ++ L).
    destruct (set_parent_opt_ok _ _ _ p _ H2) as (m3 & -> & H3 & D3). exists m3. split; [done|].
    split; [|eauto with ovpn]. eapply reps_perm; [|exact H3]. solve_Permutation.
  - pose proof H as Hp. reorder Hp ((p, (Some e, tptr pl, Some e)) :: (e, (cpar c, tptr l, tptr r)) :: links (Some e) l ++ links (Some e) r ++ links (Some p) pl ++ L).
    destruct (reps_get _ _ _ _ Hp) as (n & -> & _ & Hn). injection Hn as Hn1 Hn2 Hn3. cbn [mbind result_bind].
    rewrite Hn3, decide_True by done.
    destruct (upd_lt _ _ _ _ _ (Some p) _ H) as (m1 & -> & H1 & D1). cbn [mbind result_bind].
    reorder H1 ((p, (Some e, tptr pl, Some e)) :: (e, (cpar c, Some p, tptr r)) :: links (Some e) l ++ links (Some e) r ++ links (Some p) pl ++ L).
    destruct (upd_gt _ _ _ _ _ (tptr l) _ H1) as (m2 & -> & H2 & D2). cbn [mbind result_bind].
    reorder H2 (links (Some e) l ++ (p, (Some e, tptr pl, tptr l)) :: (e, (cpar c, Some p, tptr r)) :: links (Some e) r ++ links (Some p) pl ++ L).
    destruct (set_parent_opt_ok _ _ _ p _ H2) as (m3 & -> & H3 & D3). exists m3. split; [done|].
    split; [|eauto with ovpn]. eapply reps_perm; [|exact H3]. solve_Permutation.
Qed.

Lemma upd_frame_parent m f hole par par' L : reps m ((fptr f, flink f hole par) :: L) ->
  exists m', upd m (fptr f) (set_parent par') = Ok m' /\ reps m' ((fptr f, flink f hole par') :: L) /\ keys_kept m m'.
Proof. destruct f; apply upd_parent. Qed.

Lemma rotated_root f c l e r :
  tptr (plug c (rotated f l e r)) = match c with [] => Some e | _ => tptr (plug (f :: c) (Node l e r)) end.
Proof.
  destruct c as [|g c]; [by destruct f|]. cbn [plug].
  assert (forall c t u, tptr (plug c (fill g t)) = tptr (plug c (fill g u))) as H
    by (intros; by rewrite tptr_plug_fill, (tptr_plug_fill _ _ u)).
  apply H.
Qed.

(** Rotating the node [e] in a context with the frame [f]. *)
Lemma rotate_up_ok m f c l e r L :
  reps m (tree_links (f :: c) (Node l e r) ++ L) ->
  exists m', schedule_rotate_up m (tptr (plug (f :: c) (Node l e r))) e
             = Ok (m', tptr (plug c (rotated f l e r))) /\
    reps m' (tree_links c (rotated f l e r) ++ L) /\ keys_kept m m'.
Proof.
  intros H. unfold tree_links in *. cbn [links tptr cpar] in H.
  rewrite clinks_cons in H. unfold schedule_rotate_up.
  pose proof H as H0. reorder H0 ((e, (Some (fptr f), tptr l, tptr r)) :: links (Some e) l ++ links (Some e) r ++
             (fptr f, flink f (Some e) (cpar c)) :: fside f ++ clinks c (Some (fptr f)) ++ L). clear H.
  destruct (reps_get _ _ _ _ H0) as (n & -> & _ & Hn). injection Hn as Hn1 Hn2 Hn3. cbn [mbind result_bind].
  rewrite Hn1, Hn2, Hn3.
  reorder H0 ((fptr f, flink f (Some e) (cpar c)) :: clinks c (Some (fptr f)) ++
     (e, (Some (fptr f), tptr l, tptr r)) :: links (Some e) l ++ links (Some e) r ++ fside f ++ L).
  destruct (reps_get _ _ _ _ H0) as (pn & -> & _ & Hpn). cbn [mbind result_bind].
  assert (se_parent pn = cpar c) as -> by (destruct f; by injection Hpn).
  reorder H0 (clinks c (Some (fptr f)) ++ (fptr f, flink f (Some e) (cpar c)) ::
     (e, (Some (fptr f), tptr l, tptr r)) :: links (Some e) l ++ links (Some e) r ++ fside f ++ L).
  destruct (rotate_gp_ok m (tptr (plug (f :: c) (Node l e r))) c (fptr f) e _ _ H0)
    as (m1 & -> & H1 & D1). cbn [mbind result_bind].
  reorder H1 ((e, (Some (fptr f), tptr l, tptr r)) :: (fptr f, flink f (Some e) (cpar c)) ::
     clinks c (Some e) ++ links (Some e) l ++ links (Some e) r ++ fside f ++ L).
  destruct (upd_parent _ _ _ _ _ (cpar c) _ H1) as (m2 & -> & H2 & D2). cbn [mbind result_bind].
  reorder H2 ((fptr f, flink f (Some e) (cpar c)) :: (e, (cpar c, tptr l, tptr r)) ::
     clinks c (Some e) ++ links (Some e) l ++ links (Some e) r ++ fside f ++ L).
  destruct (upd_frame_parent m2 f (Some e) (cpar c) (Some e) _ H2) as (m3 & -> & H3 & D3). cbn [mbind result_bind].
  reorder H3 ((e, (cpar c, tptr l, tptr r)) :: links (Some e) l ++ links (Some e) r ++
          (fptr f, flink f (Some e) (Some e)) :: fside f ++ clinks c (Some e) ++ L).
  destruct (rotate_links_ok m3 f c l e r _ H3) as (m4 & -> & H4 & D4).
  cbn [mbind result_bind]. exists m4. split_and!; [|by rewrite <- app_assoc; destruct f|eauto 6 with ovpn].
  by rewrite rotated_root.
Qed.

(** ** Whole trees: focus on a node anywhere *)

Definition reps_tree (m : entries) (t : tree) (L : list (positive * link)) : Prop := reps m (links None t ++ L).

Lemma reps_plug m c t L : reps_tree m (plug c t) L <-> reps m (tree_links c t ++ L).
Proof. unfold reps_tree, tree_links. by rewrite links_plug. Qed.

Lemma rotate_ok m f c l e r L :
  reps_tree m (plug (f :: c) (Node l e r)) L ->
  exists m', schedule_rotate_up m (tptr (plug (f :: c) (Node l e r))) e = Ok (m', tptr (plug c (rotated f l e r))) /\
    reps_tree m' (plug c (rotated f l e r)) L /\ keys_kept m m'.
Proof.
  intros H%reps_plug. destruct (rotate_up_ok _ _ _ _ _ _ _ H) as (m' & E & H' & D).
  exists m'. by rewrite reps_plug.
Qed.

Lemma focus_get m c l e r L :
  reps_tree m (plug c (Node l e r)) L ->
  exists n, get m e = Ok n /\ m !! e = Some n /\ se_parent n = cpar c /\ se_lt n = tptr l /\ se_gt n = tptr r.
Proof.
  rewrite reps_plug. unfold tree_links. cbn [links tptr app]. intros H.
  destruct (reps_get _ _ _ _ H) as (n & E & Em & Hn). injection Hn as Hn1 Hn2 Hn3. exists n. done.
Qed.

Fixpoint inord (t : tree) : list positive :=
  match t with Leaf => [] | Node l p r => inord l ++ p :: inord r end.
Fixpoint cleft (c : list tframe) : list positive :=
  match c with [] => [] | FL _ _ :: c => cleft c | FR l p :: c => cleft c ++ inord l ++ [p] end.
Fixpoint cright (c : list tframe) : list positive :=
  match c with [] => [] | FL p r :: c => p :: inord r ++ cright c | FR _ _ :: c => cright c end.
Definition fsub (f : tframe) : tree := match f with FL _ r => r | FR l _ => l end.
Fixpoint tsize (t : tree) : nat := match t with Leaf => 0 | Node l _ r => S (tsize l + tsize r) end.

Lemma inord_plug c t : inord (plug c t) = cleft c ++ inord t ++ cright c.
Proof.
  revert t. induction c as [|[p r|l p] c IH]; intros t; cbn [plug cleft cright]; [by rewrite app_nil_r| |];
    rewrite IH; cbn [fill inord]; by rewrite <- !app_assoc.
Qed.
Lemma inord_rotated c f l e r : inord (plug c (rotated f l e r)) = inord (plug (f :: c) (Node l e r)).
Proof. rewrite !inord_plug. destruct f; cbn [rotated inord cleft cright]; rewrite <- ?app_assoc; cbn; by rewrite <- ?app_assoc. Qed.
Lemma length_inord t : length (inord t) = tsize t.
Proof. induction t; cbn [inord tsize]; [done|]. rewrite length_app. cbn [length]. lia. Qed.
Lemma links_keys par t : (links par t).*1 ≡ₚ inord t.
Proof.
  revert par. induction t as [|l IHl p r IHr]; intros par; cbn [links inord]; [done|].
  rewrite fmap_cons, fmap_app, IHl, IHr. cbn. solve_Permutation.
Qed.
Lemma reps_nodup m t L : reps_tree m t L -> NoDup (inord t ++ L.*1).
Proof. intros [_ H]. by rewrite fmap_app, links_keys in H. Qed.

(** The nodes of the tree are entries of the store: loops with fuel [size m] are long enough. *)
Lemma reps_size m t L : reps_tree m t L -> (tsize t + length L <= size m)%nat.
Proof.
  intros H. pose proof (reps_nodup _ _ _ H) as Hn. destruct H as [HF _].
  rewrite <- size_dom, <- length_inord. rewrite <- (length_fmap fst L), <- length_app.
  rewrite <- (size_list_to_set (C := gset positive) (inord t ++ L.*1)) by done.
  apply subseteq_size. intros p Hp%elem_of_list_to_set. apply elem_of_dom.
  rewrite <- (links_keys None t), <- fmap_app in Hp. apply list_elem_of_fmap in Hp as ([q lk] & -> & Hq).
  pose proof (proj1 (list.Forall_forall _ _) HF _ Hq) as E. cbn in *. by destruct (m !! q).
Qed.

(** ** Heap order *)

Definition pri_of (m : entries) (p : positive) : Z := match data m p with Some (_, x) => x | None => 0 end.

Fixpoint heap_ok (pri : positive -> Z) (t : tree) : Prop :=
  match t with
  | Leaf => True
  | Node l p r => Forall (fun q => pri p <= pri q) (inord l ++ inord r) /\ heap_ok pri l /\ heap_ok pri r
  end.

(** [q] may stand below the hole. *)
Definition below (pri : positive -> Z) (c : list tframe) (q : positive) : Prop :=
  match c with [] => True | f :: _ => pri (fptr f) <= pri q end.
Fixpoint cheap (pri : positive -> Z) (c : list tframe) : Prop :=
  match c with
  | [] => True
  | f :: c => heap_ok pri (fsub f) /\ Forall (fun q => pri (fptr f) <= pri q) (inord (fsub f)) /\
              below pri c (fptr f) /\ cheap pri c
  end.

Lemma below_trans pri c p q : below pri c p -> pri p <= pri q -> below pri c q.
Proof. destruct c; cbn; [done|]. lia. Qed.
Lemma Forall_below pri c p l :
  below pri c p -> Forall (fun q => pri p <= pri q) l -> Forall (below pri c) l.
Proof. intros Hp H. eapply Forall_impl; [|exact H]. intros q. by apply below_trans. Qed.

Lemma heap_fill pri f t :
  heap_ok pri (fill f t) <->
  heap_ok pri (fsub f) /\ Forall (fun q => pri (fptr f) <= pri q) (inord (fsub f)) /\
  heap_ok pri t /\ Forall (fun q => pri (fptr f) <= pri q) (inord t).
Proof. destruct f; cbn [fill heap_ok fsub fptr]; rewrite Forall_app; tauto. Qed.
Lemma inord_fill f t : inord (fill f t) ≡ₚ fptr f :: inord (fsub f) ++ inord t.
Proof. destruct f; cbn [fill inord fsub fptr]; solve_Permutation. Qed.

Lemma heap_plug pri c t :
  heap_ok pri (plug c t) <-> cheap pri c /\ heap_ok pri t /\ Forall (below pri c) (inord t).
Proof.
  revert t. induction c as [|f c IH]; intros t; cbn [plug cheap].
  { split; [|tauto]. intros. split_and!; [done..|]. by apply Forall_true. }
  rewrite IH, heap_fill. rewrite inord_fill. split.
  - intros (Hc & (Hs & Hfs & Ht & Hft) & Hb). pose proof (Forall_inv Hb). done.
  - intros ((Hs & Hfs & Hb & Hc) & Ht & Hft). split_and!; try done.
    constructor; [done|]. apply Forall_app. split; by apply (Forall_below pri c (fptr f)).
Qed.

Lemma pri_same m m' pri : keys_kept m m' -> (forall p, pri_of m p = pri p) -> forall p, pri_of m' p = pri p.
Proof. intros H Hp p. unfold pri_of. rewrite H. apply Hp. Qed.
Lemma pri_lookup m p n : m !! p = Some n -> pri_of m p = se_pri n.
Proof. intros E. unfold pri_of, data. by rewrite E. Qed.

(** ** Removal *)

(** The left or right child of the focus rotated above it. *)
Lemma rotate_left_child m c ll q lr e r L :
  reps_tree m (plug c (Node (Node ll q lr) e r)) L ->
  exists m', schedule_rotate_up m (tptr (plug c (Node (Node ll q lr) e r))) q
               = Ok (m', tptr (plug (FR ll q :: c) (Node lr e r))) /\
    reps_tree m' (plug (FR ll q :: c) (Node lr e r)) L /\ keys_kept m m'.
Proof. apply (rotate_ok m (FL e r) c ll q lr L). Qed.
Lemma rotate_right_child m c l e rl g rr L :
  reps_tree m (plug c (Node l e (Node rl g rr))) L ->
  exists m', schedule_rotate_up m (tptr (plug c (Node l e (Node rl g rr)))) g
               = Ok (m', tptr (plug (FL g rr :: c) (Node l e rl))) /\
    reps_tree m' (plug (FL g rr :: c) (Node l e rl)) L /\ keys_kept m m'.
Proof. apply (rotate_ok m (FR l e) c rl g rr L). Qed.

(** The focus as a hole that is to vanish: everything else is in heap order. *)
Definition hole_heap (pri : positive -> Z) (c : list tframe) (l r : tree) : Prop :=
  cheap pri c /\ heap_ok pri l /\ heap_ok pri r /\ Forall (below pri c) (inord l ++ inord r).

Lemma hole_heap_left pri c ll q lr r :
  hole_heap pri c (Node ll q lr) r -> Forall (fun x => pri q <= pri x) (inord r) ->
  hole_heap pri (FR ll q :: c) lr r.
Proof.
  intros (Hc & (Hq & Hll & Hlr) & Hr & Hb) Hqr. unfold hole_heap. cbn [cheap fsub fptr inord] in *.
  rewrite !Forall_app, list.Forall_cons in Hb. rewrite Forall_app in Hq. destruct Hq as [Hq1 Hq2].
  split_and!; try tauto. apply Forall_app. split; [exact Hq2 | exact Hqr].
Qed.
Lemma hole_heap_right pri c l rl g rr :
  hole_heap pri c l (Node rl g rr) -> Forall (fun x => pri g <= pri x) (inord l) ->
  hole_heap pri (FL g rr :: c) l rl.
Proof.
  intros (Hc & Hl & (Hq & Hll & Hlr) & Hb) Hqr. unfold hole_heap. cbn [cheap fsub fptr inord] in *.
  rewrite !Forall_app, list.Forall_cons in Hb. rewrite Forall_app in Hq. destruct Hq as [Hq1 Hq2].
  split_and!; try tauto. apply Forall_app. split; [exact Hqr | exact Hq1].
Qed.

(** Everything below the root of a heap, and below anything smaller. *)
Lemma heap_root_le pri x l p r :
  heap_ok pri (Node l p r) -> pri x <= pri p -> Forall (fun q => pri x <= pri q) (inord (Node l p r)).
Proof.
  intros (H & _) Hx. cbn [inord]. rewrite Forall_app in H. destruct H as [H1 H2].
  apply Forall_app. split; [|constructor; [done|]]; (eapply Forall_impl; [|eassumption]); cbn; lia.
Qed.

Lemma remove_loop_ok pri fuel : forall m c l e r L,
  (tsize l + tsize r < fuel)%nat -> (forall p, pri_of m p = pri p) ->
  reps_tree m (plug c (Node l e r)) L -> hole_heap pri c l r ->
  exists m' c', remove_loop fuel m (tptr (plug c (Node l e r))) e = Ok (m', tptr (plug c' (Node Leaf e Leaf))) /\
    reps_tree m' (plug c' (Node Leaf e Leaf)) L /\ keys_kept m m' /\
    cleft c' = cleft c ++ inord l /\ cright c' = inord r ++ cright c /\ cheap pri c'.
Proof.
  induction fuel as [|fuel IH]; intros m c l e r L Hf Hpri H Hh; [lia|]. cbn [remove_loop].
  destruct (focus_get _ _ _ _ _ _ H) as (n & -> & _ & _ & El & Er). cbn [mbind result_bind].
  rewrite El, Er. clear El Er.
  assert (forall m1 c1 l1 r1, (tsize l1 + tsize r1 < fuel)%nat -> keys_kept m m1 ->
    reps_tree m1 (plug c1 (Node l1 e r1)) L -> hole_heap pri c1 l1 r1 ->
    cleft c1 ++ inord l1 = cleft c ++ inord l -> inord r1 ++ cright c1 = inord r ++ cright c ->
    exists m' c', remove_loop fuel m1 (tptr (plug c1 (Node l1 e r1))) e = Ok (m', tptr (plug c' (Node Leaf e Leaf))) /\
      reps_tree m' (plug c' (Node Leaf e Leaf)) L /\ keys_kept m m' /\
      cleft c' = cleft c ++ inord l /\ cright c' = inord r ++ cright c /\ cheap pri c') as Hgo.
  { intros m1 c1 l1 r1 Hf1 D1 H1 Hh1 El Er.
    destruct (IH m1 c1 l1 e r1 L Hf1 (pri_same _ _ _ D1 Hpri) H1 Hh1) as (m' & c' & E & H' & D' & E1 & E2 & Hc').
    exists m', c'. split_and!; [done | done | eauto with ovpn | congruence | congruence | done]. }
  clear IH.
  assert (forall ll q lr, l = Node ll q lr -> Forall (fun x => pri q <= pri x) (inord r) ->
    exists m' c', (r' ← schedule_rotate_up m (tptr (plug c (Node l e r))) q;
                   remove_loop fuel (r' : entries * option positive).1 r'.2 e) = Ok (m', tptr (plug c' (Node Leaf e Leaf))) /\
      reps_tree m' (plug c' (Node Leaf e Leaf)) L /\ keys_kept m m' /\
      cleft c' = cleft c ++ inord l /\ cright c' = inord r ++ cright c /\ cheap pri c') as Hleft.
  { intros ll q lr -> Hq. destruct (rotate_left_child _ _ _ _ _ _ _ _ H) as (m1 & -> & H1 & D1).
    cbn [mbind result_bind fst snd]. apply Hgo; [cbn [tsize] in Hf; lia | done | done | by apply hole_heap_left | | done].
    cbn [cleft inord]. by rewrite <- !app_assoc. }
  assert (forall rl g rr, r = Node rl g rr -> Forall (fun x => pri g <= pri x) (inord l) ->
    exists m' c', (r' ← schedule_rotate_up m (tptr (plug c (Node l e r))) g;
                   remove_loop fuel (r' : entries * option positive).1 r'.2 e) = Ok (m', tptr (plug c' (Node Leaf e Leaf))) /\
      reps_tree m' (plug c' (Node Leaf e Leaf)) L /\ keys_kept m m' /\
      cleft c' = cleft c ++ inord l /\ cright c' = inord r ++ cright c /\ cheap pri c') as Hright.
  { intros rl g rr -> Hq. destruct (rotate_right_child _ _ _ _ _ _ _ _ H) as (m1 & -> & H1 & D1).
    cbn [mbind result_bind fst snd]. apply Hgo; [cbn [tsize] in Hf; lia | done | done | by apply hole_heap_right | done |].
    cbn [cright inord]. by rewrite <- !app_assoc. }
  destruct l as [|ll q lr], r as [|rl g rr]; cbn [tptr].
  - exists m, c. split_and!; try done; [by rewrite app_nil_r | apply Hh].
  - by apply (Hright rl g rr).
  - by apply (Hleft ll q lr).
  - destruct (focus_get m (FL e (Node rl g rr) :: c) ll q lr L H) as (ln & -> & El & _).
    destruct (focus_get m (FR (Node ll q lr) e :: c) rl g rr L H) as (gn & -> & Eg & _).
    cbn [mbind result_bind]. apply pri_lookup in El, Eg. rewrite Hpri in El, Eg. rewrite <- El, <- Eg.
    destruct Hh as (_ & Hl & Hr & _).
    destruct (pri q <? pri g) eqn:E; bool_simp; [apply (Hleft ll q lr) | apply (Hright rl g rr)]; try done;
      apply heap_root_le; [done | lia | done | lia].
Qed.

Definition loose : link := (None, None, None).

Lemma detach_ok m c e L :
  reps_tree m (plug c (Node Leaf e Leaf)) L ->
  exists m', schedule_detach_parent m (tptr (plug c (Node Leaf e Leaf))) e = Ok (m', tptr (plug c Leaf)) /\
    reps_tree m' (plug c Leaf) ((e, loose) :: L) /\ keys_kept m m'.
Proof.
  intros H. unfold schedule_detach_parent.
  destruct (focus_get _ _ _ _ _ _ H) as (n & -> & _ & Ep & _). cbn [mbind result_bind]. rewrite Ep.
  apply reps_plug in H. unfold tree_links in H. cbn [links tptr app] in H.
  destruct c as [|f c]; cbn [cpar].
  { exists m. cbn [plug tptr]. rewrite decide_True by done. split_and!; [done | exact H | done]. }
  rewrite clinks_cons in H. cbn [cpar] in H.
  reorder H ((fptr f, flink f (Some e) (cpar c)) :: (e, (Some (fptr f), None, None)) :: fside f ++ clinks c (Some (fptr f)) ++ L).
  destruct (reps_get _ _ _ _ H) as (pn & -> & _ & Hpn). cbn [mbind result_bind].
  assert (exists m1, (if decide (se_lt pn = Some e) then upd m (fptr f) (set_lt None)
           else if decide (se_gt pn = Some e) then upd m (fptr f) (set_gt None) else AssertFail) = Ok m1 /\
    reps m1 ((fptr f, flink f None (cpar c)) :: (e, (Some (fptr f), None, None)) :: fside f ++ clinks c (Some (fptr f)) ++ L) /\
    keys_kept m m1) as (m1 & -> & H1 & D1).
  { destruct f as [p r|l p]; cbn [fptr flink fside] in *; injection Hpn as Hp1 Hp2 Hp3; rewrite Hp2, ?Hp3.
    - rewrite decide_True by done. by eapply upd_lt.
    - pose proof H as He. reorder He ((e, (Some p, None, None)) :: links (Some p) l ++ (p, (cpar c, tptr l, Some e)) :: clinks c (Some p) ++ L).
      rewrite decide_False by (by apply tptr_ne in He). rewrite decide_True by done. by eapply upd_gt. }
  cbn [mbind result_bind].
  reorder H1 ((e, (Some (fptr f), None, None)) :: (fptr f, flink f None (cpar c)) :: fside f ++ clinks c (Some (fptr f)) ++ L).
  destruct (upd_parent _ _ _ _ _ None _ H1) as (m2 & -> & H2 & D2). cbn [mbind result_bind].
  exists m2. split_and!; [|apply reps_plug; unfold tree_links; cbn [links tptr app]; rewrite clinks_cons|eauto with ovpn].
  - do 2 f_equal. cbn [plug]. by rewrite tptr_plug_fill.
  - eapply reps_perm; [|exact H2]. unfold loose. solve_Permutation.
Qed.

Lemma upd_pri m t e lk L v :
  reps_tree m t ((e, lk) :: L) ->
  exists m' tv x, upd m e (set_pri v) = Ok m' /\ reps_tree m' t ((e, lk) :: L) /\
    data m e = Some (tv, x) /\ data m' e = Some (tv, v) /\ (forall q, q <> e -> data m' q = data m q).
Proof.
  intros H. unfold reps_tree in H |- *. pose proof H as H0. reorder H0 ((e, lk) :: links None t ++ L).
  destruct (reps_get _ _ _ _ H0) as (n & E & Em & Hn). unfold upd. rewrite E. cbn [mbind result_bind].
  eexists _, (se_tv n), (se_pri n). split; [done|]. split_and!.
  - destruct H as [HF HN]. split; [|done]. eapply Forall_impl; [|exact HF]. intros [q lq] Hq. cbn in *.
    destruct (decide (e = q)) as [<-|]; [|by rewrite lookup_insert_ne].
    rewrite lookup_insert_eq. rewrite Em in Hq. by destruct n.
  - unfold data. by rewrite Em.
  - unfold data. by rewrite lookup_insert_eq.
  - intros q Hq. unfold data. by rewrite lookup_insert_ne.
Qed.

(** [schedule_remove_node] takes one node out of the tree. *)
Lemma remove_node_ok pri m c l e r L :
  (forall p, pri_of m p = pri p) -> reps_tree m (plug c (Node l e r)) L -> hole_heap pri c l r ->
  exists m' c' tv x, schedule_remove_node m (tptr (plug c (Node l e r))) e = Ok (m', tptr (plug c' Leaf)) /\
    reps_tree m' (plug c' Leaf) ((e, loose) :: L) /\
    data m e = Some (tv, x) /\ data m' e = Some (tv, 0) /\ (forall q, q <> e -> data m' q = data m q) /\
    inord (plug c' Leaf) = cleft c ++ inord l ++ inord r ++ cright c /\ cheap pri c'.
Proof.
  intros Hpri H Hh. unfold schedule_remove_node.
  pose proof (reps_size _ _ _ H) as Hs. rewrite <- length_inord, inord_plug, !length_app in Hs.
  cbn [inord] in Hs. rewrite length_app, !length_inord in Hs. cbn [length] in Hs. rewrite length_inord in Hs.
  destruct (remove_loop_ok pri (S (size m)) m c l e r L) as (m1 & c' & -> & H1 & D1 & El & Er & Hc); [lia | done..|].
  cbn [mbind result_bind fst snd]. destruct (detach_ok _ _ _ _ H1) as (m2 & -> & H2 & D2).
  cbn [mbind result_bind fst snd]. destruct (upd_pri _ _ _ _ _ 0 H2) as (m3 & tv & x & -> & H3 & E1 & E2 & E3).
  cbn [mbind result_bind fst snd]. exists m3, c', tv, x. split_and!; try done.
  - by rewrite <- (keys_kept_trans _ _ _ D1 D2).
  - intros q Hq. rewrite E3 by done. apply (keys_kept_trans _ _ _ D1 D2).
  - rewrite inord_plug, El, Er. cbn [inord app]. by rewrite <- app_assoc.
Qed.

(** ** Search order *)

(** A key: the wakeup time and the priority. *)
Abbreviation key := (timeval * Z)%type.
Definition key_lt (a b : key) : Prop :=
  tv_sec a.1 < tv_sec b.1 \/ (tv_sec a.1 = tv_sec b.1 /\
    (tv_usec a.1 < tv_usec b.1 \/ (tv_usec a.1 = tv_usec b.1 /\ a.2 < b.2))).
Definition node_lt (m : entries) (p q : positive) : Prop :=
  match data m p, data m q with Some a, Some b => key_lt a b | _, _ => False end.

Lemma compare_spec a b :
  (schedule_entry_compare a b = -1 /\ key_lt (se_tv a, se_pri a) (se_tv b, se_pri b)) \/
  (schedule_entry_compare a b = 1 /\ key_lt (se_tv b, se_pri b) (se_tv a, se_pri a)) \/
  (schedule_entry_compare a b = 0 /\ (se_tv a, se_pri a) = (se_tv b, se_pri b)).
Proof.
  unfold schedule_entry_compare, key_lt. destruct a as [[s1 u1] p1 ? ? ?], b as [[s2 u2] p2 ? ? ?].
  cbn [se_tv se_pri tv_sec tv_usec fst snd].
  repeat case_test; try (left; split; [done|]; lia); try (right; left; split; [done|]; lia).
  right; right. split; [done|]. repeat f_equal; lia.
Qed.

Lemma key_lt_trans a b c : key_lt a b -> key_lt b c -> key_lt a c.
Proof. unfold key_lt. lia. Qed.
Lemma key_lt_irrefl a : ~ key_lt a a.
Proof. unfold key_lt. lia. Qed.

Lemma node_lt_trans m p q r : node_lt m p q -> node_lt m q r -> node_lt m p r.
Proof.
  unfold node_lt. destruct (data m p), (data m q), (data m r); try done. apply key_lt_trans.
Qed.

(** Sorted in-order sequences: a search tree. *)
Definition bst (m : entries) (l : list positive) : Prop := StronglySorted (node_lt m) l.

Lemma bst_app m l k :
  bst m (l ++ k) <-> bst m l /\ bst m k /\ forall p q, p ∈ l -> q ∈ k -> node_lt m p q.
Proof.
  induction l as [|x l IH]; cbn [app].
  { split; [|tauto]. intros H. split_and!; [constructor | done | by intros p q ?%not_elem_of_nil]. }
  split.
  - intros H. apply StronglySorted_inv in H as [H1 H2]. apply IH in H1 as (Hl & Hk & Hlk).
    apply Forall_app in H2 as [H2 H3]. split_and!; [by constructor | done|].
    intros p q [-> | Hp]%elem_of_cons Hq; [|auto]. by apply (proj1 (list.Forall_forall _ _) H3).
  - intros (H & Hk & Hlk). apply StronglySorted_inv in H as [Hl Hx]. constructor.
    + apply IH. split_and!; [done..|]. intros. apply Hlk; [by right | done].
    + apply Forall_app. split; [done|]. apply list.Forall_forall. intros q Hq. apply Hlk; [left | done].
Qed.

Lemma bst_ext m m' l : (forall p, p ∈ l -> data m' p = data m p) -> bst m l -> bst m' l.
Proof.
  intros He H. induction H as [|x l Hs IH HF]; constructor.
  - apply IH. intros. apply He. by right.
  - apply list.Forall_forall. intros q Hq. unfold node_lt. rewrite !He by (by left || by right).
    by apply (proj1 (list.Forall_forall _ _) HF).
Qed.

Lemma bst_sublist m l k : l `sublist_of` k -> bst m k -> bst m l.
Proof.
  intros Hs. induction Hs as [|x l k Hs IH|x l k Hs IH]; intros H; [constructor|..];
    apply StronglySorted_inv in H as [H1 H2].
  - constructor; [by apply IH|]. apply list.Forall_forall. intros q Hq.
    apply (proj1 (list.Forall_forall _ _) H2). by eapply sublist_subseteq.
  - by apply IH.
Qed.

(** ** Insertion *)

Lemma draw_pri_pos r : 1 <= draw_pri r.
Proof. unfold draw_pri. destruct (_ <? 1) eqn:E; bool_simp; lia. Qed.

Definition set_hole (f : tframe) : option positive -> schedule_entry -> schedule_entry :=
  match f with FL _ _ => set_lt | FR _ _ => set_gt end.

(** A loose node becomes the leaf at the hole. *)
Lemma attach_ok m f c e L :
  reps_tree m (plug (f :: c) Leaf) ((e, loose) :: L) ->
  exists m1 m2, upd m (fptr f) (set_hole f (Some e)) = Ok m1 /\ upd m1 e (set_parent (Some (fptr f))) = Ok m2 /\
    reps_tree m2 (plug (f :: c) (Node Leaf e Leaf)) L /\ keys_kept m m2.
Proof.
  intros H%reps_plug. unfold tree_links in H. cbn [links tptr app] in H. rewrite clinks_cons in H. cbn [app] in H.
  assert (exists m1, upd m (fptr f) (set_hole f (Some e)) = Ok m1 /\
    reps m1 ((fptr f, flink f (Some e) (cpar c)) :: (fside f ++ clinks c (Some (fptr f))) ++ (e, loose) :: L) /\
    keys_kept m m1) as (m1 & E1 & H1 & D1).
  { destruct f; cbn [flink set_hole fptr] in *; [by eapply upd_lt | by eapply upd_gt]. }
  reorder H1 ((e, loose) :: (fptr f, flink f (Some e) (cpar c)) :: (fside f ++ clinks c (Some (fptr f))) ++ L).
  destruct (upd_parent _ _ _ _ _ (Some (fptr f)) _ H1) as (m2 & E2 & H2 & D2).
  exists m1, m2. split_and!; [done | done | | eauto with ovpn].
  apply reps_plug. unfold tree_links. cbn [links tptr app cpar]. rewrite clinks_cons. exact H2.
Qed.

(** Where the new node goes: everything left of it is less, everything right of it more. *)
Definition between (m : entries) (c : list tframe) (e : positive) : Prop :=
  (forall p, p ∈ cleft c -> node_lt m p e) /\ (forall p, p ∈ cright c -> node_lt m e p).

Lemma between_left m c l q r e :
  bst m (inord (plug c (Node l q r))) -> between m c e -> node_lt m e q -> between m (FL q r :: c) e.
Proof.
  rewrite inord_plug. cbn [inord]. rewrite !bst_app. intros (_ & ((_ & Hq & _) & _ & _) & _) [Hl Hr] Hlt.
  split; [exact Hl|]. cbn [cright]. intros p [-> | [Hp | Hp]%elem_of_app]%elem_of_cons; [done| |auto].
  apply StronglySorted_inv in Hq as [_ Hq]. eapply node_lt_trans; [exact Hlt|].
  by apply (proj1 (list.Forall_forall _ _) Hq).
Qed.
Lemma between_right m c l q r e :
  bst m (inord (plug c (Node l q r))) -> between m c e -> node_lt m q e -> between m (FR l q :: c) e.
Proof.
  rewrite inord_plug. cbn [inord]. rewrite !bst_app. intros (_ & ((_ & _ & Hlq) & _ & _) & _) [Hl Hr] Hlt.
  split; [|exact Hr]. cbn [cleft]. intros p [Hp | [Hp | ->%list_elem_of_singleton]%elem_of_app]%elem_of_app; [auto| |done].
  eapply node_lt_trans; [|exact Hlt]. apply Hlq; [done | left].
Qed.

Lemma between_same m m' c e : keys_kept m m' -> between m c e -> between m' c e.
Proof. intros D [Hl Hr]. split; intros p Hp; unfold node_lt; rewrite !D; [by apply Hl | by apply Hr]. Qed.

(** Some draw, if one is still needed, does not collide. *)
Definition draws_ok (m : entries) (l : list positive) (tv : timeval) (x : Z) (rnd : list Z) : Prop :=
  (forall p, p ∈ l -> data m p <> Some (tv, x)) \/
  (exists d, d ∈ rnd /\ forall p, p ∈ l -> data m p <> Some (tv, draw_pri d)).

Lemma node_compare m e c en cn :
  m !! e = Some en -> m !! c = Some cn ->
  (schedule_entry_compare en cn = -1 /\ node_lt m e c) \/ (schedule_entry_compare en cn = 1 /\ node_lt m c e) \/
  (schedule_entry_compare en cn = 0 /\ data m c = data m e).
Proof.
  intros Ee Ec. unfold node_lt, data. rewrite Ee, Ec. cbn [fmap option_fmap option_map].
  destruct (compare_spec en cn) as [[? ?] | [[? ?] | [? E]]]; [by left | by right; left | right; right; by rewrite E].
Qed.

(** What insertion achieves. *)
Definition inserted (m m' : entries) (t : tree) (e : positive) (tv : timeval) (L : list (positive * link))
    (c : list tframe) : Prop :=
  plug c Leaf = t /\ reps_tree m' (plug c (Node Leaf e Leaf)) L /\ between m' c e /\
  (exists x, data m' e = Some (tv, x) /\ 1 <= x) /\ (forall p, p <> e -> data m' p = data m p).

Lemma insert_attach m f c e tv x L :
  reps_tree m (plug (f :: c) Leaf) ((e, loose) :: L) -> between m (f :: c) e -> data m e = Some (tv, x) -> 1 <= x ->
  exists m1 m2, upd m (fptr f) (set_hole f (Some e)) = Ok m1 /\ upd m1 e (set_parent (Some (fptr f))) = Ok m2 /\
    inserted m m2 (plug (f :: c) Leaf) e tv L (f :: c).
Proof.
  intros H Hb He Hx. destruct (attach_ok _ _ _ _ _ H) as (m1 & m2 & E1 & E2 & H2 & D).
  exists m1, m2. split_and!; [done..|]. split_and!; [done | done | by eapply between_same | | by intros].
  exists x. by rewrite D.
Qed.

Lemma reps_loose_notin m t e lk L : reps_tree m t ((e, lk) :: L) -> e ∉ inord t.
Proof.
  intros H%reps_nodup He. rewrite fmap_cons in H. apply list.NoDup_app in H as (_ & H & _).
  apply (H e He). left.
Qed.

Lemma insert_loop_ok e tv L T rt : tptr T = Some rt -> forall fuel m rnd c l q r x,
  plug c (Node l q r) = T -> (tsize (Node l q r) + S (tsize T) * length rnd < fuel)%nat ->
  reps_tree m T ((e, loose) :: L) -> bst m (inord T) -> between m c e -> data m e = Some (tv, x) -> 1 <= x ->
  draws_ok m (inord T) tv x rnd ->
  exists m' rnd' c', insert_loop fuel m rnd rt q e = Ok (m', rnd') /\ c' <> [] /\ inserted m m' T e tv L c'.
Proof.
  intros HT. induction fuel as [|fuel IH]; intros m rnd c l q r x Hp Hf H Hb Hc He Hx Hd; [lia|]. cbn [insert_loop].
  assert (exists en, get m e = Ok en /\ m !! e = Some en) as (en & -> & Een).
  { unfold get. unfold data in He. destruct (m !! e) as [en|]; [by exists en | done]. }
  pose proof H as H0. rewrite <- Hp in H0.
  destruct (focus_get _ _ _ _ _ _ H0) as (cn & -> & Ecn & _ & El & Er). cbn [mbind result_bind].
  pose proof Hb as Hb0. rewrite <- Hp in Hb0.
  destruct (node_compare m e q en cn Een Ecn) as [[-> Hlt] | [[-> Hlt] | [-> Heq]]]; cbn [Z.eqb Pos.eqb];
    rewrite ?El, ?Er.
  - pose proof (between_left _ _ _ _ _ _ Hb0 Hc Hlt) as Hc'. destruct l as [|l1 l2 l3]; cbn [tptr].
    + destruct (insert_attach m (FL q r) c e tv x L H0 Hc' He Hx) as (m1 & m2 & E1 & E2 & Hi).
      cbn [fptr set_hole] in E1, E2. rewrite E1. cbn [mbind result_bind]. rewrite E2. cbn [mbind result_bind].
      exists m2, rnd, (FL q r :: c). split; [done|]. split; [done|]. by rewrite <- Hp.
    + eapply (IH m rnd (FL q r :: c) l1 l2 l3 x); try done. cbn [tsize] in *. lia.
  - pose proof (between_right _ _ _ _ _ _ Hb0 Hc Hlt) as Hc'. destruct r as [|r1 r2 r3]; cbn [tptr].
    + destruct (insert_attach m (FR l q) c e tv x L H0 Hc' He Hx) as (m1 & m2 & E1 & E2 & Hi).
      cbn [fptr set_hole] in E1, E2. rewrite E1. cbn [mbind result_bind]. rewrite E2. cbn [mbind result_bind].
      exists m2, rnd, (FR l q :: c). split; [done|]. split; [done|]. by rewrite <- Hp.
    + eapply (IH m rnd (FR l q :: c) r1 r2 r3 x); try done. cbn [tsize] in *. lia.
  - assert (q ∈ inord T) as Hq.
    { rewrite <- Hp, inord_plug. cbn [inord]. rewrite !elem_of_app, elem_of_cons. tauto. }
    destruct Hd as [Hd | (d & Hd & Hnd)]; [destruct (Hd q Hq); congruence|].
    destruct rnd as [|y rnd]; [by apply not_elem_of_nil in Hd|]. cbn [schedule_set_pri].
    destruct (upd_pri _ _ _ _ _ (draw_pri y) H) as (m1 & tv' & x' & -> & H1 & E1 & E2 & E3).
    cbn [mbind result_bind fst snd]. rewrite He in E1. injection E1 as <- <-.
    pose proof (reps_loose_notin _ _ _ _ _ H) as Hnin.
    destruct T as [|Tl Tq Tr]; [done|]. injection HT as <-.
    assert (forall p, p ∈ inord (Node Tl Tq Tr) -> data m1 p = data m p) as Hsame
      by (intros p Hp'; apply E3; by intros ->).
    destruct (IH m1 rnd [] Tl Tq Tr (draw_pri y)) as (m' & rnd' & c' & E & Hcne & Hi); try done.
    + cbn [length] in Hf. lia.
    + by eapply bst_ext.
    + split; intros p Hp'; cbn in Hp'; by apply not_elem_of_nil in Hp'.
    + apply draw_pri_pos.
    + apply elem_of_cons in Hd as [-> | Hd]; [left | right; exists d; split; [done|]];
        intros p Hp'; rewrite Hsame by done; by apply Hnd.
    + exists m', rnd', c'. split; [done|]. split; [done|]. destruct Hi as (? & ? & ? & ? & Ho). split_and!; try done.
      intros p Hpe. rewrite Ho by done. by apply E3.
Qed.

(** ** Moving up *)

Lemma hole_heap_up pri f c l e r :
  hole_heap pri (f :: c) l r -> Forall (fun q => pri e <= pri q) (inord l ++ inord r) -> pri e < pri (fptr f) ->
  match f with
  | FR pl p => hole_heap pri c (Node pl p l) r /\ Forall (fun q => pri e <= pri q) (inord (Node pl p l) ++ inord r)
  | FL p pr => hole_heap pri c l (Node r p pr) /\ Forall (fun q => pri e <= pri q) (inord l ++ inord (Node r p pr))
  end.
Proof.
  intros ((Hs & Hfs & Hbp & Hc) & Hl & Hr & Hb) He Hlt. cbn [below] in Hb.
  assert (forall k, Forall (fun q => pri (fptr f) <= pri q) k -> Forall (below pri c) k) as Hbel
    by (intros k; by apply Forall_below).
  assert (Forall (fun q => pri e <= pri q) (inord (fsub f))) as Hes by (eapply Forall_impl; [|exact Hfs]; cbn; lia).
  apply Forall_app in Hb as [Hb1 Hb2]. apply Forall_app in He as [He1 He2].
  destruct f as [p pr|pl p]; cbn [fsub fptr] in *; unfold hole_heap; cbn [heap_ok inord];
    rewrite !Forall_app, !list.Forall_cons; pose proof (Hbel _ Hfs); pose proof (Hbel _ Hb1); pose proof (Hbel _ Hb2);
    split_and!; try done; lia.
Qed.

Lemma up_loop_ok pri fuel : forall m c l e r L,
  (length c < fuel)%nat -> (forall p, pri_of m p = pri p) ->
  reps_tree m (plug c (Node l e r)) L -> hole_heap pri c l r ->
  Forall (fun q => pri e <= pri q) (inord l ++ inord r) ->
  exists m' T, up_loop fuel m (tptr (plug c (Node l e r))) e = Ok (m', tptr T) /\
    reps_tree m' T L /\ keys_kept m m' /\ inord T = inord (plug c (Node l e r)) /\ heap_ok pri T.
Proof.
  induction fuel as [|fuel IH]; intros m c l e r L Hf Hpri H Hh He; [lia|]. cbn [up_loop].
  destruct (focus_get _ _ _ _ _ _ H) as (n & -> & En & Ep & _). cbn [mbind result_bind]. rewrite Ep.
  apply pri_lookup in En. rewrite Hpri in En. rewrite <- En.
  assert (below pri c e -> heap_ok pri (plug c (Node l e r))) as Hstop.
  { intros Hb. apply heap_plug. destruct Hh as (Hc & Hl & Hr & Hlr). split_and!; [done | done |].
    cbn [inord]. apply Forall_app in Hlr as [H1 H2]. apply Forall_app. split; [done|]. by constructor. }
  destruct c as [|f c]; cbn [cpar].
  { exists m. eexists. split_and!; [done | done | done | done | by apply Hstop]. }
  assert (exists pn, get m (fptr f) = Ok pn /\ m !! fptr f = Some pn) as (pn & -> & Epn).
  { destruct f as [p pr|pl p]; cbn [plug fill fptr] in *;
      destruct (focus_get _ _ _ _ _ _ H) as (pn & ? & ? & _); by exists pn. }
  cbn [mbind result_bind]. apply pri_lookup in Epn. rewrite Hpri in Epn. rewrite <- Epn.
  destruct (pri (fptr f) >? pri e) eqn:E; bool_simp.
  2:{ exists m. eexists. split_and!; [done | done | done | done | by apply Hstop]. }
  destruct (rotate_ok m f c l e r L H) as (m1 & -> & H1 & D1). cbn [mbind result_bind fst snd].
  pose proof (hole_heap_up pri f c l e r Hh He E) as Hup. rewrite <- inord_rotated. cbn [length] in Hf.
  destruct f as [p pr|pl p]; destruct Hup as [Hh' He']; cbn [rotated] in *;
    (destruct (IH m1 c _ e _ L ltac:(lia) (pri_same _ _ _ D1 Hpri) H1 Hh' He') as (m' & T & Eu & H' & D' & Ei & Hk);
     exists m', T; split_and!; [done | done | eauto with ovpn | done | done]).
Qed.

(** ** Finding the earliest *)

Lemma find_least_loop_ok fuel : forall m c l p r L,
  (tsize l < fuel)%nat -> reps_tree m (plug c (Node l p r)) L ->
  exists x, find_least_loop fuel m p = Ok x /\ head (inord (Node l p r)) = Some x.
Proof.
  induction fuel as [|fuel IH]; intros m c l p r L Hf H; [lia|]. cbn [find_least_loop].
  destruct (focus_get _ _ _ _ _ _ H) as (n & -> & _ & _ & El & _). cbn [mbind result_bind]. rewrite El.
  destruct l as [|ll lp lr]; cbn [tptr]; [by exists p|].
  destruct (IH m (FL p r :: c) ll lp lr L) as (x & Ex & Hx); [cbn [tsize] in Hf; lia | exact H|].
  exists x. split; [done|]. cbn [inord] in *. by destruct (inord ll).
Qed.

Lemma find_least_ok m T L : reps_tree m T L -> schedule_find_least m (tptr T) = Ok (head (inord T)).
Proof.
  intros H. destruct T as [|l p r]; cbn [tptr schedule_find_least]; [done|].
  pose proof (reps_size _ _ _ H) as Hs. cbn [tsize] in Hs.
  destruct (find_least_loop_ok (S (size m)) m [] l p r L) as (x & -> & ->); [lia | done | done].
Qed.

(** ** The invariant of the scheduler *)

Definition tv_of (m : entries) (p : positive) : option timeval := se_tv <$> m !! p.
Definition same_tv (m m' : entries) : Prop := forall p, tv_of m' p = tv_of m p.

(** The entries of the store are the nodes of [T] and the loose ones of [L]; only the
    former have a priority. *)
Record tree_ok (m : entries) (T : tree) (L : list positive) : Prop := {
  to_reps : reps_tree m T (map (fun p => (p, loose)) L);
  to_heap : heap_ok (pri_of m) T;
  to_in : forall p, p ∈ inord T -> 1 <= pri_of m p;
  to_out : forall p, p ∈ L -> pri_of m p = 0;
  to_dom : forall p, is_Some (m !! p) -> p ∈ inord T ++ L
}.

Lemma tv_data m p : tv_of m p = fst <$> data m p.
Proof. unfold tv_of, data. by destruct (m !! p). Qed.
Lemma data_pri m p tv x : data m p = Some (tv, x) -> pri_of m p = x.
Proof. unfold pri_of. by intros ->. Qed.
Lemma pri_data_eq m m' p : data m' p = data m p -> pri_of m' p = pri_of m p.
Proof. unfold pri_of. by intros ->. Qed.
Lemma data_is_some m p : is_Some (m !! p) <-> is_Some (data m p).
Proof. unfold data. by rewrite fmap_is_Some. Qed.

Lemma focus_exists e T : e ∈ inord T -> exists c l r, T = plug c (Node l e r).
Proof.
  assert (forall T c, e ∈ inord T -> exists c' l r, plug c T = plug c' (Node l e r)) as H; [|apply (H T [])].
  clear T. induction T as [|l IHl p r IHr]; intros c; cbn [inord]; [by intros ?%not_elem_of_nil|].
  intros [Hl | [-> | Hr]%elem_of_cons]%elem_of_app; [apply (IHl (FL p r :: c) Hl) | by exists c, l, r | apply (IHr (FR l p :: c) Hr)].
Qed.

Lemma heap_ext pri pri' t : (forall p, p ∈ inord t -> pri' p = pri p) -> heap_ok pri t -> heap_ok pri' t.
Proof.
  induction t as [|l IHl p r IHr]; cbn [heap_ok inord]; intros He; [done|]. intros (H & Hl & Hr).
  assert (forall q, q ∈ inord l ++ inord r -> pri' q = pri q) as He'
    by (intros q Hq; apply He; rewrite elem_of_app, elem_of_cons; apply elem_of_app in Hq; tauto).
  split_and!.
  - apply list.Forall_forall. intros q Hq. rewrite (He p), (He' q Hq) by (rewrite elem_of_app, elem_of_cons; tauto).
    by apply (proj1 (list.Forall_forall _ _) H).
  - apply IHl; [|done]. intros q Hq. apply He'. apply elem_of_app. by left.
  - apply IHr; [|done]. intros q Hq. apply He'. apply elem_of_app. by right.
Qed.

Lemma filter_ne_split (e : positive) l1 l2 :
  e ∉ l1 -> e ∉ l2 -> filter (fun p => p <> e) (l1 ++ e :: l2) = l1 ++ l2.
Proof.
  intros H1 H2. assert (forall l : list positive, e ∉ l -> filter (fun p => p <> e) l = l) as Hid.
  { induction l as [|x l IH]; [done|]. intros [Hx Hl]%not_elem_of_cons.
    rewrite filter_cons_True by congruence. by rewrite IH. }
  rewrite list.filter_app, filter_cons_False by tauto. by rewrite !Hid.
Qed.

Lemma loose_keys (L : list positive) : (map (fun p : positive => (p, loose)) L).*1 = L.
Proof. induction L; cbn; [done|]. by f_equal. Qed.

Lemma tree_ok_nodup m T L : tree_ok m T L -> NoDup (inord T ++ L).
Proof. intros [H _ _ _ _]. apply reps_nodup in H. by rewrite loose_keys in H. Qed.

(** Taking a node out; its own place in the order does not matter. *)
Lemma remove_in_tree m T L e :
  tree_ok m T L -> e ∈ inord T -> bst m (filter (fun p => p <> e) (inord T)) ->
  exists m' T', schedule_remove_node m (tptr T) e = Ok (m', tptr T') /\ tree_ok m' T' (e :: L) /\
    bst m' (inord T') /\ inord T' = filter (fun p => p <> e) (inord T) /\ same_tv m m'.
Proof.
  intros Ht He Hb. pose proof (tree_ok_nodup _ _ _ Ht) as Hn.
  assert (e ∉ L) as HeL by (apply list.NoDup_app in Hn as (_ & Hn & _); by apply Hn).
  destruct Ht as [Hr Hh Hi Ho Hd].
  destruct (focus_exists e T He) as (c & l & r & ->).
  apply heap_plug in Hh as (Hc & (_ & Hl & Hrr) & Hbel). cbn [inord] in Hbel.
  assert (hole_heap (pri_of m) c l r) as Hhole.
  { split_and!; [done..|]. apply Forall_app in Hbel as [H1 H2]. apply Forall_inv_tail in H2. apply Forall_app. done. }
  destruct (remove_node_ok (pri_of m) m c l e r _ (fun p => eq_refl) Hr Hhole)
    as (m' & c' & tv & x & E & H' & E1 & E2 & E3 & Ein & Hc').
  rewrite inord_plug in Hn, Hb |- *. cbn [inord] in *.
  assert ((e ∉ cleft c ++ inord l) /\ (e ∉ inord r ++ cright c)) as [Hn1 Hn2].
  { apply list.NoDup_app in Hn as (Hn & _ & _). rewrite <- app_assoc, app_assoc in Hn. cbn [app] in Hn.
    apply list.NoDup_app in Hn as (_ & Hn1 & Hn2). apply list.NoDup_cons in Hn2 as [Hn2 _].
    split; [|done]. intros Hx. apply (Hn1 e Hx). left. }
  replace (cleft c ++ (inord l ++ e :: inord r) ++ cright c)
    with ((cleft c ++ inord l) ++ e :: inord r ++ cright c) in *
    by (by rewrite <- !app_assoc).
  rewrite filter_ne_split in * by done. rewrite <- app_assoc in *. rewrite <- Ein in *.
  assert (e ∉ inord (plug c' Leaf)) as Hne.
  { rewrite Ein, app_assoc. intros [|]%elem_of_app; tauto. }
  exists m', (plug c' Leaf). split_and!; [done | split | | done |].
  - exact H'.
  - apply (heap_ext (pri_of m)).
    + intros p Hp. apply pri_data_eq, E3. by intros ->.
    + apply heap_plug. split_and!; [done | done | constructor].
  - intros p Hp. rewrite (pri_data_eq m) by (apply E3; by intros ->). apply Hi.
    rewrite Ein in Hp. rewrite inord_plug. cbn [inord].
    rewrite !elem_of_app, elem_of_cons. rewrite !elem_of_app in Hp. tauto.
  - intros p [-> | Hp]%elem_of_cons; [by eapply data_pri|]. rewrite (pri_data_eq m); [by apply Ho|].
    apply E3. by intros ->.
  - intros p Hp. assert (is_Some (m !! p)) as Hp'.
    { apply data_is_some. apply data_is_some in Hp. destruct (decide (p = e)) as [->|]; [by rewrite E1 | by rewrite <- E3]. }
    apply Hd in Hp'. rewrite inord_plug in Hp'. cbn [inord] in Hp'.
    rewrite Ein. rewrite !elem_of_app, !elem_of_cons in *. tauto.
  - eapply bst_ext; [|exact Hb]. intros p Hp. apply E3. by intros ->.
  - intros p. rewrite !tv_data. destruct (decide (p = e)) as [->|]; [by rewrite E1, E2 | by rewrite E3].
Qed.

Lemma tree_ok_perm m T L L' : L ≡ₚ L' -> tree_ok m T L -> tree_ok m T L'.
Proof.
  intros HL [Hr Hh Hi Ho Hd]. split; [|done|done| |].
  - eapply reps_perm; [|exact Hr]. by rewrite HL.
  - intros p. rewrite <- HL. apply Ho.
  - intros p. rewrite <- HL. apply Hd.
Qed.

(** Enough distinct draws contain a priority not in use. *)
Lemma draw_exists (K rnd : list Z) :
  NoDup (map draw_pri rnd) -> (length K < length rnd)%nat -> exists d, d ∈ rnd /\ draw_pri d ∉ K.
Proof.
  intros Hn Hl. destruct (decide (Exists (fun d => draw_pri d ∉ K) rnd)) as [H | H].
  { apply list.Exists_exists in H as (d & ? & ?). by exists d. }
  exfalso. assert (map draw_pri rnd ⊆+ K) as Hs.
  { apply NoDup_submseteq; [done|]. intros x (d & -> & Hd)%list_elem_of_fmap.
    destruct (decide (draw_pri d ∈ K)); [done|]. exfalso. apply H. apply list.Exists_exists. eauto. }
  apply submseteq_length in Hs. rewrite length_map in Hs. lia.
Qed.

Lemma bst_between m c e :
  bst m (inord (plug c Leaf)) -> between m c e -> bst m (inord (plug c (Node Leaf e Leaf))).
Proof.
  rewrite !inord_plug. cbn [inord app]. intros (Hl & Hr & Hlr)%bst_app [H1 H2].
  apply bst_app. split_and!; [done | |].
  - constructor; [done|]. by apply list.Forall_forall.
  - intros p q Hp [-> | Hq]%elem_of_cons; auto.
Qed.

Lemma tsize_plug c t : (length c + tsize t <= tsize (plug c t))%nat.
Proof.
  revert t. induction c as [|f c IH]; intros t; cbn [plug length]; [lia|].
  specialize (IH (fill f t)). destruct f; cbn [fill tsize] in *; lia.
Qed.

(** A new leaf of a search tree is moved up to its place in the heap. *)
Lemma settle_ok m m1 c e tv L :
  inserted m m1 (plug c Leaf) e tv (map (fun p => (p, loose)) L) c ->
  heap_ok (pri_of m) (plug c Leaf) -> bst m (inord (plug c Leaf)) -> e ∉ inord (plug c Leaf) ->
  exists m2 T, up_loop (S (size m1)) m1 (tptr (plug c (Node Leaf e Leaf))) e = Ok (m2, tptr T) /\
    reps_tree m2 T (map (fun p => (p, loose)) L) /\ keys_kept m1 m2 /\ heap_ok (pri_of m1) T /\
    bst m1 (inord T) /\ inord T ≡ₚ e :: inord (plug c Leaf).
Proof.
  intros (_ & H & Hb & _ & Ho) Hh Hbst Hne.
  assert (heap_ok (pri_of m1) (plug c Leaf)) as Hh1.
  { apply (heap_ext (pri_of m)); [|done]. intros p Hp. apply pri_data_eq, Ho. by intros ->. }
  apply heap_plug in Hh1 as (Hc & _ & _). pose proof (reps_size _ _ _ H) as Hs.
  pose proof (tsize_plug c (Node Leaf e Leaf)) as Hlc.
  destruct (up_loop_ok (pri_of m1) (S (size m1)) m1 c Leaf e Leaf _ ltac:(lia) (fun p => eq_refl) H)
    as (m2 & T & E & H2 & D2 & Ei & Hk); [by split_and! | constructor |].
  exists m2, T. split_and!; try done.
  - rewrite Ei. apply bst_between; [|done]. eapply bst_ext; [|exact Hbst]. intros p Hp. apply Ho. by intros ->.
  - rewrite Ei, !inord_plug. cbn [inord app]. solve_Permutation.
Qed.

Lemma plug_root f c t u : tptr (plug (f :: c) t) = tptr (plug (f :: c) u).
Proof. cbn [plug]. by rewrite tptr_plug_fill, (tptr_plug_fill _ _ u). Qed.

(** The node, with its priority drawn, becomes a leaf or the root. *)
Lemma insert_root_ok m T L e tv x rnd :
  reps_tree m T ((e, loose) :: map (fun p => (p, loose)) L) -> bst m (inord T) -> data m e = Some (tv, x) -> 1 <= x ->
  draws_ok m (inord T) tv x rnd ->
  exists m2 c, (match tptr T with
      | Some rt => r ← schedule_insert m rnd rt e; Ok ((r : entries * list Z).1, tptr T)
      | None => Ok (m, Some e)
      end) = Ok (m2, tptr (plug c (Node Leaf e Leaf))) /\
    inserted m m2 T e tv (map (fun p => (p, loose)) L) c.
Proof.
  intros Hr Hb He Hx Hdr. pose proof (reps_size _ _ _ Hr) as Hs. destruct T as [|l q r]; cbn [tptr].
  { exists m, []. split; [done|]. split_and!; [done | done | | by exists x | done].
    split; intros p Hp; by apply not_elem_of_nil in Hp. }
  unfold schedule_insert.
  destruct (insert_loop_ok e tv (map (fun p => (p, loose)) L) (Node l q r) q eq_refl
              (S (size m) * S (length rnd)) m rnd [] l q r x) as (m2 & rnd' & c & -> & Hc & Hins); try done.
  { pose proof (Nat.mul_le_mono_r (S (tsize (Node l q r))) (S (size m)) (length rnd) ltac:(lia)).
    cbn [length] in Hs. lia. }
  { split; intros p Hp; by apply not_elem_of_nil in Hp. }
  cbn [mbind result_bind fst]. exists m2, c. split; [|done]. destruct Hins as (Hpl & _).
  destruct c as [|f c]; [done|]. do 2 f_equal. rewrite (plug_root f c _ Leaf), Hpl. done.
Qed.

(** A loose node goes into the tree. *)
Lemma place_ok m T L e tv rnd :
  tree_ok m T (e :: L) -> bst m (inord T) -> tv_of m e = Some tv ->
  (exists d, d ∈ rnd /\ forall p, p ∈ inord T -> data m p <> Some (tv, draw_pri d)) ->
  exists m' T', schedule_place m (tptr T) rnd e = Ok (m', tptr T') /\ tree_ok m' T' L /\
    bst m' (inord T') /\ inord T' ≡ₚ e :: inord T /\ same_tv m m'.
Proof.
  intros Ht Hb Htv (d & Hd1 & Hd2). pose proof (tree_ok_nodup _ _ _ Ht) as Hnd. destruct Ht as [Hr Hh Hi Ho Hd].
  cbn [map] in Hr. pose proof (reps_loose_notin _ _ _ _ _ Hr) as Hne. pose proof (reps_size _ _ _ Hr) as Hs.
  destruct rnd as [|y rnd]; [by apply not_elem_of_nil in Hd1|].
  unfold schedule_place. cbn [schedule_set_pri].
  destruct (upd_pri _ _ _ _ _ (draw_pri y) Hr) as (m1 & tv' & x & -> & H1 & E1 & E2 & E3).
  cbn [mbind result_bind].
  assert (tv' = tv) as -> by (rewrite tv_data, E1 in Htv; by injection Htv).
  assert (forall p, p ∈ inord T -> data m1 p = data m p) as Hsame by (intros p Hp; apply E3; by intros ->).
  assert (draws_ok m1 (inord T) tv (draw_pri y) rnd) as Hdr.
  { apply elem_of_cons in Hd1 as [-> | Hd1]; [left | right; exists d; split; [done|]];
      intros p Hp; rewrite Hsame by done; by apply Hd2. }
  destruct (insert_root_ok m1 T L e tv (draw_pri y) rnd) as (m2 & c & -> & Hins); try done;
    [by eapply bst_ext | apply draw_pri_pos |].
  cbn [mbind result_bind]. pose proof Hins as (Hpl & _ & _ & (x2 & E4 & Hx2) & Ho2). rewrite <- Hpl in *.
  destruct (settle_ok m1 m2 c e tv L Hins) as (m3 & T3 & -> & H3 & D3 & Hh3 & Hb3 & Hp3); try done.
  { apply (heap_ext (pri_of m)); [|done]. intros p Hp. by apply pri_data_eq, Hsame. }
  { by eapply bst_ext. }
  assert (forall p, p <> e -> data m3 p = data m p) as Hall by (intros p Hp; rewrite D3, Ho2, E3; done).
  exists m3, T3. split_and!; [done | split | | done |].
  - done.
  - apply (heap_ext (pri_of m2)); [|done]. intros p _. by apply pri_data_eq.
  - intros p Hp. rewrite Hp3 in Hp. apply elem_of_cons in Hp as [-> | Hp].
    + rewrite (pri_data_eq m2) by done. by rewrite (data_pri _ _ _ _ E4).
    + rewrite (pri_data_eq m) by (apply Hall; by intros ->). by apply Hi.
  - intros p Hp. assert (p <> e).
    { intros ->. apply list.NoDup_app in Hnd as (_ & _ & Hnd). by apply list.NoDup_cons in Hnd as [? _]. }
    rewrite (pri_data_eq m) by (by apply Hall). apply Ho. by right.
  - intros p Hp. rewrite Hp3. assert (is_Some (m !! p)) as Hp'.
    { apply data_is_some. apply data_is_some in Hp. destruct (decide (p = e)) as [->|]; [by rewrite E1 | by rewrite <- Hall]. }
    apply Hd in Hp'. rewrite !elem_of_app, !elem_of_cons in *. tauto.
  - eapply bst_ext; [|exact Hb3]. intros p _. apply D3.
  - intros p. rewrite !tv_data. destruct (decide (p = e)) as [->|]; [by rewrite D3, E4, E1 | by rewrite Hall].
Qed.

(** Enough distinct draws will do. *)
Lemma schedule_place_ok m T L e rnd :
  tree_ok m T (e :: L) -> bst m (inord T) -> NoDup (map draw_pri rnd) -> (size m < length rnd)%nat ->
  exists m' T', schedule_place m (tptr T) rnd e = Ok (m', tptr T') /\ tree_ok m' T' L /\
    bst m' (inord T') /\ inord T' ≡ₚ e :: inord T /\ same_tv m m'.
Proof.
  intros Ht Hb Hn Hlen. pose proof (reps_size _ _ _ (to_reps _ _ _ Ht)) as Hs.
  destruct (draw_exists (map (pri_of m) (inord T)) rnd Hn) as (d & Hd1 & Hd2).
  { rewrite length_map, length_inord. lia. }
  pose proof (to_reps _ _ _ Ht) as Hr. unfold reps_tree in Hr. cbn [map] in Hr.
  reorder Hr ((e, loose) :: links None T ++ map (fun p => (p, loose)) L).
  destruct (reps_get _ _ _ _ Hr) as (n & _ & En & _).
  apply (place_ok m T L e (se_tv n)); [done | done | unfold tv_of; by rewrite En |].
  exists d. split; [done|]. intros p Hp Ep. apply Hd2. rewrite <- (data_pri _ _ _ _ Ep).
  by apply list_elem_of_fmap_2.
Qed.

(** ** The public operations *)

Lemma tree_ok_lookup m T L e : tree_ok m T L -> e ∈ inord T ++ L -> exists n, get m e = Ok n /\ m !! e = Some n.
Proof.
  intros [[HF _] _ _ _ _] He.
  assert (e ∈ (links None T ++ map (fun p : positive => (p, loose)) L).*1) as Hk.
  { rewrite fmap_app, links_keys, loose_keys. done. }
  apply list_elem_of_fmap in Hk as ([q lk] & -> & Hq).
  pose proof (proj1 (list.Forall_forall _ _) HF _ Hq) as E. cbn in *.
  unfold get. destruct (m !! q) as [n|]; [by exists n | done].
Qed.

(** An entry's priority says whether it is in the tree. *)
Lemma IN_TREE_ok m T L e n : tree_ok m T L -> m !! e = Some n -> IN_TREE n = bool_decide (e ∈ inord T).
Proof.
  intros [_ _ Hi Ho Hd] En. unfold IN_TREE. rewrite <- (pri_lookup _ _ _ En).
  destruct (bool_decide (e ∈ inord T)) eqn:Eb.
  - apply bool_decide_eq_true in Eb. specialize (Hi e Eb). apply negb_true_iff, Z.eqb_neq. lia.
  - apply bool_decide_eq_false in Eb. assert (e ∈ L) as HL.
    { assert (is_Some (m !! e)) as Hs by eauto. apply Hd, elem_of_app in Hs. tauto. }
    by rewrite (Ho e HL).
Qed.

(** A change of data that keeps links and priorities. *)
Lemma tree_ok_data m m' T L :
  (forall p, link_of <$> m' !! p = link_of <$> m !! p) -> (forall p, pri_of m' p = pri_of m p) ->
  tree_ok m T L -> tree_ok m' T L.
Proof.
  intros Hl Hp [[HF HN] Hh Hi Ho Hd].
  assert (forall p, is_Some (m' !! p) -> is_Some (m !! p)) as Hs.
  { intros p Hs. specialize (Hl p). destruct (m' !! p), (m !! p); naive_solver. }
  split.
  - split; [|done]. eapply Forall_impl; [|exact HF]. intros x Hx. by rewrite Hl.
  - apply (heap_ext (pri_of m)); auto.
  - intros p. rewrite Hp. auto.
  - intros p. rewrite Hp. auto.
  - auto.
Qed.

Lemma upd_tv_ok m T L e tv :
  tree_ok m T L -> e ∈ inord T ++ L ->
  exists m', upd m e (set_tv tv) = Ok m' /\ tree_ok m' T L /\ tv_of m' e = Some tv /\
    (forall p, p <> e -> data m' p = data m p) /\ (forall p, is_Some (m' !! p) <-> is_Some (m !! p)).
Proof.
  intros Ht He. destruct (tree_ok_lookup _ _ _ _ Ht He) as (n & E & En). unfold upd. rewrite E. cbn [mbind result_bind].
  eexists. split; [done|]. split_and!.
  - eapply tree_ok_data; [| |exact Ht]; intros p; destruct (decide (e = p)) as [<-|]; unfold pri_of, data;
      rewrite ?lookup_insert_eq, ?lookup_insert_ne by done; try done; rewrite En; by destruct n.
  - unfold tv_of. by rewrite lookup_insert_eq.
  - intros p Hp. unfold data. by rewrite lookup_insert_ne.
  - intros p. destruct (decide (e = p)) as [<-|]; [|by rewrite lookup_insert_ne].
    rewrite lookup_insert_eq, En. split; eauto.
Qed.

(** Removing an entry that is not in the tree changes nothing. *)
Lemma remove_loose m T L e :
  tree_ok m T L -> e ∈ L ->
  exists m', schedule_remove_node m (tptr T) e = Ok (m', tptr T) /\ tree_ok m' T L /\ (forall p, data m' p = data m p).
Proof.
  intros Ht (L1 & L2 & HL)%list_elem_of_split. assert (L ≡ₚ e :: L1 ++ L2) as Hp by (rewrite HL; solve_Permutation).
  pose proof (tree_ok_perm _ _ _ _ Hp Ht) as Ht'. pose proof Ht' as [Hr _ _ Ho _]. cbn [map] in Hr.
  pose proof (reps_loose_notin _ _ _ _ _ Hr) as Hne.
  unfold schedule_remove_node. cbn [remove_loop].
  unfold reps_tree in Hr. pose proof Hr as H0. reorder H0 ((e, loose) :: links None T ++ map (fun p => (p, loose)) (L1 ++ L2)).
  destruct (reps_get _ _ _ _ H0) as (n & E & En & Hn). injection Hn as Hn1 Hn2 Hn3.
  rewrite E. cbn [mbind result_bind]. rewrite Hn2, Hn3. cbn [mbind result_bind fst snd].
  unfold schedule_detach_parent. rewrite E. cbn [mbind result_bind]. rewrite Hn1. cbn [mbind result_bind fst snd].
  destruct (upd_pri m T e loose _ 0 Hr) as (m' & tv & x & Eu & Hr' & E1 & E2 & E3). rewrite Eu. cbn [mbind result_bind].
  assert (forall p, data m' p = data m p) as Hd.
  { intros p. destruct (decide (p = e)) as [->|]; [|by apply E3]. rewrite E1, E2.
    pose proof (Ho e ltac:(left)) as Hz. by rewrite (data_pri _ _ _ _ E1) in Hz; subst. }
  exists m'. split_and!; [| |done].
  - rewrite decide_False; [done|]. intros Et. apply Hne. destruct T as [|l q r]; [done|]. injection Et as ->.
    cbn. apply elem_of_app. right. left.
  - eapply tree_ok_data; [| |exact Ht]; [|intros p; by apply pri_data_eq].
    intros p. unfold upd in Eu. rewrite E in Eu. injection Eu as <-.
    destruct (decide (e = p)) as [<-|]; [|by rewrite lookup_insert_ne]. rewrite lookup_insert_eq, En. done.
Qed.

Lemma schedule_add_modify_ok m T L e rnd :
  tree_ok m T L -> e ∈ inord T ++ L -> bst m (filter (fun p => p <> e) (inord T)) ->
  NoDup (map draw_pri rnd) -> (size m < length rnd)%nat ->
  exists m' T' L', schedule_add_modify m (tptr T) rnd e = Ok (m', tptr T') /\ tree_ok m' T' L' /\ bst m' (inord T') /\
    inord T' ≡ₚ e :: filter (fun p => p <> e) (inord T) /\ same_tv m m'.
Proof.
  intros Ht He Hb Hn Hl. unfold schedule_add_modify.
  destruct (tree_ok_lookup _ _ _ _ Ht He) as (n & -> & En). cbn [mbind result_bind].
  rewrite (IN_TREE_ok _ _ _ _ _ Ht En). destruct (bool_decide (e ∈ inord T)) eqn:Eb.
  - apply bool_decide_eq_true in Eb.
    destruct (remove_in_tree m T L e Ht Eb Hb) as (m1 & T1 & -> & Ht1 & Hb1 & Ei & Htv). cbn [mbind result_bind fst snd].
    assert (size m1 = size m) as Hs.
    { rewrite <- !size_dom. f_equal. apply set_eq. intros p. rewrite !elem_of_dom.
      specialize (Htv p). unfold tv_of in Htv. destruct (m1 !! p), (m !! p); naive_solver. }
    destruct (schedule_place_ok m1 T1 L e rnd Ht1 Hb1 Hn) as (m2 & T2 & -> & Ht2 & Hb2 & Hp & Htv2); [lia|].
    exists m2, T2, L. split_and!; [done | done | done | by rewrite Hp, Ei | intros p; by rewrite Htv2].
  - apply bool_decide_eq_false in Eb. cbn [mbind result_bind fst snd].
    assert (e ∈ L) as (L1 & L2 & HL)%list_elem_of_split by (apply elem_of_app in He; tauto).
    assert (L ≡ₚ e :: L1 ++ L2) as Hp by (rewrite HL; solve_Permutation).
    assert (filter (fun p => p <> e) (inord T) = inord T) as Ef.
    { clear -Eb. induction (inord T) as [|x l IH]; [done|]. apply not_elem_of_cons in Eb as [Hx Hl].
      rewrite filter_cons_True by congruence. by rewrite IH. }
    rewrite Ef in *.
    destruct (schedule_place_ok m T (L1 ++ L2) e rnd (tree_ok_perm _ _ _ _ Hp Ht) Hb Hn Hl) as (m2 & T2 & -> & Ht2 & Hb2 & Hp2 & Htv2).
    exists m2, T2, (L1 ++ L2). done.
Qed.

(** ** The abstract schedule: a wakeup time for some of the entries *)

Inductive sched_op :=
| OpAdd (e : positive) (tv : timeval) (sigma : Z) (rnd : list Z)
| OpRemove (e : positive)
| OpEarliest.

Definition sched_do (s : schedule) (op : sched_op) : result (option (positive * timeval) * schedule) :=
  match op with
  | OpAdd e tv sigma rnd => s ← schedule_add_entry s rnd e tv sigma; Ok (None, s)
  | OpRemove e => s ← schedule_remove_entry s e; Ok (None, s)
  | OpEarliest => schedule_get_earliest_wakeup s
  end.
Fixpoint sched_run (s : schedule) (ops : list sched_op) : result (list (option (positive * timeval)) * schedule) :=
  match ops with
  | [] => Ok ([], s)
  | op :: r =>
      x ← sched_do s op;
      y ← sched_run (x : option (positive * timeval) * schedule).2 r;
      Ok (x.1 :: (y : list (option (positive * timeval)) * schedule).1, y.2)
  end.

Abbreviation waiting := (gmap positive timeval).

(** An entry keeps its time when it already has one within the window. *)
Definition spec_add (S : waiting) (e : positive) (tv : timeval) (sigma : Z) : waiting :=
  match S !! e with
  | Some tv0 => if (sigma =? 0) || negb (tv_within_sigma tv tv0 sigma) then <[e := tv]> S else S
  | None => <[e := tv]> S
  end.

Inductive spec_step (S : waiting) : sched_op -> option (positive * timeval) -> waiting -> Prop :=
| step_add e tv sigma rnd : spec_step S (OpAdd e tv sigma rnd) None (spec_add S e tv sigma)
| step_remove e : spec_step S (OpRemove e) None (delete e S)
| step_none : S = ∅ -> spec_step S OpEarliest None S
| step_earliest e tv :
    S !! e = Some tv -> (forall q tv', S !! q = Some tv' -> tv_le tv tv' = true) ->
    spec_step S OpEarliest (Some (e, tv)) S.

Inductive spec_run : waiting -> list sched_op -> list (option (positive * timeval)) -> waiting -> Prop :=
| run_nil S : spec_run S [] [] S
| run_cons S op out S' ops outs S'' :
    spec_step S op out S' -> spec_run S' ops outs S'' -> spec_run S (op :: ops) (out :: outs) S''.

(** The entries are there, and every addition may draw more distinct priorities
    than there are entries. *)
Definition op_ok (m : entries) (op : sched_op) : Prop :=
  match op with
  | OpAdd e _ _ rnd => is_Some (m !! e) /\ NoDup (map draw_pri rnd) /\ (size m < length rnd)%nat
  | OpRemove e => is_Some (m !! e)
  | OpEarliest => True
  end.

#[export] Instance op_ok_dec m op : Decision (op_ok m op).
Proof. destruct op; apply _. Defined.

Definition abs_ok (m : entries) (T : tree) (S : waiting) : Prop :=
  forall p, S !! p = (if bool_decide (p ∈ inord T) then tv_of m p else None).

Record sched_ok (m0 : entries) (s : schedule) (T : tree) (L : list positive) (S : waiting) : Prop := {
  so_tree : tree_ok (sc_mem s) T L;
  so_bst : bst (sc_mem s) (inord T);
  so_root : sc_root s = tptr T;
  so_cache : sc_earliest s = None \/ sc_earliest s = head (inord T);
  so_abs : abs_ok (sc_mem s) T S;
  so_dom : forall p, is_Some (sc_mem s !! p) <-> is_Some (m0 !! p)
}.

Lemma dom_size (m m0 : entries) : (forall p, is_Some (m !! p) <-> is_Some (m0 !! p)) -> size m = size m0.
Proof. intros H. rewrite <- !size_dom. f_equal. apply set_eq. intros p. by rewrite !elem_of_dom. Qed.
Lemma same_tv_dom m m' p : same_tv m m' -> is_Some (m' !! p) <-> is_Some (m !! p).
Proof. intros H. specialize (H p). unfold tv_of in H. destruct (m' !! p), (m !! p); naive_solver. Qed.

Lemma bst_filter m (e : positive) l : bst m l -> bst m (filter (fun p => p <> e) l).
Proof. apply bst_sublist, sublist_filter. Qed.

Lemma if_decide_ext {A} (P Q : Prop) `{Decision P, Decision Q} (x y : A) :
  (P <-> Q) -> (if bool_decide P then x else y) = (if bool_decide Q then x else y).
Proof. intros HPQ. assert (bool_decide P = bool_decide Q) as -> by (by apply bool_decide_ext). done. Qed.

Lemma add_entry_ok m0 s T L S e tv sigma rnd :
  sched_ok m0 s T L S -> op_ok m0 (OpAdd e tv sigma rnd) ->
  exists s' T' L', schedule_add_entry s rnd e tv sigma = Ok s' /\ sched_ok m0 s' T' L' (spec_add S e tv sigma).
Proof.
  intros [Ht Hb Hroot Hcache Habs Hdom] (He & Hn & Hl). rewrite <- Hdom in He.
  pose proof (to_dom _ _ _ Ht e He) as Hin. unfold schedule_add_entry.
  destruct (tree_ok_lookup _ _ _ _ Ht Hin) as (n & -> & En). cbn [mbind result_bind].
  rewrite (IN_TREE_ok _ _ _ _ _ Ht En). unfold spec_add. pose proof (Habs e) as Hae. unfold tv_of in Hae. rewrite En in Hae.
  assert (exists s' T' L', (m ← upd (sc_mem s) e (set_tv tv); r ← schedule_add_modify m (sc_root s) rnd e;
      Ok (Sched (r : entries * option positive).1 r.2 None)) = Ok s' /\ sched_ok m0 s' T' L' (<[e := tv]> S)) as Hadd.
  { destruct (upd_tv_ok _ _ _ _ tv Ht Hin) as (m1 & -> & Ht1 & Htv1 & Hd1 & Hs1). cbn [mbind result_bind].
    rewrite Hroot. destruct (schedule_add_modify_ok m1 T L e rnd Ht1 Hin) as (m2 & T2 & L2 & -> & Ht2 & Hb2 & Hp2 & Htv2).
    { eapply bst_ext; [|by apply bst_filter]. intros p [Hp _]%list_elem_of_filter. by apply Hd1. }
    { done. }
    { rewrite (dom_size m1 m0); [done|]. intros p. by rewrite Hs1. }
    cbn [mbind result_bind fst snd]. eexists _, T2, L2. split; [done|]. split; cbn; [done | done | done | by left | |].
    - intros p. rewrite Htv2. assert (p ∈ inord T2 <-> p = e \/ p ∈ inord T) as Hiff.
      { rewrite Hp2, elem_of_cons, list_elem_of_filter. destruct (decide (p = e)); tauto. }
      assert (bool_decide (p ∈ inord T2) = bool_decide (p = e \/ p ∈ inord T)) as -> by (by apply bool_decide_ext).
      destruct (decide (e = p)) as [<-|Hne].
      + rewrite lookup_insert_eq, bool_decide_true by tauto. done.
      + rewrite lookup_insert_ne by done. rewrite Habs. rewrite (tv_data m1), Hd1, <- tv_data by congruence.
        apply if_decide_ext. split; [by right|]. by intros [->|].
    - intros p. by rewrite (same_tv_dom _ _ _ Htv2), Hs1. }
  destruct (bool_decide (e ∈ inord T)); cbn [negb orb fmap option_fmap option_map] in *; rewrite Hae; [|exact Hadd].
  destruct ((sigma =? 0) || negb (tv_within_sigma tv (se_tv n) sigma)); [exact Hadd|].
  by exists s, T, L.
Qed.

Lemma remove_entry_ok m0 s T L S e :
  sched_ok m0 s T L S -> op_ok m0 (OpRemove e) ->
  exists s' T' L', schedule_remove_entry s e = Ok s' /\ sched_ok m0 s' T' L' (delete e S).
Proof.
  intros [Ht Hb Hroot Hcache Habs Hdom] He. cbn in He. rewrite <- Hdom in He.
  pose proof (to_dom _ _ _ Ht e He) as Hin. unfold schedule_remove_entry. rewrite Hroot.
  destruct (decide (e ∈ inord T)) as [Hi | Hi].
  - destruct (remove_in_tree _ T L e Ht Hi (bst_filter _ _ _ Hb)) as (m1 & T1 & -> & Ht1 & Hb1 & Ei & Htv).
    cbn [mbind result_bind fst snd]. eexists _, T1, (e :: L). split; [done|].
    split; cbn; [done | done | done | by left | | intros p; by rewrite (same_tv_dom _ _ _ Htv)].
    intros p. rewrite Htv, Ei. destruct (decide (e = p)) as [<-|Hne].
    + rewrite lookup_delete_eq, bool_decide_false; [done|]. by intros [? _]%list_elem_of_filter.
    + rewrite lookup_delete_ne, Habs by done. apply if_decide_ext.
      rewrite list_elem_of_filter. split; [|tauto]. intros. split; congruence.
  - assert (e ∈ L) as HL by (apply elem_of_app in Hin; tauto).
    destruct (remove_loose _ T L e Ht HL) as (m1 & -> & Ht1 & Hd1). cbn [mbind result_bind fst snd].
    eexists _, T, L. split; [done|]. split; cbn; [done | | done | by left | |].
    + eapply bst_ext; [|exact Hb]. intros p _. apply Hd1.
    + intros p. rewrite tv_data, Hd1, <- tv_data. destruct (decide (e = p)) as [<-|Hne].
      * rewrite lookup_delete_eq, bool_decide_false; done.
      * by rewrite lookup_delete_ne.
    + intros p. by rewrite data_is_some, Hd1, <- data_is_some.
Qed.

(** The first node in order has the earliest time. *)
Lemma head_earliest m l p tv q tv' :
  bst m l -> head l = Some p -> q ∈ l -> tv_of m p = Some tv -> tv_of m q = Some tv' -> tv_le tv tv' = true.
Proof.
  destruct l as [|x l]; [done|]. intros Hb [= ->] Hq Hp Hq'. apply elem_of_cons in Hq as [-> | Hq].
  - rewrite Hp in Hq'. injection Hq' as ->. unfold tv_le. rewrite Z.ltb_irrefl, Z.gtb_ltb, Z.ltb_irrefl. apply Z.leb_refl.
  - apply StronglySorted_inv in Hb as [_ HF]. pose proof (proj1 (list.Forall_forall _ _) HF q Hq) as Hlt.
    rewrite tv_data in Hp, Hq'. unfold node_lt in Hlt.
    destruct (data m p) as [[tp xp]|], (data m q) as [[tq xq]|]; try done. injection Hp as ->. injection Hq' as ->.
    unfold key_lt in Hlt. cbn in Hlt. unfold tv_le. repeat case_test; try done; lia.
Qed.

Lemma earliest_ok m0 s T L S :
  sched_ok m0 s T L S ->
  exists out s', schedule_get_earliest_wakeup s = Ok (out, s') /\ spec_step S OpEarliest out S /\ sched_ok m0 s' T L S.
Proof.
  intros H. pose proof H as [Ht Hb Hroot Hcache Habs Hdom]. unfold schedule_get_earliest_wakeup.
  assert ((match sc_earliest s with Some e => Ok (Some e) | None => schedule_find_least (sc_mem s) (sc_root s) end)
          = Ok (head (inord T))) as ->.
  { rewrite Hroot, (find_least_ok _ _ _ (to_reps _ _ _ Ht)). destruct Hcache as [-> | ->]; [done|].
    by destruct (head (inord T)). }
  cbn [mbind result_bind].
  assert (sched_ok m0 (Sched (sc_mem s) (sc_root s) (head (inord T))) T L S) as H' by (split; cbn; auto).
  destruct (head (inord T)) as [e|] eqn:Eh.
  - cbn [sc_mem]. assert (e ∈ inord T) as Hin by (destruct (inord T); [done|]; injection Eh as ->; left).
    destruct (tree_ok_lookup _ _ _ e Ht) as (n & -> & En); [apply elem_of_app; by left|]. cbn [mbind result_bind].
    assert (tv_of (sc_mem s) e = Some (se_tv n)) as Htv by (unfold tv_of; by rewrite En).
    eexists _, _. split; [done|]. split; [|done]. constructor.
    + by rewrite Habs, bool_decide_true.
    + intros q tv' Hq. rewrite Habs in Hq. destruct (bool_decide (q ∈ inord T)) eqn:Eq; [|done].
      apply bool_decide_eq_true in Eq. by eapply head_earliest.
  - eexists _, _. split; [done|]. split; [|done]. constructor. apply map_eq. intros p. rewrite Habs, lookup_empty.
    destruct (inord T); [|done]. by rewrite bool_decide_false by (by apply not_elem_of_nil).
Qed.

Lemma sched_run_ok m0 ops : forall s T L S, sched_ok m0 s T L S -> Forall (op_ok m0) ops ->
  exists outs s' T' L' S', sched_run s ops = Ok (outs, s') /\ spec_run S ops outs S' /\ sched_ok m0 s' T' L' S'.
Proof.
  induction ops as [|op ops IH]; intros s T L S H Hops; cbn [sched_run].
  { exists [], s, T, L, S. split; [done|]. split; [constructor | done]. }
  pose proof (Forall_inv Hops) as Hop. apply Forall_inv_tail in Hops.
  assert (exists out s1 T1 L1 S1, sched_do s op = Ok (out, s1) /\ spec_step S op out S1 /\ sched_ok m0 s1 T1 L1 S1)
    as (out & s1 & T1 & L1 & S1 & -> & Hst & H1).
  { destruct op as [e tv sigma rnd|e|]; cbn [sched_do].
    - destruct (add_entry_ok _ _ _ _ _ _ _ _ _ H Hop) as (s' & T' & L' & -> & H'). cbn [mbind result_bind].
      eexists _, s', T', L', _. split; [done|]. split; [constructor | done].
    - destruct (remove_entry_ok _ _ _ _ _ _ H Hop) as (s' & T' & L' & -> & H'). cbn [mbind result_bind].
      eexists _, s', T', L', _. split; [done|]. split; [constructor | done].
    - destruct (earliest_ok _ _ _ _ _ H) as (out & s' & -> & Hst & H'). by exists out, s', T, L, S. }
  cbn [mbind result_bind fst snd].
  destruct (IH s1 T1 L1 S1 H1 Hops) as (outs & s2 & T2 & L2 & S2 & -> & Hr & H2). cbn [mbind result_bind fst snd].
  exists (out :: outs), s2, T2, L2, S2. split; [done|]. split; [by econstructor | done].
Qed.

(** ** The properties of the scheduler *)

Definition tree_of (s : schedule) (T : tree) : Prop := sc_root s = tptr T /\ exists L, tree_ok (sc_mem s) T L.

(** C32: the scheduler implements the abstract schedule.  Starting from entries that
    are in no tree, for any sequence of additions (with any window sigma), removals
    and queries, every operation returns; a query gives an entry that waits, with
    its time, and no entry waits for an earlier time, or nothing when none waits;
    an addition sets the time unless the entry already waits for one within the
    window.  The store then holds a treap with exactly the waiting entries: linked
    both ways, in order of (time, priority), and a heap by priority. *)
Theorem schedule_refines m0 ops :
  (forall p n, m0 !! p = Some n -> se_pri n = 0 /\ link_of n = loose) ->
  Forall (op_ok m0) ops ->
  exists outs s S T, sched_run (schedule_init m0) ops = Ok (outs, s) /\ spec_run ∅ ops outs S /\
    tree_of s T /\ StronglySorted (node_lt (sc_mem s)) (inord T) /\ heap_ok (pri_of (sc_mem s)) T /\
    forall p, S !! p = (if bool_decide (p ∈ inord T) then tv_of (sc_mem s) p else None).
Proof.
  intros Hm Hops.
  assert (sched_ok m0 (schedule_init m0) Leaf (elements (dom m0)) ∅) as H0.
  { split; cbn [schedule_init sc_mem sc_root sc_earliest inord tptr]; [split| | | | |]; cbn [inord links heap_ok].
    - split.
      + cbn [app links]. apply list.Forall_forall. intros [p lk] Hp.
        apply list_elem_of_fmap in Hp as (q & [= -> ->] & Hq). apply elem_of_elements, elem_of_dom in Hq as [n En].
        cbn. rewrite En. cbn. f_equal. by eapply Hm.
      + cbn [app links]. rewrite loose_keys. apply NoDup_elements.
    - done.
    - by intros p ?%not_elem_of_nil.
    - intros p Hp. apply elem_of_elements, elem_of_dom in Hp as [n En]. rewrite (pri_lookup _ _ _ En). by eapply Hm.
    - intros p Hp. cbn [app]. by apply elem_of_elements, elem_of_dom.
    - constructor.
    - done.
    - by left.
    - intros p. rewrite lookup_empty, bool_decide_false; [done|]. apply not_elem_of_nil.
    - done. }
  destruct (sched_run_ok m0 ops _ _ _ _ H0 Hops) as (outs & s & T & L & S & E & Hr & [Ht Hb Hroot _ Habs _]).
  exists outs, s, S, T. split_and!; [done | done | split; [done | by exists L] | done | by destruct Ht | done].
Qed.

(** Three entries in no tree. *)
Definition three_entries : entries :=
  <[1%positive := Se (Tv 0 0) 0 None None None]>
    (<[2%positive := Se (Tv 0 0) 0 None None None]>
      (<[3%positive := Se (Tv 0 0) 0 None None None]> ∅)).

Lemma schedule_refines_witness :
  let ops := [OpAdd 1 (Tv 50 0) 0 [7; 8; 9; 10]; OpAdd 2 (Tv 20 5) 0 [7; 8; 9; 10]; OpAdd 3 (Tv 20 5) 0 [7; 8; 9; 10];
              OpEarliest; OpAdd 2 (Tv 70 0) 1000 [3; 4; 5; 6]; OpRemove 3; OpEarliest] in
  Forall (op_ok three_entries) ops /\
  exists outs s S T, sched_run (schedule_init three_entries) ops = Ok (outs, s) /\ spec_run ∅ ops outs S /\
    tree_of s T /\ StronglySorted (node_lt (sc_mem s)) (inord T) /\ heap_ok (pri_of (sc_mem s)) T /\
    forall p, S !! p = (if bool_decide (p ∈ inord T) then tv_of (sc_mem s) p else None).
Proof.
  intros ops. assert (Forall (op_ok three_entries) ops) as H by (apply (bool_decide_unpack _); vm_compute; exact I).
  split; [exact H|]. apply (schedule_refines three_entries ops); [|exact H].
  apply (bool_decide_unpack (map_Forall (fun _ n => se_pri n = 0 /\ link_of n = loose) three_entries)).
  vm_compute. exact I.
Defined.

(** Placing an entry terminates as soon as some draw gives it a key that no node
    has: collisions of (time, priority) only make it draw again, and the tree then
    has the entry in its place in the order, and is a heap. *)
Theorem schedule_place_terminates m T L e tv rnd :
  tree_ok m T (e :: L) -> StronglySorted (node_lt m) (inord T) -> tv_of m e = Some tv ->
  (exists d, d ∈ rnd /\ forall p, p ∈ inord T -> data m p <> Some (tv, draw_pri d)) ->
  exists m' T', schedule_place m (tptr T) rnd e = Ok (m', tptr T') /\ tree_ok m' T' L /\
    StronglySorted (node_lt m') (inord T') /\ inord T' ≡ₚ e :: inord T /\ same_tv m m'.
Proof. apply place_ok. Qed.

Lemma schedule_place_terminates_witness :
  let m := <[1%positive := Se (Tv 50 0) 7 None None None]> (<[2%positive := Se (Tv 50 0) 0 None None None]> ∅) in
  tree_ok m (Node Leaf 1 Leaf) [2%positive] /\
  exists m' T', schedule_place m (tptr (Node Leaf 1 Leaf)) [7; 9] 2 = Ok (m', tptr T') /\ tree_ok m' T' [] /\
    StronglySorted (node_lt m') (inord T') /\ inord T' ≡ₚ [2; 1]%positive /\ same_tv m m'.
Proof.
  intros m. assert (tree_ok m (Node Leaf 1 Leaf) [2%positive]) as H.
  { split.
    - split; [|apply (bool_decide_unpack _); vm_compute; exact I].
      repeat constructor; cbn; by rewrite ?lookup_insert_eq.
    - repeat constructor.
    - intros p ->%list_elem_of_singleton. vm_compute. done.
    - intros p ->%list_elem_of_singleton. vm_compute. done.
    - intros p Hp%elem_of_dom. apply (bool_decide_unpack (set_Forall (fun p => p ∈ [1; 2]%positive) (dom m))); [|done].
      vm_compute. exact I. }
  split; [exact H|]. apply (schedule_place_terminates m (Node Leaf 1 Leaf) [] 2 (Tv 50 0) [7; 9]).
  - exact H.
  - repeat constructor.
  - reflexivity.
  - exists 9. split; [right; left|]. intros p ->%list_elem_of_singleton. vm_compute. intros [=].
Defined.
