(* ===== verification/Stream.v ===== *)
(** Packets over a TCP connection (src/socket.c, src/socket.h): [struct stream_buf]
    cuts the byte stream into packets by a 16-bit length prefix, whatever pieces
    [recv] returns; [link_socket_write_tcp] puts the prefix on.

    The byte stream and the sizes [recv] chooses are arguments. *)

From S2P Require Import Prelude Integer Buffer Mtu.

Record stream_buf := Sb {
  sb_init : buffer;
  sb_residual : buffer;
  sb_maxlen : Z;
  sb_fully_formed : bool; (* residual_fully_formed *)
  sb_buf : buffer;
  sb_next : buffer;
  sb_len : Z; (* -1 if not yet known *)
  sb_error : bool
}.

(** The part of [struct link_socket] used here. *)
Record link_socket := Sock { so_stream : stream_buf; so_reset : bool }.

Definition with_residual (sb : stream_buf) (r : buffer) : stream_buf :=
  Sb (sb_init sb) r (sb_maxlen sb) (sb_fully_formed sb) (sb_buf sb) (sb_next sb) (sb_len sb) (sb_error sb).
Definition with_fully_formed (sb : stream_buf) (v : bool) : stream_buf :=
  Sb (sb_init sb) (sb_residual sb) (sb_maxlen sb) v (sb_buf sb) (sb_next sb) (sb_len sb) (sb_error sb).
Definition with_buf_len (sb : stream_buf) (b : buffer) (n : Z) : stream_buf :=
  Sb (sb_init sb) (sb_residual sb) (sb_maxlen sb) (sb_fully_formed sb) b (sb_next sb) n (sb_error sb).
Definition with_next (sb : stream_buf) (b : buffer) : stream_buf :=
  Sb (sb_init sb) (sb_residual sb) (sb_maxlen sb) (sb_fully_formed sb) (sb_buf sb) b (sb_len sb) (sb_error sb).
Definition with_error (sb : stream_buf) (v : bool) : stream_buf :=
  Sb (sb_init sb) (sb_residual sb) (sb_maxlen sb) (sb_fully_formed sb) (sb_buf sb) (sb_next sb) (sb_len sb) v.

(** ** Operations *)

Definition stream_buf_reset (sb : stream_buf) : stream_buf :=
  Sb (sb_init sb) (sb_residual sb) (sb_maxlen sb) false (sb_init sb) buf_reset (-1) (sb_error sb).

Definition stream_buf_init (fill : Z -> Z) (buf : buffer) : M stream_buf :=
  residual ← alloc_buf fill (b_len buf);
  mret (stream_buf_reset (Sb (with_len buf 0) residual (b_len buf) false buf_reset buf_reset (-1) false)).

Definition stream_buf_set_next (sb : stream_buf) : M stream_buf :=
  let buf := sb_buf sb in
  let next := Buf (b_capacity buf) (i32 (b_offset buf + b_len buf))
                  (i32 ((if sb_len sb >=? 0 then sb_len sb else sb_maxlen sb) - b_len buf)) (b_data buf) in
  _ ← ASSERT (b_len next >? 0);
  _ ← ASSERT (buf_safe buf (b_len next));
  mret (with_next sb next).

Definition stream_buf_get_final (sb : stream_buf) : M buffer :=
  _ ← ASSERT (buf_defined (sb_buf sb)); mret (sb_buf sb).
Definition stream_buf_get_next (sb : stream_buf) : M buffer :=
  _ ← ASSERT (buf_defined (sb_next sb)); mret (sb_next sb).

(** The second half of [stream_buf_added]: is our incoming packet fully read? *)
Definition added_complete (sb : stream_buf) : M (bool * stream_buf) :=
  if (sb_len sb >? 0) && (b_len (sb_buf sb) >=? sb_len sb) then
    let '(ok, residual) := buf_init (sb_residual sb) 0 in
    _ ← ASSERT ok;
    if b_len (sb_buf sb) >? sb_len sb then
      '(ok, residual, buf) ← buf_copy_excess residual (sb_buf sb) (sb_len sb);
      _ ← ASSERT ok;
      mret (true, with_residual (with_buf_len sb buf (sb_len sb)) residual)
    else mret (true, with_residual sb residual)
  else
    sb ← stream_buf_set_next sb;
    mret (false, sb).

Definition stream_buf_added (sb : stream_buf) (length_added : Z) : M (bool * stream_buf) :=
  let sb := if length_added >? 0
            then with_buf_len sb (with_len (sb_buf sb) (i32 (b_len (sb_buf sb) + length_added))) (sb_len sb)
            else sb in
  if (sb_len sb <? 0) && (b_len (sb_buf sb) >=? 2) then
    '(net_size, buf) ← buf_read (sb_buf sb) 2;
    match net_size with
    | None => lift AssertFail
    | Some bs =>
        let len := be_dec bs in
        let sb := with_buf_len sb buf len in
        if (len <? 1) || (len >? sb_maxlen sb)
        then mret (false, with_error (stream_buf_reset sb) true)
        else added_complete sb
    end
  else added_complete sb.

Definition stream_buf_read_setup_dowork (sb : stream_buf) : M (bool * stream_buf) :=
  sb ←
    (if negb (b_len (sb_residual sb) =? 0) && negb (sb_fully_formed sb) then
       '(ok, buf) ← buf_copy (sb_buf sb) (sb_residual sb);
       _ ← ASSERT ok;
       let '(ok, residual) := buf_init (sb_residual sb) 0 in
       _ ← ASSERT ok;
       '(full, sb) ← stream_buf_added (with_residual (with_buf_len sb buf (sb_len sb)) residual) 0;
       mret (with_fully_formed sb full)
     else mret sb);
  if negb (sb_fully_formed sb) then
    sb ← stream_buf_set_next sb;
    mret (negb (sb_fully_formed sb), sb)
  else mret (negb (sb_fully_formed sb), sb).

Definition stream_buf_close (sb : stream_buf) : M stream_buf :=
  r ← free_buf (sb_residual sb); mret (with_residual sb r).

(** [oriented] is link_socket_connection_oriented; [errno_reset] says that errno is
    ECONNRESET. *)
Definition socket_connection_reset (oriented errno_reset : bool) (sock : link_socket) (status : Z) : bool :=
  if oriented then
    if so_reset sock || sb_error (so_stream sock) then true
    else if status <? 0 then errno_reset
    else false
  else false.

(** [recv n] is what reading up to [n] bytes gives: [None] an error, no bytes the end
    of the connection.  The result is [buf->len], [buf] and the socket. *)
Definition link_socket_read_tcp (recv : Z -> option (list byte)) (sock : link_socket) (buf : buffer)
  : M (Z * buffer * link_socket) :=
  let sb := so_stream sock in
  '(stop, len, reset) ←
    (if negb (sb_fully_formed sb) then
       frag ← stream_buf_get_next sb;
       match recv (BLEN frag) with
       | None => mret (true, -1, so_reset sock)
       | Some bs =>
           p ← deref (BPTR frag);
           _ ← store p bs;
           mret (Zlen bs =? 0, Zlen bs, if Zlen bs =? 0 then true else so_reset sock)
       end
     else mret (false, 0, so_reset sock));
  if (stop : bool) then mret (len, with_len buf len, Sock sb reset)
  else
    '(full, sb) ← (if sb_fully_formed sb then mret (true, sb) else stream_buf_added sb len);
    if (full : bool) then
      buf ← stream_buf_get_final sb;
      mret (b_len buf, buf, Sock (stream_buf_reset sb) reset)
    else mret (0, with_len buf 0, Sock sb reset).

(** The packet with its prefix, ready for [send]. *)
Definition link_socket_write_tcp (sock : link_socket) (buf : buffer) : M buffer :=
  let len := u16 (BLEN buf) in
  _ ← ASSERT (len <=? sb_maxlen (so_stream sock));
  '(ok, buf) ← buf_write_prepend buf (be_enc 2 len);
  _ ← ASSERT ok;
  mret buf.

(** A read, and what it delivers. *)
Definition tcp_read (recv : Z -> option (list byte)) (sock : link_socket) (buf : buffer)
  : M (option (list byte) * link_socket * buffer) :=
  '(len, buf, sock) ← link_socket_read_tcp recv sock buf;
  if len >? 0 then
    p ← deref (BPTR buf);
    bs ← load p (BLEN buf);
    mret (Some bs, sock, buf)
  else mret (None, sock, buf).

(** One turn of the event loop for the socket (socket_set, then a read).  [size] is
    how much [recv] gives at most (one byte more than it says), [wire] what the
    peer has sent and was not read yet.  The packet delivered, if any. *)
Definition tcp_turn (sock : link_socket) (buf : buffer) (size : nat) (wire : list byte)
  : M (option (list byte) * link_socket * buffer * list byte) :=
  '(want, sb) ← stream_buf_read_setup_dowork (so_stream sock);
  let sock := Sock sb (so_reset sock) in
  if want && bool_decide (wire = []) then mret (None, sock, buf, wire)
  else
    let recv n := Some (take (Nat.min (S size) (Z.to_nat n)) wire) in
    let wire := if (want : bool) then drop (Nat.min (S size) (Z.to_nat (BLEN (sb_next sb)))) wire else wire in
    '(out, sock, buf) ← tcp_read recv sock buf;
    mret (out, sock, buf, wire).

Fixpoint tcp_run (sock : link_socket) (buf : buffer) (sizes : list nat) (wire : list byte)
  : M (list (list byte) * link_socket) :=
  match sizes with
  | [] => mret ([], sock)
  | size :: sizes =>
      '(out, sock, buf, wire) ← tcp_turn sock buf size wire;
      '(outs, sock) ← tcp_run sock buf sizes wire;
      mret (match out with Some p => p :: outs | None => outs end, sock)
  end.

(** What a sequence of packets is on the wire. *)
Fixpoint frames (ps : list (list byte)) : list byte :=
  match ps with
  | [] => []
  | p :: ps => be_enc 2 (Zlen p) ++ p ++ frames ps
  end.

(** ** The state of the stream buffer *)

Section Layout.
(** The data buffer and the residual buffer live in different blocks; [o] is where
    the data buffer's contents begin. *)
Context (q r : ptr) (Hqr : blk q <> blk r) (o maxlen : Z).
#[local] Set Default Proof Using "All".

(** The stream buffer holds [bs] in its data buffer from [off] on, the residual [rs],
    and knows the length [len]. *)
Record sb_ok (h : heap) (sb : stream_buf) (rs bs : list byte) (off len : Z) (err : bool) : Prop := {
  sk_init : buf_rep h q (sb_init sb) [];
  sk_offset : b_offset (sb_init sb) = o;
  sk_maxlen : sb_maxlen sb = maxlen;
  sk_small : 2 <= maxlen <= 65535;
  sk_room : o + 2 + maxlen <= b_capacity (sb_init sb);
  sk_residual : buf_rep h r (sb_residual sb) rs;
  sk_roff : b_offset (sb_residual sb) = 0;
  sk_rcap : b_capacity (sb_residual sb) = maxlen;
  sk_buf : buf_rep h q (sb_buf sb) bs;
  sk_off : b_offset (sb_buf sb) = off;
  sk_cap : b_capacity (sb_buf sb) = b_capacity (sb_init sb);
  sk_len : sb_len sb = len;
  sk_error : sb_error sb = err
}.

Definition next_of (sb : stream_buf) : buffer :=
  Buf (b_capacity (sb_buf sb)) (b_offset (sb_buf sb) + b_len (sb_buf sb))
      ((if sb_len sb >=? 0 then sb_len sb else sb_maxlen sb) - b_len (sb_buf sb)) (b_data (sb_buf sb)).

(** What is buffered is incomplete: less than the prefix, or the prefix and less than
    it says. *)
Definition incomplete (bs : list byte) (off len : Z) : Prop :=
  (len = -1 /\ off = o /\ Zlen bs < 2) \/ (1 <= len <= maxlen /\ off = o + 2 /\ Zlen bs < len).

Lemma sb_ok_mem h h' sb rs bs off len err :
  sb_ok h sb rs bs off len err -> is_Some (mload h' q (b_capacity (sb_init sb))) ->
  buf_rep h' r (sb_residual sb) rs -> buf_rep h' q (sb_buf sb) bs -> sb_ok h' sb rs bs off len err.
Proof. intros [] Hv Hr Hb. split; try done. by eapply buf_rep_empty. Qed.

Lemma wp_set_next h sb rs bs off len err :
  sb_ok h sb rs bs off len err -> incomplete bs off len ->
  wp (stream_buf_set_next sb) (fun sb' h' => h' = h /\ sb' = with_next sb (next_of sb)) h.
Proof.
  intros H Hi. destruct H. rep_facts sk_buf0. rep_facts sk_init0. unfold stream_buf_set_next. cbn [b_len].
  assert (0 < (if sb_len sb >=? 0 then sb_len sb else sb_maxlen sb) - b_len (sb_buf sb) /\
          b_offset (sb_buf sb) + b_len (sb_buf sb) + ((if sb_len sb >=? 0 then sb_len sb else sb_maxlen sb) - b_len (sb_buf sb))
            <= b_capacity (sb_buf sb) /\
          (if sb_len sb >=? 0 then sb_len sb else sb_maxlen sb) <= 65535) as (Hn1 & Hn2 & Hn3).
  { rewrite sk_len0, sk_maxlen0. destruct Hi as [(-> & -> & ?) | (? & -> & ?)].
    - change (-1 >=? 0) with false. lia.
    - rewrite Z.geb_leb, (proj2 (Z.leb_le 0 len)) by lia. lia. }
  unfold next_of. set (m := if sb_len sb >=? 0 then sb_len sb else sb_maxlen sb) in *. wrap_simp.
  wp_steps. apply wp_ASSERT; [blia|]. wp_steps. apply wp_ASSERT; [|wp_steps; done].
  erewrite buf_safe_spec by (eauto; unfold BUF_MAX; lia). apply andb_true_iff. split; apply Z.leb_le; lia.
Qed.

(** What happens when the buffered bytes are looked at. *)
Lemma wp_added_complete h sb rs bs off len err :
  sb_ok h sb rs bs off len err -> Zlen bs <= maxlen ->
  (1 <= len <= maxlen /\ off = o + 2 /\ len <= Zlen bs) \/ incomplete bs off len ->
  wp (added_complete sb) (fun x h' =>
    if bool_decide (1 <= len <= Zlen bs) then
      exists sb', x = (true, sb') /\ sb_fully_formed sb' = sb_fully_formed sb /\
        sb_ok h' sb' (drop (Z.to_nat len) bs) (take (Z.to_nat len) bs) off len err
    else h' = h /\ x = (false, with_next sb (next_of sb))) h.
Proof.
  intros H Hb Hc. unfold added_complete. pose proof H as []. rep_facts sk_buf0. rep_facts sk_residual0.
  rewrite sk_len0. destruct Hc as [(Hl & Hoff & Hlb) | Hi].
  - rewrite bool_decide_true by lia. replace ((len >? 0) && (b_len (sb_buf sb) >=? len)) with true
      by (symmetry; apply andb_true_iff; split; blia).
    destruct (buf_init_spec h r (sb_residual sb) rs 0 sk_residual0) as [-> Hinit]; [lia|].
    wp_steps. case_test.
    2:{ wp_steps. eexists. split; [done|]. split; [done|]. assert (len = Zlen bs) by lia.
        rewrite drop_ge, take_ge by (unfold Zlen in *; lia). split; try done. }
    unfold buf_copy_excess. rewrite (proj2 (Z.ltb_ge len 0)) by lia.
    replace (b_len (sb_buf sb) >? len) with true by blia.
    destruct (buf_advance_n h q (sb_buf sb) bs len sk_buf0) as [-> Hadv]; [lia|].
    wp_steps. eapply wp_mono.
    { eapply (wp_buf_copy h r _ [] q); [exact Hinit | exact Hadv|]. buf_simpl. rewrite sk_rcap0. lia. }
    intros [ok b'] h' ([= -> ->] & Hres & Hm). buf_simpl. wp_steps. eexists. split; [done|]. split; [done|].
    assert (blk r <> blk q) as Hrq by congruence.
    split; cbn [with_residual with_buf_len sb_init sb_maxlen sb_residual sb_buf sb_len sb_error]; try done.
    + eapply buf_rep_other; [exact sk_init0 | exact Hm|]. simpl. congruence.
    + assert (buf_rep h q (with_len (sb_buf sb) len) (take (Z.to_nat len) bs)) as Ht.
      { destruct (buf_rep_with_len h q (sb_buf sb) bs len sk_buf0) as [x Hx]; [lia|lia|].
        replace (take (Z.to_nat len) bs) with x; [done|].
        pose proof (br_bytes _ _ _ _ Hx) as Hxb. buf_simpl.
        pose proof (buf_rep_load h q (sb_buf sb) bs 0 len sk_buf0) as Hl0. rewrite Z.add_0_r in Hl0.
        rewrite Hl0 in Hxb by lia. injection Hxb as <-. done. }
      eapply buf_rep_other; [exact Ht | exact Hm|]. simpl. congruence.
  - rewrite bool_decide_false by (destruct Hi; lia).
    replace ((len >? 0) && (b_len (sb_buf sb) >=? len)) with false
      by (symmetry; apply andb_false_iff; destruct Hi as [(-> & _) | (? & _ & ?)]; [by left | right; blia]).
    wp_steps. eapply wp_mono; [by eapply wp_set_next|]. intros sb' h' [-> ->]. wp_steps. done.
Qed.

(** ** What the buffered bytes are *)

Inductive parsed := PShort | PBad | PPacket (p rest : list byte).

Definition parse (U : list byte) : parsed :=
  if Zlen U <? 2 then PShort
  else
    let n := be_dec (take 2 U) in
    if (n <? 1) || (n >? maxlen) then PBad
    else if Zlen U <? 2 + n then PShort
    else PPacket (take (Z.to_nat n) (drop 2 U)) (drop (Z.to_nat (2 + n)) U).

(** The buffered bytes [U], in the two forms the state has for them. *)
Definition buffered (h : heap) (sb : stream_buf) (U : list byte) : Prop :=
  sb_fully_formed sb = false /\
  ((sb_ok h sb [] U o (-1) false /\ Zlen U <= maxlen) \/
   (2 <= Zlen U /\ 1 <= be_dec (take 2 U) <= maxlen /\ Zlen (drop 2 U) <= maxlen /\
    sb_ok h sb [] (drop 2 U) (o + 2) (be_dec (take 2 U)) false)).

(** The same, with less than a packet and ready for the next read. *)
Definition waiting (h : heap) (sb : stream_buf) (U : list byte) : Prop :=
  buffered h sb U /\ (sb_len sb = -1 -> Zlen U < 2) /\ (sb_len sb <> -1 -> Zlen (drop 2 U) < sb_len sb) /\
  sb_next sb = next_of sb.

(** Between packets: everything buffered is residual. *)
Definition idle (h : heap) (sb : stream_buf) (R : list byte) : Prop :=
  sb_fully_formed sb = false /\ sb_ok h sb R [] o (-1) false /\ Zlen R <= maxlen.

(** A whole packet is there. *)
Definition formed (h : heap) (sb : stream_buf) (p rest : list byte) : Prop :=
  Zlen rest <= maxlen /\ exists off len, sb_ok h sb rest p off len false.

Lemma parse_known U :
  2 <= Zlen U -> 1 <= be_dec (take 2 U) <= maxlen ->
  parse U = if Zlen (drop 2 U) <? be_dec (take 2 U) then PShort
            else PPacket (take (Z.to_nat (be_dec (take 2 U))) (drop 2 U))
                         (drop (Z.to_nat (be_dec (take 2 U))) (drop 2 U)).
Proof.
  intros HU Hn. unfold parse. rewrite (proj2 (Z.ltb_ge (Zlen U) 2)) by lia. set (n := be_dec (take 2 U)) in *.
  replace ((n <? 1) || (n >? maxlen)) with false by (symmetry; apply orb_false_iff; split; blia).
  assert (Zlen (drop 2 U) = Zlen U - 2) as Hd by (unfold Zlen in *; rewrite length_drop; lia).
  rewrite Hd. replace (Zlen U <? 2 + n) with (Zlen U - 2 <? n) by (apply Bool.eq_iff_eq_true; rewrite !Z.ltb_lt; lia).
  destruct (Zlen U - 2 <? n); [done|]. rewrite drop_drop. do 2 f_equal. lia.
Qed.

Lemma sb_ok_with_next h sb rs bs off len err b :
  sb_ok h sb rs bs off len err -> sb_ok h (with_next sb b) rs bs off len err.
Proof. intros []. by split. Qed.

Lemma sb_ok_fully_formed h sb rs bs off len err v :
  sb_ok h sb rs bs off len err -> sb_ok h (with_fully_formed sb v) rs bs off len err.
Proof. intros []. by split. Qed.

(** The outcome of looking at buffered bytes. *)
Definition looked (U : list byte) (x : bool * stream_buf) (h : heap) : Prop :=
  match parse U with
  | PShort => exists sb', x = (false, sb') /\ waiting h sb' U
  | PBad => exists sb', x = (false, sb') /\ sb_fully_formed sb' = false /\ sb_ok h sb' [] [] o (-1) true
  | PPacket p rest => exists sb', x = (true, sb') /\ sb_fully_formed sb' = false /\ formed h sb' p rest
  end.

Lemma wp_look_known h sb U n bs :
  sb_fully_formed sb = false -> 2 <= Zlen U -> n = be_dec (take 2 U) -> bs = drop 2 U ->
  sb_ok h sb [] bs (o + 2) n false -> 1 <= n <= maxlen -> Zlen bs <= maxlen ->
  wp (added_complete sb) (looked U) h.
Proof.
  intros Hff HU -> -> H Hn Hb. eapply wp_mono.
  { eapply wp_added_complete; [exact H | done|].
    destruct (decide (be_dec (take 2 U) <= Zlen (drop 2 U))); [left; lia | right; right; lia]. }
  intros x h' Hx. unfold looked. rewrite parse_known by lia.
  destruct (Zlen (drop 2 U) <? be_dec (take 2 U)) eqn:E; bool_simp.
  - rewrite bool_decide_false in Hx by lia. destruct Hx as [-> ->]. eexists. split; [done|].
    pose proof (sk_len _ _ _ _ _ _ _ H) as El. cbn [sb_len with_next].
    split; [split; [done|right]|split; [cbn; lia|split; [cbn; lia|done]]].
    split; [done|]. split; [done|]. split; [done|]. by apply sb_ok_with_next.
  - rewrite bool_decide_true in Hx by lia. destruct Hx as (sb' & -> & Hff' & H'). exists sb'.
    split; [done|]. split; [congruence|]. split; [|eauto].
    transitivity (Zlen (drop 2 U)); [|done]. unfold Zlen. rewrite length_drop. lia.
Qed.

Lemma wp_look h sb U : buffered h sb U -> wp (stream_buf_added sb 0) (looked U) h.
Proof.
  intros [Hff [[H Hl] | (HU & Hn & Hb & H)]]; unfold stream_buf_added; change (0 >? 0) with false;
    cbn [andb]; rewrite (sk_len _ _ _ _ _ _ _ H).
  2:{ replace (be_dec (take 2 U) <? 0) with false by blia. cbn [andb]. by eapply wp_look_known. }
  change (-1 <? 0) with true. cbn [andb]. pose proof H as []. rep_facts sk_buf0.
  destruct (b_len (sb_buf sb) >=? 2) eqn:E; bool_simp.
  2:{ eapply wp_mono; [eapply (wp_added_complete h sb [] U o (-1)); [done | done | right; left; lia]|].
      intros x h' Hx. rewrite bool_decide_false in Hx by lia. destruct Hx as [-> ->].
      unfold looked. assert (parse U = PShort) as Hp by (unfold parse; by rewrite (proj2 (Z.ltb_lt (Zlen U) 2)) by lia).
      rewrite Hp. eexists. split; [done|].
      split; [|cbn; split; [lia | split; [congruence | done]]].
      split; [done|]. left. split; [by apply sb_ok_with_next | done]. }
  wp_steps. eapply wp_mono; [eapply (wp_buf_read_n h q (sb_buf sb) U 2); [done | lia]|].
  intros [s b'] h' ([= -> ->] & -> & Hr). change (Z.to_nat 2) with 2%nat in *. wp_steps. cbn [sb_maxlen with_buf_len].
  rewrite sk_maxlen0.
  destruct ((be_dec (take 2 U) <? 1) || (be_dec (take 2 U) >? maxlen)) eqn:En.
  { unfold looked, parse. rewrite (proj2 (Z.ltb_ge (Zlen U) 2)) by lia. rewrite En. wp_steps. eexists. split; [done|].
    split; [done|]. by split. }
  apply orb_false_iff in En as [En1 En2]. bool_simp. wp_steps.
  assert (Zlen (drop 2 U) = Zlen U - 2) as Hd by (unfold Zlen in *; rewrite length_drop; lia).
  eapply wp_look_known; try done; try lia.
  split; try done. simpl in *. lia.
Qed.

Lemma waiting_short h sb U : waiting h sb U ->
  parse U = PShort /\ exists bs off len, sb_ok h sb [] bs off len false /\ incomplete bs off len.
Proof.
  intros ([_ [[H Hl] | (HU & Hn & Hb & H)]] & H1 & H2 & _); pose proof (sk_len _ _ _ _ _ _ _ H) as E.
  - specialize (H1 E). split; [unfold parse; by rewrite (proj2 (Z.ltb_lt (Zlen U) 2)) by lia|].
    do 3 eexists. split; [exact H|]. by left.
  - assert (Zlen (drop 2 U) < be_dec (take 2 U)) by (rewrite <- E; apply H2; lia). split.
    + rewrite parse_known by done. by rewrite (proj2 (Z.ltb_lt (Zlen (drop 2 U)) (be_dec (take 2 U)))).
    + do 3 eexists. split; [exact H|]. by right.
Qed.

Lemma waiting_set_next h sb U : waiting h sb U ->
  wp (stream_buf_set_next sb) (fun sb' h' => h' = h /\ sb' = sb) h.
Proof.
  intros H. destruct (waiting_short h sb U H) as (_ & bs & off & len & Hok & Hi).
  eapply wp_mono; [by eapply wp_set_next|]. intros sb' h' [-> ->]. split; [done|].
  destruct H as (_ & _ & _ & Hn). rewrite <- Hn. by destruct sb.
Qed.

Lemma idle_incomplete : incomplete [] o (-1).
Proof. left. done. Qed.

Lemma with_ff_same sb v : sb_fully_formed sb = v -> with_fully_formed sb v = sb.
Proof. intros <-. by destruct sb. Qed.

(** Before a read: what was left over is looked at. *)
Lemma wp_read_setup h sb U : idle h sb U \/ waiting h sb U ->
  wp (stream_buf_read_setup_dowork sb) (fun x h' => exists sb', x = (negb (sb_fully_formed sb'), sb') /\
    match parse U with
    | PShort => sb_fully_formed sb' = false /\ waiting h' sb' U
    | PBad => sb_error sb' = true
    | PPacket p rest => sb_fully_formed sb' = true /\ formed h' sb' p rest
    end) h.
Proof.
  intros [(Hff & H & HU) | Hw]; unfold stream_buf_read_setup_dowork.
  2:{ destruct (waiting_short h sb U Hw) as (-> & bs & off & len & H & Hi).
      pose proof (sk_residual _ _ _ _ _ _ _ H) as Hr. rep_facts Hr. change (Zlen []) with 0 in *.
      destruct Hw as ([Hff Hw1] & Hw2). rewrite <- HL. change (0 =? 0) with true. cbn [negb andb]. wp_steps. rewrite Hff. wp_steps.
      eapply wp_mono; [apply (waiting_set_next h sb U); by split|]. intros sb' h' [-> ->]. wp_steps.
      exists sb. rewrite Hff. split; [done|]. split; [done|]. by split. }
  pose proof H as []. rep_facts sk_residual0. rep_facts sk_buf0. rewrite Hff.
  destruct (b_len (sb_residual sb) =? 0) eqn:E; bool_simp; cbn [negb andb]; wp_steps; rewrite ?Hff; wp_steps.
  { eapply wp_mono; [eapply wp_set_next; [exact H | exact idle_incomplete]|]. intros sb' h' [-> ->]. wp_steps.
    assert (U = []) as -> by (destruct U; [done | rewrite Zlen_cons in *; pose proof (Zlen_nonneg U); lia]).
    eexists. split; [done|]. change (parse []) with PShort. split; [done|].
    split; [split; [done|left; split; [by apply sb_ok_with_next | done]]|].
    cbn. split; [done|]. split; [by rewrite sk_len0 | done]. }
  eapply wp_mono.
  { eapply (wp_buf_copy h q (sb_buf sb) []); [done | done |]. change (Zlen []) with 0 in *. rewrite sk_cap0, sk_off0. lia. }
  intros [ok b'] h' ([= -> ->] & Hb & Hm). wp_steps.
  destruct (buf_init_spec h' r (sb_residual sb) U 0) as [-> Hri].
  { eapply buf_rep_other; [exact sk_residual0 | exact Hm | done]. }
  { lia. }
  wp_steps. eapply wp_mono.
  { apply (wp_look h' _ U). split; [done|]. left. split; [|done].
    split; try done. eapply buf_rep_empty; [exact sk_init0|].
    apply (mod_valid _ _ _ _ Hm). eapply br_valid; eauto. }
  intros [full sb'] h'' Hl. unfold looked in Hl. destruct (parse U) as [| |p rest].
  - destruct Hl as (? & [= -> <-] & Hw). wp_steps. rewrite with_ff_same by apply Hw. rewrite (proj1 (proj1 Hw)). wp_steps.
    eapply wp_mono; [by eapply waiting_set_next|]. intros ? ? [-> ->]. wp_steps.
    exists sb'. rewrite (proj1 (proj1 Hw)). by split.
  - destruct Hl as (? & [= -> <-] & Hff' & Hok). wp_steps. rewrite with_ff_same, Hff' by done. wp_steps.
    eapply wp_mono; [eapply wp_set_next; [exact Hok | exact idle_incomplete]|]. intros ? ? [-> ->]. wp_steps.
    eexists. split; [done|]. apply Hok.
  - destruct Hl as (? & [= -> <-] & Hff' & Hw). wp_steps. eexists. split; [done|]. split; [done|].
    destruct Hw as (Hl & off & len & Hw). split; [done|]. exists off, len. by apply sb_ok_fully_formed.
Qed.

(** The bytes a read puts behind the buffered ones become part of them. *)
Lemma sb_ok_grow h h' sb bs off len x :
  sb_ok h sb [] bs off len false -> off + Zlen bs + Zlen x <= b_capacity (sb_init sb) -> Zlen bs + Zlen x <= 65535 ->
  mload h' (ptr_add q (off + Zlen bs)) (Zlen x) = Some x ->
  modifies h h' (ptr_add q (off + Zlen bs)) (Zlen x) ->
  sb_ok h' (with_buf_len sb (with_len (sb_buf sb) (i32 (b_len (sb_buf sb) + Zlen x))) (sb_len sb))
    [] (bs ++ x) off len false.
Proof.
  intros [] Hc Hs Hl Hm. rep_facts sk_buf0. rep_facts sk_init0. pose proof (Zlen_nonneg x). wrap_simp.
  split; cbn; try done.
  - eapply buf_rep_empty; [exact sk_init0|]. by apply Hm.
  - eapply buf_rep_other; [exact sk_residual0 | exact Hm | done].
  - split; cbn; try done; try lia; [by apply Hm|unfold BUF_MAX; lia|].
    eapply mload_app.
    + rewrite (mod_frame _ _ _ _ Hm); [done | lia|]. right. left. cbn. lia.
    + rewrite ptr_add_add, <- HL, sk_off0. done.
Qed.

Lemma added_more sb n : 0 < n ->
  stream_buf_added sb n =
  stream_buf_added (with_buf_len sb (with_len (sb_buf sb) (i32 (b_len (sb_buf sb) + n))) (sb_len sb)) 0.
Proof. intros. unfold stream_buf_added. by replace (n >? 0) with true by blia. Qed.

Lemma wp_receive h sb U bs : waiting h sb U -> 0 < Zlen bs <= b_len (sb_next sb) ->
  wp (p ← deref (BPTR (sb_next sb)); store p bs)
     (fun _ h' => wp (stream_buf_added sb (Zlen bs)) (looked (U ++ bs)) h') h.
Proof.
  intros ([Hff Hb] & H1 & H2 & Hn) Hbs. rewrite added_more by lia. rewrite Hn in *.
  assert (exists x off len, sb_ok h sb [] x off len false /\ BPTR (next_of sb) = Some (ptr_add q (off + Zlen x)) /\
            Zlen x + Zlen bs <= (if len >=? 0 then len else maxlen) <= maxlen /\ o <= off <= o + 2 /\
            ((len = -1 /\ off = o /\ x = U /\ Zlen U < 2) \/
             (2 <= Zlen U /\ len = be_dec (take 2 U) /\ 1 <= len <= maxlen /\ x = drop 2 U /\ off = o + 2)))
    as (x & off & len & Hok & Hp & Hlen & Hoff & Hcase).
  { assert (forall x off len, sb_ok h sb [] x off len false -> len <= maxlen ->
      BPTR (next_of sb) = Some (ptr_add q (off + Zlen x)) /\
      Zlen x + Zlen bs <= (if len >=? 0 then len else maxlen) <= maxlen) as HA.
    { intros x off len Hok Hml. pose proof Hok as []. rep_facts sk_buf0. unfold BPTR, next_of in *. cbn in *.
      rewrite H, sk_len0, sk_maxlen0 in *. cbn. split; [do 2 f_equal; lia|].
      destruct (len >=? 0); lia. }
    destruct Hb as [[H Hl] | (HU & Hd & Hx & H)]; do 3 eexists; (split; [exact H|]);
      pose proof (sk_small _ _ _ _ _ _ _ H); edestruct HA as [Ha Hc]; try exact H; try lia;
      (split; [exact Ha|]); (split; [exact Hc|]); (split; [lia|]).
    - left. repeat split; auto. apply H1, (sk_len _ _ _ _ _ _ _ H).
    - right. repeat split; auto; lia. }
  pose proof (sk_small _ _ _ _ _ _ _ Hok). pose proof (sk_room _ _ _ _ _ _ _ Hok).
  pose proof (sk_buf _ _ _ _ _ _ _ Hok) as Hrep. rep_facts Hrep. pose proof (sk_off _ _ _ _ _ _ _ Hok).
  pose proof (sk_cap _ _ _ _ _ _ _ Hok).
  rewrite Hp. wp_steps. apply wp_store; [eapply buf_rep_valid; [exact Hrep | lia..]|]. intros h' Hl Hm.
  apply wp_look. split; [done|].
  pose proof (sb_ok_grow h h' sb x off len bs Hok) as Hg.
  destruct Hcase as [(-> & -> & -> & ?) | (? & -> & ? & -> & ->)].
  - left. split; [apply Hg; auto; lia|]. rewrite Zlen_app. change (-1 >=? 0) with false in *. lia.
  - right. assert (length (take 2 U) = 2%nat) by (rewrite length_take; unfold Zlen in *; lia).
    rewrite Zlen_app. rewrite take_app_le, drop_app_le by (unfold Zlen in *; lia).
    rewrite Zlen_app in *. replace (be_dec (take 2 U) >=? 0) with true in * by blia.
    split; [lia|]. split; [lia|]. split; [lia|]. apply Hg; auto; lia.
Qed.

(** ** Packets on the wire *)

Definition packet_ok (p : list byte) : Prop := 1 <= Zlen p <= maxlen.

Lemma parse_frames U W ps :
  2 <= maxlen <= 65535 -> Forall packet_ok ps -> U ++ W = frames ps ->
  match parse U with
  | PShort => W = [] -> ps = []
  | PBad => False
  | PPacket p rest => exists ps', ps = p :: ps' /\ rest ++ W = frames ps'
  end.
Proof.
  intros Hm Hps E. destruct ps as [|p ps]; [by apply app_eq_nil in E as [-> ->]|].
  apply Forall_cons_1 in Hps as [Hp Hps]. unfold packet_ok in Hp. cbn [frames] in E.
  assert (Zlen U + Zlen W = 2 + Zlen p + Zlen (frames ps)) as HL.
  { rewrite <- Zlen_app, E, !Zlen_app, Zlen_be_enc2. lia. }
  pose proof (Zlen_nonneg (frames ps)).
  assert (Zlen U < 2 + Zlen p -> W = [] -> p :: ps = []) as Hshort.
  { intros HU ->. change (Zlen []) with 0 in HL. lia. }
  destruct (decide (Zlen U < 2)) as [HU|HU].
  { unfold parse. rewrite (proj2 (Z.ltb_lt (Zlen U) 2)) by done. apply Hshort. lia. }
  assert (take 2 U = be_enc 2 (Zlen p)) as H2.
  { rewrite <- (take_app_le U W) by (unfold Zlen in *; lia). rewrite E.
    by rewrite take_app_length' by (by rewrite length_be_enc). }
  assert (be_dec (take 2 U) = Zlen p) as Hd by (rewrite H2; apply be_dec_enc; cbn; lia).
  assert (drop 2 U ++ W = p ++ frames ps) as Hdrop.
  { rewrite <- drop_app_le by (unfold Zlen in *; lia). rewrite E.
    by rewrite drop_app_length' by (by rewrite length_be_enc). }
  rewrite parse_known by lia. rewrite Hd.
  destruct (Zlen (drop 2 U) <? Zlen p) eqn:El; bool_simp.
  { apply Hshort. unfold Zlen in *. rewrite length_drop in El. lia. }
  exists ps. replace (Z.to_nat (Zlen p)) with (length p) by (unfold Zlen; lia). split.
  - f_equal. rewrite <- (take_app_le (drop 2 U) W) by (unfold Zlen in *; lia). by rewrite Hdrop, take_app_length.
  - rewrite <- drop_app_le by (unfold Zlen in *; lia). by rewrite Hdrop, drop_app_length.
Qed.

Definition ready (h : heap) (sb : stream_buf) (U : list byte) : Prop := idle h sb U \/ waiting h sb U.

(** The packet that is there is delivered. *)
Lemma formed_deliver h sb p rest : formed h sb p rest -> p <> [] ->
  idle h (stream_buf_reset sb) rest /\ buf_defined (sb_buf sb) = true /\ b_len (sb_buf sb) = Zlen p /\
  0 < Zlen p /\ BPTR (sb_buf sb) = Some (ptr_add q (b_offset (sb_buf sb))) /\
  mload h (ptr_add q (b_offset (sb_buf sb))) (BLEN (sb_buf sb)) = Some p.
Proof.
  intros (Hl & off & len & []) Hp. rep_facts sk_buf0. split; [split; [done|]; split; [by split | done]|].
  unfold buf_defined, BDEF, BPTR. rewrite H. repeat split; try done.
  destruct p; [done|]. rewrite Zlen_cons. pose proof (Zlen_nonneg p). lia.
Qed.

Lemma waiting_next h sb U : waiting h sb U ->
  0 < b_len (sb_next sb) /\ buf_defined (sb_next sb) = true.
Proof.
  intros H. destruct (waiting_short h sb U H) as (_ & bs & off & len & [] & Hi).
  destruct H as (_ & _ & _ & ->). rep_facts sk_buf0. unfold next_of, buf_defined, BDEF. cbn.
  rewrite H, sk_len0, sk_maxlen0. split; [|done]. destruct Hi as [(-> & -> & ?) | (? & -> & ?)].
  - change (-1 >=? 0) with false. lia.
  - replace (len >=? 0) with true by blia. lia.
Qed.

(** A read in the middle of a packet. *)
Lemma wp_read_tcp_more h recv sock buf U bs :
  waiting h (so_stream sock) U -> sb_fully_formed (so_stream sock) = false -> 
  recv (BLEN (sb_next (so_stream sock))) = Some bs -> 0 < Zlen bs <= b_len (sb_next (so_stream sock)) -> parse (U ++ bs) <> PBad ->
  (forall p rest, parse (U ++ bs) = PPacket p rest -> p <> []) ->
  wp (tcp_read recv sock buf) (fun x h' =>
    let '(out, sock', _) := x in so_reset sock' = so_reset sock /\
    match parse (U ++ bs) with
    | PShort => out = None /\ waiting h' (so_stream sock') (U ++ bs)
    | PBad => False
    | PPacket p rest => out = Some p /\ idle h' (so_stream sock') rest
    end) h.
Proof.
  intros Hw Hff Hrecv Hbs Hbad Hne. destruct (waiting_next _ _ _ Hw) as [Hn0 Hnd].
  unfold tcp_read, link_socket_read_tcp, stream_buf_get_next. rewrite Hff, Hnd. wp_steps. rewrite Hrecv. wp_steps.
  pose proof (wp_receive _ _ _ _ Hw Hbs) as HR. rewrite wp_bind in HR.
  eapply wp_mono; [exact HR|]. intros p h2 HR2. wp_steps. eapply wp_mono; [exact HR2|]. intros [] h3 HR3. wp_steps.
  replace (Zlen bs =? 0) with false by blia. wp_steps.
  eapply wp_mono; [exact HR3|]. intros [full sb] h4 Hl. unfold looked in Hl.
  destruct (parse (U ++ bs)) as [| |pk rest] eqn:Ep; [|done|].
  - destruct Hl as (? & [= -> <-] & Hw'). wp_steps. done.
  - destruct Hl as (? & [= -> <-] & Hff' & Hfo).
    destruct (formed_deliver _ _ _ _ Hfo (Hne _ _ eq_refl)) as (Hi & Hd & Hln & Hl0 & HB & Hld).
    unfold stream_buf_get_final. rewrite Hd. wp_steps.
    rewrite Hln. replace (Zlen pk >? 0) with true by blia. rewrite HB. wp_steps.
    eapply wp_load; [exact Hld|]. wp_steps. done.
Qed.

Lemma packets_ne p ps : Forall packet_ok (p :: ps) -> p <> [].
Proof. intros [H _]%Forall_cons_1 ->. unfold packet_ok, Zlen in H. cbn in H. lia. Qed.

(** One turn of the event loop, when the packets [ps] are still to come. *)
Lemma wp_tcp_turn h sock buf size W U ps :
  ready h (so_stream sock) U -> Forall packet_ok ps -> U ++ W = frames ps ->
  wp (tcp_turn sock buf size W) (fun x h' =>
    let '(out, sock', _, W') := x in
    exists U' ps', ready h' (so_stream sock') U' /\ U' ++ W' = frames ps' /\
      so_reset sock' = so_reset sock /\ (length W' <= length W)%nat /\
      match out with
      | Some p => ps = p :: ps'
      | None => ps' = ps /\ (ps = [] \/ (length W' < length W)%nat)
      end) h.
Proof.
  intros Hr Hps E. unfold tcp_turn.
  assert (2 <= maxlen <= 65535) as Hm by (destruct Hr as [(_ & [] & _)|[[_ [[[] _]|(_ & _ & _ & [])]] _]]; done).
  pose proof (parse_frames U W ps Hm Hps E) as Hpf. wp_steps.
  eapply wp_mono; [by apply wp_read_setup|]. intros [want sb] h1 (sb' & [= -> ->] & Hst). wp_steps.
  destruct (parse U) as [| |p rest]; [|done|].
  - destruct Hst as [Hff Hw]. rewrite Hff. cbn [negb andb].
    case_bool_decide as HW.
    { wp_steps. exists U, ps. split; [by right|]. repeat split; auto. }
    set (k := Nat.min (S size) (Z.to_nat (BLEN (sb_next sb')))).
    destruct (waiting_next _ _ _ Hw) as [Hn0 _].
    assert (0 < Zlen (take k W) <= b_len (sb_next sb')) as Hk.
    { unfold Zlen, BLEN in *. rewrite length_take. destruct W; [done|]. cbn [length]. lia. }
    assert ((U ++ take k W) ++ drop k W = frames ps) as E' by (by rewrite <- app_assoc, take_drop).
    assert (length (drop k W) < length W)%nat as Hlt by (unfold Zlen in *; rewrite length_drop, length_take in *; lia).
    pose proof (parse_frames _ _ _ Hm Hps E') as Hpf'.
    pose proof (wp_read_tcp_more h1 (fun n => Some (take (Nat.min (S size) (Z.to_nat n)) W))
      (Sock sb' (so_reset sock)) buf U (take k W) Hw Hff eq_refl Hk) as HR.
    wp_steps. eapply wp_mono.
    { apply HR; [by destruct (parse (U ++ take k W)) |]. intros p rest Ep. rewrite Ep in Hpf'.
      destruct Hpf' as (ps' & -> & _). by eapply packets_ne. }
    intros [[out sock'] buf'] h' [Hrs Hout]. wp_steps. cbn [so_reset] in Hrs.
    destruct (parse (U ++ take k W)) as [| |p rest]; [|done|].
    + destruct Hout as [-> Hw']. exists (U ++ take k W), ps. split; [by right|].
      repeat split; auto; unfold Zlen, k in *; lia.
    + destruct Hout as [-> Hi]. destruct Hpf' as (ps' & -> & Ef). exists rest, ps'. split; [by left|].
      repeat split; auto; unfold Zlen, k in *; lia.
  - destruct Hst as [Hff Hfo]. rewrite Hff. cbn [negb andb]. destruct Hpf as (ps' & -> & E').
    destruct (formed_deliver _ _ _ _ Hfo) as (Hi & Hd & Hl & Hl0 & HB & Hld); [by eapply packets_ne|].
    unfold tcp_read, link_socket_read_tcp. cbn [so_stream so_reset]. rewrite Hff.
    wp_steps. unfold stream_buf_get_final. rewrite Hd. wp_steps.
    rewrite Hl. replace (Zlen p >? 0) with true by blia. rewrite HB. wp_steps.
    eapply wp_load; [exact Hld|]. wp_steps. exists rest, ps'. split; [by left|]. repeat split; auto.
Qed.

(** The run delivers the packets in order, and all of them after enough turns. *)
Lemma wp_tcp_run h sock buf sizes W U ps :
  ready h (so_stream sock) U -> Forall packet_ok ps -> U ++ W = frames ps ->
  wp (tcp_run sock buf sizes W) (fun x h' =>
    so_reset x.2 = so_reset sock /\ x.1 `prefix_of` ps /\
    ((length W + length ps <= length sizes)%nat -> x.1 = ps)) h.
Proof.
  revert h sock buf W U ps. induction sizes as [|size sizes IH]; intros h sock buf W U ps Hr Hps E; cbn [tcp_run].
  { wp_steps. split; [done|]. split; [apply prefix_nil|]. cbn. intros. by destruct ps; [|cbn in *; lia]. }
  wp_steps. eapply wp_mono; [by eapply wp_tcp_turn|].
  intros [[[out sock1] buf1] W1] h1 (U1 & ps1 & Hr1 & E1 & Hs1 & Hle & Hout). wp_steps.
  eapply wp_mono; [eapply (IH h1 sock1 buf1 W1 U1 ps1); [done| |done]|].
  { destruct out; [subst ps; by apply Forall_cons_1 in Hps as [_ ?] | by destruct Hout as [-> _]]. }
  intros [outs sock2] h2 (Hs2 & Hp2 & Hall). wp_steps. cbn [fst snd length] in *.
  split; [congruence|]. destruct out as [p|].
  - subst ps. split; [by apply prefix_cons|]. intros. cbn in *. rewrite Hall by lia. done.
  - destruct Hout as [-> Hout]. split; [done|]. intros Hn. destruct Hout as [-> | Hlt].
    + destruct outs; [done|]. by apply prefix_nil_inv in Hp2.
    + apply Hall. lia.
Qed.
End Layout.

(** What the sender puts on the wire for the packet [p]. *)
Definition tcp_wire (sender : link_socket) (p w : list byte) : Prop :=
  exists q b h, buf_rep h q b p /\ 2 <= b_offset b /\
    wp (b ← link_socket_write_tcp sender b; d ← deref (BPTR b); load d (BLEN b)) (fun w' _ => w' = w) h.

Lemma wp_write_tcp h q b p sender : buf_rep h q b p -> 2 <= b_offset b -> Zlen p <= 65535 ->
  Zlen p <= sb_maxlen (so_stream sender) ->
  wp (link_socket_write_tcp sender b)
     (fun b' h' => buf_rep h' q b' (be_enc 2 (Zlen p) ++ p)) h.
Proof.
  intros H Ho Hl Hs. rep_facts H. unfold link_socket_write_tcp, BLEN.
  replace (u16 (b_len b)) with (Zlen p) by (unfold u16; rewrite Z.mod_small; lia).
  rewrite (proj2 (Z.leb_le (Zlen p) _)) by done. wp_steps.
  eapply wp_mono; [eapply (wp_buf_write_prepend h q b p (be_enc 2 (Zlen p))); [done | by rewrite Zlen_be_enc2]|].
  intros [ok b'] h' (Hb & Hrep & _). injection Hb as -> ->. wp_steps. done.
Qed.

Lemma tcp_wire_frame sender p w : Zlen p <= 65535 -> tcp_wire sender p w -> w = be_enc 2 (Zlen p) ++ p.
Proof.
  intros Hl (q & b & h & H & Ho & Hw). rep_facts H. rewrite wp_bind in Hw.
  destruct (decide (Zlen p <= sb_maxlen (so_stream sender))) as [Hs|Hs].
  - pose proof (wp_write_tcp h q b p sender H Ho Hl Hs) as Hw'. unfold wp in Hw, Hw'.
    destruct (link_socket_write_tcp sender b h) as [[b' h']| |]; [|done..].
    rewrite (BPTR_rep _ _ _ _ Hw') in Hw. pose proof (br_bytes _ _ _ _ Hw') as Hb.
    revert Hw. change (wp (d ← deref (Some (ptr_add q (b_offset b'))); load d (BLEN b')) (fun w' _ => w' = w) h' -> w = be_enc 2 (Zlen p) ++ p).
    unfold wp, mbind, M_bind, load, BLEN. cbn. rewrite Hb. done.
  - exfalso. unfold wp, link_socket_write_tcp, BLEN, u16 in Hw. rewrite Z.mod_small in Hw by lia.
    rewrite (proj2 (Z.leb_gt (b_len b) (sb_maxlen (so_stream sender)))) in Hw by lia. done.
Qed.

Lemma concat_frames sender ps ws :
  Forall2 (tcp_wire sender) ps ws -> Forall (fun p => Zlen p <= 65535) ps -> concat ws = frames ps.
Proof.
  induction 1 as [|p w ps ws Hw _ IH]; [done|]. intros [Hp Hps]%Forall_cons_1. cbn [concat frames].
  by rewrite (tcp_wire_frame _ _ _ Hp Hw), IH, <- app_assoc.
Qed.

(** C34: packets go through a TCP connection whole and in order.  When the peer
    sends the packets ps with link_socket_write_tcp and the receiver's stream
    buffer (as stream_buf_init makes it) has room for each and for the prefix,
    then whatever amounts recv returns turn by turn, the receiver does not fault,
    fail an ASSERT or reset the connection, what it delivers is always an initial
    part of ps, and after as many turns as there are bytes and packets it has
    delivered all of ps.  This covers prefixes cut in two, several packets in one
    read and what is left in the residual buffer. *)
Theorem stream_roundtrip fill q buf bs sender ps ws user sizes h :
  buf_rep h q buf bs -> 2 <= b_len buf <= 65535 -> b_offset buf + 2 + b_len buf <= b_capacity buf ->
  Forall (fun p => 1 <= Zlen p <= b_len buf) ps -> Forall2 (tcp_wire sender) ps ws ->
  wp (sb ← stream_buf_init fill buf; tcp_run (Sock sb false) user sizes (concat ws))
     (fun x _ => so_reset x.2 = false /\ x.1 `prefix_of` ps /\
        ((length (concat ws) + length ps <= length sizes)%nat -> x.1 = ps)) h.
Proof.
  intros H Hl Hroom Hps Hws. rewrite (concat_frames _ _ _ Hws).
  2:{ eapply Forall_impl; [|exact Hps]. cbn. lia. }
  unfold stream_buf_init. wp_steps.
  eapply wp_mono; [apply wp_alloc_buf; unfold BUF_MAX; lia|]. intros res h1 (r & -> & Hr & Hf). wp_steps.
  assert (blk q <> blk r) as Hqr by (by eapply buf_rep_fresh_ne).
  assert (buf_rep h1 q (with_len buf 0) []) as Hq.
  { apply (buf_rep_fresh_ext h h1 r); [done|]. destruct (buf_rep_with_len h q buf bs 0 H) as [x Hx]; [lia | rep_facts H; lia|].
    pose proof (buf_rep_Zlen _ _ _ _ Hx) as Hx0. cbn in Hx0. destruct x; [done|].
    rewrite Zlen_cons in Hx0. pose proof (Zlen_nonneg x). lia. }
  eapply wp_mono; [eapply (wp_tcp_run q r Hqr (b_offset buf) (b_len buf) h1 _ user sizes (frames ps) [] ps)|]; try done.
  left. split; [done|]. split; [|unfold Zlen; cbn; lia]. by split.
Qed.

(** The premises hold of a sender and a receiver with 100-byte packets. *)
Definition ex_stream : stream_buf := Sb buf_reset buf_reset 100 false buf_reset buf_reset (-1) false.
Definition ex_sender_heap : heap := {[1%positive := [0; 0; 65; 66; 67]]}.

Lemma stream_roundtrip_witness :
  wp (sb ← stream_buf_init (fun _ => 0) (Buf 200 4 100 (Some (Ptr 1 0)));
      tcp_run (Sock sb false) buf_reset [0; 0; 4; 0; 9; 9; 9; 9; 9; 9; 9; 9]%nat
        (concat [be_enc 2 3 ++ [65; 66; 67]; be_enc 2 2 ++ [65; 66]]))
     (fun x _ => so_reset x.2 = false /\ x.1 `prefix_of` [[65; 66; 67]; [65; 66]] /\
        ((9 + 2 <= 12)%nat -> x.1 = [[65; 66; 67]; [65; 66]])) {[1%positive := replicate 200 0]}.
Proof.
  apply (stream_roundtrip (fun _ => 0) (Ptr 1 0) (Buf 200 4 100 (Some (Ptr 1 0))) (replicate 100 0) (Sock ex_stream false)).
  - split; try reflexivity; unfold BUF_MAX; cbn [b_capacity b_offset b_len b_data]; try lia. eexists; reflexivity.
  - cbn. lia.
  - cbn. lia.
  - rewrite !list.Forall_cons. unfold Zlen. cbn. split_and!; try lia. apply Forall_nil_2.
  - apply Forall2_cons; [|apply Forall2_cons; [|apply Forall2_nil; done]].
    + exists (Ptr 1 0), (Buf 5 2 3 (Some (Ptr 1 0))), ex_sender_heap. split; [|split; [cbn; lia | reflexivity]].
      split; try reflexivity; unfold BUF_MAX; cbn [b_capacity b_offset b_len b_data]; try lia. eexists; reflexivity.
    + exists (Ptr 1 0), (Buf 5 2 2 (Some (Ptr 1 0))), ex_sender_heap. split; [|split; [cbn; lia | reflexivity]].
      split; try reflexivity; unfold BUF_MAX; cbn [b_capacity b_offset b_len b_data]; try lia. eexists; reflexivity.
Defined.
