(* ===== verification/Mss.v ===== *)
(** Lowering the MSS of TCP SYN packets (src/mss.c, src/mss.h), with the parts of
    src/proto.h, src/proto.c and src/forward.c that find the IPv4 and TCP headers.

    Packets are the bytes of a buffer in the heap; [little] says which byte order
    the host has, since the checksum is updated in host words. *)

From Stdlib Require Import Sorting.Sorted.
From S2P Require Import Prelude Buffer Mtu.

(** ** Constants of proto.h and forward.h *)

Definition DEV_TYPE_TUN : Z := 2.
Definition DEV_TYPE_TAP : Z := 3.
Definition OPENVPN_ETH_P_IPV4 : Z := 2048.
Definition OPENVPN_IPPROTO_TCP : Z := 6.
Definition OPENVPN_IP_OFFMASK : Z := 8191.
Definition OPENVPN_TCPH_SYN_MASK : Z := 2.
Definition OPENVPN_TCPOPT_EOL : Z := 0.
Definition OPENVPN_TCPOPT_NOP : Z := 1.
Definition OPENVPN_TCPOPT_MAXSEG : Z := 2.
Definition OPENVPN_TCPOLEN_MAXSEG : Z := 4.
Definition PIPV4_PASSTOS : Z := 1.
Definition PIPV4_MSSFIX : Z := 2.

(** Sizes of the structs, and the offsets of the members used. *)
Definition sizeof_ethhdr : Z := 14.
Definition eth_proto : Z := 12.
Definition sizeof_iphdr : Z := 20.
Definition ip_tos : Z := 1.
Definition ip_tot_len : Z := 2.
Definition ip_frag_off : Z := 6.
Definition ip_protocol : Z := 9.
Definition sizeof_tcphdr : Z := 20.
Definition tcp_doff_res : Z := 12.
Definition tcp_flags : Z := 13.
Definition tcp_check : Z := 16.

Definition OPENVPN_IPH_GET_VER (v : Z) : Z := Z.land (Z.shiftr v 4) 15.
Definition OPENVPN_IPH_GET_LEN (v : Z) : Z := Z.shiftl (Z.land v 15) 2.
Definition OPENVPN_TCPH_GET_DOFF (d : Z) : Z := Z.shiftr (Z.land d 240) 2.

Definition MTU_TO_MSS (mtu : Z) : Z := i32 (mtu - sizeof_iphdr - sizeof_tcphdr).

(** ADJUST_CHECKSUM: the new value of [cksum]. *)
Definition ADJUST_CHECKSUM (acc cksum : Z) : Z :=
  let acc := i32 (acc + cksum) in
  if acc <? 0 then
    let acc := i32 (- acc) in
    let acc := i32 (Z.shiftr acc 16 + Z.land acc 65535) in
    let acc := i32 (acc + Z.shiftr acc 16) in
    u16 (Z.lnot acc)
  else
    let acc := i32 (Z.shiftr acc 16 + Z.land acc 65535) in
    let acc := i32 (acc + Z.shiftr acc 16) in
    u16 acc.

Section Host.
Context (little : bool).

(** ** 16-bit words in memory *)

Definition raw16 (bs : list byte) : Z :=
  match bs with [a; b] => if little then a + 256 * b else 256 * a + b | _ => 0 end.
Definition raw16_bytes (x : Z) : list byte :=
  if little then [u8 x; u8 (Z.shiftr x 8)] else [u8 (Z.shiftr x 8); u8 x].
Definition ntohs (x : Z) : Z :=
  if little then Z.lor (Z.shiftl (Z.land x 255) 8) (Z.shiftr x 8) else x.
Definition htons (x : Z) : Z := ntohs x.

Definition load_u8 (p : ptr) : M Z := bs ← load p 1; mret (be_dec bs).
Definition load_u16 (p : ptr) : M Z := bs ← load p 2; mret (raw16 bs).
Definition store_u16 (p : ptr) (x : Z) : M unit := store p (raw16_bytes x).

(** ** mss.c *)

(** What is done for one MSS option, at [opt], of the segment at [tc]. *)
Definition mss_lower (tc opt : ptr) (maxmss : Z) : M unit :=
  mss ← load_u16 (ptr_add opt 2);
  if ntohs mss >? maxmss then
    _ ← store_u16 (ptr_add opt 2) (htons maxmss);
    mss' ← load_u16 (ptr_add opt 2);
    check ← load_u16 (ptr_add tc tcp_check);
    store_u16 (ptr_add tc tcp_check) (ADJUST_CHECKSUM (i32 (mss - mss')) check)
  else mret tt.

(** The loop over the options.  Every turn consumes at least one byte of the
    options, so [olen] turns are enough. *)
Fixpoint mss_loop (fuel : nat) (tc opt : ptr) (olen maxmss : Z) : M unit :=
  if negb (olen >? 0) then mret tt
  else
    match fuel with
    | O => lift Fault
    | S fuel =>
        k ← load_u8 opt;
        if k =? OPENVPN_TCPOPT_EOL then mret tt
        else if k =? OPENVPN_TCPOPT_NOP then mss_loop fuel tc (ptr_add opt 1) (olen - 1) maxmss
        else
          optlen ← load_u8 (ptr_add opt 1);
          if (optlen <=? 0) || (optlen >? olen) then mret tt
          else
            _ ← (if (k =? OPENVPN_TCPOPT_MAXSEG) && negb (negb (optlen =? OPENVPN_TCPOLEN_MAXSEG))
                 then mss_lower tc opt maxmss else mret tt);
            mss_loop fuel tc (ptr_add opt optlen) (olen - optlen) maxmss
    end.

Definition mss_fixup_dowork (buf : buffer) (maxmss : Z) : M unit :=
  _ ← ASSERT (BLEN buf >=? sizeof_tcphdr);
  tc ← deref (BPTR buf);
  doff ← load_u8 (ptr_add tc tcp_doff_res);
  let hlen := OPENVPN_TCPH_GET_DOFF doff in
  if (hlen <=? sizeof_tcphdr) || (hlen >? BLEN buf) then mret tt
  else
    let olen := hlen - sizeof_tcphdr in
    mss_loop (Z.to_nat olen) tc (ptr_add tc sizeof_tcphdr) olen maxmss.

Definition mss_fixup (buf : buffer) (maxmss : Z) : M unit :=
  if BLEN buf <? sizeof_iphdr then mret tt
  else
    pip ← deref (BPTR buf);
    version_len ← load_u8 pip;
    let hlen := OPENVPN_IPH_GET_LEN version_len in
    protocol ← load_u8 (ptr_add pip ip_protocol);
    tot_len ← load_u16 (ptr_add pip ip_tot_len);
    frag_off ← load_u16 (ptr_add pip ip_frag_off);
    if (protocol =? OPENVPN_IPPROTO_TCP) && (ntohs tot_len =? BLEN buf)
       && (Z.land (ntohs frag_off) OPENVPN_IP_OFFMASK =? 0) && (hlen <=? BLEN buf)
       && (BLEN buf - hlen >=? sizeof_tcphdr)
    then
      let '(ok, newbuf) := buf_advance buf hlen in
      if ok then
        tc ← deref (BPTR newbuf);
        flags ← load_u8 (ptr_add tc tcp_flags);
        if flag flags OPENVPN_TCPH_SYN_MASK then mss_fixup_dowork newbuf (u16 maxmss) else mret tt
      else mret tt
    else mret tt.

(** ** proto.c, forward.c *)

Definition is_ipv4 (tunnel_type : Z) (buf : buffer) : M (bool * buffer) :=
  let at_offset offset :=
    (p ← deref (BPTR buf);
     version_len ← load_u8 (ptr_add p offset);
     if OPENVPN_IPH_GET_VER version_len =? 4 then mret (buf_advance buf offset) else mret (false, buf)) in
  if tunnel_type =? DEV_TYPE_TUN then
    if BLEN buf <? sizeof_iphdr then mret (false, buf) else at_offset 0
  else if tunnel_type =? DEV_TYPE_TAP then
    if BLEN buf <? sizeof_ethhdr + sizeof_iphdr then mret (false, buf)
    else
      eh ← deref (BPTR buf);
      proto ← load_u16 (ptr_add eh eth_proto);
      if negb (ntohs proto =? OPENVPN_ETH_P_IPV4) then mret (false, buf) else at_offset sizeof_ethhdr
  else mret (false, buf).

(** The new ls->ptos; it counts as defined afterwards. *)
Definition link_socket_extract_tos (ptos : option Z) (ipbuf : buffer) : M (option Z) :=
  p ← deref (BPTR ipbuf); tos ← load_u8 (ptr_add p ip_tos); mret (Some tos).

Definition process_ipv4_header (mssfix passtos : bool) (tunnel_type : Z) (f : frame) (ptos : option Z)
    (flags : Z) (buf : buffer) : M (option Z) :=
  let flags := if negb mssfix then Z.land flags (Z.lnot PIPV4_MSSFIX) else flags in
  let flags := if negb passtos then Z.land flags (Z.lnot PIPV4_PASSTOS) else flags in
  if (b_len buf >? 0) && flag flags (Z.lor PIPV4_PASSTOS PIPV4_MSSFIX) then
    '(ok, ipbuf) ← is_ipv4 tunnel_type buf;
    if ok : bool then
      ptos ← (if flag flags PIPV4_PASSTOS then link_socket_extract_tos ptos ipbuf else mret ptos);
      _ ← (if flag flags PIPV4_MSSFIX then mss_fixup ipbuf (MTU_TO_MSS (TUN_MTU_SIZE_DYNAMIC f)) else mret tt);
      mret ptos
    else mret ptos
  else mret ptos.

(** ** Bytes and words of a packet *)

Definition byte_at (bs : list byte) (i : Z) : Z := default 0 (bs !! Z.to_nat i).
Definition be16 (bs : list byte) (i : Z) : Z := 256 * byte_at bs i + byte_at bs (i + 1).

Lemma slice_1 bs i : 0 <= i < Zlen bs -> slice i 1 bs = [byte_at bs i].
Proof.
  unfold slice, byte_at, Zlen. intros H. destruct (bs !! Z.to_nat i) as [b|] eqn:E.
  - cbn. rewrite (drop_S bs b (Z.to_nat i) E). done.
  - apply lookup_ge_None in E. lia.
Qed.

Lemma slice_2 bs i : 0 <= i -> i + 2 <= Zlen bs -> slice i 2 bs = [byte_at bs i; byte_at bs (i + 1)].
Proof.
  intros. change 2 with (1 + 1). rewrite slice_join, !slice_1 by lia. done.
Qed.

Lemma byte_at_is_byte bs i : Forall is_byte bs -> is_byte (byte_at bs i).
Proof.
  intros H. unfold byte_at. destruct (bs !! Z.to_nat i) eqn:E; cbn; [|unfold is_byte; lia].
  by eapply Forall_lookup_1.
Qed.

Lemma ntohs_raw16 a b : is_byte a -> is_byte b -> ntohs (raw16 [a; b]) = 256 * a + b.
Proof.
  unfold is_byte, ntohs, raw16. intros. destruct little; [|done].
  change 255 with (Z.ones 8). rewrite Z.land_ones by lia.
  replace ((a + 256 * b) mod 2 ^ 8) with a by (change (2 ^ 8) with 256; Z.to_euclidean_division_equations; lia).
  rewrite Z.shiftr_div_pow2 by lia. change (2 ^ 8) with 256.
  replace ((a + 256 * b) / 256) with b by (Z.to_euclidean_division_equations; lia).
  rewrite Z.lor_comm, lor_shiftl_add by (cbn; lia). change (2 ^ 8) with 256. lia.
Qed.

Lemma raw16_bytes_raw16 x : 0 <= x < 65536 -> raw16 (raw16_bytes x) = x.
Proof.
  intros. unfold raw16_bytes, raw16, u8. rewrite Z.shiftr_div_pow2 by lia. change (2 ^ 8) with 256.
  destruct little; Z.to_euclidean_division_equations; lia.
Qed.

Lemma raw16_bytes_htons x : 0 <= x < 65536 -> raw16_bytes (htons x) = be_enc 2 x.
Proof.
  intros. unfold raw16_bytes, htons, ntohs. change (be_enc 2 x) with [u8 (Z.shiftr x 8); u8 (Z.shiftr x 0)].
  rewrite Z.shiftr_0_r. destruct little; [|done].
  change 255 with (Z.ones 8). rewrite Z.land_ones by lia.
  rewrite Z.lor_comm, !Z.shiftr_div_pow2 by lia. rewrite lor_shiftl_add by (change (2 ^ 8) with 256; Z.to_euclidean_division_equations; lia).
  unfold u8. change (2 ^ 8) with 256. f_equal; [|f_equal]; Z.to_euclidean_division_equations; lia.
Qed.

Lemma raw16_range a b : is_byte a -> is_byte b -> 0 <= raw16 [a; b] < 65536.
Proof. unfold is_byte, raw16. destruct little; lia. Qed.

Lemma htons_range x : 0 <= x < 65536 -> 0 <= htons x < 65536.
Proof.
  intros H. unfold htons, ntohs. destruct little; [|done]. change 255 with (Z.ones 8). rewrite Z.land_ones by lia.
  rewrite Z.lor_comm, !Z.shiftr_div_pow2 by lia. rewrite lor_shiftl_add by (change (2 ^ 8) with 256; Z.to_euclidean_division_equations; lia).
  change (2 ^ 8) with 256. Z.to_euclidean_division_equations; lia.
Qed.
Lemma Zlen_raw16_bytes x : Zlen (raw16_bytes x) = 2.
Proof. unfold raw16_bytes. by destruct little. Qed.
Lemma raw16_bytes_byte x : Forall is_byte (raw16_bytes x).
Proof. unfold raw16_bytes. destruct little; repeat constructor; apply u8_range. Qed.

(** ** Loads and stores inside a packet *)

Lemma wp_load_u8 h q b bs i (Q : Z -> heap -> Prop) :
  buf_rep h q b bs -> 0 <= i < Zlen bs -> Q (byte_at bs i) h ->
  wp (load_u8 (ptr_add q (b_offset b + i))) Q h.
Proof.
  intros H Hi HQ. unfold load_u8. wp_steps. eapply wp_load; [eapply buf_rep_load; [exact H|lia..]|].
  rewrite slice_1 by done. wp_steps. done.
Qed.

Lemma wp_load_u16 h q b bs i (Q : Z -> heap -> Prop) :
  buf_rep h q b bs -> 0 <= i -> i + 2 <= Zlen bs -> Q (raw16 (slice i 2 bs)) h ->
  wp (load_u16 (ptr_add q (b_offset b + i))) Q h.
Proof.
  intros H ?? HQ. unfold load_u16. wp_steps. eapply wp_load; [eapply buf_rep_load; [exact H|lia..]|].
  wp_steps. done.
Qed.

(** ** What the loop does to the bytes of the segment *)

(** The new value of the checksum for the MSS option at [i]. *)
Definition new_check (seg : list byte) (i maxmss : Z) : Z :=
  ADJUST_CHECKSUM (i32 (raw16 (slice (i + 2) 2 seg) - htons maxmss)) (raw16 (slice tcp_check 2 seg)).

Definition lowered (maxmss : Z) (seg : list byte) (i : Z) : list byte :=
  if be16 seg (i + 2) >? maxmss then
    splice tcp_check (raw16_bytes (new_check seg i maxmss)) (splice (i + 2) (be_enc 2 maxmss) seg)
  else seg.

(** The offsets of the MSS options in the [olen] bytes of options at [i]: the
    options in turn, as RFC 793 lays them out, up to the first that does not fit. *)
Fixpoint mss_options (fuel : nat) (seg : list byte) (i olen : Z) : list Z :=
  match fuel with
  | O => []
  | S fuel =>
      if olen <=? 0 then []
      else
        let k := byte_at seg i in
        if k =? OPENVPN_TCPOPT_EOL then []
        else if k =? OPENVPN_TCPOPT_NOP then mss_options fuel seg (i + 1) (olen - 1)
        else
          let optlen := byte_at seg (i + 1) in
          if (optlen <=? 0) || (optlen >? olen) then []
          else (if (k =? OPENVPN_TCPOPT_MAXSEG) && (optlen =? OPENVPN_TCPOLEN_MAXSEG) then [i] else [])
               ++ mss_options fuel seg (i + optlen) (olen - optlen)
  end.

Lemma Zlen_lowered maxmss seg i :
  0 <= i -> i + 4 <= Zlen seg -> 20 <= Zlen seg -> Zlen (lowered maxmss seg i) = Zlen seg.
Proof.
  intros. unfold lowered, tcp_check. destruct (_ >? _); [|done].
  assert (Zlen (splice (i + 2) (be_enc 2 maxmss) seg) = Zlen seg) as E
    by (apply Zlen_splice; rewrite ?Zlen_be_enc2; lia).
  rewrite Zlen_splice by (rewrite ?Zlen_raw16_bytes; lia). done.
Qed.

Lemma lowered_bytes maxmss seg i : Forall is_byte seg -> Forall is_byte (lowered maxmss seg i).
Proof.
  intros. unfold lowered. destruct (_ >? _); [|done].
  auto using Forall_splice, raw16_bytes_byte, be_enc_bytes.
Qed.

Lemma byte_at_splice_other seg i x j :
  0 <= i -> 0 <= j -> i + Zlen x <= Zlen seg -> j < i \/ i + Zlen x <= j ->
  byte_at (splice i x seg) j = byte_at seg j.
Proof.
  intros. unfold byte_at, splice, Zlen in *. f_equal. destruct (decide (j < i)).
  - rewrite lookup_app_l by (rewrite length_take; lia). apply lookup_take_lt. lia.
  - rewrite lookup_app_r by (rewrite length_take; lia). rewrite length_take.
    rewrite lookup_app_r by lia. rewrite lookup_drop. f_equal. lia.
Qed.

Lemma byte_at_lowered maxmss seg i j :
  20 <= i -> i + 4 <= Zlen seg -> 20 <= j -> j <> i + 2 -> j <> i + 3 ->
  byte_at (lowered maxmss seg i) j = byte_at seg j.
Proof.
  intros. unfold lowered, tcp_check. destruct (_ >? _); [|done].
  assert (Zlen (splice (i + 2) (be_enc 2 maxmss) seg) = Zlen seg) as E
    by (apply Zlen_splice; rewrite ?Zlen_be_enc2; lia).
  rewrite byte_at_splice_other by (rewrite ?Zlen_raw16_bytes; lia).
  apply byte_at_splice_other; rewrite ?Zlen_be_enc2; lia.
Qed.

Lemma mss_options_ext fuel seg seg' i olen :
  (forall j, i <= j -> byte_at seg' j = byte_at seg j) ->
  mss_options fuel seg' i olen = mss_options fuel seg i olen.
Proof.
  revert i olen. induction fuel as [|fuel IH]; intros i olen H; cbn [mss_options]; [done|].
  rewrite !H by lia. destruct (olen <=? 0); [done|]. destruct (_ =? _); [done|].
  destruct (_ =? _); [apply IH; intros; apply H; lia|].
  destruct (_ || _) eqn:E; [done|]. apply orb_false_iff in E as [E1 E2]. bool_simp.
  rewrite IH; [done|]. intros. apply H. lia.
Qed.

Lemma wp_mss_lower h q b seg i maxmss :
  buf_rep h q b seg -> Forall is_byte seg -> 20 <= i -> i + 4 <= Zlen seg -> 0 <= maxmss < 65536 ->
  wp (mss_lower (ptr_add q (b_offset b)) (ptr_add q (b_offset b + i)) maxmss)
     (fun _ h' => buf_rep h' q b (lowered maxmss seg i) /\
        modifies h h' (ptr_add q (b_offset b)) (b_len b)) h.
Proof.
  intros H Hb Hi Hl Hm. unfold mss_lower. rewrite !ptr_add_add, <- Z.add_assoc. wp_steps.
  eapply wp_load_u16; [exact H|lia..|]. wp_steps. unfold lowered.
  rewrite slice_2, ntohs_raw16 by (auto using byte_at_is_byte; lia).
  change (256 * byte_at seg (i + 2) + byte_at seg (i + 2 + 1)) with (be16 seg (i + 2)).
  destruct (be16 seg (i + 2) >? maxmss); [|wp_steps; by eauto using modifies_refl]. wp_steps.
  unfold store_u16. rewrite raw16_bytes_htons by done.
  assert (Zlen (splice (i + 2) (be_enc 2 maxmss) seg) = Zlen seg) as E
    by (apply Zlen_splice; rewrite ?Zlen_be_enc2; lia).
  eapply wp_store_in; [exact H|lia|rewrite Zlen_be_enc2; lia|]. intros h1 H1 Hm1. wp_steps.
  eapply wp_load_u16; [exact H1|lia..|]. wp_steps.
  eapply wp_load_u16; [exact H1|unfold tcp_check; lia..|]. wp_steps.
  pose proof (slice_splice_same (i + 2) (be_enc 2 maxmss) seg) as Hs. rewrite Zlen_be_enc2 in Hs.
  rewrite Hs by lia. rewrite slice_splice_before by (rewrite ?Zlen_be_enc2; unfold tcp_check; lia).
  rewrite <- raw16_bytes_htons, raw16_bytes_raw16 by auto using htons_range.
  rewrite raw16_bytes_htons by done.
  eapply wp_store_in; [exact H1|unfold tcp_check; lia|rewrite Zlen_raw16_bytes, E; unfold tcp_check; lia|].
  intros h2 H2 Hm2. split; [unfold new_check; by rewrite slice_2 by lia|]. rewrite ?Zlen_be_enc2, ?Zlen_raw16_bytes in *.
  rep_facts H. eapply modifies_trans; (eapply modifies_widen; [eassumption|done|cbn; unfold tcp_check; lia..]).
Qed.

Lemma wp_load_u8_next h q b bs i :
  buf_rep h q b bs -> 0 <= i <= Zlen bs -> b_offset b + b_len b < b_capacity b ->
  wp (load_u8 (ptr_add q (b_offset b + i))) (fun x h' => h' = h /\ (i < Zlen bs -> x = byte_at bs i)) h.
Proof.
  intros H Hi Hc. rep_facts H. destruct (decide (i < Zlen bs)).
  - eapply wp_load_u8; [exact H|lia|]. done.
  - destruct (buf_rep_valid h q b bs (b_offset b + i) 1 H) as [x Hx]; [lia..|].
    unfold load_u8. wp_steps. eapply wp_load; [exact Hx|]. wp_steps. split; [done|lia].
Qed.

(** The loop carries out [lowered] for each MSS option in turn.  It may look one byte
    past the contents of the buffer. *)
Lemma wp_mss_loop fuel h q b seg i olen maxmss :
  buf_rep h q b seg -> Forall is_byte seg -> b_offset b + b_len b < b_capacity b ->
  20 <= i -> 0 <= olen -> i + olen <= Zlen seg -> olen <= Z.of_nat fuel -> 0 <= maxmss < 65536 ->
  wp (mss_loop fuel (ptr_add q (b_offset b)) (ptr_add q (b_offset b + i)) olen maxmss)
     (fun _ h' => buf_rep h' q b (fold_left (lowered maxmss) (mss_options fuel seg i olen) seg) /\
        modifies h h' (ptr_add q (b_offset b)) (b_len b)) h.
Proof.
  revert h seg i olen. induction fuel as [|fuel IH]; intros h seg i olen H Hb Hcap Hi Ho Hl Hf Hm; cbn [mss_loop mss_options].
  { replace (olen >? 0) with false by blia. wp_steps. by eauto using modifies_refl. }
  replace (olen <=? 0) with (negb (olen >? 0)) by (rewrite Z.gtb_ltb, Z.leb_antisym; done).
  destruct (olen >? 0) eqn:Eo; bool_simp; cbn [negb]; [|wp_steps; by eauto using modifies_refl]. wp_steps.
  eapply wp_load_u8; [exact H|lia|].
  destruct (byte_at seg i =? OPENVPN_TCPOPT_EOL); [wp_steps; by eauto using modifies_refl|].
  destruct (byte_at seg i =? OPENVPN_TCPOPT_NOP).
  { rewrite ptr_add_add, <- Z.add_assoc. apply IH; auto; lia. }
  wp_steps. rewrite ptr_add_add, <- Z.add_assoc.
  eapply wp_mono; [apply (wp_load_u8_next h q b seg (i + 1)); [done|lia|done]|]. intros x h' [-> Hx].
  destruct (decide (i + 1 < Zlen seg)) as [Hlt|Hge].
  - rewrite Hx by done. set (l := byte_at seg (i + 1)).
    destruct ((l <=? 0) || (l >? olen)) eqn:El; [wp_steps; by eauto using modifies_refl|]. apply orb_false_iff in El as [El1 El2]. bool_simp.
    rewrite negb_involutive, fold_left_app, ptr_add_add, <- Z.add_assoc. wp_steps.
    destruct ((byte_at seg i =? OPENVPN_TCPOPT_MAXSEG) && (l =? OPENVPN_TCPOLEN_MAXSEG)) eqn:Em.
    2:{ cbn [fold_left]. wp_steps. apply IH; auto; lia. }
    apply andb_true_iff in Em as [_ Em]. apply Z.eqb_eq in Em. unfold OPENVPN_TCPOLEN_MAXSEG in Em.
    eapply wp_mono; [apply (wp_mss_lower h q b seg i maxmss); auto; lia|]. intros [] h1 [H1 Hm1]. cbn [fold_left].
    rewrite <- (mss_options_ext fuel seg (lowered maxmss seg i)) by (intros; apply byte_at_lowered; lia).
    eapply wp_mono; [apply (IH h1 (lowered maxmss seg i)); auto using lowered_bytes; rewrite ?Zlen_lowered by lia; lia|].
    intros [] h2 [H2 Hm2]. split; [done|]. by eapply modifies_trans.
  - assert (olen = 1) as -> by lia.
    assert (byte_at seg (i + 1) = 0) as ->.
    { unfold byte_at. by rewrite lookup_ge_None_2 by (unfold Zlen in *; lia). }
    cbn. destruct ((x <=? 0) || (x >? 1)) eqn:Ex; [wp_steps; by eauto using modifies_refl|]. apply orb_false_iff in Ex as [Ex1 Ex2]. bool_simp.
    assert (x = 1) as -> by lia. rewrite andb_false_r. wp_steps. destruct fuel; cbn; wp_steps; by eauto using modifies_refl.
Qed.

(** ** The internet checksum (RFC 1071) *)

(** The sum of the 16-bit big-endian words of [l]; [hi] says that [l] starts with the
    high byte of a word.  A segment (with its pseudo header) is valid when this is 0
    modulo 65535. *)
Fixpoint word_sum (hi : bool) (l : list byte) : Z :=
  match l with
  | [] => 0
  | b :: l => (if hi then 256 * b else b) + word_sum (negb hi) l
  end.

Definition cong (a b : Z) : Prop := exists k, a = b + 65535 * k.

Lemma cong_mod a b : cong a b -> a mod 65535 = b mod 65535.
Proof. intros [k ->]. rewrite Z.mul_comm. by rewrite Z.mod_add. Qed.
Lemma cong_trans a b c d : cong a (b + c) -> cong b d -> cong a (d + c).
Proof. intros [k ->] [m ->]. exists (m + k). lia. Qed.

Lemma word_sum_app hi a b : word_sum hi (a ++ b) = word_sum hi a + word_sum (xorb hi (Z.odd (Zlen a))) b.
Proof.
  revert hi. induction a as [|x a IH]; intros hi; cbn [word_sum app].
  { change (Z.odd (Zlen [])) with false. by rewrite xorb_false_r. }
  rewrite IH, Zlen_cons, Z.odd_add. change (Z.odd 1) with true.
  replace (xorb (negb hi) (Z.odd (Zlen a))) with (xorb hi (xorb true (Z.odd (Zlen a))))
    by (by destruct hi, (Z.odd (Zlen a))). lia.
Qed.

Lemma word_sum_splice i x l : 0 <= i -> i + Zlen x <= Zlen l ->
  word_sum true (splice i x l) =
    word_sum true l + word_sum (negb (Z.odd i)) x - word_sum (negb (Z.odd i)) (slice i (Zlen x) l).
Proof.
  intros Hi Hx. assert (Zlen (take (Z.to_nat i) l) = i) as Ht.
  { pose proof (Zlen_nonneg x). unfold Zlen in *. rewrite length_take. lia. }
  assert (l = take (Z.to_nat i) l ++ slice i (Zlen x) l ++ drop (Z.to_nat i + length x) l) as Hl.
  { unfold slice. replace (Z.to_nat (Zlen x)) with (length x) by (unfold Zlen; lia).
    rewrite <- drop_drop. by rewrite !take_drop. }
  rewrite Hl at 2. unfold splice. rewrite !word_sum_app, Ht, Zlen_slice by (pose proof (Zlen_nonneg x); lia).
  replace (xorb true (Z.odd i)) with (negb (Z.odd i)) by (by destruct (Z.odd i)). lia.
Qed.

Lemma ADJUST_CHECKSUM_spec acc cksum : -65535 <= acc <= 65535 -> 0 <= cksum < 65536 ->
  cong (ADJUST_CHECKSUM acc cksum) (acc + cksum) /\ 0 <= ADJUST_CHECKSUM acc cksum < 65536.
Proof.
  intros Ha Hc. unfold ADJUST_CHECKSUM. rewrite (i32_id (acc + cksum)) by (unfold is_i32; lia).
  set (t := acc + cksum).
  assert (forall y, Z.land y 65535 = y mod 65536) as Hland by (intros; by apply (Z.land_ones _ 16)).
  rewrite !Hland.
  split; [|case_match; apply u16_range]. unfold u16, Z.lnot.
  destruct (t <? 0) eqn:E; bool_simp; rewrite ?(i32_id (- t)) by (unfold is_i32; lia).
  - rewrite !Z.shiftr_div_pow2 by lia. change (2 ^ 16) with 65536.
    rewrite (Z.div_small (- t)), (Z.mod_small (- t)) by lia. rewrite (i32_id (0 + - t)) by (unfold is_i32; lia).
    rewrite (Z.div_small (0 + - t)) by lia. rewrite (i32_id (0 + - t + 0)) by (unfold is_i32; lia).
    exists 1. Z.to_euclidean_division_equations; lia.
  - rewrite !Z.shiftr_div_pow2 by lia. change (2 ^ 16) with 65536.
    assert (0 <= t / 65536 + t mod 65536 < 65536) by (Z.to_euclidean_division_equations; lia).
    rewrite (i32_id (t / 65536 + t mod 65536)) by (unfold is_i32; lia).
    rewrite (Z.div_small (t / 65536 + t mod 65536)) by lia. rewrite Z.add_0_r, i32_id by (unfold is_i32; lia).
    exists (- (t / 65536)). Z.to_euclidean_division_equations; lia.
Qed.

(** A word as the host reads it and as the network means it, modulo 65535. *)
Definition host_factor : Z := if little then 256 else 1.

Lemma word_of_raw16 a b : is_byte a -> is_byte b -> cong (256 * a + b) (host_factor * raw16 [a; b]).
Proof. intros. unfold host_factor, raw16. destruct little; [exists (- b); lia | exists 0; lia]. Qed.

Lemma word_of_raw16_bytes x : 0 <= x < 65536 -> cong (word_sum true (raw16_bytes x)) (host_factor * x).
Proof.
  intros Hx. rewrite <- (raw16_bytes_raw16 x Hx) at 2. pose proof (raw16_bytes_byte x) as Hb.
  assert (exists a b, raw16_bytes x = [a; b]) as (a & b & E) by (unfold raw16_bytes; destruct little; eauto).
  rewrite E in *. apply Forall_cons_1 in Hb as [Ha [Hb _]%Forall_cons_1].
  cbn. rewrite Z.add_0_r. by apply word_of_raw16.
Qed.

Lemma word_sum_be_enc hi m : 0 <= m < 65536 ->
  word_sum hi (be_enc 2 m) = if hi then m else m / 256 + 256 * (m mod 256).
Proof.
  intros. change (be_enc 2 m) with [u8 (Z.shiftr m 8); u8 (Z.shiftr m 0)]. cbn.
  rewrite Z.shiftr_0_r, Z.shiftr_div_pow2 by lia. unfold u8. change (2 ^ 8) with 256.
  destruct hi; cbn; Z.to_euclidean_division_equations; lia.
Qed.

(** The error that lowering the MSS option at [i] makes: none if it is aligned to a
    word of the segment. *)
Definition mss_error (maxmss : Z) (seg : list byte) (i : Z) : Z :=
  if Z.odd i then 255 * (Z.min (be16 seg (i + 2)) maxmss - be16 seg (i + 2)) else 0.

Lemma word_sum_lowered maxmss seg i :
  Forall is_byte seg -> 20 <= i -> i + 4 <= Zlen seg -> 0 <= maxmss < 65536 ->
  cong (word_sum true (lowered maxmss seg i)) (word_sum true seg + mss_error maxmss seg i).
Proof.
  intros Hb Hi Hl Hm. unfold lowered, mss_error.
  destruct (be16 seg (i + 2) >? maxmss) eqn:E; bool_simp.
  2:{ rewrite Z.min_l, Z.sub_diag by lia. exists 0. destruct (Z.odd i); lia. }
  rewrite Z.min_r by lia.
  assert (Zlen (splice (i + 2) (be_enc 2 maxmss) seg) = Zlen seg) as El
    by (apply Zlen_splice; rewrite ?Zlen_be_enc2; lia).
  rewrite word_sum_splice by (rewrite ?Zlen_raw16_bytes; unfold tcp_check; lia).
  rewrite Zlen_raw16_bytes, slice_splice_before by (rewrite ?Zlen_be_enc2; unfold tcp_check; lia).
  rewrite word_sum_splice by (rewrite ?Zlen_be_enc2; lia). rewrite Zlen_be_enc2, word_sum_be_enc by done.
  change (negb (Z.odd tcp_check)) with true. unfold new_check.
  rewrite !slice_2 by (unfold tcp_check; lia).
  pose proof (fun j => byte_at_is_byte seg j Hb) as Hbyte.
  set (c0 := byte_at seg tcp_check). set (c1 := byte_at seg (tcp_check + 1)).
  unfold be16 in *. set (a := byte_at seg (i + 2)) in *. set (b := byte_at seg (i + 2 + 1)) in *.
  assert (is_byte a /\ is_byte b /\ is_byte c0 /\ is_byte c1) as (Ha & Hb' & Hc0 & Hc1) by (repeat split; apply Hbyte).
  pose proof (raw16_range a b Ha Hb'). pose proof (raw16_range c0 c1 Hc0 Hc1). pose proof (htons_range maxmss Hm).
  rewrite (i32_id (_ - _)) by (unfold is_i32; lia).
  destruct (ADJUST_CHECKSUM_spec (raw16 [a; b] - htons maxmss) (raw16 [c0; c1])) as [[k1 Hk1] Hr]; [lia|lia|].
  destruct (word_of_raw16_bytes _ Hr) as [k2 ->]. rewrite Hk1.
  destruct (word_of_raw16 a b Ha Hb') as [k3 Hk3]. destruct (word_of_raw16 c0 c1 Hc0 Hc1) as [k4 Hk4].
  destruct (word_of_raw16_bytes (htons maxmss)) as [k5 Hk5]; [done|].
  rewrite raw16_bytes_htons, word_sum_be_enc in Hk5 by done.
  rewrite Z.odd_add. change (Z.odd 2) with false. rewrite xorb_false_r. cbn [negb word_sum].
  set (F := host_factor) in *. set (X := raw16 [a; b]) in *. set (Y := htons maxmss) in *. set (C := raw16 [c0; c1]) in *.
  destruct (Z.odd i); cbn [negb].
  - exists (F * k1 + k2 - k3 + k5 - k4 - maxmss / 256 + a).
    assert (maxmss = 256 * (maxmss / 256) + maxmss mod 256) by (apply Z.div_mod; lia). 
    set (u := maxmss / 256) in *. set (v := maxmss mod 256) in *. lia.
  - exists (F * k1 + k2 + k5 - k3 - k4). lia.
Qed.

(** ** The effect on the whole segment *)

Definition mss_errors (maxmss : Z) (seg : list byte) (offs : list Z) : Z :=
  foldr (fun i acc => mss_error maxmss seg i + acc) 0 offs.

(** [seg'] is [seg] with the MSS options at [offs] lowered to [maxmss]. *)
Record clamped (maxmss : Z) (seg : list byte) (offs : list Z) (seg' : list byte) : Prop := {
  cl_length : Zlen seg' = Zlen seg;
  cl_mss : forall i, i ∈ offs -> be16 seg' (i + 2) = Z.min (be16 seg (i + 2)) maxmss;
  cl_rest : forall j, 0 <= j -> j <> tcp_check -> j <> tcp_check + 1 ->
    (forall i, i ∈ offs -> j <> i + 2 /\ j <> i + 3) -> byte_at seg' j = byte_at seg j;
  cl_same : (forall i, i ∈ offs -> be16 seg (i + 2) <= maxmss) -> seg' = seg;
  cl_sum : cong (word_sum true seg') (word_sum true seg + mss_errors maxmss seg offs)
}.

Lemma mss_options_spaced fuel seg i olen :
  StronglySorted (fun a b => a + 4 <= b) (mss_options fuel seg i olen) /\
  Forall (fun a => i <= a /\ a + 4 <= i + olen) (mss_options fuel seg i olen).
Proof.
  revert i olen. induction fuel as [|fuel IH]; intros i olen; cbn [mss_options]; [split; constructor|].
  destruct (olen <=? 0) eqn:Eo; [split; constructor|]. destruct (_ =? _); [split; constructor|]. bool_simp.
  destruct (_ =? _).
  { destruct (IH (i + 1) (olen - 1)) as [IH1 IH2]. split; [done|]. eapply Forall_impl; [|exact IH2]. cbn. lia. }
  set (l := byte_at seg (i + 1)). destruct ((l <=? 0) || (l >? olen)) eqn:El; [split; constructor|].
  apply orb_false_iff in El as [El1 El2]. bool_simp. destruct (IH (i + l) (olen - l)) as [IH1 IH2].
  assert (Forall (fun a => i <= a /\ a + 4 <= i + olen) (mss_options fuel seg (i + l) (olen - l))) as IH3
    by (eapply Forall_impl; [|exact IH2]; cbn; lia).
  destruct (_ && _) eqn:Em; [|by split]. apply andb_true_iff in Em as [_ Em]. apply Z.eqb_eq in Em.
  unfold OPENVPN_TCPOLEN_MAXSEG in Em. cbn [app]. split.
  - constructor; [done|]. eapply Forall_impl; [|exact IH2]. cbn. lia.
  - constructor; [lia | done].
Qed.

Lemma be16_lowered_same maxmss seg i :
  20 <= i -> i + 4 <= Zlen seg -> 0 <= maxmss < 65536 ->
  be16 (lowered maxmss seg i) (i + 2) = Z.min (be16 seg (i + 2)) maxmss.
Proof.
  intros Hi Hl Hm. unfold lowered. destruct (_ >? _) eqn:E; bool_simp; [|lia]. rewrite Z.min_r by lia.
  assert (Zlen (splice (i + 2) (be_enc 2 maxmss) seg) = Zlen seg) as El
    by (apply Zlen_splice; rewrite ?Zlen_be_enc2; lia).
  pose proof (slice_splice_same (i + 2) (be_enc 2 maxmss) seg) as Hs. rewrite Zlen_be_enc2, slice_2 in Hs by lia.
  specialize (Hs ltac:(lia) ltac:(lia)). unfold be16.
  rewrite !(byte_at_splice_other _ tcp_check) by (rewrite ?Zlen_raw16_bytes; unfold tcp_check; lia).
  change (be_enc 2 maxmss) with [u8 (Z.shiftr maxmss 8); u8 (Z.shiftr maxmss 0)] in *. injection Hs as -> ->.
  rewrite Z.shiftr_0_r, Z.shiftr_div_pow2 by lia. unfold u8. change (2 ^ 8) with 256.
  Z.to_euclidean_division_equations; lia.
Qed.

Lemma byte_at_lowered_low maxmss seg i j :
  20 <= i -> i + 4 <= Zlen seg -> 0 <= j -> j <> i + 2 -> j <> i + 3 -> j <> tcp_check -> j <> tcp_check + 1 ->
  byte_at (lowered maxmss seg i) j = byte_at seg j.
Proof.
  unfold tcp_check. intros. destruct (decide (20 <= j)); [by apply byte_at_lowered|].
  unfold lowered, tcp_check. destruct (_ >? _); [|done].
  assert (Zlen (splice (i + 2) (be_enc 2 maxmss) seg) = Zlen seg) as E
    by (apply Zlen_splice; rewrite ?Zlen_be_enc2; lia).
  rewrite byte_at_splice_other by (rewrite ?Zlen_raw16_bytes; lia).
  apply byte_at_splice_other; rewrite ?Zlen_be_enc2; lia.
Qed.

Lemma fold_lowered_clamped maxmss offs seg :
  0 <= maxmss < 65536 -> Forall is_byte seg -> 20 <= Zlen seg ->
  StronglySorted (fun a b => a + 4 <= b) offs -> Forall (fun a => 20 <= a /\ a + 4 <= Zlen seg) offs ->
  clamped maxmss seg offs (fold_left (lowered maxmss) offs seg).
Proof.
  intros Hm. revert seg. induction offs as [|i offs IH]; intros seg Hb H20 Hs Hf; cbn [fold_left].
  { split; try done; [set_solver|]. exists 0. unfold mss_errors. cbn. lia. }
  apply StronglySorted_inv in Hs as [Hs Hi]. apply Forall_cons_1 in Hf as [[Hi1 Hi2] Hf].
  rewrite list.Forall_forall in Hi, Hf.
  assert (Zlen (lowered maxmss seg i) = Zlen seg) as Hlen by (apply Zlen_lowered; lia).
  destruct (IH (lowered maxmss seg i)) as [C1 C2 C3 C4 C5]; auto using lowered_bytes; try lia.
  { rewrite list.Forall_forall, Hlen. done. }
  assert (forall a, a ∈ offs -> be16 (lowered maxmss seg i) (a + 2) = be16 seg (a + 2)) as Hbe.
  { intros a Ha. specialize (Hi a Ha). unfold be16. by rewrite !byte_at_lowered by (pose proof (Hf a Ha); lia). }
  assert (i ∉ offs) as Hnin by (intros Ha; specialize (Hi i Ha); lia).
  split.
  - congruence.
  - intros a [->|Ha]%elem_of_cons; [|by rewrite C2, Hbe].
    rewrite <- be16_lowered_same by done. unfold be16.
    rewrite !C3; try done; unfold tcp_check; try lia; intros b Hb'; specialize (Hi b Hb'); lia.
  - intros j Hj0 Hj1 Hj2 Hj. rewrite C3; auto using list_elem_of_further.
    destruct (Hj i); [by left|]. by apply byte_at_lowered_low.
  - intros Hle. rewrite C4; [|intros a Ha; rewrite Hbe by done; apply Hle; by right].
    unfold lowered. replace (be16 seg (i + 2) >? maxmss) with false; [done|].
    symmetry. rewrite Z.gtb_ltb. apply Z.ltb_ge. apply Hle. by left.
  - pose proof (cong_trans _ _ _ _ C5 (word_sum_lowered maxmss seg i Hb Hi1 Hi2 Hm)) as C6.
    replace (mss_errors maxmss (lowered maxmss seg i) offs) with (mss_errors maxmss seg offs) in C6.
    { unfold mss_errors in C6 |- *. cbn [foldr]. rewrite Z.add_assoc. exact C6. }
    clear -Hbe. unfold mss_errors. induction offs as [|a offs IH]; [done|]. cbn [foldr].
    rewrite IH by (intros; apply Hbe; by right). unfold mss_error at 1 3. by rewrite Hbe by (by left).
Qed.

Definition tcp_hlen (seg : list byte) : Z := OPENVPN_TCPH_GET_DOFF (byte_at seg tcp_doff_res).

(** The MSS options of a segment. *)
Definition seg_options (seg : list byte) : list Z :=
  let hlen := tcp_hlen seg in
  if (hlen <=? sizeof_tcphdr) || (hlen >? Zlen seg) then []
  else mss_options (Z.to_nat (hlen - sizeof_tcphdr)) seg sizeof_tcphdr (hlen - sizeof_tcphdr).

Lemma clamped_refl maxmss seg : clamped maxmss seg [] seg.
Proof. split; try done; [set_solver|]. exists 0. unfold mss_errors. cbn. lia. Qed.

Lemma wp_mss_fixup_dowork h q b seg maxmss :
  buf_rep h q b seg -> Forall is_byte seg -> b_offset b + b_len b < b_capacity b ->
  20 <= Zlen seg -> 0 <= maxmss < 65536 ->
  wp (mss_fixup_dowork b maxmss)
     (fun _ h' => exists seg', buf_rep h' q b seg' /\ modifies h h' (ptr_add q (b_offset b)) (b_len b) /\
        clamped maxmss seg (seg_options seg) seg') h.
Proof.
  intros H Hb Hc H20 Hm. rep_facts H. unfold mss_fixup_dowork, seg_options, BLEN.
  wp_steps. apply wp_ASSERT; [unfold sizeof_tcphdr; blia|]. rewrite (BPTR_rep _ _ _ _ H). wp_steps.
  rewrite ptr_add_add. eapply wp_load_u8; [exact H|unfold tcp_doff_res; lia|]. fold (tcp_hlen seg).
  rewrite <- HL. destruct (_ || _) eqn:E.
  { wp_steps. exists seg. eauto using modifies_refl, clamped_refl. }
  apply orb_false_iff in E as [E1 E2]. bool_simp. unfold sizeof_tcphdr in *.
  rewrite ptr_add_add. eapply wp_mono; [apply (wp_mss_loop _ h q b seg 20); auto; lia|].
  intros [] h' [H' Hm']. eexists. split; [exact H'|]. split; [by rewrite HL|].
  destruct (mss_options_spaced (Z.to_nat (tcp_hlen seg - 20)) seg 20 (tcp_hlen seg - 20)) as [Hs Hf].
  apply fold_lowered_clamped; auto. eapply Forall_impl; [|exact Hf]. cbn. lia.
Qed.

Definition ip_hlen (bs : list byte) : Z := OPENVPN_IPH_GET_LEN (byte_at bs 0).

(** An IPv4 packet with the first fragment of an unsplit TCP SYN segment. *)
Definition is_tcp_syn (bs : list byte) : bool :=
  (sizeof_iphdr <=? Zlen bs) && (byte_at bs ip_protocol =? OPENVPN_IPPROTO_TCP)
  && (be16 bs ip_tot_len =? Zlen bs) && (Z.land (be16 bs ip_frag_off) OPENVPN_IP_OFFMASK =? 0)
  && (ip_hlen bs + sizeof_tcphdr <=? Zlen bs)
  && flag (byte_at (drop (Z.to_nat (ip_hlen bs)) bs) tcp_flags) OPENVPN_TCPH_SYN_MASK.

Lemma ip_hlen_range bs : 0 <= ip_hlen bs <= 60.
Proof.
  unfold ip_hlen, OPENVPN_IPH_GET_LEN. change 15 with (Z.ones 4). rewrite Z.land_ones, Z.shiftl_mul_pow2 by lia.
  change (2 ^ 4) with 16. change (2 ^ 2) with 4. Z.to_euclidean_division_equations; lia.
Qed.

(** C37: mss_fixup changes a packet only if it is an unfragmented IPv4 TCP SYN whose
    headers fit, and then only the TCP part: every MSS option among its options
    ends up with the smaller of its value and maxmss, no byte but the values of
    these options and the TCP checksum changes, and nothing at all when no option
    exceeds maxmss.  The checksum is adjusted exactly, whatever the byte order of
    the host, as long as the options lowered are aligned to a word: the word sum
    of the segment is off by 255 times the change of each option that stands at
    an odd offset, and by nothing else.  No access is outside the buffer's memory,
    given one byte of capacity behind the packet. *)
Theorem mss_fixup_clamps h q buf bs maxmss :
  buf_rep h q buf bs -> Forall is_byte bs -> b_offset buf + b_len buf < b_capacity buf ->
  wp (mss_fixup buf maxmss) (fun _ h' => exists bs', buf_rep h' q buf bs' /\
        if is_tcp_syn bs then
          let n := Z.to_nat (ip_hlen bs) in
          take n bs' = take n bs /\
          clamped (u16 maxmss) (drop n bs) (seg_options (drop n bs)) (drop n bs')
        else bs' = bs) h.
Proof.
  intros H Hb Hc. rep_facts H. unfold mss_fixup, is_tcp_syn, BLEN. rewrite <- HL.
  pose proof (ip_hlen_range bs) as Hih.
  destruct (Zlen bs <? sizeof_iphdr) eqn:E0; bool_simp.
  { rewrite (proj2 (Z.leb_gt sizeof_iphdr (Zlen bs))) by done. cbn [andb]. wp_steps. eauto. }
  rewrite (proj2 (Z.leb_le sizeof_iphdr (Zlen bs))) by done. cbn [andb]. unfold sizeof_iphdr in *.
  rewrite (BPTR_rep _ _ _ _ H). wp_steps. rewrite !ptr_add_add. rewrite <- (Z.add_0_r (b_offset buf)) at 1.
  eapply wp_load_u8; [exact H|lia|]. wp_steps. fold (ip_hlen bs).
  eapply wp_load_u8; [exact H|unfold ip_protocol; lia|]. wp_steps.
  eapply wp_load_u16; [exact H|unfold ip_tot_len; lia..|]. wp_steps.
  eapply wp_load_u16; [exact H|unfold ip_frag_off; lia..|].
  rewrite !slice_2, !ntohs_raw16 by (auto using byte_at_is_byte; unfold ip_tot_len, ip_frag_off; lia).
  fold (be16 bs ip_tot_len) (be16 bs ip_frag_off).
  set (c := (byte_at bs ip_protocol =? OPENVPN_IPPROTO_TCP) && (be16 bs ip_tot_len =? Zlen bs)
            && (Z.land (be16 bs ip_frag_off) OPENVPN_IP_OFFMASK =? 0)).
  assert ((ip_hlen bs <=? Zlen bs) && (Zlen bs - ip_hlen bs >=? sizeof_tcphdr) = (ip_hlen bs + sizeof_tcphdr <=? Zlen bs)) as Hs.
  { unfold sizeof_tcphdr. apply Bool.eq_iff_eq_true. rewrite andb_true_iff, Z.geb_leb, !Z.leb_le. lia. }
  rewrite <- (andb_assoc c), Hs.
  destruct (c && (ip_hlen bs + sizeof_tcphdr <=? Zlen bs)) eqn:Ec; cbn [andb]; [|wp_steps; eauto].
  apply andb_true_iff in Ec as [_ Ec]. apply Z.leb_le in Ec. unfold sizeof_tcphdr in *.
  destruct (buf_advance_n h q buf bs (ip_hlen bs) H) as [-> Hadv]; [lia|]. wp_steps.
  rewrite (BPTR_rep _ _ _ _ Hadv). wp_steps. rewrite ptr_add_add.
  set (n := Z.to_nat (ip_hlen bs)) in *. set (seg := drop n bs) in *.
  assert (Zlen seg = Zlen bs - ip_hlen bs) as Hseg by (unfold Zlen, seg, n in *; rewrite length_drop; lia).
  eapply wp_load_u8; [exact Hadv|unfold tcp_flags; lia|].
  destruct (flag (byte_at seg tcp_flags) OPENVPN_TCPH_SYN_MASK); [|wp_steps; eauto].
  eapply wp_mono.
  { apply (wp_mss_fixup_dowork h q _ seg (u16 maxmss)); auto using u16_range; [by apply Forall_drop | cbn; lia | lia]. }
  intros [] h' (seg' & H' & Hm' & Hcl). exists (take n bs ++ seg'). split.
  { eapply buf_rep_unadvance; eauto. lia. }
  assert (length (take n bs) = n) as Hn by (rewrite length_take; unfold Zlen, n in *; lia).
  rewrite take_app_length', drop_app_length' by done. done.
Qed.
End Host.

(** ** Examples *)

(** A SYN with the MSS option 1460 first, so at an even offset. *)
Definition ex_syn : list byte :=
  [69; 0; 0; 44; 0; 0; 0; 0; 64; 6; 0; 0; 10; 0; 0; 1; 10; 0; 0; 2; 4; 210; 0; 80; 0; 0; 0; 1; 0; 0; 0; 0; 96; 2; 255; 255; 147; 34; 0; 0; 2; 4; 5; 180].
Definition ex_heap : heap := {[1%positive := replicate 10 0 ++ ex_syn ++ replicate 10 0]}.
Definition ex_buf : buffer := Buf 64 10 44 (Some (Ptr 1 0)).

Lemma mss_fixup_clamps_witness :
  seg_options (drop 20 ex_syn) = [20] /\
  wp (mss_fixup true ex_buf 1300) (fun _ h' => exists bs', buf_rep h' (Ptr 1 0) ex_buf bs' /\
        take 20 bs' = take 20 ex_syn /\ clamped 1300 (drop 20 ex_syn) [20] (drop 20 bs')) ex_heap.
Proof.
  split; [reflexivity|]. apply (mss_fixup_clamps true ex_heap (Ptr 1 0) ex_buf ex_syn 1300).
  - split; try reflexivity; unfold BUF_MAX, ex_buf; cbn [b_capacity b_offset b_len b_data]; try lia. eexists; reflexivity.
  - repeat constructor; lia.
  - cbn. lia.
Defined.

(** The same option after a NOP: the checksum, right before, is wrong afterwards. *)
Definition ex_odd : list byte :=
  [4; 210; 0; 80; 0; 0; 0; 1; 0; 0; 0; 0; 112; 2; 255; 255; 209; 210; 0; 0; 1; 2; 4; 5; 180; 0; 0; 0].

Lemma odd_mss_breaks_checksum :
  seg_options ex_odd = [21] /\ word_sum true ex_odd mod 65535 = 0 /\
  word_sum true (fold_left (lowered true 1300) [21] ex_odd) mod 65535 <> 0.
Proof. vm_compute. split; [reflexivity|]. by split. Qed.
