(* ===== verification/ControlAuth.v ===== *)
(** Authentication of TLS control channel packets, --tls-auth (src/ssl.c): swap_hmac,
    write_control_auth, read_control_auth.

    The HMAC record of openvpn_encrypt is at the front of a packet; on the wire the
    opcode and the session id come first. *)

From S2P Require Import Prelude Buffer Integer PacketId Mtu Crypto Reliable.

Definition P_KEY_ID_MASK : Z := 7.
Definition P_OPCODE_SHIFT : Z := 3.
Definition SWAP_BUF_SIZE : Z := 256.

(** struct sockaddr_in *)
Record sockaddr_in := Addr { s_addr : Z; sin_port : Z }.
#[export] Instance sockaddr_in_eq_dec : EqDecision sockaddr_in.
Proof. solve_decision. Defined.

Definition addr_defined (addr : sockaddr_in) : bool := negb (s_addr addr =? 0).
Definition addr_port_match (a1 a2 : sockaddr_in) : bool :=
  (s_addr a1 =? s_addr a2) && (sin_port a1 =? sin_port a2).

Definition swap_hmac (buf : buffer) (co : crypto_options) (incoming : bool) : M bool :=
  bi ← lift (from_opt (o_key_ctx_bi co));
  let ctx := if incoming then k_decrypt bi else k_encrypt bi in
  hmac ← lift (assert_some (k_hmac ctx));
  let hmac_size := HMAC_size hmac + packet_id_size true in
  let osid_size := 1 + SID_SIZE in
  let e1 := if incoming then osid_size else hmac_size in
  let e2 := if incoming then hmac_size else osid_size in
  _ ← ASSERT ((e1 <=? SWAP_BUF_SIZE) && (e2 <=? SWAP_BUF_SIZE));
  if b_len buf >=? e1 + e2 then
    b ← deref (BPTR buf);
    buf1 ← load b e1;
    buf2 ← load (ptr_add b e1) e2;
    _ ← store b buf2;
    _ ← store (ptr_add b e2) buf1;
    mret true
  else mret false.

(** openvpn_encrypt and openvpn_decrypt get a NULL frame here; they look at it only
    when there is a cipher, which tls-auth keys do not have. *)
Definition null_frame : frame := Frame 0 0 0 0 0 0 0 0.

(** [key_id], [remote_sid] and [remote_addr] are those of the key state, whose list of
    packet ids to acknowledge is [rec_ack]; [session_id] and [tls_auth] belong to the
    session.  The new buffer, rec_ack and tls_auth, and *to_link_addr. *)
Definition write_control_auth (SHA1 : list byte -> list byte) (now : Z) (fill : Z -> Z) (nonce : list byte)
    (session_id_ : session_id) (tls_auth : crypto_options)
    (key_id : Z) (remote_sid : session_id) (remote_addr : sockaddr_in) (rec_ack : reliable_ack)
    (buf : buffer) (opcode max_ack : Z) (prepend_ack : bool)
  : M (list byte * buffer * reliable_ack * crypto_options * sockaddr_in) :=
  _ ← ASSERT (addr_defined remote_addr);
  '(ok, rec_ack, buf) ← reliable_ack_write rec_ack buf remote_sid max_ack prepend_ack;
  _ ← ASSERT ok;
  '(ok, buf) ← session_id_write_prepend session_id_ buf;
  _ ← ASSERT ok;
  let '(header, buf) := buf_prepend buf 1 in
  header ← lift (assert_some header);
  _ ← store header [u8 (Z.lor key_id (Z.shiftl opcode P_OPCODE_SHIFT))];
  bi ← lift (from_opt (o_key_ctx_bi tls_auth));
  match k_hmac (k_encrypt bi) with
  | Some _ =>
      '(nonce, buf, tls_auth) ← openvpn_encrypt SHA1 now fill nonce buf clear_buf tls_auth null_frame;
      ok ← swap_hmac buf tls_auth false;
      _ ← ASSERT ok;
      mret (nonce, buf, rec_ack, tls_auth, remote_addr)
  | None => mret (nonce, buf, rec_ack, tls_auth, remote_addr)
  end.

Definition read_control_auth (now : Z) (fill : Z -> Z) (buf : buffer) (co : crypto_options)
  : M (bool * buffer * crypto_options) :=
  let advance (buf : buffer) := snd (buf_advance buf (SID_SIZE + 1)) in
  bi ← lift (from_opt (o_key_ctx_bi co));
  match k_hmac (k_decrypt bi) with
  | Some _ =>
      ok ← swap_hmac buf co true;
      if negb ok then mret (false, buf, co)
      else
        '(_, buf, co) ← openvpn_decrypt now fill buf clear_buf co null_frame;
        if b_len buf =? 0 then mret (false, buf, co) else mret (true, advance buf, co)
  | None => mret (true, advance buf, co)
  end.

(** ** Specifications *)

Definition hmac_of (co : crypto_options) (incoming : bool) : option hmac_ctx :=
  match o_key_ctx_bi co with
  | Some bi => k_hmac (if incoming then k_decrypt bi else k_encrypt bi)
  | None => None
  end.

(** A tls-auth configuration: no cipher, an HMAC key with long packet ids or none. *)
Record tls_auth_ok (now : Z) (co : crypto_options) : Prop := {
  ta_ctx : exists enc dec, o_key_ctx_bi co = Some (KeyCtxBi enc dec) /\
    k_cipher enc = None /\ k_cipher dec = None /\
    (forall x, k_hmac enc = Some x -> hmac_ok x) /\ (forall x, k_hmac dec = Some x -> hmac_ok x);
  ta_long : forall incoming, is_Some (hmac_of co incoming) -> long_form_of co = true;
  ta_pid : forall pid, o_packet_id co = Some pid -> rec_ok (pid_rec pid);
  ta_now : SEQ_EXPIRED < now
}.

(** The first [e1] bytes and the next [e2] change places. *)
Definition swapped (e1 e2 : Z) (bs : list byte) : list byte :=
  slice e1 e2 bs ++ slice 0 e1 bs ++ drop (Z.to_nat (e1 + e2)) bs.

Lemma Zlen_drop {A} n (l : list A) : 0 <= n <= Zlen l -> Zlen (drop (Z.to_nat n) l) = Zlen l - n.
Proof. unfold Zlen. intros. rewrite length_drop. lia. Qed.

Lemma Zlen_swapped e1 e2 bs : 0 <= e1 -> 0 <= e2 -> e1 + e2 <= Zlen bs -> Zlen (swapped e1 e2 bs) = Zlen bs.
Proof. intros. unfold swapped. rewrite !Zlen_app, !Zlen_slice, Zlen_drop by lia. lia. Qed.

Lemma swapped_swapped e1 e2 bs :
  0 <= e1 -> 0 <= e2 -> e1 + e2 <= Zlen bs -> swapped e2 e1 (swapped e1 e2 bs) = bs.
Proof.
  intros H1 H2 Hl. unfold swapped.
  assert (Zlen (slice e1 e2 bs) = e2) as L1 by (apply Zlen_slice; lia).
  assert (Zlen (slice 0 e1 bs) = e1) as L2 by (apply Zlen_slice; lia).
  rewrite (slice_app_r e2), L1, Z.sub_diag by lia. rewrite (slice_app_l 0 e1), (slice_app_l 0 e2) by lia.
  rewrite !slice_slice, !Z.add_0_r by lia.
  assert (length (slice e1 e2 bs) = Z.to_nat e2 /\ length (slice 0 e1 bs) = Z.to_nat e1) as [N1 N2] by (unfold Zlen in *; lia).
  rewrite drop_app_ge by lia. rewrite drop_app_ge by lia. rewrite drop_drop, N1, N2.
  replace (Z.to_nat (e1 + e2) + (Z.to_nat (e2 + e1) - Z.to_nat e2 - Z.to_nat e1))%nat with (Z.to_nat e1 + Z.to_nat e2)%nat by lia.
  unfold slice. change (Z.to_nat 0) with 0%nat. rewrite drop_0, <- drop_drop, take_drop. apply take_drop.
Qed.

Lemma splice_swapped e1 e2 bs :
  0 <= e1 -> 0 <= e2 -> e1 + e2 <= Zlen bs ->
  splice e2 (slice 0 e1 bs) (splice 0 (slice e1 e2 bs) bs) = swapped e1 e2 bs.
Proof.
  intros H1 H2 Hl. unfold splice at 2. unfold swapped.
  assert (length (slice e1 e2 bs) = Z.to_nat e2 /\ length (slice 0 e1 bs) = Z.to_nat e1) as [N1 N2]
    by (pose proof (Zlen_slice e1 e2 bs); pose proof (Zlen_slice 0 e1 bs); unfold Zlen in *; lia).
  change (take (Z.to_nat 0) bs) with (@nil Z). cbn [app]. unfold splice.
  rewrite take_app_length' by done. f_equal. f_equal.
  rewrite N1, N2, drop_app_ge by lia. rewrite drop_drop. f_equal. lia.
Qed.

Lemma wp_swap_hmac h p b bs co incoming hm :
  buf_rep h p b bs -> hmac_of co incoming = Some hm -> hmac_ok hm ->
  let e1 := if incoming then 9 else HMAC_size hm + 8 in
  let e2 := if incoming then HMAC_size hm + 8 else 9 in
  wp (swap_hmac b co incoming) (fun ok h' =>
    ok = (e1 + e2 <=? Zlen bs) /\ modifies h h' (ptr_add p (b_offset b)) (b_len b) /\
    buf_rep h' p b (if ok then swapped e1 e2 bs else bs)) h.
Proof.
  intros H Hh [Hs _] e1 e2. unfold swap_hmac, hmac_of in *. rep_facts H.
  destruct (o_key_ctx_bi co) as [bi|]; [|done]. wp_steps. eapply wp_lift; [done|]. wp_steps.
  eapply wp_lift; [by rewrite Hh|]. wp_steps.
  change (packet_id_size true) with 8. change (1 + SID_SIZE) with 9. fold e1 e2.
  assert (0 <= e1 <= 256 /\ 0 <= e2 <= 256) as [He1 He2] by (unfold e1, e2; destruct incoming; lia).
  apply wp_ASSERT; [unfold SWAP_BUF_SIZE; apply andb_true_iff; split; apply Z.leb_le; lia|].
  rewrite <- HL, Z.geb_leb. destruct (e1 + e2 <=? Zlen bs) eqn:E; bool_simp.
  2:{ wp_steps. rewrite HL. auto using modifies_refl. }
  rewrite (BPTR_rep _ _ _ _ H). wp_steps. rewrite !ptr_add_add.
  assert (ptr_add p (b_offset b) = ptr_add p (b_offset b + 0)) as HP by (f_equal; lia).
  eapply wp_load; [rewrite HP; eapply buf_rep_load; [exact H|lia..]|]. wp_steps.
  eapply wp_load; [eapply buf_rep_load; [exact H|lia..]|]. wp_steps.
  rewrite HP. eapply wp_store_in; [exact H|lia|rewrite Zlen_slice; lia|]. intros h1 Hr1 Hm1. wp_steps. rewrite <- HP in *.
  assert (Zlen (splice 0 (slice e1 e2 bs) bs) = Zlen bs) as L1 by (apply Zlen_splice; rewrite ?Zlen_slice; lia).
  eapply wp_store_in; [exact Hr1|lia|rewrite Zlen_slice; lia|]. intros h2 Hr2 Hm2. wp_steps.
  rewrite splice_swapped in Hr2 by lia. rewrite !Zlen_slice in * by lia. split; [done|]. split; [|done].
  eapply modifies_trans; (eapply modifies_widen; [eassumption|done|cbn; lia..]).
Qed.

Lemma buf_rep_len0 h p b bs : buf_rep h p b bs -> buf_rep h p (with_len b 0) [].
Proof.
  intros H. rep_facts H. destruct (buf_rep_with_len h p b bs 0 H) as [x Hx]; [lia..|].
  pose proof (buf_rep_Zlen _ _ _ _ Hx) as Hl. destruct x; [done|].
  rewrite Zlen_cons in Hl. cbn in Hl. pose proof (Zlen_nonneg x). lia.
Qed.

(** What the replay check of openvpn_decrypt leaves of the options. *)
Lemma decrypt_replay_tls now pin co :
  tls_auth_ok now co -> (forall x, pin = Some x -> pin_valid x /\ is_Some (o_packet_id co)) ->
  exists acc co', decrypt_replay now pin co = Ok (acc, co') /\ tls_auth_ok now co' /\
    o_key_ctx_bi co' = o_key_ctx_bi co.
Proof.
  intros [Hctx Hl Hp Hn] Hpin. destruct pin as [pin|]; simpl.
  2:{ exists true, co. split; [done|]. by split. }
  destruct (Hpin pin eq_refl) as (Hv & pid & Hpid). rewrite Hpid.
  destruct (Hp pid Hpid) as (B & w & HB & Hsim).
  destruct (packet_id_receive_sim B (now, pin) _ w Hsim HB) as (ok & rec' & E & _ & Hsim' & _); [by split|].
  simpl in E. rewrite E. simpl.
  assert (forall co', o_key_ctx_bi co' = o_key_ctx_bi co -> o_flags co' = o_flags co ->
    o_packet_id co' = Some (Pid (pid_send pid) rec') -> tls_auth_ok now co') as Hok.
  { intros co' E1 E2 E3. split; [by rewrite E1| | |done].
    { intros inc. unfold hmac_of, long_form_of. rewrite E1, E2. exact (Hl inc). }
    rewrite E3. intros ? [= <-]. simpl. destruct ok; [destruct Hsim' as [_ Hsim']|]; by eexists _, _. }
  destruct ok; [destruct (o_pid_persist co); [destruct (long_form_of _)|]|];
    (eexists _, _; split; [done|]; split; [by apply Hok|done]).
Qed.

(** What read_control_auth takes a packet for: its contents behind the opcode and the
    session id, and the new replay state; None if it is rejected. *)
Definition open_control (now : Z) (co : crypto_options) (bs : list byte)
  : option (list byte * crypto_options) :=
  match hmac_of co true with
  | None => Some (drop 9 bs, co)
  | Some hm =>
      if Zlen bs <? HMAC_size hm + 17 then None
      else
        match open_hmac (Some hm) (swapped 9 (HMAC_size hm + 8) bs) with
        | None => None
        | Some rest =>
            match open_null (bool_decide (is_Some (o_packet_id co))) (long_form_of co)
                    (flag (o_flags co) CO_IGNORE_PACKET_ID) rest with
            | None => None
            | Some (pin, payload) =>
                match decrypt_replay now pin co with
                | Ok (true, co') => Some (drop 9 payload, co')
                | _ => None
                end
            end
        end
  end.

Lemma open_null_pin has_pid long_form ignore bs pin payload :
  Forall is_byte bs -> open_null has_pid long_form ignore bs = Some (Some pin, payload) ->
  pin_valid pin /\ has_pid = true.
Proof.
  intros Hb. unfold open_null. destruct has_pid; [|done].
  destruct (split_pin _ _) as [[pin' rest]|] eqn:E; [|done]. destruct ignore; [done|].
  intros [= -> _]. split; [by eapply split_pin_valid|done].
Qed.

(** openvpn_decrypt without a cipher. *)
Lemma wp_openvpn_decrypt_null now fill h p b bs co hm :
  tls_auth_ok now co -> hmac_of co true = Some hm ->
  buf_rep h p b bs -> Forall is_byte bs -> bs <> [] ->
  wp (openvpn_decrypt now fill b clear_buf co null_frame) (fun x h' =>
    let '(ok, b', co') := x in
    h' = h /\ tls_auth_ok now co' /\ o_key_ctx_bi co' = o_key_ctx_bi co /\
    exists bs', buf_rep h p b' bs' /\
      match open_hmac (Some hm) bs with
      | None => bs' = []
      | Some rest =>
          match open_null (bool_decide (is_Some (o_packet_id co))) (long_form_of co)
                  (flag (o_flags co) CO_IGNORE_PACKET_ID) rest with
          | None => bs' = []
          | Some (pin, payload) =>
              decrypt_replay now pin co = Ok (ok, co') /\ bs' = if ok then payload else []
          end
      end) h.
Proof.
  intros Hta Hhm H Hby Hne. pose proof Hta as [(enc & dec & Hbi & _ & Hdc & _ & Hdh) Hl Hp Hnow].
  unfold openvpn_decrypt, hmac_of in *. rewrite Hbi in *. cbn [k_decrypt] in *. rewrite Hdc, Hhm.
  rep_facts H. assert (0 < b_len b) as Hlen by (rewrite <- HL; destruct bs; [done|]; rewrite Zlen_cons; pose proof (Zlen_nonneg bs); lia).
  replace (b_len b >? 0) with true by blia. wp_steps.
  eapply wp_mono; [apply (wp_decrypt_hmac h p b bs (Some hm)); [exact H|intros x [= <-]; by apply Hdh]|].
  intros [ok b1] h1 [-> Hr]. cbn [fst snd] in Hr.
  destruct (open_hmac (Some hm) bs) as [rest|] eqn:Eo.
  2:{ injection Hr as -> ->. wp_steps. split_and!; auto. exists []. split; [by eapply buf_rep_len0|done]. }
  destruct Hr as [-> Hb1]. wp_steps.
  eapply wp_mono; [by apply wp_decrypt_null|]. intros [[pin b2] w2] h2 (-> & Hb2 & Hr). cbn [fst snd] in Hb2, Hr. subst b2.
  destruct (open_null _ _ _ rest) as [[pin' payload]|] eqn:En.
  - destruct Hr as [-> Hw]. wp_steps.
    destruct (decrypt_replay_tls now pin' co Hta) as (acc & co' & E & Hta' & Hk).
    { intros x ->. apply (open_null_pin _ _ _ _ _ _ (open_hmac_bytes _ _ _ Hby Eo)) in En as [Hv Hpid].
      split; [done|]. by case_bool_decide. }
    eapply wp_lift; [exact E|]. wp_steps. destruct acc; wp_steps.
    + split_and!; [done|done|congruence|]. exists payload. split; [done|]. done.
    + split_and!; [done|done|congruence|]. exists []. split; [by eapply buf_rep_len0|done].
  - subst pin. wp_steps. split_and!; auto. exists []. split; [by eapply buf_rep_len0|done].
Qed.

Lemma open_control_length now co bs rest co' :
  9 <= Zlen bs -> (forall x, hmac_of co true = Some x -> hmac_ok x) -> tls_auth_ok now co ->
  open_control now co bs = Some (rest, co') -> Zlen rest <= Zlen bs - 9.
Proof.
  intros H9 Hh Hta. unfold open_control. destruct (hmac_of co true) as [hm|].
  2:{ intros [= <- <-]. unfold Zlen in *. rewrite length_drop. lia. }
  destruct (Hh hm eq_refl) as [Hs _]. destruct (Zlen bs <? HMAC_size hm + 17) eqn:E; [done|]. bool_simp.
  destruct (open_hmac _ _) as [r|] eqn:Eo; [|done]. destruct (open_null _ _ _ r) as [[pin payload]|] eqn:En; [|done].
  destruct (decrypt_replay now pin co) as [[[] ?]| |]; [|done..]. intros [= <- <-].
  assert (Zlen r <= Zlen bs).
  { unfold open_hmac in Eo. repeat case_match; simplify_eq.
    rewrite <- (Zlen_swapped 9 (HMAC_size hm + 8) bs) by lia. unfold Zlen. rewrite length_drop. lia. }
  assert (Zlen payload <= Zlen r).
  { unfold open_null, split_pin in En. repeat case_match; simplify_eq; unfold Zlen; rewrite ?length_drop; lia. }
  unfold Zlen in *. rewrite length_drop. lia.
Qed.

(** A packet whose HMAC was checked still has its opcode and session id. *)
Lemma auth_payload_length co hm bs r pin payload :
  0 <= HMAC_size hm -> HMAC_size hm + 17 <= Zlen bs ->
  open_hmac (Some hm) (swapped 9 (HMAC_size hm + 8) bs) = Some r ->
  open_null (bool_decide (is_Some (o_packet_id co))) (long_form_of co)
    (flag (o_flags co) CO_IGNORE_PACKET_ID) r = Some (pin, payload) -> 9 <= Zlen payload.
Proof.
  intros Hs Hl Eo En. pose proof (Zlen_swapped 9 (HMAC_size hm + 8) bs ltac:(lia) ltac:(lia) ltac:(lia)) as Hsw.
  unfold open_hmac in Eo. repeat case_match; simplify_eq. rewrite <- Hsw in Hl. clear Hsw.
  unfold open_null, split_pin, packet_id_size in En.
  repeat case_match; simplify_eq; unfold Zlen in *; rewrite ?length_drop in *; lia.
Qed.

Lemma wp_read_control_auth now fill h p b bs co :
  tls_auth_ok now co -> buf_rep h p b bs -> Forall is_byte bs -> 9 <= Zlen bs ->
  wp (read_control_auth now fill b co) (fun x h' =>
    let '(ok, b', co') := x in
    modifies h h' (ptr_add p (b_offset b)) (b_len b) /\ tls_auth_ok now co' /\
    o_key_ctx_bi co' = o_key_ctx_bi co /\ (exists bs', buf_rep h' p b' bs') /\
    match open_control now co bs with
    | Some (rest, co1) => ok = true /\ co' = co1 /\ buf_rep h' p b' rest
    | None => ok = false
    end) h.
Proof.
  intros Hta H Hby H9. pose proof Hta as [(enc & dec & Hbi & _ & Hdc & _ & Hdh) Hl Hp Hnow].
  unfold read_control_auth, open_control, hmac_of. rewrite Hbi. wp_steps. eapply wp_lift; [done|]. wp_steps. cbn [k_decrypt].
  assert (forall h1 b1 bs1, buf_rep h1 p b1 bs1 -> 9 <= Zlen bs1 ->
    buf_rep h1 p (snd (buf_advance b1 (SID_SIZE + 1))) (drop 9 bs1)) as Hadv.
  { intros h1 b1 bs1 Hr Hz. change (SID_SIZE + 1) with 9. destruct (buf_advance_n h1 p b1 bs1 9 Hr) as [-> Ha]; [lia|]. exact Ha. }
  destruct (k_hmac dec) as [hm|] eqn:Ehm.
  2:{ wp_steps. split; [apply modifies_refl|]. split_and!; eauto; congruence. }
  wp_steps. eapply wp_mono.
  { apply (wp_swap_hmac h p b bs co true hm); [done|by unfold hmac_of; rewrite Hbi|by apply Hdh]. }
  intros ok h1 (-> & Hm & Hr). cbn [negb] in *.
  replace (9 + (HMAC_size hm + 8) <=? Zlen bs) with (negb (Zlen bs <? HMAC_size hm + 17)) in *
    by (rewrite <- Z.leb_antisym; f_equal; lia).
  destruct (Zlen bs <? HMAC_size hm + 17) eqn:E; cbn [negb] in *; bool_simp; wp_steps.
  { split_and!; eauto; congruence. }
  pose proof (Hdh hm eq_refl) as [Hs _].
  pose proof (Zlen_swapped 9 (HMAC_size hm + 8) bs) as Hsw.
  eapply wp_mono; [apply (wp_openvpn_decrypt_null now fill h1 p b (swapped 9 (HMAC_size hm + 8) bs) co hm)|].
  { done. } { by unfold hmac_of; rewrite Hbi. } { done. }
  { unfold swapped. rewrite !Forall_app. auto using Forall_slice, Forall_drop. }
  { intros Hn. rewrite Hn in Hsw. change (Zlen []) with 0 in Hsw. lia. }
  intros [[ok b1] co1] h2 (-> & Hta1 & Hk1 & bs1 & Hb1 & Hspec). wp_steps.
  rewrite <- (buf_rep_Zlen _ _ _ _ Hb1) in *.
  destruct (open_hmac (Some hm) _) as [r|] eqn:Eo.
  2:{ subst bs1. change (Zlen [] =? 0) with true. wp_steps. split_and!; eauto; congruence. }
  destruct (open_null _ _ _ r) as [[pin payload]|] eqn:En.
  2:{ subst bs1. change (Zlen [] =? 0) with true. wp_steps. split_and!; eauto; congruence. }
  destruct Hspec as [-> ->]. destruct ok.
  2:{ change (Zlen [] =? 0) with true. wp_steps. split_and!; eauto; congruence. }
  assert (9 <= Zlen payload) as Hpl by (eapply auth_payload_length; eauto; lia).
  replace (Zlen payload =? 0) with false by blia. wp_steps. split_and!; auto; [congruence|].
  exists (drop 9 payload). by apply Hadv.
Qed.

(** Any packet, also one that is too short: whether it is accepted. *)
Lemma wp_read_control_auth_any now fill h p b bs co :
  tls_auth_ok now co -> buf_rep h p b bs -> Forall is_byte bs ->
  wp (read_control_auth now fill b co) (fun x h' =>
    let '(ok, b', co') := x in
    keeps [blk p] h h' /\ (exists bs', buf_rep h' p b' bs') /\ ok = bool_decide (is_Some (open_control now co bs))) h.
Proof.
  intros Hta H Hby. destruct (decide (9 <= Zlen bs)) as [H9|H9].
  { eapply wp_mono; [by apply (wp_read_control_auth now fill h p b bs co)|].
    intros [[ok b'] co'] h' (Hm & _ & _ & Hb & Ho). split; [eapply modifies_keeps; [exact Hm|]; by left|].
    split; [done|]. destruct (open_control now co bs) as [[rest co1]|]; [destruct Ho as (-> & _)|subst ok].
    - by rewrite bool_decide_true by eauto.
    - by rewrite bool_decide_false by (by intros []). }
  pose proof Hta as [(enc & dec & Hbi & _ & Hdc & _ & Hdh) _ _ _].
  unfold read_control_auth, open_control, hmac_of. rewrite Hbi. wp_steps. eapply wp_lift; [done|]. wp_steps. cbn [k_decrypt].
  destruct (k_hmac dec) as [hm|] eqn:Ehm; wp_steps.
  - eapply wp_mono.
    { apply (wp_swap_hmac h p b bs co true hm); [done|by unfold hmac_of; rewrite Hbi|by apply Hdh]. }
    intros ok h1 (-> & Hm & Hr). cbn [negb] in *. pose proof (Hdh hm eq_refl) as [Hs _].
    replace (9 + (HMAC_size hm + 8) <=? Zlen bs) with false in * by lia. wp_steps.
    replace (Zlen bs <? HMAC_size hm + 17) with true by lia. rewrite bool_decide_false by (by intros []).
    split; [eapply modifies_keeps; [exact Hm|]; by left|]. eauto.
  - rewrite bool_decide_true by eauto. split; [apply keeps_refl|]. split; [|done]. rep_facts H.
    change (SID_SIZE + 1) with 9. unfold buf_advance. replace (b_len b <? 9) with true by lia. rewrite orb_true_r. eauto.
Qed.

(** ** Writing *)

(** openvpn_encrypt without a cipher. *)
Lemma wp_openvpn_encrypt_null SHA1 now fill nonce h p b bs co co' front enc dec hm :
  o_key_ctx_bi co = Some (KeyCtxBi enc dec) -> k_cipher enc = None -> k_hmac enc = Some hm -> hmac_ok hm ->
  buf_rep h p b bs -> bs <> [] -> next_pin now co front co' -> Zlen front + HMAC_size hm <= b_offset b ->
  wp (openvpn_encrypt SHA1 now fill nonce b clear_buf co null_frame) (fun x h' =>
    exists b', x = (nonce, b', co') /\ buf_rep h' p b' (HMAC hm (front ++ bs) ++ front ++ bs)) h.
Proof.
  intros Hbi Hc Hh Hok H Hne Hpin Hroom. unfold openvpn_encrypt. rewrite Hbi. cbn [k_encrypt]. rewrite Hc, Hh.
  rep_facts H. assert (0 < b_len b) by (rewrite <- HL; destruct bs; [done|]; rewrite Zlen_cons; pose proof (Zlen_nonneg bs); lia).
  replace (b_len b >? 0) with true by blia. wp_steps. destruct Hok as [Hs Hhl].
  eapply wp_mono; [eapply wp_prepend_pin; [exact H|exact Hpin|lia]|].
  intros r h1 (b1 & -> & -> & Hb1 & _). wp_steps.
  eapply wp_mono; [apply (wp_encrypt_hmac h1 p _ _ (Some hm) Hb1)|].
  { intros x [= <-]. by split. } { cbn. lia. }
  intros b2 h2 [Hb2 _]. wp_steps. eauto.
Qed.

(** The packet in front of the acknowledgements. *)
Definition control_header (key_id opcode : Z) (sid : session_id) : list byte :=
  u8 (Z.lor key_id (Z.shiftl opcode P_OPCODE_SHIFT)) :: sid.

(** The bytes on the wire. *)
Definition control_wire (hm : option hmac_ctx) (header front body : list byte) : list byte :=
  match hm with
  | None => header ++ body
  | Some hm => header ++ HMAC hm (front ++ header ++ body) ++ front ++ body
  end.

Lemma next_pin_key now co front co' : next_pin now co front co' -> o_key_ctx_bi co' = o_key_ctx_bi co.
Proof.
  unfold next_pin, alloc_pin. destruct (o_packet_id co) as [pid|]; [|by intros [_ ->]].
  intros (pin & E & _). destruct (packet_id_alloc_outgoing _ _ _) as [[]| |]; [|done..].
  by injection E as <- _.
Qed.

Lemma swapped_out (tag front header body : list byte) :
  swapped (Zlen tag + Zlen front) (Zlen header) (tag ++ front ++ header ++ body)
  = header ++ tag ++ front ++ body.
Proof.
  unfold swapped, slice. rewrite !app_assoc. rewrite <- (app_assoc (tag ++ front)).
  assert (Z.to_nat (Zlen tag + Zlen front) = length (tag ++ front)) as -> by (rewrite length_app; unfold Zlen; lia).
  rewrite drop_app_length. replace (Z.to_nat (Zlen header)) with (length header) by (unfold Zlen; lia).
  rewrite take_app_length. change (Z.to_nat 0) with 0%nat. rewrite drop_0, take_app_length.
  assert (Z.to_nat (Zlen tag + Zlen front + Zlen header) = length ((tag ++ front) ++ header)) as ->
    by (rewrite !length_app; unfold Zlen; lia).
  rewrite (app_assoc (tag ++ front)), drop_app_length. by rewrite <- !app_assoc.
Qed.

Record write_ready (now : Z) (sid remote_sid : session_id) (co : crypto_options) (front : list byte)
    (co' : crypto_options) (remote_addr : sockaddr_in) (ack : reliable_ack) (max : Z) (b : buffer) : Prop := {
  wr_auth : tls_auth_ok now co;
  wr_pid : is_Some (o_packet_id co);
  wr_pin : next_pin now co front co';
  wr_sid : Zlen sid = SID_SIZE;
  wr_remote : Zlen remote_sid = SID_SIZE /\ session_id_defined remote_sid = true;
  wr_addr : addr_defined remote_addr = true;
  wr_ack : Zlen ack <= RELIABLE_ACK_SIZE;
  wr_max : 0 <= max < 256;
  (* the headroom of the control channel's frame *)
  wr_room : ACK_SIZE (Z.min (Zlen ack) max) + 9 + 8 + hmac_len (hmac_of co false) <= b_offset b
}.

Lemma wp_write_control_auth SHA1 now fill nonce h p b bs sid co front co' key_id remote_sid remote_addr ack opcode max :
  write_ready now sid remote_sid co front co' remote_addr ack max b -> buf_rep h p b bs ->
  let n := Z.to_nat (Z.min (Zlen ack) max) in
  let hm := hmac_of co false in
  wp (write_control_auth SHA1 now fill nonce sid co key_id remote_sid remote_addr ack b opcode max true)
     (fun x h' => exists b', x = (nonce, b', drop n ack, match hm with Some _ => co' | None => co end, remote_addr) /\
        buf_rep h' p b' (control_wire hm (control_header key_id opcode sid) front
                           (ack_bytes (take n ack) remote_sid ++ bs))) h.
Proof.
  intros [Hta [pid Hpid] Hpin Hsid [Hrs Hrd] Haddr Hack Hmax Hroom] H n hm.
  pose proof Hta as [(enc & dec & Hbi & Hec & _ & Heh & _) Hlong _ _].
  unfold write_control_auth. rewrite Haddr. wp_steps.
  assert (0 <= hmac_len hm) as Hhl by (apply hmac_len_nonneg; unfold hm, hmac_of; rewrite Hbi; exact Heh).
  fold hm in Hroom. set (a := ACK_SIZE (Z.min (Zlen ack) max)) in *.
  eapply wp_mono; [apply (wp_reliable_ack_write h p b bs ack remote_sid max); auto; fold a; lia|].
  intros [[ok rest] b1] h1 ([= -> -> ->] & Hb1). fold n a in Hb1 |- *. wp_steps.
  eapply wp_mono; [apply (wp_buf_write_prepend h1 p _ _ sid Hb1)|].
  { rewrite Hsid. unfold SID_SIZE. cbn. lia. }
  intros [ok b2] h2 ([= -> ->] & Hb2 & _). wp_steps. rewrite Hsid in *. change SID_SIZE with 8 in *. cbn [b_offset b_len b_capacity b_data with_offset_len] in *.
  rewrite (buf_prepend_spec h2 p _ _ 1 Hb2) by (cbn; lia). wp_steps. eapply wp_lift; [done|]. wp_steps.
  eapply (wp_store_prepend h2 p _ _ [u8 (Z.lor key_id (Z.shiftl opcode P_OPCODE_SHIFT))]); [exact Hb2|rewrite Zlen_cons, Zlen_nil; cbn; lia|].
  intros h3 Hb3 _. wp_steps. rewrite Hbi. eapply wp_lift; [done|]. cbn [k_encrypt].
  change (Zlen [u8 (Z.lor key_id (Z.shiftl opcode P_OPCODE_SHIFT))]) with 1 in Hb3.
  cbn [b_offset b_len b_capacity b_data with_offset_len] in Hb3.
  assert (forall l, [u8 (Z.lor key_id (Z.shiftl opcode P_OPCODE_SHIFT))] ++ sid ++ l = control_header key_id opcode sid ++ l)
    as Hhd by done. rewrite Hhd in Hb3. clear Hhd. set (hdr := control_header key_id opcode sid) in *.
  set (body := ack_bytes (take n ack) remote_sid ++ bs) in *.
  assert (hm = k_hmac enc) as Ehm by (unfold hm, hmac_of; by rewrite Hbi).
  rewrite <- Ehm. destruct hm as [hmc|]; [|wp_steps; eauto].
  pose proof (Heh hmc (eq_sym Ehm)) as Hok. pose proof Hok as [Hs Hml]. cbn [hmac_len] in *.
  pose proof (next_pin_len _ _ _ _ Hpin) as Hfl. rewrite Hpid, (Hlong false) in Hfl by (unfold hmac_of; rewrite Hbi; by eexists).
  change (packet_id_size true) with 8 in Hfl. wp_steps. eapply wp_mono.
  { eapply (wp_openvpn_encrypt_null SHA1 now fill nonce h3 p _ _ co co' front enc dec hmc); eauto.
    cbn [b_offset with_offset_len]. lia. }
  intros x h4 (b4 & -> & Hb4). wp_steps.
  assert (Zlen hdr = 9) as Hh9 by (unfold hdr, control_header; rewrite Zlen_cons, Hsid; done).
  assert (hmac_of co' false = Some hmc) as Hco'.
  { unfold hmac_of. rewrite (next_pin_key _ _ _ _ Hpin), Hbi. cbn. by symmetry. }
  eapply wp_mono; [apply (wp_swap_hmac h4 p b4 _ co' false hmc Hb4 Hco' Hok)|].
  intros ok h5 (-> & _ & Hb5). cbv beta iota zeta in Hb5 |- *.
  set (tag := HMAC hmc (front ++ hdr ++ body)) in *.
  assert (Zlen tag = HMAC_size hmc) as Htag by apply Hml.
  assert ((HMAC_size hmc + 8 + 9 <=? Zlen (tag ++ front ++ hdr ++ body)) = true) as E.
  { apply Z.leb_le. rewrite !Zlen_app. pose proof (Zlen_nonneg body). lia. }
  rewrite E in *. wp_steps. eexists. split; [done|].
  replace (HMAC_size hmc + 8) with (Zlen tag + Zlen front) in Hb5 by lia.
  rewrite <- Hh9, swapped_out in Hb5. done.
Qed.

(** The packet id a control packet carries, as the peer checks it: none without
    --tls-auth. *)
Definition wire_pin (now : Z) (co : crypto_options) (pin : option packet_id_net) : Prop :=
  match hmac_of co false with
  | None => pin = None
  | Some _ => exists pid pin' co', o_packet_id co = Some pid /\
      alloc_pin now co pid true = Ok (co', pin') /\ is_u32 (pin_id pin') /\ is_u32 (pin_time pin') /\ pin = Some pin'
  end.

Lemma open_control_wire now rco header front body :
  Zlen header = 9 -> (forall x, hmac_of rco true = Some x -> hmac_ok x) ->
  (is_Some (hmac_of rco true) -> Zlen front = 8) ->
  open_control now rco (control_wire (hmac_of rco true) header front body) =
    match hmac_of rco true with
    | None => Some (body, rco)
    | Some hm =>
        match open_null (bool_decide (is_Some (o_packet_id rco))) (long_form_of rco)
                (flag (o_flags rco) CO_IGNORE_PACKET_ID) (front ++ header ++ body) with
        | None => None
        | Some (pin, payload) =>
            match decrypt_replay now pin rco with
            | Ok (true, co') => Some (drop 9 payload, co')
            | _ => None
            end
        end
    end.
Proof.
  intros Hh Hok Hf. unfold open_control, control_wire. destruct (hmac_of rco true) as [hm|].
  2:{ rewrite drop_app_length' by (unfold Zlen in *; lia). done. }
  destruct (Hok hm eq_refl) as [Hs Hml]. specialize (Hf ltac:(done)).
  set (tag := HMAC hm (front ++ header ++ body)). assert (Zlen tag = HMAC_size hm) as Ht by apply Hml.
  replace (Zlen (header ++ tag ++ front ++ body) <? HMAC_size hm + 17) with false.
  2:{ symmetry. apply Z.ltb_ge. rewrite !Zlen_app. pose proof (Zlen_nonneg body). lia. }
  assert (swapped 9 (HMAC_size hm + 8) (header ++ tag ++ front ++ body) = tag ++ front ++ header ++ body) as ->.
  { rewrite <- swapped_out, Ht, Hf, Hh. apply swapped_swapped; [lia|lia|].
    rewrite !Zlen_app. pose proof (Zlen_nonneg body). lia. }
  pose proof (open_seal_hmac (Some hm) (front ++ header ++ body)) as Ho. cbn [seal_hmac] in Ho.
  fold tag in Ho. rewrite Ho; [done|]. intros x [= <-]. by split.
Qed.

Lemma ack_bytes_bytes ids sid : Forall is_byte sid -> (length ids <= 8)%nat -> Forall is_byte (ack_bytes ids sid).
Proof.
  intros Hs Hl. unfold ack_bytes, ids_bytes. rewrite !Forall_app. split; [|split].
  - constructor; [|done]. unfold is_byte, Zlen. lia.
  - clear Hl. induction ids as [|x ids IH]; cbn; [done|]. apply Forall_app. auto using be_enc_bytes.
  - by destruct (decide _).
Qed.

(** C6: control channel packets get through tls-auth.  What write_control_auth makes of
    a packet (acknowledgements, session id, opcode and key id in front; with
    --tls-auth also the HMAC and a packet id, moved behind the session id) starts
    with the opcode, key id and session id, and read_control_auth of a peer with the
    same HMAC key gives back exactly the acknowledgements and the payload; it accepts
    if and only if the replay check accepts the packet id.  No ASSERT fails on either
    side, given the headroom of the control channel's frame. *)
Theorem control_auth_roundtrip SHA1 now fill nonce h p b bs sid co front co' key_id remote_sid
    remote_addr ack opcode max now2 fill2 rco pin :
  write_ready now sid remote_sid co front co' remote_addr ack max b -> buf_rep h p b bs ->
  Forall is_byte sid -> Forall is_byte remote_sid -> Forall is_byte bs ->
  (forall hm m, hmac_of co false = Some hm -> Forall is_byte (HMAC hm m)) ->
  tls_auth_ok now2 rco -> hmac_of rco true = hmac_of co false -> is_Some (o_packet_id rco) ->
  flag (o_flags rco) CO_IGNORE_PACKET_ID = false -> wire_pin now co pin ->
  let n := Z.to_nat (Z.min (Zlen ack) max) in
  wp ('(_, b1, rest, _, _) ← write_control_auth SHA1 now fill nonce sid co key_id remote_sid remote_addr
                               ack b opcode max true;
      p1 ← deref (BPTR b1);
      header ← load p1 9;
      '(ok, b2, rco') ← read_control_auth now2 fill2 b1 rco;
      mret (rest, header, ok, b2, rco'))
     (fun r h' => let '(rest, header, ok, b2, rco') := r in
        rest = drop n ack /\ header = control_header key_id opcode sid /\
        (ok = true <-> exists o, decrypt_replay now2 pin rco = Ok (true, o)) /\
        (ok = true -> decrypt_replay now2 pin rco = Ok (true, rco') /\
                      buf_rep h' p b2 (ack_bytes (take n ack) remote_sid ++ bs))) h.
Proof.
  intros Hw H Hbs Hbr Hbb Hbh Hta Hhm Hrp Hig Hpin n. pose proof Hw as [Hta1 [pid Hpid] Hnp Hsid _ _ Hack Hmax _].
  pose proof Hta1 as [_ Hlong _ _]. pose proof Hta as [(renc & rdec & Hrbi & _ & _ & _ & Hrh) Hrlong _ _].
  wp_steps. eapply wp_mono; [by eapply wp_write_control_auth|].
  intros r h1 (b1 & -> & Hb1). wp_steps. fold n in Hb1 |- *. rewrite <- Hhm in *.
  set (hdr := control_header key_id opcode sid) in *. set (body := ack_bytes (take n ack) remote_sid ++ bs) in *.
  assert (Zlen hdr = 9) as Hh9 by (unfold hdr, control_header; by rewrite Zlen_cons, Hsid).
  assert (is_Some (hmac_of rco true) -> Zlen front = 8) as Hfl.
  { intros Hs. rewrite Hhm in Hs. pose proof (next_pin_len _ _ _ _ Hnp) as Hfl. by rewrite Hpid, (Hlong false Hs) in Hfl. }
  set (wire := control_wire (hmac_of rco true) hdr front body) in *.
  assert (exists r, wire = hdr ++ r) as [wr Hwr] by (unfold wire, control_wire; case_match; eauto).
  rewrite (BPTR_rep _ _ _ _ Hb1). wp_steps.
  eapply wp_load. { rewrite Hwr in Hb1. rewrite <- Hh9. by apply (buf_rep_prefix h1 p b1 hdr wr). }
  assert (forall x, hmac_of rco true = Some x -> hmac_ok x) as Hok by (unfold hmac_of; rewrite Hrbi; exact Hrh).
  wp_steps. eapply wp_mono; [apply (wp_read_control_auth now2 fill2 h1 p b1 wire rco Hta Hb1)|].
  { unfold wire, control_wire. assert (Forall is_byte hdr) as B1 by (constructor; [apply u8_range|done]).
    assert (Forall is_byte body) as B2.
    { apply Forall_app; split; [|done]. apply ack_bytes_bytes; [done|]. unfold n. rewrite length_take. unfold RELIABLE_ACK_SIZE, Zlen in *. lia. }
    assert (Forall is_byte front) as B3.
    { unfold next_pin in Hnp. rewrite Hpid in Hnp. destruct Hnp as (? & _ & ->). unfold pin_bytes.
      destruct (long_form_of co); rewrite ?Forall_app; auto using be_enc_bytes. }
    destruct (hmac_of rco true) as [hm|]; rewrite ?Forall_app; auto. }
  { rewrite Hwr, Zlen_app, Hh9. pose proof (Zlen_nonneg wr). lia. }
  intros [[ok b2] rco'] h2 (_ & _ & _ & _ & Hopen). wp_steps. split; [done|]. split; [done|].
  unfold wire in Hopen. rewrite open_control_wire in Hopen by auto.
  unfold wire_pin in Hpin. rewrite <- Hhm in Hpin. specialize (Hrlong true). destruct (hmac_of rco true) as [hm|].
  2:{ subst pin. destruct Hopen as (-> & -> & Hr). cbn. split; [|done]. split; eauto. }
  destruct Hpin as (pid' & pin' & co1 & Hpid' & Hal & Hid & Ht & ->). unfold next_pin in Hnp. rewrite Hpid in *.
  injection Hpid' as <-. destruct Hnp as (pin2 & Hal2 & ->). rewrite (Hlong false) in * by (by rewrite <- Hhm). rewrite Hal in Hal2. injection Hal2 as <- <-.
  rewrite bool_decide_true, Hig, Hrlong in Hopen by eauto. unfold open_null in Hopen.
  rewrite split_pin_bytes in Hopen by done. destruct pin' as [pi pt]. cbn [pin_id pin_time] in Hopen.
  destruct (decrypt_replay now2 (Some (Pin pi pt)) rco) as [[[] o]| |]; [|naive_solver..].
  destruct Hopen as (-> & -> & Hr). rewrite drop_app_length' in Hr by (unfold Zlen in Hh9; lia). split; [|done]. split; eauto.
Qed.

(** The premises hold of the first packet of a session. *)
Definition ex_ta : crypto_options :=
  Opt (Some (KeyCtxBi (KeyCtx None (Some ex_hmac)) (KeyCtx None (Some ex_hmac)))) (Some ex_pid) None CO_PACKET_ID_LONG_FORM.
Definition ex_ta' : crypto_options :=
  Opt (o_key_ctx_bi ex_ta) (Some (Pid (Send 1 1000) (pid_rec ex_pid))) None CO_PACKET_ID_LONG_FORM.
Definition ex_sid : session_id := [1; 2; 3; 4; 5; 6; 7; 8].
Definition ex_remote : session_id := [8; 7; 6; 5; 4; 3; 2; 1].

Lemma ex_ta_ok : tls_auth_ok 1000 ex_ta.
Proof.
  split.
  - exists (KeyCtx None (Some ex_hmac)), (KeyCtx None (Some ex_hmac)).
    split_and!; try done; intros x [= <-]; apply ex_hmac_ok.
  - done.
  - intros pid [= <-]. apply ex_rec_ok.
  - unfold SEQ_EXPIRED. lia.
Qed.

Lemma ex_write_ready :
  write_ready 1000 ex_sid ex_remote ex_ta (pin_bytes (Pin 1 1000) true) ex_ta' (Addr 16777343 1194) [5; 6] 4 ex_b.
Proof.
  split; try done; try (cbn; unfold RELIABLE_ACK_SIZE; lia).
  - apply ex_ta_ok.
  - exists (Pin 1 1000). split; reflexivity.
Qed.

Lemma control_auth_roundtrip_witness :
  wp ('(_, b1, rest, _, _) ← write_control_auth ex_sha1 1000 (fun _ => 0) ex_nonce ex_sid ex_ta 0 ex_remote
                               (Addr 16777343 1194) [5; 6] ex_b 4 4 true;
      p1 ← deref (BPTR b1);
      header ← load p1 9;
      '(ok, b2, rco') ← read_control_auth 1000 (fun _ => 0) b1 ex_ta;
      mret (rest, header, ok, b2, rco'))
     (fun r h' => let '(rest, header, ok, b2, rco') := r in
        rest = [] /\ header = [32; 1; 2; 3; 4; 5; 6; 7; 8] /\
        (ok = true <-> exists o, decrypt_replay 1000 (Some (Pin 1 1000)) ex_ta = Ok (true, o)) /\
        (ok = true -> decrypt_replay 1000 (Some (Pin 1 1000)) ex_ta = Ok (true, rco') /\
                      buf_rep h' (Ptr 1 0) b2 (ack_bytes [5; 6] ex_remote ++ [7; 7; 7; 7]))) ex_blocks.
Proof.
  eapply (control_auth_roundtrip ex_sha1 1000 (fun _ => 0) ex_nonce ex_blocks (Ptr 1 0) ex_b [7; 7; 7; 7] ex_sid
    ex_ta _ _ 0 ex_remote (Addr 16777343 1194) [5; 6] 4 4 1000 (fun _ => 0) ex_ta (Some (Pin 1 1000))).
  - exact ex_write_ready.
  - exact ex_b_rep.
  - repeat constructor; unfold is_byte; lia.
  - repeat constructor; unfold is_byte; lia.
  - repeat constructor; unfold is_byte; lia.
  - intros hm m [= <-]. constructor; [apply u8_range|constructor].
  - exact ex_ta_ok.
  - reflexivity.
  - eexists. reflexivity.
  - reflexivity.
  - eexists _, (Pin 1 1000), _. split; [reflexivity|]. split; [reflexivity|].
    split; [unfold is_u32; cbn; lia|]. split; [unfold is_u32; cbn; lia|reflexivity].
Defined.
