(* ===== verification/Own.v ===== *)
(** Buffers that a data structure owns: each is null or well formed, and no two share
    their memory.  Allocating, freeing and changing one of them keeps the others. *)

From S2P Require Import Prelude Buffer.

Definition null_or_rep (h : heap) (b : buffer) : Prop :=
  b_data b = None \/ exists p bs, buf_rep h p b bs /\ pos p = 0.

Definition block_of (b : buffer) : option positive := blk <$> b_data b.

Definition owns (h : heap) (l : list buffer) : Prop :=
  Forall (null_or_rep h) l /\ NoDup (omap block_of l).

Lemma owns_perm h l l' : l ≡ₚ l' -> owns h l -> owns h l'.
Proof.
  intros Hp [Hf Hn]. split; [by rewrite <- Hp|]. by rewrite <- (omap_Permutation block_of l l').
Qed.

Lemma block_of_rep h p b bs : buf_rep h p b bs -> block_of b = Some (blk p).
Proof. intros H. unfold block_of. by rewrite (br_data _ _ _ _ H). Qed.

Lemma omap_block_in (l : list buffer) b p : b ∈ l -> block_of b = Some p -> p ∈ omap block_of l.
Proof. intros. apply list_elem_of_omap. eauto. Qed.

(** The other buffers of a list whose first buffer occupies [x]. *)
Lemma owns_rest_ne h b l x c p bs :
  owns h (b :: l) -> block_of b = Some x -> c ∈ l -> buf_rep h p c bs -> blk p <> x.
Proof.
  intros [_ Hn] Hb Hc Hr E. cbn in Hn. rewrite Hb in Hn. apply list.NoDup_cons in Hn as [Hx _]. apply Hx.
  eapply omap_block_in; [done|]. rewrite (block_of_rep _ _ _ _ Hr). by f_equal.
Qed.

(** Whatever keeps all blocks but the first buffer's keeps the rest. *)
Lemma owns_update h h' b b' l p bs :
  owns h (b :: l) -> block_of b = Some (blk p) -> buf_rep h' p b' bs -> pos p = 0 -> keeps [blk p] h h' ->
  owns h' (b' :: l).
Proof.
  intros Ho Hb Hr Hpos Hk. pose proof Ho as [Hf Hn]. apply Forall_cons_1 in Hf as [_ Hf]. split.
  - constructor; [right; eauto|]. rewrite list.Forall_forall in Hf |- *. intros c Hc.
    destruct (Hf c Hc) as [?|(q & cs & Hq & Hpq)]; [by left|]. right. exists q, cs. split; [|done].
    eapply buf_rep_keeps; [exact Hk| |exact Hq]. rewrite list_elem_of_singleton. by eapply owns_rest_ne.
  - cbn in *. rewrite Hb in Hn. by rewrite (block_of_rep _ _ _ _ Hr).
Qed.

Lemma owns_keeps h h' l : owns h l -> keeps [] h h' -> owns h' l.
Proof.
  intros [Hf Hn] Hk. split; [|done]. eapply Forall_impl; [|exact Hf]. intros b [?|(p & bs & Hr & Hp)]; [by left|].
  right. exists p, bs. split; [|done]. eapply buf_rep_keeps; [exact Hk| |exact Hr]. set_solver.
Qed.

Lemma owns_tail h b l : owns h (b :: l) -> owns h l.
Proof.
  intros [Hf Hn]. apply Forall_cons_1 in Hf as [_ Hf]. split; [done|]. cbn in Hn.
  destruct (block_of b); [by apply list.NoDup_cons in Hn as [_ Hn]|done].
Qed.

(** A buffer that is owned before and after is still at its place. *)
Lemma owns_head_rep h h' b l p bs :
  owns h' (b :: l) -> buf_rep h p b bs -> exists bs', buf_rep h' p b bs' /\ Zlen bs' = Zlen bs.
Proof.
  intros [Hf _] Hr. apply Forall_cons_1 in Hf as [Hb _]. pose proof (br_data _ _ _ _ Hr) as Hd.
  destruct Hb as [E|(q & bs' & Hq & _)]; [congruence|].
  rewrite (br_data _ _ _ _ Hq) in Hd. injection Hd as ->. exists bs'. split; [done|].
  by rewrite (buf_rep_Zlen _ _ _ _ Hq), (buf_rep_Zlen _ _ _ _ Hr).
Qed.

Lemma owns_null h b l : b_data b = None -> owns h l -> owns h (b :: l).
Proof.
  intros Hb [Hf Hn]. split; [constructor; [by left|done]|]. cbn. unfold block_of at 1. by rewrite Hb.
Qed.

Lemma wp_free_buf h b l : owns h (b :: l) -> wp (free_buf b) (fun b' h' => b' = clear_buf /\ owns h' l) h.
Proof.
  intros Ho. pose proof Ho as [Hf _]. apply Forall_cons_1 in Hf as [Hb Hl].
  unfold wp, free_buf. destruct Hb as [-> | (p & bs & Hr & Hp)].
  { split; [done|]. by eapply owns_tail. }
  rewrite (br_data _ _ _ _ Hr). pose proof (br_valid _ _ _ _ Hr) as [x Hx].
  rewrite decide_True by (split; [done|]; apply mload_Some in Hx as (? & ? & _); eauto).
  split; [done|]. split; [|by destruct (owns_tail _ _ _ Ho)].
  rewrite list.Forall_forall in Hl |- *. intros c Hc. destruct (Hl c Hc) as [?|(q & cs & Hq & Hpq)]; [by left|].
  right. exists q, cs. split; [|done].
  assert (blk q <> blk p) as Hne by (eapply owns_rest_ne; eauto using block_of_rep).
  assert (forall q' k, blk q' = blk q -> mload (delete (blk p) h) q' k = mload h q' k) as Hm.
  { intros q' k E. unfold mload. rewrite E. by rewrite lookup_delete_ne by congruence. }
  destruct Hq. split; auto; [by rewrite Hm|]. by rewrite Hm.
Qed.

Lemma wp_alloc_buf_own fill size h l : owns h l -> 0 <= size <= BUF_MAX ->
  wp (alloc_buf fill size) (fun b h' => b_capacity b = size /\ owns h' (b :: l) /\
     exists p, buf_rep h' p b [] /\ pos p = 0 /\ b_offset b = 0) h.
Proof.
  intros [Hf Hn] Hs. eapply wp_mono; [by apply wp_alloc_buf|].
  intros b h' (p & -> & Hr & Hfe). split; [done|]. pose proof Hfe as (Hpos & _ & _). split; [|eauto].
  split.
  - constructor; [right; eauto|]. eapply Forall_impl; [|exact Hf]. intros c [?|(q & cs & Hq & Hpq)]; [by left|].
    right. exists q, cs. split; [|done]. by eapply buf_rep_fresh_ext.
  - cbn. apply list.NoDup_cons. split; [|done]. intros Hin. apply list_elem_of_omap in Hin as (c & Hc & Hbc).
    rewrite list.Forall_forall in Hf. destruct (Hf c Hc) as [E|(q & cs & Hq & _)].
    + unfold block_of in Hbc. by rewrite E in Hbc.
    + rewrite (block_of_rep _ _ _ _ Hq) in Hbc. injection Hbc as Hbc.
      by apply (buf_rep_fresh_ne _ _ _ _ _ _ Hfe Hq).
Qed.
