(* ===== verification/RelOwn.v ===== *)
(** The reliability layer on whatever a peer sends: no operation faults or fails an
    ASSERT, and the receive and send buffers stay well formed (src/reliable.c). *)

From S2P Require Import Prelude Buffer Integer PacketId Mtu Crypto Reliable Own.

(** ** Reading acknowledgements from arbitrary bytes *)

(** [b'] holds a suffix of [bs] in the same memory. *)
Definition suffix_rep (h : heap) (p : ptr) (b' : buffer) (bs : list byte) : Prop :=
  exists s, buf_rep h p b' s /\ s `suffix_of` bs.

Lemma suffix_rep_trans h p b s bs : suffix_rep h p b s -> s `suffix_of` bs -> suffix_rep h p b bs.
Proof. intros (x & Hx & Hs) ?. exists x. split; [done|]. by etrans. Qed.

Lemma suffix_drop {A} n (l : list A) : drop n l `suffix_of` l.
Proof. exists (take n l). by rewrite take_drop. Qed.

Lemma suffix_Zlen {A} (s l : list A) : s `suffix_of` l -> Zlen s <= Zlen l.
Proof. intros [k ->]. rewrite Zlen_app. pose proof (Zlen_nonneg k). lia. Qed.

Lemma wp_buf_read_any h p b bs n : buf_rep h p b bs -> 0 <= n ->
  wp (buf_read b n) (fun r h' => h' = h /\ exists s, buf_rep h p (snd r) s /\
    match fst r with
    | Some x => n <= Zlen bs /\ x = take (Z.to_nat n) bs /\ s = drop (Z.to_nat n) bs
    | None => Zlen bs < n /\ s = bs
    end) h.
Proof.
  intros H Hn. destruct (decide (n <= Zlen bs)) as [Hle|Hgt].
  - eapply wp_mono; [apply (wp_buf_read_n h p b bs n H); lia|].
    intros [x b'] h' ([= -> ->] & -> & Hr). split; [done|]. eexists. split; [exact Hr|]. done.
  - rewrite buf_read_short by (rewrite <- (buf_rep_Zlen _ _ _ _ H); lia). wp_steps. split; [done|].
    exists bs. split; [done|]. split; [lia|done].
Qed.

Lemma wp_ack_read_ids_any n h p b bs ack : buf_rep h p b bs -> Zlen ack <= RELIABLE_ACK_SIZE ->
  wp (ack_read_ids n ack b) (fun r h' => h' = h /\ Zlen (snd (fst r)) <= RELIABLE_ACK_SIZE /\
    suffix_rep h p (snd r) bs) h.
Proof.
  revert b bs ack. induction n as [|n IH]; intros b bs ack H Ha; cbn [ack_read_ids].
  { wp_steps. split; [done|]. split; [done|]. by exists bs. }
  wp_steps. eapply wp_mono; [apply (wp_buf_read_any h p b bs 4 H); lia|].
  intros [x b'] h' (-> & s & Hs & Hx). cbn [fst snd] in Hx. wp_steps. destruct x as [x|].
  2:{ destruct Hx as [_ ->]. wp_steps. split; [done|]. split; [done|]. by exists bs. }
  destruct Hx as (_ & _ & ->). destruct (Zlen ack >=? RELIABLE_ACK_SIZE) eqn:E; bool_simp.
  { wp_steps. split; [done|]. split; [done|]. eexists. split; [exact Hs|apply suffix_drop]. }
  eapply wp_mono; [eapply (IH b' _ (ack ++ [be_dec x])); [exact Hs|]|].
  { rewrite Zlen_app, Zlen_cons, Zlen_nil. lia. }
  intros r h' (-> & Hr & Hsr). split; [done|]. split; [done|]. eapply suffix_rep_trans; [done|apply suffix_drop].
Qed.

Lemma wp_reliable_ack_read_any h p b bs sid : buf_rep h p b bs ->
  wp (reliable_ack_read [] b sid) (fun r h' => h' = h /\ Zlen (snd (fst r)) <= RELIABLE_ACK_SIZE /\
    suffix_rep h p (snd r) bs) h.
Proof.
  intros H. unfold reliable_ack_read. wp_steps. eapply wp_mono; [apply (wp_buf_read_any h p b bs 1 H); lia|].
  intros [x b'] h' (-> & s & Hs & Hx). cbn [fst snd] in Hx. wp_steps. destruct x as [x|].
  2:{ destruct Hx as [_ ->]. wp_steps. split; [done|]. split; [done|]. by exists bs. }
  destruct Hx as (_ & _ & ->). wp_steps.
  eapply wp_mono; [eapply (wp_ack_read_ids_any _ h p b' _ []); [exact Hs|done]|].
  intros [[ok ack] b2] h' (-> & Hack & Hsr). cbn [fst snd] in Hack, Hsr. wp_steps.
  assert (suffix_rep h p b2 bs) as Hb2 by (eapply suffix_rep_trans; [exact Hsr|apply suffix_drop]).
  destruct ok; cbn [negb]; [|wp_steps; done]. destruct (be_dec x =? 0); cbn [negb]; [wp_steps; done|]. wp_steps.
  destruct Hb2 as (s2 & Hs2 & Hsuf). unfold session_id_read.
  eapply wp_mono; [apply (wp_buf_read_any h p b2 s2 SID_SIZE Hs2); unfold SID_SIZE; lia|].
  intros [y b3] h' (-> & s3 & Hs3 & Hy). cbn [fst snd] in Hy. wp_steps. destruct y as [y|].
  - destruct Hy as (_ & _ & ->). wp_steps. split; [done|]. split; [done|]. eexists. split; [exact Hs3|].
    etrans; [apply suffix_drop|done].
  - destruct Hy as [_ ->]. wp_steps. split; [done|]. split; [done|]. by exists s2.
Qed.

(** ** The buffers of a struct reliable *)

Definition rel_bufs (r : option reliable) : list buffer :=
  match r with Some r => e_buf <$> array r | None => [] end.

(** [n] entries with buffers of capacity [C]; packets start at [H]. *)
Record rel_ok (C H n : Z) (r : reliable) : Prop := {
  ro_size : Zlen (array r) = n;
  ro_offset : rel_offset r = H;
  ro_bufs : Forall (fun e => b_capacity (e_buf e) = C /\ is_Some (b_data (e_buf e))) (array r)
}.

(** Changing members other than the buffers. *)
Lemma rel_ok_same C H n r r' : rel_ok C H n r -> e_buf <$> array r' = e_buf <$> array r -> rel_offset r' = rel_offset r ->
  rel_ok C H n r' /\ rel_bufs (Some r') = rel_bufs (Some r).
Proof.
  intros [Hs Ho Hb] E Eo. split; [|done].
  assert (length (array r') = length (array r)) as El by (apply (f_equal length) in E; by rewrite !length_fmap in E).
  split; [unfold Zlen in *; lia|congruence|].
  apply (Forall_fmap e_buf (fun b => b_capacity b = C /\ is_Some (b_data b))) in Hb. rewrite <- E in Hb.
  by apply (Forall_fmap e_buf (fun b => b_capacity b = C /\ is_Some (b_data b))) in Hb.
Qed.

Lemma purge_bufs r ack : e_buf <$> array (reliable_send_purge r ack) = e_buf <$> array r /\
  rel_offset (reliable_send_purge r ack) = rel_offset r.
Proof.
  unfold reliable_send_purge. revert r. induction ack as [|pid ack IH]; intros r; cbn [foldl]; [done|].
  destruct (IH (purge_one r pid)) as [-> ->]. unfold purge_one. destruct (find_entry _ r) as [j|]; [|done].
  destruct (array r !! j) as [e|] eqn:E; [|done]. split; [|done]. cbn [array set_entry set_array].
  rewrite list_fmap_insert. cbn. rewrite list_insert_id; [done|]. by rewrite list_lookup_fmap, E.
Qed.

Lemma schedule_now_bufs now r : e_buf <$> array (reliable_schedule_now now r) = e_buf <$> array r /\
  rel_offset (reliable_schedule_now now r) = rel_offset r.
Proof.
  split; [|done]. cbn [array reliable_schedule_now set_array]. rewrite <- list_fmap_compose.
  apply list_fmap_ext. intros i e _. cbn. by destruct (active e).
Qed.

(** The buffers of an array, one first. *)
Lemma bufs_lookup (l : list reliable_entry) i e :
  l !! i = Some e -> e_buf <$> l ≡ₚ e_buf e :: (e_buf <$> delete i l).
Proof.
  intros H. rewrite (delete_Permutation l i e H) at 1. done.
Qed.
Lemma bufs_insert (l : list reliable_entry) i e e' :
  l !! i = Some e -> e_buf <$> <[i := e']> l ≡ₚ e_buf e' :: (e_buf <$> delete i l).
Proof.
  intros H. rewrite (bufs_lookup _ i e') by (apply list_lookup_insert_eq; by eapply lookup_lt_Some).
  by rewrite !delete_take_drop, take_insert_ge, drop_insert_lt by lia.
Qed.

(** A free entry's buffer, reset for a new packet. *)
Lemma reliable_get_buf_any h C H n r l :
  rel_ok C H n r -> 0 <= H <= C -> owns h (rel_bufs (Some r) ++ l) -> reliable_can_get r = true ->
  exists i e p, array r !! i = Some e /\
    let b := with_offset_len (e_buf e) H 0 in
    reliable_get_buf r = Ok (Some i, set_entry r i (set_entry_buf e b)) /\
    buf_rep h p b [] /\ pos p = 0 /\ b_capacity b = C /\ exists bs, buf_rep h p (e_buf e) bs.
Proof.
  intros [Hs Ho Hb] HH [Hf _] Hg. unfold reliable_can_get in Hg. unfold reliable_get_buf.
  destruct (find_entry _ r) as [i|] eqn:Ef; [|done]. apply find_entry_Some in Ef as (e & He & _).
  rewrite list.Forall_forall in Hb. destruct (Hb e) as [Hc [d Hd]]; [by eapply list_elem_of_lookup_2|].
  apply Forall_app in Hf as [Hf _]. rewrite list.Forall_forall in Hf.
  destruct (Hf (e_buf e)) as [E|(p & bs & Hr & Hp)].
  { apply list_elem_of_fmap. exists e. split; [done|]. by eapply list_elem_of_lookup_2. }
  { congruence. }
  exists i, e, p. split; [done|]. rewrite He, Ho.
  destruct (buf_init_spec h p (e_buf e) bs H Hr) as [-> Hr']; [lia|]. split_and!; try done. by exists bs.
Qed.

Lemma rel_ok_set_entry C H n r i e e' : rel_ok C H n r -> array r !! i = Some e ->
  b_capacity (e_buf e') = C -> is_Some (b_data (e_buf e')) -> rel_ok C H n (set_entry r i e').
Proof.
  intros [Hs Ho Hb] He Hc Hd. split; cbn; [unfold Zlen in *; by rewrite length_insert|done|].
  by apply Forall_insert.
Qed.

Lemma mark_incoming_ok r i e id op : array r !! i = Some e -> rel_packet_id r <= id ->
  reliable_mark_active_incoming r i id op = Ok (set_entry r i (Entry true 0 0 id op (e_buf e))).
Proof.
  intros He Hid. unfold reliable_mark_active_incoming. rewrite He.
  by rewrite Z.geb_leb, (proj2 (Z.leb_le (rel_packet_id r) id)) by done.
Qed.

(** tls_pre_decrypt's use of the receive side, on any packet that fits. *)
Lemma wp_rec_accept_any h C H n rec ack q b bs op l :
  rel_ok C H n rec -> 0 <= H <= C -> Zlen ack <= RELIABLE_ACK_SIZE ->
  buf_rep h q b bs -> pos q = 0 -> H + Zlen bs - 4 <= C ->
  owns h (b :: rel_bufs (Some rec) ++ l) ->
  wp (rec_accept rec ack b op) (fun x h' =>
    let '(rec', ack', b') := x in
    rel_ok C H n rec' /\ Zlen ack' <= RELIABLE_ACK_SIZE /\ suffix_rep h' q b' bs /\
    owns h' (b' :: rel_bufs (Some rec') ++ l)) h.
Proof.
  intros Hro HH Hack Hb Hq Hlen Ho. unfold rec_accept.
  assert (forall b' s, buf_rep h q b' s -> owns h (b' :: rel_bufs (Some rec) ++ l)) as Hob.
  { intros b' s Hr. eapply (owns_update h h b b'); eauto using block_of_rep, keeps_refl. }
  assert (suffix_rep h q b bs) as Hsb by (by exists bs).
  destruct (reliable_can_get rec) eqn:Eg; [|by wp_steps]. unfold reliable_ack_read_packet_id. wp_steps.
  eapply wp_mono; [apply (wp_buf_read_any h q b bs 4 Hb); lia|].
  intros [x b1] h1 (-> & s & Hs & Hx). cbn [fst snd] in Hx, Hs. wp_steps. destruct x as [x|].
  2:{ destruct Hx as [_ ->]. wp_steps. split_and!; auto; [by exists bs|by eapply Hob]. }
  cbn [fmap option_fmap option_map]. destruct Hx as (H4 & _ & ->). set (id := be_dec x).
  assert (suffix_rep h q b1 bs) as Hs1 by (eexists; split; [exact Hs|apply suffix_drop]).
  destruct (reliable_wont_break_sequentiality rec id); [|wp_steps; eauto 6].
  assert (Zlen (snd (reliable_ack_acknowledge_packet_id ack id)) <= RELIABLE_ACK_SIZE) as Hack'.
  { unfold reliable_ack_acknowledge_packet_id. destruct (_ && _) eqn:E; [|done]. apply andb_true_iff in E as [_ E].
    apply Z.ltb_lt in E. cbn [snd]. rewrite Zlen_app, Zlen_cons, Zlen_nil. lia. }
  wp_steps. destruct (reliable_not_replay rec id) eqn:Er; [|wp_steps; eauto 6].
  apply reliable_not_replay_spec in Er as [Hid _].
  destruct (reliable_get_buf_any h C H n rec (b1 :: l) Hro HH) as (i & e & p & He & Hget & Hrep & Hp & Hcap & (es & Hes)); [|done|].
  { eapply owns_perm; [|eapply Hob; exact Hs]. by rewrite Permutation_middle. }
  wp_steps. eapply wp_lift; [exact Hget|]. wp_steps. set (bi := with_offset_len (e_buf e) H 0) in *.
  cbn [array set_entry set_array]. eapply wp_lift.
  { rewrite list_lookup_insert_eq by (by eapply lookup_lt_Some). done. }
  wp_steps. cbn [e_buf set_entry_buf].
  assert (Zlen (drop (Z.to_nat 4) bs) = Zlen bs - 4) as Hd by (unfold Zlen in *; rewrite length_drop; lia).
  pose proof (buf_rep_Zlen _ _ _ _ Hs) as Hl1.
  eapply wp_mono; [eapply (wp_buf_copy h p bi [] q b1); [done|done|]|].
  { rewrite Hcap. cbn. lia. }
  intros [ok b2] h2 ([= -> Hb2] & Hr2' & Hm).
  assert (buf_rep h2 p b2 ([] ++ drop (Z.to_nat 4) bs)) as Hr2 by (rewrite Hb2; exact Hr2').
  assert (b_capacity b2 = C) as Hc2 by (by rewrite Hb2). wp_steps.
  set (e2 := set_entry_buf (set_entry_buf e bi) b2).
  set (r2 := set_entry (set_entry rec i (set_entry_buf e bi)) i e2).
  assert (array r2 !! i = Some e2) as He2.
  { cbn. rewrite list_insert_insert_eq. apply list_lookup_insert_eq. by eapply lookup_lt_Some. }
  eapply wp_lift; [by apply (mark_incoming_ok r2 i e2 id op He2)|]. wp_steps.
  set (e3 := Entry true 0 0 id op (e_buf e2)).
  assert (set_entry r2 i e3 = set_entry rec i e3) as ->.
  { unfold set_entry, set_array. cbn. by rewrite !list_insert_insert_eq. }
  split; [|split; [done|split]].
  - apply (rel_ok_set_entry C H n rec i e e3); [done|done|done|]. change (e_buf e3) with b2. rewrite (br_data _ _ _ _ Hr2). eauto.
  - destruct Hs1 as (s1 & Hs1 & Hsuf). exists s1. split; [|done].
    eapply buf_rep_other; [exact Hs1|exact Hm|]. cbn.
    eapply (owns_rest_ne h b1 _ (blk q) (e_buf e) p); [by eapply Hob|by eapply block_of_rep| |].
    + apply elem_of_app. left. apply list_elem_of_fmap. exists e. split; [done|]. by eapply list_elem_of_lookup_2.
    + exact Hes.
  - eapply owns_perm.
    { rewrite Permutation_middle. cbn [rel_bufs array set_entry set_array]. rewrite (bufs_insert _ _ _ e3 He). done. }
    cbn [app]. change (e_buf e3) with b2.
    eapply (owns_update h h2 (e_buf e) b2 _ p); [|by eapply block_of_rep|exact Hr2|done|].
    + eapply owns_perm; [|eapply Hob; exact Hs]. rewrite Permutation_middle. cbn [rel_bufs].
      by rewrite (bufs_lookup _ _ _ He).
    + eapply modifies_keeps; [done|]. by left.
Qed.

(** ** Making and freeing a struct reliable *)

Lemma wp_free_entries h (es : list reliable_entry) l :
  owns h ((e_buf <$> es) ++ l) -> wp (free_entries es) (fun _ h' => owns h' l) h.
Proof.
  revert h. induction es as [|e es IH]; intros h Ho; cbn [free_entries]; [by wp_steps|]. wp_steps.
  eapply wp_mono; [by apply (wp_free_buf h (e_buf e) ((e_buf <$> es) ++ l))|]. intros b h1 [-> Ho1]. wp_steps.
  eapply wp_mono; [by apply IH|]. intros r h2 Ho2. by wp_steps.
Qed.

Lemma wp_init_entries_own fill n C o h l :
  owns h l -> 0 <= o <= C -> C <= BUF_MAX ->
  wp (init_entries fill n C o) (fun es h' => length es = n /\
    Forall (fun e => b_capacity (e_buf e) = C /\ is_Some (b_data (e_buf e))) es /\
    owns h' ((e_buf <$> es) ++ l)) h.
Proof.
  intros Ho Hoc HC. revert h l Ho. induction n as [|n IH]; intros h l Ho; cbn [init_entries].
  { wp_steps. auto. }
  wp_steps. eapply wp_mono; [apply (wp_alloc_buf_own fill C h l Ho); lia|].
  intros b h1 (Hc & Ho1 & p & Hr & Hp & _).
  destruct (buf_init_spec h1 p b [] o Hr) as [-> Hr1]; [lia|]. wp_steps.
  assert (owns h1 (with_offset_len b o 0 :: l)) as Ho2.
  { eapply (owns_update h1 h1 b); eauto using block_of_rep, keeps_refl. }
  eapply wp_mono; [apply (IH h1 _ Ho2)|]. intros es h2 (Hl & Hf & Ho3). wp_steps. split; [cbn; lia|]. split.
  - constructor; [|done]. cbn. rewrite (br_data _ _ _ _ Hr). eauto.
  - eapply owns_perm; [|exact Ho3]. cbn. by rewrite Permutation_middle.
Qed.

Lemma wp_reliable_init_own fill C o n h l :
  owns h l -> 0 <= o <= C -> C <= BUF_MAX -> 0 < n <= RELIABLE_CAPACITY ->
  wp (reliable_init fill C o n) (fun rel h' => rel_ok C o n rel /\ owns h' (rel_bufs (Some rel) ++ l)) h.
Proof.
  intros Ho Hoc HC Hn. unfold reliable_init. wp_steps. apply wp_ASSERT; [lia|]. wp_steps.
  eapply wp_mono; [by apply wp_init_entries_own|]. intros es h1 (Hl & Hf & Ho1). wp_steps. split; [|done].
  split; cbn; [unfold Zlen; lia|done|done].
Qed.
