(* ===== verification/Text.v ===== *)
(** C strings and text in buffers (src/buffer.c): formatted output, hex dumps, character
    classes and the replacement of characters that are not allowed; gen_path of src/misc.c.

    A C string is the list of its bytes without the terminating NUL. *)

From S2P Require Import Prelude Buffer.

(** ** C strings in memory: the bytes from a pointer to the next NUL *)

Definition read_cstr (p : ptr) : M (list byte) := fun h =>
  match h !! blk p with
  | Some l =>
      if (0 <=? pos p) && (pos p <=? Zlen l) then
        let t := drop (Z.to_nat (pos p)) l in
        match list_find (fun c => c = 0) t with
        | Some (n, _) => Ok (take n t, h)
        | None => Fault
        end
      else Fault
  | None => Fault
  end.

Definition text (s : string) : list byte := (fun a => Z.of_nat (Ascii.nat_of_ascii a)) <$> String.list_ascii_of_string s.

(** ** Formatted output: [s] is the text vsnprintf makes of the format and its arguments *)

Definition buf_printf (b : buffer) (s : list byte) : M buffer :=
  if buf_defined b then
    p ← deref (BEND b);
    let cap := buf_forward_capacity b in
    if cap >? 0 then
      _ ← store p (take (Z.to_nat (cap - 1)) s ++ [0]);
      d ← deref (b_data b);
      _ ← store (ptr_add d (b_capacity b - 1)) [0];
      t ← read_cstr p;
      mret (with_len b (i32 (b_len b + Zlen t)))
    else mret b
  else mret b.

(** What strncpynt writes to dest. *)
Definition strncpynt_bytes (src : list byte) (maxlen : Z) : list byte :=
  if maxlen >? 0 then take (Z.to_nat (maxlen - 1)) (src ++ replicate (Z.to_nat maxlen) 0) ++ [0] else [].

Definition buf_catrunc (b : buffer) (str : list byte) : M unit :=
  if buf_forward_capacity b <=? 1 then
    let len := Zlen str + 1 in
    if len <? buf_forward_capacity_total b then
      d ← deref (b_data b);
      store (ptr_add d (b_capacity b - len)) (strncpynt_bytes str len)
    else mret tt
  else mret tt.

(** The digits of "%02x". *)
Definition hex_digit (x : Z) : byte := if x <? 10 then 48 + x else 87 + x.
Definition hex2 (x : byte) : list byte := [hex_digit (x / 16); hex_digit (x mod 16)].

Fixpoint hex_loop (data : list byte) (i space_break : Z) (separator : option (list byte)) (out : buffer) : M buffer :=
  match data with
  | [] => mret out
  | c :: data =>
      out ← (match separator with
             | Some sep => if negb (i =? 0) && (Z.rem i space_break =? 0) then buf_printf out sep else mret out
             | None => mret out
             end);
      out ← buf_printf out (hex2 c);
      hex_loop data (i + 1) space_break separator out
  end.

(** The string is out.data; the arena that owns it is not modelled. *)
Definition format_hex_ex (fill : Z -> Z) (data : list byte) (maxoutput space_break : Z) (separator : option (list byte))
  : M ptr :=
  let size := Zlen data in
  _ ← lift (if (maxoutput =? 0) && (space_break =? 0) then Fault else Ok tt);
  let seplen := match separator with Some s => Zlen s | None => 0 end in
  out ← alloc_buf fill (if negb (maxoutput =? 0) then maxoutput else size * 2 + Z.quot size space_break * seplen + 2);
  out ← hex_loop data 0 space_break separator out;
  _ ← buf_catrunc out (text "[more...]");
  deref (b_data out).

(** ** Character classes: the flags of buffer.h, and the C locale's classification *)

Definition CC_ANY : Z := Z.shiftl 1 0.
Definition CC_NULL : Z := Z.shiftl 1 1.
Definition CC_ALNUM : Z := Z.shiftl 1 2.
Definition CC_ALPHA : Z := Z.shiftl 1 3.
Definition CC_ASCII : Z := Z.shiftl 1 4.
Definition CC_CNTRL : Z := Z.shiftl 1 5.
Definition CC_DIGIT : Z := Z.shiftl 1 6.
Definition CC_PRINT : Z := Z.shiftl 1 7.
Definition CC_PUNCT : Z := Z.shiftl 1 8.
Definition CC_SPACE : Z := Z.shiftl 1 9.
Definition CC_XDIGIT : Z := Z.shiftl 1 10.
Definition CC_BLANK : Z := Z.shiftl 1 11.
Definition CC_NEWLINE : Z := Z.shiftl 1 12.
Definition CC_CR : Z := Z.shiftl 1 13.
Definition CC_BACKSLASH : Z := Z.shiftl 1 14.
Definition CC_UNDERBAR : Z := Z.shiftl 1 15.
Definition CC_DASH : Z := Z.shiftl 1 16.
Definition CC_DOT : Z := Z.shiftl 1 17.
Definition CC_COMMA : Z := Z.shiftl 1 18.
Definition CC_COLON : Z := Z.shiftl 1 19.
Definition CC_SLASH : Z := Z.shiftl 1 20.
Definition CC_SINGLE_QUOTE : Z := Z.shiftl 1 21.
Definition CC_DOUBLE_QUOTE : Z := Z.shiftl 1 22.
Definition CC_REVERSE_QUOTE : Z := Z.shiftl 1 23.
Definition CC_AT : Z := Z.shiftl 1 24.
Definition CC_EQUAL : Z := Z.shiftl 1 25.
Definition CC_CRLF : Z := Z.lor CC_CR CC_NEWLINE.

Definition within (lo hi c : byte) : bool := (lo <=? c) && (c <=? hi).
Definition isdigit (c : byte) : bool := within 48 57 c.
Definition isalpha (c : byte) : bool := within 65 90 c || within 97 122 c.
Definition isalnum (c : byte) : bool := isalpha c || isdigit c.
Definition isascii (c : byte) : bool := within 0 127 c.
Definition iscntrl (c : byte) : bool := within 0 31 c || (c =? 127).
Definition isprint (c : byte) : bool := within 32 126 c.
Definition ispunct (c : byte) : bool := within 33 126 c && negb (isalnum c).
Definition isspace (c : byte) : bool := within 9 13 c || (c =? 32).
Definition isxdigit (c : byte) : bool := isdigit c || within 65 70 c || within 97 102 c.

Definition char_class (c : byte) (flags : Z) : bool :=
  if flags =? 0 then false
  else
    flag flags CC_ANY
    || flag flags CC_NULL && (c =? 0)
    || flag flags CC_ALNUM && isalnum c
    || flag flags CC_ALPHA && isalpha c
    || flag flags CC_ASCII && isascii c
    || flag flags CC_CNTRL && iscntrl c
    || flag flags CC_DIGIT && isdigit c
    || flag flags CC_PRINT && isprint c
    || flag flags CC_PUNCT && ispunct c
    || flag flags CC_SPACE && isspace c
    || flag flags CC_XDIGIT && isxdigit c
    || flag flags CC_BLANK && ((c =? 32) || (c =? 9))
    || flag flags CC_NEWLINE && (c =? 10)
    || flag flags CC_CR && (c =? 13)
    || flag flags CC_BACKSLASH && (c =? 92)
    || flag flags CC_UNDERBAR && (c =? 95)
    || flag flags CC_DASH && (c =? 45)
    || flag flags CC_DOT && (c =? 46)
    || flag flags CC_COMMA && (c =? 44)
    || flag flags CC_COLON && (c =? 58)
    || flag flags CC_SLASH && (c =? 47)
    || flag flags CC_SINGLE_QUOTE && (c =? 39)
    || flag flags CC_DOUBLE_QUOTE && (c =? 34)
    || flag flags CC_REVERSE_QUOTE && (c =? 96)
    || flag flags CC_AT && (c =? 64)
    || flag flags CC_EQUAL && (c =? 61).

Definition char_inc_exc (c : byte) (inclusive exclusive : Z) : bool :=
  char_class c inclusive && negb (char_class c exclusive).

Fixpoint string_class (str : list byte) (inclusive exclusive : Z) : bool :=
  match str with
  | [] => true
  | c :: str => if negb (char_inc_exc c inclusive exclusive) then false else string_class str inclusive exclusive
  end.

(** The result and the new string, which is not longer than the old one. *)
Fixpoint string_mod (str : list byte) (inclusive exclusive : Z) (replace : byte) : bool * list byte :=
  match str with
  | [] => (true, [])
  | c :: str =>
      let '(ok, out) := string_mod str inclusive exclusive replace in
      if char_inc_exc c inclusive exclusive then (ok, c :: out)
      else (false, if negb (replace =? 0) then replace :: out else out)
  end.

Definition string_mod_const (str : option (list byte)) (inclusive exclusive : Z) (replace : byte) : option (list byte) :=
  match str with
  | Some str => Some (snd (string_mod str inclusive exclusive replace))
  | None => None
  end.

(** ** gen_path of misc.c; [dirsep] is OS_SPECIFIC_DIRSEP *)

Definition SAFE_FILENAME : Z := Z.lor (Z.lor (Z.lor (Z.lor CC_ALNUM CC_UNDERBAR) CC_DASH) CC_DOT) CC_AT.

Definition gen_path (fill : Z -> Z) (dirsep : byte) (directory filename : option (list byte)) : M (option (list byte)) :=
  match string_mod_const filename SAFE_FILENAME 0 95 with
  | Some safe_filename =>
      if negb (bool_decide (safe_filename = text ".")) && negb (bool_decide (safe_filename = text "..")) then
        out ← alloc_buf fill 256;
        out ← (match directory with Some d => buf_printf out (d ++ [dirsep]) | None => mret out end);
        out ← buf_printf out safe_filename;
        p ← deref (BPTR out);
        s ← read_cstr p;
        mret (Some s)
      else mret None
  | None => mret None
  end.

(** ** Memory *)

(** Two stores side by side. *)
Lemma modifies_seq h1 h2 h3 p n k :
  modifies h1 h2 p n -> modifies h2 h3 (ptr_add p n) k -> 0 <= n -> 0 <= k -> modifies h1 h3 p (n + k).
Proof.
  intros H1 H2 Hn Hk. eapply modifies_trans; (eapply modifies_widen; [eassumption|done|cbn; lia..]).
Qed.

Lemma modifies_valid h h' p n q k : modifies h h' p n -> is_Some (mload h q k) -> is_Some (mload h' q k).
Proof. intros H. by apply H. Qed.

Lemma mload_two h1 h2 h3 p x y :
  mload h2 p (Zlen x) = Some x -> modifies h2 h3 (ptr_add p (Zlen x)) (Zlen y) ->
  mload h3 (ptr_add p (Zlen x)) (Zlen y) = Some y -> modifies h1 h2 p (Zlen x) ->
  mload h3 p (Zlen (x ++ y)) = Some (x ++ y) /\ modifies h1 h3 p (Zlen (x ++ y)).
Proof.
  intros Hx Hm Hy H1. pose proof (Zlen_nonneg x). pose proof (Zlen_nonneg y). rewrite Zlen_app. split.
  - apply mload_app; [|done]. rewrite (mod_frame _ _ _ _ Hm); [done|lia|]. right. left. cbn. lia.
  - by eapply modifies_seq.
Qed.

Lemma wp_read_cstr h p s :
  mload h p (Zlen s) = Some s -> mload h (ptr_add p (Zlen s)) 1 = Some [0] -> Forall (fun c => c <> 0) s ->
  wp (read_cstr p) (fun r h' => r = s /\ h' = h) h.
Proof.
  intros H H0 Hnz. pose proof (mload_app _ _ _ _ _ _ H H0) as Ha.
  apply mload_Some in Ha as (l & Hl & Hp & Hn & Hle & Ha). pose proof (Zlen_nonneg s).
  unfold wp, read_cstr. rewrite Hl. replace ((0 <=? pos p) && (pos p <=? Zlen l)) with true by lia.
  assert (drop (Z.to_nat (pos p)) l = s ++ 0 :: drop (Z.to_nat (Zlen s + 1)) (drop (Z.to_nat (pos p)) l)) as E.
  { rewrite <- (take_drop (Z.to_nat (Zlen s + 1)) (drop (Z.to_nat (pos p)) l)) at 1. unfold slice in Ha.
    by rewrite <- Ha, <- app_assoc. }
  rewrite E. generalize (drop (Z.to_nat (Zlen s + 1)) (drop (Z.to_nat (pos p)) l)) as t. intros t.
  rewrite list_find_app_r.
  - cbn [list_find]. rewrite decide_True by done. cbn [fmap option_fmap option_map prod_map fst snd].
    cbn [Nat.add]. by rewrite take_app_length.
  - apply list_find_None. done.
Qed.


(** ** buf_printf *)

(** The buffer [b] holds the text [bs], and has the terminating NUL behind it. *)
Definition text_rep (h : heap) (p : ptr) (b : buffer) (bs : list byte) : Prop :=
  buf_rep h p b bs /\ mload h (ptr_add p (b_offset b + b_len b)) 1 = Some [0].

Lemma text_rep_keeps bl h h' p b bs : keeps bl h h' -> blk p ∉ bl -> text_rep h p b bs -> text_rep h' p b bs.
Proof. intros Hk Hn [Hr H0]. split; [by eapply buf_rep_keeps|]. by apply Hk. Qed.

Definition no_nul (s : list byte) : Prop := Forall (fun c => c <> 0) s.


Lemma Zlen_take {A} (l : list A) n : 0 <= n -> Zlen (take (Z.to_nat n) l) = Z.min n (Zlen l).
Proof. intros. unfold Zlen. rewrite length_take. lia. Qed.

Lemma no_nul_take s n : no_nul s -> no_nul (take n s).
Proof. apply Forall_take. Qed.

Lemma buf_room h p b bs : buf_rep h p b bs -> buf_forward_capacity b = b_capacity b - b_offset b - b_len b.
Proof. intros H. rep_facts H. unfold buf_forward_capacity. wrap_simp. case_test; lia. Qed.

Lemma wp_buf_clear h p b bs :
  buf_rep h p b bs -> wp (buf_clear b) (fun b' h' => buf_rep h' p b' [] /\ keeps [blk p] h h') h.
Proof.
  intros H. pose proof (br_data _ _ _ _ H) as Hd. pose proof H as [_ [x Hx] Ho Hl [Hc Hm] _]. unfold buf_clear.
  assert (forall h', is_Some (mload h' p (b_capacity b)) -> buf_rep h' p (with_offset_len b 0 0) []) as Hrep.
  { intros h' [y Hy]. split; cbn; try done; try lia. by rewrite (mload_sub _ _ _ _ 0 0 Hy), slice_nil by lia. }
  destruct (b_capacity b >? 0) eqn:E; bool_simp.
  - rewrite Hd. wp_steps. apply wp_store.
    { unfold Zlen. rewrite length_replicate, Z2Nat.id by lia. by eexists. }
    intros h' _ Hm'. wp_steps. split; [|eapply modifies_keeps; [exact Hm'|by left]].
    apply Hrep. eapply modifies_valid; [exact Hm'|by eexists].
  - wp_steps. split; [apply Hrep; by eexists|apply keeps_refl].
Qed.

(** Storing the text and its NUL, then a NUL at the end of the room. *)
Lemma printf_stores h q cap s :
  is_Some (mload h q cap) -> 0 < cap -> Zlen s < cap ->
  forall Q : unit -> heap -> Prop,
  (forall h', mload h' q (Zlen s) = Some s -> mload h' (ptr_add q (Zlen s)) 1 = Some [0] -> modifies h h' q cap -> Q tt h') ->
  wp (_ ← store q (s ++ [0]); store (ptr_add q (cap - 1)) [0]) Q h.
Proof.
  intros Hv Hcap Hs Q HQ. pose proof (Zlen_nonneg s). wp_steps. apply wp_store.
  { rewrite <- (ptr_add_0 q). rewrite Zlen_app. eapply mload_sub_valid; [exact Hv|change (Zlen [0]) with 1; lia..]. }
  rewrite Zlen_app. change (Zlen [0]) with 1. intros h1 Hl1 Hm1. wp_steps.
  assert (mload h1 q (Zlen s) = Some s /\ mload h1 (ptr_add q (Zlen s)) 1 = Some [0]) as [Ha Hb].
  { split.
    - rewrite <- (ptr_add_0 q). rewrite (mload_sub _ _ _ _ 0 (Zlen s) Hl1) by lia.
      by rewrite slice_app_l, slice_all by lia.
    - rewrite (mload_sub _ _ _ _ (Zlen s) 1 Hl1) by lia. rewrite slice_app_r by lia. by rewrite Z.sub_diag. }
  assert (modifies h h1 q cap) as Hm1' by (eapply modifies_widen; [exact Hm1|done|lia..]).
  apply wp_store.
  { change (Zlen [0]) with 1. eapply modifies_valid; [exact Hm1'|]. eapply mload_sub_valid; [exact Hv|lia..]. }
  change (Zlen [0]) with 1. intros h2 Hl2 Hm2. apply HQ.
  - rewrite (mod_frame _ _ _ _ Hm2); [done|lia|]. right. left. cbn. lia.
  - destruct (Z.eq_dec (Zlen s) (cap - 1)) as [-> | Hne]; [done|].
    rewrite (mod_frame _ _ _ _ Hm2); [done|lia|]. right. left. cbn. lia.
  - eapply modifies_trans; [exact Hm1'|]. eapply modifies_widen; [exact Hm2|done|cbn; lia..].
Qed.

(** buf_printf appends what fits, keeping the text terminated. *)
Lemma wp_buf_printf h p b bs s :
  buf_rep h p b bs -> no_nul s -> b_offset b + b_len b < b_capacity b ->
  let s' := take (Z.to_nat (b_capacity b - b_offset b - b_len b - 1)) s in
  wp (buf_printf b s) (fun b' h' => b' = with_len b (b_len b + Zlen s') /\ text_rep h' p b' (bs ++ s') /\
    modifies h h' (ptr_add p (b_offset b + b_len b)) (b_capacity b - b_offset b - b_len b)) h.
Proof.
  intros H Hs Hroom s'. pose proof (buf_room _ _ _ _ H) as Hcap. rep_facts H.
  assert (Zlen s' < b_capacity b - b_offset b - b_len b) as Hlen by (unfold s'; rewrite Zlen_take by lia; lia).
  assert (no_nul s') as Hs' by by apply no_nul_take. pose proof (Zlen_nonneg s').
  set (cap := b_capacity b - b_offset b - b_len b) in *.
  unfold buf_printf, buf_defined, BDEF. rewrite (br_data _ _ _ _ H). unfold BEND. rewrite (BPTR_rep _ _ _ _ H).
  cbn [fmap option_fmap option_map]. rewrite Hcap. wp_steps. replace (cap >? 0) with true by lia. rewrite ptr_add_add.
  fold s'. set (q := ptr_add p (b_offset b + b_len b)) in *.
  assert (is_Some (mload h q cap)) as Hv by (unfold q, cap; eapply buf_rep_valid; [exact H|lia..]).
  pose proof (printf_stores h q cap s' Hv ltac:(lia) Hlen) as Hst.
  assert (wp (_ ← store q (s' ++ [0]); store (ptr_add q (cap - 1)) [0])
    (fun _ h' => mload h' q (Zlen s') = Some s' /\ mload h' (ptr_add q (Zlen s')) 1 = Some [0] /\ modifies h h' q cap) h)
    as Hst' by (apply Hst; auto).
  replace (ptr_add q (cap - 1)) with (ptr_add p (b_capacity b - 1)) in Hst' by (unfold q, cap; rewrite ptr_add_add; f_equal; lia).
  rewrite wp_bind in Hst'. wp_steps. eapply wp_mono; [exact Hst'|]. intros [] h1 Hst1. wp_steps.
  eapply wp_mono; [exact Hst1|]. intros [] h2 (Ha & Hb & Hm). wp_steps.
  eapply wp_mono; [by apply (wp_read_cstr h2 q s')|]. intros t h3 (-> & ->). wp_steps. wrap_simp.
  split; [done|]. split; [|done]. split; [|cbn; unfold q in Hb; rewrite ptr_add_add in Hb; by replace (b_offset b + (b_len b + Zlen s')) with (b_offset b + b_len b + Zlen s') by lia].
  split; cbn; try done; try lia.
  - by eapply modifies_valid.
  - unfold BUF_MAX. lia.
  - eapply mload_app; [|by rewrite ptr_add_add]. rewrite (mod_frame _ _ _ _ Hm); [done|lia|]. right. left. cbn. lia.
Qed.

Lemma wp_buf_printf_fits h p b bs s :
  buf_rep h p b bs -> no_nul s -> b_offset b + b_len b + Zlen s < b_capacity b ->
  wp (buf_printf b s) (fun b' h' => b' = with_len b (b_len b + Zlen s) /\ text_rep h' p b' (bs ++ s) /\
    modifies h h' (ptr_add p (b_offset b + b_len b)) (b_capacity b - b_offset b - b_len b)) h.
Proof.
  intros H Hs Hroom. pose proof (Zlen_nonneg s). pose proof (wp_buf_printf h p b bs s H Hs ltac:(lia)) as Hp. cbv zeta in Hp.
  rewrite take_ge in Hp; [exact Hp|]. unfold Zlen in *. lia.
Qed.

(** ** Hex dumps *)

Fixpoint hex_text (data : list byte) (i space_break : Z) (sep : list byte) : list byte :=
  match data with
  | [] => []
  | c :: data => (if negb (i =? 0) && (i mod space_break =? 0) then sep else []) ++ hex2 c
                 ++ hex_text data (i + 1) space_break sep
  end.

Lemma hex2_no_nul c : is_byte c -> no_nul (hex2 c).
Proof.
  unfold is_byte. intros Hc. unfold hex2, hex_digit.
  repeat constructor; case_test; Z.to_euclidean_division_equations; lia.
Qed.

Lemma div_step i n : 0 < n -> 1 <= i -> i / n = (i - 1) / n + (if i mod n =? 0 then 1 else 0).
Proof.
  intros Hn Hi. case_test.
  - pose proof (Z.div_mod i n ltac:(lia)). symmetry. assert ((i - 1) / n = i / n - 1); [|lia].
    symmetry. apply (Z.div_unique _ _ _ (n - 1)); lia.
  - pose proof (Z.mod_pos_bound i n Hn). pose proof (Z.div_mod i n ltac:(lia)). rewrite Z.add_0_r.
    apply (Z.div_unique _ _ _ (i mod n - 1)); lia.
Qed.

Lemma Zlen_hex_text data sb sep : 0 < sb -> forall i, 1 <= i ->
  Zlen (hex_text data i sb sep) = 2 * Zlen data + Zlen sep * ((i + Zlen data - 1) / sb - (i - 1) / sb).
Proof.
  intros Hsb. induction data as [|c data IH]; intros i Hi; cbn [hex_text].
  - rewrite Zlen_nil. replace (i + 0 - 1) with (i - 1) by lia. lia.
  - rewrite !Zlen_app, IH, Zlen_cons by lia. change (Zlen (hex2 c)) with 2.
    replace (i + 1 + Zlen data - 1) with (i + (1 + Zlen data) - 1) by lia. replace (i + 1 - 1) with i by lia.
    pose proof (div_step i sb Hsb Hi) as E. rewrite E. replace (negb (i =? 0)) with true by lia. cbn [andb].
    destruct (i mod sb =? 0); rewrite ?Zlen_nil; lia.
Qed.

(** The room format_hex_ex allocates is enough. *)
Lemma hex_text_room data sb sep : 0 < sb ->
  Zlen (hex_text data 0 sb sep) <= Zlen data * 2 + Z.quot (Zlen data) sb * Zlen sep.
Proof.
  intros Hsb. destruct data as [|c data]; [cbn [hex_text]; rewrite Zlen_nil, Z.quot_0_l by lia; lia|]. pose proof (Zlen_nonneg data). pose proof (Zlen_nonneg sep).
  cbn [hex_text Z.eqb negb andb]. rewrite !Zlen_app, Zlen_hex_text, Zlen_cons by lia. change (Zlen (hex2 c)) with 2.
  rewrite Zlen_nil. rewrite Z.quot_div_nonneg by lia. 
  replace (0 + 1 + Zlen data - 1) with (Zlen data) by lia. change (0 + 1 - 1) with 0. rewrite (Z.div_0_l sb) by lia.
  assert (Zlen data / sb <= (1 + Zlen data) / sb) by (apply Z.div_le_mono; lia). nia.
Qed.

Lemma wp_alloc_text fill size h :
  0 < size <= BUF_MAX ->
  wp (alloc_buf fill size) (fun b h' => exists p, b = Buf size 0 0 (Some p) /\ text_rep h' p b [] /\ fresh_ext h h' p) h.
Proof.
  intros Hs. unfold alloc_buf. wp_steps. apply wp_alloc. intros p h1 Hl Hf. rewrite Zlen_indeterminate in Hl by lia.
  wp_steps. replace (size >? 0) with true by lia. wp_steps. apply wp_store.
  { rewrite <- (ptr_add_0 p). apply (mload_sub_valid h1 p size 0 1); [by eexists|lia..]. }
  intros h2 H0 Hm. wp_steps. exists p. split; [done|]. split; [|by eapply fresh_ext_modifies].
  assert (is_Some (mload h2 p size)) as [x Hx] by (eapply modifies_valid; [exact Hm|by eexists]).
  split; [|by rewrite ptr_add_0]. split; cbn; try done; try lia; try by eexists.
  by rewrite (mload_sub _ _ _ _ 0 0 Hx), slice_nil by lia.
Qed.

Lemma wp_hex_loop data sb sep : 0 < sb -> no_nul sep -> Forall is_byte data -> forall h p b bs i,
  0 <= i -> text_rep h p b bs -> b_offset b + b_len b + Zlen (hex_text data i sb sep) < b_capacity b ->
  wp (hex_loop data i sb (Some sep) b) (fun b' h' =>
    b' = with_len b (b_len b + Zlen (hex_text data i sb sep)) /\ text_rep h' p b' (bs ++ hex_text data i sb sep) /\
    keeps [blk p] h h') h.
Proof.
  intros Hsb Hsep. induction data as [|c data IH]; intros Hby h p b bs i Hi H Hroom; cbn [hex_loop hex_text] in *.
  { wp_steps. rewrite app_nil_r, Z.add_0_r. split; [by destruct b|]. split; [done|apply keeps_refl]. }
  apply list.Forall_cons in Hby as [Hc Hby]. rewrite !Zlen_app in Hroom. change (Zlen (hex2 c)) with 2 in Hroom.
  rewrite Z.rem_mod_nonneg by lia. pose proof (Zlen_nonneg (hex_text data (i + 1) sb sep)) as Hn.
  set (rest := hex_text data (i + 1) sb sep) in *. destruct H as [H H0].
  assert (forall h1 b1 bs1, text_rep h1 p b1 bs1 -> b_capacity b1 = b_capacity b -> b_offset b1 = b_offset b ->
    b_offset b1 + b_len b1 + 2 + Zlen rest < b_capacity b1 ->
    wp (buf_printf b1 (hex2 c)) (fun out => wp (hex_loop data (i + 1) sb (Some sep) out) (fun b' h' =>
      b' = with_len b1 (b_len b1 + (2 + Zlen rest)) /\ text_rep h' p b' (bs1 ++ (hex2 c ++ rest)) /\ keeps [blk p] h1 h')) h1) as Hgo.
  { intros h1 b1 bs1 [H1 H10] Ec Eo Hr1.
    eapply wp_mono; [apply (wp_buf_printf_fits h1 p b1 bs1 (hex2 c)); [done|by apply hex2_no_nul|change (Zlen (hex2 c)) with 2; lia]|].
    intros b2 h2 (-> & H2 & K2). change (Zlen (hex2 c)) with 2 in *.
    eapply wp_mono; [apply (IH Hby h2 p (with_len b1 (b_len b1 + 2)) (bs1 ++ hex2 c) (i + 1)); [lia|exact H2|cbn; fold rest; lia]|].
    fold rest. intros b3 h3 (-> & H3 & K3). cbn in *. rewrite <- app_assoc in H3.
    replace (b_len b1 + (2 + Zlen rest)) with (b_len b1 + 2 + Zlen rest) by lia. split; [done|]. split; [done|].
    eapply keeps_trans; [|exact K3]. eapply modifies_keeps; [exact K2|]. by left. }
  destruct (negb (i =? 0) && (i mod sb =? 0)); wp_steps.
  - eapply wp_mono; [apply (wp_buf_printf_fits h p b bs sep); [done..|lia]|]. intros b1 h1 (-> & H1 & K1). wp_steps.
    eapply wp_mono; [apply (Hgo h1 (with_len b (b_len b + Zlen sep)) (bs ++ sep) H1); cbn; [done..|lia]|].
    intros out h2 Hw. eapply wp_mono; [exact Hw|]. intros b2 h3 (-> & H2 & K2).
    rewrite !Zlen_app. change (Zlen (hex2 c)) with 2. cbn in *. rewrite <- app_assoc in H2.
    replace (b_len b + (Zlen sep + (2 + Zlen rest))) with (b_len b + Zlen sep + (2 + Zlen rest)) by lia.
    split; [done|]. split; [done|]. eapply keeps_trans; [|exact K2]. eapply modifies_keeps; [exact K1|]. by left.
  - rewrite Zlen_nil in Hroom. eapply wp_mono; [apply (Hgo h b bs); [by split|done..|lia]|].
    intros out h2 Hw. eapply wp_mono; [exact Hw|]. intros b2 h3 (-> & H2 & K2). by rewrite !Zlen_app.
Qed.

Lemma wp_read_text h p b bs : text_rep h p b bs -> no_nul bs ->
  wp (read_cstr (ptr_add p (b_offset b))) (fun r h' => r = bs /\ h' = h) h.
Proof.
  intros [H H0] Hs. rep_facts H. apply wp_read_cstr; [by rewrite HL|by rewrite HL, ptr_add_add|done].
Qed.

Lemma hex_text_no_nul data sb sep : no_nul sep -> Forall is_byte data -> forall i, no_nul (hex_text data i sb sep).
Proof.
  intros Hs. induction data as [|c data IH]; intros Hby i; cbn [hex_text]; [constructor|]. apply list.Forall_cons in Hby as [Hc Hby].
  apply Forall_app_2; [by destruct (_ && _)|]. by apply Forall_app_2; [apply hex2_no_nul|apply IH].
Qed.

Lemma fresh_ext_then h h1 h2 p : fresh_ext h h1 p -> keeps [blk p] h1 h2 -> fresh_ext h h2 p.
Proof.
  intros (Hp & Hn & E) K. split; [done|]. split; [done|]. intros q k x Hx. destruct (E q k x Hx) as [Hx1 Hne].
  split; [|done]. apply K; [|done]. by rewrite list_elem_of_singleton.
Qed.

(** The hex dump of all of [data] is whole and is a C string. *)
Lemma wp_format_hex_ex fill data sb sep h :
  0 < sb -> no_nul sep -> Forall is_byte data -> Zlen data * 2 + Z.quot (Zlen data) sb * Zlen sep + 2 <= BUF_MAX ->
  wp (format_hex_ex fill data 0 sb (Some sep)) (fun q h' =>
    let t := hex_text data 0 sb sep in
    fresh_ext h h' q /\ mload h' q (Zlen t) = Some t /\ mload h' (ptr_add q (Zlen t)) 1 = Some [0]) h.
Proof.
  intros Hsb Hsep Hby Hmax. unfold format_hex_ex. change (0 =? 0) with true. cbn [andb negb].
  replace (sb =? 0) with false by lia. wp_steps. eapply wp_lift; [done|]. wp_steps.
  pose proof (hex_text_room data sb sep Hsb). pose proof (Zlen_nonneg (hex_text data 0 sb sep)).
  eapply wp_mono; [apply wp_alloc_text; lia|]. intros b h1 (p & -> & H1 & Hf). wp_steps.
  set (cap := Zlen data * 2 + Z.quot (Zlen data) sb * Zlen sep + 2) in *.
  eapply wp_mono; [apply (wp_hex_loop data sb sep Hsb Hsep Hby h1 p _ [] 0); [lia|exact H1|cbn; lia]|].
  intros b h2 (-> & H2 & K2). wp_steps. pose proof H2 as [Hr2 _]. unfold buf_catrunc. rewrite (buf_room _ _ _ _ Hr2).
  cbn [b_capacity b_offset b_len with_len]. replace (_ <=? 1) with false by lia. wp_steps. cbn [b_data with_len]. wp_steps.
  split; [by eapply fresh_ext_then|]. destruct H2 as [H2 H20]. pose proof (br_bytes _ _ _ _ H2) as Hb. cbn in Hb, H20.
  by rewrite ptr_add_0 in Hb.
Qed.

(** ** Character classes *)

Lemma char_inc_exc_nul inclusive exclusive : flag inclusive CC_NULL = false -> flag inclusive CC_ANY = false ->
  flag inclusive CC_ASCII = false -> flag inclusive CC_CNTRL = false -> char_inc_exc 0 inclusive exclusive = false.
Proof.
  intros H1 H2 H3 H4. unfold char_inc_exc, char_class. case_test; [done|]. rewrite H1, H2, H3, H4. cbn. by rewrite !andb_false_r.
Qed.

(** String_mod keeps exactly the allowed characters in their places: the new string has no
    character outside the class if the replacement is in the class or NUL (the characters are
    then dropped), is never longer, is as long as the old one for another replacement, and is
    the old string, with true returned, exactly when that was in the class. *)
Theorem string_mod_spec str inclusive exclusive replace :
  replace = 0 \/ char_inc_exc replace inclusive exclusive = true ->
  let '(ok, out) := string_mod str inclusive exclusive replace in
  string_class out inclusive exclusive = true /\
  out = (if replace =? 0 then base.filter (fun c => char_inc_exc c inclusive exclusive = true) str
         else (fun c => if char_inc_exc c inclusive exclusive then c else replace) <$> str) /\
  ok = string_class str inclusive exclusive /\ (ok = true -> out = str).
Proof.
  intros Hr. induction str as [|c str IH]; cbn [string_mod string_class].
  { by case_test. }
  destruct (string_mod str inclusive exclusive replace) as [ok out]. destruct IH as (H1 & H2 & H3 & H4).
  destruct (char_inc_exc c inclusive exclusive) eqn:E; cbn [negb string_class].
  - rewrite E. cbn [negb]. split; [done|]. split; [|split; [done|]].
    + rewrite H2. case_test; [by rewrite filter_cons_True|]. by rewrite fmap_cons, E.
    + intros Hok. by rewrite H4.
  - destruct (replace =? 0) eqn:E0; cbn [negb string_class].
    + split; [done|]. split; [|done]. rewrite filter_cons_False by (by rewrite E). done.
    + destruct Hr as [->|Hr]; [done|]. rewrite Hr. cbn [negb]. split; [done|]. split; [|done]. by rewrite fmap_cons, E, <- H2.
Qed.

(** ** gen_path *)

Lemma take_take_app {A} (x y : list A) n :
  take n x ++ take (n - length (take n x)) y = take n (x ++ y).
Proof. rewrite take_app, length_take. do 2 f_equal. lia. Qed.

(** The text so far, cut to the room of the buffer. *)
Lemma wp_buf_printf_cut h p b x s N :
  text_rep h p b (take N x) -> b_offset b = 0 -> b_capacity b = Z.of_nat N + 1 -> no_nul s ->
  wp (buf_printf b s) (fun b' h' => text_rep h' p b' (take N (x ++ s)) /\ b_offset b' = 0 /\
    b_capacity b' = Z.of_nat N + 1 /\ keeps [blk p] h h') h.
Proof.
  intros [H H0] Ho Hc Hs. rep_facts H.
  assert (b_len b <= Z.of_nat N) as Hle by (rewrite <- HL; unfold Zlen; rewrite length_take; lia).
  eapply wp_mono; [apply (wp_buf_printf h p b (take N x) s H Hs); lia|].
  intros b' h' (-> & H' & K'). cbn. split; [|split; [done|split; [done|]]].
  - rewrite <- take_take_app. cbn in H'. replace (N - length (take N x))%nat with (Z.to_nat (b_capacity b - b_offset b - b_len b - 1)).
    { done. } unfold Zlen in HL. lia.
  - eapply modifies_keeps; [exact K'|]. by left.
Qed.

(** gen_path gives no path for the names . and .. (after replacing what is not a file
    name character); any other name gives the directory, the separator and one more component
    that has no separator in it, is neither . nor .., and is the name itself if it is a file
    name already: the path, cut to 255 bytes, cannot leave the directory. *)
Theorem gen_path_stays_below fill dirsep directory filename h :
  no_nul directory -> no_nul filename -> dirsep <> 0 -> char_class dirsep SAFE_FILENAME = false ->
  wp (gen_path fill dirsep (Some directory) (Some filename)) (fun r h' =>
    exists name, (dirsep ∉ name) /\ (string_class filename SAFE_FILENAME 0 = true -> name = filename) /\
      Zlen name = Zlen filename /\
      if bool_decide (name = text ".") || bool_decide (name = text "..") then r = None
      else r = Some (take 255 (directory ++ dirsep :: name))) h.
Proof.
  intros Hd Hf Hsep Hcls. unfold gen_path, string_mod_const.
  pose proof (string_mod_spec filename SAFE_FILENAME 0 95 (or_intror eq_refl)) as Hm.
  destruct (string_mod filename SAFE_FILENAME 0 95) as [ok name]. cbn [snd]. destruct Hm as (Hc & Hn & Hok & Hid).
  change (95 =? 0) with false in Hn. cbv iota in Hn.
  assert (no_nul name) as Hnn.
  { subst name. apply Forall_fmap. eapply Forall_impl; [|exact Hf]. intros c H0. cbn. by destruct (char_inc_exc _ _ _). }
  assert (exists n', n' = name /\ (dirsep ∉ n') /\ (string_class filename SAFE_FILENAME 0 = true -> n' = filename) /\
    Zlen n' = Zlen filename) as (n' & E & Hfacts).
  { exists name. split; [done|]. split; [|split; [by rewrite <- Hok|by rewrite Hn; unfold Zlen; rewrite length_fmap]].
    intros Hin. clear -Hc Hin Hcls. induction name as [|c name IH]; [by apply not_elem_of_nil in Hin|].
    cbn [string_class] in Hc. destruct (char_inc_exc c SAFE_FILENAME 0) eqn:Ec; cbn [negb] in Hc; [|done].
    apply elem_of_cons in Hin as [->|Hin]; [|by apply IH]. unfold char_inc_exc in Ec. by rewrite Hcls in Ec. }
  subst n'. rewrite <- negb_orb. destruct (bool_decide (name = text ".") || bool_decide (name = text "..")) eqn:Ed; cbn [negb]; wp_steps.
  { exists name. rewrite Ed. by destruct Hfacts as (? & ? & ?). }
  eapply wp_mono; [apply wp_alloc_text; by unfold BUF_MAX|]. intros b h1 (p & -> & H1 & Hf1). wp_steps.
  eapply wp_mono; [apply (wp_buf_printf_cut h1 p _ [] (directory ++ [dirsep]) 255); [exact H1|done|done|]|].
  { apply Forall_app_2; [done|]. constructor; [intros ?; lia|constructor]. }
  intros b2 h2 (H2 & Ho2 & Hc2 & _). wp_steps. cbn [app] in H2.
  eapply wp_mono; [apply (wp_buf_printf_cut h2 p b2 (directory ++ [dirsep]) name 255 H2 Ho2 Hc2 Hnn)|].
  intros b3 h3 (H3 & Ho3 & Hc3 & _). wp_steps. rewrite (BPTR_rep _ _ _ _ (proj1 H3)). wp_steps.
  eapply wp_mono; [apply (wp_read_text h3 p b3 _ H3)|].
  { apply no_nul_take. apply Forall_app_2; [|done]. apply Forall_app_2; [done|]. constructor; [done|constructor]. }
  intros s h4 (-> & ->). wp_steps. exists name. rewrite Ed, <- app_assoc. by destruct Hfacts as (? & ? & ?).
Qed.

Lemma gen_path_stays_below_witness :
  wp (gen_path (fun _ => 7) 47 (Some (text "ccd")) (Some (text "../x"))) (fun r h' =>
    exists name, (47 ∉ name) /\ (string_class (text "../x") SAFE_FILENAME 0 = true -> name = text "../x") /\
      Zlen name = Zlen (text "../x") /\
      if bool_decide (name = text ".") || bool_decide (name = text "..") then r = None
      else r = Some (take 255 (text "ccd" ++ 47 :: name))) ∅ /\
  (fst <$> match gen_path (fun _ => 7) 47 (Some (text "ccd")) (Some (text "../x")) ∅ with Ok x => Some x | _ => None end)
  = Some (Some (text "ccd/.._x")).
Proof.
  split; [|by vm_compute].
  apply gen_path_stays_below; [by repeat constructor|by repeat constructor|done|by vm_compute].
Defined.

Lemma string_mod_spec_witness :
  let '(ok, out) := string_mod (text "a/b") SAFE_FILENAME 0 95 in
  string_class out SAFE_FILENAME 0 = true /\
  out = (if 95 =? 0 then base.filter (fun c => char_inc_exc c SAFE_FILENAME 0 = true) (text "a/b")
         else (fun c => if char_inc_exc c SAFE_FILENAME 0 then c else 95) <$> text "a/b") /\
  ok = string_class (text "a/b") SAFE_FILENAME 0 /\ (ok = true -> out = text "a/b").
Proof. apply (string_mod_spec (text "a/b") SAFE_FILENAME 0 95). by right. Defined.
