(* ===== verification/Base64.v ===== *)
(** Base64 as the NTLM proxy authentication uses it (src/base64.c). *)

From S2P Require Import Prelude Buffer Integer Text.

(** ** src/base64.c *)

Definition base64_chars : list byte :=
  ((fun i => 65 + Z.of_nat i) <$> seq 0 26) ++ ((fun i => 97 + Z.of_nat i) <$> seq 0 26)
  ++ ((fun i => 48 + Z.of_nat i) <$> seq 0 10) ++ [43; 47].
Definition EQUALS : byte := 61. (* '=' *)

(** pos (c) *)
Definition base64_pos (c : byte) : Z :=
  match list_find (fun x => x = c) base64_chars with Some (n, _) => Z.of_nat n | None => -1 end.

Definition base64_char (n : Z) : M byte := lift (from_opt (base64_chars !! Z.to_nat n)).

(** c += q[i], if i < size *)
Definition load_if (q : ptr) (i size : Z) : M Z :=
  if i <? size then c ← load (ptr_add q i) 1; mret (be_dec c) else mret 0.

(** Each iteration takes three bytes: [fuel] is the size. *)
Fixpoint encode_loop (fuel : nat) (q : ptr) (size i : Z) (p : ptr) : M ptr :=
  if i <? size then
    match fuel with
    | O => lift Fault
    | S fuel =>
        c0 ← load_if q i size;
        let i := i32 (i + 1) in
        c1 ← load_if q i size;
        let i := i32 (i + 1) in
        c2 ← load_if q i size;
        let i := i32 (i + 1) in
        let c := (c0 * 256 + c1) * 256 + c2 in
        p0 ← base64_char (Z.shiftr (Z.land c 16515072) 18);
        p1 ← base64_char (Z.shiftr (Z.land c 258048) 12);
        p2 ← base64_char (Z.shiftr (Z.land c 4032) 6);
        p3 ← base64_char (Z.shiftr (Z.land c 63) 0);
        _ ← store p [p0; p1; if i >? size + 1 then EQUALS else p2; if i >? size then EQUALS else p3];
        encode_loop fuel q size i (ptr_add p 4)
    end
  else mret p.

(** malloc succeeds; the string and its length. *)
Definition base64_encode (fill : Z -> Z) (data : ptr) (size : Z) : M (ptr * Z) :=
  s ← alloc (indeterminate fill (Z.quot (i32 (size * 4)) 3 + 4));
  p ← encode_loop (Z.to_nat size) data size 0 s;
  _ ← store p [0];
  str ← read_cstr s;
  mret (s, Zlen str).

Definition DECODE_ERROR : Z := 4294967295.

Fixpoint token_loop (token : list byte) (val marker : Z) : option (Z * Z) :=
  match token with
  | [] => Some (val, marker)
  | c :: r =>
      let val := u32 (val * 64) in
      if c =? EQUALS then token_loop r val (marker + 1)
      else if marker >? 0 then None
      else token_loop r (u32 (val + base64_pos c)) marker
  end.

(** [token] is the rest of the string. *)
Definition token_decode (token : list byte) : Z :=
  if Zlen token <? 4 then DECODE_ERROR
  else
    match token_loop (take 4 token) 0 0 with
    | None => DECODE_ERROR
    | Some (val, marker) => if marker >? 2 then DECODE_ERROR else Z.lor (Z.shiftl marker 24) val
    end.

Fixpoint decode_loop (fuel : nat) (p : list byte) (q : ptr) : M (option ptr) :=
  match p with
  | [] => mret (Some q)
  | c :: _ =>
      if (c =? EQUALS) || bool_decide (c ∈ base64_chars) then
        match fuel with
        | O => lift Fault
        | S fuel =>
            let val := token_decode p in
            let marker := Z.land (Z.shiftr val 24) 255 in
            if val =? DECODE_ERROR then mret None
            else
              _ ← store q [Z.land (Z.shiftr val 16) 255];
              let q := ptr_add q 1 in
              q ← (if marker <? 2
                   then _ ← store q [Z.land (Z.shiftr val 8) 255]; mret (ptr_add q 1)
                   else mret q);
              q ← (if marker <? 1 then _ ← store q [Z.land val 255]; mret (ptr_add q 1) else mret q);
              decode_loop fuel (drop 4 p) q
        end
      else mret (Some q)
  end.

(** [str] is the string's characters, without the NUL. *)
Definition base64_decode (str : list byte) (data : ptr) : M Z :=
  q ← decode_loop (length str) str data;
  mret (match q with Some q => pos q - pos data | None => -1 end).

(** ** What it computes *)

(** The character of a 6-bit number. *)
Definition ch (i : Z) : byte := nth (Z.to_nat i) base64_chars 0.
Definition enc4 (a b c : byte) : list byte :=
  let n := a * 65536 + b * 256 + c in
  [ch (n / 262144); ch (n / 4096 mod 64); ch (n / 64 mod 64); ch (n mod 64)].

Fixpoint b64 (bs : list byte) : list byte :=
  match bs with
  | [] => []
  | [a] => take 2 (enc4 a 0 0) ++ [EQUALS; EQUALS]
  | [a; b] => take 3 (enc4 a b 0) ++ [EQUALS]
  | a :: b :: c :: r => enc4 a b c ++ b64 r
  end.

Lemma b64_ind (P : list byte -> Prop) :
  P [] -> (forall a, P [a]) -> (forall a b, P [a; b]) -> (forall a b c r, P r -> P (a :: b :: c :: r)) -> forall l, P l.
Proof.
  intros H0 H1 H2 H3 l. assert (forall n l, (length l <= n)%nat -> P l) as H; [|by eapply H].
  clear l. induction n as [|n IH]; intros [|a [|b [|c r]]] Hl; cbn in Hl; auto; try lia. apply H3, IH. lia.
Qed.

(** All that is needed of the alphabet. *)
Lemma ch_facts i : 0 <= i < 64 ->
  base64_chars !! Z.to_nat i = Some (ch i) /\ base64_pos (ch i) = i /\ ch i ∈ base64_chars /\
  (ch i =? EQUALS) = false /\ ch i <> 0.
Proof.
  intros Hi.
  assert (forallb (fun n => bool_decide (base64_chars !! n = Some (ch (Z.of_nat n))) && (base64_pos (ch (Z.of_nat n)) =? Z.of_nat n)
            && bool_decide (ch (Z.of_nat n) ∈ base64_chars) && negb (ch (Z.of_nat n) =? EQUALS)
            && negb (ch (Z.of_nat n) =? 0)) (seq 0 64) = true) as H by (by vm_compute).
  rewrite forallb_forall in H. specialize (H (Z.to_nat i)). rewrite Z2Nat.id in H by lia.
  rewrite !andb_true_iff, !bool_decide_eq_true in H. destruct H as ((((? & ?) & ?) & ?) & ?).
  { apply in_seq. lia. }
  bool_simp. split_and!; auto. by apply Z.eqb_neq.
Qed.

(** The indices of a group of three bytes. *)
Lemma sextets n : 0 <= n < 16777216 ->
  0 <= n / 262144 < 64 /\ 0 <= n / 4096 mod 64 < 64 /\ 0 <= n / 64 mod 64 < 64 /\ 0 <= n mod 64 < 64 /\
  ((n / 262144 * 64 + n / 4096 mod 64) * 64 + n / 64 mod 64) * 64 + n mod 64 = n.
Proof. intros. Z.to_euclidean_division_equations. lia. Qed.

Lemma sextet_bits n k : 0 <= k -> Z.shiftr (Z.land n (Z.shiftl 63 k)) k = n / 2 ^ k mod 64.
Proof.
  intros Hk. rewrite Z.shiftr_land, Z.shiftr_shiftl_l, Z.sub_diag, Z.shiftl_0_r by lia.
  change 63 with (Z.ones 6). by rewrite Z.land_ones, Z.shiftr_div_pow2 by lia.
Qed.

Lemma Zlen_b64 bs : Zlen (b64 bs) = 4 * ((Zlen bs + 2) / 3).
Proof.
  induction bs as [| | |a b c r IH] using b64_ind; [done..|]. cbn [b64]. rewrite Zlen_app, IH, !Zlen_cons.
  change (Zlen (enc4 a b c)) with 4. replace (1 + (1 + (1 + Zlen r)) + 2) with ((Zlen r + 2) + 1 * 3) by lia.
  rewrite Z.div_add by lia. lia.
Qed.

(** ** Memory *)

Lemma wp_load_if h q bs i n :
  mload h q n = Some bs -> 0 <= i ->
  wp (load_if q i n) (fun c h' => h' = h /\ c = nth (Z.to_nat i) bs 0) h.
Proof.
  intros H Hi. pose proof (mload_Zlen _ _ _ _ H) as Hl. unfold load_if. destruct (i <? n) eqn:E; bool_simp.
  - wp_steps. eapply wp_load; [eapply mload_sub; [exact H|lia..]|]. wp_steps. split; [done|].
    unfold slice. change (Z.to_nat 1) with 1%nat.
    destruct (lookup_lt_is_Some_2 bs (Z.to_nat i)) as [c Hc]; [unfold Zlen in *; lia|].
    rewrite (drop_S _ _ _ Hc). cbn [take]. rewrite (nth_lookup_Some _ _ _ _ Hc). done.
  - wp_steps. split; [done|]. rewrite nth_overflow; [done|]. unfold Zlen in *. lia.
Qed.

Lemma wp_base64_char h i (Q : byte -> heap -> Prop) : 0 <= i < 64 -> Q (ch i) h -> wp (base64_char i) Q h.
Proof. intros (E & _)%ch_facts HQ. unfold base64_char. eapply wp_lift; [by rewrite E|done]. Qed.

(** The group of the bytes at [i], as the loop computes it. *)
Lemma b64_group bs i g rest :
  0 <= i < Zlen bs -> b64 (drop (Z.to_nat i) bs) = g ++ rest -> Zlen g = 4 ->
  let byte k := nth (Z.to_nat (i + k)) bs 0 in
  let n := byte 0 * 65536 + byte 1 * 256 + byte 2 in
  [ch (n / 262144); ch (n / 4096 mod 64); if i + 3 >? Zlen bs + 1 then EQUALS else ch (n / 64 mod 64);
   if i + 3 >? Zlen bs then EQUALS else ch (n mod 64)] = g /\
  rest = b64 (drop (Z.to_nat (i + 3)) bs).
Proof.
  intros Hi Hg H4 byte.
  assert (Zlen (drop (Z.to_nat i) bs) = Zlen bs - i) as Hl by (unfold Zlen in *; rewrite length_drop; lia).
  assert (forall k, byte (Z.of_nat k) = nth k (drop (Z.to_nat i) bs) 0) as Hd.
  { intros k. unfold byte. rewrite !nth_lookup, lookup_drop. do 2 f_equal. lia. }
  replace (drop (Z.to_nat (i + 3)) bs) with (drop 3 (drop (Z.to_nat i) bs)) by (rewrite drop_drop; f_equal; lia).
  pose proof (Hd 0%nat) as H0. pose proof (Hd 1%nat) as H1. pose proof (Hd 2%nat) as H2.
  change (Z.of_nat 0) with 0 in H0. change (Z.of_nat 1) with 1 in H1. change (Z.of_nat 2) with 2 in H2.
  rewrite H0, H1, H2. clear H0 H1 H2 Hd. clearbody byte. set (n := Zlen bs) in *. clearbody n.
  assert (exists x y z w, g = [x; y; z; w]) as (x & y & z & w & ->).
  { unfold Zlen in H4. destruct g as [|x [|y [|z [|w [|]]]]]; cbn [length] in H4; try lia. eauto. }
  destruct (drop (Z.to_nat i) bs) as [|x0 [|x1 [|x2 r]]]; unfold Zlen in Hl; cbn [length] in Hl; [lia|..];
    cbn [nth b64 enc4 take app] in *; injection Hg as <- <- <- <- <-.
  - replace (i + 3 >? n + 1) with true by lia. by replace (i + 3 >? n) with true by lia.
  - replace (i + 3 >? n + 1) with false by lia. by replace (i + 3 >? n) with true by lia.
  - replace (i + 3 >? n + 1) with false by lia. by replace (i + 3 >? n) with false by lia.
Qed.

Lemma nth_byte bs n : Forall is_byte bs -> is_byte (nth n bs 0).
Proof.
  intros H. rewrite nth_lookup. destruct (bs !! n) as [x|] eqn:E; cbn; [|unfold is_byte; lia].
  by eapply Forall_lookup_1 in H.
Qed.

(** One round of the loop. *)
Lemma wp_encode_round fuel h q bs i p g rest (Q : ptr -> heap -> Prop) :
  mload h q (Zlen bs) = Some bs -> Forall is_byte bs -> 0 <= i < Zlen bs -> Zlen bs < 1073741824 ->
  b64 (drop (Z.to_nat i) bs) = g ++ rest -> Zlen g = 4 -> is_Some (mload h p 4) ->
  (forall h', mload h' p 4 = Some g -> modifies h h' p 4 -> rest = b64 (drop (Z.to_nat (i + 3)) bs) ->
     wp (encode_loop fuel q (Zlen bs) (i + 3) (ptr_add p 4)) Q h') ->
  wp (encode_loop (S fuel) q (Zlen bs) i p) Q h.
Proof.
  intros H Hby Hi Hmax Hg H4 Hv HQ. cbn [encode_loop]. replace (i <? Zlen bs) with true by lia. wp_steps.
  eapply wp_mono; [apply (wp_load_if h q bs i); [done|lia]|]. intros a h1 (-> & Ha). wp_steps. wrap_simp.
  eapply wp_mono; [apply (wp_load_if h q bs (i + 1)); [done|lia]|]. intros b h1 (-> & Hb). wp_steps.
  eapply wp_mono; [apply (wp_load_if h q bs (i + 1 + 1)); [done|lia]|]. intros c h1 (-> & Hc). wp_steps.
  destruct (b64_group bs i g rest Hi Hg H4) as [Hout Hrest]. cbv zeta in Hout.
  rewrite Z.add_0_r in Hout. replace (i + 1 + 1) with (i + 2) in Hc by lia. rewrite <- Ha, <- Hb, <- Hc in Hout.
  assert (is_byte a /\ is_byte b /\ is_byte c) as (Ba & Bb & Bc) by (subst a b c; auto using nth_byte).
  clear Ha Hb Hc. replace ((a * 256 + b) * 256 + c) with (a * 65536 + b * 256 + c) by lia.
  set (n := a * 65536 + b * 256 + c) in *. assert (0 <= n < 16777216) as Hn by (unfold n, is_byte in *; lia). clearbody n.
  destruct (sextets n Hn) as (S0 & S1 & S2 & S3 & _).
  change 16515072 with (Z.shiftl 63 18). change 258048 with (Z.shiftl 63 12). change 4032 with (Z.shiftl 63 6).
  change (Z.land n 63) with (Z.land n (Z.shiftl 63 0)). rewrite !sextet_bits by lia.
  change (2 ^ 18) with 262144. change (2 ^ 12) with 4096. change (2 ^ 6) with 64. change (2 ^ 0) with 1.
  rewrite Z.div_1_r. rewrite (Z.mod_small (n / 262144)) by lia.
  apply wp_base64_char; [done|]. wp_steps. apply wp_base64_char; [done|]. wp_steps. apply wp_base64_char; [done|].
  wp_steps. apply wp_base64_char; [done|]. wp_steps. replace (i + 1 + 1 + 1) with (i + 3) by lia.
  rewrite Hout. apply wp_store; rewrite H4; [done|]. intros h2 Hl2 Hm2. wp_steps. by apply HQ.
Qed.

Lemma b64_split bs : bs <> [] -> exists g rest, b64 bs = g ++ rest /\ Zlen g = 4.
Proof.
  destruct bs as [|a [|b [|c r]]]; [done|..]; intros _; cbn [b64].
  - by exists (take 2 (enc4 a 0 0) ++ [EQUALS; EQUALS]), [].
  - by exists (take 3 (enc4 a b 0) ++ [EQUALS]), [].
  - by exists (enc4 a b c), (b64 r).
Qed.

Lemma wp_encode_loop fuel h q bs i p :
  mload h q (Zlen bs) = Some bs -> Forall is_byte bs -> blk p <> blk q -> 0 <= i -> Zlen bs < 1073741824 ->
  let out := b64 (drop (Z.to_nat i) bs) in
  is_Some (mload h p (Zlen out)) -> (length bs <= fuel + Z.to_nat i)%nat ->
  wp (encode_loop fuel q (Zlen bs) i p) (fun p' h' => p' = ptr_add p (Zlen out) /\
    mload h' p (Zlen out) = Some out /\ modifies h h' p (Zlen out)) h.
Proof.
  intros H Hby Hne Hi Hmax out. unfold out. clear out. revert h i p H Hne Hi.
  induction fuel as [|fuel IH]; intros h i p H Hne Hi Hv Hfuel; destruct (Z.lt_ge_cases i (Zlen bs)) as [Hlt|Hge].
  1: { unfold Zlen in *. lia. }
  1, 3: rewrite drop_ge in * by (unfold Zlen in *; lia); cbn [encode_loop]; replace (i <? Zlen bs) with false by lia;
    wp_steps; change (Zlen (b64 [])) with 0 in *; rewrite ptr_add_0; split; [done|]; split; [|apply modifies_refl];
    destruct Hv as [x Hx]; pose proof (mload_Zlen _ _ _ _ Hx); destruct x; [done|];
    rewrite Zlen_cons in *; pose proof (Zlen_nonneg x); lia.
  destruct (b64_split (drop (Z.to_nat i) bs)) as (g & rest & Hg & H4).
  { intros E. apply (f_equal length) in E. rewrite length_drop in E. cbn in E. unfold Zlen in Hlt. lia. }
  rewrite Hg in *. pose proof (Zlen_nonneg rest). rewrite Zlen_app, H4 in Hv.
  eapply wp_encode_round; try done.
  { replace p with (ptr_add p 0) by apply ptr_add_0. eapply mload_sub_valid; [exact Hv|lia..]. }
  intros h1 Hl1 Hm1 Er.
  assert (is_Some (mload h1 (ptr_add p 4) (Zlen rest))) as Hv1.
  { eapply modifies_valid; [exact Hm1|]. eapply mload_sub_valid; [exact Hv|lia..]. }
  eapply wp_mono; [apply (IH h1 (i + 3) (ptr_add p 4)); try done; [|lia|by rewrite <- Er|unfold Zlen in *; lia]|].
  { rewrite (mod_frame _ _ _ _ Hm1); [done|apply Zlen_nonneg|]. left. congruence. }
  intros p' h2 (-> & Hl2 & Hm2). rewrite <- Er in *. rewrite <- H4 in Hl1, Hm1, Hl2, Hm2 |- *.
  rewrite ptr_add_add, Zlen_app. split; [done|]. rewrite <- Zlen_app. by eapply mload_two.
Qed.

(** ** Decoding *)

Lemma token_step c r val marker i :
  c = ch i -> 0 <= i < 64 -> marker = 0 -> 0 <= val < 4194304 ->
  token_loop (c :: r) val marker = token_loop r (val * 64 + i) marker.
Proof.
  intros -> Hi -> Hv. destruct (ch_facts i Hi) as (_ & E & _ & E' & _). cbn [token_loop]. rewrite E', E.
  change (0 >? 0) with false. cbv iota. wrap_simp. done.
Qed.
Lemma token_equals r val marker :
  0 <= val < 67108864 -> token_loop (EQUALS :: r) val marker = token_loop r (val * 64) (marker + 1).
Proof. intros Hv. cbn [token_loop]. rewrite Z.eqb_refl. wrap_simp. done. Qed.

(** The first token of the string for a group of 1, 2 or 3 bytes. *)
Lemma token_decode_group a b c r (g : list byte) marker :
  is_byte a -> is_byte b -> is_byte c ->
  (marker = 0 /\ g = enc4 a b c) \/ (marker = 1 /\ c = 0 /\ g = take 3 (enc4 a b 0) ++ [EQUALS])
  \/ (marker = 2 /\ b = 0 /\ c = 0 /\ g = take 2 (enc4 a 0 0) ++ [EQUALS; EQUALS]) ->
  token_decode (g ++ r) = marker * 16777216 + (a * 65536 + b * 256 + c) /\ drop 4 (g ++ r) = r /\
  exists x t, g ++ r = x :: t /\ (x =? EQUALS) || bool_decide (x ∈ base64_chars) = true.
Proof.
  intros Ba Bb Bc Hg. set (n := a * 65536 + b * 256 + c). unfold is_byte in *.
  assert (0 <= n < 16777216) as Hn by (unfold n; lia). destruct (sextets n Hn) as (S0 & S1 & S2 & S3 & Es).
  assert (c = 0 -> n mod 64 = 0) as Z3 by (unfold n; Z.to_euclidean_division_equations; lia).
  assert (b = 0 -> c = 0 -> n / 64 mod 64 = 0) as Z2 by (unfold n; Z.to_euclidean_division_equations; lia).
  assert (enc4 a b c = [ch (n / 262144); ch (n / 4096 mod 64); ch (n / 64 mod 64); ch (n mod 64)]) as Eg by done.
  set (i0 := n / 262144) in *. set (i1 := n / 4096 mod 64) in *. set (i2 := n / 64 mod 64) in *. set (i3 := n mod 64) in *.
  assert (exists y z, g = [ch i0; ch i1; y; z] /\
    token_loop g 0 0 = Some (n, marker) /\ 0 <= marker <= 2) as (y & z & -> & Et & Hm).
  { clearbody n i0 i1 i2 i3.
    destruct Hg as [(-> & ->)|[(-> & -> & ->)|(-> & -> & -> & ->)]]; rewrite Eg; cbn [take app];
      eexists _, _; (split; [done|]); (split; [|lia]); rewrite !(token_step _ _ _ _ _ eq_refl) by lia;
      rewrite ?token_equals by lia; cbn [token_loop]; repeat f_equal; lia. }
  cbn [app drop]. split; [|split; [done|]].
  - unfold token_decode. replace (Zlen _ <? 4) with false.
    2:{ symmetry. apply Z.ltb_ge. rewrite !Zlen_cons. pose proof (Zlen_nonneg r). lia. }
    cbn [take]. rewrite take_0, Et. replace (marker >? 2) with false by lia.
    rewrite Z.lor_comm, lor_shiftl_add by lia. fold n. lia.
  - eexists _, _. split; [done|]. destruct (ch_facts i0 S0) as (_ & _ & Hin & _).
    rewrite bool_decide_true by done. apply orb_true_r.
Qed.

(** The bytes and the marker of a decoded value. *)
Lemma token_bytes marker a b c : is_byte a -> is_byte b -> is_byte c -> 0 <= marker < 3 ->
  let val := marker * 16777216 + (a * 65536 + b * 256 + c) in
  Z.land (Z.shiftr val 24) 255 = marker /\ Z.land (Z.shiftr val 16) 255 = a /\ Z.land (Z.shiftr val 8) 255 = b /\
  Z.land val 255 = c /\ (val =? DECODE_ERROR) = false.
Proof.
  intros Ba Bb Bc Hm val. unfold is_byte in *. change 255 with (Z.ones 8).
  rewrite !Z.land_ones, !Z.shiftr_div_pow2 by lia. change (2 ^ 8) with 256. change (2 ^ 24) with 16777216.
  change (2 ^ 16) with 65536. unfold DECODE_ERROR, val. split_and!; Z.to_euclidean_division_equations; lia.
Qed.

Lemma wp_store_more q done_ x (Q : unit -> heap -> Prop) h0 h :
  mload h q (Zlen done_) = Some done_ -> modifies h0 h q (Zlen done_) ->
  is_Some (mload h (ptr_add q (Zlen done_)) 1) ->
  (forall h', mload h' q (Zlen (done_ ++ [x])) = Some (done_ ++ [x]) ->
     modifies h0 h' q (Zlen (done_ ++ [x])) -> Q tt h') ->
  wp (store (ptr_add q (Zlen done_)) [x]) Q h.
Proof.
  intros Hl Hm Hv HQ. apply wp_store; [done|]. intros h' Hl' Hm'.
  destruct (mload_two h0 h h' q done_ [x]) as [? ?]; auto.
Qed.

(** What one round writes. *)
Definition group_bytes (marker a b c : Z) : list byte :=
  if marker =? 2 then [a] else if marker =? 1 then [a; b] else [a; b; c].

Lemma wp_decode_round fuel g r marker a b c q h (Q : option ptr -> heap -> Prop) :
  is_byte a -> is_byte b -> is_byte c ->
  (marker = 0 /\ g = enc4 a b c) \/ (marker = 1 /\ c = 0 /\ g = take 3 (enc4 a b 0) ++ [EQUALS])
  \/ (marker = 2 /\ b = 0 /\ c = 0 /\ g = take 2 (enc4 a 0 0) ++ [EQUALS; EQUALS]) ->
  is_Some (mload h q (Zlen (group_bytes marker a b c))) ->
  (forall h', let out := group_bytes marker a b c in mload h' q (Zlen out) = Some out -> modifies h h' q (Zlen out) ->
     wp (decode_loop fuel r (ptr_add q (Zlen out))) Q h') ->
  wp (decode_loop (S fuel) (g ++ r) q) Q h.
Proof.
  intros Ba Bb Bc Hg Hv HQ. destruct (token_decode_group a b c r g marker Ba Bb Bc Hg) as (Et & Ed & x & t & Ex & Hx).
  assert (0 <= marker < 3) as Hm by (destruct Hg as [(-> & _)|[(-> & _)|(-> & _)]]; lia). clear Hg.
  rewrite Ex in *. cbn [decode_loop]. rewrite Hx, Et, Ed. clear Ex Et Ed Hx.
  destruct (token_bytes marker a b c Ba Bb Bc Hm) as (E3 & E2 & E1 & E0 & En). cbv zeta in *.
  rewrite E3, E2, E1, E0, En. clear E3 E2 E1 E0 En.
  assert (mload h q (Zlen (@nil byte)) = Some []) as H0.
  { destruct Hv as [l Hl]. change (Zlen (@nil byte)) with 0. rewrite <- (ptr_add_0 q).
    pose proof (Zlen_nonneg (group_bytes marker a b c)). by rewrite (mload_sub _ _ _ _ 0 0 Hl), slice_nil by lia. }
  assert (forall done_ h1, mload h1 q (Zlen done_) = Some done_ -> modifies h h1 q (Zlen done_) ->
    Zlen done_ < Zlen (group_bytes marker a b c) -> is_Some (mload h1 (ptr_add q (Zlen done_)) 1)) as Hvi.
  { intros done_ h1 _ Hm1 Hlt. pose proof (Zlen_nonneg done_). eapply modifies_valid; [exact Hm1|].
    eapply mload_sub_valid; [exact Hv|lia..]. }
  pose proof (modifies_refl h q (Zlen (@nil byte))) as R0.
  replace q with (ptr_add q (Zlen (@nil byte))) at 1 by apply ptr_add_0.
  wp_steps. eapply wp_store_more; [exact H0|exact R0| |].
  { apply Hvi; [done..|]. unfold group_bytes. by repeat case_match. }
  clear H0 R0. cbn [app]. intros h1 H1 R1. wp_steps. unfold group_bytes in *.
  assert (marker = 0 \/ marker = 1 \/ marker = 2) as [-> | [-> | ->]] by lia; cbn [Z.eqb Pos.eqb Z.ltb Z.compare Pos.compare Pos.compare_cont] in *.
  3: { wp_steps. by apply HQ. }
  all: wp_steps; eapply (wp_store_more q [a] b _ h); [done|done|by apply Hvi|]; cbn [app]; intros h2 H2 R2; wp_steps;
    rewrite ptr_add_add; change (1 + 1) with 2.
  2: { by apply HQ. }
  eapply (wp_store_more q [a; b] c _ h); [done|done|by apply Hvi|]; cbn [app]; intros h3 H3 R3; wp_steps;
    rewrite ptr_add_add; change (2 + 1) with 3. by apply HQ.
Qed.

Lemma wp_decode_loop bs : Forall is_byte bs -> forall fuel h q,
  is_Some (mload h q (Zlen bs)) -> (length bs <= fuel)%nat ->
  wp (decode_loop fuel (b64 bs) q) (fun r h' => r = Some (ptr_add q (Zlen bs)) /\
    mload h' q (Zlen bs) = Some bs /\ modifies h h' q (Zlen bs)) h.
Proof.
  induction bs as [|a|a b|a b c r IH] using b64_ind; intros Hby fuel h q Hv Hf;
    rewrite ?list.Forall_cons in Hby; destruct fuel as [|fuel]; cbn [length] in Hf; try lia.
  1, 2: cbn [b64 decode_loop]; wp_steps; rewrite ptr_add_0; split; [done|]; split; [|apply modifies_refl];
    destruct Hv as [x Hx]; pose proof (mload_Zlen _ _ _ _ Hx); destruct x; [done|];
    rewrite Zlen_cons in *; pose proof (Zlen_nonneg x); rewrite Zlen_nil in *; lia.
  - cbn [b64]. rewrite <- (app_nil_r (_ ++ _)). destruct Hby as [Ba _]. destruct fuel.
    all: apply (wp_decode_round _ _ [] 2 a 0 0); [done|done|done|tauto|done|]; intros h' out Hl Hm; cbn [decode_loop]; wp_steps; done.
  - cbn [b64]. rewrite <- (app_nil_r (_ ++ _)). destruct Hby as (Ba & Bb & _). destruct fuel.
    all: apply (wp_decode_round _ _ [] 1 a b 0); [done|done|done|tauto|done|]; intros h' out Hl Hm; cbn [decode_loop]; wp_steps; done.
  - cbn [b64]. destruct Hby as (Ba & Bb & Bc & Hr). pose proof (Zlen_nonneg r). rewrite !Zlen_cons in Hv.
    apply (wp_decode_round _ _ _ 0 a b c); [done|done|done|tauto|..].
    { change (Zlen (group_bytes 0 a b c)) with 3. rewrite <- (ptr_add_0 q). eapply mload_sub_valid; [exact Hv|lia..]. }
    intros h1 out Hl Hm. change out with ([a; b; c]) in *. clear out.
    assert (is_Some (mload h1 (ptr_add q (Zlen [a; b; c])) (Zlen r))) as Hv1.
    { change (Zlen [a; b; c]) with 3 in *. eapply modifies_valid; [exact Hm|]. eapply mload_sub_valid; [exact Hv|lia..]. }
    eapply wp_mono; [apply (IH Hr fuel h1 _ Hv1); lia|]. intros q' h2 (-> & Hl2 & Hm2).
    change (a :: b :: c :: r) with ([a; b; c] ++ r). rewrite ptr_add_add, <- Zlen_app. split; [done|]. by eapply mload_two.
Qed.

(** ** The round trip *)

Lemma b64_chars bs : Forall is_byte bs -> Forall (fun c => c <> 0) (b64 bs).
Proof.
  assert (forall a b c, is_byte a -> is_byte b -> is_byte c -> Forall (fun x => x <> 0) (enc4 a b c)) as H4.
  { unfold is_byte. intros a b c Ba Bb Bc. destruct (sextets (a * 65536 + b * 256 + c)) as (S0 & S1 & S2 & S3 & _); [lia|].
    unfold enc4. rewrite !list.Forall_cons. split_and!; try apply ch_facts; auto. }
  assert (is_byte 0) as B0 by (unfold is_byte; lia).
  induction bs as [|a|a b|a b c r IH] using b64_ind; rewrite ?list.Forall_cons; intros Hby; cbn [b64].
  - done.
  - apply Forall_app; split; [apply Forall_take, H4; tauto|by repeat constructor].
  - apply Forall_app; split; [apply Forall_take, H4; tauto|by repeat constructor].
  - apply Forall_app; split; [apply H4; tauto|apply IH; tauto].
Qed.

Lemma wp_base64_encode fill h data bs :
  mload h data (Zlen bs) = Some bs -> Forall is_byte bs -> Zlen bs < 536870912 ->
  wp (base64_encode fill data (Zlen bs)) (fun '(s, len) h' =>
    len = Zlen (b64 bs) /\ fresh_ext h h' s /\
    mload h' s (Zlen (b64 bs)) = Some (b64 bs) /\ mload h' (ptr_add s (Zlen (b64 bs))) 1 = Some [0]) h.
Proof.
  intros H Hby Hmax. unfold base64_encode. pose proof (Zlen_nonneg bs) as Hn. wrap_simp. wp_steps. apply wp_alloc.
  assert (Zlen (b64 bs) + 1 <= Z.quot (Zlen bs * 4) 3 + 4) as Hroom.
  { rewrite Zlen_b64. Z.to_euclidean_division_equations. lia. }
  pose proof (Zlen_nonneg (b64 bs)) as Hb. rewrite Zlen_indeterminate by lia. intros s h1 Hl1 Hf1. wp_steps.
  destruct (proj2 (proj2 Hf1) _ _ _ H) as [Hd1 Hne]. assert (is_Some (mload h1 s (Z.quot (Zlen bs * 4) 3 + 4))) as Hv1 by eauto.
  assert (is_Some (mload h1 s (Zlen (b64 bs)))) as Hv by (rewrite <- (ptr_add_0 s); eapply mload_sub_valid; [exact Hv1|lia..]).
  eapply wp_mono; [apply (wp_encode_loop _ h1 data bs 0 s); try done; try lia; try congruence; unfold Zlen; lia|].
  change (drop (Z.to_nat 0) bs) with bs. intros p h2 (-> & Hl2 & Hm2). wp_steps. apply wp_store.
  { change (Zlen [0]) with 1. eapply modifies_valid; [exact Hm2|]. eapply mload_sub_valid; [exact Hv1|lia..]. }
  intros h3 Hl3 Hm3. wp_steps.
  assert (mload h3 s (Zlen (b64 bs)) = Some (b64 bs)) as Hs.
  { rewrite (mod_frame _ _ _ _ Hm3); [done|lia|]. right. left. cbn. lia. }
  eapply wp_mono; [apply (wp_read_cstr h3 s (b64 bs)); [done|done|by apply b64_chars]|]. intros x h4 (-> & ->). wp_steps.
  split; [done|]. split; [|done]. eapply fresh_ext_modifies; [|exact Hm3|done].
  by eapply fresh_ext_modifies; [|exact Hm2|].
Qed.

(** Base64_encode writes, inside the block it allocates and with its terminating NUL, the
    base64 string of the bytes (four characters per three bytes, padded with =), and
    base64_decode of that string into any buffer of at least the data's size writes the
    bytes back and returns their number: neither runs out of its buffer. *)
Theorem base64_roundtrip fill h data bs dst :
  mload h data (Zlen bs) = Some bs -> Forall is_byte bs -> Zlen bs < 536870912 -> is_Some (mload h dst (Zlen bs)) ->
  wp ('(s, len) ← base64_encode fill data (Zlen bs); str ← read_cstr s; n ← base64_decode str dst; mret (str, len, n))
     (fun '(str, len, n) h' => str = b64 bs /\ len = 4 * ((Zlen bs + 2) / 3) /\ n = Zlen bs /\
        mload h' dst (Zlen bs) = Some bs) h.
Proof.
  intros H Hby Hmax Hv. wp_steps. eapply wp_mono; [by apply wp_base64_encode|].
  intros [s len] h1 (-> & Hf & Hl & H0). wp_steps.
  eapply wp_mono; [apply (wp_read_cstr h1 s (b64 bs)); auto using b64_chars|]. intros str h2 (-> & ->). wp_steps.
  assert (is_Some (mload h1 dst (Zlen bs))) as Hv1 by (destruct Hv as [x Hx]; exists x; by apply Hf).
  unfold base64_decode. wp_steps. eapply wp_mono; [apply wp_decode_loop; try done|].
  { pose proof (Zlen_b64 bs). pose proof (Zlen_nonneg bs). unfold Zlen in *. Z.to_euclidean_division_equations. lia. }
  intros q h2 (-> & Hl2 & Hm2). wp_steps. rewrite Zlen_b64. split_and!; [done..| |done]. cbn. lia.
Qed.

Lemma base64_roundtrip_witness :
  wp ('(s, len) ← base64_encode (fun _ => 7) (Ptr 1 2) 4; str ← read_cstr s; n ← base64_decode str (Ptr 1 0); mret (str, len, n))
     (fun '(str, len, n) h' => str = [47; 119; 65; 81; 71; 119; 61; 61] /\ len = 8 /\ n = 4 /\
        mload h' (Ptr 1 0) 4 = Some [255; 0; 16; 27]) {[1%positive := [0; 0; 255; 0; 16; 27]]}.
Proof.
  apply (base64_roundtrip (fun _ => 7) {[1%positive := [0; 0; 255; 0; 16; 27]]} (Ptr 1 2) [255; 0; 16; 27] (Ptr 1 0)).
  - by vm_compute.
  - repeat constructor; by unfold is_byte.
  - by vm_compute.
  - eexists. by vm_compute.
Defined.
