(* ===== verification/Key.v ===== *)
(** Keys (src/crypto.c): key types, validity checks, random keys, the static key file and its
    directions, the keys of --tls-auth and of --key-method 1; the static key part of
    do_init_crypto_static (src/init.c).

    OpenSSL is a parameter: a cipher or digest is what its EVP functions give; RAND_bytes
    takes its bytes from a stream that is threaded, and a failing call, like every fatal
    message, ends the process. *)

From S2P Require Import Prelude Buffer Integer PacketId Mtu Crypto Text.

Definition MAX_CIPHER_KEY_LENGTH : Z := 64.
Definition MAX_HMAC_KEY_LENGTH : Z := 64.

(** ec_set_key_length: the key length of the context afterwards, if the call succeeds;
    ec_init: the context for a key and a direction. *)
Record evp_cipher := EvpCipher {
  ec_name : option (list byte);
  ec_key_length : Z;
  ec_mode : cipher_mode;
  ec_iv_length : Z;
  ec_block_size : Z;
  ec_set_key_length : Z -> option Z;
  ec_init : list byte -> bool -> option cipher_ctx
}.
Record evp_md := EvpMd { md_size : Z; md_hmac : list byte -> list byte -> list byte; md_digest : list byte -> list byte }.

Class OpenSSL := {
  DES_is_weak_key : list byte -> bool;
  DES_check_key_parity : list byte -> bool;
  DES_set_odd_parity : list byte -> list byte;
  EVP_get_cipherbyname : list byte -> option evp_cipher;
  EVP_get_digestbyname : list byte -> option evp_md;
  cipher_ok : option (list byte) -> bool;
  EVP_md5 : evp_md;
  EVP_sha1 : evp_md
}.

Record key_type := KeyType {
  cipher_length : Z;
  hmac_length : Z;
  kt_cipher : option evp_cipher;
  kt_digest : option evp_md
}.
(** struct key *)
Record key_data := Key { key_cipher : list byte; key_hmac : list byte }.
Record key2 := Key2 { k2_n : Z; k2_keys : list key_data }.

Definition clear_key : key_data :=
  Key (replicate (Z.to_nat MAX_CIPHER_KEY_LENGTH) 0) (replicate (Z.to_nat MAX_HMAC_KEY_LENGTH) 0).
Definition clear_key2 : key2 := Key2 0 [clear_key; clear_key].

(** The first n bytes of an array; reading beyond its end is a fault. *)
Definition arr_read (l : list byte) (n : Z) : result (list byte) :=
  if n <=? Zlen l then Ok (take (Z.to_nat n) l) else Fault.
Definition arr_write (l bs : list byte) : result (list byte) :=
  if Zlen bs <=? Zlen l then Ok (splice 0 bs l) else Fault.

Definition RAND_bytes (n : Z) (rand : list byte) : result (list byte * list byte) :=
  if n <=? Zlen rand then Ok (take (Z.to_nat n) rand, drop (Z.to_nat n) rand) else AssertFail.

Section Keys.
Context `{OpenSSL}.

(** ** Key types *)

Definition get_cipher (ciphername : list byte) : result evp_cipher :=
  match EVP_get_cipherbyname ciphername with
  | Some c =>
      if negb (cipher_ok (ec_name c)) then AssertFail
      else if ec_key_length c >? MAX_CIPHER_KEY_LENGTH then AssertFail
      else Ok c
  | None => AssertFail
  end.

Definition get_md (digest : list byte) : result evp_md :=
  match EVP_get_digestbyname digest with
  | Some md => if md_size md >? MAX_HMAC_KEY_LENGTH then AssertFail else Ok md
  | None => AssertFail
  end.

Definition init_key_type (ciphername : option (list byte)) (ciphername_defined : bool) (authname : option (list byte))
    (authname_defined : bool) (keysize : Z) (cfb_ofb_allowed : bool) : result key_type :=
  '(c, cl) ← (match ciphername with
              | Some name =>
                  if ciphername_defined then
                    c ← get_cipher name;
                    let cl := if (keysize >? 0) && (keysize <=? MAX_CIPHER_KEY_LENGTH) then u8 keysize else u8 (ec_key_length c) in
                    match ec_mode c with
                    | EVP_CIPH_CBC_MODE => Ok (Some c, cl)
                    | EVP_CIPH_CFB_MODE | EVP_CIPH_OFB_MODE => if cfb_ofb_allowed then Ok (Some c, cl) else AssertFail
                    | other_mode => AssertFail
                    end
                  else Ok (None, 0)
              | None => Ok (None, 0)
              end);
  '(d, hl) ← (match authname with
              | Some name => if authname_defined then d ← get_md name; Ok (Some d, u8 (md_size d)) else Ok (None, 0)
              | None => Ok (None, 0)
              end);
  Ok (KeyType cl hl c d).

Definition cfb_ofb_mode (kt : key_type) : bool :=
  match kt_cipher kt with
  | Some c => match ec_mode c with EVP_CIPH_CFB_MODE | EVP_CIPH_OFB_MODE => true | _ => false end
  | None => false
  end.

Definition check_replay_iv_consistency (kt : key_type) (packet_id use_iv : bool) : result unit :=
  if cfb_ofb_mode kt && negb (packet_id && use_iv) then AssertFail else Ok tt.

Definition kt_key_size (kt : key_type) : Z :=
  if negb (cipher_length kt =? 0) then cipher_length kt * 8
  else match kt_cipher kt with Some c => ec_key_length c * 8 | None => 0 end.

(** ** Key contexts *)

Definition init_cipher (c : evp_cipher) (key : key_data) (kt : key_type) (enc : bool) : result cipher_ctx :=
  n ← assert_some (ec_set_key_length c (cipher_length kt));
  k ← arr_read (key_cipher key) n;
  ctx ← assert_some (ec_init c k enc);
  _ ← assert_ (n <=? cipher_length kt);
  Ok ctx.

Definition init_hmac (digest : evp_md) (key : key_data) (kt : key_type) : result hmac_ctx :=
  k ← arr_read (key_hmac key) (hmac_length kt);
  _ ← assert_ (md_size digest <=? hmac_length kt);
  Ok (Hmac (md_size digest) (md_hmac digest k)).

Definition init_key_ctx (key : key_data) (kt : key_type) (enc : bool) : result key_ctx :=
  c ← (match kt_cipher kt with
       | Some c => if cipher_length kt >? 0 then c ← init_cipher c key kt enc; Ok (Some c) else Ok None
       | None => Ok None
       end);
  d ← (match kt_digest kt with
       | Some d => if hmac_length kt >? 0 then d ← init_hmac d key kt; Ok (Some d) else Ok None
       | None => Ok None
       end);
  Ok (KeyCtx c d).

Definition crypto_adjust_frame_parameters (f : frame) (kt : key_type) (cipher_defined use_iv packet_id long_form : bool)
  : result frame :=
  iv ← (if cipher_defined && use_iv then c ← from_opt (kt_cipher kt); Ok (ec_iv_length c) else Ok 0);
  block ← (if cipher_defined then c ← from_opt (kt_cipher kt); Ok (ec_block_size c) else Ok 0);
  Ok (frame_add_to_extra_frame f ((if packet_id then packet_id_size long_form else 0) + iv + block + hmac_length kt)).

(** ** DES keys and other checks *)

(** OBJ_nid2sn (EVP_CIPHER_nid (kt->cipher)) compared with strncmp. *)
Definition n_DES_cblocks (c : evp_cipher) : Z :=
  match ec_name c with
  | Some name =>
      if bool_decide (take 4 name = text "DES-") then Z.quot (ec_key_length c) 8
      else if bool_decide (take 5 name = text "DESX-") then 1
      else 0
  | None => 0
  end.

(** [b]: the bytes of the buffer that are left. *)
Fixpoint check_blocks (ndc : nat) (b : list byte) : bool :=
  match ndc with
  | O => true
  | S ndc =>
      if Zlen b <? 8 then false
      else
        let dc := take 8 b in
        if DES_is_weak_key dc then false
        else if negb (DES_check_key_parity dc) then false
        else check_blocks ndc (drop 8 b)
  end.
Definition check_key_DES (key : key_data) (kt : key_type) (ndc : Z) : result bool :=
  b ← arr_read (key_cipher key) (cipher_length kt);
  Ok (check_blocks (Z.to_nat ndc) b).

Fixpoint fixup_blocks (ndc : nat) (b : list byte) : list byte :=
  match ndc with
  | O => b
  | S ndc => if Zlen b <? 8 then b else DES_set_odd_parity (take 8 b) ++ fixup_blocks ndc (drop 8 b)
  end.
Definition fixup_key_DES (key : key_data) (kt : key_type) (ndc : Z) : result key_data :=
  b ← arr_read (key_cipher key) (cipher_length kt);
  c ← arr_write (key_cipher key) (fixup_blocks (Z.to_nat ndc) b);
  Ok (Key c (key_hmac key)).

Definition key_is_zero (key : key_data) (kt : key_type) : result bool :=
  b ← arr_read (key_cipher key) (cipher_length kt);
  Ok (forallb (fun x => x =? 0) b).

Definition check_key (key : key_data) (kt : key_type) : result bool :=
  match kt_cipher kt with
  | Some c =>
      z ← key_is_zero key kt;
      if z : bool then Ok false
      else
        let ndc := n_DES_cblocks c in
        if negb (ndc =? 0) then check_key_DES key kt ndc else Ok true
  | None => Ok true
  end.

Definition fixup_key (key : key_data) (kt : key_type) : result key_data :=
  match kt_cipher kt with
  | Some c =>
      let ndc := n_DES_cblocks c in
      if negb (ndc =? 0) then fixup_key_DES key kt ndc else Ok key
  | None => Ok key
  end.

(** ** Random keys *)

(** Each round takes at least one random byte. *)
Fixpoint generate_loop (fuel : nat) (kt : option key_type) (cipher_len hmac_len : Z) (rand : list byte)
  : result (key_data * list byte) :=
  match fuel with
  | O => Fault
  | S fuel =>
      let cipher_len := match kt with
        | Some kt => match kt_cipher kt with
                     | Some _ => if (cipher_length kt >? 0) && (cipher_length kt <=? cipher_len) then cipher_length kt else cipher_len
                     | None => cipher_len end
        | None => cipher_len end in
      let hmac_len := match kt with
        | Some kt => match kt_digest kt with
                     | Some _ => if (hmac_length kt >? 0) && (hmac_length kt <=? hmac_len) then hmac_length kt else hmac_len
                     | None => hmac_len end
        | None => hmac_len end in
      '(c, rand) ← RAND_bytes cipher_len rand;
      '(m, rand) ← RAND_bytes hmac_len rand;
      let key := Key (splice 0 c (key_cipher clear_key)) (splice 0 m (key_hmac clear_key)) in
      match kt with
      | Some kt' =>
          key ← fixup_key key kt';
          ok ← check_key key kt';
          if ok : bool then Ok (key, rand) else generate_loop fuel kt cipher_len hmac_len rand
      | None => Ok (key, rand)
      end
  end.
Definition generate_key_random (kt : option key_type) (rand : list byte) : result (key_data * list byte) :=
  generate_loop (S (length rand)) kt MAX_CIPHER_KEY_LENGTH MAX_HMAC_KEY_LENGTH rand.

(** ** Key directions *)

Definition KEY_DIRECTION_BIDIRECTIONAL : Z := 0.
Definition KEY_DIRECTION_NORMAL : Z := 1.
Definition KEY_DIRECTION_INVERSE : Z := 2.

Record key_direction_state := Kds { out_key : Z; in_key : Z; need_keys : Z }.

Definition key_direction_state_init (key_direction : Z) : result key_direction_state :=
  if key_direction =? KEY_DIRECTION_NORMAL then Ok (Kds 0 1 2)
  else if key_direction =? KEY_DIRECTION_INVERSE then Ok (Kds 1 0 2)
  else if key_direction =? KEY_DIRECTION_BIDIRECTIONAL then Ok (Kds 0 0 1)
  else AssertFail.

(** -1 with a message at [msglevel], which ends the process if that is fatal. *)
Definition ascii2keydirection (fatal : bool) (str : option (list byte)) : result Z :=
  match str with
  | None => Ok KEY_DIRECTION_BIDIRECTIONAL
  | Some s =>
      if bool_decide (s = text "0") then Ok KEY_DIRECTION_NORMAL
      else if bool_decide (s = text "1") then Ok KEY_DIRECTION_INVERSE
      else if fatal then AssertFail else Ok (-1)
  end.

Definition keydirection2ascii (kd : Z) (remote : bool) : result (option (list byte)) :=
  if kd =? KEY_DIRECTION_BIDIRECTIONAL then Ok None
  else if kd =? KEY_DIRECTION_NORMAL then Ok (Some (text (if remote then "1" else "0")))
  else if kd =? KEY_DIRECTION_INVERSE then Ok (Some (text (if remote then "0" else "1")))
  else AssertFail.

Definition must_have_n_keys (k : key2) (n : Z) : result unit := if k2_n k <? n then AssertFail else Ok tt.

Definition key_at (k : key2) (i : Z) : result key_data := aget (k2_keys k) i.

(** verify_fix_key2: the keys below key2->n, from key [i]. *)
Fixpoint verify_fix_loop (keys : list key_data) (i n : Z) (kt : key_type) : result (list key_data) :=
  match keys with
  | [] => Ok []
  | key :: keys =>
      if i <? n then
        key ← fixup_key key kt;
        ok ← check_key key kt;
        if negb ok then AssertFail else
        keys ← verify_fix_loop keys (i + 1) n kt;
        Ok (key :: keys)
      else Ok (key :: keys)
  end.
Definition verify_fix_key2 (k : key2) (kt : key_type) : result key2 :=
  keys ← verify_fix_loop (k2_keys k) 0 (k2_n k) kt;
  Ok (Key2 (k2_n k) keys).

(** ** The static key file *)

Definition static_key_head : list byte := text "-----BEGIN OpenVPN Static key V1-----".
Definition static_key_foot : list byte := text "-----END OpenVPN Static key V1-----".

Definition PARSE_INITIAL : Z := 0.
Definition PARSE_HEAD : Z := 1.
Definition PARSE_DATA : Z := 2.
Definition PARSE_DATA_COMPLETE : Z := 3.
Definition PARSE_FOOT : Z := 4.
Definition PARSE_FINISHED : Z := 5.

Definition ONEKEYLEN : Z := MAX_CIPHER_KEY_LENGTH + MAX_HMAC_KEY_LENGTH.
Definition KEYLEN : Z := 2 * ONEKEYLEN.

(** The local variables of read_key_file; [p_out]: the bytes written to key2->keys, count
    many.  line_num, for messages only, is left out. *)
Record key_parse := Parse {
  hb_index : Z;
  hex_byte : list byte;
  line_index : Z;
  p_match : Z;
  p_state : Z;
  p_out : list byte
}.
Definition key_parse_init : key_parse := Parse 0 [0; 0; 0] 0 0 PARSE_INITIAL [].

Definition hex_value (c : byte) : Z := if isdigit c then c - 48 else if within 65 70 c then c - 55 else c - 87.

(** sscanf (s, "%x", &u) *)
Fixpoint scan_digits (s : list byte) (u : Z) : Z :=
  match s with
  | c :: s => if isxdigit c then scan_digits s (u32 (u * 16 + hex_value c)) else u
  | [] => u
  end.
Definition scan_hex (s : list byte) : option Z :=
  match s with
  | c :: _ => if isxdigit c then Some (scan_digits s 0) else None
  | [] => None
  end.

(** A character of key data. *)
Definition read_data (p : key_parse) (c : byte) : result key_parse :=
  if isxdigit c then
    _ ← assert_ ((hb_index p >=? 0) && (hb_index p <? 2));
    hb ← aset (hex_byte p) (hb_index p) c;
    let i := hb_index p + 1 in
    if i =? 2 then
      u ← assert_some (scan_hex hb);
      if Zlen (p_out p) <? KEYLEN then
        let out := p_out p ++ [u8 u] in
        Ok (Parse 0 hb (line_index p) (p_match p) (if Zlen out =? KEYLEN then PARSE_DATA_COMPLETE else p_state p) out)
      else Fault
    else Ok (Parse i hb (line_index p) (p_match p) (p_state p) (p_out p))
  else if isspace c then Ok p
  else AssertFail.

(** The comparison with the header or footer line. *)
Definition match_line (line : list byte) (p : key_parse) (c : byte) (reached : Z) : key_parse :=
  if (line_index p <? Zlen line) && (c =? nth (Z.to_nat (line_index p)) line 0) then
    let m := p_match p + 1 in
    Parse (hb_index p) (hex_byte p) (line_index p) m (if m =? Zlen line then reached else p_state p) (p_out p)
  else p.

Definition set_line (p : key_parse) (li m st : Z) : key_parse := Parse (hb_index p) (hex_byte p) li m st (p_out p).

Definition read_char (p : key_parse) (c : byte) : result key_parse :=
  if c =? 10 then Ok (set_line p 0 0 (p_state p))
  else
    let st := p_state p in
    let st := if line_index p =? 0 then
                let st := if st =? PARSE_HEAD then PARSE_DATA else st in
                if ((st =? PARSE_DATA) || (st =? PARSE_DATA_COMPLETE)) && (c =? 45) then PARSE_FOOT else st
              else st in
    let p := set_line p (line_index p) (p_match p) st in
    let p := if p_state p =? PARSE_INITIAL then match_line static_key_head p c PARSE_HEAD else p in
    let p := if p_state p =? PARSE_FOOT then match_line static_key_foot p c PARSE_FINISHED else p in
    p ← (if p_state p =? PARSE_DATA then read_data p c else Ok p);
    Ok (set_line p (line_index p + 1) (p_match p) (p_state p)).

Fixpoint read_chars (p : key_parse) (l : list byte) : result key_parse :=
  match l with
  | [] => Ok p
  | c :: l => p ← read_char p c; read_chars p l
  end.

(** [rds]: the results of the calls of read.  A read error is -1, after which the inner loop
    runs over the end of the buffer. *)
Fixpoint read_key_loop (p : key_parse) (rds : list (option (list byte))) : result key_parse :=
  match rds with
  | [] | Some [] :: _ => Ok p
  | Some l :: rds => p ← read_chars p l; read_key_loop p rds
  | None :: _ => Fault
  end.

(** The keys in an array of KEYLEN bytes. *)
Definition split_keys (l : list byte) : list key_data :=
  [Key (slice 0 64 l) (slice 64 64 l); Key (slice 128 64 l) (slice 192 64 l)].

Definition read_key_file (rds : option (list (option (list byte)))) (must_succeed : bool) : result key2 :=
  rds ← assert_some rds;
  p ← read_key_loop key_parse_init rds;
  let n := Z.quot (Zlen (p_out p)) ONEKEYLEN in
  _ ← assert_ ((n >=? 0) && (n <=? 2));
  _ ← assert_ (negb (must_succeed && (n =? 0)));
  _ ← assert_ (negb (must_succeed && negb (p_state p =? PARSE_FINISHED)));
  Ok (Key2 n (split_keys (p_out p ++ replicate (Z.to_nat (KEYLEN - Zlen (p_out p))) 0))).

(** "%d" of a number that is not negative. *)
Fixpoint decimal_digits (fuel : nat) (n : Z) (acc : list byte) : list byte :=
  match fuel with
  | O => acc
  | S fuel => let acc := 48 + n mod 10 :: acc in if n / 10 =? 0 then acc else decimal_digits fuel (n / 10) acc
  end.
Definition decimal (n : Z) : list byte := decimal_digits 10 n [].

Fixpoint write_keys (fill : Z -> Z) (nkeys : nat) (rand : list byte) (out : buffer) (nbits : Z)
  : M (buffer * Z * list byte) :=
  match nkeys with
  | O => mret (out, nbits, rand)
  | S nkeys =>
      '(key, rand) ← lift (generate_key_random None rand);
      fmt ← format_hex_ex fill (key_cipher key ++ key_hmac key) 0 16 (Some [10]);
      let nbits := i32 (nbits + ONEKEYLEN * 8) in
      s ← read_cstr fmt;
      out ← buf_printf out (s ++ [10]);
      s ← read_cstr fmt;
      _ ← store fmt (replicate (length s) 0);
      write_keys fill nkeys rand out nbits
  end.

(** The bits written, the new file's contents and the rest of the random bytes. *)
Definition write_key_file (fill : Z -> Z) (writable : bool) (nkeys : nat) (rand : list byte)
  : M (Z * list byte * list byte) :=
  out ← alloc_buf fill 2048;
  nbits_head_text ← alloc_buf fill 128;
  _ ← ASSERT writable;
  out ← buf_printf out (static_key_head ++ [10]);
  '(out, nbits, rand) ← write_keys fill nkeys rand out 0;
  out ← buf_printf out (static_key_foot ++ [10]);
  nbits_head_text ← buf_printf nbits_head_text (text "#" ++ [10] ++ text "# " ++ decimal nbits ++ text " bit OpenVPN static key" ++ [10] ++ text "#" ++ [10]);
  p ← deref (BPTR nbits_head_text);
  head ← read_cstr p;
  p ← deref (BPTR out);
  body ← read_cstr p;
  _ ← buf_clear out;
  mret (nbits, head ++ body, rand).

(** The loop of read_passphrase_hash: what the digest is given. *)
Fixpoint read_passphrase (rds : list (option (list byte))) : result (list byte) :=
  match rds with
  | [] | Some [] :: _ => Ok []
  | Some l :: rds => r ← read_passphrase rds; Ok (l ++ r)
  | None :: _ => AssertFail
  end.
Definition read_passphrase_hash (rds : option (list (option (list byte)))) (digest : evp_md) (len : Z) : result (list byte) :=
  _ ← assert_ (len >=? md_size digest);
  rds ← assert_some rds;
  content ← read_passphrase rds;
  _ ← assert_ (Zlen content >=? 8);
  Ok (md_digest digest content).

(** ** Both ends of a key *)

(** The keys of both directions: [key2] as the key direction says. *)
Definition init_key_pair (k : key2) (kt : key_type) (key_direction : Z) : result key_ctx_bi :=
  kds ← key_direction_state_init key_direction;
  _ ← must_have_n_keys k (need_keys kds);
  ko ← key_at k (out_key kds);
  e ← init_key_ctx ko kt true;
  ki ← key_at k (in_key kds);
  d ← init_key_ctx ki kt false;
  Ok (KeyCtxBi e d).

(** The control channel is only authenticated. *)
Definition get_tls_handshake_key (kt : key_type) (passphrase_file : option (option (list (option (list byte)))))
    (key_direction : Z) : result key_ctx_bi :=
  match passphrase_file with
  | Some rds =>
      if negb (hmac_length kt =? 0) then
        let kt := KeyType 0 (hmac_length kt) None (kt_digest kt) in
        k ← read_key_file rds false;
        k ← (if k2_n k =? 2 then Ok k
             else
               digest ← from_opt (kt_digest kt);
               hash ← read_passphrase_hash rds digest MAX_HMAC_KEY_LENGTH;
               _ ← assert_ (Zlen hash =? hmac_length kt);
               hm ← arr_write (key_hmac clear_key) hash;
               Ok (Key2 1 [Key (key_cipher clear_key) hm; clear_key]));
        init_key_pair k kt key_direction
      else Ok (KeyCtxBi (KeyCtx None None) (KeyCtx None None))
  | None => Ok (KeyCtxBi (KeyCtx None None) (KeyCtx None None))
  end.

(** The static key of do_init_crypto_static (src/init.c), for a key type that is made. *)
Definition init_static_key (kt : key_type) (rds : option (list (option (list byte)))) (key_direction : Z)
  : result key_ctx_bi :=
  k ← read_key_file rds true;
  k ← verify_fix_key2 k kt;
  init_key_pair k kt key_direction.

(** ** The keys of --key-method 1 on the control channel *)

Definition write_key (key : key_data) (kt : key_type) (buf : buffer) : M (bool * buffer) :=
  _ ← ASSERT ((cipher_length kt <=? MAX_CIPHER_KEY_LENGTH) && (hmac_length kt <=? MAX_HMAC_KEY_LENGTH));
  '(ok, buf) ← buf_write buf [cipher_length kt];
  if negb ok then mret (false, buf) else
  '(ok, buf) ← buf_write buf [hmac_length kt];
  if negb ok then mret (false, buf) else
  c ← lift (arr_read (key_cipher key) (cipher_length kt));
  '(ok, buf) ← buf_write buf c;
  if negb ok then mret (false, buf) else
  m ← lift (arr_read (key_hmac key) (hmac_length kt));
  buf_write buf m.

(** buf_read into an array. *)
Definition read_array (dst : list byte) (buf : buffer) (n : Z) : M (option (list byte) * buffer) :=
  '(bs, buf) ← buf_read buf n;
  match bs with
  | Some bs => a ← lift (arr_write dst bs); mret (Some a, buf)
  | None => mret (None, buf)
  end.

Definition read_key (kt : key_type) (buf : buffer) : M (Z * key_data * buffer) :=
  '(cl, buf) ← read_array [0] buf 1;
  match cl with
  | None => mret (-1, clear_key, buf)
  | Some cl =>
      '(hl, buf) ← read_array [0] buf 1;
      match hl with
      | None => mret (-1, clear_key, buf)
      | Some hl =>
          '(c, buf) ← read_array (key_cipher clear_key) buf (be_dec cl);
          match c with
          | None => mret (-1, clear_key, buf)
          | Some c =>
              '(m, buf) ← read_array (key_hmac clear_key) buf (be_dec hl);
              match m with
              | None => mret (-1, Key c (key_hmac clear_key), buf)
              | Some m =>
                  mret (if negb (be_dec cl =? cipher_length kt) || negb (be_dec hl =? hmac_length kt) then 0 else 1, Key c m, buf)
              end
          end
      end
  end.
End Keys.

(** ** Reading back the key file *)

Definition PARSED (out : list byte) : Z := if Zlen out =? KEYLEN then PARSE_DATA_COMPLETE else PARSE_DATA.

(** Between two bytes of key data. *)
Record in_data (p : key_parse) (out : list byte) : Prop := {
  id_hb : hb_index p = 0;
  id_hex : exists x y, hex_byte p = [x; y; 0];
  id_out : p_out p = out;
  id_line : 0 <= line_index p;
  id_state : (p_state p = PARSE_HEAD /\ line_index p = 0 /\ out = []) \/ p_state p = PARSED out
}.

Lemma read_chars_app p l k : read_chars p (l ++ k) = p' ← read_chars p l; read_chars p' k.
Proof.
  revert p. induction l as [|c l IH]; intros p; [done|]. cbn. destruct (read_char p c) as [p'| |]; [|done..]. apply IH.
Qed.

Lemma hex_digit_facts x : 0 <= x < 16 ->
  isxdigit (hex_digit x) = true /\ hex_value (hex_digit x) = x /\ (hex_digit x =? 10) = false /\ (hex_digit x =? 45) = false.
Proof.
  intros Hx. assert (forallb (fun n => let x := Z.of_nat n in isxdigit (hex_digit x) && (hex_value (hex_digit x) =? x)
    && negb (hex_digit x =? 10) && negb (hex_digit x =? 45)) (seq 0 16) = true) as H by by vm_compute.
  rewrite forallb_forall in H. specialize (H (Z.to_nat x)). rewrite Z2Nat.id in H by lia.
  rewrite !andb_true_iff in H. destruct H as (((? & ?) & ?) & ?); [apply in_seq; lia|]. bool_simp. split_and!; try done.
  - by apply Z.eqb_neq.
  - by apply Z.eqb_neq.
Qed.

(** In the data lines a hexadecimal digit is key data. *)
Lemma read_digit p c out : in_data p out \/ (hb_index p = 1 /\ p_state p = PARSE_DATA /\ 0 < line_index p) ->
  Zlen out < KEYLEN -> isxdigit c = true -> (c =? 10) = false -> (c =? 45) = false ->
  exists q, read_char p c = (r ← read_data q c; Ok (set_line r (line_index r + 1) (p_match r) (p_state r))) /\
    hb_index q = hb_index p /\ hex_byte q = hex_byte p /\ p_out q = p_out p /\ line_index q = line_index p /\
    p_state q = PARSE_DATA.
Proof.
  intros Hp Hlen Hx Hn Hd. unfold read_char. rewrite Hn, Hd, andb_false_r. cbv zeta.
  exists (set_line p (line_index p) (p_match p) PARSE_DATA).
  assert ((if line_index p =? 0 then if p_state p =? PARSE_HEAD then PARSE_DATA else p_state p else p_state p) = PARSE_DATA) as ->.
  { destruct Hp as [[_ _ _ _ [(-> & -> & _)| ->]]|(_ & -> & ?)].
    - done.
    - unfold PARSED. replace (Zlen out =? KEYLEN) with false by lia. by destruct (_ =? 0).
    - by destruct (_ =? 0). }
  unfold set_line. cbn [p_state hb_index hex_byte line_index p_match p_out].
  change (PARSE_DATA =? PARSE_INITIAL) with false. change (PARSE_DATA =? PARSE_FOOT) with false.
  change (PARSE_DATA =? PARSE_DATA) with true. cbv iota. cbn [p_state hb_index hex_byte line_index p_match p_out].
  change (PARSE_DATA =? PARSE_FOOT) with false. change (PARSE_DATA =? PARSE_DATA) with true. cbv iota. done.
Qed.

Lemma read_data_first p c x y : hb_index p = 0 -> hex_byte p = [x; y; 0] -> isxdigit c = true ->
  read_data p c = Ok (Parse 1 [c; y; 0] (line_index p) (p_match p) (p_state p) (p_out p)).
Proof. intros Hi Hh Hc. unfold read_data. by rewrite Hc, Hi, Hh. Qed.

Lemma read_data_second p a b y : 0 <= a < 16 -> 0 <= b < 16 ->
  hb_index p = 1 -> hex_byte p = [hex_digit a; y; 0] -> Zlen (p_out p) < KEYLEN ->
  read_data p (hex_digit b) = Ok (Parse 0 [hex_digit a; hex_digit b; 0] (line_index p) (p_match p)
    (if Zlen (p_out p) + 1 =? KEYLEN then PARSE_DATA_COMPLETE else p_state p) (p_out p ++ [a * 16 + b])).
Proof.
  intros Ha Hb Hi Hh Hlen. destruct (hex_digit_facts a Ha) as (Xa & Va & _). destruct (hex_digit_facts b Hb) as (Xb & Vb & _).
  unfold read_data. rewrite Xb, Hi, Hh. change (assert_ _) with (Ok tt). cbn [mbind result_bind].
  change (aset [hex_digit a; y; 0] 1 (hex_digit b)) with (Ok [hex_digit a; hex_digit b; 0]). cbn [mbind result_bind].
  change (1 + 1 =? 2) with true. cbv iota.
  assert (scan_hex [hex_digit a; hex_digit b; 0] = Some (a * 16 + b)) as ->.
  { unfold scan_hex, scan_digits. rewrite Xa, Va, Xb, Vb. change (isxdigit 0) with false. cbv iota. by wrap_simp. }
  cbn [assert_some mbind result_bind]. replace (Zlen (p_out p) <? KEYLEN) with true by lia. rewrite Zlen_app.
  change (Zlen [u8 (a * 16 + b)]) with 1. by rewrite u8_id by (unfold is_byte; lia).
Qed.

(** Two hexadecimal digits are a byte of the keys. *)
Lemma read_hex2 p out b : in_data p out -> is_byte b -> Zlen out < KEYLEN ->
  exists p', read_chars p (hex2 b) = Ok p' /\ in_data p' (out ++ [b]).
Proof.
  intros Hp Hb Hlen. pose proof Hp as [Hhb (x & y & Hhex) Hout Hli _].
  assert (0 <= b / 16 < 16 /\ 0 <= b mod 16 < 16 /\ b / 16 * 16 + b mod 16 = b) as (Ba & Bb & Eb)
    by (unfold is_byte in Hb; Z.to_euclidean_division_equations; lia).
  destruct (hex_digit_facts _ Ba) as (Xa & _ & Na & Da). destruct (hex_digit_facts _ Bb) as (Xb & _ & Nb & Db).
  destruct (read_digit p _ out (or_introl Hp) Hlen Xa Na Da) as (q & Eq & F1 & F2 & F3 & F4 & F5).
  unfold hex2. cbn [read_chars]. rewrite Eq, (read_data_first q _ x y) by congruence. cbn [mbind result_bind]. clear Eq.
  set (p1 := set_line _ _ _ _).
  destruct (read_digit p1 (hex_digit (b mod 16)) out) as (q1 & -> & G1 & G2 & G3 & G4 & G5);
    [right; unfold p1, set_line; cbn; rewrite F5, F4; split_and!; [done..|lia]|done..|].
  rewrite (read_data_second q1 (b / 16) (b mod 16) y); [|done|done|by rewrite G1|by rewrite G2|rewrite G3; cbn; congruence].
  cbn [mbind result_bind]. eexists. split; [done|].
  assert (p_out q1 = out) as Eo by (rewrite G3; cbn; congruence). rewrite Eo, Eb, G4, G5.
  split; cbn; [done|eauto|done|cbn; lia|]. right. unfold PARSED. rewrite Zlen_app. change (Zlen [b]) with 1. done.
Qed.

Lemma read_newline p out : in_data p out ->
  exists p', read_char p 10 = Ok p' /\ in_data p' out /\ line_index p' = 0 /\ p_match p' = 0.
Proof.
  intros [F1 F2 F3 F4 F5]. unfold read_char. change (10 =? 10) with true. cbv iota. eexists. split; [done|].
  split; [|done]. split; cbn; try done. destruct F5 as [(? & ? & ?)|?]; auto.
Qed.

(** The hex dump of key bytes, in lines. *)
Lemma read_hex_text sb data : Forall is_byte data -> forall i p out, in_data p out -> Zlen out + Zlen data <= KEYLEN ->
  exists p', read_chars p (hex_text data i sb [10]) = Ok p' /\ in_data p' (out ++ data).
Proof.
  induction data as [|b data IH]; intros Hby i p out Hp Hlen; cbn [hex_text].
  { exists p. by rewrite app_nil_r. }
  apply list.Forall_cons in Hby as [Hb Hby]. rewrite Zlen_cons in Hlen. pose proof (Zlen_nonneg data).
  assert (exists p1, read_chars p (if negb (i =? 0) && (i mod sb =? 0) then [10] else []) = Ok p1 /\ in_data p1 out)
    as (p1 & E1 & H1).
  { destruct (negb _ && _); [|by exists p]. destruct (read_newline p out Hp) as (p1 & E1 & H1 & _). exists p1. cbn [read_chars]. by rewrite E1. }
  rewrite read_chars_app, E1. cbn [mbind result_bind]. rewrite read_chars_app.
  destruct (read_hex2 p1 out b H1 Hb ltac:(lia)) as (p2 & -> & H2). cbn [mbind result_bind].
  destruct (IH Hby (i + 1) p2 (out ++ [b]) H2) as (p3 & -> & H3).
  { rewrite Zlen_app. change (Zlen [b]) with 1. lia. }
  exists p3. by rewrite <- app_assoc in H3.
Qed.

(** The text between the lines of the keys and the end of the file. *)
Lemma read_footer p out : in_data p out -> line_index p = 0 -> p_match p = 0 -> out <> [] ->
  exists p', read_chars p (static_key_foot ++ [10]) = Ok p' /\ p_state p' = PARSE_FINISHED /\ p_out p' = out.
Proof.
  intros [Hhb _ Hout _ Hst] Hli Hm Hne. destruct p as [hb hx li m st o]. cbn in *. subst hb li m o.
  assert (st = PARSE_DATA \/ st = PARSE_DATA_COMPLETE) as [-> | ->].
  { destruct Hst as [(_ & _ & ?)| ->]; [done|]. unfold PARSED. case_test; auto. }
  all: eexists; split; [vm_compute; reflexivity|done].
Qed.

(** What write_key_file writes for these keys. *)
Definition key_lines (bs : list byte) : list byte := hex_text bs 0 16 [10] ++ [10].
Definition key_file (keys : list (list byte)) : list byte :=
  (text "#" ++ [10] ++ text "# " ++ decimal (1024 * Zlen keys) ++ text " bit OpenVPN static key" ++ [10] ++ text "#" ++ [10])
  ++ (static_key_head ++ [10]) ++ (mjoin (key_lines <$> keys)) ++ (static_key_foot ++ [10]).

Lemma read_key_lines keys : Forall (fun k => Forall is_byte k /\ Zlen k = ONEKEYLEN) keys -> forall p out,
  in_data p out -> line_index p = 0 -> p_match p = 0 -> Zlen out + ONEKEYLEN * Zlen keys <= KEYLEN ->
  exists p', read_chars p (mjoin (key_lines <$> keys)) = Ok p' /\ in_data p' (out ++ mjoin keys) /\ line_index p' = 0 /\ p_match p' = 0.
Proof.
  induction keys as [|k keys IH]; intros Hk p out Hp Hl Hm Hlen.
  { exists p. change (mjoin []) with (@nil byte). by rewrite app_nil_r. }
  apply list.Forall_cons in Hk as [[Hby Hz] Hk]. rewrite Zlen_cons in Hlen. pose proof (Zlen_nonneg keys).
  unfold ONEKEYLEN, MAX_CIPHER_KEY_LENGTH, MAX_HMAC_KEY_LENGTH in *.
  change (mjoin (key_lines <$> k :: keys)) with (key_lines k ++ mjoin (key_lines <$> keys)).
  change (mjoin (k :: keys)) with (k ++ mjoin keys). rewrite read_chars_app. change (key_lines k) with (hex_text k 0 16 [10] ++ [10]). rewrite read_chars_app.
  destruct (read_hex_text 16 k Hby 0 p out Hp) as (p1 & -> & H1); [lia|]. cbn [mbind result_bind read_chars].
  destruct (read_newline p1 _ H1) as (p2 & -> & H2 & Hl2 & Hm2). cbn [mbind result_bind].
  destruct (IH Hk p2 (out ++ k) H2 Hl2 Hm2) as (p3 & -> & H3 & ?); [rewrite Zlen_app; lia|].
  exists p3. split; [done|]. by rewrite <- app_assoc in H3.
Qed.

(** The results of read for a file of these contents. *)
Definition file_reads (content : list byte) (rds : list (option (list byte))) : Prop :=
  exists chunks, rds = Some <$> chunks /\ mjoin chunks = content /\ Forall (fun c => c <> []) chunks.

Lemma read_key_loop_chunks chunks p : Forall (fun c => c <> []) chunks ->
  read_key_loop p (Some <$> chunks) = read_chars p (mjoin chunks).
Proof.
  revert p. induction chunks as [|c chunks IH]; intros p Hne; [done|]. apply list.Forall_cons in Hne as [Hc Hne].
  change (mjoin (c :: chunks)) with (c ++ mjoin chunks). rewrite fmap_cons, read_chars_app. destruct c as [|x c]; [done|]. cbn [read_key_loop].
  destruct (read_chars p (x :: c)) as [p1| |]; [|done..]. by apply IH.
Qed.

Lemma read_key_file_of keys rds : Zlen keys = 1 \/ Zlen keys = 2 ->
  Forall (fun k => Forall is_byte k /\ Zlen k = ONEKEYLEN) keys -> file_reads (key_file keys) rds ->
  read_key_file (Some rds) true = Ok (Key2 (Zlen keys)
    (split_keys (mjoin keys ++ replicate (Z.to_nat (KEYLEN - ONEKEYLEN * Zlen keys)) 0))).
Proof.
  intros Hn Hk (chunks & -> & Hj & Hne). unfold read_key_file. cbn [assert_some mbind result_bind].
  rewrite read_key_loop_chunks, Hj by done. unfold key_file.
  assert (exists p, read_chars key_parse_init ((text "#" ++ [10] ++ text "# " ++ decimal (1024 * Zlen keys) ++ text " bit OpenVPN static key"
    ++ [10] ++ text "#" ++ [10]) ++ (static_key_head ++ [10])) = Ok p /\ in_data p [] /\ line_index p = 0 /\ p_match p = 0) as (p & Ep & Hp & Hl & Hm).
  { destruct Hn as [-> | ->]; (eexists; split; [vm_compute; reflexivity|]); (split; [|done]); (split; [done|by eexists _, _|done|done|by left]). }
  rewrite app_assoc, read_chars_app, Ep. cbn [mbind result_bind]. rewrite read_chars_app.
  assert (Zlen (mjoin keys) = ONEKEYLEN * Zlen keys) as Hz.
  { clear -Hk. induction Hk as [|k keys [_ Hz] Hk IH]; [done|].
    change (mjoin (k :: keys)) with (k ++ mjoin keys). rewrite Zlen_app, Zlen_cons, IH, Hz. lia. }
  destruct (read_key_lines keys Hk p [] Hp Hl Hm) as (p1 & -> & H1 & Hl1 & Hm1).
  { rewrite Zlen_nil. unfold KEYLEN, ONEKEYLEN, MAX_CIPHER_KEY_LENGTH, MAX_HMAC_KEY_LENGTH. lia. }
  cbn [mbind result_bind app]. cbn [app] in H1.
  destruct (read_footer p1 (mjoin keys) H1 Hl1 Hm1) as (p2 & -> & Hst & Hout).
  { intros E. rewrite E, Zlen_nil in Hz. unfold ONEKEYLEN, MAX_CIPHER_KEY_LENGTH, MAX_HMAC_KEY_LENGTH in Hz. lia. }
  cbn [mbind result_bind]. rewrite Hout, Hst, Hz. rewrite Z.mul_comm, Z.quot_mul by done.
  destruct Hn as [-> | ->]; done.
Qed.

(** ** Writing the key file *)

Fixpoint key_chunks (nkeys : nat) (rand : list byte) : list (list byte) :=
  match nkeys with
  | O => []
  | S nkeys => take 128 rand :: key_chunks nkeys (drop 128 rand)
  end.

Lemma splice_whole {A} (new l : list A) : length new = length l -> splice 0 new l = new.
Proof. intros E. unfold splice. rewrite take_0, drop_ge by (cbn; lia). by rewrite app_nil_r. Qed.

Lemma generate_key_raw `{OpenSSL} rand : 128 <= Zlen rand ->
  exists key, generate_key_random None rand = Ok (key, drop 128 rand) /\ key_cipher key ++ key_hmac key = take 128 rand.
Proof.
  intros Hr. unfold generate_key_random. cbn [generate_loop]. unfold RAND_bytes.
  change MAX_CIPHER_KEY_LENGTH with 64. change MAX_HMAC_KEY_LENGTH with 64. replace (64 <=? Zlen rand) with true by lia.
  cbn [mbind result_bind].
  assert (Zlen (drop (Z.to_nat 64) rand) = Zlen rand - 64) as Hd by (unfold Zlen; rewrite length_drop; unfold Zlen in Hr; lia).
  rewrite Hd. replace (64 <=? Zlen rand - 64) with true by lia. cbn [mbind result_bind].
  change (Z.to_nat 64) with 64%nat. rewrite drop_drop. eexists. split; [done|]. cbn [key_cipher key_hmac clear_key].
  change (Z.to_nat MAX_CIPHER_KEY_LENGTH) with 64%nat. change (Z.to_nat MAX_HMAC_KEY_LENGTH) with 64%nat.
  unfold Zlen in *. rewrite !splice_whole by (rewrite length_replicate, length_take, ?length_drop; lia).
  change 128%nat with (64 + 64)%nat. by rewrite <- take_take_drop.
Qed.

Lemma key_lines_length bs : Forall is_byte bs -> Zlen bs = 128 -> Zlen (key_lines bs) = 264.
Proof.
  intros _ Hz. unfold key_lines. rewrite Zlen_app. destruct bs as [|c bs]; [done|]. rewrite Zlen_cons in Hz.
  cbn [hex_text Z.eqb negb andb app]. change (c :: bs) with ([c] ++ bs) in *. rewrite Zlen_app, Zlen_hex_text by lia.
  change (Zlen (hex2 c)) with 2. replace (Zlen bs) with 127 by lia. done.
Qed.

Lemma wp_write_keys `{OpenSSL} fill nkeys : forall h p out bs rand nbits,
  text_rep h p out bs -> Forall is_byte rand -> 128 * Z.of_nat nkeys <= Zlen rand -> 0 <= nbits -> nbits + 1024 * Z.of_nat nkeys <= 1000000 ->
  b_offset out + b_len out + 264 * Z.of_nat nkeys < b_capacity out ->
  wp (write_keys fill nkeys rand out nbits) (fun '(out', nb, rand') h' =>
    nb = nbits + 1024 * Z.of_nat nkeys /\ rand' = drop (128 * nkeys) rand /\
    text_rep h' p out' (bs ++ mjoin (key_lines <$> key_chunks nkeys rand)) /\
    b_offset out' = b_offset out /\ b_capacity out' = b_capacity out /\ keeps [blk p] h h') h.
Proof.
  induction nkeys as [|n IH]; intros h p out bs rand nbits Ht Hby Hr Hn Hmax Hroom; cbn [write_keys].
  { wp_steps. split; [lia|]. split; [by rewrite Nat.mul_0_r|]. change (mjoin (key_lines <$> key_chunks 0 rand)) with (@nil byte).
    rewrite app_nil_r. split_and!; try done. apply keeps_refl. }
  assert (Forall is_byte (take 128 rand)) as Hk by by apply Forall_take.
  assert (Zlen (take 128 rand) = 128) as Hz by (unfold Zlen in *; rewrite length_take; lia).
  destruct (generate_key_raw rand ltac:(lia)) as (key & Eg & Ek). wp_steps. eapply wp_lift; [exact Eg|]. wp_steps. rewrite Ek.
  eapply wp_mono; [apply (wp_format_hex_ex fill (take 128 rand) 16 [10] h); [done|by repeat constructor|done|by rewrite Hz]|].
  intros q h1 (Hf & Hl & H0). wp_steps. set (t := hex_text (take 128 rand) 0 16 [10]) in *.
  assert (no_nul t) as Ht0 by (apply hex_text_no_nul; [by repeat constructor|done]).
  eapply wp_mono; [by apply (wp_read_cstr h1 q t)|]. intros s h' (-> & ->). wp_steps. change (t ++ [10]) with (key_lines (take 128 rand)).
  assert (text_rep h1 p out bs) as Ht1.
  { destruct Ht as [Hb Hb0]. split; [by eapply buf_rep_fresh_ext|]. by apply Hf. }
  assert (blk q <> blk p) as Hne by (intros E; destruct Ht as [Hb _]; by apply (buf_rep_fresh_ne _ _ _ _ _ _ Hf Hb)).
  eapply wp_mono; [apply (wp_buf_printf_fits h1 p out bs (key_lines (take 128 rand)) (proj1 Ht1))|].
  { apply Forall_app_2; [done|by repeat constructor]. }
  { rewrite key_lines_length by done. lia. }
  rewrite key_lines_length by done. intros out2 h2 (-> & Ht2 & Hm2). wp_steps.
  assert (mload h2 q (Zlen t) = Some t /\ mload h2 (ptr_add q (Zlen t)) 1 = Some [0]) as [Hl2 H02].
  { split; (rewrite (mod_frame _ _ _ _ Hm2); [done|pose proof (Zlen_nonneg t); lia|by left]). }
  eapply wp_mono; [by apply (wp_read_cstr h2 q t)|]. intros s h' (-> & ->). wp_steps. apply wp_store.
  { replace (Zlen (replicate (length t) 0)) with (Zlen t) by (unfold Zlen; by rewrite length_replicate). by eexists. }
  intros h3 _ Hm3. wp_steps. unfold ONEKEYLEN, MAX_CIPHER_KEY_LENGTH, MAX_HMAC_KEY_LENGTH in *. change ((64 + 64) * 8) with 1024 in *. wrap_simp.
  assert (text_rep h3 p (with_len out (b_len out + 264)) (bs ++ key_lines (take 128 rand))) as Ht3.
  { destruct Ht2 as [Hb Hb0]. split; [by eapply buf_rep_other|]. rewrite (mod_frame _ _ _ _ Hm3); [done|lia|left; cbn; congruence]. }
  eapply wp_mono; [apply (IH h3 p _ _ (drop 128 rand) _ Ht3); cbn|].
  - by apply Forall_drop.
  - unfold Zlen in *. rewrite length_drop. lia.
  - lia.
  - lia.
  - lia.
  - intros [[out' nb] rand'] h4 (-> & -> & Ht4 & Ho4 & Hc4 & K4).
    split; [lia|]. split; [rewrite drop_drop; f_equal; lia|]. cbn [key_chunks].
    change (mjoin (key_lines <$> ?a :: ?l)) with (key_lines a ++ mjoin (key_lines <$> l)). rewrite app_assoc.
    split_and!; try done. intros r k x Hr1 Hx. apply K4; [done|]. destruct (proj2 (proj2 Hf) r k x Hx) as [Hx1 Hrq].
    apply mload_Some in Hx as (_ & _ & _ & Hk0 & _).
    rewrite (mod_frame _ _ _ _ Hm3); [|done|by left]. rewrite (mod_frame _ _ _ _ Hm2); [done|done|].
    left. cbn. intros E. apply Hr1. rewrite E. by left.
Qed.

(** The bytes of the two keys, in order. *)
Definition key2_bytes (k : key2) : list byte := mjoin ((fun x => key_cipher x ++ key_hmac x) <$> k2_keys k).

Lemma split_keys_bytes n l : length l = 256%nat -> key2_bytes (Key2 n (split_keys l)) = l.
Proof.
  intros Hl. unfold key2_bytes, split_keys. cbn [k2_keys fmap list_fmap key_cipher key_hmac].
  change (mjoin [?a; ?b]) with (a ++ (b ++ [])). rewrite app_nil_r, <- app_assoc.
  rewrite <- (slice_all l) at 5. replace (Zlen l) with (64 + (64 + (64 + 64))) by (unfold Zlen; lia).
  rewrite !slice_join by lia. done.
Qed.

Lemma key_chunks_facts nkeys : forall rand, Forall is_byte rand -> 128 * Z.of_nat nkeys <= Zlen rand ->
  Forall (fun k => Forall is_byte k /\ Zlen k = ONEKEYLEN) (key_chunks nkeys rand) /\
  mjoin (key_chunks nkeys rand) = take (128 * nkeys) rand /\ Zlen (key_chunks nkeys rand) = Z.of_nat nkeys.
Proof.
  induction nkeys as [|n IH]; intros rand Hby Hr; cbn [key_chunks].
  { split_and!; [done| |done]. by rewrite Nat.mul_0_r, take_0. }
  destruct (IH (drop 128 rand)) as (H1 & H2 & H3).
  { by apply Forall_drop. } { unfold Zlen in *. rewrite length_drop. lia. }
  split_and!.
  - constructor; [|done]. split; [by apply Forall_take|]. unfold Zlen in *. rewrite length_take.
    unfold ONEKEYLEN, MAX_CIPHER_KEY_LENGTH, MAX_HMAC_KEY_LENGTH. lia.
  - change (mjoin (?a :: ?l)) with (a ++ mjoin l). rewrite H2, take_take_drop. f_equal. lia.
  - rewrite Zlen_cons, H3. lia.
Qed.

(** C39: --genkey and --secret agree.  write_key_file never runs out of its text buffers and
    writes a file from which read_key_file, whatever pieces read returns the file in, reads
    back exactly the random bytes of the [nkeys] keys (the second key is zero if there is
    one only), with no message and no access outside its arrays. *)
Theorem key_file_roundtrip `{OpenSSL} fill nkeys rand h :
  nkeys = 1%nat \/ nkeys = 2%nat -> Forall is_byte rand -> 128 * Z.of_nat nkeys <= Zlen rand ->
  wp (write_key_file fill true nkeys rand) (fun '(nbits, content, rand') h' =>
    nbits = 1024 * Z.of_nat nkeys /\ rand' = drop (128 * nkeys) rand /\
    forall rds, file_reads content rds -> exists k, read_key_file (Some rds) true = Ok k /\ k2_n k = Z.of_nat nkeys /\
      key2_bytes k = take (128 * nkeys) rand ++ replicate (256 - 128 * nkeys) 0) h.
Proof.
  intros Hk Hby Hr. destruct (key_chunks_facts nkeys rand Hby Hr) as (F1 & F2 & F3).
  unfold write_key_file. wp_steps. eapply wp_mono; [apply wp_alloc_text; by unfold BUF_MAX|].
  intros b h1 (p & -> & Ht & Hf). wp_steps. eapply wp_mono; [apply wp_alloc_text; by unfold BUF_MAX|].
  intros b h2 (q & -> & Hq & Hg). wp_steps.
  assert (text_rep h2 p (Buf 2048 0 0 (Some p)) []) as Ht2.
  { destruct Ht as [Hb Hb0]. split; [by eapply buf_rep_fresh_ext|]. by apply Hg. }
  assert (blk p <> blk q) as Hne by (by apply (buf_rep_fresh_ne _ _ _ _ _ _ Hg (proj1 Ht))).
  eapply wp_mono; [apply (wp_buf_printf_fits h2 p _ [] (static_key_head ++ [10]) (proj1 Ht2)); [by repeat constructor|done]|].
  intros b h3 (-> & Ht3 & Hm3). wp_steps. cbn [app] in Ht3.
  eapply wp_mono; [apply (wp_write_keys fill nkeys h3 p _ _ rand 0 Ht3 Hby Hr)|].
  1-3: destruct Hk as [-> | ->]; done.
  intros [[out nb] rand'] h4 (-> & -> & Ht4 & Ho4 & Hc4 & K4). wp_steps. cbn in Ho4, Hc4. rewrite Z.add_0_l.
  set (body := (static_key_head ++ [10]) ++ mjoin (key_lines <$> key_chunks nkeys rand)) in *.
  assert (Zlen body = 38 + 264 * Z.of_nat nkeys) as Hbody.
  { unfold body. rewrite Zlen_app. change (Zlen (static_key_head ++ [10])) with 38. f_equal. rewrite <- F3.
    clear -F1. induction F1 as [|k ks [Hb Hz] F1 IH]; [done|]. change (mjoin (key_lines <$> k :: ks)) with (key_lines k ++ mjoin (key_lines <$> ks)).
    rewrite Zlen_app, key_lines_length, Zlen_cons by done. lia. }
  assert (no_nul body) as Hnn.
  { unfold body. apply Forall_app_2; [by repeat constructor|]. clear -F1. induction F1 as [|k ks [Hb Hz] F1 IH]; [constructor|].
    change (mjoin (key_lines <$> k :: ks)) with (key_lines k ++ mjoin (key_lines <$> ks)). apply Forall_app_2; [|done].
    apply Forall_app_2; [|by repeat constructor]. apply hex_text_no_nul; [by repeat constructor|done]. }
  pose proof (buf_rep_Zlen _ _ _ _ (proj1 Ht4)) as Hlen4. rewrite Hbody in Hlen4.
  eapply wp_mono; [apply (wp_buf_printf_fits h4 p out _ (static_key_foot ++ [10]) (proj1 Ht4)); [by repeat constructor|]|].
  { change (Zlen (static_key_foot ++ [10])) with 36. destruct Hk as [-> | ->]; lia. }
  intros b h5 (-> & Ht5 & Hm5). wp_steps.
  assert (text_rep h5 q (Buf 128 0 0 (Some q)) []) as Hq5.
  { assert (blk q ∉ [blk p]) by (by rewrite list_elem_of_singleton).
    eapply text_rep_keeps; [eapply keeps_trans; [eapply modifies_keeps; [exact Hm3|by left]|]|done|exact Hq].
    eapply keeps_trans; [exact K4|]. eapply modifies_keeps; [exact Hm5|by left]. }
  set (head := text "#" ++ _).
  assert (no_nul head /\ Zlen head < 128) as [Hhn Hhl] by (unfold head; destruct Hk as [-> | ->]; (split; [repeat constructor; done|done])).
  eapply wp_mono; [apply (wp_buf_printf_fits h5 q _ [] head (proj1 Hq5) Hhn); exact Hhl|].
  intros b h6 (-> & Hq6 & Hm6). wp_steps. cbn [app] in Hq6. rewrite (BPTR_rep _ _ _ _ (proj1 Hq6)). wp_steps.
  eapply wp_mono; [by apply (wp_read_text h6 q _ head Hq6)|]. intros s h' (-> & ->). wp_steps.
  assert (text_rep h6 p (with_len out (b_len out + Zlen (static_key_foot ++ [10]))) (body ++ static_key_foot ++ [10])) as Ht6.
  { eapply text_rep_keeps; [eapply modifies_keeps; [exact Hm6|by left]| |exact Ht5]. cbn. by rewrite list_elem_of_singleton. }
  rewrite (BPTR_rep _ _ _ _ (proj1 Ht6)). wp_steps.
  eapply wp_mono; [apply (wp_read_text h6 p _ _ Ht6); apply Forall_app_2; [done|by repeat constructor]|].
  intros s h' (-> & ->). wp_steps. eapply wp_mono; [apply (wp_buf_clear h6 p _ _ (proj1 Ht6))|]. intros b h7 _. wp_steps.
  split; [done|]. split; [done|]. intros rds Hrds.
  eexists. split; [apply (read_key_file_of (key_chunks nkeys rand)); [lia|done|]|].
  { destruct Hrds as (chunks & -> & Hj & Hcn). exists chunks. split; [done|]. split; [|done]. rewrite Hj. unfold key_file, head, body.
    rewrite F3. by rewrite <- !app_assoc. }
  rewrite F3. split; [done|]. rewrite split_keys_bytes, F2; [f_equal; f_equal; unfold KEYLEN, ONEKEYLEN, MAX_CIPHER_KEY_LENGTH, MAX_HMAC_KEY_LENGTH; lia|].
  rewrite F2, length_app, length_replicate, length_take. unfold KEYLEN, ONEKEYLEN, MAX_CIPHER_KEY_LENGTH, MAX_HMAC_KEY_LENGTH, Zlen in *. lia.
Qed.

(** ** read_key_file stays inside its arrays *)

Record parse_ok (p : key_parse) : Prop := {
  po_hb : hb_index p = 0 \/ (hb_index p = 1 /\ exists c t, hex_byte p = c :: t /\ isxdigit c = true);
  po_hex : length (hex_byte p) = 3%nat;
  po_line : 0 <= line_index p;
  po_out : Zlen (p_out p) <= KEYLEN;
  po_room : p_state p = PARSE_DATA \/ p_state p = PARSE_HEAD \/ p_state p = PARSE_INITIAL -> Zlen (p_out p) < KEYLEN
}.

Lemma parse_ok_line p li m st : parse_ok p -> 0 <= li ->
  (st = PARSE_DATA \/ st = PARSE_HEAD \/ st = PARSE_INITIAL -> Zlen (p_out p) < KEYLEN) -> parse_ok (set_line p li m st).
Proof. intros []. by split. Qed.

Ltac states := unfold PARSE_INITIAL, PARSE_HEAD, PARSE_DATA, PARSE_DATA_COMPLETE, PARSE_FOOT, PARSE_FINISHED, KEYLEN,
  ONEKEYLEN, MAX_CIPHER_KEY_LENGTH, MAX_HMAC_KEY_LENGTH in *.

(** The states that are reached by comparing lines need no more room than those left. *)
Lemma parse_ok_match line p c reached : parse_ok p ->
  (p_state p = PARSE_INITIAL /\ reached = PARSE_HEAD) \/ reached = PARSE_FINISHED -> parse_ok (match_line line p c reached).
Proof.
  intros [H1 H2 H3 H4 H5] Hr. unfold match_line. destruct (_ && _); [|by split]. split; cbn; try done.
  destruct (_ =? Zlen line); [|done]. intros Hst. apply H5. states. lia.
Qed.

Lemma read_data_ok p c : parse_ok p -> p_state p = PARSE_DATA ->
  match read_data p c with Ok p' => parse_ok p' | AssertFail => True | Fault => False end.
Proof.
  intros [H1 H2 H3 H4 H5] Hst. specialize (H5 (or_introl Hst)). unfold read_data.
  destruct (isxdigit c) eqn:Ex; [|destruct (isspace c); [by split; auto|done]].
  destruct (hex_byte p) as [|x [|y [|z [|]]]] eqn:Eh; try done. destruct H1 as [-> | (-> & x' & t & [= <- <-] & Hx)].
  - change (assert_ _) with (Ok tt). cbn [mbind result_bind]. change (aset [x; y; z] 0 c) with (Ok [c; y; z]).
    cbn [mbind result_bind]. change (0 + 1 =? 2) with false. cbv iota. split; cbn; try done. right. split; [done|]. eauto.
  - change (assert_ _) with (Ok tt). cbn [mbind result_bind]. change (aset [x; y; z] 1 c) with (Ok [x; c; z]).
    cbn [mbind result_bind]. change (1 + 1 =? 2) with true. cbv iota.
    unfold scan_hex. rewrite Hx. cbn [assert_some mbind result_bind]. replace (Zlen (p_out p) <? KEYLEN) with true by lia.
    set (v := u8 _). clearbody v. pose proof (Zlen_app (p_out p) [v]) as E. change (Zlen [v]) with 1 in E.
    split; cbn; auto; rewrite E; [lia|]. destruct (_ =? KEYLEN) eqn:Ek; bool_simp; states; lia.
Qed.

Lemma read_char_ok p c : parse_ok p ->
  match read_char p c with Ok p' => parse_ok p' | AssertFail => True | Fault => False end.
Proof.
  intros Hp. pose proof Hp as [H1 H2 H3 H4 H5]. unfold read_char. destruct (c =? 10).
  { apply parse_ok_line; [done|lia|done]. }
  cbv zeta. set (st := if line_index p =? 0 then _ else _). set (q := set_line p _ _ st).
  assert (parse_ok q) as Hq.
  { assert (st = p_state p \/ (p_state p = PARSE_HEAD /\ st = PARSE_DATA) \/ st = PARSE_FOOT) as Hst.
    { unfold st. destruct (line_index p =? 0); [|auto]. destruct (p_state p =? PARSE_HEAD) eqn:E; bool_simp; destruct (_ && _); auto. }
    apply parse_ok_line; [done..|]. intros Hs. apply H5. states. lia. }
  clearbody q. set (q1 := if p_state q =? PARSE_INITIAL then _ else _).
  assert (parse_ok q1) as Hq1 by (unfold q1; case_test; [apply parse_ok_match; auto|done]). clearbody q1.
  set (q2 := if p_state q1 =? PARSE_FOOT then _ else _).
  assert (parse_ok q2) as Hq2 by (unfold q2; case_test; [apply parse_ok_match; auto|done]). clearbody q2.
  assert (forall r, parse_ok r -> parse_ok (set_line r (line_index r + 1) (p_match r) (p_state r))) as Hend.
  { intros r Hr. apply parse_ok_line; [done|destruct Hr; lia|apply Hr]. }
  case_test; [|by apply Hend]. pose proof (read_data_ok q2 c Hq2 ltac:(done)) as Hd.
  destruct (read_data q2 c); [by apply Hend|done..].
Qed.

Lemma read_chars_ok l : forall p, parse_ok p ->
  match read_chars p l with Ok p' => parse_ok p' | AssertFail => True | Fault => False end.
Proof.
  induction l as [|c l IH]; intros p Hp; [done|]. cbn [read_chars]. pose proof (read_char_ok p c Hp) as Hc.
  destruct (read_char p c); [by apply IH|done..].
Qed.

(** struct key2 with its arrays whole. *)
Definition key_ok (k : key_data) : Prop := Zlen (key_cipher k) = MAX_CIPHER_KEY_LENGTH /\ Zlen (key_hmac k) = MAX_HMAC_KEY_LENGTH.
Definition key2_ok (k : key2) : Prop := 0 <= k2_n k <= 2 /\ length (k2_keys k) = 2%nat /\ Forall key_ok (k2_keys k).

(** Whatever a key file contains, as long as it can be read. *)
Lemma read_key_file_safe content rds must_succeed : file_reads content rds ->
  match read_key_file (Some rds) must_succeed with Ok k => key2_ok k | AssertFail => True | Fault => False end.
Proof.
  intros (chunks & -> & _ & Hne). unfold read_key_file. cbn [assert_some mbind result_bind].
  rewrite read_key_loop_chunks by done. pose proof (read_chars_ok (mjoin chunks) key_parse_init) as Hr.
  destruct (read_chars key_parse_init (mjoin chunks)) as [p| |]; [|done|].
  2:{ apply Hr. by split; auto. }
  destruct Hr as [_ _ _ Hl _]; [by split; auto|]. cbn [mbind result_bind]. pose proof (Zlen_nonneg (p_out p)).
  set (n := Z.quot _ _). assert (0 <= n <= 2) as Hn by (unfold n; states; Z.to_euclidean_division_equations; lia).
  replace (n >=? 0) with true by lia. replace (n <=? 2) with true by lia. cbn [andb assert_ mbind result_bind].
  destruct (must_succeed && (n =? 0)); [done|]. cbn [negb assert_ mbind result_bind].
  destruct (must_succeed && _); [done|]. cbn [negb assert_ mbind result_bind]. split; [done|]. split; [done|]. cbn [k2_keys split_keys].
  assert (Zlen (p_out p ++ replicate (Z.to_nat (KEYLEN - Zlen (p_out p))) 0) = 256) as Hz.
  { rewrite Zlen_app. unfold Zlen at 2. rewrite length_replicate. states. lia. }
  repeat constructor; cbn [key_cipher key_hmac]; rewrite Zlen_slice by lia; done.
Qed.

(** ** The keys of two peers *)

Lemma init_key_pair_keys `{OpenSSL} k kt d b : init_key_pair k kt d = Ok b ->
  exists kds ko ki, key_direction_state_init d = Ok kds /\ k2_keys k !! Z.to_nat (out_key kds) = Some ko /\
    k2_keys k !! Z.to_nat (in_key kds) = Some ki /\ init_key_ctx ko kt true = Ok (k_encrypt b) /\ init_key_ctx ki kt false = Ok (k_decrypt b).
Proof.
  unfold init_key_pair. destruct (key_direction_state_init d) as [kds| |]; [|done..]. cbn [mbind result_bind].
  destruct (must_have_n_keys k (need_keys kds)); [|done..]. cbn [mbind result_bind]. unfold key_at.
  destruct (aget (k2_keys k) (out_key kds)) as [ko| |] eqn:Eo; [|done..]. cbn [mbind result_bind].
  destruct (init_key_ctx ko kt true) as [e| |] eqn:Ee; [|done..]. cbn [mbind result_bind].
  destruct (aget (k2_keys k) (in_key kds)) as [ki| |] eqn:Ei; [|done..]. cbn [mbind result_bind].
  destruct (init_key_ctx ki kt false) as [d'| |] eqn:Ed; [|done..]. intros [= <-].
  apply aget_Ok in Eo as [_ Eo]. apply aget_Ok in Ei as [_ Ei]. by exists kds, ko, ki.
Qed.

(** The contexts of a key for decryption invert those for encryption. *)
Definition cipher_inverts (c : evp_cipher) : Prop := forall k e d, ec_init c k true = Some e -> ec_init c k false = Some d ->
  c_mode d = EVP_CIPH_CBC_MODE /\ c_iv_length d = c_iv_length e /\ (forall iv, c_init d iv = true) /\
  (forall iv m ct, run_cipher e iv m = Some ct -> run_cipher d iv ct = Some m /\ (m <> [] -> ct <> [])).

Lemma init_key_ctx_inverse key kt e d : (forall c, kt_cipher kt = Some c -> cipher_inverts c) ->
  init_key_ctx key kt true = Ok e -> init_key_ctx key kt false = Ok d -> inverse_ctx e d.
Proof.
  intros Hc. unfold init_key_ctx.
  set (hm := match kt_digest kt with Some d => _ | None => _ end). clearbody hm.
  destruct (kt_cipher kt) as [c|]; [destruct (cipher_length kt >? 0)|]; cbn [mbind result_bind].
  2, 3: destruct hm as [x| |]; [|done..]; intros [= <-] [= <-]; by split.
  unfold init_cipher. destruct (ec_set_key_length c (cipher_length kt)) as [n|]; [|done]. cbn [assert_some mbind result_bind].
  destruct (arr_read (key_cipher key) n) as [k| |]; [|done..]. cbn [mbind result_bind].
  destruct (ec_init c k true) as [ce|] eqn:Ee; [|done]. cbn [assert_some mbind result_bind].
  destruct (assert_ _); [|done..]. cbn [mbind result_bind]. destruct hm as [x| |]; [|done..]. intros [= <-].
  destruct (ec_init c k false) as [cd|] eqn:Ed; [|done]. intros [= <-]. split; [done|]. by eapply Hc.
Qed.

Lemma init_key_ctx_hmac key kt e d : kt_cipher kt = None ->
  init_key_ctx key kt true = Ok e -> init_key_ctx key kt false = Ok d -> e = d.
Proof. intros Hn. unfold init_key_ctx. rewrite Hn. by intros -> [= ->]. Qed.

(** The direction that the peer is told to use (--key-direction in the options that are pushed
    or compared) for a local direction. *)
Definition peer_direction (d1 d2 : Z) : Prop := (s ← keydirection2ascii d1 true; ascii2keydirection true s) = Ok d2.

Lemma peer_directions d1 d2 : peer_direction d1 d2 -> exists kd1 kd2, key_direction_state_init d1 = Ok kd1 /\
  key_direction_state_init d2 = Ok kd2 /\ out_key kd1 = in_key kd2 /\ in_key kd1 = out_key kd2.
Proof.
  unfold peer_direction, keydirection2ascii.
  destruct (d1 =? KEY_DIRECTION_BIDIRECTIONAL) eqn:E0; bool_simp; [subst; intros [= <-]; by eexists _, _|].
  destruct (d1 =? KEY_DIRECTION_NORMAL) eqn:E1; bool_simp; [subst; intros [= <-]; by eexists _, _|].
  destruct (d1 =? KEY_DIRECTION_INVERSE) eqn:E2; bool_simp; [subst; intros [= <-]; by eexists _, _|done].
Qed.

(** The two ends of a pair of keys. *)
Lemma init_key_pair_peers `{OpenSSL} k kt d1 d2 b1 b2 : peer_direction d1 d2 ->
  init_key_pair k kt d1 = Ok b1 -> init_key_pair k kt d2 = Ok b2 ->
  exists ko ki, init_key_ctx ko kt true = Ok (k_encrypt b1) /\ init_key_ctx ko kt false = Ok (k_decrypt b2) /\
    init_key_ctx ki kt true = Ok (k_encrypt b2) /\ init_key_ctx ki kt false = Ok (k_decrypt b1).
Proof.
  intros (kd1 & kd2 & E1 & E2 & Eo & Ei)%peer_directions (kds & ko & ki & F1 & Ho & Hi & Fe & Fd)%init_key_pair_keys
    (kds' & ko' & ki' & G1 & Ho' & Hi' & Ge & Gd)%init_key_pair_keys.
  rewrite E1 in F1. rewrite E2 in G1. simplify_eq. rewrite <- Eo, Ho in Hi'. rewrite <- Ei, Hi in Ho'. simplify_eq. by eexists _, _.
Qed.

(** What a file holds does not depend on the pieces it is read in. *)
Lemma read_key_file_pieces content rds1 rds2 m : file_reads content rds1 -> file_reads content rds2 ->
  read_key_file (Some rds1) m = read_key_file (Some rds2) m.
Proof.
  intros (c1 & -> & H1 & N1) (c2 & -> & H2 & N2). unfold read_key_file. cbn [assert_some mbind result_bind].
  by rewrite !read_key_loop_chunks, H1, H2 by done.
Qed.

Lemma read_passphrase_hash_pieces content rds1 rds2 digest len : file_reads content rds1 -> file_reads content rds2 ->
  read_passphrase_hash (Some rds1) digest len = read_passphrase_hash (Some rds2) digest len.
Proof.
  intros (c1 & -> & H1 & N1) (c2 & -> & H2 & N2). unfold read_passphrase_hash. cbn [assert_some mbind result_bind].
  assert (forall c, Forall (fun x => x <> []) c -> read_passphrase (Some <$> c) = Ok (mjoin c)) as Hc.
  { intros c Hc. induction Hc as [|x c Hx Hc IH]; [done|]. cbn [fmap list_fmap]. change (mjoin (x :: c)) with (x ++ mjoin c).
    destruct x as [|y x]; [done|]. cbn [read_passphrase]. by rewrite IH. }
  rewrite !Hc, H1, H2 by done. done.
Qed.

(** Two peers with the same key file and opposite key directions (or none) get keys that
    fit: what one encrypts with inverts what the other decrypts with, for --secret with any
    cipher and digest, and the same HMAC for the one's outgoing and the other's incoming
    control packets with --tls-auth, key file or passphrase file, however the file is read. *)
Theorem shared_keys_agree `{OpenSSL} kt content rds1 rds2 d1 d2 b1 b2 :
  file_reads content rds1 -> file_reads content rds2 -> peer_direction d1 d2 ->
  (forall c, kt_cipher kt = Some c -> cipher_inverts c) ->
  (init_static_key kt (Some rds1) d1 = Ok b1 -> init_static_key kt (Some rds2) d2 = Ok b2 ->
     inverse_ctx (k_encrypt b1) (k_decrypt b2) /\ inverse_ctx (k_encrypt b2) (k_decrypt b1)) /\
  (get_tls_handshake_key kt (Some (Some rds1)) d1 = Ok b1 -> get_tls_handshake_key kt (Some (Some rds2)) d2 = Ok b2 ->
     k_encrypt b1 = k_decrypt b2 /\ k_encrypt b2 = k_decrypt b1).
Proof.
  intros H1 H2 Hd Hc. split.
  - unfold init_static_key. rewrite (read_key_file_pieces content rds1 rds2) by done.
    destruct (read_key_file (Some rds2) true) as [k| |]; [|done..]. cbn [mbind result_bind].
    destruct (verify_fix_key2 k kt) as [k'| |]; [|done..]. cbn [mbind result_bind]. intros P1 P2.
    destruct (init_key_pair_peers k' kt d1 d2 b1 b2 Hd P1 P2) as (ko & ki & ? & ? & ? & ?).
    split; by eapply init_key_ctx_inverse.
  - unfold get_tls_handshake_key. rewrite (read_key_file_pieces content rds1 rds2) by done.
    destruct (negb (hmac_length kt =? 0)); [|by intros [= <-] [= <-]].
    destruct (read_key_file (Some rds2) false) as [k| |]; [|done..]. cbn [mbind result_bind].
    set (kt' := KeyType _ _ _ _).
    assert (forall k', init_key_pair k' kt' d1 = Ok b1 -> init_key_pair k' kt' d2 = Ok b2 ->
      k_encrypt b1 = k_decrypt b2 /\ k_encrypt b2 = k_decrypt b1) as Hp.
    { intros k' P1 P2. destruct (init_key_pair_peers k' kt' d1 d2 b1 b2 Hd P1 P2) as (ko & ki & ? & ? & ? & ?).
      split; eapply (init_key_ctx_hmac _ kt'); eauto. }
    destruct (k2_n k =? 2); cbn [mbind result_bind]; [by apply Hp|].
    destruct (from_opt (kt_digest kt')) as [dg| |]; [|done..]. cbn [mbind result_bind].
    rewrite (read_passphrase_hash_pieces content rds1 rds2) by done.
    destruct (read_passphrase_hash (Some rds2) dg MAX_HMAC_KEY_LENGTH) as [hs| |]; [|done..]. cbn [mbind result_bind].
    destruct (assert_ _); [|done..]. cbn [mbind result_bind]. destruct (arr_write _ _) as [arr| |]; [|done..].
    cbn [mbind result_bind]. by apply Hp.
Qed.

(** ** read_key on what a peer sends *)

Lemma wp_read_array h p b bs dst n (Q : option (list byte) * buffer -> heap -> Prop) :
  buf_rep h p b bs -> 0 <= n <= Zlen bs -> n <= Zlen dst ->
  (forall b', buf_rep h p b' (drop (Z.to_nat n) bs) -> Q (Some (splice 0 (take (Z.to_nat n) bs) dst), b') h) ->
  wp (read_array dst b n) Q h.
Proof.
  intros H Hn Hd HQ. unfold read_array. wp_steps. eapply wp_mono; [by apply (wp_buf_read_n h p b bs n)|].
  intros [r b'] h' ([= -> ->] & -> & Hr). wp_steps. unfold arr_write.
  assert (Zlen (take (Z.to_nat n) bs) = n) as -> by (unfold Zlen in *; rewrite length_take; lia).
  replace (n <=? Zlen dst) with true by lia. eapply wp_lift; [done|]. wp_steps. by apply HQ.
Qed.

Lemma read_array_short h p b bs dst n : buf_rep h p b bs -> Zlen bs < n -> read_array dst b n = mret (None, b).
Proof.
  intros H Hn. pose proof (buf_rep_Zlen _ _ _ _ H). unfold read_array. by rewrite buf_read_short by lia.
Qed.

Lemma read_array_overflow h p b bs dst n : buf_rep h p b bs -> 0 <= n <= Zlen bs -> Zlen dst < n -> read_array dst b n h = Fault.
Proof.
  intros H Hn Hd. unfold read_array. pose proof (wp_buf_read_n h p b bs n H Hn) as Hr. unfold wp in Hr.
  unfold mbind, M_bind. destruct (buf_read b n h) as [[[r b'] h']| |]; [|done..]. destruct Hr as ([= -> ->] & -> & _).
  unfold arr_write. assert (Zlen (take (Z.to_nat n) bs) = n) as -> by (unfold Zlen in *; rewrite length_take; lia).
  by replace (n <=? Zlen dst) with false by lia.
Qed.

Lemma read_array_Ok h p b bs dst n : buf_rep h p b bs -> 0 <= n <= Zlen bs -> n <= Zlen dst ->
  exists b', read_array dst b n h = Ok (Some (splice 0 (take (Z.to_nat n) bs) dst), b', h) /\ buf_rep h p b' (drop (Z.to_nat n) bs).
Proof.
  intros H Hn Hd. pose proof (wp_read_array h p b bs dst n
    (fun r h' => h' = h /\ exists b', r = (Some (splice 0 (take (Z.to_nat n) bs) dst), b') /\ buf_rep h p b' (drop (Z.to_nat n) bs)) H Hn Hd) as Hw.
  unfold wp in Hw. destruct (read_array dst b n h) as [[r h']| |]; [|by destruct Hw; eauto..].
  destruct Hw as (-> & b' & -> & Hb); [by eauto|]. by exists b'.
Qed.

(** What is left of read_key after the two lengths. *)
Definition read_key_parts (kt : key_type) (cl hl : Z) (b2 : buffer) : M (Z * key_data * buffer) :=
  '(c, buf) ← read_array (key_cipher clear_key) b2 cl;
  match c with
  | None => mret (-1, clear_key, buf)
  | Some c => '(m, buf) ← read_array (key_hmac clear_key) buf hl;
      match m with
      | None => mret (-1, Key c (key_hmac clear_key), buf)
      | Some m => mret (if negb (cl =? cipher_length kt) || negb (hl =? hmac_length kt) then 0 else 1, Key c m, buf)
      end
  end.

Lemma read_key_lengths kt h p b cl hl r : buf_rep h p b (cl :: hl :: r) ->
  exists b2, buf_rep h p b2 r /\ read_key kt b h = read_key_parts kt cl hl b2 h.
Proof.
  intros H. pose proof (Zlen_nonneg r).
  destruct (read_array_Ok h p b _ [0] 1 H) as (b1 & E1 & H1); [rewrite !Zlen_cons; lia|done|].
  change (drop (Z.to_nat 1) (cl :: hl :: r)) with (hl :: r) in H1.
  destruct (read_array_Ok h p b1 _ [0] 1 H1) as (b2 & E2 & H2); [rewrite Zlen_cons; lia|done|].
  change (drop (Z.to_nat 1) (hl :: r)) with r in H2. exists b2. split; [done|].
  unfold read_key, mbind, M_bind. rewrite E1, E2. reflexivity.
Qed.

Definition key_overflow (cl hl n : Z) : bool :=
  if cl >? MAX_CIPHER_KEY_LENGTH then cl <=? n else (hl >? MAX_HMAC_KEY_LENGTH) && (cl + hl <=? n).

(** C40: read_key (--key-method 1) trusts the two lengths the peer sends.  When the length of a
    key is above 64 and as many bytes follow, the bytes are copied over the end of struct key;
    in every other case nothing is written outside it, the status is 1 exactly when both
    lengths are those of the key type and the keys are complete, and then they are the bytes
    sent. *)
Theorem read_key_exact kt h p b cl hl r :
  buf_rep h p b (cl :: hl :: r) -> is_byte cl -> is_byte hl ->
  if key_overflow cl hl (Zlen r) then read_key kt b h = Fault
  else wp (read_key kt b) (fun '(status, key, b') h' => h' = h /\
    (status = 1 <-> cl = cipher_length kt /\ hl = hmac_length kt /\ cl + hl <= Zlen r) /\
    (status = 1 -> key = Key (splice 0 (slice 0 cl r) (key_cipher clear_key)) (splice 0 (slice cl hl r) (key_hmac clear_key)) /\
       buf_rep h p b' (drop (Z.to_nat (cl + hl)) r))) h.
Proof.
  intros H Bc Bh. unfold is_byte in *. pose proof (Zlen_nonneg r) as Hr0.
  destruct (read_key_lengths kt h p b cl hl r H) as (b2 & H2 & E). unfold wp. rewrite E. clear E H b.
  unfold read_key_parts, mbind, M_bind, key_overflow.
  assert (Zlen (key_cipher clear_key) = 64 /\ Zlen (key_hmac clear_key) = 64) as [Zc Zh] by done.
  change MAX_CIPHER_KEY_LENGTH with 64. change MAX_HMAC_KEY_LENGTH with 64.
  destruct (Z.le_gt_cases cl (Zlen r)) as [Hcl|Hcl].
  2:{ rewrite (read_array_short h p b2 r) by done. replace (cl <=? Zlen r) with false by lia.
      replace (cl + hl <=? Zlen r) with false by lia. rewrite andb_false_r. destruct (cl >? 64); (split; [done|split; lia]). }
  destruct (cl >? 64) eqn:Ec; rewrite Z.gtb_ltb in Ec; bool_simp.
  { rewrite (read_array_overflow h p b2 r) by (try done; lia). by replace (cl <=? Zlen r) with true by lia. }
  destruct (read_array_Ok h p b2 r (key_cipher clear_key) cl H2) as (b3 & -> & H3); [lia..|].
  assert (Zlen (drop (Z.to_nat cl) r) = Zlen r - cl) as Hz by (unfold Zlen in *; rewrite length_drop; lia).
  destruct (Z.le_gt_cases (cl + hl) (Zlen r)) as [Hhl|Hhl].
  2:{ rewrite (read_array_short h p b3 _ _ _ H3) by lia. replace (cl + hl <=? Zlen r) with false by lia.
      rewrite andb_false_r. split; [done|split; lia]. }
  destruct (hl >? 64) eqn:Eh; rewrite Z.gtb_ltb in Eh; bool_simp; cbn [andb].
  { rewrite (read_array_overflow h p b3 _ _ _ H3) by lia. by replace (cl + hl <=? Zlen r) with true by lia. }
  destruct (read_array_Ok h p b3 _ (key_hmac clear_key) hl H3) as (b4 & -> & H4); [lia..|]. cbn [mret M_ret].
  rewrite drop_drop, <- Z2Nat.inj_add in H4 by lia. split; [done|]. split.
  - destruct (cl =? cipher_length kt) eqn:E1, (hl =? hmac_length kt) eqn:E2; bool_simp; cbn [negb orb]; split; try done; lia.
  - intros _. split; [|done]. unfold slice. done.
Qed.

Lemma read_key_exact_witness :
  let h := {[1%positive := 70 :: 0 :: replicate 70 255]} in let b := Buf 72 0 72 (Some (Ptr 1 0)) in
  (if key_overflow 70 0 (Zlen (replicate 70 255)) then read_key (KeyType 16 20 None None) b h = Fault
   else wp (read_key (KeyType 16 20 None None) b) (fun '(status, key, b') h' => h' = h /\
    (status = 1 <-> 70 = 16 /\ 0 = 20 /\ 70 + 0 <= Zlen (replicate 70 255)) /\
    (status = 1 -> key = Key (splice 0 (slice 0 70 (replicate 70 255)) (key_cipher clear_key)) (splice 0 (slice 70 0 (replicate 70 255)) (key_hmac clear_key)) /\
       buf_rep h (Ptr 1 0) b' (drop (Z.to_nat (70 + 0)) (replicate 70 255)))) h) /\
  key_overflow 70 0 (Zlen (replicate 70 255)) = true.
Proof.
  split; [|done]. apply (read_key_exact (KeyType 16 20 None None) _ (Ptr 1 0)); [|done..].
  split; try done; try (by vm_compute); try (cbn; lia); by eexists.
Defined.

(** ** Key types that work *)

(** OpenSSL accepts the key length and makes contexts; the digest is not longer than its key. *)
Record kt_ok (kt : key_type) : Prop := {
  ko_cl : 0 <= cipher_length kt <= MAX_CIPHER_KEY_LENGTH;
  ko_hl : 0 <= hmac_length kt <= MAX_HMAC_KEY_LENGTH;
  ko_cipher : forall c, kt_cipher kt = Some c -> cipher_inverts c /\
    exists n, ec_set_key_length c (cipher_length kt) = Some n /\ 0 <= n <= cipher_length kt /\ forall k enc, Zlen k = n -> is_Some (ec_init c k enc);
  ko_digest : forall d, kt_digest kt = Some d -> md_size d <= hmac_length kt
}.

(** DES_set_odd_parity changes a block in place. *)
Definition parity_ok `{OpenSSL} : Prop := forall b, Zlen (DES_set_odd_parity b) = Zlen b.

Lemma arr_read_ok (l : list byte) n : n <= Zlen l -> arr_read l n = Ok (take (Z.to_nat n) l).
Proof. intros Hn. unfold arr_read. by replace (n <=? Zlen l) with true by lia. Qed.

Lemma Zlen_fixup_blocks `{OpenSSL} n b : parity_ok -> Zlen (fixup_blocks n b) = Zlen b.
Proof.
  intros Hp. revert b. induction n as [|n IH]; intros b; cbn [fixup_blocks]; [done|]. case_test; [done|].
  rewrite Zlen_app, Hp, IH. unfold Zlen in *. rewrite length_take, length_drop. lia.
Qed.

Lemma fixup_key_total `{OpenSSL} key kt : parity_ok -> kt_ok kt -> key_ok key ->
  exists key', fixup_key key kt = Ok key' /\ key_ok key'.
Proof.
  intros Hp Hk [Hc Hh]. pose proof (ko_cl _ Hk). unfold fixup_key. destruct (kt_cipher kt) as [c|]; [|by exists key].
  destruct (negb _); [|by exists key]. unfold fixup_key_DES. rewrite arr_read_ok by (rewrite Hc; lia). cbn [mbind result_bind].
  set (b := fixup_blocks _ _).
  assert (Zlen b <= Zlen (key_cipher key)) as Hz.
  { unfold b. rewrite Zlen_fixup_blocks by done. unfold Zlen. rewrite length_take. lia. }
  unfold arr_write. replace (Zlen b <=? Zlen (key_cipher key)) with true by lia. cbn [mbind result_bind].
  eexists. split; [done|]. split; [|done]. cbn [key_cipher]. by rewrite Zlen_splice by lia.
Qed.

Lemma check_key_total `{OpenSSL} key kt : kt_ok kt -> key_ok key -> exists b, check_key key kt = Ok b.
Proof.
  intros Hk [Hc _]. pose proof (ko_cl _ Hk). unfold check_key. destruct (kt_cipher kt) as [c|]; [|by eexists].
  unfold key_is_zero, check_key_DES. rewrite arr_read_ok by (rewrite Hc; lia). cbn [mbind result_bind].
  destruct (forallb _ _); [by eexists|]. destruct (negb _); by eexists.
Qed.

Lemma init_key_ctx_total key kt enc : kt_ok kt -> key_ok key -> exists ctx, init_key_ctx key kt enc = Ok ctx.
Proof.
  intros [Hcl Hhl Hcc Hd] [Hc Hh]. unfold init_key_ctx.
  set (e := match kt_cipher kt with Some c => _ | None => _ end). assert (exists oc, e = Ok oc) as [oc ->].
  { unfold e. destruct (kt_cipher kt) as [c|]; [|by eexists]. case_test; [|by eexists].
    destruct (Hcc c eq_refl) as (_ & n & En & Hn & Hi). unfold init_cipher. rewrite En. cbn [assert_some mbind result_bind].
    rewrite arr_read_ok by (rewrite Hc; lia). cbn [mbind result_bind].
    destruct (Hi (take (Z.to_nat n) (key_cipher key)) enc) as [ctx ->].
    { unfold Zlen in *. rewrite length_take. unfold MAX_CIPHER_KEY_LENGTH in *. lia. }
    cbn [assert_some mbind result_bind]. replace (n <=? cipher_length kt) with true by lia. by eexists. }
  cbn [mbind result_bind].
  set (e := match kt_digest kt with Some d => _ | None => _ end). assert (exists od, e = Ok od) as [od ->]; [|by eexists].
  unfold e. destruct (kt_digest kt) as [d|]; [|by eexists]. case_test; [|by eexists]. unfold init_hmac.
  rewrite arr_read_ok by (rewrite Hh; lia). cbn [mbind result_bind]. pose proof (Hd d eq_refl).
  replace (md_size d <=? hmac_length kt) with true by lia. by eexists.
Qed.

(** ** Witnesses *)

Definition ex_md : evp_md := EvpMd 4 (fun k m => be_enc 4 (be_dec (k ++ m))) (fun m => be_enc 4 (be_dec m)).

(** A toy OpenSSL: one XOR stream cipher in CBC clothes is enough here. *)
#[local] Instance ex_openssl : OpenSSL := {|
  DES_is_weak_key := fun _ => false;
  DES_check_key_parity := fun _ => true;
  DES_set_odd_parity := fun k => k;
  EVP_get_cipherbyname := fun _ => None;
  EVP_get_digestbyname := fun _ => None;
  cipher_ok := fun _ => true;
  EVP_md5 := ex_md;
  EVP_sha1 := ex_md
|}.

Definition ex_rand : list byte := (fun i => Z.of_nat i mod 251) <$> seq 0 300.

Lemma key_file_roundtrip_witness :
  wp (write_key_file (fun _ => 7) true 2 ex_rand) (fun '(nbits, content, rand') h' =>
    nbits = 1024 * Z.of_nat 2 /\ rand' = drop (128 * 2) ex_rand /\
    forall rds, file_reads content rds -> exists k, read_key_file (Some rds) true = Ok k /\ k2_n k = Z.of_nat 2 /\
      key2_bytes k = take (128 * 2) ex_rand ++ replicate (256 - 128 * 2) 0) ∅.
Proof.
  apply (key_file_roundtrip (fun _ => 7) 2 ex_rand ∅); [by right| |by vm_compute].
  apply Forall_fmap, list.Forall_forall. intros i _. unfold is_byte. cbn. pose proof (Z.mod_pos_bound (Z.of_nat i) 251). lia.
Defined.

(** A null-free cipher: each byte is XORed with the first key byte. *)
Definition ex_xor (k : list byte) (_ m : list byte) : option (list byte) :=
  Some ((fun x => Z.lxor x (hd 0 k)) <$> m).
Definition ex_evp : evp_cipher :=
  EvpCipher (Some (text "XOR")) 2 EVP_CIPH_CBC_MODE 0 1 (fun n => Some n)
    (fun k _ => Some (Cipher EVP_CIPH_CBC_MODE 0 1 (fun _ => true) (ex_xor k) (fun _ _ => Some []))).
Definition ex_kt : key_type := KeyType 2 4 (Some ex_evp) (Some ex_md).
Definition ex_content : list byte := key_file [take 128 ex_rand; take 128 (drop 128 ex_rand)].

Lemma ex_reads : file_reads ex_content [Some ex_content].
Proof. exists [ex_content]. split; [done|]. split; [by rewrite <- (app_nil_r ex_content) at 2|]. by repeat constructor. Qed.

Lemma ex_inverts : cipher_inverts ex_evp.
Proof.
  intros k e d [= <-] [= <-]. split_and!; try done. unfold run_cipher. cbn. intros iv m ct [= <-]. rewrite !app_nil_r. split.
  - f_equal. rewrite <- list_fmap_compose. rewrite <- (list_fmap_id m) at 2. apply list_fmap_ext. intros i x _. cbn.
    by rewrite Z.lxor_assoc, Z.lxor_nilpotent, Z.lxor_0_r.
  - by destruct m.
Qed.

Lemma shared_keys_agree_witness : exists b1 b2,
  init_static_key ex_kt (Some [Some ex_content]) KEY_DIRECTION_NORMAL = Ok b1 /\
  init_static_key ex_kt (Some [Some ex_content]) KEY_DIRECTION_INVERSE = Ok b2 /\
  (init_static_key ex_kt (Some [Some ex_content]) KEY_DIRECTION_NORMAL = Ok b1 ->
   init_static_key ex_kt (Some [Some ex_content]) KEY_DIRECTION_INVERSE = Ok b2 ->
     inverse_ctx (k_encrypt b1) (k_decrypt b2) /\ inverse_ctx (k_encrypt b2) (k_decrypt b1)) /\
  (get_tls_handshake_key ex_kt (Some (Some [Some ex_content])) KEY_DIRECTION_NORMAL = Ok b1 ->
   get_tls_handshake_key ex_kt (Some (Some [Some ex_content])) KEY_DIRECTION_INVERSE = Ok b2 ->
     k_encrypt b1 = k_decrypt b2 /\ k_encrypt b2 = k_decrypt b1).
Proof.
  eexists _, _. split; [vm_compute; reflexivity|]. split; [vm_compute; reflexivity|].
  apply (shared_keys_agree ex_kt ex_content [Some ex_content] [Some ex_content] KEY_DIRECTION_NORMAL KEY_DIRECTION_INVERSE);
    [apply ex_reads|apply ex_reads|done|]. intros c [= <-]. apply ex_inverts.
Defined.
