(* ===== verification/Prf.v ===== *)
(** Key material and its expansion (src/ssl.c): struct key_source2, the TLS pseudo-random
    function, generate_key_expansion, and the key sources on the control channel.

    The PRF is shown to be the one of RFC 2246, section 5, and both sides of an exchange to
    expand the same sources to matching keys. *)

From S2P Require Import Prelude Buffer Integer PacketId Mtu Crypto Text Own Key.

Definition SID_LEN : Z := 8. (* SID_SIZE of session_id.h *)

Record key_source := KeySource { pre_master : list byte; random1 : list byte; random2 : list byte }.
Record key_source2 := KeySource2 { client : key_source; server_src : key_source }.

Definition clear_source : key_source := KeySource (replicate 48 0) (replicate 32 0) (replicate 32 0).
Definition clear_source2 : key_source2 := KeySource2 clear_source clear_source.

Section Prf.
Context `{OpenSSL}.

(** Each round of the loop produces a digest: [fuel] is the length wanted. *)
Fixpoint P_hash_loop (fuel : nat) (md : evp_md) (sec seed A1 : list byte) (olen : Z) : result (list byte) :=
  if olen >? md_size md then
    match fuel with
    | O => Fault
    | S fuel =>
        let out := md_hmac md sec (A1 ++ seed) in
        rest ← P_hash_loop fuel md sec seed (md_hmac md sec A1) (olen - Zlen out);
        Ok (out ++ rest)
    end
  else arr_read (md_hmac md sec (A1 ++ seed)) olen.
Definition tls1_P_hash (md : evp_md) (sec seed : list byte) (olen : Z) : result (list byte) :=
  P_hash_loop (Z.to_nat olen) md sec seed (md_hmac md sec seed) olen.

Definition tls1_PRF (label sec : list byte) (olen : Z) : result (list byte) :=
  let slen := Zlen sec in
  let half := Z.quot slen 2 in
  let len := half + Z.land slen 1 in
  out1 ← tls1_P_hash EVP_md5 (slice 0 len sec) label olen;
  out2 ← tls1_P_hash EVP_sha1 (slice half len sec) label olen;
  Ok (zip_with Z.lxor out1 out2).

Definition buf_write_assert (b : buffer) (s : list byte) : M buffer :=
  '(ok, b) ← buf_write b s;
  _ ← ASSERT ok;
  mret b.

Definition openvpn_PRF (fill : Z -> Z) (secret label client_seed server_seed : list byte)
    (client_sid server_sid : option (list byte)) (output_len : Z) : M (list byte) :=
  seed ← alloc_buf fill (Zlen label + Zlen client_seed + Zlen server_seed + SID_LEN * 2);
  seed ← buf_write_assert seed label;
  seed ← buf_write_assert seed client_seed;
  seed ← buf_write_assert seed server_seed;
  seed ← (match client_sid with Some sid => buf_write_assert seed sid | None => mret seed end);
  seed ← (match server_sid with Some sid => buf_write_assert seed sid | None => mret seed end);
  p ← deref (BPTR seed);
  s ← load p (b_len seed);
  out ← lift (tls1_PRF s secret output_len);
  seed ← buf_clear seed;
  _ ← free_buf seed;
  mret out.

(** fixup_key and check_key of both keys: None is a bad key. *)
Fixpoint fix_keys (keys : list key_data) (kt : key_type) : result (option (list key_data)) :=
  match keys with
  | [] => Ok (Some [])
  | key :: keys =>
      key ← fixup_key key kt;
      ok ← check_key key kt;
      if negb ok then Ok None
      else r ← fix_keys keys kt; Ok (match r with Some l => Some (key :: l) | None => None end)
  end.

(** The contexts, or None for the result false. *)
Definition generate_key_expansion (fill : Z -> Z) (kt : key_type) (key_src : key_source2)
    (client_sid server_sid : list byte) (server : bool) : M (option key_ctx_bi) :=
  master ← openvpn_PRF fill (pre_master (client key_src)) (text "OpenVPN master secret")
    (random1 (client key_src)) (random1 (server_src key_src)) None None 48;
  keys ← openvpn_PRF fill master (text "OpenVPN key expansion")
    (random2 (client key_src)) (random2 (server_src key_src)) (Some client_sid) (Some server_sid) KEYLEN;
  keys ← lift (fix_keys (split_keys keys) kt);
  match keys with
  | None => mret None
  | Some keys =>
      ko ← lift (aget keys (if server then 1 else 0));
      e ← lift (init_key_ctx ko kt true);
      ki ← lift (aget keys (1 - (if server then 1 else 0)));
      d ← lift (init_key_ctx ki kt false);
      mret (Some (KeyCtxBi e d))
  end.

(** The random bytes, whether they were written, the buffer, the rest of the stream. *)
Definition random_bytes_to_buf (buf : buffer) (outlen : Z) (rand : list byte) : M (bool * list byte * buffer * list byte) :=
  '(out, rand) ← lift (RAND_bytes outlen rand);
  '(ok, buf) ← buf_write buf out;
  mret (ok, out, buf, rand).

Definition set_source (k2 : key_source2) (server : bool) (k : key_source) : key_source2 :=
  if server then KeySource2 (client k2) k else KeySource2 k (server_src k2).

Definition key_source2_randomize_write (k2 : key_source2) (buf : buffer) (server : bool) (rand : list byte)
  : M (bool * key_source2 * buffer * list byte) :=
  let k := clear_source in
  '(ok, pm, buf, rand) ← (if negb server then random_bytes_to_buf buf 48 rand else mret (true, pre_master k, buf, rand));
  let k := KeySource pm (random1 k) (random2 k) in
  if negb ok then mret (false, set_source k2 server k, buf, rand) else
  '(ok, r1, buf, rand) ← random_bytes_to_buf buf 32 rand;
  let k := KeySource pm r1 (random2 k) in
  if negb ok then mret (false, set_source k2 server k, buf, rand) else
  '(ok, r2, buf, rand) ← random_bytes_to_buf buf 32 rand;
  let k := KeySource pm r1 r2 in
  mret (ok, set_source k2 server k, buf, rand).

(** The peer's source: the client's, on a server. *)
Definition key_source2_read (k2 : key_source2) (buf : buffer) (server : bool) : M (bool * key_source2 * buffer) :=
  let k := clear_source in
  '(pm, buf) ← (if server then read_array (pre_master k) buf 48 else mret (Some (pre_master k), buf));
  match pm with
  | None => mret (false, set_source k2 (negb server) k, buf)
  | Some pm =>
      '(r1, buf) ← read_array (random1 k) buf 32;
      match r1 with
      | None => mret (false, set_source k2 (negb server) (KeySource pm (random1 k) (random2 k)), buf)
      | Some r1 =>
          '(r2, buf) ← read_array (random2 k) buf 32;
          match r2 with
          | None => mret (false, set_source k2 (negb server) (KeySource pm r1 (random2 k)), buf)
          | Some r2 => mret (true, set_source k2 (negb server) (KeySource pm r1 r2), buf)
          end
      end
  end.
End Prf.

(** ** RFC 2246, section 5 *)

Definition md_ok (md : evp_md) : Prop := 0 < md_size md <= MAX_HMAC_KEY_LENGTH /\
  forall k m, Zlen (md_hmac md k m) = md_size md /\ Forall is_byte (md_hmac md k m).

(** A(0) = seed, A(i) = HMAC_hash (secret, A(i-1)) *)
Fixpoint rfc_A (md : evp_md) (secret seed : list byte) (i : nat) : list byte :=
  match i with O => seed | S i => md_hmac md secret (rfc_A md secret seed i) end.

(** HMAC_hash (secret, A(1) + seed) + HMAC_hash (secret, A(2) + seed) + ..., n of them *)
Definition rfc_P_hash (md : evp_md) (secret seed : list byte) (n : nat) : list byte :=
  mjoin ((fun i => md_hmac md secret (rfc_A md secret seed i ++ seed)) <$> seq 1 n).

Lemma mjoin_cons {A} (x : list A) l : mjoin (x :: l) = x ++ mjoin l.
Proof. done. Qed.

Lemma P_hash_loop_rfc md secret seed : md_ok md -> forall fuel i olen n,
  0 <= olen <= Z.of_nat fuel -> olen <= md_size md * Z.of_nat n -> (0 < n)%nat ->
  P_hash_loop fuel md secret seed (rfc_A md secret seed i) olen
  = Ok (take (Z.to_nat olen) (mjoin ((fun i => md_hmac md secret (rfc_A md secret seed i ++ seed)) <$> seq i n))).
Proof.
  intros [Hmd Hlen]. induction fuel as [|fuel IH]; intros i olen [|n] Hol Hn Hpos; try lia; cbn [P_hash_loop seq].
  - replace (olen >? md_size md) with false by lia. rewrite fmap_cons, mjoin_cons.
    destruct (Hlen secret (rfc_A md secret seed i ++ seed)) as [Hz _]. unfold arr_read. rewrite Hz.
    replace (olen <=? md_size md) with true by lia. by replace olen with 0 by lia.
  - rewrite fmap_cons, mjoin_cons. destruct (Hlen secret (rfc_A md secret seed i ++ seed)) as [Hz _].
    destruct (olen >? md_size md) eqn:E; rewrite Z.gtb_ltb in E; bool_simp.
    + rewrite Hz. change (md_hmac md secret (rfc_A md secret seed i)) with (rfc_A md secret seed (S i)).
      rewrite (IH (S i) (olen - md_size md) n) by lia. cbn [mbind result_bind]. f_equal.
      rewrite take_app. f_equal.
      * symmetry. apply take_ge. unfold Zlen in *. lia.
      * f_equal. unfold Zlen in *. lia.
    + unfold arr_read. rewrite Hz. replace (olen <=? md_size md) with true by lia. f_equal.
      rewrite take_app_le; [done|]. unfold Zlen in *. lia.
Qed.

Lemma tls1_P_hash_rfc md secret seed olen n : md_ok md -> 0 <= olen -> olen <= md_size md * Z.of_nat n -> (0 < n)%nat ->
  tls1_P_hash md secret seed olen = Ok (take (Z.to_nat olen) (rfc_P_hash md secret seed n)).
Proof. intros. unfold tls1_P_hash. apply (P_hash_loop_rfc md secret seed) with (i := 1%nat); auto; lia. Qed.

Definition halves (secret : list byte) : list byte * list byte :=
  let l := ((length secret + 1) / 2)%nat in (take l secret, drop (length secret - l) secret).

(** PRF (secret, label, seed) = P_MD5 (S1, label + seed) XOR P_SHA-1 (S2, label + seed), the two
    halves of the secret sharing the middle byte if its length is odd. *)
Definition rfc_PRF `{OpenSSL} (secret label_seed : list byte) (olen : nat) : list byte :=
  let '(s1, s2) := halves secret in
  zip_with Z.lxor (take olen (rfc_P_hash EVP_md5 s1 label_seed (S olen))) (take olen (rfc_P_hash EVP_sha1 s2 label_seed (S olen))).

Lemma halves_slices (secret : list byte) :
  let slen := Zlen secret in let half := Z.quot slen 2 in let len := half + Z.land slen 1 in
  halves secret = (slice 0 len secret, slice half len secret).
Proof.
  cbv zeta. set (slen := Zlen secret). pose proof (Zlen_nonneg secret) as Hs. fold slen in Hs.
  assert (Z.land slen 1 = slen mod 2) as -> by (change 1 with (Z.ones 1); by rewrite Z.land_ones by lia).
  rewrite Z.quot_div_nonneg by lia. unfold halves, slice.
  assert (Z.to_nat (slen / 2 + slen mod 2) = ((length secret + 1) / 2)%nat) as ->.
  { apply Nat2Z.inj. rewrite Z2Nat.id by (Z.to_euclidean_division_equations; lia). rewrite Nat2Z.inj_div, Nat2Z.inj_add.
    unfold slen, Zlen. change (Z.of_nat 1) with 1. change (Z.of_nat 2) with 2. Z.to_euclidean_division_equations. lia. }
  assert ((length secret + 1) / 2 <= length secret)%nat as Hhalf.
  { destruct (length secret) as [|k]; [by vm_compute|]. apply Nat.Div0.div_le_upper_bound. lia. }
  change (Z.to_nat 0) with 0%nat. rewrite drop_0. f_equal.
  assert (Z.to_nat (slen / 2) = length secret - (length secret + 1) / 2)%nat as ->.
  { apply Nat2Z.inj. rewrite Z2Nat.id by (Z.to_euclidean_division_equations; lia).
    rewrite Nat2Z.inj_sub by done. rewrite Nat2Z.inj_div, Nat2Z.inj_add.
    unfold slen, Zlen. change (Z.of_nat 1) with 1. change (Z.of_nat 2) with 2. Z.to_euclidean_division_equations. lia. }
  symmetry. apply take_ge. rewrite length_drop. lia.
Qed.

(** C25: the key derivation is TLS 1.0's.  For every secret (of odd or even length), label and
    seed and every length, tls1_PRF computes the pseudo-random function of RFC 2246, with
    digests of any size; it always returns. *)
Theorem tls1_PRF_rfc2246 `{OpenSSL} label sec olen :
  md_ok EVP_md5 -> md_ok EVP_sha1 -> 0 <= olen ->
  tls1_PRF label sec olen = Ok (rfc_PRF sec label (Z.to_nat olen)).
Proof.
  intros Hm Hs Ho. unfold tls1_PRF, rfc_PRF. rewrite halves_slices. cbv zeta.
  rewrite (tls1_P_hash_rfc EVP_md5 _ label olen (S (Z.to_nat olen))) by (auto; destruct Hm; nia || lia).
  cbn [mbind result_bind].
  by rewrite (tls1_P_hash_rfc EVP_sha1 _ label olen (S (Z.to_nat olen))) by (auto; destruct Hs; nia || lia).
Qed.

(** ** generate_key_expansion *)

Lemma wp_buf_write_assert h p b bs s :
  buf_rep h p b bs -> b_offset b + b_len b + Zlen s <= b_capacity b ->
  wp (buf_write_assert b s) (fun b' h' => b' = with_len b (b_len b + Zlen s) /\ buf_rep h' p b' (bs ++ s) /\ keeps [blk p] h h') h.
Proof.
  intros H Hs. unfold buf_write_assert. wp_steps. eapply wp_mono; [by apply wp_buf_write|].
  intros r h' (-> & Hr & Hm). wp_steps. split; [done|]. split; [done|]. eapply modifies_keeps; [exact Hm|by left].
Qed.

Lemma wp_free_keeps h p b bs :
  buf_rep h p b bs -> pos p = 0 -> wp (free_buf b) (fun b' h' => b' = clear_buf /\ keeps [blk p] h h') h.
Proof.
  intros H Hp. unfold wp, free_buf. rewrite (br_data _ _ _ _ H). pose proof (br_valid _ _ _ _ H) as [x Hx].
  rewrite decide_True by (split; [done|]; apply mload_Some in Hx as (? & ? & _); eauto).
  split; [done|]. intros q k y Hq Hy. unfold mload in *. rewrite lookup_delete_ne; [done|].
  intros E. apply Hq. rewrite E. by left.
Qed.

(** A buffer that is made, written and freed again leaves the memory as it was. *)
Lemma fresh_scratch h h1 h2 p : fresh_ext h h1 p -> keeps [blk p] h1 h2 -> keeps [] h h2.
Proof.
  intros (_ & _ & E) K q k x _ Hx. destruct (E q k x Hx) as [Hx1 Hne]. apply K; [|done]. by rewrite list_elem_of_singleton.
Qed.

Definition sid_bytes (o : option (list byte)) : list byte := match o with Some s => s | None => [] end.

Lemma wp_write_sid h p b bs o :
  buf_rep h p b bs -> b_offset b + b_len b + Zlen (sid_bytes o) <= b_capacity b ->
  wp (match o with Some sid => buf_write_assert b sid | None => mret b end) (fun b' h' =>
    b' = with_len b (b_len b + Zlen (sid_bytes o)) /\ buf_rep h' p b' (bs ++ sid_bytes o) /\ keeps [blk p] h h') h.
Proof.
  intros H Hs. destruct o as [s|]; cbn [sid_bytes] in *; [by apply wp_buf_write_assert|]. wp_steps.
  rewrite Zlen_nil, Z.add_0_r, app_nil_r. split; [by destruct b|]. split; [by destruct b|apply keeps_refl].
Qed.

Lemma wp_openvpn_PRF `{OpenSSL} fill secret label cs ss csid ssid olen h :
  md_ok EVP_md5 -> md_ok EVP_sha1 -> 0 <= olen ->
  0 < Zlen label + Zlen cs + Zlen ss + 16 <= BUF_MAX -> Zlen (sid_bytes csid) <= 8 -> Zlen (sid_bytes ssid) <= 8 ->
  wp (openvpn_PRF fill secret label cs ss csid ssid olen) (fun out h' =>
    out = rfc_PRF secret (label ++ cs ++ ss ++ sid_bytes csid ++ sid_bytes ssid) (Z.to_nat olen) /\ keeps [] h h') h.
Proof.
  intros Hm Hs Ho Hmax Hc8 Hs8. unfold openvpn_PRF, SID_LEN. change (8 * 2) with 16. wp_steps.
  pose proof (Zlen_nonneg label) as Zl. pose proof (Zlen_nonneg cs) as Zc. pose proof (Zlen_nonneg ss) as Zs.
  eapply wp_mono; [apply wp_alloc_buf; lia|]. intros b h1 (p & -> & Hb & Hf). wp_steps.
  set (cap := Zlen label + Zlen cs + Zlen ss + 16) in *. 
  eapply wp_mono; [apply (wp_buf_write_assert h1 p _ [] label Hb); cbn; lia|]. intros b h2 (-> & H2 & K2). wp_steps.
  eapply wp_mono; [apply (wp_buf_write_assert h2 p _ _ cs H2); cbn; lia|]. intros b h3 (-> & H3 & K3). wp_steps.
  eapply wp_mono; [apply (wp_buf_write_assert h3 p _ _ ss H3); cbn; lia|]. intros b h4 (-> & H4 & K4). wp_steps.
  eapply wp_mono; [apply (wp_write_sid h4 p _ _ csid H4); cbn; lia|]. intros b h5 (-> & H5 & K5). wp_steps.
  eapply wp_mono; [apply (wp_write_sid h5 p _ _ ssid H5); cbn; lia|]. intros b h6 (-> & H6 & K6). wp_steps.
  rewrite (BPTR_rep _ _ _ _ H6). wp_steps. eapply wp_load; [apply (br_bytes _ _ _ _ H6)|]. wp_steps.
  eapply wp_lift; [by apply tls1_PRF_rfc2246|]. wp_steps.
  eapply wp_mono; [apply (wp_buf_clear h6 p _ _ H6)|]. intros b h7 (H7 & K7). wp_steps.
  eapply wp_mono; [apply (wp_free_keeps h7 p b _ H7); by destruct Hf|]. intros b' h8 (-> & K8). wp_steps.
  split; [by rewrite <- !app_assoc|]. eapply fresh_scratch; [exact Hf|].
  repeat (eapply keeps_trans; [eassumption|]). apply keeps_refl.
Qed.

Lemma fix_keys_total `{OpenSSL} kt keys : parity_ok -> kt_ok kt -> Forall key_ok keys ->
  exists o, fix_keys keys kt = Ok o /\ forall l, o = Some l -> length l = length keys /\ Forall key_ok l.
Proof.
  intros Hp Hk. induction 1 as [|key keys Hkey Hkeys IH]; cbn [fix_keys].
  { eexists. split; [done|]. by intros l [= <-]. }
  destruct (fixup_key_total key kt Hp Hk Hkey) as (key' & -> & Hkey'). cbn [mbind result_bind].
  destruct (check_key_total key' kt Hk Hkey') as [ok ->]. cbn [mbind result_bind]. destruct ok; cbn [negb]; [|by eexists].
  destruct IH as (o & -> & Ho). cbn [mbind result_bind]. eexists. split; [done|]. destruct o as [l|]; [|done].
  intros l' [= <-]. destruct (Ho l eq_refl) as [Hl Hf]. split; [by cbn; rewrite Hl|by constructor].
Qed.

Record source_ok (k : key_source) : Prop := {
  ks_pre : Zlen (pre_master k) = 48; ks_r1 : Zlen (random1 k) = 32; ks_r2 : Zlen (random2 k) = 32
}.
Definition sources_ok (k : key_source2) : Prop := source_ok (client k) /\ source_ok (server_src k).

(** The two keys of the exchange. *)
Definition expanded `{OpenSSL} (src : key_source2) (csid ssid : list byte) : list key_data :=
  let master := rfc_PRF (pre_master (client src)) (text "OpenVPN master secret" ++ random1 (client src) ++ random1 (server_src src)) 48 in
  split_keys (rfc_PRF master (text "OpenVPN key expansion" ++ random2 (client src) ++ random2 (server_src src) ++ csid ++ ssid) 256).

Lemma Zlen_rfc_PRF `{OpenSSL} sec seed n : md_ok EVP_md5 -> md_ok EVP_sha1 -> Zlen (rfc_PRF sec seed n) = Z.of_nat n.
Proof.
  intros Hm Hs. unfold rfc_PRF. destruct (halves sec) as [s1 s2].
  assert (forall md s, md_ok md -> length (take n (rfc_P_hash md s seed (S n))) = n) as Hl.
  { intros md s [Hmd Hlen]. rewrite length_take. enough (n <= length (rfc_P_hash md s seed (S n)))%nat by lia.
    unfold rfc_P_hash. assert (forall m i, (m <= length (mjoin ((fun i => md_hmac md s (rfc_A md s seed i ++ seed)) <$> seq i m)))%nat) as Hj.
    { induction m as [|m IH]; intros i; [lia|]. cbn [seq]. rewrite fmap_cons, mjoin_cons, length_app. specialize (IH (S i)).
      destruct (Hlen s (rfc_A md s seed i ++ seed)) as [Hz _]. unfold Zlen in Hz. lia. }
    pose proof (Hj (S n) 1%nat). lia. }
  unfold Zlen. rewrite length_zip_with, !Hl by done. lia.
Qed.

Lemma wp_generate_key_expansion `{OpenSSL} fill kt src csid ssid server h :
  md_ok EVP_md5 -> md_ok EVP_sha1 -> parity_ok -> kt_ok kt -> sources_ok src -> Zlen csid = 8 -> Zlen ssid = 8 ->
  wp (generate_key_expansion fill kt src csid ssid server) (fun r h' => keeps [] h h' /\
    exists o, fix_keys (expanded src csid ssid) kt = Ok o /\
      match o with
      | None => r = None
      | Some keys => exists k0 k1 e d, keys = [k0; k1] /\ r = Some (KeyCtxBi e d) /\
          init_key_ctx (if server then k1 else k0) kt true = Ok e /\ init_key_ctx (if server then k0 else k1) kt false = Ok d
      end) h.
Proof.
  intros Hm Hs Hp Hk [[H1 H2 H3] [H4 H5 H6]] Hc Hd. unfold generate_key_expansion. wp_steps.
  eapply wp_mono; [apply wp_openvpn_PRF; try done; cbn [sid_bytes]; rewrite ?H2, ?H5, ?Zlen_nil; by vm_compute|].
  intros master h1 (-> & K1). wp_steps. cbn [sid_bytes]. rewrite !app_nil_r.
  eapply wp_mono; [apply wp_openvpn_PRF; try done; cbn [sid_bytes]; rewrite ?H3, ?H6, ?Hc, ?Hd; by vm_compute|].
  intros keys h2 (-> & K2). wp_steps. cbn [sid_bytes]. change (Z.to_nat KEYLEN) with 256%nat. change (Z.to_nat 48) with 48%nat.
  change (split_keys _) with (expanded src csid ssid).
  assert (Forall key_ok (expanded src csid ssid)) as Hok.
  { unfold expanded, split_keys. set (l := rfc_PRF _ _ 256). assert (Zlen l = 256) as Hl by by apply Zlen_rfc_PRF.
    repeat constructor; cbn [key_cipher key_hmac]; rewrite Zlen_slice by lia; done. }
  destruct (fix_keys_total kt (expanded src csid ssid) Hp Hk Hok) as (o & Ho & Hlen).
  eapply wp_lift; [exact Ho|]. wp_steps. assert (keeps [] h h2) as K by by eapply keeps_trans. destruct o as [keys|]; wp_steps.
  2:{ split; [done|]. by exists None. }
  destruct (Hlen keys eq_refl) as [Hl Hf]. destruct keys as [|k0 [|k1 [|]]]; try done.
  apply list.Forall_cons in Hf as [Hk0 Hf]. apply list.Forall_cons in Hf as [Hk1 _].
  assert (aget [k0; k1] (if server then 1 else 0) = Ok (if server then k1 else k0)) as E1 by by destruct server.
  assert (aget [k0; k1] (1 - (if server then 1 else 0)) = Ok (if server then k0 else k1)) as E2 by by destruct server.
  destruct (init_key_ctx_total (if server then k1 else k0) kt true Hk) as [e Ee]; [by destruct server|].
  destruct (init_key_ctx_total (if server then k0 else k1) kt false Hk) as [d Ed]; [by destruct server|].
  eapply wp_lift; [exact E1|]. wp_steps. eapply wp_lift; [exact Ee|]. wp_steps.
  eapply wp_lift; [exact E2|]. wp_steps. eapply wp_lift; [exact Ed|]. wp_steps.
  split; [done|]. exists (Some [k0; k1]). split; [done|]. by exists k0, k1, e, d.
Qed.

(** Both ends of a key exchange derive keys that fit.  From the same key sources and session
    ids, the client's and the server's generate_key_expansion both return, touch no memory of
    others, agree on whether the keys are good, and if they are what each encrypts with
    inverts what the other decrypts with. *)
Theorem key_expansion_agrees `{OpenSSL} fill1 fill2 kt src csid ssid h1 h2 :
  md_ok EVP_md5 -> md_ok EVP_sha1 -> parity_ok -> kt_ok kt -> sources_ok src -> Zlen csid = 8 -> Zlen ssid = 8 ->
  exists o : option (key_ctx_bi * key_ctx_bi),
    wp (generate_key_expansion fill1 kt src csid ssid false) (fun r h' => r = fst <$> o /\ keeps [] h1 h') h1 /\
    wp (generate_key_expansion fill2 kt src csid ssid true) (fun r h' => r = snd <$> o /\ keeps [] h2 h') h2 /\
    forall kc ks, o = Some (kc, ks) -> inverse_ctx (k_encrypt kc) (k_decrypt ks) /\ inverse_ctx (k_encrypt ks) (k_decrypt kc).
Proof.
  intros Hm Hs Hp Hk Hsrc Hc Hd.
  pose proof (wp_generate_key_expansion fill1 kt src csid ssid false h1 Hm Hs Hp Hk Hsrc Hc Hd) as W1.
  pose proof (wp_generate_key_expansion fill2 kt src csid ssid true h2 Hm Hs Hp Hk Hsrc Hc Hd) as W2.
  apply wp_Ok in W1 as (r1 & g1 & E1 & K1 & o1 & F1 & R1). apply wp_Ok in W2 as (r2 & g2 & E2 & K2 & o2 & F2 & R2).
  rewrite F1 in F2. injection F2 as <-. unfold wp. rewrite E1, E2. destruct o1 as [keys|].
  - destruct R1 as (k0 & k1 & e1 & d1 & -> & -> & A1 & B1). destruct R2 as (k0' & k1' & e2 & d2 & [= <- <-] & -> & A2 & B2).
    exists (Some (KeyCtxBi e1 d1, KeyCtxBi e2 d2)). split; [done|]. split; [done|]. intros kc ks [= <- <-].
    split; (eapply init_key_ctx_inverse; [|eassumption..]); intros c Ec; by apply (ko_cipher _ Hk).
  - subst. by exists None.
Qed.

(** ** Witnesses *)

#[local] Existing Instance ex_openssl.

Lemma ex_md_ok : md_ok ex_md.
Proof.
  split; [by vm_compute|]. intros k m. split; [apply Zlen_be_enc|apply be_enc_bytes].
Qed.

Lemma ex_kt_ok : kt_ok ex_kt.
Proof.
  split; try (by vm_compute).
  - intros c [= <-]. split; [apply ex_inverts|]. exists 2. split; [done|]. split; [done|]. by intros k enc _.
  - by intros d [= <-].
Qed.
Definition ex_source (n : Z) : key_source := KeySource (replicate 48 n) (replicate 32 (n + 1)) (replicate 32 (n + 2)).
Definition ex_sources : key_source2 := KeySource2 (ex_source 3) (ex_source 9).

Lemma tls1_PRF_rfc2246_witness : 
  tls1_PRF (text "label") (text "secret!") 9 = Ok (rfc_PRF (text "secret!") (text "label") (Z.to_nat 9)).
Proof. apply tls1_PRF_rfc2246; [apply ex_md_ok|apply ex_md_ok|done]. Defined.

Lemma key_expansion_agrees_witness :
  exists o : option (key_ctx_bi * key_ctx_bi),
    wp (generate_key_expansion (fun _ => 7) ex_kt ex_sources (replicate 8 1) (replicate 8 2) false) (fun r h' => r = fst <$> o /\ keeps [] ∅ h') ∅ /\
    wp (generate_key_expansion (fun _ => 9) ex_kt ex_sources (replicate 8 1) (replicate 8 2) true) (fun r h' => r = snd <$> o /\ keeps [] ∅ h') ∅ /\
    forall kc ks, o = Some (kc, ks) -> inverse_ctx (k_encrypt kc) (k_decrypt ks) /\ inverse_ctx (k_encrypt ks) (k_decrypt kc).
Proof.
  apply (key_expansion_agrees (fun _ => 7) (fun _ => 9) ex_kt ex_sources (replicate 8 1) (replicate 8 2) ∅ ∅);
    [apply ex_md_ok|apply ex_md_ok|done|apply ex_kt_ok|by repeat split|done|done].
Defined.
