(* ===== verification/Tls.v ===== *)
(** The TLS sessions of one peer (src/ssl.c, src/ssl.h): key states, their life cycle,
    and the multiplexing of control and data channel packets (tls_pre_decrypt,
    tls_pre_decrypt_lite, tls_pre_encrypt, tls_post_encrypt).

    A pointer to a key state is its place in the tls_multi object; the persisted
    packet id that all sessions point to is a member of the model's [tls_multi].  The
    OpenSSL objects of a key state are of an unspecified type, made by [SSL_new].
    Debug output is left out. *)

From S2P Require Import Prelude Buffer Integer PacketId Mtu Crypto Reliable ControlAuth Key Prf.

(** ** Constants of ssl.h and mtu.h *)

Definition P_CONTROL_HARD_RESET_CLIENT_V1 : Z := 1.
Definition P_CONTROL_HARD_RESET_SERVER_V1 : Z := 2.
Definition P_CONTROL_SOFT_RESET_V1 : Z := 3.
Definition P_CONTROL_V1 : Z := 4.
Definition P_ACK_V1 : Z := 5.
Definition P_DATA_V1 : Z := 6.
Definition P_CONTROL_HARD_RESET_CLIENT_V2 : Z := 7.
Definition P_CONTROL_HARD_RESET_SERVER_V2 : Z := 8.
Definition P_FIRST_OPCODE : Z := 1.
Definition P_LAST_OPCODE : Z := 8.

Definition S_ERROR : Z := -1.
Definition S_UNDEF : Z := 0.
Definition S_INITIAL : Z := 1.
Definition S_PRE_START : Z := 2.
Definition S_START : Z := 3.
Definition S_SENT_KEY : Z := 4.
Definition S_GOT_KEY : Z := 5.
Definition S_ACTIVE : Z := 6.
Definition S_NORMAL : Z := 7.

Definition TLS_RELIABLE_N_SEND_BUFFERS : Z := 4.
Definition TLS_RELIABLE_N_REC_BUFFERS : Z := 8.
Definition PLAINTEXT_BUFFER_SIZE : Z := 1024. (* TLS_CHANNEL_BUF_SIZE *)

Definition is_hard_reset (op key_method : Z) : bool :=
  ((key_method =? 0) || (key_method =? 1)) &&
    ((op =? P_CONTROL_HARD_RESET_CLIENT_V1) || (op =? P_CONTROL_HARD_RESET_SERVER_V1))
  || ((key_method =? 0) || (key_method >=? 2)) &&
    ((op =? P_CONTROL_HARD_RESET_CLIENT_V2) || (op =? P_CONTROL_HARD_RESET_SERVER_V2)).

(** ** Data *)

(** The members of struct tls_options that say how the peer is to be authenticated; what is
    defined or not only is a bool.  auth_user_pass is the global of that name, if it is
    enabled. *)
Record auth_options := AuthOptions {
  local_options : list byte;
  remote_options : list byte;
  disable_occ : bool;
  auth_user_pass : option (list byte * list byte);
  auth_user_pass_verify_script : bool;
  auth_user_pass_verify_plugin : bool;
  username_as_common_name : bool;
  client_config_dir_exclusive : option (list byte);
  ns_cert_type : Z;
  verify_x509name : option (list byte);
  tls_verify_plugin : bool;
  verify_command : option (list byte);
  crl_file : bool
}.

(** The members of struct tls_options that are used here. *)
Record tls_options := TlsOptions {
  server : bool;
  key_method : Z;
  replay : bool;
  single_session : bool;
  transition_window : Z;
  packet_timeout : Z;
  crypto_flags_and : Z;
  crypto_flags_or : Z;
  replay_window : Z;
  replay_time : Z;
  opt_tls_auth : crypto_options;
  opt_frame : frame;
  opt_key_type : key_type;
  handshake_window : Z;
  renegotiate_bytes : Z;
  renegotiate_packets : Z;
  renegotiate_seconds : Z;
  opt_auth : auth_options
}.

Inductive tm_index := TM_ACTIVE | TM_UNTRUSTED | TM_LAME_DUCK.
Inductive ks_index := KS_PRIMARY | KS_LAME_DUCK.
#[export] Instance tm_index_eq_dec : EqDecision tm_index.
Proof. solve_decision. Defined.
#[export] Instance ks_index_eq_dec : EqDecision ks_index.
Proof. solve_decision. Defined.

Section Tls.
Context {tls_obj : Type} (SSL_new : bool -> option tls_obj).

Record key_state := KeyState {
  state : Z;
  key_id : Z;
  ssl : option tls_obj;
  established : Z;
  must_negotiate : Z;
  must_die : Z;
  initial_opcode : Z;
  session_id_remote : session_id;
  remote_addr : sockaddr_in;
  ks_packet_id : packet_id;
  key : key_ctx_bi;
  plaintext_read_buf : buffer;
  plaintext_write_buf : buffer;
  ack_write_buf : buffer;
  send_reliable : option reliable;
  rec_reliable : option reliable;
  rec_ack : option reliable_ack;
  n_bytes : Z;
  n_packets : Z;
  authenticated : bool;
  key_src : key_source2;
  ssl_session : tm_index (* the session pointer that SSL_set_ex_data stored in ssl *)
}.

Record tls_session := Session {
  burst : bool;
  tls_auth : crypto_options; (* with tls_auth_pid as its packet_id *)
  s_initial_opcode : Z;
  s_session_id : session_id;
  s_key_id : Z;
  common_name : option (list byte);
  verified : bool;
  untrusted_sockaddr : sockaddr_in;
  key_primary : key_state;
  key_lame : key_state
}.

(** A [struct key_state *] into the sessions. *)
Definition ks_ref : Type := tm_index * ks_index.
#[export] Instance ks_ref_eq_dec : EqDecision ks_ref := prod_eq_dec.

Record tls_multi := Multi {
  m_opt : tls_options;
  pid_persist : option packet_id_persist; (* *opt.tls_auth.pid_persist *)
  save_ks : option ks_ref;
  n_sessions : Z;
  n_hard_errors : Z;
  n_soft_errors : Z;
  locked_cn : option (list byte);
  s_active : tls_session;
  s_untrusted : tls_session;
  s_lame : tls_session
}.

Definition key_scan : list ks_ref :=
  [(TM_ACTIVE, KS_PRIMARY); (TM_ACTIVE, KS_LAME_DUCK); (TM_LAME_DUCK, KS_LAME_DUCK)].

(** The members of crypto_options that the data channel sets: pointers again. *)
Record data_options := DataOpt { d_key : option ks_ref; d_packet_id : option ks_ref; d_flags : Z }.

(** ** Access and assignment *)

Definition session (m : tls_multi) (i : tm_index) : tls_session :=
  match i with TM_ACTIVE => s_active m | TM_UNTRUSTED => s_untrusted m | TM_LAME_DUCK => s_lame m end.
Definition session_key (s : tls_session) (j : ks_index) : key_state :=
  match j with KS_PRIMARY => key_primary s | KS_LAME_DUCK => key_lame s end.
Definition ks_at (m : tls_multi) (r : ks_ref) : key_state := session_key (session m (fst r)) (snd r).

Definition set_session (m : tls_multi) (i : tm_index) (s : tls_session) : tls_multi :=
  Multi (m_opt m) (pid_persist m) (save_ks m) (n_sessions m) (n_hard_errors m) (n_soft_errors m) (locked_cn m)
    (match i with TM_ACTIVE => s | _ => s_active m end)
    (match i with TM_UNTRUSTED => s | _ => s_untrusted m end)
    (match i with TM_LAME_DUCK => s | _ => s_lame m end).
Definition set_key (s : tls_session) (j : ks_index) (ks : key_state) : tls_session :=
  Session (burst s) (tls_auth s) (s_initial_opcode s) (s_session_id s) (s_key_id s) (common_name s) (verified s) (untrusted_sockaddr s)
    (match j with KS_PRIMARY => ks | _ => key_primary s end) (match j with KS_LAME_DUCK => ks | _ => key_lame s end).
Definition set_ks (m : tls_multi) (r : ks_ref) (ks : key_state) : tls_multi :=
  set_session m (fst r) (set_key (session m (fst r)) (snd r) ks).
Definition set_burst (s : tls_session) (v : bool) : tls_session :=
  Session v (tls_auth s) (s_initial_opcode s) (s_session_id s) (s_key_id s) (common_name s) (verified s) (untrusted_sockaddr s)
    (key_primary s) (key_lame s).
Definition set_tls_auth (s : tls_session) (co : crypto_options) : tls_session :=
  Session (burst s) co (s_initial_opcode s) (s_session_id s) (s_key_id s) (common_name s) (verified s) (untrusted_sockaddr s)
    (key_primary s) (key_lame s).
Definition set_untrusted_sockaddr (s : tls_session) (a : sockaddr_in) : tls_session :=
  Session (burst s) (tls_auth s) (s_initial_opcode s) (s_session_id s) (s_key_id s) (common_name s) (verified s) a
    (key_primary s) (key_lame s).
Definition set_pid_persist (m : tls_multi) (p : option packet_id_persist) : tls_multi :=
  Multi (m_opt m) p (save_ks m) (n_sessions m) (n_hard_errors m) (n_soft_errors m) (locked_cn m)
    (s_active m) (s_untrusted m) (s_lame m).
Definition set_save_ks (m : tls_multi) (r : option ks_ref) : tls_multi :=
  Multi (m_opt m) (pid_persist m) r (n_sessions m) (n_hard_errors m) (n_soft_errors m) (locked_cn m)
    (s_active m) (s_untrusted m) (s_lame m).
Definition incr_sessions (m : tls_multi) : tls_multi :=
  Multi (m_opt m) (pid_persist m) (save_ks m) (i32 (n_sessions m + 1)) (n_hard_errors m) (n_soft_errors m) (locked_cn m)
    (s_active m) (s_untrusted m) (s_lame m).
Definition incr_soft_errors (m : tls_multi) : tls_multi :=
  Multi (m_opt m) (pid_persist m) (save_ks m) (n_sessions m) (n_hard_errors m) (i32 (n_soft_errors m + 1)) (locked_cn m)
    (s_active m) (s_untrusted m) (s_lame m).

Definition ks_set_must_die (ks : key_state) (t : Z) : key_state :=
  KeyState (state ks) (key_id ks) (ssl ks) (established ks) (must_negotiate ks) t (initial_opcode ks)
    (session_id_remote ks) (remote_addr ks) (ks_packet_id ks) (key ks) (plaintext_read_buf ks) (plaintext_write_buf ks)
    (ack_write_buf ks) (send_reliable ks) (rec_reliable ks) (rec_ack ks) (n_bytes ks) (n_packets ks) (authenticated ks) (key_src ks) (ssl_session ks).
Definition ks_set_remote (ks : key_state) (sid : session_id) (a : sockaddr_in) : key_state :=
  KeyState (state ks) (key_id ks) (ssl ks) (established ks) (must_negotiate ks) (must_die ks) (initial_opcode ks)
    sid a (ks_packet_id ks) (key ks) (plaintext_read_buf ks) (plaintext_write_buf ks)
    (ack_write_buf ks) (send_reliable ks) (rec_reliable ks) (rec_ack ks) (n_bytes ks) (n_packets ks) (authenticated ks) (key_src ks) (ssl_session ks).
Definition ks_set_send (ks : key_state) (r : reliable) : key_state :=
  KeyState (state ks) (key_id ks) (ssl ks) (established ks) (must_negotiate ks) (must_die ks) (initial_opcode ks)
    (session_id_remote ks) (remote_addr ks) (ks_packet_id ks) (key ks) (plaintext_read_buf ks) (plaintext_write_buf ks)
    (ack_write_buf ks) (Some r) (rec_reliable ks) (rec_ack ks) (n_bytes ks) (n_packets ks) (authenticated ks) (key_src ks) (ssl_session ks).
Definition ks_set_rec (ks : key_state) (r : reliable) (a : reliable_ack) : key_state :=
  KeyState (state ks) (key_id ks) (ssl ks) (established ks) (must_negotiate ks) (must_die ks) (initial_opcode ks)
    (session_id_remote ks) (remote_addr ks) (ks_packet_id ks) (key ks) (plaintext_read_buf ks) (plaintext_write_buf ks)
    (ack_write_buf ks) (send_reliable ks) (Some r) (Some a) (n_bytes ks) (n_packets ks) (authenticated ks) (key_src ks) (ssl_session ks).
Definition ks_set_authenticated (ks : key_state) (v : bool) : key_state :=
  KeyState (state ks) (key_id ks) (ssl ks) (established ks) (must_negotiate ks) (must_die ks) (initial_opcode ks)
    (session_id_remote ks) (remote_addr ks) (ks_packet_id ks) (key ks) (plaintext_read_buf ks) (plaintext_write_buf ks)
    (ack_write_buf ks) (send_reliable ks) (rec_reliable ks) (rec_ack ks) (n_bytes ks) (n_packets ks) v (key_src ks) (ssl_session ks).

(** ++ks->n_packets; ks->n_bytes += len *)
Definition ks_count (ks : key_state) (len : Z) : key_state :=
  KeyState (state ks) (key_id ks) (ssl ks) (established ks) (must_negotiate ks) (must_die ks) (initial_opcode ks)
    (session_id_remote ks) (remote_addr ks) (ks_packet_id ks) (key ks) (plaintext_read_buf ks) (plaintext_write_buf ks)
    (ack_write_buf ks) (send_reliable ks) (rec_reliable ks) (rec_ack ks) (i32 (n_bytes ks + len)) (i32 (n_packets ks + 1))
    (authenticated ks) (key_src ks) (ssl_session ks).

Definition no_addr : sockaddr_in := Addr 0 0.
Definition no_key : key_ctx_bi := KeyCtxBi (KeyCtx None None) (KeyCtx None None).
Definition no_packet_id : packet_id := Pid (Send 0 0) (Rec 0 0 0 0 0 false None).

(** CLEAR (ks), CLEAR ( *session ) *)
Definition clear_ks : key_state :=
  KeyState 0 0 None 0 0 0 0 x_session_id_zero no_addr no_packet_id no_key clear_buf clear_buf clear_buf None None None 0 0 false clear_source2 TM_ACTIVE.
Definition clear_session : tls_session :=
  Session false (Opt None None None 0) 0 x_session_id_zero 0 None false no_addr clear_ks clear_ks.

(** ** Macros of ssl.h *)

Definition DECRYPT_KEY_ENABLED (m : tls_multi) (ks : key_state) : bool :=
  state ks >=? S_GOT_KEY - (if server (m_opt m) then 1 else 0).

(** ** Life cycle *)

(** session->key_id counts to P_KEY_ID_MASK and goes on with 1. *)
Definition next_key_id (k : Z) : Z :=
  let k := Z.land (k + 1) P_KEY_ID_MASK in if k =? 0 then 1 else k.

(** [i] is the place of the session in the tls_multi object. *)
Definition key_state_init (fill : Z -> Z) (opt : tls_options) (i : tm_index) (s : tls_session) : M (key_state * tls_session) :=
  obj ← lift (assert_some (SSL_new (server opt)));
  pread ← alloc_buf fill PLAINTEXT_BUFFER_SIZE;
  pwrite ← alloc_buf fill PLAINTEXT_BUFFER_SIZE;
  ackw ← alloc_buf fill (BUF_SIZE (opt_frame opt));
  send ← reliable_init fill (BUF_SIZE (opt_frame opt)) (FRAME_HEADROOM (opt_frame opt)) TLS_RELIABLE_N_SEND_BUFFERS;
  rec ← reliable_init fill (BUF_SIZE (opt_frame opt)) (FRAME_HEADROOM (opt_frame opt)) TLS_RELIABLE_N_REC_BUFFERS;
  pid ← lift (packet_id_init (replay_window opt) (replay_time opt));
  let ks := KeyState S_INITIAL (s_key_id s) (Some obj) 0 0 0 (s_initial_opcode s) x_session_id_zero no_addr
              pid no_key pread pwrite ackw (Some (reliable_set_timeout send (packet_timeout opt)))
              (Some rec) (Some []) 0 0 false clear_source2 i in
  let s := Session (burst s) (tls_auth s) P_CONTROL_SOFT_RESET_V1 (s_session_id s) (next_key_id (s_key_id s))
             (common_name s) (verified s) (untrusted_sockaddr s) (key_primary s) (key_lame s) in
  mret (ks, s).

Definition free_reliable (r : option reliable) : M unit :=
  match r with Some r => _ ← reliable_free r; mret tt | None => mret tt end.

(** The freed objects are gone: their pointers are not used again. *)
Definition key_state_free (ks : key_state) (clear : bool) : M key_state :=
  pread ← free_buf (plaintext_read_buf ks);
  pwrite ← free_buf (plaintext_write_buf ks);
  ackw ← free_buf (ack_write_buf ks);
  _ ← free_reliable (send_reliable ks);
  _ ← free_reliable (rec_reliable ks);
  mret (if clear then clear_ks else
    KeyState S_UNDEF (key_id ks) None (established ks) (must_negotiate ks) (must_die ks) (initial_opcode ks)
      (session_id_remote ks) (remote_addr ks) no_packet_id no_key pread pwrite ackw None None None
      (n_bytes ks) (n_packets ks) (authenticated ks) (key_src ks) (ssl_session ks)).

(** session_id_random, until the id is not 0; [draws] are the random ids. *)
Fixpoint draw_session_id (draws : list session_id) : result (session_id * list session_id) :=
  match draws with
  | [] => Fault
  | sid :: draws => if session_id_defined sid then Ok (sid, draws) else draw_session_id draws
  end.

Definition tls_session_init (fill : Z -> Z) (opt : tls_options) (i : tm_index) (persist : option packet_id_persist)
    (draws : list session_id) : M (tls_session * list session_id) :=
  '(sid, draws) ← lift (draw_session_id draws);
  _ ← ASSERT (key_method opt >=? 1);
  let op := if key_method opt =? 1
            then if server opt then P_CONTROL_HARD_RESET_SERVER_V1 else P_CONTROL_HARD_RESET_CLIENT_V1
            else if server opt then P_CONTROL_HARD_RESET_SERVER_V2 else P_CONTROL_HARD_RESET_CLIENT_V2 in
  pid ← lift (packet_id_init (replay_window opt) (replay_time opt));
  let pid := match persist with Some p => packet_id_persist_load_obj p pid | None => pid end in
  let ta := Opt (o_key_ctx_bi (opt_tls_auth opt)) (Some pid) None (o_flags (opt_tls_auth opt)) in
  let s := Session false ta op sid 0 None false no_addr clear_ks clear_ks in
  '(ks, s) ← key_state_init fill opt i s;
  mret (set_key s KS_PRIMARY ks, draws).

Definition tls_session_free (s : tls_session) (clear : bool) : M tls_session :=
  ks ← key_state_free (key_primary s) false;
  ks_lame ← key_state_free (key_lame s) false;
  mret (if clear then clear_session else set_key (set_key s KS_PRIMARY ks) KS_LAME_DUCK ks_lame).

Definition move_session (fill : Z -> Z) (m : tls_multi) (dest src : tm_index) (reinit_src : bool)
    (draws : list session_id) : M (tls_multi * list session_id) :=
  _ ← ASSERT (match dest, src with
              | TM_ACTIVE, TM_ACTIVE | TM_UNTRUSTED, TM_UNTRUSTED | TM_LAME_DUCK, TM_LAME_DUCK => false
              | _, _ => true
              end);
  _ ← tls_session_free (session m dest) false;
  let m := set_session m dest (session m src) in
  if reinit_src then
    '(s, draws) ← tls_session_init fill (m_opt m) src (pid_persist m) draws;
    mret (set_session m src s, draws)
  else mret (set_session m src clear_session, draws).

Definition reset_session (fill : Z -> Z) (m : tls_multi) (i : tm_index) (draws : list session_id)
  : M (tls_multi * list session_id) :=
  _ ← tls_session_free (session m i) false;
  '(s, draws) ← tls_session_init fill (m_opt m) i (pid_persist m) draws;
  mret (set_session m i s, draws).

Definition compute_earliest_wakeup (earliest seconds_from_now : Z) : Z :=
  let earliest := if seconds_from_now <? earliest then seconds_from_now else earliest in
  if earliest <? 0 then 0 else earliest.

Definition lame_duck_must_die (now : Z) (s : tls_session) (wakeup : Z) : result (bool * Z) :=
  let lame := key_lame s in
  if state lame >=? S_INITIAL then
    _ ← assert_ (negb (must_die lame =? 0));
    if now <? must_die lame
    then Ok (false, compute_earliest_wakeup wakeup (i32 (must_die lame - now)))
    else Ok (true, wakeup)
  else Ok (state lame =? S_ERROR, wakeup).

(** Move the active key to the lame duck key and reinitialize the active key. *)
Definition key_state_soft_reset (now : Z) (fill : Z -> Z) (opt : tls_options) (i : tm_index) (s : tls_session) : M tls_session :=
  let ks := ks_set_must_die (key_primary s) (now + transition_window opt) in
  _ ← key_state_free (key_lame s) false;
  let s := set_key s KS_LAME_DUCK ks in
  '(ks', s) ← key_state_init fill opt i s;
  mret (set_key s KS_PRIMARY (ks_set_remote ks' (session_id_remote ks) (remote_addr ks))).

(** tls_init_control_channel_frame_parameters *)
Definition tls_adjust_frame_parameters (f : frame) : frame := frame_add_to_extra_frame f 1.
Definition CONTROL_SEND_ACK_MAX : Z := 4.
Definition tls_init_control_channel_frame_parameters (data_channel_frame f : frame) : result frame :=
  let f := Frame (link_mtu data_channel_frame) (link_mtu_dynamic f) (extra_frame f) (extra_buffer f) (extra_tun f)
             (extra_link data_channel_frame) (align_flags f) (align_adjust f) in
  let f := tls_adjust_frame_parameters f in
  let f := reliable_ack_adjust_frame_parameters f CONTROL_SEND_ACK_MAX in
  let f := frame_add_to_extra_frame f (SID_SIZE + 4) in
  frame_set_mtu_dynamic f 0 SET_MTU_TUN.

Definition set_opt_frame (opt : tls_options) (f : frame) : tls_options :=
  TlsOptions (server opt) (key_method opt) (replay opt) (single_session opt) (transition_window opt) (packet_timeout opt)
    (crypto_flags_and opt) (crypto_flags_or opt) (replay_window opt) (replay_time opt) (opt_tls_auth opt) f (opt_key_type opt) (handshake_window opt) (renegotiate_bytes opt)
    (renegotiate_packets opt) (renegotiate_seconds opt) (opt_auth opt).

Definition tls_multi_init (opt : tls_options) (persist : option packet_id_persist) : tls_multi :=
  Multi opt persist None 0 0 0 None clear_session clear_session clear_session.

Definition tls_multi_init_finalize (fill : Z -> Z) (m : tls_multi) (f : frame) (draws : list session_id)
  : M (tls_multi * list session_id) :=
  cf ← lift (tls_init_control_channel_frame_parameters f (opt_frame (m_opt m)));
  let opt := set_opt_frame (m_opt m) cf in
  let m := Multi opt (pid_persist m) (save_ks m) (n_sessions m) (n_hard_errors m) (n_soft_errors m) (locked_cn m)
             (s_active m) (s_untrusted m) (s_lame m) in
  '(s, draws) ← tls_session_init fill opt TM_ACTIVE (pid_persist m) draws;
  let m := set_session m TM_ACTIVE s in
  if negb (single_session opt) then
    '(s, draws) ← tls_session_init fill opt TM_UNTRUSTED (pid_persist m) draws;
    mret (set_session m TM_UNTRUSTED s, draws)
  else mret (m, draws).

Definition tls_multi_free (m : tls_multi) : M unit :=
  _ ← tls_session_free (s_active m) false;
  _ ← tls_session_free (s_untrusted m) false;
  _ ← tls_session_free (s_lame m) false;
  mret tt.

Definition tls_authenticated (m : tls_multi) : bool :=
  existsb (fun r => DECRYPT_KEY_ENABLED m (ks_at m r) && authenticated (ks_at m r)) key_scan.

Definition deauthenticate_session (s : tls_session) : tls_session :=
  set_key (set_key s KS_PRIMARY (ks_set_authenticated (key_primary s) false))
    KS_LAME_DUCK (ks_set_authenticated (key_lame s) false).
Definition tls_deauthenticate (m : tls_multi) : tls_multi :=
  set_session (set_session (set_session m TM_ACTIVE (deauthenticate_session (s_active m)))
    TM_UNTRUSTED (deauthenticate_session (s_untrusted m))) TM_LAME_DUCK (deauthenticate_session (s_lame m)).

(** ** tls_pre_decrypt *)

(** read_control_auth (buf, &session->tls_auth, from) *)
Definition session_read_auth (now : Z) (fill : Z -> Z) (m : tls_multi) (i : tm_index) (buf : buffer)
  : M (bool * buffer * tls_multi) :=
  let ta := tls_auth (session m i) in
  '(ok, buf, co) ← read_control_auth now fill buf (Opt (o_key_ctx_bi ta) (o_packet_id ta) (pid_persist m) (o_flags ta));
  let ta := Opt (o_key_ctx_bi co) (o_packet_id co) None (o_flags co) in
  mret (ok, buf, set_pid_persist (set_session m i (set_tls_auth (session m i) ta)) (o_pid_persist co)).

(** The first session with the remote session id [sid]. *)
Definition find_session (m : tls_multi) (sid : session_id) : option tm_index :=
  let test i := session_id_equal (session_id_remote (key_primary (session m i))) sid in
  if test TM_ACTIVE then Some TM_ACTIVE
  else if test TM_UNTRUSTED then Some TM_UNTRUSTED
  else if test TM_LAME_DUCK then Some TM_LAME_DUCK
  else None.

(** Where a control packet belongs: [ToSession i do_burst new_link], or an error. *)
Inductive route := RouteError | ToSession (i : tm_index) (do_burst new_link : bool).

(** The initial packet opens a session in TM_ACTIVE if there is none. *)
Definition route_initial (m : tls_multi) (from : sockaddr_in) (op : Z) (found : option tm_index)
  : option (option tm_index * bool * bool * tls_multi) :=
  match found with
  | Some i => Some (Some i, false, false, m)
  | None =>
      if negb (is_hard_reset op 0) then Some (None, false, false, m)
      else if negb (is_hard_reset op (key_method (m_opt m))) then None
      else if negb (session_id_defined (session_id_remote (key_primary (s_active m)))) then
        if single_session (m_opt m) && negb (n_sessions m =? 0) then None
        else Some (Some TM_ACTIVE, true, true, set_session m TM_ACTIVE (set_untrusted_sockaddr (s_active m) from))
      else Some (None, false, false, m)
  end.

(** A second session: the packet authenticates and opens TM_UNTRUSTED. *)
Definition route_untrusted (now : Z) (fill : Z -> Z) (m : tls_multi) (from : sockaddr_in) (buf : buffer)
    (op : Z) (do_burst : bool) : M (route * tls_multi * buffer) :=
  if single_session (m_opt m) then mret (RouteError, m, buf)
  else if negb (is_hard_reset op (key_method (m_opt m))) then mret (RouteError, m, buf)
  else
    '(ok, buf, m) ← session_read_auth now fill m TM_UNTRUSTED buf;
    if negb ok then mret (RouteError, m, buf)
    else mret (ToSession TM_UNTRUSTED do_burst true,
               set_session m TM_UNTRUSTED (set_untrusted_sockaddr (s_untrusted m) from), buf).

(** The packet of session [i]; a soft reset of the peer starts a new key. *)
Definition route_existing (now : Z) (fill : Z -> Z) (m : tls_multi) (from : sockaddr_in) (buf : buffer)
    (op : Z) (i : tm_index) (do_burst new_link : bool) : M (route * tls_multi * buffer) :=
  let ks := key_primary (session m i) in
  if negb new_link && negb (addr_port_match (remote_addr ks) from) then mret (RouteError, m, buf)
  else if (op =? P_CONTROL_SOFT_RESET_V1) && DECRYPT_KEY_ENABLED m ks then
    '(ok, buf, m) ← session_read_auth now fill m i buf;
    if negb ok then mret (RouteError, m, buf)
    else
      s ← key_state_soft_reset now fill (m_opt m) i (session m i);
      mret (ToSession i do_burst new_link, set_session m i s, buf)
  else
    let do_burst := do_burst || (op =? P_CONTROL_SOFT_RESET_V1) in
    '(ok, buf, m) ← session_read_auth now fill m i buf;
    if negb ok then mret (RouteError, m, buf)
    else mret (ToSession i do_burst new_link, m, buf).

Definition route_control (now : Z) (fill : Z -> Z) (m : tls_multi) (from : sockaddr_in) (buf : buffer)
    (op : Z) (sid : session_id) : M (route * tls_multi * buffer) :=
  match find_session m sid with
  | Some TM_LAME_DUCK => mret (RouteError, m, buf)
  | found =>
      match route_initial m from op found with
      | None => mret (RouteError, m, buf)
      | Some (i, do_burst, new_link, m) =>
          match i with
          | None => if is_hard_reset op 0 then route_untrusted now fill m from buf op do_burst
                    else mret (RouteError, m, buf)
          | Some i => route_existing now fill m from buf op i do_burst new_link
          end
      end
  end.

(** A new link: the session gets the peer's session id and address. *)
Definition link_session (m : tls_multi) (i : tm_index) (sid : session_id) (from : sockaddr_in) (new_link : bool)
  : tls_multi :=
  if new_link then incr_sessions (set_ks m (i, KS_PRIMARY) (ks_set_remote (key_primary (session m i)) sid from)) else m.

(** The first packet of a new peer makes the packets to be sent go out at once. *)
Definition burst_session (now : Z) (m : tls_multi) (i : tm_index) (do_burst : bool) : M tls_multi :=
  let ks := key_primary (session m i) in
  if do_burst && negb (burst (session m i)) then
    send ← lift (from_opt (send_reliable ks));
    let s := set_key (session m i) KS_PRIMARY (ks_set_send ks (reliable_schedule_now now send)) in
    mret (set_session m i (set_burst s true))
  else mret m.

(** The acknowledgements and the packet go to the reliability layer. *)
Definition accept_acked (m : tls_multi) (buf : buffer) (op key_id_ : Z) (i : tm_index) : M (bool * tls_multi * buffer) :=
  let ks := key_primary (session m i) in
  if negb (key_id ks =? key_id_) then mret (false, m, buf)
  else
    '(ok, send_ack, buf) ← reliable_ack_read [] buf (s_session_id (session m i));
    if negb ok then mret (false, m, buf)
    else
      send ← lift (from_opt (send_reliable ks));
      let ks := ks_set_send ks (reliable_send_purge send send_ack) in
      let m := set_ks m (i, KS_PRIMARY) ks in
      if negb (op =? P_ACK_V1) then
        rec ← lift (from_opt (rec_reliable ks));
        ack ← lift (from_opt (rec_ack ks));
        '(rec, ack, buf) ← rec_accept rec ack buf op;
        mret (true, set_ks m (i, KS_PRIMARY) (ks_set_rec ks rec ack), buf)
      else mret (true, m, buf).

(** The authenticated packet of session [i]: false is the jump to error. *)
Definition accept_control (now : Z) (m : tls_multi) (from : sockaddr_in) (buf : buffer) (op key_id_ : Z)
    (sid : session_id) (i : tm_index) (do_burst new_link : bool) : M (bool * tls_multi * buffer) :=
  let ks := key_primary (session m i) in
  _ ← ASSERT (negb (state ks =? S_UNDEF));
  _ ← ASSERT (negb (state ks =? S_ERROR));
  _ ← ASSERT (session_id_defined (s_session_id (session m i)));
  let m := link_session m i sid from new_link in
  if negb new_link && negb (addr_port_match (remote_addr (key_primary (session m i))) from) then mret (false, m, buf)
  else
    m ← burst_session now m i do_burst;
    accept_acked m buf op key_id_ i.

(** The key state whose key decrypts a data packet. *)
Definition data_key (m : tls_multi) (from : sockaddr_in) (key_id_ : Z) : option ks_ref :=
  let ok r := DECRYPT_KEY_ENABLED m (ks_at m r) && (key_id_ =? key_id (ks_at m r))
              && authenticated (ks_at m r) && addr_port_match from (remote_addr (ks_at m r)) in
  snd <$> list_find (fun r => ok r = true) key_scan.

(** opt->flags for a data packet. *)
Definition data_flags (opt : tls_options) (flags : Z) : Z :=
  Z.lor (Z.land flags (crypto_flags_and opt)) (crypto_flags_or opt).

Definition tls_pre_decrypt (now : Z) (fill : Z -> Z) (m : tls_multi) (from : sockaddr_in) (buf : buffer)
    (opt : data_options) : M (bool * tls_multi * buffer * data_options) :=
  let done (ret : bool) (m : tls_multi) (buf : buffer) :=
    mret (ret, m, with_len buf 0, DataOpt None None (Z.land (d_flags opt) (crypto_flags_and (m_opt m)))) in
  if b_len buf >? 0 then
    p ← deref (BPTR buf);
    c ← load p 1;
    let op := Z.shiftr (be_dec c) P_OPCODE_SHIFT in
    let key_id_ := Z.land (be_dec c) P_KEY_ID_MASK in
    if op =? P_DATA_V1 then
      match data_key m from key_id_ with
      | Some r =>
          let '(ok, buf) := buf_advance buf 1 in
          _ ← ASSERT ok;
          mret (false, set_ks m r (ks_count (ks_at m r) (b_len buf)), buf,
                DataOpt (Some r) (if replay (m_opt m) then Some r else None) (data_flags (m_opt m) (d_flags opt)))
      | None => done false (incr_soft_errors m) buf
      end
    else if (op <? P_FIRST_OPCODE) || (op >? P_LAST_OPCODE) then done false (incr_soft_errors m) buf
    else if is_hard_reset op 0 &&
            (((op =? P_CONTROL_HARD_RESET_CLIENT_V1) || (op =? P_CONTROL_HARD_RESET_CLIENT_V2)) && negb (server (m_opt m))
             || ((op =? P_CONTROL_HARD_RESET_SERVER_V1) || (op =? P_CONTROL_HARD_RESET_SERVER_V2)) && server (m_opt m))
    then done false (incr_soft_errors m) buf
    else
      let '(_, tmp) := buf_advance buf 1 in
      '(sid, _) ← session_id_read tmp;
      match sid with
      | None => done false (incr_soft_errors m) buf
      | Some sid =>
          if negb (session_id_defined sid) then done false (incr_soft_errors m) buf
          else
            '(r, m, buf) ← route_control now fill m from buf op sid;
            match r with
            | RouteError => done false (incr_soft_errors m) buf
            | ToSession i do_burst new_link =>
                '(ok, m, buf) ← accept_control now m from buf op key_id_ sid i do_burst new_link;
                done true (if ok : bool then m else incr_soft_errors m) buf
            end
      end
  else done false m buf.

(** ** tls_pre_decrypt_lite *)

Record tls_auth_standalone := Standalone { tls_auth_options : crypto_options; tas_frame : frame }.

Definition tls_pre_decrypt_lite (now : Z) (fill : Z -> Z) (tas : tls_auth_standalone) (buf : buffer) : M bool :=
  if b_len buf >? 0 then
    p ← deref (BPTR buf);
    c ← load p 1;
    let op := Z.shiftr (be_dec c) P_OPCODE_SHIFT in
    let key_id_ := Z.land (be_dec c) P_KEY_ID_MASK in
    if negb (op =? P_CONTROL_HARD_RESET_CLIENT_V2) then mret false
    else if negb (key_id_ =? 0) then mret false
    else if b_len buf >? EXPANDED_SIZE_DYNAMIC (tas_frame tas) then mret false
    else
      newbuf ← clone_buf fill buf;
      let o := tls_auth_options tas in
      let co := Opt (o_key_ctx_bi o) (o_packet_id o) (o_pid_persist o) (Z.lor (o_flags o) CO_IGNORE_PACKET_ID) in
      '(status, newbuf, _) ← read_control_auth now fill newbuf co;
      _ ← free_buf newbuf;
      mret status
  else mret false.

(** ** tls_pre_encrypt, tls_post_encrypt *)

Definition encrypt_key (m : tls_multi) : option ks_ref :=
  snd <$> list_find (fun r => (state (ks_at m r) >=? S_ACTIVE) && authenticated (ks_at m r) = true) key_scan.

Definition tls_pre_encrypt (m : tls_multi) (buf : buffer) (opt : data_options)
  : tls_multi * buffer * data_options :=
  let none m := (m, with_len buf 0, DataOpt None None (Z.land (d_flags opt) (crypto_flags_and (m_opt m)))) in
  let m := set_save_ks m None in
  if b_len buf >? 0 then
    match encrypt_key m with
    | Some r => (set_save_ks m (Some r), buf,
                 DataOpt (Some r) (if replay (m_opt m) then Some r else None) (data_flags (m_opt m) (d_flags opt)))
    | None => none m
    end
  else none m.

Definition tls_post_encrypt (m : tls_multi) (buf : buffer) : M (tls_multi * buffer) :=
  let r := save_ks m in
  let m := set_save_ks m None in
  if b_len buf >? 0 then
    r ← lift (assert_some r);
    let '(op, buf) := buf_prepend buf 1 in
    op ← lift (assert_some op);
    let ks := ks_at m r in
    _ ← store op [u8 (Z.lor (Z.shiftl P_DATA_V1 P_OPCODE_SHIFT) (key_id ks))];
    mret (set_ks m r (ks_count ks (b_len buf)), buf)
  else mret (m, buf).
End Tls.
