(* ===== verification/TlsOk.v ===== *)
(** The sessions of a peer stay well formed, and nothing a peer sends makes
    tls_pre_decrypt fail an ASSERT or touch memory it does not own (src/ssl.c). *)

From S2P Require Import Prelude Buffer Integer PacketId Mtu Crypto Reliable ControlAuth Key Prf Own RelOwn Tls.

(** ** Well-formed options, key states and sessions *)

(** The control channel's frame, as tls_init_control_channel_frame_parameters makes it:
    unlike a data channel frame it may have no extra_buffer. *)
Record control_frame_ok (f : frame) : Prop := {
  cf_extras : extras_ok f;
  cf_mtu : TUN_MTU_MIN + extra_frame f + extra_tun f <= link_mtu f <= 4 * FRAME_MAX
}.

Lemma control_frame_sizes f : control_frame_ok f ->
  0 <= FRAME_HEADROOM f <= BUF_SIZE f /\ BUF_SIZE f <= BUF_MAX /\
  FRAME_HEADROOM f + MAX_RW_SIZE_LINK f <= BUF_SIZE f + 3.
Proof.
  intros [[] ]. unfold FRAME_HEADROOM, frame_headroom.
  change (flag 0 (align_flags f)) with false. cbv iota zeta.
  assert (FRAME_HEADROOM_BASE f = extra_frame f + extra_tun f + extra_buffer f + extra_link f) as Hb
    by (frame_unfold; wrap_simp; lia).
  unfold BUF_SIZE. rewrite Hb. set (x := extra_frame f + extra_tun f + extra_buffer f + extra_link f) in *.
  change (Z.shiftl PAYLOAD_ALIGN 24) with 67108864. change (PAYLOAD_ALIGN - 1) with (Z.ones 2).
  rewrite Z.land_ones by lia. change (2 ^ 2) with 4. frame_unfold. unfold BUF_MAX. wrap_simp.
  pose proof (Z.mod_pos_bound (67108864 - (x + 0)) 4). wrap_simp. lia.
Qed.

(** What option processing and tls_multi_init_finalize establish. *)
Record opts_ok (opt : tls_options) : Prop := {
  oo_method : 1 <= key_method opt;
  oo_window : exists p, packet_id_init (replay_window opt) (replay_time opt) = Ok p;
  oo_transition : 0 <= transition_window opt;
  oo_auth : forall now, SEQ_EXPIRED < now ->
    tls_auth_ok now (Opt (o_key_ctx_bi (opt_tls_auth opt)) None None (o_flags (opt_tls_auth opt)));
  oo_frame : control_frame_ok (opt_frame opt)
}.

Section Ok.
Context {tls_obj : Type} (SSL_new : bool -> option tls_obj).
#[local] Abbreviation ks_t := (key_state (tls_obj := tls_obj)).
#[local] Abbreviation session_t := (tls_session (tls_obj := tls_obj)).
#[local] Abbreviation multi_t := (tls_multi (tls_obj := tls_obj)).
Implicit Types (ks : ks_t) (s : session_t) (m : multi_t).

(** A key state between key_state_init and key_state_free, without an error. *)
Record ks_live (opt : tls_options) (ks : ks_t) : Prop := {
  kl_state : S_INITIAL <= state ks <= S_NORMAL;
  kl_id : 0 <= key_id ks <= P_KEY_ID_MASK;
  kl_send : exists r, send_reliable ks = Some r /\
    rel_ok (BUF_SIZE (opt_frame opt)) (FRAME_HEADROOM (opt_frame opt)) TLS_RELIABLE_N_SEND_BUFFERS r;
  kl_rec : exists r, rec_reliable ks = Some r /\
    rel_ok (BUF_SIZE (opt_frame opt)) (FRAME_HEADROOM (opt_frame opt)) TLS_RELIABLE_N_REC_BUFFERS r;
  kl_ack : exists a, rec_ack ks = Some a /\ Zlen a <= RELIABLE_ACK_SIZE
}.

(** A lame duck key, if there is one, has a time to die. *)
Definition lame_ok (opt : tls_options) (ks : ks_t) : Prop :=
  state ks < S_INITIAL \/ ks_live opt ks /\ must_die ks <> 0.

Definition auth_ok (co : crypto_options) : Prop := forall now, SEQ_EXPIRED < now -> tls_auth_ok now co.

Record session_live (opt : tls_options) (s : session_t) : Prop := {
  sl_id : session_id_defined (s_session_id s) = true;
  sl_auth : auth_ok (tls_auth s);
  sl_next : s_key_id s = next_key_id (key_id (key_primary s)); (* the next key gets another id *)
  sl_primary : ks_live opt (key_primary s);
  sl_lame : lame_ok opt (key_lame s)
}.

Record multi_wf (m : multi_t) : Prop := {
  mw_opts : opts_ok (m_opt m);
  mw_active : session_live (m_opt m) (s_active m);
  mw_untrusted : if single_session (m_opt m) then s_untrusted m = clear_session
                 else session_live (m_opt m) (s_untrusted m);
  mw_lame : lame_ok (m_opt m) (key_lame (s_lame m))
}.

(** The buffers that the sessions own. *)
Definition ks_bufs (ks : ks_t) : list buffer :=
  plaintext_read_buf ks :: plaintext_write_buf ks :: ack_write_buf ks ::
  rel_bufs (send_reliable ks) ++ rel_bufs (rec_reliable ks).
Definition session_bufs (s : session_t) : list buffer := ks_bufs (key_primary s) ++ ks_bufs (key_lame s).
Definition multi_bufs (m : multi_t) : list buffer :=
  session_bufs (s_active m) ++ session_bufs (s_untrusted m) ++ session_bufs (s_lame m).

(** The invariant, with [b] the buffer of the packet at hand. *)
Definition multi_ok (h : heap) (b : buffer) (m : multi_t) : Prop :=
  multi_wf m /\ owns h (b :: multi_bufs m).

Lemma session_bufs_at m i : exists rest,
  multi_bufs m ≡ₚ session_bufs (session m i) ++ rest /\
  forall s, multi_bufs (set_session m i s) ≡ₚ session_bufs s ++ rest.
Proof.
  unfold multi_bufs. destruct i.
  - exists (session_bufs (s_untrusted m) ++ session_bufs (s_lame m)). split; [|intros s]; cbn; solve_Permutation.
  - exists (session_bufs (s_active m) ++ session_bufs (s_lame m)). split; [|intros s]; cbn; solve_Permutation.
  - exists (session_bufs (s_active m) ++ session_bufs (s_untrusted m)). split; [|intros s]; cbn; solve_Permutation.
Qed.

Lemma ks_bufs_at m r : exists rest,
  multi_bufs m ≡ₚ ks_bufs (ks_at m r) ++ rest /\ forall ks, multi_bufs (set_ks m r ks) ≡ₚ ks_bufs ks ++ rest.
Proof.
  destruct r as [i j]. destruct (session_bufs_at m i) as (rest & Hm & Hs). unfold set_ks. cbn [fst snd].
  destruct j.
  - exists (ks_bufs (key_lame (session m i)) ++ rest). split; [|intros ks; rewrite Hs].
    + rewrite Hm. unfold session_bufs, ks_at. cbn. solve_Permutation.
    + unfold session_bufs. cbn [key_primary key_lame set_key]. by rewrite app_assoc.
  - exists (ks_bufs (key_primary (session m i)) ++ rest). split; [|intros ks; rewrite Hs].
    + rewrite Hm. unfold session_bufs, ks_at. cbn [fst snd session_key]. solve_Permutation.
    + unfold session_bufs. cbn [key_primary key_lame set_key]. solve_Permutation.
Qed.

(** ** Key states are made and freed *)

Lemma owns_nulls h (l1 l2 : list buffer) : Forall (fun b => b_data b = None) l1 -> owns h l2 -> owns h (l1 ++ l2).
Proof. intros Hf Ho. induction Hf; [done|]. by apply owns_null. Qed.

Lemma wp_free_reliable h r l :
  owns h (rel_bufs r ++ l) -> wp (free_reliable r) (fun _ h' => owns h' l) h.
Proof.
  intros Ho. destruct r as [r|]; cbn [free_reliable]; [|by wp_steps]. unfold reliable_free. wp_steps.
  eapply wp_mono; [by apply wp_free_entries|]. intros es h1 Ho1. by wp_steps.
Qed.

Lemma wp_key_state_free h ks l c :
  owns h (ks_bufs ks ++ l) ->
  wp (key_state_free ks c) (fun ks' h' => owns h' l /\ state ks' = S_UNDEF /\
    Forall (fun b => b_data b = None) (ks_bufs ks')) h.
Proof.
  intros Ho. unfold key_state_free, ks_bufs in *. cbn [app] in Ho. wp_steps.
  eapply wp_mono; [by apply wp_free_buf|]. intros b1 h1 [-> Ho1]. wp_steps.
  eapply wp_mono; [by apply wp_free_buf|]. intros b2 h2 [-> Ho2]. wp_steps.
  eapply wp_mono; [by apply wp_free_buf|]. intros b3 h3 [-> Ho3]. wp_steps. rewrite <- app_assoc in Ho3.
  eapply wp_mono; [by apply wp_free_reliable|]. intros [] h4 Ho4. wp_steps.
  eapply wp_mono; [by apply wp_free_reliable|]. intros [] h5 Ho5. wp_steps.
  split; [done|]. destruct c; (split; [done|]); repeat constructor.
Qed.

Lemma wp_tls_session_free h s l c :
  owns h (session_bufs s ++ l) -> wp (tls_session_free s c) (fun _ h' => owns h' l) h.
Proof.
  intros Ho. unfold tls_session_free, session_bufs in *. rewrite <- app_assoc in Ho. wp_steps.
  eapply wp_mono; [by apply wp_key_state_free|]. intros ks1 h1 (Ho1 & _). wp_steps.
  eapply wp_mono; [by apply wp_key_state_free|]. intros ks2 h2 (Ho2 & _). by wp_steps.
Qed.

Lemma next_key_id_range k : 1 <= next_key_id k <= P_KEY_ID_MASK.
Proof.
  unfold next_key_id, P_KEY_ID_MASK. pose proof (Z.land_ones (k + 1) 3) as E. change (Z.ones 3) with 7 in E.
  rewrite E by lia. pose proof (Z.mod_pos_bound (k + 1) (2 ^ 3)). case_test; lia.
Qed.

Hypothesis SSL_new_ok : forall sv, is_Some (SSL_new sv).

(** The new key state, and the session with its next key id. *)
Definition new_key (opt : tls_options) (s : session_t) (ks : ks_t) : Prop :=
  ks_live opt ks /\ state ks = S_INITIAL /\ key_id ks = s_key_id s /\
  session_id_remote ks = x_session_id_zero /\ authenticated ks = false.
Definition keyed_session (s s' : session_t) : Prop :=
  s' = Session (burst s) (tls_auth s) P_CONTROL_SOFT_RESET_V1 (s_session_id s) (next_key_id (s_key_id s))
         (common_name s) (verified s) (untrusted_sockaddr s) (key_primary s) (key_lame s).

Lemma wp_key_state_init fill opt i s h l :
  opts_ok opt -> 0 <= s_key_id s <= P_KEY_ID_MASK -> owns h l ->
  wp (key_state_init SSL_new fill opt i s) (fun x h' =>
    new_key opt s (fst x) /\ keyed_session s (snd x) /\ owns h' (ks_bufs (fst x) ++ l)) h.
Proof using SSL_new_ok.
  intros [Hm [pid Hpid] Ht Ha Hf] Hk Ho. destruct (control_frame_sizes _ Hf) as (Hf1 & Hs & _).
  unfold key_state_init. wp_steps.
  destruct (SSL_new_ok (server opt)) as [obj Hobj]. eapply wp_lift; [by rewrite Hobj|]. wp_steps.
  eapply wp_mono; [apply (wp_alloc_buf_own fill _ h l Ho); unfold PLAINTEXT_BUFFER_SIZE, BUF_MAX; lia|].
  intros b1 h1 (_ & Ho1 & _). wp_steps.
  eapply wp_mono; [apply (wp_alloc_buf_own fill _ h1 _ Ho1); unfold PLAINTEXT_BUFFER_SIZE, BUF_MAX; lia|].
  intros b2 h2 (_ & Ho2 & _). wp_steps.
  eapply wp_mono; [apply (wp_alloc_buf_own fill _ h2 _ Ho2); lia|]. intros b3 h3 (_ & Ho3 & _). wp_steps.
  eapply wp_mono; [apply (wp_reliable_init_own fill _ _ TLS_RELIABLE_N_SEND_BUFFERS h3 _ Ho3); [lia..|done]|].
  intros r1 h4 [Hr1 Ho4]. wp_steps.
  eapply wp_mono; [apply (wp_reliable_init_own fill _ _ TLS_RELIABLE_N_REC_BUFFERS h4 _ Ho4); [lia..|done]|].
  intros r2 h5 [Hr2 Ho5]. wp_steps. eapply wp_lift; [exact Hpid|]. wp_steps.
  split; [|split; [done|]].
  - split_and!; try done. split; cbn; [unfold S_INITIAL, S_NORMAL; lia|done| |eauto|].
    + eexists. split; [done|]. by eapply rel_ok_same.
    + exists []. split; [done|]. unfold RELIABLE_ACK_SIZE. change (Zlen []) with 0. lia.
  - eapply owns_perm; [|exact Ho5]. unfold ks_bufs. cbn. solve_Permutation.
Qed.

(** The session after a soft reset: the old key is the lame duck. *)
Definition soft_reset (now : Z) (opt : tls_options) (s s' : session_t) : Prop :=
  key_lame s' = ks_set_must_die (key_primary s) (now + transition_window opt) /\
  state (key_primary s') = S_INITIAL /\ key_id (key_primary s') = next_key_id (key_id (key_primary s)).

Lemma wp_key_state_soft_reset now fill opt i s h l :
  opts_ok opt -> session_live opt s -> SEQ_EXPIRED < now -> owns h (session_bufs s ++ l) ->
  wp (key_state_soft_reset SSL_new now fill opt i s) (fun s' h' =>
    session_live opt s' /\ owns h' (session_bufs s' ++ l) /\ soft_reset now opt s s') h.
Proof using SSL_new_ok.
  intros Hopt [Hid Ha Hnx Hp Hl] Hnow Ho. pose proof (oo_transition _ Hopt). unfold SEQ_EXPIRED in *.
  pose proof (next_key_id_range (key_id (key_primary s))) as Hk. rewrite <- Hnx in Hk.
  unfold key_state_soft_reset, session_bufs in *. wp_steps.
  set (lame := ks_set_must_die (key_primary s) (now + transition_window opt)).
  eapply wp_mono; [apply (wp_key_state_free h (key_lame s) (ks_bufs (key_primary s) ++ l))|].
  { eapply owns_perm; [|exact Ho]. solve_Permutation. }
  intros ks0 h1 [Ho1 _]. wp_steps.
  eapply wp_mono; [apply (wp_key_state_init fill opt i (set_key s KS_LAME_DUCK lame) h1 (ks_bufs (key_primary s) ++ l) Hopt);
    [cbn; lia|exact Ho1]|].
  intros [ks s'] h2 ((Hks & Hst & Hki & _) & Hs' & Ho2). cbn [fst snd] in *. unfold keyed_session in Hs'. subst s'. wp_steps.
  split; [|split].
  - destruct Hks. destruct Hp. split; cbn; auto.
    + by rewrite Hki.
    + by split.
    + right. split; [by split|]. cbn. lia.
  - eapply owns_perm; [|exact Ho2]. unfold ks_bufs. cbn. solve_Permutation.
  - split; [done|]. split; [done|]. cbn. rewrite Hki. exact Hnx.
Qed.

(** ** Sessions are made *)

(** No window was loaded with --replay-persist. *)
Definition nothing_persisted (persist : option packet_id_persist) : Prop :=
  forall p, persist = Some p -> packet_id_persist_enabled p && negb (persist_time p =? 0) = false.

Lemma draw_session_id_defined draws sid rest :
  draw_session_id draws = Ok (sid, rest) -> session_id_defined sid = true.
Proof.
  induction draws as [|d draws IH]; cbn; [done|]. destruct (session_id_defined d) eqn:E; [|done].
  intros [= <- <-]. done.
Qed.

Lemma auth_ok_pid (co : crypto_options) pid :
  (forall now, SEQ_EXPIRED < now -> tls_auth_ok now (Opt (o_key_ctx_bi co) None None (o_flags co))) ->
  rec_ok (pid_rec pid) -> auth_ok (Opt (o_key_ctx_bi co) (Some pid) None (o_flags co)).
Proof.
  intros Ha Hp now Hnow. destruct (Ha now Hnow) as [Hc Hl _ Hn]. split; [exact Hc|exact Hl| |exact Hn].
  by intros ? [= <-].
Qed.

Lemma wp_tls_session_init fill opt i persist draws sid rest h l :
  opts_ok opt -> nothing_persisted persist -> draw_session_id draws = Ok (sid, rest) -> owns h l ->
  wp (tls_session_init SSL_new fill opt i persist draws) (fun x h' =>
    snd x = rest /\ session_live opt (fst x) /\ owns h' (session_bufs (fst x) ++ l)) h.
Proof using SSL_new_ok.
  intros Hopt Hper Hd Ho. pose proof (oo_method _ Hopt) as Hkm. destruct (oo_window _ Hopt) as [pid Hpid].
  unfold tls_session_init. wp_steps. eapply wp_lift; [exact Hd|]. wp_steps.
  apply wp_ASSERT; [lia|]. wp_steps. eapply wp_lift; [exact Hpid|]. wp_steps.
  set (pid' := match persist with Some p => _ | None => _ end).
  assert (pid' = pid) as ->.
  { unfold pid'. destruct persist as [p|]; [|done]. unfold packet_id_persist_load_obj. by rewrite (Hper p). }
  set (s := Session _ _ _ _ _ _ _ _ _ _). assert (0 <= s_key_id s <= P_KEY_ID_MASK) as Hk by (unfold s, P_KEY_ID_MASK; cbn; lia).
  eapply wp_mono; [apply (wp_key_state_init fill opt i s h l Hopt Hk Ho)|].
  intros [ks s'] h1 ((Hks & _ & Hki & _) & Hs' & Ho1). cbn [fst snd] in *. unfold keyed_session in Hs'. subst s'. wp_steps.
  split; [done|]. split.
  - split; cbn; [by eapply draw_session_id_defined| |by rewrite Hki|done|by left].
    apply auth_ok_pid; [apply Hopt|by eapply rec_ok_init].
  - unfold session_bufs. cbn. eapply owns_perm; [|apply (owns_nulls h1 (ks_bufs (clear_ks (tls_obj := tls_obj))) _ ltac:(repeat constructor) Ho1)].
    cbn. solve_Permutation.
Qed.

(** tls_multi_init and tls_multi_init_finalize establish the invariant. *)
Lemma wp_tls_multi_init_finalize fill opt persist f cf draws sid1 draws1 sid2 draws2 h b :
  tls_init_control_channel_frame_parameters f (opt_frame opt) = Ok cf ->
  opts_ok (set_opt_frame opt cf) -> nothing_persisted persist ->
  draw_session_id draws = Ok (sid1, draws1) -> draw_session_id draws1 = Ok (sid2, draws2) -> owns h [b] ->
  wp (tls_multi_init_finalize SSL_new fill (tls_multi_init opt persist) f draws)
     (fun x h' => multi_ok h' b (fst x) /\ m_opt (fst x) = set_opt_frame opt cf /\ save_ks (fst x) = None) h.
Proof using SSL_new_ok.
  intros Hcf Hopt Hper Hd1 Hd2 Ho. unfold tls_multi_init_finalize. wp_steps. eapply wp_lift; [exact Hcf|]. wp_steps.
  cbn [pid_persist tls_multi_init m_opt].
  assert (Forall (fun c => b_data c = None) (session_bufs (clear_session (tls_obj := tls_obj)))) as Hn by repeat constructor.
  eapply wp_mono; [apply (wp_tls_session_init fill _ TM_ACTIVE persist draws sid1 draws1 h [b] Hopt Hper Hd1 Ho)|].
  intros [s1 d1] h1 (E & Hs1 & Ho1). cbn [fst snd] in *. subst d1. wp_steps. cbn [single_session set_opt_frame].
  destruct (single_session opt) eqn:Ess; cbn [negb].
  - wp_steps. split; [|done]. split; [split; cbn; [done|done|by rewrite Ess|by left]|].
    unfold multi_bufs. cbn [s_active s_untrusted s_lame set_session session].
    eapply owns_perm; [|exact (owns_nulls _ _ _ Hn (owns_nulls _ _ _ Hn Ho1))].
    cbn [s_active s_untrusted s_lame set_session tls_multi_init]. solve_Permutation.
  - wp_steps. cbn [pid_persist set_session].
    eapply wp_mono; [apply (wp_tls_session_init fill _ TM_UNTRUSTED persist draws1 sid2 draws2 h1 _ Hopt Hper Hd2 Ho1)|].
    intros [s2 d2] h2 (E & Hs2 & Ho2). cbn [fst snd] in *. subst d2. wp_steps.
    split; [|done]. split; [split; cbn; [done|done|by rewrite Ess|by left]|].
    unfold multi_bufs. cbn [s_active s_untrusted s_lame set_session].
    eapply owns_perm; [|exact (owns_nulls _ _ _ Hn Ho2)]. cbn [s_active s_untrusted s_lame set_session tls_multi_init].
    solve_Permutation.
Qed.

(** ** Finding the session of a control packet *)

(** The sessions that take control packets. *)
Definition routable (m : multi_t) (i : tm_index) : Prop :=
  match i with TM_ACTIVE => True | TM_UNTRUSTED => single_session (m_opt m) = false | TM_LAME_DUCK => False end.

(** The packet [bs] passes the HMAC and replay checks of session [i]. *)
Definition authentic (now : Z) (m : multi_t) (i : tm_index) (bs : list byte) : Prop :=
  let ta := tls_auth (session m i) in
  is_Some (open_control now (Opt (o_key_ctx_bi ta) (o_packet_id ta) (pid_persist m) (o_flags ta)) bs).

Definition same_keys (m m' : multi_t) : Prop := forall r, ks_at m' r = ks_at m r.

Lemma routable_live m i : multi_wf m -> routable m i -> session_live (m_opt m) (session m i).
Proof. intros [_ Ha Hu _]. destruct i; cbn; [done| |done]. intros Hs. by rewrite Hs in Hu. Qed.

Lemma multi_wf_set m i s : multi_wf m -> routable m i -> session_live (m_opt m) s -> multi_wf (set_session m i s).
Proof.
  intros [Ho Ha Hu Hl] Hr Hs. destruct i; [by split| |done]. cbn in Hr. split; try done. cbn. by rewrite Hr.
Qed.

Lemma session_live_addr opt s a : session_live opt s -> session_live opt (set_untrusted_sockaddr s a).
Proof. intros []. by split. Qed.

Lemma tls_auth_ok_ext (co co' : crypto_options) now :
  tls_auth_ok now co -> o_key_ctx_bi co' = o_key_ctx_bi co -> o_flags co' = o_flags co ->
  o_packet_id co' = o_packet_id co -> tls_auth_ok now co'.
Proof.
  intros [Hc Hl Hp Hn] E1 E2 E3. unfold hmac_of, long_form_of in Hl.
  split; [by rewrite E1|unfold hmac_of, long_form_of; rewrite E1, E2; exact Hl|by rewrite E3|done].
Qed.

Lemma auth_ok_now co now : tls_auth_ok now co -> auth_ok co.
Proof. intros [] now' Hn. by split. Qed.

Lemma set_auth_ok h b m i ta pp :
  multi_ok h b m -> routable m i -> auth_ok ta ->
  multi_ok h b (set_pid_persist (set_session m i (set_tls_auth (session m i) ta)) pp).
Proof.
  intros [Hwf Ho] Hr Ha. split.
  - destruct (routable_live m i Hwf Hr) as [Hid _ Hk Hp Hl].
    destruct (multi_wf_set m i (set_tls_auth (session m i) ta) Hwf Hr) as [? ? ? ?]; [by split|]. by split.
  - by destruct i.
Qed.

Lemma wp_session_read_auth now fill h p b bs m i :
  multi_ok h b m -> routable m i -> SEQ_EXPIRED < now ->
  buf_rep h p b bs -> pos p = 0 -> Forall is_byte bs -> 9 <= Zlen bs ->
  wp (session_read_auth now fill m i b) (fun x h' =>
    let '(ok, b', m') := x in
    multi_ok h' b' m' /\ m_opt m' = m_opt m /\ same_keys m m' /\
    exists bs', buf_rep h' p b' bs' /\ (ok = true -> authentic now m i bs /\ Zlen bs' <= Zlen bs - 9)) h.
Proof.
  intros [Hwf Ho] Hr Hnow H Hp Hby H9. pose proof (sl_auth _ _ (routable_live m i Hwf Hr) now Hnow) as Hta.
  unfold session_read_auth. set (ta := tls_auth (session m i)) in *.
  set (co := Opt (o_key_ctx_bi ta) (o_packet_id ta) (pid_persist m) (o_flags ta)).
  assert (tls_auth_ok now co) as Hco by (by eapply tls_auth_ok_ext).
  wp_steps. eapply wp_mono; [by apply (wp_read_control_auth now fill h p b bs co)|].
  intros [[ok b'] co'] h' (Hm & Hco' & _ & (bs' & Hb') & Hopen). wp_steps.
  assert (owns h' (b' :: multi_bufs m)) as Ho'.
  { eapply (owns_update h h' b b' _ p bs'); eauto using block_of_rep.
    eapply modifies_keeps; [exact Hm|]. cbn. by left. }
  split; [|split; [|split]].
  - apply set_auth_ok; [by split|done|]. eapply auth_ok_now. by eapply tls_auth_ok_ext.
  - by destruct i.
  - intros [j k]. by destruct i, j, k.
  - exists bs'. split; [done|]. intros ->. unfold authentic. fold ta. fold co.
    destruct (open_control now co bs) as [[rest co1]|] eqn:E; [|done]. split; [by eexists|].
    destruct Hopen as (_ & _ & Hrest).
    rewrite (buf_rep_Zlen _ _ _ _ Hb'), <- (buf_rep_Zlen _ _ _ _ Hrest).
    eapply open_control_length; [done| |exact Hco|exact E].
    intros x Hx. destruct (ta_ctx _ _ Hco) as (enc & dec & Hbi & _ & _ & _ & Hd). unfold hmac_of in Hx.
    rewrite Hbi in Hx. by apply Hd.
Qed.

Lemma find_session_routable m sid i :
  multi_wf m -> session_id_defined sid = true -> find_session m sid = Some i -> i <> TM_LAME_DUCK -> routable m i.
Proof.
  intros [_ _ Hu _] Hsid Hf Hne. destruct i; cbn; [done| |done].
  destruct (single_session (m_opt m)); [|done]. unfold find_session in Hf. cbn [session] in Hf. rewrite Hu in Hf.
  destruct (session_id_equal _ sid); [done|]. destruct (session_id_equal _ sid) eqn:E; [|by case_match].
  apply bool_decide_eq_true in E. subst sid. done.
Qed.

(** What routing leaves: on success the packet is authentic. *)
Definition routed (now : Z) (m : multi_t) (p : ptr) (bs : list byte) (r : route) (m' : multi_t) (b' : buffer)
    (h' : heap) : Prop :=
  multi_ok h' b' m' /\ m_opt m' = m_opt m /\
  exists bs', buf_rep h' p b' bs' /\
    match r with
    | RouteError => same_keys m m'
    | ToSession i _ _ => routable m i /\ authentic now m i bs /\ Zlen bs' <= Zlen bs - 9
    end.

Lemma set_addr_ok h b m i a :
  multi_ok h b m -> routable m i -> multi_ok h b (set_session m i (set_untrusted_sockaddr (session m i) a)).
Proof.
  intros [Hwf Ho] Hr. split; [|by destruct i]. apply multi_wf_set; [done..|].
  by apply session_live_addr, routable_live.
Qed.

Lemma same_keys_addr m i a : same_keys m (set_session m i (set_untrusted_sockaddr (session m i) a)).
Proof. intros [j k]. by destruct i, j, k. Qed.

Lemma wp_route_untrusted now fill h p b bs m from op bst :
  multi_ok h b m -> SEQ_EXPIRED < now -> buf_rep h p b bs -> pos p = 0 -> Forall is_byte bs -> 9 <= Zlen bs ->
  wp (route_untrusted now fill m from b op bst) (fun x h' =>
    let '(r, m', b') := x in routed now m p bs r m' b' h') h.
Proof.
  intros Hok Hnow H Hp Hby H9. unfold route_untrusted.
  assert (routed now m p bs RouteError m b h) as Herr by (split; [done|]; split; [done|]; by exists bs).
  destruct (single_session (m_opt m)) eqn:Ess; [by wp_steps|]. case_test; [by wp_steps|]. wp_steps.
  eapply wp_mono; [by apply (wp_session_read_auth now fill h p b bs m TM_UNTRUSTED)|].
  intros [[ok b1] m1] h1 (Hok1 & Hopt & Hk & bs1 & Hb1 & Hau). wp_steps. destruct ok; cbn [negb]; wp_steps.
  - destruct (Hau eq_refl) as [Ha Hz]. split; [|split; [done|by exists bs1]].
    apply (set_addr_ok _ _ _ TM_UNTRUSTED); [done|]. cbn. by rewrite Hopt.
  - split; [done|]. split; [done|]. by exists bs1.
Qed.

Lemma wp_route_existing now fill h p b bs m from op i bst new_link :
  multi_ok h b m -> routable m i -> SEQ_EXPIRED < now ->
  buf_rep h p b bs -> pos p = 0 -> Forall is_byte bs -> 9 <= Zlen bs ->
  wp (route_existing SSL_new now fill m from b op i bst new_link) (fun x h' =>
    let '(r, m', b') := x in routed now m p bs r m' b' h') h.
Proof using SSL_new_ok.
  intros Hok Hr Hnow H Hp Hby H9. unfold route_existing.
  assert (routed now m p bs RouteError m b h) as Herr by (split; [done|]; split; [done|]; by exists bs).
  case_test; [by wp_steps|]. case_test; wp_steps.
  - eapply wp_mono; [by apply (wp_session_read_auth now fill h p b bs m i)|].
    intros [[ok b1] m1] h1 (Hok1 & Hopt & Hk & bs1 & Hb1 & Hau). wp_steps. destruct ok; cbn [negb]; wp_steps.
    2:{ split; [done|]. split; [done|]. by exists bs1. }
    destruct Hok1 as [Hwf1 Ho1]. destruct (Hau eq_refl) as [Ha Hz].
    assert (routable m1 i) as Hr1 by (destruct i; [done|cbn; by rewrite Hopt|done]).
    destruct (session_bufs_at m1 i) as (rest & Hp1 & Hp2).
    eapply wp_mono; [eapply (wp_key_state_soft_reset now fill (m_opt m1) i (session m1 i) h1 (b1 :: rest))|].
    + apply Hwf1. + by apply routable_live. + done.
    + eapply owns_perm; [|exact Ho1]. rewrite Hp1. solve_Permutation.
    + intros s h2 (Hs & Ho2 & _). wp_steps.
      assert (owns h2 (b1 :: multi_bufs (set_session m1 i s))) as Ho3.
      { eapply owns_perm; [|exact Ho2]. rewrite Hp2. solve_Permutation. }
      split; [split; [by apply multi_wf_set|done]|]. split; [done|].
      destruct (owns_head_rep _ _ _ _ _ _ Ho3 Hb1) as (bs2 & Hb2 & Hz2).
      exists bs2. split; [done|]. split_and!; [done..|lia].
  - eapply wp_mono; [by apply (wp_session_read_auth now fill h p b bs m i)|].
    intros [[ok b1] m1] h1 (Hok1 & Hopt & Hk & bs1 & Hb1 & Hau). wp_steps. destruct ok; cbn [negb]; wp_steps.
    + destruct (Hau eq_refl). split; [done|]. split; [done|]. by exists bs1.
    + split; [done|]. split; [done|]. by exists bs1.
Qed.

Lemma route_initial_ok h b m from op found i bst new_link m' :
  multi_ok h b m -> (forall i, found = Some i -> routable m i) ->
  route_initial m from op found = Some (i, bst, new_link, m') ->
  multi_ok h b m' /\ m_opt m' = m_opt m /\ same_keys m m' /\
  (forall now j bs, authentic now m' j bs = authentic now m j bs) /\ forall j, i = Some j -> routable m' j.
Proof.
  intros Hok Hf E. unfold route_initial in E. destruct found as [j|].
  { injection E as <- <- <- <-. split_and!; done. }
  destruct (is_hard_reset op 0); cbn [negb] in E; [|by injection E as <- <- <- <-].
  case_match; [done|]. case_match; [|by injection E as <- <- <- <-].
  case_match; [done|]. injection E as <- <- <- <-. split; [by apply (set_addr_ok _ _ _ TM_ACTIVE)|].
  split; [done|]. split; [apply (same_keys_addr m TM_ACTIVE)|]. split; [by intros now []|]. by intros j [= <-].
Qed.

Lemma routed_from now m m1 p bs r m' b' h' :
  m_opt m1 = m_opt m -> same_keys m m1 -> (forall now j bs, authentic now m1 j bs = authentic now m j bs) ->
  routed now m1 p bs r m' b' h' -> routed now m p bs r m' b' h'.
Proof.
  intros Ho Hk Ha (Hok & Ho1 & bs' & Hb & Hr). split; [done|]. split; [congruence|]. exists bs'. split; [done|].
  destruct r as [|i]; [by intros x; rewrite Hr, Hk|]. destruct Hr as (Hi & Hau & Hz). split_and!; [|by rewrite <- Ha|done].
  destruct i; [done|cbn in *; congruence|done].
Qed.

Lemma wp_route_control now fill h p b bs m from op sid :
  multi_ok h b m -> SEQ_EXPIRED < now -> session_id_defined sid = true ->
  buf_rep h p b bs -> pos p = 0 -> Forall is_byte bs -> 9 <= Zlen bs ->
  wp (route_control SSL_new now fill m from b op sid) (fun x h' =>
    let '(r, m', b') := x in routed now m p bs r m' b' h') h.
Proof using SSL_new_ok.
  intros Hok Hnow Hsid H Hp Hby H9. unfold route_control.
  assert (routed now m p bs RouteError m b h) as Herr by (split; [done|]; split; [done|]; by exists bs).
  assert (forall found, (forall i, found = Some i -> routable m i) ->
    wp (match route_initial m from op found with
        | None => mret (RouteError, m, b)
        | Some (i, do_burst, new_link, m) =>
            match i with
            | None => if is_hard_reset op 0 then route_untrusted now fill m from b op do_burst
                      else mret (RouteError, m, b)
            | Some i => route_existing SSL_new now fill m from b op i do_burst new_link
            end
        end) (fun x h' => let '(r, m', b') := x in routed now m p bs r m' b' h') h) as Hgo.
  { intros found Hf. destruct (route_initial m from op found) as [[[[i bst] nl] m1]|] eqn:E; [|by wp_steps].
    destruct (route_initial_ok h b m from op found i bst nl m1 Hok Hf E) as (Hok1 & Ho1 & Hk1 & Ha1 & Hr1).
    assert (forall r m' b' h', routed now m1 p bs r m' b' h' -> routed now m p bs r m' b' h') as Hfr
      by (intros; by eapply routed_from).
    destruct i as [i|].
    - eapply wp_mono; [by apply (wp_route_existing now fill h p b bs m1 from op i bst nl Hok1 (Hr1 i eq_refl))|].
      intros [[r m'] b'] h'. apply Hfr.
    - case_test.
      + eapply wp_mono; [by apply (wp_route_untrusted now fill h p b bs m1 from op bst Hok1)|].
        intros [[r m'] b'] h'. apply Hfr.
      + wp_steps. split; [done|]. split; [done|]. exists bs. split; [done|]. exact Hk1. }
  pose proof (find_session_routable m sid) as Hfs. destruct (find_session m sid) as [[]|].
  - apply Hgo. intros i [= <-]. apply (Hfs TM_ACTIVE); [apply Hok|done..].
  - apply Hgo. intros i [= <-]. apply (Hfs TM_UNTRUSTED); [apply Hok|done..].
  - by wp_steps.
  - apply Hgo. done.
Qed.

(** ** Accepting a control packet *)

Lemma routable_opt m m' i : m_opt m' = m_opt m -> routable m i -> routable m' i.
Proof. intros E. destruct i; cbn; [done|by rewrite E|done]. Qed.

Lemma set_primary_wf m i ks :
  multi_wf m -> routable m i -> ks_live (m_opt m) ks -> key_id ks = key_id (key_primary (session m i)) ->
  multi_wf (set_ks m (i, KS_PRIMARY) ks).
Proof.
  intros Hwf Hr Hk E. destruct (routable_live m i Hwf Hr). apply multi_wf_set; [done..|].
  split; try done. cbn. by rewrite E.
Qed.

Lemma set_ks_ok h b m i ks :
  multi_ok h b m -> routable m i -> ks_live (m_opt m) ks -> key_id ks = key_id (key_primary (session m i)) ->
  ks_bufs ks = ks_bufs (key_primary (session m i)) -> multi_ok h b (set_ks m (i, KS_PRIMARY) ks).
Proof.
  intros [Hwf Ho] Hr Hk Hi E. split; [by apply set_primary_wf|].
  destruct (ks_bufs_at m (i, KS_PRIMARY)) as (rest & Hp1 & Hp2). eapply owns_perm; [|exact Ho].
  rewrite Hp1, Hp2, E. done.
Qed.

Lemma incr_sessions_ok h b m : multi_ok h b m -> multi_ok h b (incr_sessions m).
Proof. intros [[] Ho]. split; [by split|done]. Qed.

Lemma set_burst_ok h b m i v :
  multi_ok h b m -> routable m i -> multi_ok h b (set_session m i (set_burst (session m i) v)).
Proof.
  intros [Hwf Ho] Hr. split; [|by destruct i]. destruct (routable_live m i Hwf Hr). apply multi_wf_set; [done..|]. by split.
Qed.

Lemma link_session_ok h b m i sid from nl :
  multi_ok h b m -> routable m i -> multi_ok h b (link_session m i sid from nl) /\
  m_opt (link_session m i sid from nl) = m_opt m.
Proof.
  intros Hok Hr. destruct nl; [|done]. split; [|done]. apply incr_sessions_ok, set_ks_ok; [done..| |done|done].
  destruct (sl_primary _ _ (routable_live m i (proj1 Hok) Hr)). by split.
Qed.

Lemma ks_live_send opt ks r r' :
  ks_live opt ks -> send_reliable ks = Some r -> e_buf <$> array r' = e_buf <$> array r -> rel_offset r' = rel_offset r ->
  ks_live opt (ks_set_send ks r') /\ ks_bufs (ks_set_send ks r') = ks_bufs ks.
Proof.
  intros [Hs Hi (x & Hx & Hxo) Hr Ha] E E1 E2. assert (x = r) as -> by congruence.
  destruct (rel_ok_same _ _ _ _ _ Hxo E1 E2) as [Hro Hb]. split.
  - split; try done. by exists r'.
  - unfold ks_bufs. rewrite E. cbn. cbn in Hb. by rewrite Hb.
Qed.

Lemma wp_burst_session now m i bst h b :
  multi_ok h b m -> routable m i ->
  wp (burst_session now m i bst) (fun m' h' => h' = h /\ multi_ok h b m' /\ m_opt m' = m_opt m) h.
Proof.
  intros Hok Hr. unfold burst_session. case_test; [|by wp_steps].
  pose proof (sl_primary _ _ (routable_live m i (proj1 Hok) Hr)) as Hks. destruct (kl_send _ _ Hks) as (r & Er & _).
  wp_steps. eapply wp_lift; [by rewrite Er|]. wp_steps. destruct (schedule_now_bufs now r) as [E1 E2].
  destruct (ks_live_send _ _ r _ Hks Er E1 E2) as [Hl Hb]. split; [done|]. split; [|done].
  pose proof (set_ks_ok h b m i _ Hok Hr Hl eq_refl Hb) as Hok1.
  pose proof (set_burst_ok h b _ i true Hok1) as Hok2. destruct i; [by apply Hok2|by apply Hok2|done].
Qed.

(** What accepting leaves, whether the packet was good or not. *)
Definition accepted (m : multi_t) (p : ptr) (x : bool * multi_t * buffer) (h : heap) : Prop :=
  let '(ok, m', b') := x in
  multi_ok h b' m' /\ m_opt m' = m_opt m /\ exists bs', buf_rep h p b' bs'.

Lemma multi_ok_moved h b b' p bs bs' m :
  multi_ok h b m -> buf_rep h p b bs -> buf_rep h p b' bs' -> pos p = 0 -> multi_ok h b' m.
Proof.
  intros [Hwf Ho] H H' Hp. split; [done|]. eapply (owns_update h h b b'); eauto using block_of_rep, keeps_refl.
Qed.

Lemma wp_accept_acked h p b bs m op kid i :
  multi_ok h b m -> routable m i -> buf_rep h p b bs -> pos p = 0 ->
  Zlen bs + 9 <= MAX_RW_SIZE_LINK (opt_frame (m_opt m)) ->
  wp (accept_acked m b op kid i) (accepted m p) h.
Proof.
  intros Hok Hr H Hp Hfit. unfold accept_acked.
  destruct (control_frame_sizes _ (oo_frame _ (mw_opts _ (proj1 Hok)))) as (HH & _ & Hroom).
  assert (forall ok m' b' bs', multi_ok h b m' -> buf_rep h p b' bs' -> m_opt m' = m_opt m -> accepted m p (ok, m', b') h) as Hsame.
  { intros ok m' b' bs' Hm Hb Hopt. split; [by eapply multi_ok_moved|]. split; [done|]. by exists bs'. }
  case_test; [wp_steps; by eapply Hsame|]. wp_steps.
  eapply wp_mono; [by apply (wp_reliable_ack_read_any h p b bs)|].
  intros [[ok ids] b1] h1 (-> & Hids & bs1 & Hb1 & Hsuf). cbn [fst snd] in *. wp_steps.
  destruct ok; cbn [negb]; [|wp_steps; by eapply Hsame].
  pose proof (routable_live m i (proj1 Hok) Hr) as Hlive. pose proof (sl_primary _ _ Hlive) as Hks.
  destruct (kl_send _ _ Hks) as (send & Es & _). wp_steps. eapply wp_lift; [by rewrite Es|]. wp_steps.
  destruct (purge_bufs send ids) as [E1 E2].
  destruct (ks_live_send _ _ send _ Hks Es E1 E2) as [Hl Hbufs].
  set (ks := ks_set_send _ _) in *. pose proof (set_ks_ok h b m i ks Hok Hr Hl eq_refl Hbufs) as Hok1.
  set (m1 := set_ks m _ ks) in *. destruct (op =? P_ACK_V1); cbn [negb]; [wp_steps; by eapply Hsame|].
  destruct (kl_rec _ _ Hl) as (rec & Erec & Hrec). destruct (kl_ack _ _ Hl) as (ack & Eack & Hack). wp_steps.
  eapply wp_lift; [by rewrite Erec|]. wp_steps. eapply wp_lift; [by rewrite Eack|]. wp_steps.
  destruct (ks_bufs_at m1 (i, KS_PRIMARY)) as (rest & Hp1 & Hp2).
  assert (ks_at m1 (i, KS_PRIMARY) = ks) as Eks by (by destruct i). rewrite Eks in Hp1.
  set (others := plaintext_read_buf ks :: plaintext_write_buf ks :: ack_write_buf ks :: rel_bufs (send_reliable ks) ++ rest).
  eapply wp_mono; [eapply (wp_rec_accept_any h _ _ _ rec ack p b1 bs1 op others Hrec)|].
  { done. } { done. } { done. } { done. }
  { pose proof (suffix_Zlen _ _ Hsuf). lia. }
  { destruct (multi_ok_moved h b b1 p bs bs1 m1 Hok1 H Hb1 Hp) as [_ Ho1]. eapply owns_perm; [|exact Ho1].
    rewrite Hp1. unfold ks_bufs, others. rewrite Erec. solve_Permutation. }
  intros [[rec' ack'] b2] h2 (Hrec' & Hack' & (bs2 & Hb2 & _) & Ho2). wp_steps.
  split; [split|].
  - apply (set_primary_wf m1 i); [apply Hok1|by eapply routable_opt| |by destruct i]. destruct Hl. split; cbn; eauto.
  - eapply owns_perm; [|exact Ho2]. rewrite Hp2. unfold ks_bufs, others. cbn. solve_Permutation.
  - split; [done|]. by exists bs2.
Qed.

Lemma wp_accept_control now h p b bs m from op kid sid i bst nl :
  multi_ok h b m -> routable m i -> buf_rep h p b bs -> pos p = 0 ->
  Zlen bs + 9 <= MAX_RW_SIZE_LINK (opt_frame (m_opt m)) ->
  wp (accept_control now m from b op kid sid i bst nl) (accepted m p) h.
Proof.
  intros Hok Hr H Hp Hfit. unfold accept_control. pose proof (routable_live m i (proj1 Hok) Hr) as Hlive.
  pose proof (kl_state _ _ (sl_primary _ _ Hlive)) as Hst. unfold S_INITIAL, S_NORMAL in Hst. wp_steps.
  apply wp_ASSERT; [unfold S_UNDEF; lia|]. wp_steps. apply wp_ASSERT; [unfold S_ERROR; lia|]. wp_steps.
  apply wp_ASSERT; [apply Hlive|]. wp_steps.
  destruct (link_session_ok h b m i sid from nl Hok Hr) as [Hok1 Ho1]. set (m1 := link_session m i sid from nl) in *.
  case_test; [wp_steps; split; [done|]; split; [done|]; by exists bs|]. wp_steps.
  eapply wp_mono; [apply (wp_burst_session now m1 i bst h b Hok1); by eapply routable_opt|].
  intros m2 h2 (-> & Hok2 & Ho2). assert (m_opt m2 = m_opt m) as Em by congruence.
  eapply wp_mono; [apply (wp_accept_acked h p b bs m2 op kid i Hok2)|].
  { by eapply routable_opt. } { done. } { done. } { by rewrite Em. }
  intros [[ok m'] b'] h' (? & ? & ?). split; [done|]. split; [congruence|done].
Qed.

(** ** Receiving any packet *)

(** The first byte of a data packet under key [r]. *)
Definition data_header (m : multi_t) (r : ks_ref) : Z :=
  Z.lor (Z.shiftl P_DATA_V1 P_OPCODE_SHIFT) (key_id (ks_at m r)).

(** Key [r] may decrypt what [from] sends. *)
Definition data_ready (m : multi_t) (from : sockaddr_in) (r : ks_ref) : bool :=
  DECRYPT_KEY_ENABLED m (ks_at m r) && authenticated (ks_at m r) && addr_port_match from (remote_addr (ks_at m r)).

Lemma header_split c : c = Z.lor (Z.shiftl (Z.shiftr c P_OPCODE_SHIFT) P_OPCODE_SHIFT) (Z.land c P_KEY_ID_MASK).
Proof.
  change P_KEY_ID_MASK with (Z.ones 3). unfold P_OPCODE_SHIFT. apply Z.bits_inj'. intros n Hn.
  rewrite Z.lor_spec, Z.land_spec, Z.testbit_ones_nonneg by lia. destruct (Z.lt_ge_cases n 3).
  - rewrite Z.shiftl_spec_low by done. replace (n <? 3) with true by lia. by rewrite andb_true_r.
  - rewrite Z.shiftl_spec_high, Z.shiftr_spec by lia. replace (n <? 3) with false by lia.
    rewrite andb_false_r, orb_false_r. f_equal. lia.
Qed.

Lemma data_header_split m r : 0 <= key_id (ks_at m r) <= P_KEY_ID_MASK ->
  Z.shiftr (data_header m r) P_OPCODE_SHIFT = P_DATA_V1 /\ Z.land (data_header m r) P_KEY_ID_MASK = key_id (ks_at m r).
Proof.
  unfold data_header, P_KEY_ID_MASK. intros Hk. set (k := key_id (ks_at m r)) in *.
  assert (k = 0 \/ k = 1 \/ k = 2 \/ k = 3 \/ k = 4 \/ k = 5 \/ k = 6 \/ k = 7) as Hc by lia.
  by destruct Hc as [->|[->|[->|[->|[->|[->|[->| ->]]]]]]].
Qed.

(** The keys that are scanned have a key id once they are in use. *)
Lemma scan_key_id m r : multi_wf m -> r ∈ key_scan -> S_INITIAL <= state (ks_at m r) ->
  0 <= key_id (ks_at m r) <= P_KEY_ID_MASK.
Proof.
  intros [_ Ha _ Hl] Hr Hs. pose proof (sl_lame _ _ Ha) as Hla.
  assert (forall ks, lame_ok (m_opt m) ks -> S_INITIAL <= state ks -> 0 <= key_id ks <= P_KEY_ID_MASK) as Hk.
  { intros ks [?|[Hk _]] ?; [lia|]. apply Hk. }
  unfold key_scan in Hr. rewrite !elem_of_cons in Hr. destruct Hr as [->|[->|[->|Hr]]].
  - apply (sl_primary _ _ Ha). - by apply Hk. - by apply Hk. - by apply elem_of_nil in Hr.
Qed.

(** A server's decryption starts one state earlier. *)
Lemma data_ready_live m from r : multi_wf m -> r ∈ key_scan -> data_ready m from r = true ->
  0 <= key_id (ks_at m r) <= P_KEY_ID_MASK.
Proof.
  intros Hwf Hr Hd. apply scan_key_id; [done..|]. unfold data_ready, DECRYPT_KEY_ENABLED in Hd.
  apply andb_prop in Hd as [Hd _]. apply andb_prop in Hd as [Hd _]. unfold S_GOT_KEY, S_INITIAL in *.
  destruct (server _); lia.
Qed.

Lemma data_key_Some m from kid r : data_key m from kid = Some r ->
  r ∈ key_scan /\ data_ready m from r = true /\ key_id (ks_at m r) = kid.
Proof.
  unfold data_key. intros E. destruct (list_find _ key_scan) as [[n r']|] eqn:Ef; [|done]. cbn in E.
  injection E as ->. apply list_find_Some in Ef as (Hl & Hp & _). split; [by eapply list_elem_of_lookup_2|].
  repeat (apply andb_prop in Hp as [Hp ?]). unfold data_ready. split; [|lia]. by rewrite !andb_true_iff.
Qed.

Lemma data_key_None m from kid r : data_key m from kid = None -> r ∈ key_scan -> data_ready m from r = true ->
  key_id (ks_at m r) <> kid.
Proof.
  unfold data_key. intros E Hr Hd Hk. destruct (list_find _ key_scan) as [[n r']|] eqn:Ef; [done|].
  apply list_find_None in Ef. rewrite list.Forall_forall in Ef. apply (Ef r Hr). unfold data_ready in Hd.
  repeat (apply andb_prop in Hd as [Hd ?]). rewrite !andb_true_iff. split_and!; auto. lia.
Qed.

Lemma set_count_ok h b m r n : multi_ok h b m -> r ∈ key_scan -> multi_ok h b (set_ks m r (ks_count (ks_at m r) n)).
Proof.
  intros [Hwf Ho] Hr. split.
  - assert (forall ks, ks_live (m_opt m) ks -> ks_live (m_opt m) (ks_count ks n)) as Hk by (intros ks []; by split).
    assert (forall ks, lame_ok (m_opt m) ks -> lame_ok (m_opt m) (ks_count ks n)) as Hl.
    { intros ks [?|[? ?]]; [by left|right; auto]. }
    destruct Hwf as [Hopt [] Hu Hla]. unfold key_scan in Hr. rewrite !elem_of_cons in Hr.
    destruct Hr as [->|[->|[->|Hr]]]; [..|by apply elem_of_nil in Hr]; split; cbn; auto; split; cbn; auto.
  - destruct (ks_bufs_at m r) as (rest & Hp1 & Hp2). eapply owns_perm; [|exact Ho]. by rewrite Hp1, Hp2.
Qed.

Lemma incr_soft_errors_ok h b m : multi_ok h b m -> multi_ok h b (incr_soft_errors m).
Proof. intros [[] Ho]. split; [by split|done]. Qed.

(** What tls_pre_decrypt does with the packet [bs]. *)
Definition pre_decrypted (now : Z) (m : multi_t) (from : sockaddr_in) (p : ptr) (bs : list byte)
    (x : bool * multi_t * buffer * data_options) (h' : heap) : Prop :=
  let '(ret, m', b', opt') := x in
  multi_ok h' b' m' /\ m_opt m' = m_opt m /\
  match d_key opt' with
  | Some r =>
      ret = false /\ r ∈ key_scan /\ data_ready m from r = true /\
      exists payload, bs = data_header m r :: payload /\ buf_rep h' p b' payload /\
        m' = set_ks m r (ks_count (ks_at m r) (Zlen payload))
  | None =>
      b_len b' = 0 /\ d_packet_id opt' = None /\
      ((forall i, routable m i -> ~ authentic now m i bs) -> same_keys m m') /\
      (forall r payload, r ∈ key_scan -> bs = data_header m r :: payload -> data_ready m from r = false)
  end.

Lemma pre_decrypt_done now m from p bs h' m' b' bs' ret opt' :
  multi_ok h' b' m' -> m_opt m' = m_opt m -> buf_rep h' p b' bs' -> pos p = 0 ->
  d_key opt' = None -> d_packet_id opt' = None ->
  ((forall i, routable m i -> ~ authentic now m i bs) -> same_keys m m') ->
  (forall r payload, r ∈ key_scan -> bs = data_header m r :: payload -> data_ready m from r = false) ->
  pre_decrypted now m from p bs (ret, m', with_len b' 0, opt') h'.
Proof.
  intros Hok Ho H Hp E1 E2 Hs Hd. split.
  - eapply multi_ok_moved; [exact Hok|exact H| |done]. by eapply buf_rep_len0.
  - split; [done|]. rewrite E1. by split_and!.
Qed.

Lemma wp_pre_decrypt_control now fill m from h p b rest op kid sid (opt : data_options) bs :
  multi_ok h b m -> SEQ_EXPIRED < now -> session_id_defined sid = true ->
  buf_rep h p b bs -> pos p = 0 -> Forall is_byte bs -> 9 <= Zlen bs <= MAX_RW_SIZE_LINK (opt_frame (m_opt m)) ->
  (forall r payload, r ∈ key_scan -> bs = data_header m r :: payload -> data_ready m from r = false) ->
  (forall ret m' b', rest ret m' b' =
     mret (ret, m', with_len b' 0, DataOpt None None (Z.land (d_flags opt) (crypto_flags_and (m_opt m'))))) ->
  wp ('(r, m, b) ← route_control SSL_new now fill m from b op sid;
      match r with
      | RouteError => rest false (incr_soft_errors m) b
      | ToSession i do_burst new_link =>
          '(ok, m, b) ← accept_control now m from b op kid sid i do_burst new_link;
          rest true (if ok : bool then m else incr_soft_errors m) b
      end) (pre_decrypted now m from p bs) h.
Proof using SSL_new_ok.
  intros Hok Hnow Hsid H Hp Hby [H9 Hmax] Hdata Hrest. wp_steps.
  eapply wp_mono; [by apply (wp_route_control now fill h p b bs m from op sid)|].
  intros [[r m1] b1] h1 (Hok1 & Ho1 & bs1 & Hb1 & Hr). destruct r as [|i bst nl].
  - rewrite Hrest. wp_steps. eapply pre_decrypt_done; try done. by apply incr_soft_errors_ok.
  - destruct Hr as (Hr & Hau & Hz). wp_steps.
    eapply wp_mono; [apply (wp_accept_control now h1 p b1 bs1 m1 from op kid sid i bst nl Hok1)|].
    { by eapply routable_opt. } { done. } { done. } { rewrite Ho1. lia. }
    intros [[ok m2] b2] h2 (Hok2 & Ho2 & bs2 & Hb2). rewrite Hrest. wp_steps.
    eapply pre_decrypt_done; try done.
    + destruct ok; [done|by apply incr_soft_errors_ok].
    + by destruct ok; cbn; congruence.
    + intros Hna. by destruct (Hna i Hr).
Qed.

(** C7: no packet breaks the receiver.  Whatever bytes arrive from whatever address,
    tls_pre_decrypt returns: no ASSERT fails and no memory outside the packet and
    the sessions' own buffers is touched, and the sessions stay well formed.  A data
    packet gets a key only if that key is enabled, authenticated, and has the
    packet's key id and the sender's address; the opcode byte is then removed and
    the rest is handed on.  Every other packet leaves nothing to decrypt, and one
    that no session's tls-auth accepts changes no key state. *)
Theorem tls_pre_decrypt_robust now fill m from h p b bs opt :
  multi_ok h b m -> SEQ_EXPIRED < now -> buf_rep h p b bs -> pos p = 0 -> Forall is_byte bs ->
  Zlen bs <= MAX_RW_SIZE_LINK (opt_frame (m_opt m)) ->
  wp (tls_pre_decrypt SSL_new now fill m from b opt) (pre_decrypted now m from p bs) h.
Proof using SSL_new_ok.
  intros Hok Hnow H Hp Hby Hmax. unfold tls_pre_decrypt. rep_facts H.
  destruct bs as [|c bs].
  { replace (b_len b >? 0) with false by (rewrite <- HL; done). wp_steps. by eapply pre_decrypt_done. }
  pose proof (Zlen_nonneg bs) as Hn. rewrite Zlen_cons in HL, Hmax. replace (b_len b >? 0) with true by lia.
  wp_steps. rewrite (BPTR_rep _ _ _ _ H). wp_steps. eapply wp_load; [by apply (buf_rep_prefix h p b [c] bs)|].
  change (be_dec [c]) with c. wp_steps.
  pose proof (header_split c) as Hc. set (op := Z.shiftr c _) in *. set (kid := Z.land c _) in *.
  pose proof (buf_advance_spec h p b [c] bs H) as Hadv. change (Zlen [c]) with 1 in Hadv.
  destruct (op =? P_DATA_V1) eqn:Eop; bool_simp.
  - destruct (data_key m from kid) as [r|] eqn:Ek.
    + apply data_key_Some in Ek as (Hr & Hd & Hk). destruct Hadv as [-> Hb1]. wp_steps. split; [|split; [done|]].
      * apply set_count_ok; [|done]. by eapply multi_ok_moved.
      * cbn [d_key]. split_and!; try done. exists bs. split; [|split; [done|]].
        { unfold data_header. by rewrite Hk, <- Eop, <- Hc. }
        { cbn [b_len with_offset_len]. do 2 f_equal. lia. }
    + wp_steps. eapply pre_decrypt_done; try done; [by apply incr_soft_errors_ok|].
      intros r payload Hr [= -> ->]. destruct (data_ready m from r) eqn:Ed; [|done].
      destruct (data_header_split m r) as [_ E2]; [by eapply data_ready_live; [apply Hok|..]|].
      by destruct (data_key_None m from kid r Ek Hr Ed).
  - assert (forall r payload, r ∈ key_scan -> c :: bs = data_header m r :: payload -> data_ready m from r = false) as Hdata.
    { intros r payload Hr [= -> ->]. destruct (data_ready m from r) eqn:Ed; [|done].
      destruct (data_header_split m r) as [E1 _]; [by eapply data_ready_live; [apply Hok|..]|]. done. }
    assert (pre_decrypted now m from p (c :: bs) (false, incr_soft_errors m, with_len b 0,
              DataOpt None None (Z.land (d_flags opt) (crypto_flags_and (m_opt m)))) h) as Herr.
    { eapply pre_decrypt_done; try done. by apply incr_soft_errors_ok. }
    case_test; [by wp_steps|]. case_test; [by wp_steps|]. destruct Hadv as [Ea Hb1]. rewrite Ea. wp_steps.
    unfold session_id_read. eapply wp_mono; [apply (wp_buf_read_any h p _ bs SID_SIZE Hb1); unfold SID_SIZE; lia|].
    intros [sid b2] h2 (-> & s & _ & Hs). cbn [fst snd] in Hs. wp_steps. destruct sid as [sid|]; [|by wp_steps].
    destruct (session_id_defined sid) eqn:Esid; cbn [negb]; [|by wp_steps].
    destruct Hs as (Hs & _). unfold SID_SIZE in Hs.
    apply (wp_pre_decrypt_control now fill m from h p b (fun ret m b => mret (ret, m, with_len b 0,
      DataOpt None None (Z.land (d_flags opt) (crypto_flags_and (m_opt m))))) op kid sid opt (c :: bs)); try done.
    rewrite Zlen_cons. lia.
Qed.

(** ** Data packets from key to key *)

Lemma encrypt_key_Some m r : encrypt_key m = Some r ->
  r ∈ key_scan /\ S_ACTIVE <= state (ks_at m r) /\ authenticated (ks_at m r) = true.
Proof.
  unfold encrypt_key. intros E. destruct (list_find _ key_scan) as [[n r']|] eqn:Ef; [|done]. cbn in E.
  injection E as ->. apply list_find_Some in Ef as (Hl & Hp & _). split; [by eapply list_elem_of_lookup_2|].
  apply andb_prop in Hp as [? ?]. split; [lia|done].
Qed.

Lemma encrypt_key_id m r : multi_wf m -> encrypt_key m = Some r -> 0 <= key_id (ks_at m r) <= P_KEY_ID_MASK.
Proof.
  intros Hwf (Hr & Hs & _)%encrypt_key_Some. apply scan_key_id; [done..|]. unfold S_ACTIVE, S_INITIAL in *. lia.
Qed.

(** tls_post_encrypt puts the opcode and the key id in front. *)
Lemma wp_tls_post_encrypt h p b bs m r :
  save_ks m = Some r -> buf_rep h p b bs -> bs <> [] -> 1 <= b_offset b -> 0 <= key_id (ks_at m r) <= P_KEY_ID_MASK ->
  wp (tls_post_encrypt m b) (fun x h' => save_ks (fst x) = None /\ buf_rep h' p (snd x) (data_header m r :: bs)) h.
Proof.
  intros Hs H Hne Hoff Hk. unfold tls_post_encrypt. rewrite Hs. rep_facts H.
  assert (0 < b_len b) by (rewrite <- HL; destruct bs; [done|]; rewrite Zlen_cons; pose proof (Zlen_nonneg bs); lia).
  replace (b_len b >? 0) with true by lia. wp_steps. eapply wp_lift; [done|]. wp_steps.
  rewrite (buf_prepend_spec h p b bs 1 H) by lia. wp_steps. eapply wp_lift; [done|]. wp_steps.
  assert (ks_at (set_save_ks m None) r = ks_at m r) as -> by (by destruct r as [[] []]).
  assert (u8 (Z.lor (Z.shiftl P_DATA_V1 P_OPCODE_SHIFT) (key_id (ks_at m r))) = data_header m r) as ->.
  { unfold data_header, P_KEY_ID_MASK in *. set (k := key_id (ks_at m r)) in *.
    assert (k = 0 \/ k = 1 \/ k = 2 \/ k = 3 \/ k = 4 \/ k = 5 \/ k = 6 \/ k = 7) as Hc by lia.
    by destruct Hc as [->|[->|[->|[->|[->|[->|[->| ->]]]]]]]. }
  eapply (wp_store_prepend h p b bs [data_header m r] _ H); [change (Zlen [data_header m r]) with 1; lia|].
  intros h1 Hr _. wp_steps. destruct r as [[] []]; (split; [reflexivity|exact Hr]).
Qed.

(** C20: both ends use the same key.  A packet that leaves with the key state tls_pre_encrypt
    picked gets from tls_pre_decrypt of the peer a key state with the same key id, if
    one is enabled, authenticated and bound to the sender's address, and arrives
    there byte for byte; otherwise it is dropped. *)
Theorem tls_data_roundtrip now fill m1 r m2 from h p b bs opt1 opt2 :
  multi_wf m1 -> encrypt_key m1 = Some r -> buf_rep h p b bs -> bs <> [] -> 1 <= b_offset b ->
  let '(m1', b1, o1) := tls_pre_encrypt m1 b opt1 in
  d_key o1 = Some r /\ b1 = b /\
  wp ('(_, b2) ← tls_post_encrypt m1' b1; tls_pre_decrypt SSL_new now fill m2 from b2 opt2)
     (fun x h' => let '(ret, m2', b', o2) := x in
        ret = false /\ d_key o2 = data_key m2 from (key_id (ks_at m1 r)) /\
        match d_key o2 with
        | Some r2 => buf_rep h' p b' bs /\ d_packet_id o2 = (if replay (m_opt m2) then Some r2 else None)
        | None => b_len b' = 0
        end) h.
Proof.
  intros Hwf Hr H Hne Hoff. unfold tls_pre_encrypt. rep_facts H.
  assert (0 < b_len b) by (rewrite <- HL; destruct bs; [done|]; rewrite Zlen_cons; pose proof (Zlen_nonneg bs); lia).
  replace (b_len b >? 0) with true by lia.
  assert (encrypt_key (set_save_ks m1 None) = encrypt_key m1) as -> by reflexivity. rewrite Hr.
  cbv iota beta. split; [done|]. split; [done|].
  set (m1' := set_save_ks (set_save_ks m1 None) (Some r)).
  assert (ks_at m1' r = ks_at m1 r) as Eks by (by destruct r as [[] []]).
  pose proof (encrypt_key_id m1 r Hwf Hr) as Hid.
  wp_steps. eapply wp_mono; [apply (wp_tls_post_encrypt h p b bs m1' r eq_refl H Hne Hoff); by rewrite Eks|].
  intros [m3 b2] h2 [_ Hb2]. cbn [fst snd] in Hb2. assert (data_header m1' r = data_header m1 r) as E by (unfold data_header; by rewrite Eks).
  rewrite E in Hb2. unfold tls_pre_decrypt. pose proof (buf_rep_Zlen _ _ _ _ Hb2) as Hl. rewrite Zlen_cons in Hl.
  pose proof (Zlen_nonneg bs). replace (b_len b2 >? 0) with true by lia.
  rewrite (BPTR_rep _ _ _ _ Hb2). wp_steps. eapply wp_load; [by apply (buf_rep_prefix h2 p b2 [data_header m1 r] bs)|].
  change (be_dec [data_header m1 r]) with (data_header m1 r). destruct (data_header_split m1 r Hid) as [-> ->].
  rewrite Z.eqb_refl. destruct (data_key m2 from _) as [r2|]; [|by wp_steps].
  destruct (buf_advance_spec h2 p b2 [data_header m1 r] bs Hb2) as [Ha Hr2]. change (Zlen [data_header m1 r]) with 1 in *.
  rewrite Ha. wp_steps. by split_and!.
Qed.

(** ** Renegotiation *)

Lemma next_key_id_ne k : 0 <= k <= P_KEY_ID_MASK -> next_key_id k <> k.
Proof.
  unfold P_KEY_ID_MASK. intros Hk.
  assert (k = 0 \/ k = 1 \/ k = 2 \/ k = 3 \/ k = 4 \/ k = 5 \/ k = 6 \/ k = 7) as Hc by lia.
  by destruct Hc as [->|[->|[->|[->|[->|[->|[->| ->]]]]]]].
Qed.

Lemma data_key_eq m from kid :
  data_key m from kid =
    let ok r := data_ready m from r && (key_id (ks_at m r) =? kid) in
    if ok (TM_ACTIVE, KS_PRIMARY) then Some (TM_ACTIVE, KS_PRIMARY)
    else if ok (TM_ACTIVE, KS_LAME_DUCK) then Some (TM_ACTIVE, KS_LAME_DUCK)
    else if ok (TM_LAME_DUCK, KS_LAME_DUCK) then Some (TM_LAME_DUCK, KS_LAME_DUCK)
    else None.
Proof.
  unfold data_key, key_scan, data_ready. cbv zeta.
  assert (forall r, DECRYPT_KEY_ENABLED m (ks_at m r) && (kid =? key_id (ks_at m r)) && authenticated (ks_at m r) &&
            addr_port_match from (remote_addr (ks_at m r)) =
          DECRYPT_KEY_ENABLED m (ks_at m r) && authenticated (ks_at m r) && addr_port_match from (remote_addr (ks_at m r)) &&
            (key_id (ks_at m r) =? kid)) as E.
  { intros r. rewrite (Z.eqb_sym kid). by destruct (DECRYPT_KEY_ENABLED _ _), (_ =? _), (authenticated _), (addr_port_match _ _). }
  cbn [list_find]. rewrite !E. by repeat (case_decide || case_match; try congruence).
Qed.

Lemma encrypt_key_eq m :
  encrypt_key m =
    let ok r := (state (ks_at m r) >=? S_ACTIVE) && authenticated (ks_at m r) in
    if ok (TM_ACTIVE, KS_PRIMARY) then Some (TM_ACTIVE, KS_PRIMARY)
    else if ok (TM_ACTIVE, KS_LAME_DUCK) then Some (TM_ACTIVE, KS_LAME_DUCK)
    else if ok (TM_LAME_DUCK, KS_LAME_DUCK) then Some (TM_LAME_DUCK, KS_LAME_DUCK)
    else None.
Proof. unfold encrypt_key, key_scan. cbn [list_find]. by repeat (case_decide || case_match; try congruence). Qed.

(** C8: renegotiation does not interrupt traffic.  After key_state_soft_reset on the
    active session, packets that the old key decrypted are still decrypted by it and
    what it encrypted is still encrypted by it, now as the lame duck key, until the
    transition window is over, when lame_duck_must_die says so; the new key has
    another key id, in 1 .. 7, so that the peer can tell them apart. *)
Theorem soft_reset_keeps_traffic now fill m h l :
  multi_wf m -> SEQ_EXPIRED < now -> owns h (session_bufs (s_active m) ++ l) ->
  wp (key_state_soft_reset SSL_new now fill (m_opt m) TM_ACTIVE (s_active m)) (fun s h' =>
    let m' := set_session m TM_ACTIVE s in
    (forall from kid, data_key m from kid = Some (TM_ACTIVE, KS_PRIMARY) ->
       data_key m' from kid = Some (TM_ACTIVE, KS_LAME_DUCK)) /\
    (encrypt_key m = Some (TM_ACTIVE, KS_PRIMARY) -> encrypt_key m' = Some (TM_ACTIVE, KS_LAME_DUCK)) /\
    key (key_lame s) = key (key_primary (s_active m)) /\
    key_id (key_primary s) <> key_id (key_lame s) /\ 1 <= key_id (key_primary s) <= P_KEY_ID_MASK /\
    (forall t w, exists w', lame_duck_must_die t s w = Ok (now + transition_window (m_opt m) <=? t, w')) /\
    owns h' (session_bufs s ++ l)) h.
Proof using SSL_new_ok.
  intros Hwf Hnow Ho. pose proof Hwf as [Hopt Ha _ _]. pose proof (oo_transition _ Hopt).
  eapply wp_mono; [by apply wp_key_state_soft_reset|]. intros s h' (Hs & Ho' & El & Est & Eid). cbv zeta.
  destruct (kl_state _ _ (sl_primary _ _ Ha)) as [Hst _]. pose proof (kl_id _ _ (sl_primary _ _ Ha)) as Hid.
  assert (forall from, data_ready (set_session m TM_ACTIVE s) from (TM_ACTIVE, KS_PRIMARY) = false) as Hoff.
  { intros from. unfold data_ready, DECRYPT_KEY_ENABLED, ks_at. cbn [fst snd session s_active set_session session_key m_opt].
    rewrite Est. by destruct (server (m_opt m)). }
  split_and!; [| | | | | | | done].
  - intros from kid. rewrite !data_key_eq. cbv beta zeta. rewrite Hoff. cbn [andb].
    assert (data_ready (set_session m TM_ACTIVE s) from (TM_ACTIVE, KS_LAME_DUCK) = data_ready m from (TM_ACTIVE, KS_PRIMARY) /\
            key_id (ks_at (set_session m TM_ACTIVE s) (TM_ACTIVE, KS_LAME_DUCK)) = key_id (ks_at m (TM_ACTIVE, KS_PRIMARY))) as [-> ->].
    { unfold data_ready, DECRYPT_KEY_ENABLED, ks_at. cbn [fst snd session s_active set_session session_key m_opt]. by rewrite El. }
    by repeat case_match.
  - rewrite !encrypt_key_eq. cbv beta zeta. unfold ks_at. cbn [fst snd session s_active set_session session_key m_opt s_lame].
    rewrite Est, El. cbn [state authenticated ks_set_must_die]. change (S_INITIAL >=? S_ACTIVE) with false. cbn [andb].
    by repeat case_match.
  - by rewrite El.
  - rewrite El, Eid. by apply next_key_id_ne.
  - rewrite Eid. apply next_key_id_range.
  - rewrite Eid. apply next_key_id_range.
  - intros t w. unfold lame_duck_must_die. rewrite El. cbn [state must_die ks_set_must_die].
    replace (state (key_primary (s_active m)) >=? S_INITIAL) with true by lia. unfold SEQ_EXPIRED in Hnow.
    replace (negb (now + transition_window (m_opt m) =? 0)) with true by lia. cbn [assert_ mbind].
    destruct (t <? now + transition_window (m_opt m)) eqn:E; eexists; cbn; repeat f_equal; lia.
Qed.
End Ok.

(** ** Packets of unknown clients *)

Lemma wp_free_rep h p b bs : buf_rep h p b bs -> pos p = 0 ->
  wp (free_buf b) (fun b' h' => b' = clear_buf /\ keeps [blk p] h h') h.
Proof.
  intros H Hp. unfold wp, free_buf. rewrite (br_data _ _ _ _ H). destruct (br_valid _ _ _ _ H) as [x Hx].
  rewrite decide_True by (split; [done|]; apply mload_Some in Hx as (? & ? & _); eauto). split; [done|].
  intros q k y Hq Hy. unfold mload in *. rewrite lookup_delete_ne; [done|]. intros E. apply Hq. by rewrite E, list_elem_of_singleton.
Qed.

(** The options with which a packet is looked at. *)
Definition lite_options (tas : tls_auth_standalone) : crypto_options :=
  let o := tls_auth_options tas in
  Opt (o_key_ctx_bi o) (o_packet_id o) (o_pid_persist o) (Z.lor (o_flags o) CO_IGNORE_PACKET_ID).

(** C21: a server makes a client only of a packet that authenticates.  tls_pre_decrypt_lite
    accepts exactly the initial packets of a client (opcode HARD_RESET_CLIENT_V2,
    key id 0) that are no larger than the control channel allows and pass the HMAC of
    --tls-auth, if there is one; it works on a copy, so the packet and all other
    memory are unchanged and the packet can then be processed for real. *)
Theorem tls_pre_decrypt_lite_exact now fill tas h p b bs :
  tls_auth_ok now (lite_options tas) -> buf_rep h p b bs -> Forall is_byte bs ->
  wp (tls_pre_decrypt_lite now fill tas b) (fun ok h' => keeps [] h h' /\ buf_rep h' p b bs /\
    (ok = true <-> head bs = Some (Z.shiftl P_CONTROL_HARD_RESET_CLIENT_V2 P_OPCODE_SHIFT) /\
                   Zlen bs <= EXPANDED_SIZE_DYNAMIC (tas_frame tas) /\
                   is_Some (open_control now (lite_options tas) bs))) h.
Proof.
  intros Hta H Hby. unfold tls_pre_decrypt_lite. rep_facts H.
  assert (forall h', keeps [] h h' -> buf_rep h' p b bs) as Hk.
  { intros h' Hk. eapply buf_rep_keeps; [exact Hk|apply not_elem_of_nil|done]. }
  destruct bs as [|c bs].
  { replace (b_len b >? 0) with false by (rewrite <- HL; done). wp_steps. split; [apply keeps_refl|].
    split; [done|]. split; [done|]. by intros [? _]. }
  pose proof (Zlen_nonneg bs) as Hn. rewrite Zlen_cons in HL. replace (b_len b >? 0) with true by lia. rewrite Zlen_cons.
  wp_steps. rewrite (BPTR_rep _ _ _ _ H). wp_steps. eapply wp_load; [by apply (buf_rep_prefix h p b [c] bs)|].
  change (be_dec [c]) with c. wp_steps. pose proof (header_split c) as Hc. cbn [head].
  assert (forall Q : Prop, ~ Q -> false = true <-> Q) as Hno by (by split).
  assert (keeps [] h h) as Hrefl by apply keeps_refl.
  destruct (Z.shiftr c _ =? P_CONTROL_HARD_RESET_CLIENT_V2) eqn:E1; cbn [negb]; bool_simp.
  2:{ wp_steps. split_and!; [done..|]. apply Hno. intros ([= ->] & _). done. }
  destruct (Z.land c _ =? 0) eqn:E2; cbn [negb]; bool_simp.
  2:{ wp_steps. split_and!; [done..|]. apply Hno. intros ([= ->] & _). done. }
  rewrite E1, E2, Z.lor_0_r in Hc. subst c.
  destruct (b_len b >? _) eqn:E3; bool_simp; [wp_steps; split_and!; [done..|]; apply Hno; lia|]. wp_steps.
  eapply wp_mono; [by eapply wp_clone_buf|]. intros b1 h1 (q & h0 & Hf & Hk1 & Hb1 & _). wp_steps.
  eapply wp_mono; [apply (wp_read_control_auth_any now fill h1 q b1 _ _ Hta Hb1 Hby)|].
  intros [[ok b2] co] h2 (Hk2 & [bs2 Hb2] & ->). wp_steps.
  eapply wp_mono; [apply (wp_free_rep h2 q b2 bs2 Hb2); apply Hf|]. intros b3 h3 [_ Hk3]. wp_steps.
  assert (keeps [] h h3) as Hk4.
  { eapply keeps_fresh; [exact Hf|]. eapply keeps_trans; [exact Hk1|]. by eapply keeps_trans. }
  split; [done|]. split; [by apply Hk|]. rewrite bool_decide_eq_true. split; [|by intros (_ & _ & ?)].
  intros Ho. split_and!; [done|lia|done].
Qed.

(** A server with --tls-auth gets the first packet of a client, which is authentic,
    and one with a wrong HMAC. *)
Definition ex_options : tls_options :=
  TlsOptions true 2 true false 3600 2 (-1) 0 64 15
    (Opt (o_key_ctx_bi ex_ta) None None CO_PACKET_ID_LONG_FORM) (Frame 0 0 9 0 0 0 0 0)
    (KeyType 0 0 None None) 60 0 0 3600 (AuthOptions [] [] false None false false false None 0 None false None false).
Definition ex_data_frame : frame := Frame 1542 1542 42 4 0 0 0 0.
Definition ex_SSL_new (_ : bool) : option unit := Some tt.
Definition ex_hello : list byte :=
  control_wire (Some ex_hmac) (control_header 0 P_CONTROL_HARD_RESET_CLIENT_V2 ex_remote) (pin_bytes (Pin 1 1000) true)
    [0; 0; 0; 0; 0].
Definition ex_client : sockaddr_in := Addr 16777343 1194.
Definition ex_server : M tls_multi :=
  '(m, _) ← tls_multi_init_finalize ex_SSL_new (fun _ => 0) (tls_multi_init ex_options None) ex_data_frame [ex_sid; ex_sid];
  mret m.
Definition ex_receive (m : tls_multi) (packet : list byte) : M (ptr * (bool * tls_multi * buffer * data_options)) :=
  b ← alloc_buf (fun _ => 0) 64;
  p ← deref (b_data b);
  '(_, b) ← buf_write b packet;
  x ← tls_pre_decrypt ex_SSL_new 1000 (fun _ => 0) m ex_client b (DataOpt None None 0);
  mret (p, x).

Lemma ex_control_frame : tls_init_control_channel_frame_parameters ex_data_frame (opt_frame ex_options) =
  Ok (Frame 1542 147 47 0 0 0 0 0).
Proof. by vm_compute. Qed.

Lemma ex_opts_ok : opts_ok (set_opt_frame ex_options (Frame 1542 147 47 0 0 0 0 0)).
Proof.
  split.
  - cbn. lia.
  - by eexists.
  - cbn. lia.
  - intros now Hnow. split.
    + exists (KeyCtx None (Some ex_hmac)), (KeyCtx None (Some ex_hmac)).
      split_and!; try done; intros x [= <-]; apply ex_hmac_ok.
    + done.
    + done.
    + done.
  - split; [split|]; cbn; unfold FRAME_MAX, TUN_MTU_MIN; lia.
Qed.

Lemma ex_server_ok : wp ex_server (fun m h => multi_ok h clear_buf m /\ m_opt m = set_opt_frame ex_options (Frame 1542 147 47 0 0 0 0 0)) ∅.
Proof.
  unfold ex_server. refine (proj2 (wp_bind _ _ _ _) _). eapply wp_mono.
  - eapply (wp_tls_multi_init_finalize ex_SSL_new) with (b := clear_buf) (cf := Frame 1542 147 47 0 0 0 0 0).
    + by eexists. + exact ex_control_frame. + exact ex_opts_ok. + done. + reflexivity. + reflexivity.
    + apply owns_null; [done|]. split; [done|constructor].
  - intros [m d] h (Hok & Ho & _). by wp_steps.
Qed.

(** The server accepts the packet: the client's session id is that of TM_ACTIVE now. *)
Example ex_first_packet :
  match (m ← ex_server; ex_receive m ex_hello) ∅ with
  | Ok (_, (ret, m, b, _), _) =>
      ret = true /\ session_id_remote (key_primary (s_active m)) = ex_remote /\
      remote_addr (key_primary (s_active m)) = ex_client /\ n_sessions m = 1 /\ n_soft_errors m = 0
  | _ => False
  end.
Proof. vm_compute. by split_and!. Qed.

Lemma ex_hello_bytes : Forall is_byte ex_hello /\ Zlen ex_hello = 23.
Proof. split; [|by vm_compute]. vm_compute. repeat constructor; by vm_compute. Qed.

Lemma tls_pre_decrypt_robust_witness :
  wp (m ← ex_server; x ← ex_receive m ex_hello; mret (m, x))
     (fun r h => pre_decrypted 1000 (fst r) ex_client (fst (snd r)) ex_hello (snd (snd r)) h) ∅.
Proof.
  refine (proj2 (wp_bind _ _ _ _) _). eapply wp_mono; [exact ex_server_ok|]. intros m h [[Hwf Ho] Hopt].
  destruct ex_hello_bytes as [Hby Hlen]. revert Hby Hlen. generalize ex_hello. intros packet Hby Hlen.
  wp_steps. unfold ex_receive. wp_steps.
  eapply wp_mono; [apply (wp_alloc_buf_own (fun _ => 0) 64 h _ (owns_tail _ _ _ Ho)); unfold BUF_MAX; lia|].
  intros b h1 (Hc & Ho1 & p & Hr & Hp & Hz). rewrite (br_data _ _ _ _ Hr). wp_steps.
  pose proof (buf_rep_Zlen _ _ _ _ Hr) as Hl. change (Zlen []) with 0 in Hl.
  eapply wp_mono; [apply (wp_buf_write h1 p b [] packet Hr)|].
  { lia. }
  intros [ok b1] h2 (E & Hr2 & Hm). injection E as -> ->. wp_steps.
  eapply wp_mono; [apply (tls_pre_decrypt_robust ex_SSL_new)|].
  - by eexists.
  - split; [exact Hwf|]. eapply (owns_update h1 h2 b); eauto using block_of_rep. eapply modifies_keeps; [exact Hm|]. by left.
  - unfold SEQ_EXPIRED. lia.
  - exact Hr2.
  - done.
  - done.
  - rewrite Hopt. cbn [app]. rewrite Hlen. by vm_compute.
  - intros x h3 Hx. wp_steps. exact Hx.
Defined.

(** The server with a negotiated key. *)
Definition ex_ready (m : tls_multi (tls_obj := unit)) : tls_multi (tls_obj := unit) :=
  let ks := key_primary (s_active m) in
  set_ks m (TM_ACTIVE, KS_PRIMARY)
    (KeyState S_ACTIVE (key_id ks) (ssl ks) (established ks) (must_negotiate ks) (must_die ks) (initial_opcode ks)
       ex_remote ex_client (ks_packet_id ks) (key ks) (plaintext_read_buf ks) (plaintext_write_buf ks)
       (ack_write_buf ks) (send_reliable ks) (rec_reliable ks) (rec_ack ks) (n_bytes ks) (n_packets ks) true (key_src ks) (ssl_session ks)).

Lemma tls_data_roundtrip_witness : exists m : tls_multi (tls_obj := unit),
  multi_wf (ex_ready m) /\ encrypt_key (ex_ready m) = Some (TM_ACTIVE, KS_PRIMARY) /\
  data_key (ex_ready m) ex_client (key_id (key_primary (s_active m))) = Some (TM_ACTIVE, KS_PRIMARY) /\
  let '(m', b1, o1) := tls_pre_encrypt (ex_ready m) ex_b (DataOpt None None 0) in
  d_key o1 = Some (TM_ACTIVE, KS_PRIMARY) /\ b1 = ex_b /\
  wp ('(_, b2) ← tls_post_encrypt m' b1;
      tls_pre_decrypt ex_SSL_new 1000 (fun _ => 0) (ex_ready m) ex_client b2 (DataOpt None None 0))
     (fun x h' => let '(ret, m2', b', o2) := x in
        ret = false /\ d_key o2 = data_key (ex_ready m) ex_client (key_id (key_primary (s_active m))) /\
        match d_key o2 with
        | Some r2 => buf_rep h' (Ptr 1 0) b' [7; 7; 7; 7] /\
                     d_packet_id o2 = (if replay (m_opt (ex_ready m)) then Some r2 else None)
        | None => b_len b' = 0
        end) ex_blocks.
Proof.
  destruct (proj1 (wp_Ok _ _ _) ex_server_ok) as (m & h & _ & [Hwf _] & Hopt). exists m.
  assert (multi_wf (ex_ready m)) as Hwf'.
  { apply (set_primary_wf m TM_ACTIVE _ Hwf I); [|done]. destruct (sl_primary _ _ (mw_active _ Hwf)).
    split; cbn; try done. }
  split; [exact Hwf'|]. split; [reflexivity|]. split.
  { unfold data_key. cbn. unfold DECRYPT_KEY_ENABLED. cbn. rewrite Hopt, Z.eqb_refl. reflexivity. }
  apply (tls_data_roundtrip ex_SSL_new 1000 (fun _ => 0) (ex_ready m) (TM_ACTIVE, KS_PRIMARY) (ex_ready m) ex_client
    ex_blocks (Ptr 1 0) ex_b [7; 7; 7; 7]); [exact Hwf'|reflexivity|exact ex_b_rep|done|cbn; lia].
Defined.

Lemma tls_pre_decrypt_lite_exact_witness :
  wp (b ← alloc_buf (fun _ => 0) 64;
      p ← deref (b_data b);
      '(_, b) ← buf_write b ex_hello;
      ok ← tls_pre_decrypt_lite 1000 (fun _ => 0)
             (Standalone (Opt (o_key_ctx_bi ex_ta) None None CO_PACKET_ID_LONG_FORM) (Frame 1542 147 47 0 0 0 0 0)) b;
      mret (p, b, ok))
     (fun r h => r = (fst (fst r), snd (fst r), true) /\ buf_rep h (fst (fst r)) (snd (fst r)) ex_hello) ∅.
Proof.
  pose proof ex_hello_bytes as [Hby Hlen].
  assert (is_Some (open_control 1000 (lite_options (Standalone (Opt (o_key_ctx_bi ex_ta) None None CO_PACKET_ID_LONG_FORM)
            (Frame 1542 147 47 0 0 0 0 0))) ex_hello)) as Ho by (by vm_compute; eexists).
  assert (head ex_hello = Some (Z.shiftl P_CONTROL_HARD_RESET_CLIENT_V2 P_OPCODE_SHIFT)) as Hh by (by vm_compute).
  revert Hby Hlen Ho Hh. generalize ex_hello. intros packet Hby Hlen Ho Hh. wp_steps.
  eapply wp_mono; [apply wp_alloc_buf; unfold BUF_MAX; lia|]. intros b h1 (p & -> & Hr & _). wp_steps. cbn [b_data]. wp_steps.
  eapply wp_mono; [apply (wp_buf_write h1 p _ [] packet Hr); cbn; lia|].
  intros [ok b1] h2 (E & Hr2 & _). injection E as -> ->. wp_steps.
  eapply wp_mono; [apply (tls_pre_decrypt_lite_exact 1000 (fun _ => 0)); [|exact Hr2|exact Hby]|].
  - split; [|done|done|unfold SEQ_EXPIRED; lia]. exists (KeyCtx None (Some ex_hmac)), (KeyCtx None (Some ex_hmac)).
    split_and!; try done; intros x [= <-]; apply ex_hmac_ok.
  - intros acc h3 (_ & Hr3 & Hacc). wp_steps. split; [|exact Hr3]. f_equal. apply Hacc. split_and!; [done| |done].
    cbn [app]. rewrite Hlen. by vm_compute.
Defined.

Lemma soft_reset_keeps_traffic_witness : exists m : tls_multi (tls_obj := unit), exists h,
  data_key (ex_ready m) ex_client (key_id (key_primary (s_active m))) = Some (TM_ACTIVE, KS_PRIMARY) /\
  wp (key_state_soft_reset ex_SSL_new 1000 (fun _ => 0) (m_opt (ex_ready m)) TM_ACTIVE (s_active (ex_ready m))) (fun s h' =>
    let m' := set_session (ex_ready m) TM_ACTIVE s in
    data_key m' ex_client (key_id (key_primary (s_active m))) = Some (TM_ACTIVE, KS_LAME_DUCK) /\
    encrypt_key m' = Some (TM_ACTIVE, KS_LAME_DUCK) /\
    exists w', lame_duck_must_die 4600 s 60 = Ok (true, w')) h.
Proof.
  destruct (proj1 (wp_Ok _ _ _) ex_server_ok) as (m & h & _ & [Hwf Ho] & Hopt). exists m, h.
  assert (multi_wf (ex_ready m)) as Hwf'.
  { apply (set_primary_wf m TM_ACTIVE _ Hwf I); [|done]. destruct (sl_primary _ _ (mw_active _ Hwf)).
    split; cbn; try done. }
  assert (data_key (ex_ready m) ex_client (key_id (key_primary (s_active m))) = Some (TM_ACTIVE, KS_PRIMARY)) as Hd.
  { unfold data_key. cbn. unfold DECRYPT_KEY_ENABLED. cbn. rewrite Hopt, Z.eqb_refl. reflexivity. }
  split; [exact Hd|]. eapply wp_mono.
  - apply (soft_reset_keeps_traffic ex_SSL_new ltac:(by eexists) 1000 (fun _ => 0) (ex_ready m) h
      (clear_buf :: session_bufs (s_untrusted m) ++ session_bufs (s_lame m))); [exact Hwf'|unfold SEQ_EXPIRED; lia|].
    eapply owns_perm; [|exact Ho]. unfold multi_bufs. change (session_bufs (s_active (ex_ready m))) with (session_bufs (s_active m)).
    solve_Permutation.
  - intros s h' (Hk & He & _ & _ & _ & Hlame & _). cbv zeta. split; [by apply Hk|]. split; [by apply He|].
    destruct (Hlame 4600 60) as [w' E]. exists w'. rewrite E. change (m_opt (ex_ready m)) with (m_opt m). rewrite Hopt.
    reflexivity.
Defined.
