(* ===== verification/KeyMethod.v ===== *)
(** The data that the TLS channel carries (src/ssl.c): strings with a length, the messages of
    key methods 1 and 2, the authentication of the peer by user name, common name and
    certificate (verify_callback).

    Scripts, plugins and files are parameters, collected in the class [Env]; comparing the
    options strings of the two sides only leads to warnings and is left out. *)

From S2P Require Import Prelude Buffer Integer PacketId Mtu Crypto Reliable Pool ControlAuth Text Key Prf Own RelOwn Tls.

Definition KEY_METHOD_MASK : Z := 15.
Definition TLS_OPTIONS_LEN : Z := 512.
Definition USER_PASS_LEN : Z := 128.
Definition TLS_CN_LEN : Z := 64.
Definition CCD_DEFAULT : list byte := text "DEFAULT".
Definition X509_NAME_CHAR_CLASS : Z :=
  Z.lor (Z.lor (Z.lor (Z.lor (Z.lor (Z.lor (Z.lor CC_ALNUM CC_UNDERBAR) CC_DASH) CC_DOT) CC_AT) CC_COLON) CC_SLASH) CC_EQUAL.
Definition COMMON_NAME_CHAR_CLASS : Z := Z.lor (Z.lor (Z.lor (Z.lor CC_ALNUM CC_UNDERBAR) CC_DASH) CC_DOT) CC_AT.

(** What OpenSSL tells verify_callback of a certificate: its subject on one line, its depth,
    the nsCertType flags, its serial number and its issuer. *)
Record x509 := X509 { x_subject : list byte; x_depth : Z; x_nscert : Z; x_serial : Z; x_issuer : list byte }.

Class Env := {
  user_pass_script : list byte -> list byte -> bool; (* username, password: exit status 0 *)
  user_pass_plugin : list byte -> list byte -> bool;
  tls_verify_script : list byte -> Z; (* the command line: what system () returns *)
  tls_verify_plugin_call : list byte -> bool; (* its argument *)
  crl : option (list byte * list Z); (* the issuer and revoked serial numbers in crl_file *)
  test_file : list byte -> bool
}.

(** ** Strings with a length *)

Definition write_string (buf : buffer) (str : list byte) (maxlen : Z) : M (bool * buffer) :=
  let len := i32 (Zlen str + 1) in
  if (len <? 1) || ((maxlen >=? 0) && (len >? maxlen)) then mret (false, buf) else
  '(ok, buf) ← buf_write_u16 buf len;
  if negb ok then mret (false, buf) else
  buf_write buf (str ++ [0]).

(** The C string that is left in the array. *)
Definition read_string (buf : buffer) (capacity : Z) : M (option (list byte) * buffer) :=
  '(len, buf) ← buf_read_u16 buf;
  if (len <? 1) || (len >? capacity) then mret (None, buf) else
  '(str, buf) ← buf_read buf len;
  match str with
  | Some str => mret (Some (cstring (take (Z.to_nat (len - 1)) str)), buf)
  | None => mret (None, buf)
  end.

(** ** The certificate *)

Fixpoint extract_field_loop (fuel : nat) (x509 field_name : list byte) (size : Z) : result (list byte) :=
  match fuel with
  | O => Fault
  | S fuel =>
      r ← buf_parse x509 47 256;
      let '(ok, field, rest) := (r : bool * list byte * list byte) in
      if ok then
        n ← buf_parse field 61 64;
        let '(_, name, value) := (n : bool * list byte * list byte) in
        v ← buf_parse value 61 256;
        let '(_, value, _) := (v : bool * list byte * list byte) in
        if bool_decide (name = field_name) then Ok (cstring (strncpynt_bytes value size))
        else extract_field_loop fuel rest field_name size
      else Ok []
  end.

(** Each round of buf_parse takes a byte of the string, or ends it. *)
Definition extract_x509_field (x509 field_name : list byte) (size : Z) : result (list byte) :=
  _ ← assert_ (size >? 0);
  extract_field_loop (2 + length x509) x509 field_name size.

Section KeyMethod.
Context {tls_obj : Type} `{OpenSSL} `{Env}.
#[local] Abbreviation ks_t := (key_state (tls_obj := tls_obj)).
#[local] Abbreviation session_t := (tls_session (tls_obj := tls_obj)).
#[local] Abbreviation multi_t := (tls_multi (tls_obj := tls_obj)).

(** ** Assignments to members of a key state and of a session *)

Definition ks_set_state (ks : ks_t) (v : Z) : ks_t :=
  KeyState v (key_id ks) (ssl ks) (established ks) (must_negotiate ks) (must_die ks) (initial_opcode ks)
    (session_id_remote ks) (remote_addr ks) (ks_packet_id ks) (key ks) (plaintext_read_buf ks) (plaintext_write_buf ks)
    (ack_write_buf ks) (send_reliable ks) (rec_reliable ks) (rec_ack ks) (n_bytes ks) (n_packets ks) (authenticated ks)
    (key_src ks) (ssl_session ks).
Definition ks_set_ssl (ks : ks_t) (v : tls_obj) : ks_t :=
  KeyState (state ks) (key_id ks) (Some v) (established ks) (must_negotiate ks) (must_die ks) (initial_opcode ks)
    (session_id_remote ks) (remote_addr ks) (ks_packet_id ks) (key ks) (plaintext_read_buf ks) (plaintext_write_buf ks)
    (ack_write_buf ks) (send_reliable ks) (rec_reliable ks) (rec_ack ks) (n_bytes ks) (n_packets ks) (authenticated ks)
    (key_src ks) (ssl_session ks).
Definition ks_set_times (ks : ks_t) (est neg : Z) : ks_t :=
  KeyState (state ks) (key_id ks) (ssl ks) est neg (must_die ks) (initial_opcode ks)
    (session_id_remote ks) (remote_addr ks) (ks_packet_id ks) (key ks) (plaintext_read_buf ks) (plaintext_write_buf ks)
    (ack_write_buf ks) (send_reliable ks) (rec_reliable ks) (rec_ack ks) (n_bytes ks) (n_packets ks) (authenticated ks)
    (key_src ks) (ssl_session ks).
Definition ks_set_key (ks : ks_t) (v : key_ctx_bi) : ks_t :=
  KeyState (state ks) (key_id ks) (ssl ks) (established ks) (must_negotiate ks) (must_die ks) (initial_opcode ks)
    (session_id_remote ks) (remote_addr ks) (ks_packet_id ks) v (plaintext_read_buf ks) (plaintext_write_buf ks)
    (ack_write_buf ks) (send_reliable ks) (rec_reliable ks) (rec_ack ks) (n_bytes ks) (n_packets ks) (authenticated ks)
    (key_src ks) (ssl_session ks).
Definition ks_set_key_src (ks : ks_t) (v : key_source2) : ks_t :=
  KeyState (state ks) (key_id ks) (ssl ks) (established ks) (must_negotiate ks) (must_die ks) (initial_opcode ks)
    (session_id_remote ks) (remote_addr ks) (ks_packet_id ks) (key ks) (plaintext_read_buf ks) (plaintext_write_buf ks)
    (ack_write_buf ks) (send_reliable ks) (rec_reliable ks) (rec_ack ks) (n_bytes ks) (n_packets ks) (authenticated ks)
    v (ssl_session ks).
Definition ks_set_read_buf (ks : ks_t) (v : buffer) : ks_t :=
  KeyState (state ks) (key_id ks) (ssl ks) (established ks) (must_negotiate ks) (must_die ks) (initial_opcode ks)
    (session_id_remote ks) (remote_addr ks) (ks_packet_id ks) (key ks) v (plaintext_write_buf ks)
    (ack_write_buf ks) (send_reliable ks) (rec_reliable ks) (rec_ack ks) (n_bytes ks) (n_packets ks) (authenticated ks)
    (key_src ks) (ssl_session ks).
Definition ks_set_write_buf (ks : ks_t) (v : buffer) : ks_t :=
  KeyState (state ks) (key_id ks) (ssl ks) (established ks) (must_negotiate ks) (must_die ks) (initial_opcode ks)
    (session_id_remote ks) (remote_addr ks) (ks_packet_id ks) (key ks) (plaintext_read_buf ks) v
    (ack_write_buf ks) (send_reliable ks) (rec_reliable ks) (rec_ack ks) (n_bytes ks) (n_packets ks) (authenticated ks)
    (key_src ks) (ssl_session ks).
Definition ks_set_ack_buf (ks : ks_t) (v : buffer) : ks_t :=
  KeyState (state ks) (key_id ks) (ssl ks) (established ks) (must_negotiate ks) (must_die ks) (initial_opcode ks)
    (session_id_remote ks) (remote_addr ks) (ks_packet_id ks) (key ks) (plaintext_read_buf ks) (plaintext_write_buf ks)
    v (send_reliable ks) (rec_reliable ks) (rec_ack ks) (n_bytes ks) (n_packets ks) (authenticated ks)
    (key_src ks) (ssl_session ks).
Definition ks_set_rec_reliable (ks : ks_t) (v : reliable) : ks_t :=
  KeyState (state ks) (key_id ks) (ssl ks) (established ks) (must_negotiate ks) (must_die ks) (initial_opcode ks)
    (session_id_remote ks) (remote_addr ks) (ks_packet_id ks) (key ks) (plaintext_read_buf ks) (plaintext_write_buf ks)
    (ack_write_buf ks) (send_reliable ks) (Some v) (rec_ack ks) (n_bytes ks) (n_packets ks) (authenticated ks)
    (key_src ks) (ssl_session ks).
Definition set_cert (s : session_t) (cn : option (list byte)) (ok : bool) : session_t :=
  Session (burst s) (tls_auth s) (s_initial_opcode s) (s_session_id s) (s_key_id s) cn ok (untrusted_sockaddr s)
    (key_primary s) (key_lame s).
Definition set_common_name (s : session_t) (cn : list byte) : session_t := set_cert s (Some cn) (verified s).

(** ** The status that system () returns (system_ok, system_executed of src/misc.c) *)

(** The macros of the C library: the low seven bits tell the signal that ended the command, the
    next eight bits its exit status. *)
Definition WIFEXITED (stat : Z) : bool := Z.land stat 127 =? 0.
Definition WEXITSTATUS (stat : Z) : Z := Z.land (Z.shiftr stat 8) 255.
Definition system_ok (stat : Z) : bool := negb (stat =? -1) && WIFEXITED stat && (WEXITSTATUS stat =? 0).
Definition system_executed (stat : Z) : bool := negb (stat =? -1) && negb (WEXITSTATUS stat =? 127).

(** ** verify_callback: the result and the session.
    The commands are built in arrays of 256 bytes, which cut them off. *)

Definition check_crl (cert : x509) : result bool :=
  match crl with
  | None => AssertFail
  | Some (issuer, revoked) =>
      if negb (bool_decide (issuer = x_issuer cert)) then Ok true
      else Ok (negb (existsb (fun n => n =? x_serial cert) revoked))
  end.

(** The script of --tls-verify. A message with level M_ERR, which ends the process, is given when it cannot be run. *)
Definition run_verify_command (command : list byte) : result bool :=
  let ret := tls_verify_script command in
  if system_ok ret then Ok true
  else if negb (system_executed ret) then AssertFail
  else Ok false.

Definition verify_callback (opt : auth_options) (s : session_t) (preverify_ok : bool) (cert : x509) : result (bool * session_t) :=
  let s := set_cert s (common_name s) false in
  let subject := snd (string_mod (take 255 (x_subject cert)) X509_NAME_CHAR_CLASS 0 95) in
  cn ← extract_x509_field subject (text "CN") TLS_CN_LEN;
  let cn := snd (string_mod cn COMMON_NAME_CHAR_CLASS 0 95) in
  if negb preverify_ok then Ok (false, s) else
  let s := if x_depth cert =? 0 then set_common_name s cn else s in
  if negb (ns_cert_type opt =? 0) && (x_depth cert =? 0) && negb (flag (x_nscert cert) (ns_cert_type opt)) then Ok (false, s) else
  if match verify_x509name opt with
     | Some name => negb (bool_decide (name = [])) && (x_depth cert =? 0) &&
         negb (bool_decide (name = subject) || bool_decide (take (length name) cn = name))
     | None => false
     end then Ok (false, s) else
  let command := decimal (x_depth cert) ++ text " " ++ subject in
  if tls_verify_plugin opt && negb (tls_verify_plugin_call (take 255 command)) then Ok (false, s) else
  script_ok ← (match verify_command opt with
               | Some c => run_verify_command (take 255 (c ++ text " " ++ command))
               | None => Ok true
               end);
  if negb script_ok then Ok (false, s) else
  ok ← (if crl_file opt then check_crl cert else Ok true);
  if negb ok then Ok (false, s) else
  Ok (true, set_cert s (common_name s) true).

(** ** Key method 1 *)

Definition primary (m : multi_t) (i : tm_index) : ks_t := key_primary (session m i).
Definition set_primary (m : multi_t) (i : tm_index) (ks : ks_t) : multi_t := set_ks m (i, KS_PRIMARY) ks.

Definition key_method_1_write (m : multi_t) (i : tm_index) (rand : list byte) : M (bool * multi_t * list byte) :=
  let opt := m_opt m in
  let ks := primary m i in
  _ ← ASSERT (key_method opt =? 1);
  let '(ok, buf) := buf_init (plaintext_write_buf ks) 0 in
  _ ← ASSERT ok;
  '(key, rand) ← lift (generate_key_random (Some (opt_key_type opt)) rand);
  ok ← lift (check_key key (opt_key_type opt));
  if negb ok then mret (false, set_primary m i (ks_set_write_buf ks buf), rand) else
  '(ok, buf) ← write_key key (opt_key_type opt) buf;
  if negb ok then mret (false, set_primary m i (ks_set_write_buf ks buf), rand) else
  e ← lift (init_key_ctx key (opt_key_type opt) true);
  let ks := ks_set_key ks (KeyCtxBi e (k_decrypt (Tls.key ks))) in
  '(ok, buf) ← buf_write buf (local_options (opt_auth opt) ++ [0]);
  mret (ok, set_primary m i (ks_set_write_buf ks buf), rand).

Definition key_method_1_read (m : multi_t) (i : tm_index) : M (bool * multi_t) :=
  let opt := m_opt m in
  let ks := primary m i in
  let error (buf : buffer) : M (bool * multi_t) :=
    buf ← buf_clear buf;
    mret (false, set_primary m i (ks_set_read_buf ks buf)) in
  let buf := plaintext_read_buf ks in
  _ ← ASSERT (key_method opt =? 1);
  if negb (verified (session m i)) then error buf else
  '(status, key, buf) ← read_key (opt_key_type opt) buf;
  if negb (status =? 1) then error buf else
  ok ← lift (check_key key (opt_key_type opt));
  if negb ok then error buf else
  if b_len buf <? 1 then error buf else
  buf ← buf_clear buf;
  d ← lift (init_key_ctx key (opt_key_type opt) false);
  let ks := ks_set_key ks (KeyCtxBi (k_encrypt (Tls.key ks)) d) in
  mret (true, set_primary m i (ks_set_authenticated (ks_set_read_buf ks buf) true)).

(** ** Key method 2 *)

(** One write after the other, until one fails. *)
Definition and_then (r : M (bool * buffer)) (k : buffer -> M (bool * buffer)) : M (bool * buffer) :=
  '(ok, buf) ← r;
  if negb ok then mret (false, buf) else k buf.

(** The user's name and password are asked from them: opt_auth holds them. *)
Definition write_user_pass (opt : auth_options) (buf : buffer) : M (bool * buffer) :=
  match auth_user_pass opt with
  | Some (username, password) => and_then (write_string buf username (-1)) (fun buf => write_string buf password (-1))
  | None => mret (true, buf)
  end.

(** The message of key method 2: zeros, the method, the key source, the strings. *)
Definition write_message (opt : tls_options) (key_src : key_source2) (buf : buffer) (rand : list byte)
  : M (bool * key_source2 * buffer * list byte) :=
  '(ok, buf) ← and_then (buf_write_u32 buf 0) (fun buf => buf_write_u8 buf (Z.land (key_method opt) KEY_METHOD_MASK));
  if negb ok then mret (false, key_src, buf, rand) else
  '(ok, src, buf, rand) ← key_source2_randomize_write key_src buf (server opt) rand;
  if negb ok then mret (false, src, buf, rand) else
  '(ok, buf) ← and_then (write_string buf (local_options (opt_auth opt)) TLS_OPTIONS_LEN) (write_user_pass (opt_auth opt));
  mret (ok, src, buf, rand).

Definition key_method_2_write (fill : Z -> Z) (m : multi_t) (i : tm_index) (rand : list byte) : M (bool * multi_t * list byte) :=
  let opt := m_opt m in
  let ks := primary m i in
  _ ← ASSERT (key_method opt =? 2);
  let '(ok, buf) := buf_init (plaintext_write_buf ks) 0 in
  _ ← ASSERT ok;
  let finish (ret : bool) (ks : ks_t) (buf : buffer) (src : key_source2) (rand : list byte) : M (bool * multi_t * list byte) :=
    mret (ret, set_primary m i (ks_set_key_src (ks_set_write_buf ks buf) src), rand) in
  '(ok, src, buf, rand) ← write_message opt (key_src ks) buf rand;
  if negb ok then finish false ks buf clear_source2 rand else
  if server opt then
    if authenticated ks then
      key ← generate_key_expansion fill (opt_key_type opt) src (session_id_remote ks) (s_session_id (session m i)) true;
      match key with
      | None => finish false ks buf clear_source2 rand
      | Some key => finish true (ks_set_key ks key) buf clear_source2 rand
      end
    else finish true ks buf clear_source2 rand
  else finish true ks buf src rand.

(** The script's and the plugin's answer: a blank username is never right. *)
Definition verify_user_pass_script (username password : list byte) : bool :=
  negb (Zlen username =? 0) && user_pass_script username password.
Definition verify_user_pass_plugin (username raw_username password : list byte) : bool :=
  negb (Zlen username =? 0) && user_pass_plugin raw_username password.

(** The user's name, if it and the password are accepted. *)
Definition verify_user_pass (opt : auth_options) (username password : list byte) : option (list byte) :=
  let raw_username := snd (string_mod username CC_PRINT CC_CRLF 95) in
  let username := snd (string_mod username COMMON_NAME_CHAR_CLASS 0 95) in
  let password := snd (string_mod password CC_PRINT CC_CRLF 95) in
  let s1 := if auth_user_pass_verify_plugin opt then verify_user_pass_plugin username raw_username password else true in
  let s2 := if auth_user_pass_verify_script opt then verify_user_pass_script username password else true in
  if s1 && s2 then Some username else None.

(** How the peer is authenticated: None is the jump to error; otherwise the result and the
    session, whose common name may be set. *)
Definition authenticate_peer (opt : auth_options) (s : session_t) (buf : buffer) : M (option (bool * session_t) * buffer) :=
  if auth_user_pass_verify_script opt || auth_user_pass_verify_plugin opt then
    '(username, buf) ← read_string buf USER_PASS_LEN;
    match username with
    | None => mret (None, buf)
    | Some username =>
        '(password, buf) ← read_string buf USER_PASS_LEN;
        match password with
        | None => mret (None, buf)
        | Some password =>
            match verify_user_pass opt username password with
            | Some username => mret (Some (true, if username_as_common_name opt then set_common_name s username else s), buf)
            | None => mret (Some (false, s), buf)
            end
        end
    end
  else if negb (verified s) then mret (None, buf)
  else mret (Some (true, s), buf).

(** The common name may not change once it has been locked. *)
Definition enforce_locked_cn (m : multi_t) (i : tm_index) : multi_t :=
  match locked_cn m, common_name (session m i) with
  | Some locked, Some cn =>
      if authenticated (primary m i) && negb (bool_decide (cn = locked))
      then tls_deauthenticate (set_session m i (set_common_name (session m i) locked))
      else m
  | _, _ => m
  end.

Definition enforce_ccd (fill : Z -> Z) (dirsep : byte) (m : multi_t) (i : tm_index) : M multi_t :=
  match client_config_dir_exclusive (opt_auth (m_opt m)) with
  | Some dir =>
      if authenticated (primary m i) then
        let cn := common_name (session m i) in
        path ← gen_path fill dirsep (Some dir) cn;
        let bad := match cn, path with
                   | Some cn, Some path => bool_decide (cn = CCD_DEFAULT) || negb (test_file path)
                   | _, _ => true
                   end in
        mret (if bad then set_primary m i (ks_set_authenticated (primary m i) false) else m)
      else mret m
  | None => mret m
  end.

(** ks->authenticated is [ok] unless the common name forbids it. *)
Definition authorize (fill : Z -> Z) (dirsep : byte) (m : multi_t) (i : tm_index) (ok : bool) (s : session_t) : M multi_t :=
  let m := set_session m i s in
  let m := set_primary m i (ks_set_authenticated (primary m i) ok) in
  let m := match common_name (session m i) with
           | Some _ => m
           | None => set_session m i (set_common_name (session m i) [])
           end in
  let m := enforce_locked_cn m i in
  enforce_ccd fill dirsep m i.

(** The comparison of the options strings only warns. *)
Definition key_method_2_read (fill : Z -> Z) (dirsep : byte) (m : multi_t) (i : tm_index) : M (bool * multi_t) :=
  let opt := m_opt m in
  let ks := primary m i in
  let error (m : multi_t) (buf : buffer) : M (bool * multi_t) :=
    buf ← buf_clear buf;
    mret (false, set_primary m i (ks_set_read_buf (ks_set_key_src (primary m i) clear_source2) buf)) in
  _ ← ASSERT (key_method opt =? 2);
  let '(ok, buf) := buf_advance (plaintext_read_buf ks) 4 in
  _ ← ASSERT ok;
  '(key_method_flags, buf) ← buf_read_u8 buf;
  if negb (Z.land key_method_flags KEY_METHOD_MASK =? 2) then error m buf else
  '(ok, src, buf) ← key_source2_read (key_src ks) buf (server opt);
  let m := set_primary m i (ks_set_key_src ks src) in
  if negb ok then error m buf else
  '(options, buf) ← read_string buf TLS_OPTIONS_LEN;
  match options with
  | None => error m buf
  | Some _ =>
      let m := set_primary m i (ks_set_authenticated (primary m i) false) in
      '(auth, buf) ← authenticate_peer (opt_auth opt) (session m i) buf;
      match auth with
      | None => error m buf
      | Some (ok, s) =>
          m ← authorize fill dirsep m i ok s;
          buf ← buf_clear buf;
          let m := set_primary m i (ks_set_read_buf (primary m i) buf) in
          if negb (server opt) then
            key ← generate_key_expansion fill (opt_key_type opt) (key_src (primary m i))
                    (s_session_id (session m i)) (session_id_remote (primary m i)) false;
            match key with
            | None => error m buf
            | Some key => mret (true, set_primary m i (ks_set_key_src (ks_set_key (primary m i) key) clear_source2))
            end
          else mret (true, m)
      end
  end.
End KeyMethod.

(** ** verify_callback *)

Lemma buf_parse_loop_rest c buf delim size line : Zlen line <= size ->
  (length (snd (buf_parse_loop (c :: buf) delim line size)) <= length buf)%nat.
Proof.
  revert c line. induction buf as [|d buf IH]; intros c line Hl; cbn [buf_parse_loop];
    set (c' := if _ || _ then 0 else c); (destruct (Zlen line >=? size) eqn:E; [done|]); (destruct (c' =? 0); [done|]).
  - by destruct (Zlen (line ++ [c']) >=? size).
  - etransitivity; [apply IH; rewrite Zlen_app; change (Zlen [c']) with 1; lia|]. cbn. lia.
Qed.

Lemma buf_parse_rest c buf delim size : 0 < size -> exists ok line rest,
  buf_parse (c :: buf) delim size = Ok (ok, line, rest) /\ (length rest <= length buf)%nat.
Proof.
  intros Hs. unfold buf_parse. rewrite Z.gtb_ltb, (proj2 (Z.ltb_lt 0 size)) by lia. cbn [assert_ mbind result_bind].
  pose proof (buf_parse_loop_rest c buf delim size []) as Hr. rewrite Zlen_nil in Hr.
  destruct (buf_parse_loop _ _ _ _) as [[eol line] rest]. do 3 eexists. split; [done|]. apply Hr. lia.
Qed.

Lemma extract_field_total fuel : forall x509 field_name size, (length x509 < fuel)%nat -> 0 < size ->
  exists v, extract_field_loop fuel x509 field_name size = Ok v /\ Zlen v < size.
Proof.
  induction fuel as [|fuel IH]; intros x509 field_name size Hl Hs; [lia|]. cbn [extract_field_loop].
  destruct x509 as [|c x509]; [by exists []|].
  destruct (buf_parse_rest c x509 47 256) as (ok & field & rest & -> & Hr); [done|]. cbn [mbind result_bind].
  destruct ok; [|by exists []]. destruct (buf_parse_ok field 61 64) as [[[ok1 name] value] ->]; [done|]. cbn [mbind result_bind].
  destruct (buf_parse_ok value 61 256) as [[[ok2 v] rest2] ->]; [done|]. cbn [mbind result_bind].
  case_bool_decide; [|apply IH; cbn in Hl; lia]. eexists. split; [done|].
  assert (forall l n, Zlen (cstring (take n l ++ [0])) <= Z.of_nat n) as Hc.
  { intros l. induction l as [|d l IHl]; intros [|n]; cbn [take app cstring]; try (change (Zlen _) with 0; lia).
    destruct (d =? 0); [rewrite Zlen_nil; lia|]. rewrite Zlen_cons. specialize (IHl n). lia. }
  unfold strncpynt_bytes. replace (size >? 0) with true by lia. pose proof (Hc (v ++ replicate (Z.to_nat size) 0) (Z.to_nat (size - 1))). lia.
Qed.

Lemma extract_x509_field_total x509 field_name size : 0 < size ->
  exists v, extract_x509_field x509 field_name size = Ok v /\ Zlen v < size.
Proof.
  intros Hs. unfold extract_x509_field. rewrite Z.gtb_ltb, (proj2 (Z.ltb_lt 0 size)) by lia. cbn [assert_ mbind result_bind].
  apply extract_field_total; [lia|done].
Qed.

(** The names verify_callback works with, and what it demands. *)
Definition safe_subject (cert : x509) : list byte := snd (string_mod (take 255 (x_subject cert)) X509_NAME_CHAR_CLASS 0 95).
Definition verify_line (c : list byte) (cert : x509) : list byte :=
  take 255 (c ++ text " " ++ decimal (x_depth cert) ++ text " " ++ safe_subject cert).
Record cert_accepted `{Env} (opt : auth_options) (cert : x509) (cn : list byte) : Prop := {
  ca_type : x_depth cert = 0 -> ns_cert_type opt <> 0 -> flag (x_nscert cert) (ns_cert_type opt) = true;
  ca_name : forall name, x_depth cert = 0 -> verify_x509name opt = Some name -> name <> [] ->
    name = safe_subject cert \/ name `prefix_of` cn;
  ca_plugin : tls_verify_plugin opt = true ->
    tls_verify_plugin_call (take 255 (decimal (x_depth cert) ++ text " " ++ safe_subject cert)) = true;
  ca_script : forall c, verify_command opt = Some c -> system_ok (tls_verify_script (verify_line c cert)) = true;
  ca_crl : forall issuer revoked, crl_file opt = true -> crl = Some (issuer, revoked) -> issuer = x_issuer cert ->
    x_serial cert ∉ revoked
}.
(** What ends the process: a script that cannot be run, or a CRL that cannot be read. *)
Definition cert_fatal `{Env} (opt : auth_options) (cert : x509) : Prop :=
  (exists c, verify_command opt = Some c /\ system_executed (tls_verify_script (verify_line c cert)) = false) \/
  (crl_file opt = true /\ crl = None).

Lemma take_prefix {A} `{EqDecision A} (a b : list A) : take (length a) b = a -> a `prefix_of` b.
Proof. intros E. exists (drop (length a) b). rewrite <- E at 1. by rewrite take_drop. Qed.

Lemma check_crl_spec `{Env} cert b : check_crl cert = Ok b -> crl <> None /\
  (b = true <-> forall issuer revoked, crl = Some (issuer, revoked) -> issuer = x_issuer cert -> x_serial cert ∉ revoked).
Proof.
  unfold check_crl. destruct crl as [[issuer revoked]|]; [|done]. case_bool_decide as E; cbn [negb]; intros [= <-]; (split; [done|]).
  - rewrite negb_true_iff, <- not_true_iff_false, existsb_exists. split.
    + intros Hb ? ? [= <- <-] _ Hin. apply Hb. exists (x_serial cert). split; [by apply list_elem_of_In|apply Z.eqb_refl].
    + intros Hb (n & Hin & Hn). apply Z.eqb_eq in Hn as ->. apply (Hb issuer revoked); [done..|by apply list_elem_of_In].
  - split; [|done]. by intros _ ? ? [= <- <-].
Qed.

Lemma run_verify_command_spec `{Env} command : system_ok (tls_verify_script command) = true /\ run_verify_command command = Ok true \/
  system_ok (tls_verify_script command) = false /\
    run_verify_command command = (if system_executed (tls_verify_script command) then Ok false else AssertFail).
Proof. unfold run_verify_command. destruct (system_ok _); [by left|right]. by destruct (system_executed _). Qed.

(** The tests of the type and of the name. *)
Lemma type_test n d f : negb (n =? 0) && (d =? 0) && negb f = false <-> (d = 0 -> n <> 0 -> f = true).
Proof.
  destruct (Z.eqb_spec n 0), (Z.eqb_spec d 0), f; cbn; split; try done; intros Hf; exfalso.
  all: by specialize (Hf ltac:(done) ltac:(done)).
Qed.

Lemma name_test (name subject cn : list byte) d :
  negb (bool_decide (name = [])) && (d =? 0) && negb (bool_decide (name = subject) || bool_decide (take (length name) cn = name)) = false <->
  (d = 0 -> name <> [] -> name = subject \/ name `prefix_of` cn).
Proof.
  rewrite !andb_false_iff, !negb_false_iff, orb_true_iff, !bool_decide_eq_true, Z.eqb_neq.
  assert (take (length name) cn = name <-> name `prefix_of` cn) as ->.
  { split; [apply take_prefix|]. intros [k ->]. by rewrite take_app_length. }
  destruct (decide (name = [])), (decide (d = 0)); tauto.
Qed.

(** C24: verify_callback accepts a certificate exactly if OpenSSL did, it has the wanted type and
    name, every plugin and script accepts it, and it is not revoked by the list of its issuer; and
    it marks the session as verified exactly then. The common name that is kept has no character
    outside its class and fits its array. The process ends only if a script that is asked for
    cannot be run or the revocation list cannot be read, and only for a certificate that OpenSSL accepted. *)
Theorem verify_callback_sound {tls_obj : Type} `{Env} opt (s : tls_session (tls_obj := tls_obj)) preverify cert :
  match verify_callback opt s preverify cert with
  | Ok (ok, s') => exists cn, verified s' = ok /\
      string_class cn COMMON_NAME_CHAR_CLASS 0 = true /\ Zlen cn < TLS_CN_LEN /\
      common_name s' = (if preverify && (x_depth cert =? 0) then Some cn else common_name s) /\
      (ok = true <-> preverify = true /\ cert_accepted opt cert cn)
  | AssertFail => preverify = true /\ cert_fatal opt cert
  | Fault => False
  end.
Proof.
  unfold verify_callback. fold (safe_subject cert).
  destruct (extract_x509_field_total (safe_subject cert) (text "CN") TLS_CN_LEN) as (v & -> & Hv); [done|]. cbn [mbind result_bind].
  pose proof (string_mod_spec v COMMON_NAME_CHAR_CLASS 0 95 (or_intror eq_refl)) as Hm.
  destruct (string_mod v COMMON_NAME_CHAR_CLASS 0 95) as [okn cn]. cbn [snd]. destruct Hm as (Hc & Hcn & _).
  assert (Zlen cn < TLS_CN_LEN) as Hl by (subst cn; change (95 =? 0) with false; unfold Zlen in *; by rewrite length_fmap).
  clear Hcn. set (s0 := set_cert s (common_name s) false).
  set (s1 := if x_depth cert =? 0 then set_common_name s0 cn else s0).
  assert (verified s1 = false /\ common_name s1 = (if x_depth cert =? 0 then Some cn else common_name s)) as [V1 C1].
  { unfold s1. by destruct (x_depth cert =? 0). }
  assert (forall (s' : tls_session (tls_obj := tls_obj)) ok, verified s' = ok -> common_name s' = common_name s1 -> (ok = true <-> cert_accepted opt cert cn) ->
    exists cn', verified s' = ok /\ string_class cn' COMMON_NAME_CHAR_CLASS 0 = true /\ Zlen cn' < TLS_CN_LEN /\
    common_name s' = (if x_depth cert =? 0 then Some cn' else common_name s) /\ (ok = true <-> true = true /\ cert_accepted opt cert cn')) as Hres.
  { intros s' ok Vs Cs Hok. exists cn. rewrite Cs, C1. split_and!; try done. rewrite Hok. by split; [|intros [_ ?]]. }
  assert (~ cert_accepted opt cert cn -> false = true <-> cert_accepted opt cert cn) as Hno by done.
  destruct preverify; cbn [negb andb]; [|exists cn; split_and!; try done; by split; [|intros [? _]]].
  destruct (_ && _ && _) eqn:Ens.
  { apply Hres, Hno; [done..|]. intros []. by rewrite (proj2 (type_test _ _ _)) in Ens. }
  rewrite type_test in Ens. destruct (match verify_x509name opt with Some _ => _ | None => _ end) eqn:Enm.
  { apply Hres, Hno; [done..|]. intros []. destruct (verify_x509name opt); [|done]. rewrite (proj2 (name_test _ _ _ _)) in Enm; [done|]. intros. by apply ca_name0. }
  destruct (tls_verify_plugin opt && _) eqn:Epl.
  { apply Hres, Hno; [done..|]. intros []. bool_simp. by rewrite ca_plugin0 in *. }
  assert (forall c, verify_command opt = Some c -> run_verify_command (take 255 (c ++ text " " ++ decimal (x_depth cert) ++ text " " ++ safe_subject cert)) =
    run_verify_command (verify_line c cert)) as Hline by done.
  assert (exists r, (match verify_command opt with Some c => run_verify_command (take 255 (c ++ text " " ++ decimal (x_depth cert) ++ text " " ++ safe_subject cert))
    | None => Ok true end) = r /\ match r with
    | Ok b => b = true <-> forall c, verify_command opt = Some c -> system_ok (tls_verify_script (verify_line c cert)) = true
    | AssertFail => cert_fatal opt cert | Fault => False end) as (r & -> & Hr).
  { eexists. split; [done|]. destruct (verify_command opt) as [c|] eqn:Ec; [|by split]. fold (verify_line c cert).
    destruct (run_verify_command_spec (verify_line c cert)) as [[E ->]|[E ->]].
    - by split; [intros _ ? [= <-]|].
    - destruct (system_executed _) eqn:Ex; [|left; by exists c]. split; [done|]. intros Hx. by rewrite (Hx c) in E. }
  destruct r as [script_ok| |]; cbn [mbind result_bind]; [|done..]. destruct script_ok; cbn [negb].
  2:{ apply Hres, Hno; [done..|]. intros []. by pose proof (proj2 Hr ca_script0). }
  destruct (if crl_file opt then check_crl cert else Ok true) as [b| |] eqn:Eb; cbn [mbind result_bind].
  - assert (b = true <-> forall issuer revoked, crl_file opt = true -> crl = Some (issuer, revoked) -> issuer = x_issuer cert -> x_serial cert ∉ revoked) as Hb.
    { destruct (crl_file opt); [|injection Eb as <-; done]. apply check_crl_spec in Eb as [_ Hb]. rewrite Hb. split; eauto. }
    destruct b; cbn [negb]; (apply Hres; [done..|]).
    + split; [intros _|done]. split; [done| |by destruct (tls_verify_plugin opt), (tls_verify_plugin_call _)|by apply (proj1 Hr)|by apply (proj1 Hb)].
      intros name D E. rewrite E in Enm. rewrite name_test in Enm. auto.
    + apply Hno. intros []. by pose proof (proj2 Hb ca_crl0).
  - split; [done|]. right. destruct (crl_file opt); [|done]. split; [done|]. unfold check_crl in Eb. destruct crl as [[]|]; [|done]. by case_bool_decide.
  - destruct (crl_file opt); [|done]. unfold check_crl in Eb. destruct crl as [[]|]; [|done]. by case_bool_decide.
Qed.

(** ** The authentication of the peer *)

Section Authentication.
Context {tls_obj : Type} `{OpenSSL} `{Env}.
#[local] Abbreviation ks_t := (key_state (tls_obj := tls_obj)).
#[local] Abbreviation session_t := (tls_session (tls_obj := tls_obj)).
#[local] Abbreviation multi_t := (tls_multi (tls_obj := tls_obj)).
Implicit Types (ks : ks_t) (s : session_t) (m : multi_t).

Lemma session_set_eq m i s : session (set_session m i s) i = s.
Proof. by destruct i. Qed.
Lemma session_set_ne m i j s : i <> j -> session (set_session m i s) j = session m j.
Proof. by destruct i, j. Qed.
Lemma primary_set m i ks : primary (set_primary m i ks) i = ks.
Proof. by destruct i. Qed.
Lemma set_primary_twice m i ks ks' : set_primary (set_primary m i ks) i ks' = set_primary m i ks'.
Proof. by destruct i. Qed.
Lemma session_set_primary m i ks : session (set_primary m i ks) i = set_key (session m i) KS_PRIMARY ks.
Proof. by destruct i. Qed.
Lemma ks_at_set_primary m i ks r : ks_at (set_primary m i ks) r = if decide (r = (i, KS_PRIMARY)) then ks else ks_at m r.
Proof. destruct r as [a b]. case_decide as E; [injection E as -> ->; by destruct i|]. by destruct i, a, b. Qed.

(** Only the primary key of session [i] can become authenticated. *)
Definition only_primary (i : tm_index) m m' : Prop := forall r, r <> (i, KS_PRIMARY) ->
  authenticated (ks_at m' r) = true -> authenticated (ks_at m r) = true.

Lemma only_primary_refl i m : only_primary i m m.
Proof. by intros r _. Qed.
Lemma only_primary_trans i m1 m2 m3 : only_primary i m1 m2 -> only_primary i m2 m3 -> only_primary i m1 m3.
Proof. intros A B r Hr ?. auto. Qed.
Lemma only_primary_set i m ks : only_primary i m (set_primary m i ks).
Proof. intros r Hr. by rewrite ks_at_set_primary, decide_False. Qed.
Lemma only_primary_session i m s : key_lame s = key_lame (session m i) -> only_primary i m (set_session m i s).
Proof. intros E [j k] Hr. by destruct i, j, k; cbn in *; rewrite ?E. Qed.

Lemma authenticated_deauthenticate m r : authenticated (ks_at (tls_deauthenticate m) r) = false.
Proof. by destruct r as [[] []]. Qed.

Lemma enforce_locked_cn_spec m i : only_primary i m (enforce_locked_cn m i) /\
  (authenticated (primary (enforce_locked_cn m i) i) = true -> enforce_locked_cn m i = m /\
   forall l cn, locked_cn m = Some l -> common_name (session m i) = Some cn -> cn = l).
Proof.
  pose proof (only_primary_refl i m) as Hrefl.
  unfold enforce_locked_cn. destruct (locked_cn m) as [l|]; [|split; [done|by intros _]].
  destruct (common_name (session m i)) as [cn|]; [|split; [done|by intros _]].
  destruct (authenticated (primary m i)) eqn:Ea; cbn [andb]; [case_bool_decide as Ecn|]; cbn [negb].
  - split; [done|]. intros _. split; [done|]. by intros ?? [= <-] [= <-].
  - split; [intros r _|].
    + by rewrite authenticated_deauthenticate.
    + change (primary ?m i) with (ks_at m (i, KS_PRIMARY)). by rewrite authenticated_deauthenticate.
  - split; [done|]. by rewrite Ea.
Qed.

(** The file of the peer's common name exists. *)
Definition has_ccd_file (fill : Z -> Z) (dirsep : byte) (dir cn : list byte) : Prop :=
  cn <> CCD_DEFAULT /\ exists path g g', gen_path fill dirsep (Some dir) (Some cn) g = Ok (Some path, g') /\ test_file path = true.

Lemma enforce_ccd_spec fill dirsep m i h : wlp (enforce_ccd fill dirsep m i) (fun m' _ => only_primary i m m' /\
  session m' i = set_key (session m i) KS_PRIMARY (primary m' i) /\
  (authenticated (primary m' i) = true -> m' = m /\ forall dir, client_config_dir_exclusive (opt_auth (m_opt m)) = Some dir ->
     exists cn, common_name (session m i) = Some cn /\ has_ccd_file fill dirsep dir cn)) h.
Proof.
  assert (session m i = set_key (session m i) KS_PRIMARY (primary m i)) as Eself
    by (unfold primary; by destruct (session m i)).
  pose proof (only_primary_refl i m) as Hrefl.
  unfold enforce_ccd. destruct (client_config_dir_exclusive (opt_auth (m_opt m))) as [dir|].
  2:{ wlp_steps. split; [done|]. split; [done|]. by intros _. }
  destruct (authenticated (primary m i)) eqn:Ea.
  2:{ wlp_steps. split; [done|]. split; [done|]. by rewrite Ea. }
  wlp_steps. unfold wlp at 1. destruct (gen_path fill dirsep (Some dir) (common_name (session m i)) h) as [[path h']| |] eqn:Eg; [|done..].
  wlp_steps. destruct (common_name (session m i)) as [cn|] eqn:Ecn; destruct path as [path|].
  1: destruct (bool_decide (cn = CCD_DEFAULT)) eqn:Ed; [|destruct (test_file path) eqn:Et]; cbn [orb negb].
  2: { split; [done|]. split; [done|]. intros _. split; [done|]. intros ? [= <-]. exists cn. split; [done|].
       split; [by apply bool_decide_eq_false in Ed|]. by exists path, h, h'. }
  all: split; [apply only_primary_set|]; split; [by rewrite session_set_primary, primary_set|]; by rewrite primary_set.
Qed.

(** What --auth-user-pass-verify accepted. *)
Definition accepted_user (opt : auth_options) (name : list byte) : Prop := exists username password,
  let password' := snd (string_mod password CC_PRINT CC_CRLF 95) in
  name = snd (string_mod username COMMON_NAME_CHAR_CLASS 0 95) /\ name <> [] /\
  (auth_user_pass_verify_script opt = true -> user_pass_script name password' = true) /\
  (auth_user_pass_verify_plugin opt = true -> user_pass_plugin (snd (string_mod username CC_PRINT CC_CRLF 95)) password' = true).

Definition approved (opt : auth_options) s (cn : option (list byte)) : Prop :=
  if auth_user_pass_verify_script opt || auth_user_pass_verify_plugin opt
  then exists name, accepted_user opt name /\ cn = (if username_as_common_name opt then Some name else common_name s)
  else verified s = true /\ cn = common_name s.

Lemma verify_user_pass_accepted opt username password name :
  auth_user_pass_verify_script opt || auth_user_pass_verify_plugin opt = true ->
  verify_user_pass opt username password = Some name -> accepted_user opt name.
Proof.
  unfold verify_user_pass, verify_user_pass_script, verify_user_pass_plugin. intros Ho Hv.
  set (n := snd (string_mod username COMMON_NAME_CHAR_CLASS 0 95)) in *.
  assert (negb (Zlen n =? 0) = true -> n <> []) as Hn by by intros ? ->.
  exists username, password. cbv zeta. fold n.
  destruct (auth_user_pass_verify_script opt), (auth_user_pass_verify_plugin opt); try done;
    case_match eqn:E; try done; injection Hv as <-; bool_simp; repeat split; auto; try done; apply Hn; lia.
Qed.

Lemma authenticate_peer_spec opt s buf h : wlp (authenticate_peer opt s buf) (fun r _ =>
  match fst r with
  | Some (ok, s') => key_lame s' = key_lame s /\ key_primary s' = key_primary s /\ (ok = true -> approved opt s (common_name s'))
  | None => True
  end) h.
Proof.
  unfold authenticate_peer, approved.
  destruct (auth_user_pass_verify_script opt || auth_user_pass_verify_plugin opt) eqn:Ho.
  2:{ destruct (verified s); by wlp_steps. }
  wlp_skip. case_match. wlp_steps. case_match; wlp_steps; [|done].
  apply wlp_any. intros [[password|] ?] ?; wlp_steps; [|done].
  destruct (verify_user_pass opt _ password) as [name|] eqn:Ev; wlp_steps; [|done].
  split; [by destruct (username_as_common_name opt)|]. split; [by destruct (username_as_common_name opt)|].
  intros _. exists name. split; [by eapply verify_user_pass_accepted|]. by destruct (username_as_common_name opt).
Qed.

(** What authenticates the primary key of session [i], which was [s] before. *)
Definition authenticated_by (fill : Z -> Z) (dirsep : byte) (opt : auth_options) (locked : option (list byte)) s s' : Prop :=
  exists cn, common_name s' = Some cn /\
    (exists cn', approved opt s cn' /\ (cn' = Some cn \/ cn' = None /\ cn = [])) /\
    (forall l, locked = Some l -> cn = l) /\
    (forall dir, client_config_dir_exclusive opt = Some dir -> has_ccd_file fill dirsep dir cn).

Lemma authorize_spec fill dirsep m i ok s h :
  key_lame s = key_lame (session m i) ->
  (ok = true -> approved (opt_auth (m_opt m)) (session m i) (common_name s)) ->
  wlp (authorize fill dirsep m i ok s) (fun m' _ => only_primary i m m' /\
    (authenticated (primary m' i) = true ->
     authenticated_by fill dirsep (opt_auth (m_opt m)) (locked_cn m) (session m i) (session m' i))) h.
Proof.
  intros El Hok. unfold authorize. set (m1 := set_primary _ i _).
  set (m2 := match common_name (session m1 i) with Some _ => m1 | None => _ end).
  assert (only_primary i m m2 /\ (authenticated (primary m2 i) = ok) /\ m_opt m2 = m_opt m /\ locked_cn m2 = locked_cn m /\
    exists cn, common_name (session m2 i) = Some cn /\ (common_name s = Some cn \/ common_name s = None /\ cn = [])) as (Ho & Ea & Eo & Ec & cn & Ecn & Hcn).
  { assert (only_primary i m m1) as Ho1.
    { eapply only_primary_trans; [by apply only_primary_session|apply only_primary_set]. }
    assert (common_name (session m1 i) = common_name s) as E1 by by destruct i.
    unfold m2. rewrite E1. destruct (common_name s) as [cn|].
    - split; [done|]. split; [by destruct i|]. split; [by destruct i|]. split; [by destruct i|]. exists cn. by split; [|left].
    - split; [eapply only_primary_trans; [exact Ho1|by apply only_primary_session]|].
      split; [by destruct i|]. split; [by destruct i|]. split; [by destruct i|]. exists []. by split; [destruct i|right]. }
  destruct (enforce_locked_cn_spec m2 i) as [Ho2 Hl].
  eapply wlp_mono; [apply enforce_ccd_spec|]. intros m' h' (Ho3 & Es & Hd). cbn beta in *.
  split; [eauto using only_primary_trans|]. intros Hm'. destruct (Hd Hm') as [-> Hdir].
  destruct (Hl Hm') as [E2 Hlock]. rewrite E2 in *. exists cn. split; [done|]. split; [|split].
  - exists (common_name s). split; [|done]. apply Hok. by rewrite <- Ea.
  - intros l Hlo. eapply Hlock; [|done]. by rewrite Ec.
  - intros dir Hdr. rewrite Eo in Hdir. destruct (Hdir dir Hdr) as (cn' & Ecn' & Hf). by simplify_eq.
Qed.
End Authentication.

(** C23: a key is authenticated for traffic only if the peer was.  Whatever the peer sent: if
    key_method_2_read leaves the key of session i authenticated, then the user's name and
    password were accepted by every script and plugin there is (or, without any, the
    certificate was verified); the common name is the one that was approved, equal to the
    locked one and with a file in --client-config-dir if that is demanded; and no other
    key became authenticated. *)
Theorem key_method_2_authenticates {tls_obj : Type} `{OpenSSL} `{Env} fill dirsep (m : tls_multi (tls_obj := tls_obj)) i h m' h' :
  key_method_2_read fill dirsep m i h = Ok (true, m', h') -> authenticated (primary m' i) = true ->
  only_primary i m m' /\
  authenticated_by fill dirsep (opt_auth (m_opt m)) (locked_cn m) (session m i) (session m' i).
Proof.
  enough (wlp (key_method_2_read fill dirsep m i) (fun r _ => fst r = true -> authenticated (primary (snd r) i) = true ->
    only_primary i m (snd r) /\ authenticated_by fill dirsep (opt_auth (m_opt m)) (locked_cn m) (session m i) (session (snd r) i)) h) as W.
  { intros E Ha. exact (wlp_Ok _ _ _ _ _ W E eq_refl Ha). }
  unfold key_method_2_read. wlp_skip. destruct (buf_advance _ 4) as [ok buf]. wlp_skip. wlp_skip. case_match. wlp_steps.
  case_match; [by wlp_skip|]. wlp_skip. case_match. case_match. wlp_steps. set (m1 := set_primary m i _).
  case_match; [by wlp_skip|]. wlp_skip. case_match. wlp_steps. case_match; [|by wlp_skip]. wlp_steps.
  set (m2 := set_primary m1 i _).
  assert (only_primary i m m2) as Ho by (eapply only_primary_trans; apply only_primary_set).
  eapply wlp_mono; [apply authenticate_peer_spec|]. intros [auth buf'] h1 Hs. wlp_steps. destruct auth as [[ok' s]|]; [|by wlp_skip].
  cbn in Hs. destruct Hs as (Hl & _ & Hok). wlp_steps.
  eapply wlp_mono; [apply (authorize_spec fill dirsep m2 i ok' s)|]; [by destruct i|by destruct i|].
  intros m3 h2 [Ho3 Ha3]. wlp_skip.
  assert (forall ks, authenticated ks = authenticated (primary m3 i) -> authenticated ks = true ->
    only_primary i m (set_primary m3 i ks) /\
    authenticated_by fill dirsep (opt_auth (m_opt m)) (locked_cn m) (session m i) (session (set_primary m3 i ks) i)) as Hfin.
  { intros ks Ek Hk. rewrite Ek in Hk. specialize (Ha3 Hk). split.
    - eapply only_primary_trans; [eapply only_primary_trans; [exact Ho|exact Ho3]|apply only_primary_set].
    - rewrite session_set_primary. by destruct i. }
  destruct (server (m_opt m)); wlp_steps; [intros _; rewrite primary_set; by apply Hfin|].
  wlp_skip. case_match; [|by wlp_skip]. wlp_steps. intros _. rewrite !primary_set, set_primary_twice. by apply Hfin.
Qed.

(** ** Witnesses *)

#[local] Existing Instance ex_openssl.

(** Scripts and plugins that accept the user joe. *)
#[local] Instance ex_env : Env := {|
  user_pass_script := fun u _ => bool_decide (u = text "joe");
  user_pass_plugin := fun u p => bool_decide (u = text "joe") && bool_decide (p = text "secret");
  tls_verify_script := fun _ => 0;
  tls_verify_plugin_call := fun _ => true;
  crl := None;
  test_file := fun _ => true
|}.

Definition ex_auth_server : auth_options :=
  AuthOptions (text "V4") (text "V4") true None true true true None 0 None false None false.
Definition ex_auth_client : auth_options :=
  AuthOptions (text "V4") (text "V4") true (Some (text "joe", text "secret")) false false false None 0 None false None false.
Definition ex_tls_options (srv : bool) : tls_options :=
  TlsOptions srv 2 true false 3600 2 (-1) 0 64 15 (Opt None None None 0) (Frame 0 0 9 0 0 0 0 0)
    ex_kt 60 0 0 3600 (if srv then ex_auth_server else ex_auth_client).

(** A session after the TLS handshake; its buffers are the blocks 1 and 2. *)
Definition ex_session (sid rsid : list byte) (st : Z) : tls_session (tls_obj := unit) :=
  set_cert (set_key clear_session KS_PRIMARY
    (KeyState st 0 (Some tt) 0 0 0 7 rsid no_addr no_packet_id no_key (Buf 1024 0 0 (Some (Ptr 1 0))) (Buf 1024 0 0 (Some (Ptr 2 0)))
       clear_buf None None None 0 0 false clear_source2 TM_ACTIVE)) None true.
Definition ex_multi (srv : bool) (sid rsid : list byte) (st : Z) : tls_multi (tls_obj := unit) :=
  let s := ex_session sid rsid st in
  let s := Session (burst s) (tls_auth s) (s_initial_opcode s) sid (s_key_id s) (common_name s) (verified s) (untrusted_sockaddr s)
             (key_primary s) (key_lame s) in
  Multi (ex_tls_options srv) None None 0 0 0 None s clear_session clear_session.
Definition ex_heap : heap := <[1%positive := replicate 1024 0]> (<[2%positive := replicate 1024 0]> ∅).

Definition ex_km2_message : list byte :=
  replicate 4 0 ++ [2] ++ replicate 112 7 ++ [0; 3] ++ text "V4" ++ [0] ++
  [0; 4] ++ text "joe" ++ [0] ++ [0; 7] ++ text "secret" ++ [0].
Definition ex_received : tls_multi (tls_obj := unit) :=
  let m := ex_multi true (replicate 8 2) (replicate 8 1) S_START in
  set_primary m TM_ACTIVE (ks_set_read_buf (primary m TM_ACTIVE) (Buf 1024 0 (Zlen ex_km2_message) (Some (Ptr 1 0)))).
Definition ex_received_heap : heap := <[1%positive := ex_km2_message ++ replicate (1024 - length ex_km2_message) 0]> ex_heap.

Lemma key_method_2_authenticates_witness :
  match key_method_2_read (fun _ => 7) 47 ex_received TM_ACTIVE ex_received_heap with
  | Ok (ok, m', _) => ok = true /\ authenticated (primary m' TM_ACTIVE) = true /\
      only_primary TM_ACTIVE ex_received m' /\
      authenticated_by (fun _ => 7) 47 (opt_auth (m_opt ex_received)) (locked_cn ex_received)
        (session ex_received TM_ACTIVE) (session m' TM_ACTIVE)
  | _ => False
  end.
Proof.
  assert (match key_method_2_read (fun _ => 7) 47 ex_received TM_ACTIVE ex_received_heap with
    | Ok (ok, m', _) => ok && authenticated (primary m' TM_ACTIVE) | _ => false end = true) as E by by vm_compute.
  destruct (key_method_2_read (fun _ => 7) 47 ex_received TM_ACTIVE ex_received_heap) as [[[ok m'] h']| |] eqn:R; [|done|done].
  apply andb_true_iff in E as [-> Ha]. split; [done|]. split; [done|].
  exact (key_method_2_authenticates (fun _ => 7) 47 ex_received TM_ACTIVE ex_received_heap m' h' R Ha).
Defined.

Definition ex_cert : x509 := X509 (text "/C=US/O=ORG/CN=joe") 0 64 17 (text "/CN=Test-CA").
Lemma verify_callback_sound_witness :
  match verify_callback ex_auth_server (session ex_received TM_ACTIVE) true ex_cert with
  | Ok (ok, s') => ok = true /\ exists cn, verified s' = ok /\
      string_class cn COMMON_NAME_CHAR_CLASS 0 = true /\ Zlen cn < TLS_CN_LEN /\
      common_name s' = (if true && (x_depth ex_cert =? 0) then Some cn else common_name (session ex_received TM_ACTIVE)) /\
      (ok = true <-> true = true /\ cert_accepted ex_auth_server ex_cert cn)
  | _ => False
  end.
Proof.
  assert (match verify_callback ex_auth_server (session ex_received TM_ACTIVE) true ex_cert with Ok (ok, _) => ok | _ => false end = true) as E by by vm_compute.
  pose proof (verify_callback_sound ex_auth_server (session ex_received TM_ACTIVE) true ex_cert) as Hv.
  destruct (verify_callback ex_auth_server (session ex_received TM_ACTIVE) true ex_cert) as [[ok s']| |]; [|done..]. by split.
Defined.
