(* ===== verification/KeyExchange.v ===== *)
(** The exchange of key method 2 (src/ssl.c): what one side writes the other side reads, and
    both sides end up with keys that fit. *)

From S2P Require Import Prelude Buffer Integer PacketId Mtu Crypto Reliable Pool ControlAuth Text Key Prf Own RelOwn Tls KeyMethod.

(** ** Messages *)

Definition string_bytes (s : list byte) : list byte := be_enc 2 (Zlen s + 1) ++ s ++ [0].
Definition source_bytes (server : bool) (k : key_source) : list byte :=
  (if server then [] else pre_master k) ++ random1 k ++ random2 k.
Definition user_pass_bytes (o : option (list byte * list byte)) : list byte :=
  match o with Some (u, p) => string_bytes u ++ string_bytes p | None => [] end.
Definition km2_message (server : bool) (opt : auth_options) (k : key_source) : list byte :=
  be_enc 4 0 ++ [2] ++ source_bytes server k ++ string_bytes (local_options opt) ++ user_pass_bytes (auth_user_pass opt).

(** A string that fits the reader's array. *)
Definition string_fits (s : list byte) (cap : Z) : Prop := no_nul s /\ Zlen s + 1 <= cap.

(** ** Writing: [s] was appended to a buffer. *)

Definition wrote (h : heap) (p : ptr) (b : buffer) (bs s : list byte) (h' : heap) (b' : buffer) : Prop :=
  b' = with_len b (b_len b + Zlen s) /\ buf_rep h' p b' (bs ++ s) /\ keeps [blk p] h h'.

Lemma wrote_trans h p b bs s t h1 b1 h2 b2 :
  wrote h p b bs s h1 b1 -> wrote h1 p b1 (bs ++ s) t h2 b2 -> wrote h p b bs (s ++ t) h2 b2.
Proof.
  intros (-> & H1 & K1) (-> & H2 & K2). split; [|split].
  - rewrite Zlen_app. unfold with_len. cbn. f_equal. lia.
  - by rewrite app_assoc.
  - by eapply keeps_trans.
Qed.

Lemma wrote_nil h p b bs : buf_rep h p b bs -> wrote h p b bs [] h b.
Proof.
  intros H. split; [|split; [by rewrite app_nil_r|apply keeps_refl]]. rewrite Zlen_nil, Z.add_0_r. by destruct b.
Qed.

Definition room (b : buffer) (n : Z) : Prop := b_offset b + b_len b + n <= b_capacity b.
Definition writes (h : heap) (p : ptr) (b : buffer) (bs s : list byte) (e : M (bool * buffer)) : Prop :=
  wp e (fun r h' => fst r = true /\ wrote h p b bs s h' (snd r)) h.

Lemma room_wrote h p b bs s h' b' n : wrote h p b bs s h' b' -> room b (Zlen s + n) -> room b' n.
Proof. intros (-> & _) Hr. unfold room in *. cbn. lia. Qed.

Lemma writes_buf_write h p b bs s : buf_rep h p b bs -> room b (Zlen s) -> writes h p b bs s (buf_write b s).
Proof.
  intros H Hr. eapply wp_mono; [by apply wp_buf_write|]. intros r h' (-> & Hb & Hm). split; [done|]. split; [done|].
  split; [done|]. eapply modifies_keeps; [exact Hm|by left].
Qed.

Lemma writes_and_then h p b bs s t r k :
  writes h p b bs s r -> (forall h1 b1, wrote h p b bs s h1 b1 -> writes h1 p b1 (bs ++ s) t (k b1)) ->
  writes h p b bs (s ++ t) (and_then r k).
Proof.
  intros Hr Hk. unfold writes, and_then. wp_steps. eapply wp_mono; [exact Hr|]. intros [ok b1] h1 [Hok Hw]. cbn in Hok, Hw. subst ok.
  wp_steps. eapply wp_mono; [by apply Hk|]. intros [ok b2] h2 [Hok2 Hw2]. split; [done|]. by eapply wrote_trans.
Qed.

Lemma writes_string h p b bs s maxlen :
  buf_rep h p b bs -> Zlen s + 1 < 65536 -> maxlen < 0 \/ Zlen s + 1 <= maxlen -> room b (Zlen (string_bytes s)) ->
  writes h p b bs (string_bytes s) (write_string b s maxlen).
Proof.
  intros H Hs Hm Hr. unfold string_bytes in *. rewrite Zlen_app, Zlen_be_enc in Hr. pose proof (Zlen_nonneg s).  pose proof (Zlen_nonneg (s ++ [0])) as Hs0.
  pose proof (writes_and_then h p b bs (be_enc 2 (Zlen s + 1)) (s ++ [0]) (buf_write_u16 b (Zlen s + 1)) (fun b => buf_write b (s ++ [0]))) as W.
  unfold write_string. wrap_simp. replace ((Zlen s + 1 <? 1) || (maxlen >=? 0) && (Zlen s + 1 >? maxlen)) with false by lia.
  apply W.
  - unfold buf_write_u16, u16. rewrite Z.mod_small by lia. apply writes_buf_write; [done|]. rewrite Zlen_be_enc. unfold room in *. lia.
  - intros h1 b1 Hw. apply writes_buf_write; [apply Hw|]. eapply room_wrote; [exact Hw|]. by rewrite Zlen_be_enc.
Qed.

Lemma writes_user_pass h p b bs opt :
  buf_rep h p b bs ->
  (forall u w, auth_user_pass opt = Some (u, w) -> Zlen u + 1 < 65536 /\ Zlen w + 1 < 65536) ->
  room b (Zlen (user_pass_bytes (auth_user_pass opt))) ->
  writes h p b bs (user_pass_bytes (auth_user_pass opt)) (write_user_pass opt b).
Proof.
  intros H Hl Hr. unfold write_user_pass. destruct (auth_user_pass opt) as [[u w]|]; cbn [user_pass_bytes] in *.
  2:{ unfold writes. wp_steps. split; [done|]. by apply wrote_nil. }
  destruct (Hl u w eq_refl) as [Hu Hw]. rewrite Zlen_app in Hr. pose proof (Zlen_nonneg (string_bytes w)). apply writes_and_then.
  - apply writes_string; [done|done|lia|]. unfold room in *. lia.
  - intros h1 b1 Hwr. apply writes_string; [apply Hwr|done|lia|]. by eapply room_wrote.
Qed.

Lemma wp_random_bytes_to_buf h p b bs n rand :
  buf_rep h p b bs -> 0 <= n <= Zlen rand -> room b n ->
  wp (random_bytes_to_buf b n rand) (fun r h' => exists b', r = (true, take (Z.to_nat n) rand, b', drop (Z.to_nat n) rand) /\
    Zlen (take (Z.to_nat n) rand) = n /\ wrote h p b bs (take (Z.to_nat n) rand) h' b') h.
Proof.
  intros H Hn Hr. unfold random_bytes_to_buf, RAND_bytes. replace (n <=? Zlen rand) with true by lia. wp_steps.
  assert (Zlen (take (Z.to_nat n) rand) = n) as Hl by (unfold Zlen in *; rewrite length_take; lia).
  eapply wp_lift; [done|]. wp_steps. eapply wp_mono; [apply writes_buf_write; [done|by rewrite Hl]|].
  intros [ok b'] h' [Hok Hw]. cbn in Hok. subst ok. wp_steps. by exists b'.
Qed.

(** The random source that is made from [rand]. *)
Definition drawn_source (server : bool) (rand : list byte) : key_source :=
  let n := (if server then 0 else 48)%nat in
  KeySource (if server then replicate 48 0 else take 48 rand) (take 32 (drop n rand)) (take 32 (drop (n + 32)%nat rand)).

Lemma drawn_source_ok server rand : 112 <= Zlen rand -> source_ok (drawn_source server rand).
Proof.
  intros H. unfold Zlen in *. split; unfold Zlen; destruct server; cbn -[drop take replicate]; rewrite ?length_replicate, ?length_take, ?length_drop; lia.
Qed.

Lemma Zlen_source_bytes server k : source_ok k -> Zlen (source_bytes server k) = if server then 64 else 112.
Proof.
  intros [H1 H2 H3]. unfold source_bytes. destruct server; rewrite !Zlen_app, ?Zlen_nil; lia.
Qed.

Lemma wp_source_write h p b bs k2 (server : bool) rand :
  buf_rep h p b bs -> 112 <= Zlen rand -> room b (if server then 64 else 112) ->
  wp (key_source2_randomize_write k2 b server rand) (fun (r : bool * key_source2 * buffer * list byte) h' => exists b' (rand' : list byte),
    r = (true, set_source k2 server (drawn_source server rand), b', rand' : list byte) /\
    wrote h p b bs (source_bytes server (drawn_source server rand)) h' b') h.
Proof.
  intros H Hn Hr. unfold key_source2_randomize_write. pose proof (drawn_source_ok server rand Hn) as [S1 S2 S3].
  unfold drawn_source in *. destruct server; cbn [pre_master random1 random2 negb Nat.add] in *; wp_steps.
  - change (drop 0 rand) with rand in *. eapply wp_mono; [apply (wp_random_bytes_to_buf h p b bs 32); [done|lia|unfold room in *; lia]|].
    intros r h1 (b1 & -> & Hl1 & W1). wp_steps. eapply wp_mono; [eapply (wp_random_bytes_to_buf h1 p b1 _ 32); [apply W1| |]|].
    + unfold Zlen in *. rewrite length_drop. lia.
    + eapply room_wrote; [exact W1|]. by rewrite Hl1.
    + intros r h2 (b2 & -> & Hl2 & W2). wp_steps. exists b2, (drop 32 (drop 32 rand)). split; [done|].
      unfold source_bytes. cbn [app pre_master random1 random2]. eapply wrote_trans; [exact W1|exact W2].
  - eapply wp_mono; [apply (wp_random_bytes_to_buf h p b bs 48); [done|lia|unfold room in *; lia]|].
    intros r h0 (b0 & -> & Hl0 & W0). wp_steps. change (Z.to_nat 48) with 48%nat in *.
    eapply wp_mono; [eapply (wp_random_bytes_to_buf h0 p b0 _ 32); [apply W0| |]|].
    + unfold Zlen in *. rewrite length_drop. lia.
    + eapply room_wrote; [exact W0|]. rewrite Hl0. unfold room in *. lia.
    + intros r h1 (b1 & -> & Hl1 & W1). wp_steps. pose proof (wrote_trans _ _ _ _ _ _ _ _ _ _ W0 W1) as W01.
      eapply wp_mono; [eapply (wp_random_bytes_to_buf h1 p b1 _ 32); [apply W1| |]|].
      * unfold Zlen in *. rewrite !length_drop. lia.
      * eapply room_wrote; [exact W01|]. rewrite Zlen_app, Hl0, Hl1. unfold room in *. lia.
      * intros r h2 (b2 & -> & Hl2 & W2). wp_steps. exists b2, (drop 32 (drop 32 (drop 48 rand))).
        change (Z.to_nat 32) with 32%nat in *. rewrite !drop_drop in *. split; [done|].
        unfold source_bytes. cbn [pre_master random1 random2].
        eapply wrote_trans; [exact W0|]. eapply wrote_trans; [exact W1|exact W2].
Qed.

(** ** Reading *)

Lemma wp_read_prefix h p b a rest dst n (Q : option (list byte) * buffer -> heap -> Prop) :
  buf_rep h p b (a ++ rest) -> Zlen a = n -> Zlen dst = n ->
  (forall b', buf_rep h p b' rest -> Q (Some a, b') h) -> wp (read_array dst b n) Q h.
Proof.
  intros H Ha Hd HQ. pose proof (Zlen_nonneg rest). apply (wp_read_array h p b (a ++ rest) dst n); [done|rewrite Zlen_app; unfold Zlen in *; lia|lia|].
  assert (Z.to_nat n = length a) as -> by (unfold Zlen in *; lia). rewrite take_app_length, drop_app_length.
  rewrite splice_whole; [done|]. unfold Zlen in *. lia.
Qed.

Lemma wp_source_read h p b k2 (server : bool) k rest (Q : bool * key_source2 * buffer -> heap -> Prop) :
  buf_rep h p b (source_bytes (negb server) k ++ rest) -> source_ok k -> (server = false -> pre_master k = replicate 48 0) ->
  (forall b', buf_rep h p b' rest -> Q (true, set_source k2 (negb server) k, b') h) ->
  wp (key_source2_read k2 b server) Q h.
Proof.
  intros H [S1 S2 S3] Hpm HQ. unfold key_source2_read, source_bytes in *. destruct k as [pm r1 r2]. cbn [pre_master random1 random2] in *.
  wp_steps. destruct server; cbn [negb] in *.
  - rewrite <- !app_assoc in H. apply (wp_read_prefix h p b pm _ _ 48 _ H S1); [done|]. intros b1 H1. wp_steps.
    apply (wp_read_prefix h p b1 r1 _ _ 32 _ H1 S2); [done|]. intros b2 H2. wp_steps.
    apply (wp_read_prefix h p b2 r2 _ _ 32 _ H2 S3); [done|]. intros b3 H3. wp_steps. by apply HQ.
  - rewrite app_nil_l, <- !app_assoc in H. wp_steps.
    apply (wp_read_prefix h p b r1 _ _ 32 _ H S2); [done|]. intros b2 H2. wp_steps.
    apply (wp_read_prefix h p b2 r2 _ _ 32 _ H2 S3); [done|]. intros b3 H3. wp_steps. change (pre_master clear_source) with (replicate 48 0). rewrite <- Hpm by done. by apply HQ.
Qed.

Lemma wp_read_u8 h p b c rest (Q : Z * buffer -> heap -> Prop) :
  buf_rep h p b ([c] ++ rest) -> is_byte c -> (forall b', buf_rep h p b' rest -> Q (c, b') h) -> wp (buf_read_u8 b) Q h.
Proof.
  intros H Hc HQ. unfold buf_read_u8, BLEN. pose proof (buf_rep_Zlen _ _ _ _ H) as Hl. rewrite Zlen_app in Hl.
  change (Zlen [c]) with 1 in Hl. pose proof (Zlen_nonneg rest). replace (b_len b <? 1) with false by lia.
  rewrite (BPTR_rep _ _ _ _ H). wp_steps. eapply wp_load; [by apply (buf_rep_prefix h p b [c] rest)|]. wp_steps.
  destruct (buf_advance_spec h p b _ _ H) as [E H']. change (Zlen [c]) with 1 in E, H'. rewrite E. cbn [snd].
  change (be_dec [c]) with (0 * 256 + c). by apply HQ.
Qed.

Lemma cstring_no_nul s : no_nul s -> cstring s = s.
Proof. induction 1 as [|c s Hc _ IH]; [done|]. cbn [cstring]. by rewrite (proj2 (Z.eqb_neq _ _) Hc), IH. Qed.

Lemma wp_read_string h p b s cap rest (Q : option (list byte) * buffer -> heap -> Prop) :
  buf_rep h p b (string_bytes s ++ rest) -> string_fits s cap -> cap < 65536 ->
  (forall b', buf_rep h p b' rest -> Q (Some s, b') h) -> wp (read_string b cap) Q h.
Proof.
  intros H [Hn Hc] Hcap HQ. pose proof (Zlen_nonneg s) as Hs. unfold read_string, string_bytes in *. rewrite <- app_assoc in H.
  unfold buf_read_u16. wp_steps. eapply wp_mono; [apply (wp_buf_read h p b _ _ H)|].
  intros [r b1] h' ([= -> ->] & -> & H1). wp_steps. rewrite be_dec_enc by (change (256 ^ Z.of_nat 2) with 65536; lia).
  replace ((Zlen s + 1 <? 1) || (Zlen s + 1 >? cap)) with false by lia. wp_steps.
  pose proof (wp_buf_read h p _ (s ++ [0]) rest H1) as Hr. cbv zeta in Hr. rewrite Zlen_app in Hr. change (Zlen [0]) with 1 in Hr.
  eapply wp_mono; [exact Hr|]. intros [r b2] h' ([= -> ->] & -> & H2). wp_steps.
  replace (Z.to_nat (Zlen s + 1 - 1)) with (length s) by (unfold Zlen; lia). rewrite take_app_length, cstring_no_nul by done.
  by apply HQ.
Qed.

Section Exchange.
Context {tls_obj : Type} `{OpenSSL} `{Env}.
#[local] Abbreviation ks_t := (key_state (tls_obj := tls_obj)).
#[local] Abbreviation session_t := (tls_session (tls_obj := tls_obj)).
#[local] Abbreviation multi_t := (tls_multi (tls_obj := tls_obj)).
Implicit Types (ks : ks_t) (s : session_t) (m : multi_t).

Definition km2_length (server : bool) (opt : auth_options) : Z :=
  5 + (if server then 64 else 112) + Zlen (string_bytes (local_options opt)) + Zlen (user_pass_bytes (auth_user_pass opt)).

(** The side that writes: its strings and its buffer are large enough. *)
Record km2_writer (m : multi_t) (i : tm_index) (rand : list byte) (h : heap) (p : ptr) : Prop := {
  kw_method : key_method (m_opt m) = 2;
  kw_buf : exists bs, buf_rep h p (plaintext_write_buf (primary m i)) bs;
  kw_room : km2_length (server (m_opt m)) (opt_auth (m_opt m)) <= b_capacity (plaintext_write_buf (primary m i));
  kw_options : Zlen (local_options (opt_auth (m_opt m))) + 1 <= TLS_OPTIONS_LEN;
  kw_user : forall u w, auth_user_pass (opt_auth (m_opt m)) = Some (u, w) -> Zlen u + 1 < 65536 /\ Zlen w + 1 < 65536;
  kw_rand : 112 <= Zlen rand
}.

(** The keys that the exchange gives one side, or None for bad ones. *)
Definition derived (kt : key_type) (src : key_source2) (csid ssid : list byte) (server : bool) (o : option key_ctx_bi) : Prop :=
  exists keys, fix_keys (expanded src csid ssid) kt = Ok keys /\
    match keys with
    | None => o = None
    | Some keys => exists k0 k1 e d, keys = [k0; k1] /\ o = Some (KeyCtxBi e d) /\
        init_key_ctx (if server then k1 else k0) kt true = Ok e /\ init_key_ctx (if server then k0 else k1) kt false = Ok d
    end.

Lemma derived_fit kt src csid ssid oc os : kt_ok kt -> derived kt src csid ssid false oc -> derived kt src csid ssid true os ->
  match oc, os with
  | Some kc, Some ks => inverse_ctx (k_encrypt kc) (k_decrypt ks) /\ inverse_ctx (k_encrypt ks) (k_decrypt kc)
  | None, None => True
  | _, _ => False
  end.
Proof.
  intros Hk (keys & E & C) (keys' & E' & S). rewrite E in E'. injection E' as <-. destruct keys as [keys|]; [|by subst].
  destruct C as (k0 & k1 & e & d & -> & -> & A1 & B1). destruct S as (? & ? & e' & d' & [= <- <-] & -> & A2 & B2).
  split; (eapply init_key_ctx_inverse; [|eassumption..]); intros c Ec; by apply (ko_cipher _ Hk).
Qed.

Record crypto_ok (kt : key_type) : Prop := {
  co_md5 : md_ok EVP_md5; co_sha1 : md_ok EVP_sha1; co_parity : parity_ok; co_kt : kt_ok kt
}.

Lemma wp_derive fill kt src csid ssid server h : crypto_ok kt -> sources_ok src -> Zlen csid = 8 -> Zlen ssid = 8 ->
  wp (generate_key_expansion fill kt src csid ssid server) (fun o h' => keeps [] h h' /\ derived kt src csid ssid server o) h.
Proof. intros []. by apply wp_generate_key_expansion. Qed.

(** The message is written; a server that has authenticated its peer derives the keys. *)
Definition km2_written (m : multi_t) (i : tm_index) (rand : list byte) (h : heap) (p : ptr)
    (r : bool * multi_t * list byte) (h' : heap) : Prop :=
  let opt := m_opt m in let ks := primary m i in
  let own := drawn_source (server opt) rand in
  let src := set_source (key_src ks) (server opt) own in
  exists buf rand', buf_rep h' p buf (km2_message (server opt) (opt_auth opt) own) /\ keeps [blk p] h h' /\
    let finish ok ks src := r = (ok, set_primary m i (ks_set_key_src (ks_set_write_buf ks buf) src), rand') in
    if server opt then
      if authenticated ks then
        exists o, derived (opt_key_type opt) src (session_id_remote ks) (s_session_id (session m i)) true o /\
          match o with Some key => finish true (ks_set_key ks key) clear_source2 | None => finish false ks clear_source2 end
      else finish true ks clear_source2
    else finish true ks src.

Lemma wp_write_message opt src b h p rand :
  buf_rep h p b [] -> room b (km2_length (server opt) (opt_auth opt)) -> key_method opt = 2 ->
  Zlen (local_options (opt_auth opt)) + 1 <= TLS_OPTIONS_LEN ->
  (forall u w, auth_user_pass (opt_auth opt) = Some (u, w) -> Zlen u + 1 < 65536 /\ Zlen w + 1 < 65536) ->
  112 <= Zlen rand ->
  wp (write_message opt src b rand) (fun r h' => exists b' (rand' : list byte),
    r = (true, set_source src (server opt) (drawn_source (server opt) rand), b', rand') /\
    wrote h p b [] (km2_message (server opt) (opt_auth opt) (drawn_source (server opt) rand)) h' b') h.
Proof.
  intros Hb Hroom Hkm Hopt Huser Hrand. unfold write_message. rewrite Hkm. wp_steps.
  pose proof (Zlen_source_bytes (server opt) _ (drawn_source_ok (server opt) rand Hrand)) as Hsl. unfold km2_length in Hroom.
  set (s1 := string_bytes (local_options (opt_auth opt))) in *. set (s2 := user_pass_bytes (auth_user_pass (opt_auth opt))) in *.
  pose proof (Zlen_nonneg s1) as Hl1. pose proof (Zlen_nonneg s2) as Hl2.
  set (n := if server opt then 64 else 112) in *. assert (0 <= n) as Hn by (unfold n; by destruct (server opt)).
  eapply wp_mono; [apply (writes_and_then h p b [] (be_enc 4 0) [2])|].
  { apply writes_buf_write; [done|]. rewrite Zlen_be_enc. unfold room in *. lia. }
  { intros h1 b1 W1. apply writes_buf_write; [apply W1|]. eapply room_wrote; [exact W1|]. rewrite Zlen_be_enc.
    change (Zlen _) with 1. unfold room in *. lia. }
  intros [ok b1] h1 [Hok W1]. cbn in Hok, W1. subst ok. wp_steps.
  assert (room b1 (n + Zlen s1 + Zlen s2)) as Hr1.
  { eapply room_wrote; [exact W1|]. change (Zlen (be_enc 4 0 ++ [2])) with 5. unfold room in *. lia. }
  eapply wp_mono; [apply (wp_source_write h1 p b1 ([] ++ be_enc 4 0 ++ [2]) src (server opt) rand); [apply W1|done|fold n; unfold room in *; lia]|].
  intros r h2 (b2 & rand' & -> & W2). wp_steps.
  assert (room b2 (Zlen s1 + Zlen s2)) as Hr2.
  { eapply room_wrote; [exact W2|]. unfold room in *. lia. }
  eapply wp_mono; [eapply (writes_and_then h2 p b2 _ s1 s2)|].
  { apply writes_string; [apply W2|unfold TLS_OPTIONS_LEN in *; lia|by right|fold s1; unfold room in *; lia]. }
  { intros h3 b3 W3. apply writes_user_pass; [apply W3|done|]. eapply room_wrote; [exact W3|done]. }
  intros [ok b3] h3 [Hok W3]. cbn in Hok, W3. subst ok. wp_steps. exists b3, rand'. split; [done|].
  unfold km2_message. fold s1 s2. rewrite (app_assoc (be_enc 4 0)).
  eapply wrote_trans; [exact W1|]. eapply wrote_trans; [exact W2|exact W3].
Qed.

Lemma wp_km2_write fill m i rand h p :
  km2_writer m i rand h p ->
  (server (m_opt m) = true -> authenticated (primary m i) = true -> crypto_ok (opt_key_type (m_opt m)) /\
     source_ok (client (key_src (primary m i))) /\ Zlen (session_id_remote (primary m i)) = 8 /\ Zlen (s_session_id (session m i)) = 8) ->
  wp (key_method_2_write fill m i rand) (km2_written m i rand h p) h.
Proof.
  intros [Hkm [bs Hb] Hroom Hopt Huser Hrand] Hsrv. unfold key_method_2_write, km2_written.
  pose proof (br_cap _ _ _ _ Hb) as Hcap. pose proof (br_offset _ _ _ _ Hb). pose proof (br_len _ _ _ _ Hb).
  wp_steps. apply wp_ASSERT; [lia|]. destruct (buf_init_spec h p _ bs 0 Hb) as [Ei Hi]; [lia|]. rewrite Ei. wp_steps.
  eapply wp_mono; [apply (wp_write_message _ _ _ h p rand Hi)|]; [unfold room; cbn; lia|done..|].
  intros r h1 (b & rand' & -> & W). wp_steps. pose proof W as (_ & Hb' & K1). set (src := set_source _ _ _) in *.
  destruct (server (m_opt m)) eqn:Es; [|wp_steps; by exists b, rand'].
  destruct (authenticated (primary m i)) eqn:Ea; [|wp_steps; by exists b, rand'].
  destruct (Hsrv eq_refl eq_refl) as (Hc & Hcl & Hsid & Hsid2). wp_steps.
  eapply wp_mono; [apply wp_derive; [done| |done|done]|].
  { split; [done|]. by apply (drawn_source_ok true). }
  intros o h2 [K2 Hd]. assert (keeps [blk p] h h2) as K by (eapply keeps_trans; [exact K1|eapply keeps_weaken; [apply list_subseteq_nil|exact K2]]).
  assert (buf_rep h2 p b (km2_message true (opt_auth (m_opt m)) (drawn_source true rand))) as Hb2.
  { eapply buf_rep_keeps; [exact K2|by apply not_elem_of_nil|done]. }
  destruct o as [key|]; wp_steps; exists b, rand'; (split; [done|]; split; [done|]; eexists; split; [exact Hd|done]).
Qed.

(** The peer sends a user's name and password if they are wanted; or its certificate was verified. *)
Definition may_authenticate (opt : auth_options) s (peer : auth_options) : Prop :=
  if auth_user_pass_verify_script opt || auth_user_pass_verify_plugin opt
  then exists u w, auth_user_pass peer = Some (u, w) /\ string_fits u USER_PASS_LEN /\ string_fits w USER_PASS_LEN
  else verified s = true.

(** The side that reads the message of [peer]. *)
Record km2_reader (m : multi_t) (i : tm_index) (peer : auth_options) (k : key_source) (h : heap) (p : ptr) : Prop := {
  kr_method : key_method (m_opt m) = 2;
  kr_buf : buf_rep h p (plaintext_read_buf (primary m i)) (km2_message (negb (server (m_opt m))) peer k);
  kr_source : source_ok k;
  kr_pre : server (m_opt m) = false -> pre_master k = replicate 48 0;
  kr_options : string_fits (local_options peer) TLS_OPTIONS_LEN;
  kr_auth : may_authenticate (opt_auth (m_opt m)) (session m i) peer;
  kr_ccd : client_config_dir_exclusive (opt_auth (m_opt m)) = None
}.

(** What the authentication does not change. *)
Definition same_exchange (m m' : multi_t) (i : tm_index) : Prop :=
  m_opt m' = m_opt m /\ key_src (primary m' i) = key_src (primary m i) /\
  session_id_remote (primary m' i) = session_id_remote (primary m i) /\
  plaintext_write_buf (primary m' i) = plaintext_write_buf (primary m i) /\
  s_session_id (session m' i) = s_session_id (session m i).

Lemma wp_authenticate_peer opt s b h p peer rest :
  may_authenticate opt s peer -> buf_rep h p b (user_pass_bytes (auth_user_pass peer) ++ rest) ->
  wp (authenticate_peer opt s b) (fun r h' => h' = h /\ (exists ok s', fst r = Some (ok, s') /\ s_session_id s' = s_session_id s /\
    key_primary s' = key_primary s) /\ exists bs, buf_rep h' p (snd r) bs) h.
Proof.
  unfold may_authenticate, authenticate_peer. intros Ha Hb.
  destruct (auth_user_pass_verify_script opt || auth_user_pass_verify_plugin opt).
  - destruct Ha as (u & w & E & Hu & Hw). rewrite E in Hb. cbn [user_pass_bytes] in Hb. rewrite <- app_assoc in Hb.
    wp_steps. apply (wp_read_string h p b u USER_PASS_LEN _ _ Hb Hu); [done|]. intros b1 H1. wp_steps.
    apply (wp_read_string h p b1 w USER_PASS_LEN _ _ H1 Hw); [done|]. intros b2 H2. wp_steps.
    destruct (verify_user_pass opt u w); wp_steps; (split; [done|]); (split; [|by eexists]); do 2 eexists; (split; [done|]);
      by destruct (username_as_common_name opt).
  - rewrite Ha. wp_steps. split; [done|]. split; [|by eexists]. by exists true, s.
Qed.

Lemma wp_authorize fill dirsep m i ok s h :
  client_config_dir_exclusive (opt_auth (m_opt m)) = None -> s_session_id s = s_session_id (session m i) ->
  key_primary s = primary m i ->
  wp (authorize fill dirsep m i ok s) (fun m' h' => h' = h /\ same_exchange m m' i) h.
Proof.
  intros Hc Hs Hk. unfold authorize. set (m1 := match common_name _ with Some _ => _ | None => _ end).
  assert (same_exchange m m1 i) as S1.
  { unfold m1. destruct (common_name _); destruct i; unfold primary in *; cbn in *; rewrite ?Hk; done. }
  assert (same_exchange m1 (enforce_locked_cn m1 i) i) as S2.
  { unfold enforce_locked_cn. destruct (locked_cn m1); [|done]. destruct (common_name (session m1 i)); [|done].
    destruct (_ && _); [|done]. by destruct i. }
  assert (same_exchange m (enforce_locked_cn m1 i) i) as S.
  { destruct S1 as (? & ? & ? & ? & ?), S2 as (? & ? & ? & ? & ?). repeat split; congruence. }
  clearbody m1. unfold enforce_ccd. destruct S as (E & S). rewrite E, Hc. wp_steps. split; [done|]. by split.
Qed.

(** The message is read; a client derives the keys. *)
Definition km2_was_read (m : multi_t) (i : tm_index) (k : key_source) (h : heap) (p : ptr) (r : bool * multi_t) (h' : heap) : Prop :=
  let opt := m_opt m in let ks := primary m i in let m' := snd r in
  let src := set_source (key_src ks) (negb (server opt)) k in
  keeps [blk p] h h' /\ m_opt m' = opt /\
  if server opt then
    fst r = true /\ key_src (primary m' i) = src /\ session_id_remote (primary m' i) = session_id_remote ks /\
    plaintext_write_buf (primary m' i) = plaintext_write_buf ks /\ s_session_id (session m' i) = s_session_id (session m i)
  else exists o, derived (opt_key_type opt) src (s_session_id (session m i)) (session_id_remote ks) false o /\
    match o with Some key => fst r = true /\ Tls.key (primary m' i) = key | None => fst r = false end.

Lemma wp_km2_read fill dirsep m i peer k h p :
  km2_reader m i peer k h p ->
  (server (m_opt m) = false -> crypto_ok (opt_key_type (m_opt m)) /\
     source_ok (client (key_src (primary m i))) /\ Zlen (session_id_remote (primary m i)) = 8 /\ Zlen (s_session_id (session m i)) = 8) ->
  wp (key_method_2_read fill dirsep m i) (km2_was_read m i k h p) h.
Proof.
  intros [Hkm Hb Hsrc Hpre Hopt Hauth Hccd] Hcl. unfold key_method_2_read, km2_was_read.
  wp_steps. apply wp_ASSERT; [lia|]. unfold km2_message in Hb.
  destruct (buf_advance_spec h p _ _ _ Hb) as [Ea H1]. rewrite Zlen_be_enc in Ea, H1. change (Z.of_nat 4) with 4 in Ea, H1. rewrite Ea. wp_steps.
  clear Ea Hb. set (b1 := with_offset_len _ _ _) in *. clearbody b1.
  apply (wp_read_u8 h p b1 2 _ _ H1); [done|]. clear b1 H1. intros b2 H2. wp_steps. change (Z.land 2 KEY_METHOD_MASK =? 2) with true. wp_steps.
  apply (wp_source_read h p b2 (key_src (primary m i)) (server (m_opt m)) k _ _ H2 Hsrc Hpre). intros b3 H3. wp_steps.
  set (src := set_source _ _ _) in *.
  assert (server (m_opt m) = false -> source_ok (client (key_src (primary m i))) -> sources_ok src) as Hsok by by unfold src; intros ->.
  clearbody src. set (m1 := set_primary m i _).
  apply (wp_read_string h p b3 _ TLS_OPTIONS_LEN _ _ H3 Hopt); [done|]. clear b2 b3 H2 H3. intros b4 H4. wp_steps.
  set (m2 := set_primary m1 i _). rewrite <- (app_nil_r (user_pass_bytes _)) in H4.
  eapply wp_mono; [apply (wp_authenticate_peer _ (session m2 i) b4 h p peer [])|]; [by destruct i|done|].
  intros [r b5] h' (-> & (ok & s' & Er & Hs & Hk) & bs5 & H5). cbn [fst snd] in Er, H5. subst r. wp_steps.
  eapply wp_mono; [apply (wp_authorize fill dirsep m2 i ok s' h)|]; [by destruct i|done|done|].
  intros m3 h' (-> & Eo & Ek & Er & Ew & Ei). wp_steps.
  eapply wp_mono; [apply (wp_buf_clear h p b5 bs5 H5)|]. intros b6 h6 (H6 & K6). wp_steps.
  assert (key_src (primary m2 i) = src /\ session_id_remote (primary m2 i) = session_id_remote (primary m i) /\
    plaintext_write_buf (primary m2 i) = plaintext_write_buf (primary m i) /\ s_session_id (session m2 i) = s_session_id (session m i) /\
    m_opt m2 = m_opt m) as (Ek2 & Er2 & Ew2 & Ei2 & Eo2) by by destruct i.
  rewrite Ek2 in Ek. rewrite Er2 in Er. rewrite Ew2 in Ew. rewrite Ei2 in Ei. rewrite Eo2 in Eo.
  set (m4 := set_primary m3 i _).
  assert (m_opt m4 = m_opt m /\ key_src (primary m4 i) = src /\ session_id_remote (primary m4 i) = session_id_remote (primary m i) /\
    plaintext_write_buf (primary m4 i) = plaintext_write_buf (primary m i) /\ s_session_id (session m4 i) = s_session_id (session m i))
    as (Fo & Fk & Fr & Fw & Fi).
  { unfold m4. split; [by destruct i|]. rewrite primary_set, session_set_primary. by split_and!. }
  clearbody m4. destruct (server (m_opt m)) eqn:Es; wp_steps; [done|].
  destruct (Hcl eq_refl) as (Hc & Hsc & Hid1 & Hid2). rewrite Fk, Fr, Fi.
  eapply wp_mono; [apply wp_derive; [done|by apply Hsok|done|done]|]. intros o h7 [K7 Hd].
  assert (keeps [blk p] h h7) as K by (eapply keeps_trans; [exact K6|eapply keeps_weaken; [apply list_subseteq_nil|exact K7]]).
  destruct o as [key|]; wp_steps.
  - split; [done|]. split; [by rewrite <- Fo; destruct i|]. exists (Some key). split; [done|]. split; [done|]. cbn [snd]. by rewrite primary_set.
  - assert (buf_rep h7 p b6 []) as H7 by (eapply buf_rep_keeps; [exact K7|apply not_elem_of_nil|done]).
    eapply wp_mono; [apply (wp_buf_clear h7 p b6 [] H7)|]. intros b8 h8 (_ & K8). wp_steps.
    split; [by eapply keeps_trans|]. split; [by rewrite <- Fo; destruct i|]. by exists None.
Qed.

(** The bytes that the TLS channel delivered are in plaintext_read_buf. *)
Definition received (m : multi_t) (i : tm_index) (buf : buffer) : multi_t :=
  set_primary m i (ks_set_read_buf (primary m i) buf).

(** A client's session and the server's session that belongs to it. *)
Record exchange_ok (mc : multi_t) (i : tm_index) (ms : multi_t) (j : tm_index) : Prop := {
  eo_client : server (m_opt mc) = false;
  eo_server : server (m_opt ms) = true;
  eo_kt : opt_key_type (m_opt ms) = opt_key_type (m_opt mc);
  eo_crypto : crypto_ok (opt_key_type (m_opt mc));
  eo_sid_c : session_id_remote (primary mc i) = s_session_id (session ms j);
  eo_sid_s : session_id_remote (primary ms j) = s_session_id (session mc i);
  eo_len_c : Zlen (s_session_id (session mc i)) = 8;
  eo_len_s : Zlen (s_session_id (session ms j)) = 8;
  eo_options_c : string_fits (local_options (opt_auth (m_opt mc))) TLS_OPTIONS_LEN;
  eo_options_s : string_fits (local_options (opt_auth (m_opt ms))) TLS_OPTIONS_LEN;
  eo_auth_c : may_authenticate (opt_auth (m_opt ms)) (session ms j) (opt_auth (m_opt mc));
  eo_auth_s : may_authenticate (opt_auth (m_opt mc)) (session mc i) (opt_auth (m_opt ms));
  eo_ccd_c : client_config_dir_exclusive (opt_auth (m_opt mc)) = None;
  eo_ccd_s : client_config_dir_exclusive (opt_auth (m_opt ms)) = None
}.

Lemma received_facts m i buf : m_opt (received m i buf) = m_opt m /\ plaintext_read_buf (primary (received m i buf) i) = buf /\
  key_src (primary (received m i buf) i) = key_src (primary m i) /\
  session_id_remote (primary (received m i buf) i) = session_id_remote (primary m i) /\
  plaintext_write_buf (primary (received m i buf) i) = plaintext_write_buf (primary m i) /\
  s_session_id (session (received m i buf) i) = s_session_id (session m i) /\
  verified (session (received m i buf) i) = verified (session m i).
Proof. by destruct i. Qed.

(** The server's half: it reads the message of a client and writes its own. *)
Lemma wp_server_read fill dirsep mc i ms j own h p buf :
  exchange_ok mc i ms j -> buf_rep h p buf (km2_message false (opt_auth (m_opt mc)) own) -> source_ok own -> key_method (m_opt ms) = 2 ->
  wp (key_method_2_read fill dirsep (received ms j buf) j) (fun r h' => let m' := snd r in fst r = true /\ keeps [blk p] h h' /\
    m_opt m' = m_opt ms /\ key_src (primary m' j) = KeySource2 own (server_src (key_src (primary ms j))) /\
    session_id_remote (primary m' j) = s_session_id (session mc i) /\ s_session_id (session m' j) = s_session_id (session ms j) /\
    plaintext_write_buf (primary m' j) = plaintext_write_buf (primary ms j)) h.
Proof.
  intros [] Hb Hsrc Hkm. destruct (received_facts ms j buf) as (Fo & Fb & Fk & Fr & Fw & Fi & Fv).
  eapply wp_mono; [apply (wp_km2_read fill dirsep (received ms j buf) j (opt_auth (m_opt mc)) own h p)|].
  - split; try rewrite Fo; try rewrite Fb; rewrite ?eo_server0; try done. unfold may_authenticate in *. by rewrite Fv.
  - by rewrite Fo, eo_server0.
  - intros [ok m'] h' (K & Eo & Hr). rewrite Fo, eo_server0 in Hr. destruct Hr as (Hok & Ek & Er & Ew & Ei). cbn [fst snd] in *.
    rewrite Fk in Ek. rewrite Fr in Er. rewrite Fw in Ew. rewrite Fi in Ei. rewrite Fo in Eo. split_and!; try done. congruence.
Qed.

Definition keys_fit (kc ks : key_ctx_bi) : Prop :=
  inverse_ctx (k_encrypt kc) (k_decrypt ks) /\ inverse_ctx (k_encrypt ks) (k_decrypt kc).

(** The client's second half: it succeeds if the server's did. *)
Lemma wp_client_read fill dirsep mc i ms j own h p buf mc1 os :
  exchange_ok mc i ms j -> buf_rep h p buf (km2_message true (opt_auth (m_opt ms)) own) -> source_ok own ->
  pre_master own = replicate 48 0 -> key_method (m_opt mc) = 2 ->
  source_ok (client (key_src (primary mc1 i))) -> m_opt mc1 = m_opt mc -> s_session_id (session mc1 i) = s_session_id (session mc i) ->
  session_id_remote (primary mc1 i) = session_id_remote (primary mc i) -> verified (session mc1 i) = verified (session mc i) ->
  derived (opt_key_type (m_opt mc)) (KeySource2 (client (key_src (primary mc1 i))) own) (s_session_id (session mc i)) (s_session_id (session ms j)) true os ->
  wp (key_method_2_read fill dirsep (received mc1 i buf) i) (fun r _ =>
    match os with Some os => fst r = true /\ keys_fit (Tls.key (primary (snd r) i)) os | None => fst r = false end) h.
Proof.
  intros [] Hb Hsrc Hpre Hkm Hcl Eo1 Ei1 Er1 Ev1 Hd. destruct (received_facts mc1 i buf) as (Fo & Fb & Fk & Fr & Fw & Fi & Fv).
  rewrite Eo1 in Fo. rewrite Er1 in Fr. rewrite Ei1 in Fi. rewrite Ev1 in Fv.
  eapply wp_mono; [apply (wp_km2_read fill dirsep (received mc1 i buf) i (opt_auth (m_opt ms)) own h p)|].
  - split; try rewrite Fo; try rewrite Fb; rewrite ?eo_client0; try done. unfold may_authenticate in *. by rewrite Fv.
  - intros _. rewrite Fo, Fk, Fr, Fi, eo_sid_c0. done.
  - intros [ok m'] h' (_ & _ & Hr). rewrite Fo, eo_client0, Fk, Fi, Fr, eo_sid_c0 in Hr. destruct Hr as (oc & Hoc & Hr). cbn [fst snd] in *.
    pose proof (derived_fit _ _ _ _ _ _ (co_kt _ eo_crypto0) Hoc Hd) as Hfit. destruct oc as [kc|], os as [os|]; try done.
    destruct Hr as [-> ->]. by split.
Qed.
End Exchange.

(** The keys of an exchange, which come from the two ends' random numbers and session ids, are good
    if fixup_key and check_key accept both: none of them is zero, and no part is a weak DES key. *)
Definition good_keys `{OpenSSL} (kt : key_type) (src : key_source2) (csid ssid : list byte) : bool :=
  match fix_keys (expanded src csid ssid) kt with Ok (Some _) => true | _ => false end.

Lemma derived_good `{OpenSSL} kt src csid ssid server o : derived kt src csid ssid server o ->
  good_keys kt src csid ssid = match o with Some _ => true | None => false end.
Proof.
  intros (keys & E & Hk). unfold good_keys. rewrite E. destruct keys as [keys|]; [|by subst]. by destruct Hk as (? & ? & ? & ? & _ & -> & _).
Qed.

(** C22: key method 2 gives both sides matching keys.  A client writes its message; a server
    that receives those bytes reads them without an error and, if it authenticates the
    client, writes its own message, and a client that receives these bytes reads them. Both ends
    succeed in their second call exactly if the keys that the random numbers of the two and their
    session ids give are good, and then each side's encryption key fits the other side's
    decryption key. *)
Theorem key_method_2_agrees {tls_obj : Type} `{OpenSSL} `{Env} fill dirsep (mc ms : tls_multi (tls_obj := tls_obj)) i j rc rs hc pc :
  exchange_ok mc i ms j -> km2_writer mc i rc hc pc ->
  let good := good_keys (opt_key_type (m_opt mc)) (KeySource2 (drawn_source false rc) (drawn_source true rs))
                (s_session_id (session mc i)) (s_session_id (session ms j)) in
  wp (key_method_2_write fill mc i rc) (fun '(ok, mc, _) hc => ok = true /\ exists msg,
    buf_rep hc pc (plaintext_write_buf (primary mc i)) msg /\
    forall hs ps buf qs, buf_rep hs ps buf msg -> km2_writer ms j rs hs qs -> blk qs <> blk ps ->
    wp (key_method_2_read fill dirsep (received ms j buf) j) (fun '(ok, ms) hs => ok = true /\
      (authenticated (primary ms j) = true ->
       wp (key_method_2_write fill ms j rs) (fun '(ok, ms, _) hs => ok = good /\ exists msg,
         buf_rep hs qs (plaintext_write_buf (primary ms j)) msg /\
         forall hc pc buf, buf_rep hc pc buf msg ->
         wp (key_method_2_read fill dirsep (received mc i buf) i) (fun '(ok, mc) _ => ok = good /\
           (good = true -> keys_fit (Tls.key (primary mc i)) (Tls.key (primary ms j)))) hc) hs)) hs) hc.
Proof.
  intros Hx Hw good. pose proof (eo_client _ _ _ _ Hx) as Ec. eapply wp_mono; [apply (wp_km2_write fill mc i rc hc pc Hw)|]; [by rewrite Ec|].
  intros [[ok mc1] rand1] hc1 (buf1 & rand' & Hb1 & _ & Hf). cbn zeta in Hf. rewrite Ec in Hf, Hb1.
  injection Hf as -> -> _. split; [done|]. rewrite primary_set. eexists. split; [exact Hb1|].
  intros hs ps buf qs Hbuf Hws Hne. pose proof (drawn_source_ok false rc (kw_rand _ _ _ _ _ Hw)) as Hown.
  eapply wp_mono; [by apply (wp_server_read fill dirsep mc i ms j _ hs ps buf Hx Hbuf Hown); destruct Hws|].
  intros [ok ms1] hs1 (Hok & K1 & Eo & Ek & Er & Ei & Ew). cbn [fst snd] in *. subst ok. split; [done|]. intros Hauth.
  assert (km2_writer ms1 j rs hs1 qs) as Hws1.
  { destruct Hws as [? [bs Hbs] ? ? ? ?]. split; rewrite ?Eo, ?Ew; try done. exists bs.
    eapply buf_rep_keeps; [exact K1| |exact Hbs]. by rewrite list_elem_of_singleton. }
  pose proof Hx as Hx'. destruct Hx'. eapply wp_mono; [apply (wp_km2_write fill ms1 j rs hs1 qs Hws1)|].
  { intros _ _. by rewrite Eo, Ek, Er, Ei, eo_kt0. }
  intros [[ok ms2] rand2] hs2 (buf2 & rand2' & Hb2 & _ & Hf). cbn zeta in Hf. rewrite Eo, eo_server0, Hauth in Hf.
  destruct Hf as (o & Hd & Ho). rewrite Eo, eo_server0 in Hb2.
  rewrite Er, Ei, Ek, eo_kt0 in Hd. pose proof (derived_good _ _ _ _ _ _ Hd) as Hgood. cbn [set_source client] in Hgood. fold good in Hgood.
  assert (ok = good /\ plaintext_write_buf (primary ms2 j) = buf2 /\ match o with Some k => Tls.key (primary ms2 j) = k | None => True end) as (-> & -> & Hkey).
  { rewrite Hgood. destruct o; injection Ho as -> -> _; by rewrite primary_set. }
  split; [done|]. eexists. split; [exact Hb2|]. intros hc2 pc2 b2 Hbuf2. set (mc1 := set_primary mc i _).
  assert (client (key_src (primary mc1 i)) = drawn_source false rc) as Ecl by (unfold mc1; by rewrite primary_set).
  eapply wp_mono; [apply (wp_client_read fill dirsep mc i ms j (drawn_source true rs) hc2 pc2 b2 mc1 o)|]; try done; try (by destruct i).
  1: by apply drawn_source_ok, Hws. 1: by apply Hw.
  intros [ok mc2] hc3 Hfit. rewrite Hgood. destruct o as [ko|]; cbn [fst snd] in Hfit; [|by split]. rewrite Hkey. by destruct Hfit.
Qed.

(** ** Witness *)

(** A toy OpenSSL whose two digests differ, so that the PRF gives keys that are not zero. *)
Definition kx_md : evp_md :=
  EvpMd 4 (fun k m => be_enc 4 (foldr (fun c a => (31 * a + c) mod 65521) 7 (k ++ m))) (fun m => be_enc 4 (be_dec m)).
#[local] Instance kx_openssl : OpenSSL := {|
  DES_is_weak_key := fun _ => false;
  DES_check_key_parity := fun _ => true;
  DES_set_odd_parity := fun k => k;
  EVP_get_cipherbyname := fun _ => None;
  EVP_get_digestbyname := fun _ => None;
  cipher_ok := fun _ => true;
  EVP_md5 := ex_md;
  EVP_sha1 := kx_md
|}.

Lemma kx_md_ok : md_ok kx_md.
Proof. split; [by vm_compute|]. intros k m. split; [apply Zlen_be_enc|apply be_enc_bytes]. Qed.
#[local] Existing Instance ex_env.

Definition ex_mc := ex_multi false (replicate 8 1) (replicate 8 2) S_START.
Definition ex_ms := ex_multi true (replicate 8 2) (replicate 8 1) S_START.

Lemma ex_exchange : exchange_ok ex_mc TM_ACTIVE ex_ms TM_ACTIVE.
Proof.
  split; try done.
  - split; [apply ex_md_ok|apply kx_md_ok|done|apply ex_kt_ok].
  - split; [by repeat constructor|by vm_compute].
  - split; [by repeat constructor|by vm_compute].
  - exists (text "joe"), (text "secret"). split; [done|]. split; (split; [by repeat constructor|by vm_compute]).
Qed.

Lemma ex_write_buf (srv : bool) sid rsid : buf_rep ex_heap (Ptr 2 0) (plaintext_write_buf (primary (ex_multi srv sid rsid S_START) TM_ACTIVE)) [].
Proof. by split. Qed.

Lemma ex_writer (srv : bool) sid rsid : km2_writer (ex_multi srv sid rsid S_START) TM_ACTIVE ex_rand ex_heap (Ptr 2 0).
Proof.
  destruct srv; (split; [done|eexists; apply ex_write_buf|by vm_compute|by vm_compute| |by vm_compute]); intros u w [= <- <-]; by vm_compute.
Qed.

Lemma key_method_2_agrees_witness :
  good_keys ex_kt (KeySource2 (drawn_source false ex_rand) (drawn_source true ex_rand)) (replicate 8 1) (replicate 8 2) = true /\
  wp (key_method_2_write (fun _ => 7) ex_mc TM_ACTIVE ex_rand) (fun '(ok, mc, _) hc => ok = true /\ exists msg,
    buf_rep hc (Ptr 2 0) (plaintext_write_buf (primary mc TM_ACTIVE)) msg /\
    forall hs ps buf qs, buf_rep hs ps buf msg -> km2_writer ex_ms TM_ACTIVE ex_rand hs qs -> blk qs <> blk ps ->
    wp (key_method_2_read (fun _ => 7) 47 (received ex_ms TM_ACTIVE buf) TM_ACTIVE) (fun '(ok, ms) hs => ok = true /\
      (authenticated (primary ms TM_ACTIVE) = true ->
       wp (key_method_2_write (fun _ => 7) ms TM_ACTIVE ex_rand) (fun '(ok, ms, _) hs => ok = true /\ exists msg,
         buf_rep hs qs (plaintext_write_buf (primary ms TM_ACTIVE)) msg /\
         forall hc pc buf, buf_rep hc pc buf msg ->
         wp (key_method_2_read (fun _ => 7) 47 (received mc TM_ACTIVE buf) TM_ACTIVE) (fun '(ok, mc) _ => ok = true /\
           (true = true -> keys_fit (Tls.key (primary mc TM_ACTIVE)) (Tls.key (primary ms TM_ACTIVE)))) hc) hs)) hs) ex_heap.
Proof.
  assert (good_keys ex_kt (KeySource2 (drawn_source false ex_rand) (drawn_source true ex_rand)) (replicate 8 1) (replicate 8 2) = true) as Hg by by vm_compute.
  split; [exact Hg|].
  pose proof (key_method_2_agrees (fun _ => 7) 47 ex_mc ex_ms TM_ACTIVE TM_ACTIVE ex_rand ex_rand ex_heap (Ptr 2 0) ex_exchange (ex_writer _ _ _)) as Hk.
  cbv zeta in Hk. change (opt_key_type (m_opt ex_mc)) with ex_kt in Hk. change (s_session_id (session ex_mc TM_ACTIVE)) with (replicate 8 1) in Hk.
  change (s_session_id (session ex_ms TM_ACTIVE)) with (replicate 8 2) in Hk. rewrite Hg in Hk. exact Hk.
Defined.
