(* ===== verification/TlsProc.v ===== *)
(** tls_process and tls_multi_process (src/ssl.c): the handshake of a session, the exchange
    of its keys and the traffic of its control channel.

    The memory BIOs and the SSL BIO of a key state are a parameter (class [Bio]): reading
    from and writing to the SSL BIO may ask verify_callback about certificates, which works
    on the session that SSL_set_ex_data stored.  [clock k] is what the clock shows at the
    k-th call of update_time. *)

From S2P Require Import Prelude Buffer Integer PacketId Mtu Crypto Reliable Pool ControlAuth Text Key Prf Own RelOwn Tls KeyMethod.

(** ** OpenSSL's BIOs *)

(** BIO_read and BIO_write: a negative result, with or without BIO_should_retry, or a value. *)
Inductive io_ret (A : Type) := IoRetry | IoError | IoOk (a : A).
Arguments IoRetry {A}.
Arguments IoError {A}.
Arguments IoOk {A} a.

(** A call that may come back with questions about certificates first. *)
Inductive ssl_io (tls_obj A : Type) :=
| IoDone (r : io_ret A) (obj : tls_obj)
| IoVerify (preverify_ok : bool) (cert : x509) (k : bool -> ssl_io tls_obj A).
Arguments IoDone {tls_obj A} r obj.
Arguments IoVerify {tls_obj A} preverify_ok cert k.

Class Bio (tls_obj : Type) := {
  SSL_new : bool -> option tls_obj;
  ct_in_write : tls_obj -> list byte -> io_ret Z * tls_obj;
  ct_out_read : tls_obj -> Z -> io_ret (list byte) * tls_obj;
  ssl_write : tls_obj -> list byte -> ssl_io tls_obj Z;
  ssl_read : tls_obj -> Z -> ssl_io tls_obj (list byte)
}.

(** What the options and the outside give: SHA1 makes nonces, [actual] is
    to_link_socket_info->lsa->actual. *)
Record surroundings := Surroundings {
  sha1 : list byte -> list byte;
  garbage : Z -> Z;
  sep : byte; (* OS_SPECIFIC_DIRSEP *)
  actual : sockaddr_in
}.

Section TlsProc.
Context {tls_obj : Type} `{OpenSSL} `{Env} `{Bio tls_obj}.
#[local] Abbreviation ks_t := (key_state (tls_obj := tls_obj)).
#[local] Abbreviation session_t := (tls_session (tls_obj := tls_obj)).
#[local] Abbreviation multi_t := (tls_multi (tls_obj := tls_obj)).

(** verify_callback uses the options of the session: a cleared session has none. *)
Fixpoint run_ssl_io {A} (opt : auth_options) (s : session_t) (io : ssl_io tls_obj A) : result (io_ret A * tls_obj * session_t) :=
  match io with
  | IoDone r obj => Ok (r, obj, s)
  | IoVerify preverify_ok cert k =>
      _ ← assert_ (session_id_defined (s_session_id s));
      r ← verify_callback opt s preverify_ok cert;
      let '(ok, s) := (r : bool * session_t) in
      run_ssl_io opt s (k ok)
  end.

(** ** bio_write, bio_read *)

Definition bio_write_status (size : Z) (r : io_ret Z) : Z :=
  match r with IoRetry => 0 | IoError => -1 | IoOk i => if i =? size then 1 else -1 end.

(** bio_write_post erases what was written. *)
Definition bio_write_post (status : Z) (buf : buffer) : M buffer :=
  if status =? 1 then
    p ← deref (BPTR buf);
    _ ← store p (replicate (Z.to_nat (b_len buf)) 0);
    mret (with_len buf 0)
  else mret buf.

(** BIO_read returns at most as many bytes as it is asked for. *)
Definition bio_read_post (buf : buffer) (len : Z) (r : io_ret (list byte)) : M (Z * buffer) :=
  match r with
  | IoRetry => mret (0, buf)
  | IoError => mret (-1, with_len buf 0)
  | IoOk bs =>
      let bs := take (Z.to_nat len) bs in
      if Zlen bs =? 0 then mret (0, with_len buf 0)
      else
        p ← deref (BPTR buf);
        _ ← store p bs;
        mret (1, with_len buf (Zlen bs))
  end.
Definition bio_read_len (buf : buffer) (maxlen : Z) : Z :=
  let len := buf_forward_capacity buf in if maxlen <? len then maxlen else len.

(** The SSL object of a key state and its run on behalf of session [ssl_session]. *)
Definition run_on {A} (m : multi_t) (i : tm_index) (io : tls_obj -> ssl_io tls_obj A) : M (io_ret A * multi_t) :=
  let ks := primary m i in
  obj ← lift (from_opt (ssl ks));
  let at_ := ssl_session ks in
  '(r, obj, s) ← lift (run_ssl_io (opt_auth (m_opt m)) (session m at_) (io obj));
  let m := set_session m at_ s in
  mret (r, set_primary m i (ks_set_ssl (primary m i) obj)).

Definition key_state_write_plaintext (m : multi_t) (i : tm_index) : M (Z * multi_t) :=
  let buf := plaintext_write_buf (primary m i) in
  _ ← ASSERT (b_len buf >=? 0);
  if negb (b_len buf =? 0) then
    p ← deref (BPTR buf);
    data ← load p (b_len buf);
    '(r, m) ← run_on m i (fun obj => ssl_write obj data);
    let status := bio_write_status (b_len buf) r in
    buf ← bio_write_post status buf;
    mret (status, set_primary m i (ks_set_write_buf (primary m i) buf))
  else mret (0, m).

Definition key_state_write_plaintext_const (m : multi_t) (i : tm_index) (data : list byte) : M (Z * multi_t) :=
  if negb (Zlen data =? 0) then
    '(r, m) ← run_on m i (fun obj => ssl_write obj data);
    mret (bio_write_status (Zlen data) r, m)
  else mret (0, m).

Definition key_state_read_plaintext (m : multi_t) (i : tm_index) (buf : buffer) (maxlen : Z) : M (Z * multi_t) :=
  _ ← ASSERT (b_len buf >=? 0);
  if negb (b_len buf =? 0) then mret (0, m)
  else
    let len := bio_read_len buf maxlen in
    '(r, m) ← run_on m i (fun obj => ssl_read obj len);
    '(status, buf) ← bio_read_post buf len r;
    mret (status, set_primary m i (ks_set_read_buf (primary m i) buf)).

Definition key_state_write_ciphertext (m : multi_t) (i : tm_index) (buf : buffer) : M (Z * buffer * multi_t) :=
  _ ← ASSERT (b_len buf >=? 0);
  if negb (b_len buf =? 0) then
    p ← deref (BPTR buf);
    data ← load p (b_len buf);
    obj ← lift (from_opt (ssl (primary m i)));
    let '(r, obj) := ct_in_write obj data in
    let status := bio_write_status (b_len buf) r in
    buf ← bio_write_post status buf;
    mret (status, buf, set_primary m i (ks_set_ssl (primary m i) obj))
  else mret (0, buf, m).

Definition key_state_read_ciphertext (m : multi_t) (i : tm_index) (buf : buffer) (maxlen : Z) : M (Z * buffer * multi_t) :=
  _ ← ASSERT (b_len buf >=? 0);
  if negb (b_len buf =? 0) then mret (0, buf, m)
  else
    let len := bio_read_len buf maxlen in
    obj ← lift (from_opt (ssl (primary m i)));
    let '(r, obj) := ct_out_read obj len in
    '(status, buf) ← bio_read_post buf len r;
    mret (status, buf, set_primary m i (ks_set_ssl (primary m i) obj)).

(** ** One round of tls_process *)

(** The local variables of tls_process and what it draws on. *)
Record proc := Proc {
  p_multi : multi_t;
  to_link : buffer;
  to_link_addr : sockaddr_in;
  tls_active : bool; (* active *)
  state_change : bool;
  rand : list byte;
  nonces : list byte;
  outgoing_addr : option sockaddr_in (* the last call of link_socket_set_outgoing_addr *)
}.
Definition set_multi (p : proc) (m : multi_t) : proc :=
  Proc m (to_link p) (to_link_addr p) (tls_active p) (state_change p) (rand p) (nonces p) (outgoing_addr p).
Definition set_change (p : proc) (v : bool) : proc :=
  Proc (p_multi p) (to_link p) (to_link_addr p) (tls_active p) v (rand p) (nonces p) (outgoing_addr p).
Definition set_rand (p : proc) (v : list byte) : proc :=
  Proc (p_multi p) (to_link p) (to_link_addr p) (tls_active p) (state_change p) v (nonces p) (outgoing_addr p).
Definition set_outgoing (p : proc) (a : sockaddr_in) : proc :=
  Proc (p_multi p) (to_link p) (to_link_addr p) (tls_active p) (state_change p) (rand p) (nonces p) (Some a).

(** Assignments to the primary key of session [i]. *)
Definition upd (p : proc) (i : tm_index) (f : ks_t -> ks_t) : proc :=
  set_multi p (set_primary (p_multi p) i (f (primary (p_multi p) i))).
Definition the_ks (p : proc) (i : tm_index) : ks_t := primary (p_multi p) i.

(** What a part of the round does: go on, leave the loop, or goto error. *)
Inductive flow := Next (p : proc) | Break (p : proc) | Err (p : proc).
Definition chain (r : M flow) (f : proc -> M flow) : M flow :=
  x ← r;
  match x with Next p => f p | _ => mret x end.

Definition FULL_SYNC (ks : ks_t) : result bool :=
  s ← from_opt (send_reliable ks);
  a ← from_opt (rec_ack ks);
  Ok (reliable_empty s && reliable_ack_empty a).

(** Initial handshake *)
Definition initial_handshake (now : Z) (i : tm_index) (p : proc) : M flow :=
  let ks := the_ks p i in
  if state ks =? S_INITIAL then
    send ← lift (from_opt (send_reliable ks));
    '(buf, send) ← lift (reliable_get_buf_output_sequenced send);
    match buf with
    | Some buf =>
        send ← reliable_mark_active_outgoing send buf (initial_opcode ks);
        let p := upd p i (fun ks => ks_set_times (ks_set_send ks send) (established ks) (now + handshake_window (m_opt (p_multi p)))) in
        mret (Next (set_change (upd p i (fun ks => ks_set_state ks S_PRE_START)) true))
    | None => mret (Next (upd p i (fun ks => ks_set_send ks send)))
    end
  else mret (Next p).

(** Are we timed out on receive? *)
Definition receive_timeout (now : Z) (i : tm_index) (p : proc) : M flow :=
  let ks := the_ks p i in
  if now >=? must_negotiate ks then
    if state ks <? S_ACTIVE then mret (Err p)
    else mret (Next (upd p i (fun ks => ks_set_times (ks_set_state ks S_NORMAL) (established ks) 0)))
  else mret (Next p).

(** Wait for Initial Handshake ACK *)
Definition wait_initial_ack (i : tm_index) (p : proc) : M flow :=
  let ks := the_ks p i in
  if state ks =? S_PRE_START then
    sync ← lift (FULL_SYNC ks);
    if sync : bool then mret (Next (set_change (upd p i (fun ks => ks_set_state ks S_START)) true))
    else mret (Next p)
  else mret (Next p).

(** Wait for ACK *)
Definition wait_ack (now : Z) (i : tm_index) (p : proc) : M flow :=
  let ks := the_ks p i in
  let srv := server (m_opt (p_multi p)) in
  if (state ks =? S_GOT_KEY) && negb srv || (state ks =? S_SENT_KEY) && srv then
    sync ← lift (FULL_SYNC ks);
    if sync : bool then
      let p := upd p i (fun ks => ks_set_state (ks_set_times ks now (must_negotiate ks)) S_ACTIVE) in
      mret (Next (set_outgoing (set_change p true) (remote_addr (the_ks p i))))
    else mret (Next p)
  else mret (Next p).

(** write_control_auth (session, ks, buf, to_link_addr, ...); *to_link = *buf; active = true *)
Definition send_control (env : surroundings) (now : Z) (i : tm_index) (p : proc) (buf : buffer) (op max_ack : Z) (prepend_ack : bool)
  : M (buffer * proc) :=
  let m := p_multi p in
  let s := session m i in
  let ks := key_primary s in
  let ta := tls_auth s in
  ack ← lift (from_opt (rec_ack ks));
  '(rest, buf, ack, ta, addr) ← write_control_auth (sha1 env) now (garbage env) (nonces p) (s_session_id s)
      (Opt (o_key_ctx_bi ta) (o_packet_id ta) (pid_persist m) (o_flags ta))
      (key_id ks) (session_id_remote ks) (remote_addr ks) ack buf op max_ack prepend_ack;
  rec ← lift (from_opt (rec_reliable ks));
  let s := set_tls_auth s (Opt (o_key_ctx_bi ta) (o_packet_id ta) None (o_flags ta)) in
  let m := set_primary (set_session m i s) i (ks_set_rec ks rec ack) in
  mret (buf, Proc m buf addr true true (rand p) rest (outgoing_addr p)).

(** Reliable buffer to outgoing TCP/UDP *)
Definition send_packet (env : surroundings) (now : Z) (i : tm_index) (p : proc) : M flow :=
  let ks := the_ks p i in
  send ← lift (from_opt (send_reliable ks));
  if (b_len (to_link p) =? 0) && reliable_can_send now send then
    let '(r, send) := reliable_send now send in
    '(buf, op) ← lift (assert_some r);
    e ← lift (from_opt (array send !! buf));
    let p := upd p i (fun ks => ks_set_send ks send) in
    '(_, p) ← send_control env now i p (e_buf e) op CONTROL_SEND_ACK_MAX true;
    mret (Break p)
  else mret (Next p).

(** Write incoming ciphertext to TLS object *)
Definition ciphertext_in (i : tm_index) (p : proc) : M flow :=
  rec ← lift (from_opt (rec_reliable (the_ks p i)));
  match reliable_get_buf_sequenced rec with
  | None => mret (Next p)
  | Some j =>
      e ← lift (from_opt (array rec !! j));
      '(status, buf, m) ← (if negb (b_len (e_buf e) =? 0) then key_state_write_ciphertext (p_multi p) i (e_buf e)
                           else mret (1, e_buf e, p_multi p));
      let rec := set_entry rec j (set_entry_buf e buf) in
      let p := upd (set_multi p m) i (fun ks => ks_set_rec_reliable ks rec) in
      if status =? -1 then mret (Err p)
      else if status =? 1 then
        rec ← lift (reliable_mark_deleted rec j true);
        mret (Next (set_change (upd p i (fun ks => ks_set_rec_reliable ks rec)) true))
      else mret (Next p)
  end.

(** Read incoming plaintext from TLS object *)
Definition plaintext_in (i : tm_index) (p : proc) : M flow :=
  let buf := plaintext_read_buf (the_ks p i) in
  if b_len buf =? 0 then
    let '(ok, buf) := buf_init buf 0 in
    _ ← ASSERT ok;
    '(status, m) ← key_state_read_plaintext (p_multi (upd p i (fun ks => ks_set_read_buf ks buf))) i buf PLAINTEXT_BUFFER_SIZE;
    let p := set_multi p m in
    if status =? -1 then mret (Err p)
    else if status =? 1 then mret (Next (set_change p true))
    else mret (Next p)
  else mret (Next p).

(** Send Key *)
Definition send_key (env : surroundings) (i : tm_index) (p : proc) : M flow :=
  let ks := the_ks p i in
  let opt := m_opt (p_multi p) in
  if (b_len (plaintext_write_buf ks) =? 0) && ((state ks =? S_START) && negb (server opt) || (state ks =? S_GOT_KEY) && server opt) then
    '(ok, m, rnd) ← (if key_method opt =? 1 then key_method_1_write (p_multi p) i (rand p)
                     else if key_method opt =? 2 then key_method_2_write (garbage env) (p_multi p) i (rand p)
                     else lift AssertFail);
    let p := set_rand (set_multi p m) rnd in
    if negb ok then mret (Err p)
    else mret (Next (set_change (upd p i (fun ks => ks_set_state ks S_SENT_KEY)) true))
  else mret (Next p).

(** Receive Key *)
Definition receive_key (env : surroundings) (i : tm_index) (p : proc) : M flow :=
  let ks := the_ks p i in
  let opt := m_opt (p_multi p) in
  if negb (b_len (plaintext_read_buf ks) =? 0) && ((state ks =? S_SENT_KEY) && negb (server opt) || (state ks =? S_START) && server opt) then
    '(ok, m) ← (if key_method opt =? 1 then key_method_1_read (p_multi p) i
                else if key_method opt =? 2 then key_method_2_read (garbage env) (sep env) (p_multi p) i
                else lift AssertFail);
    let p := set_multi p m in
    if negb ok then mret (Err p)
    else mret (Next (set_change (upd p i (fun ks => ks_set_state ks S_GOT_KEY)) true))
  else mret (Next p).

(** Write outgoing plaintext to TLS object *)
Definition plaintext_out (i : tm_index) (p : proc) : M flow :=
  if negb (b_len (plaintext_write_buf (the_ks p i)) =? 0) then
    '(status, m) ← key_state_write_plaintext (p_multi p) i;
    let p := set_multi p m in
    if status =? -1 then mret (Err p)
    else if status =? 1 then mret (Next (set_change p true))
    else mret (Next p)
  else mret (Next p).

(** Outgoing Ciphertext to reliable buffer *)
Definition ciphertext_out (i : tm_index) (p : proc) : M flow :=
  if state (the_ks p i) >=? S_START then
    send ← lift (from_opt (send_reliable (the_ks p i)));
    '(buf, send) ← lift (reliable_get_buf_output_sequenced send);
    let p := upd p i (fun ks => ks_set_send ks send) in
    match buf with
    | None => mret (Next p)
    | Some j =>
        e ← lift (from_opt (array send !! j));
        '(status, b, m) ← key_state_read_ciphertext (p_multi p) i (e_buf e) (PAYLOAD_SIZE_DYNAMIC (opt_frame (m_opt (p_multi p))));
        let send := set_entry send j (set_entry_buf e b) in
        let p := upd (set_multi p m) i (fun ks => ks_set_send ks send) in
        if status =? -1 then mret (Err p)
        else if status =? 1 then
          send ← reliable_mark_active_outgoing send j P_CONTROL_V1;
          mret (Next (set_change (upd p i (fun ks => ks_set_send ks send)) true))
        else mret (Next p)
    end
  else mret (Next p).

Definition tls_round (env : surroundings) (now : Z) (i : tm_index) (p : proc) : M flow :=
  let r := initial_handshake now i (set_change p false) in
  let r := chain r (receive_timeout now i) in
  let r := chain r (wait_initial_ack i) in
  let r := chain r (wait_ack now i) in
  let r := chain r (send_packet env now i) in
  let r := chain r (ciphertext_in i) in
  let r := chain r (plaintext_in i) in
  let r := chain r (send_key env i) in
  let r := chain r (receive_key env i) in
  let r := chain r (plaintext_out i) in
  chain r (ciphertext_out i).

(** ** tls_process *)

(** do ... while (state_change): None is out of fuel; the number of the next time comes back. *)
Fixpoint tls_loop (fuel : nat) (env : surroundings) (clock : nat -> Z) (k : nat) (i : tm_index) (p : proc) : M (option flow * nat) :=
  match fuel with
  | O => mret (None, k)
  | S fuel =>
      r ← tls_round env (clock k) i p;
      match r with
      | Next p => if state_change p then tls_loop fuel env clock (S k) i p else mret (Some (Next p), S k)
      | r => mret (Some r, S k)
      end
  end.
Definition LOOP_MAX : nat := 40.

(** Should we trigger a soft reset? *)
Definition should_renegotiate (now : Z) (opt : tls_options) (ks : ks_t) : bool :=
  (state ks >=? S_ACTIVE) &&
  (negb (renegotiate_seconds opt =? 0) && (now >=? established ks + renegotiate_seconds opt)
   || negb (renegotiate_bytes opt =? 0) && (n_bytes ks >=? renegotiate_bytes opt)
   || negb (renegotiate_packets opt =? 0) && (n_packets ks >=? renegotiate_packets opt)
   || packet_id_close_to_wrapping (pid_send (ks_packet_id ks))).

(** When should we wake up again? *)
Definition next_wakeup (now : Z) (opt : tls_options) (ks : ks_t) (wakeup : Z) : result Z :=
  send ← from_opt (send_reliable ks);
  let wakeup :=
    if state ks >=? S_INITIAL then
      let w := compute_earliest_wakeup wakeup (reliable_send_timeout now send) in
      if negb (must_negotiate ks =? 0) then compute_earliest_wakeup w (i32 (must_negotiate ks - now)) else w
    else wakeup in
  Ok (if negb (established ks =? 0) && negb (renegotiate_seconds opt =? 0)
      then compute_earliest_wakeup wakeup (i32 (established ks + renegotiate_seconds opt - now)) else wakeup).

(** Send 1 or more ACKs *)
Definition send_acks (env : surroundings) (now : Z) (i : tm_index) (p : proc) : M proc :=
  ack ← lift (from_opt (rec_ack (the_ks p i)));
  if (b_len (to_link p) =? 0) && negb (reliable_ack_empty ack) then
    let '(ok, buf) := buf_init (ack_write_buf (the_ks p i)) (FRAME_HEADROOM (opt_frame (m_opt (p_multi p)))) in
    _ ← ASSERT ok;
    '(buf, p) ← send_control env now i p buf P_ACK_V1 RELIABLE_ACK_SIZE false;
    mret (upd p i (fun ks => ks_set_ack_buf ks buf))
  else mret p.

(** The result, *wakeup, the local state and the number of the next time; None is out of fuel. *)
Definition tls_process (fuel : nat) (env : surroundings) (clock : nat -> Z) (k : nat) (i : tm_index) (wakeup : Z) (p : proc)
  : M (option (bool * Z * proc * nat)) :=
  let ks := the_ks p i in
  let opt := m_opt (p_multi p) in
  _ ← ASSERT (negb (state ks =? S_UNDEF));
  _ ← ASSERT (negb (state ks =? S_ERROR));
  _ ← ASSERT (session_id_defined (s_session_id (session (p_multi p) i)));
  let p := Proc (p_multi p) (to_link p) (to_link_addr p) false false (rand p) (nonces p) (outgoing_addr p) in
  p ← (if should_renegotiate (clock k) opt ks then
         s ← key_state_soft_reset SSL_new (clock k) (garbage env) opt i (session (p_multi p) i);
         mret (set_multi p (set_session (p_multi p) i s))
       else mret p);
  '(die, wakeup) ← lift (lame_duck_must_die (clock k) (session (p_multi p) i) wakeup);
  p ← (if die : bool then
         lame ← key_state_free (key_lame (session (p_multi p) i)) true;
         mret (set_multi p (set_ks (p_multi p) (i, KS_LAME_DUCK) lame))
       else mret p);
  '(r, k) ← tls_loop fuel env clock (S k) i p;
  match r with
  | None => mret None
  | Some (Err p) => mret (Some (false, wakeup, upd p i (fun ks => ks_set_state ks S_ERROR), k))
  | Some (Next p) | Some (Break p) =>
      p ← send_acks env (clock k) i p;
      wakeup ← lift (next_wakeup (clock k) opt (the_ks p i) wakeup);
      mret (Some (if wakeup <=? 0 then (true, 1, p, k) else (tls_active p, wakeup, p, k)))
  end.

(** ** tls_multi_process *)

(** The variables of the loop over the sessions. *)
Record multi_proc := MultiProc {
  mp_proc : proc;
  mp_active : bool;
  mp_error : bool;
  mp_wakeup : Z;
  mp_time : nat;
  mp_draws : list session_id (* random session ids *)
}.

(** ++multi->n_soft_errors, and a new session: an unexpired lame duck key is preserved. *)
Definition session_error (env : surroundings) (i : tm_index) (x : multi_proc) : M multi_proc :=
  let m := incr_soft_errors (p_multi (mp_proc x)) in
  let active_ := match i with TM_ACTIVE => true | _ => false end in
  '(m, draws) ← (if active_ && (state (key_lame (session m i)) >=? S_ACTIVE) && negb (single_session (m_opt m))
                 then move_session SSL_new (garbage env) m TM_LAME_DUCK TM_ACTIVE true (mp_draws x)
                 else reset_session SSL_new (garbage env) m i (mp_draws x));
  mret (MultiProc (set_multi (mp_proc x) m) (mp_active x) (mp_error x || active_) (mp_wakeup x) (mp_time x) draws).

Definition process_session (fuel : nat) (env : surroundings) (clock : nat -> Z) (i : tm_index) (x : multi_proc) : M (option multi_proc) :=
  let p := mp_proc x in
  let p := if (match i with TM_ACTIVE => true | _ => false end) && (state (the_ks p i) =? S_INITIAL) && addr_defined (actual env)
           then upd p i (fun ks => ks_set_remote ks (session_id_remote ks) (actual env)) else p in
  let x := MultiProc p (mp_active x) (mp_error x) (mp_wakeup x) (mp_time x) (mp_draws x) in
  if (state (the_ks p i) >=? S_INITIAL) && addr_defined (remote_addr (the_ks p i)) then
    r ← tls_process fuel env clock (mp_time x) i (mp_wakeup x) p;
    match r with
    | None => mret None
    | Some (active, wakeup, p, k) =>
        let x := MultiProc p (mp_active x || active) (mp_error x) wakeup k (mp_draws x) in
        x ← (if state (the_ks p i) =? S_ERROR then session_error env i x else mret x);
        mret (Some x)
    end
  else mret (Some x).

Definition incr_hard_errors (m : multi_t) : multi_t :=
  Multi (m_opt m) (pid_persist m) (save_ks m) (n_sessions m) (i32 (n_hard_errors m + 1)) (n_soft_errors m) (locked_cn m)
    (s_active m) (s_untrusted m) (s_lame m).

(** What follows the loop. *)
Definition finish_multi (env : surroundings) (now : Z) (x : multi_proc) : M multi_proc :=
  let m := p_multi (mp_proc x) in
  '(die, wakeup) ← lift (lame_duck_must_die now (s_lame m) (mp_wakeup x));
  m ← (if die : bool then s ← tls_session_free (s_lame m) true; mret (set_session m TM_LAME_DUCK s) else mret m);
  '(m, draws) ← (if DECRYPT_KEY_ENABLED m (key_primary (s_untrusted m))
                 then move_session SSL_new (garbage env) m TM_ACTIVE TM_UNTRUSTED true (mp_draws x)
                 else mret (m, mp_draws x));
  let m := if mp_error x && negb (existsb (fun r => state (ks_at m r) >=? S_ACTIVE) key_scan) then incr_hard_errors m else m in
  mret (MultiProc (set_multi (mp_proc x) m) (mp_active x) (mp_error x) wakeup (mp_time x) draws).

(** [mp_error] and [mp_active] start as false; the result is [mp_active]. *)
Definition tls_multi_process (fuel : nat) (env : surroundings) (clock : nat -> Z) (x : multi_proc) : M (option multi_proc) :=
  let next (i : tm_index) (r : option multi_proc) : M (option multi_proc) :=
    match r with Some x => process_session fuel env clock i x | None => mret None end in
  r ← process_session fuel env clock TM_ACTIVE (MultiProc (mp_proc x) false false (mp_wakeup x) (mp_time x) (mp_draws x));
  r ← next TM_UNTRUSTED r;
  r ← next TM_LAME_DUCK r;
  match r with
  | Some x => x ← finish_multi env (clock (mp_time x)) x; mret (Some x)
  | None => mret None
  end.

(** ** tls_send_payload, tls_rec_payload *)

Definition tls_send_payload (m : multi_t) (data : list byte) : M (bool * multi_t) :=
  if state (key_primary (s_active m)) >=? S_ACTIVE then
    '(status, m) ← key_state_write_plaintext_const m TM_ACTIVE data;
    mret (status =? 1, m)
  else mret (false, m).

Definition tls_rec_payload (m : multi_t) (buf : buffer) : M (bool * multi_t * buffer) :=
  let ks := key_primary (s_active m) in
  if (state ks >=? S_ACTIVE) && negb (BLEN (plaintext_read_buf ks) =? 0) then
    '(ok, buf) ← buf_copy buf (plaintext_read_buf ks);
    mret (ok, set_primary m TM_ACTIVE (ks_set_read_buf ks (with_len (plaintext_read_buf ks) 0)), buf)
  else mret (false, m, buf).

Definition tls_test_payload_len (m : multi_t) : Z :=
  let ks := key_primary (s_active m) in
  if state ks >=? S_ACTIVE then BLEN (plaintext_read_buf ks) else 0.

(** ** The common name *)

Definition tls_set_common_name (m : multi_t) (cn : list byte) : multi_t :=
  set_session m TM_ACTIVE (set_common_name (s_active m) cn).

(** [None] when the caller asks for NULL, else "UNDEF". *)
Definition tls_common_name (m : multi_t) (null : bool) : option (list byte) :=
  match common_name (s_active m) with
  | Some cn => if negb (Zlen cn =? 0) then Some cn else if null then None else Some (text "UNDEF")
  | None => if null then None else Some (text "UNDEF")
  end.

Definition tls_lock_common_name (m : multi_t) : multi_t :=
  match common_name (s_active m), locked_cn m with
  | Some cn, None => Multi (m_opt m) (pid_persist m) (save_ks m) (n_sessions m) (n_hard_errors m) (n_soft_errors m) (Some cn)
                       (s_active m) (s_untrusted m) (s_lame m)
  | _, _ => m
  end.
End TlsProc.
