(* ===== verification/TlsLoop.v ===== *)
(** The loop of tls_process ends (src/ssl.c), whatever OpenSSL, the peer and the clock do:
    every round that asks for another one uses up something that the loop cannot make. *)

From S2P Require Import Prelude Buffer Integer PacketId Mtu Crypto Reliable Pool ControlAuth Text Key Prf Own RelOwn Tls KeyMethod TlsProc.

(** ** What the loop uses up *)

(** The order of the states: a server has S_GOT_KEY before S_SENT_KEY. *)
Definition rank (srv : bool) (st : Z) : Z :=
  if st <=? S_INITIAL then 0
  else if st =? S_PRE_START then 1
  else if st =? S_START then 2
  else if st =? S_SENT_KEY then (if srv then 4 else 3)
  else if st =? S_GOT_KEY then (if srv then 3 else 4)
  else if st =? S_ACTIVE then 5 else 6.

Definition count (f : reliable_entry -> bool) (r : option reliable) : Z :=
  match r with Some r => Zlen (base.filter (fun e => f e = true) (array r)) | None => 0 end.
Definition received_packets (r : option reliable) : Z := count active r.
Definition free_packets (r : option reliable) : Z := count (fun e => negb (active e)) r.
Arguments received_packets : simpl never.
Arguments free_packets : simpl never.
Arguments rank : simpl never.

Section Loop.
Context {tls_obj : Type} `{OpenSSL} `{Env} `{Bio tls_obj}.
#[local] Abbreviation ks_t := (key_state (tls_obj := tls_obj)).
#[local] Abbreviation session_t := (tls_session (tls_obj := tls_obj)).
#[local] Abbreviation multi_t := (tls_multi (tls_obj := tls_obj)).
#[local] Abbreviation proc_t := (proc (tls_obj := tls_obj)).
#[local] Abbreviation flow_t := (flow (tls_obj := tls_obj)).
Implicit Types (ks : ks_t) (s : session_t) (m : multi_t) (p : proc_t) (x : flow_t).

(** States to come, packets received, free send buffers, room for plaintext, plaintext to send. *)
Definition stock (srv : bool) ks : Z :=
  3 * (6 - rank srv (state ks)) + received_packets (rec_reliable ks) + free_packets (send_reliable ks)
  + (if b_len (plaintext_read_buf ks) =? 0 then 1 else 0) + (if b_len (plaintext_write_buf ks) =? 0 then 0 else 1).

Definition weight (i : tm_index) p : Z :=
  2 * stock (server (m_opt (p_multi p))) (the_ks p i) + (if state_change p then 1 else 0).

(** A part of the round does not make anything, and pays for asking for another round. *)
Definition uses (i : tm_index) p x : Prop :=
  match x with Next p' => m_opt (p_multi p') = m_opt (p_multi p) /\ weight i p' <= weight i p | _ => True end.

Lemma uses_refl i p : uses i p (Next p).
Proof. by split. Qed.

Lemma wlp_chain (r : M flow_t) f i p h :
  wlp r (fun x _ => uses i p x) h -> (forall p' h', wlp (f p') (fun x _ => uses i p' x) h') ->
  wlp (chain r f) (fun x _ => uses i p x) h.
Proof.
  intros Hr Hf. unfold chain. apply wlp_bind. eapply wlp_mono; [exact Hr|]. intros x h' Hx. destruct x as [p'| |]; [|done..].
  eapply wlp_mono; [apply Hf|]. intros [p''| |] h'' Hx'; [|done..]. destruct Hx as [E W], Hx' as [E' W']. split; [congruence|lia].
Qed.

(** Only the primary key of [i], and nothing of the local state but the flag, matters. *)
Lemma uses_upd i p (f : ks_t -> ks_t) (c : bool) p' :
  p' = set_change (upd p i f) c -> (c = true -> state_change p = true \/ stock (server (m_opt (p_multi p))) (f (the_ks p i)) < stock (server (m_opt (p_multi p))) (the_ks p i)) ->
  stock (server (m_opt (p_multi p))) (f (the_ks p i)) <= stock (server (m_opt (p_multi p))) (the_ks p i) -> uses i p (Next p').
Proof.
  intros -> Hc Hs. split; [by destruct i|]. unfold weight.
  assert (the_ks (set_change (upd p i f) c) i = f (the_ks p i)) as -> by by destruct i.
  assert (m_opt (p_multi (set_change (upd p i f) c)) = m_opt (p_multi p)) as -> by by destruct i.
  cbn [state_change set_change]. destruct c; [|destruct (state_change p); lia].
  destruct (Hc eq_refl) as [->|?]; [lia|]. destruct (state_change p); lia.
Qed.

Lemma upd_upd p i (f g : ks_t -> ks_t) : upd (upd p i f) i g = upd p i (fun ks => g (f ks)).
Proof. destruct p. unfold upd, the_ks, set_multi. cbn. by rewrite primary_set, set_primary_twice. Qed.

Lemma the_ks_upd p i (f : ks_t -> ks_t) : the_ks (upd p i f) i = f (the_ks p i).
Proof. unfold the_ks, upd. cbn. by rewrite primary_set. Qed.

(** ** Counting *)

Lemma count_insert f r j e e' : array r !! j = Some e ->
  count f (Some (set_entry r j e')) = count f (Some r) - (if f e then 1 else 0) + (if f e' then 1 else 0).
Proof.
  intros Hj. unfold count, set_entry, set_array. cbn [array]. rewrite <- (take_drop_middle _ _ _ Hj) at 2.
  rewrite insert_take_drop by by eapply lookup_lt_Some. rewrite !list.filter_app, !list.filter_cons, !Zlen_app.
  destruct (f e), (f e'); rewrite ?Zlen_cons; repeat case_decide; rewrite ?Zlen_cons; try done; lia.
Qed.
Lemma count_nonneg f r : 0 <= count f r.
Proof. destruct r; [apply Zlen_nonneg|done]. Qed.
Lemma count_le f r n : Zlen (array r) <= n -> count f (Some r) <= n.
Proof. intros Hn. unfold count, Zlen in *. pose proof (list.length_filter (fun e => f e = true) (array r)). lia. Qed.

Definition activity (f : reliable_entry -> bool) : Prop := forall e b, f (set_entry_buf e b) = f e.

Lemma get_buf_stock f r o r' : activity f -> reliable_get_buf_output_sequenced r = Ok (o, r') ->
  count f (Some r') = count f (Some r) /\ forall j, o = Some j -> exists e, array r' !! j = Some e /\ active e = false.
Proof.
  intros Hf E. assert (reliable_get_buf r = Ok (o, r') \/ (o, r') = (None, r)) as [E'|[= -> ->]]; [|clear E|by split].
  { unfold reliable_get_buf_output_sequenced in E. destruct (min_active (array r)); [|by left]. case_match; [by left|right; congruence]. }
  unfold reliable_get_buf in E'. destruct (find_entry _ r) as [j|] eqn:Ej; [|injection E' as <- <-; by split].
  apply find_entry_Some in Ej as (e & He & Ha). rewrite He in E'. destruct (buf_init (e_buf e) (rel_offset r)) as [ok b].
  destruct ok; [|done]. cbn [assert_ mbind result_bind] in E'. injection E' as <- <-. split.
  - rewrite (count_insert f r j e _ He), Hf. lia.
  - intros ? [= <-]. exists (set_entry_buf e b). split; [|by apply negb_true_iff in Ha].
    cbn. apply list_lookup_insert_eq. by eapply lookup_lt_Some.
Qed.

Lemma mark_outgoing_stock r j e op h : array r !! j = Some e -> active e = false ->
  wlp (reliable_mark_active_outgoing r j op) (fun r' _ => free_packets (Some r') = free_packets (Some r) - 1) h.
Proof.
  intros He Ha. unfold reliable_mark_active_outgoing. rewrite He. wlp_skip. case_match. wlp_skip. wlp_steps.
  unfold free_packets. rewrite (count_insert _ (Rel _ _ _ _) j e _ He). cbn. rewrite Ha. unfold count. cbn. lia.
Qed.

Lemma mark_deleted_stock r j e r' inc : array r !! j = Some e -> active e = true -> reliable_mark_deleted r j inc = Ok r' ->
  received_packets (Some r') = received_packets (Some r) - 1.
Proof.
  intros He Ha E. unfold reliable_mark_deleted in E. rewrite He in E. injection E as <-.
  assert (forall a b c, count active (Some (Rel a b c (array (set_entry r j (set_active e false))))) = count active (Some (set_entry r j (set_active e false)))) as Hc by done.
  unfold received_packets. destruct inc; rewrite ?Hc, (count_insert _ r j e _ He); cbn; rewrite Ha; lia.
Qed.

(** ** The parts of the round *)

Lemma stock_same srv ks ks' : state ks' = state ks -> rec_reliable ks' = rec_reliable ks ->
  free_packets (send_reliable ks') = free_packets (send_reliable ks) ->
  b_len (plaintext_read_buf ks') = b_len (plaintext_read_buf ks) -> b_len (plaintext_write_buf ks') = b_len (plaintext_write_buf ks) ->
  stock srv ks' = stock srv ks.
Proof. unfold stock. by intros -> -> -> -> ->. Qed.


(** The next state is worth more than what its part of the round makes. *)
Lemma rank_bounds srv st : 0 <= rank srv st <= 6.
Proof. unfold rank. repeat case_match; lia. Qed.

Lemma initial_handshake_uses now i p h : wlp (initial_handshake now i p) (fun x _ => uses i p x) h.
Proof.
  unfold initial_handshake. destruct (state (the_ks p i) =? S_INITIAL) eqn:Es; [|wlp_steps; apply uses_refl].
  wlp_from send Hs. wlp_from r Hr. destruct r as [o send'].
  destruct (get_buf_stock (fun e => negb (active e)) send o send') as [Hc Hj]; [done|done|].
  change (count _ (Some ?r)) with (free_packets (Some r)) in Hc. destruct o as [j|]; wlp_steps.
  - destruct (Hj j eq_refl) as (e & He & Ha). eapply wlp_mono; [by apply (mark_outgoing_stock send' j e)|]. intros send2 h2 Hf. wlp_steps.
    set (f := fun ks => ks_set_state (ks_set_times (ks_set_send ks send2) (established ks) (now + handshake_window (m_opt (p_multi p)))) S_PRE_START).
    assert (stock (server (m_opt (p_multi p))) (f (the_ks p i)) < stock (server (m_opt (p_multi p))) (the_ks p i)) as Hlt.
    { unfold stock, f. cbn. rewrite Hf, Hs, Hc. apply Z.eqb_eq in Es. rewrite Es. unfold rank. cbn. lia. }
    apply (uses_upd i p f true); [by rewrite (upd_upd p i)|by right|lia].
  - eapply (uses_upd i p _ (state_change p)); [by destruct p|by left|]. apply Z.eq_le_incl, stock_same; try done. by rewrite Hs.
Qed.

(** A part that only changes the state. *)
Lemma uses_state i p (f : ks_t -> ks_t) (c : bool) :
  (forall srv, stock srv (f (the_ks p i)) = 3 * (6 - rank srv (state (f (the_ks p i)))) + (stock srv (the_ks p i) - 3 * (6 - rank srv (state (the_ks p i))))) ->
  rank (server (m_opt (p_multi p))) (state (the_ks p i)) <= rank (server (m_opt (p_multi p))) (state (f (the_ks p i))) ->
  (c = true -> state_change p = true \/ rank (server (m_opt (p_multi p))) (state (the_ks p i)) < rank (server (m_opt (p_multi p))) (state (f (the_ks p i)))) ->
  uses i p (Next (set_change (upd p i f) c)).
Proof.
  intros Hs Hr Hc. apply (uses_upd i p f c); [done| |rewrite Hs; lia]. intros E. rewrite Hs. destruct (Hc E); [by left|right; lia].
Qed.

Lemma receive_timeout_uses now i p h : wlp (receive_timeout now i p) (fun x _ => uses i p x) h.
Proof.
  unfold receive_timeout. destruct (now >=? must_negotiate (the_ks p i)); [|wlp_steps; apply uses_refl].
  destruct (state (the_ks p i) <? S_ACTIVE) eqn:E; wlp_steps; [done|].
  assert (upd p i (fun ks => ks_set_times (ks_set_state ks S_NORMAL) (established ks) 0)
    = set_change (upd p i (fun ks => ks_set_times (ks_set_state ks S_NORMAL) (established ks) 0)) (state_change p)) as -> by by destruct p.
  apply uses_state; [|cbn|by left]; [intros srv; unfold stock; cbn; lia|].
  pose proof (rank_bounds (server (m_opt (p_multi p))) (state (the_ks p i))). change (rank _ S_NORMAL) with 6. lia.
Qed.

Lemma wait_initial_ack_uses i p h : wlp (wait_initial_ack i p) (fun x _ => uses i p x) h.
Proof.
  unfold wait_initial_ack. destruct (state (the_ks p i) =? S_PRE_START) eqn:E; [|wlp_steps; apply uses_refl].
  wlp_from sync Hsync. clear Hsync. destruct sync; wlp_steps; [|apply uses_refl].
  apply Z.eqb_eq in E. apply uses_state; [intros srv; unfold stock; cbn; lia|..]; cbn; rewrite E; unfold rank; cbn; [lia|right; lia].
Qed.

Lemma wait_ack_uses now i p h : wlp (wait_ack now i p) (fun x _ => uses i p x) h.
Proof.
  unfold wait_ack. destruct (_ || _) eqn:E; [|wlp_steps; apply uses_refl].
  wlp_from sync Hsync. clear Hsync. destruct sync; wlp_steps; [|apply uses_refl].
  set (f := fun ks => ks_set_state (ks_set_times ks now (must_negotiate ks)) S_ACTIVE).
  assert (uses i p (Next (set_change (upd p i f) true))) as Hu; [|by destruct p].
  apply uses_state; [intros srv; unfold stock; cbn; lia|..]; cbn; apply orb_true_iff in E as [E|E]; apply andb_true_iff in E as [E1 E2];
    apply Z.eqb_eq in E1; rewrite E1; destruct (server (m_opt (p_multi p))); try done; unfold rank; cbn; try lia; right; lia.
Qed.

Lemma send_packet_uses env now i p h : wlp (send_packet env now i p) (fun x _ => uses i p x) h.
Proof.
  unfold send_packet. wlp_from send Hs. destruct (_ && _); [|wlp_steps; apply uses_refl].
  destruct (reliable_send now send) as [r send']. wlp_skip. case_match. wlp_skip. wlp_skip. by case_match.
Qed.

Lemma uses_intro i p p' : m_opt (p_multi p') = m_opt (p_multi p) ->
  stock (server (m_opt (p_multi p))) (the_ks p' i) <= stock (server (m_opt (p_multi p))) (the_ks p i) ->
  (state_change p' = true -> state_change p = true \/
     stock (server (m_opt (p_multi p))) (the_ks p' i) < stock (server (m_opt (p_multi p))) (the_ks p i)) -> uses i p (Next p').
Proof.
  intros Eo Hs Hc. split; [done|]. unfold weight. rewrite Eo. destruct (state_change p'); [|destruct (state_change p); lia].
  destruct (Hc eq_refl) as [->|?]; [lia|]. destruct (state_change p); lia.
Qed.

(** What the BIO calls leave alone. *)
Definition same_core m m' (i : tm_index) : Prop :=
  m_opt m' = m_opt m /\ state (primary m' i) = state (primary m i) /\ rec_reliable (primary m' i) = rec_reliable (primary m i) /\
  send_reliable (primary m' i) = send_reliable (primary m i).
Definition same_read m m' (i : tm_index) : Prop := plaintext_read_buf (primary m' i) = plaintext_read_buf (primary m i).
Definition same_write m m' (i : tm_index) : Prop := plaintext_write_buf (primary m' i) = plaintext_write_buf (primary m i).

Lemma same_set_ssl m i o : let m' := set_primary m i (ks_set_ssl (primary m i) o) in same_core m m' i /\ same_read m m' i /\ same_write m m' i.
Proof. by destruct i. Qed.

Lemma verify_callback_keys opt s pre cert ok s' : verify_callback opt s pre cert = Ok (ok, s') ->
  key_primary s' = key_primary s /\ key_lame s' = key_lame s.
Proof.
  unfold verify_callback. destruct (extract_x509_field _ _ _) as [cn| |]; [|done..]. cbn [mbind result_bind].
  set (s0 := set_cert s (common_name s) false). set (s1 := if x_depth cert =? 0 then _ else s0).
  assert (key_primary s1 = key_primary s /\ key_lame s1 = key_lame s) as E1 by by (unfold s1; destruct (x_depth cert =? 0)). clearbody s1.
  destruct (negb pre); [by intros [= <- <-]|]. destruct (_ && _ && _); [by intros [= <- <-]|].
  destruct (match verify_x509name opt with Some _ => _ | None => _ end); [by intros [= <- <-]|].
  destruct (tls_verify_plugin opt && _); [by intros [= <- <-]|].
  destruct (match verify_command opt with Some _ => _ | None => _ end) as [[]| |]; cbn [mbind result_bind negb]; [|by intros [= <- <-]|done..].
  destruct (if crl_file opt then _ else _) as [[]| |]; cbn [mbind result_bind negb];
    [by intros [= <- <-]|by intros [= <- <-]|done..].
Qed.

Lemma run_ssl_io_keys {A} opt (io : ssl_io tls_obj A) : forall s r o s', run_ssl_io opt s io = Ok (r, o, s') ->
  key_primary s' = key_primary s /\ key_lame s' = key_lame s.
Proof.
  induction io as [r0 o0|pre cert k IH]; intros s r o s'; cbn [run_ssl_io]; [by intros [= _ _ <-]|].
  destruct (session_id_defined _); cbn [assert_ mbind result_bind]; [|done].
  destruct (verify_callback opt s pre cert) as [[ok s1]| |] eqn:E; [|done..]. cbn [mbind result_bind]. intros Hr.
  destruct (IH ok s1 r o s' Hr) as [-> ->]. by eapply verify_callback_keys.
Qed.

Lemma run_on_same {A} m i (io : tls_obj -> ssl_io tls_obj A) h :
  wlp (run_on m i io) (fun r _ => same_core m (snd r) i /\ same_read m (snd r) i /\ same_write m (snd r) i) h.
Proof.
  unfold run_on. wlp_skip. wlp_from x Hx. destruct x as [[r o] s']. wlp_steps. apply run_ssl_io_keys in Hx as [Hx _].
  set (at_ := ssl_session (primary m i)) in *.
  assert (primary (set_session m at_ s') i = primary m i /\ m_opt (set_session m at_ s') = m_opt m) as [E Eo].
  { unfold primary in *. destruct i, at_; cbn in *; rewrite ?Hx; done. }
  destruct (same_set_ssl (set_session m at_ s') i o) as ((A1 & A2 & A3 & A4) & A5 & A6). unfold same_core, same_read, same_write in *.
  rewrite A1, A2, A3, A4, A5, A6, E, Eo. done.
Qed.

Lemma write_ciphertext_same m i b h : wlp (key_state_write_ciphertext m i b) (fun r _ =>
  same_core m (snd r) i /\ same_read m (snd r) i /\ same_write m (snd r) i) h.
Proof.
  unfold key_state_write_ciphertext. wlp_skip. destruct (b_len b =? 0); wlp_steps; [done|]. wlp_skip. wlp_skip. wlp_skip.
  destruct (ct_in_write _ _) as [r o]. wlp_skip. wlp_steps. apply same_set_ssl.
Qed.

Lemma read_ciphertext_same m i b n h : wlp (key_state_read_ciphertext m i b n) (fun r _ =>
  same_core m (snd r) i /\ same_read m (snd r) i /\ same_write m (snd r) i) h.
Proof.
  unfold key_state_read_ciphertext. wlp_skip. destruct (b_len b =? 0); wlp_steps; [|done]. wlp_skip.
  destruct (ct_out_read _ _) as [r o]. wlp_skip. case_match. wlp_steps. apply same_set_ssl.
Qed.

Lemma bio_write_post_len status buf h : wlp (bio_write_post status buf) (fun b _ => b_len b = if status =? 1 then 0 else b_len buf) h.
Proof. unfold bio_write_post. destruct (status =? 1); [|by wlp_steps]. wlp_skip. wlp_skip. by wlp_steps. Qed.

Lemma bio_read_post_len buf len r h : wlp (bio_read_post buf len r) (fun y _ =>
  if fst y =? 1 then b_len (snd y) <> 0 else b_len (snd y) = b_len buf \/ b_len (snd y) = 0) h.
Proof.
  unfold bio_read_post. destruct r as [| |bs]; [wlp_steps; by left|wlp_steps; by right|]. set (x := take _ bs).
  destruct (Zlen x =? 0) eqn:E; [wlp_steps; by right|]. wlp_skip. wlp_skip. wlp_steps. cbn. by apply Z.eqb_neq in E.
Qed.

Lemma ciphertext_in_uses i p h : wlp (ciphertext_in i p) (fun x _ => uses i p x) h.
Proof.
  unfold ciphertext_in. wlp_from rec Hrec. destruct (reliable_get_buf_sequenced rec) as [j|] eqn:Ej; [|wlp_steps; apply uses_refl].
  apply find_entry_Some in Ej as (e & He & Ha). apply andb_true_iff in Ha as [Ha _]. rewrite He. wlp_from e' He'. injection He' as <-. wlp_steps.
  eapply (wlp_mono _ (fun r _ => same_core (p_multi p) (snd r) i /\ same_read (p_multi p) (snd r) i /\ same_write (p_multi p) (snd r) i)).
  { destruct (b_len (e_buf e) =? 0); [by wlp_steps|apply write_ciphertext_same]. }
  intros [[status buf] m] h1 ((Eo & Es & Er & Ew) & Erd & Ewr). wlp_steps. cbn [snd] in *.
  destruct (status =? -1); wlp_steps; [done|]. set (rec1 := set_entry rec j (set_entry_buf e buf)).
  assert (received_packets (Some rec1) = received_packets (Some rec)) as Hc1.
  { unfold received_packets, rec1. rewrite (count_insert active rec j e _ He). cbn. lia. }
  assert (forall r, stock (server (m_opt (p_multi p))) (ks_set_rec_reliable (primary m i) r) =
    stock (server (m_opt (p_multi p))) (the_ks p i) - received_packets (Some rec) + received_packets (Some r)) as Hst.
  { intros r. unfold stock. cbn. unfold same_read, same_write in *. fold (the_ks p i) in *. unfold the_ks in *.
    rewrite Es, Ew, Erd, Ewr, Hrec. lia. }
  destruct (status =? 1); wlp_steps.
  - apply wlp_lift. intros rec2 Hrec2. wlp_steps. rewrite (upd_upd (set_multi p m) i).
    apply (mark_deleted_stock rec1 j (set_entry_buf e buf)) in Hrec2; [|cbn; apply list_lookup_insert_eq; by eapply lookup_lt_Some|done].
    set (p2 := upd (set_multi p m) i _).
    assert (the_ks p2 i = ks_set_rec_reliable (primary m i) rec2) as Ek by by unfold p2; rewrite the_ks_upd.
    assert (m_opt (p_multi p2) = m_opt (p_multi p)) as Eo2 by by rewrite <- Eo; destruct i. clearbody p2.
    apply uses_intro; [done|..]; change (the_ks (set_change ?q true) i) with (the_ks q i); rewrite Ek, Hst; [lia|right; lia].
  - apply uses_intro; [by rewrite <- Eo; destruct i|..|by left]. rewrite the_ks_upd, Hst. lia.
Qed.

Lemma plaintext_in_uses i p h : wlp (plaintext_in i p) (fun x _ => uses i p x) h.
Proof.
  unfold plaintext_in. destruct (b_len (plaintext_read_buf (the_ks p i)) =? 0) eqn:E0; [|wlp_steps; apply uses_refl].
  destruct (buf_init _ 0) as [ok buf] eqn:Eb. wlp_from u Hok. destruct ok; [|done]. clear u Hok. wlp_steps.
  assert (b_len buf = 0) as Hl by (unfold buf_init in Eb; case_match; [done|by injection Eb as <-]).
  set (m0 := p_multi (upd p i _)). unfold key_state_read_plaintext. wlp_skip. rewrite Hl. cbn [Z.eqb negb]. wlp_steps.
  eapply wlp_mono; [apply run_on_same|]. intros [r m1] h1 ((Eo & Es & Er & Ew) & _ & Ewr). wlp_steps. cbn [snd] in *.
  eapply wlp_mono; [apply bio_read_post_len|]. intros [status buf'] h2 Hlen. wlp_steps. cbn [fst snd] in Hlen. rewrite Hl in Hlen.
  assert (m_opt m0 = m_opt (p_multi p) /\ primary m0 i = ks_set_read_buf (the_ks p i) buf) as [Fo Fp] by by destruct i.
  set (ks' := ks_set_read_buf (primary m1 i) buf').
  assert (stock (server (m_opt (p_multi p))) ks' = stock (server (m_opt (p_multi p))) (the_ks p i) - 1 + (if b_len buf' =? 0 then 1 else 0)) as Hst.
  { unfold same_write in *. rewrite Fp in *. unfold stock, ks'. cbn in *. rewrite Es, Er, Ew, Ewr, E0. cbn. lia. }
  set (p2 := set_multi p _). assert (the_ks p2 i = ks') as Ek by (unfold p2, the_ks; cbn; by rewrite primary_set).
  assert (m_opt (p_multi p2) = m_opt (p_multi p) /\ state_change p2 = state_change p) as [Eo2 Ec] by (rewrite <- Fo, <- Eo; by destruct i).
  clearbody p2. destruct (status =? -1); wlp_steps; [done|]. destruct (status =? 1); wlp_steps.
  - replace (b_len buf' =? 0) with false in Hst by lia.
    apply uses_intro; [done|..]; change (the_ks (set_change p2 true) i) with (the_ks p2 i); rewrite Ek; [lia|right; lia].
  - replace (b_len buf' =? 0) with true in Hst by lia. apply uses_intro; [done|rewrite Ek; lia|rewrite Ec; by left].
Qed.

Lemma plaintext_out_uses i p h : wlp (plaintext_out i p) (fun x _ => uses i p x) h.
Proof.
  unfold plaintext_out. destruct (b_len (plaintext_write_buf (the_ks p i)) =? 0) eqn:E0; [wlp_steps; apply uses_refl|].
  unfold key_state_write_plaintext. fold (the_ks p i). rewrite E0. wlp_steps. wlp_skip. wlp_skip. wlp_skip. wlp_steps.
  eapply wlp_mono; [apply run_on_same|]. intros [r m1] h1 ((Eo & Es & Er & Ew) & Erd & _). wlp_steps. cbn [snd] in *.
  eapply wlp_mono; [apply bio_write_post_len|]. intros buf' h2 Hlen. wlp_steps.
  set (status := bio_write_status _ _) in *. set (ks' := ks_set_write_buf (primary m1 i) buf').
  assert (stock (server (m_opt (p_multi p))) ks' = stock (server (m_opt (p_multi p))) (the_ks p i) - 1 + (if b_len buf' =? 0 then 0 else 1)) as Hst.
  { unfold same_read in *. fold (the_ks p i) in *. unfold stock, ks', the_ks in *. cbn in *. rewrite Es, Er, Ew, Erd, E0. lia. }
  set (p2 := set_multi p _). assert (the_ks p2 i = ks') as Ek by (unfold p2, the_ks; cbn; by rewrite primary_set).
  assert (m_opt (p_multi p2) = m_opt (p_multi p) /\ state_change p2 = state_change p) as [Eo2 Ec] by (rewrite <- Eo; by destruct i).
  clearbody p2. destruct (status =? -1); wlp_steps; [done|]. destruct (status =? 1); wlp_steps.
  - rewrite Hlen in Hst. cbn in Hst.
    apply uses_intro; [done|..]; change (the_ks (set_change p2 true) i) with (the_ks p2 i); rewrite Ek; [lia|right; lia].
  - rewrite Hlen, E0 in Hst. apply uses_intro; [done|rewrite Ek; lia|rewrite Ec; by left].
Qed.

Lemma ciphertext_out_uses i p h : wlp (ciphertext_out i p) (fun x _ => uses i p x) h.
Proof.
  unfold ciphertext_out. destruct (state (the_ks p i) >=? S_START); [|wlp_steps; apply uses_refl].
  wlp_from send Hs. wlp_from r Hr. destruct r as [o send1].
  destruct (get_buf_stock (fun e => negb (active e)) send o send1) as [Hc Hj]; [done|done|]. clear Hr.
  change (count _ (Some ?r)) with (free_packets (Some r)) in Hc. wlp_steps. set (p1 := upd p i _).
  assert (the_ks p1 i = ks_set_send (the_ks p i) send1 /\ m_opt (p_multi p1) = m_opt (p_multi p) /\ state_change p1 = state_change p)
    as (E1 & Eo1 & Ec1) by (split; [apply the_ks_upd|by destruct i]).
  assert (forall r, stock (server (m_opt (p_multi p))) (ks_set_send (the_ks p i) r) =
    stock (server (m_opt (p_multi p))) (the_ks p i) - free_packets (Some send1) + free_packets (Some r)) as Hst.
  { intros r. unfold stock. cbn. rewrite Hs. lia. }
  destruct o as [j|]; wlp_steps.
  2:{ apply uses_intro; [done|rewrite E1, Hst; lia|rewrite Ec1; by left]. }
  destruct (Hj j eq_refl) as (e & He & Ha). rewrite He. wlp_from e' He'. injection He' as <-. wlp_steps.
  eapply wlp_mono; [apply read_ciphertext_same|]. intros [[status b] m2] h2 ((Eo & Es & Er & Ew) & Erd & Ewr). wlp_steps. cbn [snd] in *.
  set (send2 := set_entry send1 j (set_entry_buf e b)).
  assert (free_packets (Some send2) = free_packets (Some send1)) as Hc2.
  { unfold free_packets, send2. rewrite (count_insert _ send1 j e _ He). cbn. lia. }
  assert (forall r, stock (server (m_opt (p_multi p))) (ks_set_send (primary m2 i) r) =
    stock (server (m_opt (p_multi p))) (the_ks p i) - free_packets (Some send1) + free_packets (Some r)) as Hst2.
  { intros r. rewrite <- Hst. unfold same_read, same_write in *. change (primary (p_multi p1) i) with (the_ks p1 i) in *.
    rewrite E1 in *. cbn in *. unfold stock. cbn. by rewrite Es, Er, Erd, Ewr. }
  destruct (status =? -1); wlp_steps; [done|]. destruct (status =? 1); wlp_steps.
  - eapply wlp_mono; [apply (mark_outgoing_stock send2 j (set_entry_buf e b)); [|done]|].
    { cbn. apply list_lookup_insert_eq. by eapply lookup_lt_Some. }
    intros send3 h3 Hf. cbn beta in Hf. wlp_steps. rewrite upd_upd. set (p2 := upd _ i _).
    assert (the_ks p2 i = ks_set_send (primary m2 i) send3) as Ek by by unfold p2; rewrite the_ks_upd.
    assert (m_opt (p_multi p2) = m_opt (p_multi p)) as Eo2 by (rewrite <- Eo1, <- Eo; by destruct i). clearbody p2.
    apply uses_intro; [done|..]; change (the_ks (set_change p2 true) i) with (the_ks p2 i); rewrite Ek, Hst2; [lia|right; lia].
  - set (p2 := upd _ i _). assert (the_ks p2 i = ks_set_send (primary m2 i) send2) as Ek by by unfold p2; rewrite the_ks_upd.
    assert (m_opt (p_multi p2) = m_opt (p_multi p) /\ state_change p2 = state_change p) as [Eo2 Ec] by (rewrite <- Eo1, <- Eo; by destruct i).
    clearbody p2. apply uses_intro; [done|rewrite Ek, Hst2; lia|rewrite Ec; by left].
Qed.

Ltac same := wlp_steps; by match goal with i : tm_index |- _ => destruct i end.

Lemma key_method_1_write_same m i rnd h : wlp (key_method_1_write m i rnd) (fun r _ =>
  same_core m (snd (fst r)) i /\ same_read m (snd (fst r)) i) h.
Proof.
  unfold key_method_1_write. wlp_skip. destruct (buf_init _ 0) as [ok buf]. wlp_skip. wlp_skip as [key rnd']. wlp_skip as ok1.
  destruct ok1; wlp_steps; [|same]. wlp_skip as [ok2 buf2]. destruct ok2; wlp_steps; [|same]. wlp_skip. wlp_skip as [ok3 buf3]. same.
Qed.

Lemma key_method_2_write_same fill m i rnd h : wlp (key_method_2_write fill m i rnd) (fun r _ =>
  same_core m (snd (fst r)) i /\ same_read m (snd (fst r)) i) h.
Proof.
  unfold key_method_2_write. wlp_skip. destruct (buf_init _ 0) as [ok buf]. wlp_skip. wlp_skip as [[[ok1 src] buf1] rnd1].
  destruct ok1; wlp_steps; [|same]. destruct (server (m_opt m)); [|wlp_steps; same]. destruct (authenticated _); [|wlp_steps; same].
  wlp_skip as [key|]; same.
Qed.

Lemma key_method_1_read_same m i h : wlp (key_method_1_read m i) (fun r _ => same_core m (snd r) i /\ same_write m (snd r) i) h.
Proof.
  unfold key_method_1_read. wlp_skip. destruct (verified _); wlp_steps; [|wlp_skip; same]. wlp_skip as [[status key] buf].
  destruct (status =? 1); wlp_steps; [|wlp_skip; same]. wlp_skip as ok. destruct ok; wlp_steps; [|wlp_skip; same].
  destruct (b_len buf <? 1); [wlp_skip; same|]. wlp_skip. wlp_skip. wlp_steps. same.
Qed.

Lemma same_core_trans m1 m2 m3 i : same_core m1 m2 i -> same_core m2 m3 i -> same_core m1 m3 i.
Proof. intros (? & ? & ? & ?) (? & ? & ? & ?). repeat split; congruence. Qed.

Lemma authorize_same fill dirsep m i ok s h : key_primary s = primary m i ->
  wlp (authorize fill dirsep m i ok s) (fun m' _ => same_core m m' i /\ same_write m m' i) h.
Proof.
  intros Hk. unfold authorize. set (m1 := match common_name _ with Some _ => _ | None => _ end).
  assert (same_core m m1 i /\ same_write m m1 i) as [S1 W1].
  { unfold m1. destruct (common_name _); destruct i; unfold same_core, same_write, primary in *; cbn in *; rewrite ?Hk; done. }
  assert (same_core m1 (enforce_locked_cn m1 i) i /\ same_write m1 (enforce_locked_cn m1 i) i) as [S2 W2].
  { unfold enforce_locked_cn. destruct (locked_cn m1); [|done]. destruct (common_name (session m1 i)); [|done].
    destruct (_ && _); [same|done]. }
  set (m2 := enforce_locked_cn m1 i) in *. clearbody m1 m2.
  assert (same_core m m2 i /\ same_write m m2 i) as [S W].
  { split; [by eapply same_core_trans|]. unfold same_write in *. congruence. }
  unfold enforce_ccd. destruct (client_config_dir_exclusive _); [|by wlp_steps]. destruct (authenticated _); [|by wlp_steps].
  wlp_skip. wlp_steps. destruct (match common_name (session m2 i) with Some _ => _ | None => _ end); [|done].
  split; [eapply same_core_trans; [exact S|same]|]. unfold same_write in *. rewrite <- W. same.
Qed.

Lemma key_method_2_read_same fill dirsep m i h : wlp (key_method_2_read fill dirsep m i) (fun r _ =>
  same_core m (snd r) i /\ same_write m (snd r) i) h.
Proof.
  unfold key_method_2_read. wlp_skip. destruct (buf_advance _ 4) as [ok0 buf0]. wlp_skip. wlp_skip as [flags buf1].
  destruct (Z.land _ _ =? 2); wlp_steps; [|wlp_skip; wlp_steps; same]. wlp_skip as [[ok2 src] buf2].
  destruct ok2; wlp_steps; [|wlp_skip; wlp_steps; same]. wlp_skip as [options buf3]. destruct options; [|wlp_skip; wlp_steps; same]. wlp_steps.
  set (m2 := set_primary _ i (ks_set_authenticated _ false)).
  assert (same_core m m2 i /\ same_write m m2 i) as [S2 W2] by same.
  eapply wlp_mono; [apply authenticate_peer_spec|]. intros [auth buf'] h1 Hs. wlp_steps. destruct auth as [[ok s]|].
  2:{ clearbody m2. wlp_skip. wlp_steps. split; [eapply same_core_trans; [exact S2|same]|]. unfold same_write in *. rewrite <- W2. same. }
  cbn in Hs. destruct Hs as (_ & Hk & _). wlp_steps.
  eapply wlp_mono; [by apply (authorize_same fill dirsep m2 i ok s)|]. intros m3 h3 [S3 W3]. wlp_skip.
  assert (forall ks', state ks' = state (primary m3 i) -> rec_reliable ks' = rec_reliable (primary m3 i) ->
    send_reliable ks' = send_reliable (primary m3 i) -> plaintext_write_buf ks' = plaintext_write_buf (primary m3 i) ->
    same_core m (set_primary m3 i ks') i /\ same_write m (set_primary m3 i ks') i) as Hf.
  { intros ks' A1 A2 A3 A4. destruct S2 as (? & ? & ? & ?), S3 as (? & ? & ? & ?). unfold same_core, same_write in *. rewrite primary_set.
    split_and!; [trans (m_opt m3); [by destruct i|congruence]|congruence..]. }
  clearbody m2. destruct (server (m_opt m)); wlp_steps; [by apply Hf|]. wlp_skip. case_match; wlp_steps.
  - rewrite !primary_set, set_primary_twice. by apply Hf.
  - wlp_skip. wlp_steps. rewrite !primary_set, set_primary_twice. by apply Hf.
Qed.

(** After a key was sent or received the next state is worth more than the buffer that changed. *)
Lemma key_step_uses i p m (st : Z) rnd :
  same_core (p_multi p) m i ->
  rank (server (m_opt (p_multi p))) (state (the_ks p i)) < rank (server (m_opt (p_multi p))) st ->
  same_read (p_multi p) m i \/ same_write (p_multi p) m i ->
  uses i p (Next (set_change (upd (set_rand (set_multi p m) rnd) i (fun ks => ks_set_state ks st)) true)).
Proof.
  intros (Eo & Es & Er & Ew) Hr Hb. set (p2 := upd _ i _).
  assert (the_ks p2 i = ks_set_state (primary m i) st) as Ek by by unfold p2; rewrite the_ks_upd.
  assert (m_opt (p_multi p2) = m_opt (p_multi p)) as Eo2 by (rewrite <- Eo; by destruct i). clearbody p2.
  assert (stock (server (m_opt (p_multi p))) (ks_set_state (primary m i) st) < stock (server (m_opt (p_multi p))) (the_ks p i)) as Hlt.
  { unfold stock, the_ks, same_read, same_write in *. cbn. rewrite Er, Ew.
    destruct Hb as [-> | ->]; repeat match goal with |- context [if ?b then _ else _] => destruct b end; lia. }
  apply uses_intro; [done|..]; change (the_ks (set_change p2 true) i) with (the_ks p2 i); rewrite Ek; [lia|by right].
Qed.

Lemma send_key_uses env i p h : wlp (send_key env i p) (fun x _ => uses i p x) h.
Proof.
  unfold send_key. destruct (_ && _) eqn:E; [|wlp_steps; apply uses_refl]. wlp_steps.
  eapply (wlp_mono _ (fun r _ => same_core (p_multi p) (snd (fst r)) i /\ same_read (p_multi p) (snd (fst r)) i)).
  { destruct (key_method _ =? 1); [apply key_method_1_write_same|]. destruct (key_method _ =? 2); [apply key_method_2_write_same|done]. }
  intros [[ok m] rnd] h1 [S R]. wlp_steps. cbn [fst snd] in S, R. destruct ok; wlp_steps; [|done]. apply key_step_uses; [done| |by left].
  apply andb_true_iff in E as [_ E]. apply orb_true_iff in E as [E|E]; apply andb_true_iff in E as [E1 E2]; apply Z.eqb_eq in E1; rewrite E1;
    destruct (server (m_opt (p_multi p))); try done; by vm_compute.
Qed.

Lemma receive_key_uses env i p h : wlp (receive_key env i p) (fun x _ => uses i p x) h.
Proof.
  unfold receive_key. destruct (_ && _) eqn:E; [|wlp_steps; apply uses_refl]. wlp_steps.
  eapply (wlp_mono _ (fun r _ => same_core (p_multi p) (snd r) i /\ same_write (p_multi p) (snd r) i)).
  { destruct (key_method _ =? 1); [apply key_method_1_read_same|]. destruct (key_method _ =? 2); [apply key_method_2_read_same|done]. }
  intros [ok m] h1 [S R]. wlp_steps. cbn [snd] in S, R. destruct ok; wlp_steps; [|done].
  assert (uses i p (Next (set_change (upd (set_rand (set_multi p m) (rand p)) i (fun ks => ks_set_state ks S_GOT_KEY)) true))) as Hu; [|exact Hu].
  apply key_step_uses; [done| |by right].
  apply andb_true_iff in E as [_ E]. apply orb_true_iff in E as [E|E]; apply andb_true_iff in E as [E1 E2]; apply Z.eqb_eq in E1; rewrite E1;
    destruct (server (m_opt (p_multi p))); try done; by vm_compute.
Qed.

Lemma tls_round_uses env now i p h : wlp (tls_round env now i p) (fun x _ => uses i (set_change p false) x) h.
Proof.
  unfold tls_round. repeat (apply wlp_chain; [|intros p' h']).
  - apply initial_handshake_uses.
  - apply receive_timeout_uses.
  - apply wait_initial_ack_uses.
  - apply wait_ack_uses.
  - apply send_packet_uses.
  - apply ciphertext_in_uses.
  - apply plaintext_in_uses.
  - apply send_key_uses.
  - apply receive_key_uses.
  - apply plaintext_out_uses.
  - apply ciphertext_out_uses.
Qed.

Lemma tls_loop_ends fuel env clock i : forall k p h, stock (server (m_opt (p_multi p))) (the_ks p i) < Z.of_nat fuel ->
  wlp (tls_loop fuel env clock k i p) (fun r _ => fst r <> None) h.
Proof.
  induction fuel as [|fuel IH]; intros k p h Hs.
  { exfalso. unfold stock in Hs. pose proof (rank_bounds (server (m_opt (p_multi p))) (state (the_ks p i))).
    pose proof (count_nonneg active (rec_reliable (the_ks p i))). pose proof (count_nonneg (fun e => negb (active e)) (send_reliable (the_ks p i))).
    unfold received_packets, free_packets in *. repeat case_match; lia. }
  cbn [tls_loop]. wlp_steps. eapply wlp_mono; [apply tls_round_uses|]. intros x h' Hu. destruct x as [p'|p'|p']; [|by wlp_steps..].
  destruct (state_change p') eqn:Ec; [|by wlp_steps]. apply IH. destruct Hu as [Eo Hw]. unfold weight in Hw. rewrite Ec, Eo in Hw.
  cbn [state_change set_change] in Hw. change (the_ks (set_change p false) i) with (the_ks p i) in Hw.
  change (m_opt (p_multi (set_change p false))) with (m_opt (p_multi p)) in *. rewrite Eo. lia.
Qed.

(** The reliability layer of a key state has its eight and four buffers at most. *)
Definition small_reliable (ks : ks_t) : Prop :=
  (forall r, rec_reliable ks = Some r -> Zlen (array r) <= TLS_RELIABLE_N_REC_BUFFERS) /\
  (forall r, send_reliable ks = Some r -> Zlen (array r) <= TLS_RELIABLE_N_SEND_BUFFERS).

Lemma stock_small srv ks : small_reliable ks -> stock srv ks < Z.of_nat LOOP_MAX.
Proof.
  intros [Hr Hs]. unfold stock, received_packets, free_packets. change (Z.of_nat LOOP_MAX) with 40.
  assert (count active (rec_reliable ks) <= 8) by (destruct (rec_reliable ks) as [r|]; [by apply count_le, Hr|done]).
  assert (count (fun e => negb (active e)) (send_reliable ks) <= 4) by (destruct (send_reliable ks) as [r|]; [by apply count_le, Hs|done]).
  pose proof (rank_bounds srv (state ks)). repeat case_match; lia.
Qed.

Lemma init_entries_length fill n C o h : wlp (init_entries fill n C o) (fun l _ => length l = n) h.
Proof.
  revert h. induction n as [|n IH]; intros h; cbn [init_entries]; [by wlp_steps|]. wlp_skip. destruct (buf_init _ _). wlp_skip. wlp_steps.
  eapply wlp_mono; [apply IH|]. intros l h9 Hl. wlp_steps. cbn. by rewrite Hl.
Qed.
Lemma reliable_init_length fill C o n h : 0 <= n -> wlp (reliable_init fill C o n) (fun r _ => Zlen (array r) = n) h.
Proof.
  intros Hn. unfold reliable_init. wlp_skip. wlp_steps. eapply wlp_mono; [apply init_entries_length|]. intros l h1 Hl. wlp_steps.
  cbn. unfold Zlen. rewrite Hl. lia.
Qed.
Lemma soft_reset_small now fill opt i s h : wlp (key_state_soft_reset SSL_new now fill opt i s) (fun s' _ => small_reliable (key_primary s')) h.
Proof.
  unfold key_state_soft_reset, key_state_init. do 4 wlp_skip. wlp_skip. wlp_steps.
  eapply wlp_mono; [apply reliable_init_length; by vm_compute|]. intros send h1 Hs. wlp_steps.
  eapply wlp_mono; [apply reliable_init_length; by vm_compute|]. intros rec h2 Hr. wlp_skip. wlp_steps.
  cbn beta in Hs, Hr. split; intros r [= <-]; cbn [array reliable_set_timeout]; lia.
Qed.

(** C18: the loop of tls_process ends.  Whatever OpenSSL's BIOs return, the peer sent, scripts,
    plugins and the clock say, LOOP_MAX = 40 rounds are enough for one call of tls_process: it
    never runs out of fuel, if the reliability layer has its twelve buffers. *)
Theorem tls_process_terminates fuel env clock k i wakeup p h :
  small_reliable (the_ks p i) -> (LOOP_MAX <= fuel)%nat ->
  wlp (tls_process fuel env clock k i wakeup p) (fun r _ => r <> None) h.
Proof.
  intros Hsm Hf. unfold tls_process. do 3 wlp_skip. set (p0 := Proc _ _ _ false false _ _ _). wlp_steps.
  eapply (wlp_mono _ (fun p1 _ => small_reliable (the_ks p1 i))).
  { destruct (should_renegotiate _ _ _); [|by wlp_steps]. wlp_steps. eapply wlp_mono; [apply soft_reset_small|].
    intros s h1 Hs. wlp_steps. by destruct i. }
  intros p1 h1 Hs1. wlp_skip. case_match. wlp_steps. eapply (wlp_mono _ (fun p2 _ => small_reliable (the_ks p2 i))).
  { case_match; [|by wlp_steps]. wlp_skip. wlp_steps. by destruct i. }
  intros p2 h2 Hs2. wlp_steps. eapply wlp_mono; [apply (tls_loop_ends fuel env clock i (S k) p2 h2)|].
  { pose proof (stock_small (server (m_opt (p_multi p2))) _ Hs2). lia. }
  intros [r k'] h3 Hr. cbn [fst] in Hr. destruct r as [[p3|p3|p3]|]; [..|done].
  - wlp_skip. wlp_skip. wlp_steps. by case_match.
  - wlp_skip. wlp_skip. wlp_steps. by case_match.
  - by wlp_steps.
Qed.
End Loop.
