(* ===== verification/TlsKeys.v ===== *)
(** No key state sends data before its keys are made (src/ssl.c): an invariant of the key
    states through tls_multi_process, tls_pre_decrypt and the rest of a session's life, by
    induction on the steps that lead to a state. *)

From S2P Require Import Prelude Buffer Integer PacketId Mtu Crypto Reliable Pool ControlAuth Text Key Prf Own RelOwn Tls TlsOk KeyMethod TlsProc TlsLoop.

Section Keys.
Context {tls_obj : Type} `{OpenSSL} `{Env} `{Bio tls_obj}.
#[local] Abbreviation ks_t := (key_state (tls_obj := tls_obj)).
#[local] Abbreviation session_t := (tls_session (tls_obj := tls_obj)).
#[local] Abbreviation multi_t := (tls_multi (tls_obj := tls_obj)).
#[local] Abbreviation proc_t := (proc (tls_obj := tls_obj)).
#[local] Abbreviation flow_t := (flow (tls_obj := tls_obj)).
Implicit Types (ks : ks_t) (s : session_t) (m : multi_t) (p : proc_t) (x : flow_t).

(** ** The invariant *)

(** The contexts come from init_key_ctx. *)
Definition enc_made (opt : tls_options) (k : key_ctx_bi) : Prop := exists d, init_key_ctx d (opt_key_type opt) true = Ok (k_encrypt k).
Definition dec_made (opt : tls_options) (k : key_ctx_bi) : Prop := exists d, init_key_ctx d (opt_key_type opt) false = Ok (k_decrypt k).
Definition made (opt : tls_options) (k : key_ctx_bi) : Prop := enc_made opt k /\ dec_made opt k.

(** Both sides have exchanged their keys: a server has S_SENT_KEY after S_GOT_KEY. *)
Definition exchanged (srv : bool) (st : Z) : Prop :=
  if srv then st = S_SENT_KEY \/ S_ACTIVE <= st else S_GOT_KEY <= st.

Record keyed (opt : tls_options) ks : Prop := {
  kd_client : key_method opt = 1 -> server opt = false -> S_SENT_KEY <= state ks -> enc_made opt (Tls.key ks);
  kd_server : key_method opt = 1 -> server opt = true -> authenticated ks = true -> state ks = S_GOT_KEY -> dec_made opt (Tls.key ks);
  kd_ready : authenticated ks = true -> exchanged (server opt) (state ks) -> made opt (Tls.key ks)
}.

Definition keyed_all m : Prop := forall r, keyed (m_opt m) (ks_at m r).

(** The key state keeps its state and its key, and may lose its authentication. *)
Definition lesser ks ks' : Prop :=
  state ks' = state ks /\ Tls.key ks' = Tls.key ks /\ (authenticated ks' = true -> authenticated ks = true).
Definition lesser_all m m' : Prop := m_opt m' = m_opt m /\ forall r, lesser (ks_at m r) (ks_at m' r).

Lemma keyed_lesser opt ks ks' : keyed opt ks -> lesser ks ks' -> keyed opt ks'.
Proof. intros [K1 K2 K3] (Es & Ek & Ea). split; rewrite ?Es, ?Ek; auto. Qed.
Lemma keyed_all_lesser m m' : keyed_all m -> lesser_all m m' -> keyed_all m'.
Proof. intros Hk [Eo Hl] r. rewrite Eo. by eapply keyed_lesser. Qed.
Lemma lesser_refl ks : lesser ks ks.
Proof. by split. Qed.
Lemma lesser_trans ks1 ks2 ks3 : lesser ks1 ks2 -> lesser ks2 ks3 -> lesser ks1 ks3.
Proof. intros (? & ? & ?) (? & ? & ?). split_and!; try congruence. auto. Qed.
Lemma lesser_all_refl m : lesser_all m m.
Proof. split; [done|]. intros r. apply lesser_refl. Qed.
Lemma lesser_all_trans m1 m2 m3 : lesser_all m1 m2 -> lesser_all m2 m3 -> lesser_all m1 m3.
Proof. intros [? H12] [? H23]. split; [congruence|]. intros r. eapply lesser_trans; [apply H12|apply H23]. Qed.

Lemma lesser_primary m i ks : lesser (primary m i) ks -> lesser_all m (set_primary m i ks).
Proof.
  intros Hl. split; [by destruct i|]. intros r. rewrite ks_at_set_primary. case_decide as E; [by subst|apply lesser_refl].
Qed.
Lemma lesser_session m i s : key_primary s = key_primary (session m i) -> key_lame s = key_lame (session m i) -> lesser_all m (set_session m i s).
Proof. intros E1 E2. split; [by destruct i|]. intros [a b]. by destruct i, a, b; unfold ks_at; cbn in *; rewrite ?E1, ?E2. Qed.
Lemma keyed_set_primary m i ks : keyed_all m -> keyed (m_opt m) ks -> keyed_all (set_primary m i ks).
Proof.
  intros Hm Hk r. assert (m_opt (set_primary m i ks) = m_opt m) as -> by by destruct i.
  rewrite ks_at_set_primary. by case_decide.
Qed.

(** A key state that has not come so far needs no keys. *)
Lemma keyed_early opt ks : state ks < S_SENT_KEY -> keyed opt ks.
Proof.
  intros Hs. split; [lia|intros; unfold S_GOT_KEY, S_SENT_KEY in *; lia|]. intros _. unfold exchanged. unfold S_GOT_KEY, S_SENT_KEY, S_ACTIVE in *. destruct (server opt); lia.
Qed.

Definition keeps_keys x : Prop :=
  match x with Next p' | Break p' | Err p' => keyed_all (p_multi p') end.

Lemma keeps_chain (r : M flow_t) f h :
  wlp r (fun x _ => keeps_keys x) h -> (forall p' h', keyed_all (p_multi p') -> wlp (f p') (fun x _ => keeps_keys x) h') ->
  wlp (chain r f) (fun x _ => keeps_keys x) h.
Proof. intros Hr Hf. unfold chain. apply wlp_bind. eapply wlp_mono; [exact Hr|]. intros x h' Hx. destruct x as [p'| |]; [by apply Hf|done..]. Qed.

(** A part that changes only members other than key and authenticated, and the state to [st]. *)
Lemma keyed_upd i p (f : ks_t -> ks_t) :
  keyed_all (p_multi p) -> Tls.key (f (the_ks p i)) = Tls.key (the_ks p i) -> authenticated (f (the_ks p i)) = authenticated (the_ks p i) ->
  state (f (the_ks p i)) = state (the_ks p i) \/ state (f (the_ks p i)) < S_SENT_KEY \/
  S_ACTIVE <= state (f (the_ks p i)) /\ exchanged (server (m_opt (p_multi p))) (state (the_ks p i)) ->
  keyed_all (p_multi (upd p i f)).
Proof.
  intros Hk Ek Ea Hs. apply keyed_set_primary; [done|]. change (primary (p_multi p) i) with (the_ks p i).
  destruct (Hk (i, KS_PRIMARY)) as [K1 K2 K3]. change (ks_at (p_multi p) (i, KS_PRIMARY)) with (the_ks p i) in *.
  destruct Hs as [Es|[Es|[Es Hx]]].
  - eapply (keyed_lesser _ (the_ks p i)); [by split|]. split_and!; [done..|]. by rewrite Ea.
  - by apply keyed_early.
  - split; rewrite ?Ek, ?Ea; auto.
    + intros Hm Hc _. apply K1; auto. unfold exchanged in Hx. rewrite Hc in Hx. unfold S_GOT_KEY, S_SENT_KEY in *. lia.
    + intros _ _ _ Hst. unfold S_ACTIVE, S_GOT_KEY in *. lia.
Qed.

(** ** The calls of a round *)

Lemma set_ssl_lesser m i o : lesser_all m (set_primary m i (ks_set_ssl (primary m i) o)).
Proof. by apply lesser_primary. Qed.

Lemma run_on_lesser {A} m i (io : tls_obj -> ssl_io tls_obj A) h : wlp (run_on m i io) (fun r _ => lesser_all m (snd r)) h.
Proof.
  unfold run_on. wlp_skip. wlp_from x Hx. destruct x as [[r o] s']. wlp_steps. apply run_ssl_io_keys in Hx as [Hp Hl].
  eapply lesser_all_trans; [by apply lesser_session|apply set_ssl_lesser].
Qed.

Lemma write_plaintext_lesser m i h : wlp (key_state_write_plaintext m i) (fun r _ => lesser_all m (snd r)) h.
Proof.
  unfold key_state_write_plaintext. wlp_skip. destruct (b_len _ =? 0); wlp_steps; [apply lesser_all_refl|]. wlp_skip. wlp_skip. wlp_steps.
  eapply wlp_mono; [apply run_on_lesser|]. intros [r m1] h1 Hl. wlp_skip. wlp_steps.
  eapply lesser_all_trans; [exact Hl|]. by apply lesser_primary.
Qed.
Lemma write_plaintext_const_lesser m i data h : wlp (key_state_write_plaintext_const m i data) (fun r _ => lesser_all m (snd r)) h.
Proof.
  unfold key_state_write_plaintext_const. destruct (Zlen data =? 0); wlp_steps; [apply lesser_all_refl|].
  eapply wlp_mono; [apply run_on_lesser|]. intros [r m1] h1 Hl. by wlp_steps.
Qed.
Lemma read_plaintext_lesser m i b n h : wlp (key_state_read_plaintext m i b n) (fun r _ => lesser_all m (snd r)) h.
Proof.
  unfold key_state_read_plaintext. wlp_skip. destruct (b_len b =? 0); wlp_steps; [|apply lesser_all_refl].
  eapply wlp_mono; [apply run_on_lesser|]. intros [r m1] h1 Hl. wlp_skip. case_match. wlp_steps.
  eapply lesser_all_trans; [exact Hl|]. by apply lesser_primary.
Qed.
Lemma write_ciphertext_lesser m i b h : wlp (key_state_write_ciphertext m i b) (fun r _ => lesser_all m (snd r)) h.
Proof.
  unfold key_state_write_ciphertext. wlp_skip. destruct (b_len b =? 0); wlp_steps; [apply lesser_all_refl|]. wlp_skip. wlp_skip. wlp_skip.
  destruct (ct_in_write _ _) as [r o]. wlp_skip. wlp_steps. apply set_ssl_lesser.
Qed.
Lemma read_ciphertext_lesser m i b n h : wlp (key_state_read_ciphertext m i b n) (fun r _ => lesser_all m (snd r)) h.
Proof.
  unfold key_state_read_ciphertext. wlp_skip. destruct (b_len b =? 0); wlp_steps; [|apply lesser_all_refl]. wlp_skip.
  destruct (ct_out_read _ _) as [r o]. wlp_skip. case_match. wlp_steps. apply set_ssl_lesser.
Qed.

(** ** The key methods *)

(** What a key method may do to the primary key of session [i]: *)
Definition key_written (m m' : multi_t) (i : tm_index) (ok : bool) : Prop :=
  let ks := primary m i in let ks' := primary m' i in
  m_opt m' = m_opt m /\ (forall r, r <> (i, KS_PRIMARY) -> lesser (ks_at m r) (ks_at m' r)) /\ state ks' = state ks.

Lemma written_primary m i ks ok : state ks = state (primary m i) -> key_written m (set_primary m i ks) i ok.
Proof.
  intros E. split; [by destruct i|]. split; [|by rewrite primary_set]. intros r Hr. rewrite ks_at_set_primary, decide_False by done. apply lesser_refl.
Qed.

Lemma key_method_1_write_keys m i rnd h : wlp (key_method_1_write m i rnd) (fun r _ => let '(ok, m', _) := r in
  key_written m m' i ok /\ authenticated (primary m' i) = authenticated (primary m i) /\
  k_decrypt (Tls.key (primary m' i)) = k_decrypt (Tls.key (primary m i)) /\
  (Tls.key (primary m' i) = Tls.key (primary m i) \/ enc_made (m_opt m) (Tls.key (primary m' i))) /\
  (ok = true -> enc_made (m_opt m) (Tls.key (primary m' i)))) h.
Proof.
  assert (forall b, let m' := set_primary m i (ks_set_write_buf (primary m i) b) in key_written m m' i false /\
    authenticated (primary m' i) = authenticated (primary m i) /\ Tls.key (primary m' i) = Tls.key (primary m i)) as Hno.
  { intros b. split; [by apply written_primary|]. by destruct i. }
  unfold key_method_1_write. wlp_skip. destruct (buf_init _ 0) as [ok buf]. wlp_skip. wlp_skip as [key rnd']. wlp_skip as ok1.
  destruct ok1; wlp_steps. 2:{ destruct (Hno buf) as (? & ? & E). rewrite E. split_and!; auto. done. }
  wlp_skip as [ok2 buf2]. destruct ok2; wlp_steps. 2:{ destruct (Hno buf2) as (? & ? & E). rewrite E. split_and!; auto. done. }
  wlp_from e He. wlp_skip as [ok3 buf3].
  assert (enc_made (m_opt m) (KeyCtxBi e (k_decrypt (Tls.key (primary m i))))) as Hm by by exists key.
  split; [by apply written_primary|]. rewrite primary_set. split_and!; auto.
Qed.

Lemma key_method_1_read_keys m i h : wlp (key_method_1_read m i) (fun r _ => let '(ok, m') := r in
  key_written m m' i ok /\ k_encrypt (Tls.key (primary m' i)) = k_encrypt (Tls.key (primary m i)) /\
  (if ok then dec_made (m_opt m) (Tls.key (primary m' i))
   else Tls.key (primary m' i) = Tls.key (primary m i) /\ authenticated (primary m' i) = authenticated (primary m i))) h.
Proof.
  assert (forall b, let m' := set_primary m i (ks_set_read_buf (primary m i) b) in key_written m m' i false /\
    k_encrypt (Tls.key (primary m' i)) = k_encrypt (Tls.key (primary m i)) /\ Tls.key (primary m' i) = Tls.key (primary m i) /\
    authenticated (primary m' i) = authenticated (primary m i)) as Hno.
  { intros b. split; [by apply written_primary|]. by destruct i. }
  unfold key_method_1_read. wlp_skip. destruct (verified _); wlp_steps; [|wlp_skip; wlp_steps; apply Hno]. wlp_skip as [[status key] buf].
  destruct (status =? 1); wlp_steps; [|wlp_skip; wlp_steps; apply Hno]. wlp_skip as ok. destruct ok; wlp_steps; [|wlp_skip; wlp_steps; apply Hno].
  destruct (b_len buf <? 1); [wlp_skip; wlp_steps; apply Hno|]. wlp_skip. wlp_from d Hd. wlp_steps.
  split; [by apply written_primary|]. rewrite primary_set. split; [done|]. by exists key.
Qed.

Lemma expansion_made fill opt src csid ssid server h : wlp (generate_key_expansion fill (opt_key_type opt) src csid ssid server)
  (fun o _ => forall key, o = Some key -> made opt key) h.
Proof.
  unfold generate_key_expansion. wlp_skip. wlp_skip. wlp_skip as [keys|]; [|done]. wlp_from ko Hko. wlp_from e He. wlp_from ki Hki. wlp_from d Hd.
  wlp_steps. intros key [= <-]. split; by eexists.
Qed.

Lemma key_method_2_write_keys fill m i rnd h : wlp (key_method_2_write fill m i rnd) (fun r _ => let '(ok, m', _) := r in
  key_written m m' i ok /\ authenticated (primary m' i) = authenticated (primary m i) /\
  (Tls.key (primary m' i) = Tls.key (primary m i) \/ made (m_opt m) (Tls.key (primary m' i))) /\
  (ok = true -> server (m_opt m) = true -> authenticated (primary m i) = true -> made (m_opt m) (Tls.key (primary m' i)))) h.
Proof.
  unfold key_method_2_write. wlp_skip. destruct (buf_init _ 0) as [ok buf]. wlp_skip. wlp_skip as [[[ok1 src] buf1] rnd1].
  assert (forall ok' b src', let m' := set_primary m i (ks_set_key_src (ks_set_write_buf (primary m i) b) src') in key_written m m' i ok' /\
    authenticated (primary m' i) = authenticated (primary m i) /\
    (Tls.key (primary m' i) = Tls.key (primary m i) \/ made (m_opt m) (Tls.key (primary m' i)))) as Hno.
  { intros ok' b src'. split; [by apply written_primary|]. rewrite primary_set. split; [done|by left]. }
  destruct ok1; wlp_steps; [|destruct (Hno false buf1 clear_source2) as (? & ? & ?); by split_and!].
  destruct (server (m_opt m)) eqn:Es; [|wlp_steps; destruct (Hno true buf1 src) as (? & ? & ?); by split_and!].
  destruct (authenticated (primary m i)) eqn:Ea; [|wlp_steps; destruct (Hno true buf1 clear_source2) as (? & ? & ?); by split_and!].
  wlp_steps. eapply wlp_mono; [apply expansion_made|]. intros o h3 Ho. wlp_steps. destruct o as [key|]; wlp_steps.
  - specialize (Ho key eq_refl). split; [by apply written_primary|]. rewrite primary_set. cbn. split_and!; auto.
  - destruct (Hno false buf1 clear_source2) as (? & ? & ?). by split_and!.
Qed.

Lemma lesser_deauthenticate m : lesser_all m (tls_deauthenticate m).
Proof. split; [done|]. by intros [[] []]. Qed.
Lemma lesser_locked_cn m i : lesser_all m (enforce_locked_cn m i).
Proof.
  unfold enforce_locked_cn. destruct (locked_cn m); [|apply lesser_all_refl]. destruct (common_name (session m i)); [|apply lesser_all_refl].
  destruct (_ && _); [|apply lesser_all_refl]. eapply lesser_all_trans; [|apply lesser_deauthenticate]. by apply lesser_session.
Qed.
Lemma enforce_ccd_lesser fill dirsep m i h : wlp (enforce_ccd fill dirsep m i) (fun m' _ => lesser_all m m') h.
Proof.
  unfold enforce_ccd. destruct (client_config_dir_exclusive _); [|wlp_steps; apply lesser_all_refl].
  destruct (authenticated _); [|wlp_steps; apply lesser_all_refl]. wlp_skip. wlp_steps. case_match; [|apply lesser_all_refl].
  apply lesser_primary. by split.
Qed.

(** [authorize] sets authenticated of the primary key. *)
Lemma authorize_written fill dirsep m i ok s h : key_primary s = primary m i -> key_lame s = key_lame (session m i) ->
  wlp (authorize fill dirsep m i ok s) (fun m' _ => key_written m m' i true /\ Tls.key (primary m' i) = Tls.key (primary m i)) h.
Proof.
  intros Hp Hl. unfold authorize. set (m0 := set_session m i s). set (m1 := set_primary m0 i _).
  set (m2 := match common_name (session m1 i) with Some _ => m1 | None => _ end).
  assert (lesser_all m1 m2) as L12.
  { unfold m2. destruct (common_name _); [apply lesser_all_refl|by apply lesser_session]. }
  assert (lesser_all m2 (enforce_locked_cn m2 i)) as L23 by apply lesser_locked_cn.
  eapply wlp_mono; [apply enforce_ccd_lesser|]. intros m4 h4 L34.
  destruct (lesser_all_trans _ _ _ (lesser_all_trans _ _ _ L12 L23) L34) as [Eo L].
  assert (lesser_all m m0) as [_ L0] by by apply lesser_session.
  assert (m_opt m1 = m_opt m /\ state (primary m1 i) = state (primary m i) /\ Tls.key (primary m1 i) = Tls.key (primary m i)) as (F1 & F2 & F3).
  { unfold m1, m0. rewrite primary_set. split; [by destruct i|]. unfold primary in *. rewrite session_set_eq. cbn. by rewrite Hp. }
  destruct (L (i, KS_PRIMARY)) as (Es & Ek & _). change (ks_at ?m (i, KS_PRIMARY)) with (primary m i) in *.
  split; [split; [congruence|split; [|congruence]]|congruence]. intros r Hr. eapply lesser_trans; [apply L0|].
  eapply lesser_trans; [|apply L]. unfold m1. rewrite ks_at_set_primary, decide_False by done. apply lesser_refl.
Qed.

Lemma key_written_trans m1 m2 m3 i b : key_written m1 m2 i b -> key_written m2 m3 i b -> key_written m1 m3 i b.
Proof.
  intros (E1 & L1 & S1) (E2 & L2 & S2). split; [congruence|]. split; [|congruence]. intros r Hr. eapply lesser_trans; [by apply L1|by apply L2].
Qed.

Lemma key_method_2_read_keys fill dirsep m i h : wlp (key_method_2_read fill dirsep m i) (fun r _ => let '(ok, m') := r in
  key_written m m' i ok /\ (Tls.key (primary m' i) = Tls.key (primary m i) \/ made (m_opt m) (Tls.key (primary m' i))) /\
  (ok = true -> server (m_opt m) = false -> made (m_opt m) (Tls.key (primary m' i)))) h.
Proof.
  assert (forall ks', state ks' = state (primary m i) -> Tls.key ks' = Tls.key (primary m i) ->
    let m' := set_primary m i ks' in key_written m m' i false /\
    (Tls.key (primary m' i) = Tls.key (primary m i) \/ made (m_opt m) (Tls.key (primary m' i))) /\
    (false = true -> server (m_opt m) = false -> made (m_opt m) (Tls.key (primary m' i)))) as Hno.
  { intros ks' Es Ek. split; [by apply written_primary|]. rewrite primary_set. split; [by left|done]. }
  unfold key_method_2_read. wlp_skip. destruct (buf_advance _ 4) as [ok0 buf0]. wlp_skip. wlp_skip as [flags buf1].
  destruct (Z.land _ _ =? 2); wlp_steps.
  2:{ wlp_skip. wlp_steps. by apply Hno. }
  wlp_skip as [[ok2 src] buf2].
  destruct ok2; wlp_steps.
  2:{ wlp_skip. wlp_steps. rewrite primary_set, set_primary_twice. by apply Hno. }
  wlp_skip as [options buf3]. destruct options.
  2:{ wlp_skip. wlp_steps. rewrite primary_set, set_primary_twice. by apply Hno. }
  wlp_steps. rewrite primary_set, set_primary_twice. set (m2 := set_primary m i _).
  assert (forall b, key_written m m2 i b /\ Tls.key (primary m2 i) = Tls.key (primary m i)) as Hm2.
  { intros b. unfold m2. split; [by apply written_primary|]. by rewrite primary_set. }
  eapply wlp_mono; [apply authenticate_peer_spec|]. intros [auth buf'] h1 Hs. wlp_steps. destruct auth as [[ok s]|].
  2:{ wlp_skip. wlp_steps. unfold m2. rewrite !primary_set, set_primary_twice. split; [by apply written_primary|]. split; [by left|done]. }
  cbn in Hs. destruct Hs as (Hl & Hk & _). wlp_steps.
  eapply wlp_mono; [by apply (authorize_written fill dirsep m2 i ok s)|]. intros m3 h3 [W3 K3]. wlp_skip.
  destruct (Hm2 true) as [W2 K2]. pose proof (key_written_trans _ _ _ _ _ W2 W3) as W. assert (Tls.key (primary m3 i) = Tls.key (primary m i)) as K by congruence.
  assert (forall b ks', state ks' = state (primary m3 i) -> key_written m (set_primary m3 i ks') i b) as Hw.
  { intros b ks' Es. apply (key_written_trans m m3); [exact W|by apply written_primary]. }
  clear Hno Hm2. clearbody m2. destruct (server (m_opt m)) eqn:Esv; wlp_steps.
  { split; [by apply Hw|]. rewrite primary_set. split; [by left|done]. }
  eapply wlp_mono; [apply expansion_made|]. intros o h5 Ho. wlp_steps. destruct o as [key|]; wlp_steps.
  - rewrite !primary_set, set_primary_twice. split; [by apply Hw|]. cbn. split; [right|intros _ _]; by apply Ho.
  - wlp_skip. wlp_steps. rewrite !primary_set, set_primary_twice. split; [by apply Hw|]. cbn. split; [by left|done].
Qed.

(** ** The parts of the round *)

Lemma keyed_same m m' i f : keyed_all m -> lesser (primary m i) (f (primary m i)) -> m' = set_primary m i (f (primary m i)) -> keyed_all m'.
Proof. intros Hm Hl ->. eapply keyed_all_lesser; [exact Hm|by apply lesser_primary]. Qed.

Lemma initial_handshake_keys now i p h : keyed_all (p_multi p) -> wlp (initial_handshake now i p) (fun x _ => keeps_keys x) h.
Proof.
  intros Hk. unfold initial_handshake. destruct (state (the_ks p i) =? S_INITIAL); [|by wlp_steps]. wlp_skip. wlp_skip as [[j|] send].
  - wlp_skip as send2. rewrite upd_upd. cbn [keeps_keys p_multi set_change]. apply keyed_upd; [done..|]. right. left. by vm_compute.
  - apply keyed_upd; [done..|]. by left.
Qed.

Lemma receive_timeout_keys now i p h : keyed_all (p_multi p) -> wlp (receive_timeout now i p) (fun x _ => keeps_keys x) h.
Proof.
  intros Hk. unfold receive_timeout. destruct (_ >=? _); [|by wlp_steps]. destruct (state (the_ks p i) <? S_ACTIVE) eqn:E; wlp_steps; [done|].
  apply keyed_upd; [done..|]. right. right. unfold exchanged, S_ACTIVE, S_GOT_KEY in *. split; [by vm_compute|]. destruct (server _); [right|]; lia.
Qed.

Lemma wait_initial_ack_keys i p h : keyed_all (p_multi p) -> wlp (wait_initial_ack i p) (fun x _ => keeps_keys x) h.
Proof.
  intros Hk. unfold wait_initial_ack. destruct (_ =? _); [|by wlp_steps]. wlp_skip as [|]; [|done].
  apply keyed_upd; [done..|]. right. left. by vm_compute.
Qed.

Lemma wait_ack_keys now i p h : keyed_all (p_multi p) -> wlp (wait_ack now i p) (fun x _ => keeps_keys x) h.
Proof.
  intros Hk. unfold wait_ack. destruct (_ || _) eqn:E; [|by wlp_steps]. wlp_skip as [|]; [|done].
  apply keyed_upd; [done..|]. right. right. split; [by vm_compute|]. unfold exchanged.
  apply orb_true_iff in E as [E|E]; apply andb_true_iff in E as [E1 E2]; destruct (server (m_opt (p_multi p))); try done; apply Z.eqb_eq in E1; rewrite E1;
    [by vm_compute|by left].
Qed.

Lemma send_control_keys env now i p b op n pre h : keyed_all (p_multi p) ->
  wlp (send_control env now i p b op n pre) (fun r _ => keyed_all (p_multi (snd r))) h.
Proof.
  intros Hk. unfold send_control. wlp_skip. wlp_skip as [[[[rest buf] ack] ta] addr]. wlp_skip as rec. cbn [p_multi].
  set (m := p_multi p) in *. set (s := set_tls_auth (session m i) _). assert (lesser_all m (set_session m i s)) as [Eo Hl] by by apply lesser_session.
  assert (primary (set_session m i s) i = key_primary (session m i)) as Ep by by destruct i.
  eapply keyed_all_lesser; [exact Hk|]. eapply lesser_all_trans; [by split|]. apply lesser_primary. by rewrite Ep.
Qed.

Lemma send_packet_keys env now i p h : keyed_all (p_multi p) -> wlp (send_packet env now i p) (fun x _ => keeps_keys x) h.
Proof.
  intros Hk. unfold send_packet. wlp_skip. destruct (_ && _); [|by wlp_steps]. destruct (reliable_send _ _) as [r send'].
  wlp_skip as [j op]. wlp_skip as e. eapply wlp_mono; [apply send_control_keys; apply keyed_upd; [done..|by left]|].
  intros [b p'] h9 Hp. by wlp_steps.
Qed.

Lemma ciphertext_in_keys i p h : keyed_all (p_multi p) -> wlp (ciphertext_in i p) (fun x _ => keeps_keys x) h.
Proof.
  intros Hk. unfold ciphertext_in. wlp_skip. destruct (reliable_get_buf_sequenced _); [|by wlp_steps]. wlp_skip as e.
  eapply (wlp_mono _ (fun r _ => lesser_all (p_multi p) (snd r))).
  { destruct (b_len _ =? 0); wlp_steps; [apply lesser_all_refl|apply write_ciphertext_lesser]. }
  intros [[status buf] m] h1 Hl. cbn [snd] in Hl. wlp_steps.
  assert (keyed_all m) as Hm by by eapply keyed_all_lesser.
  assert (forall r, keyed_all (p_multi (upd (set_multi p m) i (fun ks => ks_set_rec_reliable ks r)))) as Hu.
  { intros r. apply keyed_upd; [done..|]. by left. }
  destruct (status =? -1); wlp_steps; [apply Hu|]. destruct (status =? 1); wlp_steps; [|apply Hu].
  wlp_skip as rec2. rewrite (upd_upd (set_multi p m) i). apply (Hu rec2).
Qed.

Lemma plaintext_in_keys i p h : keyed_all (p_multi p) -> wlp (plaintext_in i p) (fun x _ => keeps_keys x) h.
Proof.
  intros Hk. unfold plaintext_in. destruct (_ =? 0); [|by wlp_steps]. destruct (buf_init _ 0) as [ok buf]. wlp_skip. wlp_steps.
  eapply wlp_mono; [apply read_plaintext_lesser|]. intros [status m] h1 Hl. cbn [snd] in Hl. wlp_steps.
  assert (keyed_all m) as Hm.
  { eapply keyed_all_lesser; [|exact Hl]. apply keyed_upd; [done..|by left]. }
  destruct (status =? -1); wlp_steps; [done|]. by destruct (status =? 1); wlp_steps.
Qed.

Lemma plaintext_out_keys i p h : keyed_all (p_multi p) -> wlp (plaintext_out i p) (fun x _ => keeps_keys x) h.
Proof.
  intros Hk. unfold plaintext_out. destruct (_ =? 0); [by wlp_steps|]. wlp_steps.
  eapply wlp_mono; [apply write_plaintext_lesser|]. intros [status m] h1 Hl. cbn [snd] in Hl. wlp_steps.
  assert (keyed_all m) as Hm by by eapply keyed_all_lesser.
  destruct (status =? -1); wlp_steps; [done|]. by destruct (status =? 1); wlp_steps.
Qed.

Lemma ciphertext_out_keys i p h : keyed_all (p_multi p) -> wlp (ciphertext_out i p) (fun x _ => keeps_keys x) h.
Proof.
  intros Hk. unfold ciphertext_out. destruct (_ >=? _); [|by wlp_steps]. wlp_skip. wlp_skip as [[j|] send]; [|apply keyed_upd; [done..|by left]].
  wlp_skip as e. set (p1 := upd p i _). assert (keyed_all (p_multi p1)) as Hk1 by (apply keyed_upd; [done..|by left]). clearbody p1.
  eapply wlp_mono; [apply read_ciphertext_lesser|]. intros [[status b] m] h1 Hl. cbn [snd] in Hl. wlp_steps.
  assert (forall r, keyed_all (p_multi (upd (set_multi p1 m) i (fun ks => ks_set_send ks r)))) as Hu.
  { intros r. apply keyed_upd; [by eapply keyed_all_lesser|done..|]. by left. }
  destruct (status =? -1); wlp_steps; [apply Hu|]. destruct (status =? 1); wlp_steps; [|apply Hu].
  wlp_skip as send3. rewrite (upd_upd (set_multi p1 m) i). apply (Hu send3).
Qed.

Lemma keyed_written m m' i ok : keyed_all m -> key_written m m' i ok -> keyed (m_opt m) (primary m' i) -> keyed_all m'.
Proof.
  intros Hk (Eo & Hl & _) Hp r. rewrite Eo. destruct (decide (r = (i, KS_PRIMARY))) as [->|Hr]; [exact Hp|].
  eapply keyed_lesser; [apply Hk|by apply Hl].
Qed.
Lemma keyed_written_state m m' i ok st rnd p : keyed_all m -> key_written m m' i ok -> keyed (m_opt m) (ks_set_state (primary m' i) st) ->
  keyed_all (p_multi (set_change (upd (set_rand (set_multi p m') rnd) i (fun ks => ks_set_state ks st)) true)).
Proof.
  intros Hk (Eo & Hl & _) Hp r. cbn [p_multi set_change upd set_rand set_multi].
  assert (forall ks, m_opt (set_primary m' i ks) = m_opt m) as Eo' by (intros ks; rewrite <- Eo; by destruct i).
  rewrite Eo', ks_at_set_primary. case_decide; [exact Hp|]. eapply keyed_lesser; [apply Hk|by apply Hl].
Qed.

(** The state at which a side sends and at which it receives its key. *)
Lemma at_send opt ks : (state ks =? S_START) && negb (server opt) || (state ks =? S_GOT_KEY) && server opt = true ->
  if server opt then state ks = S_GOT_KEY else state ks = S_START.
Proof. intros E. apply orb_true_iff in E as [E|E]; apply andb_true_iff in E as [E1 E2]; destruct (server opt); try done; lia. Qed.
Lemma at_receive opt ks : (state ks =? S_SENT_KEY) && negb (server opt) || (state ks =? S_START) && server opt = true ->
  if server opt then state ks = S_START else state ks = S_SENT_KEY.
Proof. intros E. apply orb_true_iff in E as [E|E]; apply andb_true_iff in E as [E1 E2]; destruct (server opt); try done; lia. Qed.

Lemma same_enc opt k k' : k_encrypt k' = k_encrypt k -> enc_made opt k -> enc_made opt k'.
Proof. unfold enc_made. by intros ->. Qed.
Lemma same_dec opt k k' : k_decrypt k' = k_decrypt k -> dec_made opt k -> dec_made opt k'.
Proof. unfold dec_made. by intros ->. Qed.

Ltac states := unfold exchanged, S_START, S_SENT_KEY, S_GOT_KEY, S_ACTIVE in *; cbn in *;
  repeat match goal with E : server _ = _ |- _ => rewrite E in * end; try lia.

Lemma send_key_keys env i p h : keyed_all (p_multi p) -> wlp (send_key env i p) (fun x _ => keeps_keys x) h.
Proof.
  intros Hk. unfold send_key. destruct (_ && _) eqn:E; [|by wlp_steps]. apply andb_true_iff in E as [_ E]. apply at_send in E.
  pose proof (Hk (i, KS_PRIMARY)) as K. change (ks_at (p_multi p) (i, KS_PRIMARY)) with (the_ks p i) in K.
  set (m0 := p_multi p) in *. set (opt := m_opt m0) in *. wlp_steps.
  eapply (wlp_mono _ (fun r _ => let '(ok, m', _) := r in key_written m0 m' i ok /\ keyed opt (primary m' i) /\
    (ok = true -> keyed opt (ks_set_state (primary m' i) S_SENT_KEY)))).
  2:{ intros [[ok m'] rnd] h1 (W & K1 & K2). wlp_steps. destruct ok; wlp_steps; [|by eapply keyed_written].
      eapply keyed_written_state; [exact Hk|exact W|by apply K2]. }
  destruct (key_method opt =? 1) eqn:E1; [|destruct (key_method opt =? 2) eqn:E2; [|done]].
  - eapply wlp_mono; [apply key_method_1_write_keys|]. intros [[ok m'] rnd] h1 (W & Ea & Ed & Hor & Hm). fold opt in Hor, Hm.
    change (primary m0 i) with (the_ks p i) in *. pose proof W as (_ & _ & Es). change (primary m0 i) with (the_ks p i) in *.
    assert (server opt = true -> authenticated (primary m' i) = true -> dec_made opt (Tls.key (primary m' i))) as Hd.
    { intros Ev Ha. rewrite Ev in E. eapply same_dec; [exact Ed|]. apply (kd_server _ _ K); [lia|done|by rewrite <- Ea|done]. }
    split; [done|]. split; [|intros Hok]; (split; [|auto|]).
    + intros _ Ev. rewrite Es. states.
    + intros Ha. rewrite Es. destruct (server opt) eqn:Ev; states.
    + intros _ Ev _. by apply Hm.
    + intros Ha Hx. cbn in *. split; [by apply Hm|]. destruct (server opt) eqn:Ev; [by apply Hd|states].
  - eapply wlp_mono; [apply key_method_2_write_keys|]. intros [[ok m'] rnd] h1 (W & Ea & Hor & Hm). fold opt in Hor, Hm.
    change (primary m0 i) with (the_ks p i) in *. pose proof W as (_ & _ & Es). change (primary m0 i) with (the_ks p i) in *.
    split; [done|]. split; [|intros Hok]; (split; [lia|lia|]); cbn.
    + intros Ha. rewrite Es. destruct (server opt) eqn:Ev; states.
    + intros Ha Hx. destruct (server opt) eqn:Ev; [|states]. apply Hm; [done|done|by rewrite <- Ea].
Qed.

Lemma receive_key_keys env i p h : keyed_all (p_multi p) -> wlp (receive_key env i p) (fun x _ => keeps_keys x) h.
Proof.
  intros Hk. unfold receive_key. destruct (_ && _) eqn:E; [|by wlp_steps]. apply andb_true_iff in E as [_ E]. apply at_receive in E.
  pose proof (Hk (i, KS_PRIMARY)) as K. change (ks_at (p_multi p) (i, KS_PRIMARY)) with (the_ks p i) in K.
  set (m0 := p_multi p) in *. set (opt := m_opt m0) in *. wlp_steps.
  eapply (wlp_mono _ (fun r _ => let '(ok, m') := r in key_written m0 m' i ok /\ keyed opt (primary m' i) /\
    (ok = true -> keyed opt (ks_set_state (primary m' i) S_GOT_KEY)))).
  2:{ intros [ok m'] h1 (W & K1 & K2). wlp_steps. destruct ok; wlp_steps; [|by eapply keyed_written].
      apply (keyed_written_state m0 m' i true S_GOT_KEY (rand p) p Hk W (K2 eq_refl)). }
  destruct (key_method opt =? 1) eqn:E1; [|destruct (key_method opt =? 2) eqn:E2; [|done]].
  - eapply wlp_mono; [apply key_method_1_read_keys|]. intros [ok m'] h1 (W & Ee & Hor). fold opt in Hor.
    change (primary m0 i) with (the_ks p i) in *. pose proof W as (_ & _ & Es). change (primary m0 i) with (the_ks p i) in *.
    assert (server opt = false -> enc_made opt (Tls.key (primary m' i))) as He.
    { intros Ev. rewrite Ev in E. eapply same_enc; [exact Ee|]. apply (kd_client _ _ K); [lia|done|lia]. }
    split; [done|]. split; [|intros ->]; split; cbn; auto.
    + intros _ Ev _. rewrite Es. states.
    + intros Ha. rewrite Es. destruct (server opt) eqn:Ev; states.
    + intros Ha Hx. destruct (server opt) eqn:Ev; [states|]. split; [by apply He|done].
  - eapply wlp_mono; [apply key_method_2_read_keys|]. intros [ok m'] h1 (W & Hor & Hm). fold opt in Hor, Hm.
    change (primary m0 i) with (the_ks p i) in *. pose proof W as (_ & _ & Es). change (primary m0 i) with (the_ks p i) in *.
    split; [done|]. split; [|intros Hok]; (split; [lia|lia|]); cbn.
    + intros Ha. rewrite Es. destruct (server opt) eqn:Ev; states.
    + intros Ha Hx. destruct (server opt) eqn:Ev; [states|]. by apply Hm.
Qed.

Lemma tls_round_keys env now i p h : keyed_all (p_multi p) -> wlp (tls_round env now i p) (fun x _ => keeps_keys x) h.
Proof.
  intros Hk. unfold tls_round. repeat (apply keeps_chain; [|intros p' h' Hk']).
  - by apply initial_handshake_keys.
  - by apply receive_timeout_keys.
  - by apply wait_initial_ack_keys.
  - by apply wait_ack_keys.
  - by apply send_packet_keys.
  - by apply ciphertext_in_keys.
  - by apply plaintext_in_keys.
  - by apply send_key_keys.
  - by apply receive_key_keys.
  - by apply plaintext_out_keys.
  - by apply ciphertext_out_keys.
Qed.

(** ** The life of a session *)

Definition keyed_session (opt : tls_options) s : Prop := keyed opt (key_primary s) /\ keyed opt (key_lame s).

Lemma keyed_all_sessions m : keyed_all m <-> forall i, keyed_session (m_opt m) (session m i).
Proof.
  split.
  - intros Hk i. split; [apply (Hk (i, KS_PRIMARY))|apply (Hk (i, KS_LAME_DUCK))].
  - intros Hs [i j]. destruct (Hs i) as [? ?]. by destruct j.
Qed.
Lemma keyed_set_session m i s : keyed_all m -> keyed_session (m_opt m) s -> keyed_all (set_session m i s).
Proof.
  intros Hk Hs. apply keyed_all_sessions. intros j. assert (m_opt (set_session m i s) = m_opt m) as -> by by destruct i.
  destruct (decide (i = j)) as [<-|Hij]; [by rewrite session_set_eq|]. rewrite session_set_ne by done. by apply keyed_all_sessions.
Qed.
Lemma clear_session_keyed opt : keyed_session opt clear_session.
Proof. by split; apply keyed_early. Qed.

Lemma key_state_init_keyed fill opt i s h : wlp (key_state_init SSL_new fill opt i s) (fun r _ =>
  keyed opt (fst r) /\ key_primary (snd r) = key_primary s /\ key_lame (snd r) = key_lame s) h.
Proof. unfold key_state_init. do 7 wlp_skip. wlp_steps. split; [by apply keyed_early|done]. Qed.

Lemma key_state_free_keyed opt ks c h : wlp (key_state_free ks c) (fun ks' _ => keyed opt ks') h.
Proof. unfold key_state_free. do 5 wlp_skip. wlp_steps. by destruct c; apply keyed_early. Qed.

Lemma tls_session_init_keyed fill opt i pp draws h : wlp (tls_session_init SSL_new fill opt i pp draws) (fun r _ => keyed_session opt (fst r)) h.
Proof.
  unfold tls_session_init. wlp_skip as [sid draws']. wlp_skip. wlp_skip. wlp_steps.
  eapply wlp_mono; [apply key_state_init_keyed|]. intros [ks s] h1 (Hk & Hp & Hl). wlp_steps. split; [done|]. cbn in *. rewrite Hl. by apply keyed_early.
Qed.

Lemma soft_reset_keyed now fill opt i s h : keyed_session opt s -> wlp (key_state_soft_reset SSL_new now fill opt i s) (fun s' _ => keyed_session opt s') h.
Proof.
  intros [Hp Hl]. unfold key_state_soft_reset. wlp_skip. wlp_steps. eapply wlp_mono; [apply key_state_init_keyed|].
  intros [ks s'] h1 (Hk & _ & Hl'). wlp_steps. cbn [fst snd] in *. split; cbn [key_primary key_lame set_key].
  - eapply keyed_lesser; [exact Hk|by split].
  - rewrite Hl'. eapply keyed_lesser; [exact Hp|by split].
Qed.

Lemma tls_session_free_keyed opt s c h : wlp (tls_session_free s c) (fun s' _ => keyed_session opt s') h.
Proof.
  unfold tls_session_free. wlp_steps. eapply wlp_mono; [apply (key_state_free_keyed opt)|]. intros ks h1 Hk. wlp_steps.
  eapply wlp_mono; [apply (key_state_free_keyed opt)|]. intros ks' h2 Hk'. wlp_steps. destruct c; [apply clear_session_keyed|by split].
Qed.

Lemma reset_session_keyed fill m i draws h : keyed_all m -> wlp (reset_session SSL_new fill m i draws) (fun r _ => keyed_all (fst r)) h.
Proof.
  intros Hk. unfold reset_session. wlp_skip. wlp_steps. eapply wlp_mono; [apply tls_session_init_keyed|]. intros [s dr] h1 Hs. wlp_steps.
  by apply keyed_set_session.
Qed.
Lemma move_session_keyed fill m dest src b draws h : keyed_all m -> wlp (move_session SSL_new fill m dest src b draws) (fun r _ => keyed_all (fst r)) h.
Proof.
  intros Hk. unfold move_session. wlp_skip. wlp_skip. wlp_steps. set (m1 := set_session m dest _).
  assert (keyed_all m1) as Hk1 by by (apply keyed_set_session; [|apply keyed_all_sessions]).
  destruct b; wlp_steps; [|apply keyed_set_session; [done|apply clear_session_keyed]].
  eapply wlp_mono; [apply tls_session_init_keyed|]. intros [s dr] h1 Hs. wlp_steps. by apply keyed_set_session.
Qed.

(** ** tls_process, tls_multi_process *)

Lemma tls_loop_keys fuel env clock i : forall k p h, keyed_all (p_multi p) ->
  wlp (tls_loop fuel env clock k i p) (fun r _ => match fst r with Some x => keeps_keys x | None => True end) h.
Proof.
  induction fuel as [|fuel IH]; intros k p h Hk; cbn [tls_loop]; [by wlp_steps|]. wlp_steps.
  eapply wlp_mono; [by apply tls_round_keys|]. intros x h1 Hx. destruct x as [p'|p'|p']; [|by wlp_steps..].
  destruct (state_change p'); [by apply IH|by wlp_steps].
Qed.

Lemma tls_process_keys fuel env clock k i wakeup p h : keyed_all (p_multi p) ->
  wlp (tls_process fuel env clock k i wakeup p) (fun r _ => match r with Some (_, _, p', _) => keyed_all (p_multi p') | None => True end) h.
Proof.
  intros Hk. unfold tls_process. do 3 wlp_skip. set (p0 := Proc _ _ _ false false _ _ _). wlp_steps.
  eapply (wlp_mono _ (fun p1 _ => keyed_all (p_multi p1))).
  { destruct (should_renegotiate _ _ _); [|by wlp_steps]. wlp_steps. eapply wlp_mono; [apply soft_reset_keyed; by apply keyed_all_sessions|].
    intros s h1 Hs. wlp_steps. apply keyed_set_session; [done|exact Hs]. }
  intros p1 h1 Hk1. wlp_skip as [die w]. eapply (wlp_mono _ (fun p2 _ => keyed_all (p_multi p2))).
  { destruct die; [|by wlp_steps]. wlp_steps. eapply wlp_mono; [apply key_state_free_keyed|]. intros ks h2 Hks. wlp_steps.
    unfold set_ks. cbn [fst snd p_multi set_multi]. apply keyed_set_session; [done|]. split; [apply (Hk1 (i, KS_PRIMARY))|exact Hks]. }
  intros p2 h2 Hk2. wlp_steps. eapply wlp_mono; [by apply tls_loop_keys|]. intros [r k'] h3 Hr. cbn [fst] in Hr. wlp_steps.
  assert (forall p3 h, keyed_all (p_multi p3) -> wlp (p4 ← send_acks env (clock k') i p3;
      wakeup ← lift (next_wakeup (clock k') (m_opt (p_multi p)) (the_ks p4 i) w);
      mret (Some (if wakeup <=? 0 then (true, 1, p4, k') else (tls_active p4, wakeup, p4, k')))) (fun r _ => match r with Some (_, _, p', _) => keyed_all (p_multi p') | None => True end) h) as Hend.
  { intros p3 h4 Hk3. wlp_steps. eapply (wlp_mono _ (fun p4 _ => keyed_all (p_multi p4))).
    - unfold send_acks. wlp_skip. destruct (_ && _); [|by wlp_steps]. destruct (buf_init _ _) as [ok b]. wlp_skip. wlp_steps.
      eapply wlp_mono; [by apply send_control_keys|]. intros [b' p4] h5 Hk4. wlp_steps. apply keyed_upd; [done..|by left].
    - intros p4 h5 Hk4. wlp_skip. wlp_steps. by destruct (_ <=? 0). }
  destruct r as [[p3|p3|p3]|]; [by apply Hend|by apply Hend| |done].
  wlp_steps. apply keyed_upd; [done..|]. right. left. by vm_compute.
Qed.

(** The session objects are the same. *)
Lemma keyed_sessions m m' : keyed_all m -> m_opt m' = m_opt m -> (forall i, session m' i = session m i) -> keyed_all m'.
Proof. intros Hk Eo Es [i j]. unfold ks_at. cbn [fst snd]. rewrite Eo, Es. apply (Hk (i, j)). Qed.

Lemma session_error_keys env i y h : keyed_all (p_multi (mp_proc y)) ->
  wlp (session_error env i y) (fun y' _ => keyed_all (p_multi (mp_proc y'))) h.
Proof.
  intros Hk. unfold session_error. set (m := incr_soft_errors _). assert (keyed_all m) as Hm.
  { apply (keyed_sessions (p_multi (mp_proc y))); [exact Hk|done|]. by intros []. }
  wlp_steps. eapply (wlp_mono _ (fun r _ => keyed_all (fst r))).
  { destruct (_ && _); [by apply move_session_keyed|by apply reset_session_keyed]. }
  intros [m' dr] h1 Hm'. by wlp_steps.
Qed.

Lemma process_session_keys fuel env clock i y h : keyed_all (p_multi (mp_proc y)) ->
  wlp (process_session fuel env clock i y) (fun r _ => match r with Some y' => keyed_all (p_multi (mp_proc y')) | None => True end) h.
Proof.
  intros Hk. unfold process_session. set (p := if _ && _ && _ then _ else mp_proc y).
  assert (keyed_all (p_multi p)) as Hp.
  { unfold p. destruct (_ && _ && _); [|done]. apply keyed_upd; [done..|by left]. }
  clearbody p. cbn [mp_proc mp_time mp_wakeup mp_active mp_error mp_draws]. destruct (_ && _); [|by wlp_steps]. wlp_steps.
  eapply wlp_mono; [by apply tls_process_keys|]. intros [[[[ac wk] p'] k']|] h1 Hr; [|by wlp_steps]. wlp_steps.
  eapply (wlp_mono _ (fun y' _ => keyed_all (p_multi (mp_proc y')))); [|intros; by wlp_steps].
  destruct (_ =? S_ERROR); [by apply session_error_keys|by wlp_steps].
Qed.

Lemma finish_multi_keys env now y h : keyed_all (p_multi (mp_proc y)) ->
  wlp (finish_multi env now y) (fun y' _ => keyed_all (p_multi (mp_proc y'))) h.
Proof.
  intros Hk. unfold finish_multi. wlp_skip as [die w]. eapply (wlp_mono _ (fun m _ => keyed_all m)).
  { destruct die; [|by wlp_steps]. wlp_steps. eapply wlp_mono; [apply tls_session_free_keyed|]. intros s h1 Hs. wlp_steps. apply keyed_set_session; [done|exact Hs]. }
  intros m h1 Hm. wlp_steps. eapply (wlp_mono _ (fun r _ => keyed_all (fst r))).
  { destruct (DECRYPT_KEY_ENABLED _ _); [by apply move_session_keyed|by wlp_steps]. }
  intros [m' dr] h2 Hm'. wlp_steps. cbn in *. destruct (_ && _); [|done]. eapply keyed_sessions; [exact Hm'|done|by intros []].
Qed.

Lemma tls_multi_process_keys fuel env clock y h : keyed_all (p_multi (mp_proc y)) ->
  wlp (tls_multi_process fuel env clock y) (fun r _ => match r with Some y' => keyed_all (p_multi (mp_proc y')) | None => True end) h.
Proof.
  intros Hk. unfold tls_multi_process. wlp_steps. eapply wlp_mono; [by apply process_session_keys|]. intros r1 h1 H1'. wlp_steps.
  eapply (wlp_mono _ (fun r _ => match r with Some y' => keyed_all (p_multi (mp_proc y')) | None => True end)).
  { destruct r1; [by apply process_session_keys|by wlp_steps]. }
  intros r2 h2 H2'. wlp_steps. eapply (wlp_mono _ (fun r _ => match r with Some y' => keyed_all (p_multi (mp_proc y')) | None => True end)).
  { destruct r2; [by apply process_session_keys|by wlp_steps]. }
  intros r3 h3 H3'. destruct r3; [|by wlp_steps]. wlp_steps. eapply wlp_mono; [by apply finish_multi_keys|]. intros y' h4 Hy. by wlp_steps.
Qed.

(** ** tls_pre_decrypt and the data channel *)

Lemma session_read_auth_keys now fill m i b h : keyed_all m -> wlp (session_read_auth now fill m i b) (fun r _ => keyed_all (snd r)) h.
Proof.
  intros Hk. unfold session_read_auth. wlp_skip as [[ok b'] co]. cbn [snd].
  set (m1 := set_session m i _). assert (keyed_all m1) as Hk1 by (eapply keyed_all_lesser; [exact Hk|by apply lesser_session]).
  eapply keyed_sessions; [exact Hk1|done|by intros []].
Qed.
Lemma set_addr_keys m i a : keyed_all m -> keyed_all (set_session m i (set_untrusted_sockaddr (session m i) a)).
Proof. intros Hk. eapply keyed_all_lesser; [exact Hk|by apply lesser_session]. Qed.

Lemma route_untrusted_keys now fill m from b op bst h : keyed_all m -> wlp (route_untrusted now fill m from b op bst) (fun r _ => keyed_all (snd (fst r))) h.
Proof.
  intros Hk. unfold route_untrusted. destruct (single_session _); [by wlp_steps|]. destruct (is_hard_reset _ _); [|by wlp_steps]. wlp_steps.
  eapply wlp_mono; [by apply session_read_auth_keys|]. intros [[ok b'] m'] h1 Hm. cbn [snd] in Hm. wlp_steps.
  destruct ok; wlp_steps; [|done]. by apply (set_addr_keys m' TM_UNTRUSTED).
Qed.

Lemma route_existing_keys now fill m from b op i bst nl h : keyed_all m ->
  wlp (route_existing SSL_new now fill m from b op i bst nl) (fun r _ => keyed_all (snd (fst r))) h.
Proof.
  intros Hk. unfold route_existing. destruct (_ && _); [by wlp_steps|]. destruct (_ && _).
  - wlp_steps. eapply wlp_mono; [by apply session_read_auth_keys|]. intros [[ok b'] m'] h1 Hm. cbn [snd] in Hm. wlp_steps.
    destruct ok; wlp_steps; [|done]. eapply wlp_mono; [apply soft_reset_keyed; by apply keyed_all_sessions|]. intros s h2 Hs. wlp_steps.
    by apply keyed_set_session.
  - wlp_steps. eapply wlp_mono; [by apply session_read_auth_keys|]. intros [[ok b'] m'] h1 Hm. cbn [snd] in Hm. wlp_steps.
    by destruct ok; wlp_steps.
Qed.

Lemma route_control_keys now fill m from b op sid h : keyed_all m ->
  wlp (route_control SSL_new now fill m from b op sid) (fun r _ => keyed_all (snd (fst r))) h.
Proof.
  intros Hk. unfold route_control.
  assert (forall found i bst nl m', route_initial m from op found = Some (i, bst, nl, m') -> keyed_all m') as Hi.
  { intros found i bst nl m'. unfold route_initial. destruct found; [by intros [= _ _ _ <-]|].
    destruct (is_hard_reset op 0); [|by intros [= _ _ _ <-]]. destruct (is_hard_reset op _); [|done]. cbn [negb].
    destruct (session_id_defined _); [by intros [= _ _ _ <-]|]. cbn [negb]. destruct (_ && _); [done|]. intros [= _ _ _ <-].
    by apply (set_addr_keys m TM_ACTIVE). }
  assert (forall found, wlp (match route_initial m from op found with None => mret (RouteError, m, b)
    | Some (i, do_burst, new_link, m') => match i with
        | None => if is_hard_reset op 0 then route_untrusted now fill m' from b op do_burst else mret (RouteError, m', b)
        | Some i => route_existing SSL_new now fill m' from b op i do_burst new_link end end) (fun r _ => keyed_all (snd (fst r))) h) as Hall.
  { intros found. destruct (route_initial m from op found) as [[[[i bst] nl] m']|] eqn:E; [|by wlp_steps]. specialize (Hi _ _ _ _ _ E).
    destruct i; [by apply route_existing_keys|]. destruct (is_hard_reset op 0); [by apply route_untrusted_keys|by wlp_steps]. }
  destruct (find_session m sid) as [[]|]; [apply Hall|apply Hall|by wlp_steps|apply Hall].
Qed.

Lemma accept_control_keys now m from b op kid sid i bst nl h : keyed_all m ->
  wlp (accept_control now m from b op kid sid i bst nl) (fun r _ => keyed_all (snd (fst r))) h.
Proof.
  intros Hk. unfold accept_control. do 3 wlp_skip. set (m1 := link_session m i sid from nl).
  assert (keyed_all m1) as Hk1.
  { unfold m1, link_session. destruct nl; [|done]. assert (keyed_all (set_primary m i (ks_set_remote (key_primary (session m i)) sid from))) as Hs.
    { eapply keyed_all_lesser; [exact Hk|by apply lesser_primary]. }
    eapply keyed_sessions; [exact Hs|done|by intros []]. }
  clearbody m1. destruct (_ && _); [by wlp_steps|]. wlp_steps. eapply (wlp_mono _ (fun m2 _ => keyed_all m2)).
  { unfold burst_session. destruct (_ && _); [|by wlp_steps]. wlp_skip as send. eapply keyed_all_lesser; [exact Hk1|].
    set (s1 := set_key _ _ _). eapply (lesser_all_trans _ (set_session m1 i s1)); [by apply (lesser_primary m1 i)|].
    assert (set_session m1 i (set_burst s1 true) = set_session (set_session m1 i s1) i (set_burst s1 true)) as -> by by destruct i.
    apply lesser_session; by rewrite session_set_eq. }
  intros m2 h2 Hk2. unfold accept_acked. destruct (_ =? kid); wlp_steps; [|done]. wlp_skip as [[ok ack] b2]. destruct ok; wlp_steps; [|done].
  wlp_skip as send. set (m3 := set_ks m2 _ _). assert (keyed_all m3) as Hk3 by (eapply keyed_all_lesser; [exact Hk2|by apply (lesser_primary m2 i)]).
  destruct (_ =? P_ACK_V1); wlp_steps; [done|]. wlp_skip as rec. wlp_skip as ack2. wlp_skip as [[rec' ack'] b3]. cbn [fst snd].
  assert (key_primary (session m3 i) = ks_set_send (key_primary (session m2 i)) (reliable_send_purge send ack)) as E by by destruct i.
  eapply keyed_all_lesser; [exact Hk3|]. apply (lesser_primary m3 i). unfold primary. by rewrite E.
Qed.

Lemma count_keys m r n : keyed_all m -> keyed_all (set_ks m r (ks_count (ks_at m r) n)).
Proof.
  intros Hk. destruct r as [i j]. unfold set_ks. cbn [fst snd]. apply keyed_set_session; [done|].
  pose proof (Hk (i, KS_PRIMARY)) as K1. pose proof (Hk (i, KS_LAME_DUCK)) as K2. by destruct j; split; [eapply keyed_lesser; [exact K1|by split]|exact K2|exact K1|eapply keyed_lesser; [exact K2|by split]].
Qed.

Lemma tls_pre_decrypt_keys now fill m from b o h : keyed_all m ->
  wlp (tls_pre_decrypt SSL_new now fill m from b o) (fun r _ => let '(_, m', _, _) := r in keyed_all m') h.
Proof.
  intros Hk. unfold tls_pre_decrypt. assert (keyed_all (incr_soft_errors m)) as Hi by (eapply keyed_sessions; [exact Hk|done|by intros []]).
  destruct (b_len b >? 0); [|by wlp_steps]. wlp_skip. wlp_skip as c. destruct (_ =? P_DATA_V1).
  { destruct (data_key m from _) as [r|]; [|by wlp_steps]. destruct (buf_advance b 1) as [ok b1]. wlp_skip. wlp_steps. by apply count_keys. }
  destruct (_ || _); [by wlp_steps|]. destruct (_ && _); [by wlp_steps|]. destruct (buf_advance b 1) as [ok b1].
  wlp_skip as [[sid|] b2]; [|done]. destruct (session_id_defined sid); wlp_steps; [|done].
  eapply wlp_mono; [by apply route_control_keys|]. intros [[r m'] b'] h1 Hm. cbn [fst snd] in Hm. wlp_steps.
  destruct r as [|i bst nl]; wlp_steps; [eapply keyed_sessions; [exact Hm|done|by intros []]|].
  eapply wlp_mono; [by apply accept_control_keys|]. intros [[ok' m2] b3] h2 Hm2. cbn [fst snd] in Hm2. wlp_steps.
  destruct ok'; [done|]. eapply keyed_sessions; [exact Hm2|done|by intros []].
Qed.

Lemma tls_post_encrypt_keys m b h : keyed_all m -> wlp (tls_post_encrypt m b) (fun r _ => keyed_all (fst r)) h.
Proof.
  intros Hk. unfold tls_post_encrypt. assert (keyed_all (set_save_ks m None)) as Hs by (eapply keyed_sessions; [exact Hk|done|by intros []]).
  destruct (_ >? 0); [|by wlp_steps]. wlp_skip as r. destruct (buf_prepend b 1) as [op b']. wlp_skip. wlp_skip. wlp_steps. by apply count_keys.
Qed.

Lemma tls_pre_encrypt_keys m b o : keyed_all m -> keyed_all (fst (fst (tls_pre_encrypt m b o))).
Proof.
  intros Hk. unfold tls_pre_encrypt. destruct (_ >? 0); [|by eapply keyed_sessions; [exact Hk|done|intros []]].
  destruct (encrypt_key _); by (eapply keyed_sessions; [exact Hk|done|intros []]).
Qed.
Lemma send_payload_keys m data h : keyed_all m -> wlp (tls_send_payload m data) (fun r _ => keyed_all (snd r)) h.
Proof.
  intros Hk. unfold tls_send_payload. destruct (_ >=? _); [|by wlp_steps]. wlp_steps.
  eapply wlp_mono; [apply write_plaintext_const_lesser|]. intros [st m'] h1 Hl. wlp_steps. by eapply keyed_all_lesser.
Qed.
Lemma rec_payload_keys m b h : keyed_all m -> wlp (tls_rec_payload m b) (fun r _ => keyed_all (snd (fst r))) h.
Proof.
  intros Hk. unfold tls_rec_payload. destruct (_ && _); [|by wlp_steps]. wlp_skip as [ok b']. wlp_steps.
  eapply keyed_all_lesser; [exact Hk|]. by apply (lesser_primary m TM_ACTIVE).
Qed.
Lemma lock_common_name_keys m : keyed_all m -> keyed_all (tls_lock_common_name m).
Proof.
  intros Hk. unfold tls_lock_common_name. destruct (common_name _), (locked_cn m); exact Hk.
Qed.

(** ** The life of a tls_multi object *)

(** A call of one of the functions that the rest of the program has for it; what else
    happens changes the heap. *)
Inductive tls_step : multi_t * heap -> multi_t * heap -> Prop :=
| step_process fuel env clock y y' h h' :
    tls_multi_process fuel env clock y h = Ok (Some y', h') -> tls_step (p_multi (mp_proc y), h) (p_multi (mp_proc y'), h')
| step_pre_decrypt now fill m from b o h ret m' b' o' h' :
    tls_pre_decrypt SSL_new now fill m from b o h = Ok (ret, m', b', o', h') -> tls_step (m, h) (m', h')
| step_pre_encrypt m b o h : tls_step (m, h) (fst (fst (tls_pre_encrypt m b o)), h)
| step_post_encrypt m b h m' b' h' : tls_post_encrypt m b h = Ok (m', b', h') -> tls_step (m, h) (m', h')
| step_send_payload m data h ok m' h' : tls_send_payload m data h = Ok (ok, m', h') -> tls_step (m, h) (m', h')
| step_rec_payload m b h ok m' b' h' : tls_rec_payload m b h = Ok (ok, m', b', h') -> tls_step (m, h) (m', h')
| step_deauthenticate m h : tls_step (m, h) (tls_deauthenticate m, h)
| step_set_common_name m cn h : tls_step (m, h) (tls_set_common_name m cn, h)
| step_lock_common_name m h : tls_step (m, h) (tls_lock_common_name m, h)
| step_others m h h' : tls_step (m, h) (m, h').

(** From tls_multi_init, tls_multi_init_finalize on. *)
Inductive tls_reachable : multi_t * heap -> Prop :=
| reach_init fill opt persist f draws h m draws' h' :
    tls_multi_init_finalize SSL_new fill (tls_multi_init opt persist) f draws h = Ok (m, draws', h') -> tls_reachable (m, h')
| reach_step st st' : tls_reachable st -> tls_step st st' -> tls_reachable st'.

Lemma init_keys fill opt persist f draws h :
  wlp (tls_multi_init_finalize SSL_new fill (tls_multi_init opt persist) f draws) (fun r _ => keyed_all (fst r)) h.
Proof.
  unfold tls_multi_init_finalize. wlp_skip as cf. set (m0 := Multi _ _ _ _ _ _ _ _ _ _).
  assert (keyed_all m0) as H0'. { apply keyed_all_sessions. intros []; apply clear_session_keyed. }
  wlp_steps. eapply wlp_mono; [apply (tls_session_init_keyed _ _ TM_ACTIVE)|]. intros [s dr] h1 Hs. cbn [fst] in Hs. wlp_steps.
  assert (keyed_all (set_session m0 TM_ACTIVE s)) as H1' by (apply keyed_set_session; [exact H0'|exact Hs]).
  destruct (negb _); [|by wlp_steps]. wlp_steps. eapply wlp_mono; [apply (tls_session_init_keyed _ _ TM_UNTRUSTED)|].
  intros [s' dr'] h2 Hs'. wlp_steps. by apply keyed_set_session.
Qed.

Lemma step_keys st st' : keyed_all (fst st) -> tls_step st st' -> keyed_all (fst st').
Proof.
  intros Hk Hs. destruct Hs as [fuel env clock y y' h h' R|now fill m from b o h ret m' b' o' h' R|m b o h|m b h m' b' h' R
    |m data h ok m' h' R|m b h ok m' b' h' R|m h|m cn h|m h|m h h']; cbn [fst] in *.
  - exact (wlp_Ok _ _ _ _ _ (tls_multi_process_keys fuel env clock y h Hk) R).
  - exact (wlp_Ok _ _ _ _ _ (tls_pre_decrypt_keys now fill m from b o h Hk) R).
  - by apply tls_pre_encrypt_keys.
  - exact (wlp_Ok _ _ _ _ _ (tls_post_encrypt_keys m b h Hk) R).
  - exact (wlp_Ok _ _ _ _ _ (send_payload_keys m data h Hk) R).
  - exact (wlp_Ok _ _ _ _ _ (rec_payload_keys m b h Hk) R).
  - eapply keyed_all_lesser; [exact Hk|apply lesser_deauthenticate].
  - eapply keyed_all_lesser; [exact Hk|by apply lesser_session].
  - by apply lock_common_name_keys.
  - exact Hk.
Qed.

Lemma reachable_keys st : tls_reachable st -> keyed_all (fst st).
Proof.
  induction 1 as [fill opt persist f draws h m draws' h' R|st st' _ IH Hs]; [|by eapply step_keys].
  exact (wlp_Ok _ _ _ _ _ (init_keys fill opt persist f draws h) R).
Qed.

(** C17: no traffic before keys.  In every state that the calls of tls_multi_process,
    tls_pre_decrypt and the rest of the interface of ssl.c can lead to, the key state that
    tls_pre_encrypt picks for a packet has both directions of its key from init_key_ctx, and so
    has its decrypt key the key state that tls_pre_decrypt finds for one - except in one window:
    a server that has got the peer's key (S_GOT_KEY) and, with key method 2, has not expanded
    its keys yet. *)
Theorem keys_before_traffic m h : tls_reachable (m, h) ->
  (forall r, encrypt_key m = Some r -> made (m_opt m) (Tls.key (ks_at m r))) /\
  (forall from kid r, data_key m from kid = Some r ->
     dec_made (m_opt m) (Tls.key (ks_at m r)) \/
     server (m_opt m) = true /\ key_method (m_opt m) <> 1 /\ state (ks_at m r) = S_GOT_KEY).
Proof.
  intros Hr. apply reachable_keys in Hr. cbn [fst] in Hr. split.
  - intros r (_ & Hs & Ha)%encrypt_key_Some. apply (kd_ready _ _ (Hr r) Ha). unfold exchanged. change S_ACTIVE with 6 in *. change S_GOT_KEY with 5.
    destruct (server _); lia.
  - intros from kid r (_ & Hd & _)%data_key_Some. unfold data_ready in Hd. assert (DECRYPT_KEY_ENABLED m (ks_at m r) = true /\ authenticated (ks_at m r) = true) as [Hs Ha] by (by bool_simp). destruct (Hr r) as [_ K2 K3]. specialize (K3 Ha). unfold exchanged, DECRYPT_KEY_ENABLED in *.
    change S_GOT_KEY with 5 in *. change S_SENT_KEY with 4 in *. change S_ACTIVE with 6 in *.
    destruct (server _) eqn:Sv; [|left; apply K3; lia].
    destruct (decide (state (ks_at m r) = 5)) as [E|E]; [|left; apply K3; lia].
    destruct (decide (key_method (m_opt m) = 1)) as [Km|Km]; [left; by apply K2|by right].
Qed.
End Keys.
