(* ===== verification/Lzo.v ===== *)
(** src/lzo.c and src/lzo.h: the compression of packets, its adaptive switch, and the size of
    its work buffer.

    The LZO library is a parameter (class [LzoLib]): what it compresses to and decompresses
    to, or None when it reports an error.  The counters of struct lzo_compress_workspace are
    unsigned long, of 64 bits here. *)

From S2P Require Import Prelude Buffer Integer Mtu.

Class LzoLib := {
  LZO_COMPRESS : list byte -> option (list byte);
  LZO_DECOMPRESS : list byte -> Z -> option (list byte) (* at most the given length *)
}.

Definition COMPRESS_THRESHOLD : Z := 100.
Definition LZO_PREFIX_LEN : Z := 1.
Definition AC_SAMP_SEC : Z := 2.
Definition AC_MIN_BYTES : Z := 1000.
Definition AC_SAVE_PCT : Z := 5.
Definition AC_OFF_SEC : Z := 60.
Definition YES_COMPRESS : Z := 0x66.
Definition NO_COMPRESS : Z := 0xFA.
Definition LZO_EXTRA_BUFFER (len : Z) : Z := i32 (Z.quot len 8 + 128 + 3).

(** ** The adaptive switch *)

Record lzo_adaptive_compress := Adaptive {
  ac_enabled : bool;
  compress_state : bool; (* true: compression is off *)
  ac_next : Z;
  n_total : Z;
  n_comp : Z
}.

(** Whether to compress the next packet. *)
Definition lzo_adaptive_compress_test (now : Z) (ac : lzo_adaptive_compress) : bool * lzo_adaptive_compress :=
  if negb (ac_enabled ac) then (true, ac)
  else if negb (compress_state ac) then
    if now >=? ac_next ac then
      let off := (n_total ac >? AC_MIN_BYTES) && (i32 (n_total ac - n_comp ac) <? Z.quot (n_total ac) (Z.quot 100 AC_SAVE_PCT)) in
      (negb off, Adaptive true off (now + if off then AC_OFF_SEC else AC_SAMP_SEC) 0 0)
    else (true, ac)
  else
    if now >=? ac_next ac then (true, Adaptive true false (now + AC_SAMP_SEC) 0 0) else (false, ac).

Definition lzo_adaptive_compress_data (ac : lzo_adaptive_compress) (total comp : Z) : lzo_adaptive_compress :=
  if ac_enabled ac
  then Adaptive (ac_enabled ac) (compress_state ac) (ac_next ac) (i32 (n_total ac + total)) (i32 (n_comp ac + comp))
  else ac.

Definition lzo_adjust_frame_parameters (f : frame) : frame :=
  let f := frame_add_to_extra_frame f LZO_PREFIX_LEN in
  frame_add_to_extra_buffer f (LZO_EXTRA_BUFFER (EXPANDED_SIZE f)).

Record lzo_compress_workspace := Workspace {
  lzo_ac : lzo_adaptive_compress;
  pre_decompress : Z;
  post_decompress : Z;
  pre_compress : Z;
  post_compress : Z
}.
Definition counter_add (c n : Z) : Z := (c + n) mod 2 ^ 64.

Definition lzo_compress_init (adaptive : bool) : lzo_compress_workspace := Workspace (Adaptive adaptive false 0 0 0) 0 0 0 0.
Definition set_ac (w : lzo_compress_workspace) (ac : lzo_adaptive_compress) : lzo_compress_workspace :=
  Workspace ac (pre_decompress w) (post_decompress w) (pre_compress w) (post_compress w).

(** ** Compressing and decompressing a packet *)

Section Lzo.
Context `{LzoLib}.

(** uint8_t *header = buf_prepend (...); *header = c; *)
Definition prepend_header (b : buffer) (c : Z) : M buffer :=
  let '(header, b) := buf_prepend b 1 in
  header ← deref header;
  _ ← store header [c];
  mret b.

(** The library's output goes to [work], which is the work buffer of the caller: if it has no
    room there the access is outside of the block. *)
Definition lzo_compress (now : Z) (buf work : buffer) (lzowork : lzo_compress_workspace) (f : frame)
  : M (buffer * lzo_compress_workspace) :=
  if b_len buf <=? 0 then mret (buf, lzowork) else
  let '(go, ac) := if b_len buf >=? COMPRESS_THRESHOLD then lzo_adaptive_compress_test now (lzo_ac lzowork) else (false, lzo_ac lzowork) in
  let lzowork := set_ac lzowork ac in
  if go then
    let '(ok, work) := buf_init work (FRAME_HEADROOM f) in
    _ ← ASSERT ok;
    _ ← ASSERT (buf_safe work (LZO_EXTRA_BUFFER (PAYLOAD_SIZE f)));
    _ ← ASSERT (b_len buf <=? PAYLOAD_SIZE f);
    src ← deref (BPTR buf);
    bs ← load src (b_len buf);
    match LZO_COMPRESS bs with
    | None => mret (with_len buf 0, lzowork)
    | Some z =>
        dst ← deref (BPTR work);
        _ ← store dst z;
        _ ← ASSERT (buf_safe work (Zlen z));
        let work := with_len work (Zlen z) in
        let lzowork := Workspace (lzo_adaptive_compress_data (lzo_ac lzowork) (b_len buf) (b_len work))
          (pre_decompress lzowork) (post_decompress lzowork)
          (counter_add (pre_compress lzowork) (b_len buf)) (counter_add (post_compress lzowork) (b_len work)) in
        buf ← (if b_len work <? b_len buf then prepend_header work YES_COMPRESS else prepend_header buf NO_COMPRESS);
        mret (buf, lzowork)
    end
  else
    buf ← prepend_header buf NO_COMPRESS;
    mret (buf, lzowork).

Definition lzo_decompress (buf work : buffer) (lzowork : lzo_compress_workspace) (f : frame)
  : M (buffer * lzo_compress_workspace) :=
  if b_len buf <=? 0 then mret (buf, lzowork) else
  let '(ok, work) := buf_init work (FRAME_HEADROOM f) in
  _ ← ASSERT ok;
  src ← deref (BPTR buf);
  c ← load src 1;
  let '(ok, buf) := buf_advance buf 1 in
  _ ← ASSERT ok;
  let c := be_dec c in
  if c =? YES_COMPRESS then
    _ ← ASSERT (buf_safe work (EXPANDED_SIZE f));
    src ← deref (BPTR buf);
    z ← load src (b_len buf);
    match LZO_DECOMPRESS z (EXPANDED_SIZE f) with
    | None => mret (with_len buf 0, lzowork)
    | Some bs =>
        dst ← deref (BPTR work);
        _ ← store dst bs;
        _ ← ASSERT (buf_safe work (Zlen bs));
        let work := with_len work (Zlen bs) in
        mret (work, Workspace (lzo_ac lzowork) (counter_add (pre_decompress lzowork) (b_len buf)) (counter_add (post_decompress lzowork) (b_len work))
                      (pre_compress lzowork) (post_compress lzowork))
    end
  else if c =? NO_COMPRESS then mret (buf, lzowork)
  else mret (with_len buf 0, lzowork).

(** ** What the library promises *)

(** It never fails to compress, the output is at most LZO_EXTRA_BUFFER longer, and
    decompressing it gives the input back if there is room; it never writes more than its room. *)
Record lzo_ok : Prop := {
  lz_compress : forall bs, is_Some (LZO_COMPRESS bs);
  lz_bound : forall bs z, LZO_COMPRESS bs = Some z -> Zlen z <= Zlen bs + (Zlen bs / 8 + 131);
  lz_inverse : forall bs z n, LZO_COMPRESS bs = Some z -> Zlen bs <= n -> LZO_DECOMPRESS z n = Some bs;
  lz_room : forall z n bs, LZO_DECOMPRESS z n = Some bs -> Zlen bs <= n
}.

(** ** Lemmas *)

Lemma wp_prepend_header h p b bs c :
  buf_rep h p b bs -> 1 <= b_offset b ->
  wp (prepend_header b c) (fun b' h' => keeps [blk p] h h' /\ buf_rep h' p b' (c :: bs) /\ b_offset b' = b_offset b - 1) h.
Proof.
  intros Hb Ho. unfold prepend_header. rewrite (buf_prepend_spec h p b bs 1 Hb) by lia. wp_steps.
  change 1 with (Zlen [c]). apply (wp_store_prepend h p b bs [c] _ Hb); [done|]. intros h' Hb' Hm. wp_steps.
  split; [eapply modifies_keeps; [exact Hm|set_solver]|]. split; [exact Hb'|]. cbn. done.
Qed.

Lemma buf_safe_true h q w ws n : buf_rep h q w ws -> 0 <= n -> b_offset w + b_len w + n <= b_capacity w -> buf_safe w n = true.
Proof. intros Hw Hn Hr. rep_facts Hw. rewrite (buf_safe_spec h q w ws n Hw); [|unfold BUF_MAX; lia]. apply andb_true_iff. split; blia. Qed.

(** Output at the start of an empty buffer. *)
Lemma wp_fill h q w z (Q : unit -> heap -> Prop) :
  buf_rep h q w [] -> b_len w = 0 -> b_offset w + Zlen z <= b_capacity w ->
  (forall h', keeps [blk q] h h' -> buf_rep h' q (with_len w (Zlen z)) z -> Q tt h') ->
  wp (store (ptr_add q (b_offset w)) z) Q h.
Proof.
  intros Hw Hl Hr HQ. rep_facts Hw. pose proof (Zlen_nonneg z).
  apply wp_store; [eapply buf_rep_valid; [exact Hw|lia..]|]. intros h' Hz Hm.
  apply HQ; [eapply modifies_keeps; [exact Hm|set_solver]|]. split; cbn; try done; [by apply Hm|unfold BUF_MAX; lia].
Qed.

(** What goes to the peer: the packet as it is, or compressed when that is shorter. *)
Definition packed (bs out : list byte) : Prop :=
  out = NO_COMPRESS :: bs \/ exists z, LZO_COMPRESS bs = Some z /\ out = YES_COMPRESS :: z /\ Zlen z < Zlen bs.

(** The room that the work buffer needs for a packet of [n] bytes. *)
Definition compress_room (f : frame) (w : buffer) (n : Z) : Prop :=
  1 <= FRAME_HEADROOM f /\ FRAME_HEADROOM f + n + (n / 8 + 131) <= b_capacity w /\
  0 <= LZO_EXTRA_BUFFER (PAYLOAD_SIZE f) <= BUF_MAX /\
  FRAME_HEADROOM f + LZO_EXTRA_BUFFER (PAYLOAD_SIZE f) <= b_capacity w.

(** For what the library makes of this packet. *)
Lemma wp_lzo_compress_fits now h p b bs q w ws lz f z :
  LZO_COMPRESS bs = Some z -> buf_rep h p b bs -> bs <> [] -> Zlen bs <= PAYLOAD_SIZE f -> 1 <= b_offset b ->
  buf_rep h q w ws -> blk q <> blk p -> 1 <= FRAME_HEADROOM f -> FRAME_HEADROOM f + Zlen z <= b_capacity w ->
  0 <= LZO_EXTRA_BUFFER (PAYLOAD_SIZE f) <= BUF_MAX -> FRAME_HEADROOM f + LZO_EXTRA_BUFFER (PAYLOAD_SIZE f) <= b_capacity w ->
  wp (lzo_compress now b w lz f) (fun r h' => exists s out, keeps [blk p; blk q] h h' /\ (s = p \/ s = q) /\
    buf_rep h' s (fst r) out /\ packed bs out /\ Z.min (b_offset b) (FRAME_HEADROOM f) - 1 <= b_offset (fst r)) h.
Proof.
  intros Hz Hb Hne Hpay Hoff Hw Hqp Hr1 Hr2 Hr3 Hr4. rep_facts Hb. pose proof (Zlen_nonneg z). assert (0 < Zlen bs) by (destruct bs; [done|rewrite Zlen_cons; pose proof (Zlen_nonneg bs); lia]).
  unfold lzo_compress. replace (b_len b <=? 0) with false by lia.
  destruct (if b_len b >=? _ then _ else _) as [go ac]. set (lz' := set_ac lz ac). clearbody lz'.
  assert (wp (buf ← prepend_header b NO_COMPRESS; mret (buf, lz')) (fun r h' => exists s out, keeps [blk p; blk q] h h' /\
    (s = p \/ s = q) /\ buf_rep h' s (fst r) out /\ packed bs out /\ Z.min (b_offset b) (FRAME_HEADROOM f) - 1 <= b_offset (fst r)) h) as Hno.
  { wp_steps. eapply wp_mono; [by apply (wp_prepend_header h p b bs)|]. intros b' h' (Hk & Hb' & Eo). wp_steps.
    exists p, (NO_COMPRESS :: bs). split; [eapply keeps_in; [exact Hk|set_solver]|]. split; [by left|]. split; [done|]. split; [by left|]. cbn. lia. }
  destruct go; [|exact Hno]. clear Hno. pose proof (Z.div_pos (Zlen bs) 8 ltac:(lia) ltac:(lia)).
  destruct (buf_init_spec h q w ws (FRAME_HEADROOM f) Hw) as [-> Hw0]; [lia|]. set (w0 := with_offset_len w _ 0) in *.
  rewrite (buf_safe_true h q w0 [] _ Hw0) by (cbn; lia). wp_steps. apply wp_ASSERT; [blia|]. rewrite (BPTR_rep _ _ _ _ Hb), (BPTR_rep _ _ _ _ Hw0). wp_steps. eapply wp_load; [by apply Hb|].
  rewrite Hz. wp_steps.
  apply (wp_fill h q w0 z); [done|done|cbn; lia|]. intros h1 Hk1 Hw1. wp_steps.
  rewrite (buf_safe_true h q w0 [] _ Hw0) by (cbn; lia). wp_steps. change (b_len (with_len w0 (Zlen z))) with (Zlen z). destruct (Zlen z <? b_len b) eqn:Lt.
  - eapply wp_mono; [apply (wp_prepend_header h1 q _ z YES_COMPRESS Hw1); cbn; lia|]. intros b' h2 (Hk2 & Hb2 & Eo). wp_steps.
    exists q, (YES_COMPRESS :: z). split.
    { eapply keeps_trans; eapply keeps_in; [exact Hk1|set_solver|exact Hk2|set_solver]. }
    split; [by right|]. split; [done|]. split; [right; exists z; split_and!; [done|done|lia]|]. cbn in *. lia.
  - assert (buf_rep h1 p b bs) as Hb1 by (eapply buf_rep_keeps; [exact Hk1|set_solver|done]).
    eapply wp_mono; [by apply (wp_prepend_header h1 p b bs NO_COMPRESS)|]. intros b' h2 (Hk2 & Hb2 & Eo). wp_steps.
    exists p, (NO_COMPRESS :: bs). split.
    { eapply keeps_trans; eapply keeps_in; [exact Hk1|set_solver|exact Hk2|set_solver]. }
    split; [by left|]. split; [done|]. split; [by left|]. cbn in *. lia.
Qed.

Lemma wp_lzo_compress now h p b bs q w ws lz f :
  lzo_ok -> buf_rep h p b bs -> bs <> [] -> Zlen bs <= PAYLOAD_SIZE f -> 1 <= b_offset b ->
  buf_rep h q w ws -> blk q <> blk p -> compress_room f w (Zlen bs) ->
  wp (lzo_compress now b w lz f) (fun r h' => exists s out, keeps [blk p; blk q] h h' /\ (s = p \/ s = q) /\
    buf_rep h' s (fst r) out /\ packed bs out /\ Z.min (b_offset b) (FRAME_HEADROOM f) - 1 <= b_offset (fst r)) h.
Proof.
  intros Hlz Hb Hne Hpay Hoff Hw Hqp (Hr1 & Hr2 & Hr3 & Hr4). destruct (lz_compress Hlz bs) as [z Hz]. pose proof (lz_bound Hlz bs z Hz).
  eapply wp_lzo_compress_fits; try eassumption; lia.
Qed.

Lemma wp_lzo_decompress h p b bs out q w ws lz f :
  lzo_ok -> packed bs out -> buf_rep h p b out -> Zlen bs <= EXPANDED_SIZE f ->
  buf_rep h q w ws -> blk q <> blk p -> 0 <= FRAME_HEADROOM f -> EXPANDED_SIZE f <= BUF_MAX -> FRAME_HEADROOM f + EXPANDED_SIZE f <= b_capacity w ->
  wp (lzo_decompress b w lz f) (fun r h' => keeps [blk q] h h' /\ exists s, (s = p \/ s = q) /\ buf_rep h' s (fst r) bs) h.
Proof.
  intros Hlz Hp Hb Hx Hw Hqp Hf Hm Hr. pose proof (Zlen_nonneg bs). assert (exists c rest, out = c :: rest) as (c & rest & Eout) by (destruct Hp as [->|(z & _ & -> & _)]; eauto).
  rep_facts Hb. rewrite Eout, Zlen_cons in *. pose proof (Zlen_nonneg rest). unfold lzo_decompress. replace (b_len b <=? 0) with false by lia.
  destruct (buf_init_spec h q w ws (FRAME_HEADROOM f) Hw) as [-> Hw0]; [lia|]. set (w0 := with_offset_len w _ 0) in *. wp_steps.
  rewrite (BPTR_rep _ _ _ _ Hb). wp_steps. eapply wp_load; [by apply (buf_rep_prefix h p b [c] rest)|].
  destruct (buf_advance_spec h p b [c] rest Hb) as [Ha Hb1]. change (Zlen [c]) with 1 in *. rewrite Ha. set (b1 := with_offset_len b _ _) in *. wp_steps.
  change (be_dec [c]) with c. destruct Hp as [E|(z & Ez & E & Hlt)]; injection E as -> ->.
  - wp_steps. split; [apply keeps_refl|]. exists p. by split; [left|].
  - rewrite Z.eqb_refl. rewrite (buf_safe_true h q w0 [] _ Hw0) by (cbn; lia). wp_steps. rewrite (BPTR_rep _ _ _ _ Hb1), (BPTR_rep _ _ _ _ Hw0). wp_steps.
    eapply wp_load; [by apply Hb1|]. rewrite (lz_inverse Hlz bs z _ Ez Hx). wp_steps.
    apply (wp_fill h q w0 bs); [done|done|cbn; lia|]. intros h1 Hk1 Hw1. wp_steps.
    rewrite (buf_safe_true h q w0 [] _ Hw0) by (cbn; lia). wp_steps. split; [done|]. exists q. by split; [right|].
Qed.

(** ** Theorems *)

(** Compression round trip.  Whatever the state of the adaptive switch, what lzo_compress
    makes of a packet that fits the frame is given back byte for byte by the lzo_decompress of
    a peer with the same frame sizes; no ASSERT fails and nothing outside of the three buffers
    is touched, provided the work buffers have the room. *)
Theorem lzo_roundtrip now h p b bs q w ws r w2 ws2 lz lz2 f f2 :
  lzo_ok -> buf_rep h p b bs -> bs <> [] -> Zlen bs <= PAYLOAD_SIZE f -> 1 <= b_offset b ->
  buf_rep h q w ws -> blk q <> blk p -> compress_room f w (Zlen bs) ->
  buf_rep h r w2 ws2 -> blk r <> blk p -> blk r <> blk q -> Zlen bs <= EXPANDED_SIZE f2 <= BUF_MAX ->
  0 <= FRAME_HEADROOM f2 -> FRAME_HEADROOM f2 + EXPANDED_SIZE f2 <= b_capacity w2 ->
  wp ('(b1, _) ← lzo_compress now b w lz f; lzo_decompress b1 w2 lz2 f2)
     (fun x h' => keeps [blk p; blk q; blk r] h h' /\ exists s, buf_rep h' s (fst x) bs) h.
Proof.
  intros Hlz Hb Hne Hpay Hoff Hw Hqp Hroom Hw2 Hrp Hrq Hx Hh Hcap. wp_steps.
  eapply wp_mono; [by eapply wp_lzo_compress|]. intros [b1 lz1] h1 (s & out & Hk & Hs & Hb1 & Hout & _). cbn [fst] in Hb1.
  assert (buf_rep h1 r w2 ws2) as Hw2' by (eapply buf_rep_keeps; [exact Hk|set_solver|done]).
  assert (blk r <> blk s) by (destruct Hs; by subst s).
  eapply wp_mono; [eapply (wp_lzo_decompress h1 s b1 bs out r w2 ws2); [done..|apply Hx|exact Hw2'|done|done|apply Hx|done]|].
  intros x h2 [Hk2 (s' & _ & Hb2)]. split; [|by exists s'].
  eapply keeps_trans; [eapply keeps_weaken; [|exact Hk]; set_solver|eapply keeps_in; [exact Hk2|set_solver]].
Qed.

(** The sizes of a frame that lzo_adjust_frame_parameters gets before its MTU is known. *)
Lemma lzo_frame_sizes ef et el fl aj mtu f :
  0 <= ef <= 65535 -> 0 <= et <= 65535 -> 0 <= el <= 65535 -> TUN_MTU_MIN <= mtu <= 65535 ->
  frame_finalize (lzo_adjust_frame_parameters (Frame 0 0 ef 0 et el fl aj)) false 0 true mtu = Ok f ->
  PAYLOAD_SIZE f = mtu + et /\ BUF_SIZE f = mtu + 2 * (ef + et + el + 136) /\
  ef + et + el + 136 <= FRAME_HEADROOM f <= ef + et + el + 139.
Proof.
  intros He Ht Hl Hm. change TUN_MTU_MIN with 100 in Hm.
  assert (lzo_adjust_frame_parameters (Frame 0 0 ef 0 et el fl aj) = Frame 0 0 (ef + 1) 131 et el fl aj) as ->.
  { unfold lzo_adjust_frame_parameters, frame_add_to_extra_buffer, frame_add_to_extra_frame, LZO_PREFIX_LEN. cbn [link_mtu link_mtu_dynamic extra_frame extra_buffer extra_tun extra_link align_flags align_adjust EXPANDED_SIZE].
    rewrite (i32_id (ef + 1)) by (unfold is_i32; lia). done. }
  unfold frame_finalize. cbn [assert_ negb mbind result_bind].
  assert (TUN_LINK_DELTA (Frame 0 0 (ef + 1) 131 et el fl aj) = ef + 1 + et) as -> by (unfold TUN_LINK_DELTA; cbn; wrap_simp; lia).
  set (g := set_link_mtu _ _). assert (TUN_MTU_SIZE g = mtu) as Eg by (unfold TUN_MTU_SIZE, TUN_LINK_DELTA, g; cbn; wrap_simp; lia).
  rewrite Eg. change TUN_MTU_MIN with 100. replace (mtu <? 100) with false by lia. intros [= <-].
  set (f := frame_add_to_extra_buffer _ _).
  assert (FRAME_HEADROOM_BASE f = ef + et + el + 136) as Eb.
  { unfold FRAME_HEADROOM_BASE, TUN_LINK_DELTA, f, g, PAYLOAD_ALIGN. cbn. wrap_simp. lia. }
  split; [unfold PAYLOAD_SIZE, f, g; cbn; wrap_simp; lia|]. split.
  { unfold BUF_SIZE. rewrite Eb. assert (TUN_MTU_SIZE f = mtu) as -> by exact Eg. wrap_simp. lia. }
  unfold FRAME_HEADROOM, frame_headroom. rewrite Eb. change (flag 0 (align_flags f)) with false. cbn iota.
  set (d := Z.land _ _). assert (0 <= d < 4) as Hd.
  { unfold d. change (PAYLOAD_ALIGN - 1) with (Z.ones 2). rewrite Z.land_ones by lia. apply Z.mod_pos_bound. lia. }
  wrap_simp. lia.
Qed.

(** The output of the library overruns a work buffer that has no room for it: the ASSERTs before the call do
    not see it. *)
Lemma lzo_compress_overruns now h p b bs q l cap z f :
  buf_rep h p b bs -> COMPRESS_THRESHOLD <= Zlen bs <= PAYLOAD_SIZE f -> h !! q = Some l -> Zlen l = cap -> cap <= BUF_MAX ->
  LZO_COMPRESS bs = Some z -> 0 <= FRAME_HEADROOM f <= cap -> 0 <= LZO_EXTRA_BUFFER (PAYLOAD_SIZE f) ->
  FRAME_HEADROOM f + LZO_EXTRA_BUFFER (PAYLOAD_SIZE f) <= cap -> cap - FRAME_HEADROOM f < Zlen z ->
  lzo_compress now b (Buf cap 0 0 (Some (Ptr q 0))) (lzo_compress_init false) f h = Fault.
Proof.
  unfold COMPRESS_THRESHOLD, BUF_MAX. intros Hb Hn Hq Hlen Hcap Hz Hh He0 He Hbig.
  pose proof (buf_rep_Zlen _ _ _ _ Hb) as EL. unfold lzo_compress.
  replace (b_len b <=? 0) with false by lia. replace (b_len b >=? COMPRESS_THRESHOLD) with true by (unfold COMPRESS_THRESHOLD; lia).
  cbv [lzo_adaptive_compress_test lzo_compress_init lzo_ac ac_enabled negb set_ac].
  unfold buf_init, BDEF. cbn [b_capacity b_data]. replace ((_ <? 0) || _ || _) with false by lia.
  set (w0 := with_offset_len _ _ _).
  assert (buf_safe w0 (LZO_EXTRA_BUFFER (PAYLOAD_SIZE f)) = true) as ->.
  { unfold buf_safe, w0. cbn [with_offset_len b_offset b_len b_capacity]. wrap_simp. apply andb_true_iff. split; blia. }
  replace (b_len b <=? PAYLOAD_SIZE f) with true by lia.
  assert (b_len w0 = 0 /\ BPTR w0 = Some (Ptr q (FRAME_HEADROOM f))) as [_ Ew] by done. rewrite Ew, (BPTR_rep _ _ _ _ Hb).
  unfold mbind, M_bind, ASSERT, lift, assert_, deref, mret, M_ret. unfold lift. cbn [from_opt].
  assert (load (ptr_add p (b_offset b)) (b_len b) h = Ok (bs, h)) as -> by (unfold load; by rewrite (br_bytes _ _ _ _ Hb)).
  rewrite Hz. unfold store, mstore, in_block. cbn [blk pos]. rewrite Hq.
  replace (_ && _) with false; [done|]. symmetry. apply andb_false_iff. lia.
Qed.

(** C35: the room of the work buffer of lzo_compress, exactly.  do_init_frame calls
    lzo_adjust_frame_parameters before the MTU is set, so that the buffer has the size of a
    full packet, the overheads of the frame and 131 to 136 bytes more, whatever the MTU.  With
    the adaptive switch off, for every packet from the threshold up to a full one: if what the
    library makes of it fits that room lzo_compress returns the packet or the output with its
    header; if it does not, the library writes outside of the work buffer, and no ASSERT
    prevents it.  The largest expansion that LZO_EXTRA_BUFFER provides for fits if an eighth of
    a full packet is at most the overheads and 2, and does not if it is more than the
    overheads and 5. *)
Theorem lzo_work_buffer_exact now h p b bs q l z ef et el fl aj mtu f :
  0 <= ef <= 65535 -> 0 <= et <= 65535 -> 0 <= el <= 65535 -> TUN_MTU_MIN <= mtu <= 65535 ->
  frame_finalize (lzo_adjust_frame_parameters (Frame 0 0 ef 0 et el fl aj)) false 0 true mtu = Ok f ->
  buf_rep h p b bs -> 1 <= b_offset b -> COMPRESS_THRESHOLD <= Zlen bs <= PAYLOAD_SIZE f ->
  h !! q = Some l -> Zlen l = BUF_SIZE f -> q <> blk p -> LZO_COMPRESS bs = Some z ->
  let room := BUF_SIZE f - FRAME_HEADROOM f in
  let compress := lzo_compress now b (Buf (BUF_SIZE f) 0 0 (Some (Ptr q 0))) (lzo_compress_init false) f in
  (Zlen z <= room -> wp compress (fun r h' => exists s out, keeps [blk p; q] h h' /\ buf_rep h' s (fst r) out /\ packed bs out) h) /\
  (room < Zlen z -> compress h = Fault) /\
  PAYLOAD_SIZE f + ef + el + 133 <= room <= PAYLOAD_SIZE f + ef + el + 136 /\
  (PAYLOAD_SIZE f / 8 <= ef + el + 2 -> PAYLOAD_SIZE f + LZO_EXTRA_BUFFER (PAYLOAD_SIZE f) <= room) /\
  (ef + el + 5 < PAYLOAD_SIZE f / 8 -> room < PAYLOAD_SIZE f + LZO_EXTRA_BUFFER (PAYLOAD_SIZE f)).
Proof.
  intros He Ht Hl Hm Hf Hb Hoff Hn Hq Hlen Hqp Hz room compress. destruct (lzo_frame_sizes ef et el fl aj mtu f He Ht Hl Hm Hf) as (Ep & Es & Eh).
  change TUN_MTU_MIN with 100 in Hm. pose proof (Z.div_le_upper_bound (mtu + et) 8 20000 ltac:(lia) ltac:(lia)).
  pose proof (Z.div_pos (mtu + et) 8 ltac:(lia) ltac:(lia)). pose proof (Z.div_le_upper_bound (mtu + et) 8 (mtu + et) ltac:(lia) ltac:(lia)).
  assert (LZO_EXTRA_BUFFER (PAYLOAD_SIZE f) = PAYLOAD_SIZE f / 8 + 131) as Ex.
  { unfold LZO_EXTRA_BUFFER. rewrite Ep, Z.quot_div_nonneg by lia. wrap_simp. lia. }
  rewrite Ex. rewrite Ep in *. unfold room in *. split_and!; try lia.
  - intros Hfit. assert (buf_rep h (Ptr q 0) (Buf (BUF_SIZE f) 0 0 (Some (Ptr q 0))) []) as Hw.
    { split; cbn; try done; try lia.
      - exists (slice 0 (BUF_SIZE f) l). apply mload_Some. exists l. cbn. split_and!; try done; lia.
      - unfold BUF_MAX. lia.
      - apply mload_Some. exists l. cbn. split_and!; try done; lia. }
    eapply wp_mono; [eapply (wp_lzo_compress_fits now h p b bs (Ptr q 0)); try eassumption|].
    all: try (cbn; rewrite ?Ex, ?Ep; unfold BUF_MAX; lia).
    + intros ->. by destruct Hn.
    + intros r h' (s & out & Hk & _ & Hs & Hp & _). by exists s, out.
  - intros Hbig. eapply lzo_compress_overruns; try eassumption; rewrite ?Ex, ?Ep; unfold BUF_MAX; lia.
Qed.
End Lzo.

(** ** Witnesses *)

(** Runs of one byte become short; on other packets the library only adds a byte. *)
#[local] Instance ex_lzo : LzoLib := {|
  LZO_COMPRESS := fun bs =>
    if bool_decide (bs = replicate (length bs) (hd 0 bs)) then Some [1; hd 0 bs; Zlen bs] else Some (0 :: bs);
  LZO_DECOMPRESS := fun z n =>
    match z with
    | [1; c; k] => if (0 <=? k) && (k <=? n) then Some (replicate (Z.to_nat k) c) else None
    | 0 :: bs => if Zlen bs <=? n then Some bs else None
    | _ => None
    end
|}.

Lemma ex_lzo_ok : lzo_ok.
Proof.
  split; cbn.
  - intros bs. by case_bool_decide; eexists.
  - intros bs z Hz. pose proof (Zlen_nonneg bs). pose proof (Z.div_pos (Zlen bs) 8 ltac:(lia) ltac:(lia)).
    case_bool_decide; injection Hz as <-; rewrite ?Zlen_cons; change (Zlen []) with 0; lia.
  - intros bs z n Hz Hn. pose proof (Zlen_nonneg bs). case_bool_decide as E; injection Hz as <-.
    + replace ((0 <=? Zlen bs) && (Zlen bs <=? n)) with true by (symmetry; apply andb_true_iff; split; blia).
      f_equal. unfold Zlen. rewrite Nat2Z.id. by symmetry.
    + by replace (Zlen bs <=? n) with true by blia.
  - intros z n bs. destruct z as [|c z]; [done|]. destruct c as [|c|]; [|destruct c; try done|done].
    + case_match; [|done]. intros [= <-]. lia.
    + destruct z as [|c [|k []]]; try done. case_match; [|done]. intros [= <-]. bool_simp. unfold Zlen. rewrite length_replicate. lia.
Qed.

Definition ex_lzo_frame : frame := Frame 1500 1500 1 0 0 0 0 0.
Definition ex_lzo_heap : heap := <[1%positive := replicate 1700 7]> (<[2%positive := replicate 2000 0]> (<[3%positive := replicate 2000 0]> ∅)).
Lemma lzo_roundtrip_witness :
  wp ('(b1, _) ← lzo_compress 1000 (Buf 1700 4 1400 (Some (Ptr 1 0))) (Buf 2000 0 0 (Some (Ptr 2 0))) (lzo_compress_init true) ex_lzo_frame;
      lzo_decompress b1 (Buf 2000 0 0 (Some (Ptr 3 0))) (lzo_compress_init true) ex_lzo_frame)
     (fun x h' => keeps [1%positive; 2%positive; 3%positive] ex_lzo_heap h' /\ exists s, buf_rep h' s (fst x) (replicate 1400 7)) ex_lzo_heap.
Proof.
  apply (lzo_roundtrip 1000 ex_lzo_heap (Ptr 1 0) (Buf 1700 4 1400 (Some (Ptr 1 0))) (replicate 1400 7)
    (Ptr 2 0) (Buf 2000 0 0 (Some (Ptr 2 0))) [] (Ptr 3 0) (Buf 2000 0 0 (Some (Ptr 3 0))) []); [exact ex_lzo_ok|..].
  all: try (split; [done|by vm_compute; eexists|done|done|done|by vm_compute]).
  all: try done.
Defined.

(** A full packet of 1500 bytes that does not compress, behind 100 bytes of headroom. *)
Definition ex_packet : list byte := 8 :: replicate 1499 7.
Definition ex_full_heap : heap := <[1%positive := replicate 100 0 ++ ex_packet]> (<[2%positive := replicate 1858 0]> ∅).
Lemma lzo_work_buffer_exact_witness :
  exists f, frame_finalize (lzo_adjust_frame_parameters (Frame 0 0 42 0 0 1 0 0)) false 0 true 1500 = Ok f /\
  wp (lzo_compress 1000 (Buf 1600 100 1500 (Some (Ptr 1 0))) (Buf (BUF_SIZE f) 0 0 (Some (Ptr 2 0))) (lzo_compress_init false) f)
    (fun r h' => exists s out, keeps [1%positive; 2%positive] ex_full_heap h' /\ buf_rep h' s (fst r) out /\ packed ex_packet out) ex_full_heap /\
  BUF_SIZE f - FRAME_HEADROOM f < PAYLOAD_SIZE f + LZO_EXTRA_BUFFER (PAYLOAD_SIZE f).
Proof.
  eexists. split; [vm_compute; reflexivity|].
  destruct (lzo_work_buffer_exact 1000 ex_full_heap (Ptr 1 0) (Buf 1600 100 1500 (Some (Ptr 1 0))) ex_packet 2 (replicate 1858 0) (0 :: ex_packet) 42 0 1 0 0 1500
    (Frame 1543 1543 43 135 0 1 0 0)) as (Hfit & _ & _ & _ & Hlt); try (vm_compute; reflexivity); try (by vm_compute).
  split; [apply Hfit; by vm_compute|apply Hlt; by vm_compute].
Defined.
