(* ===== verification/Occ.v ===== *)
(** src/ping.h, src/occ.h and src/occ.c: the packets that two peers send each other through the
    tunnel itself: pings, and the messages of the options consistency check. *)

From S2P Require Import Prelude Buffer Integer Timing Mtu.

(** ** Recognising them *)

(** memcmp (BPTR (src), match, size) == 0 *)
Definition buf_starts (b : buffer) (s : list byte) : M bool :=
  p ← deref (BPTR b);
  bs ← load p (Zlen s);
  mret (bool_decide (bs = s)).
Definition buf_string_match (b : buffer) (s : list byte) : M bool :=
  if negb (Zlen s =? b_len b) then mret false else buf_starts b s.
Definition buf_string_match_head (b : buffer) (s : list byte) : M bool :=
  if (Zlen s <? 0) || (Zlen s >? b_len b) then mret false else buf_starts b s.

Definition ping_string : list byte :=
  [0x2a; 0x18; 0x7b; 0xf3; 0x64; 0x1e; 0xb4; 0xcb; 0x07; 0xed; 0x2d; 0x0a; 0x98; 0x1f; 0xc7; 0x48].
Definition occ_magic : list byte :=
  [0x28; 0x7f; 0x34; 0x6b; 0xd4; 0xef; 0x7a; 0x81; 0x2d; 0x56; 0xb8; 0xd3; 0xaf; 0xc5; 0x45; 0x9c].
Definition OCC_STRING_SIZE : Z := 16.

Definition is_ping_msg (b : buffer) : M bool := buf_string_match b ping_string.
Definition is_occ_msg (b : buffer) : M bool := buf_string_match_head b occ_magic.

(** ** The state of the check in struct context_2 *)

Definition OCC_REQUEST : Z := 0.
Definition OCC_REPLY : Z := 1.
Definition OCC_MTU_LOAD_REQUEST : Z := 2.
Definition OCC_MTU_LOAD : Z := 3.
Definition OCC_MTU_REQUEST : Z := 4.
Definition OCC_MTU_REPLY : Z := 5.
Definition OCC_EXIT : Z := 6.
Definition OCC_INTERVAL_SECONDS : Z := 10.
Definition OCC_N_TRIES : Z := 12.

Inductive signal := SIGTERM | SIGUSR1.

Record occ := Occ {
  occ_op : Z; (* -1: nothing to send *)
  occ_n_tries : Z;
  occ_interval : event_timeout;
  occ_mtu_load_size : Z;
  occ_mtu_load_n_tries : Z;
  occ_mtu_load_test_interval : event_timeout;
  max_recv_size_local : Z;
  max_recv_size_remote : Z;
  max_send_size_local : Z;
  max_send_size_remote : Z;
  options_string_local : option (list byte)
}.
Definition set_occ_op (c : occ) (op : Z) : occ :=
  Occ op (occ_n_tries c) (occ_interval c) (occ_mtu_load_size c) (occ_mtu_load_n_tries c) (occ_mtu_load_test_interval c)
    (max_recv_size_local c) (max_recv_size_remote c) (max_send_size_local c) (max_send_size_remote c) (options_string_local c).
Definition set_occ_interval (c : occ) (n : Z) (et : event_timeout) : occ :=
  Occ (occ_op c) n et (occ_mtu_load_size c) (occ_mtu_load_n_tries c) (occ_mtu_load_test_interval c)
    (max_recv_size_local c) (max_recv_size_remote c) (max_send_size_local c) (max_send_size_remote c) (options_string_local c).
Definition set_occ_load (c : occ) (size tries : Z) (et : event_timeout) : occ :=
  Occ (occ_op c) (occ_n_tries c) (occ_interval c) size tries et
    (max_recv_size_local c) (max_recv_size_remote c) (max_send_size_local c) (max_send_size_remote c) (options_string_local c).
Definition set_remote_sizes (c : occ) (recv send : Z) : occ :=
  Occ (occ_op c) (occ_n_tries c) (occ_interval c) (occ_mtu_load_size c) (occ_mtu_load_n_tries c) (occ_mtu_load_test_interval c)
    (max_recv_size_local c) recv (max_send_size_local c) send (options_string_local c).
Definition set_local_sizes (c : occ) (recv send : Z) : occ :=
  Occ (occ_op c) (occ_n_tries c) (occ_interval c) (occ_mtu_load_size c) (occ_mtu_load_n_tries c) (occ_mtu_load_test_interval c)
    recv (max_recv_size_remote c) send (max_send_size_remote c) (options_string_local c).

(** ** When to send *)

Definition check_send_occ_req_dowork (now : Z) (c : occ) : occ :=
  let n := i32 (occ_n_tries c + 1) in
  if n >=? OCC_N_TRIES then set_occ_interval c n event_timeout_clear
  else set_occ_interval (set_occ_op c OCC_REQUEST) n (event_timeout_reset now (occ_interval c)).

(** struct mtu_load_test: a request for a load packet and one of our own, three times for each
    difference to the MTU, then ten times the question for the sizes seen; op -1 is the end. *)
Definition mtu_load_test_sequence : list (Z * Z) :=
  concat ((fun delta => concat (replicate 3 [(OCC_MTU_LOAD_REQUEST, delta); (OCC_MTU_LOAD, delta)]))
    <$> [-1000; -750; -500; -400; -300; -200; -150; -100; -50; 0]) ++ replicate 10 (OCC_MTU_REQUEST, 0) ++ [(-1, 0)].

Definition check_send_occ_load_test_dowork (established : bool) (f : frame) (c : occ) : result occ :=
  if established then
    entry ← (if occ_mtu_load_n_tries c <? 0 then Fault else from_opt (mtu_load_test_sequence !! Z.to_nat (occ_mtu_load_n_tries c)));
    let '(op, delta) := (entry : Z * Z) in
    if op >=? 0
    then Ok (set_occ_load (set_occ_op c op) (i32 (EXPANDED_SIZE f + delta)) (i32 (occ_mtu_load_n_tries c + 1)) (occ_mtu_load_test_interval c))
    else Ok (set_occ_load c (occ_mtu_load_size c) 0 event_timeout_clear)
  else Ok c.

(** ** Sending *)

(** Pseudo-random bytes until the buffer is full. *)
Fixpoint fill_random (n : nat) (rand : list byte) (b : buffer) : M buffer :=
  match n with
  | O => mret b
  | S n =>
      '(ok, b) ← buf_write_u8 b (Z.land (hd 0 rand) 0xFF);
      if ok : bool then fill_random n (tl rand) b else mret b
  end.

(** The message for occ_op in aux_buf, and whether there is one (doit). *)
Definition occ_message (rand : list byte) (f : frame) (c : occ) (aux_buf : buffer) : M (bool * buffer) :=
  let '(ok, b) := buf_init aux_buf (FRAME_HEADROOM f) in
  _ ← ASSERT ok;
  _ ← ASSERT (buf_safe b (MAX_RW_SIZE_TUN f));
  '(ok, b) ← buf_write b occ_magic;
  _ ← ASSERT ok;
  let op := occ_op c in
  if (op =? OCC_REQUEST) || (op =? OCC_MTU_REQUEST) || (op =? OCC_EXIT) then buf_write_u8 b op
  else if op =? OCC_REPLY then
    match options_string_local c with
    | None => mret (false, b)
    | Some s =>
        '(ok, b) ← buf_write_u8 b OCC_REPLY;
        if negb ok then mret (false, b) else buf_write b (s ++ [0])
    end
  else if op =? OCC_MTU_REPLY then
    '(ok, b) ← buf_write_u8 b OCC_MTU_REPLY;
    if negb ok then mret (false, b) else
    '(ok, b) ← buf_write_u16 b (max_recv_size_local c);
    if negb ok then mret (false, b) else buf_write_u16 b (max_send_size_local c)
  else if op =? OCC_MTU_LOAD_REQUEST then
    '(ok, b) ← buf_write_u8 b OCC_MTU_LOAD_REQUEST;
    if negb ok then mret (false, b) else buf_write_u16 b (occ_mtu_load_size c)
  else if op =? OCC_MTU_LOAD then
    '(ok, b) ← buf_write_u8 b OCC_MTU_LOAD;
    if negb ok then mret (false, b) else
    let need_to_add := i32 (min_int (occ_mtu_load_size c) (EXPANDED_SIZE f) - OCC_STRING_SIZE - 1 - EXTRA_FRAME f) in
    b ← fill_random (Z.to_nat need_to_add) rand b;
    mret (true, b)
  else mret (false, b).

(** ** Receiving *)

(** The options strings of OCC_REPLY are only compared for a warning. *)
Definition process_received_occ_msg (c : occ) (b : buffer) : M (occ * option signal * buffer) :=
  let '(ok, b) := buf_advance b OCC_STRING_SIZE in
  _ ← ASSERT ok;
  '(op, b) ← buf_read_u8 b;
  '(c, sig, b) ←
    (if op =? OCC_REQUEST then mret (set_occ_op c OCC_REPLY, None, b)
     else if op =? OCC_MTU_REQUEST then mret (set_occ_op c OCC_MTU_REPLY, None, b)
     else if op =? OCC_MTU_LOAD_REQUEST then
       '(size, b) ← buf_read_u16 b;
       let c := set_occ_load c size (occ_mtu_load_n_tries c) (occ_mtu_load_test_interval c) in
       mret (if size >=? 0 then set_occ_op c OCC_MTU_LOAD else c, None, b)
     else if op =? OCC_REPLY then mret (set_occ_interval c (occ_n_tries c) event_timeout_clear, None, b)
     else if op =? OCC_MTU_REPLY then
       '(recv, b) ← buf_read_u16 b;
       '(send, b) ← buf_read_u16 b;
       mret (set_occ_load (set_remote_sizes c recv send) (occ_mtu_load_size c) (occ_mtu_load_n_tries c) event_timeout_clear, None, b)
     else if op =? OCC_EXIT then mret (c, Some SIGTERM, b)
     else mret (c, None, b));
  mret (c, sig, with_len b 0).

(** ** Specification *)

(** What follows the operation in a message. *)
Definition occ_payload (c : occ) (pl : list byte) : Prop :=
  if occ_op c =? OCC_REPLY then exists s, options_string_local c = Some s /\ pl = s ++ [0]
  else if occ_op c =? OCC_MTU_REPLY then pl = be_enc 2 (max_recv_size_local c) ++ be_enc 2 (max_send_size_local c)
  else if occ_op c =? OCC_MTU_LOAD_REQUEST then pl = be_enc 2 (occ_mtu_load_size c)
  else occ_op c = OCC_MTU_LOAD \/ pl = [].

(** What the receiver of [c]'s message makes of it. *)
Definition occ_answer (c c2 : occ) : occ :=
  let op := occ_op c in
  if op =? OCC_REQUEST then set_occ_op c2 OCC_REPLY
  else if op =? OCC_MTU_REQUEST then set_occ_op c2 OCC_MTU_REPLY
  else if op =? OCC_MTU_LOAD_REQUEST then
    set_occ_op (set_occ_load c2 (u16 (occ_mtu_load_size c)) (occ_mtu_load_n_tries c2) (occ_mtu_load_test_interval c2)) OCC_MTU_LOAD
  else if op =? OCC_REPLY then set_occ_interval c2 (occ_n_tries c2) event_timeout_clear
  else if op =? OCC_MTU_REPLY then
    set_occ_load (set_remote_sizes c2 (u16 (max_recv_size_local c)) (u16 (max_send_size_local c)))
      (occ_mtu_load_size c2) (occ_mtu_load_n_tries c2) event_timeout_clear
  else c2.

(** ** Lemmas *)

Lemma wp_fill_random n : forall rand h p b bs, buf_rep h p b bs -> b_offset b + b_len b <= b_capacity b ->
  wp (fill_random n rand b) (fun b' h' => exists extra, buf_rep h' p b' (bs ++ extra)) h.
Proof.
  induction n as [|n IH]; intros rand h p b bs H Hc; cbn.
  - wp_steps. exists []. by rewrite app_nil_r.
  - wp_steps. unfold buf_write_u8. destruct (decide (b_offset b + b_len b + 1 <= b_capacity b)) as [Hr|Hr].
    + eapply wp_mono; [by apply (wp_buf_write h p b bs [u8 (Z.land (hd 0 rand) 0xFF)])|].
      intros [ok b'] h' ([= -> ->] & Hb & _). eapply wp_mono; [apply (IH (tl rand) h' p _ _ Hb); change (Zlen [_]) with 1; cbn [with_len b_offset b_len b_capacity]; lia|].
      intros b2 h2 [extra He]. eexists. by rewrite <- app_assoc in He.
    + unfold buf_write. change (Zlen [_]) with 1. rewrite (buf_write_with_full h p b bs 1 _ H); [|done|lia].
      wp_steps. exists []. by rewrite app_nil_r.
Qed.

Lemma wp_buf_read_u8 h p b x rest : buf_rep h p b (x :: rest) ->
  wp (buf_read_u8 b) (fun r h' => h' = h /\ fst r = x /\ buf_rep h p (snd r) rest) h.
Proof.
  intros Hb. rep_facts Hb. rewrite Zlen_cons in *. pose proof (Zlen_nonneg rest). unfold buf_read_u8, BLEN.
  replace (b_len b <? 1) with false by lia. rewrite (BPTR_rep _ _ _ _ Hb). wp_steps.
  eapply wp_load; [by apply (buf_rep_prefix h p b [x] rest)|]. wp_steps. split; [done|]. split; [done|].
  destruct (buf_advance_spec h p b [x] rest Hb) as [Ha Hr]. change (Zlen [x]) with 1 in *. by rewrite Ha.
Qed.
Lemma be_dec_enc2 n : be_dec (be_enc 2 n) = u16 n.
Proof. unfold be_dec. rewrite be_dec_acc_enc. done. Qed.
Lemma be_enc2_u16 n : be_enc 2 (u16 n) = be_enc 2 n.
Proof. rewrite <- be_dec_enc2. exact (be_enc_dec (be_enc 2 n) (be_enc_bytes 2 n)). Qed.
Lemma wp_buf_read_u16 h p b n rest : buf_rep h p b (be_enc 2 n ++ rest) ->
  wp (buf_read_u16 b) (fun r h' => h' = h /\ fst r = u16 n /\ buf_rep h p (snd r) rest) h.
Proof.
  intros Hb. unfold buf_read_u16. wp_steps. change 2 with (Zlen (be_enc 2 n)). eapply wp_mono; [by apply wp_buf_read|].
  intros [r b'] h' ([= -> ->] & -> & Hr). wp_steps. split; [done|]. split; [apply be_dec_enc2|done].
Qed.

(** The room for a message. *)
Definition occ_room (f : frame) (c : occ) (aux : buffer) : Prop :=
  0 <= FRAME_HEADROOM f /\ 0 <= MAX_RW_SIZE_TUN f /\ FRAME_HEADROOM f + MAX_RW_SIZE_TUN f <= b_capacity aux /\
  FRAME_HEADROOM f + 21 + (if occ_op c =? OCC_REPLY then match options_string_local c with Some s => Zlen s | None => 0 end else 0) <= b_capacity aux.

Lemma wp_occ_message rand f h p c aux ws :
  buf_rep h p aux ws -> occ_room f c aux -> 0 <= occ_op c <= OCC_EXIT ->
  (occ_op c = OCC_REPLY -> is_Some (options_string_local c)) ->
  wp (occ_message rand f c aux) (fun r h' => fst r = true /\ exists pl, occ_payload c pl /\ buf_rep h' p (snd r) (occ_magic ++ occ_op c :: pl)) h.
Proof.
  intros Ha (Hr1 & Hr2 & Hr3 & Hr4) Hop Hs. unfold occ_message.
  destruct (buf_init_spec h p aux ws (FRAME_HEADROOM f) Ha) as [-> Hb]; [lia|]. set (b0 := with_offset_len aux _ 0) in *. rep_facts Ha.
  wp_steps. apply wp_ASSERT. { rewrite (buf_safe_spec h p b0 [] _ Hb) by (unfold BUF_MAX; lia). apply andb_true_iff. unfold b0. cbn [with_offset_len b_offset b_len b_capacity]. split; blia. }
  assert (0 <= match options_string_local c with Some s => Zlen s | None => 0 end) by (destruct (options_string_local c); [apply Zlen_nonneg|done]).
  assert (FRAME_HEADROOM f + 21 <= b_capacity aux) by (destruct (_ =? OCC_REPLY); lia).
  assert (Zlen occ_magic = 16) as E16 by reflexivity. assert (b_offset b0 = FRAME_HEADROOM f /\ b_len b0 = 0 /\ b_capacity b0 = b_capacity aux) as (Eo & El & Ec) by done. clearbody b0.
  wp_steps. eapply wp_mono; [apply (wp_buf_write h p b0 [] occ_magic Hb); clear Hr4; lia|]. intros [ok b1] h1 ([= -> ->] & Hb1 & _). cbn [app] in Hb1. wp_steps.
  set (b1 := with_len b0 _) in *. assert (b_offset b1 + b_len b1 = FRAME_HEADROOM f + 16) as E1 by (unfold b1; cbn [with_len b_offset b_len]; clear Hr4; lia).
  assert (b_capacity b1 = b_capacity aux) as E2 by exact Ec. clearbody b1.
  change OCC_EXIT with 6 in Hop.
  assert (forall k x b bs h, buf_rep h p b bs -> b_offset b + b_len b + Z.of_nat k <= b_capacity b ->
    wp (buf_write b (be_enc k x)) (fun r h' => r = (true, with_len b (b_len b + Z.of_nat k)) /\ buf_rep h' p (with_len b (b_len b + Z.of_nat k)) (bs ++ be_enc k x)) h) as Hput.
  { intros k x b bs hh Hbb Hc. rewrite <- (Zlen_be_enc k x) in *. eapply wp_mono; [by apply (wp_buf_write hh p b bs)|]. intros r h' (-> & ? & _). done. }
  assert (wp (buf_write_u8 b1 (occ_op c)) (fun r h' => r = (true, with_len b1 (b_len b1 + 1)) /\ buf_rep h' p (with_len b1 (b_len b1 + 1)) (occ_magic ++ [occ_op c])) h1) as Hwop.
  { unfold buf_write_u8. rewrite u8_id by (unfold is_byte; lia). eapply wp_mono; [apply (wp_buf_write h1 p b1 occ_magic [occ_op c] Hb1); change (Zlen [_]) with 1; lia|]. intros r h' (-> & ? & _). done. }
  set (b2 := with_len b1 (b_len b1 + 1)) in *.
  assert (forall (g : buffer -> M (bool * buffer)) (R : list byte -> Prop), (forall hh, buf_rep hh p b2 (occ_magic ++ [occ_op c]) ->
      wp (g b2) (fun r h' => fst r = true /\ exists pl, R pl /\ buf_rep h' p (snd r) ((occ_magic ++ [occ_op c]) ++ pl)) hh) ->
    (forall pl, R pl -> occ_payload c pl) ->
    wp ('(ok, b) ← buf_write_u8 b1 (occ_op c); if negb ok then mret (false, b) else g b)
       (fun r h' => fst r = true /\ exists pl, occ_payload c pl /\ buf_rep h' p (snd r) (occ_magic ++ occ_op c :: pl)) h1) as Hmsg.
  { intros g R Hg HR. wp_steps. eapply wp_mono; [exact Hwop|]. intros [ok b] hh ([= -> ->] & Hbb). wp_steps.
    eapply wp_mono; [by apply Hg|]. intros r h' (Er & pl & Hpl & Hrep). split; [done|]. exists pl. split; [by apply HR|].
    by rewrite <- app_assoc in Hrep. }
  assert (b_offset b2 + b_len b2 = FRAME_HEADROOM f + 17 /\ b_capacity b2 = b_capacity aux) as [E3 E4] by (unfold b2; cbn [with_len b_offset b_len b_capacity]; lia).
  unfold occ_payload in *. destruct ((occ_op c =? OCC_REQUEST) || _ || _) eqn:T.
  { assert (occ_op c = 0 \/ occ_op c = 4 \/ occ_op c = 6) as Hcase by (unfold OCC_REQUEST, OCC_MTU_REQUEST, OCC_EXIT in T; bool_simp; lia).
    eapply wp_mono; [exact Hwop|]. intros r h' (-> & Hbb). split; [done|]. exists []. split; [|done]. by destruct Hcase as [-> | [-> | ->]]; right. }
  destruct (occ_op c =? OCC_REPLY) eqn:T1.
  { apply Z.eqb_eq in T1. destruct (Hs T1) as [str Estr]. rewrite Estr in *. rewrite <- T1.
    apply (Hmsg (fun b => buf_write b (str ++ [0])) (fun pl => pl = str ++ [0])); [|intros pl ->; by exists str].
    intros hh Hbb. eapply wp_mono; [apply (wp_buf_write hh p b2 _ _ Hbb); rewrite Zlen_app; change (Zlen [0]) with 1; lia|].
    intros r h' (-> & Hrep & _). split; [done|]. by eexists. }
  destruct (occ_op c =? OCC_MTU_REPLY) eqn:T2.
  { apply Z.eqb_eq in T2. rewrite <- T2.
    apply (Hmsg (fun b => '(ok, b) ← buf_write_u16 b (max_recv_size_local c); if negb ok then mret (false, b) else buf_write_u16 b (max_send_size_local c))
      (fun pl => pl = be_enc 2 (max_recv_size_local c) ++ be_enc 2 (max_send_size_local c))); [|done].
    intros hh Hbb. unfold buf_write_u16. wp_steps. eapply wp_mono; [apply (Hput 2%nat _ b2 _ hh Hbb); lia|]. intros [ok b] h' ([= -> ->] & Hrep). wp_steps.
    eapply wp_mono; [apply (Hput 2%nat _ _ _ h' Hrep); cbn [with_len b_offset b_len b_capacity]; lia|]. intros r h2 (-> & Hrep2). split; [done|].
    eexists. split; [done|]. rewrite !be_enc2_u16 in Hrep2. by rewrite app_assoc. }
  destruct (occ_op c =? OCC_MTU_LOAD_REQUEST) eqn:T3.
  { apply Z.eqb_eq in T3. rewrite <- T3.
    apply (Hmsg (fun b => buf_write_u16 b (occ_mtu_load_size c)) (fun pl => pl = be_enc 2 (occ_mtu_load_size c))); [|done].
    intros hh Hbb. unfold buf_write_u16. eapply wp_mono; [apply (Hput 2%nat _ b2 _ hh Hbb); lia|]. intros r h2 (-> & Hrep2). split; [done|]. rewrite be_enc2_u16 in Hrep2. by eexists. }
  destruct (occ_op c =? OCC_MTU_LOAD) eqn:T4.
  2:{ unfold OCC_REQUEST, OCC_MTU_REQUEST, OCC_EXIT, OCC_REPLY, OCC_MTU_REPLY, OCC_MTU_LOAD_REQUEST, OCC_MTU_LOAD in *. bool_simp. lia. }
  apply Z.eqb_eq in T4. replace (buf_write_u8 b1 OCC_MTU_LOAD) with (buf_write_u8 b1 (occ_op c)) by (by rewrite T4). set (n := Z.to_nat _). clearbody n.
  apply (Hmsg (fun b => b ← fill_random n rand b; mret (true, b)) (fun _ => True)); [|intros; by left].
  intros hh Hbb. wp_steps. eapply wp_mono; [apply (wp_fill_random n rand hh p b2 _ Hbb); lia|]. intros b h2 [extra Hrep]. wp_steps. split; [done|]. by exists extra.
Qed.

Lemma wp_buf_starts h p b s rest : buf_rep h p b (s ++ rest) -> wp (buf_starts b s) (fun r h' => r = true /\ h' = h) h.
Proof.
  intros Hb. unfold buf_starts. rewrite (BPTR_rep _ _ _ _ Hb). wp_steps. eapply wp_load; [by eapply buf_rep_prefix|].
  wp_steps. by rewrite bool_decide_true.
Qed.
Lemma wp_is_occ_msg h p b rest : buf_rep h p b (occ_magic ++ rest) -> wp (is_occ_msg b) (fun r h' => r = true /\ h' = h) h.
Proof.
  intros Hb. unfold is_occ_msg, buf_string_match_head. pose proof (buf_rep_Zlen _ _ _ _ Hb) as HL. rewrite Zlen_app in HL.
  pose proof (Zlen_nonneg rest). replace (_ || _) with false by (change (Zlen occ_magic) with 16 in *; lia). by eapply wp_buf_starts.
Qed.

Lemma wp_process_received h p b c c2 pl : occ_payload c pl -> 0 <= occ_op c <= OCC_EXIT ->
  buf_rep h p b (occ_magic ++ occ_op c :: pl) ->
  wp (process_received_occ_msg c2 b) (fun '(c', sig, b') h' => h' = h /\ c' = occ_answer c c2 /\
    sig = (if occ_op c =? OCC_EXIT then Some SIGTERM else None) /\ b_len b' = 0) h.
Proof.
  intros Hpl Hop Hb. unfold process_received_occ_msg. destruct (buf_advance_spec h p b occ_magic _ Hb) as [Ha Hb1].
  change (Zlen occ_magic) with OCC_STRING_SIZE in *. rewrite Ha. set (b1 := with_offset_len b _ _) in *. clearbody b1. wp_steps.
  eapply wp_mono; [by apply wp_buf_read_u8|]. intros [op b2] h' (-> & E & Hb2). cbn in E, Hb2. subst op. wp_steps.
  unfold occ_answer, occ_payload in *. change OCC_EXIT with 6 in *.
  assert (occ_op c = 0 \/ occ_op c = 1 \/ occ_op c = 2 \/ occ_op c = 3 \/ occ_op c = 4 \/ occ_op c = 5 \/ occ_op c = 6) as Hc by lia.
  destruct Hc as [E|[E|[E|[E|[E|[E|E]]]]]]; rewrite E in *; cbn in Hpl |- *.
  - by wp_steps.
  - by wp_steps.
  - subst pl. wp_steps. rewrite <- (app_nil_r (be_enc 2 _)) in Hb2. eapply wp_mono; [apply (wp_buf_read_u16 h p b2 _ [] Hb2)|].
    intros [n b3] h' (-> & En & _). cbn in En. subst n. wp_steps. split; [done|]. split; [|done].
    by replace (u16 (occ_mtu_load_size c) >=? 0) with true by (unfold u16; pose proof (Z.mod_pos_bound (occ_mtu_load_size c) 65536); lia).
  - by wp_steps.
  - by wp_steps.
  - subst pl. wp_steps. eapply wp_mono; [apply (wp_buf_read_u16 h p b2 _ _ Hb2)|]. intros [n b3] h' (-> & En & Hb3). cbn in En, Hb3. subst n. wp_steps.
    rewrite <- (app_nil_r (be_enc 2 _)) in Hb3. eapply wp_mono; [apply (wp_buf_read_u16 h p b3 _ [] Hb3)|].
    intros [n b4] h' (-> & En & _). cbn in En. subst n. by wp_steps.
  - by wp_steps.
Qed.

(** C36: the messages of the options consistency check.  For every operation, the message that
    check_send_occ_msg builds in a buffer with room for it is recognised by the peer's
    is_occ_msg, and process_received_occ_msg makes of it what the operation means: the reply
    that is due, the sizes of the other side (their low 16 bits), the end of the request timer
    or SIGTERM; no ASSERT fails on either side and the packet is not passed on. *)
Theorem occ_exchange rand f h p c c2 aux ws :
  buf_rep h p aux ws -> occ_room f c aux -> 0 <= occ_op c <= OCC_EXIT ->
  (occ_op c = OCC_REPLY -> is_Some (options_string_local c)) ->
  wp ('(doit, b) ← occ_message rand f c aux; hit ← is_occ_msg b; r ← process_received_occ_msg c2 b; mret (doit, hit, r))
    (fun '(doit, hit, (c', sig, b')) _ => doit = true /\ hit = true /\ c' = occ_answer c c2 /\
       sig = (if occ_op c =? OCC_EXIT then Some SIGTERM else None) /\ b_len b' = 0) h.
Proof.
  intros Ha Hr Hop Hs. wp_steps. eapply wp_mono; [by apply (wp_occ_message rand f h p c aux ws)|].
  intros [doit b] h1 (Ed & pl & Hpl & Hb). cbn [fst snd] in Ed, Hb. subst doit. wp_steps. eapply wp_mono; [eapply wp_is_occ_msg; exact Hb|].
  intros hit h2 (-> & ->). wp_steps. eapply wp_mono; [by apply (wp_process_received h1 p b c c2 pl)|].
  intros [[c' sig] b'] h3 (_ & -> & -> & E). by wp_steps.
Qed.

Definition ex_occ (op : Z) : occ :=
  Occ op 0 event_timeout_clear 1400 0 event_timeout_clear 1500 (-1) 1300 (-1) (Some [86; 52; 44; 100; 101; 118]).
Lemma occ_exchange_witness :
  wp ('(doit, b) ← occ_message [] (Frame 1542 1542 42 4 0 0 0 0) (ex_occ OCC_MTU_REPLY) (Buf 2000 0 0 (Some (Ptr 1 0)));
      hit ← is_occ_msg b; r ← process_received_occ_msg (ex_occ (-1)) b; mret (doit, hit, r))
    (fun '(doit, hit, (c', sig, b')) _ => doit = true /\ hit = true /\ c' = occ_answer (ex_occ OCC_MTU_REPLY) (ex_occ (-1)) /\
       sig = None /\ b_len b' = 0) (<[1%positive := replicate 2000 0]> ∅).
Proof.
  eapply (occ_exchange [] (Frame 1542 1542 42 4 0 0 0 0) _ (Ptr 1 0) (ex_occ OCC_MTU_REPLY) (ex_occ (-1)) (Buf 2000 0 0 (Some (Ptr 1 0))) []).
  - split; [done|by vm_compute; eexists|done|done|done|by vm_compute].
  - by vm_compute.
  - done.
  - done.
Defined.
