(* ===== verification/Forward.v ===== *)
(** src/forward.c (encrypt_sign, process_incoming_link, check_fragment_dowork, the ping and
    check messages of src/ping.c and src/occ.c) and the addresses of src/socket.h: the path of a
    packet through compression, fragmentation, the choice of a key and encryption, and back.

    struct context_2 is a record of what this path reads and writes.  In TLS mode the members
    of crypto_options are pointers into the key states of the tls_multi object, which are
    [d_key] and [d_packet_id] of Tls.v; without TLS they are the static key of the context. *)

From S2P Require Import Prelude Buffer Integer PacketId Timing Mtu Crypto Fragment Reliable ControlAuth Tls Lzo Occ.

(** ** The addresses of a link *)

Record link_info := Link {
  remote : sockaddr_in; (* lsa->remote *)
  actual : sockaddr_in; (* lsa->actual *)
  remote_float : bool;
  connection_oriented : bool; (* proto is one of TCP *)
  connection_established : bool
}.

Definition addr_match (a1 a2 : sockaddr_in) : bool := s_addr a1 =? s_addr a2.
Definition addr_match_proto (a1 a2 : sockaddr_in) (tcp : bool) : bool := if tcp then addr_match a1 a2 else addr_port_match a1 a2.

(** Addresses are of the family AF_INET. *)
Definition link_socket_verify_incoming_addr (buf : buffer) (info : link_info) (from : sockaddr_in) : bool :=
  if b_len buf >? 0 then
    if negb (addr_defined from) then false
    else if remote_float info || negb (addr_defined (remote info)) then true
    else addr_match_proto from (remote info) (connection_oriented info)
  else false.

Definition link_socket_get_outgoing_addr (buf : buffer) (info : link_info) (addr : sockaddr_in) : buffer * sockaddr_in :=
  if b_len buf >? 0 then
    if addr_defined (actual info) then (buf, actual info) else (with_len buf 0, addr)
  else (buf, addr).

(** link_socket_connection_initiated also sets environment variables and calls hooks. *)
Definition link_socket_connection_initiated (info : link_info) (addr : sockaddr_in) : link_info :=
  Link (remote info) addr (remote_float info) (connection_oriented info) true.
Definition link_socket_set_outgoing_addr (buf : option buffer) (info : link_info) (addr : sockaddr_in) : link_info :=
  if match buf with None => true | Some buf => b_len buf >? 0 end then
    if (negb (connection_established info) || negb (addr_match_proto addr (actual info) (connection_oriented info))) &&
       (remote_float info || negb (addr_defined (remote info)) || addr_match_proto addr (remote info) (connection_oriented info))
    then link_socket_connection_initiated info addr
    else info
  else info.

(** ** The path MTU *)

Definition proto_overhead : list Z := [28; 40; 40]. (* UDP, TCP server, TCP client *)
Definition PROTO_N : Z := 4.
Definition datagram_overhead (proto : Z) : result Z :=
  _ ← assert_ ((proto >=? 0) && (proto <? PROTO_N));
  from_opt (proto_overhead !! Z.to_nat proto).
Definition frame_adjust_path_mtu (f : frame) (pmtu proto : Z) : result frame :=
  overhead ← datagram_overhead proto;
  frame_set_mtu_dynamic f (i32 (pmtu - overhead)) SET_MTU_UPPER_BOUND.

(** ** The context *)

Section Forward.
Context {tls_obj : Type} (SSL_new : bool -> option tls_obj) `{LzoLib}.
#[local] Abbreviation multi_t := (tls_multi (tls_obj := tls_obj)).

Inductive crypto_mode :=
| Static (co : crypto_options)
| TlsMode (m : multi_t) (o : data_options).

(** struct context_buffers: the places where a stage leaves its packet. *)
Record context_buffers := Buffers {
  read_tun_buf : buffer;
  aux_buf : buffer;
  encrypt_buf : buffer;
  decrypt_buf : buffer;
  lzo_compress_buf : buffer;
  lzo_decompress_buf : buffer
}.

Record context := Ctx {
  mode : crypto_mode;
  nonce : list byte; (* of the random numbers for IVs *)
  c_frame : frame;
  frame_fragment : frame;
  c_fragment : option fragment_master;
  lzo_compwork : option lzo_compress_workspace; (* options.comp_lzo *)
  auth_succeeded : bool; (* context_auth == CAS_SUCCEEDED *)
  info : link_info;
  buffers : context_buffers;
  to_link : buffer;
  to_link_addr : sockaddr_in;
  to_tun : buffer;
  tuntap_defined : bool;
  sig : option signal;
  c_occ : occ;
  ping_rec_timeout : bool;
  ping_rec_interval : event_timeout;
  tmp_int : interval;
  link_read_bytes : Z;
  link_read_bytes_auth : Z;
  original_recv_size : Z
}.

(** ** The stages *)

Definition compress_fragment (now : Z) (c : context) (buf : buffer)
  : M (buffer * option lzo_compress_workspace * option fragment_master) :=
  '(buf, lzo) ← match lzo_compwork c with
                | Some w => '(buf, w) ← lzo_compress now buf (lzo_compress_buf (buffers c)) w (c_frame c); mret (buf, Some w)
                | None => mret (buf, None)
                end;
  '(buf, fr) ← match c_fragment c with
               | Some fm => '(fm, buf) ← fragment_outgoing fm buf (frame_fragment c); mret (buf, Some fm)
               | None => mret (buf, None)
               end;
  mret (buf, lzo, fr).

(** The options that the pointers of crypto_options lead to, and the packet id that the
    encryption left there. *)
Definition tls_options_of (m : multi_t) (o : data_options) : crypto_options :=
  Opt ((fun r => Tls.key (ks_at m r)) <$> d_key o) ((fun r => ks_packet_id (ks_at m r)) <$> d_packet_id o) None (d_flags o).
Definition ks_set_packet_id (ks : key_state (tls_obj := tls_obj)) (pid : packet_id) : key_state :=
  KeyState (state ks) (key_id ks) (ssl ks) (established ks) (must_negotiate ks) (must_die ks) (initial_opcode ks)
    (session_id_remote ks) (remote_addr ks) pid (Tls.key ks) (plaintext_read_buf ks) (plaintext_write_buf ks)
    (ack_write_buf ks) (send_reliable ks) (rec_reliable ks) (rec_ack ks) (n_bytes ks) (n_packets ks) (authenticated ks) (key_src ks) (ssl_session ks).
Definition put_packet_id (m : multi_t) (o : data_options) (co : crypto_options) : multi_t :=
  match d_packet_id o, o_packet_id co with
  | Some r, Some pid => set_ks m r (ks_set_packet_id (ks_at m r) pid)
  | _, _ => m
  end.

(** tls_pre_encrypt, openvpn_encrypt, link_socket_get_outgoing_addr, tls_post_encrypt *)
Definition seal (SHA1 : list byte -> list byte) (now : Z) (fill : Z -> Z) (c : context) (buf : buffer)
  : M (buffer * crypto_mode * list byte * sockaddr_in) :=
  match mode c with
  | Static co =>
      '(nonce, buf, co) ← openvpn_encrypt SHA1 now fill (nonce c) buf (encrypt_buf (buffers c)) co (c_frame c);
      let '(buf, addr) := link_socket_get_outgoing_addr buf (info c) (to_link_addr c) in
      mret (buf, Static co, nonce, addr)
  | TlsMode m o =>
      let '(m, buf, o) := tls_pre_encrypt m buf o in
      '(nonce, buf, co) ← openvpn_encrypt SHA1 now fill (nonce c) buf (encrypt_buf (buffers c)) (tls_options_of m o) (c_frame c);
      let m := put_packet_id m o co in
      let '(buf, addr) := link_socket_get_outgoing_addr buf (info c) (to_link_addr c) in
      '(m, buf) ← tls_post_encrypt m buf;
      mret (buf, TlsMode m o, nonce, addr)
  end.

(** c->c2.buf is [buf]. *)
Definition encrypt_sign (SHA1 : list byte -> list byte) (now : Z) (fill : Z -> Z) (c : context) (buf : buffer) (comp_frag : bool) : M context :=
  let orig_buf := b_data buf in
  let buf := if auth_succeeded c then buf else with_len buf 0 in
  '(buf, lzo, fr) ← (if comp_frag then compress_fragment now c buf else mret (buf, lzo_compwork c, c_fragment c));
  '(buf, md, nonce, addr) ← seal SHA1 now fill c buf;
  let b := buffers c in
  '(b, out) ← (if bool_decide (orig_buf = b_data buf) && negb (bool_decide (b_data buf = b_data (read_tun_buf b))) then
                 '(_, rtb) ← buf_assign (read_tun_buf b) buf;
                 mret (Buffers rtb (aux_buf b) (encrypt_buf b) (decrypt_buf b) (lzo_compress_buf b) (lzo_decompress_buf b), rtb)
               else mret (b, buf));
  mret (Ctx md nonce (c_frame c) (frame_fragment c) fr lzo (auth_succeeded c) (info c) b out addr (to_tun c) (tuntap_defined c) (sig c)
          (c_occ c) (ping_rec_timeout c) (ping_rec_interval c) (tmp_int c) (link_read_bytes c) (link_read_bytes_auth c) (original_recv_size c)).

Definition set_fragment (c : context) (f : frame) (fm : option fragment_master) : context :=
  Ctx (mode c) (nonce c) (c_frame c) f fm (lzo_compwork c) (auth_succeeded c) (info c) (buffers c) (to_link c)
    (to_link_addr c) (to_tun c) (tuntap_defined c) (sig c) (c_occ c) (ping_rec_timeout c) (ping_rec_interval c) (tmp_int c)
    (link_read_bytes c) (link_read_bytes_auth c) (original_recv_size c).

(** The fragments get smaller when the operating system found a smaller path MTU ([hint]:
    mtu_changed, ipv4_tun, the MTU of the socket and its protocol); a further fragment of the
    datagram that is being sent, when to_link is free; the time to live of those received.
    The first component is the new mtu_changed. *)
Definition check_fragment_dowork (SHA1 : list byte -> list byte) (now : Z) (fill : Z -> Z) (c : context) (buf : buffer)
  (fm : fragment_master) (mtu_changed ipv4_tun : bool) (mtu proto : Z) (tv : timeval) : M (bool * context * option timeval) :=
  let hint := mtu_changed && ipv4_tun in
  f ← (if hint then lift (frame_adjust_path_mtu (frame_fragment c) mtu proto) else mret (frame_fragment c));
  let c := set_fragment c f (Some fm) in
  c ← (if fragment_outgoing_defined fm && (b_len (to_link c) =? 0) then
         '(ok, fm, buf) ← fragment_ready_to_send fm buf f;
         _ ← ASSERT ok;
         encrypt_sign SHA1 now fill (set_fragment c f (Some fm)) buf false
       else mret c);
  let '(fm, tv) := match c_fragment c with
                   | Some fm => let '(fm, tv) := fragment_housekeeping now fm tv in (Some fm, tv)
                   | None => (None, Some tv)
                   end in
  mret (mtu_changed && negb hint, set_fragment c f fm, tv).

(** check_ping_send_dowork, check_send_occ_msg_dowork *)
Definition check_ping_send_dowork (SHA1 : list byte -> list byte) (now : Z) (fill : Z -> Z) (c : context) : M context :=
  let '(ok, buf) := buf_init (aux_buf (buffers c)) (FRAME_HEADROOM (c_frame c)) in
  _ ← ASSERT ok;
  _ ← ASSERT (buf_safe buf (MAX_RW_SIZE_TUN (c_frame c)));
  '(ok, buf) ← buf_write buf ping_string;
  _ ← ASSERT ok;
  encrypt_sign SHA1 now fill c buf true.

Definition set_occ (c : context) (o : occ) : context :=
  Ctx (mode c) (nonce c) (c_frame c) (frame_fragment c) (c_fragment c) (lzo_compwork c) (auth_succeeded c) (info c) (buffers c) (to_link c)
    (to_link_addr c) (to_tun c) (tuntap_defined c) (sig c) o (ping_rec_timeout c) (ping_rec_interval c) (tmp_int c)
    (link_read_bytes c) (link_read_bytes_auth c) (original_recv_size c).
Definition check_send_occ_msg_dowork (SHA1 : list byte -> list byte) (now : Z) (fill : Z -> Z) (rand : list byte) (c : context) : M context :=
  '(doit, buf) ← occ_message rand (c_frame c) (c_occ c) (aux_buf (buffers c));
  c ← (if doit : bool then encrypt_sign SHA1 now fill c buf true else mret c);
  mret (set_occ c (set_occ_op (c_occ c) (-1))).

(** ** Receiving *)

(** tls_pre_decrypt, the gate before the client-connect scripts are done, openvpn_decrypt. *)
Definition open (now : Z) (fill : Z -> Z) (c : context) (buf : buffer) (from : sockaddr_in)
  : M (bool * buffer * crypto_mode * interval * event_timeout) :=
  let gate buf := if auth_succeeded c then buf else with_len buf 0 in
  match mode c with
  | Static co =>
      '(ok, buf, co) ← openvpn_decrypt now fill (gate buf) (decrypt_buf (buffers c)) co (c_frame c);
      mret (ok, buf, Static co, tmp_int c, ping_rec_interval c)
  | TlsMode m o =>
      '(control, m, buf, o) ← tls_pre_decrypt SSL_new now fill m from buf o;
      let tmp := if control : bool then interval_action now (tmp_int c) else tmp_int c in
      let ping := if (control : bool) && ping_rec_timeout c then event_timeout_reset now (ping_rec_interval c) else ping_rec_interval c in
      '(ok, buf, co) ← openvpn_decrypt now fill (gate buf) (decrypt_buf (buffers c)) (tls_options_of m o) (c_frame c);
      mret (ok, buf, TlsMode (put_packet_id m o co) o, tmp, ping)
  end.

Definition unfragment_decompress (now : Z) (c : context) (buf : buffer)
  : M (buffer * option lzo_compress_workspace * option fragment_master) :=
  '(buf, fr) ← match c_fragment c with
               | Some fm => '(fm, buf) ← fragment_incoming now fm buf (frame_fragment c); mret (buf, Some fm)
               | None => mret (buf, None)
               end;
  '(buf, lzo) ← match lzo_compwork c with
                | Some w => '(buf, w) ← lzo_decompress buf (lzo_decompress_buf (buffers c)) w (c_frame c); mret (buf, Some w)
                | None => mret (buf, None)
                end;
  mret (buf, lzo, fr).

(** Pings and check messages end here. *)
Definition internal_messages (c : occ) (buf : buffer) : M (occ * option signal * buffer) :=
  ping ← is_ping_msg buf;
  let buf := if ping : bool then with_len buf 0 else buf in
  check ← is_occ_msg buf;
  if check : bool then process_received_occ_msg c buf else mret (c, None, buf).

(** c->c2.buf is [buf], c->c2.from is [from]. *)
Definition process_incoming_link (now : Z) (fill : Z -> Z) (c : context) (buf : buffer) (from : sockaddr_in) : M context :=
  let size := if b_len buf >? 0 then b_len buf else 0 in
  let read_bytes := if b_len buf >? 0 then counter_add (link_read_bytes c) (b_len buf) else link_read_bytes c in
  let c := Ctx (mode c) (nonce c) (c_frame c) (frame_fragment c) (c_fragment c) (lzo_compwork c) (auth_succeeded c) (info c) (buffers c) (to_link c)
             (to_link_addr c) (to_tun c) (tuntap_defined c) (sig c) (c_occ c) (ping_rec_timeout c) (ping_rec_interval c) (tmp_int c)
             read_bytes (link_read_bytes_auth c) size in
  if b_len buf >? 0 then
    let buf := if link_socket_verify_incoming_addr buf (info c) from then buf else with_len buf 0 in
    '(ok, buf, md, tmp, ping) ← open now fill c buf from;
    if negb ok && connection_oriented (info c) then
      mret (Ctx md (nonce c) (c_frame c) (frame_fragment c) (c_fragment c) (lzo_compwork c) (auth_succeeded c) (info c) (buffers c) (to_link c)
              (to_link_addr c) (to_tun c) (tuntap_defined c) (Some SIGUSR1) (c_occ c) (ping_rec_timeout c) ping tmp
              (link_read_bytes c) (link_read_bytes_auth c) (original_recv_size c))
    else
      '(buf, lzo, fr) ← unfragment_decompress now c buf;
      let info' := match md with Static _ => link_socket_set_outgoing_addr (Some buf) (info c) from | TlsMode _ _ => info c end in
      let arrived := b_len buf >? 0 in
      let ping := if ping_rec_timeout c && arrived then event_timeout_reset now ping else ping in
      let auth_bytes := if arrived then counter_add (link_read_bytes_auth c) (b_len buf) else link_read_bytes_auth c in
      let o := if arrived then set_local_sizes (c_occ c) (max_int (original_recv_size c) (max_recv_size_local (c_occ c))) (max_send_size_local (c_occ c)) else c_occ c in
      '(o, sg, buf) ← internal_messages o buf;
      let out := if tuntap_defined c then buf else with_len buf 0 in
      mret (Ctx md (nonce c) (c_frame c) (frame_fragment c) fr lzo (auth_succeeded c) info' (buffers c) (to_link c)
              (to_link_addr c) out (tuntap_defined c) (match sg with Some x => Some x | None => sig c end) o (ping_rec_timeout c) ping tmp
              (link_read_bytes c) auth_bytes (original_recv_size c))
  else mret (Ctx (mode c) (nonce c) (c_frame c) (frame_fragment c) (c_fragment c) (lzo_compwork c) (auth_succeeded c) (info c) (buffers c) (to_link c)
               (to_link_addr c) buf_reset (tuntap_defined c) (sig c) (c_occ c) (ping_rec_timeout c) (ping_rec_interval c) (tmp_int c)
               (link_read_bytes c) (link_read_bytes_auth c) (original_recv_size c)).
End Forward.
