(* ===== verification/Tunnel.v ===== *)
(** A packet that encrypt_sign sends is what the peer's process_incoming_link hands to its tun
    device (src/forward.c): the composition of compression, fragment headers, encryption, the
    replay check and the address checks. *)

From S2P Require Import Prelude Buffer Integer PacketId Timing Mtu Crypto Fragment Reliable ControlAuth Tls Lzo Occ Forward.

Section Tunnel.
Context {tls_obj : Type} (SSL_new : bool -> option tls_obj) `{LzoLib}.
#[local] Abbreviation context_t := (context (tls_obj := tls_obj)).
Implicit Types c : context_t.

(** ** Compression and fragment header *)

(** The bytes of a packet between the two stages. *)
Definition framed (lzo frag : bool) (bs out : list byte) : Prop :=
  exists mid, (if lzo then packed bs mid else mid = bs) /\ out = if frag then be_enc 4 0 ++ mid else mid.

Lemma Zlen_packed bs mid : packed bs mid -> 0 < Zlen mid <= Zlen bs + 1.
Proof. intros [->|(z & _ & -> & Hz)]; rewrite Zlen_cons; [pose proof (Zlen_nonneg bs)|pose proof (Zlen_nonneg z)]; lia. Qed.
Lemma Zlen_framed lzo frag bs out : framed lzo frag bs out -> 0 < Zlen bs -> 0 < Zlen out <= Zlen bs + 5.
Proof.
  intros (mid & Hm & ->) Hb. assert (0 < Zlen mid <= Zlen bs + 1) by (destruct lzo; [by apply Zlen_packed|subst mid; lia]).
  destruct frag; [rewrite Zlen_app, Zlen_be_enc4|]; lia.
Qed.

(** A sender's stages before encryption, for a packet of [n] bytes at [b]. *)
Record sender_room c (h : heap) (p q : ptr) (b : buffer) (n : Z) : Prop := {
  sr_lzo : is_Some (lzo_compwork c) -> exists ws, buf_rep h q (lzo_compress_buf (buffers c)) ws /\
    n <= PAYLOAD_SIZE (c_frame c) /\ compress_room (c_frame c) (lzo_compress_buf (buffers c)) n;
  sr_whole : is_Some (c_fragment c) -> n + 1 <= PAYLOAD_SIZE_DYNAMIC (frame_fragment c);
  sr_ne : blk q <> blk p;
  sr_off : 5 <= b_offset b /\ 5 <= FRAME_HEADROOM (c_frame c)
}.

Lemma wp_whole h p b bs fr fm : buf_rep h p b bs -> 0 < Zlen bs <= PAYLOAD_SIZE_DYNAMIC fr -> 4 <= b_offset b ->
  wp (fragment_outgoing fm b fr) (fun r h' => keeps [blk p] h h' /\ buf_rep h' p (snd r) (be_enc 4 0 ++ bs) /\ b_offset (snd r) = b_offset b - 4) h.
Proof.
  intros Hb Hn Ho. pose proof (buf_rep_Zlen _ _ _ _ Hb) as HL. unfold fragment_outgoing. replace (b_len b >? 0) with true by lia.
  replace (b_len b >? PAYLOAD_SIZE_DYNAMIC fr) with false by lia. unfold fragment_prepend_flags. change (fragment_flags FRAG_WHOLE 0 0 0) with 0. wp_steps.
  eapply wp_mono; [apply (wp_buf_write_prepend h p b bs (be_enc 4 0) Hb); rewrite Zlen_be_enc4; lia|]. intros [ok b'] h' ([= -> ->] & Hb' & Hm). wp_steps.
  split; [eapply modifies_keeps; [exact Hm|set_solver]|]. split; [done|]. rewrite Zlen_be_enc4. done.
Qed.

Lemma wp_compress_fragment now c h p q b bs : lzo_ok -> buf_rep h p b bs -> bs <> [] -> sender_room c h p q b (Zlen bs) ->
  wp (compress_fragment now c b) (fun '(b', lzo, fm) h' => exists s out, keeps [blk p; blk q] h h' /\ (s = p \/ s = q) /\ buf_rep h' s b' out /\
    framed (bool_decide (is_Some (lzo_compwork c))) (bool_decide (is_Some (c_fragment c))) bs out /\
    Z.min (b_offset b) (FRAME_HEADROOM (c_frame c)) - 5 <= b_offset b') h.
Proof.
  intros Hlz Hb Hne [Hl Hw Hqp Ho]. assert (0 < Zlen bs) by (destruct bs; [done|rewrite Zlen_cons; pose proof (Zlen_nonneg bs); lia]).
  unfold compress_fragment. wp_steps.
  eapply (wp_mono _ (fun r h' => exists s mid, keeps [blk p; blk q] h h' /\ (s = p \/ s = q) /\ buf_rep h' s (fst r) mid /\
    (if bool_decide (is_Some (lzo_compwork c)) then packed bs mid else mid = bs) /\ Zlen mid <= Zlen bs + 1 /\
    Z.min (b_offset b) (FRAME_HEADROOM (c_frame c)) - 1 <= b_offset (fst r))).
  { destruct (lzo_compwork c) as [w|].
    - destruct Hl as (ws & Hws & Hpay & Hroom); [done|]. wp_steps. eapply wp_mono; [eapply (wp_lzo_compress now h p b bs q _ ws); try done; lia|].
      intros [b1 w1] h1 (s & out & Hk & Hs & Hb1 & Hout & Hoff). wp_steps. exists s, out. split_and!; try done.
      apply Zlen_packed in Hout. lia.
    - wp_steps. exists p, bs. split_and!; try done; [apply keeps_refl|by left|lia|lia]. }
  intros [b1 lzo] h1 (s & mid & Hk & Hs & Hb1 & Hmid & Hlen & Hoff). cbn [fst] in *. wp_steps.
  assert (0 < Zlen mid) by (case_bool_decide; [apply Zlen_packed in Hmid; lia|by subst mid]).
  destruct (c_fragment c) as [fm|]; wp_steps.
  - eapply wp_mono; [apply (wp_whole h1 s b1 mid); [done|specialize (Hw ltac:(done)); lia|lia]|]. intros [fm' b2] h2 (Hk2 & Hb2 & Eo). cbn [snd] in *. wp_steps.
    exists s, (be_enc 4 0 ++ mid). split.
    { eapply keeps_trans; [exact Hk|]. eapply keeps_in; [exact Hk2|]. destruct Hs; subst s; set_solver. }
    split_and!; [done|done|by exists mid|lia].
  - exists s, mid. split_and!; [done..|by exists mid|lia].
Qed.

(** A receiver's stages after decryption. *)
Record receiver_room c (h : heap) (q : ptr) (n : Z) : Prop := {
  rr_lzo : is_Some (lzo_compwork c) -> exists ws, buf_rep h q (lzo_decompress_buf (buffers c)) ws /\
    n <= EXPANDED_SIZE (c_frame c) <= BUF_MAX /\ 0 <= FRAME_HEADROOM (c_frame c) /\
    FRAME_HEADROOM (c_frame c) + EXPANDED_SIZE (c_frame c) <= b_capacity (lzo_decompress_buf (buffers c))
}.

Lemma wp_whole_in now h p b mid fm fr : buf_rep h p b (be_enc 4 0 ++ mid) ->
  wp (fragment_incoming now fm b fr) (fun r h' => h' = h /\ buf_rep h p (snd r) mid) h.
Proof.
  intros Hb. pose proof (buf_rep_Zlen _ _ _ _ Hb) as HL. rewrite Zlen_app, Zlen_be_enc4 in HL. pose proof (Zlen_nonneg mid).
  unfold fragment_incoming. replace (b_len b >? 0) with true by lia. wp_steps.
  pose proof (wp_buf_read h p b _ _ Hb) as Hr. rewrite Zlen_be_enc4 in Hr. eapply wp_mono; [exact Hr|].
  intros [r b'] h' ([= -> ->] & -> & Hb'). by wp_steps.
Qed.

Lemma wp_unfragment_decompress now c h s q b bs out : lzo_ok -> buf_rep h s b out -> blk q <> blk s ->
  framed (bool_decide (is_Some (lzo_compwork c))) (bool_decide (is_Some (c_fragment c))) bs out -> receiver_room c h q (Zlen bs) ->
  wp (unfragment_decompress now c b) (fun '(b', lzo, fm) h' => exists s', buf_rep h' s' b' bs) h.
Proof.
  intros Hlz Hb Hne (mid & Hmid & ->) [Hl]. unfold unfragment_decompress. wp_steps.
  eapply (wp_mono _ (fun r h' => h' = h /\ buf_rep h s (fst r) mid)).
  { destruct (c_fragment c) as [fm|].
    - rewrite (bool_decide_true (is_Some (Some fm))) in Hb by done. wp_steps. eapply wp_mono; [by apply wp_whole_in|]. intros [fm' b'] h' [-> Hb']. by wp_steps.
    - rewrite (bool_decide_false (is_Some None)) in Hb by (by intros []). by wp_steps. }
  intros [b1 fr] h1 [-> Hb1]. cbn [fst] in Hb1. wp_steps. destruct (lzo_compwork c) as [w|].
  - destruct Hl as (ws & Hws & Hx & Hh & Hcap); [done|]. rewrite (bool_decide_true (is_Some (Some w))) in Hmid by done. wp_steps.
    eapply wp_mono; [eapply (wp_lzo_decompress h s b1 bs mid q _ ws); try done; apply Hx|]. intros [b2 w2] h2 (_ & s' & _ & Hb2). wp_steps. by exists s'.
  - rewrite (bool_decide_false (is_Some None)) in Hmid by (by intros []). subst mid. wp_steps. by exists s.
Qed.

(** ** The whole path, with a static key *)

(** The sender [c] has a packet of [n] bytes in the block of [p], where its read_tun_buf is;
    [q] and [r] are its work buffers; [front] is the packet id that comes next. *)
Record sender_ok (SHA1 : list byte -> list byte) (now : Z) c (h : heap) (p q r : ptr) (b : buffer) (n : Z)
  (sopt : crypto_options) (ectx : key_ctx) (front : list byte) (sopt' : crypto_options) : Prop := {
  so_mode : mode c = Static sopt;
  so_auth : auth_succeeded c = true;
  so_addr : addr_defined (actual (info c)) = true;
  so_room : sender_room c h p q b n;
  so_tun : b_data b = b_data (read_tun_buf (buffers c));
  so_work : exists ws, buf_rep h r (encrypt_buf (buffers c)) ws;
  so_ne : blk r <> blk p /\ blk r <> blk q;
  so_ready : forall b', b_len b' <= n + 5 -> Z.min (b_offset b) (FRAME_HEADROOM (c_frame c)) - 5 <= b_offset b' ->
    encrypt_ready SHA1 now (nonce c) sopt ectx (c_frame c) b' (encrypt_buf (buffers c)) front sopt'
}.

(** The receiver [c] takes packets from [from]; [q] and [r] are its work buffers. *)
Record receiver_ok (now : Z) c (h : heap) (q r : ptr) (n : Z) (from : sockaddr_in) (ropt : crypto_options) (dctx : key_ctx) : Prop := {
  ro_mode : mode c = Static ropt;
  ro_auth : auth_succeeded c = true;
  ro_tun : tuntap_defined c = true;
  ro_from : forall buf, 0 < b_len buf -> link_socket_verify_incoming_addr buf (info c) from = true;
  ro_room : receiver_room c h q n;
  ro_work : exists ws, buf_rep h r (decrypt_buf (buffers c)) ws;
  ro_ready : decrypt_ready now ropt dctx (c_frame c) (decrypt_buf (buffers c))
}.

(** What openvpn_encrypt sends for the bytes [bs]. *)
Definition sealed SHA1 c sopt ectx front bs : list byte :=
  seal_packet ectx (use_iv_of sopt) (match k_cipher ectx with Some ci => iv_of SHA1 (nonce c) ci | None => [] end) front bs.

Lemma wp_encrypt_sign SHA1 now fill c h p q r b bs sopt ectx front sopt' :
  lzo_ok -> buf_rep h p b bs -> bs <> [] -> sender_ok SHA1 now c h p q r b (Zlen bs) sopt ectx front sopt' ->
  (forall out, 0 < Zlen out <= Zlen bs + 5 -> sealed SHA1 c sopt ectx front out <> []) ->
  wp (encrypt_sign SHA1 now fill c b true) (fun c' h' => exists s out, keeps [blk p; blk q; blk r] h h' /\
    framed (bool_decide (is_Some (lzo_compwork c))) (bool_decide (is_Some (c_fragment c))) bs out /\
    buf_rep h' s (to_link c') (sealed SHA1 c sopt ectx front out) /\ (s = p \/ s = q \/ s = r) /\
    mode c' = Static sopt' /\ to_link_addr c' = actual (info c)) h.
Proof.
  intros Hlz Hb Hne [Hmode Hauth Haddr Hroom Htun (ws & Hw) [Hrp Hrq] Hready] Hnil.
  assert (0 < Zlen bs) by (destruct bs; [done|rewrite Zlen_cons; pose proof (Zlen_nonneg bs); lia]).
  unfold encrypt_sign. rewrite Hauth. wp_steps. eapply wp_mono; [by eapply wp_compress_fragment|].
  intros [[b1 lzo] fm] h1 (s & out & Hk & Hs & Hb1 & Hfr & Hoff). wp_steps.
  pose proof (Zlen_framed _ _ _ _ Hfr ltac:(done)) as Hout. pose proof (buf_rep_Zlen _ _ _ _ Hb1) as HL1.
  assert (out <> []) as Hno by (intros ->; change (Zlen []) with 0 in Hout; lia).
  assert (buf_rep h1 r (encrypt_buf (buffers c)) ws) as Hw1 by (eapply buf_rep_keeps; [exact Hk|set_solver|done]).
  unfold seal. rewrite Hmode. wp_steps.
  eapply wp_mono; [eapply (wp_openvpn_encrypt SHA1 now fill (nonce c) h1 s b1 out r _ ws sopt ectx (c_frame c) front sopt')|].
  { apply Hready; lia. } { done. } { done. } { done. } { by destruct Hs; subst s. }
  intros r1 h2 (Hk2 & nonce' & b2 & s' & -> & Hs' & Hb2). wp_steps. fold (sealed SHA1 c sopt ectx front out) in Hb2.
  pose proof (buf_rep_Zlen _ _ _ _ Hb2) as HL2. specialize (Hnil out Hout).
  assert (0 < b_len b2) by (destruct (sealed _ _ _ _ _ _) as [|x y]; [done|]; rewrite Zlen_cons in HL2; pose proof (Zlen_nonneg y); lia).
  unfold link_socket_get_outgoing_addr. replace (b_len b2 >? 0) with true by lia. rewrite Haddr. wp_steps.
  rewrite (br_data _ _ _ _ Hb), (br_data _ _ _ _ Hb2) in *.
  replace (bool_decide (Some p = Some s') && negb (bool_decide (Some s' = b_data (read_tun_buf (buffers c))))) with false.
  2:{ symmetry. rewrite <- Htun. repeat case_bool_decide; cbn; congruence. }
  wp_steps. exists s', out. cbn. split_and!; try done.
  - eapply keeps_trans; (eapply keeps_weaken; [|eassumption]); [set_solver|]. destruct Hs; subst s; set_solver.
  - destruct Hs; subst s; destruct Hs'; subst s'; tauto.
Qed.

Lemma wp_buf_starts_any h p b bs s : buf_rep h p b bs -> Zlen s <= Zlen bs ->
  wp (buf_starts b s) (fun r h' => r = bool_decide (take (length s) bs = s) /\ h' = h) h.
Proof.
  intros Hb Hs. unfold buf_starts. rewrite (BPTR_rep _ _ _ _ Hb). wp_steps. pose proof (buf_rep_Zlen _ _ _ _ Hb).
  eapply wp_load.
  { rewrite <- (Z.add_0_r (b_offset b)). eapply (buf_rep_load h p b bs 0 (Zlen s)); [done|lia|apply Zlen_nonneg|lia]. }
  wp_steps. split; [|done]. unfold slice, Zlen. cbn. by rewrite drop_0, Nat2Z.id.
Qed.

(** A packet that is neither a ping nor a check message. *)
Definition plain (bs : list byte) : Prop := bs <> ping_string /\ take 16 bs <> occ_magic.
Lemma wp_internal_messages h p b bs o : buf_rep h p b bs -> plain bs -> wp (internal_messages o b) (fun r h' => r = (o, None, b) /\ h' = h) h.
Proof.
  intros Hb [Hp Ho]. pose proof (buf_rep_Zlen _ _ _ _ Hb) as HL. unfold internal_messages, is_ping_msg, is_occ_msg, buf_string_match, buf_string_match_head.
  change (Zlen ping_string) with 16. change (Zlen occ_magic) with 16. wp_steps.
  eapply (wp_mono _ (fun r h' => r = false /\ h' = h)).
  { destruct (16 =? b_len b) eqn:E; wp_steps; [|done]. eapply wp_mono; [apply (wp_buf_starts_any h p b bs ping_string Hb)|].
    - change (Zlen ping_string) with 16. lia.
    - intros r h' [-> ->]. split; [|done]. apply bool_decide_false. intros Ht. apply Hp. rewrite <- Ht. symmetry. apply take_ge.
      change (length ping_string) with 16%nat. unfold Zlen in HL. lia. }
  intros r h' [-> ->]. wp_steps. eapply (wp_mono _ (fun r h' => r = false /\ h' = h)).
  { destruct ((16 <? 0) || (16 >? b_len b)) eqn:E; wp_steps; [done|]. eapply wp_mono; [apply (wp_buf_starts_any h p b bs occ_magic Hb)|].
    - change (Zlen occ_magic) with 16. lia.
    - intros r h' [-> ->]. split; [|done]. by apply bool_decide_false. }
  intros r h' [-> ->]. by wp_steps.
Qed.

(** Nothing happens to an empty packet. *)
Lemma wp_unfragment_nothing now c h b : b_len b = 0 ->
  wp (unfragment_decompress now c b) (fun r h' => fst (fst r) = b) h.
Proof.
  intros Hl. unfold unfragment_decompress, fragment_incoming, lzo_decompress. rewrite Hl. change (0 >? 0) with false.
  destruct (c_fragment c), (lzo_compwork c); wp_steps; rewrite ?Hl; change (0 <=? 0) with true; by wp_steps.
Qed.
Lemma wp_internal_nothing h b o : b_len b = 0 -> wp (internal_messages o b) (fun r h' => r = (o, None, b)) h.
Proof.
  intros Hl. unfold internal_messages, is_ping_msg, is_occ_msg, buf_string_match, buf_string_match_head. rewrite Hl. wp_steps. change (Zlen ping_string =? 0) with false. wp_steps. rewrite Hl. change (_ || _) with true. by wp_steps.
Qed.

Lemma wp_process_incoming now fill c h s q r b from bs out pkt ropt dctx pin : lzo_ok ->
  buf_rep h s b pkt -> pkt <> [] -> receiver_ok now c h q r (Zlen bs) from ropt dctx -> blk r <> blk s -> blk q <> blk s -> blk q <> blk r ->
  open_packet dctx ropt (b_capacity (decrypt_buf (buffers c)) - FRAME_HEADROOM_ADJ (c_frame c) FRAME_HEADROOM_MARKER_DECRYPT) pkt = Some (Some pin, out) ->
  pin_valid pin -> framed (bool_decide (is_Some (lzo_compwork c))) (bool_decide (is_Some (c_fragment c))) bs out -> bs <> [] -> plain bs ->
  wp (process_incoming_link SSL_new now fill c b from) (fun c' h' => exists ok ropt', decrypt_replay now (Some pin) ropt = Ok (ok, ropt') /\
    mode c' = Static ropt' /\ if ok : bool then exists s', buf_rep h' s' (to_tun c') bs
    else if connection_oriented (info c) then sig c' = Some SIGUSR1 else b_len (to_tun c') = 0) h.
Proof.
  intros Hlz Hb Hne [Hmode Hauth Htun Hfrom [Hroom] (ws & Hw) Hready] Hrs Hqs Hqr Hopen Hpin Hfr Hbs Hplain.
  pose proof (buf_rep_Zlen _ _ _ _ Hb) as HL. assert (0 < b_len b) by (destruct pkt as [|x y]; [done|]; rewrite Zlen_cons in HL; pose proof (Zlen_nonneg y); lia).
  unfold process_incoming_link. replace (b_len b >? 0) with true by lia. cbn [info mode]. rewrite (Hfrom b) by done. wp_steps.
  unfold open. cbn [mode auth_succeeded buffers c_frame]. rewrite Hmode, Hauth. wp_steps.
  eapply wp_mono; [eapply (wp_openvpn_decrypt now fill h s b pkt r _ ws ropt dctx (c_frame c)); try done|].
  { rewrite Hopen. by intros ? ? [= -> _]. }
  rewrite Hopen. intros [[ok b2] ropt'] h2 (Hk & Erep & Hb2). wp_steps. destruct ok; cbn [negb andb].
  - destruct Hb2 as (s2 & Hs2 & Hb2). wp_steps. set (c1 := Ctx _ _ _ _ _ _ _ _ _ _ _ _ _ _ _ _ _ _ _ _ _).
    eapply wp_mono; [eapply (wp_unfragment_decompress now c1 h2 s2 q b2 bs out Hlz Hb2); [by destruct Hs2; subst s2|done|]|].
    { split. intros Hl. destruct (Hroom Hl) as (wl & Hwl & Hrest). exists wl. split; [|done]. eapply buf_rep_keeps; [exact Hk|set_solver|exact Hwl]. }
    intros [[b3 lzo] fm] h3 (s3 & Hb3). pose proof (buf_rep_Zlen _ _ _ _ Hb3) as HL3. wp_steps.
    eapply wp_mono; [by apply (wp_internal_messages h3 s3 b3 bs)|]. intros r3 h4 [-> ->]. wp_steps.
    exists true, ropt'. cbn. split; [done|]. split; [done|]. rewrite Htun. by exists s3.
  - destruct (connection_oriented (info c)) eqn:Et; wp_steps.
    + exists false, ropt'. by split_and!.
    + set (c1 := Ctx _ _ _ _ _ _ _ _ _ _ _ _ _ _ _ _ _ _ _ _ _). eapply wp_mono; [by apply (wp_unfragment_nothing now c1)|].
      intros [[b3 lzo] fm] h3 E3. cbn in E3. subst b3. wp_steps. eapply wp_mono; [by apply wp_internal_nothing|]. intros r3 h4 ->. wp_steps.
      exists false, ropt'. cbn. split_and!; [done..|]. by destruct (tuntap_defined c).
Qed.

(** C3: what goes into the tunnel comes out of it.  A packet that encrypt_sign of one peer
    sends - compressed or not, with a fragment header or not, encrypted with a static key -
    and that the peer with the inverse key gets from an address it takes packets from, leaves
    process_incoming_link for the tun device byte for byte, if the replay check accepts its
    packet id; otherwise nothing leaves and with TCP the connection is restarted.  No ASSERT
    fails on either side.  The packet is none of those that the peer keeps for itself (a ping or
    an OCC message) and fits in one fragment where fragmentation is on. *)
Theorem tunnel_roundtrip SHA1 now fill now2 fill2 cs cr h p q r q2 r2 b bs from sopt sopt' ectx dctx ropt pid pin :
  let front := pin_bytes pin (long_form_of sopt) in
  lzo_ok -> buf_rep h p b bs -> bs <> [] -> plain bs ->
  sender_ok SHA1 now cs h p q r b (Zlen bs) sopt ectx front sopt' ->
  receiver_ok now2 cr h q2 r2 (Zlen bs) from ropt dctx ->
  bool_decide (is_Some (lzo_compwork cs)) = bool_decide (is_Some (lzo_compwork cr)) ->
  bool_decide (is_Some (c_fragment cs)) = bool_decide (is_Some (c_fragment cr)) ->
  NoDup [blk p; blk q; blk r; blk q2; blk r2] ->
  o_packet_id sopt = Some pid -> alloc_pin now sopt pid (long_form_of sopt) = Ok (sopt', pin) ->
  is_u32 (pin_id pin) -> is_u32 (pin_time pin) ->
  inverse_ctx ectx dctx -> o_flags ropt = o_flags sopt -> flag (o_flags sopt) CO_IGNORE_PACKET_ID = false -> is_Some (o_packet_id ropt) ->
  (forall ci, k_cipher ectx = Some ci -> Zlen front + (Zlen bs + 5) + c_block_size ci <=
     b_capacity (decrypt_buf (buffers cr)) - FRAME_HEADROOM_ADJ (c_frame cr) FRAME_HEADROOM_MARKER_DECRYPT) ->
  wp (cs' ← encrypt_sign SHA1 now fill cs b true; process_incoming_link SSL_new now2 fill2 cr (to_link cs') from)
    (fun cr' h' => exists ok ropt',
       decrypt_replay now2 (Some (Pin (pin_id pin) (if long_form_of sopt then pin_time pin else 0))) ropt = Ok (ok, ropt') /\
       mode cr' = Static ropt' /\
       if ok : bool then exists s, buf_rep h' s (to_tun cr') bs
       else if connection_oriented (info cr) then sig cr' = Some SIGUSR1 else b_len (to_tun cr') = 0) h.
Proof.
  intros front Hlz Hb Hne Hplain Hs Hr El Ef Hnd Hpid Hal Hid Ht Hinv Hfl Hig Hrp Hroom.
  set (room := b_capacity _ - _) in *.
  assert (forall out, 0 < Zlen out <= Zlen bs + 5 ->
    open_packet dctx ropt room (sealed SHA1 cs sopt ectx front out) = Some (Some (Pin (pin_id pin) (if long_form_of sopt then pin_time pin else 0)), out)) as Hopen.
  { intros out Hout. pose proof (so_ready _ _ _ _ _ _ _ _ _ _ _ _ _ Hs b ltac:(rewrite (buf_rep_Zlen _ _ _ _ Hb); lia) ltac:(lia)) as Her.
    unfold sealed. erewrite open_seal_packet; eauto.
    - by rewrite Hig.
    - apply Her.
    - intros ci Ec. destruct (er_cipher _ _ _ _ _ _ _ _ _ _ Her ci Ec) as (Hok & _). split; [done|]. rewrite Ec.
      pose proof (er_prng _ _ _ _ _ _ _ _ _ _ Her) as [? ?]. split; [apply prng_bytes_length; auto; by destruct Hok; lia|].
      rewrite Zlen_app. specialize (Hroom ci Ec). unfold room. lia.
    - intros ->. change (Zlen []) with 0 in Hout. lia. }
  wp_steps. eapply wp_mono; [eapply (wp_encrypt_sign SHA1 now fill cs h p q r b bs sopt ectx front sopt'); try done|].
  { intros out Hout Hnil. specialize (Hopen out Hout). by rewrite Hnil, open_packet_nil in Hopen. }
  intros cs' h1 (s & out & Hk & Hfr & Hb1 & Hsin & _ & _).
  pose proof (Zlen_framed _ _ _ _ Hfr) as Hout. specialize (Hout ltac:(destruct bs; [done|rewrite Zlen_cons; pose proof (Zlen_nonneg bs); lia])).
  rewrite !list.NoDup_cons in Hnd. destruct Hnd as (N1 & N2 & N3 & N4 & _).
  eapply (wp_process_incoming now2 fill2 cr h1 s q2 r2 (to_link cs') from bs out _ ropt dctx); try done.
  - intros Hnil. specialize (Hopen out Hout). by rewrite Hnil, open_packet_nil in Hopen.
  - destruct Hr as [R1 R2 R3 R4 [R5] (ws & R6) R7]. split; try done.
    + split. intros Hl. destruct (R5 Hl) as (wl & Hwl & Hrest). exists wl. split; [|done]. eapply buf_rep_keeps; [exact Hk|set_solver|done].
    + exists ws. eapply buf_rep_keeps; [exact Hk|set_solver|done].
  - destruct Hsin as [->|[->| ->]]; set_solver.
  - destruct Hsin as [->|[->| ->]]; set_solver.
  - set_solver.
  - by apply Hopen.
  - split; [done|]. cbn. unfold is_u32 in Ht. destruct (long_form_of sopt); lia.
  - by rewrite <- El, <- Ef.
Qed.
End Tunnel.

(** ** Witness: a packet of 120 equal bytes, compressed, with a fragment header *)

#[local] Existing Instance ex_lzo.

Definition ex_frame2 : frame := Frame 300 300 42 40 0 0 0 0.
Definition ex_blk (n : positive) : buffer := Buf 600 0 0 (Some (Ptr n 0)).
Definition ex_payload : list byte := replicate 120 7.
Definition ex_in : buffer := Buf 600 100 120 (Some (Ptr 1 0)).
Definition ex_path_heap : heap := <[1%positive := replicate 600 7]> (<[2%positive := replicate 600 0]> (<[3%positive := replicate 600 0]>
  (<[4%positive := replicate 600 0]> (<[5%positive := replicate 600 0]> ∅)))).
Definition ex_context (read_tun : positive) (opt : crypto_options) (tcp : bool) : context (tls_obj := unit) :=
  Ctx (Static opt) ex_nonce ex_frame2 ex_frame2 (Some (ex_master 0)) (Some (lzo_compress_init true)) true
    (Link no_addr (Addr 16777343 1194) true tcp false)
    (Buffers (ex_blk read_tun) (ex_blk 9) (ex_blk 3) (ex_blk 5) (ex_blk 2) (ex_blk 4))
    clear_buf no_addr clear_buf true None (ex_occ (-1)) false event_timeout_clear (interval_init 10 10) 0 0 0.
Definition ex_sopt' : crypto_options :=
  Eval vm_compute in match alloc_pin 1000 (ex_opt ex_ectx) ex_pid true with Ok (o, _) => o | _ => ex_opt ex_ectx end.

Lemma ex_blk_rep n : In n [2; 3; 4; 5]%positive -> buf_rep ex_path_heap (Ptr n 0) (ex_blk n) [].
Proof. intros [<-|[<-|[<-|[<-|[]]]]]; split; try done; by vm_compute; eexists. Qed.

Lemma ex_sender : sender_ok ex_sha1 1000 (ex_context 1 (ex_opt ex_ectx) false) ex_path_heap (Ptr 1 0) (Ptr 2 0) (Ptr 3 0) ex_in (Zlen ex_payload)
  (ex_opt ex_ectx) ex_ectx (pin_bytes (Pin 1 1000) true) ex_sopt'.
Proof.
  split; try done.
  - split; try done. intros _. exists []. split; [by apply (ex_blk_rep 2); left|]. by vm_compute.
  - exists []. apply (ex_blk_rep 3). by right; left.
  - intros b' Hl Ho. change (b_len b' <= 125) in Hl. change (79 <= b_offset b') in Ho. split; try done.
    + by eexists.
    + intros x [= <-]. apply ex_hmac_ok.
    + intros c [= <-]. split; [apply ex_enc_ok|]. split; [|by vm_compute].
      change (84 + b_len b' + 8 + 1 <= 600). lia.
    + change (8 <= b_offset b'). lia.
    + eexists. by split.
Qed.
Lemma ex_receiver : receiver_ok 1000 (ex_context 8 (ex_opt ex_ectx) false) ex_path_heap (Ptr 4 0) (Ptr 5 0) (Zlen ex_payload) (Addr 33554559 1194) (ex_opt ex_ectx) ex_dctx.
Proof.
  split; try done.
  - intros buf Hl. unfold link_socket_verify_incoming_addr. by replace (b_len buf >? 0) with true by lia.
  - split. intros _. exists []. split; [by apply (ex_blk_rep 4); right; right; left|]. by vm_compute.
  - exists []. apply (ex_blk_rep 5). by right; right; right; left.
  - split; try done; [by eexists|intros x [= <-]; apply ex_hmac_ok|intros c [= <-]; by split; [apply ex_dec_ok|]|intros pid [= <-]; apply ex_rec_ok].
Qed.

Lemma tunnel_roundtrip_witness :
  wp (cs' ← encrypt_sign ex_sha1 1000 (fun _ => 0) (ex_context 1 (ex_opt ex_ectx) false) ex_in true;
      process_incoming_link (fun _ => None) 1000 (fun _ => 0) (ex_context 8 (ex_opt ex_ectx) false) (to_link cs') (Addr 33554559 1194))
    (fun cr' h' => exists ok ropt', decrypt_replay 1000 (Some (Pin 1 1000)) (ex_opt ex_ectx) = Ok (ok, ropt') /\
       mode cr' = Static ropt' /\ if ok : bool then exists s, buf_rep h' s (to_tun cr') ex_payload else b_len (to_tun cr') = 0) ex_path_heap.
Proof.
  apply (tunnel_roundtrip (fun _ => None) ex_sha1 1000 (fun _ => 0) 1000 (fun _ => 0) (ex_context 1 (ex_opt ex_ectx) false) (ex_context 8 (ex_opt ex_ectx) false)
    ex_path_heap (Ptr 1 0) (Ptr 2 0) (Ptr 3 0) (Ptr 4 0) (Ptr 5 0) ex_in ex_payload (Addr 33554559 1194) (ex_opt ex_ectx) ex_sopt' ex_ectx ex_dctx (ex_opt ex_ectx) ex_pid (Pin 1 1000));
    try done.
  - exact ex_lzo_ok.
  - exact ex_sender.
  - exact ex_receiver.
  - repeat constructor; set_solver.
  - exact ex_inverse.
  - intros ci [= <-]. by vm_compute.
Defined.
