(* ===== verification/TlsRun.v ===== *)
(** Executions of both ends of the control channel (src/ssl.c) on a concrete TLS: a client
    and a server whose packets are passed to each other, as far as the first packet of the
    tunnel. *)

From S2P Require Import Prelude Buffer Integer PacketId Mtu Crypto Reliable Pool ControlAuth Text Key Prf Own RelOwn Tls TlsOk Timing Lzo Occ Forward Tunnel KeyMethod TlsProc TlsLoop TlsKeys.

#[local] Existing Instance ex_env.

(** Digests that mix their input. *)
Definition run_hash (c : Z) (bs : list byte) : list byte := be_enc 4 (foldl (fun a b => (a * c + b + 1) mod 4294967296) 1 bs).
Definition run_md (c : Z) : evp_md := EvpMd 4 (fun k m => run_hash c (k ++ m)) (run_hash c).
#[local] Instance run_openssl : OpenSSL := {|
  DES_is_weak_key := fun _ => false;
  DES_check_key_parity := fun _ => true;
  DES_set_odd_parity := fun k => k;
  EVP_get_cipherbyname := fun _ => None;
  EVP_get_digestbyname := fun _ => None;
  cipher_ok := fun _ => true;
  EVP_md5 := run_md 31;
  EVP_sha1 := run_md 1009
|}.

(** ** A toy TLS *)

(** What is written is a record with its length; a record can be read when it is there as a
    whole.  When a side first reads it asks for the verification of the peer's certificate, and
    the server answers with one byte of its own. *)
Record toy := Toy { toy_server : bool; toy_first : bool; toy_verified : bool; toy_in : list byte; toy_out : list byte }.

Definition toy_in_write (o : toy) (bs : list byte) : io_ret Z * toy :=
  (IoOk (Zlen bs),
   Toy (toy_server o) false (toy_verified o)
     (toy_in o ++ if toy_first o && negb (toy_server o) then drop 1 bs else bs)
     (toy_out o)).
Definition toy_out_read (o : toy) (n : Z) : io_ret (list byte) * toy :=
  match toy_out o with
  | [] => (IoRetry, o)
  | bs => (IoOk (take (Z.to_nat n) bs), Toy (toy_server o) (toy_first o) (toy_verified o) (toy_in o) (drop (Z.to_nat n) bs))
  end.
Definition toy_write (o : toy) (bs : list byte) : ssl_io toy Z :=
  IoDone (IoOk (Zlen bs)) (Toy (toy_server o) (toy_first o) (toy_verified o) (toy_in o)
    (toy_out o ++ be_enc 2 (Zlen bs) ++ bs)).
Definition toy_read (o : toy) (n : Z) : ssl_io toy (list byte) :=
  let len := Z.to_nat (be_dec (take 2 (toy_in o))) in
  let read := IoDone (IoOk (take (Z.to_nat n) (take len (drop 2 (toy_in o)))))
                (Toy (toy_server o) (toy_first o) true (drop len (drop 2 (toy_in o)))
                   (toy_out o ++ if toy_server o && negb (toy_verified o) then [22] else [])) in
  if (length (toy_in o) <? 2 + len)%nat then IoDone IoRetry o
  else if toy_verified o then read else IoVerify true ex_cert (fun ok => if ok then read else IoDone IoError o).
#[local] Instance toy_bio : Bio toy := {|
  SSL_new := fun srv => Some (Toy srv true false [] []);
  ct_in_write := toy_in_write;
  ct_out_read := toy_out_read;
  ssl_write := toy_write;
  ssl_read := toy_read
|}.

(** ** Two sides *)

Record side := Side {
  sd_multi : tls_multi (tls_obj := toy);
  sd_rand : list byte;
  sd_nonces : list byte;
  sd_draws : list session_id;
  sd_env : surroundings;
  sd_heap : heap
}.
Definition with_multi (s : side) (m : tls_multi) (h : heap) : side := Side m (sd_rand s) (sd_nonces s) (sd_draws s) (sd_env s) h.

(** --tls-auth without a direction: both sides use the same HMAC key. *)
Definition run_options (srv : bool) : tls_options :=
  TlsOptions srv 2 true false 3600 2 (-1) 0 64 15 (Opt (o_key_ctx_bi ex_ta) None None CO_PACKET_ID_LONG_FORM) (Frame 0 0 9 0 0 0 0 0)
    ex_kt 60 0 0 3600 (if srv then ex_auth_server else ex_auth_client).
Definition run_rand (srv : bool) : list byte := (fun i => let z := Z.of_nat i in (z * z * 7 + z * 3 + if srv then 1 else 5) mod 251) <$> seq 0 300.
Definition start (srv : bool) (sids : list session_id) (peer : sockaddr_in) : option side :=
  match tls_multi_init_finalize (SSL_new (tls_obj := toy)) (fun _ => 0) (tls_multi_init (run_options srv) None) ex_data_frame sids ∅ with
  | Ok (m, draws, h) => Some (Side m (run_rand srv) (replicate 100 5) draws (Surroundings (fun _ => replicate 20 1) (fun _ => 7) 47 peer) h)
  | _ => None
  end.

(** tls_multi_process, and the packet that it leaves in to_link. *)
Definition turn (now : Z) (s : side) : option (side * list byte) :=
  match tls_multi_process LOOP_MAX (sd_env s) (fun _ => now)
          (MultiProc (Proc (sd_multi s) clear_buf no_addr false false (sd_rand s) (sd_nonces s) None) false false 10 0 (sd_draws s)) (sd_heap s) with
  | Ok (Some x, h) =>
      let p := mp_proc x in
      let s := Side (p_multi p) (rand p) (nonces p) (mp_draws x) (sd_env s) h in
      match BPTR (to_link p) with
      | Some q => match load q (b_len (to_link p)) h with Ok (bs, _) => Some (s, bs) | _ => None end
      | None => Some (s, [])
      end
  | _ => None
  end.

(** tls_pre_decrypt on a packet from [from]. *)
Definition deliver (now : Z) (from : sockaddr_in) (packet : list byte) (s : side) : option (bool * data_options * side) :=
  match (b ← alloc_buf (fun _ => 0) 2048;
         '(_, b) ← buf_write b packet;
         tls_pre_decrypt (SSL_new (tls_obj := toy)) now (fun _ => 0) (sd_multi s) from b (DataOpt None None 0)) (sd_heap s) with
  | Ok (ret, m, _, o, h) => Some (ret, o, with_multi s m h)
  | _ => None
  end.

Definition client_addr : sockaddr_in := Addr 16777343 1194.
Definition server_addr : sockaddr_in := Addr 33554559 1194.

(** [n] turns of both sides; a packet reaches the other side at once. *)
Fixpoint play (n : nat) (now : Z) (c s : side) : option (side * side) :=
  match n with
  | O => Some (c, s)
  | S n =>
      '(c, packet) ← turn now c;
      s ← (if Zlen packet =? 0 then Some s else snd <$> deliver now client_addr packet s);
      '(s, packet) ← turn now s;
      c ← (if Zlen packet =? 0 then Some c else snd <$> deliver now server_addr packet c);
      play n now c s
  end.

Definition at_start : option (side * side) :=
  c ← start false (replicate 2 (replicate 8 1)) server_addr;
  s ← start true (replicate 2 (replicate 8 2)) no_addr;
  Some (c, s).

(** ** The data channel *)

(** The context of a side, for Forward.v's [seal] and [open]. *)
Definition data_context (s : side) (work : buffer) : context (tls_obj := toy) :=
  Ctx (TlsMode (sd_multi s) (DataOpt None None 0)) ex_nonce ex_frame2 ex_frame2 None None true
    (Link no_addr client_addr true false false) (Buffers clear_buf clear_buf work work clear_buf clear_buf)
    clear_buf no_addr clear_buf true None (ex_occ (-1)) false event_timeout_clear (interval_init 10 10) 0 0 0.

(** The bytes that a side sends for a packet. *)
Definition send_data (now : Z) (payload : list byte) (s : side) : option (list byte) :=
  match (work ← alloc_buf (fun _ => 0) 600;
         b ← alloc_buf (fun _ => 0) 600;
         '(_, b) ← buf_write (snd (buf_init b 100)) payload;
         '(b, _, _, _) ← seal ex_sha1 now (fun _ => 0) (data_context s work) b;
         p ← deref (BPTR b);
         load p (b_len b)) (sd_heap s) with
  | Ok (bs, _) => Some bs
  | _ => None
  end.

(** Whether a packet is accepted, and what it holds. *)
Definition receive_data (now : Z) (from : sockaddr_in) (packet : list byte) (s : side) : option (bool * list byte) :=
  match (work ← alloc_buf (fun _ => 0) 600;
         b ← alloc_buf (fun _ => 0) 600;
         '(_, b) ← buf_write (snd (buf_init b 100)) packet;
         '(ok, b, _, _, _) ← open (SSL_new (tls_obj := toy)) now (fun _ => 0) (data_context s work) b from;
         bs ← (if b_len b >? 0 then p ← deref (BPTR b); load p (b_len b) else mret []);
         mret (ok, bs)) (sd_heap s) with
  | Ok (r, _) => Some r
  | _ => None
  end.

Definition played (n : nat) : option (side * side) := x ← at_start; play n 1000 (fst x) (snd x).

(** ** What a side does are steps of its tls_multi object *)

Definition reach (s : side) : Prop := tls_reachable (sd_multi s, sd_heap s).

Lemma turn_reach now s s' bs : reach s -> turn now s = Some (s', bs) -> reach s'.
Proof.
  intros Hr Ht. unfold turn in Ht. set (y := MultiProc _ _ _ _ _ _) in Ht. destruct (tls_multi_process _ _ _ y _) as [[[x|] h]| |] eqn:E; [|done..].
  assert (reach (Side (p_multi (mp_proc x)) (rand (mp_proc x)) (nonces (mp_proc x)) (mp_draws x) (sd_env s) h)) as Hx.
  { eapply reach_step; [exact Hr|]. exact (step_process LOOP_MAX (sd_env s) (fun _ => now) y x (sd_heap s) h E). }
  destruct (BPTR _); [|by injection Ht as <- _]. destruct (load _ _ h) as [[bs' h']| |]; [by injection Ht as <- _|done..].
Qed.

Lemma deliver_reach now from packet s r : reach s -> deliver now from packet s = Some r -> reach (snd r).
Proof.
  intros Hr Hd. unfold deliver, mbind, M_bind in Hd.
  destruct (alloc_buf _ _ _) as [[b h1]| |]; [|done..]. destruct (buf_write _ _ _) as [[[ok b1] h2]| |]; [|done..].
  destruct (tls_pre_decrypt _ _ _ _ _ _ _ _) as [[[[[ret m] b2] o] h3]| |] eqn:E; [|done..]. injection Hd as <-.
  eapply reach_step; [eapply reach_step; [exact Hr|apply step_others with (h' := h2)]|]. by eapply step_pre_decrypt.
Qed.
Lemma deliver_if_reach now from packet s s' : reach s ->
  (if Zlen packet =? 0 then Some s else snd <$> deliver now from packet s) = Some s' -> reach s'.
Proof.
  intros Hr. destruct (_ =? 0); [by intros [= <-]|]. intros (r & E & ->)%fmap_Some. by eapply deliver_reach.
Qed.

Lemma play_reach n now : forall c s c' s', reach c -> reach s -> play n now c s = Some (c', s') -> reach c' /\ reach s'.
Proof.
  induction n as [|n IH]; intros c s c' s' Hc Hs; cbn [play]; [by intros [= <- <-]|]. intros Hp.
  apply bind_Some in Hp as ([c1 p1] & E1 & Hp). apply bind_Some in Hp as (s1 & E2 & Hp).
  apply bind_Some in Hp as ([s2 p2] & E3 & Hp). apply bind_Some in Hp as (c2 & E4 & Hp).
  pose proof (turn_reach _ _ _ _ Hc E1) as H1. pose proof (deliver_if_reach _ _ _ _ _ Hs E2) as H2.
  pose proof (turn_reach _ _ _ _ H2 E3) as H3. pose proof (deliver_if_reach _ _ _ _ _ H1 E4) as H4. exact (IH _ _ _ _ H4 H3 Hp).
Qed.

Lemma start_reach srv sids peer s : start srv sids peer = Some s -> reach s.
Proof.
  unfold start. destruct (tls_multi_init_finalize _ _ _ _ _ _) as [[[m draws] h]| |] eqn:E; [|done..]. intros [= <-]. by eapply reach_init.
Qed.
Lemma played_reach n c s : played n = Some (c, s) -> reach c /\ reach s.
Proof.
  unfold played. intros ([c0 s0] & E0 & Hp)%bind_Some. unfold at_start in E0.
  apply bind_Some in E0 as (c1 & Ec & E0). apply bind_Some in E0 as (s1 & Es & E0). injection E0 as <- <-.
  exact (play_reach n 1000 c1 s1 c s (start_reach _ _ _ _ Ec) (start_reach _ _ _ _ Es) Hp).
Qed.

(** ** Executions *)

(** A test of the two sides after [n] turns. *)
Definition after (n : nat) (test : side -> side -> bool) : bool := match played n with Some (c, s) => test c s | None => false end.
Lemma after_reach n test : after n test = true -> exists c s, reach c /\ reach s /\ test c s = true.
Proof.
  unfold after. destruct (played n) as [[c s]|] eqn:E; [|done]. intros Ht.
  destruct (played_reach n c s E) as [Hc Hs]. exists c, s. exact (conj Hc (conj Hs Ht)).
Qed.

Definition sends_with (s : side) (r : ks_ref) : bool := bool_decide (encrypt_key (sd_multi s) = Some r).
Definition arrives (from : sockaddr_in) (c s : side) : bool :=
  bool_decide ((p ← send_data 1000 [1; 2; 3; 4; 5] c; receive_data 1000 from p s) = Some (true, [1; 2; 3; 4; 5])).

(** A packet of the data channel that nobody encrypted or signed. *)
Definition forged : list byte := [48; 0; 0; 0; 1; 69; 70; 71].

(** After seven turns both sides can send, a packet of each side arrives at the other, and a
    forged packet is dropped. *)
Lemma tunnel_opens : after 7 (fun c s => sends_with c (TM_ACTIVE, KS_PRIMARY) && sends_with s (TM_ACTIVE, KS_PRIMARY) &&
  arrives client_addr c s && arrives server_addr s c && bool_decide (receive_data 1000 client_addr forged s = Some (false, []))) = true.
Proof. vm_compute. reflexivity. Qed.

Definition empty_key (k : key_ctx_bi) : bool :=
  match k with KeyCtxBi (KeyCtx None None) (KeyCtx None None) => true | _ => false end.
Definition in_window (s : side) : bool :=
  let m := sd_multi s in let ks := ks_at m (TM_ACTIVE, KS_PRIMARY) in
  server (m_opt m) && (key_method (m_opt m) =? 2) && bool_decide (data_key m client_addr 0 = Some (TM_ACTIVE, KS_PRIMARY)) &&
  (state ks =? S_GOT_KEY) && authenticated ks && empty_key (Tls.key ks) &&
  bool_decide (receive_data 1000 client_addr forged s = Some (true, drop 5 forged)).
Lemma window_open : after 4 (fun _ s => in_window s) = true.
Proof. vm_compute. reflexivity. Qed.

(** C19: the window of keys_before_traffic is real.  A server with key method 2 and tls-auth can
    come back from tls_multi_process with its key state authenticated but at S_GOT_KEY, when it
    has a control packet to send at that moment; DECRYPT_KEY_ENABLED already holds, the key
    contexts are still empty, and a packet in clear text with the client's address and no HMAC
    goes through tls_pre_decrypt and openvpn_decrypt as a packet of the client. *)
Theorem server_takes_clear_text : exists s : side, reach s /\
  server (m_opt (sd_multi s)) = true /\ key_method (m_opt (sd_multi s)) = 2 /\
  data_key (sd_multi s) client_addr 0 = Some (TM_ACTIVE, KS_PRIMARY) /\
  state (ks_at (sd_multi s) (TM_ACTIVE, KS_PRIMARY)) = S_GOT_KEY /\ authenticated (ks_at (sd_multi s) (TM_ACTIVE, KS_PRIMARY)) = true /\
  Tls.key (ks_at (sd_multi s) (TM_ACTIVE, KS_PRIMARY)) = no_key /\
  receive_data 1000 client_addr forged s = Some (true, drop 5 forged).
Proof.
  destruct (after_reach _ _ window_open) as (c & s & _ & Hr & Hw). exists s. split; [exact Hr|]. unfold in_window in Hw.
  cbv zeta in Hw. rewrite !andb_true_iff in Hw. destruct Hw as ((((((H1 & H2) & H3) & H4) & H5) & H6) & H7).
  apply bool_decide_eq_true in H3, H7. apply Z.eqb_eq in H2, H4. repeat (split; [assumption|]). split; [|exact H7].
  destruct (Tls.key _) as [[[] []] [[] []]]; first [discriminate H6|reflexivity].
Qed.

Lemma keys_before_traffic_witness : exists s : side, reach s /\ encrypt_key (sd_multi s) = Some (TM_ACTIVE, KS_PRIMARY) /\
  (forall r, encrypt_key (sd_multi s) = Some r -> made (m_opt (sd_multi s)) (Tls.key (ks_at (sd_multi s) r))) /\
  (forall from kid r, data_key (sd_multi s) from kid = Some r -> dec_made (m_opt (sd_multi s)) (Tls.key (ks_at (sd_multi s) r)) \/
     server (m_opt (sd_multi s)) = true /\ key_method (m_opt (sd_multi s)) <> 1 /\ state (ks_at (sd_multi s) r) = S_GOT_KEY).
Proof.
  destruct (after_reach _ _ tunnel_opens) as (c & s & _ & Hr & Hs). exists s. split; [exact Hr|]. rewrite !andb_true_iff in Hs.
  destruct Hs as ((((_ & Hs) & _) & _) & _). split; [by apply bool_decide_eq_true in Hs|]. exact (keys_before_traffic (sd_multi s) (sd_heap s) Hr).
Defined.

(** The first call of tls_process for the client. *)
Definition small (r : option reliable) (n : Z) : bool := match r with Some r => Zlen (array r) <=? n | None => true end.
Lemma client_small : after 0 (fun c _ => let ks := primary (sd_multi c) TM_ACTIVE in
  small (rec_reliable ks) TLS_RELIABLE_N_REC_BUFFERS && small (send_reliable ks) TLS_RELIABLE_N_SEND_BUFFERS) = true.
Proof. by vm_compute. Qed.

Lemma tls_process_terminates_witness : exists c : side, reach c /\
  small_reliable (the_ks (Proc (sd_multi c) clear_buf no_addr false false (sd_rand c) (sd_nonces c) None) TM_ACTIVE) /\
  wlp (tls_process LOOP_MAX (sd_env c) (fun _ => 1000) 0 TM_ACTIVE 10
        (Proc (sd_multi c) clear_buf no_addr false false (sd_rand c) (sd_nonces c) None)) (fun r _ => r <> None) (sd_heap c).
Proof.
  destruct (after_reach _ _ client_small) as (c & s & Hc & _ & Ht). exists c. split; [exact Hc|].
  assert (small_reliable (the_ks (Proc (sd_multi c) clear_buf no_addr false false (sd_rand c) (sd_nonces c) None) TM_ACTIVE)) as Hsm.
  { cbv zeta in Ht. apply andb_true_iff in Ht as [H1 H2]. unfold small in *. unfold the_ks. cbn [p_multi].
    split; intros r Er; rewrite Er in *; lia. }
  split; [exact Hsm|]. exact (tls_process_terminates LOOP_MAX (sd_env c) (fun _ => 1000) 0 TM_ACTIVE 10 _ (sd_heap c) Hsm (le_n LOOP_MAX)).
Defined.
