(* ===== verification/Mroute.v ===== *)
(** Virtual addresses of the server's clients (src/mroute.c, src/mroute.h): the addresses of a
    packet, their comparison and hash, and the network lengths in use among the clients'
    routes (struct mroute_helper); netbits_to_netmask of src/route.h and netmask_to_netbits of
    src/route.c.

    struct mroute_addr has 20 bytes for an address of which the first [mr_len] count; a
    function that fills in an address leaves the other bytes as they were.  mroute_addr_print,
    used in log messages and for scripts, is left out. *)

From S2P Require Import Prelude Buffer Integer Mss HashTable.

(** ** Addresses *)

Definition IP_MCAST_SUBNET_MASK : Z := Z.shiftl 240 24.
Definition IP_MCAST_NETWORK : Z := Z.shiftl 224 24.
Definition MROUTE_EXTRACT_SUCCEEDED : Z := 2.
Definition MROUTE_EXTRACT_BCAST : Z := 4.
Definition MROUTE_EXTRACT_MCAST : Z := 8.
Definition MROUTE_EXTRACT_IGMP : Z := 16.
Definition MR_MAX_ADDR_LEN : Z := 20.
Definition MR_ADDR_NONE : Z := 0.
Definition MR_ADDR_ETHER : Z := 1.
Definition MR_ADDR_IPV4 : Z := 2.
Definition MR_ADDR_MASK : Z := 3.
Definition MR_WITH_PORT : Z := 4.
Definition MR_WITH_NETBITS : Z := 8.
Definition OPENVPN_IPPROTO_IGMP : Z := 2.

Record mroute_addr := MrAddr {
  mr_len : Z;
  mr_type : Z;
  mr_netbits : Z;
  mr_addr : list byte
}.
#[export] Instance mroute_addr_eq_dec : EqDecision mroute_addr.
Proof. solve_decision. Defined.

Definition mroute_addr_init : mroute_addr := MrAddr 0 0 0 (replicate 20 0).

(** type, netbits, len and a memcpy to the front of addr *)
Definition set_addr (a : mroute_addr) (type : Z) (bs : list byte) : mroute_addr :=
  MrAddr (Zlen bs) type 0 (splice 0 bs (mr_addr a)).

Definition is_mac_mcast_addr (mac : list byte) : bool := negb (Z.land (hd 0 mac) 1 =? 0).
Definition is_mac_mcast_maddr (a : mroute_addr) : bool :=
  (Z.land (mr_type a) MR_ADDR_MASK =? MR_ADDR_ETHER) && is_mac_mcast_addr (mr_addr a).

(** The bytes of an address that count. *)
Definition mr_bytes (a : mroute_addr) : list byte := slice 0 (mr_len a) (mr_addr a).

Definition mroute_learnable_address (a : mroute_addr) : bool :=
  existsb (fun b => negb (b =? 0)) (mr_bytes a) && existsb (fun b => negb (b =? 255)) (mr_bytes a) &&
  negb (is_mac_mcast_maddr a).

Definition mroute_addr_equal (a1 a2 : mroute_addr) : bool :=
  if negb (mr_type a1 =? mr_type a2) then false
  else if negb (mr_netbits a1 =? mr_netbits a2) then false
  else if negb (mr_len a1 =? mr_len a2) then false
  else bool_decide (slice 0 (mr_len a1) (mr_addr a1) = slice 0 (mr_len a1) (mr_addr a2)).

(** The hashed bytes start at the member type: type, netbits, and the address. *)
Definition mroute_addr_hash_function (a : mroute_addr) (iv : Z) : Z :=
  hash_func (slice 0 (mr_len a + 2) (mr_type a :: mr_netbits a :: mr_addr a)) iv.
Definition mroute_addr_compare_function := mroute_addr_equal.

(** ** The addresses of a packet *)

Definition ip_saddr : Z := 12.
Definition ip_daddr : Z := 16.
Definition eth_dest : Z := 0.
Definition eth_source : Z := 6.

(** ip->daddr & htonl (mask) == htonl (network) *)
Definition is_mcast (daddr : list byte) : bool := Z.land (be_dec daddr) IP_MCAST_SUBNET_MASK =? IP_MCAST_NETWORK.

Definition mroute_extract_addr_from_packet (src dest : option mroute_addr) (buf : buffer) (tunnel_type : Z)
  : M (Z * option mroute_addr * option mroute_addr) :=
  if tunnel_type =? DEV_TYPE_TUN then
    if b_len buf >=? 1 then
      p ← deref (BPTR buf);
      v ← load p 1;
      if (OPENVPN_IPH_GET_VER (be_dec v) =? 4) && (b_len buf >=? sizeof_iphdr) then
        s ← load (ptr_add p ip_saddr) 4;
        d ← load (ptr_add p ip_daddr) 4;
        proto ← load (ptr_add p ip_protocol) 1;
        let mcast := if is_mcast d then MROUTE_EXTRACT_MCAST else 0 in
        let igmp := if be_dec proto =? OPENVPN_IPPROTO_IGMP then MROUTE_EXTRACT_IGMP else 0 in
        let ret := match dest with Some _ => Z.lor mcast igmp | None => 0 end in
        mret (Z.lor ret MROUTE_EXTRACT_SUCCEEDED, (fun a => set_addr a MR_ADDR_IPV4 s) <$> src, (fun a => set_addr a MR_ADDR_IPV4 d) <$> dest)
      else mret (0, src, dest)
    else mret (0, src, dest)
  else if tunnel_type =? DEV_TYPE_TAP then
    if b_len buf >=? sizeof_ethhdr then
      p ← deref (BPTR buf);
      s ← load (ptr_add p eth_source) 6;
      d ← load (ptr_add p eth_dest) 6;
      let ret := match dest with Some _ => if is_mac_mcast_addr d then MROUTE_EXTRACT_BCAST else 0 | None => 0 end in
      mret (Z.lor ret MROUTE_EXTRACT_SUCCEEDED, (fun a => set_addr a MR_ADDR_ETHER s) <$> src, (fun a => set_addr a MR_ADDR_ETHER d) <$> dest)
    else mret (0, src, dest)
  else mret (0, src, dest).

(** [s_addr] is the address as a number: its bytes in memory are [be_enc 4]. *)
Definition mroute_extract_sockaddr_in (a : mroute_addr) (family_inet : bool) (s_addr sin_port : Z) (use_port : bool)
  : bool * mroute_addr :=
  if family_inet then
    if use_port then (true, set_addr a (Z.lor MR_ADDR_IPV4 MR_WITH_PORT) (be_enc 4 s_addr ++ be_enc 2 sin_port))
    else (true, set_addr a MR_ADDR_IPV4 (be_enc 4 s_addr))
  else (false, a).

Definition mroute_extract_in_addr_t (a : mroute_addr) (src : Z) : mroute_addr := set_addr a MR_ADDR_IPV4 (be_enc 4 src).

(** ** Networks *)

Definition netbits_to_netmask (netbits : Z) : Z :=
  if (netbits >? 0) && (netbits <=? 32) then u32 (Z.shiftl (-1) (32 - netbits)) else 0.

(** The first number of bits, from [i] on, with the mask. *)
Fixpoint find_netbits (n : nat) (i netmask : Z) : option Z :=
  match n with
  | O => None
  | S n => if netbits_to_netmask i =? netmask then Some i else find_netbits n (i + 1) netmask
  end.
(** [Some (-1)] for a host route; None when the network has bits outside of the mask, or the
    mask is none. *)
Definition netmask_to_netbits (network netmask : Z) : option Z :=
  if Z.land network netmask =? network then
    (fun i => if i =? 32 then -1 else i) <$> find_netbits 33 0 netmask
  else None.

Definition mroute_addr_mask_host_bits (a : mroute_addr) : result mroute_addr :=
  let addr := be_dec (slice 0 4 (mr_addr a)) in
  _ ← assert_ (Z.land (mr_type a) MR_ADDR_MASK =? MR_ADDR_IPV4);
  let addr := Z.land addr (netbits_to_netmask (mr_netbits a)) in
  Ok (MrAddr (mr_len a) (mr_type a) (mr_netbits a) (splice 0 (be_enc 4 addr) (mr_addr a))).

(** ** The network lengths in use *)

Definition MR_HELPER_NET_LEN : Z := 32.

Record mroute_helper := MrHelper {
  cache_generation : Z;
  ageable_ttl_secs : Z;
  n_net_len : Z;
  net_len : list Z;
  net_len_refcount : list Z
}.

Definition mroute_helper_init (ttl : Z) : mroute_helper := MrHelper 0 ttl 0 (replicate 32 0) (replicate 32 0).

(** struct iroute *)
Record iroute := Iroute { network : Z; netbits : Z }.

(** Network lengths [i - 1], [i - 2], ..., 0; [j] are written. *)
Fixpoint regenerate_loop (i : nat) (j : Z) (net_len refcount : list Z) : result (Z * list Z) :=
  match i with
  | O => Ok (j, net_len)
  | S i =>
      n ← aget refcount (Z.of_nat i);
      if n >? 0 then
        net_len ← aset net_len j (u8 (Z.of_nat i));
        regenerate_loop i (j + 1) net_len refcount
      else regenerate_loop i j net_len refcount
  end.
Definition mroute_helper_regenerate (mh : mroute_helper) : result mroute_helper :=
  '(j, nl) ← regenerate_loop (Z.to_nat MR_HELPER_NET_LEN) 0 (net_len mh) (net_len_refcount mh);
  Ok (MrHelper (cache_generation mh) (ageable_ttl_secs mh) j nl (net_len_refcount mh)).

Definition mroute_helper_add_iroute (mh : mroute_helper) (ir : iroute) : result mroute_helper :=
  if netbits ir >=? 0 then
    _ ← assert_ (netbits ir <? MR_HELPER_NET_LEN);
    n ← aget (net_len_refcount mh) (netbits ir);
    let n := i32 (n + 1) in
    rc ← aset (net_len_refcount mh) (netbits ir) n;
    let mh := MrHelper (u32 (cache_generation mh + 1)) (ageable_ttl_secs mh) (n_net_len mh) (net_len mh) rc in
    if n =? 1 then mroute_helper_regenerate mh else Ok mh
  else Ok mh.

Definition mroute_helper_del_iroute (mh : mroute_helper) (ir : iroute) : result mroute_helper :=
  if netbits ir >=? 0 then
    _ ← assert_ (netbits ir <? MR_HELPER_NET_LEN);
    n ← aget (net_len_refcount mh) (netbits ir);
    let n := i32 (n - 1) in
    rc ← aset (net_len_refcount mh) (netbits ir) n;
    let mh := MrHelper (u32 (cache_generation mh + 1)) (ageable_ttl_secs mh) (n_net_len mh) (net_len mh) rc in
    _ ← assert_ (n >=? 0);
    if n =? 0 then mroute_helper_regenerate mh else Ok mh
  else Ok mh.

(** ** Specification of the helper *)

(** The lengths with a reference, in descending order. *)
Definition lengths_in_use (refcount : list Z) : list Z :=
  filter (fun i => 0 < nth (Z.to_nat i) refcount 0) (rev (seqZ 0 32)).

Record helper_ok (mh : mroute_helper) : Prop := {
  ho_refs : length (net_len_refcount mh) = 32%nat;
  ho_pos : Forall (fun n => 0 <= n < 2147483647) (net_len_refcount mh);
  ho_len : length (net_len mh) = 32%nat;
  ho_n : n_net_len mh = Zlen (lengths_in_use (net_len_refcount mh));
  ho_list : take (Z.to_nat (n_net_len mh)) (net_len mh) = lengths_in_use (net_len_refcount mh)
}.

(** ** Lemmas: keys *)

Lemma mroute_addr_equal_true a b :
  mroute_addr_equal a b = true <-> mr_type a = mr_type b /\ mr_netbits a = mr_netbits b /\ mr_len a = mr_len b /\ mr_bytes a = mr_bytes b.
Proof.
  unfold mroute_addr_equal, mr_bytes. repeat case_test; try (split; [done|intros (? & ? & ? & ?); congruence]).
  rewrite bool_decide_eq_true. split; [intros ->; split_and!; congruence|intros (_ & _ & -> & ->); done].
Qed.

Lemma slice_two {A} n (x y : A) l : 0 <= n -> slice 0 (n + 2) (x :: y :: l) = x :: y :: slice 0 n l.
Proof. intros Hn. unfold slice. change (Z.to_nat 0) with 0%nat. rewrite !drop_0. by replace (Z.to_nat (n + 2)) with (S (S (Z.to_nat n))) by lia. Qed.
Lemma slice_short {A} n (x y y' : A) l l' : n < 0 -> slice 0 (n + 2) (x :: y :: l) = slice 0 (n + 2) (x :: y' :: l').
Proof.
  intros Hn. unfold slice. change (Z.to_nat 0) with 0%nat. rewrite !drop_0.
  by destruct (decide (n = -1)) as [->|]; [|replace (Z.to_nat (n + 2)) with 0%nat by lia].
Qed.

(** Equal addresses are hashed alike. *)
Lemma mroute_keys_ok : keys_ok mroute_addr_hash_function mroute_addr_compare_function.
Proof.
  unfold mroute_addr_compare_function. split.
  - intros k. by apply mroute_addr_equal_true.
  - intros k k' (? & ? & ? & ?)%mroute_addr_equal_true. apply mroute_addr_equal_true. auto.
  - intros k k' k'' (? & ? & ? & ?)%mroute_addr_equal_true (? & ? & ? & ?)%mroute_addr_equal_true.
    apply mroute_addr_equal_true. split_and!; congruence.
  - intros k k' i (H1 & H2 & H3 & H4)%mroute_addr_equal_true. unfold mroute_addr_hash_function. f_equal.
    rewrite H1, H2, H3. destruct (decide (0 <= mr_len k')) as [Hl|Hl]; [|apply slice_short; lia].
    rewrite !slice_two by done. unfold mr_bytes in H4. rewrite H3 in H4. by rewrite H4.
Qed.

(** ** Lemmas: network lengths *)

Lemma seqZ_snoc n : 0 <= n -> seqZ 0 (n + 1) = seqZ 0 n ++ [n].
Proof. intros Hn. rewrite seqZ_app by lia. do 2 f_equal. Qed.

Lemma regenerate_loop_spec i j nl rc :
  length rc = 32%nat -> length nl = 32%nat -> 0 <= j -> j + Z.of_nat i <= 32 -> (i <= 32)%nat ->
  let L := filter (fun b => 0 < nth (Z.to_nat b) rc 0) (rev (seqZ 0 (Z.of_nat i))) in
  exists nl', regenerate_loop i j nl rc = Ok (j + Zlen L, nl') /\ length nl' = 32%nat /\
    take (Z.to_nat (j + Zlen L)) nl' = take (Z.to_nat j) nl ++ L.
Proof.
  intros Hrc. revert j nl. induction i as [|i IH]; intros j nl Hnl Hj Hji Hi L.
  - change L with (@nil Z). change (Zlen []) with 0. rewrite Z.add_0_r, app_nil_r. by exists nl.
  - cbn [regenerate_loop]. unfold aget. replace (Z.of_nat i <? 0) with false by lia. rewrite Nat2Z.id.
    destruct (lookup_lt_is_Some_2 rc i) as [n Hn]; [lia|]. rewrite Hn. cbn [from_opt mbind result_bind].
    assert (L = (if n >? 0 then [Z.of_nat i] else []) ++ filter (fun b => 0 < nth (Z.to_nat b) rc 0) (rev (seqZ 0 (Z.of_nat i)))) as EL.
    { unfold L. replace (Z.of_nat (S i)) with (Z.of_nat i + 1) by lia. rewrite seqZ_snoc by lia. rewrite rev_unit, filter_cons.
      rewrite Nat2Z.id, (nth_lookup_Some _ _ _ _ Hn). destruct (n >? 0) eqn:E; bool_simp; [by rewrite decide_True by lia|by rewrite decide_False by lia]. }
    clearbody L. revert EL. destruct (n >? 0) eqn:E; bool_simp; intros EL.
    + unfold aset. replace ((j <? 0) || _) with false by (unfold Zlen; rewrite Hnl; symmetry; apply orb_false_iff; split; blia).
      cbn [mbind result_bind]. destruct (IH (j + 1) (<[Z.to_nat j := u8 (Z.of_nat i)]> nl)) as (nl' & -> & Hl' & Ht); [by rewrite length_insert|lia..|].
      rewrite EL, Zlen_app. change (Zlen [Z.of_nat i]) with 1. set (F := filter _ _) in *. replace (j + (1 + Zlen F)) with (j + 1 + Zlen F) by lia.
      exists nl'. split_and!; [done|done|]. rewrite Ht. cbn [app]. replace (Z.to_nat (j + 1)) with (S (Z.to_nat j)) by lia.
      rewrite (take_S_r _ _ (u8 (Z.of_nat i))) by (apply list_lookup_insert_eq; lia).
      rewrite take_insert_ge by lia. rewrite <- app_assoc. cbn [app]. by rewrite u8_id by (unfold is_byte; lia).
    + destruct (IH j nl) as (nl' & -> & Hl' & Ht); [done|lia..|]. rewrite EL. cbn [app]. eauto.
Qed.

Lemma regenerate_ok g ttl n nl rc :
  length rc = 32%nat -> Forall (fun n => 0 <= n < 2147483647) rc -> length nl = 32%nat ->
  exists mh, mroute_helper_regenerate (MrHelper g ttl n nl rc) = Ok mh /\ helper_ok mh /\
    cache_generation mh = g /\ ageable_ttl_secs mh = ttl /\ net_len_refcount mh = rc.
Proof.
  intros Hrc Hp Hnl. unfold mroute_helper_regenerate. cbn [net_len net_len_refcount cache_generation ageable_ttl_secs].
  destruct (regenerate_loop_spec 32 0 nl rc Hrc Hnl) as (nl' & E & Hl & Ht); [lia..|].
  change (Z.to_nat MR_HELPER_NET_LEN) with 32%nat. rewrite E. cbn [mbind result_bind]. eexists. split; [reflexivity|].
  split_and!; [|done..]. split; cbn [net_len net_len_refcount n_net_len]; try done. 
Qed.

(** Which lengths are in use depends on which counts are positive. *)
Lemma lengths_in_use_insert rc b n n0 :
  rc !! Z.to_nat b = Some n0 -> (0 < n <-> 0 < n0) -> lengths_in_use (<[Z.to_nat b := n]> rc) = lengths_in_use rc.
Proof.
  intros Hb Hn. unfold lengths_in_use. apply list_filter_iff. intros i.
  destruct (decide (Z.to_nat i = Z.to_nat b)) as [E|E].
  - rewrite E. rewrite (nth_lookup_Some _ _ _ _ Hb). rewrite (nth_lookup_Some _ _ _ n); [done|].
    apply list_lookup_insert_eq. by eapply lookup_lt_Some.
  - rewrite !nth_lookup. by rewrite list_lookup_insert_ne by done.
Qed.

Lemma elem_of_lengths rc b : b ∈ lengths_in_use rc <-> 0 <= b < 32 /\ 0 < nth (Z.to_nat b) rc 0.
Proof. unfold lengths_in_use. rewrite list_elem_of_filter, list_elem_of_In, <- in_rev, <- list_elem_of_In, elem_of_seqZ. lia. Qed.

(** A network of [b] bits more: its count, and a new generation. *)
Definition count_change (mh mh' : mroute_helper) (ir : iroute) (d : Z) : Prop :=
  helper_ok mh' /\ ageable_ttl_secs mh' = ageable_ttl_secs mh /\
  if netbits ir >=? 0 then
    cache_generation mh' = u32 (cache_generation mh + 1) /\
    exists n, net_len_refcount mh !! Z.to_nat (netbits ir) = Some n /\ 0 <= n + d /\
      net_len_refcount mh' = <[Z.to_nat (netbits ir) := n + d]> (net_len_refcount mh)
  else mh' = mh.

Lemma helper_change mh b n d :
  helper_ok mh -> net_len_refcount mh !! Z.to_nat b = Some n -> 0 <= n + d < 2147483647 ->
  (0 < n + d <-> 0 < n) \/ n + d = 1 \/ n + d = 0 ->
  let mh1 := MrHelper (u32 (cache_generation mh + 1)) (ageable_ttl_secs mh) (n_net_len mh) (net_len mh) (<[Z.to_nat b := n + d]> (net_len_refcount mh)) in
  (forall mh', mroute_helper_regenerate mh1 = Ok mh' -> helper_ok mh' /\ cache_generation mh' = cache_generation mh1 /\
     ageable_ttl_secs mh' = ageable_ttl_secs mh /\ net_len_refcount mh' = net_len_refcount mh1) /\
  (exists mh', mroute_helper_regenerate mh1 = Ok mh') /\ ((0 < n + d <-> 0 < n) -> helper_ok mh1).
Proof.
  intros [H1 H2 H3 H4 H5] Hn Hd Hc mh1.
  assert (Forall (fun n => 0 <= n < 2147483647) (<[Z.to_nat b := n + d]> (net_len_refcount mh))) as HF by (apply Forall_insert; done).
  destruct (regenerate_ok (u32 (cache_generation mh + 1)) (ageable_ttl_secs mh) (n_net_len mh) (net_len mh) (<[Z.to_nat b := n + d]> (net_len_refcount mh)))
    as (mh' & E & Hok & ? & ? & ?); [by rewrite length_insert|done..|].
  change (mroute_helper_regenerate mh1 = Ok mh') in E. split_and!; [intros ? E'; rewrite E in E'; by injection E' as <-|eauto|].
  intros Hiff. split; cbn [net_len net_len_refcount n_net_len mh1]; auto; [by rewrite length_insert|..]; by rewrite (lengths_in_use_insert _ _ _ n Hn Hiff).
Qed.

Lemma mroute_helper_add_ok mh ir :
  helper_ok mh -> netbits ir < 32 -> (0 <= netbits ir -> forall n, net_len_refcount mh !! Z.to_nat (netbits ir) = Some n -> n + 1 < 2147483647) ->
  exists mh', mroute_helper_add_iroute mh ir = Ok mh' /\ count_change mh mh' ir 1.
Proof.
  intros Hok Hb Hn. unfold mroute_helper_add_iroute, count_change. pose proof Hok as [H1 H2 H3 H4 H5].
  destruct (netbits ir >=? 0) eqn:E; bool_simp; [|eauto].
  unfold MR_HELPER_NET_LEN. replace (netbits ir <? 32) with true by lia. cbn [assert_ mbind result_bind].
  unfold aget. replace (netbits ir <? 0) with false by lia.
  destruct (lookup_lt_is_Some_2 (net_len_refcount mh) (Z.to_nat (netbits ir))) as [n En]; [lia|]. rewrite En.
  pose proof (proj1 (Forall_lookup _ _) H2 _ _ En) as Hr. cbn beta in Hr. specialize (Hn ltac:(lia) n En). cbn [from_opt mbind result_bind].
  rewrite i32_id by (unfold is_i32; lia). unfold aset, Zlen. rewrite H1. replace ((netbits ir <? 0) || _) with false by (symmetry; apply orb_false_iff; split; blia).
  cbn [mbind result_bind]. destruct (helper_change mh (netbits ir) n 1 Hok En) as (Hre & (mh' & Emh) & Hsame); [lia|lia|].
  destruct (n + 1 =? 1) eqn:E1; bool_simp.
  - destruct (Hre _ Emh) as (? & ? & ? & ?). exists mh'. split; [done|]. split_and!; auto. exists n. split_and!; auto; lia.
  - eexists. split; [reflexivity|]. split_and!; [apply Hsame; lia|done|done|]. exists n. split_and!; auto; lia.
Qed.

Lemma mroute_helper_del_ok mh ir :
  helper_ok mh -> netbits ir < 32 -> (0 <= netbits ir -> exists n, net_len_refcount mh !! Z.to_nat (netbits ir) = Some n /\ 0 < n) ->
  exists mh', mroute_helper_del_iroute mh ir = Ok mh' /\ count_change mh mh' ir (-1).
Proof.
  intros Hok Hb Hn. unfold mroute_helper_del_iroute, count_change. pose proof Hok as [H1 H2 H3 H4 H5].
  destruct (netbits ir >=? 0) eqn:E; bool_simp; [|eauto].
  unfold MR_HELPER_NET_LEN. replace (netbits ir <? 32) with true by lia. cbn [assert_ mbind result_bind].
  unfold aget. replace (netbits ir <? 0) with false by lia. destruct (Hn ltac:(lia)) as (n & En & Hpos). rewrite En.
  pose proof (proj1 (Forall_lookup _ _) H2 _ _ En) as Hr. cbn beta in Hr. cbn [from_opt mbind result_bind].
  rewrite i32_id by (unfold is_i32; lia). unfold aset, Zlen. rewrite H1. replace ((netbits ir <? 0) || _) with false by (symmetry; apply orb_false_iff; split; blia).
  cbn [mbind result_bind]. replace (n - 1 >=? 0) with true by lia. cbn [assert_ mbind result_bind]. change (n - 1) with (n + -1).
  destruct (helper_change mh (netbits ir) n (-1) Hok En) as (Hre & (mh' & Emh) & Hsame); [lia|lia|].
  destruct (n + -1 =? 0) eqn:E1; bool_simp.
  - destruct (Hre _ Emh) as (? & ? & ? & ?). exists mh'. split; [done|]. split_and!; auto. exists n. split_and!; auto; lia.
  - eexists. split; [reflexivity|]. split_and!; [apply Hsame; lia|done|done|]. exists n. split_and!; auto; lia.
Qed.

Lemma mroute_helper_init_ok ttl : helper_ok (mroute_helper_init ttl).
Proof. split; try done. by apply Forall_replicate. Qed.

(** The helper lists the lengths in use, the longest first. *)
Lemma helper_lengths mh : helper_ok mh -> take (Z.to_nat (n_net_len mh)) (net_len mh) = lengths_in_use (net_len_refcount mh).
Proof. by intros []. Qed.
