(* ===== verification/Routing.v ===== *)
(** The server's routing table (src/multi.c, src/multi.h): which client a virtual address
    belongs to.  Host routes and networks are looked up in one hash table; what a network lookup
    finds is cached as a host route, which is valid until the next change of the clients'
    networks or until it has not been used for some time.

    A multi_instance or multi_route is a key of a store, and following a pointer to one that was
    freed is a [Fault].  The key of a hash element, a pointer into its route in C, is a copy of the
    address, which never changes.  [script] is the outcome of learn_address_script (a plugin and
    a script); [junk] are the bytes of a local struct mroute_addr before it is filled in. *)

From S2P Require Import Prelude Buffer Integer Mss HashTable Mroute.

(** ** Data *)

Record multi_instance := Mi {
  halt : bool;
  refcount : Z;
  route_count : Z;
  max_routes_per_client : Z;
  tunnel_type : Z;
  iroutes : list iroute;
  did_iroutes : bool
}.

Definition MULTI_ROUTE_CACHE : Z := 1.
Definition MULTI_ROUTE_AGEABLE : Z := 2.

Record multi_route := Route {
  r_addr : mroute_addr;
  r_instance : positive;
  r_flags : Z;
  r_cache_generation : Z;
  last_reference : Z
}.

Abbreviation vtable := (hash (K := mroute_addr) (V := positive)).

Record multi_context := Mc {
  instances : gmap positive multi_instance;
  routes : gmap positive multi_route;
  vhash : vtable;
  route_helper : mroute_helper;
  local : mroute_addr
}.

Inductive learn_operation := LearnAdd | LearnUpdate | LearnDelete.

Definition set_instances (m : multi_context) (x : gmap positive multi_instance) : multi_context :=
  Mc x (routes m) (vhash m) (route_helper m) (local m).
Definition set_routes (m : multi_context) (x : gmap positive multi_route) : multi_context :=
  Mc (instances m) x (vhash m) (route_helper m) (local m).
Definition set_vhash (m : multi_context) (x : vtable) : multi_context :=
  Mc (instances m) (routes m) x (route_helper m) (local m).
Definition set_route_helper (m : multi_context) (x : mroute_helper) : multi_context :=
  Mc (instances m) (routes m) (vhash m) x (local m).

Definition get_instance (m : multi_context) (i : positive) : result multi_instance := from_opt (instances m !! i).
Definition get_route (m : multi_context) (r : positive) : result multi_route := from_opt (routes m !! r).

Definition vlookup_fast := hash_lookup_fast mroute_addr_compare_function (V := positive).
Definition vlookup := hash_lookup mroute_addr_hash_function mroute_addr_compare_function (V := positive).
Definition vvalue := hash_value mroute_addr_hash_function (V := positive).

(** ** Reference counts and quotas of an instance *)

Definition MULTI_CACHE_ROUTE_TTL : Z := 60.

Definition set_counts (mi : multi_instance) (refs count : Z) : multi_instance :=
  Mi (halt mi) refs count (max_routes_per_client mi) (tunnel_type mi) (iroutes mi) (did_iroutes mi).

Definition route_quota_inc (m : multi_context) (i : positive) : result multi_context :=
  mi ← get_instance m i;
  Ok (set_instances m (<[i := set_counts mi (refcount mi) (i32 (route_count mi + 1))]> (instances m))).
Definition route_quota_dec (m : multi_context) (i : positive) : result multi_context :=
  mi ← get_instance m i;
  Ok (set_instances m (<[i := set_counts mi (refcount mi) (i32 (route_count mi - 1))]> (instances m))).
Definition route_quota_test (m : multi_context) (i : positive) : result bool :=
  mi ← get_instance m i;
  Ok (negb (route_count mi >=? max_routes_per_client mi)).

Definition multi_instance_inc_refcount (m : multi_context) (i : positive) : result multi_context :=
  mi ← get_instance m i;
  Ok (set_instances m (<[i := set_counts mi (i32 (refcount mi + 1)) (route_count mi)]> (instances m))).
Definition multi_instance_dec_refcount (m : multi_context) (i : positive) : result multi_context :=
  mi ← get_instance m i;
  let n := i32 (refcount mi - 1) in
  if n <=? 0 then Ok (set_instances m (delete i (instances m)))
  else Ok (set_instances m (<[i := set_counts mi n (route_count mi)]> (instances m))).

Definition multi_route_del (m : multi_context) (r : positive) : result multi_context :=
  route ← get_route m r;
  let mi := r_instance route in
  m ← route_quota_dec m mi;
  m ← multi_instance_dec_refcount m mi;
  Ok (set_routes m (delete r (routes m))).

Definition multi_route_defined (now : Z) (m : multi_context) (r : positive) : result bool :=
  route ← get_route m r;
  mi ← get_instance m (r_instance route);
  Ok (if halt mi then false
      else if flag (r_flags route) MULTI_ROUTE_CACHE && negb (r_cache_generation route =? cache_generation (route_helper m)) then false
      else if flag (r_flags route) MULTI_ROUTE_AGEABLE && (last_reference route + ageable_ttl_secs (route_helper m) <? now) then false
      else true).

Section Routing.
Context (script : option positive -> learn_operation -> mroute_addr -> bool) (junk : mroute_addr).

(** ** Learning an address *)

(** The table element and the route that an address has. *)
Definition multi_old_route (m : multi_context) (addr : mroute_addr)
  : result (option (positive * positive) * multi_context) :=
  let hv := vvalue (vhash m) addr in
  '(he, h) ← vlookup_fast (vhash m) (hash_bucket (vhash m) hv) addr hv;
  let m := set_vhash m h in
  match he with
  | Some p => e ← hget h p; Ok (Some (p, he_value e), m)
  | None => Ok (None, m)
  end.

Definition multi_new_route (now : Z) (m : multi_context) (mi : positive) (addr : mroute_addr) (flags : Z) : multi_route :=
  Route addr mi flags (if flag flags MULTI_ROUTE_CACHE then cache_generation (route_helper m) else 0) now.

Definition multi_learn_addr (now : Z) (m : multi_context) (mi : positive) (addr : mroute_addr) (flags : Z)
  : result (option positive * multi_context) :=
  let hv := vvalue (vhash m) addr in
  '(old, m) ← multi_old_route m addr;
  owner ← match old with
          | Some (_, r) =>
              defined ← multi_route_defined now m r;
              if (defined : bool) then route ← get_route m r; Ok (Some (r_instance route)) else Ok None
          | None => Ok None
          end;
  if bool_decide (owner <> Some mi) && mroute_learnable_address addr && negb (mroute_addr_equal addr (local m)) then
    let newroute := multi_new_route now m mi addr flags in
    quota ← route_quota_test m mi;
    if negb (quota && script (Some mi) (match old with Some _ => LearnUpdate | None => LearnAdd end) addr) then Ok (owner, m) else
    let r' := fresh (dom (routes m)) in
    let m := set_routes m (<[r' := newroute]> (routes m)) in
    m ← multi_instance_inc_refcount m mi;
    m ← route_quota_inc m mi;
    match old with
    | Some (p, r) =>
        (* modify hash table entry, replacing old route *)
        m ← multi_route_del m r;
        e ← hget (vhash m) p;
        Ok (Some mi, set_vhash m (hset (vhash m) p (with_value (with_key e (Some addr)) r')))
    | None =>
        h ← hash_add_fast (vhash m) (hash_bucket (vhash m) hv) addr hv r';
        Ok (Some mi, set_vhash m h)
    end
  else Ok (owner, m).

(** [bits] is -1 for a host route. *)
Definition multi_learn_in_addr_t (now : Z) (m : multi_context) (mi : positive) (a bits : Z) : result (option positive * multi_context) :=
  let '(ok, addr) := mroute_extract_sockaddr_in junk true a 0 false in
  _ ← assert_ ok;
  let addr := if bits >=? 0 then MrAddr (mr_len addr) (Z.lor (mr_type addr) MR_WITH_NETBITS) (u8 bits) (mr_addr addr) else addr in
  multi_learn_addr now m mi addr 0.

(** ** Looking an address up *)

(** The lengths of networks, the longest first. *)
Fixpoint try_networks (now : Z) (m : multi_context) (addr : mroute_addr) (lengths : list Z) : result (option positive * multi_context) :=
  match lengths with
  | [] => Ok (None, m)
  | n :: lengths =>
      tryaddr ← mroute_addr_mask_host_bits (MrAddr (mr_len addr) (Z.lor (mr_type addr) MR_WITH_NETBITS) n (mr_addr addr));
      '(route, h) ← vlookup (vhash m) tryaddr;
      let m := set_vhash m h in
      defined ← match route with Some r => multi_route_defined now m r | None => Ok false end;
      match route with
      | Some r =>
          if (defined : bool) then
            (* found an applicable route, cache host route *)
            route ← get_route m r;
            '(_, m) ← multi_learn_addr now m (r_instance route) addr (Z.lor MULTI_ROUTE_CACHE MULTI_ROUTE_AGEABLE);
            Ok (Some (r_instance route), m)
          else try_networks now m addr lengths
      | None => try_networks now m addr lengths
      end
  end.

Definition touch_route (now : Z) (m : multi_context) (r : positive) (route : multi_route) : multi_context :=
  set_routes m (<[r := Route (r_addr route) (r_instance route) (r_flags route) (r_cache_generation route) now]> (routes m)).

Definition multi_get_instance_by_virtual_addr (now : Z) (m : multi_context) (addr : mroute_addr) (cidr_routing : bool)
  : result (option positive * multi_context) :=
  if mroute_addr_equal addr (local m) then Ok (None, m) else
  '(route, h) ← vlookup (vhash m) addr;
  let m := set_vhash m h in
  defined ← match route with Some r => multi_route_defined now m r | None => Ok false end;
  '(ret, m) ← match route, (defined : bool) with
              | Some r, true =>
                  route ← get_route m r;
                  Ok (Some (r_instance route), touch_route now m r route)
              | _, _ =>
                  if cidr_routing then
                    (let rh := route_helper m in try_networks now m addr (take (Z.to_nat (n_net_len rh)) (net_len rh)))
                  else Ok (None, m)
              end;
  _ ← match ret with Some i => mi ← get_instance m i; assert_ (negb (halt mi)) | None => Ok tt end;
  Ok (ret, m).

(** ** The networks of a client *)

(** An --iroute option of a client's configuration; the arguments as getaddr reads them. *)
Definition option_iroute (irs : list iroute) (network : Z) (netmask : option Z) : list iroute :=
  match netmask with
  | None => Iroute network (-1) :: irs
  | Some netmask =>
      match netmask_to_netbits network netmask with
      | Some bits => Iroute network bits :: irs
      | None => irs
      end
  end.
Definition import_iroute (m : multi_context) (i : positive) (network : Z) (netmask : option Z) : result multi_context :=
  mi ← get_instance m i;
  Ok (set_instances m (<[i := Mi (halt mi) (refcount mi) (route_count mi) (max_routes_per_client mi) (tunnel_type mi)
                                 (option_iroute (iroutes mi) network netmask) (did_iroutes mi)]> (instances m))).

Definition set_did_iroutes (mi : multi_instance) (v : bool) : multi_instance :=
  Mi (halt mi) (refcount mi) (route_count mi) (max_routes_per_client mi) (tunnel_type mi) (iroutes mi) v.

Fixpoint add_iroutes (now : Z) (m : multi_context) (mi : positive) (irs : list iroute) : result multi_context :=
  match irs with
  | [] => Ok m
  | ir :: irs =>
      rh ← mroute_helper_add_iroute (route_helper m) ir;
      '(_, m) ← multi_learn_in_addr_t now (set_route_helper m rh) mi (network ir) (netbits ir);
      add_iroutes now m mi irs
  end.
Definition multi_add_iroutes (now : Z) (m : multi_context) (i : positive) : result multi_context :=
  mi ← get_instance m i;
  if tunnel_type mi =? DEV_TYPE_TUN then
    add_iroutes now (set_instances m (<[i := set_did_iroutes mi true]> (instances m))) i (iroutes mi)
  else Ok m.

Fixpoint del_iroutes (rh : mroute_helper) (irs : list iroute) : result mroute_helper :=
  match irs with
  | [] => Ok rh
  | ir :: irs => rh ← mroute_helper_del_iroute rh ir; del_iroutes rh irs
  end.
Definition multi_del_iroutes (m : multi_context) (mi : multi_instance) : result multi_context :=
  if tunnel_type mi =? DEV_TYPE_TUN then
    rh ← del_iroutes (route_helper m) (iroutes mi); Ok (set_route_helper m rh)
  else Ok m.

(** What multi_connection_established does about routes: the primary virtual address of the
    client ([push_ifconfig_local], if it has one), then its networks. *)
Definition multi_add_routes (now : Z) (m : multi_context) (i : positive) (push_ifconfig_local : option Z) : result multi_context :=
  mi ← get_instance m i;
  if tunnel_type mi =? DEV_TYPE_TUN then
    m ← match push_ifconfig_local with
        | Some a => '(_, m) ← multi_learn_in_addr_t now m i a (-1); Ok m
        | None => Ok m
        end;
    multi_add_iroutes now m i
  else Ok m.

(** What multi_close_instance does about routes, unless the server stops. *)
Definition multi_close_routes (m : multi_context) (i : positive) : result multi_context :=
  mi ← get_instance m i;
  _ ← assert_ (negb (halt mi));
  let mi := Mi true (refcount mi) (route_count mi) (max_routes_per_client mi) (tunnel_type mi) (iroutes mi) (did_iroutes mi) in
  let m := set_instances m (<[i := mi]> (instances m)) in
  m ← (if did_iroutes mi then
         m ← multi_del_iroutes m mi;
         Ok (set_instances m (<[i := set_did_iroutes mi false]> (instances m)))
       else Ok m);
  multi_instance_dec_refcount m i.

(** ** The reaper *)

(** The loop's body: a route that is not defined any more is deleted. *)
Definition reap_route (now : Z) (m : multi_context) (r : positive) : result (bool * multi_context) :=
  defined ← multi_route_defined now m r;
  if (defined : bool) then Ok (false, m)
  else m ← multi_route_del m r; Ok (true, m).

Definition multi_reap_range (now : Z) (m : multi_context) (start_bucket end_bucket : Z) : result multi_context :=
  let '(start_bucket, end_bucket) := if start_bucket <? 0 then (0, hash_n_buckets (vhash m)) else (start_bucket, end_bucket) in
  hi ← hash_iterator_init_range (vhash m) start_bucket end_bucket;
  '(h, hi, m') ← hash_sweep (S (size (nodes (vhash m)))) (reap_route now) (vhash m) hi m;
  '(h, hi) ← hash_iterator_free h hi;
  Ok (set_vhash m' h).

(** struct multi_reap and its turn, once a second *)
Record multi_reap := Reap { bucket_base : Z; buckets_per_pass : Z; last_call : Z }.
Definition reap_buckets_per_pass (n_buckets : Z) : Z := constrain_int (Z.quot n_buckets 256) 16 1024.
Definition multi_reap_new (now : Z) (buckets_per_pass : Z) : multi_reap := Reap 0 buckets_per_pass now.
Definition multi_reap_process_dowork (now : Z) (m : multi_context) (mr : multi_reap) : result (multi_context * multi_reap) :=
  let base := if bucket_base mr >=? hash_n_buckets (vhash m) then 0 else bucket_base mr in
  m ← multi_reap_range now m base (i32 (base + buckets_per_pass mr));
  Ok (m, Reap (i32 (base + buckets_per_pass mr)) (buckets_per_pass mr) now).
Definition multi_reap_process (now : Z) (m : multi_context) (mr : multi_reap) : result (multi_context * multi_reap) :=
  if negb (last_call mr =? now) then multi_reap_process_dowork now m mr else Ok (m, mr).

End Routing.

(** ** Starting, and new clients *)

(** What multi_init sets up here; [rnd] is get_random (), [tuntap_local] the server's address. *)
Definition multi_init (rnd now virtual_hash_size tuntap_local : Z) : result (multi_context * multi_reap) :=
  h ← hash_init rnd virtual_hash_size;
  Ok (Mc ∅ ∅ h (mroute_helper_init MULTI_CACHE_ROUTE_TTL) (mroute_extract_in_addr_t mroute_addr_init tuntap_local),
      multi_reap_new now (reap_buckets_per_pass virtual_hash_size)).

(** What multi_create_instance allocates; the type of the tunnel and the quota are those of the
    server. *)
Definition multi_new_instance (m : multi_context) (max_routes dev_type : Z) : result (positive * multi_context) :=
  let i := fresh (dom (instances m)) in
  let mi := Mi false 0 0 max_routes dev_type [] false in
  m ← multi_instance_inc_refcount (set_instances m (<[i := mi]> (instances m))) i;
  Ok (i, m).

(** ** Packets *)

(** Where a packet is handed to: to one client's queue (multi_unicast), to the queues of all but
    one (multi_bcast), or to one client at once. *)
Inductive delivery := Unicast (to : positive) | Bcast (omit : option positive) | Forward (to : positive).
#[export] Instance delivery_eq_dec : EqDecision delivery.
Proof. solve_decision. Defined.

Section Packets.
Context (script : option positive -> learn_operation -> mroute_addr -> bool) (junk : mroute_addr).
Context (dev_type : Z) (enable_c2c : bool).

Definition drop_packet (b : buffer) : buffer := with_offset_len b (b_offset b) 0.

(** multi_unicast and multi_bcast send what is not empty. *)
Definition deliver (d : delivery) (b : buffer) : list delivery := if b_len b >? 0 then [d] else [].

(** [to_tun] is a packet that [pending] has sent, decrypted.  What is left of it goes to the
    TUN/TAP interface. *)
Definition route_incoming_link (now : Z) (m : multi_context) (pending : positive) (to_tun : buffer)
  (mroute_flags : Z) (src dest : mroute_addr) : result (multi_context * buffer * list delivery) :=
  if dev_type =? DEV_TYPE_TUN then
    (* drop packet if extract failed *)
    if negb (flag mroute_flags MROUTE_EXTRACT_SUCCEEDED) then Ok (m, drop_packet to_tun, [])
    else
      (* make sure that source address is associated with this client *)
      '(owner, m) ← multi_get_instance_by_virtual_addr script now m src true;
      if bool_decide (owner <> Some pending) then Ok (m, drop_packet to_tun, [])
      else if enable_c2c then
        if flag mroute_flags MROUTE_EXTRACT_MCAST then Ok (m, to_tun, deliver (Bcast (Some pending)) to_tun)
        else
          _ ← assert_ (negb (flag mroute_flags MROUTE_EXTRACT_BCAST));
          '(mi, m) ← multi_get_instance_by_virtual_addr script now m dest true;
          match mi with
          | Some mi => Ok (m, drop_packet to_tun, deliver (Unicast mi) to_tun)
          | None => Ok (m, to_tun, [])
          end
      else Ok (m, to_tun, [])
  else if dev_type =? DEV_TYPE_TAP then
    if flag mroute_flags MROUTE_EXTRACT_SUCCEEDED then
      '(owner, m) ← multi_learn_addr script now m pending src 0;
      if bool_decide (owner = Some pending) then
        if enable_c2c then
          if flag mroute_flags (Z.lor MROUTE_EXTRACT_BCAST MROUTE_EXTRACT_MCAST) then
            Ok (m, to_tun, deliver (Bcast (Some pending)) to_tun)
          else
            '(mi, m) ← multi_get_instance_by_virtual_addr script now m dest false;
            match mi with
            | Some mi => Ok (m, drop_packet to_tun, deliver (Unicast mi) to_tun)
            | None => Ok (m, to_tun, [])
            end
        else Ok (m, to_tun, [])
      else Ok (m, drop_packet to_tun, [])
    else Ok (m, drop_packet to_tun, [])
  else Ok (m, to_tun, []).

Definition multi_process_incoming_link (now : Z) (m : multi_context) (pending : positive) (to_tun : buffer)
  : M (multi_context * buffer * list delivery) :=
  '(mroute_flags, src, dest) ← mroute_extract_addr_from_packet (Some junk) (Some junk) to_tun dev_type;
  src ← lift (from_opt src);
  dest ← lift (from_opt dest);
  lift (route_incoming_link now m pending to_tun mroute_flags src dest).

(** [buf] is a packet from the TUN/TAP interface. *)
Definition route_incoming_tun (now : Z) (m : multi_context) (buf : buffer) (mroute_flags : Z) (dest : mroute_addr)
  : result (multi_context * list delivery) :=
  if flag mroute_flags MROUTE_EXTRACT_SUCCEEDED then
    if flag mroute_flags (Z.lor MROUTE_EXTRACT_BCAST MROUTE_EXTRACT_MCAST) then Ok (m, deliver (Bcast None) buf)
    else
      '(pending, m) ← multi_get_instance_by_virtual_addr script now m dest (dev_type =? DEV_TYPE_TUN);
      Ok (m, match pending with Some mi => [Forward mi] | None => [] end)
  else Ok (m, []).

Definition multi_process_incoming_tun (now : Z) (m : multi_context) (buf : buffer) : M (multi_context * list delivery) :=
  if b_len buf >? 0 then
    '(mroute_flags, _, dest) ← mroute_extract_addr_from_packet (Some junk) (Some junk) buf dev_type;
    dest ← lift (from_opt dest);
    lift (route_incoming_tun now m buf mroute_flags dest)
  else mret (m, []).

End Packets.
