(* ===== verification/RoutingOk.v ===== *)
(** The routing table works and its memory is in order (src/multi.c): the counts of routes and
    references are exact, nothing that was freed is used, and a lookup finds the longest
    network that has the address, whatever is cached. *)

From S2P Require Import Prelude Buffer Integer Mss HashTable Mroute Routing.

(** ** Specification: routes as a set *)

(** The route to an address, if the store [R] has one. *)
Definition find_route (R : gmap positive multi_route) (a : mroute_addr) : option multi_route :=
  snd <$> head (filter (fun x => mroute_addr_equal a (r_addr x.2) = true) (map_to_list R)).

Definition live (m : multi_context) (i : positive) : bool :=
  match instances m !! i with Some mi => negb (halt mi) | None => false end.
Definition cached (rt : multi_route) : bool := flag (r_flags rt) MULTI_ROUTE_CACHE.

(** The client that an address or network was assigned to. *)
Definition assigned (m : multi_context) (a : mroute_addr) : option positive :=
  match find_route (routes m) a with
  | Some rt => if negb (cached rt) && live m (r_instance rt) then Some (r_instance rt) else None
  | None => None
  end.

Definition ip_host (x : Z) : mroute_addr := MrAddr 4 MR_ADDR_IPV4 0 (be_enc 4 x).
Definition ip_net (x b : Z) : mroute_addr :=
  MrAddr 4 (Z.lor MR_ADDR_IPV4 MR_WITH_NETBITS) b (be_enc 4 (Z.land x (netbits_to_netmask b))).

(** The first of the networks of [x] with these lengths that was assigned to a client. *)
Fixpoint first_network (m : multi_context) (x : Z) (lengths : list Z) : option positive :=
  match lengths with
  | [] => None
  | b :: lengths => match assigned m (ip_net x b) with Some i => Some i | None => first_network m x lengths end
  end.
Definition longest_network (m : multi_context) (x : Z) : option positive := first_network m x (rev (seqZ 0 32)).

(** Where packets to [x] go: to the client with that address, or to the client with the longest
    network that contains it. *)
Definition routes_to (m : multi_context) (x : Z) : option positive :=
  match assigned m (ip_host x) with Some i => Some i | None => longest_network m x end.

(** ** Counts *)

Definition routes_of (i : positive) (R : gmap positive multi_route) : Z :=
  Z.of_nat (size (filter (fun x : positive * multi_route => r_instance x.2 = i) R)).

Record instance_ok (R : gmap positive multi_route) (i : positive) (mi : multi_instance) : Prop := {
  io_count : route_count mi = routes_of i R;
  io_refs : refcount mi = routes_of i R + (if halt mi then 0 else 1);
  io_pos : 0 < refcount mi;
  io_max : routes_of i R <= max_routes_per_client mi < 2147483646
}.
Record counts_ok (I : gmap positive multi_instance) (R : gmap positive multi_route) : Prop := {
  ct_owner : forall r rt, R !! r = Some rt -> is_Some (I !! r_instance rt);
  ct_ok : forall i mi, I !! i = Some mi -> instance_ok R i mi
}.

Definition static (mi : multi_instance) : multi_instance := set_counts mi 0 0.
(** Only counts change, and instances that were closed may go. *)
Record same_instances (I I' : gmap positive multi_instance) : Prop := {
  si_live : forall i mi, I !! i = Some mi -> halt mi = false -> exists mi', I' !! i = Some mi' /\ static mi' = static mi;
  si_old : forall i mi', I' !! i = Some mi' -> exists mi, I !! i = Some mi /\ static mi' = static mi
}.

#[local] Set Default Proof Using "Type*".

Lemma same_instances_refl I : same_instances I I.
Proof. split; eauto. Qed.
Lemma static_halt mi mi' : static mi = static mi' -> halt mi = halt mi'.
Proof. by intros [= ->]. Qed.
Lemma same_instances_trans I I1 I2 : same_instances I I1 -> same_instances I1 I2 -> same_instances I I2.
Proof.
  intros [H1 H2] [H3 H4]. split.
  - intros i mi Hi Hh. destruct (H1 i mi Hi Hh) as (mi1 & Hi1 & E1). destruct (H3 i mi1 Hi1) as (mi2 & ? & E2).
    + by rewrite (static_halt _ _ E1).
    + exists mi2. split; [done|congruence].
  - intros i mi2 Hi. destruct (H4 i mi2 Hi) as (mi1 & Hi1 & E2). destruct (H2 i mi1 Hi1) as (mi & ? & E1). exists mi. split; [done|congruence].
Qed.

Lemma routes_of_nonneg i R : 0 <= routes_of i R.
Proof. unfold routes_of. lia. Qed.
Lemma routes_of_insert i R r rt : R !! r = None ->
  routes_of i (<[r := rt]> R) = routes_of i R + (if decide (r_instance rt = i) then 1 else 0).
Proof.
  intros Hr. unfold routes_of. rewrite map_filter_insert. cbn [snd]. case_decide.
  - rewrite map_size_insert_None; [lia|]. apply map_lookup_filter_None. by left.
  - rewrite delete_id by done. lia.
Qed.
Lemma routes_of_delete i R r rt : R !! r = Some rt ->
  routes_of i (delete r R) = routes_of i R - (if decide (r_instance rt = i) then 1 else 0).
Proof.
  intros Hr. rewrite <- (insert_delete_id R r rt Hr) at 2. rewrite routes_of_insert by apply lookup_delete_eq. lia.
Qed.
Lemma routes_of_update i R r rt rt' : R !! r = Some rt -> r_instance rt' = r_instance rt ->
  routes_of i (<[r := rt']> R) = routes_of i R.
Proof.
  intros Hr E. rewrite <- insert_delete_eq, routes_of_insert by apply lookup_delete_eq.
  rewrite (routes_of_delete i R r rt Hr), E. lia.
Qed.
Lemma routes_of_pos i R r rt : R !! r = Some rt -> r_instance rt = i -> 0 < routes_of i R.
Proof.
  intros Hr E. pose proof (routes_of_delete i R r rt Hr) as H. rewrite decide_True in H by done.
  pose proof (routes_of_nonneg i (delete r R)). lia.
Qed.

Lemma counts_update I R r rt rt' : counts_ok I R -> R !! r = Some rt -> r_instance rt' = r_instance rt -> counts_ok I (<[r := rt']> R).
Proof.
  intros [H1 H2] Hr E. split.
  - intros q x Hq. apply lookup_insert_Some in Hq as [[<- <-]|[_ Hq]]; [rewrite E|]; eauto.
  - intros i mi Hi. destruct (H2 i mi Hi) as [A B C D]. split; try rewrite (routes_of_update i R r rt rt' Hr E); done.
Qed.

(** One more route of [i]: the two counts go up. *)
Lemma counts_add m i mi r rt :
  counts_ok (instances m) (routes m) -> instances m !! i = Some mi -> routes m !! r = None -> r_instance rt = i ->
  route_count mi < max_routes_per_client mi ->
  exists m', (m1 ← multi_instance_inc_refcount (set_routes m (<[r := rt]> (routes m))) i; route_quota_inc m1 i) = Ok m' /\
    routes m' = <[r := rt]> (routes m) /\ vhash m' = vhash m /\ route_helper m' = route_helper m /\ local m' = local m /\
    counts_ok (instances m') (routes m') /\ same_instances (instances m) (instances m').
Proof.
  intros [H1 H2] Hi Hr E Hmax. destruct (H2 i mi Hi) as [A B C D]. pose proof (routes_of_nonneg i (routes m)).
  unfold multi_instance_inc_refcount, route_quota_inc, get_instance. cbn [instances set_routes set_instances]. rewrite Hi.
  cbn [from_opt mbind result_bind instances set_routes set_instances]. rewrite lookup_insert_eq. cbn [from_opt mbind result_bind].
  rewrite insert_insert_eq. eexists. split; [reflexivity|]. cbn [instances routes vhash route_helper local set_instances set_routes].
  split_and!; [done..| |].
  - split.
    + intros q x Hq. destruct (decide (r_instance x = i)) as [->|Hne]; [rewrite lookup_insert_eq; eauto|].
      rewrite lookup_insert_ne by done. apply lookup_insert_Some in Hq as [[<- <-]|[_ Hq]]; [congruence|eauto].
    + intros j mj Hj. apply lookup_insert_Some in Hj as [[<- <-]|[Hne Hj]].
      * split; cbn [set_counts route_count refcount halt max_routes_per_client]; try (rewrite routes_of_insert, decide_True by done);
          rewrite ?i32_id by (unfold is_i32; destruct (halt mi); lia); lia.
      * destruct (H2 j mj Hj) as [A' B' C' D']. split; try (rewrite routes_of_insert, decide_False, Z.add_0_r by congruence); done.
  - split.
    + intros j mj Hj _. destruct (decide (j = i)) as [->|]; [rewrite lookup_insert_eq|rewrite lookup_insert_ne by done; eauto].
      eexists. split; [done|]. assert (mj = mi) as -> by congruence. done.
    + intros j mj Hj. apply lookup_insert_Some in Hj as [[<- <-]|[_ Hj]]; eauto.
Qed.

(** One route less: its instance goes too, if it was closed and this was its last. *)
Lemma counts_del m r rt :
  counts_ok (instances m) (routes m) -> routes m !! r = Some rt ->
  exists m', multi_route_del m r = Ok m' /\
    routes m' = delete r (routes m) /\ vhash m' = vhash m /\ route_helper m' = route_helper m /\ local m' = local m /\
    counts_ok (instances m') (routes m') /\ same_instances (instances m) (instances m').
Proof.
  intros [H1 H2] Hr. destruct (H1 r rt Hr) as [mi Hi]. set (i := r_instance rt) in *. destruct (H2 i mi Hi) as [A B C D].
  pose proof (routes_of_pos i _ _ _ Hr eq_refl) as Hpos.
  unfold multi_route_del, get_route. rewrite Hr. cbn [from_opt mbind result_bind]. fold i.
  unfold route_quota_dec, multi_instance_dec_refcount, get_instance. rewrite Hi. cbn [from_opt mbind result_bind instances set_instances].
  rewrite lookup_insert_eq. cbn [from_opt mbind result_bind]. cbn [set_counts refcount route_count].
  rewrite (i32_id (refcount mi - 1)) by (unfold is_i32; destruct (halt mi); lia).
  rewrite (i32_id (route_count mi - 1)) by (unfold is_i32; lia).
  assert (forall j x, delete r (routes m) !! j = Some x -> routes m !! j = Some x) as Hsub by (intros j x [_ ?]%lookup_delete_Some; done).
  assert (forall j mj, j <> i -> instances m !! j = Some mj -> instance_ok (delete r (routes m)) j mj) as Hother.
  { intros j mj Hne Hj. destruct (H2 j mj Hj) as [A' B' C' D']. split; try (rewrite (routes_of_delete j _ r rt Hr), decide_False, Z.sub_0_r by (unfold i in *; congruence)); done. }
  destruct (refcount mi - 1 <=? 0) eqn:E; bool_simp.
  - assert (halt mi = true) as Hh by (destruct (halt mi); [done|lia]). rewrite Hh in B.
    eexists. split; [reflexivity|]. cbn [instances routes vhash route_helper local set_instances set_routes].
    rewrite delete_insert_eq. split_and!; [done..| |].
    + split.
      * intros q x Hq. pose proof (Hsub q x Hq) as Hq'. destruct (decide (r_instance x = i)) as [Ei|Hne].
        -- pose proof (routes_of_pos i _ _ _ Hq Ei) as Hp. rewrite (routes_of_delete i _ r rt Hr), decide_True in Hp by done. lia.
        -- rewrite lookup_delete_ne by done. eauto.
      * intros j mj [Hne Hj]%lookup_delete_Some. auto.
    + split.
      * intros j mj Hj Hlive. exists mj. split; [|done]. rewrite lookup_delete_ne; [done|]. intros <-. congruence.
      * intros j mj [_ Hj]%lookup_delete_Some. eauto.
  - eexists. split; [reflexivity|]. cbn [instances routes vhash route_helper local set_instances set_routes].
    rewrite insert_insert_eq. split_and!; [done..| |].
    + split.
      * intros q x Hq. apply Hsub in Hq. destruct (decide (r_instance x = i)) as [->|Hne]; [rewrite lookup_insert_eq; eauto|].
        rewrite lookup_insert_ne by done. eauto.
      * intros j mj Hj. apply lookup_insert_Some in Hj as [[<- <-]|[Hne Hj]]; [|auto].
        split; cbn [set_counts route_count refcount halt max_routes_per_client]; try (rewrite (routes_of_delete i _ r rt Hr), decide_True by done); lia.
    + split.
      * intros j mj Hj _. destruct (decide (j = i)) as [->|]; [rewrite lookup_insert_eq|rewrite lookup_insert_ne by done; eauto].
        eexists. split; [done|]. assert (mj = mi) as -> by congruence. done.
      * intros j mj Hj. apply lookup_insert_Some in Hj as [[<- <-]|[_ Hj]]; eauto.
Qed.

(** ** The table *)

(** The table [mp] has exactly the routes of the store, under their addresses. *)
Record core (m : multi_context) (mp : mroute_addr -> option positive) : Prop := {
  co_rep : hash_rep mroute_addr_hash_function mroute_addr_compare_function (vhash m) mp;
  co_table : forall a r, mp a = Some r <-> exists rt, routes m !! r = Some rt /\ mroute_addr_equal a (r_addr rt) = true;
  co_counts : counts_ok (instances m) (routes m)
}.

Lemma mroute_addr_equal_refl a : mroute_addr_equal a a = true.
Proof. by apply mroute_addr_equal_true. Qed.
Lemma mroute_addr_equal_sym a b : mroute_addr_equal a b = true -> mroute_addr_equal b a = true.
Proof. exact (ko_sym _ _ mroute_keys_ok a b). Qed.
Lemma mroute_addr_equal_trans a b c : mroute_addr_equal a b = true -> mroute_addr_equal b c = true -> mroute_addr_equal a c = true.
Proof. exact (ko_trans _ _ mroute_keys_ok a b c). Qed.
Lemma mroute_addr_equal_cong a b c : mroute_addr_equal a b = true -> mroute_addr_equal a c = mroute_addr_equal b c.
Proof.
  intros H. apply eq_true_iff_eq. split; apply mroute_addr_equal_trans; [by apply mroute_addr_equal_sym|done].
Qed.

Lemma mroute_addr_differ a b c : mroute_addr_equal a b = false -> mroute_addr_equal a c = true -> mroute_addr_equal b c = false.
Proof.
  intros Hab Hac. apply not_true_iff_false. intros Hbc. apply not_true_iff_false in Hab. apply Hab.
  eapply mroute_addr_equal_trans; [exact Hac|]. by apply mroute_addr_equal_sym.
Qed.

(** One route per address. *)
Definition distinct (R : gmap positive multi_route) : Prop :=
  forall r r' rt rt', R !! r = Some rt -> R !! r' = Some rt' -> mroute_addr_equal (r_addr rt) (r_addr rt') = true -> r = r'.

Lemma core_distinct m mp : core m mp -> distinct (routes m).
Proof.
  intros [_ Ht _] r r' rt rt' Hr Hr' He.
  assert (mp (r_addr rt) = Some r) by (apply Ht; exists rt; by rewrite mroute_addr_equal_refl).
  assert (mp (r_addr rt) = Some r') by (apply Ht; eauto). congruence.
Qed.

Lemma find_route_Some R a rt : distinct R ->
  find_route R a = Some rt <-> exists r, R !! r = Some rt /\ mroute_addr_equal a (r_addr rt) = true.
Proof.
  intros Hd. unfold find_route.
  assert (forall r x, (r, x) ∈ filter (fun x => mroute_addr_equal a (r_addr x.2) = true) (map_to_list R) <->
            R !! r = Some x /\ mroute_addr_equal a (r_addr x) = true) as Hin.
  { intros r x. rewrite list_elem_of_filter, elem_of_map_to_list. cbn [snd]. tauto. }
  destruct (filter _ _) as [|[q x] l] eqn:El; cbn [head fmap option_fmap option_map snd].
  - split; [done|]. intros (r & Hr). rewrite <- (Hin r rt) in Hr. by apply elem_of_nil in Hr.
  - assert (R !! q = Some x /\ mroute_addr_equal a (r_addr x) = true) as [Hq Ha] by (apply Hin; left). split.
    + intros [= <-]. eauto.
    + intros (r & Hr & Har). assert (r = q) as ->; [|congruence]. eapply Hd; eauto.
      eapply mroute_addr_equal_trans; [by apply mroute_addr_equal_sym|done].
Qed.
Lemma find_route_None R a : distinct R ->
  find_route R a = None <-> forall r rt, R !! r = Some rt -> mroute_addr_equal a (r_addr rt) = false.
Proof.
  intros Hd. split.
  - intros Hn r rt Hr. apply not_true_iff_false. intros Ha.
    assert (find_route R a = Some rt) by (apply find_route_Some; eauto). congruence.
  - intros Hn. destruct (find_route R a) as [rt|] eqn:E; [|done]. apply find_route_Some in E as (r & Hr & Ha); [|done].
    rewrite (Hn r rt Hr) in Ha. done.
Qed.

Lemma core_find m mp a : core m mp -> find_route (routes m) a = mp a ≫= (fun r => routes m !! r).
Proof.
  intros Hc. pose proof (core_distinct m mp Hc) as Hd. destruct (mp a) as [r|] eqn:E; cbn [mbind option_bind].
  - apply (co_table _ _ Hc) in E as (rt & Hr & Ha). rewrite Hr. apply find_route_Some; eauto.
  - apply find_route_None; [done|]. intros r rt Hr. apply not_true_iff_false. intros Ha.
    assert (mp a = Some r) by (apply (co_table _ _ Hc); eauto). congruence.
Qed.

(** Looking up leaves everything but the order in the buckets. *)
Lemma vlookup_ok m mp a : core m mp ->
  exists h', vlookup (vhash m) a = Ok (mp a, h') /\ core (set_vhash m h') mp.
Proof.
  intros [Hrep Ht Hc]. destruct (hash_step_spec _ _ (vhash m) mp (OpLookup a) mroute_keys_ok Hrep) as (h' & E & Hrep').
  cbn [hash_step map_step fst snd] in E, Hrep'. unfold vlookup.
  destruct (hash_lookup _ _ (vhash m) a) as [[v h2]| |]; [|done..]. cbn [mbind result_bind] in E. injection E as -> ->.
  exists h'. split; [done|]. by split.
Qed.

Lemma multi_old_route_ok m mp a : core m mp ->
  exists h' old, multi_old_route m a = Ok (old, set_vhash m h') /\ core (set_vhash m h') mp /\ same_data (vhash m) h' /\
    match old with
    | None => mp a = None
    | Some (p, r) => mp a = Some r /\ exists e, nodes h' !! p = Some e /\
        matches mroute_addr_compare_function h' a (vvalue (vhash m) a) p
    end.
Proof.
  intros [Hrep Ht Hc]. unfold multi_old_route, vlookup_fast, vvalue.
  destruct (lookup_fast_rep _ _ (vhash m) mp a mroute_keys_ok Hrep) as (r & h' & E & Hrep' & Hsd & Hr).
  rewrite E. cbn [mbind result_bind]. destruct r as [p|].
  - destruct Hr as (e & He & Hm & Ha). unfold hget. rewrite He. cbn [from_opt mbind result_bind].
    exists h', (Some (p, he_value e)). split_and!; [done|by split|done|done|eauto].
  - exists h', None. split_and!; [done|by split|done|done].
Qed.

(** A pointer to a route leads to a route, and to its instance. *)
Lemma core_route m mp a r : core m mp -> mp a = Some r ->
  exists rt mi, routes m !! r = Some rt /\ mroute_addr_equal a (r_addr rt) = true /\ instances m !! r_instance rt = Some mi.
Proof.
  intros Hc (rt & Hr & Ha)%(co_table _ _ Hc). destruct (ct_owner _ _ (co_counts _ _ Hc) r rt Hr) as [mi Hi]. eauto.
Qed.

(** [multi_route_defined] of a route. *)
Definition defined (now : Z) (m : multi_context) (rt : multi_route) : bool :=
  live m (r_instance rt) && negb (cached rt && negb (r_cache_generation rt =? cache_generation (route_helper m))) &&
  negb (flag (r_flags rt) MULTI_ROUTE_AGEABLE && (last_reference rt + ageable_ttl_secs (route_helper m) <? now)).

Lemma multi_route_defined_counts now m r rt : counts_ok (instances m) (routes m) -> routes m !! r = Some rt ->
  multi_route_defined now m r = Ok (defined now m rt).
Proof.
  intros Hc Hr. destruct (ct_owner _ _ Hc r rt Hr) as [mi Hi].
  unfold multi_route_defined, get_route, get_instance, defined, live, cached. rewrite Hr. cbn [from_opt mbind result_bind]. rewrite Hi.
  cbn [from_opt mbind result_bind]. f_equal. destruct (halt mi); [done|]. cbn [negb andb].
  destruct (flag _ MULTI_ROUTE_CACHE && negb _); [done|]. by destruct (flag _ MULTI_ROUTE_AGEABLE && _).
Qed.
Lemma multi_route_defined_ok now m mp r rt : core m mp -> routes m !! r = Some rt ->
  multi_route_defined now m r = Ok (defined now m rt).
Proof. intros Hc. apply multi_route_defined_counts, Hc. Qed.

(** ** Learning an address *)

Definition can_learn (m : multi_context) (mi : multi_instance) (a : mroute_addr) : Prop :=
  mroute_learnable_address a = true /\ mroute_addr_equal a (local m) = false /\ route_count mi < max_routes_per_client mi.

(** Why the route to [a] is not learned for [i]. *)
Definition refused (script : option positive -> learn_operation -> mroute_addr -> bool) (m : multi_context) (i : positive) (mi : multi_instance) (a : mroute_addr) : Prop :=
  mroute_learnable_address a = false \/ mroute_addr_equal a (local m) = true \/ max_routes_per_client mi <= route_count mi \/
  exists op, script (Some i) op a = false.

(** The owner of the route to [a], if it is defined. *)
Definition owner_of (now : Z) (m : multi_context) (a : mroute_addr) : option positive :=
  match find_route (routes m) a with
  | Some rt => if defined now m rt then Some (r_instance rt) else None
  | None => None
  end.

Record learned (m m' : multi_context) : Prop := {
  le_helper : route_helper m' = route_helper m;
  le_local : local m' = local m;
  le_instances : same_instances (instances m) (instances m')
}.

Lemma learned_refl m h : learned m (set_vhash m h).
Proof. split; try done. apply same_instances_refl. Qed.

(** The routes [R'] are those of [R] with the route to [a] replaced by [nr], at [r']. *)
Record put (R R' : gmap positive multi_route) (a : mroute_addr) (r' : positive) (nr : multi_route) : Prop := {
  pu_new : R' !! r' = Some nr;
  pu_addr : r_addr nr = a;
  pu_old : forall q x, q <> r' -> R' !! q = Some x <-> R !! q = Some x /\ mroute_addr_equal a (r_addr x) = false;
  pu_fresh : R !! r' = None
}.

Lemma put_distinct R R' a r' nr : distinct R -> put R R' a r' nr -> distinct R'.
Proof.
  intros Hd [Hn Ha Ho Hf] q q' x x' Hq Hq' Hx.
  destruct (decide (q = r')) as [->|Hne]; destruct (decide (q' = r')) as [->|Hne']; [done|..].
  - apply Ho in Hq' as [_ Hno]; [|done]. congruence.
  - apply Ho in Hq as [_ Hno]; [|done]. apply mroute_addr_equal_sym in Hx. congruence.
  - apply Ho in Hq as [Hq _]; [|done]. apply Ho in Hq' as [Hq' _]; [|done]. by eapply Hd.
Qed.

Lemma put_find R R' a r' nr a' : distinct R -> put R R' a r' nr ->
  find_route R' a' = if mroute_addr_equal a' a then Some nr else find_route R a'.
Proof.
  intros Hd Hp. pose proof (put_distinct _ _ _ _ _ Hd Hp) as Hd'. destruct Hp as [Hn Ha Ho Hf].
  destruct (mroute_addr_equal a' a) eqn:Ea.
  - apply find_route_Some; [done|]. exists r'. by rewrite Ha.
  - apply option_eq. intros x. rewrite !find_route_Some by done. split.
    + intros (q & Hq & Hx). destruct (decide (q = r')) as [->|Hne]; [congruence|]. apply Ho in Hq as [Hq _]; eauto.
    + intros (q & Hq & Hx). exists q. split; [|done]. apply Ho; [by intros ->; congruence|]. split; [done|].
      by eapply mroute_addr_differ.
Qed.

(** The table follows the store. *)
Lemma core_put m mp m' h' a r' nr :
  core m mp -> put (routes m) (routes m') a r' nr -> vhash m' = h' -> counts_ok (instances m') (routes m') ->
  hash_rep mroute_addr_hash_function mroute_addr_compare_function h' (map_put mroute_addr_compare_function mp a r') ->
  core m' (map_put mroute_addr_compare_function mp a r').
Proof.
  intros Hc [Hn Ha Ho Hf] <- Hct Hrep. split; [done| |done]. intros a' q. unfold map_put, mroute_addr_compare_function.
  destruct (mroute_addr_equal a' a) eqn:Ea.
  - split; [intros [= <-]; exists nr; by rewrite Ha|]. intros (x & Hq & Hx). destruct (decide (q = r')) as [->|Hne]; [done|].
    apply Ho in Hq as [_ Hno]; [|done]. rewrite <- (mroute_addr_equal_cong a' a) in Hno by done. congruence.
  - rewrite (co_table _ _ Hc). split; intros (x & Hq & Hx); exists x; split; try done.
    + apply Ho; [by intros ->; congruence|]. split; [done|]. by eapply mroute_addr_differ.
    + destruct (decide (q = r')) as [->|Hne]; [congruence|]. by apply Ho in Hq as [? _].
Qed.

(** Who owns the route that multi_learn_addr finds. *)
Lemma learn_owner now m mp h' a old : core m mp -> core (set_vhash m h') mp ->
  match old with None => mp a = None | Some (_, r) => mp a = Some r end ->
  (match old : option (positive * positive) with
   | Some (_, r) => defined0 ← multi_route_defined now (set_vhash m h') r;
       if (defined0 : bool) then route ← get_route (set_vhash m h') r; Ok (Some (r_instance route)) else Ok None
   | None => Ok None end) = Ok (owner_of now m a).
Proof.
  intros Hc Hc1 Hold. unfold owner_of. rewrite (core_find m mp a Hc). destruct old as [[p r]|]; rewrite Hold; [|done].
  cbn [mbind option_bind]. destruct (core_route _ _ _ _ Hc Hold) as (rt & mj & Hr & _ & Hj).
  rewrite (multi_route_defined_ok now (set_vhash m h') mp r rt Hc1 Hr). cbn [mbind result_bind]. rewrite Hr.
  change (defined now (set_vhash m h') rt) with (defined now m rt). destruct (defined now m rt); [|done].
  unfold get_route. cbn [set_vhash routes]. by rewrite Hr.
Qed.


(** The two ways a new route gets into the table: in the place of an old one, or as a new element. *)
Lemma replace_route m m2 mp i mi a p r r' nr h' :
  core m mp -> instances m !! i = Some mi -> mp a = Some r -> route_count mi < max_routes_per_client mi ->
  routes m !! r' = None -> r_instance nr = i -> r_addr nr = a ->
  (m1 ← multi_instance_inc_refcount (set_routes (set_vhash m h') (<[r' := nr]> (routes m))) i; route_quota_inc m1 i) = Ok m2 ->
  hash_rep mroute_addr_hash_function mroute_addr_compare_function h' mp ->
  (exists e, nodes h' !! p = Some e /\ matches mroute_addr_compare_function h' a (vvalue (vhash m) a) p) ->
  exists m' mp', (m ← multi_route_del m2 r; e ← hget (vhash m) p;
                  Ok (Some i, set_vhash m (hset (vhash m) p (with_value (with_key e (Some a)) r')))) = Ok (Some i, m') /\
    core m' mp' /\ learned m m' /\ put (routes m) (routes m') a r' nr.
Proof.
  intros Hc Hi Ha Hq Hr' Hni Hna E2 Hrep (e & He & Hm). pose proof (co_counts _ _ Hc) as Hct.
  destruct (counts_add (set_vhash m h') i mi r' nr Hct Hi Hr' Hni Hq) as (m2' & E2' & R2 & V2 & H2 & L2 & C2 & S2).
  change (routes (set_vhash m h')) with (routes m) in *. rewrite E2 in E2'. injection E2' as <-. cbn [set_vhash vhash route_helper local instances] in *.
  destruct (core_route _ _ _ _ Hc Ha) as (rt & mj & Hr & Hea & _).
  assert (routes m2 !! r = Some rt) as Hr2 by (rewrite R2, lookup_insert_ne; [done|intros <-; congruence]).
  destruct (counts_del m2 r rt C2 Hr2) as (m3 & -> & R3 & V3 & H3 & L3 & C3 & S3). cbn [mbind result_bind].
  rewrite V3, V2. unfold hget. rewrite He. cbn [from_opt mbind result_bind]. eexists _, _. split; [reflexivity|].
  assert (put (routes m) (routes m3) a r' nr) as Hp.
  { rewrite R3, R2. split; [rewrite lookup_delete_ne, lookup_insert_eq by (intros ->; congruence); done|done| |done].
    intros q x Hne. rewrite lookup_delete_Some, lookup_insert_ne by done. split; intros [Hq1 Hq2].
    - split; [done|]. apply not_true_iff_false. intros Hax. apply Hq1. eapply (core_distinct _ _ Hc); eauto.
      eapply mroute_addr_equal_trans; [by apply mroute_addr_equal_sym|done].
    - split; [|done]. intros <-. congruence. }
  split; [|split].
  - eapply (core_put m mp); [done|exact Hp|reflexivity|exact C3|]. by eapply set_entry_rep; [apply mroute_keys_ok|done|done|exact Hm].
  - split; cbn [set_vhash route_helper local instances]; [congruence..|]. by eapply same_instances_trans.
  - done.
Qed.

Lemma append_route m m2 mp i mi a r' nr h' :
  core m mp -> instances m !! i = Some mi -> mp a = None -> route_count mi < max_routes_per_client mi ->
  routes m !! r' = None -> r_instance nr = i -> r_addr nr = a ->
  (m1 ← multi_instance_inc_refcount (set_routes (set_vhash m h') (<[r' := nr]> (routes m))) i; route_quota_inc m1 i) = Ok m2 ->
  hash_rep mroute_addr_hash_function mroute_addr_compare_function h' mp -> same_data (vhash m) h' ->
  exists m' mp', (h ← hash_add_fast (vhash m2) (hash_bucket (vhash m2) (vvalue (vhash m) a)) a (vvalue (vhash m) a) r';
                  Ok (Some i, set_vhash m2 h)) = Ok (Some i, m') /\
    core m' mp' /\ learned m m' /\ put (routes m) (routes m') a r' nr.
Proof.
  intros Hc Hi Ha Hq Hr' Hni Hna E2 Hrep Hsd. pose proof (co_counts _ _ Hc) as Hct.
  destruct (counts_add (set_vhash m h') i mi r' nr Hct Hi Hr' Hni Hq) as (m2' & E2' & R2 & V2 & H2 & L2 & C2 & S2).
  change (routes (set_vhash m h')) with (routes m) in *. rewrite E2 in E2'. injection E2' as <-. cbn [set_vhash vhash route_helper local instances] in *.
  rewrite V2. destruct (hash_add_new _ _ h' mp a r' mroute_keys_ok Hrep Ha) as (h2 & Eh & Hrep2).
  assert (vvalue (vhash m) a = hash_value mroute_addr_hash_function h' a) as -> by (unfold vvalue, hash_value; by rewrite (sd_iv _ _ Hsd)).
  rewrite Eh. cbn [mbind result_bind]. eexists _, _. split; [reflexivity|].
  assert (put (routes m) (routes m2) a r' nr) as Hp.
  { rewrite R2. split; [by rewrite lookup_insert_eq|done| |done]. intros q x Hne. rewrite lookup_insert_ne by done. split; [|tauto].
    intros Hq1. split; [done|]. apply not_true_iff_false. intros Hax. assert (mp a = Some q) by (apply (co_table _ _ Hc); eauto). congruence. }
  split; [|split].
  - eapply (core_put m mp); [done|exact Hp|reflexivity|exact C2|exact Hrep2].
  - split; cbn [set_vhash route_helper local instances]; done.
  - done.
Qed.

Lemma multi_learn_addr_ok script now m mp i mi a flags :
  core m mp -> instances m !! i = Some mi ->
  exists owner m' mp', multi_learn_addr script now m i a flags = Ok (owner, m') /\ core m' mp' /\ learned m m' /\
    ((routes m' = routes m /\ owner = owner_of now m a /\ (owner_of now m a = Some i \/ refused script m i mi a)) \/
     (owner = Some i /\ owner_of now m a <> Some i /\ can_learn m mi a /\
      exists r', put (routes m) (routes m') a r' (multi_new_route now m i a flags))).
Proof.
  intros Hc Hi. unfold multi_learn_addr.
  destruct (multi_old_route_ok m mp a Hc) as (h' & old & E & Hc1 & Hsd & Hold). rewrite E. cbn [mbind result_bind].
  rewrite (learn_owner now m mp h' a old Hc Hc1) by (destruct old as [[? ?]|]; tauto). cbn [mbind result_bind].
  change (local (set_vhash m h')) with (local m).
  destruct (bool_decide (owner_of now m a <> Some i) && mroute_learnable_address a && negb (mroute_addr_equal a (local m))) eqn:Ec.
  2:{ exists (owner_of now m a), (set_vhash m h'), mp. split; [done|]. split; [done|]. split; [apply learned_refl|]. left. split; [done|]. split; [done|].
      unfold refused. apply andb_false_iff in Ec as [Ec|Ec]; [apply andb_false_iff in Ec as [Ec|Ec]|].
      - left. apply bool_decide_eq_false in Ec. by apply dec_stable.
      - right. by left.
      - right. right. left. by apply negb_false_iff in Ec. }
  apply andb_true_iff in Ec as [Ec Hloc]. apply andb_true_iff in Ec as [Hne Hlearn]. apply bool_decide_eq_true in Hne. apply negb_true_iff in Hloc.
  unfold route_quota_test, get_instance. change (instances (set_vhash m h')) with (instances m). rewrite Hi. cbn [from_opt mbind result_bind].
  destruct (negb (_ && _)) eqn:Eq.
  { exists (owner_of now m a), (set_vhash m h'), mp. split; [done|]. split; [done|]. split; [apply learned_refl|]. left. split; [done|]. split; [done|].
    right. unfold refused. apply negb_true_iff, andb_false_iff in Eq as [Eq|Eq]; [apply negb_false_iff in Eq; bool_simp; right; right; left; lia|]. right. right. right. eauto. }
  apply negb_false_iff, andb_true_iff in Eq as [Hq _]. apply negb_true_iff in Hq. bool_simp.
  change (routes (set_vhash m h')) with (routes m). change (multi_new_route now (set_vhash m h') i a flags) with (multi_new_route now m i a flags).
  set (r' := fresh (dom (routes m))). assert (routes m !! r' = None) as Hr' by (apply not_elem_of_dom, is_fresh).
  set (nr := multi_new_route now m i a flags).
  destruct (counts_add (set_vhash m h') i mi r' nr) as (m2 & E2 & _); try done; [apply Hc|].
  change (routes (set_vhash m h')) with (routes m) in E2.
  assert (forall {B} (k : multi_context -> result B), (m ← multi_instance_inc_refcount (set_routes (set_vhash m h') (<[r' := nr]> (routes m))) i; m ← route_quota_inc m i; k m) = k m2) as Ek.
  { intros B k. destruct (multi_instance_inc_refcount _ i) as [m2a| |]; [|done..]. cbn [mbind result_bind] in *. by rewrite E2. }
  rewrite Ek. destruct old as [[p r]|].
  - destruct Hold as [Ha He]. destruct (replace_route m m2 mp i mi a p r r' nr h' Hc Hi Ha Hq Hr' eq_refl eq_refl E2 (co_rep _ _ Hc1) He)
      as (m' & mp' & -> & Hc' & Hle & Hp). exists (Some i), m', mp'. split; [done|]. split; [done|]. split; [done|]. right. split_and!; try done. by exists r'.
  - destruct (append_route m m2 mp i mi a r' nr h' Hc Hi Hold Hq Hr' eq_refl eq_refl E2 (co_rep _ _ Hc1) Hsd)
      as (m' & mp' & -> & Hc' & Hle & Hp). exists (Some i), m', mp'. split; [done|]. split; [done|]. split; [done|]. right. split_and!; try done. by exists r'.
Qed.

(** ** IPv4 addresses *)

Lemma ip_host_equal a x : mroute_addr_equal (ip_host x) a = true <->
  mr_type a = 2 /\ mr_netbits a = 0 /\ mr_len a = 4 /\ mr_bytes a = be_enc 4 x.
Proof.
  rewrite mroute_addr_equal_true. unfold ip_host. cbn [mr_type mr_netbits mr_len].
  assert (mr_bytes (MrAddr 4 MR_ADDR_IPV4 0 (be_enc 4 x)) = be_enc 4 x) as -> by done.
  unfold MR_ADDR_IPV4. split; intros (? & ? & ? & ?); split_and!; congruence.
Qed.
Lemma ip_net_equal a x b : mroute_addr_equal (ip_net x b) a = true <->
  mr_type a = 10 /\ mr_netbits a = b /\ mr_len a = 4 /\ mr_bytes a = be_enc 4 (Z.land x (netbits_to_netmask b)).
Proof.
  rewrite mroute_addr_equal_true. unfold ip_net. cbn [mr_type mr_netbits mr_len].
  assert (mr_bytes (MrAddr 4 (Z.lor MR_ADDR_IPV4 MR_WITH_NETBITS) b (be_enc 4 (Z.land x (netbits_to_netmask b)))) = be_enc 4 (Z.land x (netbits_to_netmask b))) as -> by done.
  change (Z.lor MR_ADDR_IPV4 MR_WITH_NETBITS) with 10. split; intros (? & ? & ? & ?); split_and!; congruence.
Qed.
Lemma host_not_net a x y b : mroute_addr_equal (ip_host x) a = true -> mroute_addr_equal (ip_net y b) a = false.
Proof.
  intros (Ht & _)%ip_host_equal. apply not_true_iff_false. intros (Ht' & _)%ip_net_equal. congruence.
Qed.
Lemma ip_host_inj x y : is_u32 x -> is_u32 y -> mroute_addr_equal (ip_host x) (ip_host y) = true -> x = y.
Proof.
  intros Hx Hy (_ & _ & _ & H)%ip_host_equal. change (mr_bytes (ip_host y)) with (be_enc 4 y) in H.
  rewrite <- (be_dec_enc 4 x), <- (be_dec_enc 4 y) by (unfold is_u32 in *; lia). congruence.
Qed.

(** The first bytes of an address, replaced. *)
Lemma bytes_of_splice l t n bs old : Zlen bs = l -> l <= Zlen old -> mr_bytes (MrAddr l t n (splice 0 bs old)) = bs.
Proof.
  intros <- Hl. unfold mr_bytes, slice, splice. cbn [mr_len mr_addr]. change (Z.to_nat 0) with 0%nat. rewrite take_0, drop_0. cbn [app].
  unfold Zlen. rewrite Nat2Z.id. by apply take_app_length.
Qed.

(** What is tried for a network length. *)
Lemma mask_host_bits_ok a x b : mroute_addr_equal (ip_host x) a = true -> is_u32 x ->
  exists t, mroute_addr_mask_host_bits (MrAddr (mr_len a) (Z.lor (mr_type a) MR_WITH_NETBITS) b (mr_addr a)) = Ok t /\
    mroute_addr_equal (ip_net x b) t = true.
Proof.
  intros (Ht & Hn & Hl & Hb)%ip_host_equal Hx. unfold mroute_addr_mask_host_bits. cbn [mr_type mr_netbits mr_addr mr_len].
  rewrite Ht. change (Z.land (Z.lor 2 MR_WITH_NETBITS) MR_ADDR_MASK =? MR_ADDR_IPV4) with true. cbn [assert_ mbind result_bind].
  unfold mr_bytes in Hb. rewrite Hl in Hb. rewrite Hb, be_dec_enc by (unfold is_u32 in Hx; lia). eexists. split; [reflexivity|].
  apply ip_net_equal. cbn [mr_type mr_netbits mr_len]. split_and!; [done..|]. rewrite Hl. apply bytes_of_splice; [done|].
  pose proof (f_equal length Hb) as HL. unfold slice in HL. change (length (be_enc 4 x)) with 4%nat in HL. rewrite length_take, length_drop in HL. unfold Zlen. lia.
Qed.

(** ** Networks in use *)

Definition active_count (mi : multi_instance) (b : Z) : Z :=
  if negb (halt mi) && did_iroutes mi && (tunnel_type mi =? DEV_TYPE_TUN)
  then Zlen (filter (fun ir => netbits ir = b) (iroutes mi)) else 0.
Definition used (I : gmap positive multi_instance) (b : Z) : Z := map_fold (fun _ mi acc => active_count mi b + acc) 0 I.

Lemma active_count_nonneg mi b : 0 <= active_count mi b.
Proof. unfold active_count. case_match; [|lia]. apply Zlen_nonneg. Qed.
Lemma active_count_static mi mi' b : static mi = static mi' -> active_count mi b = active_count mi' b.
Proof. unfold active_count. by intros [= -> _ -> -> ->]. Qed.
Lemma used_insert I i mi b : I !! i = None -> used (<[i := mi]> I) b = active_count mi b + used I b.
Proof. intros Hi. unfold used. rewrite map_fold_insert_L; [done| |done]. intros. lia. Qed.
Lemma used_update I i mi mi' b : I !! i = Some mi -> used (<[i := mi']> I) b = used I b - active_count mi b + active_count mi' b.
Proof.
  intros Hi. rewrite <- insert_delete_eq, used_insert by apply lookup_delete_eq.
  rewrite <- (insert_delete_id I i mi Hi) at 2. rewrite used_insert by apply lookup_delete_eq. lia.
Qed.
Lemma used_delete I i mi b : I !! i = Some mi -> used (delete i I) b = used I b - active_count mi b.
Proof. intros Hi. rewrite <- (insert_delete_id I i mi Hi) at 2. rewrite used_insert by apply lookup_delete_eq. lia. Qed.
Lemma used_nonneg I b : 0 <= used I b.
Proof.
  induction I as [|i mi I Hi IH] using map_ind; [done|]. rewrite used_insert by done. pose proof (active_count_nonneg mi b). lia.
Qed.
Lemma used_ge I i mi b : I !! i = Some mi -> active_count mi b <= used I b.
Proof.
  intros Hi. pose proof (used_delete I i mi b Hi). pose proof (used_nonneg (delete i I) b). lia.
Qed.

Lemma same_instances_used I I' b : same_instances I I' -> used I' b = used I b.
Proof.
  revert I'. induction I as [|i mi I Hi IH] using map_ind; intros I' [H1 H2].
  { assert (I' = ∅) as ->; [|done]. apply map_empty. intros j.
    destruct (I' !! j) as [mj|] eqn:E; [|done]. destruct (H2 j mj E) as (? & Hj & _). by rewrite lookup_empty in Hj. }
  rewrite used_insert by done. destruct (I' !! i) as [mi'|] eqn:Ei.
  - destruct (H2 i mi' Ei) as (x & Hx & Es). rewrite lookup_insert_eq in Hx. injection Hx as <-.
    assert (used (delete i I') b = used I b) as <-.
    { apply IH. split.
      - intros j mj Hj Hh. assert (j <> i) by congruence. destruct (H1 j mj) as (mj' & ? & ?); [by rewrite lookup_insert_ne by congruence|done|].
        exists mj'. by rewrite lookup_delete_ne by congruence.
      - intros j mj [Hne Hj]%lookup_delete_Some. destruct (H2 j mj Hj) as (x & Hx & ?). rewrite lookup_insert_ne in Hx by done. eauto. }
    rewrite (used_delete _ _ _ _ Ei), (active_count_static _ _ b Es). lia.
  - assert (active_count mi b = 0) as ->.
    { unfold active_count. destruct (halt mi) eqn:Eh; [done|]. destruct (H1 i mi) as (? & ? & _); [apply lookup_insert_eq|done|congruence]. }
    apply IH. split.
    + intros j mj Hj Hh. assert (j <> i) by congruence. apply H1; [|done]. by rewrite lookup_insert_ne by congruence.
    + intros j mj Hj. destruct (H2 j mj Hj) as (x & Hx & ?). rewrite lookup_insert_ne in Hx by congruence. eauto.
Qed.

Lemma same_instances_live m m' : same_instances (instances m) (instances m') -> forall i, live m' i = live m i.
Proof.
  intros [H1 H2] i. unfold live. destruct (instances m' !! i) as [mi'|] eqn:E'.
  - destruct (H2 i mi' E') as (mi & -> & Es). by rewrite (static_halt _ _ Es).
  - destruct (instances m !! i) as [mi|] eqn:E; [|done]. destruct (halt mi) eqn:Eh; [done|]. destruct (H1 i mi E Eh) as (? & ? & _). congruence.
Qed.

(** ** The invariant *)

Definition iroute_ok (ir : iroute) : Prop := -1 <= netbits ir < 32.

(** What a cached route is for, and that it says what the networks say while it is valid. *)
Definition cache_ok (m : multi_context) (rt : multi_route) : Prop :=
  r_flags rt = 3 /\ exists x, is_u32 x /\ mroute_addr_equal (ip_host x) (r_addr rt) = true /\
    r_cache_generation rt <= cache_generation (route_helper m) /\
    (r_cache_generation rt = cache_generation (route_helper m) -> live m (r_instance rt) = true ->
     longest_network m x = Some (r_instance rt)).

(** A network of a client is one of its networks in use. *)
Definition net_ok (m : multi_context) (rt : multi_route) : Prop :=
  forall x b mi, mroute_addr_equal (ip_net x b) (r_addr rt) = true -> instances m !! r_instance rt = Some mi -> halt mi = false ->
    did_iroutes mi = true /\ tunnel_type mi = DEV_TYPE_TUN /\ exists ir, ir ∈ iroutes mi /\ netbits ir = b.

Record routed (m : multi_context) : Prop := {
  rd_cache : forall r rt, routes m !! r = Some rt -> r_flags rt = 0 \/ cache_ok m rt;
  rd_net : forall r rt, routes m !! r = Some rt -> net_ok m rt;
  rd_gen : 0 <= cache_generation (route_helper m) < 4294967296;
  rd_helper : helper_ok (route_helper m);
  rd_iroutes : forall i mi, instances m !! i = Some mi -> Forall iroute_ok (iroutes mi)
}.

(** The helper counts the networks of the clients. *)
Definition counted (m : multi_context) : Prop :=
  forall b, 0 <= b < 32 -> nth (Z.to_nat b) (net_len_refcount (route_helper m)) 0 = used (instances m) b.

Lemma assigned_ext m m' a : find_route (routes m') a = find_route (routes m) a -> (forall i, live m' i = live m i) -> assigned m' a = assigned m a.
Proof. intros Hf Hl. unfold assigned. rewrite Hf. case_match; [|done]. by rewrite Hl. Qed.

Lemma first_network_ext m m' x l : (forall b, b ∈ l -> assigned m' (ip_net x b) = assigned m (ip_net x b)) -> first_network m' x l = first_network m x l.
Proof.
  induction l as [|b l IH]; intros Hl; [done|]. cbn [first_network]. rewrite (Hl b) by left. rewrite IH; [done|]. intros c Hc. apply Hl. by right.
Qed.
Lemma longest_network_ext m m' x : (forall b, 0 <= b < 32 -> assigned m' (ip_net x b) = assigned m (ip_net x b)) -> longest_network m' x = longest_network m x.
Proof.
  intros H. apply first_network_ext. intros b Hb. apply H. rewrite list_elem_of_In, <- in_rev, <- list_elem_of_In, elem_of_seqZ in Hb. lia.
Qed.
Lemma routes_to_ext m m' x : (forall a, assigned m' a = assigned m a) -> routes_to m' x = routes_to m x.
Proof. intros H. unfold routes_to. rewrite H. by rewrite (longest_network_ext m m' x) by auto. Qed.

Lemma assigned_Some m a i : distinct (routes m) -> assigned m a = Some i <->
  exists r rt, routes m !! r = Some rt /\ mroute_addr_equal a (r_addr rt) = true /\ cached rt = false /\ live m i = true /\ r_instance rt = i.
Proof.
  intros Hd. unfold assigned. destruct (find_route (routes m) a) as [rt|] eqn:E.
  - pose proof (proj1 (find_route_Some _ _ _ Hd) E) as (r & Hr & Ha). split.
    + destruct (negb (cached rt) && live m (r_instance rt)) eqn:Eb; [|done]. intros [= <-]. bool_simp. eauto 10.
    + intros (q & x & Hq & Hx & Hc & Hl & <-). assert (find_route (routes m) a = Some x) as E' by (apply find_route_Some; eauto).
      assert (x = rt) as -> by congruence. by rewrite Hc, Hl.
  - split; [done|]. intros (r & rt & Hr & Ha & _). rewrite find_route_None in E by done. by rewrite (E r rt Hr) in Ha.
Qed.

Lemma cached_flags rt : r_flags rt = 0 -> cached rt = false.
Proof. unfold cached. by intros ->. Qed.

(** Skipping lengths without a network. *)
Lemma first_network_filter m x (P : Z -> Prop) {HP : forall b, Decision (P b)} l :
  (forall b, b ∈ l -> ~ P b -> assigned m (ip_net x b) = None) -> first_network m x (filter P l) = first_network m x l.
Proof.
  induction l as [|b l IH]; intros Hl; [done|]. rewrite filter_cons. cbn [first_network]. case_decide as Hp; cbn [first_network].
  - rewrite IH; [done|]. intros c Hc. apply Hl. by right.
  - rewrite (Hl b) by (try left; done). apply IH. intros c Hc. apply Hl. by right.
Qed.

(** The lengths of the helper are enough. *)
Lemma helper_lengths_enough m x : distinct (routes m) -> routed m -> counted m ->
  first_network m x (lengths_in_use (net_len_refcount (route_helper m))) = longest_network m x.
Proof.
  intros Hd Hr Hc. unfold longest_network, lengths_in_use. apply first_network_filter. intros b Hb Hnp.
  destruct (assigned m (ip_net x b)) as [i|] eqn:E; [|done]. exfalso. apply Hnp.
  apply assigned_Some in E as (r & rt & Hrt & Ha & _ & Hl & Ei); [|done].
  unfold live in Hl. destruct (instances m !! i) as [mi|] eqn:Hi; [|done]. apply negb_true_iff in Hl.
  rewrite <- Ei in Hi. destruct (rd_net m Hr r rt Hrt x b mi Ha Hi Hl) as (Hdid & Htun & ir & Hir & Hbits).
  rewrite list_elem_of_In, <- in_rev, <- list_elem_of_In, elem_of_seqZ in Hb. rewrite Hc by lia.
  pose proof (used_ge _ _ _ b Hi) as Hge. unfold active_count in Hge. rewrite Hl, Hdid, Htun in Hge. cbn [negb andb] in Hge.
  change (DEV_TYPE_TUN =? DEV_TYPE_TUN) with true in Hge.
  assert (ir ∈ filter (fun ir => netbits ir = b) (iroutes mi)) as Hin by (apply list_elem_of_filter; done).
  destruct (filter _ _) as [|z l]; [by apply elem_of_nil in Hin|]. rewrite Zlen_cons in Hge. pose proof (Zlen_nonneg l). lia.
Qed.

(** ** Looking up *)

(** A state that differs from [m] in what no lookup sees: the order of the table, cached
    routes, counts, and closed instances. *)
Record sees_same (m m' : multi_context) : Prop := {
  sn_learned : learned m m';
  sn_assigned : forall a, assigned m' a = assigned m a
}.

Lemma sees_same_refl m h : sees_same m (set_vhash m h).
Proof. split; [apply learned_refl|done]. Qed.
Lemma learned_trans m m1 m2 : learned m m1 -> learned m1 m2 -> learned m m2.
Proof. intros [A B C] [A' B' C']. split; [congruence..|]. by eapply same_instances_trans. Qed.
Lemma sees_same_trans m m1 m2 : sees_same m m1 -> sees_same m1 m2 -> sees_same m m2.
Proof. intros [A B] [A' B']. split; [by eapply learned_trans|]. intros a. by rewrite B', B. Qed.

(** No cached route is valid. *)
Definition stale (m : multi_context) : Prop :=
  forall r rt, routes m !! r = Some rt -> r_flags rt = 0 \/ r_cache_generation rt < cache_generation (route_helper m).

Definition same_route (rt x : multi_route) : Prop :=
  r_addr rt = r_addr x /\ r_instance rt = r_instance x /\ r_flags rt = r_flags x /\ r_cache_generation rt = r_cache_generation x.

Lemma net_ok_learned m m' rt : learned m m' -> net_ok m rt -> net_ok m' rt.
Proof.
  intros [_ _ Hsi] Hn x b mi Hx Hi Hl. destruct (si_old _ _ Hsi _ _ Hi) as (mi0 & Hi0 & Es).
  pose proof Es as [= Hh' _ Ht' Hr' Hd']. rewrite Hd', Ht', Hr'. apply (Hn x b mi0 Hx Hi0). congruence.
Qed.

Lemma same_route_ok m rt x : same_route rt x -> (cache_ok m x -> cache_ok m rt) /\ (net_ok m x -> net_ok m rt).
Proof. unfold cache_ok, net_ok. by intros (-> & -> & -> & ->). Qed.

(** Learning and reaping keep the invariant when the routes are old ones or good, and the cached
    ones say the right thing. *)
Lemma learned_routed m m' : routed m -> learned m m' ->
  (forall rt, cache_ok m rt -> cache_ok m' rt) ->
  (forall r rt, routes m' !! r = Some rt -> (exists q x, routes m !! q = Some x /\ same_route rt x) \/
     ((r_flags rt = 0 \/ cache_ok m rt) /\ net_ok m rt)) ->
  routed m'.
Proof.
  intros [Hca Hne Hg Hh Hir] Hle Hcache Hrt. pose proof Hle as [Eh El Hsi]. split; rewrite ?Eh; auto.
  - intros r rt Hr. destruct (Hrt r rt Hr) as [(q & x & Hq & Hs)|[[H0|Hc] _]]; [|by left|by right; apply Hcache].
    destruct (Hca q x Hq) as [H0|Hc]; [left; by destruct Hs as (_ & _ & -> & _)|right]. apply (same_route_ok m' rt x Hs). by apply Hcache.
  - intros r rt Hr. apply (net_ok_learned m); [done|]. destruct (Hrt r rt Hr) as [(q & x & Hq & Hs)|[_ Hn]]; [|done].
    apply (same_route_ok m rt x Hs). eauto.
  - intros i mi Hi. destruct (si_old _ _ Hsi _ _ Hi) as (mi0 & Hi0 & [= _ _ _ -> _]). eauto.
Qed.

(** The networks are as before. *)
Lemma cache_ok_learned m m' rt : learned m m' -> (forall x b, 0 <= b < 32 -> assigned m' (ip_net x b) = assigned m (ip_net x b)) ->
  cache_ok m rt -> cache_ok m' rt.
Proof.
  intros [Eh El Hsi] Ha (Hf & x & Hx & He & Hgen & Hlong). split; [done|]. exists x. rewrite Eh. split_and!; [done|done|done|].
  intros Hgen' Hl. rewrite (longest_network_ext m m') by auto. apply Hlong; [done|]. by rewrite <- (same_instances_live m m' Hsi).
Qed.

(** Or no cached route is valid. *)
Lemma stale_cache_ok m m' rt r : stale m -> routes m !! r = Some rt -> route_helper m' = route_helper m -> cache_ok m rt -> cache_ok m' rt.
Proof.
  intros Hs Hr Eh (Hf & x & Hx & He & Hgen & Hlong). split; [done|]. exists x. rewrite Eh. split_and!; [done|done|done|].
  intros Hgen'. destruct (Hs r rt Hr); [congruence|lia].
Qed.

Lemma learned_counted m m' : counted m -> learned m m' -> counted m'.
Proof. intros Hc [Eh _ Hsi] b Hb. rewrite Eh, (same_instances_used _ _ b Hsi). auto. Qed.

Lemma sees_same_routed m m' : routed m -> counted m -> sees_same m m' ->
  (forall r rt, routes m' !! r = Some rt -> (exists q x, routes m !! q = Some x /\ same_route rt x) \/ (cache_ok m rt /\ net_ok m rt)) ->
  routed m' /\ counted m'.
Proof.
  intros Hr Hco [Hle Ha] Hrt. split; [|by eapply learned_counted]. eapply learned_routed; [exact Hr|exact Hle| |].
  - intros rt. apply cache_ok_learned; [exact Hle|auto].
  - intros r rt H. destruct (Hrt r rt H) as [?|[? ?]]; auto.
Qed.

Lemma routed_vhash m h : routed m -> counted m -> routed (set_vhash m h) /\ counted (set_vhash m h).
Proof. intros Hr Hc. apply (sees_same_routed m); [exact Hr|exact Hc|apply sees_same_refl|]. intros r rt Hrt. left. exists r, rt. by unfold same_route. Qed.

(** Caching what the networks say changes nothing. *)
Lemma cache_route_ok script now m mp i mi a x :
  core m mp -> routed m -> counted m -> instances m !! i = Some mi -> live m i = true -> is_u32 x -> mroute_addr_equal (ip_host x) a = true ->
  longest_network m x = Some i -> assigned m (ip_host x) = None ->
  exists o m' mp', multi_learn_addr script now m i a (Z.lor MULTI_ROUTE_CACHE MULTI_ROUTE_AGEABLE) = Ok (o, m') /\
    core m' mp' /\ sees_same m m' /\ routed m' /\ counted m'.
Proof.
  intros Hc Hr Hco Hi Hl Hx Ha Hlong Hnone. pose proof (core_distinct _ _ Hc) as Hd.
  change (Z.lor MULTI_ROUTE_CACHE MULTI_ROUTE_AGEABLE) with 3.
  destruct (multi_learn_addr_ok script now m mp i mi a 3 Hc Hi) as (o & m' & mp' & E & Hc' & Hle & Hcase).
  exists o, m', mp'. split; [done|]. split; [done|].
  pose proof (same_instances_live m m' (le_instances _ _ Hle)) as Hlive.
  destruct Hcase as [(ER & _)|(_ & _ & _ & r' & Hp)].
  - assert (sees_same m m') as Hs by (split; [done|]; intros b; apply assigned_ext; [by rewrite ER|done]).
    split; [done|]. eapply sees_same_routed; [done..|exact Hs|]. intros r rt Hrt. rewrite ER in Hrt. left. exists r, rt. by unfold same_route.
  - assert (sees_same m m') as Hs.
    { split; [done|]. intros b. unfold assigned at 1. rewrite (put_find _ _ _ _ _ b Hd Hp). destruct (mroute_addr_equal b a) eqn:Eb.
      - cbn. assert (assigned m b = assigned m (ip_host x)) as ->; [|done]. unfold assigned.
        assert (find_route (routes m) b = find_route (routes m) (ip_host x)) as ->; [|done].
        apply option_eq. intros rt. rewrite !find_route_Some by done.
        assert (forall c, mroute_addr_equal b c = mroute_addr_equal (ip_host x) c) as Hbc.
        { intros c. apply mroute_addr_equal_cong. eapply mroute_addr_equal_trans; [exact Eb|]. by apply mroute_addr_equal_sym. }
        split; intros (q & Hq & Hqa); exists q; (split; [done|]); [by rewrite <- Hbc|by rewrite Hbc].
      - unfold assigned. by case_match; rewrite ?Hlive. }
    split; [done|]. eapply sees_same_routed; [done..|exact Hs|]. intros r rt Hrt. destruct Hp as [Hn _ Ho _].
    destruct (decide (r = r')) as [->|Hne].
    + right. assert (rt = multi_new_route now m i a 3) as -> by congruence. split.
      * split; [done|]. exists x. split_and!; [done|done|by cbn|]. intros _ _. done.
      * intros y b mj Hy. cbn [multi_new_route r_addr] in Hy. by rewrite (host_not_net a x y b Ha) in Hy.
    + left. apply Ho in Hrt as [Hrt _]; [|done]. exists r, rt. by unfold same_route.
Qed.

Lemma equal_find m a b : distinct (routes m) -> mroute_addr_equal a b = true -> find_route (routes m) a = find_route (routes m) b.
Proof.
  intros Hd He. apply option_eq. intros rt. rewrite !find_route_Some by done.
  split; intros (q & Hq & Hqa); exists q; (split; [done|]); [rewrite <- (mroute_addr_equal_cong a b)|rewrite (mroute_addr_equal_cong a b)]; done.
Qed.

Lemma equal_assigned m a b : distinct (routes m) -> mroute_addr_equal a b = true -> assigned m a = assigned m b.
Proof. intros Hd He. unfold assigned. by rewrite (equal_find m a b Hd He). Qed.

(** Defined is assigned, for what is not cached. *)
Lemma defined_assigned now m a rt : routed m -> distinct (routes m) -> find_route (routes m) a = Some rt ->
  (r_flags rt = 0 -> assigned m a = (if defined now m rt then Some (r_instance rt) else None)) /\ (r_flags rt = 3 -> assigned m a = None).
Proof.
  intros Hr Hd E. unfold assigned. rewrite E. unfold defined, cached. split; intros ->; [|done]. cbn [flag]. change (flag 0 _) with false.
  change (flag 0 MULTI_ROUTE_CACHE) with false. cbn [negb andb]. by rewrite !andb_true_r.
Qed.

(** A valid cached route is one of this generation. *)
Lemma defined_cached now m rt : r_flags rt = 3 -> defined now m rt = true ->
  live m (r_instance rt) = true /\ r_cache_generation rt = cache_generation (route_helper m).
Proof.
  unfold defined, cached. intros ->. change (flag 3 MULTI_ROUTE_CACHE) with true. intros [[Hl Hg]%andb_true_iff _]%andb_true_iff.
  split; [done|]. apply negb_true_iff in Hg. cbn [andb] in Hg. by apply negb_false_iff, Z.eqb_eq in Hg.
Qed.

Lemma try_networks_ok script now m mp a x l :
  core m mp -> routed m -> counted m -> is_u32 x -> mroute_addr_equal (ip_host x) a = true -> assigned m (ip_host x) = None ->
  first_network m x l = longest_network m x ->
  exists m' mp', try_networks script now m a l = Ok (longest_network m x, m') /\ core m' mp' /\ sees_same m m' /\ routed m' /\ counted m'.
Proof.
  intros Hc Hr Hco Hx Ha Hnone Hl. cut (exists m' mp', try_networks script now m a l = Ok (first_network m x l, m') /\
    core m' mp' /\ sees_same m m' /\ routed m' /\ counted m'); [by rewrite Hl|].
  assert (forall i, first_network m x l = Some i -> longest_network m x = Some i) as Hlong by (intros; congruence). clear Hl.
  revert m mp Hc Hr Hco Hnone Hlong. induction l as [|b l IH]; intros m mp Hc Hr Hco Hnone Hlong.
  { exists m, mp. split; [done|]. split_and!; try done. replace m with (set_vhash m (vhash m)) at 2 by by destruct m. apply sees_same_refl. }
  cbn [try_networks first_network] in *. destruct (mask_host_bits_ok a x b Ha Hx) as (t & -> & Ht). cbn [mbind result_bind].
  destruct (vlookup_ok m mp t Hc) as (h' & -> & Hc1). cbn [mbind result_bind]. set (m1 := set_vhash m h') in *.
  pose proof (core_distinct _ _ Hc) as Hd.
  assert (find_route (routes m) (ip_net x b) = mp t ≫= (fun r => routes m !! r)) as Hf by (rewrite (equal_find m _ t Hd Ht); by apply core_find).
  pose proof (routed_vhash m h' Hr Hco) as [Hr1 Hco1].
  assert (first_network m1 x l = first_network m x l) as Ef by (apply first_network_ext; intros; apply sn_assigned, sees_same_refl).
  assert (longest_network m1 x = longest_network m x) as El by (apply longest_network_ext; intros; apply sn_assigned, sees_same_refl).
  destruct (mp t) as [r|] eqn:Er; cbn [mbind option_bind] in Hf.
  - destruct (core_route _ _ _ _ Hc Er) as (rt & mi & Hrt & Hta & Hi). rewrite Hrt in Hf.
    rewrite (multi_route_defined_ok now m1 mp r rt Hc1 Hrt). cbn [mbind result_bind]. change (defined now m1 rt) with (defined now m rt).
    destruct (defined_assigned now m _ rt Hr Hd Hf) as [Hfl0 Hfl3].
    destruct (rd_cache m Hr r rt Hrt) as [Hfl|(Hfl & y & _ & Hy & _)].
    2:{ exfalso. pose proof (mroute_addr_equal_trans _ _ _ Ht Hta) as Hnet. pose proof (host_not_net _ y x b Hy). congruence. }
    rewrite (Hfl0 Hfl) in *. destruct (defined now m rt) eqn:Ed.
    + unfold get_route. cbn [m1 set_vhash routes]. rewrite Hrt. cbn [from_opt mbind result_bind].
      assert (live m (r_instance rt) = true) as Hlive by (unfold defined in Ed; bool_simp; done).
      destruct (cache_route_ok script now m1 mp (r_instance rt) mi a x Hc1 Hr1 Hco1 Hi Hlive Hx Ha) as (o & m' & mp' & -> & Hc' & Hs & Hr' & Hco');
        [rewrite El; apply Hlong; reflexivity|exact Hnone|].
      cbn [mbind result_bind]. exists m', mp'. split; [reflexivity|]. split; [exact Hc'|]. split; [|exact (conj Hr' Hco')].
      eapply sees_same_trans; [apply sees_same_refl|exact Hs].
    + destruct (IH m1 mp Hc1 Hr1 Hco1 Hnone) as (m' & mp' & -> & Hc' & Hs & Hr' & Hco'); [by rewrite Ef, El|]. rewrite Ef. exists m', mp'.
      split; [reflexivity|]. split; [exact Hc'|]. split; [|exact (conj Hr' Hco')]. eapply sees_same_trans; [apply sees_same_refl|exact Hs].
  - cbn [mbind result_bind]. assert (assigned m (ip_net x b) = None) as En by (unfold assigned; by rewrite Hf). rewrite En in *.
    destruct (IH m1 mp Hc1 Hr1 Hco1 Hnone) as (m' & mp' & -> & Hc' & Hs & Hr' & Hco'); [by rewrite Ef, El|]. rewrite Ef. exists m', mp'.
    split; [reflexivity|]. split; [exact Hc'|]. split; [|exact (conj Hr' Hco')]. eapply sees_same_trans; [apply sees_same_refl|exact Hs].
Qed.

(** Using a route only renews its time. *)
Lemma touch_ok now m mp r rt : core m mp -> routed m -> counted m -> routes m !! r = Some rt ->
  core (touch_route now m r rt) mp /\ sees_same m (touch_route now m r rt) /\ routed (touch_route now m r rt) /\ counted (touch_route now m r rt).
Proof.
  intros Hc Hr Hco Hrt. set (rt' := Route (r_addr rt) (r_instance rt) (r_flags rt) (r_cache_generation rt) now).
  assert (forall q x, routes (touch_route now m r rt) !! q = Some x -> exists y, routes m !! q = Some y /\ r_addr x = r_addr y /\
            r_instance x = r_instance y /\ r_flags x = r_flags y /\ r_cache_generation x = r_cache_generation y) as Hback.
  { intros q x Hq. cbn [touch_route set_routes routes] in Hq. apply lookup_insert_Some in Hq as [[<- <-]|[_ Hq]]; eauto 10. }
  assert (forall q x, routes m !! q = Some x -> exists y, routes (touch_route now m r rt) !! q = Some y /\ r_addr x = r_addr y /\
            r_instance x = r_instance y /\ r_flags x = r_flags y) as Hforw.
  { intros q x Hq. cbn [touch_route set_routes routes]. destruct (decide (q = r)) as [->|Hne].
    - rewrite lookup_insert_eq. eexists. split; [done|]. assert (x = rt) as -> by congruence. done.
    - rewrite lookup_insert_ne by done. eauto. }
  assert (core (touch_route now m r rt) mp) as Hc'.
  { split; [apply Hc| |by eapply counts_update; [apply Hc|exact Hrt|]]. intros a q. rewrite (co_table _ _ Hc). split; intros (x & Hq & Hx).
    - destruct (Hforw q x Hq) as (y & Hy & Ea & _). exists y. by rewrite <- Ea.
    - destruct (Hback q x Hq) as (y & Hy & Ea & _). exists y. by rewrite <- Ea. }
  assert (sees_same m (touch_route now m r rt)) as Hs.
  { split; [split; [done..|apply same_instances_refl]|]. intros a. apply option_eq. intros i.
    rewrite (assigned_Some _ _ _ (core_distinct _ _ Hc')), (assigned_Some _ _ _ (core_distinct _ _ Hc)). unfold cached. split.
    - intros (q & x & Hq & Ha & Hf & Hl & Hi). destruct (Hback q x Hq) as (y & Hy & Ea & Ei & Ef & _).
      exists q, y. rewrite <- Ea, <- Ei, <- Ef. done.
    - intros (q & x & Hq & Ha & Hf & Hl & Hi). destruct (Hforw q x Hq) as (y & Hy & Ea & Ei & Ef).
      exists q, y. rewrite <- Ea, <- Ei, <- Ef. done. }
  split; [done|]. split; [done|]. eapply sees_same_routed; [done..|exact Hs|]. intros q x Hq. left.
  destruct (Hback q x Hq) as (y & Hy & ?). exists q, y. auto.
Qed.

Lemma live_instance m i : live m i = true -> exists mi, instances m !! i = Some mi /\ halt mi = false.
Proof. unfold live. destruct (instances m !! i) as [mi|]; [|done]. intros H%negb_true_iff. eauto. Qed.

Lemma not_halted m i : live m i = true -> (mi ← get_instance m i; assert_ (negb (halt mi))) = Ok tt.
Proof. intros (mi & Hi & Hh)%live_instance. unfold get_instance. rewrite Hi. cbn. by rewrite Hh. Qed.

Lemma first_network_live m x l i : distinct (routes m) -> first_network m x l = Some i -> live m i = true.
Proof.
  intros Hd. induction l as [|b l IH]; [done|]. cbn [first_network]. destruct (assigned m (ip_net x b)) as [j|] eqn:E; [|done].
  intros [= <-]. apply assigned_Some in E as (? & ? & _ & _ & _ & Hl & _); done.
Qed.

(** A lookup of an IPv4 address, with networks. *)
Lemma lookup_ip_ok script now m mp a x :
  core m mp -> routed m -> counted m -> is_u32 x -> mroute_addr_equal (ip_host x) a = true ->
  exists m' mp', multi_get_instance_by_virtual_addr script now m a true =
      Ok (if mroute_addr_equal a (local m) then None else routes_to m x, m') /\
    core m' mp' /\ sees_same m m' /\ routed m' /\ counted m'.
Proof.
  intros Hc Hr Hco Hx Ha. unfold multi_get_instance_by_virtual_addr. pose proof (core_distinct _ _ Hc) as Hd.
  destruct (mroute_addr_equal a (local m)).
  { exists m, mp. split; [reflexivity|]. split; [exact Hc|]. split; [|exact (conj Hr Hco)]. replace m with (set_vhash m (vhash m)) at 2 by by destruct m. apply sees_same_refl. }
  destruct (vlookup_ok m mp a Hc) as (h' & -> & Hc1). cbn [mbind result_bind]. set (m1 := set_vhash m h') in *.
  destruct (routed_vhash m h' Hr Hco) as [Hr1 Hco1]. change (set_vhash m h') with m1 in Hr1, Hco1.
  assert (longest_network m1 x = longest_network m x) as El by (apply longest_network_ext; intros; apply sn_assigned, sees_same_refl).
  assert (find_route (routes m) (ip_host x) = mp a ≫= (fun r => routes m !! r)) as Hf by (rewrite (equal_find m _ a Hd Ha); by apply core_find).
  assert (assigned m (ip_host x) = None -> exists m' mp', ('(ret, m2) ← (let rh := route_helper m1 in try_networks script now m1 a (take (Z.to_nat (n_net_len rh)) (net_len rh)));
            _ ← match ret with Some i => mi ← get_instance m2 i; assert_ (negb (halt mi)) | None => Ok tt end; Ok (ret, m2)) = Ok (routes_to m x, m') /\
            core m' mp' /\ sees_same m m' /\ routed m' /\ counted m') as Htry.
  { intros Hnone. cbv zeta. rewrite (helper_lengths _ (rd_helper m1 Hr1)).
    destruct (try_networks_ok script now m1 mp a x (lengths_in_use (net_len_refcount (route_helper m1))) Hc1 Hr1 Hco1 Hx Ha Hnone) as (m' & mp' & -> & Hc' & Hs & Hr' & Hco').
    { apply helper_lengths_enough; [exact Hd|exact Hr1|exact Hco1]. }
    cbn [mbind result_bind]. rewrite El. exists m', mp'. split; [|split; [exact Hc'|split; [|exact (conj Hr' Hco')]]].
    - unfold routes_to. rewrite Hnone. destruct (longest_network m x) as [i|] eqn:E; [|reflexivity].
      assert (live m' i = true) as Hl.
      { rewrite (same_instances_live m1 m' (le_instances _ _ (sn_learned _ _ Hs))). change (live m1 i) with (live m i). by eapply first_network_live. }
      by rewrite (not_halted m' i Hl).
    - eapply sees_same_trans; [apply sees_same_refl|exact Hs]. }
  destruct (mp a) as [r|] eqn:Er; cbn [mbind option_bind] in Hf.
  2:{ apply Htry. unfold assigned. by rewrite Hf. }
  destruct (core_route _ _ _ _ Hc Er) as (rt & mi & Hrt & Hta & Hi). rewrite Hrt in Hf.
  rewrite (multi_route_defined_ok now m1 mp r rt Hc1 Hrt). cbn [mbind result_bind]. change (defined now m1 rt) with (defined now m rt).
  destruct (defined_assigned now m _ rt Hr Hd Hf) as [Hfl0 Hfl3].
  destruct (defined now m rt) eqn:Ed.
  2:{ apply Htry. destruct (rd_cache m Hr r rt Hrt) as [Hfl|[Hfl _]]; [by apply Hfl0|by apply Hfl3]. }
  unfold get_route. cbn [m1 set_vhash routes]. rewrite Hrt. cbn [from_opt mbind result_bind].
  assert (live m (r_instance rt) = true) as Hlive by (unfold defined in Ed; bool_simp; done).
  destruct (touch_ok now m1 mp r rt Hc1 Hr1 Hco1 Hrt) as (Hc' & Hs & Hr' & Hco').
  rewrite (not_halted (touch_route now m1 r rt) (r_instance rt)) by exact Hlive. cbn [mbind result_bind].
  exists (touch_route now m1 r rt), mp. split; [|split; [exact Hc'|split; [eapply sees_same_trans; [apply sees_same_refl|exact Hs]|exact (conj Hr' Hco')]]].
  do 2 f_equal. unfold routes_to. destruct (rd_cache m Hr r rt Hrt) as [Hfl|(Hfl & y & Hy & Hya & _ & Hlong)].
  - by rewrite (Hfl0 Hfl).
  - rewrite (Hfl3 Hfl). symmetry. assert (y = x) as ->.
    { apply ip_host_inj; [done|done|]. eapply mroute_addr_equal_trans; [exact Hya|]. apply mroute_addr_equal_sym. by eapply mroute_addr_equal_trans. }
    destruct (defined_cached now m rt Hfl Ed) as [_ Hgn]. exact (Hlong Hgn Hlive).
Qed.

(** ** Assigning an address or a network *)

Lemma learned_stale m m' : routed m -> stale m -> learned m m' ->
  (forall r rt, routes m' !! r = Some rt -> (exists q x, routes m !! q = Some x /\ same_route rt x) \/ (r_flags rt = 0 /\ net_ok m rt)) ->
  routed m' /\ stale m'.
Proof.
  intros Hr Hs Hle Hrt. assert (stale m') as Hs'.
  { intros r rt H. rewrite (le_helper _ _ Hle). destruct (Hrt r rt H) as [(q & x & Hq & _ & _ & -> & ->)|[? _]]; [exact (Hs q x Hq)|by left]. }
  split; [|done]. destruct Hr as [Hca Hne Hg Hh Hir]. pose proof Hle as [Eh El Hsi]. split; rewrite ?Eh; auto.
  - intros r rt H. destruct (Hrt r rt H) as [(q & x & Hq & Hsr)|[H0 _]]; [|by left].
    destruct (Hca q x Hq) as [H0|Hc]; [left; by destruct Hsr as (_ & _ & -> & _)|right]. apply (same_route_ok m' rt x Hsr). exact (stale_cache_ok m m' x q Hs Hq Eh Hc).
  - intros r rt H. apply (net_ok_learned m); [done|]. destruct (Hrt r rt H) as [(q & x & Hq & Hsr)|[_ Hn]]; [|done].
    apply (same_route_ok m rt x Hsr). eauto.
  - intros i mi Hi. destruct (si_old _ _ Hsi _ _ Hi) as (mi0 & Hi0 & [= _ _ _ -> _]). eauto.
Qed.

Definition not_net (a : mroute_addr) : Prop := forall x b, mroute_addr_equal (ip_net x b) a = false.

(** At most one route more. *)
Lemma put_count R R' a r' nr i : put R R' a r' nr -> routes_of i R' <= routes_of i R + 1.
Proof.
  intros [Hn _ Ho Hf]. transitivity (routes_of i (<[r' := nr]> R)); [|rewrite routes_of_insert by done; case_decide; lia].
  unfold routes_of. apply inj_le, map_subseteq_size, map_filter_subseteq_mono, map_subseteq_spec. intros q x Hq.
  destruct (decide (q = r')) as [->|Hne]; [rewrite lookup_insert_eq; congruence|]. rewrite lookup_insert_ne by done. by apply Ho in Hq as [? _].
Qed.

(** A permanent route: it may take over its own address, and no other; and it does unless it is
    refused or the client's own networks have the address. *)
Lemma learn_step script now m mp i mi a :
  core m mp -> routed m -> instances m !! i = Some mi -> halt mi = false -> (not_net a \/ stale m) -> net_ok m (Route a i 0 0 now) ->
  exists o m' mp', multi_learn_addr script now m i a 0 = Ok (o, m') /\ core m' mp' /\ routed m' /\ learned m m' /\ (stale m -> stale m') /\
    (forall c, mroute_addr_equal c a = false -> assigned m' c = assigned m c) /\
    (forall c, assigned m' c = assigned m c \/ assigned m' c = Some i) /\
    routes_of i (routes m') <= routes_of i (routes m) + 1 /\
    (refused script m i mi a \/ assigned m' a = Some i \/ exists x, is_u32 x /\ mroute_addr_equal (ip_host x) a = true /\ routes_to m' x = Some i) /\
    ((forall x, mroute_addr_equal (ip_host x) a = false) -> o = Some i <-> assigned m' a = Some i).
Proof.
  intros Hc Hr Hi Hh Hn Hnet. pose proof (core_distinct _ _ Hc) as Hd.
  destruct (multi_learn_addr_ok script now m mp i mi a 0 Hc Hi) as (o & m' & mp' & E & Hc' & Hle & Hcase).
  exists o, m', mp'. split; [exact E|]. split; [exact Hc'|]. pose proof (same_instances_live m m' (le_instances _ _ Hle)) as Hlive.
  assert (forall r rt, routes m' !! r = Some rt -> (exists q x, routes m !! q = Some x /\ same_route rt x) \/ (r_flags rt = 0 /\ net_ok m rt)) as Hrt.
  { intros r rt H. destruct Hcase as [(ER & _)|(_ & _ & _ & r' & [Hnew _ Ho _])].
    - rewrite ER in H. left. exists r, rt. by unfold same_route.
    - destruct (decide (r = r')) as [->|Hne].
      + right. rewrite Hnew in H. injection H as <-. done.
      + left. apply Ho in H as [H _]; [|done]. exists r, rt. by unfold same_route. }
  assert (forall c, mroute_addr_equal c a = false -> assigned m' c = assigned m c) as Hother.
  { intros c Hca. apply assigned_ext; [|done]. destruct Hcase as [(ER & _)|(_ & _ & _ & r' & Hp)]; [by rewrite ER|].
    rewrite (put_find _ _ _ _ _ c Hd Hp). by rewrite Hca. }
  assert (routed m' /\ (stale m -> stale m')) as [Hr' Hst].
  { assert (stale m -> routed m' /\ stale m') as Hs by (intros Hs; by apply (learned_stale m m')).
    split; [|intros Hst; by apply Hs]. destruct Hn as [Hn|Hst]; [|by apply Hs]. eapply learned_routed; [exact Hr|exact Hle| |].
    - intros rt. apply cache_ok_learned; [exact Hle|]. intros x b _. apply Hother. apply Hn.
    - intros r rt H. destruct (Hrt r rt H) as [?|[? ?]]; auto. }
  split; [exact Hr'|]. split; [exact Hle|]. split; [exact Hst|]. split; [exact Hother|].
  destruct Hcase as [(ER & Eo & Hwhy)|(Eo & _ & _ & r' & Hp)].
  - assert (forall c, assigned m' c = assigned m c) as Hall by (intros c; apply assigned_ext; [by rewrite ER|done]).
    assert (owner_of now m a = Some i -> assigned m a = Some i \/ exists x, is_u32 x /\ mroute_addr_equal (ip_host x) a = true /\ routes_to m x = Some i) as Hown.
    { unfold owner_of. destruct (find_route (routes m) a) as [rt|] eqn:Ef; [|done]. destruct (defined now m rt) eqn:Edef; [|done]. intros [= Ei].
      destruct (defined_assigned now m a rt Hr Hd Ef) as [H0 H3]. rewrite Edef, Ei in H0.
      pose proof (proj1 (find_route_Some _ _ _ Hd) Ef) as (r & Hrr & Har).
      destruct (rd_cache m Hr r rt Hrr) as [Hf|(Hf & x & Hu & Hx & _ & Hlong)]; [left; by apply H0|right]. exists x. split; [exact Hu|].
      assert (mroute_addr_equal (ip_host x) a = true) as Hxa by (eapply mroute_addr_equal_trans; [exact Hx|by apply mroute_addr_equal_sym]).
      split; [exact Hxa|]. unfold routes_to. rewrite (equal_assigned m _ a Hd Hxa), (H3 Hf), <- Ei.
      destruct (defined_cached now m rt Hf Edef) as [Hlv Hgn]. exact (Hlong Hgn Hlv). }
    rewrite ER. split; [intros c; left; apply Hall|]. split; [lia|]. rewrite Hall. split.
    + destruct Hwhy as [Hw|?]; [|by left]. right. destruct (Hown Hw) as [?|(x & Hu & Hx & Hto)]; [by left|right]. exists x. by rewrite (routes_to_ext m m').
    + intros Hnh. rewrite Eo. split.
      { intros Ho. destruct (Hown Ho) as [?|(x & _ & Hx & _)]; [done|]. by rewrite Hnh in Hx. }
      intros Ha. unfold owner_of. destruct (find_route (routes m) a) as [rt|] eqn:Ef; [|by unfold assigned in Ha; rewrite Ef in Ha].
      destruct (defined_assigned now m a rt Hr Hd Ef) as [H0 H3]. pose proof (proj1 (find_route_Some _ _ _ Hd) Ef) as (r & Hrr & _).
      destruct (rd_cache m Hr r rt Hrr) as [Hf|[Hf _]]; [|by rewrite (H3 Hf) in Ha]. rewrite (H0 Hf) in Ha. exact Ha.
  - assert (assigned m' a = Some i) as Ha.
    { unfold assigned. rewrite (put_find _ _ _ _ _ a Hd Hp), mroute_addr_equal_refl. change (cached (multi_new_route now m i a 0)) with false.
      cbn [negb andb multi_new_route r_instance]. rewrite Hlive. unfold live. by rewrite Hi, Hh. }
    assert (forall c, mroute_addr_equal c a = true -> assigned m' c = assigned m' a) as Hsame.
    { intros c Hca. unfold assigned. by rewrite (put_find _ _ _ _ _ c Hd Hp), (put_find _ _ _ _ _ a Hd Hp), Hca, mroute_addr_equal_refl. }
    split; [|split; [by eapply put_count|split; [by right; left|by subst o]]]. intros c. destruct (mroute_addr_equal c a) eqn:Ec; [right; by rewrite Hsame|left; by apply Hother].
Qed.

(** ** When only [i] gains *)

Definition gains (i : positive) (m m' : multi_context) : Prop := forall c, assigned m' c = assigned m c \/ assigned m' c = Some i.

Lemma gains_refl i m : gains i m m.
Proof. intros c. by left. Qed.
Lemma gains_trans i m m1 m2 : gains i m m1 -> gains i m1 m2 -> gains i m m2.
Proof. intros H H' c. destruct (H' c) as [->|?]; [apply H|by right]. Qed.

Lemma gains_routes_to i m m' x : gains i m m' -> routes_to m x = Some i -> routes_to m' x = Some i.
Proof.
  intros Hg. assert (forall l, first_network m x l = Some i -> first_network m' x l = Some i) as Hf.
  { induction l as [|b l IH]; [done|]. cbn [first_network]. destruct (Hg (ip_net x b)) as [->| ->]; [|done].
    destruct (assigned m (ip_net x b)); [done|exact IH]. }
  unfold routes_to. destruct (Hg (ip_host x)) as [->| ->]; [|done]. destruct (assigned m (ip_host x)); [done|]. apply Hf.
Qed.
