(* ===== verification/RoutingRun.v ===== *)
(** The server's routing table while clients come and go (src/multi.c): connecting, importing a
    client's networks, establishing and closing its connection, the reaper, and packets, as a
    step relation on the server's state, with what each step does to the addresses that are
    assigned. *)

From S2P Require Import Prelude Buffer Integer Mss HashTable Mroute Routing RoutingOk.

#[local] Set Default Proof Using "Type*".

(** ** Changes of the instances *)

(** The table, the counts, the caches and the helper are in order. *)
Definition good (m : multi_context) : Prop := (exists mp, core m mp) /\ routed m /\ counted m.

Lemma good_distinct m : good m -> distinct (routes m).
Proof. intros ((mp & Hc) & _). by eapply core_distinct. Qed.

Lemma assigned_owners m m' a : routes m' = routes m -> (forall r rt, routes m !! r = Some rt -> live m' (r_instance rt) = live m (r_instance rt)) ->
  distinct (routes m) -> assigned m' a = assigned m a.
Proof.
  intros ER Hl Hd. unfold assigned. rewrite ER. destruct (find_route (routes m) a) as [rt|] eqn:E; [|done].
  apply find_route_Some in E as (r & Hr & _); [|done]. by rewrite (Hl r rt Hr).
Qed.

(** The same routes, with other instances and another helper: either the networks go to whom
    they went to, or no cached route is valid any more. *)
Lemma routed_change m m' : routed m -> routes m' = routes m -> helper_ok (route_helper m') ->
  cache_generation (route_helper m) <= cache_generation (route_helper m') < 4294967296 ->
  cache_generation (route_helper m) < cache_generation (route_helper m') \/ (forall x b, 0 <= b < 32 -> assigned m' (ip_net x b) = assigned m (ip_net x b)) ->
  (forall r rt, routes m !! r = Some rt -> live m' (r_instance rt) = true -> live m (r_instance rt) = true) ->
  (forall r rt, routes m !! r = Some rt -> net_ok m' rt) ->
  (forall i mi, instances m' !! i = Some mi -> Forall iroute_ok (iroutes mi)) ->
  routed m'.
Proof.
  intros [Hca _ Hg _ _] ER Hh Hge Hor Hl Hn Hi. split; rewrite ?ER; auto; [|lia].
  intros r rt Hr. destruct (Hca r rt Hr) as [?|(Hf & x & Hx & He & Hgen & Hlong)]; [by left|right]. split; [done|]. exists x.
  split_and!; [done|done|lia|]. intros Hgen' Hlive. destruct Hor as [Hlt|Ha]; [lia|].
  rewrite (longest_network_ext m) by auto. apply Hlong; [lia|]. by eapply Hl.
Qed.

(** The owners of the routes live as before, and have their networks. *)
Lemma routed_instances m I' : distinct (routes m) -> routed m ->
  (forall r rt, routes m !! r = Some rt -> live (set_instances m I') (r_instance rt) = live m (r_instance rt)) ->
  (forall r rt, routes m !! r = Some rt -> net_ok (set_instances m I') rt) ->
  (forall i mi, I' !! i = Some mi -> Forall iroute_ok (iroutes mi)) ->
  routed (set_instances m I').
Proof.
  intros Hd Hr Hl Hn Hi. pose proof (rd_gen m Hr). apply (routed_change m); auto; [apply Hr|cbn [set_instances route_helper]; lia| |].
  - right. intros. by apply assigned_owners.
  - intros r rt Hrt. by rewrite (Hl r rt Hrt).
Qed.

Lemma fresh_instance m : instances m !! fresh (dom (instances m)) = None.
Proof. apply not_elem_of_dom, is_fresh. Qed.

Lemma routes_of_stranger I R i : counts_ok I R -> I !! i = None -> routes_of i R = 0.
Proof.
  intros Hct Hi. unfold routes_of. rewrite (proj2 (map_size_empty_iff _)); [done|]. apply map_empty. intros r. apply map_lookup_filter_None. right.
  intros rt Hr E. cbn [snd] in E. destruct (ct_owner _ _ Hct r rt Hr) as [mi Hmi]. rewrite E in Hmi. congruence.
Qed.

(** ** A new client *)

Lemma new_instance_ok m max_routes dev_type : good m -> 0 <= max_routes < 2147483646 ->
  exists i m', multi_new_instance m max_routes dev_type = Ok (i, m') /\ good m' /\ live m i = false /\ live m' i = true /\
    (forall j, j <> i -> instances m' !! j = instances m !! j) /\ (exists mi, instances m' !! i = Some mi /\ did_iroutes mi = false) /\
    vhash m' = vhash m /\ local m' = local m /\ (forall a, assigned m' a = assigned m a).
Proof.
  intros Hg Hmax. pose proof (good_distinct m Hg) as Hd. destruct Hg as ((mp & Hc) & Hr & Hco). pose proof (fresh_instance m) as Hi.
  unfold multi_new_instance. set (i := fresh (dom (instances m))) in *. unfold multi_instance_inc_refcount, get_instance. cbn [instances set_instances].
  rewrite lookup_insert_eq. cbn [from_opt mbind result_bind]. rewrite insert_insert_eq.
  cbn [set_counts halt refcount route_count Routing.max_routes_per_client tunnel_type iroutes did_iroutes].
  change (i32 (0 + 1)) with 1. set (mi := Mi false 1 0 max_routes dev_type [] false).
  change (set_instances (set_instances m _) _) with (set_instances m (<[i := mi]> (instances m))). set (m' := set_instances m _).
  pose proof (co_counts _ _ Hc) as Hct.
  assert (forall r rt, routes m !! r = Some rt -> r_instance rt <> i) as Hown.
  { intros r rt Hrt E. destruct (ct_owner _ _ Hct r rt Hrt) as [x Hx]. congruence. }
  assert (forall j, j <> i -> instances m' !! j = instances m !! j) as Hother by (intros j Hj; by apply lookup_insert_ne).
  assert (forall r rt, routes m !! r = Some rt -> live m' (r_instance rt) = live m (r_instance rt)) as Hl.
  { intros r rt Hrt. unfold live. by rewrite (Hother _ (Hown r rt Hrt)). }
  exists i, m'. split; [done|]. split.
  - split; [exists mp; split; [apply Hc|apply Hc|]|split].
    + cbn [m' set_instances instances routes]. split.
      * intros r rt Hrt. rewrite lookup_insert_ne by (symmetry; eauto). by apply (ct_owner _ _ Hct r).
      * intros j mj Hj. apply lookup_insert_Some in Hj as [[<- <-]|[_ Hj]]; [|by apply (ct_ok _ _ Hct)].
        split; cbn [mi route_count refcount halt Routing.max_routes_per_client]; rewrite ?(routes_of_stranger _ _ i Hct Hi); lia.
    + apply routed_instances; [done|done|exact Hl| |].
      * intros r rt Hrt x b mj Hx Hj. change (instances m' !! r_instance rt = Some mj) in Hj. rewrite (Hother _ (Hown r rt Hrt)) in Hj. by eapply (rd_net m Hr).
      * intros j mj Hj. apply lookup_insert_Some in Hj as [[_ <-]|[_ Hj]]; [apply Forall_nil_2|by eapply (rd_iroutes m Hr)].
    + intros b Hb. cbn [m' set_instances instances route_helper]. rewrite used_insert by done. rewrite (Hco b Hb). unfold active_count, mi. cbn.
      by destruct (dev_type =? DEV_TYPE_TUN).
  - unfold live at 1 2. rewrite Hi. cbn [m' set_instances instances]. rewrite lookup_insert_eq. split_and!; try done; [eauto|].
    intros a. by apply assigned_owners.
Qed.

(** ** The configuration of a client *)

Lemma find_netbits_range n i netmask b : find_netbits n i netmask = Some b -> i <= b < i + Z.of_nat n.
Proof.
  revert i. induction n as [|n IH]; intros i; [done|]. cbn [find_netbits]. case_match; [intros [= <-]; lia|]. intros Hf%IH. lia.
Qed.

Lemma option_iroute_ok irs network netmask : Forall iroute_ok irs -> Forall iroute_ok (option_iroute irs network netmask).
Proof.
  intros H. unfold option_iroute, netmask_to_netbits. destruct netmask as [nm|]; [|by constructor].
  destruct (_ =? _); [|done]. destruct (find_netbits 33 0 nm) as [b|] eqn:E; [|done]. apply find_netbits_range in E.
  cbn [fmap option_fmap option_map]. constructor; [|done]. unfold iroute_ok. cbn [netbits]. destruct (b =? 32) eqn:Eb; bool_simp; lia.
Qed.

(** A change of one instance that leaves what its routes and the counts depend on. *)
Lemma change_instance_ok m i mi mi' : good m -> instances m !! i = Some mi ->
  halt mi' = halt mi -> refcount mi' = refcount mi -> route_count mi' = route_count mi -> max_routes_per_client mi' = max_routes_per_client mi ->
  (forall b, active_count mi' b = active_count mi b) -> Forall iroute_ok (iroutes mi') ->
  (forall ir, did_iroutes mi = true -> ir ∈ iroutes mi -> did_iroutes mi' = true /\ tunnel_type mi' = tunnel_type mi /\ ir ∈ iroutes mi') ->
  let m' := set_instances m (<[i := mi']> (instances m)) in
  good m' /\ (forall j, live m' j = live m j) /\ (forall a, assigned m' a = assigned m a).
Proof.
  intros Hg Hi Hh Href Hrc Hmax Hac Hok Hir m'. pose proof (good_distinct m Hg) as Hd. destruct Hg as ((mp & Hc) & Hr & Hco).
  pose proof (co_counts _ _ Hc) as Hct.
  assert (forall j, live m' j = live m j) as Hl.
  { intros j. unfold live. cbn [m' set_instances instances]. destruct (decide (j = i)) as [->|Hne]; [rewrite lookup_insert_eq, Hi; by rewrite Hh|by rewrite lookup_insert_ne]. }
  split; [|split; [exact Hl|intros a; by apply assigned_owners]].
  split; [exists mp; split; [apply Hc|apply Hc|]|split].
  - cbn [m' set_instances instances routes]. split.
    + intros r rt Hrt. destruct (decide (r_instance rt = i)) as [->|Hne]; [rewrite lookup_insert_eq; eauto|].
      rewrite lookup_insert_ne by done. by apply (ct_owner _ _ Hct r).
    + intros j mj Hj. apply lookup_insert_Some in Hj as [[<- <-]|[_ Hj]]; [|by apply (ct_ok _ _ Hct)].
      destruct (ct_ok _ _ Hct i mi Hi) as [A B C D]. split; rewrite ?Hh, ?Href, ?Hrc, ?Hmax; done.
  - apply routed_instances; [done|done|by intros|..].
    + intros r rt Hrt x b mj Hx Hj Hlj. cbn [set_instances instances] in Hj. apply lookup_insert_Some in Hj as [[E <-]|[_ Hj]].
      * rewrite Hh in Hlj. destruct (rd_net m Hr r rt Hrt x b mi Hx) as (Hdid & Htun & ir & Hin & Hb); [by rewrite <- E|done|].
        destruct (Hir ir Hdid Hin) as (? & ? & ?). split; [done|]. split; [congruence|]. exists ir. done.
      * by eapply (rd_net m Hr).
    + intros j mj Hj. apply lookup_insert_Some in Hj as [[_ <-]|[_ Hj]]; [done|by eapply (rd_iroutes m Hr)].
  - intros b Hb. cbn [m' set_instances instances route_helper]. rewrite (used_update _ _ _ _ _ Hi), (Hco b Hb), Hac. lia.
Qed.

(** Before its connection is established, a client's networks may be configured. *)
Lemma import_iroute_ok m i mi network netmask : good m -> instances m !! i = Some mi -> did_iroutes mi = false ->
  exists m', import_iroute m i network netmask = Ok m' /\ good m' /\ vhash m' = vhash m /\ local m' = local m /\
    (forall j, live m' j = live m j) /\ (forall a, assigned m' a = assigned m a).
Proof.
  intros Hg Hi Hdid. unfold import_iroute, get_instance. rewrite Hi. cbn [from_opt mbind result_bind]. set (mi' := Mi _ _ _ _ _ _ _).
  destruct (change_instance_ok m i mi mi' Hg Hi) as (Hg' & Hl & Ha); try done.
  - intros b. unfold active_count, mi'. cbn [halt did_iroutes tunnel_type iroutes]. rewrite Hdid. by rewrite andb_false_r.
  - apply option_iroute_ok. destruct Hg as (_ & Hr & _). by eapply (rd_iroutes m Hr).
  - congruence.
  - eexists. split; [reflexivity|]. done.
Qed.

(** ** The networks of a client in the helper *)

Definition net_count (irs : list iroute) (b : Z) : Z := Zlen (filter (fun ir => netbits ir = b) irs).

Lemma net_count_cons ir irs b : net_count (ir :: irs) b = (if decide (netbits ir = b) then 1 else 0) + net_count irs b.
Proof. unfold net_count. rewrite filter_cons. case_decide; [by rewrite Zlen_cons|lia]. Qed.
Lemma net_count_nonneg irs b : 0 <= net_count irs b.
Proof. apply Zlen_nonneg. Qed.
Lemma net_count_in irs ir : ir ∈ irs -> 0 < net_count irs (netbits ir).
Proof.
  induction irs as [|x irs IH]; intros Hin; [by apply elem_of_nil in Hin|]. rewrite net_count_cons.
  apply elem_of_cons in Hin as [<-|Hin]; [rewrite decide_True by done; pose proof (net_count_nonneg irs (netbits ir)); lia|].
  specialize (IH Hin). case_decide; lia.
Qed.
Lemma net_count_le irs b : net_count irs b <= Zlen irs.
Proof. unfold net_count, Zlen. pose proof (length_filter (fun ir => netbits ir = b) irs). lia. Qed.

Definition refs (rh : mroute_helper) (b : Z) : Z := nth (Z.to_nat b) (net_len_refcount rh) 0.

(** The generation after changes of the networks [irs]; it changes if one of them has a length. *)
Record newer (rh rh' : mroute_helper) (irs : list iroute) : Prop := {
  nw_ok : helper_ok rh';
  nw_ttl : ageable_ttl_secs rh' = ageable_ttl_secs rh;
  nw_gen : cache_generation rh <= cache_generation rh' <= cache_generation rh + Zlen irs;
  nw_changed : forall ir, ir ∈ irs -> 0 <= netbits ir -> cache_generation rh < cache_generation rh'
}.

Lemma newer_refl rh : helper_ok rh -> newer rh rh [].
Proof. intros H. split; [done|done|rewrite Zlen_nil; lia|]. intros ir Hin. by apply elem_of_nil in Hin. Qed.
Lemma newer_cons rh rh1 rh2 ir irs : newer rh rh1 [ir] -> newer rh1 rh2 irs -> newer rh rh2 (ir :: irs).
Proof.
  intros [_ A B C] [H A' B' C']. rewrite Zlen_cons, Zlen_nil in B. split; [done|congruence|rewrite Zlen_cons; lia|].
  intros x [->|Hx]%elem_of_cons Hb; [|specialize (C' x Hx Hb); lia]. specialize (C ir (proj2 (list_elem_of_singleton ir ir) eq_refl) Hb). lia.
Qed.

Lemma count_change_newer rh rh' ir d : helper_ok rh -> count_change rh rh' ir d -> 0 <= cache_generation rh -> cache_generation rh + 1 < 4294967296 ->
  newer rh rh' [ir] /\ forall b, 0 <= b < 32 -> refs rh' b = refs rh b + (if decide (netbits ir = b) then d else 0).
Proof.
  intros Hok (Hok' & Ht & Hc) Hg0 Hg. destruct (netbits ir >=? 0) eqn:E; bool_simp.
  - destruct Hc as (Eg & n & Hn & Hd & Er). rewrite u32_id in Eg by (unfold is_u32; lia). split.
    + split; [done|done|rewrite Zlen_cons, Zlen_nil; lia|]. intros; lia.
    + intros b Hb. unfold refs. rewrite Er. case_decide as Hcase.
      * subst b. rewrite (nth_lookup_Some _ _ _ _ Hn). apply nth_lookup_Some. rewrite list_lookup_insert_eq; [done|]. by eapply lookup_lt_Some.
      * rewrite !nth_lookup, list_lookup_insert_ne by lia. lia.
  - subst rh'. split.
    + split; [done|done|rewrite Zlen_cons, Zlen_nil; lia|]. intros x ->%list_elem_of_singleton. lia.
    + intros b Hb. rewrite decide_False by lia. lia.
Qed.

Lemma refs_lookup rh b : helper_ok rh -> 0 <= b < 32 -> net_len_refcount rh !! Z.to_nat b = Some (refs rh b).
Proof.
  intros Hok Hb. destruct (lookup_lt_is_Some_2 (net_len_refcount rh) (Z.to_nat b)) as [n Hn]; [rewrite (ho_refs _ Hok); lia|].
  unfold refs. by rewrite (nth_lookup_Some _ _ _ _ Hn).
Qed.

Lemma del_iroutes_ok irs rh : helper_ok rh -> Forall iroute_ok irs -> (forall b, 0 <= b < 32 -> net_count irs b <= refs rh b) ->
  0 <= cache_generation rh -> cache_generation rh + Zlen irs < 4294967296 ->
  exists rh', del_iroutes rh irs = Ok rh' /\ newer rh rh' irs /\ forall b, 0 <= b < 32 -> refs rh' b = refs rh b - net_count irs b.
Proof.
  revert rh. induction irs as [|ir irs IH]; intros rh Hok Hir Hn Hg0 Hg.
  { exists rh. split; [done|]. split; [by apply newer_refl|]. intros b Hb. change (net_count [] b) with 0. lia. }
  inversion Hir as [|? ? Hir1 Hir2]; subst. rewrite Zlen_cons in Hg. pose proof (Zlen_nonneg irs).
  unfold iroute_ok in Hir1. destruct (mroute_helper_del_ok rh ir Hok) as (rh1 & E & Hcc); [lia| |].
  { intros Hb. exists (refs rh (netbits ir)). split; [by apply refs_lookup; [|lia]|]. specialize (Hn (netbits ir) ltac:(lia)).
    rewrite net_count_cons, decide_True in Hn by done. pose proof (net_count_nonneg irs (netbits ir)). lia. }
  destruct (count_change_newer rh rh1 ir (-1) Hok Hcc Hg0 ltac:(lia)) as [Hnew Href].
  pose proof (nw_gen _ _ _ Hnew) as Hgen. rewrite Zlen_cons, Zlen_nil in Hgen.
  destruct (IH rh1) as (rh2 & E2 & Hnew2 & Href2); [apply Hnew|done| |lia|lia|].
  { intros b Hb. rewrite Href by done. specialize (Hn b Hb). rewrite net_count_cons in Hn. case_decide; lia. }
  exists rh2. cbn [del_iroutes]. rewrite E. cbn [mbind result_bind]. split; [done|]. split; [by eapply newer_cons|].
  intros b Hb. rewrite Href2, Href, net_count_cons by done. case_decide; lia.
Qed.

(** ** Closing a connection *)

Lemma closed_counts I R i mi mi' : counts_ok I R -> I !! i = Some mi -> halt mi = false -> halt mi' = true ->
  refcount mi' = refcount mi - 1 -> route_count mi' = route_count mi -> max_routes_per_client mi' = max_routes_per_client mi ->
  counts_ok (if refcount mi' <=? 0 then delete i I else <[i := mi']> I) R.
Proof.
  intros [H1 H2] Hi Hh Hh' Href Hrc Hmax. destruct (H2 i mi Hi) as [A B C D]. rewrite Hh in B. destruct (refcount mi' <=? 0) eqn:E; bool_simp.
  - split.
    + intros r rt Hr. rewrite lookup_delete_ne; [by eapply H1|]. intros E'. pose proof (routes_of_pos _ _ _ _ Hr (eq_sym E')). lia.
    + intros j mj [_ Hj]%lookup_delete_Some. auto.
  - split.
    + intros r rt Hr. destruct (decide (r_instance rt = i)) as [->|Hne]; [rewrite lookup_insert_eq; eauto|rewrite lookup_insert_ne by done; by eapply H1].
    + intros j mj Hj. apply lookup_insert_Some in Hj as [[<- <-]|[_ Hj]]; [|auto]. split; rewrite ?Hh', ?Hrc, ?Hmax; lia.
Qed.

(** What closing does: the instance is halted or gone, and its networks leave the helper. *)
Lemma multi_close_routes_eq m i mi : good m -> instances m !! i = Some mi -> halt mi = false ->
  cache_generation (route_helper m) + Zlen (iroutes mi) < 4294967296 ->
  exists rh' mi', multi_close_routes m i =
      Ok (Mc (if refcount mi' <=? 0 then delete i (instances m) else <[i := mi']> (instances m)) (routes m) (vhash m) rh' (local m)) /\
    halt mi' = true /\ refcount mi' = refcount mi - 1 /\ route_count mi' = route_count mi /\ max_routes_per_client mi' = max_routes_per_client mi /\
    iroutes mi' = iroutes mi /\
    (forall b, 0 <= b < 32 -> refs rh' b = refs (route_helper m) b - active_count mi b) /\
    if did_iroutes mi && (tunnel_type mi =? DEV_TYPE_TUN) then newer (route_helper m) rh' (iroutes mi) else rh' = route_helper m.
Proof.
  intros ((mp & Hc) & Hr & Hco) Hi Hh Hgen. unfold multi_close_routes, get_instance. rewrite Hi. cbn [from_opt mbind result_bind].
  rewrite Hh. cbn [negb assert_ mbind result_bind]. cbn [did_iroutes].
  destruct (ct_ok _ _ (co_counts _ _ Hc) i mi Hi) as [A B C D]. rewrite Hh in B. pose proof (routes_of_nonneg i (routes m)).
  set (mi1 := Mi true (refcount mi) (route_count mi) (max_routes_per_client mi) (tunnel_type mi) (iroutes mi) (did_iroutes mi)).
  assert (forall b, active_count mi b = if did_iroutes mi && (tunnel_type mi =? DEV_TYPE_TUN) then net_count (iroutes mi) b else 0) as Hac.
  { intros b. unfold active_count. rewrite Hh. done. }
  assert (forall mi2 rh', refcount mi2 = refcount mi -> multi_instance_dec_refcount (Mc (<[i := mi2]> (instances m)) (routes m) (vhash m) rh' (local m)) i =
    Ok (Mc (if refcount mi - 1 <=? 0 then delete i (instances m) else <[i := set_counts mi2 (refcount mi - 1) (route_count mi2)]> (instances m)) (routes m) (vhash m) rh' (local m))) as Hdec.
  { intros mi2 rh' E2. unfold multi_instance_dec_refcount, get_instance. cbn [instances]. rewrite lookup_insert_eq. cbn [from_opt mbind result_bind].
    rewrite E2, (i32_id (refcount mi - 1)) by (unfold is_i32; lia). unfold set_instances. cbn [instances routes vhash route_helper local].
    rewrite delete_insert_eq, insert_insert_eq. by destruct (refcount mi - 1 <=? 0). }
  destruct (did_iroutes mi) eqn:Ed; cbn [andb] in *.
  2:{ cbn [mbind result_bind]. unfold set_instances at 1. rewrite Hdec by done. exists (route_helper m), (set_counts mi1 (refcount mi - 1) (route_count mi)). cbn. split_and!; try done. intros b _. rewrite Hac. lia. }
  unfold multi_del_iroutes. cbn [tunnel_type iroutes]. cbn [set_instances route_helper].
  change (tunnel_type mi1) with (tunnel_type mi). change (iroutes mi1) with (iroutes mi). destruct (tunnel_type mi =? DEV_TYPE_TUN) eqn:Et.
  - destruct (del_iroutes_ok (iroutes mi) (route_helper m)) as (rh' & -> & Hn & Href); [apply Hr|by eapply (rd_iroutes m Hr)| |apply Hr|done|].
    { intros b Hb. unfold refs. rewrite (Hco b Hb), <- Hac. exact (used_ge _ i mi b Hi). }
    cbn [mbind result_bind]. unfold set_route_helper, set_instances. cbn [instances routes vhash route_helper local].
    rewrite insert_insert_eq, Hdec by done.
    exists rh', (set_counts (set_did_iroutes mi1 false) (refcount mi - 1) (route_count mi)). cbn. split_and!; try done.
    intros b Hb. rewrite Hac. by apply Href.
  - cbn [mbind result_bind]. unfold set_instances. cbn [instances routes vhash route_helper local].
    rewrite insert_insert_eq, Hdec by done.
    exists (route_helper m), (set_counts (set_did_iroutes mi1 false) (refcount mi - 1) (route_count mi)). cbn. split_and!; try done. intros b _. rewrite Hac. lia.
Qed.

(** A client whose networks are assigned has changed the generation by closing. *)
Lemma closed_generation m i mi rh' x b : distinct (routes m) -> routed m -> instances m !! i = Some mi ->
  (if did_iroutes mi && (tunnel_type mi =? DEV_TYPE_TUN) then newer (route_helper m) rh' (iroutes mi) else rh' = route_helper m) ->
  0 <= b -> assigned m (ip_net x b) = Some i -> cache_generation (route_helper m) < cache_generation rh'.
Proof.
  intros Hd Hr Hi Hnew Hb Ha. apply assigned_Some in Ha as (r & rt & Hrt & He & _ & Hl & Ei); [|done].
  apply live_instance in Hl as (mi2 & Hi2 & Hh). assert (mi2 = mi) as -> by congruence.
  destruct (rd_net m Hr r rt Hrt x b mi He) as (Hdid & Htun & ir & Hin & Hbits); [congruence|done|].
  rewrite Hdid, Htun, Z.eqb_refl in Hnew. cbn [andb] in Hnew. apply (nw_changed _ _ _ Hnew ir Hin). lia.
Qed.

Lemma close_ok m i mi : good m -> instances m !! i = Some mi -> halt mi = false ->
  cache_generation (route_helper m) + Zlen (iroutes mi) < 4294967296 ->
  exists m', multi_close_routes m i = Ok m' /\ good m' /\ vhash m' = vhash m /\ local m' = local m /\ live m' i = false /\
    (forall j, j <> i -> instances m' !! j = instances m !! j) /\
    (forall a, assigned m' a = if decide (assigned m a = Some i) then None else assigned m a).
Proof.
  intros Hg Hi Hh Hgen. pose proof (good_distinct m Hg) as Hd.
  destruct (multi_close_routes_eq m i mi Hg Hi Hh Hgen) as (rh' & mi' & -> & Hh' & Href & Hrc & Hmax & Hirs & Hrefs & Hnew).
  destruct Hg as ((mp & Hc) & Hr & Hco). eexists. split; [reflexivity|]. set (m' := Mc _ _ _ _ _).
  assert (forall j, j <> i -> instances m' !! j = instances m !! j) as Hother.
  { intros j Hj. cbn [m' instances]. destruct (refcount mi' <=? 0); [by rewrite lookup_delete_ne|by rewrite lookup_insert_ne]. }
  assert (forall mj, instances m' !! i = Some mj -> mj = mi') as Hself.
  { intros mj. cbn [m' instances]. destruct (refcount mi' <=? 0); intros Hj; [by apply lookup_delete_Some in Hj as []|]. rewrite lookup_insert_eq in Hj. congruence. }
  assert (live m' i = false) as Hdead.
  { apply not_true_iff_false. intros (mj & E & Hl)%live_instance. rewrite (Hself mj E) in Hl. congruence. }
  assert (forall a, assigned m' a = if decide (assigned m a = Some i) then None else assigned m a) as Ha.
  { intros a. unfold assigned. change (routes m') with (routes m). destruct (find_route (routes m) a) as [rt|]; [|done].
    destruct (cached rt); cbn [negb andb]; [done|]. destruct (decide (r_instance rt = i)) as [->|Hne].
    - rewrite Hdead. unfold live. rewrite Hi, Hh. cbn [negb]. by rewrite decide_True.
    - assert (live m' (r_instance rt) = live m (r_instance rt)) as -> by (unfold live; by rewrite Hother).
      destruct (live m (r_instance rt)); [|done]. by rewrite decide_False by congruence. }
  assert (helper_ok rh' /\ cache_generation (route_helper m) <= cache_generation rh' < 4294967296) as [Hok' Hgen'].
  { pose proof (rd_gen m Hr). case_match; [split; [apply Hnew|]; pose proof (nw_gen _ _ _ Hnew); lia|]. subst rh'. split; [apply Hr|lia]. }
  split_and!; try done. split; [exists mp; split; [apply Hc|apply Hc|]|split].
  - cbn [m' instances routes]. by eapply closed_counts; [apply Hc|exact Hi|..].
  - apply (routed_change m); [done..| | | |].
    + change (route_helper m') with rh'. destruct (decide (cache_generation (route_helper m) < cache_generation rh')) as [?|Hge]; [by left|right].
      intros x b Hb. rewrite Ha. case_decide as E; [|done]. exfalso. apply Hge. apply (closed_generation m i mi rh' x b); try done. lia.
    + intros r rt _. destruct (decide (r_instance rt = i)) as [->|Hne]; [by rewrite Hdead|]. unfold live. by rewrite Hother.
    + intros r rt Hrt x b mj He Hj Hlj. destruct (decide (r_instance rt = i)) as [E|Hne].
      * rewrite E in Hj. rewrite (Hself mj Hj) in Hlj. congruence.
      * rewrite Hother in Hj by done. by eapply (rd_net m Hr).
    + intros j mj Hj. destruct (decide (j = i)) as [->|Hne]; [|rewrite Hother in Hj by done; by eapply (rd_iroutes m Hr)].
      rewrite (Hself mj Hj), Hirs. exact (rd_iroutes m Hr i mi Hi).
  - intros b Hb. change (refs rh' b = used (instances m') b). rewrite Hrefs by done. unfold refs. rewrite (Hco b Hb). cbn [m' instances].
    destruct (refcount mi' <=? 0); [by rewrite (used_delete _ _ _ _ Hi)|]. rewrite (used_update _ _ _ _ _ Hi).
    assert (active_count mi' b = 0) as ->; [|lia]. unfold active_count. by rewrite Hh'.
Qed.

(** ** The reaper *)

(** Deleting a route that is not defined assigns nothing anew. *)
Lemma delete_undefined now m m' r rt : routed m -> distinct (routes m) -> routes m !! r = Some rt -> defined now m rt = false ->
  routes m' = delete r (routes m) -> same_instances (instances m) (instances m') -> forall a, assigned m' a = assigned m a.
Proof.
  intros Hr Hd Hrt Hdef ER Hsi a. pose proof (same_instances_live m m' Hsi) as Hl.
  assert (distinct (routes m')) as Hd'.
  { rewrite ER. intros q q' x x' [_ Hq]%lookup_delete_Some [_ Hq']%lookup_delete_Some. by eapply Hd. }
  apply option_eq. intros i. rewrite !assigned_Some by done. rewrite ER.
  split; intros (q & x & Hq & Ha & Hca & Hlx & <-); exists q, x; rewrite ?Hl in *; split_and!; try done; [by apply lookup_delete_Some in Hq as []|].
  apply lookup_delete_Some. split; [|done]. intros <-. assert (x = rt) as -> by congruence.
  pose proof (proj2 (find_route_Some (routes m) (r_addr rt) rt Hd)) as Hf. unfold defined in Hdef. rewrite Hlx, Hca in Hdef.
  destruct (rd_cache m Hr r rt Hrt) as [H0|[H3 _]].
  - rewrite H0 in Hdef. done.
  - unfold cached in Hca. rewrite H3 in Hca. done.
Qed.

(** The state of the sweep, and the table's map. *)
Definition sweeping (m : multi_context) (mp : mroute_addr -> option positive) (s : multi_context) : Prop :=
  (forall a r, mp a = Some r <-> exists rt, routes s !! r = Some rt /\ mroute_addr_equal a (r_addr rt) = true) /\
  distinct (routes s) /\ counts_ok (instances s) (routes s) /\ vhash s = vhash m /\ learned m s /\ routed s /\ counted s /\
  (forall a, assigned s a = assigned m a) /\ routes s ⊆ routes m.

Lemma reap_route_ok now m s mp k r : sweeping m mp s -> mp k = Some r ->
  exists del s', reap_route now s r = Ok (del, s') /\
    if del : bool then sweeping m (map_del mroute_addr_compare_function mp k) s'
    else sweeping m mp s' /\ exists rt, routes m !! r = Some rt /\ defined now m rt = true.
Proof.
  intros (Ht & Hd & Hct & Hv & Hle & Hr & Hco & Ha & Hsub) Hk. pose proof (proj1 (Ht k r) Hk) as (rt & Hrt & Hkr). unfold reap_route.
  rewrite (multi_route_defined_counts now s r rt Hct Hrt). cbn [mbind result_bind]. destruct (defined now s rt) eqn:Edef.
  - exists false, s. split; [done|]. split; [done|]. exists rt. split; [by eapply lookup_weaken|].
    unfold defined in *. rewrite (le_helper _ _ Hle), (same_instances_live _ _ (le_instances _ _ Hle)) in Edef. done.
  - destruct (counts_del s r rt Hct Hrt) as (s' & -> & ER & EV & EH & EL & Hct' & Hsi). cbn [mbind result_bind]. exists true, s'. split; [done|].
    assert (learned s s') as Hle1 by done. assert (forall a, assigned s' a = assigned s a) as Ha1 by (by eapply delete_undefined).
    assert (routed s' /\ counted s') as [Hr' Hco'].
    { apply (sees_same_routed s); [done|done|done|]. intros q x Hq. left. exists q, x. rewrite ER in Hq. apply lookup_delete_Some in Hq as [_ Hq]. by unfold same_route. }
    split; [|split; [|split; [done|split; [congruence|split; [by eapply learned_trans|split; [done|split; [done|split]]]]]]].
    + intros a q. unfold map_del, mroute_addr_compare_function. rewrite ER. destruct (mroute_addr_equal a k) eqn:Eak.
      * split; [done|]. intros (x & [Hne Hq]%lookup_delete_Some & Hax). exfalso. apply Hne. eapply (Hd r q rt x); [done..|].
        eapply mroute_addr_equal_trans; [by apply mroute_addr_equal_sym|]. eapply mroute_addr_equal_trans; [apply mroute_addr_equal_sym; exact Eak|done].
      * rewrite Ht. split; intros (x & Hq & Hax); exists x; (split; [|done]); [|by apply lookup_delete_Some in Hq as []].
        apply lookup_delete_Some. split; [|done]. intros <-. assert (x = rt) as -> by congruence.
        enough (mroute_addr_equal a k = true) by congruence. eapply mroute_addr_equal_trans; [exact Hax|by apply mroute_addr_equal_sym].
    + rewrite ER. intros q q' x x' [_ Hq]%lookup_delete_Some [_ Hq']%lookup_delete_Some. by eapply Hd.
    + intros a. rewrite Ha1. apply Ha.
    + rewrite ER. transitivity (routes s); [apply delete_subseteq|done].
Qed.

Lemma sweep_range now m mp from to : core m mp -> routed m -> counted m -> 0 <= from <= to -> to <= n_buckets (vhash m) ->
  exists m' mp', multi_reap_range now m from to = Ok m' /\ core m' mp' /\ routed m' /\ counted m' /\ learned m m' /\
    n_buckets (vhash m') = n_buckets (vhash m) /\ (forall a, assigned m' a = assigned m a) /\
    (from = 0 -> to = n_buckets (vhash m) -> forall r rt, routes m' !! r = Some rt -> defined now m rt = true).
Proof.
  intros Hc Hr Hco Hft Hto. pose proof Hc as [Hrep Ht Hct]. pose proof (core_distinct _ _ Hc) as Hd.
  destruct (hash_sweep_rep _ _ (reap_route now) (sweeping m) (fun r => exists rt, routes m !! r = Some rt /\ defined now m rt = true)
    (vhash m) mp from to m mroute_keys_ok Hrep Hft Hto) as (h' & mp' & s' & E & Hrep' & Hsw & Hn & Hkept).
  { split_and!; try done. replace m with (set_vhash m (vhash m)) at 2 by by destruct m. apply learned_refl. }
  { intros mq s k v. apply reap_route_ok. }
  destruct Hsw as (Ht' & Hd' & Hct' & Hv' & Hle & Hr' & Hco' & Ha & Hsub).
  exists (set_vhash s' h'), mp'. split.
  { unfold multi_reap_range. replace (from <? 0) with false by lia. revert E.
    destruct (hash_iterator_init_range _ _ _) as [hi| |]; [|done..]. cbn [mbind result_bind].
    destruct (hash_sweep _ _ _ _ _) as [[[h1 hi1] s1]| |]; [|done..]. cbn [mbind result_bind].
    destruct (hash_iterator_free _ _) as [[h2 hi2]| |]; [|done..]. cbn [mbind result_bind]. by intros [= -> ->]. }
  destruct (routed_vhash s' h' Hr' Hco') as [? ?]. split; [by split|]. split; [done|]. split; [done|]. split; [by split; apply Hle|].
  split; [done|]. split; [done|]. intros Hf0 Htn r rt Hrt. cbn [set_vhash routes] in Hrt.
  assert (mp' (r_addr rt) = Some r) as Hm by (apply Ht'; exists rt; by rewrite mroute_addr_equal_refl).
  destruct (Hkept _ _ Hm Hf0 Htn) as (x & Hx & Hdef). assert (x = rt) as -> by (pose proof (lookup_weaken _ _ _ _ Hrt Hsub); congruence). done.
Qed.

Definition reaper_ok (mr : multi_reap) : Prop := 0 <= bucket_base mr <= 2 ^ 30 + 1024 /\ 16 <= buckets_per_pass mr <= 1024.

Lemma reap_range_clip now m from to : 0 <= from -> n_buckets (vhash m) < to -> multi_reap_range now m from to = multi_reap_range now m from (n_buckets (vhash m)).
Proof.
  intros Hf Hto. unfold multi_reap_range. replace (from <? 0) with false by lia. unfold hash_iterator_init_range.
  replace (to >? n_buckets (vhash m)) with true by lia. by replace (n_buckets (vhash m) >? n_buckets (vhash m)) with false by lia.
Qed.

Lemma table_size m mp : core m mp -> 0 < n_buckets (vhash m) <= 2 ^ 30.
Proof.
  intros [(bl & Hok & _) _ _]. destruct (hk_size _ _ _ _ _ Hok) as [H0 Hs]. destruct (hk_pow _ _ _ _ _ Hok) as (k & Hk & E).
  split; [done|]. rewrite E in *. apply Z.pow_le_mono_r; [lia|]. change 2147483648 with (2 ^ 31) in Hs. apply Z.pow_lt_mono_r_iff in Hs; lia.
Qed.

(** What the reaper leaves: the same clients own the same addresses. *)
Lemma reap_process_ok now m mr : good m -> reaper_ok mr ->
  exists m' mr', multi_reap_process now m mr = Ok (m', mr') /\ good m' /\ reaper_ok mr' /\ learned m m' /\ (forall a, assigned m' a = assigned m a).
Proof.
  intros Hg Hmr. unfold multi_reap_process. destruct (negb _).
  2:{ exists m, mr. split_and!; try done. replace m with (set_vhash m (vhash m)) at 2 by by destruct m. apply learned_refl. }
  destruct Hg as ((mp & Hc) & Hr & Hco). pose proof (table_size m mp Hc) as Hn. destruct Hmr as [Hb Hp]. unfold multi_reap_process_dowork, hash_n_buckets.
  set (base := if _ >=? _ then _ else _). assert (0 <= base < n_buckets (vhash m)) as Hbase.
  { unfold base. case_match eqn:E; bool_simp; lia. }
  rewrite (i32_id (base + buckets_per_pass mr)) by (unfold is_i32; lia). set (to := base + buckets_per_pass mr).
  assert (exists m' mp', multi_reap_range now m base to = Ok m' /\ core m' mp' /\ routed m' /\ counted m' /\ learned m m' /\
            (forall a, assigned m' a = assigned m a)) as (m' & mp' & -> & Hc' & Hr' & Hco' & Hle & Ha).
  { destruct (decide (to <= n_buckets (vhash m))) as [Hto|Hto].
    - destruct (sweep_range now m mp base to) as (m' & mp' & ? & ? & ? & ? & ? & _ & ? & _); [done..|unfold to; lia|done|]. by exists m', mp'.
    - rewrite reap_range_clip by lia. destruct (sweep_range now m mp base (n_buckets (vhash m))) as (m' & mp' & ? & ? & ? & ? & ? & _ & ? & _); [done..|lia|lia|]. by exists m', mp'. }
  cbn [mbind result_bind]. eexists _, _. split; [reflexivity|]. split; [split; eauto|]. split; [|done].
  unfold reaper_ok. cbn [bucket_base buckets_per_pass]. unfold to. lia.
Qed.

(** ** Establishing a connection *)

Section Establish.
Context (script : option positive -> learn_operation -> mroute_addr -> bool) (junk : mroute_addr).
Hypothesis junk_size : Zlen (mr_addr junk) = 20.

(** The route to a network, or to a host when [bits] is -1. *)
Definition target (a bits : Z) : mroute_addr :=
  if bits >=? 0 then MrAddr 4 (Z.lor MR_ADDR_IPV4 MR_WITH_NETBITS) bits (be_enc 4 a) else ip_host a.

(** The address that is learned, the junk behind it included. *)
Definition learned_addr (a bits : Z) : mroute_addr :=
  let addr := set_addr junk MR_ADDR_IPV4 (be_enc 4 a) in
  if bits >=? 0 then MrAddr (mr_len addr) (Z.lor (mr_type addr) MR_WITH_NETBITS) (u8 bits) (mr_addr addr) else addr.

Lemma multi_learn_in_addr_t_eq now m i a bits :
  multi_learn_in_addr_t script junk now m i a bits = multi_learn_addr script now m i (learned_addr a bits) 0.
Proof. done. Qed.

Lemma learned_addr_target a bits : bits < 32 -> mroute_addr_equal (target a bits) (learned_addr a bits) = true.
Proof.
  intros Hb. assert (forall t n, mr_bytes (MrAddr 4 t n (splice 0 (be_enc 4 a) (mr_addr junk))) = be_enc 4 a) as Hbytes.
  { intros t n. apply bytes_of_splice; [done|]. rewrite junk_size. lia. }
  apply mroute_addr_equal_true. unfold target, learned_addr. destruct (bits >=? 0) eqn:E; bool_simp; cbn [mr_type mr_netbits mr_len set_addr].
  - split_and!; [done|by rewrite u8_id by (unfold is_byte; lia)|done|]. change (Zlen (be_enc 4 a)) with 4. by rewrite Hbytes.
  - split_and!; [done..|]. unfold set_addr. change (Zlen (be_enc 4 a)) with 4. by rewrite Hbytes.
Qed.

Lemma learned_host_not_net a : not_net (learned_addr a (-1)).
Proof. intros x b. apply (host_not_net _ a). by apply (learned_addr_target a (-1)). Qed.

(** One network of [i], or its address. *)
Lemma learn_target_ok now m mp i mi a bits :
  core m mp -> routed m -> instances m !! i = Some mi -> halt mi = false -> bits < 32 ->
  (bits < 0 \/ stale m /\ did_iroutes mi = true /\ tunnel_type mi = DEV_TYPE_TUN /\ exists ir, ir ∈ iroutes mi /\ netbits ir = bits) ->
  exists o m' mp', multi_learn_in_addr_t script junk now m i a bits = Ok (o, m') /\ core m' mp' /\ routed m' /\ learned m m' /\ (stale m -> stale m') /\
    gains i m m' /\ (forall c, mroute_addr_equal c (target a bits) = false -> assigned m' c = assigned m c) /\
    routes_of i (routes m') <= routes_of i (routes m) + 1 /\
    (refused script m i mi (learned_addr a bits) \/ assigned m' (target a bits) = Some i \/
     exists x, is_u32 x /\ mroute_addr_equal (ip_host x) (target a bits) = true /\ routes_to m' x = Some i).
Proof.
  intros Hc Hr Hi Hh Hb Hor. rewrite multi_learn_in_addr_t_eq. pose proof (learned_addr_target a bits Hb) as Ht.
  destruct (learn_step script now m mp i mi (learned_addr a bits) Hc Hr Hi Hh) as (o & m' & mp' & E & Hc' & Hr' & Hle & Hst & Hother & Hg & Hcount & Hwhy & _).
  - destruct Hor as [Hneg|[? _]]; [left|by right]. intros x b. apply (host_not_net _ a). unfold target in Ht. by replace (bits >=? 0) with false in Ht by lia.
  - intros x b mj Hx Hj Hlj. cbn [r_addr r_instance] in *. assert (mj = mi) as -> by congruence. destruct Hor as [Hneg|(_ & Hdid & Htun & ir & Hin & Hbits)].
    + unfold target in Ht. replace (bits >=? 0) with false in Ht by lia. by rewrite (host_not_net _ a x b Ht) in Hx.
    + split; [done|]. split; [done|]. exists ir. split; [done|]. apply ip_net_equal in Hx as (Hty & Hn & _). rewrite <- Hn. unfold learned_addr in *.
      destruct (bits >=? 0) eqn:E; bool_simp; [cbn [mr_netbits]; rewrite u8_id by (unfold is_byte; lia); done|done].
  - exists o, m', mp'. split; [exact E|]. split; [exact Hc'|]. split; [exact Hr'|]. split; [exact Hle|]. split; [exact Hst|]. split; [exact Hg|].
    pose proof (core_distinct _ _ Hc') as Hd'. split; [|split; [exact Hcount|]].
    + intros c Hct. apply Hother. destruct (mroute_addr_equal c (learned_addr a bits)) eqn:Ec; [|done].
      rewrite <- Hct. symmetry. eapply mroute_addr_equal_trans; [exact Ec|by apply mroute_addr_equal_sym].
    + destruct Hwhy as [?|[Ha|(x & Hu & Hx & Hto)]]; [by left|right; left|right; right; exists x].
      * by rewrite (equal_assigned m' _ _ Hd' Ht).
      * split; [done|]. split; [|done]. eapply mroute_addr_equal_trans; [exact Hx|by apply mroute_addr_equal_sym].
Qed.

(** A newer helper: cached routes become invalid when a network's length is counted. *)
Lemma newer_helper m mp rh ir : core m mp -> routed m -> newer (route_helper m) rh [ir] -> cache_generation (route_helper m) + 1 < 4294967296 ->
  core (set_route_helper m rh) mp /\ routed (set_route_helper m rh) /\ (0 <= netbits ir \/ stale m -> stale (set_route_helper m rh)).
Proof.
  intros Hc Hr Hn Hg. pose proof (nw_gen _ _ _ Hn) as Hge. rewrite Zlen_cons, Zlen_nil in Hge. pose proof (rd_gen m Hr). split; [by split; apply Hc|]. split.
  - apply (routed_change m); [done|done|apply Hn|cbn [set_route_helper route_helper]; lia|by right|done| |].
    + intros r rt Hrt. exact (rd_net m Hr r rt Hrt).
    + exact (rd_iroutes m Hr).
  - intros Hor r rt Hrt. cbn [set_route_helper route_helper routes] in *. destruct Hor as [Hb|Hst].
    + pose proof (nw_changed _ _ _ Hn ir (proj2 (list_elem_of_singleton ir ir) eq_refl) Hb).
      destruct (rd_cache m Hr r rt Hrt) as [?|(_ & x & _ & _ & Hle & _)]; [by left|right; lia].
    + destruct (Hst r rt Hrt); [by left|right; lia].
Qed.

(** The client of the loop: live, with its networks announced. *)
Definition announcing (m : multi_context) (i : positive) (irs : list iroute) : Prop :=
  exists mi, instances m !! i = Some mi /\ halt mi = false /\ did_iroutes mi = true /\ tunnel_type mi = DEV_TYPE_TUN /\
    (forall ir, ir ∈ irs -> ir ∈ iroutes mi).

Lemma announcing_learned m m' i irs : learned m m' -> announcing m i irs -> announcing m' i irs.
Proof.
  intros Hle (mi & Hi & Hh & Hd & Ht & Hin). destruct (si_live _ _ (le_instances _ _ Hle) i mi Hi Hh) as (mi' & Hi' & [= E1 E2 E3 E4 E5]).
  exists mi'. rewrite E1, E3, E4, E5. done.
Qed.

(** [i] has all it may have. *)
Definition granted (m : multi_context) (i : positive) (a : mroute_addr) : Prop :=
  assigned m a = Some i \/ exists x, is_u32 x /\ mroute_addr_equal (ip_host x) a = true /\ routes_to m x = Some i.
Lemma granted_gains m m' i a : gains i m m' -> granted m i a -> granted m' i a.
Proof.
  intros Hg [Ha|(x & Hu & Hx & Hto)]; [left|right].
  - destruct (Hg a) as [->| ->]; done.
  - exists x. split; [done|]. split; [done|]. by eapply gains_routes_to.
Qed.

(** A server that lets [i] have [n] more routes. *)
Definition willing (m : multi_context) (i : positive) (n : Z) : Prop :=
  (forall op a, script (Some i) op a = true) /\ exists mi, instances m !! i = Some mi /\ routes_of i (routes m) + n <= max_routes_per_client mi.
Lemma willing_learned m m' i n mi : instances m !! i = Some mi -> halt mi = false -> learned m m' -> routes_of i (routes m') <= routes_of i (routes m) + 1 ->
  willing m i (n + 1) -> willing m' i n.
Proof.
  intros Hi Hh Hle Hc [Hs (mi0 & Hi0 & Hq)]. split; [done|]. assert (mi0 = mi) as -> by congruence.
  destruct (si_live _ _ (le_instances _ _ Hle) i mi Hi Hh) as (mi' & Hi' & [= E1 E2 E3 E4 E5]). exists mi'. split; [done|]. lia.
Qed.

(** An address that may be learned at all. *)
Definition acceptable (m : multi_context) (a : mroute_addr) : Prop := mroute_learnable_address a = true /\ mroute_addr_equal a (local m) = false.

Lemma not_refused m mp i mi a n : core m mp -> instances m !! i = Some mi -> willing m i (n + 1) -> 0 <= n -> acceptable m a -> ~ refused script m i mi a.
Proof.
  intros Hc Hi [Hs (mi0 & Hi0 & Hq)] Hn [Hl Hloc] [?|[?|[Hmax|(op & Hop)]]]; [congruence|congruence| |by rewrite Hs in Hop].
  assert (mi0 = mi) as -> by congruence. pose proof (io_count _ _ _ (ct_ok _ _ (co_counts _ _ Hc) i mi Hi)). lia.
Qed.

Lemma acceptable_target m a bits : bits < 32 -> acceptable m (target a bits) -> acceptable m (learned_addr a bits).
Proof.
  intros Hb [Hl Hloc]. pose proof (learned_addr_target a bits Hb) as Ht. split.
  - apply mroute_addr_equal_true in Ht as (Hty & _ & _ & Hby). unfold mroute_learnable_address in *. rewrite <- Hby.
    apply andb_true_iff in Hl as [Hl _]. rewrite Hl. unfold is_mac_mcast_maddr. rewrite <- Hty. unfold target. by destruct (bits >=? 0).
  - rewrite <- Hloc. apply mroute_addr_equal_cong. by apply mroute_addr_equal_sym.
Qed.

Record announced (m m' : multi_context) (i : positive) (irs : list iroute) : Prop := {
  an_core : exists mp, core m' mp;
  an_routed : routed m';
  an_counted : counted m';
  an_instances : same_instances (instances m) (instances m');
  an_local : local m' = local m;
  an_gains : gains i m m';
  an_others : forall c, (forall ir, ir ∈ irs -> mroute_addr_equal c (target (network ir) (netbits ir)) = false) -> assigned m' c = assigned m c;
  an_granted : willing m i (Zlen irs) -> forall ir, ir ∈ irs -> acceptable m (target (network ir) (netbits ir)) -> granted m' i (target (network ir) (netbits ir))
}.

Lemma add_iroutes_ok now irs m mp i :
  core m mp -> routed m -> announcing m i irs -> Forall iroute_ok irs ->
  (forall b, 0 <= b < 32 -> refs (route_helper m) b + net_count irs b = used (instances m) b /\ used (instances m) b < 2147483647) ->
  cache_generation (route_helper m) + Zlen irs < 4294967296 ->
  exists m', add_iroutes script junk now m i irs = Ok m' /\ announced m m' i irs.
Proof.
  revert m mp. induction irs as [|ir irs IH]; intros m mp Hc Hr Han Hok Hrefs Hgen.
  { exists m. split; [done|]. split; eauto using same_instances_refl, gains_refl.
    - intros b Hb. destruct (Hrefs b Hb) as [<- _]. change (net_count [] b) with 0. unfold refs. lia.
    - intros _ ir Hin. by apply elem_of_nil in Hin. }
  inversion Hok as [|? ? Hir Hirs]; subst. unfold iroute_ok in Hir. rewrite Zlen_cons in Hgen. pose proof (Zlen_nonneg irs).
  destruct (mroute_helper_add_ok (route_helper m) ir (rd_helper m Hr)) as (rh & Erh & Hcc); [lia| |].
  { intros Hb n Hn. destruct (Hrefs (netbits ir) ltac:(lia)) as [E Hu]. rewrite net_count_cons, decide_True in E by done.
    pose proof (net_count_nonneg irs (netbits ir)). unfold refs in E. rewrite (nth_lookup_Some _ _ _ _ Hn) in E. lia. }
  destruct (count_change_newer _ _ _ _ (rd_helper m Hr) Hcc (proj1 (rd_gen m Hr)) ltac:(lia)) as [Hnew Href].
  destruct (newer_helper m mp rh ir Hc Hr Hnew ltac:(lia)) as (Hc1 & Hr1 & Hst1). set (m1 := set_route_helper m rh) in *.
  destruct Han as (mi & Hi & Hh & Hdid & Htun & Hin).
  destruct (learn_target_ok now m1 mp i mi (network ir) (netbits ir) Hc1 Hr1 Hi Hh) as (o & m2 & mp2 & E2 & Hc2 & Hr2 & Hle2 & Hst2 & Hg2 & Ho2 & Hn2 & Hw2); [lia| |].
  { destruct (decide (0 <= netbits ir)) as [Hb|?]; [right|left; lia]. split; [apply Hst1; by left|]. split; [done|]. split; [done|]. exists ir. split; [apply Hin; by left|done]. }
  assert (announcing m2 i irs) as Han2.
  { eapply announcing_learned; [exact Hle2|]. exists mi. split_and!; try done. intros x Hx. apply Hin. by right. }
  pose proof (nw_gen _ _ _ Hnew) as Hge. rewrite Zlen_cons, Zlen_nil in Hge.
  destruct (IH m2 mp2 Hc2 Hr2 Han2 Hirs) as (m' & E' & An).
  { intros b Hb. rewrite (le_helper _ _ Hle2), (same_instances_used _ _ b (le_instances _ _ Hle2)). change (route_helper m1) with rh. change (instances m1) with (instances m).
    destruct (Hrefs b Hb) as [<- Hu]. rewrite Href, net_count_cons by done. split; [case_decide; lia|]. rewrite net_count_cons in Hu. done. }
  { rewrite (le_helper _ _ Hle2). change (route_helper m1) with rh. lia. }
  exists m'. cbn [add_iroutes]. rewrite Erh. cbn [mbind result_bind]. fold m1. rewrite E2. cbn [mbind result_bind]. split; [exact E'|].
  assert (gains i m m2) as Hgm by exact Hg2. destruct An as [A1 A2 A3 A4 A5 A6 A7 A8]. split; [exact A1|exact A2|exact A3|..].
  - eapply same_instances_trans; [exact (le_instances _ _ Hle2)|exact A4].
  - rewrite A5. exact (le_local _ _ Hle2).
  - by eapply gains_trans.
  - intros c Hcx. rewrite A7 by (intros x Hx; apply Hcx; by right). apply Ho2. apply Hcx. by left.
  - intros Hwill x [->|Hx]%elem_of_cons Hacc.
    + eapply granted_gains; [exact A6|]. destruct Hw2 as [Hrf|Hw2]; [exfalso|exact Hw2].
      rewrite Zlen_cons, Z.add_comm in Hwill. eapply (not_refused m1 mp i mi _ (Zlen irs)); [exact Hc1|exact Hi|exact Hwill|lia| |exact Hrf].
      apply acceptable_target; [lia|exact Hacc].
    + apply A8; [|done|].
      * eapply (willing_learned m1); [exact Hi|exact Hh|exact Hle2|exact Hn2|]. rewrite Zlen_cons, Z.add_comm in Hwill. exact Hwill.
      * destruct Hacc as [? Hloc]. split; [done|]. by rewrite (le_local _ _ Hle2).
Qed.

(** Announcing the networks of [i]. *)
Lemma announce_ok m mp i mi : core m mp -> routed m -> counted m -> instances m !! i = Some mi -> halt mi = false -> did_iroutes mi = false ->
  tunnel_type mi = DEV_TYPE_TUN ->
  let m1 := set_instances m (<[i := set_did_iroutes mi true]> (instances m)) in
  core m1 mp /\ routed m1 /\ announcing m1 i (iroutes mi) /\ (forall j, live m1 j = live m j) /\ (forall c, assigned m1 c = assigned m c) /\
  (forall b, 0 <= b < 32 -> used (instances m1) b = used (instances m) b + net_count (iroutes mi) b /\
    refs (route_helper m1) b + net_count (iroutes mi) b = used (instances m1) b).
Proof.
  intros Hc Hr Hco Hi Hh Hdid Htun m1. pose proof (core_distinct _ _ Hc) as Hd. pose proof (co_counts _ _ Hc) as Hct.
  assert (forall j, live m1 j = live m j) as Hl.
  { intros j. unfold live. cbn [m1 set_instances instances]. destruct (decide (j = i)) as [->|Hne]; [by rewrite lookup_insert_eq, Hi|by rewrite lookup_insert_ne]. }
  split; [split; [apply Hc|apply Hc|]|split; [|split; [|split; [exact Hl|split; [intros c; by apply assigned_owners|]]]]].
  - cbn [m1 set_instances instances routes]. split.
    + intros r rt Hrt. destruct (decide (r_instance rt = i)) as [->|Hne]; [rewrite lookup_insert_eq; eauto|].
      rewrite lookup_insert_ne by done. by apply (ct_owner _ _ Hct r).
    + intros j mj Hj. apply lookup_insert_Some in Hj as [[<- <-]|[_ Hj]]; [|by apply (ct_ok _ _ Hct)].
      destruct (ct_ok _ _ Hct i mi Hi) as [A B C D]. by split.
  - apply routed_instances; [done|done|intros; apply Hl|..].
    + intros r rt Hrt x b mj Hx Hj Hlj. cbn [set_instances instances] in Hj. apply lookup_insert_Some in Hj as [[E <-]|[_ Hj]]; [|by eapply (rd_net m Hr)].
      destruct (rd_net m Hr r rt Hrt x b mi Hx) as (Hd' & _); [by rewrite <- E|done|congruence].
    + intros j mj Hj. apply lookup_insert_Some in Hj as [[_ <-]|[_ Hj]]; [exact (rd_iroutes m Hr i mi Hi)|exact (rd_iroutes m Hr j mj Hj)].
  - exists (set_did_iroutes mi true). cbn [m1 set_instances instances]. rewrite lookup_insert_eq. done.
  - intros b Hb. assert (used (instances m1) b = used (instances m) b + net_count (iroutes mi) b) as E.
    { cbn [m1 set_instances instances]. rewrite (used_update _ _ _ _ _ Hi). unfold active_count. rewrite Hdid, andb_false_r. cbn [set_did_iroutes halt did_iroutes tunnel_type iroutes andb].
      rewrite Hh, Htun, Z.eqb_refl. cbn [negb andb]. unfold net_count. lia. }
    split; [exact E|]. rewrite E. unfold refs. cbn [m1 set_instances route_helper]. by rewrite (Hco b Hb).
Qed.

Record established (m m' : multi_context) (i : positive) (irs : list iroute) (push : option Z) : Prop := {
  es_good : good m';
  es_live : forall j, live m' j = live m j;
  es_local : local m' = local m;
  es_gains : gains i m m';
  es_others : forall c, (forall ir, ir ∈ irs -> mroute_addr_equal c (target (network ir) (netbits ir)) = false) ->
    (forall a, push = Some a -> mroute_addr_equal c (ip_host a) = false) -> assigned m' c = assigned m c;
  es_granted : willing m i (Zlen irs + 1) ->
    (forall ir, ir ∈ irs -> acceptable m (target (network ir) (netbits ir)) -> granted m' i (target (network ir) (netbits ir))) /\
    (forall a, push = Some a -> acceptable m (ip_host a) -> granted m' i (ip_host a))
}.

(** The primary address of [i], if it has one. *)
Lemma push_ok now m mp i mi push : core m mp -> routed m -> counted m -> instances m !! i = Some mi -> halt mi = false ->
  exists m' mp', match push with Some a => '(_, m) ← multi_learn_in_addr_t script junk now m i a (-1); Ok m | None => Ok m end = Ok m' /\
    core m' mp' /\ routed m' /\ counted m' /\ learned m m' /\ gains i m m' /\
    (forall c, (forall a, push = Some a -> mroute_addr_equal c (ip_host a) = false) -> assigned m' c = assigned m c) /\
    routes_of i (routes m') <= routes_of i (routes m) + 1 /\
    forall n a, 0 <= n -> willing m i (n + 1) -> push = Some a -> acceptable m (ip_host a) -> granted m' i (ip_host a).
Proof.
  intros Hc Hr Hco Hi Hh. destruct push as [a|].
  - destruct (learn_target_ok now m mp i mi a (-1) Hc Hr Hi Hh) as (o & m2 & mp2 & -> & Hc2 & Hr2 & Hle2 & _ & Hg2 & Ho2 & Hn2 & Hw2); [lia|left; lia|].
    cbn [mbind result_bind]. exists m2, mp2. change (target a (-1)) with (ip_host a) in *. split_and!; try done; [by eapply learned_counted|by intros c Hcx; apply Ho2, Hcx|].
    intros n a' Hn Hwill [= <-] Hacc. destruct Hw2 as [Hrf|Hw2]; [exfalso|exact Hw2].
    eapply (not_refused m mp i mi _ n); [exact Hc|exact Hi|exact Hwill|lia| |exact Hrf]. apply acceptable_target; [lia|exact Hacc].
  - exists m, mp. split_and!; try done; [|apply gains_refl|lia]. replace m with (set_vhash m (vhash m)) at 2 by by destruct m. apply learned_refl.
Qed.

Lemma establish_ok now m i mi push :
  good m -> instances m !! i = Some mi -> halt mi = false -> did_iroutes mi = false -> tunnel_type mi = DEV_TYPE_TUN ->
  (forall b, 0 <= b < 32 -> used (instances m) b + Zlen (iroutes mi) < 2147483647) ->
  cache_generation (route_helper m) + Zlen (iroutes mi) < 4294967296 ->
  exists m', multi_add_routes script junk now m i push = Ok m' /\ established m m' i (iroutes mi) push.
Proof.
  intros ((mp & Hc) & Hr & Hco) Hi Hh Hdid Htun Hused Hgen. unfold multi_add_routes, get_instance. rewrite Hi. cbn [from_opt mbind result_bind]. rewrite Htun, Z.eqb_refl.
  destruct (push_ok now m mp i mi push Hc Hr Hco Hi Hh) as (m1 & mp1 & -> & Hc1 & Hr1 & Hco1 & Hle1 & Hg1 & Ho1 & Hn1 & Hw1). cbn [mbind result_bind].
  destruct (si_live _ _ (le_instances _ _ Hle1) i mi Hi Hh) as (mi1 & Hi1 & [= E1 E2 E3 E4 E5]).
  destruct (announce_ok m1 mp1 i mi1 Hc1 Hr1 Hco1 Hi1) as (Hc2 & Hr2 & Han & Hl2 & Ha2 & Hu2); [congruence..|].
  unfold multi_add_iroutes, get_instance. rewrite Hi1. cbn [from_opt mbind result_bind]. rewrite E3, Htun, Z.eqb_refl. rewrite E4 in *. set (m2 := set_instances m1 _) in *.
  destruct (add_iroutes_ok now (iroutes mi) m2 mp1 i Hc2 Hr2 Han (rd_iroutes m Hr i mi Hi)) as (m' & E' & [A1 A2 A3 A4 A5 A6 A7 A8]).
  { intros b Hb. destruct (Hu2 b Hb) as [Eu Er]. split; [exact Er|]. rewrite Eu, (same_instances_used _ _ b (le_instances _ _ Hle1)).
    pose proof (net_count_le (iroutes mi) b). specialize (Hused b Hb). lia. }
  { cbn [m2 set_instances route_helper]. by rewrite (le_helper _ _ Hle1). }
  exists m'. split; [exact E'|].
  assert (local m2 = local m) as El by exact (le_local _ _ Hle1).
  assert (gains i m m2) as Hg2 by (intros c; rewrite Ha2; apply Hg1).
  split; [done|..].
  - intros j. rewrite (same_instances_live m2 m' A4), Hl2. apply (same_instances_live m m1 (le_instances _ _ Hle1)).
  - by rewrite A5.
  - by eapply gains_trans.
  - intros c Hc1' Hc2'. rewrite A7, Ha2 by done. by apply Ho1.
  - intros Hwill. split.
    + intros ir Hin [Hacc Hloc]. apply A8; [|done|split; [done|by rewrite El]]. destruct (willing_learned m m1 i (Zlen (iroutes mi)) mi Hi Hh Hle1 Hn1 Hwill) as (Hs & x & Hx & Hq).
      split; [done|]. assert (x = mi1) as -> by congruence. exists (set_did_iroutes mi1 true). cbn [m2 set_instances instances routes]. by rewrite lookup_insert_eq.
    + intros a Ea Hacc. eapply granted_gains; [exact A6|]. destruct (Hw1 (Zlen (iroutes mi)) a (Zlen_nonneg _) Hwill Ea Hacc) as [Hx|(x & Hu & Hx & Hto)]; [left; by rewrite Ha2|right].
      exists x. split; [done|]. split; [done|]. by rewrite (routes_to_ext m1 m2).
Qed.

End Establish.
