(* ===== verification/Server.v ===== *)
(** The server at work (src/multi.c): packets are routed by the longest network, a client cannot
    send from an address that is not its own, and any sequence of connections, configurations,
    packets and reaper's turns keeps the tables in order.  *)

From S2P Require Import Prelude Buffer Integer Mss HashTable Mroute Routing RoutingOk RoutingRun.

#[local] Set Default Proof Using "Type*".

(** ** What a packet says *)

Definition ip_packet (bs : list byte) : bool := (20 <=? Zlen bs) && (OPENVPN_IPH_GET_VER (byte_at bs 0) =? 4).
Definition ip_src (bs : list byte) : Z := be_dec (slice 12 4 bs).
Definition ip_dst (bs : list byte) : Z := be_dec (slice 16 4 bs).
Definition multicast (bs : list byte) : bool := is_mcast (slice 16 4 bs).

Definition eth_packet (bs : list byte) : bool := 14 <=? Zlen bs.
Definition ether (mac : list byte) : mroute_addr := MrAddr 6 MR_ADDR_ETHER 0 mac.
Definition eth_src (bs : list byte) : list byte := slice 6 6 bs.
Definition eth_dst (bs : list byte) : list byte := slice 0 6 bs.

(** The client that an IPv4 address leads to; the server's own address leads to none. *)
Definition reach (m : multi_context) (x : Z) : option positive :=
  if mroute_addr_equal (ip_host x) (local m) then None else routes_to m x.

Section Packet.
Context (junk : mroute_addr).
Hypothesis junk_size : Zlen (mr_addr junk) = 20.

Lemma set_addr_equal t bs : Zlen bs <= 20 -> mroute_addr_equal (MrAddr (Zlen bs) t 0 bs) (set_addr junk t bs) = true.
Proof.
  intros Hl. apply mroute_addr_equal_true. unfold set_addr. cbn [mr_type mr_netbits mr_len]. split_and!; [done..|].
  rewrite bytes_of_splice by (try done; lia). unfold mr_bytes, slice. cbn [mr_len mr_addr]. change (Z.to_nat 0) with 0%nat. rewrite drop_0.
  apply take_ge. unfold Zlen. lia.
Qed.

(** The address in four bytes of a packet. *)
Lemma ip_field_equal i bs : Forall is_byte bs -> 0 <= i -> i + 4 <= Zlen bs ->
  is_u32 (be_dec (slice i 4 bs)) /\ mroute_addr_equal (ip_host (be_dec (slice i 4 bs))) (set_addr junk MR_ADDR_IPV4 (slice i 4 bs)) = true.
Proof.
  intros Hby Hi Hl. pose proof (Forall_slice _ i 4 _ Hby) as Hs. pose proof (Zlen_slice i 4 bs Hi ltac:(lia) Hl) as HL. split.
  - pose proof (be_dec_bound _ Hs) as Hb. rewrite HL in Hb. unfold is_u32. lia.
  - unfold ip_host. replace 4%nat with (length (slice i 4 bs)) by (unfold Zlen in HL; lia). rewrite be_enc_dec by done.
    rewrite <- HL at 1. apply set_addr_equal. lia.
Qed.

(** mroute_extract_addr_from_packet. *)
Lemma extract_tun h p b bs : buf_rep h p b bs -> Forall is_byte bs ->
  exists fl src dest, mroute_extract_addr_from_packet (Some junk) (Some junk) b DEV_TYPE_TUN h = Ok ((fl, Some src, Some dest), h) /\
    flag fl MROUTE_EXTRACT_SUCCEEDED = ip_packet bs /\
    (ip_packet bs = true -> flag fl MROUTE_EXTRACT_BCAST = false /\ flag fl MROUTE_EXTRACT_MCAST = multicast bs /\
      mroute_addr_equal (ip_host (ip_src bs)) src = true /\ mroute_addr_equal (ip_host (ip_dst bs)) dest = true).
Proof.
  intros Hb Hby. pose proof (buf_rep_Zlen _ _ _ _ Hb) as Hl.
  cut (wp (mroute_extract_addr_from_packet (Some junk) (Some junk) b DEV_TYPE_TUN) (fun '(fl, src, dest) h' => h' = h /\ exists s d, src = Some s /\ dest = Some d /\
    flag fl MROUTE_EXTRACT_SUCCEEDED = ip_packet bs /\
    (ip_packet bs = true -> flag fl MROUTE_EXTRACT_BCAST = false /\ flag fl MROUTE_EXTRACT_MCAST = multicast bs /\
      mroute_addr_equal (ip_host (ip_src bs)) s = true /\ mroute_addr_equal (ip_host (ip_dst bs)) d = true)) h).
  { rewrite wp_Ok. intros ([[fl src] dest] & h' & E & -> & s & d & -> & -> & ?). eauto 10. }
  assert (ip_packet bs = false -> flag 0 MROUTE_EXTRACT_SUCCEEDED = ip_packet bs /\ (ip_packet bs = true -> flag 0 MROUTE_EXTRACT_BCAST = false /\ flag 0 MROUTE_EXTRACT_MCAST = multicast bs /\
      mroute_addr_equal (ip_host (ip_src bs)) junk = true /\ mroute_addr_equal (ip_host (ip_dst bs)) junk = true)) as Hno by (intros ->; done).
  unfold mroute_extract_addr_from_packet. change (DEV_TYPE_TUN =? DEV_TYPE_TUN) with true. rewrite (BPTR_rep _ _ _ _ Hb). cbv iota.
  destruct (b_len b >=? 1) eqn:E1; bool_simp.
  2:{ apply wp_ret. split; [done|]. exists junk, junk. split; [done|]. split; [done|]. apply Hno. unfold ip_packet. by replace (20 <=? Zlen bs) with false by lia. }
  wp_steps. eapply wp_load; [rewrite <- (Z.add_0_r (b_offset b)); eapply buf_rep_load; [exact Hb|lia..]|].
  rewrite slice_1 by lia. change (be_dec [byte_at bs 0]) with (0 * 256 + byte_at bs 0). rewrite Z.add_0_l.
  destruct ((OPENVPN_IPH_GET_VER (byte_at bs 0) =? 4) && (b_len b >=? sizeof_iphdr)) eqn:E2.
  2:{ apply wp_ret. split; [done|]. exists junk, junk. split; [done|]. split; [done|]. apply Hno. unfold ip_packet. rewrite andb_comm, <- E2. f_equal. unfold sizeof_iphdr. lia. }
  apply andb_true_iff in E2 as [Ev E2]. unfold sizeof_iphdr in E2. bool_simp.
  assert (forall i n, 0 <= i -> 0 <= n -> i + n <= 20 -> mload h (ptr_add (ptr_add p (b_offset b)) i) n = Some (slice i n bs)) as Hld.
  { intros i n ???. rewrite ptr_add_add. eapply buf_rep_load; [exact Hb|lia..]. }
  wp_steps. eapply wp_load; [apply Hld; unfold ip_saddr; lia|]. wp_steps. eapply wp_load; [apply Hld; unfold ip_daddr; lia|].
  wp_steps. eapply wp_load; [apply Hld; unfold ip_protocol; lia|]. wp_steps. split; [done|]. eexists _, _. split; [reflexivity|]. split; [reflexivity|].
  assert (ip_packet bs = true) as -> by (unfold ip_packet; rewrite Ev; replace (20 <=? Zlen bs) with true by lia; done).
  change (slice ip_daddr 4 bs) with (slice 16 4 bs). change (slice ip_saddr 4 bs) with (slice 12 4 bs). unfold multicast.
  split; [by destruct (is_mcast _), (_ =? OPENVPN_IPPROTO_IGMP)|]. intros _.
  split; [by destruct (is_mcast _), (_ =? OPENVPN_IPPROTO_IGMP)|]. split; [by destruct (is_mcast _), (_ =? OPENVPN_IPPROTO_IGMP)|].
  split; apply ip_field_equal; try done; lia.
Qed.

Lemma extract_tap h p b bs : buf_rep h p b bs ->
  exists fl src dest, mroute_extract_addr_from_packet (Some junk) (Some junk) b DEV_TYPE_TAP h = Ok ((fl, Some src, Some dest), h) /\
    flag fl MROUTE_EXTRACT_SUCCEEDED = eth_packet bs /\
    (eth_packet bs = true -> flag fl (Z.lor MROUTE_EXTRACT_BCAST MROUTE_EXTRACT_MCAST) = is_mac_mcast_addr (eth_dst bs) /\
      mroute_addr_equal (ether (eth_src bs)) src = true /\ mroute_addr_equal (ether (eth_dst bs)) dest = true).
Proof.
  intros Hb. pose proof (buf_rep_Zlen _ _ _ _ Hb) as Hl.
  cut (wp (mroute_extract_addr_from_packet (Some junk) (Some junk) b DEV_TYPE_TAP) (fun '(fl, src, dest) h' => h' = h /\ exists s d, src = Some s /\ dest = Some d /\
    flag fl MROUTE_EXTRACT_SUCCEEDED = eth_packet bs /\
    (eth_packet bs = true -> flag fl (Z.lor MROUTE_EXTRACT_BCAST MROUTE_EXTRACT_MCAST) = is_mac_mcast_addr (eth_dst bs) /\
      mroute_addr_equal (ether (eth_src bs)) s = true /\ mroute_addr_equal (ether (eth_dst bs)) d = true)) h).
  { rewrite wp_Ok. intros ([[fl src] dest] & h' & E & -> & s & d & -> & -> & ?). eauto 10. }
  unfold mroute_extract_addr_from_packet. change (DEV_TYPE_TAP =? DEV_TYPE_TUN) with false. change (DEV_TYPE_TAP =? DEV_TYPE_TAP) with true.
  rewrite (BPTR_rep _ _ _ _ Hb). cbv iota. unfold sizeof_ethhdr. destruct (b_len b >=? 14) eqn:E1; bool_simp.
  2:{ apply wp_ret. split; [done|]. exists junk, junk. unfold eth_packet. by replace (14 <=? Zlen bs) with false by lia. }
  assert (forall i n, 0 <= i -> 0 <= n -> i + n <= 14 -> mload h (ptr_add (ptr_add p (b_offset b)) i) n = Some (slice i n bs)) as Hld.
  { intros i n ???. rewrite ptr_add_add. eapply buf_rep_load; [exact Hb|lia..]. }
  wp_steps. eapply wp_load; [apply Hld; unfold eth_source; lia|]. wp_steps. eapply wp_load; [apply Hld; unfold eth_dest; lia|].
  wp_steps. split; [done|]. eexists _, _. split; [reflexivity|]. split; [reflexivity|].
  assert (eth_packet bs = true) as -> by (unfold eth_packet; lia). unfold eth_src, eth_dst, eth_source, eth_dest. split; [by destruct (is_mac_mcast_addr _)|]. intros _.
  split; [by destruct (is_mac_mcast_addr _)|]. unfold ether.
  pose proof (Zlen_slice 6 6 bs ltac:(lia) ltac:(lia) ltac:(lia)) as L1. pose proof (Zlen_slice 0 6 bs ltac:(lia) ltac:(lia) ltac:(lia)) as L2.
  split; [rewrite <- L1 at 1|rewrite <- L2 at 1]; apply set_addr_equal; lia.
Qed.

End Packet.

(** ** Routing a packet *)

Lemma lookup_good script now m a x : good m -> is_u32 x -> mroute_addr_equal (ip_host x) a = true ->
  exists m', multi_get_instance_by_virtual_addr script now m a true = Ok (reach m x, m') /\ good m' /\ sees_same m m'.
Proof.
  intros ((mp & Hc) & Hr & Hco) Hx Ha. destruct (lookup_ip_ok script now m mp a x Hc Hr Hco Hx Ha) as (m' & mp' & E & Hc' & Hs & Hr' & Hco').
  exists m'. split; [|split; [split; [eauto|done]|exact Hs]]. rewrite E. unfold reach. by rewrite (mroute_addr_equal_cong _ _ (local m) Ha).
Qed.

Lemma sees_same_reach m m' x : sees_same m m' -> reach m' x = reach m x.
Proof. intros [Hle Ha]. unfold reach. by rewrite (le_local _ _ Hle), (routes_to_ext m m' x Ha). Qed.

(** An address that is not IPv4 is looked up as it is. *)
Definition owner (m : multi_context) (a : mroute_addr) : option positive :=
  if mroute_addr_equal a (local m) then None else assigned m a.

Lemma lookup_exact script now m a : good m -> (forall x, mroute_addr_equal (ip_host x) a = false) ->
  exists m', multi_get_instance_by_virtual_addr script now m a false = Ok (owner m a, m') /\ good m' /\ sees_same m m'.
Proof.
  intros Hg Ha. pose proof (good_distinct m Hg) as Hd. pose proof Hg as ((mp & Hc) & Hr & Hco). unfold multi_get_instance_by_virtual_addr, owner.
  destruct (mroute_addr_equal a (local m)).
  { exists m. split; [done|]. split; [done|]. replace m with (set_vhash m (vhash m)) at 2 by by destruct m. apply sees_same_refl. }
  destruct (vlookup_ok m mp a Hc) as (h' & -> & Hc1). cbn [mbind result_bind]. set (m1 := set_vhash m h') in *.
  destruct (routed_vhash m h' Hr Hco) as [Hr1 Hco1]. change (set_vhash m h') with m1 in Hr1, Hco1.
  pose proof (core_find m mp a Hc) as Hf. assert (sees_same m m1) as Hs1 by apply sees_same_refl. assert (good m1) as Hg1 by (split; eauto).
  destruct (mp a) as [r|] eqn:Er; cbn [mbind option_bind] in Hf; cbn [mbind result_bind].
  2:{ exists m1. split; [|done]. unfold assigned. by rewrite Hf. }
  destruct (core_route _ _ _ _ Hc Er) as (rt & mi & Hrt & Hta & Hi). rewrite Hrt in Hf.
  rewrite (multi_route_defined_ok now m1 mp r rt Hc1 Hrt). cbn [mbind result_bind]. change (defined now m1 rt) with (defined now m rt).
  destruct (defined_assigned now m _ rt Hr Hd Hf) as [Hfl0 _].
  assert (r_flags rt = 0) as Hfl.
  { destruct (rd_cache m Hr r rt Hrt) as [?|(_ & y & _ & Hy & _)]; [done|]. exfalso. apply mroute_addr_equal_sym in Hta.
    pose proof (mroute_addr_equal_trans _ _ _ Hy Hta) as H. by rewrite Ha in H. }
  rewrite (Hfl0 Hfl). destruct (defined now m rt) eqn:Ed; [|exists m1; split; done].
  unfold get_route. cbn [m1 set_vhash routes]. rewrite Hrt. cbn [from_opt mbind result_bind].
  assert (live m (r_instance rt) = true) as Hlive by (unfold defined in Ed; bool_simp; done).
  destruct (touch_ok now m1 mp r rt Hc1 Hr1 Hco1 Hrt) as (Hc' & Hs & Hr' & Hco').
  rewrite (not_halted (touch_route now m1 r rt) (r_instance rt)) by exact Hlive. cbn [mbind result_bind].
  exists (touch_route now m1 r rt). split; [done|]. split; [split; eauto|]. eapply sees_same_trans; [exact Hs1|exact Hs].
Qed.

Section Route.
Context (script : option positive -> learn_operation -> mroute_addr -> bool) (junk : mroute_addr) (enable_c2c : bool).
Hypothesis junk_size : Zlen (mr_addr junk) = 20.

(** What becomes of an IPv4 packet [bs] of the client [pending]: what is left for the interface,
    and who gets it. *)
Definition link_verdict (m : multi_context) (pending : positive) (bs : list byte) (b : buffer) : buffer * list delivery :=
  if negb (ip_packet bs && bool_decide (reach m (ip_src bs) = Some pending)) then (drop_packet b, [])
  else if enable_c2c then
    if multicast bs then (b, [Bcast (Some pending)])
    else match reach m (ip_dst bs) with
         | Some j => (drop_packet b, [Unicast j])
         | None => (b, [])
         end
  else (b, []).

(** What becomes of one that comes from the interface. *)
Definition tun_verdict (m : multi_context) (bs : list byte) : list delivery :=
  if ip_packet bs then
    if multicast bs then [Bcast None] else match reach m (ip_dst bs) with Some j => [Forward j] | None => [] end
  else [].

Lemma ip_packet_len bs : ip_packet bs = true -> 20 <= Zlen bs.
Proof. unfold ip_packet. intros [? _]%andb_true_iff. lia. Qed.

Lemma deliver_some d b : 0 < b_len b -> deliver d b = [d].
Proof. unfold deliver. intros H. by replace (b_len b >? 0) with true by lia. Qed.

Lemma incoming_link_tun now m i h p b bs : good m -> buf_rep h p b bs -> Forall is_byte bs ->
  exists m', multi_process_incoming_link script junk DEV_TYPE_TUN enable_c2c now m i b h =
      Ok ((m', fst (link_verdict m i bs b), snd (link_verdict m i bs b)), h) /\ good m' /\ sees_same m m'.
Proof.
  intros Hg Hb Hby. pose proof (buf_rep_Zlen _ _ _ _ Hb) as Hl.
  destruct (extract_tun junk junk_size h p b bs Hb Hby) as (fl & src & dest & E & Hok & Hin).
  unfold multi_process_incoming_link, mbind, M_bind. rewrite E. unfold lift. cbn [from_opt]. unfold route_incoming_link. change (DEV_TYPE_TUN =? DEV_TYPE_TUN) with true. cbv iota.
  rewrite Hok. unfold link_verdict. destruct (ip_packet bs) eqn:Eip; cbn [negb andb].
  2:{ exists m. split; [done|]. split; [done|]. replace m with (set_vhash m (vhash m)) at 2 by by destruct m. apply sees_same_refl. }
  destruct (Hin eq_refl) as (Hbc & Hmc & Hsrc & Hdst). pose proof (ip_packet_len bs Eip).
  destruct (ip_field_equal junk junk_size 12 bs Hby ltac:(lia) ltac:(lia)) as [Hx _]. change (be_dec (slice 12 4 bs)) with (ip_src bs) in Hx.
  destruct (ip_field_equal junk junk_size 16 bs Hby ltac:(lia) ltac:(lia)) as [Hy _]. change (be_dec (slice 16 4 bs)) with (ip_dst bs) in Hy.
  destruct (lookup_good script now m src (ip_src bs) Hg Hx Hsrc) as (m1 & -> & Hg1 & Hs1). cbn [mbind result_bind].
  destruct (decide (reach m (ip_src bs) = Some i)) as [Ei|Ei].
  2:{ rewrite bool_decide_eq_true_2, bool_decide_eq_false_2 by done. by exists m1. }
  rewrite bool_decide_eq_false_2, bool_decide_eq_true_2 by (try done; by intros []). cbn [negb].
  destruct enable_c2c; [|by exists m1]. rewrite Hmc. destruct (multicast bs).
  { rewrite deliver_some by lia. by exists m1. }
  rewrite Hbc. cbn [negb assert_ mbind result_bind].
  destruct (lookup_good script now m1 dest (ip_dst bs) Hg1 Hy Hdst) as (m2 & -> & Hg2 & Hs2). cbn [mbind result_bind].
  rewrite (sees_same_reach m m1 _ Hs1). exists m2. split; [|split; [done|by eapply sees_same_trans]].
  destruct (reach m (ip_dst bs)); [|done]. by rewrite deliver_some by lia.
Qed.

Lemma incoming_tun_tun now m h p b bs : good m -> buf_rep h p b bs -> Forall is_byte bs ->
  exists m', multi_process_incoming_tun script junk DEV_TYPE_TUN now m b h = Ok ((m', tun_verdict m bs), h) /\ good m' /\ sees_same m m'.
Proof.
  intros Hg Hb Hby. pose proof (buf_rep_Zlen _ _ _ _ Hb) as Hl. unfold multi_process_incoming_tun, tun_verdict.
  assert (sees_same m m) as Hs0 by (replace m with (set_vhash m (vhash m)) at 2 by (by destruct m); apply sees_same_refl).
  destruct (b_len b >? 0) eqn:E0; bool_simp.
  2:{ exists m. unfold ip_packet. by replace (20 <=? Zlen bs) with false by lia. }
  destruct (extract_tun junk junk_size h p b bs Hb Hby) as (fl & src & dest & E & Hok & Hin).
  unfold mbind, M_bind. rewrite E. unfold lift. cbn [from_opt]. unfold route_incoming_tun. rewrite Hok. destruct (ip_packet bs) eqn:Eip; [|by exists m].
  destruct (Hin eq_refl) as (Hbc & Hmc & Hsrc & Hdst). pose proof (ip_packet_len bs Eip).
  assert (flag fl (Z.lor MROUTE_EXTRACT_BCAST MROUTE_EXTRACT_MCAST) = multicast bs) as ->.
  { rewrite <- Hmc. unfold flag in *. rewrite Z.land_lor_distr_r. apply negb_false_iff, Z.eqb_eq in Hbc. by rewrite Hbc, Z.lor_0_l. }
  destruct (multicast bs); [rewrite deliver_some by lia; by exists m|].
  destruct (ip_field_equal junk junk_size 16 bs Hby ltac:(lia) ltac:(lia)) as [Hy _]. change (be_dec (slice 16 4 bs)) with (ip_dst bs) in Hy.
  change (DEV_TYPE_TUN =? DEV_TYPE_TUN) with true.
  destruct (lookup_good script now m dest (ip_dst bs) Hg Hy Hdst) as (m2 & -> & Hg2 & Hs2). cbn [mbind result_bind]. exists m2.
  split; [|done]. by destruct (reach m (ip_dst bs)).
Qed.

(** In TAP mode, a client gets the address it sends from, if it may, and the packet goes where
    the addresses are afterwards. *)
Definition tap_verdict (m : multi_context) (pending : positive) (bs : list byte) (b : buffer) : buffer * list delivery :=
  if negb (eth_packet bs && bool_decide (assigned m (ether (eth_src bs)) = Some pending)) then (drop_packet b, [])
  else if enable_c2c then
    if is_mac_mcast_addr (eth_dst bs) then (b, [Bcast (Some pending)])
    else match owner m (ether (eth_dst bs)) with
         | Some j => (drop_packet b, [Unicast j])
         | None => (b, [])
         end
  else (b, []).
Definition tap_tun_verdict (m : multi_context) (bs : list byte) : list delivery :=
  if eth_packet bs then
    if is_mac_mcast_addr (eth_dst bs) then [Bcast None] else match owner m (ether (eth_dst bs)) with Some j => [Forward j] | None => [] end
  else [].

Lemma ether_not_host mac a x : mroute_addr_equal (ether mac) a = true -> mroute_addr_equal (ip_host x) a = false.
Proof.
  intros (Ht & _)%mroute_addr_equal_true. apply not_true_iff_false. intros (Ht' & _)%ip_host_equal. rewrite Ht' in Ht. done.
Qed.
Lemma ether_not_net mac a : mroute_addr_equal (ether mac) a = true -> not_net a.
Proof.
  intros (Ht & _)%mroute_addr_equal_true x b. apply not_true_iff_false. intros (Ht' & _)%ip_net_equal. rewrite Ht' in Ht. done.
Qed.

Lemma equal_owner m a a' : good m -> mroute_addr_equal a a' = true -> owner m a = owner m a'.
Proof. intros Hg Ha. unfold owner. by rewrite (mroute_addr_equal_cong _ _ _ Ha), (equal_assigned m a a' (good_distinct m Hg) Ha). Qed.

Lemma sees_same_owner m m' a : sees_same m m' -> owner m' a = owner m a.
Proof. intros [Hle Ha]. unfold owner. by rewrite (le_local _ _ Hle), Ha. Qed.

Lemma learn_ether now m i mac a : good m -> live m i = true -> mroute_addr_equal (ether mac) a = true ->
  exists o m', multi_learn_addr script now m i a 0 = Ok (o, m') /\ good m' /\ learned m m' /\ gains i m m' /\
    (forall c, mroute_addr_equal c (ether mac) = false -> assigned m' c = assigned m c) /\ (o = Some i <-> assigned m' (ether mac) = Some i).
Proof.
  intros ((mp & Hc) & Hr & Hco) (mi & Hi & Hh)%live_instance Ha.
  destruct (learn_step script now m mp i mi a Hc Hr Hi Hh) as (o & m' & mp' & E & Hc' & Hr' & Hle & _ & Hother & Hg & _ & _ & Ho).
  - left. by eapply ether_not_net.
  - intros x b mj Hx. by rewrite (ether_not_net _ _ Ha) in Hx.
  - exists o, m'. split; [done|]. split; [split; [eauto|split; [done|by eapply learned_counted]]|]. split; [done|]. split; [done|].
    split; [|rewrite (equal_assigned m' _ _ (core_distinct _ _ Hc') Ha); apply Ho; intros x; by eapply ether_not_host].
    intros c Hca. apply Hother. rewrite <- Hca. apply eq_true_iff_eq. split; intros H; (eapply mroute_addr_equal_trans; [exact H|]); [by apply mroute_addr_equal_sym|done].
Qed.

Lemma incoming_link_tap now m i h p b bs : good m -> live m i = true -> buf_rep h p b bs ->
  exists m', multi_process_incoming_link script junk DEV_TYPE_TAP enable_c2c now m i b h =
      Ok ((m', fst (tap_verdict m' i bs b), snd (tap_verdict m' i bs b)), h) /\ good m' /\ learned m m' /\ gains i m m' /\
    (forall c, mroute_addr_equal c (ether (eth_src bs)) = false -> assigned m' c = assigned m c).
Proof.
  intros Hg Hlive Hb. pose proof (buf_rep_Zlen _ _ _ _ Hb) as Hl.
  destruct (extract_tap junk junk_size h p b bs Hb) as (fl & src & dest & E & Hok & Hin).
  unfold multi_process_incoming_link, mbind, M_bind. rewrite E. unfold lift. cbn [from_opt]. unfold route_incoming_link. change (DEV_TYPE_TAP =? DEV_TYPE_TUN) with false.
  change (DEV_TYPE_TAP =? DEV_TYPE_TAP) with true. cbv iota. rewrite Hok. unfold tap_verdict. destruct (eth_packet bs) eqn:Eip; cbn [negb andb].
  2:{ exists m. split; [done|]. split; [done|]. split; [|split; [apply gains_refl|done]]. replace m with (set_vhash m (vhash m)) at 2 by by destruct m. apply learned_refl. }
  destruct (Hin eq_refl) as (Hmc & Hsrc & Hdst). assert (0 < b_len b) as Hpos by (unfold eth_packet in Eip; lia).
  destruct (learn_ether now m i _ src Hg Hlive Hsrc) as (o & m1 & -> & Hg1 & Hle1 & Hga1 & Ho1 & Hiff). cbn [mbind result_bind].
  destruct (decide (o = Some i)) as [Eo|Eo].
  2:{ exists m1. by rewrite !bool_decide_eq_false_2 by tauto. }
  rewrite (bool_decide_eq_true_2 (o = Some i)) by done. apply Hiff in Eo. cbn [negb].
  destruct enable_c2c; [|exists m1; rewrite bool_decide_eq_true_2 by done; done]. rewrite Hmc. destruct (is_mac_mcast_addr _).
  { rewrite deliver_some by done. exists m1. rewrite bool_decide_eq_true_2 by done. done. }
  destruct (lookup_exact script now m1 dest Hg1) as (m2 & -> & Hg2 & Hs2); [intros x; by eapply ether_not_host|]. cbn [mbind result_bind].
  exists m2. rewrite (sn_assigned _ _ Hs2), bool_decide_eq_true_2 by done. rewrite (sees_same_owner m1 m2 _ Hs2), (equal_owner m1 _ _ Hg1 Hdst). cbn [negb].
  split; [|split; [done|split; [exact (learned_trans _ _ _ Hle1 (sn_learned _ _ Hs2))|split]]].
  - destruct (owner m1 dest); [|done]. by rewrite deliver_some by done.
  - eapply gains_trans; [exact Hga1|]. intros c. left. apply (sn_assigned _ _ Hs2).
  - intros c Hcx. rewrite (sn_assigned _ _ Hs2). by apply Ho1.
Qed.

Lemma incoming_tun_tap now m h p b bs : good m -> buf_rep h p b bs ->
  exists m', multi_process_incoming_tun script junk DEV_TYPE_TAP now m b h = Ok ((m', tap_tun_verdict m bs), h) /\ good m' /\ sees_same m m'.
Proof.
  intros Hg Hb. pose proof (buf_rep_Zlen _ _ _ _ Hb) as Hl. unfold multi_process_incoming_tun, tap_tun_verdict.
  assert (sees_same m m) as Hs0 by (replace m with (set_vhash m (vhash m)) at 2 by (by destruct m); apply sees_same_refl).
  destruct (b_len b >? 0) eqn:E0; bool_simp.
  2:{ exists m. unfold eth_packet. by replace (14 <=? Zlen bs) with false by lia. }
  destruct (extract_tap junk junk_size h p b bs Hb) as (fl & src & dest & E & Hok & Hin).
  unfold mbind, M_bind. rewrite E. unfold lift. cbn [from_opt]. unfold route_incoming_tun. rewrite Hok. destruct (eth_packet bs) eqn:Eip; [|by exists m].
  destruct (Hin eq_refl) as (Hmc & Hsrc & Hdst). rewrite Hmc. destruct (is_mac_mcast_addr _); [rewrite deliver_some by lia; by exists m|].
  change (DEV_TYPE_TAP =? DEV_TYPE_TUN) with false.
  destruct (lookup_exact script now m dest Hg) as (m2 & -> & Hg2 & Hs2); [intros x; by eapply ether_not_host|]. cbn [mbind result_bind]. exists m2.
  split; [|done]. rewrite (equal_owner m _ _ Hg Hdst). by destruct (owner m dest).
Qed.

End Route.

(** ** The server as a state machine *)

Record server := ServerState { ctx : multi_context; reaper : multi_reap }.

(** A client connects; one of its --iroute options is read; its connection is established, with
    [push] as its address; it is closed; a second has passed; a packet comes from a client (the
    decrypted packet is [b] in the memory [h]) or from the interface. *)
Inductive event :=
| Connect
| Configure (i : positive) (network : Z) (netmask : option Z)
| Establish (now : Z) (i : positive) (push : option Z)
| Disconnect (i : positive)
| ReapTurn (now : Z)
| FromClient (now : Z) (i : positive) (h : heap) (b : buffer)
| FromInterface (now : Z) (h : heap) (b : buffer).

Section Server.
Context (script : option positive -> learn_operation -> mroute_addr -> bool) (junk : mroute_addr).
Context (dev_type : Z) (enable_c2c : bool) (max_routes : Z).

Definition with_ctx (s : server) (m : multi_context) : server := ServerState m (reaper s).

Definition step (s : server) (e : event) : result server :=
  match e with
  | Connect => '(_, m) ← multi_new_instance (ctx s) max_routes dev_type; Ok (with_ctx s m)
  | Configure i network netmask => m ← import_iroute (ctx s) i network netmask; Ok (with_ctx s m)
  | Establish now i push => m ← multi_add_routes script junk now (ctx s) i push; Ok (with_ctx s m)
  | Disconnect i => m ← multi_close_routes (ctx s) i; Ok (with_ctx s m)
  | ReapTurn now => '(m, mr) ← multi_reap_process now (ctx s) (reaper s); Ok (ServerState m mr)
  | FromClient now i h b =>
      '((m, _, _), _) ← multi_process_incoming_link script junk dev_type enable_c2c now (ctx s) i b h; Ok (with_ctx s m)
  | FromInterface now h b =>
      '((m, _), _) ← multi_process_incoming_tun script junk dev_type now (ctx s) b h; Ok (with_ctx s m)
  end.

Definition valid_packet (h : heap) (b : buffer) : Prop := exists p bs, buf_rep h p b bs /\ Forall is_byte bs.

(** A live client whose connection was not established yet. *)
Definition connecting (m : multi_context) (i : positive) (mi : multi_instance) : Prop :=
  instances m !! i = Some mi /\ halt mi = false /\ did_iroutes mi = false.

(** What the rest of the server does: it names live clients, establishes a connection once, and
    the counters for networks do not run over. *)
Definition allowed (s : server) (e : event) : Prop :=
  match e with
  | Connect | ReapTurn _ => True
  | Configure i _ _ => exists mi, connecting (ctx s) i mi
  | Establish _ i _ => exists mi, connecting (ctx s) i mi /\
      (forall b, 0 <= b < 32 -> used (instances (ctx s)) b + Zlen (iroutes mi) < 2147483647) /\
      cache_generation (route_helper (ctx s)) + Zlen (iroutes mi) < 4294967296
  | Disconnect i => exists mi, instances (ctx s) !! i = Some mi /\ halt mi = false /\
      cache_generation (route_helper (ctx s)) + Zlen (iroutes mi) < 4294967296
  | FromClient _ i h b => live (ctx s) i = true /\ valid_packet h b
  | FromInterface _ h b => valid_packet h b
  end.

Inductive reachable : server -> Prop :=
| reachable_init rnd now n tuntap_local m mr :
    0 < n <= 2 ^ 30 -> multi_init rnd now n tuntap_local = Ok (m, mr) -> reachable (ServerState m mr)
| reachable_step s e s' : reachable s -> allowed s e -> step s e = Ok s' -> reachable s'.

(** Everything is in order. *)
Definition server_ok (s : server) : Prop := good (ctx s) /\ reaper_ok (reaper s).

(** What a step does to the addresses and to the clients. *)
Definition owner_step (m : multi_context) (e : event) (m' : multi_context) : Prop :=
  match e with
  | Connect => exists i, live m i = false /\ live m' i = true /\ (forall j, j <> i -> live m' j = live m j) /\ forall a, assigned m' a = assigned m a
  | Configure _ _ _ | ReapTurn _ | FromInterface _ _ _ => (forall j, live m' j = live m j) /\ forall a, assigned m' a = assigned m a
  | Establish _ i push => (forall j, live m' j = live m j) /\
      forall a, assigned m' a = assigned m a \/
        assigned m' a = Some i /\ ((exists mi ir, instances m !! i = Some mi /\ ir ∈ iroutes mi /\ mroute_addr_equal a (target (network ir) (netbits ir)) = true) \/
                                   exists x, push = Some x /\ mroute_addr_equal a (ip_host x) = true)
  | Disconnect i => live m' i = false /\ (forall j, j <> i -> live m' j = live m j) /\
      forall a, assigned m' a = if decide (assigned m a = Some i) then None else assigned m a
  | FromClient _ i _ _ => (forall j, live m' j = live m j) /\
      forall a, assigned m' a = assigned m a \/
        dev_type = DEV_TYPE_TAP /\ assigned m' a = Some i /\ exists mac, mroute_addr_equal a (ether mac) = true
  end.

Hypothesis junk_size : Zlen (mr_addr junk) = 20.
Hypothesis quota : 0 <= max_routes < 2147483646.

Lemma multi_init_ok rnd now n tuntap_local : 0 < n <= 2 ^ 30 ->
  exists m mr, multi_init rnd now n tuntap_local = Ok (m, mr) /\ server_ok (ServerState m mr).
Proof.
  intros Hn. unfold multi_init. destruct (hash_init_rep (V := positive) mroute_addr_hash_function mroute_addr_compare_function rnd n Hn) as (h & -> & Hrep).
  cbn [mbind result_bind]. eexists _, _. split; [reflexivity|]. split; cbn [ctx reaper].
  - split; [exists (fun _ => None); split; cbn [vhash routes instances]; [done| |]|split].
    + intros a r. split; [done|]. intros (rt & Hr & _). by rewrite lookup_empty in Hr.
    + split; [intros r rt Hr; by rewrite lookup_empty in Hr|intros i mi Hi; by rewrite lookup_empty in Hi].
    + split; cbn [vhash routes instances route_helper]; [intros r rt Hr; by rewrite lookup_empty in Hr|intros r rt Hr; by rewrite lookup_empty in Hr|cbn; lia|apply mroute_helper_init_ok|].
      intros i mi Hi; by rewrite lookup_empty in Hi.
    + intros b Hb. cbn [route_helper instances mroute_helper_init net_len_refcount]. rewrite nth_lookup, lookup_replicate_2 by lia. done.
  - unfold reaper_ok, multi_reap_new, reap_buckets_per_pass. cbn [bucket_base buckets_per_pass]. rewrite constrain_int_spec by lia. lia.
Qed.

Lemma learned_live m m' j : learned m m' -> live m' j = live m j.
Proof. intros Hle. apply (same_instances_live m m' (le_instances _ _ Hle)). Qed.

Lemma from_client_ok now m i h b : good m -> live m i = true -> valid_packet h b ->
  exists m' b' ds, multi_process_incoming_link script junk dev_type enable_c2c now m i b h = Ok ((m', b', ds), h) /\ good m' /\
    owner_step m (FromClient now i h b) m'.
Proof.
  intros Hg Hl (p & bs & Hb & Hby). unfold owner_step.
  destruct (decide (dev_type = DEV_TYPE_TUN)) as [->|Htun]; [|destruct (decide (dev_type = DEV_TYPE_TAP)) as [->|Htap]].
  - destruct (incoming_link_tun script junk enable_c2c junk_size now m i h p b bs Hg Hb Hby) as (m' & E & Hg' & Hs). exists m'. eexists _, _.
    split; [exact E|]. split; [done|]. split; [intros j; apply learned_live, Hs|]. intros a. left. apply (sn_assigned _ _ Hs).
  - destruct (incoming_link_tap script junk enable_c2c junk_size now m i h p b bs Hg Hl Hb) as (m' & E & Hg' & Hle & Hga & Ho). exists m'. eexists _, _.
    split; [exact E|]. split; [done|]. split; [intros j; by apply learned_live|]. intros a.
    destruct (mroute_addr_equal a (ether (eth_src bs))) eqn:Ea; [|left; by apply Ho]. destruct (Hga a); [by left|right]. eauto.
  - unfold multi_process_incoming_link, mroute_extract_addr_from_packet, route_incoming_link.
    apply Z.eqb_neq in Htun, Htap. rewrite Htun, Htap. exists m, b, []. split; [done|]. split; [done|]. split; [done|]. intros a. by left.
Qed.

Lemma from_interface_ok now m h b : good m -> valid_packet h b ->
  exists m' ds, multi_process_incoming_tun script junk dev_type now m b h = Ok ((m', ds), h) /\ good m' /\
    owner_step m (FromInterface now h b) m'.
Proof.
  intros Hg (p & bs & Hb & Hby). unfold owner_step.
  destruct (decide (dev_type = DEV_TYPE_TUN)) as [->|Htun]; [|destruct (decide (dev_type = DEV_TYPE_TAP)) as [->|Htap]].
  - destruct (incoming_tun_tun script junk junk_size now m h p b bs Hg Hb Hby) as (m' & E & Hg' & Hs). exists m'. eexists. split; [exact E|].
    split; [done|]. split; [intros j; apply learned_live, Hs|]. apply (sn_assigned _ _ Hs).
  - destruct (incoming_tun_tap script junk junk_size now m h p b bs Hg Hb) as (m' & E & Hg' & Hs). exists m'. eexists. split; [exact E|].
    split; [done|]. split; [intros j; apply learned_live, Hs|]. apply (sn_assigned _ _ Hs).
  - unfold multi_process_incoming_tun, mroute_extract_addr_from_packet, route_incoming_tun.
    apply Z.eqb_neq in Htun, Htap. rewrite Htun, Htap. exists m, []. split; [by destruct (b_len b >? 0)|]. done.
Qed.

Lemma step_ok s e : server_ok s -> allowed s e -> exists s', step s e = Ok s' /\ server_ok s' /\ owner_step (ctx s) e (ctx s').
Proof.
  intros [Hg Hm] Ha. destruct e as [|i network netmask|now i push|i|now|now i h b|now h b]; cbn [step allowed owner_step] in *.
  - destruct (new_instance_ok (ctx s) max_routes dev_type Hg quota) as (i & m' & -> & Hg' & Hl & Hl' & Hother & _ & _ & _ & Has). cbn [mbind result_bind].
    eexists. split; [reflexivity|]. split; [done|]. exists i. split_and!; try done. intros j Hj. unfold live. cbn [with_ctx ctx]. by rewrite Hother.
  - destruct Ha as (mi & Hi & Hh & Hd). destruct (import_iroute_ok (ctx s) i mi network netmask Hg Hi Hd) as (m' & -> & Hg' & _ & _ & Hl & Has).
    cbn [mbind result_bind]. eexists. split; [reflexivity|]. done.
  - destruct Ha as (mi & (Hi & Hh & Hd) & Hu & Hgen). destruct (decide (tunnel_type mi = DEV_TYPE_TUN)) as [Ht|Ht].
    + destruct (establish_ok script junk junk_size now (ctx s) i mi push Hg Hi Hh Hd Ht Hu Hgen) as (m' & -> & [E1 E2 E3 E4 E5 E6]).
      cbn [mbind result_bind]. eexists. split; [reflexivity|]. split; [done|]. split; [done|]. intros a. cbn [with_ctx ctx].
      destruct (E4 a) as [?|Hai]; [by left|].
      destruct (decide (Exists (fun ir => mroute_addr_equal a (target (network ir) (netbits ir)) = true) (iroutes mi))) as [Hex|Hex].
      { right. split; [done|]. apply Exists_exists in Hex as (ir & Hin & He). rewrite <- list_elem_of_In in Hin. left. by exists mi, ir. }
      destruct (decide (from_option (fun x => mroute_addr_equal a (ip_host x)) false push = true)) as [Hp|Hp].
      { right. split; [done|]. right. destruct push as [x|]; [|done]. by exists x. }
      left. apply E5.
      * intros ir Hin. apply not_true_iff_false. intros He. apply Hex, Exists_exists. exists ir. by rewrite <- list_elem_of_In.
      * intros x ->. cbn [from_option] in Hp. by apply not_true_iff_false.
    + unfold multi_add_routes, get_instance. rewrite Hi. cbn [from_opt mbind result_bind]. apply Z.eqb_neq in Ht. rewrite Ht.
      eexists. split; [reflexivity|]. split; [done|]. split; [done|]. intros a. by left.
  - destruct Ha as (mi & Hi & Hh & Hgen). destruct (close_ok (ctx s) i mi Hg Hi Hh Hgen) as (m' & -> & Hg' & _ & _ & Hl & Hother & Has).
    cbn [mbind result_bind]. eexists. split; [reflexivity|]. split; [done|]. split; [done|]. split; [|done]. intros j Hj. unfold live. cbn [with_ctx ctx]. by rewrite Hother.
  - destruct (reap_process_ok now (ctx s) (reaper s) Hg Hm) as (m' & mr' & -> & Hg' & Hm' & Hle & Has). cbn [mbind result_bind].
    eexists. split; [reflexivity|]. split; [done|]. split; [intros j; by apply learned_live|done].
  - destruct Ha as [Hl Hv]. destruct (from_client_ok now (ctx s) i h b Hg Hl Hv) as (m' & b' & ds & -> & Hg' & Ho). cbn [mbind result_bind]. eexists. split; [reflexivity|]. done.
  - destruct (from_interface_ok now (ctx s) h b Hg Ha) as (m' & ds & -> & Hg' & Ho). cbn [mbind result_bind]. eexists. split; [reflexivity|]. done.
Qed.

Lemma reachable_ok s : reachable s -> server_ok s.
Proof.
  induction 1 as [rnd now n tuntap_local m mr Hn E|s e s' _ IH Ha E].
  - destruct (multi_init_ok rnd now n tuntap_local Hn) as (m' & mr' & E' & Hok). rewrite E in E'. by injection E' as <- <-.
  - destruct (step_ok s e IH Ha) as (s'' & E' & Hok & _). rewrite E in E'. by injection E' as <-.
Qed.

(** ** What holds in every reachable state *)

(** C9: in every reachable state, every step the server may take returns (no ASSERT fails and nothing
    that was freed is used), leads to a reachable state, and does to the clients and to the
    addresses assigned to them what [owner_step] says: in particular neither packets in TUN
    mode nor the reaper nor another client's end takes an address away or gives one. *)
Theorem server_refines_ownership s e :
  reachable s -> allowed s e -> exists s', step s e = Ok s' /\ reachable s' /\ owner_step (ctx s) e (ctx s').
Proof.
  intros Hr Ha. destruct (step_ok s e (reachable_ok s Hr) Ha) as (s' & E & _ & Ho). exists s'.
  split; [done|]. split; [by eapply reachable_step|done].
Qed.

(** C12: in every reachable state the routes of the table are those of the store, one per address;
    a client's counts are exactly the number of its routes and of the references to it, and
    within its quota; every route's client exists; and the helper lists exactly the lengths,
    the longest first, that the connected clients' networks have, with their numbers. *)
Theorem server_counts_exact s : reachable s ->
  (forall a, exists o h', vlookup (vhash (ctx s)) a = Ok (o, h') /\
    forall r, o = Some r <-> exists rt, routes (ctx s) !! r = Some rt /\ mroute_addr_equal a (r_addr rt) = true) /\
  (forall r rt, routes (ctx s) !! r = Some rt -> is_Some (instances (ctx s) !! r_instance rt)) /\
  (forall i mi, instances (ctx s) !! i = Some mi ->
    route_count mi = routes_of i (routes (ctx s)) /\ refcount mi = routes_of i (routes (ctx s)) + (if halt mi then 0 else 1) /\
    0 < refcount mi /\ route_count mi <= max_routes_per_client mi) /\
  (forall b, 0 <= b < 32 -> refs (route_helper (ctx s)) b = used (instances (ctx s)) b) /\
  take (Z.to_nat (n_net_len (route_helper (ctx s)))) (net_len (route_helper (ctx s))) = lengths_in_use (net_len_refcount (route_helper (ctx s))).
Proof.
  intros Hr. destruct (reachable_ok s Hr) as [((mp & Hc) & Hro & Hco) _]. split; [|split; [|split; [|split]]].
  - intros a. destruct (vlookup_ok _ _ a Hc) as (h' & -> & _). exists (mp a), h'. split; [done|]. apply (co_table _ _ Hc).
  - apply (ct_owner _ _ (co_counts _ _ Hc)).
  - intros i mi Hi. destruct (ct_ok _ _ (co_counts _ _ Hc) i mi Hi) as [A B C D]. split_and!; [done|done|done|lia].
  - exact Hco.
  - apply (helper_lengths _ (rd_helper _ Hro)).
Qed.

Lemma reach_live m x j : distinct (routes m) -> reach m x = Some j -> live m j = true.
Proof.
  intros Hd. unfold reach, routes_to. destruct (mroute_addr_equal _ _); [done|]. destruct (assigned m (ip_host x)) as [k|] eqn:E.
  - intros [= <-]. apply assigned_Some in E as (? & ? & _ & _ & _ & Hl & _); done.
  - by apply first_network_live.
Qed.
Lemma owner_live m a j : distinct (routes m) -> owner m a = Some j -> live m j = true.
Proof.
  intros Hd. unfold owner. destruct (mroute_addr_equal _ _); [done|]. intros E. apply assigned_Some in E as (? & ? & _ & _ & _ & Hl & _); done.
Qed.

(** C10: an IPv4 packet goes where the addresses say, whatever host routes are cached: the client that has
    its destination's address, or else the longest network with it, and that client is
    connected; one from a client is dropped unless its source leads to that client, and goes to
    other clients directly only with --client-to-client.  Routing it changes no client's
    addresses. *)
Theorem packets_follow_longest_network s now h p b bs : dev_type = DEV_TYPE_TUN ->
  reachable s -> buf_rep h p b bs -> Forall is_byte bs ->
  (forall i, live (ctx s) i = true -> exists m', multi_process_incoming_link script junk dev_type enable_c2c now (ctx s) i b h =
      Ok ((m', fst (link_verdict enable_c2c (ctx s) i bs b), snd (link_verdict enable_c2c (ctx s) i bs b)), h) /\
      forall x, reach m' x = reach (ctx s) x) /\
  (exists m', multi_process_incoming_tun script junk dev_type now (ctx s) b h = Ok ((m', tun_verdict (ctx s) bs), h) /\
      forall x, reach m' x = reach (ctx s) x) /\
  (forall x j, reach (ctx s) x = Some j -> live (ctx s) j = true).
Proof.
  intros -> Hr Hb Hby. destruct (reachable_ok s Hr) as [Hg _]. split; [|split].
  - intros i _. destruct (incoming_link_tun script junk enable_c2c junk_size now (ctx s) i h p b bs Hg Hb Hby) as (m' & E & _ & Hs).
    exists m'. split; [exact E|]. intros x. by apply sees_same_reach.
  - destruct (incoming_tun_tun script junk junk_size now (ctx s) h p b bs Hg Hb Hby) as (m' & E & _ & Hs).
    exists m'. split; [exact E|]. intros x. by apply sees_same_reach.
  - intros x j. apply reach_live. by apply good_distinct.
Qed.

(** C11: a client cannot send from an address that is not its own.  If anything is left of its
    packet, for the interface or for other clients, then the packet has a source address, and that
    address leads to the client: in TUN mode before the packet came, in TAP mode afterwards. *)
Theorem no_source_spoofing s now i h p b bs m' b' ds : dev_type = DEV_TYPE_TUN \/ dev_type = DEV_TYPE_TAP ->
  reachable s -> live (ctx s) i = true -> buf_rep h p b bs -> Forall is_byte bs ->
  multi_process_incoming_link script junk dev_type enable_c2c now (ctx s) i b h = Ok ((m', b', ds), h) -> 0 < b_len b' \/ ds <> [] ->
  if dev_type =? DEV_TYPE_TUN then ip_packet bs = true /\ reach (ctx s) (ip_src bs) = Some i
  else eth_packet bs = true /\ assigned m' (ether (eth_src bs)) = Some i.
Proof.
  intros Hdev Hr Hl Hb Hby E Hleft. destruct (reachable_ok s Hr) as [Hg _]. destruct Hdev as [->| ->].
  - destruct (incoming_link_tun script junk enable_c2c junk_size now (ctx s) i h p b bs Hg Hb Hby) as (m2 & E2 & _). rewrite E in E2. injection E2 as _ -> ->.
    change (DEV_TYPE_TUN =? DEV_TYPE_TUN) with true. cbv iota. unfold link_verdict in Hleft.
    destruct (ip_packet bs && bool_decide (reach (ctx s) (ip_src bs) = Some i)) eqn:Ev; cbn in Hleft; [|by destruct Hleft].
    apply andb_true_iff in Ev as [? Ev%bool_decide_eq_true]. done.
  - destruct (incoming_link_tap script junk enable_c2c junk_size now (ctx s) i h p b bs Hg Hl Hb) as (m2 & E2 & _). rewrite E in E2. injection E2 as -> -> ->.
    change (DEV_TYPE_TAP =? DEV_TYPE_TUN) with false. cbv iota. unfold tap_verdict in Hleft.
    destruct (eth_packet bs && bool_decide (assigned m2 (ether (eth_src bs)) = Some i)) eqn:Ev; cbn in Hleft; [|by destruct Hleft].
    apply andb_true_iff in Ev as [? Ev%bool_decide_eq_true]. done.
Qed.

(** C13: when a client's connection is established, the client gets its address and its networks: packets to
    the address and to its host routes reach it, and each of its networks is assigned to it,
    if the learn-address script agrees, its quota has room, and the addresses may be learned (they are
    not all zeros or all ones, and not the server's own). *)
Theorem established_client_is_reached s now i mi push : tunnel_type mi = DEV_TYPE_TUN ->
  reachable s -> allowed s (Establish now i push) -> connecting (ctx s) i mi -> willing script (ctx s) i (Zlen (iroutes mi) + 1) ->
  exists s', step s (Establish now i push) = Ok s' /\
    (forall x, push = Some x -> is_u32 x -> acceptable (ctx s) (ip_host x) -> reach (ctx s') x = Some i) /\
    (forall ir, ir ∈ iroutes mi -> acceptable (ctx s) (target (network ir) (netbits ir)) ->
      if netbits ir >=? 0 then forall x, Z.land x (netbits_to_netmask (netbits ir)) = network ir -> assigned (ctx s') (ip_net x (netbits ir)) = Some i
      else is_u32 (network ir) -> reach (ctx s') (network ir) = Some i).
Proof.
  intros Ht Hr (mi0 & (Hi0 & _) & Hu & Hgen) (Hi & Hh & Hd) Hw. assert (mi0 = mi) as -> by congruence. destruct (reachable_ok s Hr) as [Hg _]. cbn [step].
  destruct (establish_ok script junk junk_size now (ctx s) i mi push Hg Hi Hh Hd Ht Hu Hgen) as (m' & -> & [E1 E2 E3 E4 E5 E6]).
  cbn [mbind result_bind]. eexists. split; [reflexivity|]. cbn [with_ctx ctx]. destruct (E6 Hw) as [Hnets Hpush].
  assert (forall x, is_u32 x -> acceptable (ctx s) (ip_host x) -> granted m' i (ip_host x) -> reach m' x = Some i) as Hhost.
  { intros x Hx [_ Hloc] Hgr. unfold reach. rewrite E3, Hloc. destruct Hgr as [Ha|(y & Hy & Hyx & Hto)]; [unfold routes_to; by rewrite Ha|].
    by rewrite <- (ip_host_inj y x Hy Hx Hyx). }
  split.
  - intros x Ex Hx Hacc. apply Hhost; [done|done|by apply Hpush].
  - intros ir Hin Hacc. specialize (Hnets ir Hin Hacc). unfold target in *. destruct (netbits ir >=? 0) eqn:Eb.
    + intros x Hx. unfold ip_net. rewrite Hx. destruct Hnets as [Ha|(y & _ & Hyx & _)]; [exact Ha|].
      apply ip_host_equal in Hyx as (Hty & _). done.
    + intros Hx. by apply Hhost.
Qed.

(** C14: once a client's connection is closed nothing is routed to it, and no other client loses an address. *)
Theorem closed_client_gets_nothing s i : reachable s -> allowed s (Disconnect i) ->
  exists s', step s (Disconnect i) = Ok s' /\ (forall x, reach (ctx s') x <> Some i) /\ (forall a, owner (ctx s') a <> Some i) /\
    forall a j, j <> i -> assigned (ctx s) a = Some j -> assigned (ctx s') a = Some j.
Proof.
  intros Hr Ha. destruct (step_ok s _ (reachable_ok s Hr) Ha) as (s' & E & [Hg _] & Hdead & _ & Hass). pose proof (good_distinct _ Hg) as Hd.
  exists s'. split; [done|]. split; [|split].
  - intros x Hx%reach_live; [congruence|done].
  - intros a Hx%owner_live; [congruence|done].
  - intros a j Hj Haj. rewrite Hass, decide_False by congruence. done.
Qed.

End Server.

(** ** Witnesses: a server with one client, 10.8.0.6, that has the network 192.168.0.0/16 *)

Definition demo_script : option positive -> learn_operation -> mroute_addr -> bool := fun _ _ _ => true.
Definition demo_junk : mroute_addr := MrAddr 7 99 3 (replicate 20 170).
Definition demo_client : Z := 168296454. (* 10.8.0.6 *)
Definition demo_net : Z := 3232235520. (* 192.168.0.0 *)

(** An IPv4 packet from 192.168.0.5 to 10.8.0.6. *)
Definition demo_packet : list byte := [69; 0; 0; 20; 0; 0; 0; 0; 64; 17; 0; 0; 192; 168; 0; 5; 10; 8; 0; 6].
Definition demo_heap : heap := {[1%positive := demo_packet]}.
Definition demo_buf : buffer := Buf 20 0 20 (Some (Ptr 1 0)).

Abbreviation demo_step := (step demo_script demo_junk DEV_TYPE_TUN true 100).
Abbreviation demo_reachable := (reachable demo_script demo_junk DEV_TYPE_TUN true 100).

Definition or_empty (r : result server) : server :=
  match r with Ok s => s | _ => ServerState (Mc ∅ ∅ (Hash 0 0 0 0 [] ∅) (mroute_helper_init 0) mroute_addr_init) (Reap 0 0 0) end.
Definition demo_start : server := match multi_init 5 1000 4 168296449 with Ok (m, mr) => ServerState m mr | _ => or_empty Fault end.
Definition demo_connected : server := or_empty (demo_step demo_start Connect).
Definition demo_configured : server := or_empty (demo_step demo_connected (Configure 1 demo_net (Some 4294901760))).
Definition demo_established : server := or_empty (demo_step demo_configured (Establish 1000 1 (Some demo_client))).

Definition demo_instance (s : server) : multi_instance := default (Mi true 0 0 0 0 [] true) (instances (ctx s) !! 1%positive).

Lemma demo_step_reachable s e : demo_reachable s -> allowed s e -> demo_step s e = Ok (or_empty (demo_step s e)) -> demo_reachable (or_empty (demo_step s e)).
Proof. intros. by eapply reachable_step. Qed.

Lemma demo_connected_reachable : demo_reachable demo_connected.
Proof.
  apply demo_step_reachable; [|done|by vm_compute]. unfold demo_start.
  destruct (multi_init 5 1000 4 168296449) as [[m mr]| |] eqn:E; [|by vm_compute in E..]. by eapply reachable_init; [|exact E].
Qed.

Lemma demo_configured_reachable : demo_reachable demo_configured.
Proof.
  apply demo_step_reachable; [apply demo_connected_reachable| |by vm_compute].
  exists (demo_instance demo_connected). split_and!; by vm_compute.
Qed.

Lemma demo_establish_allowed : allowed demo_configured (Establish 1000 1 (Some demo_client)).
Proof.
  exists (demo_instance demo_configured). split; [split_and!; by vm_compute|]. split; [|by vm_compute].
  assert (Forall (fun b => used (instances (ctx demo_configured)) b + Zlen (iroutes (demo_instance demo_configured)) < 2147483647) (seqZ 0 32)) as H.
  { by vm_compute; repeat constructor. }
  intros b Hb. rewrite Forall_forall in H. apply H. rewrite <- list_elem_of_In, elem_of_seqZ. lia.
Qed.

Lemma demo_established_reachable : demo_reachable demo_established.
Proof. apply demo_step_reachable; [apply demo_configured_reachable|apply demo_establish_allowed|by vm_compute]. Qed.

Lemma demo_packet_valid : buf_rep demo_heap (Ptr 1 0) demo_buf demo_packet /\ Forall is_byte demo_packet.
Proof.
  split; [split; [done|by eexists|done|done|cbn; unfold BUF_MAX; lia|done]|]. unfold demo_packet. repeat (constructor; [unfold is_byte; lia|]). constructor.
Qed.

Lemma demo_quota : 0 <= 100 < 2147483646.
Proof. lia. Qed.

Lemma server_refines_ownership_witness : demo_reachable demo_configured /\ allowed demo_configured (Establish 1000 1 (Some demo_client)) /\
  exists s', demo_step demo_configured (Establish 1000 1 (Some demo_client)) = Ok s' /\ demo_reachable s' /\
    owner_step DEV_TYPE_TUN (ctx demo_configured) (Establish 1000 1 (Some demo_client)) (ctx s').
Proof.
  split; [exact demo_configured_reachable|]. split; [exact demo_establish_allowed|].
  exact (server_refines_ownership demo_script demo_junk DEV_TYPE_TUN true 100 eq_refl demo_quota demo_configured (Establish 1000 1 (Some demo_client))
    demo_configured_reachable demo_establish_allowed).
Defined.

(** The client has three routes: its address, its network, and a host route cached on a lookup. *)
Definition demo_used : server :=
  or_empty (demo_step demo_established (FromClient 1001 1 demo_heap demo_buf)).

Lemma demo_from_client_allowed : allowed demo_established (FromClient 1001 1 demo_heap demo_buf).
Proof. split; [by vm_compute|]. exists (Ptr 1 0), demo_packet. exact demo_packet_valid. Qed.
Lemma demo_used_reachable : demo_reachable demo_used.
Proof. apply demo_step_reachable; [apply demo_established_reachable|apply demo_from_client_allowed|by vm_compute]. Qed.

Lemma server_counts_exact_witness :
  route_count (demo_instance demo_used) = 3 /\ refcount (demo_instance demo_used) = 4 /\
  forall r rt, routes (ctx demo_used) !! r = Some rt -> is_Some (instances (ctx demo_used) !! r_instance rt).
Proof.
  split; [by vm_compute|]. split; [by vm_compute|].
  exact (proj1 (proj2 (server_counts_exact demo_script demo_junk DEV_TYPE_TUN true 100 eq_refl demo_quota demo_used demo_used_reachable))).
Defined.

(** The packet from the client's network to the client's address is sent back to it; one for the
    network that comes from the interface, too. *)
Lemma packets_follow_longest_network_witness :
  link_verdict true (ctx demo_used) 1 demo_packet demo_buf = (drop_packet demo_buf, [Unicast 1]) /\
  reach (ctx demo_used) 3232235777 = Some 1%positive /\
  exists m', multi_process_incoming_tun demo_script demo_junk DEV_TYPE_TUN 1002 (ctx demo_used) demo_buf demo_heap =
    Ok ((m', [Forward 1]), demo_heap) /\ forall x, reach m' x = reach (ctx demo_used) x.
Proof.
  pose proof (packets_follow_longest_network demo_script demo_junk DEV_TYPE_TUN true 100 eq_refl demo_quota demo_used 1002 demo_heap (Ptr 1 0) demo_buf demo_packet
    eq_refl demo_used_reachable (proj1 demo_packet_valid) (proj2 demo_packet_valid)) as H. destruct H as (_ & H & _).
  split; [by vm_compute|]. split; [by vm_compute|].
  assert (tun_verdict (ctx demo_used) demo_packet = [Forward 1]) as E by (by vm_compute). rewrite E in H. exact H.
Defined.

Lemma no_source_spoofing_witness :
  exists m', multi_process_incoming_link demo_script demo_junk DEV_TYPE_TUN true 1002 (ctx demo_used) 1 demo_buf demo_heap =
    Ok ((m', drop_packet demo_buf, [Unicast 1]), demo_heap) /\ reach (ctx demo_used) (ip_src demo_packet) = Some 1%positive.
Proof.
  destruct (multi_process_incoming_link demo_script demo_junk DEV_TYPE_TUN true 1002 (ctx demo_used) 1 demo_buf demo_heap) as [[[[m' b'] ds] h']| |] eqn:E;
    [|by vm_compute in E..].
  assert (b' = drop_packet demo_buf /\ ds = [Unicast 1] /\ h' = demo_heap) as (-> & -> & ->) by (vm_compute in E; injection E as _ <- <- <-; done).
  assert (live (ctx demo_used) 1 = true) as Hl by (by vm_compute). assert (0 < b_len (drop_packet demo_buf) \/ [Unicast 1] <> []) as Hleft by (by right).
  pose proof (no_source_spoofing demo_script demo_junk DEV_TYPE_TUN true 100 eq_refl demo_quota demo_used 1002 1 demo_heap (Ptr 1 0) demo_buf demo_packet
    m' (drop_packet demo_buf) [Unicast 1] (or_introl eq_refl) demo_used_reachable Hl (proj1 demo_packet_valid) (proj2 demo_packet_valid) E Hleft) as H.
  change (DEV_TYPE_TUN =? DEV_TYPE_TUN) with true in H. exists m'. split; [done|]. exact (proj2 H).
Defined.

Lemma established_client_is_reached_witness :
  exists s', demo_step demo_configured (Establish 1000 1 (Some demo_client)) = Ok s' /\ reach (ctx s') demo_client = Some 1%positive /\
    assigned (ctx s') (ip_net 3232235777 16) = Some 1%positive.
Proof.
  destruct (established_client_is_reached demo_script demo_junk DEV_TYPE_TUN true 100 eq_refl demo_quota demo_configured 1000 1 (demo_instance demo_configured) (Some demo_client)
    eq_refl demo_configured_reachable demo_establish_allowed) as (s' & E & Hp & Hn).
  - split_and!; by vm_compute.
  - split; [done|]. exists (demo_instance demo_configured). split; by vm_compute.
  - exists s'. split; [done|]. split.
    + apply (Hp demo_client eq_refl); [unfold is_u32, demo_client; lia|split; by vm_compute].
    + apply (Hn (Iroute demo_net 16)); [by left|split; by vm_compute|by vm_compute].
Defined.

Lemma closed_client_gets_nothing_witness : reach (ctx demo_used) demo_client = Some 1%positive /\
  exists s', demo_step demo_used (Disconnect 1) = Ok s' /\ reach (ctx s') demo_client <> Some 1%positive.
Proof.
  split; [by vm_compute|].
  destruct (closed_client_gets_nothing demo_script demo_junk DEV_TYPE_TUN true 100 eq_refl demo_quota demo_used 1 demo_used_reachable) as (s' & E & Hx & _).
  - exists (demo_instance demo_used). split_and!; by vm_compute.
  - exists s'. split; [done|apply Hx].
Defined.

(** A network of length 0 is counted but cannot be learned. *)
Lemma default_network_not_learned : option_iroute [] 0 (Some 0) = [Iroute 0 0] /\ mroute_learnable_address (target 0 0) = false.
Proof. by vm_compute. Qed.
