(* ===== verification/OptionLine.v ===== *)
(** Lines of options (src/options.c): parse_line, which splits a line of a configuration file or
    a pushed option into its parameters, and the loops that hand them to add_option.

    A string is the list of its bytes without the NUL.  [fatal] says that msglevel ends the process, as
    it does for configuration files; a message that does not is left out.  add_option, which
    interprets an option, is a parameter, and so is the state it works on. *)

From S2P Require Import Prelude Buffer Integer Text Pool.

(** ** parse_line *)

Definition OPTION_PARM_SIZE : Z := 256.
Definition OPTION_LINE_SIZE : Z := 256.
Definition MAX_PARMS : Z := 16.

Definition DQUOTE : byte := 34.
Definition BACKSLASH : byte := 92.
Definition SEMICOLON : byte := 59.
Definition HASH : byte := 35.

Definition space (c : byte) : bool := (c =? 0) || isspace c.

Inductive parse_state := STATE_INITIAL | STATE_READING_QUOTED_PARM | STATE_READING_UNQUOTED_PARM | STATE_DONE.
#[export] Instance parse_state_eq_dec : EqDecision parse_state.
Proof. solve_decision. Defined.

(** The local variables: the parameters so far, and the one that is being read. *)
Record parse := Parse {
  ps_p : list cstr;
  ps_state : parse_state;
  ps_backslash : bool;
  ps_parm : cstr
}.
Definition parse_init : parse := Parse [] STATE_INITIAL false [].

(** After a character: go on, leave the loop, or return 0. *)
Inductive parse_next := Next (s : parse) | Leave (s : parse) | Return0.

Definition msg_error {A} (fatal : bool) (a : A) : result A := if fatal then AssertFail else Ok a.

(** The next state and the character to store, 0 for none; None at a comment. *)
Definition parse_transition (st : parse_state) (backslash : bool) (c : byte) : option (parse_state * byte) :=
  match st with
  | STATE_INITIAL =>
      if negb (space c) then
        if (c =? SEMICOLON) || (c =? HASH) then None
        else if negb backslash && (c =? DQUOTE) then Some (STATE_READING_QUOTED_PARM, 0)
        else Some (STATE_READING_UNQUOTED_PARM, c)
      else Some (st, 0)
  | STATE_READING_UNQUOTED_PARM =>
      if negb backslash && space c then Some (STATE_DONE, 0) else Some (st, c)
  | STATE_READING_QUOTED_PARM =>
      if negb backslash && (c =? DQUOTE) then Some (STATE_DONE, 0) else Some (st, c)
  | STATE_DONE => Some (st, 0)
  end.

Definition parse_finish_parm (s : parse) : parse :=
  if decide (ps_state s = STATE_DONE) then Parse (ps_p s ++ [ps_parm s]) STATE_INITIAL (ps_backslash s) [] else s.

Definition parse_char (fatal : bool) (n : Z) (s : parse) (c : byte) : result parse_next :=
  r ← (if negb (ps_backslash s) && (c =? BACKSLASH) then Ok (Some (Parse (ps_p s) (ps_state s) true (ps_parm s), 0))
       else match parse_transition (ps_state s) (ps_backslash s) c with
            | None => Ok None
            | Some (st, out) =>
                let s' := parse_finish_parm (Parse (ps_p s) st (ps_backslash s) (ps_parm s)) in
                _ ← (if ps_backslash s && negb (out =? 0) && negb ((out =? BACKSLASH) || (out =? DQUOTE) || space out)
                     then msg_error fatal tt else Ok tt);
                Ok (Some (Parse (ps_p s') (ps_state s') false (ps_parm s'), out))
            end);
  match r with
  | None => Ok (Leave s)
  | Some (s, out) =>
      (* store parameter character *)
      if negb (out =? 0) && (Zlen (ps_parm s) >=? OPTION_PARM_SIZE) then msg_error fatal Return0
      else
        let s := if negb (out =? 0) then Parse (ps_p s) (ps_state s) (ps_backslash s) (ps_parm s ++ [out]) else s in
        (* avoid overflow if too many parms in one config file line *)
        Ok (if Zlen (ps_p s) >=? n then Leave s else Next s)
  end.

(** The loop, over the characters up to the NUL. *)
Fixpoint parse_chars (fatal : bool) (n : Z) (s : parse) (cs : list byte) : result (option parse) :=
  match cs with
  | [] => Ok (Some s)
  | c :: cs =>
      r ← parse_char fatal n s c;
      match r with
      | Next s => parse_chars fatal n s cs
      | Leave s => Ok (Some s)
      | Return0 => Ok None
      end
  end.

(** The parameters; none if the function returns 0. *)
Definition parse_line (fatal : bool) (n : Z) (line : cstr) : result (list cstr) :=
  r ← parse_chars fatal n parse_init (line ++ [0]);
  match r with
  | None => Ok []
  | Some s =>
      match ps_state s with
      | STATE_INITIAL => Ok (ps_p s)
      | _ => msg_error fatal []
      end
  end.

(** ** The loops that read options *)

Section Options.
Context {Opts : Type} (add_option : Opts -> Z -> list cstr -> result (Opts * Z)).

(** Each turn takes a byte of the buffer at least. *)
Fixpoint apply_push_loop (fuel : nat) (o : Opts) (buf : list byte) : result (Opts * list byte) :=
  match fuel with
  | O => Fault
  | S fuel =>
      '(ok, line, buf) ← buf_parse buf 44 OPTION_PARM_SIZE;
      if (ok : bool) then
        p ← parse_line false MAX_PARMS line;
        o ← (match p with [] => Ok o | _ => '(o, _) ← add_option o 0 p; Ok o end);
        apply_push_loop fuel o buf
      else Ok (o, buf)
  end.
Definition apply_push_options (o : Opts) (buf : list byte) : result Opts :=
  '(o, _) ← apply_push_loop (S (length buf)) o buf; Ok o.

(** p[0] without leading dashes. *)
Definition strip_dashes (p : list cstr) : list cstr :=
  match p with
  | (45 :: 45 :: c :: rest) :: p => (c :: rest) :: p
  | _ => p
  end.

(** read_config_file, on the lines that fgets returns. *)
Fixpoint read_config_lines (fatal : bool) (o : Opts) (lines : list cstr) : result Opts :=
  match lines with
  | [] => Ok o
  | line :: lines =>
      p ← parse_line fatal MAX_PARMS line;
      o ← (match p with [] => Ok o | _ => '(o, _) ← add_option o 0 (strip_dashes p); Ok o end);
      read_config_lines fatal o lines
  end.

Definition starts_with_dashes (s : cstr) : bool := bool_decide (take 2 s = [45; 45]).

(** The parameters after the option's name: up to the next name, at most fifteen. *)
Fixpoint argv_parms (n : nat) (args : list cstr) : list cstr :=
  match n, args with
  | S n, arg :: args => if starts_with_dashes arg then [] else arg :: argv_parms n args
  | _, _ => []
  end.

(** The loop of parse_argv from argument [i] on. add_option returns the last argument that it used. *)
Fixpoint argv_loop (fuel : nat) (fatal : bool) (o : Opts) (argv : list cstr) (i : Z) : result Opts :=
  match fuel with
  | O => Fault
  | S fuel =>
      if i <? Zlen argv then
        arg ← aget argv i;
        p0 ← (if starts_with_dashes arg then Ok (drop 2 arg) else msg_error fatal arg);
        '(o, i) ← add_option o i (p0 :: argv_parms 15 (drop (Z.to_nat (i + 1)) argv));
        argv_loop fuel fatal o argv (i + 1)
      else Ok o
  end.
(** usage () ends the process. *)
Definition parse_argv (fuel : nat) (fatal : bool) (o : Opts) (argv : list cstr) : result Opts :=
  let argc := Zlen argv in
  if argc <=? 1 then AssertFail
  else
    arg ← aget argv 1;
    if (argc =? 2) && negb (starts_with_dashes arg) then '(o, _) ← add_option o 0 [text "config"; arg]; Ok o
    else argv_loop fuel fatal o argv 1.

End Options.

(** ** Specification: how parameters are written *)

Inductive token := Quoted (s : cstr) | Word (s : cstr).

Definition special (c : byte) : bool := (c =? DQUOTE) || (c =? BACKSLASH).
Definition escape (c : byte) : cstr := if special c then [BACKSLASH; c] else [c].
Definition quote (s : cstr) : cstr := DQUOTE :: concat (escape <$> s) ++ [DQUOTE].

(** A word needs no quotes: it has no space and no backslash, and does not start with a quote or
    a comment. *)
Definition good_word (s : cstr) : Prop :=
  Forall (fun c => space c = false /\ c <> BACKSLASH) s /\
  match s with [] => False | c :: _ => c <> DQUOTE /\ c <> SEMICOLON /\ c <> HASH end.

Definition token_text (t : token) : cstr := match t with Quoted s | Word s => s end.
Definition token_line (t : token) : cstr := match t with Quoted s => quote s | Word s => s end.
Definition token_ok (t : token) : Prop :=
  Zlen (token_text t) <= OPTION_PARM_SIZE /\ match t with Quoted s => no_nul s | Word s => good_word s end.

(** The tokens with a space between two. *)
Fixpoint tokens_line (ts : list token) : cstr :=
  match ts with
  | [] => []
  | [t] => token_line t
  | t :: ts => token_line t ++ 32 :: tokens_line ts
  end.

(** ** Lemmas *)

Lemma parse_char_backslash fatal n p st parm : Zlen p < n ->
  parse_char fatal n (Parse p st false parm) BACKSLASH = Ok (Next (Parse p st true parm)).
Proof.
  intros Hn. unfold parse_char. cbn [ps_backslash ps_p ps_state ps_parm negb andb]. rewrite Z.eqb_refl. cbn [mbind result_bind].
  cbn [negb andb Z.eqb ps_p]. by replace (Zlen p >=? n) with false by lia.
Qed.

(** A character that is stored. *)
Lemma parse_char_store fatal n p st st' b parm c : Zlen p < n -> Zlen parm < OPTION_PARM_SIZE -> c <> 0 ->
  negb b && (c =? BACKSLASH) = false -> parse_transition st b c = Some (st', c) -> st' <> STATE_DONE ->
  b = false \/ (c =? BACKSLASH) || (c =? DQUOTE) || space c = true ->
  parse_char fatal n (Parse p st b parm) c = Ok (Next (Parse p st' false (parm ++ [c]))).
Proof.
  intros Hn Hl Hc Hb Ht Hd Hok. unfold parse_char. cbn [ps_backslash ps_p ps_state ps_parm]. rewrite Hb, Ht.
  assert (b && negb (c =? 0) && negb ((c =? BACKSLASH) || (c =? DQUOTE) || space c) = false) as ->.
  { destruct Hok as [->| ->]; [done|]. by rewrite andb_false_r. }
  cbn [mbind result_bind]. unfold parse_finish_parm. cbn [ps_state]. rewrite decide_False by done. cbn [ps_p ps_state ps_parm ps_backslash].
  replace (c =? 0) with false by lia. replace (Zlen parm >=? OPTION_PARM_SIZE) with false by lia. cbn [negb andb ps_p].
  by replace (Zlen p >=? n) with false by lia.
Qed.

(** A character that is not, in a state that goes on. *)
Lemma parse_char_skip fatal n p st st' parm c : Zlen p < n -> c <> BACKSLASH ->
  parse_transition st false c = Some (st', 0) -> st' <> STATE_DONE ->
  parse_char fatal n (Parse p st false parm) c = Ok (Next (Parse p st' false parm)).
Proof.
  intros Hn Hc Ht Hd. unfold parse_char. cbn [ps_backslash ps_p ps_state ps_parm negb andb]. replace (c =? BACKSLASH) with false by lia.
  rewrite Ht. cbn [mbind result_bind]. unfold parse_finish_parm. cbn [ps_state]. rewrite decide_False by done. cbn [ps_p ps_state ps_parm ps_backslash negb andb Z.eqb].
  by replace (Zlen p >=? n) with false by lia.
Qed.

(** The end of a parameter. *)
Lemma parse_char_done fatal n p st parm c : c <> BACKSLASH -> parse_transition st false c = Some (STATE_DONE, 0) ->
  parse_char fatal n (Parse p st false parm) c =
    Ok (if Zlen p + 1 >=? n then Leave (Parse (p ++ [parm]) STATE_INITIAL false []) else Next (Parse (p ++ [parm]) STATE_INITIAL false [])).
Proof.
  intros Hc Ht. unfold parse_char. cbn [ps_backslash ps_p ps_state ps_parm negb andb]. replace (c =? BACKSLASH) with false by lia.
  rewrite Ht. cbn [mbind result_bind]. unfold parse_finish_parm. cbn [ps_state]. rewrite decide_True by done. cbn [ps_p ps_state ps_parm ps_backslash negb andb Z.eqb].
  rewrite Zlen_app, Zlen_cons, Zlen_nil. by replace (Zlen p + (1 + 0)) with (Zlen p + 1) by lia.
Qed.

(** The characters between quotes. *)
Lemma parse_quoted fatal n p s : forall parm rest, Zlen p < n -> Zlen parm + Zlen s <= OPTION_PARM_SIZE -> no_nul s ->
  parse_chars fatal n (Parse p STATE_READING_QUOTED_PARM false parm) (concat (escape <$> s) ++ rest) =
  parse_chars fatal n (Parse p STATE_READING_QUOTED_PARM false (parm ++ s)) rest.
Proof.
  induction s as [|c s IH]; intros parm rest Hn Hl Hs; [by rewrite app_nil_r|].
  rewrite Zlen_cons in Hl. pose proof (Zlen_nonneg s). inversion Hs as [|? ? Hc Hs']; subst.
  cbn [fmap list_fmap concat]. unfold escape at 1. destruct (special c) eqn:Esp.
  - cbn [app parse_chars]. rewrite parse_char_backslash by done. cbn [mbind result_bind].
    rewrite (parse_char_store fatal n p _ STATE_READING_QUOTED_PARM true parm c); [|done|lia|done|done|done|done|].
    + cbn [mbind result_bind]. rewrite IH; [by rewrite <- app_assoc|done|rewrite Zlen_app, Zlen_cons, Zlen_nil; lia|done].
    + right. unfold special in Esp. apply orb_true_iff. left. by rewrite orb_comm.
  - apply orb_false_iff in Esp as [E1 E2]. cbn [app parse_chars].
    rewrite (parse_char_store fatal n p _ STATE_READING_QUOTED_PARM false parm c); [|done|lia|done|by rewrite E2| |done|by left].
    + cbn [mbind result_bind]. rewrite IH; [by rewrite <- app_assoc|done|rewrite Zlen_app, Zlen_cons, Zlen_nil; lia|done].
    + cbn [parse_transition negb andb]. by rewrite E1.
Qed.

(** The characters of a word after the first. *)
Lemma parse_word fatal n p s : forall parm rest, Zlen p < n -> Zlen parm + Zlen s <= OPTION_PARM_SIZE ->
  Forall (fun c => space c = false /\ c <> BACKSLASH) s ->
  parse_chars fatal n (Parse p STATE_READING_UNQUOTED_PARM false parm) (s ++ rest) =
  parse_chars fatal n (Parse p STATE_READING_UNQUOTED_PARM false (parm ++ s)) rest.
Proof.
  induction s as [|c s IH]; intros parm rest Hn Hl Hs; [by rewrite app_nil_r|].
  rewrite Zlen_cons in Hl. pose proof (Zlen_nonneg s). inversion Hs as [|? ? [Hsp Hb] Hs']; subst. cbn [app parse_chars].
  assert (c <> 0) as Hc0 by (intros ->; done).
  rewrite (parse_char_store fatal n p _ STATE_READING_UNQUOTED_PARM false parm c); [|done|lia|done|cbn; lia| |done|by left].
  - cbn [mbind result_bind]. rewrite IH; [by rewrite <- app_assoc|done|rewrite Zlen_app, Zlen_cons, Zlen_nil; lia|done].
  - cbn [parse_transition negb andb]. by rewrite Hsp.
Qed.

(** A token, and the character behind it: the space before the next one, or the NUL. *)
Lemma parse_token fatal n p t c rest : Zlen p < n -> token_ok t -> c = 32 \/ c = 0 ->
  exists rest', parse_chars fatal n (Parse p STATE_INITIAL false []) (token_line t ++ c :: rest) =
    (if Zlen p + 1 >=? n then Ok (Some (Parse (p ++ [token_text t]) STATE_INITIAL false []))
     else parse_chars fatal n (Parse (p ++ [token_text t]) STATE_INITIAL false []) rest') /\ (rest' = c :: rest \/ rest' = rest).
Proof.
  intros Hn [Hl Ht] Hc. assert (space c = true) as Hsp by (destruct Hc as [->| ->]; done). destruct t as [s|s]; cbn [token_line token_text] in *.
  - exists (c :: rest). split; [|by left]. unfold quote. cbn [app parse_chars]. rewrite <- app_assoc.
    rewrite (parse_char_skip fatal n p _ STATE_READING_QUOTED_PARM) by done. cbn [mbind result_bind].
    rewrite parse_quoted by (try done; rewrite Zlen_nil; lia). cbn [app parse_chars].
    rewrite parse_char_done by done. cbn [mbind result_bind]. by destruct (Zlen p + 1 >=? n).
  - exists rest. split; [|by right]. destruct Ht as [Hw Hfirst]. destruct s as [|x s]; [done|]. destruct Hfirst as (Hq & Hsc & Hh).
    inversion Hw as [|? ? [Hxs Hxb] Hw']; subst. rewrite Zlen_cons in Hl. pose proof (Zlen_nonneg s). cbn [app parse_chars].
    assert (x <> 0) as Hx0 by (intros ->; done).
    rewrite (parse_char_store fatal n p _ STATE_READING_UNQUOTED_PARM false [] x); [|done|rewrite Zlen_nil; unfold OPTION_PARM_SIZE; lia|done|cbn; lia| |done|by left].
    2:{ cbn [parse_transition]. rewrite Hxs. cbn [negb andb]. replace (x =? SEMICOLON) with false by lia. replace (x =? HASH) with false by lia. by replace (x =? DQUOTE) with false by lia. }
    cbn [mbind result_bind app]. rewrite parse_word by (try done; rewrite Zlen_cons, Zlen_nil; lia). cbn [app parse_chars].
    rewrite parse_char_done; [|by destruct Hc as [->| ->]|by cbn [parse_transition negb andb]; rewrite Hsp].
    cbn [mbind result_bind]. by destruct (Zlen p + 1 >=? n).
Qed.

Lemma parse_tokens fatal n ts : forall p, ts <> [] -> Zlen p + Zlen ts <= n -> Forall token_ok ts ->
  parse_chars fatal n (Parse p STATE_INITIAL false []) (tokens_line ts ++ [0]) = Ok (Some (Parse (p ++ (token_text <$> ts)) STATE_INITIAL false [])).
Proof.
  assert (forall p c, Zlen p < n -> c = 32 \/ c = 0 -> parse_char fatal n (Parse p STATE_INITIAL false []) c = Ok (Next (Parse p STATE_INITIAL false []))) as Hskip.
  { intros p c Hn Hc. apply parse_char_skip; [done|by destruct Hc as [->| ->]|by destruct Hc as [->| ->]|done]. }
  induction ts as [|t ts IH]; intros p Hne Hl Hok; [done|]. rewrite Zlen_cons in Hl. pose proof (Zlen_nonneg ts). inversion Hok as [|? ? Ht Hts]; subst.
  destruct ts as [|t2 ts].
  - cbn [tokens_line]. destruct (parse_token fatal n p t 0 []) as (rest' & -> & Hr); [lia|done|by right|]. cbn [fmap list_fmap].
    destruct (Zlen p + 1 >=? n) eqn:E; bool_simp; [done|]. destruct Hr as [->| ->]; [|done]. cbn [parse_chars].
    rewrite Hskip; [done|rewrite Zlen_app, Zlen_cons, Zlen_nil; lia|by right].
  - change (tokens_line (t :: t2 :: ts)) with (token_line t ++ 32 :: tokens_line (t2 :: ts)). rewrite <- app_assoc. cbn [app].
    rewrite Zlen_cons in Hl. pose proof (Zlen_nonneg ts). assert (Zlen (p ++ [token_text t]) = Zlen p + 1) as El by (rewrite Zlen_app, Zlen_cons, Zlen_nil; lia).
    destruct (parse_token fatal n p t 32 (tokens_line (t2 :: ts) ++ [0])) as (rest' & -> & Hr); [lia|done|by left|].
    replace (Zlen p + 1 >=? n) with false by lia.
    assert (parse_chars fatal n (Parse (p ++ [token_text t]) STATE_INITIAL false []) rest' =
            parse_chars fatal n (Parse (p ++ [token_text t]) STATE_INITIAL false []) (tokens_line (t2 :: ts) ++ [0])) as ->.
    { destruct Hr as [->| ->]; [|done]. cbn [parse_chars]. rewrite Hskip; [done|lia|by left]. }
    rewrite IH; [by rewrite <- app_assoc|done|rewrite El, Zlen_cons; lia|done].
Qed.

(** The parameters of a line are what was written: quoted strings of any characters, with a
    backslash before quotes and backslashes, and words, separated by spaces. *)
Theorem parse_line_tokens fatal n ts : 0 < n -> Zlen ts <= n -> Forall token_ok ts ->
  parse_line fatal n (tokens_line ts) = Ok (token_text <$> ts).
Proof.
  intros Hn Hl Hok. unfold parse_line, parse_init. destruct ts as [|t ts].
  - cbn [tokens_line app parse_chars]. rewrite parse_char_skip with (st' := STATE_INITIAL) by (try done; rewrite Zlen_nil; lia). done.
  - rewrite parse_tokens by (try done; rewrite ?Zlen_nil; lia). done.
Qed.

Lemma parse_line_tokens_witness :
  parse_line true 16 (tokens_line [Word (text "route"); Quoted (text "a \ b"); Quoted []]) = Ok [text "route"; text "a \ b"; []].
Proof.
  apply (parse_line_tokens true 16 [Word (text "route"); Quoted (text "a \ b"); Quoted []]); [lia|by vm_compute|].
  repeat constructor; try (by vm_compute); unfold space; cbn; lia.
Defined.

(** ** parse_line stays within the arrays *)

Definition parse_inv (n : Z) (s : parse) : Prop := Zlen (ps_p s) <= n /\ Forall (fun q => Zlen q <= OPTION_PARM_SIZE) (ps_p s) /\ Zlen (ps_parm s) <= OPTION_PARM_SIZE.

Lemma parse_char_inv fatal n s c r : parse_inv n s -> Zlen (ps_p s) < n -> parse_char fatal n s c = Ok r ->
  match r with Next s' => parse_inv n s' /\ Zlen (ps_p s') < n | Leave s' => parse_inv n s' | Return0 => True end.
Proof.
  intros (H1 & H2 & H3) Hlt. unfold parse_char.
  assert (forall s' out, parse_inv n s' -> (if negb (out =? 0) && (Zlen (ps_parm s') >=? OPTION_PARM_SIZE) then msg_error fatal Return0
      else let s := if negb (out =? 0) then Parse (ps_p s') (ps_state s') (ps_backslash s') (ps_parm s' ++ [out]) else s' in
           Ok (if Zlen (ps_p s) >=? n then Leave s else Next s)) = Ok r ->
      match r with Next s' => parse_inv n s' /\ Zlen (ps_p s') < n | Leave s' => parse_inv n s' | Return0 => True end) as Htail.
  { intros s' out (G1 & G2 & G3) E. destruct (negb (out =? 0) && (Zlen (ps_parm s') >=? OPTION_PARM_SIZE)) eqn:Eb.
    - unfold msg_error in E. destruct fatal; [done|]. by injection E as <-.
    - cbv zeta in E. set (s2 := if negb (out =? 0) then _ else _) in E. assert (parse_inv n s2) as Hs2.
      { unfold s2. destruct (negb (out =? 0)); [|done]. split_and!; [done|done|]. cbn [ps_parm]. rewrite Zlen_app, Zlen_cons, Zlen_nil. cbn [andb] in Eb. lia. }
      destruct (Zlen (ps_p s2) >=? n) eqn:E2; injection E as <-; bool_simp; [done|]. split; [done|lia]. }
  destruct (negb (ps_backslash s) && (c =? BACKSLASH)); cbn [mbind result_bind].
  { apply Htail. by split_and!. }
  destruct (parse_transition (ps_state s) (ps_backslash s) c) as [[st out]|]; cbn [mbind result_bind]; [|intros [= <-]; by split_and!].
  unfold msg_error at 1. destruct (_ && _ && _); [destruct fatal|]; cbn [mbind result_bind]; try done; apply Htail;
    unfold parse_finish_parm; cbn [ps_state]; case_decide; split_and!; cbn [ps_p ps_parm]; try done; try (apply Forall_app; split; [done|by constructor]);
    rewrite Zlen_app, Zlen_cons, Zlen_nil; lia.
Qed.

(** Whatever the line, at most [n] parameters are stored, none longer than the array [parm]. *)
Theorem parse_line_bounds fatal n line ps : 0 < n -> parse_line fatal n line = Ok ps ->
  Zlen ps <= n /\ Forall (fun q => Zlen q <= OPTION_PARM_SIZE) ps.
Proof.
  intros Hn. unfold parse_line.
  assert (forall cs s r, parse_inv n s -> Zlen (ps_p s) < n -> parse_chars fatal n s cs = Ok r -> match r with Some s' => parse_inv n s' | None => True end) as H.
  { induction cs as [|c cs IH]; intros s r Hi Hlt; cbn [parse_chars]; [by intros [= <-]|].
    destruct (parse_char fatal n s c) as [x| |] eqn:E; [|done..]. pose proof (parse_char_inv fatal n s c x Hi Hlt E) as Hx. cbn [mbind result_bind].
    destruct x as [s'|s'|]; [destruct Hx; by apply IH|by intros [= <-]|by intros [= <-]]. }
  destruct (parse_chars fatal n parse_init (line ++ [0])) as [r| |] eqn:E; [|done..]. cbn [mbind result_bind].
  assert (0 <= n) as Hn0 by lia. assert (parse_inv n parse_init) as Hi by (split_and!; [done|by constructor|done]).
  specialize (H _ _ _ Hi Hn E). destruct r as [s|].
  - destruct H as (H1 & H2 & _). unfold msg_error. destruct (ps_state s); [intros [= <-]; done|..]; destruct fatal; try done; intros [= <-]; (split; [by rewrite Zlen_nil|by constructor]).
  - intros [= <-]. split; [by rewrite Zlen_nil|by constructor].
Qed.
