(* ===== verification/Push.v ===== *)
(** Pushing options to a client (src/push.c, the options of src/options.c that fill the push list,
    and the control channel messages of src/forward.c).

    A buffer is the list of its bytes, a string the list of its bytes without the NUL, an array that
    holds a string is the string. The control channel is an interface, [ControlChannel], which the TLS
    sessions of TlsProc implement. What add_option does with other options is a parameter, and so
    are getaddr and inet_ntoa; there is no management interface. The texts of signals and log messages
    are left out. *)

From S2P Require Import Prelude Buffer Integer Timing Text Pool Occ Mroute Key Tls KeyMethod TlsProc OptionLine.

(** ** The interface to the control channel *)

(** What push.c and forward.c need of the TLS code: tls_send_payload, tls_authenticated, and
    tls_test_payload_len with tls_rec_payload, which give the next message if there is one. *)
Class ControlChannel (T : Type) := {
  chan_send : T -> list byte -> result (bool * T);
  chan_recv : T -> result (option (list byte) * T);
  chan_authenticated : T -> bool
}.

(** ** Options *)

Definition MAX_PUSH_LIST_LEN : Z := 1024.

(** buf_printf on a buffer of capacity [cap]. *)
Definition printf_text (cap : Z) (buf s : cstr) : cstr :=
  let room := cap - Zlen buf in
  if room >? 0 then buf ++ take (Z.to_nat (room - 1)) s else buf.

(** Options that are saved before a pull: tuntap options, routes, and the number of foreign options. *)
Record options_pre_pull {Tuntap Routes : Type} := PrePull {
  pp_tuntap_options : Tuntap;
  pp_routes : option Routes;
  pp_foreign_option_index : Z
}.
Arguments options_pre_pull : clear implicits.
Arguments PrePull {Tuntap Routes}.

Record options {Tuntap Routes Rest : Type} := Options {
  pull : bool;
  pre_pull : option (options_pre_pull Tuntap Routes);
  tuntap_options : Tuntap;
  routes : option Routes;
  foreign_option_index : Z;
  push_list : option cstr;
  iroutes : list iroute;
  opt_ifconfig : option (Z * Z); (* push_ifconfig_defined, push_ifconfig_local, push_ifconfig_remote_netmask *)
  scheduled_exit_interval : Z;
  opt_rest : Rest
}.
Arguments options : clear implicits.
Arguments Options {Tuntap Routes Rest}.

Definition AR_NONE : Z := 0.
Definition AR_INTERACT : Z := 1.
Definition AR_NOINTERACT : Z := 2.
Definition CAS_SUCCEEDED : Z := 0.
Definition CAS_PENDING : Z := 1.
Definition CAS_FAILED : Z := 2.
Definition CAS_PARTIAL : Z := 3.
Definition PUSH_MSG_ERROR : Z := 0.
Definition PUSH_MSG_REQUEST : Z := 1.
Definition PUSH_MSG_REPLY : Z := 2.
Definition PUSH_MSG_REQUEST_DEFERRED : Z := 3.
Definition PUSH_MSG_AUTH_FAILURE : Z := 4.
Definition OPT_P_PUSH : Z := Z.shiftl 1 16.
Definition OPT_P_INSTANCE : Z := Z.shiftl 1 17.

Section Push.
Context {Tuntap Routes Rest : Type}.
#[local] Abbreviation options := (options Tuntap Routes Rest).
Implicit Types (o : options).

Definition set_push_list o (l : option cstr) : options :=
  Options (pull o) (pre_pull o) (tuntap_options o) (routes o) (foreign_option_index o) l (iroutes o) (opt_ifconfig o)
    (scheduled_exit_interval o) (opt_rest o).
Definition set_iroutes o (l : list iroute) : options :=
  Options (pull o) (pre_pull o) (tuntap_options o) (routes o) (foreign_option_index o) (push_list o) l (opt_ifconfig o)
    (scheduled_exit_interval o) (opt_rest o).
Definition set_opt_ifconfig o (a : option (Z * Z)) : options :=
  Options (pull o) (pre_pull o) (tuntap_options o) (routes o) (foreign_option_index o) (push_list o) (iroutes o) a
    (scheduled_exit_interval o) (opt_rest o).

Definition pre_pull_save o : options :=
  if pull o then
    Options (pull o) (Some (PrePull (tuntap_options o) (routes o) (foreign_option_index o))) (tuntap_options o) (routes o)
      (foreign_option_index o) (push_list o) (iroutes o) (opt_ifconfig o) (scheduled_exit_interval o) (opt_rest o)
  else o.
Definition pre_pull_restore o : options :=
  match pre_pull o with
  | Some pp =>
      Options (pull o) (pre_pull o) (pp_tuntap_options pp) (pp_routes pp) (pp_foreign_option_index pp) (push_list o) (iroutes o)
        (opt_ifconfig o) (scheduled_exit_interval o) (opt_rest o)
  | None => o
  end.

(** ** The push list *)

Definition push_option (fatal : bool) o (opt : cstr) : result options :=
  if negb (string_class opt CC_ANY CC_COMMA) then msg_error fatal o
  else
    let '(first, l) := match push_list o with None => (true, []) | Some l => (false, l) end in
    if Zlen l + Zlen opt + 2 >=? MAX_PUSH_LIST_LEN then msg_error fatal (set_push_list o (Some l))
    else Ok (set_push_list o (Some ((if first then l else l ++ [44]) ++ opt))).

Definition push_reset o : options := set_push_list o None.

Section Addresses.
Context (getaddr getaddr_resolve : cstr -> option Z) (inet_ntoa : list byte -> cstr).

(** getaddr returns 0 when it fails. *)
Definition addr_or_0 (a : option Z) : Z := match a with Some a => a | None => 0 end.

Definition option_iroute (fatal : bool) o (network_str : cstr) (netmask_str : option cstr) : result options :=
  let network := addr_or_0 (getaddr network_str) in
  match netmask_str with
  | Some s =>
      match netmask_to_netbits network (addr_or_0 (getaddr s)) with
      | Some netbits => Ok (set_iroutes o (Iroute network netbits :: iroutes o))
      | None => msg_error fatal o
      end
  | None => Ok (set_iroutes o (Iroute network (-1) :: iroutes o))
  end.

(** The types of options found so far with this one, or None when it is not allowed. *)
Definition verify_permission (type allowed found : Z) : option Z :=
  if Z.land type allowed =? 0 then None else Some (Z.lor found type).

(** The options of add_option that are about pushing; [other] are the rest. The state is the
    options and the types that were found. *)
Definition add_option (other : options * Z -> Z -> list cstr -> result ((options * Z) * Z)) (fatal : bool) (allowed : Z)
    (x : options * Z) (i : Z) (p : list cstr) : result ((options * Z) * Z) :=
  let '(o, found) := x in
  let err (x : options * Z) (i : Z) := msg_error fatal (x, i) in
  match p with
  | name :: args =>
      if bool_decide (name = text "push") && negb (bool_decide (args = [])) then
        let i := i + 1 in
        match verify_permission OPT_P_PUSH allowed found, args with
        | Some found, opt :: _ =>
            o ← push_option fatal o opt;
            if Zlen p >? 2 then err (o, found) i else Ok ((o, found), i)
        | _, _ => err x i
        end
      else if bool_decide (name = text "push-reset") then
        match verify_permission OPT_P_INSTANCE allowed found with
        | Some found => Ok ((push_reset o, found), i)
        | None => err x i
        end
      else if bool_decide (name = text "iroute") && negb (bool_decide (args = [])) then
        match verify_permission OPT_P_INSTANCE allowed found, args with
        | Some found, network :: mask =>
            o ← option_iroute fatal o network (head mask);
            Ok ((o, found), i + 1 + (if bool_decide (mask = []) then 0 else 1))
        | _, _ => err x (i + 1)
        end
      else if bool_decide (name = text "ifconfig-push") && (Zlen args >=? 2) then
        let i := i + 2 in
        match verify_permission OPT_P_INSTANCE allowed found, args with
        | Some found, a :: b :: _ =>
            let local := addr_or_0 (getaddr_resolve a) in
            let remote_netmask := addr_or_0 (getaddr_resolve b) in
            if negb (local =? 0) && negb (remote_netmask =? 0) then Ok ((set_opt_ifconfig o (Some (local, remote_netmask)), found), i)
            else err (o, found) i
        | _, _ => err x i
        end
      else other x i p
  | [] => other x i p
  end.

(** *** remove_iroutes_from_push_route_list *)

(** A route directive whose network and mask are those of an iroute. *)
Definition is_own_route (ir : list iroute) (p : list cstr) : bool :=
  match p with
  | name :: p1 :: p2 :: _ =>
      bool_decide (name = text "route") &&
      match getaddr p1, getaddr p2 with
      | Some network, Some netmask =>
          existsb (fun ir => (network =? Mroute.network ir) && (netmask =? netbits_to_netmask (netbits ir))) ir
      | _, _ => false
      end
  | _ => false
  end.

(** Each turn takes a byte of the list at least. *)
Fixpoint remove_loop (fuel : nat) (ir : list iroute) (inb : list byte) (first : bool) (out : cstr) : result cstr :=
  match fuel with
  | O => Fault
  | S fuel =>
      '(ok, line, inb) ← buf_parse inb 44 MAX_PUSH_LIST_LEN;
      if (ok : bool) then
        p ← parse_line false MAX_PARMS line;
        if negb (is_own_route ir p) then
          let out := if first then out else printf_text MAX_PUSH_LIST_LEN out [44] in
          remove_loop fuel ir inb false (printf_text MAX_PUSH_LIST_LEN out line)
        else remove_loop fuel ir inb first out
      else Ok out
  end.
Definition remove_iroutes_from_push_route_list o : result options :=
  match push_list o, iroutes o with
  | Some l, _ :: _ =>
      out ← remove_loop (S (length l)) (iroutes o) l true [];
      Ok (set_push_list o (Some out))
  | _, _ => Ok o
  end.
End Addresses.

(** ** The context of a connection *)

Record context {T : Type} := Context {
  c_tls_multi : option T;
  c_options : options;
  push_reply_deferred : bool;
  context_auth : Z;
  push_ifconfig_defined : bool;
  push_ifconfig_local : Z;
  push_ifconfig_remote_netmask : Z;
  wait_for_connect : event_timeout;
  push_request_interval : event_timeout;
  scheduled_exit : event_timeout;
  tmp_int : interval;
  coarse_timer_wakeup : Z;
  c_timeval : timeval;
  pulled_options_string : option cstr;
  signal_received : option signal;
  auth_purged : bool; (* ssl_purge_auth was called *)
  do_ups : list (bool * Z) (* the calls of do_up: pulled_options, option_types_found *)
}.
Arguments Context {T}.

Section Control.
Context {T : Type} `{ControlChannel T}.
#[local] Abbreviation context := (context (T := T)).
Implicit Types (c : context).

Definition set_tls_multi (c : context) (x : option T) : context :=
  Context x (c_options c) (push_reply_deferred c) (context_auth c) (push_ifconfig_defined c) (push_ifconfig_local c)
    (push_ifconfig_remote_netmask c) (wait_for_connect c) (push_request_interval c) (scheduled_exit c) (tmp_int c)
    (coarse_timer_wakeup c) (c_timeval c) (pulled_options_string c) (signal_received c) (auth_purged c) (do_ups c).
Definition set_options (c : context) (x : options) : context :=
  Context (c_tls_multi c) x (push_reply_deferred c) (context_auth c) (push_ifconfig_defined c) (push_ifconfig_local c)
    (push_ifconfig_remote_netmask c) (wait_for_connect c) (push_request_interval c) (scheduled_exit c) (tmp_int c)
    (coarse_timer_wakeup c) (c_timeval c) (pulled_options_string c) (signal_received c) (auth_purged c) (do_ups c).
Definition set_wait_for_connect (c : context) (x : event_timeout) : context :=
  Context (c_tls_multi c) (c_options c) (push_reply_deferred c) (context_auth c) (push_ifconfig_defined c)
    (push_ifconfig_local c) (push_ifconfig_remote_netmask c) x (push_request_interval c) (scheduled_exit c) (tmp_int c)
    (coarse_timer_wakeup c) (c_timeval c) (pulled_options_string c) (signal_received c) (auth_purged c) (do_ups c).
Definition set_push_request_interval (c : context) (x : event_timeout) : context :=
  Context (c_tls_multi c) (c_options c) (push_reply_deferred c) (context_auth c) (push_ifconfig_defined c)
    (push_ifconfig_local c) (push_ifconfig_remote_netmask c) (wait_for_connect c) x (scheduled_exit c) (tmp_int c)
    (coarse_timer_wakeup c) (c_timeval c) (pulled_options_string c) (signal_received c) (auth_purged c) (do_ups c).
Definition set_scheduled_exit (c : context) (x : event_timeout) : context :=
  Context (c_tls_multi c) (c_options c) (push_reply_deferred c) (context_auth c) (push_ifconfig_defined c)
    (push_ifconfig_local c) (push_ifconfig_remote_netmask c) (wait_for_connect c) (push_request_interval c) x (tmp_int c)
    (coarse_timer_wakeup c) (c_timeval c) (pulled_options_string c) (signal_received c) (auth_purged c) (do_ups c).
Definition set_coarse_timer_wakeup (c : context) (x : Z) : context :=
  Context (c_tls_multi c) (c_options c) (push_reply_deferred c) (context_auth c) (push_ifconfig_defined c)
    (push_ifconfig_local c) (push_ifconfig_remote_netmask c) (wait_for_connect c) (push_request_interval c)
    (scheduled_exit c) (tmp_int c) x (c_timeval c) (pulled_options_string c) (signal_received c) (auth_purged c) (do_ups c).
Definition set_timeval (c : context) (x : timeval) : context :=
  Context (c_tls_multi c) (c_options c) (push_reply_deferred c) (context_auth c) (push_ifconfig_defined c)
    (push_ifconfig_local c) (push_ifconfig_remote_netmask c) (wait_for_connect c) (push_request_interval c)
    (scheduled_exit c) (tmp_int c) (coarse_timer_wakeup c) x (pulled_options_string c) (signal_received c) (auth_purged c)
    (do_ups c).
Definition set_pulled_options_string (c : context) (x : option cstr) : context :=
  Context (c_tls_multi c) (c_options c) (push_reply_deferred c) (context_auth c) (push_ifconfig_defined c)
    (push_ifconfig_local c) (push_ifconfig_remote_netmask c) (wait_for_connect c) (push_request_interval c)
    (scheduled_exit c) (tmp_int c) (coarse_timer_wakeup c) (c_timeval c) x (signal_received c) (auth_purged c) (do_ups c).
Definition set_signal_received (c : context) (x : option signal) : context :=
  Context (c_tls_multi c) (c_options c) (push_reply_deferred c) (context_auth c) (push_ifconfig_defined c)
    (push_ifconfig_local c) (push_ifconfig_remote_netmask c) (wait_for_connect c) (push_request_interval c)
    (scheduled_exit c) (tmp_int c) (coarse_timer_wakeup c) (c_timeval c) (pulled_options_string c) x (auth_purged c)
    (do_ups c).
Definition set_auth_purged (c : context) (x : bool) : context :=
  Context (c_tls_multi c) (c_options c) (push_reply_deferred c) (context_auth c) (push_ifconfig_defined c)
    (push_ifconfig_local c) (push_ifconfig_remote_netmask c) (wait_for_connect c) (push_request_interval c)
    (scheduled_exit c) (tmp_int c) (coarse_timer_wakeup c) (c_timeval c) (pulled_options_string c) (signal_received c) x
    (do_ups c).
Definition set_do_ups (c : context) (x : list (bool * Z)) : context :=
  Context (c_tls_multi c) (c_options c) (push_reply_deferred c) (context_auth c) (push_ifconfig_defined c)
    (push_ifconfig_local c) (push_ifconfig_remote_netmask c) (wait_for_connect c) (push_request_interval c)
    (scheduled_exit c) (tmp_int c) (coarse_timer_wakeup c) (c_timeval c) (pulled_options_string c) (signal_received c)
    (auth_purged c) x.
Definition set_tmp_int (c : context) (x : interval) : context :=
  Context (c_tls_multi c) (c_options c) (push_reply_deferred c) (context_auth c) (push_ifconfig_defined c)
    (push_ifconfig_local c) (push_ifconfig_remote_netmask c) (wait_for_connect c) (push_request_interval c)
    (scheduled_exit c) x (coarse_timer_wakeup c) (c_timeval c) (pulled_options_string c) (signal_received c) (auth_purged c)
    (do_ups c).
Definition set_push_ifconfig c (defined : bool) (local remote_netmask : Z) : context :=
  Context (c_tls_multi c) (c_options c) (push_reply_deferred c) (context_auth c) defined local remote_netmask (wait_for_connect c)
    (push_request_interval c) (scheduled_exit c) (tmp_int c) (coarse_timer_wakeup c) (c_timeval c) (pulled_options_string c)
    (signal_received c) (auth_purged c) (do_ups c).

Definition set_context_auth c (auth : Z) : context :=
  Context (c_tls_multi c) (c_options c) (push_reply_deferred c) auth (push_ifconfig_defined c) (push_ifconfig_local c)
    (push_ifconfig_remote_netmask c) (wait_for_connect c) (push_request_interval c) (scheduled_exit c) (tmp_int c)
    (coarse_timer_wakeup c) (c_timeval c) (pulled_options_string c) (signal_received c) (auth_purged c) (do_ups c).
Definition set_push_reply_deferred c (deferred : bool) : context :=
  Context (c_tls_multi c) (c_options c) deferred (context_auth c) (push_ifconfig_defined c) (push_ifconfig_local c)
    (push_ifconfig_remote_netmask c) (wait_for_connect c) (push_request_interval c) (scheduled_exit c) (tmp_int c)
    (coarse_timer_wakeup c) (c_timeval c) (pulled_options_string c) (signal_received c) (auth_purged c) (do_ups c).

(** The timers when something was written to the control channel. *)
Definition after_send (now : Z) c : context :=
  set_timeval (set_tmp_int c (interval_action now (tmp_int c))) (Tv 0 0).

Definition send_control_channel_string (now : Z) c (str : cstr) : result (bool * context) :=
  match c_tls_multi c with
  | Some t =>
      '(stat, t) ← chan_send t (str ++ [0]);
      Ok (stat, after_send now (set_tls_multi c (Some t)))
  | None => Ok (true, c)
  end.

Definition schedule_exit (now : Z) c (n_seconds : Z) : context :=
  set_scheduled_exit (set_coarse_timer_wakeup c 0) (event_timeout_init n_seconds now).

(** [now] is the clock, [auth_retry] the value of global_auth_retry. *)
Context (inet_ntoa : list byte -> cstr) (getaddr : cstr -> option Z).
Context (add_option : options * Z -> Z -> list cstr -> result ((options * Z) * Z)).
Context (now auth_retry : Z).

Definition send_auth_failed c : result (bool * context) := send_control_channel_string now c (text "AUTH_FAILED").
Definition send_push_request c : result (bool * context) := send_control_channel_string now c (text "PUSH_REQUEST").

Definition receive_auth_failed c : result context :=
  if pull (c_options c) then
    if auth_retry =? AR_NONE then Ok (set_signal_received c (Some SIGTERM))
    else if auth_retry =? AR_INTERACT then Ok (set_signal_received (set_auth_purged c true) (Some SIGUSR1))
    else if auth_retry =? AR_NOINTERACT then Ok (set_signal_received c (Some SIGUSR1))
    else AssertFail
  else Ok c.

(** What send_push_reply writes in its buffer. *)
Definition push_reply_text c : cstr :=
  let cap := MAX_PUSH_LIST_LEN + 256 in
  let buf := printf_text cap [] (text "PUSH_REPLY") in
  let buf := match push_list (c_options c) with
             | Some l => if negb (Zlen l =? 0) then printf_text cap buf (44 :: l) else buf
             | None => buf
             end in
  if push_ifconfig_defined c && negb (push_ifconfig_local c =? 0) && negb (push_ifconfig_remote_netmask c =? 0) then
    printf_text cap buf (text ",ifconfig " ++ print_in_addr_t inet_ntoa (push_ifconfig_local c) false false ++ 32 ::
                         print_in_addr_t inet_ntoa (push_ifconfig_remote_netmask c) false false)
  else buf.
Definition send_push_reply c : result (bool * context) :=
  let buf := push_reply_text c in
  if Zlen buf <? MAX_PUSH_LIST_LEN then send_control_channel_string now c buf else Ok (false, c).

(** ** Incoming messages *)

Definition buf_string_match_head_str (buf : list byte) (match_ : cstr) : bool :=
  if Zlen match_ >? Zlen buf then false else bool_decide (take (length match_) buf = match_).
Definition buf_string_compare_advance (src : list byte) (match_ : cstr) : option (list byte) :=
  if buf_string_match_head_str src match_ then Some (drop (length match_) src) else None.

(** -1, stored in a uint8_t, when there is no byte. *)
Definition read_u8 (buf : list byte) : byte * list byte :=
  match buf with [] => (255, []) | c :: buf => (c, buf) end.

(** The answer, the context and the types of options found. *)
Definition process_incoming_push_msg c (buf : list byte) (honor_received_options : bool) : result (Z * context * Z) :=
  match buf_string_compare_advance buf (text "PUSH_REQUEST") with
  | Some _ =>
      let authenticated := match c_tls_multi c with Some t => chan_authenticated t | None => false end in
      if negb authenticated || (context_auth c =? CAS_FAILED) then
        '(_, c) ← send_auth_failed c;
        Ok (PUSH_MSG_AUTH_FAILURE, schedule_exit now c (scheduled_exit_interval (c_options c)), 0)
      else if negb (push_reply_deferred c) && (context_auth c =? CAS_SUCCEEDED) then
        '(ok, c) ← send_push_reply c;
        Ok (if ok : bool then PUSH_MSG_REQUEST else PUSH_MSG_ERROR, c, 0)
      else Ok (PUSH_MSG_REQUEST_DEFERRED, c, 0)
  | None =>
      match (if honor_received_options then buf_string_compare_advance buf (text "PUSH_REPLY") else None) with
      | Some buf =>
          let '(ch, buf) := read_u8 buf in
          if ch =? 44 then
            let c := set_pulled_options_string (set_options c (pre_pull_restore (c_options c))) (Some (cstring buf)) in
            '(o, found) ← apply_push_options add_option (c_options c, 0) buf;
            Ok (PUSH_MSG_REPLY, set_options c o, found)
          else if ch =? 0 then Ok (PUSH_MSG_REPLY, c, 0)
          else Ok (PUSH_MSG_ERROR, c, 0)
      | None => Ok (PUSH_MSG_ERROR, c, 0)
      end
  end.

Definition incoming_push_message c (buf : list byte) : result context :=
  '(status, c, found) ← process_incoming_push_msg c buf (pull (c_options c));
  if (status : Z) =? PUSH_MSG_REPLY then
    Ok (set_push_request_interval (set_do_ups c (do_ups c ++ [(true, found)])) event_timeout_clear)
  else Ok c.

(** string_mod (BSTR (&buf), CC_PRINT, CC_CRLF, 0) moves the characters that stay to the front and ends
    them with a NUL; the bytes behind stay. *)
Definition string_mod_buf (buf : list byte) : list byte :=
  let s := snd (string_mod (cstring buf) CC_PRINT CC_CRLF 0) in
  s ++ 0 :: drop (length s + 1) buf.

Definition check_incoming_control_channel c : result context :=
  match c_tls_multi c with
  | None => Ok c
  | Some t =>
      '(r, t) ← chan_recv t;
      let c := set_tls_multi c (Some t) in
      match r with
      | Some msg =>
          let buf := string_mod_buf (buf_null_terminate (Zlen msg) msg) in
          if buf_string_match_head_str buf (text "AUTH_FAILED") then receive_auth_failed c
          else if buf_string_match_head_str buf (text "PUSH_") then incoming_push_message c buf
          else Ok c
      | None => Ok c
      end
  end.

(** *** The client's requests *)

Definition check_push_request c : result context :=
  let '(trigger, et, tv) := event_timeout_trigger now (push_request_interval c) (Some (c_timeval c)) ETT_DEFAULT in
  let c := set_push_request_interval (match tv with Some tv => set_timeval c tv | None => c end) et in
  if trigger then '(_, c) ← send_push_request c; Ok c else Ok c.

(** [connection_established] is CONNECTION_ESTABLISHED (c). *)
Definition check_connection_established (connection_established : bool) c : result context :=
  if event_timeout_defined (wait_for_connect c) then
    let '(trigger, et, tv) := event_timeout_trigger now (wait_for_connect c) (Some (c_timeval c)) ETT_DEFAULT in
    let c := set_wait_for_connect (match tv with Some tv => set_timeval c tv | None => c end) et in
    if trigger && connection_established then
      c ← (if bool_decide (is_Some (c_tls_multi c)) && pull (c_options c) then
             '(_, c) ← send_push_request c;
             Ok (set_coarse_timer_wakeup (set_push_request_interval c (event_timeout_init 5 now)) 0)
           else Ok (set_do_ups c (do_ups c ++ [(false, 0)])));
      Ok (set_wait_for_connect c event_timeout_clear)
    else Ok c
  else Ok c.

Definition check_scheduled_exit c : context :=
  if event_timeout_defined (scheduled_exit c) then
    let '(trigger, et, tv) := event_timeout_trigger now (scheduled_exit c) (Some (c_timeval c)) ETT_DEFAULT in
    let c := set_scheduled_exit (match tv with Some tv => set_timeval c tv | None => c end) et in
    if trigger then set_signal_received c (Some SIGTERM) else c
  else c.

(** ** multi_select_virtual_addr: the addresses that are pushed to a client *)

(** DEV_TYPE_TUN and DEV_TYPE_TAP; the addresses of the tun device, --ifconfig-pool-linear and
    --ifconfig-pool's netmask. *)
Inductive tunnel_type := DEV_TYPE_TUN | DEV_TYPE_TAP.
Record tuntap := TunTap { tt_type : tunnel_type; tt_local : Z; tt_remote_netmask : Z; ifconfig_pool_linear : bool; ifconfig_pool_netmask : Z }.

(** [cn] is what tls_common_name gives, unless --duplicate-cn is set; the pool (m->ifconfig_pool) and
    the handle of the client's lease (mi->vaddr_handle) are passed along. *)
Definition multi_select_virtual_addr (tt : tuntap) (cn : option cstr) (pool : option ifconfig_pool) (vaddr_handle : Z) c
    : result (option ifconfig_pool * Z * context) :=
  match opt_ifconfig (c_options c), pool with
  | Some (local, remote_netmask), _ =>
      '(pool, vaddr_handle) ← (if vaddr_handle >=? 0 then
          p ← from_opt pool;
          '(_, p) ← ifconfig_pool_release now p vaddr_handle true;
          Ok (Some p, -1)
        else Ok (pool, vaddr_handle));
      Ok (pool, vaddr_handle, set_push_ifconfig c true local remote_netmask)
  | None, Some p =>
      if vaddr_handle <? 0 then
        '(h, addrs, p) ← ifconfig_pool_acquire now p cn;
        match addrs with
        | Some (local, remote) =>
            let '(defined, mask) := match tt_type tt with
              | DEV_TYPE_TUN => (true, if ifconfig_pool_linear tt then tt_local tt else local)
              | DEV_TYPE_TAP =>
                  let mask := if ifconfig_pool_netmask tt =? 0 then tt_remote_netmask tt else ifconfig_pool_netmask tt in
                  (if mask =? 0 then push_ifconfig_defined c else true, mask)
              end in
            Ok (Some p, h, set_push_ifconfig c defined remote mask)
        | None => Ok (Some p, h, c)
        end
      else Ok (pool, vaddr_handle, c)
  | None, None => Ok (pool, vaddr_handle, c)
  end.

(** What multi_connection_established does about the options and addresses of a client (its routes
    are in Routing): [ccd] are the lines of the file of --client-config-dir, if there is one,
    [cc_succeeded] and [cc_succeeded_count] what scripts, plugins and --disable say. The files that
    scripts and plugins may write, the environment, the name lock and the closing of other
    connections with the same name are left out. *)
Definition multi_connection_established (tt : tuntap) (cn : option cstr) (ccd : option (list cstr)) (cc_succeeded : bool)
    (cc_succeeded_count : Z) (pool : option ifconfig_pool) (vaddr_handle : Z) c : result (option ifconfig_pool * Z * context) :=
  '(pool, vaddr_handle, c) ← (if match c_tls_multi c with Some t => chan_authenticated t | None => false end then
      c ← (match ccd with
           | Some lines => '(o, _) ← read_config_lines add_option false (c_options c, 0) lines; Ok (set_options c o)
           | None => Ok c
           end);
      '(pool, vaddr_handle, c) ← multi_select_virtual_addr tt cn pool (-1) c;
      if cc_succeeded then
        o ← (match tt_type tt with
             | DEV_TYPE_TUN => remove_iroutes_from_push_route_list getaddr (c_options c)
             | DEV_TYPE_TAP => Ok (c_options c)
             end);
        Ok (pool, vaddr_handle, set_context_auth (set_options c o) CAS_SUCCEEDED)
      else Ok (pool, vaddr_handle, set_context_auth c (if cc_succeeded_count =? 0 then CAS_FAILED else CAS_PARTIAL))
    else Ok (pool, vaddr_handle, c));
  Ok (pool, vaddr_handle, set_push_reply_deferred c false).
End Control.
End Push.
Arguments Context {Tuntap Routes Rest T}.
Arguments context {Tuntap Routes Rest T}.

(** ** The control channel of TLS *)

Section Tls.
Context {tls_obj : Type} `{OpenSSL} `{Env} `{Bio tls_obj}.

(** tls_rec_payload into a buffer of the length that tls_test_payload_len tells. *)
Definition tls_recv (fill : Z -> Z) (m : Tls.tls_multi (tls_obj := tls_obj)) : M (option (list byte) * Tls.tls_multi (tls_obj := tls_obj)) :=
  let len := tls_test_payload_len m in
  if negb (len =? 0) then
    buf ← alloc_buf fill len;
    '(ok, m, buf) ← tls_rec_payload m buf;
    if ok : bool then
      p ← deref (BPTR buf);
      bs ← load p (b_len buf);
      mret (Some bs, m)
    else mret (None, m)
  else mret (None, m).

#[export] Instance tls_control_channel (fill : Z -> Z) : ControlChannel (Tls.tls_multi (tls_obj := tls_obj) * heap) := {|
  chan_send := fun '(m, h) data => '(ok, m, h) ← tls_send_payload m data h; Ok (ok, (m, h));
  chan_recv := fun '(m, h) => '(r, m, h) ← tls_recv fill m h; Ok (r, (m, h));
  chan_authenticated := fun '(m, h) => tls_authenticated m
|}.
End Tls.
