(* ===== verification/PushOk.v ===== *)
(** What is pushed arrives: the options of the server's configuration reach add_option of the
    client, word for word and in order, without the routes to the client's own networks. *)

From S2P Require Import Prelude Buffer Integer Timing Text Pool Occ Mroute Key Tls KeyMethod TlsProc OptionLine Push.

(** ** Specification *)

(** Options separated by commas. *)
Fixpoint push_text (lines : list cstr) : cstr :=
  match lines with
  | [] => []
  | [l] => l
  | l :: lines => l ++ 44 :: push_text lines
  end.

(** Characters that may be pushed: a comma ends an option. *)
Definition push_char (c : byte) : Prop := isprint c = true /\ c <> 44.
Definition push_ok (ts : list token) : Prop :=
  ts <> [] /\ Zlen ts <= MAX_PARMS /\ Forall token_ok ts /\ Forall push_char (tokens_line ts) /\ Zlen (tokens_line ts) < OPTION_PARM_SIZE.

(** The line that pushes an option. *)
Definition push_directive (ts : list token) : cstr := tokens_line [Word (text "push"); Quoted (tokens_line ts)].

(** inet_ntoa gives digits and dots, at most fifteen. *)
Definition ipv4_text (inet_ntoa : list byte -> cstr) : Prop :=
  forall a, is_u32 a -> let s := inet_ntoa (be_enc 4 a) in
  s <> [] /\ Forall (fun c => isdigit c = true \/ c = 46) s /\ Zlen s <= 15.

(** The options that a client gets: those of the configuration, and its addresses. *)
Definition ifconfig_tokens (inet_ntoa : list byte -> cstr) (local remote : Z) : list token :=
  [Word (text "ifconfig"); Word (inet_ntoa (be_enc 4 local)); Word (inet_ntoa (be_enc 4 remote))].
Definition pushed (inet_ntoa : list byte -> cstr) (tss : list (list token)) (ifc : option (Z * Z)) : list (list token) :=
  tss ++ match ifc with Some (l, r) => [ifconfig_tokens inet_ntoa l r] | None => [] end.

Definition push_params (tss : list (list token)) : list (list cstr) := map (fun ts => token_text <$> ts) tss.

(** add_option is called with the parameters of each option in order. *)
Fixpoint apply_lines {Opts} (add_option : Opts -> Z -> list cstr -> result (Opts * Z)) (o : Opts) (ps : list (list cstr)) : result Opts :=
  match ps with
  | [] => Ok o
  | p :: ps => '(o, _) ← add_option o 0 p; apply_lines add_option o ps
  end.

(** ** Lemmas: texts *)

Lemma Zlen_app_cons {A} (l k : list A) x : Zlen (l ++ x :: k) = Zlen l + 1 + Zlen k.
Proof. rewrite Zlen_app, Zlen_cons. lia. Qed.

Lemma printf_text_fits cap buf s : Zlen buf + Zlen s < cap -> printf_text cap buf s = buf ++ s.
Proof.
  intros H. unfold printf_text. pose proof (Zlen_nonneg s). replace (cap - Zlen buf >? 0) with true by lia.
  rewrite take_ge; [done|]. unfold Zlen in *. lia.
Qed.

(** buf_printf of the buffer class does the same. *)
Lemma wp_printf_text h p b bs s : text_rep h p b bs -> b_offset b = 0 -> Zlen bs < b_capacity b -> no_nul s ->
  wp (buf_printf b s) (fun b' h' => text_rep h' p b' (printf_text (b_capacity b) bs s) /\ b_capacity b' = b_capacity b) h.
Proof.
  intros [H H0] Ho Hr Hs. rep_facts H. eapply wp_mono; [apply (wp_buf_printf h p b bs s H Hs); lia|].
  intros b' h' (-> & H' & _). split; [|done]. unfold printf_text. replace (b_capacity b - Zlen bs >? 0) with true by lia.
  replace (b_capacity b - Zlen bs - 1) with (b_capacity b - b_offset b - b_len b - 1) by lia. exact H'.
Qed.

Lemma push_text_snoc ls l : push_text (ls ++ [l]) = match ls with [] => l | _ => push_text ls ++ 44 :: l end.
Proof.
  induction ls as [|x ls IH]; [done|]. destruct ls as [|y ls]; [done|].
  change (push_text ((x :: y :: ls) ++ [l])) with (x ++ 44 :: push_text ((y :: ls) ++ [l])). rewrite IH.
  change (push_text (x :: y :: ls)) with (x ++ 44 :: push_text (y :: ls)). by rewrite <- app_assoc.
Qed.

Lemma push_text_app ls ks : ls <> [] -> ks <> [] -> push_text (ls ++ ks) = push_text ls ++ 44 :: push_text ks.
Proof.
  intros Hl Hk. induction ls as [|x ls IH]; [done|]. destruct ls as [|y ls]; [by destruct ks|].
  change (push_text ((x :: y :: ls) ++ ks)) with (x ++ 44 :: push_text ((y :: ls) ++ ks)). rewrite IH by done.
  change (push_text (x :: y :: ls)) with (x ++ 44 :: push_text (y :: ls)). by rewrite <- app_assoc.
Qed.

Lemma push_text_prefix ls ks : Zlen (push_text ls) <= Zlen (push_text (ls ++ ks)).
Proof.
  destruct ls as [|x ls]; [apply Zlen_nonneg|]. destruct ks as [|y ks]; [rewrite app_nil_r; lia|].
  rewrite push_text_app, Zlen_app_cons by done. pose proof (Zlen_nonneg (push_text (y :: ks))). lia.
Qed.

Lemma class_comma c : char_class c CC_COMMA = (c =? 44).
Proof. unfold char_class. cbn. by destruct (c =? 44). Qed.
Lemma char_no_comma c : char_inc_exc c CC_ANY CC_COMMA = negb (c =? 44).
Proof. unfold char_inc_exc. by rewrite class_comma. Qed.
Lemma char_print c : char_inc_exc c CC_PRINT CC_CRLF = isprint c && negb ((c =? 10) || (c =? 13)).
Proof. unfold char_inc_exc, char_class. cbn. by destruct (isprint c), (c =? 10), (c =? 13). Qed.

(** *** The characters of options *)

Lemma isprint_range c : isprint c = true <-> 32 <= c <= 126.
Proof. unfold isprint, within. rewrite andb_true_iff, !Z.leb_le. lia. Qed.

Lemma push_char_plain c : push_char c -> plain c.
Proof. intros [H H']. apply isprint_range in H. unfold plain, line_char, NL, CR. lia. Qed.

Lemma string_class_comma s : Forall push_char s -> string_class s CC_ANY CC_COMMA = true.
Proof.
  induction 1 as [|c s [_ Hc] _ IH]; [done|]. cbn [string_class]. rewrite char_no_comma. by replace (c =? 44) with false by lia.
Qed.

(** Control channel messages of printable characters pass string_mod. *)
Lemma string_mod_print s : Forall (fun c => isprint c = true) s -> string_mod s CC_PRINT CC_CRLF 0 = (true, s).
Proof.
  induction 1 as [|c s Hc _ IH]; [done|]. cbn [string_mod]. rewrite IH, char_print, Hc. apply isprint_range in Hc.
  by replace ((c =? 10) || (c =? 13)) with false by lia.
Qed.

Lemma cstring_text s r : no_nul s -> cstring (s ++ 0 :: r) = s.
Proof.
  induction 1 as [|c s Hc _ IH]; [done|]. cbn [app cstring]. rewrite IH. by replace (c =? 0) with false by lia.
Qed.

Lemma received_message s : Forall (fun c => isprint c = true) s ->
  string_mod_buf (buf_null_terminate (Zlen (s ++ [0])) (s ++ [0])) = s ++ [0].
Proof.
  intros Hs. unfold buf_null_terminate. rewrite last_snoc. cbn [Z.eqb]. unfold string_mod_buf.
  rewrite cstring_text by (eapply Forall_impl; [|exact Hs]; intros c Hc; apply isprint_range in Hc; lia).
  rewrite string_mod_print by done. cbn [snd]. rewrite drop_ge; [done|]. rewrite length_app. cbn. lia.
Qed.

Lemma push_text_Forall (P : byte -> Prop) ls : P 44 -> Forall (Forall P) ls -> Forall P (push_text ls).
Proof.
  intros H44. induction 1 as [|l ls Hl Hls IH]; [constructor|]. destruct ls as [|l2 ls]; [done|].
  change (push_text (l :: l2 :: ls)) with (l ++ 44 :: push_text (l2 :: ls)). apply Forall_app. by split; [|constructor].
Qed.

(** *** Directives *)

Lemma token_line_nonempty t : token_ok t -> token_line t <> [].
Proof. destruct t as [s|s]; intros [_ H]; [done|]. by destruct H as [_ H], s. Qed.

Lemma tokens_line_nonempty ts : ts <> [] -> Forall token_ok ts -> tokens_line ts <> [].
Proof.
  intros Hne Hok. destruct ts as [|t ts]; [done|]. inversion Hok as [|? ? Ht _]; subst. apply token_line_nonempty in Ht.
  destruct ts; cbn [tokens_line]; [done|]. by destruct (token_line t).
Qed.

Lemma push_ok_nonempty ts : push_ok ts -> tokens_line ts <> [].
Proof. intros (Hne & _ & Hok & _). by apply tokens_line_nonempty. Qed.

Lemma push_ok_plain ts : push_ok ts -> Forall plain (tokens_line ts).
Proof. intros (_ & _ & _ & H & _). eapply Forall_impl; [|exact H]. apply push_char_plain. Qed.

Lemma push_ok_parse ts : push_ok ts -> parse_line false MAX_PARMS (tokens_line ts) = Ok (token_text <$> ts).
Proof. intros (_ & Hl & Hok & _). by apply parse_line_tokens. Qed.

Lemma good_word_text s : s <> [] -> Forall (fun c => 32 < c <= 126 /\ c <> DQUOTE /\ c <> BACKSLASH /\ c <> SEMICOLON /\ c <> HASH) s -> good_word s.
Proof.
  intros Hne H. split.
  - eapply Forall_impl; [|exact H]. intros c ([Hc Hc'] & _ & Hb & _). split; [|done]. unfold space, isspace, within. lia.
  - destruct H as [|c s Hc _]; [done|]. tauto.
Qed.

(** The line of a directive is read back. *)
Lemma push_directive_parse fatal ts : push_ok ts -> parse_line fatal MAX_PARMS (push_directive ts) = Ok [text "push"; tokens_line ts].
Proof.
  intros H. apply (parse_line_tokens fatal MAX_PARMS [Word (text "push"); Quoted (tokens_line ts)]); [done..|].
  pose proof (push_ok_plain ts H) as Hp. destruct H as (_ & _ & _ & _ & Hl). constructor; [|constructor; [|constructor]].
  - split; [done|]. apply good_word_text; [done|]. by repeat constructor.
  - split; [cbn [token_text]; lia|]. eapply Forall_impl; [|exact Hp]. intros c [[Hc _] _]. lia.
Qed.

Lemma ifconfig_ok inet_ntoa l r : ipv4_text inet_ntoa -> is_u32 l -> is_u32 r -> push_ok (ifconfig_tokens inet_ntoa l r).
Proof.
  intros Hn Hl Hr. pose proof (Hn l Hl) as (Hl1 & Hl2 & Hl3). pose proof (Hn r Hr) as (Hr1 & Hr2 & Hr3).
  assert (forall s, Forall (fun c => isdigit c = true \/ c = 46) s -> Forall (fun c => 32 < c <= 126 /\ c <> DQUOTE /\ c <> BACKSLASH /\ c <> SEMICOLON /\ c <> HASH) s) as Hw.
  { intros s Hs. eapply Forall_impl; [|exact Hs]. intros c Hc. unfold isdigit, within, DQUOTE, BACKSLASH, SEMICOLON, HASH in *. lia. }
  assert (forall s, Forall (fun c => isdigit c = true \/ c = 46) s -> Forall push_char s) as Hc.
  { intros s Hs. eapply Forall_impl; [|exact Hs]. intros c Hc. unfold push_char. rewrite isprint_range. unfold isdigit, within in *. lia. }
  unfold push_ok, ifconfig_tokens. split; [done|]. split; [done|]. split; [|split].
  - assert (forall s, s <> [] -> Forall (fun c => isdigit c = true \/ c = 46) s -> Zlen s <= 15 -> token_ok (Word s)) as Ht.
    { intros s H1 H2 H3. split; [cbn [token_text]; unfold OPTION_PARM_SIZE; lia|]. apply good_word_text; auto. }
    constructor; [|constructor; [auto|constructor; [auto|constructor]]].
    split; [done|]. apply good_word_text; [done|]. by repeat constructor.
  - cbn [tokens_line token_line]. apply Forall_app. split; [by repeat constructor|]. constructor; [done|].
    apply Forall_app. split; [by apply Hc|]. constructor; [done|]. by apply Hc.
  - cbn [tokens_line token_line]. rewrite !Zlen_app_cons. change (Zlen (text "ifconfig")) with 8. unfold OPTION_PARM_SIZE. lia.
Qed.

(** ** The server's configuration *)

Section Config.
Context {Tuntap Routes Rest : Type}.
#[local] Abbreviation options := (options Tuntap Routes Rest).
Context (getaddr getaddr_resolve : cstr -> option Z).
Context (other : options * Z -> Z -> list cstr -> result ((options * Z) * Z)).
Implicit Types (o : options).

Definition push_list_of (lines : list cstr) : option cstr := match lines with [] => None | _ => Some (push_text lines) end.

Lemma set_push_list_same o : set_push_list o (push_list o) = o.
Proof. by destruct o. Qed.
Lemma set_push_list_twice o l l' : set_push_list (set_push_list o l) l' = set_push_list o l'.
Proof. done. Qed.

Lemma push_option_ok fatal o lines l : push_list o = push_list_of lines -> Forall push_char l -> l <> [] ->
  Zlen (push_text (lines ++ [l])) + 2 < MAX_PUSH_LIST_LEN ->
  push_option fatal o l = Ok (set_push_list o (push_list_of (lines ++ [l]))).
Proof.
  intros Hp Hl Hne Hlen. unfold push_option. rewrite string_class_comma, Hp by done. cbn [negb]. rewrite push_text_snoc in Hlen.
  unfold push_list_of. rewrite push_text_snoc. destruct lines as [|x lines].
  - rewrite Zlen_nil. replace (0 + Zlen l + 2 >=? MAX_PUSH_LIST_LEN) with false by lia. done.
  - rewrite Zlen_app_cons in Hlen. replace (_ >=? MAX_PUSH_LIST_LEN) with false by lia. cbn [app]. by rewrite <- app_assoc.
Qed.

Lemma add_option_push fatal allowed o found i l lines : push_list o = push_list_of lines -> Forall push_char l -> l <> [] ->
  Zlen (push_text (lines ++ [l])) + 2 < MAX_PUSH_LIST_LEN -> Z.land OPT_P_PUSH allowed <> 0 ->
  add_option getaddr getaddr_resolve other fatal allowed (o, found) i [text "push"; l] =
    Ok ((set_push_list o (push_list_of (lines ++ [l])), Z.lor found OPT_P_PUSH), i + 1).
Proof.
  intros Hp Hl Hne Hlen Hal. unfold add_option. rewrite bool_decide_true by done. rewrite bool_decide_false by done. cbn [negb andb].
  unfold verify_permission. replace (Z.land OPT_P_PUSH allowed =? 0) with false by lia.
  by rewrite (push_option_ok fatal o lines l) by done.
Qed.

(** The push list after the directives. *)
Lemma read_push_directives fatal allowed tss : forall o found lines, push_list o = push_list_of lines -> Forall push_ok tss ->
  Zlen (push_text (lines ++ (tokens_line <$> tss))) + 2 < MAX_PUSH_LIST_LEN -> Z.land OPT_P_PUSH allowed <> 0 ->
  exists found', read_config_lines (add_option getaddr getaddr_resolve other fatal allowed) fatal (o, found) (push_directive <$> tss) =
    Ok (set_push_list o (push_list_of (lines ++ (tokens_line <$> tss))), found').
Proof.
  induction tss as [|ts tss IH]; intros o found lines Hp Hok Hlen Hal.
  - cbn [fmap list_fmap read_config_lines]. rewrite app_nil_r, <- Hp, set_push_list_same. eauto.
  - inversion Hok as [|? ? Ht Hts]; subst. cbn [fmap list_fmap] in *. fold (tokens_line <$> tss) in *. fold (push_directive <$> tss).
    replace (lines ++ tokens_line ts :: (tokens_line <$> tss)) with ((lines ++ [tokens_line ts]) ++ (tokens_line <$> tss)) in * by (by rewrite <- app_assoc).
    cbn [read_config_lines]. rewrite push_directive_parse by done. cbn [mbind result_bind].
    pose proof (push_text_prefix (lines ++ [tokens_line ts]) (tokens_line <$> tss)). pose proof Ht as (_ & _ & _ & Hc & _).
    change (strip_dashes [text "push"; tokens_line ts]) with [text "push"; tokens_line ts].
    rewrite (add_option_push fatal allowed o found 0 _ lines); [|done..|by apply push_ok_nonempty|lia|done]. cbn [mbind result_bind].
    edestruct (IH (set_push_list o (push_list_of (lines ++ [tokens_line ts]))) (Z.lor found OPT_P_PUSH) (lines ++ [tokens_line ts])) as [f Hf]; [done..|].
    exists f. rewrite Hf. done.
Qed.
End Config.

(** ** The client *)

(** What the client's loop makes of the options, and the NUL behind them. *)
Lemma apply_push_ok {Opts} (add : Opts -> Z -> list cstr -> result (Opts * Z)) tss : forall fuel o, tss <> [] -> Forall push_ok tss ->
  (length tss < fuel)%nat ->
  apply_push_loop add fuel o (push_text (tokens_line <$> tss : list cstr) ++ [0]) =
    (apply_lines add o (push_params tss) ≫= fun o => Ok (o, [] : list byte)).
Proof.
  induction tss as [|ts tss IH]; intros fuel o Hne Hok Hf; [done|]. inversion Hok as [|? ? Ht Hts]; subst.
  destruct fuel as [|fuel]; [cbn in Hf; lia|]. cbn [apply_push_loop]. pose proof Ht as (Hn & _ & _ & _ & Hl).
  assert (exists rest, buf_parse (push_text (tokens_line <$> ts :: tss : list cstr) ++ [0]) 44 OPTION_PARM_SIZE = Ok (true, tokens_line ts, rest) /\
    forall o, apply_push_loop add fuel o rest = (apply_lines add o (push_params tss) ≫= fun o => Ok (o, [] : list byte))) as (rest & -> & Hrest).
  { destruct tss as [|ts2 tss].
    - exists []. split; [by apply buf_parse_plain; [apply push_ok_plain|right|]|]. intros o'. destruct fuel; [cbn in Hf; lia|]. done.
    - exists (push_text (tokens_line <$> ts2 :: tss : list cstr) ++ [0]). split; [|intros o'; apply IH; [done..|cbn in *; lia]].
      change (push_text (tokens_line <$> ts :: ts2 :: tss : list cstr)) with (tokens_line ts ++ 44 :: push_text (tokens_line <$> ts2 :: tss : list cstr)).
      rewrite <- app_assoc. by apply buf_parse_plain; [apply push_ok_plain|left|]. }
  cbn [mbind result_bind]. rewrite push_ok_parse by done. cbn [mbind result_bind push_params map apply_lines].
  destruct ts as [|t ts]; [done|]. cbn [fmap list_fmap]. destruct (add o 0 _) as [[o' i]| |]; cbn [mbind result_bind]; [apply Hrest|done..].
Qed.

(** ** The messages *)

Section Messages.
Context {Tuntap Routes Rest T : Type} `{ControlChannel T}.
#[local] Abbreviation options := (options Tuntap Routes Rest).
#[local] Abbreviation context := (context (Tuntap := Tuntap) (Routes := Routes) (Rest := Rest) (T := T)).
Context (inet_ntoa : list byte -> cstr).
Context (add : options * Z -> Z -> list cstr -> result ((options * Z) * Z)).
Implicit Types (c : context).

Definition push_lines (tss : list (list token)) : list cstr := map tokens_line tss.

(** The addresses to push. *)
Definition pushes_ifconfig c (ifc : option (Z * Z)) : Prop :=
  match ifc with
  | Some (l, r) => push_ifconfig_defined c = true /\ push_ifconfig_local c = l /\ push_ifconfig_remote_netmask c = r /\
                   is_u32 l /\ is_u32 r /\ l <> 0 /\ r <> 0
  | None => push_ifconfig_defined c = false
  end.

Lemma print_addr a : ipv4_text inet_ntoa -> is_u32 a -> print_in_addr_t inet_ntoa a false false = inet_ntoa (be_enc 4 a).
Proof.
  intros Hn Ha. unfold print_in_addr_t. rewrite orb_true_r. apply take_ge. pose proof (Hn a Ha) as (_ & _ & Hl). unfold Zlen in Hl. lia.
Qed.

Lemma pushed_ok tss ifc c : ipv4_text inet_ntoa -> pushes_ifconfig c ifc -> Forall push_ok tss -> Forall push_ok (pushed inet_ntoa tss ifc).
Proof.
  intros Hn Hi Ht. unfold pushed. apply Forall_app. split; [done|]. destruct ifc as [[l r]|]; [|constructor].
  destruct Hi as (_ & _ & _ & Hl & Hr & _). constructor; [by apply ifconfig_ok|constructor].
Qed.

Lemma push_lines_nonempty tss : Forall push_ok tss -> push_lines tss <> [] -> Zlen (push_text (push_lines tss)) <> 0.
Proof.
  intros Hok Hne. destruct tss as [|ts tss]; [done|]. inversion Hok as [|? ? Ht _]; subst. apply push_ok_nonempty in Ht.
  pose proof (push_text_prefix [tokens_line ts] (push_lines tss)) as Hp.
  change (push_lines (ts :: tss)) with ([tokens_line ts] ++ push_lines tss). change (push_text [tokens_line ts]) with (tokens_line ts) in Hp.
  destruct (tokens_line ts); [done|]. rewrite Zlen_cons in Hp. pose proof (Zlen_nonneg l). lia.
Qed.

Lemma push_lines_length tss : Forall push_ok tss -> (length tss <= length (push_text (push_lines tss)))%nat.
Proof.
  induction 1 as [|ts tss Ht Hts IH]; [done|]. apply push_ok_nonempty in Ht. destruct (tokens_line ts) as [|x l] eqn:E; [done|].
  unfold push_lines in *. cbn [map]. rewrite E. destruct tss as [|ts2 tss]; [cbn; lia|].
  change (push_text ((x :: l) :: map tokens_line (ts2 :: tss))) with ((x :: l) ++ 44 :: push_text (map tokens_line (ts2 :: tss))).
  rewrite length_app. cbn [length] in *. lia.
Qed.

(** The reply has all options, and is a C string of printable characters. *)
Lemma push_reply_text_ok c tss ifc : ipv4_text inet_ntoa -> pushes_ifconfig c ifc -> Forall push_ok tss ->
  push_list (c_options c) = push_list_of (push_lines tss) -> pushed inet_ntoa tss ifc <> [] ->
  11 + Zlen (push_text (push_lines (pushed inet_ntoa tss ifc))) < MAX_PUSH_LIST_LEN ->
  push_reply_text inet_ntoa c = text "PUSH_REPLY" ++ 44 :: push_text (push_lines (pushed inet_ntoa tss ifc)).
Proof.
  intros Hn Hi Hok Hp Hne Hlen. unfold push_reply_text. rewrite Hp. unfold MAX_PUSH_LIST_LEN in *.
  rewrite (printf_text_fits _ []) by done. cbn [app].
  set (buf := match push_list_of _ with Some _ => _ | None => _ end).
  assert (buf = text "PUSH_REPLY" ++ match push_lines tss with [] => [] | _ => 44 :: push_text (push_lines tss) end) as Eb.
  { unfold buf, push_list_of. unfold pushed, push_lines in Hlen. rewrite map_app in Hlen. fold (push_lines tss) in Hlen.
    pose proof (push_text_prefix (push_lines tss) (map tokens_line (match ifc with Some (l, r) => [ifconfig_tokens inet_ntoa l r] | None => [] end))).
    destruct (push_lines tss) eqn:El; [done|]. rewrite <- El in *. pose proof (push_lines_nonempty tss Hok ltac:(by rewrite El)).
    replace (Zlen (push_text (push_lines tss)) =? 0) with false by lia. cbn [negb].
    rewrite printf_text_fits; [done|]. rewrite Zlen_cons. change (Zlen (text "PUSH_REPLY")) with 10. lia. }
  clearbody buf. subst buf. destruct ifc as [[l r]|]; cbn in Hi.
  - destruct Hi as (-> & -> & -> & Hl & Hr & Hl0 & Hr0). replace (l =? 0) with false by lia. replace (r =? 0) with false by lia. cbn [negb andb].
    rewrite !print_addr by done.
    change (text ",ifconfig " ++ inet_ntoa (be_enc 4 l) ++ 32 :: inet_ntoa (be_enc 4 r)) with (44 :: tokens_line (ifconfig_tokens inet_ntoa l r)).
    unfold pushed, push_lines in Hlen |- *. rewrite map_app in Hlen |- *. fold (push_lines tss) in Hlen |- *. cbn [map] in Hlen |- *.
    rewrite push_text_snoc in Hlen |- *. destruct (push_lines tss) eqn:El.
    + rewrite app_nil_r. apply printf_text_fits. rewrite Zlen_cons. change (Zlen (text "PUSH_REPLY")) with 10. lia.
    + rewrite <- El in *. rewrite Zlen_app_cons in Hlen. rewrite printf_text_fits; [by rewrite <- app_assoc|].
      rewrite Zlen_app_cons, Zlen_cons. change (Zlen (text "PUSH_REPLY")) with 10. lia.
  - rewrite Hi. cbn [andb]. unfold pushed in *. rewrite app_nil_r in Hne |- *. destruct tss; done.
Qed.

(** The server has the client's request, and answers. *)
Lemma server_answers now auth_retry c t t1 ok t2 : c_tls_multi c = Some t ->
  chan_recv t = Ok (Some (text "PUSH_REQUEST" ++ [0]), t1) -> chan_authenticated t1 = true ->
  context_auth c = CAS_SUCCEEDED -> push_reply_deferred c = false ->
  Zlen (push_reply_text inet_ntoa c) < MAX_PUSH_LIST_LEN -> chan_send t1 (push_reply_text inet_ntoa c ++ [0]) = Ok (ok, t2) ->
  check_incoming_control_channel inet_ntoa add now auth_retry c = Ok (after_send now (set_tls_multi c (Some t2))).
Proof.
  intros Ht Hr Ha Hc Hd Hlen Hs. unfold check_incoming_control_channel. rewrite Ht, Hr. cbn [mbind result_bind].
  rewrite received_message by (by repeat constructor). change (buf_string_match_head_str _ (text "AUTH_FAILED")) with false.
  change (buf_string_match_head_str _ (text "PUSH_")) with true. cbv iota. unfold incoming_push_message, process_incoming_push_msg.
  change (buf_string_compare_advance _ (text "PUSH_REQUEST")) with (Some [0 : byte]). cbv iota. cbn [c_tls_multi set_tls_multi context_auth push_reply_deferred].
  rewrite Ha, Hc, Hd. cbn [negb orb andb]. change (CAS_SUCCEEDED =? CAS_FAILED) with false. change (CAS_SUCCEEDED =? CAS_SUCCEEDED) with true. cbv iota.
  unfold send_push_reply. change (push_reply_text inet_ntoa (set_tls_multi c (Some t1))) with (push_reply_text inet_ntoa c).
  replace (Zlen _ <? MAX_PUSH_LIST_LEN) with true by lia. unfold send_control_channel_string. cbn [c_tls_multi set_tls_multi].
  rewrite Hs. cbn [mbind result_bind]. by destruct ok.
Qed.

(** The client has the reply, and applies it. *)
Lemma client_applies now auth_retry c t t1 tss : c_tls_multi c = Some t -> pull (c_options c) = true -> tss <> [] -> Forall push_ok tss ->
  chan_recv t = Ok (Some ((text "PUSH_REPLY" ++ 44 :: push_text (push_lines tss)) ++ [0]), t1) ->
  check_incoming_control_channel inet_ntoa add now auth_retry c =
    ('(o, found) ← apply_lines add (pre_pull_restore (c_options c), 0) (push_params tss);
     Ok (set_push_request_interval (set_do_ups (set_options (set_pulled_options_string (set_options (set_tls_multi c (Some t1)) (pre_pull_restore (c_options c)))
       (Some (push_text (push_lines tss)))) o) (do_ups c ++ [(true, found)])) event_timeout_clear)).
Proof.
  intros Ht Hp Hne Hok Hr. unfold check_incoming_control_channel. rewrite Ht, Hr. cbn [mbind result_bind].
  assert (Forall (fun x => isprint x = true) (push_text (push_lines tss))) as Hpr.
  { apply push_text_Forall; [done|]. apply Forall_map. eapply Forall_impl; [|exact Hok]. intros ts (_ & _ & _ & Hc & _).
    eapply Forall_impl; [|exact Hc]. by intros x []. }
  rewrite received_message by (apply Forall_app; split; [by repeat constructor|by constructor]).
  set (body := push_text (push_lines tss)) in *.
  assert (forall m, Zlen m <= 10 -> buf_string_match_head_str ((text "PUSH_REPLY" ++ 44 :: body) ++ [0]) m = bool_decide (take (length m) (text "PUSH_REPLY") = m)) as Hm.
  { intros m Hm. unfold buf_string_match_head_str. rewrite <- app_assoc, Zlen_app. change (Zlen (text "PUSH_REPLY")) with 10.
    pose proof (Zlen_nonneg ((44 :: body) ++ [0])). replace (_ >? _) with false by lia. rewrite take_app_le; [done|]. change (length (text "PUSH_REPLY")) with 10%nat. unfold Zlen in Hm. lia. }
  assert (buf_string_match_head_str ((text "PUSH_REPLY" ++ 44 :: body) ++ [0]) (text "AUTH_FAILED") = false) as ->.
  { unfold buf_string_match_head_str. by destruct (_ >? _). }
  rewrite (Hm (text "PUSH_")) by done. change (bool_decide _) with true. cbv iota. unfold incoming_push_message, process_incoming_push_msg.
  unfold buf_string_compare_advance.
  assert (buf_string_match_head_str ((text "PUSH_REPLY" ++ 44 :: body) ++ [0]) (text "PUSH_REQUEST") = false) as ->.
  { unfold buf_string_match_head_str. by destruct (_ >? _). }
  cbn [c_options set_tls_multi]. rewrite Hp, (Hm (text "PUSH_REPLY")) by done. change (bool_decide _) with true. cbv iota.
  change (drop (length (text "PUSH_REPLY")) ((text "PUSH_REPLY" ++ 44 :: body) ++ [0])) with (44 :: body ++ [0]). cbn [read_u8].
  change (44 =? 44) with true. cbv iota. rewrite cstring_text by (eapply Forall_impl; [|exact Hpr]; intros x Hx; apply isprint_range in Hx; lia).
  unfold apply_push_options. cbn [c_options set_pulled_options_string set_options].
  unfold body, push_lines. rewrite apply_push_ok; [|done..|].
  - cbn [mbind result_bind]. destruct (apply_lines _ _ _) as [[o found]| |]; done.
  - rewrite length_app. fold (push_lines tss). fold body. cbn [length]. pose proof (push_lines_length tss Hok). unfold body. lia.
Qed.
End Messages.

(** ** Pushing and pulling *)

Section Roundtrip.
Context {Tuntap Routes Rest T : Type} `{ControlChannel T}.
#[local] Abbreviation options := (options Tuntap Routes Rest).
#[local] Abbreviation context := (context (Tuntap := Tuntap) (Routes := Routes) (Rest := Rest) (T := T)).
Context (getaddr getaddr_resolve : cstr -> option Z) (inet_ntoa : list byte -> cstr).
Context (other add : options * Z -> Z -> list cstr -> result ((options * Z) * Z)).

(** A client that asked for its options may have them, and its request is there. *)
Definition ready_to_push (c : context) (t t1 : T) : Prop :=
  c_tls_multi c = Some t /\ chan_recv t = Ok (Some (text "PUSH_REQUEST" ++ [0]), t1) /\ chan_authenticated t1 = true /\
  context_auth c = CAS_SUCCEEDED /\ push_reply_deferred c = false.

(** C15: what a server's configuration pushes is what its clients do: from the lines push "option", however the
    parameters of the options are quoted, and the client's addresses, the server makes one message;
    the client that receives it forgets what it pulled before, calls add_option with exactly the
    parameters that were written, in order, and brings up the tunnel.  An option that may be
    pushed has at most sixteen parameters and is printable, without commas and shorter than 256
    bytes; the whole message stays below MAX_PUSH_LIST_LEN. *)
Theorem push_pull_roundtrip fatal allowed (o : options) found tss ifc :
  ipv4_text inet_ntoa -> Z.land OPT_P_PUSH allowed <> 0 -> push_list o = None -> Forall push_ok tss ->
  pushed inet_ntoa tss ifc <> [] -> 11 + Zlen (push_text (push_lines (pushed inet_ntoa tss ifc))) < MAX_PUSH_LIST_LEN ->
  exists o' found', read_config_lines (add_option getaddr getaddr_resolve other fatal allowed) fatal (o, found) (map push_directive tss) = Ok (o', found') /\
  forall (cs : context) t t1, push_list (c_options cs) = push_list o' -> pushes_ifconfig cs ifc -> ready_to_push cs t t1 ->
  exists msg,
    (forall now auth_retry ok t2, chan_send t1 msg = Ok (ok, t2) ->
     check_incoming_control_channel inet_ntoa add now auth_retry cs = Ok (after_send now (set_tls_multi cs (Some t2)))) /\
    (forall now auth_retry (cc : context) u u1, c_tls_multi cc = Some u -> chan_recv u = Ok (Some msg, u1) -> pull (c_options cc) = true ->
     match apply_lines add (pre_pull_restore (c_options cc), 0) (push_params (pushed inet_ntoa tss ifc)) with
     | Ok (o, found) => exists cc', check_incoming_control_channel inet_ntoa add now auth_retry cc = Ok cc' /\ c_options cc' = o /\
         do_ups cc' = do_ups cc ++ [(true, found)] /\ push_request_interval cc' = event_timeout_clear /\ c_tls_multi cc' = Some u1
     | AssertFail => check_incoming_control_channel inet_ntoa add now auth_retry cc = AssertFail
     | Fault => check_incoming_control_channel inet_ntoa add now auth_retry cc = Fault
     end).
Proof.
  intros Hn Hal Hp Hok Hne Hlen.
  assert (Zlen (push_text (push_lines tss)) + 2 < MAX_PUSH_LIST_LEN) as Hl.
  { pose proof (push_text_prefix (push_lines tss) (push_lines (match ifc with Some (l, r) => [ifconfig_tokens inet_ntoa l r] | None => [] end))) as Hpre.
    unfold pushed, push_lines in *. rewrite map_app in Hlen. lia. }
  destruct (read_push_directives getaddr getaddr_resolve other fatal allowed tss o found []) as [found' Hr]; [done..|].
  eexists _, found'. split; [exact Hr|]. intros cs t t1 Hcs Hi (Ht & Hreq & Ha & Hc & Hd). cbn [push_list set_push_list app] in Hcs.
  exists ((text "PUSH_REPLY" ++ 44 :: push_text (push_lines (pushed inet_ntoa tss ifc))) ++ [0]).
  rewrite <- (push_reply_text_ok inet_ntoa cs tss ifc) by done. split.
  - intros now auth_retry ok t2 Hs. eapply server_answers; try done. rewrite (push_reply_text_ok inet_ntoa cs tss ifc) by done.
    rewrite Zlen_app_cons. change (Zlen (text "PUSH_REPLY")) with 10. lia.
  - intros now auth_retry cc u u1 Hu Hru Hpull. rewrite (push_reply_text_ok inet_ntoa cs tss ifc) in Hru by done.
    rewrite (client_applies inet_ntoa add now auth_retry cc u u1 (pushed inet_ntoa tss ifc)); [|done..|by eapply pushed_ok|done].
    destruct (apply_lines _ _ _) as [[o1 f1]| |]; [|done..]. cbn [mbind result_bind]. by eexists.
Qed.
End Roundtrip.

(** *** An example: a channel of two lists of messages, and a client that writes its options down *)

Definition mailbox : Type := list (list byte) * list (list byte).
#[export] Instance mailbox_channel : ControlChannel mailbox := {|
  chan_send := fun '(inbox, outbox) m => Ok (true, (inbox, outbox ++ [m]));
  chan_recv := fun '(inbox, outbox) => Ok (match inbox with [] => (None, (inbox, outbox)) | m :: inbox => (Some m, (inbox, outbox)) end);
  chan_authenticated := fun _ => true
|}.

Lemma ipv4_text3 : ipv4_text ntoa3.
Proof.
  assert (forall x, is_byte x -> Forall (fun c => isdigit c = true \/ c = 46) (digits3 x)) as Hd.
  { unfold is_byte, digits3, isdigit, within. intros x Hx. repeat (apply Forall_cons_2; [left; apply andb_true_iff; rewrite !Z.leb_le;
      Z.to_euclidean_division_equations; lia|]). apply Forall_nil_2. }
  intros a _. cbn. split; [done|]. split; [|done].
  repeat (apply Forall_app; split; [by apply Hd, u8_range|constructor; [by right|]]). by apply Hd, u8_range.
Qed.

Definition demo_options (p : bool) : options unit unit (list (list cstr)) := Options p None tt None 0 None [] None 60 [].
Definition log_option : options unit unit (list (list cstr)) * Z -> Z -> list cstr -> result ((options unit unit (list (list cstr)) * Z) * Z) :=
  fun '(o, found) i p =>
  Ok ((Options (pull o) (pre_pull o) (tuntap_options o) (routes o) (foreign_option_index o) (push_list o) (iroutes o) (opt_ifconfig o)
        (scheduled_exit_interval o) (opt_rest o ++ [p]), found), i).
Definition demo_context (p : bool) (l : option cstr) (inbox : list (list byte)) : context (T := mailbox) :=
  Context (Some (inbox, [])) (set_push_list (demo_options p) l) false CAS_SUCCEEDED true 168427526 168427525 event_timeout_clear
    (Et true 5 100) event_timeout_clear (Interval 0 0 0 0 0) 0 (Tv 0 0) None None false [].
Definition demo_tss : list (list token) :=
  [[Word (text "route"); Word (text "10.9.0.0"); Word (text "255.255.0.0")]; [Word (text "echo"); Quoted (text "hello world")]].

Lemma demo_push_ok : Forall push_ok demo_tss.
Proof.
  repeat constructor; try done; try (by apply good_word_text; [|repeat constructor]); by repeat constructor.
Qed.

Lemma push_pull_roundtrip_witness :
  exists o' found',
    read_config_lines (add_option (fun _ => None) (fun _ => None) log_option true (-1)) true (demo_options false, 0) (map push_directive demo_tss) = Ok (o', found') /\
    exists msg,
      check_incoming_control_channel ntoa3 log_option 7 0 (demo_context false (push_list o') [text "PUSH_REQUEST" ++ [0]]) =
        Ok (after_send 7 (set_tls_multi (demo_context false (push_list o') []) (Some ([], [msg])))) /\
      exists cc', check_incoming_control_channel ntoa3 log_option 9 0 (demo_context true None [msg]) = Ok cc' /\
        opt_rest (c_options cc') = [[text "route"; text "10.9.0.0"; text "255.255.0.0"]; [text "echo"; text "hello world"];
                                    [text "ifconfig"; text "010.010.000.006"; text "010.010.000.005"]].
Proof.
  destruct (push_pull_roundtrip (T := mailbox) (fun _ => None) (fun _ => None) ntoa3 log_option log_option true (-1) (demo_options false) 0 demo_tss
    (Some (168427526, 168427525))) as (o' & f' & Hr & Hp);
    [apply ipv4_text3|done|done|apply demo_push_ok|done|by vm_compute|].
  exists o', f'. split; [exact Hr|].
  destruct (Hp (demo_context false (push_list o') [text "PUSH_REQUEST" ++ [0]]) ([text "PUSH_REQUEST" ++ [0]], []) ([], [])) as (msg & Hs & Hc);
    [done|by repeat split|by repeat split|].
  exists msg. split; [by apply (Hs 7 0 true)|].
  destruct (Hc 9 0 (demo_context true None [msg]) ([msg], []) ([], [])) as (cc' & Hcc & Ho & _); [done..|].
  exists cc'. split; [exact Hcc|]. by rewrite Ho.
Defined.

(** ** Routes to a client's own networks *)

Lemma buf_parse_last cn size : Forall plain cn -> cn <> [] -> Zlen cn < size -> buf_parse cn 44 size = Ok (true, cn, []).
Proof.
  intros Hp Hne Hs. unfold buf_parse. pose proof (Zlen_nonneg cn). replace (size >? 0) with true by lia. cbn [assert_ mbind result_bind].
  assert (forall l line, Forall plain l -> Zlen line + Zlen l < size -> buf_parse_loop l 44 line size = (true, line ++ l ++ [0], [])) as Hloop.
  { induction l as [|c l IH]; intros line Hl Hs'; cbn [buf_parse_loop].
    - rewrite Zlen_nil in Hs'. replace (Zlen line >=? size) with false by lia. done.
    - inversion Hl as [|? ? ((Hc & _) & Hd) Hl']; subst. rewrite Zlen_cons in Hs'. pose proof (Zlen_nonneg l).
      replace (c <=? 0) with false by lia. replace (c =? 44) with false by lia. cbn [orb].
      replace (Zlen line >=? size) with false by lia. replace (c =? 0) with false by lia.
      rewrite IH; [by rewrite <- app_assoc|done|rewrite Zlen_app, Zlen_cons, Zlen_nil; lia]. }
  rewrite Hloop by done. cbn [app]. rewrite take_app_ge by (unfold Zlen in *; lia).
  assert (forall n, cstring ((cn ++ take n [0]) ++ [0]) = cn) as Hc.
  { intros n. rewrite <- app_assoc. destruct n; cbn [take app]; by apply cstring_plain. }
  rewrite Hc. by rewrite bool_decide_false.
Qed.

Section OwnRoutes.
Context (getaddr : cstr -> option Z).

(** The push list without the routes of [ir]. *)
Definition without_own (ir : list iroute) (tss : list (list token)) : list (list token) :=
  List.filter (fun ts => negb (is_own_route getaddr ir (token_text <$> ts))) tss.

Lemma push_text_room (pre : list cstr) l ks : Zlen (push_text ((pre ++ [l]) ++ ks)) < MAX_PUSH_LIST_LEN ->
  printf_text MAX_PUSH_LIST_LEN (match pre with [] => push_text pre | _ => printf_text MAX_PUSH_LIST_LEN (push_text pre) [44] end) l = push_text (pre ++ [l]).
Proof.
  intros Hlen. pose proof (push_text_prefix (pre ++ [l]) ks) as Hp. rewrite push_text_snoc in Hp |- *. destruct pre as [|x pre].
  - cbn [push_text]. apply printf_text_fits. rewrite Zlen_nil. lia.
  - rewrite Zlen_app_cons in Hp. pose proof (Zlen_nonneg l). change (Zlen [44]) with 1 in *.
    rewrite (printf_text_fits _ _ [44]) by (change (Zlen [44]) with 1; lia). rewrite printf_text_fits by (rewrite Zlen_app; change (Zlen [44]) with 1; lia).
    by rewrite <- app_assoc.
Qed.

Lemma remove_routes_ok ir tss : forall fuel (pre : list (list token)), Forall push_ok tss -> (length tss < fuel)%nat ->
  Zlen (push_text (push_lines (pre ++ tss))) < MAX_PUSH_LIST_LEN ->
  remove_loop getaddr fuel ir (push_text (push_lines tss)) (match pre with [] => true | _ => false end) (push_text (push_lines pre)) =
    Ok (push_text (push_lines (pre ++ without_own ir tss))).
Proof.
  induction tss as [|ts tss IH]; intros fuel pre Hok Hf Hlen.
  - destruct fuel as [|fuel]; [cbn in Hf; lia|]. cbn. by rewrite app_nil_r.
  - inversion Hok as [|? ? Ht Hts]; subst. destruct fuel as [|fuel]; [cbn in Hf; lia|]. cbn [remove_loop]. pose proof Ht as (_ & _ & _ & _ & Hl).
    assert (buf_parse (push_text (push_lines (ts :: tss))) 44 MAX_PUSH_LIST_LEN = Ok (true, tokens_line ts, push_text (push_lines tss))) as ->.
    { unfold OPTION_PARM_SIZE in Hl. destruct tss as [|ts2 tss].
      - apply buf_parse_last; [by apply push_ok_plain|by apply push_ok_nonempty|unfold MAX_PUSH_LIST_LEN; lia].
      - apply buf_parse_plain; [by apply push_ok_plain|by left|unfold MAX_PUSH_LIST_LEN; lia]. }
    cbn [mbind result_bind]. rewrite push_ok_parse by done. cbn [mbind result_bind]. unfold without_own. cbn [List.filter].
    destruct (is_own_route getaddr ir (token_text <$> ts)); cbn [negb].
    + fold (without_own ir tss). apply IH; [done|cbn in Hf; lia|].
      enough (Zlen (push_text (push_lines (pre ++ tss))) <= Zlen (push_text (push_lines (pre ++ ts :: tss)))) by lia.
      unfold push_lines. rewrite !map_app. cbn [map]. destruct tss as [|ts2 tss]; [cbn [map]; rewrite app_nil_r; apply push_text_prefix|].
      destruct pre as [|y pre].
      * change (push_text (map tokens_line [] ++ tokens_line ts :: map tokens_line (ts2 :: tss))) with (tokens_line ts ++ 44 :: push_text (map tokens_line (ts2 :: tss))).
        rewrite Zlen_app_cons. pose proof (Zlen_nonneg (tokens_line ts)). cbn [map app]. lia.
      * rewrite !push_text_app, !Zlen_app_cons by done. change (push_text (tokens_line ts :: map tokens_line (ts2 :: tss))) with (tokens_line ts ++ 44 :: push_text (map tokens_line (ts2 :: tss))).
        rewrite Zlen_app_cons. pose proof (Zlen_nonneg (tokens_line ts)). lia.
    + fold (without_own ir tss). replace (pre ++ ts :: without_own ir tss) with ((pre ++ [ts]) ++ without_own ir tss) by (by rewrite <- app_assoc).
      replace (pre ++ ts :: tss) with ((pre ++ [ts]) ++ tss) in Hlen by (by rewrite <- app_assoc).
      rewrite <- IH with (fuel := fuel); [|done|cbn in Hf; lia|done]. f_equal; [by destruct pre|].
      unfold push_lines in *. rewrite !map_app in Hlen. rewrite map_app. cbn [map] in *. rewrite <- push_text_room with (ks := map tokens_line tss) by done.
      by destruct pre.
Qed.
End OwnRoutes.

(** ** A client's networks in its file of --client-config-dir *)

Definition HOST_MASK : Z := 2 ^ 32 - 1.

(** The mask of a network as remove_iroutes_from_push_route_list sees it: that of a host is lost. *)
Definition seen_mask (m : Z) : Z := if m =? HOST_MASK then 0 else m.

Lemma find_netbits_mask n : forall i m k, find_netbits n i m = Some k -> netbits_to_netmask k = m /\ i <= k < i + Z.of_nat n.
Proof.
  induction n as [|n IH]; intros i m k; cbn [find_netbits]; [done|]. destruct (netbits_to_netmask i =? m) eqn:E.
  - intros [= <-]. apply Z.eqb_eq in E. split; [done|lia].
  - intros H. apply IH in H as [H1 H2]. split; [done|lia].
Qed.

Lemma netbits_seen n m b : netmask_to_netbits n m = Some b -> netbits_to_netmask b = seen_mask m.
Proof.
  unfold netmask_to_netbits. destruct (_ =? n); [|done]. destruct (find_netbits 33 0 m) as [k|] eqn:E; [|done]. cbn. intros [= <-].
  apply find_netbits_mask in E as [<- Hk]. cbn in Hk.
  assert (forallb (fun k => netbits_to_netmask (if k =? 32 then -1 else k) =? seen_mask (netbits_to_netmask k)) (Z.of_nat <$> seq 0 33) = true) as Hall
    by (by vm_compute).
  rewrite forallb_forall in Hall. apply Z.eqb_eq, Hall. apply list_elem_of_In, list_elem_of_fmap. exists (Z.to_nat k). split; [lia|].
  apply elem_of_seq. lia.
Qed.

Section Established.
Context {Tuntap Routes Rest T : Type} `{ControlChannel T}.
#[local] Abbreviation options := (options Tuntap Routes Rest).
#[local] Abbreviation context := (context (Tuntap := Tuntap) (Routes := Routes) (Rest := Rest) (T := T)).
Context (getaddr getaddr_resolve : cstr -> option Z).
Context (other : options * Z -> Z -> list cstr -> result ((options * Z) * Z)).

(** A network and its mask, and the directive that gives it to the client. *)
Definition net_ok (nm : cstr * cstr) : Prop :=
  token_ok (Word (fst nm)) /\ token_ok (Word (snd nm)) /\
  exists n m b, getaddr (fst nm) = Some n /\ getaddr (snd nm) = Some m /\ netmask_to_netbits n m = Some b.
Definition iroute_directive (nm : cstr * cstr) : cstr := tokens_line [Word (text "iroute"); Word (fst nm); Word (snd nm)].

(** A directive for the route to one of the networks. *)
Definition routes_to (nets : list (cstr * cstr)) (p : list cstr) : bool :=
  match p with
  | name :: a :: b :: _ =>
      bool_decide (name = text "route") &&
      existsb (fun nm => bool_decide (getaddr a = getaddr (fst nm)) && bool_decide (getaddr b = seen_mask <$> getaddr (snd nm))) nets
  | _ => false
  end.

Definition iroute_of (nm : cstr * cstr) : iroute :=
  let n := addr_or_0 (getaddr (fst nm)) in
  Iroute n (match netmask_to_netbits n (addr_or_0 (getaddr (snd nm))) with Some b => b | None => 0 end).

Lemma existsb_rev {A} (f : A -> bool) l : existsb f (rev l) = existsb f l.
Proof.
  induction l as [|x l IH]; [done|]. cbn [rev existsb]. rewrite existsb_app, IH. cbn [existsb]. rewrite orb_false_r. apply orb_comm.
Qed.

Lemma routes_to_own nets p : Forall net_ok nets -> is_own_route getaddr (rev (map iroute_of nets)) p = routes_to nets p.
Proof.
  intros Hn. destruct p as [|name [|a [|b p]]]; [done..|]. unfold is_own_route, routes_to. f_equal.
  destruct (getaddr a) as [x|], (getaddr b) as [y|].
  - rewrite existsb_rev. induction Hn as [|nm nets (_ & _ & n & m & bits & E1 & E2 & E3) _ IH]; [done|]. cbn [map existsb]. rewrite IH. f_equal.
    unfold iroute_of. rewrite E1, E2. cbn [addr_or_0 Mroute.network netbits fmap option_fmap option_map]. rewrite E3, (netbits_seen _ _ _ E3).
    f_equal; case_bool_decide; lia || (apply Z.eqb_eq; congruence) || (apply Z.eqb_neq; congruence).
  - induction Hn as [|nm nets (_ & _ & n & m & bits & E1 & E2 & E3) _ IH]; [done|]. cbn [existsb]. rewrite <- IH, E1, E2. cbn. by rewrite andb_false_r.
  - induction Hn as [|nm nets (_ & _ & n & m & bits & E1 & E2 & E3) _ IH]; [done|]. cbn [existsb]. by rewrite <- IH, E1.
  - induction Hn as [|nm nets (_ & _ & n & m & bits & E1 & E2 & E3) _ IH]; [done|]. cbn [existsb]. by rewrite <- IH, E1.
Qed.

Lemma add_option_iroute allowed (o : options) found i nm n m b : Z.land OPT_P_INSTANCE allowed <> 0 ->
  getaddr (fst nm) = Some n -> getaddr (snd nm) = Some m -> netmask_to_netbits n m = Some b ->
  add_option getaddr getaddr_resolve other false allowed (o, found) i [text "iroute"; fst nm; snd nm] =
    Ok ((set_iroutes o (Iroute n b :: iroutes o), Z.lor found OPT_P_INSTANCE), i + 1 + 1).
Proof.
  intros Hal E1 E2 E3. unfold add_option.
  change (bool_decide (text "iroute" = text "push")) with false. change (bool_decide (text "iroute" = text "push-reset")) with false.
  change (bool_decide (text "iroute" = text "iroute")) with true. rewrite (bool_decide_false ([fst nm; snd nm] = [])) by done. cbn [negb andb].
  unfold verify_permission. replace (Z.land OPT_P_INSTANCE allowed =? 0) with false by lia. unfold option_iroute. cbn [head].
  rewrite E1, E2. cbn [addr_or_0]. by rewrite E3.
Qed.

Lemma read_iroutes allowed nets : Z.land OPT_P_INSTANCE allowed <> 0 -> forall (o : options) found, Forall net_ok nets ->
  exists found', read_config_lines (add_option getaddr getaddr_resolve other false allowed) false (o, found) (map iroute_directive nets) =
    Ok (set_iroutes o (rev (map iroute_of nets) ++ iroutes o), found').
Proof.
  intros Hal. induction nets as [|nm nets IH]; intros o found Hok.
  - exists found. cbn. by destruct o.
  - inversion Hok as [|? ? Hnm Hnets]; subst. destruct Hnm as (H1 & H2 & n & m & b & E1 & E2 & E3). cbn [map read_config_lines].
    assert (parse_line false MAX_PARMS (iroute_directive nm) = Ok [text "iroute"; fst nm; snd nm]) as ->.
    { apply (parse_line_tokens false MAX_PARMS [Word (text "iroute"); Word (fst nm); Word (snd nm)]); [done..|].
      constructor; [|constructor; [done|constructor; [done|constructor]]]. split; [done|]. apply good_word_text; [done|]. by repeat constructor. }
    cbn [mbind result_bind]. change (strip_dashes (text "iroute" :: [fst nm; snd nm])) with [text "iroute"; fst nm; snd nm].
    rewrite (add_option_iroute allowed o found 0 nm n m b) by done. cbn [mbind result_bind].
    edestruct (IH (set_iroutes o (Iroute n b :: iroutes o))) as [f Hf]; [done|]. exists f. rewrite Hf. f_equal. f_equal.
    cbn [map rev]. unfold iroute_of at 3. rewrite E1, E2. cbn [addr_or_0]. rewrite E3. by rewrite <- app_assoc.
Qed.

Lemma select_ok now tt cn pool (c : context) : match pool with Some p => pool_wf p | None => True end ->
  exists pool' h c', multi_select_virtual_addr now tt cn pool (-1) c = Ok (pool', h, c') /\ c_options c' = c_options c.
Proof.
  intros Hw. unfold multi_select_virtual_addr. destruct (opt_ifconfig (c_options c)) as [[l r]|]; [by eexists _, _, _|].
  destruct pool as [p|]; [|by eexists _, _, _]. change (-1 <? 0) with true. cbv iota.
  destruct (acquire_ok now p cn Hw) as [[_ ->] | (k & e & [l r] & _ & _ & _ & _ & ->)]; cbn [mbind result_bind]; [by eexists _, _, _|].
  destruct (tt_type tt); by eexists _, _, _.
Qed.

Lemma without_own_routes nets tss : Forall net_ok nets ->
  without_own getaddr (rev (map iroute_of nets)) tss = List.filter (fun ts => negb (routes_to nets (token_text <$> ts))) tss.
Proof. intros Hn. unfold without_own. apply filter_ext. intros ts. by rewrite routes_to_own. Qed.

(** C16: when a client of a tun server connects, the routes that lead to its own networks, as its file
    of --client-config-dir gives them, are taken out of what is pushed to it, and nothing else is: the
    other options keep their order. The mask of a host is not recognised (it is taken for 0.0.0.0). *)
Theorem own_networks_not_pushed allowed now tt cn count pool h (c : context) t nets tss :
  c_tls_multi c = Some t -> chan_authenticated t = true -> tt_type tt = DEV_TYPE_TUN -> Z.land OPT_P_INSTANCE allowed <> 0 ->
  match pool with Some p => pool_wf p | None => True end -> Forall net_ok nets -> iroutes (c_options c) = [] ->
  Forall push_ok tss -> Zlen (push_text (push_lines tss)) < MAX_PUSH_LIST_LEN -> push_list (c_options c) = Some (push_text (push_lines tss)) ->
  exists pool' h' c', multi_connection_established getaddr (add_option getaddr getaddr_resolve other false allowed) now tt cn
      (Some (map iroute_directive nets)) true count pool h c = Ok (pool', h', c') /\
    push_list (c_options c') = Some (push_text (push_lines (List.filter (fun ts => negb (routes_to nets (token_text <$> ts))) tss))) /\
    context_auth c' = CAS_SUCCEEDED /\ push_reply_deferred c' = false.
Proof.
  intros Ht Ha Htt Hal Hw Hn Hir Hok Hlen Hp. unfold multi_connection_established. rewrite Ht, Ha.
  destruct (read_iroutes allowed nets Hal (c_options c) 0 Hn) as [f ->]. cbn [mbind result_bind]. rewrite Hir, app_nil_r.
  set (o := set_iroutes (c_options c) (rev (map iroute_of nets))).
  destruct (select_ok now tt cn pool (set_options c o) Hw) as (pool' & h' & c' & -> & Ho). cbn [mbind result_bind]. rewrite Htt, Ho.
  cbn [c_options set_options]. unfold remove_iroutes_from_push_route_list. change (push_list o) with (push_list (c_options c)).
  change (iroutes o) with (rev (map iroute_of nets)). rewrite Hp, <- without_own_routes by done.
  pose proof (push_lines_length tss Hok). destruct (rev (map iroute_of nets)) as [|ir irs] eqn:E.
  - cbn [mbind result_bind]. eexists _, _, _. split; [done|]. split; [|done]. cbn [c_options set_push_reply_deferred set_context_auth set_options].
    change (push_list o) with (push_list (c_options c)). rewrite Hp. do 3 f_equal. unfold without_own. symmetry.
    apply forallb_filter_id, forallb_forall. intros ts _. unfold is_own_route. destruct (_ <$> ts) as [|? [|? [|? ?]]]; try done.
    destruct (getaddr _); [|by rewrite andb_false_r]. destruct (getaddr _); by rewrite andb_false_r.
  - pose proof (remove_routes_ok getaddr (ir :: irs) tss (S (length (push_text (push_lines tss)))) [] Hok ltac:(lia) Hlen) as Hrm.
    change (push_text (push_lines [])) with ([] : cstr) in Hrm. rewrite Hrm.
    cbn [mbind result_bind]. by eexists _, _, _.
Qed.
End Established.

(** Of 10.1.0.0/16 and 10.2.0.0/16 the client has the first. *)
Definition demo_route (n : string) : list token := [Word (text "route"); Word (text n); Word (text "255.255.000.000")].
Lemma own_networks_not_pushed_witness :
  exists pool' h' c', multi_connection_established aton3 (add_option aton3 aton3 log_option false (-1)) 5 (TunTap DEV_TYPE_TUN 1 2 false 0) None
      (Some (map iroute_directive [(text "010.001.000.000", text "255.255.000.000")])) true 0 None (-1)
      (demo_context false (Some (push_text (push_lines [demo_route "010.001.000.000"; demo_route "010.002.000.000"]))) []) = Ok (pool', h', c') /\
    push_list (c_options c') = Some (text "route 010.002.000.000 255.255.000.000").
Proof.
  destruct (own_networks_not_pushed (T := mailbox) aton3 aton3 log_option (-1) 5 (TunTap DEV_TYPE_TUN 1 2 false 0) None 0 None (-1)
    (demo_context false (Some (push_text (push_lines [demo_route "010.001.000.000"; demo_route "010.002.000.000"]))) []) ([], [])
    [(text "010.001.000.000", text "255.255.000.000")] [demo_route "010.001.000.000"; demo_route "010.002.000.000"])
    as (pool' & h' & c' & E & Hp & _).
  1-5, 7, 9-10: by vm_compute.
  - constructor; [|constructor]. split; [split; [done|]; apply good_word_text; [done|]; by repeat constructor|].
    split; [split; [done|]; apply good_word_text; [done|]; by repeat constructor|]. cbn. eexists _, _, _. by repeat split; vm_compute.
  - repeat constructor; try done; (apply good_word_text; [done|]; by repeat constructor).
  - exists pool', h', c'. split; [exact E|]. by rewrite Hp.
Defined.

(** ** Options longer than the client's buffer *)

Lemma buf_parse_loop_full s : forall line r size, Forall plain s -> 0 <= size - Zlen line <= Zlen s ->
  buf_parse_loop (s ++ 0 :: r) 44 line size =
    (false, line ++ take (Z.to_nat (size - Zlen line)) s, drop (S (Z.to_nat (size - Zlen line))) (s ++ 0 :: r)).
Proof.
  induction s as [|c s IH]; intros line r size Hs Hl.
  - change (Zlen (@nil byte)) with 0 in Hl. cbn [app buf_parse_loop]. replace (Zlen line >=? size) with true by lia. replace (size - Zlen line) with 0 by lia.
    by rewrite app_nil_r.
  - inversion Hs as [|? ? ((Hc & _) & Hd) Hs']; subst. rewrite Zlen_cons in Hl. cbn [app buf_parse_loop].
    replace (c <=? 0) with false by lia. replace (c =? 44) with false by lia. cbn [orb]. replace (c =? 0) with false by lia.
    destruct (Zlen line >=? size) eqn:E; bool_simp.
    + replace (size - Zlen line) with 0 by lia. by rewrite app_nil_r.
    + assert (Zlen (line ++ [c]) = Zlen line + 1) as El by (rewrite Zlen_app; done). rewrite IH by (try done; lia). rewrite El.
      replace (Z.to_nat (size - Zlen line)) with (S (Z.to_nat (size - (Zlen line + 1)))) by lia. cbn [take drop]. by rewrite <- app_assoc.
Qed.

(** Push_option accepts options of up to a thousand characters, but a client cuts those of more than 255: it takes
    the first 255 characters for the option, loses two, and takes what follows for another option. *)
Theorem long_option_is_cut {Tuntap Routes Rest Opts : Type} (add : Opts -> Z -> list cstr -> result (Opts * Z)) fatal
    (o : options Tuntap Routes Rest) (client : Opts) s r fuel :
  Forall push_char s -> OPTION_PARM_SIZE <= Zlen s -> Zlen s + 2 < MAX_PUSH_LIST_LEN -> push_list o = None ->
  push_option fatal o s = Ok (set_push_list o (Some s)) /\
  apply_push_loop add (S fuel) client (s ++ 0 :: r) =
    (p ← parse_line false MAX_PARMS (take 255 s);
     client ← (match p with [] => Ok client | _ => '(client, _) ← add client 0 p; Ok client end);
     apply_push_loop add fuel client (drop 257 (s ++ 0 :: r))).
Proof.
  intros Hs Hl Hlen Hp. split.
  - apply (push_option_ok fatal o [] s); [by rewrite Hp|done| |exact Hlen]. intros ->. by destruct Hl.
  - unfold OPTION_PARM_SIZE in *. cbn [apply_push_loop]. unfold buf_parse, OPTION_PARM_SIZE. change (256 >? 0) with true. cbn [assert_ mbind result_bind].
    assert (Forall plain s) as Hpl by (eapply Forall_impl; [|exact Hs]; apply push_char_plain).
    rewrite buf_parse_loop_full by (try done; cbn; lia). change (Z.to_nat (256 - Zlen [])) with 256%nat.
    change (Z.to_nat (256 - 1)) with 255%nat. cbn [app andb negb]. rewrite take_take. change (255 `min` 256)%nat with 255%nat.
    by rewrite cstring_text by (apply Forall_take; eapply Forall_impl; [|exact Hpl]; intros c [[Hc _] _]; lia).
Qed.

Lemma long_option_is_cut_witness :
  let s := text "echo " ++ replicate 250 120 ++ text "no route 0.0.0.0" in
  push_option false (demo_options false) s = Ok (set_push_list (demo_options false) (Some s)) /\
  apply_push_loop log_option 3 (demo_options true, 0) (s ++ [0]) =
    (p ← parse_line false MAX_PARMS (take 255 s);
     client ← (match p with [] => Ok (demo_options true, 0) | _ => '(client, _) ← log_option (demo_options true, 0) 0 p; Ok client end);
     apply_push_loop log_option 2 client (drop 257 (s ++ [0]))).
Proof.
  intros s. apply (long_option_is_cut log_option false (demo_options false) (demo_options true, 0) s [] 2); [|by vm_compute..].
  apply Forall_forall. intros c Hc. unfold push_char.
  assert (forallb (fun c => isprint c && negb (c =? 44)) s = true) as Hall by by vm_compute.
  rewrite forallb_forall in Hall. specialize (Hall c Hc). apply andb_true_iff in Hall as [H1 H2]. split; [done|]. lia.
Defined.

(** ** The TLS sessions implement the interface *)

Section TlsChannel.
Context {tls_obj : Type} `{OpenSSL} `{Env} `{Bio tls_obj}.

(** What TLS decrypted is received whole and once. *)
Theorem tls_channel_receives fill (m : Tls.tls_multi (tls_obj := tls_obj)) h p bs :
  state (key_primary (s_active m)) >= S_ACTIVE -> buf_rep h p (plaintext_read_buf (key_primary (s_active m))) bs -> bs <> [] ->
  exists m' h', chan_recv (ControlChannel := tls_control_channel fill) (m, h) = Ok (Some bs, (m', h')) /\
    chan_recv (ControlChannel := tls_control_channel fill) (m', h') = Ok (None, (m', h')).
Proof.
  intros Hs Hr Hne. set (b := plaintext_read_buf (key_primary (s_active m))) in *. pose proof (buf_rep_Zlen _ _ _ _ Hr) as HL.
  assert (0 < b_len b) as Hpos by (rewrite <- HL; destruct bs; [done|rewrite Zlen_cons; pose proof (Zlen_nonneg bs); lia]).
  assert (BLEN b = b_len b) as EB by done.
  assert (wp (tls_recv fill m) (fun r _ => fst r = Some bs /\ tls_test_payload_len (snd r) = 0) h) as Hw.
  { assert (tls_test_payload_len m = b_len b) as El.
    { unfold tls_test_payload_len. by replace (state _ >=? S_ACTIVE) with true by lia. }
    unfold tls_recv. rewrite El. replace (b_len b =? 0) with false by lia. cbn [negb]. wp_steps. rep_facts Hr.
    eapply wp_mono; [apply wp_alloc_buf; unfold BUF_MAX; lia|]. intros d h1 (q & -> & Hd & Hf). wp_steps. unfold tls_rec_payload.
    replace (state _ >=? S_ACTIVE) with true by lia. fold b. rewrite EB. replace (b_len b =? 0) with false by lia. cbn [negb andb]. wp_steps.
    eapply wp_mono; [apply (wp_buf_copy h1 q _ [] p b bs Hd); [by eapply buf_rep_fresh_ext|cbn; lia]|].
    intros r h2 (-> & Hq & _). wp_steps. rewrite (BPTR_rep _ _ _ _ Hq). wp_steps.
    eapply wp_load; [apply (br_bytes _ _ _ _ Hq)|]. wp_steps. split; [done|]. cbn [snd]. unfold tls_test_payload_len. cbn. by case_match. }
  unfold wp in Hw. cbn [chan_recv tls_control_channel]. destruct (tls_recv fill m h) as [[[r m'] h']| |]; [|done..]. destruct Hw as [Hw Hz]. cbn [fst snd] in Hw, Hz. subst r.
  exists m', h'. split; [done|]. unfold tls_recv. by rewrite Hz.
Qed.
End TlsChannel.
